(* ===== verification/_CoqProject ===== *)
-Q . S2P
Prelude.v
RtmpBytes.v
RtmpTypes.v
ChunkDecoder.v
ChunkEncoder.v
ChunkLoop.v
ChunkRoundtrip.v
ChunkInvariant.v
Amf.v
Amf3.v
Amf3Roundtrip.v
Amf0.v
AmfValue.v
RtmpUserControl.v
Codecs.v
RtmpFrames.v
RtmpIngress.v
RtmpMessage.v
RtmpCommand.v
RtmpHandshakeComplex.v
RtmpHandshake.v
RtmpHandshakeSpec.v
RtmpPublish.v
RtmpSession.v
RtmpSessionSpec.v
RtmpConversation.v
Rtp.v
RtpH26x.v
RtpH26xSpec.v
Ts.v
Aac.v
Tracks.v
TsMux.v
TsDemux.v
TsTables.v
TsSpec.v
Ehome.v
RtpReorder.v
Timeline.v
TimestampNormalizer.v
MediaKeys.v
ControlIds.v
ControlPlane.v
Capacity.v
NodeSupervisor.v
Idempotency.v
Resources.v
Reconciler.v
Mutations.v
Cursors.v
EventJournal.v
EventStream.v
EngineTypes.v
EngineRing.v
EngineDispatch.v
EnginePool.v
EngineStreams.v
EngineStreamsSpec.v
EngineLeases.v
EngineSubscribe.v
Egress.v
FrameView.v
Flv.v
FlvEgress.v
FlvIngress.v
FlvSpec.v
Rtcp.v
RtcpFeedback.v
Text.v
Framing.v
RtspMessage.v
RtspCore.v
RtspCoreSpec.v
Fmp4Box.v
Fmp4Mux.v
Fmp4Demux.v
Fmp4Spec.v
HlsFmp4.v
Hls.v
HlsSpec.v
