(* ===== verification/Prelude.v ===== *)
(** * Cheetah media server: verification of the protocol and stream cores

    Cheetah is a live media server: publishers push streams over RTMP, RTSP, RTP
    and other protocols, an engine keeps each stream and hands it to subscribers,
    and a control plane names, admits and observes streams. This library models
    the parts of that path that decide what is delivered: the RTMP protocol core
    from bytes to session events, the repair of RTP order and of media time, the
    stream engine, and of the control plane what admits and fences mutations. Paths below
    are under [crates/].

    ** Parts and files

    - Prelude: machine integers of any width ([wrap_u], [wrap_i], [sat_i]), Rust's
      [Result] and the state-and-error monad [SE] of methods that take [&mut self]
      and return a [Result], comparison tactics, the hint database [rust].
    - RtmpBytes: [protocols/rtmp/core/src/bytes.rs], [error.rs]. Readers, writers and
      the receive buffer [Buf].
    - RtmpTypes: [chunk/mod.rs], [message/mod.rs], [media.rs]. Chunk stream ids, chunk
      sizes, timestamps, message types.
    - ChunkDecoder, ChunkEncoder: [chunk/decoder.rs], [chunk/encoder.rs], a
      definition per method. ChunkLoop: the loop around the decoder in
      [message/decoder.rs] and [core.rs], written once against the class
      [HasDecoder]. ChunkRoundtrip, ChunkInvariant: their theorems.
    - RtmpUserControl: [user_control.rs].
    - Amf, Amf3, Amf0, AmfValue: [protocols/rtmp/core/src/amf.rs], [amf/amf0.rs],
      [amf/amf3.rs]. Amf holds UTF-8, the doubles, and the class [AmfCodec] through
      which the AMF0 codec uses the AMF3 one; Amf3Roundtrip and AmfValue give
      its instances; AmfValue joins both versions.
    - RtmpHandshakeComplex: [handshake_complex.rs]. RtmpHandshake: [handshake.rs],
      server and client automata. RtmpHandshakeSpec: the class [HandshakeMachine],
      refinement of a machine to a function of the bytes it has received, and both
      ends connected.
    - Codecs: [CodecId] of [foundation/cheetah-codec/src/track.rs] and the RTMP
      identifiers of [compat.rs]. RtmpFrames, RtmpIngress: the frame part of
      [media.rs] and its ingress half, the headers of legacy and enhanced tags.
    - RtmpMessage: [message/*.rs], typed messages to chunks and back, with its theorems.
    - RtmpCommand: [command.rs], the commands of the RTMP conversation as AMF values.
    - RtmpPublish: [core/media.rs] and the publish states of [core.rs] and
      [core/command]. What the chunk layer delivers for a stream that is not
      accepted yet waits here.
    - RtmpSession: [core.rs], [core/handshake.rs], [core/command/*.rs], the whole
      [RtmpCore]: bytes and application commands in, events and bytes out.
      RtmpSessionSpec: an abstract session, and that every input of the core is a
      sequence of its steps. RtmpConversation: two ends, and whole connections.
    - Rtp, Ehome: [foundation/cheetah-codec/src/rtp.rs]. RTP packets, their framings
      over TCP, plain packetizing and reassembly; the Ehome stream decoder.
    - RtpH26x: the H.264 and H.265 part of [protocols/rtsp/module/src/media.rs],
      packetizers and assemblers. RtpH26xSpec: its theorems, over the class
      [NalFormat] of which both codecs are instances.
    - Ts, Aac, Tracks, TsMux, TsDemux: [ts_common.rs], [audio.rs], [track.rs] and
      [video.rs], [ts_mux.rs], [ts_demux.rs] of [foundation/cheetah-codec/src]: MPEG
      transport streams in both directions. TsTables: what the demuxer makes
      of the packets and the tables of the muxer. TsSpec: both ends together.
    - Egress, FrameView: [egress.rs], [frame_view.rs] of the same library: the times a player
      is given, and the two layouts of access units. Flv, FlvEgress, FlvIngress: [flv.rs],
      [flv_egress.rs], [flv_ingress.rs] and, of [protocols/http-flv/module/src], what
      [module.rs] sends for a header and a frame and what [pull/streaming.rs] does with
      what it reads. FlvSpec: tags on the wire, and both ends together.
    - Fmp4Box, Fmp4Mux, Fmp4Demux: [fmp4_mux.rs], [fmp4_demux.rs] of the same library:
      fragmented MP4. Fmp4Spec: what the demuxer makes of the initialization segment and of a
      fragment of the muxer, boxes on a stream, both ends together, and the times. HlsFmp4: [fmp4_mux.rs], [fmp4_demux.rs] of
      [protocols/hls/core/src], which wrap them, with a segment reader of their own. Hls: the
      rest of that directory but the segments of transport streams (the ring of segments, parts of
      low latency, subtitles, playlists and their parser, routes of requests, player and pacer),
      and of [protocols/hls/module/src] the rounds of [pull.rs] and the tokens that [muxer.rs]
      adds to a playlist. HlsSpec: a playlist is read back, and a puller gets the stream.
    - Rtcp, RtcpFeedback: [protocols/rtsp/core/src/core/rtcp.rs], [rtcp_fb.rs], [rtcp_xr.rs].
      Text: the operations of Rust's [str] that the text protocols use. Framing: the loop
      that takes frames off a buffer, and why the cuts do not matter. RtspMessage,
      RtspCore: [message.rs], [limits.rs], [method.rs], [mod.rs], [interleaved.rs],
      [connection.rs] of the same directory. RtspCoreSpec: their theorems.
    - RtpReorder: [foundation/cheetah-codec/src/rtp_reorder.rs], and the tracker of
      [protocols/rtsp/core/src/core/seq_tracker.rs].
    - Timeline, TimestampNormalizer: [foundation/cheetah-codec/src/time.rs]. Every
      ingress sends its timestamps through the normalizer before the engine sees a
      frame.
    - MediaKeys: [sdk/cheetah-media-api/src/ids.rs]. How a public [MediaKey] becomes
      the [StreamKey] of the engine.
    - ControlPlane: errors and resource references of [sdk/cheetah-media-api] and
      [system/cheetah-media-control-plane/src/error.rs], and the interfaces [Json] and
      [OrderBy] of the libraries it calls. In the same crate: Capacity ([capacity.rs]),
      NodeSupervisor ([node_supervisor.rs]), which drives the gate of Capacity, and
      Idempotency ([idempotency.rs], [store.rs], [sqlite.rs]), the table that makes
      mutations idempotent. Mutations ([mutation.rs]) joins the three. Resources ([resource_store.rs], [orphan_store.rs]) holds the
      tables of resources and orphan marks, Reconciler ([reconciler.rs]) works on them.
      ControlIds: the validated identifiers of [sdk/cheetah-media-api/src/ids.rs].
      Cursors: page cursors and resource filters of the same crate ([cursor.rs],
      [event_cursor.rs], [resource_filter.rs]). EventJournal ([event_store.rs]) is the
      table of events, EventStream ([event_stream.rs]) the service that pages through it.
    - EngineTypes: the frames, options, policies and events that the engine reads.
      EngineRing, EngineDispatch, EnginePool, EngineStreams:
      [system/cheetah-engine/src/stream.rs] from the inside out. A [StreamEntry]
      (EngineStreams) owns a [RingBuffer] (EngineRing) and a [Dispatcher]
      (EngineDispatch), which sends frames at once or through the lanes of the
      [SharedDispatchPool] (EnginePool).
    - EngineStreamsSpec: worlds of publishers and subscribers that call the manager
      in any order. EngineLeases: the lease operations cut into atomic steps and
      interleaved. EngineSubscribe: what reaches a subscriber.

    ** What the theorems show

    - Wire: messages survive encoding, any segmentation and decoding
      ([chunk_transport_exact]); arbitrary bytes keep the decoder well-formed and
      bounded ([decode_preserves_wf]); segmentation never matters
      ([segmentation_independent]); user control events and their bytes determine
      each other ([user_control_wire]); so do typed messages and commands
      ([message_transport], [command_wire]), tags ([media_tags_wire]) and codec
      records ([avc_record_wire]).
    - Session: in no reachable session does an input make the core panic: the receive buffer,
      handshake packets, commands and aggregates are cut in range, and no assertion of an
      encoder fails ([session_never_panics]); media is heard only from a stream that was published
      and accepted ([session_media_accepted]); the state only moves forward
      ([session_moves_forward]); every input of the core, failing ones included, is a
      sequence of abstract steps with the same events ([session_is_readable]). A command
      that a client sends is the command the server acts on
      ([client_command_arrives]); nested aggregates need a stack as deep as the
      payload ([aggregates_nest]); [whole_connection] runs one connection from the
      first byte to the close. Parsing the ingress header of a tag stays within its
      bytes ([ingress_in_bounds]).
    - AMF: every value either version can carry survives encoding and decoding
      ([amf0_roundtrip], [amf3_roundtrip]); decoding any bytes ends, within fuel of
      the length of the input ([amf_decode_terminates]).
    - Handshake: the server is a function of the stream it received
      ([server_handshake_stream]); both ends complete with each other
      ([handshake_pair_completes]); the complex reply is signed where it says
      ([complex_s1_digest_valid]).
    - Publish gate: nothing passes before acceptance ([media_needs_acceptance]), what
      was kept is replayed in order ([publish_replay]), the buffer's books are right
      ([publish_buffer_consistent]).
    - RTP: of packets with true numbers that the wire carries modulo [2^16], release by rising
      number, none twice, and all up to the first that is missing while the limits are not
      reached ([reorder_stream]), and for arbitrary packets what can still be said
      ([reorder_any_numbers]); recovery of the true numbers ([unwrapper_recovers]); the RTCP tracker against an unbounded
      reference ([tracker_refines]); a payload comes back from its packets in any order
      ([packets_reassemble]) and packets from their framing over TCP ([rtp_tcp_wire],
      [ehome_segmentation_free]); H.264 and H.265 access units packed into RTP are
      assembled again, from any state of the assembler ([access_units_arrive]).
    - RTCP: compound packets are parsed as they were built ([rtcp_compound]), feedback is
      found in them ([feedback_arrives]), NACK items ask for exactly what was lost
      ([nack_asks_for_losses]).
    - RTSP: requests, responses and interleaved frames on one connection are heard in order,
      however they are cut ([rtsp_stream_arrives]); answers reach the client
      ([answer_arrives]); the buffer is bounded ([buffer_bounded]); session headers come back
      ([session_header_roundtrip]).
    - Transport streams: frames of any tracks, muxed and cut anywhere, come out of the
      demuxer with both times, with the payload that an independent table of access unit
      delimiters and parameter sets gives, and with the key flag where the frame is marked
      honestly ([ts_roundtrip]).
    - FLV: tags survive any segmentation ([flv_segmentation_free]); what a player is sent is
      what another server pulls ([flv_playback_roundtrip]); the metadata is what the RTMP core
      writes and reads ([metadata_is_amf0], [metadata_decodes]); decode times made from a
      window rise ([window_dts_rise]); the aligner makes audio meet video
      ([audio_meets_video]).
    - Fragmented MP4: what is muxed for any tracks comes out of the demuxer, however it is cut
      ([fmp4_stream_arrives]); times that are not whole ticks come out late by no more than a
      tick for each sample of the fragment before ([times_late]); boxes are processed in
      order ([stream_processed]); HLS segments come back ([hls_segment_comes_back]).
    - HLS: the parser reads of a playlist the segments of the ring with their durations in
      milliseconds, whatever token was added ([hls_playlist_comes_back]); a puller that asks for
      what it lists gets every segment once and in order while it keeps up with the ring and
      downloads succeed ([hls_pull_gets_stream]); parts that are listed can be fetched
      ([parts_are_found]).
    - Time: no decode timestamp goes back, on any input ([normalized_dts_monotone]);
      a regular source is reproduced ([normalized_frame]); unwrapping, conversion and
      stamping ([unwrap_recovers], [timebase_roundtrip], [stamps_increase]).
    - Engine, one stream: the ring returns what was written ([ring_reads_recent]); a
      bootstrap starts at a keyframe and is a suffix ([bootstrap_decodable]);
      dispatch gives each subscriber the fate of a decision table for its filter, policy and
      queue ([dispatch_frame_spec], [subscriber_fifo], [backpressure_policies]); the shared pool keeps the order of
      a stream under every interleaving ([pool_preserves_stream_order]); a new
      subscriber of a stream that is dispatched directly hears, of the kinds it wants, the
      bootstrap and then everything ([subscriber_hears_stream], [subscribe_refusals]); the
      bootstrap ignores the media filter ([bootstrap_ignores_media_filter]).
    - Engine, all streams: one publisher per key ([single_publisher],
      [acquire_exclusive]), old handles are harmless ([stale_lease_harmless]), the
      tables agree ([manager_consistent]), media events are paired
      ([media_events_lifecycle]). These speak of operations that do not overlap. With
      atomic steps interleaved, acquisitions alone keep one publisher per key
      ([acquire_race_safe]) and an entry never has two ([entry_exclusive]), and
      undisturbed steps are the sequential calls ([steps_refine_calls]); releases and
      idle cleanups can break the first, which [two_publishers_of_one_key] and
      [cleanup_orphans_publisher] execute.
    - Keys: exactly which media keys survive the bridge ([bridge_reversible]).
    - Control plane: the books of a node are exact and never over a limit it was granted
      under ([capacity_exact]); from the first registration on the gate is open while the node is
      active, and activity begins with a lease ([supervisor_fences]); an idempotency key answers
      by its last write while that is in force and in date, for transactions whose clocks may go
      back ([idempotency_by_history]); the table of resources is a map of records
      ([resources_refine]); the reconciler marks and confirms in their time, a pass changes no resource, and a clean-up
      leaves bound ones alone ([orphans_protected]), though it asks for no mark
      ([cleanup_needs_no_mark]); it finds every orphan while its limits suffice ([orphans_found]). A mutation is
      admitted by a node and a capacity that are configured and open, and then by the history of
      its key, with any number of callers ([mutations_by_history]). A subscriber that resumes by
      cursor gets no event twice and all in order, and every event that was written in turn until
      its retention is over, whatever is written and purged meanwhile ([events_once_in_order]);
      what a page holds and when it reports a gap ([poll_page_exact]); which cursors are refused
      and with which code ([cursor_refusals]). Where documents of the repository ask for
      something else, examples show it: [numbers_start_over], [poll_is_stuck],
      [expired_status_passes_the_check], [other_instance_is_expired],
      [previous_key_is_refused].

    ** Conventions and bounds

    A byte is [Byte.byte]; a machine integer is a [Z] with the wrap-around, saturation
    or check of the operation written out. Overflowing [+] wraps, as in a release
    build. A method on [&mut self] returns the state it leaves, on errors too. Maps
    are [gmap]. An [Arc] that is shared (a stream entry) is an identifier into a heap.

    Loops that are not structural take fuel: [pump] and [encode_chunks] are done
    within one turn per byte and one more ([pump_fuel], [encode_chunks_fuel]; with
    [pump_unfold] the loop has its equation without fuel), and [evict] removes one
    of its [length] elements per turn. [aggregate_loop] consumes eleven
    bytes per turn and [on_message_depth] recurses on strictly shorter payloads, so
    both get the length of the payload and one more. The RTP packetizers take a byte per
    turn, the splitter of access units three, the Ehome decoder four; so do the loops over
    transport streams (a packet takes a byte of its PES packet, a turn of [push_loop] a byte of
    its input, an ADTS frame seven); their fuel is the length. The AMF decoders consume a byte
    before every nested value or recurse on fewer bytes, so the length of the payload is fuel
    enough ([amf_decode_terminates]). The box loops of MP4 take eight bytes per turn
    ([for_each_fuel], [push_fuel]).
    Every function of the library is total and returns. In the RTMP session indexing out of
    bounds is the outcome [Panic] where the code indexes: the unread part of the receive buffer
    ([buf_in_range]), the packets of the complex handshake ([None] in RtmpHandshakeComplex),
    the values of a command ([slice_from]) and the parts of an aggregate ([slice]).
    Exhaustion of the stack or of memory is not an outcome.

    Theorems on runs of operations assume fewer than [2^62] of them (stream, lease and
    subscriber ids are 64-bit counters) or [2^39] (the byte count of the pending
    buffer grows by at most 8 MiB per message). Ring positions and versions are [nat].

    ** Parameters

    HMAC-SHA256 and SHA-256 (crates [hmac], [sha2]) are functions, of the handshake with
    32-byte results; base64 is the class [Base64], with its round trip. The
    bounded [mpsc] channel of tokio is the class [BoundedChannel] with the
    documented laws of [try_send] and receiving; [list_channel] is an instance.
    Packets of the reorder buffer and track information are of any type, since the
    code only carries them. serde_json is the class [Serde], and for types of texts and integers the
    class [Json] (what was written reads back); JSON values with floating-point numbers need not
    ([reads_back]). An ordered query is the class [OrderBy]. [DashMap], atomics and [ArcSwap] are plain state, one
    access at a time, sequentially consistent in EngineLeases.

    ** Not modelled

    The RTMP module beyond ingress (its tasks, queues and relays); of RTSP the session
    handlers, SDP, ranges, transports and authentication, and the payload formats besides H.26x;
    MP4 files, the HLS sessions of the module and its segments of transport streams; the drivers of HTTP-FLV, SRT, WebRTC and GB28181;
    the contents of parameter sets; the module manager, admission and configuration of the
    engine; recovery and rollback of the control plane, HTTP and gRPC adapters, recording and
    proxies; sockets, tasks and timers of the drivers. Most of these are input and output, or text
    formats whose parsers keep no state. [close_idle_publishers] of the engine depends on the wall
    clock and iterates over the map it changes. *)
From stdpp Require Export base tactics numbers list gmap option fin_maps strings pretty.
From Stdlib Require Export ZArith Lia.
From Stdlib Require Import Strings.Byte.
#[export] Set Default Goal Selector "!".
#[global] Open Scope Z_scope.

(** ** Automation *)

(** The hint database of the development: bounds and closure facts that
    several components need. *)
Create HintDb rust.
Create Rewrite HintDb rust.

(** Case analysis on every integer comparison of the goal. *)
Ltac zcases :=
  repeat match goal with
  | |- context [?a <? ?b] => destruct (Z.ltb_spec a b)
  | |- context [?a <=? ?b] => destruct (Z.leb_spec a b)
  | |- context [?a =? ?b] => destruct (Z.eqb_spec a b)
  end.

(** The same on the hypotheses. *)
Ltac zcases_in H :=
  repeat match type of H with
  | context [?a <? ?b] => destruct (Z.ltb_spec a b)
  | context [?a <=? ?b] => destruct (Z.leb_spec a b)
  | context [?a =? ?b] => destruct (Z.eqb_spec a b)
  end.

(** Linear arithmetic with division and remainder by constants. *)
Ltac zdm := Z.div_mod_to_equations; lia.

(** ** Machine integers

    A [w]-bit unsigned integer is a [Z] in [[0, 2^w)], a signed one a [Z] in
    [[-2^(w-1), 2^(w-1))]; the operations below are Rust's [as] casts, and its
    [wrapping_*], [saturating_*] and [checked_*] methods. *)

Definition in_u (w z : Z) : Prop := 0 <= z < 2 ^ w.
Definition in_i (w z : Z) : Prop := - 2 ^ (w - 1) <= z < 2 ^ (w - 1).
Definition wrap_u (w z : Z) : Z := z mod 2 ^ w.
Definition wrap_i (w z : Z) : Z := (z + 2 ^ (w - 1)) mod 2 ^ w - 2 ^ (w - 1).
Definition sat_u (w z : Z) : Z := Z.max 0 (Z.min z (2 ^ w - 1)).
Definition sat_i (w z : Z) : Z := Z.max (- 2 ^ (w - 1)) (Z.min z (2 ^ (w - 1) - 1)).
(** [checked_sub] of an unsigned type: [None] on underflow. *)
Definition checked_sub_u (a b : Z) : option Z := if a <? b then None else Some (a - b).
(** [rotate_left]. *)
Definition rotl (w z k : Z) : Z :=
  wrap_u w (Z.lor (Z.shiftl z k) (Z.shiftr z (w - k))).

Lemma wrap_u_range (w z : Z) : 0 <= w -> in_u w (wrap_u w z).
Proof. intros. apply Z.mod_pos_bound, Z.pow_pos_nonneg; lia. Qed.

Lemma wrap_u_small (w z : Z) : in_u w z -> wrap_u w z = z.
Proof. apply Z.mod_small. Qed.

Lemma wrap_i_range (w z : Z) : 0 < w -> in_i w (wrap_i w z).
Proof.
  intros. unfold in_i, wrap_i.
  assert (2 ^ w = 2 * 2 ^ (w - 1)) by (rewrite <- Z.pow_succ_r by lia; f_equal; lia).
  pose proof (Z.mod_pos_bound (z + 2 ^ (w - 1)) (2 ^ w) ltac:(apply Z.pow_pos_nonneg; lia)).
  lia.
Qed.

Lemma wrap_i_small (w z : Z) : 0 < w -> in_i w z -> wrap_i w z = z.
Proof.
  unfold in_i, wrap_i. intros.
  assert (2 ^ w = 2 * 2 ^ (w - 1)) by (rewrite <- Z.pow_succ_r by lia; f_equal; lia).
  rewrite Z.mod_small; lia.
Qed.

Lemma sat_i_range (w z : Z) : 0 < w -> in_i w (sat_i w z).
Proof.
  intros. unfold in_i, sat_i.
  pose proof (Z.pow_pos_nonneg 2 (w - 1)). lia.
Qed.

Lemma sat_i_small (w z : Z) : in_i w z -> sat_i w z = z.
Proof. unfold in_i, sat_i. lia. Qed.

(** Joining a shifted high part and a low part: [(k << n) | b]. *)
Lemma lor_shiftl (k b n : Z) :
  0 <= n -> 0 <= b < 2 ^ n -> Z.lor (Z.shiftl k n) b = k * 2 ^ n + b.
Proof.
  intros Hn Hb. assert (L : Z.land (Z.shiftl k n) b = 0).
  { apply Z.bits_inj'. intros i Hi. rewrite Z.land_spec, Z.bits_0.
    destruct (Z.lt_ge_cases i n) as [L|L].
    - by rewrite Z.shiftl_spec_low.
    - rewrite (proj1 (Z.bounded_iff_bits_nonneg' n b Hn ltac:(lia)) Hb i L).
      by rewrite andb_false_r. }
  pose proof (Z.add_lor_land (Z.shiftl k n) b) as E.
  rewrite Z.shiftl_mul_pow2 in * by done. lia.
Qed.

(** The same when the high part is a sum. *)
Lemma lor_add (a b n : Z) : 0 <= n -> a mod 2 ^ n = 0 -> 0 <= b < 2 ^ n -> Z.lor a b = a + b.
Proof.
  intros Hn Ha Hb. assert (0 < 2 ^ n) by (apply Z.pow_pos_nonneg; lia).
  pose proof (Z.div_mod a (2 ^ n) ltac:(lia)) as E. rewrite Ha in E.
  replace a with (Z.shiftl (a / 2 ^ n) n) at 1 by (rewrite Z.shiftl_mul_pow2; lia).
  rewrite lor_shiftl by done. lia.
Qed.

(** Masks of the low bits. *)
Create Rewrite HintDb masks.

Lemma land_3 x : Z.land x 0x03 = x mod 4.
Proof. exact (Z.land_ones x 2 ltac:(done)). Qed.
Lemma land_7 x : Z.land x 0x07 = x mod 8.
Proof. exact (Z.land_ones x 3 ltac:(done)). Qed.
Lemma land_1 x : Z.land x 0x01 = x mod 2.
Proof. exact (Z.land_ones x 1 ltac:(done)). Qed.
Lemma land_15 x : Z.land x 0x0f = x mod 16.
Proof. exact (Z.land_ones x 4 ltac:(done)). Qed.
Lemma land_255 x : Z.land x 0xff = x mod 256.
Proof. exact (Z.land_ones x 8 ltac:(done)). Qed.
Lemma land_31 x : Z.land x 0x1f = x mod 32.
Proof. exact (Z.land_ones x 5 ltac:(done)). Qed.

#[export] Hint Rewrite land_1 land_3 land_7 land_15 land_31 land_255 : masks.

(** A mask of one bit. *)
Lemma land_pow2 (z n : Z) : 0 <= n -> (Z.land z (2 ^ n) =? 0) = negb (Z.testbit z n).
Proof.
  intros Hn. destruct (Z.eqb_spec (Z.land z (2 ^ n)) 0) as [E|E].
  - apply (f_equal (fun x => Z.testbit x n)) in E.
    rewrite Z.land_spec, Z.pow2_bits_true, Z.bits_0, andb_true_r in E by done. by rewrite E.
  - destruct (Z.testbit z n) eqn:Et; [done|]. destruct E. apply Z.bits_inj'. intros i Hi.
    rewrite Z.land_spec, Z.pow2_bits_eqb, Z.bits_0 by done.
    destruct (Z.eqb_spec n i) as [<-|]; [by rewrite Et|by rewrite andb_false_r].
Qed.

(** The top bit of a [w]-bit value tells whether it is negative when signed. *)
Lemma testbit_top (w z : Z) : 0 < w -> in_u w z -> Z.testbit z (w - 1) = (2 ^ (w - 1) <=? z).
Proof.
  intros Hw Hz. unfold in_u in Hz.
  assert (E : 2 ^ w = 2 * 2 ^ (w - 1)) by (rewrite <- Z.pow_succ_r by lia; f_equal; lia).
  pose proof (Z.pow_pos_nonneg 2 (w - 1)) as P. rewrite Z.testbit_odd, Z.shiftr_div_pow2 by lia.
  destruct (Z.leb_spec (2 ^ (w - 1)) z).
  - replace (z / 2 ^ (w - 1)) with 1; [done|].
    apply (Z.div_unique _ _ _ (z - 2 ^ (w - 1))); lia.
  - by rewrite Z.div_small by lia.
Qed.

#[export] Hint Resolve wrap_u_range wrap_i_range sat_i_range : rust.

(** ** Fallible computations *)

(** Rust's [Result], error type first. *)
Inductive result (E A : Type) : Type :=
| Ok (a : A)
| Err (e : E).
Arguments Ok {E A} a.
Arguments Err {E A} e.

Definition result_bind {E A B} (r : result E A) (k : A -> result E B) : result E B :=
  match r with Ok a => k a | Err e => Err e end.

Definition result_map {E A B} (f : A -> B) (r : result E A) : result E B :=
  match r with Ok a => Ok (f a) | Err e => Err e end.

(** [Result::map_err]. *)
Definition result_map_err {E F A} (f : E -> F) (r : result E A) : result F A :=
  match r with Ok a => Ok a | Err e => Err (f e) end.

(** [Result::ok]. *)
Definition result_ok {E A} (r : result E A) : option A :=
  match r with Ok a => Some a | Err _ => None end.

(** [Option::ok_or]. *)
Definition ok_or {E A} (o : option A) (e : E) : result E A :=
  match o with Some a => Ok a | None => Err e end.

(** A method taking [&mut self] and returning a [Result]: the state survives an
    error, with the changes made before the [?] that returned it. *)
Definition SE (S E A : Type) : Type := S -> S * result E A.

Definition se_ret {S E A} (a : A) : SE S E A := fun s => (s, Ok a).
Definition se_err {S E A} (e : E) : SE S E A := fun s => (s, Err e).
Definition se_bind {S E A B} (m : SE S E A) (k : A -> SE S E B) : SE S E B :=
  fun s => match m s with
           | (s', Ok a) => k a s'
           | (s', Err e) => (s', Err e)
           end.
Definition se_get {S E} : SE S E S := fun s => (s, Ok s).
Definition se_upd {S E} (f : S -> S) : SE S E unit := fun s => (f s, Ok tt).
Definition se_of {S E A} (r : result E A) : SE S E A := fun s => (s, r).
(** Run a computation on the second component of the state. *)
Definition se_snd {S T E A} (m : SE T E A) : SE (S * T) E A :=
  fun st => let '(s, t) := st in let '(t', r) := m t in ((s, t'), r).

Lemma se_bind_ok {S E A B} (m : SE S E A) (k : A -> SE S E B) s s' a :
  m s = (s', Ok a) -> se_bind m k s = k a s'.
Proof. intros H. unfold se_bind. by rewrite H. Qed.

Lemma se_snd_ok {S T E A} (m : SE T E A) (s : S) t t' a :
  m t = (t', Ok a) -> se_snd m (s, t) = ((s, t'), Ok a).
Proof. intros H. unfold se_snd. by rewrite H. Qed.

Lemma se_if {S E A} (b : bool) (m1 m2 : SE S E A) s :
  (if b then m1 else m2) s = if b then m1 s else m2 s.
Proof. by destruct b. Qed.

Declare Scope rust_scope.
Delimit Scope rust_scope with rust.
Notation "x <- m ;; k" := (se_bind m (fun x => k))
  (at level 100, m at next level, right associativity) : rust_scope.
Notation "m ;;; k" := (se_bind m (fun _ => k))
  (at level 100, right associativity) : rust_scope.
Notation "x <-? r ;; k" := (result_bind r (fun x => k))
  (at level 100, r at next level, right associativity) : rust_scope.
#[global] Open Scope rust_scope.

(** ** Lists *)

Lemma filter_none {A} (P : A -> Prop) `{!forall x, Decision (P x)} (l : list A) :
  (forall x, x ∈ l -> ~ P x) -> filter P l = [].
Proof.
  induction l as [|x l IH]; intros Hall; [done|]. rewrite filter_cons_False by (apply Hall; left).
  apply IH. intros y Hy. apply Hall. by right.
Qed.

Lemma filter_all {A} (P : A -> Prop) `{!forall x, Decision (P x)} (l : list A) :
  (forall x, x ∈ l -> P x) -> filter P l = l.
Proof.
  induction l as [|x l IH]; intros Hall; [done|]. rewrite filter_cons_True by (apply Hall; left).
  f_equal. apply IH. intros y Hy. apply Hall. by right.
Qed.

Lemma filter_ext_in {A} (P Q : A -> Prop) `{!forall x, Decision (P x)} `{!forall x, Decision (Q x)}
    (l : list A) :
  (forall x, x ∈ l -> P x <-> Q x) -> filter P l = filter Q l.
Proof.
  induction l as [|x l IH]; intros Hall; [done|].
  assert (IHl : filter P l = filter Q l) by (apply IH; intros y Hy; apply Hall; by right).
  destruct (decide (P x)) as [Hx|Hx].
  - rewrite !filter_cons_True; [by rewrite IHl|apply Hall; [left|done]|done].
  - rewrite !filter_cons_False; [done| |done]. intros HQ. apply Hx, Hall; [left|done].
Qed.
