(* ===== verification/RtmpBytes.v ===== *)
(** * RTMP byte layer

    Models [crates/protocols/rtmp/core/src/bytes.rs] and [error.rs]: the error
    values of the protocol core, big-endian readers over a shrinking slice
    ([BytesReader for &[u8]]), big-endian writers over a growing vector
    ([BytesWriter for Vec<u8>]) and [Buf], the receive buffer that every decoder
    of the crate reads from. *)
From Stdlib Require Import Strings.Byte.
From S2P Require Import Prelude.

(** ** Errors ([error.rs]) *)

Inductive ErrorKind : Set :=
| InvalidInput
| InvalidData
| InvalidState
| Unsupported
| InsufficientBuffer.

#[export] Instance ErrorKind_eq_dec : EqDecision ErrorKind.
Proof. solve_decision. Defined.

(** The source location of the error is for display only and is left out. *)
Record Error : Set := mk_error { kind : ErrorKind; reason : string }.

Definition error_new (k : ErrorKind) : Error := mk_error k "".
Definition invalid_data (r : string) : Error := mk_error InvalidData r.
Definition invalid_input (r : string) : Error := mk_error InvalidInput r.
Definition invalid_state (r : string) : Error := mk_error InvalidState r.
Definition unsupported (r : string) : Error := mk_error Unsupported r.
Definition insufficient_buffer : Error := error_new InsufficientBuffer.

Definition check_buffer_size (required_size : nat) (buf : list byte) : result Error unit :=
  if (length buf <? required_size)%nat then Err insufficient_buffer else Ok tt.

(** ** Bytes as integers *)

#[export] Instance byte_eq_dec : EqDecision byte := Byte.byte_eq_dec.

(** The value of a [u8]. *)
Definition byte_val (b : byte) : Z := Z.of_N (Byte.to_N b).

(** [z as u8]. *)
Definition byte_of (z : Z) : byte :=
  match Byte.of_N (Z.to_N (wrap_u 8 z)) with Some b => b | None => x00 end.

(** [to_be_bytes] of an [n]-byte integer. *)
Fixpoint be_bytes (n : nat) (z : Z) : list byte :=
  match n with
  | O => []
  | S m => byte_of (Z.shiftr z (8 * Z.of_nat m)) :: be_bytes m z
  end.

(** [from_be_bytes], read as an unsigned value. *)
Definition be_val (bs : list byte) : Z :=
  fold_left (fun acc b => acc * 256 + byte_val b) bs 0.

Lemma byte_val_range (b : byte) : 0 <= byte_val b < 256.
Proof. unfold byte_val. pose proof (Byte.to_N_bounded b). lia. Qed.

Lemma byte_val_of (z : Z) : byte_val (byte_of z) = z mod 256.
Proof.
  unfold byte_of, wrap_u. change (2 ^ 8) with 256.
  pose proof (Z.mod_pos_bound z 256 ltac:(lia)) as Hb.
  destruct (Byte.of_N _) as [b|] eqn:E.
  - apply Byte.to_of_N in E. unfold byte_val. rewrite E. lia.
  - apply Byte.of_N_None_iff in E. lia.
Qed.

Lemma byte_of_val (b : byte) : byte_of (byte_val b) = b.
Proof.
  unfold byte_of. rewrite wrap_u_small.
  - unfold byte_val. rewrite N2Z.id, Byte.of_to_N. done.
  - pose proof (byte_val_range b). unfold in_u. lia.
Qed.

Lemma byte_of_val_eq (z : Z) (b : byte) : z mod 256 = byte_val b -> byte_of z = b.
Proof.
  intros E. rewrite <- (byte_of_val b), <- E.
  unfold byte_of, wrap_u. by rewrite Zmod_mod.
Qed.

Lemma be_val_fold (bs : list byte) (a : Z) :
  fold_left (fun acc b => acc * 256 + byte_val b) bs a
  = a * 2 ^ (8 * Z.of_nat (length bs)) + be_val bs.
Proof.
  unfold be_val. revert a. induction bs as [|b bs IH]; intros a; cbn [fold_left length].
  - rewrite Z.mul_0_r. cbn. lia.
  - rewrite IH, (IH (0 * 256 + byte_val b)), Nat2Z.inj_succ.
    replace (8 * Z.succ (Z.of_nat (length bs))) with (8 + 8 * Z.of_nat (length bs)) by lia.
    rewrite Z.pow_add_r by lia. lia.
Qed.

Lemma be_val_cons (b : byte) (bs : list byte) :
  be_val (b :: bs) = byte_val b * 2 ^ (8 * Z.of_nat (length bs)) + be_val bs.
Proof. unfold be_val at 1. cbn [fold_left]. rewrite be_val_fold. lia. Qed.

Lemma be_val_range (bs : list byte) : 0 <= be_val bs < 2 ^ (8 * Z.of_nat (length bs)).
Proof.
  induction bs as [|b bs IH].
  - cbn. lia.
  - rewrite be_val_cons. cbn [length]. rewrite Nat2Z.inj_succ.
    replace (8 * Z.succ (Z.of_nat (length bs))) with (8 + 8 * Z.of_nat (length bs)) by lia.
    rewrite Z.pow_add_r by lia. pose proof (byte_val_range b). nia.
Qed.

Lemma length_be_bytes (n : nat) (z : Z) : length (be_bytes n z) = n.
Proof. induction n; cbn; congruence. Qed.

(** [from_be_bytes (to_be_bytes z) = z as u(8n)]. *)
Lemma be_val_bytes (n : nat) (z : Z) : be_val (be_bytes n z) = wrap_u (8 * Z.of_nat n) z.
Proof.
  unfold wrap_u. induction n as [|n IH].
  - cbn. by rewrite Z.mod_1_r.
  - cbn [be_bytes]. rewrite be_val_cons, IH, byte_val_of, length_be_bytes, Nat2Z.inj_succ.
    replace (8 * Z.succ (Z.of_nat n)) with (8 * Z.of_nat n + 8) by lia.
    rewrite Z.shiftr_div_pow2 by lia. rewrite Z.pow_add_r by lia.
    change (2 ^ 8) with 256.
    assert (0 < 2 ^ (8 * Z.of_nat n)) by (apply Z.pow_pos_nonneg; lia).
    rewrite Z.rem_mul_r by lia. lia.
Qed.

(** [to_be_bytes] only looks at the low [8n] bits. *)
Lemma be_bytes_high (n : nat) (a z : Z) :
  be_bytes n (a * 2 ^ (8 * Z.of_nat n) + z) = be_bytes n z.
Proof.
  revert a. induction n as [|n IH]; intros a; cbn [be_bytes]; [done|].
  replace (8 * Z.of_nat (S n)) with (8 + 8 * Z.of_nat n) by lia.
  rewrite Z.pow_add_r by lia. rewrite Z.mul_assoc, IH. f_equal.
  apply byte_of_val_eq. rewrite byte_val_of, !Z.shiftr_div_pow2 by lia.
  rewrite Z.div_add_l by (apply Z.pow_nonzero; lia).
  change (2 ^ 8) with 256. rewrite Z.add_comm. apply Z_mod_plus_full.
Qed.

Lemma be_bytes_val (bs : list byte) : be_bytes (length bs) (be_val bs) = bs.
Proof.
  induction bs as [|b bs IH]; [done|]. cbn [length be_bytes].
  rewrite be_val_cons, be_bytes_high, IH. f_equal.
  apply byte_of_val_eq. rewrite Z.shiftr_div_pow2 by lia.
  rewrite Z.div_add_l by (apply Z.pow_nonzero; lia).
  rewrite Z.div_small by apply be_val_range.
  rewrite Z.add_0_r, Z.mod_small; [done|apply byte_val_range].
Qed.

(** A value of the field's width survives the wire. *)
Lemma be_val_bytes_small (n : nat) (z : Z) :
  in_u (8 * Z.of_nat n) z -> be_val (be_bytes n z) = z.
Proof. intros. by rewrite be_val_bytes, wrap_u_small. Qed.

#[export] Hint Resolve byte_val_range be_val_range : rust.
#[export] Hint Rewrite byte_val_of length_be_bytes byte_of_val : rust.

(** ** [BytesReader for &[u8]]

    A reader advances the slice on success and leaves it on error. *)

Abbreviation reader A := (SE (list byte) Error A).

(** Check the size, decode the first [n] bytes with [f], advance. *)
Definition read_fixed {A} (n : nat) (f : list byte -> A) : reader A := fun buf =>
  match check_buffer_size n buf with
  | Err e => (buf, Err e)
  | Ok _ => (drop n buf, Ok (f (take n buf)))
  end.

Definition read_u8 : reader Z := read_fixed 1 be_val.
Definition read_u16 : reader Z := read_fixed 2 be_val.
Definition read_u24 : reader Z := read_fixed 3 (fun bs => be_val (x00 :: bs)).
Definition read_i24 : reader Z := read_fixed 3 (fun bs =>
  let top := match bs with b :: _ => byte_val b | [] => 0 end in
  wrap_i 32 (be_val ((if Z.land top 128 =? 0 then x00 else xff) :: bs))).
Definition read_u32 : reader Z := read_fixed 4 be_val.
Definition read_i32 : reader Z := read_fixed 4 (fun bs => wrap_i 32 (be_val bs)).
(** An [f64] is its IEEE-754 bit pattern. *)
Definition read_f64 : reader Z := read_fixed 8 be_val.
Definition read_bytes (len : nat) : reader (list byte) := read_fixed len id.

(** ** [BytesWriter for Vec<u8>] *)

Definition write_u8 (v : Z) (buf : list byte) : list byte := buf ++ [byte_of v].
Definition write_u16 (v : Z) (buf : list byte) : list byte := buf ++ be_bytes 2 v.
Definition write_u24 (v : Z) (buf : list byte) : list byte := buf ++ drop 1 (be_bytes 4 v).
Definition write_i24 (v : Z) (buf : list byte) : list byte := buf ++ drop 1 (be_bytes 4 v).
Definition write_u32 (v : Z) (buf : list byte) : list byte := buf ++ be_bytes 4 v.
Definition write_i32 (v : Z) (buf : list byte) : list byte := buf ++ be_bytes 4 v.
Definition write_f64 (v : Z) (buf : list byte) : list byte := buf ++ be_bytes 8 v.
Definition write_bytes (v : list byte) (buf : list byte) : list byte := buf ++ v.

(** [swap_bytes] of an [n]-byte unsigned integer. *)
Definition swap_bytes (n : nat) (v : Z) : Z := be_val (rev (be_bytes n v)).

Arguments read_fixed : simpl never.
Arguments read_u8 : simpl never.
Arguments read_u16 : simpl never.
Arguments read_u24 : simpl never.
Arguments read_u32 : simpl never.
Arguments read_bytes : simpl never.
Arguments swap_bytes : simpl never.
Arguments be_val : simpl never.
Arguments be_bytes : simpl never.

(** Reading what was written, whatever follows. *)
Lemma read_fixed_app {A} (n : nat) (f : list byte -> A) (p q : list byte) :
  length p = n -> read_fixed n f (p ++ q) = (q, Ok (f p)).
Proof.
  intros <-. unfold read_fixed, check_buffer_size.
  rewrite length_app. destruct (Nat.ltb_spec (length p + length q) (length p)); [lia|].
  by rewrite drop_app_length, take_app_length.
Qed.

Lemma be_bytes_drop_top (n : nat) (v : Z) : drop 1 (be_bytes (S n) v) = be_bytes n v.
Proof. done. Qed.

Lemma read_u8_write (v : Z) (q : list byte) :
  in_u 8 v -> read_u8 (byte_of v :: q) = (q, Ok v).
Proof.
  intros H. unfold read_u8. change (byte_of v :: q) with ([byte_of v] ++ q).
  rewrite (read_fixed_app 1 _ [byte_of v]) by done.
  do 2 f_equal. unfold be_val. cbn. rewrite byte_val_of. rewrite Z.mod_small; [done|].
  unfold in_u in H. lia.
Qed.

Lemma read_u16_write (v : Z) (q : list byte) :
  in_u 16 v -> read_u16 (be_bytes 2 v ++ q) = (q, Ok v).
Proof.
  intros. unfold read_u16. rewrite read_fixed_app by apply length_be_bytes.
  by rewrite be_val_bytes_small.
Qed.

Lemma read_u24_write (v : Z) (q : list byte) :
  in_u 24 v -> read_u24 (be_bytes 3 v ++ q) = (q, Ok v).
Proof.
  intros. unfold read_u24. rewrite read_fixed_app by apply length_be_bytes.
  rewrite be_val_cons, be_val_bytes_small by done. done.
Qed.

Lemma read_u32_write (v : Z) (q : list byte) :
  in_u 32 v -> read_u32 (be_bytes 4 v ++ q) = (q, Ok v).
Proof.
  intros. unfold read_u32. rewrite read_fixed_app by apply length_be_bytes.
  by rewrite be_val_bytes_small.
Qed.

Lemma read_bytes_app (p q : list byte) : read_bytes (length p) (p ++ q) = (q, Ok p).
Proof. unfold read_bytes. by rewrite read_fixed_app. Qed.

Lemma swap_bytes_range (n : nat) (v : Z) : in_u (8 * Z.of_nat n) (swap_bytes n v).
Proof.
  unfold swap_bytes, in_u. pose proof (be_val_range (rev (be_bytes n v))) as H.
  by rewrite length_rev, length_be_bytes in H.
Qed.

Lemma swap_bytes_involutive (n : nat) (v : Z) :
  in_u (8 * Z.of_nat n) v -> swap_bytes n (swap_bytes n v) = v.
Proof.
  intros. unfold swap_bytes.
  assert (E : be_bytes n (be_val (rev (be_bytes n v))) = rev (be_bytes n v)).
  { rewrite <- (be_bytes_val (rev (be_bytes n v))) at 2.
    by rewrite length_rev, length_be_bytes. }
  by rewrite E, rev_involutive, be_val_bytes_small.
Qed.

(** ** What a reader took

    The value is in range, and on success the bytes it took are the encoding of
    the value. *)

Lemma read_fixed_inv {A} (n : nat) (f : list byte -> A) p r (res : result Error A) :
  read_fixed n f p = (r, res) ->
  match res with
  | Ok a => exists bs, length bs = n /\ a = f bs /\ p = bs ++ r
  | Err e => e = insufficient_buffer /\ r = p
  end.
Proof.
  unfold read_fixed, check_buffer_size.
  destruct (Nat.ltb_spec (length p) n); intros [= <- <-]; [done|].
  exists (take n p). rewrite length_take, take_drop. split; [lia|done].
Qed.

Lemma read_u8_inv p r res : read_u8 p = (r, res) ->
  match res with Ok v => in_u 8 v | Err e => e = insufficient_buffer end.
Proof.
  intros H%read_fixed_inv. destruct res; [|by destruct H].
  destruct H as (bs & Hl & -> & _). pose proof (be_val_range bs) as R. by rewrite Hl in R.
Qed.

Lemma read_u24_inv p r res : read_u24 p = (r, res) ->
  match res with Ok v => in_u 24 v | Err e => e = insufficient_buffer end.
Proof.
  intros H%read_fixed_inv. destruct res; [|by destruct H].
  destruct H as (bs & Hl & -> & _). rewrite be_val_cons.
  pose proof (be_val_range bs) as R. rewrite Hl in R. exact R.
Qed.

Lemma read_u32_inv p r res : read_u32 p = (r, res) ->
  match res with Ok v => in_u 32 v | Err e => e = insufficient_buffer end.
Proof.
  intros H%read_fixed_inv. destruct res; [|by destruct H].
  destruct H as (bs & Hl & -> & _). pose proof (be_val_range bs) as R. by rewrite Hl in R.
Qed.

Lemma read_bytes_inv n p r res : read_bytes n p = (r, res) ->
  match res with Ok v => length v = n | Err e => e = insufficient_buffer end.
Proof.
  intros H%read_fixed_inv. destruct res; [|by destruct H].
  by destruct H as (bs & Hl & -> & _).
Qed.

Lemma read_u16_split p r v : read_u16 p = (r, Ok v) -> in_u 16 v /\ p = be_bytes 2 v ++ r.
Proof.
  intros (bs & Hl & -> & ->)%read_fixed_inv. pose proof (be_val_range bs) as R.
  rewrite Hl in R. split; [exact R|]. by rewrite <- Hl, be_bytes_val.
Qed.

Lemma read_u32_split p r v : read_u32 p = (r, Ok v) -> in_u 32 v /\ p = be_bytes 4 v ++ r.
Proof.
  intros (bs & Hl & -> & ->)%read_fixed_inv. pose proof (be_val_range bs) as R.
  rewrite Hl in R. split; [exact R|]. by rewrite <- Hl, be_bytes_val.
Qed.

(** ** Incremental readers

    What lets a decoder run on a prefix of the stream and be run again when more
    bytes are there: a success, and an error other than [InsufficientBuffer], do
    not depend on the bytes that follow. *)
Class Incremental {A} (m : reader A) : Prop := {
  incremental_ok : forall p q r a,
    m p = (r, Ok a) -> m (p ++ q) = (r ++ q, Ok a);
  incremental_err : forall p q r e,
    m p = (r, Err e) -> kind e <> InsufficientBuffer ->
    exists r', m (p ++ q) = (r', Err e);
  incremental_consumes : forall p r a, m p = (r, Ok a) -> (length r <= length p)%nat
}.

Section reader_instances.
Context {A B : Type}.

#[export] Instance read_fixed_incremental (n : nat) (f : list byte -> A) :
  Incremental (read_fixed n f).
Proof.
  split; intros p; unfold read_fixed, check_buffer_size.
  - intros q r x. rewrite ?length_app.
    destruct (Nat.ltb_spec (length p) n) as [L|L]; intros [= <- <-].
    destruct (Nat.ltb_spec (length p + length q) n); [lia|].
    by rewrite drop_app_le, take_app_le by lia.
  - intros q r e. destruct (Nat.ltb_spec (length p) n) as [L|L]; by intros [= <- <-].
  - intros r a. destruct (Nat.ltb_spec (length p) n) as [L|L]; intros [= <- <-].
    rewrite length_drop. lia.
Qed.

#[export] Instance ret_incremental (a : A) : Incremental (se_ret a).
Proof. split; intros *; cbn; intros [=]; subst; eauto. Qed.

#[export] Instance err_incremental (e : Error) : Incremental (A:=A) (se_err e).
Proof. split; intros *; cbn; intros [=]; subst; eauto. Qed.

#[export] Instance bind_incremental (m : reader A) (k : A -> reader B) :
  Incremental m -> (forall a, Incremental (k a)) -> Incremental (se_bind m k).
Proof.
  intros Hm Hk. split; intros p; unfold se_bind; destruct (m p) as [r1 [a|e]] eqn:E.
  - intros q r b H. rewrite (incremental_ok _ q _ _ E). by apply incremental_ok.
  - done.
  - intros q r e' H. rewrite (incremental_ok _ q _ _ E). by eapply incremental_err.
  - intros q r e' [= -> ->] Hne.
    destruct (incremental_err _ q _ _ E Hne) as [r' ->]. eauto.
  - intros r b H. apply incremental_consumes in E, H. lia.
  - done.
Qed.

#[export] Instance if_incremental (b : bool) (m1 m2 : reader A) :
  Incremental m1 -> Incremental m2 -> Incremental (if b then m1 else m2).
Proof. by destruct b. Qed.
End reader_instances.

#[export] Instance read_u8_incremental : Incremental read_u8 := _.
#[export] Instance read_u16_incremental : Incremental read_u16 := _.
#[export] Instance read_u24_incremental : Incremental read_u24 := _.
#[export] Instance read_u32_incremental : Incremental read_u32 := _.
#[export] Instance read_bytes_incremental (len : nat) : Incremental (read_bytes len) := _.

(** ** [Buf] *)

Record Buf : Set := mk_buf { buf_bytes : list byte; buf_offset : nat }.

Definition buf_default : Buf := mk_buf [] 0.

(** [&self.bytes[self.offset..]] is in range; else [Buf::get] panics. *)
Definition buf_in_range (b : Buf) : bool := (buf_offset b <=? length (buf_bytes b))%nat.

(** What [Buf::get] returns where it does not panic. *)
Definition buf_get (b : Buf) : list byte := drop (buf_offset b) (buf_bytes b).

Definition MAX_SIZE : Z := 1024 * 1024.

Definition buf_feed (b : Buf) (s : list byte) : Buf :=
  let bytes := buf_bytes b ++ s in
  if (0 <? buf_offset b)%nat && (MAX_SIZE <? Z.of_nat (length bytes))
  then mk_buf (drop (buf_offset b) bytes) 0
  else mk_buf bytes (buf_offset b).

Definition buf_advance (b : Buf) (n : nat) : Buf :=
  let offset := (buf_offset b + n)%nat in
  if (offset =? length (buf_bytes b))%nat then mk_buf [] 0 else mk_buf (buf_bytes b) offset.

Definition buf_wf (b : Buf) : Prop := (buf_offset b <= length (buf_bytes b))%nat.

Lemma buf_in_range_wf b : buf_in_range b = true <-> buf_wf b.
Proof. apply Nat.leb_le. Qed.

Lemma buf_feed_view (b : Buf) (s : list byte) :
  buf_wf b -> buf_wf (buf_feed b s) /\ buf_get (buf_feed b s) = buf_get b ++ s.
Proof.
  unfold buf_wf, buf_feed, buf_get. intros H.
  destruct (_ && _); cbn; rewrite ?drop_0, ?length_app, ?drop_app_le by lia; split; auto; lia.
Qed.

Lemma buf_advance_view (b : Buf) (n : nat) :
  buf_wf b -> (n <= length (buf_get b))%nat ->
  buf_wf (buf_advance b n) /\ buf_get (buf_advance b n) = drop n (buf_get b).
Proof.
  unfold buf_wf, buf_advance, buf_get. intros H. rewrite length_drop, drop_drop. intros Hn.
  destruct (Nat.eqb_spec (buf_offset b + n) (length (buf_bytes b))) as [E|E]; cbn.
  - rewrite drop_ge by lia. auto.
  - split; [lia|done].
Qed.
