(* ===== verification/RtmpTypes.v ===== *)
(** * RTMP identifiers, timestamps, message types and chunks

    Models [chunk/mod.rs], the identifier and type part of [message/mod.rs] and
    the timestamps of [media.rs] (all under [crates/protocols/rtmp/core/src]).
    The newtypes around [u32] and [usize] are [Z]; the range that the Rust
    constructors guarantee is the matching [_wf] predicate. *)
From Stdlib Require Import Strings.Byte.
From S2P Require Import Prelude RtmpBytes.

(** ** Timestamps *)

Definition RtmpTimestamp : Type := Z.
Definition timestamp_wrapping_add (a b : RtmpTimestamp) : RtmpTimestamp := wrap_u 32 (a + b).
Definition timestamp_checked_sub (a b : RtmpTimestamp) : option RtmpTimestamp :=
  checked_sub_u a b.

(** ** Chunk stream identifiers *)

Definition csid_wf (id : Z) : Prop := 2 <= id <= 65599.

Definition RtmpChunkStreamId_new (id : Z) : option Z :=
  if (2 <=? id) && (id <=? 65599) then Some id else None.

Definition from_message_stream_id (message_stream_id : Z) : Z :=
  let raw := sat_u 32 (message_stream_id + 2) in Z.min raw 65599.

Inductive MessageHeaderFormat : Set := F0 | F1 | F2 | F3.

#[export] Instance MessageHeaderFormat_eq_dec : EqDecision MessageHeaderFormat.
Proof. solve_decision. Defined.

(** [format as u8]. *)
Definition format_u8 (f : MessageHeaderFormat) : Z :=
  match f with F0 => 0 | F1 => 1 | F2 => 2 | F3 => 3 end.

(** ** Chunk sizes *)

Definition CHUNK_SIZE_MIN : Z := 1.
Definition CHUNK_SIZE_MAX : Z := 65536.
Definition chunk_size_wf (n : Z) : Prop := CHUNK_SIZE_MIN <= n <= CHUNK_SIZE_MAX.

Definition RtmpChunkSize_new (size : Z) : option Z :=
  if (CHUNK_SIZE_MIN <=? size) && (size <=? CHUNK_SIZE_MAX) then Some size else None.

Definition RtmpChunkSize_saturating_new (size : Z) : Z :=
  Z.min (Z.max size CHUNK_SIZE_MIN) CHUNK_SIZE_MAX.

Definition RtmpChunkSize_default : Z := 128.

(** ** Message types *)

Inductive RtmpMessageType : Set :=
| TSetChunkSize | TAbort | TAck | TUserControl | TWinAckSize | TSetPeerBandwidth
| TAudio | TVideo | TDataAmf3 | TCommandAmf3 | TDataAmf0 | TCommandAmf0 | TAggregate.

#[export] Instance RtmpMessageType_eq_dec : EqDecision RtmpMessageType.
Proof. solve_decision. Defined.

(** [message_type as u8]. *)
Definition message_type_u8 (t : RtmpMessageType) : Z :=
  match t with
  | TSetChunkSize => 1 | TAbort => 2 | TAck => 3 | TUserControl => 4
  | TWinAckSize => 5 | TSetPeerBandwidth => 6 | TAudio => 8 | TVideo => 9
  | TDataAmf3 => 15 | TCommandAmf3 => 17 | TDataAmf0 => 18 | TCommandAmf0 => 20
  | TAggregate => 22
  end.

Definition from_type_id (type_id : Z) : result Error RtmpMessageType :=
  match type_id with
  | 1 => Ok TSetChunkSize
  | 2 => Ok TAbort
  | 3 => Ok TAck
  | 4 => Ok TUserControl
  | 5 => Ok TWinAckSize
  | 6 => Ok TSetPeerBandwidth
  | 8 => Ok TAudio
  | 9 => Ok TVideo
  | 15 => Ok TDataAmf3
  | 17 => Ok TCommandAmf3
  | 18 => Ok TDataAmf0
  | 20 => Ok TCommandAmf0
  | 22 => Ok TAggregate
  | _ => Err (invalid_data ("unknown message type: " +:+ pretty type_id))
  end.

Inductive SetPeerBandwidthLimitType : Set := Hard | Soft | Dynamic.

(** ** Chunks *)

(** A complete message on a chunk stream, before splitting or after reassembly. *)
Record RtmpChunk : Type := mk_chunk {
  chunk_stream_id : Z;
  message_stream_id : Z;
  message_type : RtmpMessageType;
  timestamp : RtmpTimestamp;
  payload : list byte
}.

(** What the types of the fields guarantee. *)
Record chunk_wf (c : RtmpChunk) : Prop := {
  wf_csid : csid_wf (chunk_stream_id c);
  wf_msid : in_u 32 (message_stream_id c);
  wf_timestamp : in_u 32 (timestamp c)
}.

(** ** Facts *)

Lemma from_type_id_u8 (t : RtmpMessageType) : from_type_id (message_type_u8 t) = Ok t.
Proof. by destruct t. Qed.

Lemma message_type_u8_range (t : RtmpMessageType) : in_u 8 (message_type_u8 t).
Proof. unfold in_u. destruct t; cbn; lia. Qed.

(** An accepted type id is the id of the type it names. *)
Lemma from_type_id_ok (n : Z) (t : RtmpMessageType) :
  from_type_id n = Ok t -> n = message_type_u8 t.
Proof.
  unfold from_type_id. intros H. repeat case_match; by inversion H; subst.
Qed.

Lemma from_type_id_err (n : Z) (e : Error) :
  from_type_id n = Err e -> kind e = InvalidData.
Proof.
  unfold from_type_id. intros H. repeat case_match; by inversion H; subst.
Qed.

Lemma RtmpChunkStreamId_new_some (id c : Z) :
  RtmpChunkStreamId_new id = Some c <-> c = id /\ csid_wf id.
Proof.
  unfold RtmpChunkStreamId_new, csid_wf. split.
  - zcases; cbn; intros [= <-]. lia.
  - intros [-> H]. zcases; [done|lia|lia|lia].
Qed.

Lemma RtmpChunkStreamId_new_wf (id : Z) : csid_wf id -> RtmpChunkStreamId_new id = Some id.
Proof. intros. by apply RtmpChunkStreamId_new_some. Qed.

Lemma saturating_new_wf (n : Z) : chunk_size_wf (RtmpChunkSize_saturating_new n).
Proof. unfold chunk_size_wf, RtmpChunkSize_saturating_new, CHUNK_SIZE_MIN, CHUNK_SIZE_MAX. lia. Qed.

Lemma timestamp_wrapping_add_range (a b : Z) : in_u 32 (timestamp_wrapping_add a b).
Proof. apply wrap_u_range. lia. Qed.

#[export] Hint Resolve message_type_u8_range saturating_new_wf timestamp_wrapping_add_range
  RtmpChunkStreamId_new_wf : rust.
