(* ===== verification/ChunkDecoder.v ===== *)
(** * RTMP chunk decoder

    Models [crates/protocols/rtmp/core/src/chunk/decoder.rs]. A call of [decode]
    reads one chunk from the front of the buffer; a message split over several
    chunks is collected in the [acc_payload] of its chunk stream. The methods
    take [&mut self], so each returns the state it leaves behind, on errors too:
    that state is what a retry with more bytes starts from. *)
From Stdlib Require Import Strings.Byte.
From S2P Require Import Prelude RtmpBytes RtmpTypes.

Definition MAX_MESSAGE_SIZE : Z := 8 * 1024 * 1024.

(** ** State *)

(** [RtmpChunkStream] of the decoder. *)
Record dec_stream : Type := mk_dec_stream {
  ds_timestamp : RtmpTimestamp;
  ds_timestamp_delta : RtmpTimestamp;
  ds_message_type : RtmpMessageType;
  ds_message_stream_id : Z;
  ds_message_size : Z;
  ds_acc_payload : list byte;
  ds_enable_f3_extended_timestamp : bool
}.

Definition dec_stream_new : dec_stream := mk_dec_stream 0 0 TSetChunkSize 0 0 [] false.

Record RtmpChunkDecoder : Type := mk_decoder {
  dec_chunk_size : Z;
  dec_chunk_streams : gmap Z dec_stream
}.

Definition decoder_default : RtmpChunkDecoder := mk_decoder RtmpChunkSize_default ∅.

Definition decoder_set_chunk_size (d : RtmpChunkDecoder) (size : Z) : RtmpChunkDecoder :=
  mk_decoder size (dec_chunk_streams d).

Definition decoder_reset_chunk_stream (d : RtmpChunkDecoder) (id : Z) : RtmpChunkDecoder :=
  mk_decoder (dec_chunk_size d) (delete id (dec_chunk_streams d)).

(** ** Field updates *)

Definition ds_set_acc (acc : list byte) (s : dec_stream) : dec_stream :=
  mk_dec_stream (ds_timestamp s) (ds_timestamp_delta s) (ds_message_type s)
    (ds_message_stream_id s) (ds_message_size s) acc (ds_enable_f3_extended_timestamp s).
Definition ds_set_ext (b : bool) (s : dec_stream) : dec_stream :=
  mk_dec_stream (ds_timestamp s) (ds_timestamp_delta s) (ds_message_type s)
    (ds_message_stream_id s) (ds_message_size s) (ds_acc_payload s) b.
Definition ds_set_delta (t : Z) (s : dec_stream) : dec_stream :=
  mk_dec_stream (ds_timestamp s) t (ds_message_type s)
    (ds_message_stream_id s) (ds_message_size s) (ds_acc_payload s)
    (ds_enable_f3_extended_timestamp s).
Definition ds_set_timestamp (t : Z) (s : dec_stream) : dec_stream :=
  mk_dec_stream t (ds_timestamp_delta s) (ds_message_type s)
    (ds_message_stream_id s) (ds_message_size s) (ds_acc_payload s)
    (ds_enable_f3_extended_timestamp s).
Definition ds_set_size (n : Z) (s : dec_stream) : dec_stream :=
  mk_dec_stream (ds_timestamp s) (ds_timestamp_delta s) (ds_message_type s)
    (ds_message_stream_id s) n (ds_acc_payload s) (ds_enable_f3_extended_timestamp s).
Definition ds_set_type (t : RtmpMessageType) (s : dec_stream) : dec_stream :=
  mk_dec_stream (ds_timestamp s) (ds_timestamp_delta s) t
    (ds_message_stream_id s) (ds_message_size s) (ds_acc_payload s)
    (ds_enable_f3_extended_timestamp s).
Definition ds_set_msid (i : Z) (s : dec_stream) : dec_stream :=
  mk_dec_stream (ds_timestamp s) (ds_timestamp_delta s) (ds_message_type s)
    i (ds_message_size s) (ds_acc_payload s) (ds_enable_f3_extended_timestamp s).

(** ** Headers *)

Definition format_of_bits (b : Z) : MessageHeaderFormat :=
  match b with 0 => F0 | 1 => F1 | 2 => F2 | _ => F3 end.

Definition decode_chunk_basic_header : reader (MessageHeaderFormat * Z) :=
  first_byte <- read_u8 ;;
  let format := format_of_bits (Z.shiftr first_byte 6) in
  let id_bits := Z.land first_byte 63 in
  id <- (if id_bits =? 0 then v <- read_u8 ;; se_ret (v + 64)
         else if id_bits =? 1 then v <- read_u16 ;; se_ret (swap_bytes 2 v + 64)
         else se_ret id_bits) ;;
  match RtmpChunkStreamId_new id with
  | Some csid => se_ret (format, csid)
  | None => se_err (invalid_data "invalid chunk stream id")
  end.

(** The state of the two inner methods: the chunk stream and the slice. *)
Abbreviation stream_op A := (SE (dec_stream * list byte) Error A).

Definition ds_upd (f : dec_stream -> dec_stream) : stream_op unit :=
  se_upd (fun st => (f (fst st), snd st)).
Definition ds_get : stream_op dec_stream := fun st => (st, Ok (fst st)).
Definition ds_read {A} (m : reader A) : stream_op A := se_snd m.

(** The extended timestamp of a full or delta header. *)
Definition read_timestamp_field (t : Z) : stream_op unit :=
  let is_extended := t =? 0xFFFFFF in
  ds_upd (ds_set_ext is_extended) ;;;
  (if is_extended then v <- ds_read read_u32 ;; ds_upd (ds_set_delta v)
   else ds_upd (ds_set_delta t)).

Definition decode_message_header (format : MessageHeaderFormat) : stream_op unit :=
  match format with
  | F0 =>
      ds_upd (ds_set_acc []) ;;;
      timestamp <- ds_read read_u24 ;;
      message_size <- ds_read read_u24 ;;
      if MAX_MESSAGE_SIZE <? message_size then se_err (invalid_data "chunk payload too large")
      else
        message_type <- ds_read read_u8 ;;
        message_stream_id <- ds_read read_u32 ;;
        let message_stream_id := swap_bytes 4 message_stream_id in
        read_timestamp_field timestamp ;;;
        ds_upd (ds_set_timestamp 0) ;;;
        ds_upd (ds_set_size message_size) ;;;
        t <- se_of (from_type_id message_type) ;;
        ds_upd (ds_set_type t) ;;;
        ds_upd (ds_set_msid message_stream_id)
  | F1 =>
      timestamp_delta <- ds_read read_u24 ;;
      message_size <- ds_read read_u24 ;;
      if MAX_MESSAGE_SIZE <? message_size then se_err (invalid_data "chunk payload too large")
      else
        message_type <- ds_read read_u8 ;;
        read_timestamp_field timestamp_delta ;;;
        ds_upd (ds_set_size message_size) ;;;
        ds_upd (ds_set_acc []) ;;;
        t <- se_of (from_type_id message_type) ;;
        ds_upd (ds_set_type t)
  | F2 =>
      timestamp_delta <- ds_read read_u24 ;;
      read_timestamp_field timestamp_delta
  | F3 =>
      s <- ds_get ;;
      if ds_enable_f3_extended_timestamp s
      then v <- ds_read read_u32 ;; ds_upd (ds_set_delta v)
      else se_ret tt
  end.

(** ** Payload *)

Definition decode_message_payload (chunk_size : Z) : stream_op (option (list byte)) :=
  s <- ds_get ;;
  match checked_sub_u (ds_message_size s) (Z.of_nat (length (ds_acc_payload s))) with
  | None => se_err (invalid_data "accumulated payload exceeds message size")
  | Some remaining_message =>
      let chunk_payload_size := Z.min remaining_message chunk_size in
      payload <- ds_read (read_bytes (Z.to_nat chunk_payload_size)) ;;
      ds_upd (fun s => ds_set_acc (ds_acc_payload s ++ payload) s) ;;;
      s <- ds_get ;;
      if Z.of_nat (length (ds_acc_payload s)) =? ds_message_size s then
        ds_upd (fun s =>
          ds_set_timestamp (timestamp_wrapping_add (ds_timestamp s) (ds_timestamp_delta s)) s) ;;;
        ds_upd (ds_set_acc []) ;;;
        se_ret (Some (ds_acc_payload s))
      else se_ret None
  end.

(** ** One chunk *)

(** The closure of [decode]: header, then payload. *)
Definition decode_chunk (chunk_size : Z) (format : MessageHeaderFormat) :
    stream_op (option (list byte)) :=
  decode_message_header format ;;; decode_message_payload chunk_size.

Definition decode (d : RtmpChunkDecoder) (buf : list byte) :
    RtmpChunkDecoder * result Error (nat * option RtmpChunk) :=
  match decode_chunk_basic_header buf with
  | (_, Err e) => (d, Err e)
  | (buf1, Ok (format, csid)) =>
      let found := match dec_chunk_streams d !! csid with
                   | Some s => Some s
                   | None => if decide (format = F0) then Some dec_stream_new else None
                   end in
      match found with
      | None => (d, Err (invalid_data "format ID must be 0 for the first chunk"))
      | Some stream =>
          let '((stream', buf2), r) := decode_chunk (dec_chunk_size d) format (stream, buf1) in
          let d' := mk_decoder (dec_chunk_size d) (<[csid := stream']> (dec_chunk_streams d)) in
          match r with
          | Err e => (d', Err e)
          | Ok maybe_payload =>
              (d', Ok ((length buf - length buf2)%nat,
                       (fun p => mk_chunk csid (ds_message_stream_id stream')
                                   (ds_message_type stream') (ds_timestamp stream') p)
                         <$> maybe_payload))
          end
      end
  end.

(** ** Incrementality

    The same property as [Incremental], for the operations on a chunk stream. *)
Class StreamIncremental {A} (m : stream_op A) : Prop := {
  stream_ok : forall s p q s' r a,
    m (s, p) = ((s', r), Ok a) -> m (s, p ++ q) = ((s', r ++ q), Ok a);
  stream_err : forall s p q s' r e,
    m (s, p) = ((s', r), Err e) -> kind e <> InsufficientBuffer ->
    exists r', m (s, p ++ q) = ((s', r'), Err e);
  stream_consumes : forall s p s' r a,
    m (s, p) = ((s', r), Ok a) -> (length r <= length p)%nat
}.

Section incremental_instances.
Context {A B : Type}.

#[export] Instance ds_upd_incremental (f : dec_stream -> dec_stream) :
  StreamIncremental (ds_upd f).
Proof. split; intros *; cbn; intros [=]; subst; eauto. Qed.

#[export] Instance ds_get_incremental : StreamIncremental ds_get.
Proof. split; intros *; cbn; intros [=]; subst; eauto. Qed.

#[export] Instance se_ret_incremental (a : A) : StreamIncremental (se_ret a).
Proof. split; intros *; cbn; intros [=]; subst; eauto. Qed.

#[export] Instance se_err_incremental (e : Error) : StreamIncremental (A:=A) (se_err e).
Proof. split; intros *; cbn; intros [=]; subst; eauto. Qed.

#[export] Instance se_of_incremental (r : result Error A) : StreamIncremental (se_of r).
Proof. split; intros *; cbn; intros [=]; subst; eauto. Qed.

#[export] Instance ds_read_fixed_incremental (n : nat) (f : list byte -> A) :
  StreamIncremental (ds_read (read_fixed n f)).
Proof.
  split; intros s p.
  - intros q s' r a H. cbn in *. destruct (read_fixed n f p) as [r0 [v|e]] eqn:E; simplify_eq.
    by rewrite (incremental_ok _ q _ _ E).
  - intros q s' r e H. cbn in *. destruct (read_fixed n f p) as [r0 [v|e0]] eqn:E; simplify_eq.
    intros Hk. destruct (incremental_err _ q _ _ E Hk) as [r' ->]. eauto.
  - intros s' r a. cbn. unfold read_fixed. destruct (check_buffer_size n p);
      intros [=]; subst. rewrite length_drop. lia.
Qed.

#[export] Instance se_bind_incremental (m : stream_op A) (k : A -> stream_op B) :
  StreamIncremental m -> (forall a, StreamIncremental (k a)) ->
  StreamIncremental (se_bind m k).
Proof.
  intros Hm Hk. split; intros s p; unfold se_bind;
    destruct (m (s, p)) as [[s1 r1] [a|e]] eqn:E.
  - intros q s' r b H. rewrite (stream_ok _ _ q _ _ _ E). by apply stream_ok.
  - done.
  - intros q s' r e' H. rewrite (stream_ok _ _ q _ _ _ E). by eapply stream_err.
  - intros q s' r e' [= -> -> ->] Hne.
    destruct (stream_err _ _ q _ _ _ E Hne) as [r' ->]. eauto.
  - intros s' r b H. apply stream_consumes in E, H. lia.
  - done.
Qed.
End incremental_instances.

#[export] Instance se_if_incremental {A} (b : bool) (m1 m2 : stream_op A) :
  StreamIncremental m1 -> StreamIncremental m2 -> StreamIncremental (if b then m1 else m2).
Proof. by destruct b. Qed.

#[export] Instance ds_read_u8_incremental : StreamIncremental (ds_read read_u8) := _.
#[export] Instance ds_read_u24_incremental : StreamIncremental (ds_read read_u24) := _.
#[export] Instance ds_read_u32_incremental : StreamIncremental (ds_read read_u32) := _.
#[export] Instance ds_read_bytes_incremental (n : nat) :
  StreamIncremental (ds_read (read_bytes n)) := _.

#[export] Instance read_timestamp_field_incremental (t : Z) :
  StreamIncremental (read_timestamp_field t).
Proof. unfold read_timestamp_field. apply _. Qed.

#[export] Instance decode_message_header_incremental (f : MessageHeaderFormat) :
  StreamIncremental (decode_message_header f).
Proof. destruct f; cbn [decode_message_header]; apply _. Qed.

#[export] Instance decode_message_payload_incremental (n : Z) :
  StreamIncremental (decode_message_payload n).
Proof.
  unfold decode_message_payload. apply se_bind_incremental; [apply _|].
  intros s. destruct (checked_sub_u _ _); apply _.
Qed.

#[export] Instance decode_chunk_incremental (n : Z) (f : MessageHeaderFormat) :
  StreamIncremental (decode_chunk n f).
Proof. unfold decode_chunk. apply _. Qed.

#[export] Instance decode_chunk_basic_header_incremental :
  Incremental decode_chunk_basic_header.
Proof.
  unfold decode_chunk_basic_header. apply bind_incremental; [apply _|]. intros b.
  apply bind_incremental; [apply _|]. intros i.
  destruct (RtmpChunkStreamId_new i); apply _.
Qed.

(** The basic header takes at least one byte. *)
Lemma basic_header_consumes (p r : list byte) (h : MessageHeaderFormat * Z) :
  decode_chunk_basic_header p = (r, Ok h) -> (length r < length p)%nat.
Proof.
  unfold decode_chunk_basic_header. unfold se_bind at 1.
  destruct (read_u8 p) as [r1 [b|e]] eqn:E; [|done]. intros H.
  assert (length r1 < length p)%nat.
  { unfold read_u8, read_fixed, check_buffer_size in E.
    destruct (Nat.ltb_spec (length p) 1); simplify_eq. rewrite length_drop. lia. }
  enough (length r <= length r1)%nat by lia.
  unshelve eapply (@incremental_consumes _ _ _ _ _ _ H).
  apply bind_incremental; [apply _|]. intros i.
  destruct (RtmpChunkStreamId_new i); apply _.
Qed.

(** ** Retrying after [InsufficientBuffer]

    A call that ran out of bytes has changed the chunk stream: it has cleared the
    accumulator, set the extended flag, or set the whole header. Running the same
    bytes again overwrites all of that, so the retry is not affected. *)

(** Step over one read of the shorter buffer: what it returned on the prefix it
    returns on the whole. *)
Ltac step_with H q m p :=
  let r := fresh "r" in let v := fresh "v" in let e := fresh "e" in let E := fresh "E" in
  destruct (m p) as [r [v|e]] eqn:E;
  [ rewrite ?(incremental_ok _ q _ _ E) in * |- * | ]; cbn in H |- *; simplify_eq/=; try done.

Ltac step_read H q :=
  match type of H with
  | context [read_u24 ?p] => step_with H q read_u24 p
  | context [read_u8 ?p] => step_with H q read_u8 p
  | context [read_u32 ?p] => step_with H q read_u32 p
  | context [read_bytes ?n ?p] => step_with H q (read_bytes n) p
  | context [if ?b then _ else _] => destruct b eqn:?; cbn in H |- *; simplify_eq/=; try done
  | context [match from_type_id ?t with _ => _ end] =>
      destruct (from_type_id t) eqn:?; cbn in H |- *; simplify_eq/=; try done
  | context [match checked_sub_u ?a ?b with _ => _ end] =>
      destruct (checked_sub_u a b) eqn:?; cbn in H |- *; simplify_eq/=; try done
  end.

Ltac unfold_chunk_ops :=
  unfold decode_chunk, decode_message_header, decode_message_payload, read_timestamp_field,
    ds_upd, ds_get, ds_read, se_snd, se_bind, se_upd, se_err, se_ret, se_of in *; cbn in *.

Lemma decode_chunk_retry (n : Z) (f : MessageHeaderFormat) (s s' : dec_stream)
    (p q r : list byte) (e : Error) :
  decode_chunk n f (s, p) = ((s', r), Err e) -> kind e = InsufficientBuffer ->
  decode_chunk n f (s', p ++ q) = decode_chunk n f (s, p ++ q).
Proof.
  intros H Hk. destruct s as [ts dl ty ms sz acc ext].
  destruct f; unfold_chunk_ops; repeat step_read H q.
  all: try (match goal with E : from_type_id _ = Err _ |- _ => apply from_type_id_err in E end; congruence).
  all: repeat match goal with
       | E : read_u32 _ = (_, Ok _) |- _ => rewrite (incremental_ok _ q _ _ E); clear E; cbn
       | E : checked_sub_u _ _ = _ |- _ => rewrite E; clear E
       end; reflexivity.
Qed.

(** ** One chunk of a longer stream *)

Lemma decode_ok_app (d d' : RtmpChunkDecoder) (p q : list byte) n c :
  decode d p = (d', Ok (n, c)) ->
  decode d (p ++ q) = (d', Ok (n, c)) /\ (0 < n <= length p)%nat.
Proof.
  unfold decode. destruct (decode_chunk_basic_header p) as [p1 [[f id]|e]] eqn:E; [|done].
  pose proof (basic_header_consumes _ _ _ E).
  rewrite (incremental_ok _ q _ _ E).
  destruct (match dec_chunk_streams d !! id with Some s => Some s | None => _ end) as [s|]; [|done].
  destruct (decode_chunk _ f (s, p1)) as [[s' p2] [pl|e]] eqn:E2; [|done].
  rewrite (stream_ok _ _ q _ _ _ E2). apply stream_consumes in E2.
  intros [= <- <- <-]. rewrite !length_app.
  replace (length p + length q - (length p2 + length q))%nat
    with (length p - length p2)%nat by lia. split; [done|lia].
Qed.

(** An error other than [InsufficientBuffer] is final: more bytes do not change it. *)
Lemma decode_err_app (d d' : RtmpChunkDecoder) (p q : list byte) e :
  decode d p = (d', Err e) -> kind e <> InsufficientBuffer ->
  decode d (p ++ q) = (d', Err e).
Proof.
  unfold decode. intros H Hne.
  destruct (decode_chunk_basic_header p) as [p1 [[f id]|e']] eqn:E.
  - rewrite (incremental_ok _ q _ _ E).
    destruct (match dec_chunk_streams d !! id with Some s => Some s | None => _ end) as [s|]; [|done].
    destruct (decode_chunk _ f (s, p1)) as [[s' p2] [pl|e']] eqn:E2; simplify_eq.
    by destruct (stream_err _ _ q _ _ _ E2 Hne) as [r' ->].
  - simplify_eq. by destruct (incremental_err _ q _ _ E Hne) as [r' ->].
Qed.

(** Running out of bytes is not an error: with the rest of the stream the decoder
    behaves as if it had not been called. *)
Lemma decode_retry (d d' : RtmpChunkDecoder) (p q : list byte) e :
  decode d p = (d', Err e) -> kind e = InsufficientBuffer ->
  decode d' (p ++ q) = decode d (p ++ q).
Proof.
  unfold decode at 1. intros H Hk.
  destruct (decode_chunk_basic_header p) as [p1 [[f id]|e']] eqn:E; [|by simplify_eq].
  destruct (dec_chunk_streams d !! id) as [s|] eqn:Es.
  - destruct (decode_chunk _ f (s, p1)) as [[s' p2] [pl|e']] eqn:E2; simplify_eq.
    unfold decode. rewrite (incremental_ok _ q _ _ E), Es. cbn [dec_chunk_size dec_chunk_streams].
    rewrite lookup_insert_eq, (decode_chunk_retry _ _ _ _ _ q _ _ E2 Hk).
    destruct (decode_chunk _ f (s, p1 ++ q)) as [[s'' p3] r]. by rewrite insert_insert_eq.
  - case_decide; [|by simplify_eq]. subst f.
    destruct (decode_chunk _ F0 (dec_stream_new, p1)) as [[s' p2] [pl|e']] eqn:E2; simplify_eq.
    unfold decode. rewrite (incremental_ok _ q _ _ E), Es. cbn [dec_chunk_size dec_chunk_streams].
    rewrite lookup_insert_eq, (decode_chunk_retry _ _ _ _ _ q _ _ E2 Hk).
    rewrite decide_True by done.
    destruct (decode_chunk _ F0 (dec_stream_new, p1 ++ q)) as [[s'' p3] r].
    by rewrite insert_insert_eq.
Qed.
