(* ===== verification/ChunkEncoder.v ===== *)
(** * RTMP chunk encoder

    Models [crates/protocols/rtmp/core/src/chunk/encoder.rs]: a message is split
    into chunks of at most [chunk_size] payload bytes; the first carries the
    smallest of the four header formats that the state of the chunk stream
    allows, the others carry the format-3 header. *)
From Stdlib Require Import Strings.Byte.
From S2P Require Import Prelude RtmpBytes RtmpTypes.

(** ** State *)

(** [RtmpChunkStream] of the encoder. *)
Record enc_stream : Type := mk_enc_stream {
  es_chunk_stream_id : Z;
  es_timestamp : RtmpTimestamp;
  es_timestamp_delta : RtmpTimestamp;
  es_message_type : RtmpMessageType;
  es_message_stream_id : Z;
  es_message_size : Z;
  es_format : MessageHeaderFormat;
  es_enable_f3_extended_timestamp : bool
}.

Record RtmpChunkEncoder : Type := mk_encoder {
  enc_chunk_size : Z;
  enc_chunk_streams : gmap Z enc_stream
}.

Definition encoder_default : RtmpChunkEncoder := mk_encoder RtmpChunkSize_default ∅.

Definition encoder_set_chunk_size (e : RtmpChunkEncoder) (size : Z) : RtmpChunkEncoder :=
  mk_encoder size (enc_chunk_streams e).

Definition es_set_ext (b : bool) (s : enc_stream) : enc_stream :=
  mk_enc_stream (es_chunk_stream_id s) (es_timestamp s) (es_timestamp_delta s)
    (es_message_type s) (es_message_stream_id s) (es_message_size s) (es_format s) b.
Definition es_set_delta (t : Z) (s : enc_stream) : enc_stream :=
  mk_enc_stream (es_chunk_stream_id s) (es_timestamp s) t
    (es_message_type s) (es_message_stream_id s) (es_message_size s) (es_format s)
    (es_enable_f3_extended_timestamp s).

(** ** Choosing the header format *)

Definition resolve_chunk_stream (e : RtmpChunkEncoder) (chunk : RtmpChunk) : enc_stream :=
  let chunk_stream ext delta format :=
    mk_enc_stream (chunk_stream_id chunk) (timestamp chunk) delta (message_type chunk)
      (message_stream_id chunk) (Z.of_nat (length (payload chunk))) format ext in
  match enc_chunk_streams e !! chunk_stream_id chunk with
  | None => chunk_stream false (timestamp chunk) F0
  | Some last =>
      let ext := es_enable_f3_extended_timestamp last in
      match timestamp_checked_sub (timestamp chunk) (es_timestamp last) with
      | None => chunk_stream ext (timestamp chunk) F0
      | Some timestamp_delta =>
          let format :=
            match bool_decide (message_stream_id chunk = es_message_stream_id last),
                  bool_decide (message_type chunk = es_message_type last),
                  bool_decide (Z.of_nat (length (payload chunk)) = es_message_size last),
                  bool_decide (timestamp_delta = es_timestamp_delta last) with
            | true, true, true, true => F3
            | true, true, true, _ => F2
            | true, _, _, _ => F1
            | _, _, _, _ => F0
            end in
          chunk_stream ext timestamp_delta format
      end
  end.

(** ** Headers *)

(** Ids of 65600 and above make the source panic; [RtmpChunkStreamId] excludes them. *)
Definition encode_chunk_basic_header (format : MessageHeaderFormat) (s : enc_stream)
    (buf : list byte) : list byte :=
  let fmt := format_u8 format in
  let id := es_chunk_stream_id s in
  if id <? 64 then write_u8 (Z.lor (Z.shiftl fmt 6) id) buf
  else if id <? 320 then write_u8 (id - 64) (write_u8 (Z.shiftl fmt 6) buf)
  else write_u16 (swap_bytes 2 (id - 64)) (write_u8 (Z.lor (Z.shiftl fmt 6) 1) buf).

Definition encode_message_header (format : MessageHeaderFormat) (s : enc_stream)
    (buf : list byte) : enc_stream * list byte :=
  match format with
  | F0 =>
      let timestamp := es_timestamp s in
      let is_extended := 0xFFFFFF <=? timestamp in
      let buf := write_u24 (if is_extended then 0xFFFFFF else timestamp) buf in
      let buf := write_u24 (wrap_u 32 (es_message_size s)) buf in
      let buf := write_u8 (message_type_u8 (es_message_type s)) buf in
      let buf := write_u32 (swap_bytes 4 (es_message_stream_id s)) buf in
      let buf := if is_extended then write_u32 timestamp buf else buf in
      (es_set_delta (es_timestamp s) (es_set_ext is_extended s), buf)
  | F1 =>
      let timestamp_delta := es_timestamp_delta s in
      let is_extended := 0xFFFFFF <=? timestamp_delta in
      let buf := write_u24 (if is_extended then 0xFFFFFF else timestamp_delta) buf in
      let buf := write_u24 (wrap_u 32 (es_message_size s)) buf in
      let buf := write_u8 (message_type_u8 (es_message_type s)) buf in
      let buf := if is_extended then write_u32 timestamp_delta buf else buf in
      (es_set_ext is_extended s, buf)
  | F2 =>
      let timestamp_delta := es_timestamp_delta s in
      let is_extended := 0xFFFFFF <=? timestamp_delta in
      let buf := write_u24 (if is_extended then 0xFFFFFF else timestamp_delta) buf in
      let buf := if is_extended then write_u32 timestamp_delta buf else buf in
      (es_set_ext is_extended s, buf)
  | F3 =>
      (s, if es_enable_f3_extended_timestamp s then write_u32 (es_timestamp_delta s) buf else buf)
  end.

(** ** Splitting *)

(** The [while first || offset < message_payload.len()] loop; [rest] is
    [message_payload[offset..]]. Each turn takes at least one byte, so
    [length rest + 1] turns are enough ([encode_chunks_fuel]). *)
Fixpoint encode_chunks (fuel : nat) (chunk_size : Z) (format : MessageHeaderFormat)
    (s : enc_stream) (rest buf : list byte) : enc_stream * list byte :=
  match fuel with
  | O => (s, buf)
  | S fuel =>
      let buf := encode_chunk_basic_header format s buf in
      let '(s, buf) := encode_message_header format s buf in
      let chunk_payload_size := Z.to_nat (Z.min (Z.of_nat (length rest)) chunk_size) in
      let buf := write_bytes (take chunk_payload_size rest) buf in
      let rest := drop chunk_payload_size rest in
      match rest with
      | [] => (s, buf)
      | _ => encode_chunks fuel chunk_size F3 s rest buf
      end
  end.

Definition encode_message (e : RtmpChunkEncoder) (s : enc_stream)
    (message_payload buf : list byte) : enc_stream * list byte :=
  encode_chunks (S (length message_payload)) (enc_chunk_size e) (es_format s) s
    message_payload buf.

Definition encode (e : RtmpChunkEncoder) (chunk : RtmpChunk) (buf : list byte) :
    RtmpChunkEncoder * list byte :=
  let s := resolve_chunk_stream e chunk in
  let '(s, buf) := encode_message e s (payload chunk) buf in
  (mk_encoder (enc_chunk_size e) (<[chunk_stream_id chunk := s]> (enc_chunk_streams e)), buf).

(** ** Facts *)

(** The encoder only appends. *)
Lemma basic_header_app f s buf :
  encode_chunk_basic_header f s buf = buf ++ encode_chunk_basic_header f s [].
Proof.
  unfold encode_chunk_basic_header, write_u8, write_u16.
  repeat case_match; by rewrite <- ?app_assoc.
Qed.

Lemma message_header_app f s buf :
  encode_message_header f s buf =
  (fst (encode_message_header f s []), buf ++ snd (encode_message_header f s [])).
Proof.
  destruct f; cbn -[be_bytes]; unfold write_u8, write_u24, write_u32;
    repeat case_match; cbn -[be_bytes]; by rewrite ?app_nil_r, <- ?app_assoc.
Qed.

Lemma encode_chunks_app fuel n f s rest buf :
  encode_chunks fuel n f s rest buf =
  (fst (encode_chunks fuel n f s rest []), buf ++ snd (encode_chunks fuel n f s rest [])).
Proof.
  revert f s rest buf. induction fuel as [|fuel IH]; intros f s rest buf; cbn [encode_chunks].
  { cbn. by rewrite app_nil_r. }
  rewrite (message_header_app _ _ (encode_chunk_basic_header f s buf)).
  rewrite (message_header_app _ _ (encode_chunk_basic_header f s [])).
  rewrite (basic_header_app _ _ buf). unfold write_bytes.
  destruct (drop _ rest); cbn; [by rewrite <- !app_assoc|].
  rewrite IH. rewrite (IH _ _ _ ((_ ++ _) ++ _)). cbn. by rewrite <- !app_assoc.
Qed.

(** The loop ends with the payload whatever the fuel beyond its length. *)
Lemma encode_chunks_fuel fuel fuel' n f s rest buf :
  1 <= n -> (length rest < fuel)%nat -> (length rest < fuel')%nat ->
  encode_chunks fuel n f s rest buf = encode_chunks fuel' n f s rest buf.
Proof.
  intros Hn. revert fuel' f s rest buf.
  induction fuel as [|fuel IH]; intros fuel' f s rest buf H1 H2; [lia|].
  destruct fuel' as [|fuel']; [lia|]. cbn [encode_chunks].
  destruct (encode_message_header _ _ _) as [s' buf'].
  destruct (drop _ rest) as [|b r] eqn:E; [done|].
  assert (Hlen : (length (b :: r) < length rest)%nat).
  { assert (rest <> []) by (intros ->; by rewrite drop_nil in E).
    rewrite <- E, length_drop. destruct rest; [done|]. cbn [length] in *. lia. }
  apply IH; lia.
Qed.
