(* ===== verification/ChunkLoop.v ===== *)
(** * Decoding loops

    The loop that both users of the chunk decoder run on their receive buffer:
    [RtmpMessageDecoder::decode] ([message/decoder.rs]) and
    [RtmpCore::process_ready_bytes] ([core.rs]). The two differ in the state that
    owns the decoder and in what is done with a complete chunk, so the loop is
    written once, against an interface that gives access to the decoder inside
    the owner's state. *)
From Stdlib Require Import Strings.Byte.
From S2P Require Import Prelude RtmpBytes RtmpTypes ChunkDecoder.

(** ** The owner of a decoder *)

Class HasDecoder (S : Type) := {
  get_decoder : S -> RtmpChunkDecoder;
  set_decoder : RtmpChunkDecoder -> S -> S;
  get_set_decoder : forall d s, get_decoder (set_decoder d s) = d;
  set_set_decoder : forall d d' s, set_decoder d (set_decoder d' s) = set_decoder d s;
  set_get_decoder : forall s, set_decoder (get_decoder s) s = s
}.

(** The decoder alone. *)
#[export, refine] Instance decoder_has_decoder : HasDecoder RtmpChunkDecoder := {
    get_decoder := fun d => d;
    set_decoder := fun d _ => d
  }.
Proof. all: done. Defined.

(** A decoder beside a log of what it returned. *)
#[export, refine] Instance log_has_decoder {A} : HasDecoder (RtmpChunkDecoder * A) := {
    get_decoder := fst;
    set_decoder := fun d s => (d, snd s)
  }.
Proof. all: by intros; destruct s. Defined.

Section loop.
Context {S Er : Type} `{!HasDecoder S}.
(** What the owner does with a chunk, and how it wraps a decoding error. *)
Variable on_chunk : RtmpChunk -> SE S Er unit.
Variable of_error : Error -> Er.

(** [loop { match decoder.decode(buf.get()) { .. } }]: stops when the bytes run
    out. The result carries the state and the bytes left in the buffer. *)
Fixpoint pump (fuel : nat) (s : S) (buf : list byte) : S * list byte * result Er unit :=
  match fuel with
  | O => (s, buf, Ok tt)
  | Datatypes.S fuel =>
      let '(d', r) := decode (get_decoder s) buf in
      let s := set_decoder d' s in
      match r with
      | Ok (consumed, maybe_chunk) =>
          let buf := drop consumed buf in
          match maybe_chunk with
          | None => pump fuel s buf
          | Some chunk =>
              match on_chunk chunk s with
              | (s, Ok _) => pump fuel s buf
              | (s, Err e) => (s, buf, Err e)
              end
          end
      | Err e =>
          if decide (kind e = InsufficientBuffer) then (s, buf, Ok tt)
          else (s, buf, Err (of_error e))
      end
  end.

(** Every turn but the last consumes a byte, so [length buf + 1] turns reach the
    end of the loop. *)
Definition pump_all (s : S) (buf : list byte) : S * list byte * result Er unit :=
  pump (Datatypes.S (length buf)) s buf.

(** More fuel than bytes changes nothing: the loop has ended by itself. *)
Lemma pump_fuel (fuel fuel' : nat) (s : S) (buf : list byte) :
  (length buf < fuel)%nat -> (length buf < fuel')%nat -> pump fuel s buf = pump fuel' s buf.
Proof using Type.
  revert fuel' s buf. induction fuel as [|fuel IH]; intros fuel' s buf H1 H2; [lia|].
  destruct fuel' as [|fuel']; [lia|]. cbn [pump].
  destruct (decode (get_decoder s) buf) as [d' [[n c]|e]] eqn:E; [|done].
  destruct (decode_ok_app _ _ _ [] _ _ E) as [_ Hn].
  assert (L : (length (drop n buf) < length buf)%nat) by (rewrite length_drop; lia).
  destruct c as [c|]; [|apply IH; lia].
  destruct (on_chunk c _) as [s' [[]|e]]; [|done]. apply IH; lia.
Qed.

Lemma pump_unfold (s : S) (buf : list byte) :
  pump_all s buf =
    let '(d', r) := decode (get_decoder s) buf in
    let s := set_decoder d' s in
    match r with
    | Ok (consumed, maybe_chunk) =>
        let buf := drop consumed buf in
        match maybe_chunk with
        | None => pump_all s buf
        | Some chunk =>
            match on_chunk chunk s with
            | (s, Ok _) => pump_all s buf
            | (s, Err e) => (s, buf, Err e)
            end
        end
    | Err e =>
        if decide (kind e = InsufficientBuffer) then (s, buf, Ok tt)
        else (s, buf, Err (of_error e))
    end.
Proof using Type.
  unfold pump_all at 1. cbn [pump].
  destruct (decode (get_decoder s) buf) as [d' [[n c]|e]] eqn:E; [|done].
  destruct (decode_ok_app _ _ _ [] _ _ E) as [_ Hn].
  assert (L : (length (drop n buf) < length buf)%nat) by (rewrite length_drop; lia).
  destruct c as [c|]; [|apply pump_fuel; lia].
  destruct (on_chunk c _) as [s' [[]|e]]; [|done]. apply pump_fuel; lia.
Qed.

Lemma pump_nil (s : S) : pump_all s [] = (s, [], Ok tt).
Proof using Type.
  rewrite pump_unfold.
  assert (exists e, decode (get_decoder s) [] = (get_decoder s, Err e) /\
                    kind e = InsufficientBuffer) as (e & -> & Hk) by (eexists; by split).
  cbn zeta. by rewrite decide_True, set_get_decoder.
Qed.

(** The transport may cut the stream anywhere: running the loop on the first
    part and then on what it left followed by the rest is running it on the
    whole. *)
Lemma pump_split (s s1 : S) (p q r : list byte) :
  pump_all s p = (s1, r, Ok tt) -> pump_all s (p ++ q) = pump_all s1 (r ++ q).
Proof using Type.
  remember (length p) as n eqn:Hn. revert s p Hn.
  induction (lt_wf n) as [n _ IH]. intros s p -> H.
  rewrite pump_unfold in H. rewrite (pump_unfold s).
  destruct (decode (get_decoder s) p) as [d' [[k c]|e]] eqn:E.
  - destruct (decode_ok_app _ _ _ q _ _ E) as [-> Hk].
    assert (L : (length (drop k p) < length p)%nat) by (rewrite length_drop; lia).
    rewrite (drop_app_le p q k) by lia. destruct c as [c|]; cbn zeta in *.
    + destruct (on_chunk c _) as [s' [[]|e]]; [|done]. by eapply IH.
    + by eapply IH.
  - cbn zeta in H. case_decide as Hk; [|done]. simplify_eq.
    rewrite (pump_unfold (set_decoder d' s)).
    rewrite get_set_decoder, (decode_retry _ _ _ q _ E Hk).
    destruct (decode (get_decoder s) (r ++ q)) as [d'' res].
    by rewrite set_set_decoder.
Qed.

(** An error is reached at the same point however the bytes arrive. *)
Lemma pump_split_err (s s1 : S) (p q r : list byte) (x : Er) :
  pump_all s p = (s1, r, Err x) -> pump_all s (p ++ q) = (s1, r ++ q, Err x).
Proof using Type.
  remember (length p) as n eqn:Hn. revert s p Hn.
  induction (lt_wf n) as [n _ IH]. intros s p -> H.
  rewrite pump_unfold in H. rewrite (pump_unfold s).
  destruct (decode (get_decoder s) p) as [d' [[k c]|e]] eqn:E.
  - destruct (decode_ok_app _ _ _ q _ _ E) as [-> Hk].
    assert (L : (length (drop k p) < length p)%nat) by (rewrite length_drop; lia).
    rewrite (drop_app_le p q k) by lia. destruct c as [c|]; cbn zeta in *.
    + destruct (on_chunk c _) as [s' [[]|e]]; [by eapply IH|by simplify_eq].
    + by eapply IH.
  - cbn zeta in H. case_decide as Hk; [done|]. simplify_eq.
    rewrite (decode_err_app _ _ _ q _ E Hk). by rewrite decide_False.
Qed.

(** Feed a list of segments: the buffer of the owner keeps what is left. *)
Fixpoint pump_segments (s : S) (buf : list byte) (segments : list (list byte)) :
    S * list byte * result Er unit :=
  match segments with
  | [] => (s, buf, Ok tt)
  | x :: rest =>
      match pump_all s (buf ++ x) with
      | (s, buf, Ok _) => pump_segments s buf rest
      | (s, buf, Err e) => (s, buf, Err e)
      end
  end.

Lemma pump_segments_concat (s : S) (buf : list byte) (segments : list (list byte)) :
  segments <> [] ->
  match pump_all s (buf ++ concat segments) with
  | (s1, r, Ok _) => pump_segments s buf segments = (s1, r, Ok tt)
  | (s1, _, Err e) => exists r, pump_segments s buf segments = (s1, r, Err e)
  end.
Proof using Type.
  revert s buf. induction segments as [|x xs IH]; intros s buf Hne; [done|].
  cbn [concat pump_segments]. rewrite app_assoc.
  destruct (pump_all s (buf ++ x)) as [[s1 r] [[]|e]] eqn:E.
  - rewrite (pump_split _ _ _ (concat xs) _ E).
    destruct xs as [|y ys]; [|by apply IH].
    cbn [concat pump_segments]. rewrite app_nil_r.
    pose proof (pump_split _ _ _ [] _ E) as E'. rewrite !app_nil_r, E in E'. by rewrite <- E'.
  - rewrite (pump_split_err _ _ _ (concat xs) _ _ E). eauto.
Qed.
End loop.

(** ** One message

    The loop of [RtmpMessageDecoder::decode] up to the first complete chunk. *)
Fixpoint next_chunk (fuel : nat) (d : RtmpChunkDecoder) (buf : list byte) :
    RtmpChunkDecoder * list byte * result Error (option RtmpChunk) :=
  match fuel with
  | O => (d, buf, Ok None)
  | S fuel =>
      match decode d buf with
      | (d, Ok (size, Some chunk)) => (d, drop size buf, Ok (Some chunk))
      | (d, Ok (size, None)) => next_chunk fuel d (drop size buf)
      | (d, Err e) =>
          if decide (kind e = InsufficientBuffer) then (d, buf, Ok None) else (d, buf, Err e)
      end
  end.

(** ** Claims *)

(** [C21] How the transport cuts the byte stream does not matter, whatever the
    bytes are: two ways of cutting the same bytes end in the same state of the
    decoder's owner, with the same bytes left over, or fail with the same error
    after the same chunks were handed over. *)
Theorem segmentation_independent {S Er} `{!HasDecoder S}
    (on_chunk : RtmpChunk -> SE S Er unit) (of_error : Error -> Er) (s : S) segments1 segments2 :
  segments1 <> [] -> segments2 <> [] -> concat segments1 = concat segments2 ->
  match pump_segments on_chunk of_error s [] segments1,
        pump_segments on_chunk of_error s [] segments2 with
  | (s1, r1, Ok _), (s2, r2, Ok _) => s1 = s2 /\ r1 = r2
  | (s1, _, Err e1), (s2, _, Err e2) => s1 = s2 /\ e1 = e2
  | _, _ => False
  end.
Proof.
  intros H1 H2 Hc.
  pose proof (pump_segments_concat on_chunk of_error s [] segments1 H1) as P1.
  pose proof (pump_segments_concat on_chunk of_error s [] segments2 H2) as P2.
  rewrite <- Hc in P2.
  destruct (pump_all on_chunk of_error s ([] ++ concat segments1)) as [[s1 r] [[]|e]].
  - by rewrite P1, P2.
  - destruct P1 as [r1 ->], P2 as [r2 ->]. done.
Qed.

Lemma segmentation_independent_witness :
  let on_chunk (c : RtmpChunk) : SE (RtmpChunkDecoder * list RtmpChunk) Error unit :=
    fun s => ((fst s, snd s ++ [c]), Ok tt) in
  let bytes := [x03; x00; x00; x00; x00; x00; x02; x14; x00; x00; x00; x00; x05; x06] in
  let run := pump_segments on_chunk (fun e => e) (decoder_default, []) [] in
  match run [bytes], run [take 5 bytes; drop 5 bytes] with
  | (s1, r1, Ok _), (s2, r2, Ok _) => s1 = s2 /\ r1 = r2
  | (s1, _, Err e1), (s2, _, Err e2) => s1 = s2 /\ e1 = e2
  | _, _ => False
  end.
Proof.
  intros on_chunk bytes run. apply segmentation_independent; [discriminate|discriminate|reflexivity].
Defined.
