(* ===== verification/ChunkRoundtrip.v ===== *)
(** * Chunk layer round trip

    The encoder of [ChunkEncoder] and the decoder of [ChunkDecoder] implement one
    wire format: what one writes the other reads, for every sequence of messages,
    every chunk size and every way the transport cuts the bytes. *)
From Stdlib Require Import Strings.Byte.
From S2P Require Import Prelude RtmpBytes RtmpTypes ChunkDecoder ChunkEncoder ChunkLoop.

(** ** Basic header *)

Lemma lor_low (k b : Z) : 0 <= b < 64 -> Z.lor (Z.shiftl k 6) b = k * 64 + b.
Proof. apply (lor_shiftl k b 6). done. Qed.

Lemma format_of_bits_u8 f : format_of_bits (format_u8 f) = f.
Proof. by destruct f. Qed.

(** The first byte of a basic header. *)
Lemma first_byte_read f b q :
  0 <= b < 64 ->
  read_u8 (byte_of (Z.lor (Z.shiftl (format_u8 f) 6) b) :: q) = (q, Ok (format_u8 f * 64 + b)) /\
  format_of_bits (Z.shiftr (format_u8 f * 64 + b) 6) = f /\
  Z.land (format_u8 f * 64 + b) 63 = b.
Proof.
  intros Hb. rewrite lor_low by done.
  assert (0 <= format_u8 f < 4) by (destruct f; cbn; lia).
  split; [|split].
  - apply (read_u8_write _ q). unfold in_u. change (2 ^ 8) with 256. lia.
  - rewrite Z.shiftr_div_pow2 by lia. change (2 ^ 6) with 64.
    rewrite Z.div_add_l, Z.div_small, Z.add_0_r by lia. apply format_of_bits_u8.
  - change 63 with (Z.ones 6). rewrite Z.land_ones by lia. change (2 ^ 6) with 64.
    rewrite Z.add_comm, Z_mod_plus_full, Z.mod_small; lia.
Qed.

Lemma basic_header_roundtrip f s q :
  csid_wf (es_chunk_stream_id s) ->
  decode_chunk_basic_header (encode_chunk_basic_header f s [] ++ q)
  = (q, Ok (f, es_chunk_stream_id s)).
Proof.
  intros Hid. unfold encode_chunk_basic_header, decode_chunk_basic_header.
  set (id := es_chunk_stream_id s) in *. pose proof Hid as Hid'. unfold csid_wf in Hid'.
  unfold write_u8, write_u16. rewrite !app_nil_l.
  destruct (Z.ltb_spec id 64).
  - cbn [app]. destruct (first_byte_read f id q) as (E1 & E2 & E3); [lia|].
    unfold se_bind at 1. rewrite E1, E2, E3.
    destruct (Z.eqb_spec id 0); [lia|]. destruct (Z.eqb_spec id 1); [lia|].
    unfold se_bind, se_ret. cbn. by rewrite RtmpChunkStreamId_new_wf.
  - destruct (Z.ltb_spec id 320).
    + rewrite <- app_assoc. cbn [app].
      destruct (first_byte_read f 0 (byte_of (id - 64) :: q)) as (E1 & E2 & E3); [lia|].
      rewrite Z.lor_0_r in E1. unfold se_bind at 1. rewrite E1, E2, E3. cbn [Z.eqb Pos.eqb].
      unfold se_bind, se_ret.
      rewrite (read_u8_write (id - 64) q) by (unfold in_u; change (2 ^ 8) with 256; lia).
      rewrite Z.sub_add. cbn. by rewrite RtmpChunkStreamId_new_wf.
    + rewrite <- app_assoc. cbn [app].
      destruct (first_byte_read f 1 (be_bytes 2 (swap_bytes 2 (id - 64)) ++ q))
        as (E1 & E2 & E3); [lia|].
      unfold se_bind at 1. rewrite E1, E2, E3. cbn [Z.eqb Pos.eqb].
      unfold se_bind, se_ret. rewrite read_u16_write by apply (swap_bytes_range 2).
      rewrite swap_bytes_involutive by (unfold in_u; change (2 ^ _) with 65536; lia).
      rewrite Z.sub_add. cbn. by rewrite RtmpChunkStreamId_new_wf.
Qed.

(** ** Message header *)

(** Encoder and decoder agree on a chunk stream between two messages. *)
Record stream_sim (es : enc_stream) (ds : dec_stream) : Prop := {
  sim_timestamp : ds_timestamp ds = es_timestamp es;
  sim_delta : ds_timestamp_delta ds = es_timestamp_delta es;
  sim_type : ds_message_type ds = es_message_type es;
  sim_msid : ds_message_stream_id ds = es_message_stream_id es;
  sim_size : ds_message_size ds = es_message_size es;
  sim_acc : ds_acc_payload ds = [];
  sim_ext : ds_enable_f3_extended_timestamp ds = es_enable_f3_extended_timestamp es;
  sim_timestamp_range : in_u 32 (es_timestamp es);
  sim_delta_range : in_u 32 (es_timestamp_delta es)
}.

(** They agree inside a message, after a header: the decoder adds the delta to
    the timestamp when the message is complete. *)
Record header_sim (es : enc_stream) (ds : dec_stream) (acc : list byte) : Prop := {
  hsim_timestamp :
    timestamp_wrapping_add (ds_timestamp ds) (ds_timestamp_delta ds) = es_timestamp es;
  hsim_delta : ds_timestamp_delta ds = es_timestamp_delta es;
  hsim_type : ds_message_type ds = es_message_type es;
  hsim_msid : ds_message_stream_id ds = es_message_stream_id es;
  hsim_size : ds_message_size ds = es_message_size es;
  hsim_acc : ds_acc_payload ds = acc;
  hsim_ext : ds_enable_f3_extended_timestamp ds = es_enable_f3_extended_timestamp es;
  hsim_timestamp_range : in_u 32 (es_timestamp es);
  hsim_delta_range : in_u 32 (es_timestamp_delta es);
  hsim_msid_range : in_u 32 (es_message_stream_id es);
  hsim_csid : csid_wf (es_chunk_stream_id es);
  hsim_size_range : 0 <= es_message_size es <= MAX_MESSAGE_SIZE
}.

(** The extended timestamp field, when it is written. *)
Definition ext_bytes (t : Z) : list byte := if 0xFFFFFF <=? t then be_bytes 4 t else [].

Lemma read_timestamp_field_spec ts sd q :
  in_u 32 ts ->
  read_timestamp_field (if 0xFFFFFF <=? ts then 0xFFFFFF else ts) (sd, ext_bytes ts ++ q)
  = ((ds_set_delta ts (ds_set_ext (0xFFFFFF <=? ts) sd), q), Ok tt).
Proof.
  intros Hts. unfold read_timestamp_field, ext_bytes, se_bind, ds_upd, se_upd, ds_read, se_snd.
  destruct (Z.leb_spec 0xFFFFFF ts).
  - cbn. by rewrite read_u32_write.
  - destruct (Z.eqb_spec ts 0xFFFFFF); [lia|]. done.
Qed.

Lemma ts24_range ts : in_u 32 ts -> in_u 24 (if 0xFFFFFF <=? ts then 0xFFFFFF else ts).
Proof. unfold in_u. zcases; lia. Qed.

(** What the three explicit headers look like on the wire. *)
Lemma message_header_bytes f s :
  0 <= es_message_size s <= MAX_MESSAGE_SIZE -> f <> F3 ->
  let ts := match f with F0 => es_timestamp s | _ => es_timestamp_delta s end in
  snd (encode_message_header f s []) =
    be_bytes 3 (if 0xFFFFFF <=? ts then 0xFFFFFF else ts) ++
    (match f with
     | F2 => []
     | _ => be_bytes 3 (es_message_size s) ++ [byte_of (message_type_u8 (es_message_type s))]
     end) ++
    (match f with F0 => be_bytes 4 (swap_bytes 4 (es_message_stream_id s)) | _ => [] end) ++
    ext_bytes ts.
Proof.
  intros Hs Hf. unfold MAX_MESSAGE_SIZE in Hs.
  assert (W : wrap_u 32 (es_message_size s) = es_message_size s).
  { apply wrap_u_small. unfold in_u. change (2 ^ 32) with 4294967296. lia. }
  unfold encode_message_header, write_u24, write_u8, write_u32, ext_bytes.
  destruct f; [| | |done]; cbn zeta; rewrite ?W, !be_bytes_drop_top;
    destruct (_ <=? _); cbn [snd]; by rewrite ?app_nil_r, <- ?app_assoc.
Qed.

(** What a header of format [f] relies on: which fields the decoder already has. *)
Record header_pre (f : MessageHeaderFormat) (es : enc_stream) (ds : dec_stream) : Prop := {
  hpre_timestamp_range : in_u 32 (es_timestamp es);
  hpre_delta_range : in_u 32 (es_timestamp_delta es);
  hpre_msid_range : in_u 32 (es_message_stream_id es);
  hpre_csid : csid_wf (es_chunk_stream_id es);
  hpre_size : 0 <= es_message_size es <= MAX_MESSAGE_SIZE;
  hpre_acc : f <> F0 -> ds_acc_payload ds = [];
  hpre_timestamp : f <> F0 ->
    timestamp_wrapping_add (ds_timestamp ds) (es_timestamp_delta es) = es_timestamp es;
  hpre_msid : f <> F0 -> ds_message_stream_id ds = es_message_stream_id es;
  hpre_kept : f = F2 \/ f = F3 ->
    ds_message_type ds = es_message_type es /\ ds_message_size ds = es_message_size es;
  hpre_delta : f = F3 ->
    ds_timestamp_delta ds = es_timestamp_delta es /\
    ds_enable_f3_extended_timestamp ds = es_enable_f3_extended_timestamp es
}.

Lemma ds_read_ok {A} (m : reader A) (s : dec_stream) p r a :
  m p = (r, Ok a) -> ds_read m (s, p) = ((s, r), Ok a).
Proof. apply se_snd_ok. Qed.

Lemma ds_upd_ok f (s : dec_stream) p : ds_upd f (s, p) = ((f s, p), Ok tt).
Proof. done. Qed.

Lemma ds_get_ok (s : dec_stream) p : ds_get (s, p) = ((s, p), Ok s).
Proof. done. Qed.

Tactic Notation "step_reader" uconstr(lem) :=
  cbv beta; erewrite (se_bind_ok _ _ _ _ _ (ds_read_ok _ _ _ _ _ lem)); cbv beta.

Ltac size_ok :=
  match goal with H : 0 <= ?n <= MAX_MESSAGE_SIZE |- _ =>
    destruct (Z.ltb_spec MAX_MESSAGE_SIZE n); [lia|]
  end.

Lemma size24 n : 0 <= n <= MAX_MESSAGE_SIZE -> in_u 24 n.
Proof. unfold MAX_MESSAGE_SIZE, in_u. change (2 ^ 24) with 16777216. lia. Qed.

Lemma message_header_roundtrip f es ds q :
  header_pre f es ds ->
  exists ds',
    decode_message_header f (ds, snd (encode_message_header f es []) ++ q) = ((ds', q), Ok tt) /\
    header_sim (fst (encode_message_header f es [])) ds' [].
Proof.
  intros [Ht Hd Hm Hc Hs Ha H1 H2 H3 H4].
  destruct (decide (f = F3)) as [->|Hf].
  { destruct H4 as [E1 E2]; [done|]. destruct H3 as [E3 E4]; [auto|].
    cbn [decode_message_header encode_message_header fst snd].
    rewrite (se_bind_ok _ _ _ (ds, _) ds) by done. rewrite se_if, E2.
    destruct (es_enable_f3_extended_timestamp es) eqn:Ee.
    - unfold write_u32. rewrite app_nil_l. step_reader (read_u32_write _ q Hd).
      eexists. split; [reflexivity|]. split; cbn; auto. congruence.
    - eexists. split; [reflexivity|]. split; auto; [by rewrite E1, H1|congruence]. }
  rewrite message_header_bytes by done.
  destruct f; [| | |done]; cbn [decode_message_header]; cbn zeta;
    rewrite ?app_nil_l; repeat rewrite <- app_assoc.
  - rewrite (se_bind_ok _ _ _ _ _ (ds_upd_ok _ _ _)).
    step_reader (read_u24_write _ _ (ts24_range _ Ht)).
    step_reader (read_u24_write _ _ (size24 _ Hs)). size_ok. cbn [app].
    step_reader (read_u8_write _ _ (message_type_u8_range (es_message_type es))).
    step_reader (read_u32_write _ _ (swap_bytes_range 4 (es_message_stream_id es))).
    erewrite (se_bind_ok _ _ _ _ _ (read_timestamp_field_spec _ _ _ Ht)).
    unfold se_bind, ds_upd, se_upd, se_of. cbn -[from_type_id message_type_u8].
    rewrite from_type_id_u8, (swap_bytes_involutive 4) by done.
    eexists. split; [reflexivity|]. split; cbn; auto.
    unfold timestamp_wrapping_add. by apply wrap_u_small.
  - step_reader (read_u24_write _ _ (ts24_range _ Hd)).
    step_reader (read_u24_write _ _ (size24 _ Hs)). size_ok. cbn [app].
    step_reader (read_u8_write _ _ (message_type_u8_range (es_message_type es))).
    erewrite (se_bind_ok _ _ _ _ _ (read_timestamp_field_spec _ _ _ Hd)).
    unfold se_bind, ds_upd, se_upd, se_of. cbn -[from_type_id message_type_u8].
    rewrite from_type_id_u8.
    eexists. split; [reflexivity|]. split; cbn; auto.
  - step_reader (read_u24_write _ _ (ts24_range _ Hd)).
    rewrite (read_timestamp_field_spec _ _ _ Hd).
    destruct H3; [auto|]. eexists. split; [reflexivity|]. split; cbn; auto.
Qed.

(** ** Payload *)

Lemma payload_step cs es ds acc rest q :
  header_sim es ds acc -> 1 <= cs ->
  es_message_size es = Z.of_nat (length acc + length rest) ->
  let n := Z.to_nat (Z.min (Z.of_nat (length rest)) cs) in
  exists ds',
    decode_message_payload cs (ds, take n rest ++ q)
    = ((ds', q), Ok (match drop n rest with [] => Some (acc ++ rest) | _ => None end)) /\
    match drop n rest with
    | [] => stream_sim es ds'
    | _ => header_sim es ds' (acc ++ take n rest)
    end.
Proof.
  intros [Ht Hd Hty Hm Hs Ha He Htr Hdr Hmr Hc Hsr] Hcs Hsize n.
  unfold decode_message_payload. rewrite (se_bind_ok _ _ _ (ds, _) ds) by done.
  unfold checked_sub_u. rewrite Hs, Ha, Hsize. cbn beta.
  destruct (Z.ltb_spec (Z.of_nat (length acc + length rest)) (Z.of_nat (length acc))); [lia|].
  replace (Z.of_nat (length acc + length rest) - Z.of_nat (length acc))
    with (Z.of_nat (length rest)) by lia.
  fold n. assert (Hn : length (take n rest) = n) by (rewrite length_take; lia).
  pose proof (read_bytes_app (take n rest) q) as R. rewrite Hn in R.
  step_reader R. rewrite (se_bind_ok _ _ _ _ _ (ds_upd_ok _ _ _)).
  cbv beta. rewrite (se_bind_ok _ _ _ _ _ (ds_get_ok _ _)).
  cbn [ds_acc_payload ds_message_size ds_set_acc].
  rewrite se_if, Ha, length_app, Hn, Hs, Hsize.
  destruct (drop n rest) as [|b tl] eqn:Ed.
  - assert (take n rest = rest) as Et.
    { apply take_ge. assert (length (drop n rest) = O) by by rewrite Ed.
      rewrite length_drop in *. lia. }
    rewrite Et in Hn. rewrite Et, Hn.
    destruct (Z.eqb_spec (Z.of_nat (length acc + n)) (Z.of_nat (length acc + n))); [|lia].
    unfold se_bind, ds_upd, se_upd, se_ret. cbn.
    eexists. split; [reflexivity|]. split; cbn; auto.
  - assert (length (drop n rest) <> O) by by rewrite Ed. rewrite length_drop in *.
    destruct (Z.eqb_spec (Z.of_nat (length acc + n)) (Z.of_nat (length acc + length rest))); [lia|].
    eexists. split; [reflexivity|]. split; cbn; auto.
Qed.

(** ** One chunk *)

(** A decoder that agrees with the encoder's state before a chunk of format [f]. *)
Definition chunk_pre (f : MessageHeaderFormat) (es : enc_stream) (d : RtmpChunkDecoder)
    (acc : list byte) : Prop :=
  match f with
  | F3 => exists ds, dec_chunk_streams d !! es_chunk_stream_id es = Some ds /\
                     (header_sim es ds acc \/ (acc = [] /\ header_pre F3 es ds))
  | F0 => acc = [] /\ forall ds, header_pre F0 es ds
  | _ => acc = [] /\ exists ds, dec_chunk_streams d !! es_chunk_stream_id es = Some ds /\
                     header_pre f es ds
  end.

(** A format-3 header inside a message changes nothing. *)
Lemma continuation_header es ds acc q :
  header_sim es ds acc ->
  decode_message_header F3 (ds, snd (encode_message_header F3 es []) ++ q) = ((ds, q), Ok tt).
Proof.
  intros [Ht Hd Hty Hm Hs Ha He Htr Hdr Hmr Hc Hsr].
  cbn [decode_message_header encode_message_header snd].
  rewrite (se_bind_ok _ _ _ (ds, _) ds) by done. rewrite se_if, He.
  destruct (es_enable_f3_extended_timestamp es) eqn:Ee.
  - unfold write_u32. rewrite app_nil_l. step_reader (read_u32_write _ q Hdr).
    rewrite ds_upd_ok. rewrite <- Hd. by destruct ds.
  - done.
Qed.

Lemma find_stream f es d acc :
  chunk_pre f es d acc ->
  exists ds,
    match dec_chunk_streams d !! es_chunk_stream_id es with
    | Some s => Some s
    | None => if decide (f = F0) then Some dec_stream_new else None
    end = Some ds /\
    (header_sim es ds acc /\ f = F3 \/ acc = [] /\ header_pre f es ds).
Proof.
  destruct f; cbn.
  - intros [-> H]. destruct (_ !! _) as [ds|]; eauto 6.
  - intros [-> (ds & -> & H)]. eauto 6.
  - intros [-> (ds & -> & H)]. eauto 6.
  - intros (ds & -> & [H|[-> H]]); eauto 6.
Qed.

(** ** One chunk on the wire *)

(** The bytes of the next chunk of a message of which [rest] is left. *)
Definition chunk_bytes (cs : Z) (f : MessageHeaderFormat) (es : enc_stream) (rest : list byte) :
    list byte :=
  encode_chunk_basic_header f es [] ++ snd (encode_message_header f es []) ++
  take (Z.to_nat (Z.min (Z.of_nat (length rest)) cs)) rest.

(** The chunk a complete message gives. *)
Definition message_of (es : enc_stream) (p : list byte) : RtmpChunk :=
  mk_chunk (es_chunk_stream_id es) (es_message_stream_id es) (es_message_type es)
    (es_timestamp es) p.

Lemma message_header_fields f es :
  es_chunk_stream_id (fst (encode_message_header f es [])) = es_chunk_stream_id es /\
  es_message_size (fst (encode_message_header f es [])) = es_message_size es /\
  forall p, message_of (fst (encode_message_header f es [])) p = message_of es p.
Proof. by destruct f. Qed.

Lemma chunk_step f es d acc rest q :
  chunk_pre f es d acc -> 1 <= dec_chunk_size d -> csid_wf (es_chunk_stream_id es) ->
  es_message_size es = Z.of_nat (length acc + length rest) ->
  let tail := drop (Z.to_nat (Z.min (Z.of_nat (length rest)) (dec_chunk_size d))) rest in
  let bytes := chunk_bytes (dec_chunk_size d) f es rest in
  let es' := fst (encode_message_header f es []) in
  exists ds',
    decode d (bytes ++ q)
    = (mk_decoder (dec_chunk_size d) (<[es_chunk_stream_id es := ds']> (dec_chunk_streams d)),
       Ok (length bytes,
           match tail with [] => Some (message_of es (acc ++ rest)) | _ => None end)) /\
    match tail with
    | [] => stream_sim es' ds'
    | _ => header_sim es' ds'
             (acc ++ take (Z.to_nat (Z.min (Z.of_nat (length rest)) (dec_chunk_size d))) rest)
    end.
Proof.
  intros Hpre Hcs Hid Hsize tail bytes es'.
  destruct (find_stream _ _ _ _ Hpre) as (ds & Efind & Hds).
  set (n := Z.to_nat _) in *.
  assert (exists ds1, decode_message_header f
            (ds, snd (encode_message_header f es []) ++ take n rest ++ q)
            = ((ds1, take n rest ++ q), Ok tt) /\ header_sim es' ds1 acc) as (ds1 & Eh & Hsim).
  { destruct Hds as [[Hs ->]|[-> Hp]].
    - exists ds. split; [by eapply continuation_header|done].
    - by apply message_header_roundtrip. }
  destruct (message_header_fields f es) as (F1 & F2 & F3). fold es' in F1, F2, F3.
  destruct (payload_step (dec_chunk_size d) es' ds1 acc rest q Hsim Hcs) as (ds2 & Ep & Hp);
    [congruence|]. fold n in Ep, Hp.
  exists ds2. split; [|exact Hp]. unfold decode, bytes, chunk_bytes. fold n.
  rewrite <- !app_assoc, basic_header_roundtrip, Efind by done.
  unfold decode_chunk, se_bind. rewrite Eh, Ep.
  assert (forall x, stream_sim es' ds2 ->
    mk_chunk (es_chunk_stream_id es) (ds_message_stream_id ds2) (ds_message_type ds2)
      (ds_timestamp ds2) x = message_of es x) as Hm.
  { intros x [S1 S2 S3 S4 _ _ _ _ _]. rewrite <- F3. unfold message_of. congruence. }
  replace (length _ - length q)%nat
    with (length (encode_chunk_basic_header f es [] ++ snd (encode_message_header f es [])
                  ++ take n rest)) by (rewrite !length_app; lia).
  unfold tail in Hp |- *. fold n. destruct (drop n rest); cbn; [|done]. by rewrite Hm.
Qed.

(** ** One message *)

Lemma encode_chunks_unfold fuel cs f es rest :
  let tail := drop (Z.to_nat (Z.min (Z.of_nat (length rest)) cs)) rest in
  let es' := fst (encode_message_header f es []) in
  encode_chunks (S fuel) cs f es rest [] =
  match tail with
  | [] => (es', chunk_bytes cs f es rest)
  | _ => (fst (encode_chunks fuel cs F3 es' tail []),
          chunk_bytes cs f es rest ++ snd (encode_chunks fuel cs F3 es' tail []))
  end.
Proof.
  cbn zeta. cbn [encode_chunks].
  rewrite (message_header_app f es (encode_chunk_basic_header f es [])).
  unfold chunk_bytes, write_bytes.
  destruct (drop _ rest); [by rewrite <- app_assoc|].
  rewrite encode_chunks_app. by rewrite <- !app_assoc.
Qed.

Section owner.
Context {S Er : Type} `{!HasDecoder S}.
Variable on_chunk : RtmpChunk -> SE S Er unit.
Variable of_error : Error -> Er.
Let pump_all := pump_all on_chunk of_error.

(** The loop reads an encoded message up to its last byte, hands it over once,
    and goes on with what follows. *)
Lemma pump_message fuel f es s acc rest q :
  (length rest < fuel)%nat ->
  let d := get_decoder s in
  chunk_pre f es d acc -> 1 <= dec_chunk_size d -> csid_wf (es_chunk_stream_id es) ->
  es_message_size es = Z.of_nat (length acc + length rest) ->
  exists ds',
    let d' := mk_decoder (dec_chunk_size d)
                (<[es_chunk_stream_id es := ds']> (dec_chunk_streams d)) in
    stream_sim (fst (encode_chunks fuel (dec_chunk_size d) f es rest [])) ds' /\
    pump_all s (snd (encode_chunks fuel (dec_chunk_size d) f es rest []) ++ q) =
      match on_chunk (message_of es (acc ++ rest)) (set_decoder d' s) with
      | (s', Ok _) => pump_all s' q
      | (s', Err e) => (s', q, Err e)
      end.
Proof using Type.
  revert f es s acc rest q.
  induction fuel as [|fuel IH]; intros f es s acc rest q Hf d Hpre Hcs Hid Hsize; [lia|].
  rewrite encode_chunks_unfold.
  destruct (message_header_fields f es) as (F1 & F2 & F3').
  set (n := Z.to_nat _) in *.
  destruct (drop n rest) as [|b tl] eqn:Ed.
  - destruct (chunk_step f es d acc rest q Hpre Hcs Hid Hsize) as (ds' & E & Hsim).
    fold n in E, Hsim. rewrite Ed in E, Hsim.
    exists ds'. split; [done|]. unfold pump_all. rewrite pump_unfold. cbn [snd]. fold d.
    rewrite E. cbn zeta. rewrite drop_app_length. done.
  - set (es1 := fst (encode_message_header f es [])) in *.
    set (tail := b :: tl) in *.
    destruct (chunk_step f es d acc rest
                (snd (encode_chunks fuel (dec_chunk_size d) F3 es1 tail []) ++ q)
                Hpre Hcs Hid Hsize) as (ds1 & E & Hsim).
    fold n in E, Hsim. rewrite Ed in E, Hsim. fold es1 in Hsim.
    change (match tail with [] => Some _ | _ => None end) with (@None RtmpChunk) in E.
    set (d1 := mk_decoder _ _) in E.
    assert (Hlen : length rest = (length (take n rest) + length tail)%nat)
      by (rewrite <- length_app; by rewrite <- Ed, take_drop).
    assert (0 < length (take n rest))%nat.
    { rewrite length_take. unfold n. cbn [tail length] in Hlen. lia. }
    destruct (IH F3 es1 (set_decoder d1 s) (acc ++ take n rest) tail q) as (ds' & Hs' & Ep).
    + lia.
    + rewrite get_set_decoder. cbn. exists ds1. rewrite F1, lookup_insert_eq. auto.
    + by rewrite get_set_decoder.
    + by rewrite F1.
    + rewrite F2, Hsize, length_app. lia.
    + rewrite get_set_decoder in Hs', Ep. cbn [dec_chunk_size d1] in Hs', Ep.
      exists ds'. split; [done|]. cbn [fst snd]. rewrite <- app_assoc.
      unfold pump_all at 1. rewrite pump_unfold. fold d. rewrite E. cbn zeta.
      rewrite drop_app_length. fold pump_all. rewrite Ep.
      rewrite set_set_decoder. cbn [dec_chunk_streams d1].
      rewrite F1, insert_insert_eq, F3', <- app_assoc.
      by rewrite <- Ed, take_drop.
Qed.
End owner.

(** ** A connection *)

(** The decoder follows the encoder: same chunk size, same chunk streams. *)
Record connection_sim (e : RtmpChunkEncoder) (d : RtmpChunkDecoder) : Prop := {
  conn_size : dec_chunk_size d = enc_chunk_size e;
  conn_size_pos : 1 <= enc_chunk_size e;
  conn_streams : forall id es, enc_chunk_streams e !! id = Some es ->
    exists ds, dec_chunk_streams d !! id = Some ds /\ stream_sim es ds
}.

(** A message the encoder accepts: its fields fit their types and its payload
    the limit of the decoder. *)
Definition chunk_fits (c : RtmpChunk) : Prop :=
  chunk_wf c /\ Z.of_nat (length (payload c)) <= MAX_MESSAGE_SIZE.

Lemma connection_sim_default : connection_sim encoder_default decoder_default.
Proof. by split; intros; cbn in *. Qed.

Lemma message_of_resolve e c : message_of (resolve_chunk_stream e c) (payload c) = c.
Proof.
  unfold resolve_chunk_stream. destruct c.
  by destruct (_ !! _); [destruct (timestamp_checked_sub _ _)|].
Qed.

Lemma resolve_pre e d c :
  connection_sim e d -> chunk_fits c ->
  chunk_pre (es_format (resolve_chunk_stream e c)) (resolve_chunk_stream e c) d [].
Proof.
  intros [Hcs Hpos Hst] [[Hid Hm Ht] Hlen]. unfold resolve_chunk_stream.
  assert (F0pre : forall ext delta, in_u 32 delta -> forall ds,
    header_pre F0 (mk_enc_stream (chunk_stream_id c) (timestamp c) delta (message_type c)
      (message_stream_id c) (Z.of_nat (length (payload c))) F0 ext) ds).
  { intros. split; cbn; try done; (lia || intuition congruence). }
  destruct (enc_chunk_streams e !! chunk_stream_id c) as [last|] eqn:E; [|by cbn; auto].
  destruct (Hst _ _ E) as (ds & Eds & [S1 S2 S3 S4 S5 S6 S7 S8 S9]).
  unfold timestamp_checked_sub, checked_sub_u.
  destruct (Z.ltb_spec (timestamp c) (es_timestamp last)); [by cbn; auto|].
  set (delta := _ - _).
  assert (Hd : in_u 32 delta) by (unfold in_u in *; unfold delta; lia).
  assert (Hw : timestamp_wrapping_add (ds_timestamp ds) delta = timestamp c).
  { unfold timestamp_wrapping_add. rewrite S1. unfold delta. rewrite Zplus_minus.
    by apply wrap_u_small. }
  set (f := match bool_decide _ with true => _ | false => _ end).
  assert (Hf : (f <> F0 -> message_stream_id c = es_message_stream_id last) /\
    (f = F2 \/ f = F3 -> message_type c = es_message_type last /\
       Z.of_nat (length (payload c)) = es_message_size last) /\
    (f = F3 -> delta = es_timestamp_delta last)).
  { unfold f. repeat case_bool_decide; intuition congruence. }
  destruct Hf as (Hf1 & Hf2 & Hf3). clearbody f.
  assert (header_pre f (mk_enc_stream (chunk_stream_id c) (timestamp c) delta (message_type c)
      (message_stream_id c) (Z.of_nat (length (payload c))) f
      (es_enable_f3_extended_timestamp last)) ds).
  { split; cbn; try done; try (split; [lia|done]); intros Hx.
    - rewrite S4. symmetry. auto.
    - destruct Hf2; [done|]. split; congruence.
    - rewrite S2, S7. by rewrite Hf3. }
  destruct f; cbn; eauto 6.
Qed.

Section connection.
Context {S Er : Type} `{!HasDecoder S}.
Variable on_chunk : RtmpChunk -> SE S Er unit.
Variable of_error : Error -> Er.

(** One message: the owner of the decoder sees it exactly once, and encoder and
    decoder agree again afterwards. *)
Lemma pump_encode e s c q :
  connection_sim e (get_decoder s) -> chunk_fits c ->
  exists d',
    connection_sim (fst (encode e c [])) d' /\
    pump_all on_chunk of_error s (snd (encode e c []) ++ q) =
      match on_chunk c (set_decoder d' s) with
      | (s', Ok _) => pump_all on_chunk of_error s' q
      | (s', Err x) => (s', q, Err x)
      end.
Proof using Type.
  intros Hsim Hc. pose proof (resolve_pre _ _ _ Hsim Hc) as Hpre.
  pose proof (message_of_resolve e c) as Hm.
  destruct Hsim as [Hcs Hpos Hst]. destruct Hc as [[Hid _ _] Hlen].
  unfold encode, encode_message. set (es := resolve_chunk_stream e c) in *.
  assert (Eid : es_chunk_stream_id es = chunk_stream_id c) by (by rewrite <- Hm).
  assert (Esz : es_message_size es = Z.of_nat (length (payload c))).
  { unfold es, resolve_chunk_stream. by repeat case_match. }
  destruct (pump_message on_chunk of_error (Datatypes.S (length (payload c)))
    (es_format es) es s [] (payload c) q) as (ds' & Hs' & Ep); [lia|done|lia|by rewrite Eid|done|].
  rewrite Hcs in Hs', Ep. rewrite app_nil_l, Hm in Ep.
  destruct (encode_chunks _ _ _ _ _ _) as [es' b]. cbn [fst snd] in *.
  eexists. split; [|exact Ep]. split; cbn; try done.
  rewrite Eid. intros id es2. destruct (decide (id = chunk_stream_id c)) as [->|Hne].
  - rewrite !lookup_insert_eq. intros [= ->]. eauto.
  - rewrite !lookup_insert_ne by done. apply Hst.
Qed.
End connection.

(** A list of messages through one encoder. *)
Fixpoint encode_all (e : RtmpChunkEncoder) (cs : list RtmpChunk) : RtmpChunkEncoder * list byte :=
  match cs with
  | [] => (e, [])
  | c :: cs =>
      let '(e, b) := encode e c [] in
      let '(e, b') := encode_all e cs in (e, b ++ b')
  end.

(** An owner that records what it is given. *)
Definition log_chunk (c : RtmpChunk) : SE (RtmpChunkDecoder * list RtmpChunk) Error unit :=
  fun s => ((fst s, snd s ++ [c]), Ok tt).
Definition receive := pump_segments log_chunk (fun e => e).

Lemma pump_encode_all e d log cs :
  connection_sim e d -> Forall chunk_fits cs ->
  exists d', connection_sim (fst (encode_all e cs)) d' /\
    pump_all log_chunk (fun e => e) (d, log) (snd (encode_all e cs)) = ((d', log ++ cs), [], Ok tt).
Proof.
  intros Hsim Hcs. revert e d log Hsim. induction Hcs as [|c cs Hc _ IH]; intros e d log Hsim.
  - exists d. split; [done|]. rewrite app_nil_r. apply pump_nil.
  - cbn [encode_all].
    assert (Hsim' : connection_sim e (get_decoder (d, log))) by exact Hsim.
    destruct (pump_encode (S:=RtmpChunkDecoder * list RtmpChunk) log_chunk (fun e => e) e (d, log) c
                (snd (encode_all (fst (encode e c [])) cs)) Hsim' Hc) as (d1 & Hs1 & E).
    destruct (encode e c []) as [e1 b]. cbn [fst snd] in *.
    destruct (IH _ _ (log ++ [c]) Hs1) as (d' & Hs' & E').
    destruct (encode_all e1 cs) as [e2 b']. cbn [fst snd] in *.
    exists d'. split; [done|]. rewrite E.
    change (log_chunk c (set_decoder d1 (d, log))) with ((d1, log ++ [c]), @Ok Error unit tt).
    cbn match. rewrite E'. by rewrite <- app_assoc.
Qed.

(** ** Claims *)

(** [C1] Every message sent over a connection arrives. Encode any list of messages
    (any chunk streams, types, sizes up to the decoder's limit, timestamps going
    forward, back or over the extended threshold) with any agreed chunk size and
    any connection history; cut the bytes anywhere; feed the pieces to the
    decoder one after the other. The decoder returns exactly those messages, in
    order, without an error, and nothing is left in its buffer. *)
Theorem chunk_transport_exact e d cs segments :
  connection_sim e d -> Forall chunk_fits cs ->
  segments <> [] -> concat segments = snd (encode_all e cs) ->
  exists d', connection_sim (fst (encode_all e cs)) d' /\
    receive (d, []) [] segments = ((d', cs), [], Ok tt).
Proof.
  intros Hsim Hcs Hne Hcat.
  destruct (pump_encode_all e d [] cs Hsim Hcs) as (d' & Hs & E).
  exists d'. split; [done|]. unfold receive.
  pose proof (pump_segments_concat log_chunk (fun e => e) (d, []) [] segments Hne) as P.
  rewrite Hcat, app_nil_l, E in P. exact P.
Qed.

(** A video message of 200 bytes and an audio message of 3, in two pieces. *)
Definition demo_chunks : list RtmpChunk :=
  [mk_chunk 6 1 TVideo 40 (repeat x2a 200); mk_chunk 4 1 TAudio 63 [xaf; x01; x21]].

Lemma chunk_transport_exact_witness :
  let bytes := snd (encode_all encoder_default demo_chunks) in
  exists d', receive (decoder_default, []) [] [take 150 bytes; drop 150 bytes]
             = ((d', demo_chunks), [], Ok tt).
Proof.
  intros bytes.
  destruct (chunk_transport_exact encoder_default decoder_default demo_chunks
    [take 150 bytes; drop 150 bytes]) as (d' & _ & H).
  - exact connection_sim_default.
  - repeat constructor; vm_compute; try discriminate; left; split; discriminate.
  - discriminate.
  - vm_compute. reflexivity.
  - exists d'. exact H.
Defined.
