(* ===== verification/ChunkInvariant.v ===== *)
(** * Chunk decoder invariant

    What the decoder keeps between calls, whatever bytes arrive: every chunk
    stream holds a partial payload that is no longer than its message and no
    message is longer than the limit, so a peer cannot make the decoder hold
    more than [MAX_MESSAGE_SIZE] bytes per chunk stream. *)
From Stdlib Require Import Strings.Byte.
From S2P Require Import Prelude RtmpBytes RtmpTypes ChunkDecoder ChunkLoop ChunkRoundtrip.

(** ** The invariant *)

Record stream_wf (s : dec_stream) : Prop := {
  sw_size : 0 <= ds_message_size s <= MAX_MESSAGE_SIZE;
  sw_acc : Z.of_nat (length (ds_acc_payload s)) <= ds_message_size s;
  sw_timestamp : in_u 32 (ds_timestamp s);
  sw_delta : in_u 32 (ds_timestamp_delta s);
  sw_msid : in_u 32 (ds_message_stream_id s)
}.

Record decoder_wf (d : RtmpChunkDecoder) : Prop := {
  dw_size : chunk_size_wf (dec_chunk_size d);
  dw_streams : map_Forall (fun id s => csid_wf id /\ stream_wf s) (dec_chunk_streams d)
}.

Definition accumulated_exceeds : string := "accumulated payload exceeds message size".

(** ** Errors of the parts *)

Lemma from_type_id_reason n e :
  from_type_id n = Err e -> reason e <> accumulated_exceeds.
Proof. unfold from_type_id. intros H. repeat case_match; inversion H; subst; discriminate. Qed.

(** ** The operations on a stream preserve it *)

(** [Q] of what a stream operation returns, and the invariant of what it leaves. *)
Definition stream_triple {A} (P : dec_stream -> Prop) (m : stream_op A)
    (Q : A -> dec_stream -> Prop) : Prop :=
  forall s p s' r res, P s -> m (s, p) = ((s', r), res) ->
  match res with
  | Ok a => Q a s'
  | Err e => stream_wf s' /\ reason e <> accumulated_exceeds
  end.

Section triples.
Context {A B : Type}.
Implicit Types P : dec_stream -> Prop.

Lemma triple_bind P (m : stream_op A) (k : A -> stream_op B) Q R :
  stream_triple P m Q -> (forall a, stream_triple (Q a) (k a) R) ->
  stream_triple P (se_bind m k) R.
Proof.
  intros Hm Hk s p s' r res HP. unfold se_bind.
  destruct (m (s, p)) as [[s1 r1] [a|e]] eqn:E; pose proof (Hm _ _ _ _ _ HP E) as Q1.
  - apply Hk, Q1.
  - by intros [= <- <- <-].
Qed.

Lemma triple_upd P f (Q : unit -> dec_stream -> Prop) :
  (forall s, P s -> Q tt (f s)) -> stream_triple P (ds_upd f) Q.
Proof. intros H s p s' r res HP [= <- <- <-]. auto. Qed.

Lemma triple_get P (k : dec_stream -> stream_op A) R :
  (forall s, P s -> stream_triple (eq s) (k s) R) -> stream_triple P (se_bind ds_get k) R.
Proof. intros H s p s' r res HP. by apply H. Qed.

Lemma triple_ret P (a : A) (Q : A -> dec_stream -> Prop) :
  (forall s, P s -> Q a s) -> stream_triple P (se_ret a) Q.
Proof. intros H s p s' r res HP [= <- <- <-]. auto. Qed.

Lemma triple_err P (e : Error) (Q : A -> dec_stream -> Prop) :
  (forall s, P s -> stream_wf s) -> reason e <> accumulated_exceeds ->
  stream_triple P (se_err e) Q.
Proof. intros H He s p s' r res HP [= <- <- <-]. auto. Qed.

(** A read followed by [k]: the value is in range, the stream is as it was. *)
Lemma triple_bind_read {C} P (m : reader C) (k : C -> stream_op A) (Q : C -> Prop) R :
  (forall p r res, m p = (r, res) ->
     match res with Ok v => Q v | Err e => e = insufficient_buffer end) ->
  (forall s, P s -> stream_wf s) ->
  (forall v, Q v -> stream_triple P (k v) R) ->
  stream_triple P (se_bind (ds_read m) k) R.
Proof.
  intros Hm HP Hk s p s' r res H. unfold se_bind, ds_read, se_snd.
  destruct (m p) as [r1 o] eqn:E. pose proof (Hm _ _ _ E). destruct o as [v|e].
  - by apply Hk.
  - intros [= <- <- <-]. subst. split; [auto|discriminate].
Qed.
End triples.

Lemma triple_from_type_id (P : dec_stream -> Prop) n :
  (forall s, P s -> stream_wf s) ->
  stream_triple P (se_of (from_type_id n)) (fun _ s => P s).
Proof.
  intros H s p s' r res HP [= <- <- E]. destruct res; [done|].
  split; [auto|]. by eapply from_type_id_reason.
Qed.

(** A stream that is well-formed and holds no partial payload. *)
Definition stream_empty_wf (s : dec_stream) : Prop := stream_wf s /\ ds_acc_payload s = [].

Lemma u24_u32 v : in_u 24 v -> in_u 32 v.
Proof. unfold in_u. change (2 ^ 24) with 16777216. change (2 ^ 32) with 4294967296. lia. Qed.

Lemma triple_timestamp_field (P : dec_stream -> Prop) t :
  (forall s, P s -> stream_wf s) ->
  (forall s b, P s -> P (ds_set_ext b s)) -> (forall s v, in_u 32 v -> P s -> P (ds_set_delta v s)) ->
  in_u 24 t -> stream_triple P (read_timestamp_field t) (fun _ s => P s).
Proof.
  intros Hwf Hext Hdelta Ht. unfold read_timestamp_field.
  apply (triple_bind _ _ _ (fun _ s => P s)); [by apply triple_upd; auto|intros _].
  destruct (t =? _).
  - apply (triple_bind_read _ _ _ _ _ read_u32_inv); [done|]. intros v Hv.
    apply triple_upd. auto.
  - apply triple_upd. intros s HP. apply Hdelta; [by apply u24_u32|done].
Qed.

Lemma stream_wf_set_delta v s : in_u 32 v -> stream_wf s -> stream_wf (ds_set_delta v s).
Proof. intros ? []. by split. Qed.

Lemma stream_wf_set_ext b s : stream_wf s -> stream_wf (ds_set_ext b s).
Proof. intros []. by split. Qed.

Lemma max_size_check n : in_u 24 n -> (MAX_MESSAGE_SIZE <? n) = false -> 0 <= n <= MAX_MESSAGE_SIZE.
Proof. unfold in_u. intros ? ?%Z.ltb_ge. lia. Qed.

#[local] Hint Resolve stream_wf_set_delta stream_wf_set_ext : core.

Lemma header_F0_triple :
  stream_triple stream_wf (decode_message_header F0) (fun _ s => stream_wf s).
Proof.
  assert (Hempty : forall s, stream_empty_wf s -> stream_wf s) by (by intros s []).
  cbn [decode_message_header]. apply (triple_bind _ _ _ (fun _ => stream_empty_wf)).
  { apply triple_upd. intros s [S1 S2 S3 S4 S5]. split; [|done]. split; cbn; auto; lia. }
  intros _. apply (triple_bind_read _ _ _ _ _ read_u24_inv); [done|]. intros ts Hts.
  apply (triple_bind_read _ _ _ _ _ read_u24_inv); [done|]. intros sz Hsz.
  destruct (MAX_MESSAGE_SIZE <? sz) eqn:Em; [by apply triple_err|].
  assert (0 <= sz <= MAX_MESSAGE_SIZE) by by apply max_size_check.
  apply (triple_bind_read _ _ _ _ _ read_u8_inv); [done|]. intros ty Hty.
  apply (triple_bind_read _ _ _ _ _ read_u32_inv); [done|]. intros id Hmsid. cbn zeta.
  apply (triple_bind _ _ _ (fun _ => stream_empty_wf)).
  { apply triple_timestamp_field; unfold stream_empty_wf; intuition auto. }
  intros _. apply (triple_bind _ _ _ (fun _ => stream_empty_wf)).
  { apply triple_upd. intros s [[S1 S2 S3 S4 S5] ?]. split; [|done]. by split. }
  intros _. apply (triple_bind _ _ _ (fun _ => stream_empty_wf)).
  { apply triple_upd. intros s [[S1 S2 S3 S4 S5] Ha]. split; [|done].
    split; cbn; auto. rewrite Ha. cbn. lia. }
  intros _. apply (triple_bind _ _ _ (fun _ => stream_empty_wf)); [by apply triple_from_type_id|].
  intros t. apply (triple_bind _ _ _ (fun _ => stream_empty_wf)).
  { apply triple_upd. intros s [[S1 S2 S3 S4 S5] ?]. split; [|done]. by split. }
  intros _. apply triple_upd. intros s [[S1 S2 S3 S4 S5] ?]. split; auto.
  apply (swap_bytes_range 4).
Qed.

Lemma header_F1_triple :
  stream_triple stream_wf (decode_message_header F1) (fun _ s => stream_wf s).
Proof.
  cbn [decode_message_header].
  apply (triple_bind_read _ _ _ _ _ read_u24_inv); [done|]. intros ts Hts.
  apply (triple_bind_read _ _ _ _ _ read_u24_inv); [done|]. intros sz Hsz.
  destruct (MAX_MESSAGE_SIZE <? sz) eqn:Em; [by apply triple_err|].
  assert (0 <= sz <= MAX_MESSAGE_SIZE) by by apply max_size_check.
  apply (triple_bind_read _ _ _ _ _ read_u8_inv); [done|]. intros ty Hty.
  apply (triple_bind _ _ _ (fun _ => stream_wf)); [by apply triple_timestamp_field; auto|].
  intros _. apply (triple_bind _ _ _ (fun _ s => stream_wf (ds_set_acc [] s))).
  { apply triple_upd. intros s [S1 S2 S3 S4 S5]. split; cbn; auto; lia. }
  intros _. apply (triple_bind _ _ _ (fun _ => stream_wf)); [by apply triple_upd|].
  intros _. apply (triple_bind _ _ _ (fun _ => stream_wf)); [by apply triple_from_type_id|].
  intros t. apply triple_upd. intros s [S1 S2 S3 S4 S5]. by split.
Qed.

Lemma header_triple f :
  stream_triple stream_wf (decode_message_header f) (fun _ s => stream_wf s).
Proof.
  destruct f; [apply header_F0_triple|apply header_F1_triple| |]; cbn [decode_message_header].
  - apply (triple_bind_read _ _ _ _ _ read_u24_inv); [done|]. intros ts Hts.
    apply triple_timestamp_field; auto.
  - apply triple_get. intros s0 Hs0. destruct (ds_enable_f3_extended_timestamp s0).
    + apply (triple_bind_read _ _ _ _ _ read_u32_inv); [by intros s <-|]. intros v Hv.
      apply triple_upd. intros s <-. auto.
    + apply triple_ret. by intros s <-.
Qed.

Lemma payload_triple cs :
  0 <= cs ->
  stream_triple stream_wf (decode_message_payload cs) (fun o s => stream_wf s /\
    forall p, o = Some p -> Z.of_nat (length p) = ds_message_size s).
Proof.
  intros Hcs. unfold decode_message_payload. apply triple_get. intros s0 Hs0.
  unfold checked_sub_u. destruct (Z.ltb_spec (ds_message_size s0)
    (Z.of_nat (length (ds_acc_payload s0)))) as [L|L].
  { destruct Hs0 as [S1 S2 S3 S4 S5]. lia. }
  apply (triple_bind_read _ _ _ _ _ (read_bytes_inv _)); [by intros s <-|]. intros b Hb.
  apply (triple_bind _ _ _ (fun _ => stream_wf)).
  { apply triple_upd. intros s <-. destruct Hs0 as [S1 S2 S3 S4 S5]. split; cbn; auto.
    rewrite length_app, Hb. lia. }
  intros _. apply triple_get. intros s1 Hs1.
  destruct (Z.eqb_spec (Z.of_nat (length (ds_acc_payload s1))) (ds_message_size s1)) as [E1|E1].
  - apply (triple_bind _ _ _ (fun _ s => stream_wf s /\ ds_message_size s = ds_message_size s1)).
    { apply triple_upd. intros s <-. destruct Hs1 as [S1 S2 S3 S4 S5].
      split; [|done]. split; cbn; auto with rust. }
    intros _.
    apply (triple_bind _ _ _ (fun _ s => stream_wf s /\ ds_message_size s = ds_message_size s1)).
    { apply triple_upd. intros s [[S1 S2 S3 S4 S5] ?]. split; [|done]. split; cbn; auto; lia. }
    intros _. apply triple_ret. intros s [Hs Hsz]. split; [done|]. intros p [= <-]. congruence.
  - apply triple_ret. by intros s <-.
Qed.

Lemma decode_chunk_triple cs f :
  0 <= cs ->
  stream_triple stream_wf (decode_chunk cs f) (fun o s => stream_wf s /\
    forall p, o = Some p -> Z.of_nat (length p) = ds_message_size s).
Proof.
  intros Hcs. apply (triple_bind _ _ _ (fun _ => stream_wf)); [apply header_triple|].
  intros _. by apply payload_triple.
Qed.

Lemma stream_new_wf : stream_wf dec_stream_new.
Proof. by split. Qed.

Lemma basic_header_inv p r f id :
  decode_chunk_basic_header p = (r, Ok (f, id)) -> csid_wf id.
Proof.
  unfold decode_chunk_basic_header, se_bind, se_ret, se_err. intros H.
  repeat case_match; simplify_eq;
    by match goal with E : RtmpChunkStreamId_new _ = Some _ |- _ =>
         apply RtmpChunkStreamId_new_some in E as [-> ?] end.
Qed.

Lemma basic_header_reason p r e :
  decode_chunk_basic_header p = (r, Err e) -> reason e <> accumulated_exceeds.
Proof.
  unfold decode_chunk_basic_header, se_bind, se_ret, se_err. intros H.
  repeat case_match; simplify_eq; try discriminate;
  repeat match goal with
  | E : read_u8 _ = (_, Err _) |- _ => apply read_u8_inv in E
  | E : read_u16 _ = (_, Err _) |- _ => apply read_fixed_inv in E as [E _]
  end; subst; discriminate.
Qed.

(** ** Claims *)

(** [C10] Whatever bytes arrive, one call of [decode] keeps the decoder well-formed,
    on success and on every error: valid chunk stream ids, at most
    [MAX_MESSAGE_SIZE] bytes per message, no partial payload longer than its
    message. What it returns is a well-formed message within the limit, it
    consumes at least one byte and no more than there are, and its internal check
    "accumulated payload exceeds message size" never fires. *)
Theorem decode_preserves_wf d buf d' res :
  decoder_wf d -> decode d buf = (d', res) ->
  decoder_wf d' /\ dec_chunk_size d' = dec_chunk_size d /\
  match res with
  | Ok (n, o) => (0 < n <= length buf)%nat /\ forall c, o = Some c -> chunk_fits c
  | Err e => reason e <> accumulated_exceeds
  end.
Proof.
  intros [Hsz Hst] H. pose proof H as H0. unfold decode in H.
  destruct (decode_chunk_basic_header buf) as [buf1 [[f id]|e]] eqn:Eh.
  2: { simplify_eq. split; [done|]. split; [done|]. by eapply basic_header_reason. }
  apply basic_header_inv in Eh as Hid.
  destruct (match dec_chunk_streams d !! id with Some s => Some s | None => _ end)
    as [s|] eqn:Es; [|simplify_eq; split; [done|split; [done|discriminate]]].
  assert (Hs : stream_wf s).
  { destruct (dec_chunk_streams d !! id) as [s0|] eqn:El; [|case_decide; simplify_eq; apply stream_new_wf].
    simplify_eq. by apply (Hst _ _ El). }
  destruct (decode_chunk (dec_chunk_size d) f (s, buf1)) as [[s' buf2] r] eqn:Ec.
  assert (0 <= dec_chunk_size d) by (unfold chunk_size_wf, CHUNK_SIZE_MIN in Hsz; lia).
  pose proof (decode_chunk_triple _ f H1 _ _ _ _ _ Hs Ec) as T.
  assert (Hs' : stream_wf s') by (destruct r; apply T).
  assert (Hwf : decoder_wf (mk_decoder (dec_chunk_size d) (<[id := s']> (dec_chunk_streams d)))).
  { split; [done|]. by apply map_Forall_insert_2. }
  destruct r as [o|e]; simplify_eq; [|by split; [done|split; [done|apply T]]].
  split; [done|]. split; [done|]. apply (decode_ok_app _ _ _ []) in H0 as [_ Hn].
  split; [done|]. intros c Hc. destruct o as [p|]; simplify_eq/=.
  destruct T as [[S1 S2 S3 S4 S5] Hp]. split; [by split|cbn]. rewrite (Hp p); [lia|done].
Qed.

Lemma decode_preserves_wf_witness :
  decoder_wf (fst (decode decoder_default [x03; x00; x00; x00; x00; x00; x02; x14; x00; x00; x00; x00; x05])).
Proof.
  refine (proj1 (decode_preserves_wf decoder_default
    [x03; x00; x00; x00; x00; x00; x02; x14; x00; x00; x00; x00; x05] _ _ _ (surjective_pairing _))).
  split; [vm_compute; split; discriminate|apply map_Forall_empty].
Defined.
