(* ===== verification/Amf.v ===== *)
(** * What the AMF decoders share

    The pieces of [crates/protocols/rtmp/core/src/bytes.rs] that only AMF uses
    ([read_utf8]), Rust's UTF-8 check and its casts between [i64] and [f64], and
    the combinators of [amf0.rs] and [amf3.rs]: a decoder whose state holds the
    slice it reads from. Three relations on such decoders carry the proofs:
    [Shrinks] (a success takes bytes), [agree] (fuel beyond the bytes left does not
    matter) and [parses] (the decoder reads a value back from its encoding). *)
From Stdlib Require Import Strings.Byte.
From S2P Require Import Prelude RtmpBytes.

(** ** UTF-8 ([String::from_utf8]) *)

Definition byte_in (lo hi : Z) (b : byte) : bool := (lo <=? byte_val b) && (byte_val b <=? hi).
Definition continuation : byte -> bool := byte_in 0x80 0xBF.

(** The range of the second byte after a lead of three or four bytes: no overlong
    form, no surrogate, nothing above U+10FFFF. *)
Definition second_byte (lead b : byte) : bool :=
  let v := byte_val lead in
  byte_in (if v =? 0xE0 then 0xA0 else if v =? 0xF0 then 0x90 else 0x80)
          (if v =? 0xED then 0x9F else if v =? 0xF4 then 0x8F else 0xBF) b.

Fixpoint utf8_valid (bs : list byte) : bool :=
  match bs with
  | [] => true
  | b0 :: t0 =>
      if byte_val b0 <? 0x80 then utf8_valid t0
      else match t0 with
           | [] => false
           | b1 :: t1 =>
               if byte_in 0xC2 0xDF b0 then continuation b1 && utf8_valid t1
               else match t1 with
                    | [] => false
                    | b2 :: t2 =>
                        if byte_in 0xE0 0xEF b0
                        then second_byte b0 b1 && continuation b2 && utf8_valid t2
                        else match t2 with
                             | [] => false
                             | b3 :: t3 =>
                                 byte_in 0xF0 0xF4 b0 && second_byte b0 b1 && continuation b2 &&
                                 continuation b3 && utf8_valid t3
                             end
                    end
           end
  end.

(** [read_bytes] with a [usize] from the wire. *)
Definition read_vec (len : Z) : reader (list byte) := fun buf =>
  if Z.of_nat (length buf) <? len then (buf, Err insufficient_buffer)
  else read_bytes (Z.to_nat len) buf.

(** The position that the standard library adds to the reason is left out. *)
Definition read_utf8 (len : Z) : reader (list byte) :=
  buf <- read_vec len ;;
  if utf8_valid buf then se_ret buf else se_err (invalid_data "invalid UTF-8 bytes").

(** ** [f64], as its bit pattern *)

Definition f64_exponent (bits : Z) : Z := (bits / 2 ^ 52) mod 2 ^ 11.
Definition f64_fraction (bits : Z) : Z := bits mod 2 ^ 52.
Definition f64_negative (bits : Z) : bool := 2 ^ 63 <=? bits.
Definition is_finite (bits : Z) : bool := negb (f64_exponent bits =? 2047).
(** [x == 0.0]: both zeros. *)
Definition f64_is_zero (bits : Z) : bool := bits mod 2 ^ 63 =? 0.

(** [x as i64]: truncates, saturates, and [NaN] is 0. *)
Definition f64_to_i64 (bits : Z) : Z :=
  let e := f64_exponent bits in
  let m := 2 ^ 52 + f64_fraction bits in
  let sign z := sat_i 64 (if f64_negative bits then - z else z) in
  if e =? 2047 then if f64_fraction bits =? 0 then sign (2 ^ 64) else 0
  else if e =? 0 then 0
  else if 1075 <=? e then sign (m * 2 ^ (e - 1075))
  else sign (m / 2 ^ (1075 - e)).

(** [n as f64]: to nearest, ties to even. A mantissa that rounds up to [2^53] carries
    into the exponent. *)
Definition i64_to_f64 (n : Z) : Z :=
  if n =? 0 then 0
  else
    let m := Z.abs n in
    let l := Z.log2 m in
    let mantissa :=
      if l <=? 52 then m * 2 ^ (52 - l)
      else
        let s := l - 52 in
        let q := m / 2 ^ s in
        let r := m mod 2 ^ s in
        let half := 2 ^ (s - 1) in
        if (half <? r) || ((r =? half) && Z.odd q) then q + 1 else q in
    (if n <? 0 then 2 ^ 63 else 0) + (l + 1022) * 2 ^ 52 + mantissa.

(** Milliseconds of a date, as both decoders read them. *)
Definition millis_of (bits : Z) : Z := if f64_is_zero bits then 0 else f64_to_i64 bits.

Example f64_one : i64_to_f64 1 = 0x3FF0000000000000.
Proof. reflexivity. Qed.

Example f64_rounds : f64_to_i64 (i64_to_f64 (2 ^ 53 + 1)) = 2 ^ 53.
Proof. reflexivity. Qed.

Example f64_max : f64_to_i64 (i64_to_f64 (2 ^ 63 - 1)) = 2 ^ 63 - 1.
Proof. reflexivity. Qed.

Lemma i64_to_f64_parts n :
  n <> 0 -> Z.abs n < 2 ^ 53 ->
  let l := Z.log2 (Z.abs n) in
  let bits := i64_to_f64 n in
  0 <= l <= 52 /\ in_u 64 bits /\ f64_negative bits = (n <? 0) /\
  f64_exponent bits = l + 1023 /\ 2 ^ 52 + f64_fraction bits = Z.abs n * 2 ^ (52 - l).
Proof.
  intros Hn Hb l bits. set (m := Z.abs n) in *. assert (Hm : 0 < m) by lia.
  pose proof (Z.log2_spec m Hm) as [L1 L2]. fold l in L1, L2. pose proof (Z.log2_nonneg m) as L0. fold l in L0.
  assert (Hl : l <= 52) by (pose proof (Z.log2_lt_pow2 m 53 Hm) as [G _]; specialize (G Hb); fold l in G; lia).
  set (k := m * 2 ^ (52 - l)).
  assert (Hk : 2 ^ 52 <= k < 2 ^ 53).
  { unfold k. replace (2 ^ 52) with (2 ^ l * 2 ^ (52 - l)) by (rewrite <- Z.pow_add_r by lia; f_equal; lia).
    replace (2 ^ 53) with (2 ^ (Z.succ l) * 2 ^ (52 - l)) by (rewrite <- Z.pow_add_r by lia; f_equal; lia).
    pose proof (Z.pow_pos_nonneg 2 (52 - l)). nia. }
  assert (E : bits = (if n <? 0 then 2 ^ 63 else 0) + (l + 1023) * 2 ^ 52 + (k - 2 ^ 52)).
  { unfold bits, i64_to_f64. rewrite (proj2 (Z.eqb_neq n 0)) by done. fold m l.
    rewrite (proj2 (Z.leb_le l 52)) by done. fold k. lia. }
  change (2 ^ 63) with (2048 * 2 ^ 52) in E. change (2 ^ 53) with (2 * 2 ^ 52) in Hk.
  assert (D : bits / 2 ^ 52 = (if n <? 0 then 2048 else 0) + l + 1023).
  { symmetry. apply (Z.div_unique bits (2 ^ 52) _ (k - 2 ^ 52)); [|destruct (n <? 0)]; lia. }
  assert (M : bits mod 2 ^ 52 = k - 2 ^ 52).
  { rewrite Z.mod_eq, D by lia. destruct (n <? 0); lia. }
  split; [done|]. unfold f64_negative, f64_exponent, f64_fraction, in_u. rewrite D, M.
  change (2 ^ 63) with (2048 * 2 ^ 52). change (2 ^ 64) with (4096 * 2 ^ 52).
  change (2 ^ 11) with 2048. split_and!; [destruct (n <? 0); lia..| | |lia].
  - destruct (n <? 0), (Z.leb_spec (2048 * 2 ^ 52) bits); done || lia.
  - destruct (n <? 0); [|by rewrite Z.mod_small by lia].
    rewrite <- (Z.mod_add _ (-1)) by lia. rewrite Z.mod_small; lia.
Qed.

(** A date survives the wire when its milliseconds fit a mantissa. *)
Lemma millis_roundtrip n :
  Z.abs n < 2 ^ 53 -> in_u 64 (i64_to_f64 n) /\ is_finite (i64_to_f64 n) = true /\
  millis_of (i64_to_f64 n) = n.
Proof.
  intros Hb. destruct (Z.eq_dec n 0) as [->|Hn]; [done|].
  destruct (i64_to_f64_parts n Hn Hb) as (Hl & Hr & Hs & He & Hf).
  set (l := Z.log2 (Z.abs n)) in *. set (bits := i64_to_f64 n) in *. split; [done|].
  assert (He' : is_finite bits = true) by (unfold is_finite; rewrite He; zcases; done || lia).
  split; [done|].
  assert (Hn' : sat_i 64 (if n <? 0 then - Z.abs n else Z.abs n) = n).
  { change (2 ^ 53) with 9007199254740992 in Hb. rewrite sat_i_small; unfold in_i; destruct (Z.ltb_spec n 0); lia. }
  assert (Hz : f64_to_i64 bits = n).
  { unfold f64_to_i64. rewrite He, Hf, Hs. rewrite !(proj2 (Z.eqb_neq _ _)) by lia.
    destruct (Z.leb_spec 1075 (l + 1023)).
    - replace l with 52 by lia. change (2 ^ (52 - 52)) with 1. change (2 ^ (52 + 1023 - 1075)) with 1.
      by rewrite !Z.mul_1_r.
    - replace (1075 - (l + 1023)) with (52 - l) by lia.
      by rewrite Z.div_mul by (apply Z.pow_nonzero; lia). }
  unfold millis_of. rewrite Hz. destruct (f64_is_zero bits) eqn:Ez; [exfalso|done].
  unfold f64_is_zero in Ez. apply Z.eqb_eq in Ez.
  apply Z.mod_divide in Ez as [q Hq]; [|lia]. unfold f64_exponent in He. rewrite Hq in He.
  change (2 ^ 63) with (2 ^ 11 * 2 ^ 52) in He. rewrite Z.mul_assoc, Z.div_mul, Z.mod_mul in He by lia. lia.
Qed.

(** ** Decoders over a slice *)

(** A decoder struct with a field [buf: &[u8]]. *)
Class HasBuf (S : Type) := {
  get_buf : S -> list byte;
  set_buf : list byte -> S -> S;
  get_set_buf : forall b s, get_buf (set_buf b s) = b
}.
#[export] Hint Rewrite @get_set_buf : rust.

(** Not an error of the code: no result depends on it ([agree] below). *)
Definition out_of_fuel : Error := error_new InvalidState.

Section decoders.
Context {S : Type} `{!HasBuf S}.

(** A call of a reader on [self.buf]. *)
Definition on_buf {A} (m : reader A) : SE S Error A := fun s =>
  let '(b, r) := m (get_buf s) in (set_buf b s, r).

(** [(0..count).map(|_| m).collect::<Result<Vec<_>, _>>()]. *)
Fixpoint collect {A} (fuel : nat) (count : Z) (m : SE S Error A) : SE S Error (list A) :=
  if count <=? 0 then se_ret []
  else match fuel with
       | O => se_err out_of_fuel
       | Datatypes.S fuel => x <- m ;; xs <- collect fuel (count - 1) m ;; se_ret (x :: xs)
       end.

(** [iter().map(f).collect::<Result<Vec<_>, _>>()] of a slice. *)
Fixpoint traverse {A B} (f : A -> SE S Error B) (l : list A) : SE S Error (list B) :=
  match l with
  | [] => se_ret []
  | x :: l => y <- f x ;; ys <- traverse f l ;; se_ret (y :: ys)
  end.

Definition remaining (s : S) : nat := length (get_buf s).

(** ** Successes take bytes *)

Class Shrinks {A} (k : nat) (m : SE S Error A) : Prop :=
  shrinks : forall s s' a, m s = (s', Ok a) -> (remaining s' + k <= remaining s)%nat.

Lemma shrinks_weaken {A} k k' (m : SE S Error A) : Shrinks k m -> (k' <= k)%nat -> Shrinks k' m.
Proof using Type. intros H Hk s s' a E. specialize (H s s' a E). lia. Qed.

#[global] Instance shrinks_0 {A} (m : SE S Error A) : Shrinks 1 m -> Shrinks 0 m | 100.
Proof using Type. intros H. eapply shrinks_weaken; [exact H|lia]. Qed.

#[global] Instance shrinks_ret {A} (a : A) : Shrinks 0 (se_ret a).
Proof using Type. intros s s' b [= -> _]. lia. Qed.

#[global] Instance shrinks_err {A} k (e : Error) : Shrinks (A:=A) k (se_err e).
Proof using Type. by intros s s' b [=]. Qed.

#[global] Instance shrinks_bind_1 {A B} (m : SE S Error A) (f : A -> SE S Error B) :
  Shrinks 1 m -> (forall a, Shrinks 0 (f a)) -> Shrinks 1 (se_bind m f).
Proof using Type.
  intros Hm Hf s s' b. unfold se_bind. destruct (m s) as [s1 [a|e]] eqn:E; [|done].
  intros E'. specialize (Hm _ _ _ E). specialize (Hf _ _ _ _ E'). lia.
Qed.

#[global] Instance shrinks_bind_0 {A B} (m : SE S Error A) (f : A -> SE S Error B) :
  Shrinks 0 m -> (forall a, Shrinks 0 (f a)) -> Shrinks 0 (se_bind m f).
Proof using Type.
  intros Hm Hf s s' b. unfold se_bind. destruct (m s) as [s1 [a|e]] eqn:E; [|done].
  intros E'. specialize (Hm _ _ _ E). specialize (Hf _ _ _ _ E'). lia.
Qed.

#[global] Instance shrinks_if {A} k (b : bool) (m1 m2 : SE S Error A) :
  Shrinks k m1 -> Shrinks k m2 -> Shrinks k (if b then m1 else m2).
Proof using Type. by destruct b. Qed.

Lemma shrinks_on_buf {A} k (m : reader A) :
  (forall p r a, m p = (r, Ok a) -> (length r + k <= length p)%nat) -> Shrinks k (on_buf m).
Proof using Type.
  intros H s s' a. unfold on_buf, remaining. destruct (m (get_buf s)) as [b r] eqn:E.
  intros [= <- ->]. rewrite get_set_buf. by apply (H _ _ a).
Qed.

#[global] Instance shrinks_read_fixed {A} n (f : list byte -> A) : Shrinks 1 (on_buf (read_fixed (Datatypes.S n) f)).
Proof using Type.
  apply shrinks_on_buf. intros p r a (bs & Hl & _ & ->)%read_fixed_inv. rewrite length_app. lia.
Qed.

#[global] Instance shrinks_read_vec n : Shrinks 0 (on_buf (read_vec n)).
Proof using Type.
  apply shrinks_on_buf. intros p r a. unfold read_vec. destruct (_ <? _); [done|].
  intros (bs & Hl & _ & ->)%read_fixed_inv. rewrite length_app. lia.
Qed.

#[global] Instance shrinks_read_utf8 n : Shrinks 0 (on_buf (read_utf8 n)).
Proof using Type.
  apply shrinks_on_buf. intros p r a. unfold read_utf8, read_vec, se_bind. destruct (_ <? _); [done|].
  destruct (read_bytes _ p) as [r' [b|e]] eqn:E; [|done]. destruct (utf8_valid b); [|done].
  intros [= -> ->]. apply read_fixed_inv in E as (bs & Hl & _ & ->). rewrite length_app. lia.
Qed.

#[global] Instance shrinks_collect {A} (m : SE S Error A) n c : Shrinks 0 m -> Shrinks 0 (collect n c m).
Proof using Type.
  intros Hm. revert c. induction n as [|n IH]; intros c; cbn; destruct (c <=? 0); apply _.
Qed.

#[global] Instance shrinks_traverse {A B} (f : A -> SE S Error B) l :
  (forall x, Shrinks 0 (f x)) -> Shrinks 0 (traverse f l).
Proof using Type. intros Hf. induction l; cbn; apply _. Qed.

#[global] Instance shrinks_get : Shrinks 0 (se_get (S:=S) (E:=Error)).
Proof using Type. intros s s' a [= -> _]. lia. Qed.

#[global] Instance shrinks_of {A} (r : result Error A) : Shrinks 0 (se_of r).
Proof using Type. intros s s' a [= -> _]. lia. Qed.

(** An update of the tables. *)
Lemma shrinks_upd (f : S -> S) : (forall s, get_buf (f s) = get_buf s) -> Shrinks 0 (se_upd (E:=Error) f).
Proof using Type. intros Hf s s' a [= <- _]. unfold remaining. rewrite Hf. lia. Qed.

(** ** Errors are about the input *)

Class Sane {A} (m : SE S Error A) : Prop :=
  sane : forall s s' e, m s = (s', Err e) -> kind e <> InvalidState.

#[global] Instance sane_ret {A} (a : A) : Sane (se_ret a).
Proof using Type. by intros s s' e [=]. Qed.

Lemma sane_err {A} (e : Error) : kind e <> InvalidState -> Sane (A:=A) (se_err e).
Proof using Type. by intros He s s' e' [= _ <-]. Qed.

#[global] Instance sane_get : Sane (se_get (S:=S) (E:=Error)).
Proof using Type. by intros s s' e [=]. Qed.

#[global] Instance sane_upd (f : S -> S) : Sane (se_upd (E:=Error) f).
Proof using Type. by intros s s' e [=]. Qed.

Lemma sane_of {A} (o : option A) (e : Error) : kind e <> InvalidState -> Sane (se_of (S:=S) (ok_or o e)).
Proof using Type. intros He s s' e'. destruct o; by intros [= _ <-]. Qed.

#[global] Instance sane_bind {A B} (m : SE S Error A) (f : A -> SE S Error B) :
  Sane m -> (forall a, Sane (f a)) -> Sane (se_bind m f).
Proof using Type.
  intros Hm Hf s s' e. unfold se_bind. destruct (m s) as [s1 [a|e1]] eqn:E; [apply Hf|].
  intros [= _ <-]. by eapply Hm.
Qed.

#[global] Instance sane_if {A} (b : bool) (m1 m2 : SE S Error A) :
  Sane m1 -> Sane m2 -> Sane (if b then m1 else m2).
Proof using Type. by destruct b. Qed.

Lemma sane_on_buf {A} (m : reader A) :
  (forall p r e, m p = (r, Err e) -> kind e <> InvalidState) -> Sane (on_buf m).
Proof using Type.
  intros H s s' e. unfold on_buf. destruct (m (get_buf s)) as [b r] eqn:E. intros [= <- ->]. by eapply H.
Qed.

Lemma read_fixed_error {A} n (f : list byte -> A) p r e :
  read_fixed n f p = (r, Err e) -> kind e <> InvalidState.
Proof using Type. by intros [-> _]%read_fixed_inv. Qed.

Lemma read_vec_error n p r e : read_vec n p = (r, Err e) -> kind e <> InvalidState.
Proof using Type. unfold read_vec. destruct (_ <? _); [by intros [= _ <-]|apply read_fixed_error]. Qed.

#[global] Instance sane_read_fixed {A} n (f : list byte -> A) : Sane (on_buf (read_fixed n f)).
Proof using Type. apply sane_on_buf, read_fixed_error. Qed.

#[global] Instance sane_read_vec n : Sane (on_buf (read_vec n)).
Proof using Type. apply sane_on_buf, read_vec_error. Qed.

#[global] Instance sane_read_utf8 n : Sane (on_buf (read_utf8 n)).
Proof using Type.
  apply sane_on_buf. intros p r e. unfold read_utf8, se_bind.
  destruct (read_vec n p) as [r' [b|e']] eqn:E; [destruct (utf8_valid b); by intros [= _ <-]|].
  intros [= _ <-]. by eapply read_vec_error.
Qed.

(** ** Fuel *)

(** On fewer than [n] bytes the two decoders cannot be told apart, and neither runs
    out of fuel. *)
Definition agree {A} (n : nat) (m m' : SE S Error A) : Prop :=
  forall s, (remaining s < n)%nat ->
  m s = m' s /\ forall s' e, m s = (s', Err e) -> kind e <> InvalidState.

Lemma agree_refl {A} n (m : SE S Error A) `{!Sane m} : agree n m m.
Proof using Type. intros s _. split; [done|]. by eapply sane. Qed.

Lemma agree_weaken {A} n n' (m m' : SE S Error A) : agree n m m' -> (n' <= n)%nat -> agree n' m m'.
Proof using Type. intros H Hn s Hs. apply H. lia. Qed.

Lemma agree_0 {A} (m m' : SE S Error A) : agree 0 m m'.
Proof using Type. intros s Hs. lia. Qed.

Lemma agree_bind_take {A B} n (m m' : SE S Error A) (f f' : A -> SE S Error B) :
  agree (Datatypes.S n) m m' -> Shrinks 1 m -> (forall a, agree n (f a) (f' a)) ->
  agree (Datatypes.S n) (se_bind m f) (se_bind m' f').
Proof using Type.
  intros Hm Sm Hf s Hs. unfold se_bind. destruct (Hm s Hs) as [<- Hs'].
  destruct (m s) as [s' [a|e]] eqn:E; [|split; [done|intros ?? [= _ <-]; by eapply Hs']].
  specialize (Sm _ _ _ E). apply Hf. lia.
Qed.

Lemma agree_bind {A B} n (m m' : SE S Error A) (f f' : A -> SE S Error B) :
  agree n m m' -> Shrinks 0 m -> (forall a, agree n (f a) (f' a)) ->
  agree n (se_bind m f) (se_bind m' f').
Proof using Type.
  intros Hm Sm Hf s Hs. unfold se_bind. destruct (Hm s Hs) as [<- Hs'].
  destruct (m s) as [s' [a|e]] eqn:E; [|split; [done|intros ?? [= _ <-]; by eapply Hs']].
  specialize (Sm _ _ _ E). apply Hf. lia.
Qed.

(** The continuation is the same, so it may take back bytes. *)
Lemma agree_bind_keep {A B} n (m m' : SE S Error A) (f : A -> SE S Error B) :
  agree n m m' -> (forall a, Sane (f a)) -> agree n (se_bind m f) (se_bind m' f).
Proof using Type.
  intros Hm Hf s Hs. unfold se_bind. destruct (Hm s Hs) as [<- Hs'].
  destruct (m s) as [s' [a|e]] eqn:E; [|split; [done|intros ?? [= _ <-]; by eapply Hs']].
  split; [done|]. intros s1 e. apply Hf.
Qed.

Lemma agree_if {A} n (b : bool) (m1 m2 m1' m2' : SE S Error A) :
  agree n m1 m1' -> agree n m2 m2' -> agree n (if b then m1 else m2) (if b then m1' else m2').
Proof using Type. by destruct b. Qed.

Lemma agree_collect {A} (m m' : SE S Error A) c : forall n k k',
  agree n m m' -> Shrinks 1 m -> (n <= k)%nat -> (n <= k')%nat ->
  agree n (collect k c m) (collect k' c m').
Proof using Type.
  intros n k. revert n c. induction k as [|k IH]; intros [|n] c k' Hm Sm H1 H2; try (apply agree_0 || lia).
  destruct k' as [|k']; [lia|]. cbn [collect].
  apply agree_if; [apply agree_refl, _|]. apply agree_bind_take; [done|done|]. intros a.
  apply agree_bind; [|apply _|intros; apply agree_refl, _].
  apply IH; [|done|lia|lia]. eapply agree_weaken; [exact Hm|lia].
Qed.

Lemma agree_traverse {A B} n (f f' : A -> SE S Error B) l :
  (forall x, agree n (f x) (f' x)) -> (forall x, Shrinks 0 (f x)) ->
  agree n (traverse f l) (traverse f' l).
Proof using Type.
  intros Hf Sf. induction l as [|x l IH]; cbn; [apply agree_refl, _|].
  apply agree_bind; [apply Hf|apply Sf|]. intros y. apply agree_bind; [exact IH|apply _|].
  intros; apply agree_refl, _.
Qed.

(** ** Reading back *)

(** Whatever follows the bytes and whatever the rest of the state, the decoder takes
    exactly the bytes and returns the value. *)
Definition parses {A} (m : SE S Error A) (bs : list byte) (a : A) : Prop :=
  forall s rest, get_buf s = bs ++ rest -> exists s', m s = (s', Ok a) /\ get_buf s' = rest.

Lemma parses_ret {A} (a : A) : parses (se_ret a) [] a.
Proof using Type. intros s rest H. by exists s. Qed.

Lemma parses_upd (f : S -> S) : (forall s, get_buf (f s) = get_buf s) -> parses (se_upd (E:=Error) f) [] tt.
Proof using Type. intros Hf s rest H. exists (f s). by rewrite Hf, H. Qed.

(** The tables may be looked at, when the result does not depend on them. *)
Lemma parses_get {B} (f : S -> SE S Error B) bs b :
  (forall s, parses (f s) bs b) -> parses (se_bind se_get f) bs b.
Proof using Type. intros Hf s rest H. exact (Hf s s rest H). Qed.

Lemma parses_bind {A B} (m : SE S Error A) (f : A -> SE S Error B) bs bs' a b :
  parses m bs a -> parses (f a) bs' b -> parses (se_bind m f) (bs ++ bs') b.
Proof using Type.
  intros Hm Hf s rest H. rewrite <- app_assoc in H. destruct (Hm _ _ H) as (s1 & E & H1).
  destruct (Hf _ _ H1) as (s2 & E2 & H2). exists s2. by rewrite (se_bind_ok _ _ _ _ _ E).
Qed.

Lemma parses_then {A B} (m : SE S Error A) (f : A -> SE S Error B) bs a b :
  parses m bs a -> parses (f a) [] b -> parses (se_bind m f) bs b.
Proof using Type. intros Hm Hf. rewrite <- (app_nil_r bs). by eapply parses_bind. Qed.

Lemma parses_read {A} (m : reader A) bs a :
  (forall rest, m (bs ++ rest) = (rest, Ok a)) -> parses (on_buf m) bs a.
Proof using Type.
  intros H s rest E. exists (set_buf rest s). unfold on_buf. by rewrite E, H, get_set_buf.
Qed.

Lemma parses_u8 v : in_u 8 v -> parses (on_buf read_u8) [byte_of v] v.
Proof using Type. intros. apply parses_read. intros. by apply read_u8_write. Qed.

Lemma parses_u16 v : in_u 16 v -> parses (on_buf read_u16) (be_bytes 2 v) v.
Proof using Type. intros. apply parses_read. intros. by apply read_u16_write. Qed.

Lemma parses_u32 v : in_u 32 v -> parses (on_buf read_u32) (be_bytes 4 v) v.
Proof using Type. intros. apply parses_read. intros. by apply read_u32_write. Qed.

Lemma parses_i32 v : in_i 32 v -> parses (on_buf read_i32) (be_bytes 4 v) v.
Proof using Type.
  intros H. apply parses_read. intros rest. unfold read_i32.
  rewrite read_fixed_app by apply length_be_bytes. do 2 f_equal. rewrite be_val_bytes.
  unfold wrap_i, wrap_u, in_i in *. change (8 * Z.of_nat 4) with 32.
  rewrite Z.add_mod_idemp_l by lia. change (2 ^ (32 - 1)) with 2147483648 in *. change (2 ^ 32) with 4294967296.
  rewrite Z.mod_small; lia.
Qed.

Lemma parses_f64 v : in_u 64 v -> parses (on_buf read_f64) (be_bytes 8 v) v.
Proof using Type.
  intros. apply parses_read. intros. unfold read_f64. rewrite read_fixed_app by apply length_be_bytes.
  by rewrite be_val_bytes_small.
Qed.

Lemma parses_vec bs : parses (on_buf (read_vec (Z.of_nat (length bs)))) bs bs.
Proof using Type.
  apply parses_read. intros rest. unfold read_vec. rewrite length_app.
  destruct (Z.ltb_spec (Z.of_nat (length bs + length rest)) (Z.of_nat (length bs))); [lia|].
  rewrite Nat2Z.id. apply read_bytes_app.
Qed.

Lemma parses_utf8 bs : utf8_valid bs = true -> parses (on_buf (read_utf8 (Z.of_nat (length bs)))) bs bs.
Proof using Type.
  intros Hv. apply parses_read. intros rest. unfold read_utf8, se_bind, read_vec. rewrite length_app.
  destruct (Z.ltb_spec (Z.of_nat (length bs + length rest)) (Z.of_nat (length bs))); [lia|].
  by rewrite Nat2Z.id, read_bytes_app, Hv.
Qed.

Lemma parses_collect {A} (m : SE S Error A) (enc : A -> list byte) l : forall k,
  (forall x, x ∈ l -> parses m (enc x) x) -> (length l <= k)%nat ->
  parses (collect k (Z.of_nat (length l)) m) (l ≫= enc) l.
Proof using Type.
  induction l as [|x l IH]; intros k Hm Hk; [destruct k; apply parses_ret|].
  destruct k as [|k]; [cbn in Hk; lia|]. cbn [collect length mbind list_bind].
  rewrite (proj2 (Z.leb_gt _ _)) by lia. eapply parses_bind; [apply Hm; left|].
  replace (Z.of_nat (Datatypes.S (length l)) - 1) with (Z.of_nat (length l)) by lia.
  eapply parses_then; [apply IH; [intros y Hy; apply Hm; by right|cbn in Hk; lia]|apply parses_ret].
Qed.

Lemma parses_traverse {A B} (f : A -> SE S Error B) (enc : A -> list byte) (g : A -> B) l :
  (forall x, x ∈ l -> parses (f x) (enc x) (g x)) -> parses (traverse f l) (l ≫= enc) (g <$> l).
Proof using Type.
  induction l as [|x l IH]; intros Hf; [apply parses_ret|]. cbn [traverse mbind list_bind fmap list_fmap].
  eapply parses_bind; [apply Hf; left|].
  eapply parses_then; [apply IH; intros y Hy; apply Hf; by right|apply parses_ret].
Qed.
End decoders.

#[export] Hint Extern 1 (Shrinks 0 (se_upd _)) =>
  apply shrinks_upd; intros []; reflexivity : typeclass_instances.
#[export] Hint Extern 1 (Sane (se_err _)) => apply sane_err; discriminate : typeclass_instances.
#[export] Hint Extern 1 (Sane (se_of (ok_or _ _))) => apply sane_of; discriminate : typeclass_instances.

(** Agreement, one construct at a time. *)
Ltac agree_step :=
  match goal with
  | |- agree _ ?m ?m' => constr_eq m m'; apply agree_refl, _
  | H : agree ?n ?m ?m' |- agree ?n ?m ?m' => exact H
  | |- agree _ (if _ then _ else _) _ => apply agree_if
  | |- agree _ (collect _ _ _) _ => apply agree_collect
  | |- agree _ (traverse _ _) _ => apply agree_traverse; intros
  | |- agree _ (se_bind _ _) _ => apply agree_bind; [|apply _|intros]
  | |- Shrinks _ _ => apply _
  | |- (_ <= _)%nat => lia
  end.

(** ** Writers *)

(** A writer appends to [&mut Vec<u8>]; [None] is a failed [assert!]. *)
Definition writer : Type := list byte -> option (list byte).

(** It appends these bytes, whatever is there. *)
Definition emits (w : writer) (bs : list byte) : Prop := forall buf, w buf = Some (buf ++ bs).

Lemma emits_bind (w1 w2 : writer) bs1 bs2 :
  emits w1 bs1 -> emits w2 bs2 -> emits (fun buf => w1 buf ≫= w2) (bs1 ++ bs2).
Proof. intros H1 H2 buf. rewrite H1. cbn. by rewrite H2, app_assoc. Qed.

(** A total writer first. *)
Lemma emits_after (w : writer) bs1 bs2 (f : list byte -> list byte) :
  (forall buf, f buf = buf ++ bs1) -> emits w bs2 -> emits (fun buf => w (f buf)) (bs1 ++ bs2).
Proof. intros H1 H2 buf. by rewrite H1, H2, app_assoc. Qed.

(** [for entry in entries { f(entry) }]. *)
Definition encode_each {A} (f : A -> writer) : list A -> writer :=
  fix go l buf :=
    match l with
    | [] => Some buf
    | x :: l => buf ← f x buf; go l buf
    end.

Lemma emits_each {A} (f : A -> writer) (enc : A -> list byte) l :
  (forall x, x ∈ l -> emits (f x) (enc x)) -> emits (encode_each f l) (l ≫= enc).
Proof.
  induction l as [|x l IH]; intros Hf buf; cbn [encode_each mbind list_bind]; [by rewrite app_nil_r|].
  rewrite (Hf x) by left. cbn. fold (encode_each f). rewrite IH by (intros y Hy; apply Hf; by right).
  by rewrite app_assoc.
Qed.

Lemma length_be_each n (l : list Z) : length (l ≫= be_bytes n) = (n * length l)%nat.
Proof. induction l as [|x l IH]; cbn; [lia|]. rewrite length_app, length_be_bytes, IH. lia. Qed.

(** ** The interface of a value codec *)

(** What [Amf0Value], [Amf3Value] and [AmfValue] offer to their users: [encode]
    appends one value and fails only on an [assert!], [decode] reads one value from
    the front and says how many bytes it took. *)
Class AmfCodec (V : Type) := {
  amf_encode : V -> writer;
  amf_decode : list byte -> result Error (nat * V);
  (** The values that the format can carry. *)
  amf_encodable : V -> bool;
  amf_encode_decode : forall v, amf_encodable v = true ->
    exists bs, emits (amf_encode v) bs /\ forall rest, amf_decode (bs ++ rest) = Ok (length bs, v);
  amf_decode_takes : forall buf n v, amf_decode buf = Ok (n, v) -> (1 <= n <= length buf)%nat;
  amf_decode_error : forall buf e, amf_decode buf = Err e -> kind e <> InvalidState
}.
