(* ===== verification/Amf3.v ===== *)
(** * AMF3 values

    Models [crates/protocols/rtmp/core/src/amf3.rs]. The decoder keeps tables of the
    strings, traits and complex values it has read, to which the input may refer;
    the encoder never writes a reference. Strings are their UTF-8 bytes, an [f64]
    its bit pattern. The recursion takes fuel; more than the bytes left changes
    nothing ([amf3_decode_value_fuel]). *)
From Stdlib Require Import Strings.Byte.
From S2P Require Import Prelude RtmpBytes Amf.

Definition MARKER_UNDEFINED : Z := 0x00.
Definition MARKER_NULL : Z := 0x01.
Definition MARKER_FALSE : Z := 0x02.
Definition MARKER_TRUE : Z := 0x03.
Definition MARKER_INTEGER : Z := 0x04.
Definition MARKER_DOUBLE : Z := 0x05.
Definition MARKER_STRING : Z := 0x06.
Definition MARKER_XML_DOCUMENT : Z := 0x07.
Definition MARKER_DATE : Z := 0x08.
Definition MARKER_ARRAY : Z := 0x09.
Definition MARKER_OBJECT : Z := 0x0A.
Definition MARKER_XML : Z := 0x0B.
Definition MARKER_BYTE_ARRAY : Z := 0x0C.
Definition MARKER_INT_VECTOR : Z := 0x0D.
Definition MARKER_UINT_VECTOR : Z := 0x0E.
Definition MARKER_DOUBLE_VECTOR : Z := 0x0F.
Definition MARKER_OBJECT_VECTOR : Z := 0x10.
Definition MARKER_DICTIONARY : Z := 0x11.

(** A [String]. *)
Abbreviation utf8 := (list byte).

Inductive Amf3Value : Set :=
| Undefined
| Null
| Boolean (b : bool)
| Integer (i : Z)
| Double (d : Z)
| String (s : utf8)
| XmlDocument (s : utf8)
| Date (unix_time_ms : Z)
| Array (assoc_entries : list (utf8 * Amf3Value)) (dense_entries : list Amf3Value)
| Object (class_name : option utf8) (sealed_count : nat) (entries : list (utf8 * Amf3Value))
| Xml (s : utf8)
| ByteArray (bytes : list byte)
| IntVector (is_fixed : bool) (entries : list Z)
| UintVector (is_fixed : bool) (entries : list Z)
| DoubleVector (is_fixed : bool) (entries : list Z)
| ObjectVector (class_name : option utf8) (is_fixed : bool) (entries : list Amf3Value)
| Dictionary (is_weak : bool) (entries : list (Amf3Value * Amf3Value)).

(** ** Decoder state *)

Record Trait : Set := mk_trait {
  t_class_name : option utf8; t_is_dynamic : bool; t_fields : list utf8
}.

Record Decoder : Set := mk_decoder {
  d_buf : list byte;
  complexes : list Amf3Value;
  strings : list utf8;
  traits : list Trait;
  decoding : gset nat
}.

#[export] Instance decoder_buf : HasBuf Decoder := {
  get_buf := d_buf;
  set_buf b s := mk_decoder b (complexes s) (strings s) (traits s) (decoding s);
  get_set_buf b s := eq_refl
}.

Definition set_complexes c s : Decoder := mk_decoder (d_buf s) c (strings s) (traits s) (decoding s).
Definition set_strings x s : Decoder := mk_decoder (d_buf s) (complexes s) x (traits s) (decoding s).
Definition set_traits t s : Decoder := mk_decoder (d_buf s) (complexes s) (strings s) t (decoding s).
Definition set_decoding d s : Decoder := mk_decoder (d_buf s) (complexes s) (strings s) (traits s) d.

Abbreviation decoder A := (SE Decoder Error A).

Inductive SizeOrIndex : Set := Size (n : Z) | Index (n : Z).

(** ** Lengths, indices, strings *)

(** Up to three bytes with a continuation bit, then a whole byte. *)
Fixpoint u29_loop (k : nat) (n : Z) : decoder Z :=
  b <- on_buf read_u8 ;;
  match k with
  | O => se_ret (Z.lor (Z.shiftl n 8) b)
  | S k =>
      let n := Z.lor (Z.shiftl n 7) (Z.land b 0x7F) in
      if Z.land b 0x80 =? 0 then se_ret n else u29_loop k n
  end.

Definition decode_u29 : decoder Z := u29_loop 3 0.

Definition decode_size_or_index : decoder SizeOrIndex :=
  u29 <- decode_u29 ;;
  let value := Z.shiftr u29 1 in
  se_ret (if Z.land u29 1 =? 0 then Index value else Size value).

(** [get(idx)] with a [usize]. *)
Definition get_at {A} (l : list A) (i : Z) : option A :=
  if i <? Z.of_nat (length l) then l !! Z.to_nat i else None.

Definition decode_utf8 : decoder utf8 :=
  x <- decode_size_or_index ;;
  match x with
  | Size len =>
      s <- on_buf (read_utf8 len) ;;
      match s with
      | [] => se_ret s
      | _ => se_upd (fun d => set_strings (strings d ++ [s]) d) ;;; se_ret s
      end
  | Index idx =>
      d <- se_get ;;
      se_of (ok_or (get_at (strings d) idx)
               (invalid_data ("string reference out of range: " +:+ pretty idx)))
  end.

(** The entry that is being decoded is [Null] in the table. The table only grows, so
    [idx] is in range when the value is stored. *)
Definition decode_complex_type (f : Z -> decoder Amf3Value) : decoder Amf3Value :=
  x <- decode_size_or_index ;;
  d <- se_get ;;
  match x with
  | Index idx =>
      val <- se_of (ok_or (get_at (complexes d) idx)
                      (invalid_data ("complex reference out of range: " +:+ pretty idx))) ;;
      if bool_decide (Z.to_nat idx ∈ decoding d)
      then se_err (unsupported ("circular reference at index: " +:+ pretty idx))
      else se_ret val
  | Size len =>
      let idx := length (complexes d) in
      se_upd (fun d => set_decoding ({[idx]} ∪ decoding d) (set_complexes (complexes d ++ [Null]) d)) ;;;
      value <- f len ;;
      se_upd (fun d => set_complexes (<[idx := value]> (complexes d))
                         (set_decoding (decoding d ∖ {[idx]}) d)) ;;;
      se_ret value
  end.

Definition decode_trait (fuel : nat) (u28 : Z) : decoder Trait :=
  if Z.land u28 1 =? 0 then
    let idx := Z.shiftr u28 1 in
    d <- se_get ;;
    se_of (ok_or (get_at (traits d) idx)
             (invalid_data ("trait reference out of range: " +:+ pretty idx)))
  else if negb (Z.land u28 2 =? 0) then se_err (unsupported "externalizable types not supported")
  else
    let is_dynamic := negb (Z.land u28 4 =? 0) in
    let field_count := Z.shiftr u28 3 in
    class_name <- decode_utf8 ;;
    fields <- collect fuel field_count decode_utf8 ;;
    let trait_def :=
      mk_trait (match class_name with [] => None | _ => Some class_name end) is_dynamic fields in
    se_upd (fun d => set_traits (traits d ++ [trait_def]) d) ;;;
    se_ret trait_def.

(** ** Values *)

Definition star : utf8 := [x2a].

Section decode_step.
Context (fuel : nat) (decode_value : decoder Amf3Value).

Fixpoint decode_pairs_loop (n : nat) : decoder (list (utf8 * Amf3Value)) :=
  match n with
  | O => se_err out_of_fuel
  | S n =>
      key <- decode_utf8 ;;
      match key with
      | [] => se_ret []
      | _ =>
          value <- decode_value ;;
          pairs <- decode_pairs_loop n ;;
          se_ret ((key, value) :: pairs)
      end
  end.

Definition decode_pairs : decoder (list (utf8 * Amf3Value)) := decode_pairs_loop fuel.

Definition decode_integer : decoder Amf3Value :=
  n <- decode_u29 ;;
  se_ret (Integer (if 2 ^ 28 <=? n then n - 2 ^ 29 else n)).

Definition decode_date : decoder Amf3Value :=
  decode_complex_type (fun _ =>
    millis <- on_buf read_f64 ;;
    if is_finite millis then se_ret (Date (millis_of millis))
    else se_err (invalid_data "invalid date millis")).

Definition decode_array : decoder Amf3Value :=
  decode_complex_type (fun count =>
    assoc_entries <- decode_pairs ;;
    dense_entries <- collect fuel count decode_value ;;
    se_ret (Array assoc_entries dense_entries)).

Definition decode_object : decoder Amf3Value :=
  decode_complex_type (fun u28 =>
    trait_def <- decode_trait fuel u28 ;;
    entries <- traverse (fun key => value <- decode_value ;; se_ret (key, value)) (t_fields trait_def) ;;
    dynamic <- (if t_is_dynamic trait_def then decode_pairs else se_ret []) ;;
    se_ret (Object (t_class_name trait_def) (length (t_fields trait_def)) (entries ++ dynamic))).

(** The three vectors of numbers. *)
Definition decode_vector (read : reader Z) (build : bool -> list Z -> Amf3Value) : decoder Amf3Value :=
  decode_complex_type (fun count =>
    is_fixed <- on_buf read_u8 ;;
    entries <- collect fuel count (on_buf read) ;;
    se_ret (build (negb (is_fixed =? 0)) entries)).

Definition decode_object_vector : decoder Amf3Value :=
  decode_complex_type (fun count =>
    is_fixed <- on_buf read_u8 ;;
    class_name <- decode_utf8 ;;
    entries <- collect fuel count decode_value ;;
    se_ret (ObjectVector (if bool_decide (class_name = star) then None else Some class_name)
              (negb (is_fixed =? 0)) entries)).

Definition decode_dictionary : decoder Amf3Value :=
  decode_complex_type (fun count =>
    is_weak <- on_buf read_u8 ;;
    entries <- collect fuel count
                 (key <- decode_value ;; value <- decode_value ;; se_ret (key, value)) ;;
    se_ret (Dictionary (is_weak =? 1) entries)).

Definition decode_marker (marker : Z) : decoder Amf3Value :=
  if marker =? MARKER_UNDEFINED then se_ret Undefined
  else if marker =? MARKER_NULL then se_ret Null
  else if marker =? MARKER_FALSE then se_ret (Boolean false)
  else if marker =? MARKER_TRUE then se_ret (Boolean true)
  else if marker =? MARKER_INTEGER then decode_integer
  else if marker =? MARKER_DOUBLE then n <- on_buf read_f64 ;; se_ret (Double n)
  else if marker =? MARKER_STRING then s <- decode_utf8 ;; se_ret (String s)
  else if marker =? MARKER_XML_DOCUMENT then
    decode_complex_type (fun len => s <- on_buf (read_utf8 len) ;; se_ret (XmlDocument s))
  else if marker =? MARKER_DATE then decode_date
  else if marker =? MARKER_ARRAY then decode_array
  else if marker =? MARKER_OBJECT then decode_object
  else if marker =? MARKER_XML then
    decode_complex_type (fun len => s <- on_buf (read_utf8 len) ;; se_ret (Xml s))
  else if marker =? MARKER_BYTE_ARRAY then
    decode_complex_type (fun len => b <- on_buf (read_vec len) ;; se_ret (ByteArray b))
  else if marker =? MARKER_INT_VECTOR then decode_vector read_i32 IntVector
  else if marker =? MARKER_UINT_VECTOR then decode_vector read_u32 UintVector
  else if marker =? MARKER_DOUBLE_VECTOR then decode_vector read_f64 DoubleVector
  else if marker =? MARKER_OBJECT_VECTOR then decode_object_vector
  else if marker =? MARKER_DICTIONARY then decode_dictionary
  else se_err (invalid_data ("unknown AMF3 marker: " +:+ pretty marker)).
End decode_step.

Fixpoint decode_value (fuel : nat) : decoder Amf3Value :=
  match fuel with
  | O => se_err out_of_fuel
  | S fuel => marker <- on_buf read_u8 ;; decode_marker fuel (decode_value fuel) marker
  end.

Definition decode (buf : list byte) : result Error (nat * Amf3Value) :=
  match decode_value (S (length buf)) (mk_decoder buf [] [] [] ∅) with
  | (d, Ok value) => Ok ((length buf - length (d_buf d))%nat, value)
  | (_, Err e) => Err e
  end.

(** ** Encoder *)

Definition encode_u29 (u29 : Z) (buf : list byte) : list byte :=
  if u29 <? 0x80 then write_u8 u29 buf
  else if u29 <? 0x4000 then
    let b1 := Z.land u29 0x7F in
    let b2 := Z.lor (Z.shiftr u29 7) 0x80 in
    write_u8 b1 (write_u8 b2 buf)
  else if u29 <? 0x200000 then
    let b1 := Z.land u29 0x7F in
    let b2 := Z.lor (Z.shiftr u29 7) 0x80 in
    let b3 := Z.lor (Z.shiftr u29 14) 0x80 in
    write_u8 b1 (write_u8 b2 (write_u8 b3 buf))
  else
    let b1 := Z.land u29 0xFF in
    let b2 := Z.lor (Z.shiftr u29 8) 0x80 in
    let b3 := Z.lor (Z.shiftr u29 15) 0x80 in
    let b4 := Z.lor (Z.shiftr u29 22) 0x80 in
    write_u8 b1 (write_u8 b2 (write_u8 b3 (write_u8 b4 buf))).

(** The [debug_assert!] on the size is not in a release build. *)
Definition encode_size (size : Z) (buf : list byte) : list byte :=
  encode_u29 (wrap_u 32 (Z.lor (Z.shiftl size 1) 1)) buf.

Definition len_of {A} (l : list A) : Z := Z.of_nat (length l).

Definition encode_utf8 (s : utf8) (buf : list byte) : list byte :=
  write_bytes s (encode_size (len_of s) buf).

Definition bool_u8 (b : bool) : Z := if b then 1 else 0.

(** The flags and the field names; the fields follow. *)
Definition encode_trait (class_name : option utf8) (sealed_count : nat)
    (entries : list (utf8 * Amf3Value)) (buf : list byte) : list byte :=
  let is_dynamic := bool_u8 (sealed_count <? length entries)%nat in
  let u28 := Z.lor (Z.lor (Z.shiftl (Z.of_nat sealed_count) 3) (Z.shiftl is_dynamic 2)) 1 in
  let buf := encode_utf8 (default [] class_name) (encode_size u28 buf) in
  foldl (fun buf entry => encode_utf8 (fst entry) buf) buf (take sealed_count entries).

Definition encode_pairs (f : Amf3Value -> writer) (pairs : list (utf8 * Amf3Value)) : writer := fun buf =>
  buf ← encode_each (fun pair buf => let '(key, value) := pair in f value (encode_utf8 key buf)) pairs buf;
  Some (encode_utf8 [] buf).

(** The sealed fields without their names, then what is left as pairs. *)
Definition encode_fields (f : Amf3Value -> writer) : nat -> list (utf8 * Amf3Value) -> writer :=
  fix go sealed_count entries buf {struct entries} :=
    match entries with
    | [] => Some buf
    | (_, value) :: rest =>
        match sealed_count with
        | S n => buf ← f value buf; go n rest buf
        | O => encode_pairs f entries buf
        end
    end.

Definition encode_vector (marker : Z) (width : nat) (is_fixed : bool) (entries : list Z)
    (buf : list byte) : list byte :=
  foldl (fun buf entry => buf ++ be_bytes width entry)
    (write_u8 (bool_u8 is_fixed) (encode_size (len_of entries) (write_u8 marker buf))) entries.

Fixpoint encode_value (value : Amf3Value) {struct value} : writer := fun buf =>
  match value with
  | Undefined => Some (write_u8 MARKER_UNDEFINED buf)
  | Null => Some (write_u8 MARKER_NULL buf)
  | Boolean b => Some (write_u8 (if b then MARKER_TRUE else MARKER_FALSE) buf)
  | Integer i =>
      if (- 2 ^ 28 <=? i) && (i <? 2 ^ 28)
      then Some (encode_u29 (if 0 <=? i then i else 2 ^ 29 + i) (write_u8 MARKER_INTEGER buf))
      else None
  | Double d => Some (write_f64 d (write_u8 MARKER_DOUBLE buf))
  | String s => Some (encode_utf8 s (write_u8 MARKER_STRING buf))
  | XmlDocument s => Some (encode_utf8 s (write_u8 MARKER_XML_DOCUMENT buf))
  | Date unix_time_ms =>
      Some (write_f64 (i64_to_f64 unix_time_ms) (encode_size 0 (write_u8 MARKER_DATE buf)))
  | Array assoc_entries dense_entries =>
      buf ← encode_pairs encode_value assoc_entries
              (encode_size (len_of dense_entries) (write_u8 MARKER_ARRAY buf));
      encode_each encode_value dense_entries buf
  | Object class_name sealed_count entries =>
      encode_fields encode_value sealed_count entries
        (encode_trait class_name sealed_count entries (write_u8 MARKER_OBJECT buf))
  | Xml s => Some (encode_utf8 s (write_u8 MARKER_XML buf))
  | ByteArray bytes =>
      Some (write_bytes bytes (encode_size (len_of bytes) (write_u8 MARKER_BYTE_ARRAY buf)))
  | IntVector is_fixed entries => Some (encode_vector MARKER_INT_VECTOR 4 is_fixed entries buf)
  | UintVector is_fixed entries => Some (encode_vector MARKER_UINT_VECTOR 4 is_fixed entries buf)
  | DoubleVector is_fixed entries => Some (encode_vector MARKER_DOUBLE_VECTOR 8 is_fixed entries buf)
  | ObjectVector class_name is_fixed entries =>
      encode_each encode_value entries
        (encode_utf8 (default star class_name)
           (write_u8 (bool_u8 is_fixed) (encode_size (len_of entries) (write_u8 MARKER_OBJECT_VECTOR buf))))
  | Dictionary is_weak entries =>
      encode_each
        (fun entry buf => let '(key, value) := entry in buf ← encode_value key buf; encode_value value buf)
        entries
        (write_u8 (bool_u8 is_weak) (encode_size (len_of entries) (write_u8 MARKER_DICTIONARY buf)))
  end.

(** ** What the format can carry *)

Definition fits (n : Z) : bool := n <? 2 ^ 28.
Definition text (s : utf8) : bool := utf8_valid s && fits (len_of s).
(** A key of pairs, where the empty key ends the list. *)
Definition key_text (s : utf8) : bool := negb (bool_decide (s = [])) && text s.
Definition word (lo hi z : Z) : bool := (lo <=? z) && (z <? hi).

Fixpoint encodable (v : Amf3Value) : bool :=
  match v with
  | Undefined | Null | Boolean _ => true
  | Integer i => word (- 2 ^ 28) (2 ^ 28) i
  | Double d => word 0 (2 ^ 64) d
  | String s | XmlDocument s | Xml s => text s
  | Date ms => Z.abs ms <? 2 ^ 53
  | Array assoc dense =>
      fits (len_of dense) && forallb (fun '(k, v) => key_text k && encodable v) assoc && forallb encodable dense
  | Object class_name sealed_count entries =>
      match class_name with None => true | Some c => key_text c end &&
      (sealed_count <=? length entries)%nat && (Z.of_nat sealed_count <? 2 ^ 25) &&
      forallb (fun '(k, v) => text k && encodable v) entries &&
      forallb (fun '(k, _) => negb (bool_decide (k = []))) (drop sealed_count entries)
  | ByteArray bytes => fits (len_of bytes)
  | IntVector _ entries => fits (len_of entries) && forallb (word (- 2 ^ 31) (2 ^ 31)) entries
  | UintVector _ entries => fits (len_of entries) && forallb (word 0 (2 ^ 32)) entries
  | DoubleVector _ entries => fits (len_of entries) && forallb (word 0 (2 ^ 64)) entries
  | ObjectVector class_name _ entries =>
      match class_name with None => true | Some c => text c && negb (bool_decide (c = star)) end &&
      fits (len_of entries) && forallb encodable entries
  | Dictionary _ entries =>
      fits (len_of entries) && forallb (fun '(k, v) => encodable k && encodable v) entries
  end.

Example object_roundtrip :
  let v := Object (Some [x61]) 1 [([x62], Integer (-5)); ([x63], Array [([x64], Null)] [Boolean true])] in
  encodable v = true /\ (decode <$> encode_value v []) = Some (Ok (21%nat, v)).
Proof. vm_compute. split; reflexivity. Qed.

(** ** Induction on values *)

Section induction.
Context (P : Amf3Value -> Prop).
Context (H_leaf : forall v,
  match v with Array _ _ | Object _ _ _ | ObjectVector _ _ _ | Dictionary _ _ => True | _ => P v end).
Context (H_array : forall assoc dense,
  Forall (fun kv => P (snd kv)) assoc -> Forall P dense -> P (Array assoc dense)).
Context (H_object : forall c n entries, Forall (fun kv => P (snd kv)) entries -> P (Object c n entries)).
Context (H_vector : forall c f entries, Forall P entries -> P (ObjectVector c f entries)).
Context (H_dictionary : forall w entries,
  Forall (fun kv => P (fst kv) /\ P (snd kv)) entries -> P (Dictionary w entries)).

Fixpoint Amf3Value_ind' (v : Amf3Value) : P v :=
  let values := fix go l : Forall P l :=
    match l with [] => Forall_nil_2 _ | v :: l => Forall_cons_2 _ _ _ (Amf3Value_ind' v) (go l) end in
  let pairs := fix go (l : list (utf8 * Amf3Value)) : Forall (fun kv => P (snd kv)) l :=
    match l with
    | [] => Forall_nil_2 _
    | (k, v) :: l => Forall_cons_2 (fun kv => P (snd kv)) (k, v) l (Amf3Value_ind' v) (go l)
    end in
  match v as v return P v with
  | Array assoc dense => H_array assoc dense (pairs assoc) (values dense)
  | Object c n entries => H_object c n entries (pairs entries)
  | ObjectVector c f entries => H_vector c f entries (values entries)
  | Dictionary w entries =>
      H_dictionary w entries
        ((fix go (l : list (Amf3Value * Amf3Value)) : Forall (fun kv => P (fst kv) /\ P (snd kv)) l :=
            match l with
            | [] => Forall_nil_2 _
            | (k, v) :: l => Forall_cons_2 (fun kv => P (fst kv) /\ P (snd kv)) (k, v) l
                               (conj (Amf3Value_ind' k) (Amf3Value_ind' v)) (go l)
            end) entries)
  | v => H_leaf v
  end.
End induction.
