(* ===== verification/Amf3Roundtrip.v ===== *)
(** * AMF3: what is written is read back

    The decoder and encoder of Amf3 against each other, and the decoder on its own:
    how much it takes, and that fuel does not limit it. *)
From Stdlib Require Import Strings.Byte.
From S2P Require Import Prelude RtmpBytes Amf Amf3.

(** ** Decoding takes bytes *)

#[export] Instance u29_loop_shrinks k n : Shrinks 1 (u29_loop k n).
Proof.
  revert n. induction k as [|k IH]; intros n; cbn [u29_loop]; apply shrinks_bind_1; try apply _.
Qed.

#[export] Instance decode_size_or_index_shrinks : Shrinks 1 decode_size_or_index.
Proof. unfold decode_size_or_index, decode_u29. apply _. Qed.

#[export] Instance decode_utf8_shrinks : Shrinks 1 decode_utf8.
Proof.
  unfold decode_utf8. apply shrinks_bind_1; [apply _|]. intros [len|idx]; [|apply _].
  apply shrinks_bind_0; [apply _|]. intros [|b s]; apply _.
Qed.

#[export] Instance decode_complex_type_shrinks f :
  (forall n, Shrinks 0 (f n)) -> Shrinks 1 (decode_complex_type f).
Proof.
  intros Hf. unfold decode_complex_type. apply shrinks_bind_1; [apply _|]. intros [len|idx]; apply _.
Qed.

#[export] Instance decode_trait_shrinks n u : Shrinks 0 (decode_trait n u).
Proof. unfold decode_trait. apply _. Qed.

Lemma amf3_decode_pairs_shrinks dv n : Shrinks 0 dv -> Shrinks 0 (decode_pairs_loop dv n).
Proof.
  intros Hv. induction n as [|n IH]; cbn [decode_pairs_loop]; [apply _|].
  apply shrinks_bind_0; [apply _|]. intros [|b s]; apply _.
Qed.
#[export] Hint Extern 1 (Shrinks 0 (decode_pairs_loop _ _)) => apply amf3_decode_pairs_shrinks : typeclass_instances.
#[export] Hint Extern 1 (Shrinks 0 (decode_pairs _ _)) => apply amf3_decode_pairs_shrinks : typeclass_instances.

Lemma amf3_decode_marker_shrinks n dv m : Shrinks 0 dv -> Shrinks 0 (decode_marker n dv m).
Proof.
  intros Hv. unfold decode_marker, decode_integer, decode_date, decode_array, decode_object,
    decode_vector, decode_object_vector, decode_dictionary, decode_u29.
  repeat (apply shrinks_if); apply _.
Qed.

#[export] Instance decode_value_shrinks n : Shrinks 1 (decode_value n).
Proof.
  induction n as [|n IH]; cbn [decode_value]; [apply _|]. apply shrinks_bind_1; [apply _|].
  intros m. by apply amf3_decode_marker_shrinks, shrinks_0.
Qed.

(** ** Errors *)

#[export] Instance u29_loop_sane k n : Sane (u29_loop k n).
Proof. revert n. induction k as [|k IH]; intros n; cbn [u29_loop]; apply _. Qed.

#[export] Instance decode_size_or_index_sane : Sane decode_size_or_index.
Proof. unfold decode_size_or_index, decode_u29. apply _. Qed.

#[export] Instance decode_utf8_sane : Sane decode_utf8.
Proof.
  unfold decode_utf8. apply sane_bind; [apply _|]. intros [len|idx]; [|apply _].
  apply sane_bind; [apply _|]. intros [|b s]; apply _.
Qed.

(** ** Fuel beyond the bytes changes nothing *)

Lemma amf3_agree_complex n f f' :
  (forall len, agree n (f len) (f' len)) -> agree n (decode_complex_type f) (decode_complex_type f').
Proof.
  intros Hf. unfold decode_complex_type. apply agree_bind; [apply agree_refl, _|apply _|]. intros x.
  apply agree_bind; [apply agree_refl, _|apply _|]. intros d. destruct x; [|apply agree_refl, _].
  apply agree_bind; [apply agree_refl, _|apply _|]. intros _.
  apply agree_bind_keep; [apply Hf|]. intros v. apply _.
Qed.

Lemma amf3_agree_pairs dv dv' : forall n k k',
  agree n dv dv' -> Shrinks 0 dv -> (n <= k)%nat -> (n <= k')%nat ->
  agree n (decode_pairs_loop dv k) (decode_pairs_loop dv' k').
Proof.
  intros n k. revert n. induction k as [|k IH]; intros n k' Hv Sv H1 H2; [intros s Hs; lia|].
  destruct n as [|n]; [intros s Hs; lia|]. destruct k' as [|k']; [lia|]. cbn [decode_pairs_loop].
  apply agree_bind_take; [apply agree_refl, _|apply _|]. intros [|b key]; [apply agree_refl, _|].
  assert (Hv' : agree n dv dv') by (eapply agree_weaken; [exact Hv|lia]).
  apply agree_bind; [exact Hv'|done|]. intros v. apply agree_bind; [|apply _|intros; apply agree_refl, _].
  apply IH; [done|done|lia|lia].
Qed.

Lemma agree_trait n k k' u : (n <= k)%nat -> (n <= k')%nat -> agree n (decode_trait k u) (decode_trait k' u).
Proof.
  intros H1 H2. unfold decode_trait. apply agree_if; [apply agree_refl, _|].
  apply agree_if; [apply agree_refl, _|]. apply agree_bind; [apply agree_refl, _|apply _|]. intros c.
  apply agree_bind; [|apply _|intros; apply agree_refl, _]. apply agree_collect; [apply agree_refl, _|apply _|done|done].
Qed.

Ltac agree3_step :=
  match goal with
  | |- agree _ (decode_complex_type _) _ => apply amf3_agree_complex; intros
  | |- agree _ (decode_pairs_loop _ _) _ => apply amf3_agree_pairs
  | |- agree _ (decode_trait _ _) _ => apply agree_trait
  | _ => agree_step
  end.

Lemma amf3_agree_marker dv dv' n k k' m :
  agree n dv dv' -> Shrinks 1 dv -> (n <= k)%nat -> (n <= k')%nat ->
  agree n (decode_marker k dv m) (decode_marker k' dv' m).
Proof.
  intros Hv Sv H1 H2. unfold decode_marker, decode_integer, decode_date, decode_array, decode_object,
    decode_vector, decode_object_vector, decode_dictionary, decode_pairs.
  repeat agree3_step.
Qed.

Lemma amf3_decode_value_fuel n : forall k k', (n <= k)%nat -> (n <= k')%nat -> agree n (decode_value k) (decode_value k').
Proof.
  induction n as [|n IH]; intros k k' H1 H2; [intros s Hs; lia|].
  destruct k as [|k]; [lia|]. destruct k' as [|k']; [lia|]. cbn [decode_value].
  apply agree_bind_take; [apply agree_refl, _|apply _|]. intros m.
  apply amf3_agree_marker; [apply IH; lia|apply _|lia|lia].
Qed.

(** [decode] takes at least a byte and no more than there are. *)
Lemma amf3_decode_takes buf n v : decode buf = Ok (n, v) -> (1 <= n <= length buf)%nat.
Proof.
  unfold decode. destruct (decode_value _ _) as [d [x|e]] eqn:E; [|done]. intros [= <- <-].
  apply decode_value_shrinks in E. unfold remaining in E. cbn in E. lia.
Qed.

(** ** Reading back what was written *)

(** What [encode_u29] and [encode_size] write. *)
Definition u29_bytes (u29 : Z) : list byte := encode_u29 u29 [].
Definition size_bytes (n : Z) : list byte := u29_bytes (2 * n + 1).
Definition utf8_bytes (s : utf8) : list byte := size_bytes (len_of s) ++ s.

Lemma encode_u29_app u buf : encode_u29 u buf = buf ++ u29_bytes u.
Proof. unfold u29_bytes, encode_u29, write_u8. zcases; by rewrite <- ?app_assoc. Qed.

Lemma encode_size_app n buf : 0 <= n < 2 ^ 28 -> encode_size n buf = buf ++ size_bytes n.
Proof.
  intros Hn. unfold encode_size. rewrite (lor_shiftl n 1 1) by lia.
  rewrite wrap_u_small by (unfold in_u; change (2 ^ 28) with 268435456 in Hn; change (2 ^ 32) with 4294967296; lia).
  rewrite encode_u29_app. unfold size_bytes. do 2 f_equal. lia.
Qed.

Lemma encode_utf8_app s buf : text s = true -> encode_utf8 s buf = buf ++ utf8_bytes s.
Proof.
  unfold text, fits, utf8_bytes, encode_utf8, write_bytes, len_of. intros [_ H%Z.ltb_lt]%andb_true_iff.
  rewrite encode_size_app by lia. by rewrite app_assoc.
Qed.

Lemma u29_bytes_pos u : (1 <= length (u29_bytes u))%nat.
Proof. unfold u29_bytes, encode_u29, write_u8. zcases; cbn; lia. Qed.

Lemma utf8_bytes_pos s : (1 <= length (utf8_bytes s))%nat.
Proof. unfold utf8_bytes, size_bytes. rewrite length_app. pose proof (u29_bytes_pos (2 * len_of s + 1)). lia. Qed.

(** Seven bits with the continuation bit. *)
Lemma land_7f z : Z.land z 0x7F = z mod 128.
Proof. apply (Z.land_ones z 7). lia. Qed.

Lemma lor_80 z : 0 <= z < 128 -> Z.lor z 0x80 = z + 128.
Proof.
  intros H. pose proof (lor_shiftl 1 z 7 ltac:(lia) ltac:(lia)) as E. change (Z.shiftl 1 7) with 128 in E.
  rewrite Z.lor_comm, E. lia.
Qed.

Lemma land_80 z : 0 <= z < 256 -> (Z.land z 0x80 =? 0) = (z <? 128).
Proof.
  intros H. assert (C : forallb (fun n => Bool.eqb (Z.land (Z.of_nat n) 0x80 =? 0) (Z.of_nat n <? 128)) (seq 0 256) = true)
    by (vm_compute; reflexivity).
  rewrite forallb_forall in C. specialize (C (Z.to_nat z)). rewrite Z2Nat.id in C by lia.
  apply eqb_prop, C, in_seq. lia.
Qed.

(** One turn of the loop. *)
Lemma parses_u29_last n b :
  0 <= n -> 0 <= b < 128 -> forall k, parses (u29_loop (S k) n) [byte_of b] (n * 128 + b).
Proof.
  intros Hn Hb k. cbn [u29_loop]. eapply parses_then; [apply parses_u8; unfold in_u; lia|].
  rewrite land_80, land_7f, Z.mod_small by lia. rewrite (proj2 (Z.ltb_lt b 128)) by lia.
  rewrite lor_shiftl by lia. apply parses_ret.
Qed.

Lemma parses_u29_more n b k bs v :
  0 <= n -> 0 <= b < 128 -> parses (u29_loop k (n * 128 + b)) bs v ->
  parses (u29_loop (S k) n) (byte_of (b + 128) :: bs) v.
Proof.
  intros Hn Hb Hk. cbn [u29_loop]. apply (parses_bind _ _ [byte_of (b + 128)]) with (a := b + 128);
    [apply parses_u8; unfold in_u; lia|].
  rewrite land_80, land_7f by lia. rewrite (proj2 (Z.ltb_ge (b + 128) 128)) by lia.
  replace ((b + 128) mod 128) with b by zdm. by rewrite lor_shiftl by lia.
Qed.

Lemma parses_u29_full n b :
  0 <= n -> 0 <= b < 256 -> parses (u29_loop 0 n) [byte_of b] (n * 256 + b).
Proof.
  intros Hn Hb. cbn [u29_loop]. eapply parses_then; [apply parses_u8; unfold in_u; lia|].
  rewrite lor_shiftl by lia. apply parses_ret.
Qed.

(** [byte_of] drops what a shift leaves above the byte. *)
Lemma byte_of_lor_80 z : 0 <= z -> byte_of (Z.lor z 0x80) = byte_of (z mod 128 + 128).
Proof.
  intros Hz. rewrite <- (lor_80 (z mod 128)) by zdm.
  enough (wrap_u 8 (Z.lor z 0x80) = wrap_u 8 (Z.lor (z mod 128) 0x80)) as E by (unfold byte_of; by rewrite E).
  unfold wrap_u. apply Z.bits_inj'. intros i Hi. change (z mod 128) with (z mod 2 ^ 7).
  destruct (Z.lt_ge_cases i 8); [|by rewrite !Z.mod_pow2_bits_high by lia].
  rewrite !Z.mod_pow2_bits_low, !Z.lor_spec by lia.
  destruct (Z.lt_ge_cases i 7); [by rewrite Z.mod_pow2_bits_low by lia|].
  replace i with 7 by lia. by rewrite !orb_true_r.
Qed.

Lemma parses_u29 u : 0 <= u < 2 ^ 29 -> parses decode_u29 (u29_bytes u) u.
Proof.
  intros Hu. change (2 ^ 29) with 536870912 in Hu. unfold decode_u29, u29_bytes, encode_u29, write_u8.
  rewrite !Z.shiftr_div_pow2 by lia. change (2 ^ 7) with 128. change (2 ^ 14) with 16384.
  change (2 ^ 8) with 256. change (2 ^ 15) with 32768. change (2 ^ 22) with 4194304.
  rewrite !byte_of_lor_80 by zdm. rewrite !land_7f. change 0xFF with (Z.ones 8). rewrite Z.land_ones by lia.
  change (2 ^ 8) with 256. cbn [app].
  destruct (Z.ltb_spec u 128); [|destruct (Z.ltb_spec u 16384); [|destruct (Z.ltb_spec u 2097152)]].
  - replace u with (0 * 128 + u) at 2 by lia. apply parses_u29_last; lia.
  - replace u with ((0 * 128 + (u / 128) mod 128) * 128 + u mod 128) at 3 by zdm.
    apply parses_u29_more; [lia|zdm|]. apply parses_u29_last; zdm.
  - replace u with (((0 * 128 + (u / 16384) mod 128) * 128 + (u / 128) mod 128) * 128 + u mod 128) at 4 by zdm.
    do 2 (apply parses_u29_more; [zdm|zdm|]). apply parses_u29_last; zdm.
  - replace u with ((((0 * 128 + (u / 4194304) mod 128) * 128 + (u / 32768) mod 128) * 128 +
      (u / 256) mod 128) * 256 + u mod 256) at 5 by zdm.
    do 3 (apply parses_u29_more; [zdm|zdm|]). apply parses_u29_full; zdm.
Qed.

Lemma parses_size n : 0 <= n < 2 ^ 28 -> parses decode_size_or_index (size_bytes n) (Size n).
Proof.
  intros Hn. change (2 ^ 28) with 268435456 in Hn. unfold decode_size_or_index, size_bytes.
  eapply parses_then; [apply parses_u29; change (2 ^ 29) with 536870912; lia|].
  pose proof (Z.land_ones (2 * n + 1) 1 ltac:(lia)) as E. change (Z.ones 1) with 1 in E. rewrite E.
  rewrite Z.shiftr_div_pow2 by lia. change (2 ^ 1) with 2. replace ((2 * n + 1) / 2) with n by zdm. replace ((2 * n + 1) mod 2) with 1 by zdm.
  apply parses_ret.
Qed.

Lemma parses_utf8_bytes s : text s = true -> parses decode_utf8 (utf8_bytes s) s.
Proof.
  unfold text, fits. intros [Hv Hl%Z.ltb_lt]%andb_true_iff. unfold decode_utf8, utf8_bytes.
  eapply parses_bind; [apply parses_size; unfold len_of in *; lia|].
  eapply parses_then; [by apply parses_utf8|]. destruct s; [apply parses_ret|].
  eapply (parses_bind _ _ [] []); [by apply parses_upd|apply parses_ret].
Qed.

Lemma amf3_parses_complex f n bs v :
  0 <= n < 2 ^ 28 -> parses (f n) bs v -> parses (decode_complex_type f) (size_bytes n ++ bs) v.
Proof.
  intros Hn Hf. unfold decode_complex_type. eapply parses_bind; [by apply parses_size|].
  apply parses_get. intros d. eapply (parses_bind _ _ []); [by apply parses_upd|].
  eapply parses_then; [exact Hf|]. eapply (parses_bind _ _ [] []); [by apply parses_upd|apply parses_ret].
Qed.

(** ** Element by element *)

(** [x] survives the writer and the decoder, given fuel for its bytes. *)
Definition survives {A} (w : A -> writer) (m : nat -> decoder A) (x : A) : Prop :=
  exists bs, emits (w x) bs /\ (1 <= length bs)%nat /\
    forall fuel, (length bs <= fuel)%nat -> parses (m fuel) bs x.

Abbreviation roundtrips := (survives encode_value decode_value).

Lemma each_survives {A} (w : A -> writer) m (l : list A) :
  Forall (survives w m) l ->
  exists bs, emits (encode_each w l) bs /\ (length l <= length bs)%nat /\
    forall fuel n, (length bs <= fuel)%nat -> (length l <= n)%nat ->
      parses (collect n (len_of l) (m fuel)) bs l.
Proof.
  induction 1 as [|x l (b & E & Hb & P) _ (bs & Es & Hbs & Ps)].
  { exists []. split; [intros buf; by rewrite app_nil_r|]. split; [done|]. intros fuel [|n]; intros; apply parses_ret. }
  exists (b ++ bs). split; [exact (emits_bind _ _ _ _ E Es)|]. rewrite length_app. cbn [length]. split; [lia|].
  intros fuel [|n] Hf Hn; [lia|]. unfold len_of. cbn [collect length]. rewrite (proj2 (Z.leb_gt _ _)) by lia.
  eapply parses_bind; [apply P; lia|]. unfold len_of in Ps.
  replace (Z.of_nat (S (length l)) - 1) with (Z.of_nat (length l)) by lia.
  eapply parses_then; [apply Ps; lia|apply parses_ret].
Qed.

Lemma text_key k : key_text k = true -> k <> [] /\ text k = true.
Proof. unfold key_text. intros [H ?]%andb_true_iff. split; [|done]. intros ->. done. Qed.

Lemma encode_pairs_cons f k v l buf :
  encode_pairs f ((k, v) :: l) buf = f v (encode_utf8 k buf) ≫= encode_pairs f l.
Proof.
  unfold encode_pairs at 1. cbn [encode_each]. by destruct (f v _).
Qed.

Lemma amf3_pairs_survive (l : list (utf8 * Amf3Value)) :
  Forall (fun kv => key_text (fst kv) = true /\ roundtrips (snd kv)) l ->
  exists bs, emits (encode_pairs encode_value l) bs /\ (length l < length bs)%nat /\
    forall fuel n, (length bs <= fuel)%nat -> (length l < n)%nat ->
      parses (decode_pairs_loop (decode_value fuel) n) bs l.
Proof.
  induction 1 as [|[k v] l [Hk (b & E & Hb & P)] _ (bs & Es & Hbs & Ps)].
  { exists (utf8_bytes []). split; [intros buf; cbn; by rewrite encode_utf8_app|].
    split; [exact (utf8_bytes_pos [])|]. intros fuel [|n] _ Hn; [lia|]. cbn [decode_pairs_loop].
    eapply parses_then; [by apply parses_utf8_bytes|]. apply parses_ret. }
  apply text_key in Hk as [Hk Ht]. cbn [fst snd] in *.
  exists (utf8_bytes k ++ b ++ bs). split; [|split].
  - intros buf. rewrite encode_pairs_cons, encode_utf8_app, E by done. cbn. by rewrite Es, <- !app_assoc.
  - rewrite !length_app. cbn [length]. pose proof (utf8_bytes_pos k). lia.
  - intros fuel [|n] Hf Hn; [lia|]. rewrite !length_app in Hf. cbn [decode_pairs_loop length] in *.
    eapply parses_bind; [by apply parses_utf8_bytes|]. destruct k; [done|].
    eapply parses_bind; [apply P; lia|]. eapply parses_then; [apply Ps; lia|apply parses_ret].
Qed.

(** Sealed fields, then the dynamic ones. *)
Lemma fields_survive n (l : list (utf8 * Amf3Value)) :
  Forall (fun kv => roundtrips (snd kv)) l ->
  Forall (fun kv => key_text (fst kv) = true) (drop n l) -> (n <= length l)%nat ->
  exists b1 b2, emits (encode_fields encode_value n l) (b1 ++ b2) /\
    (forall fuel, (length b1 <= fuel)%nat ->
       parses (traverse (fun key => value <- decode_value fuel ;; se_ret (key, value)) (fst <$> take n l))
         b1 (take n l)) /\
    (forall fuel, (length b2 <= fuel)%nat ->
       parses (if (n <? length l)%nat then decode_pairs fuel (decode_value fuel) else se_ret []) b2 (drop n l)).
Proof.
  revert n. induction l as [|[k v] l IH]; intros n Hv Hk Hn.
  { exists [], []. split; [intros buf; cbn; by rewrite app_nil_r|]. destruct n; [|cbn in Hn; lia].
    split; intros; apply parses_ret. }
  destruct n as [|n].
  - destruct (amf3_pairs_survive ((k, v) :: l)) as (bs & E & Hb & P).
    { cbn [drop] in Hk. rewrite Forall_forall in *. intros x Hx. auto. }
    exists [], bs. split; [exact E|]. split; [intros; apply parses_ret|]. intros fuel Hf. apply P; lia.
  - apply Forall_cons in Hv as [(b & E & Hb & P) Hv]. cbn [snd] in *.
    destruct (IH n Hv Hk) as (b1 & b2 & Es & P1 & P2); [cbn in Hn; lia|].
    exists (b ++ b1), b2. split; [|split; [|exact P2]].
    + rewrite <- app_assoc. exact (emits_bind _ _ _ _ E Es).
    + intros fuel. rewrite length_app. intros Hf. cbn [take fmap list_fmap fst traverse].
      eapply parses_bind; [eapply parses_then; [apply P; lia|apply parses_ret]|].
      eapply parses_then; [apply P1; lia|apply parses_ret].
Qed.

(** ** Traits *)

Lemma land_bit u k : 0 <= k -> (Z.land u (2 ^ k) =? 0) = negb (Z.odd (u / 2 ^ k)).
Proof.
  intros Hk. rewrite <- Z.shiftr_div_pow2, <- Z.testbit_odd by done. destruct (Z.testbit u k) eqn:E; cbn [negb].
  - apply Z.eqb_neq. intros H. assert (T : Z.testbit (Z.land u (2 ^ k)) k = true)
      by (rewrite Z.land_spec, E, Z.pow2_bits_true by done; done).
    rewrite H, Z.bits_0 in T. done.
  - apply Z.eqb_eq, Z.bits_inj'. intros i Hi. rewrite Z.land_spec, Z.bits_0, Z.pow2_bits_eqb by done.
    destruct (Z.eqb_spec k i) as [->|]; [by rewrite E|apply andb_false_r].
Qed.

Definition trait_u28 (sealed : nat) (dynamic : bool) : Z := Z.of_nat sealed * 8 + bool_u8 dynamic * 4 + 1.

Lemma encode_u28 sealed dynamic :
  Z.lor (Z.lor (Z.shiftl (Z.of_nat sealed) 3) (Z.shiftl (bool_u8 dynamic) 2)) 1 = trait_u28 sealed dynamic.
Proof.
  assert (Hd : 0 <= bool_u8 dynamic <= 1) by (destruct dynamic; cbn; lia).
  rewrite (lor_shiftl (Z.of_nat sealed) (Z.shiftl _ 2) 3), Z.shiftl_mul_pow2 by (rewrite ?Z.shiftl_mul_pow2; lia).
  replace (Z.of_nat sealed * 2 ^ 3 + bool_u8 dynamic * 2 ^ 2)
    with (Z.shiftl (Z.of_nat sealed * 2 + bool_u8 dynamic) 2) by (rewrite Z.shiftl_mul_pow2; lia).
  rewrite lor_shiftl by lia. unfold trait_u28. lia.
Qed.

Lemma parses_trait fuel c names dynamic :
  match c with None => true | Some c => key_text c end = true ->
  forallb text names = true -> (length names <= fuel)%nat ->
  parses (decode_trait fuel (trait_u28 (length names) dynamic))
    (utf8_bytes (default [] c) ++ (names ≫= utf8_bytes)) (mk_trait c dynamic names).
Proof.
  intros Hc Hn Hf. set (u := trait_u28 (length names) dynamic). unfold decode_trait.
  assert (Hu : u = Z.of_nat (length names) * 8 + bool_u8 dynamic * 4 + 1) by done.
  assert (Hd : 0 <= bool_u8 dynamic <= 1) by (destruct dynamic; cbn; lia).
  pose proof (land_bit u 0 ltac:(lia)) as B0. pose proof (land_bit u 1 ltac:(lia)) as B1.
  pose proof (land_bit u 2 ltac:(lia)) as B2.
  change (2 ^ 0) with 1 in B0. change (2 ^ 1) with 2 in B1. change (2 ^ 2) with 4 in B2.
  rewrite Z.div_1_r in B0. replace (u / 2) with (2 * (Z.of_nat (length names) * 2 + bool_u8 dynamic)) in B1 by zdm.
  replace (u / 4) with (bool_u8 dynamic + 2 * Z.of_nat (length names)) in B2 by zdm.
  rewrite Z.odd_mul in B1. rewrite Z.odd_add_mul_2 in B2.
  replace u with (1 + 2 * (Z.of_nat (length names) * 4 + bool_u8 dynamic * 2)) in B0 at 2 by lia.
  rewrite Z.odd_add_mul_2 in B0. cbn in B0, B1. rewrite B0, B1, B2. cbn [negb].
  rewrite Z.shiftr_div_pow2 by lia. replace (u / 2 ^ 3) with (Z.of_nat (length names)) by zdm.
  replace (negb (negb (Z.odd (bool_u8 dynamic)))) with dynamic by (by destruct dynamic).
  eapply parses_bind; [apply parses_utf8_bytes|].
  { destruct c as [c|]; [apply text_key in Hc as [_ Hc]|]; done. }
  eapply parses_then; [apply (parses_collect _ utf8_bytes); [|done]|].
  { intros x Hx. apply parses_utf8_bytes. rewrite forallb_forall in Hn. apply Hn. by apply list_elem_of_In. }
  eapply (parses_bind _ _ [] []); [by apply parses_upd|].
  destruct c as [[|b c]|]; [by apply text_key in Hc as [[] _]|apply parses_ret|apply parses_ret].
Qed.

(** ** Every value *)

Lemma foldl_utf8 (l : list (utf8 * Amf3Value)) : forall buf,
  forallb text (fst <$> l) = true ->
  foldl (fun buf entry => encode_utf8 (fst entry) buf) buf l = buf ++ ((fst <$> l) ≫= utf8_bytes).
Proof.
  induction l as [|[k v] l IH]; intros buf; cbn [foldl fmap list_fmap forallb mbind list_bind fst].
  - by rewrite app_nil_r.
  - intros [Hk Hl]%andb_true_iff. by rewrite encode_utf8_app, IH, <- app_assoc by done.
Qed.

Lemma encode_trait_app c n (entries : list (utf8 * Amf3Value)) buf :
  match c with None => true | Some c => key_text c end = true -> Z.of_nat n < 2 ^ 25 ->
  forallb text (fst <$> take n entries) = true ->
  encode_trait c n entries buf
  = buf ++ size_bytes (trait_u28 n (n <? length entries)%nat) ++
    utf8_bytes (default [] c) ++ ((fst <$> take n entries) ≫= utf8_bytes).
Proof.
  intros Hc Hn Ht. change (2 ^ 25) with 33554432 in Hn. unfold encode_trait. rewrite encode_u28.
  rewrite encode_size_app by (change (2 ^ 28) with 268435456; unfold trait_u28, bool_u8; destruct (n <? _)%nat; lia).
  rewrite encode_utf8_app by (destruct c as [c|]; [apply text_key in Hc as [_ Hc]|]; done).
  by rewrite foldl_utf8, <- !app_assoc by done.
Qed.

Lemma encode_vector_app marker width is_fixed entries buf :
  fits (len_of entries) = true ->
  encode_vector marker width is_fixed entries buf
  = buf ++ byte_of marker :: size_bytes (len_of entries) ++ byte_of (bool_u8 is_fixed) ::
    (entries ≫= be_bytes width).
Proof.
  intros Hf%Z.ltb_lt. unfold encode_vector, write_u8.
  rewrite encode_size_app by (unfold len_of in *; lia).
  assert (F : forall l b, foldl (fun buf entry => buf ++ be_bytes width entry) b l = b ++ (l ≫= be_bytes width)).
  { induction l as [|x l IH]; intros b; cbn [foldl mbind list_bind]; [by rewrite app_nil_r|].
    by rewrite IH, <- app_assoc. }
  by rewrite F, <- !app_assoc.
Qed.

(** A marker, then what the marker's decoder reads. *)
Lemma roundtrips_intro v m bs :
  in_u 8 m -> (forall buf, encode_value v buf = Some (buf ++ byte_of m :: bs)) ->
  (forall fuel, (length bs <= fuel)%nat -> parses (decode_marker fuel (decode_value fuel) m) bs v) ->
  roundtrips v.
Proof.
  intros Hm He Hp. exists (byte_of m :: bs). split; [exact He|]. cbn [length]. split; [lia|].
  intros [|fuel] Hf; [lia|]. cbn [decode_value].
  apply (parses_bind _ _ [byte_of m] _ m); [by apply parses_u8|]. apply Hp. lia.
Qed.

Lemma parses_numbers fuel (read : reader Z) width build is_fixed entries :
  (1 <= width)%nat -> (forall z, z ∈ entries -> parses (on_buf read) (be_bytes width z) z) ->
  fits (len_of entries) = true -> (length entries <= fuel)%nat ->
  parses (decode_vector fuel read build)
    (size_bytes (len_of entries) ++ byte_of (bool_u8 is_fixed) :: (entries ≫= be_bytes width))
    (build is_fixed entries).
Proof.
  intros Hw Hr Hf%Z.ltb_lt Hl. unfold decode_vector. apply amf3_parses_complex; [unfold len_of in *; lia|].
  apply (parses_bind _ _ [byte_of (bool_u8 is_fixed)] _ (bool_u8 is_fixed));
    [apply parses_u8; destruct is_fixed; cbn; unfold in_u; lia|].
  eapply parses_then; [by apply parses_collect|].
  replace (negb (bool_u8 is_fixed =? 0)) with is_fixed by (by destruct is_fixed). apply parses_ret.
Qed.

Lemma forallb_Forall {A} (f : A -> bool) l : forallb f l = true -> Forall (fun x => f x = true) l.
Proof. intros H. apply Forall_forall. intros x Hx. rewrite forallb_forall in H. by apply H, list_elem_of_In. Qed.

Lemma forallb_elem {A} (f : A -> bool) l x : forallb f l = true -> x ∈ l -> f x = true.
Proof. intros H%forallb_Forall Hx. rewrite Forall_forall in H. auto. Qed.

Lemma length_pairs_size {A} (l : list A) n : fits (len_of l) = true -> (n = len_of l) -> 0 <= n < 2 ^ 28.
Proof. unfold fits, len_of. intros H%Z.ltb_lt ->. lia. Qed.

Lemma text_size s : text s = true -> 0 <= len_of s < 2 ^ 28.
Proof. unfold text, fits, len_of. intros [_ H%Z.ltb_lt]%andb_true_iff. lia. Qed.

Lemma integer_roundtrips i : encodable (Integer i) = true -> roundtrips (Integer i).
Proof.
  cbn [encodable]. unfold word. intros H. pose proof H as [H1%Z.leb_le H2%Z.ltb_lt]%andb_true_iff.
  set (u := if 0 <=? i then i else 2 ^ 29 + i).
  assert (0 <= u < 2 ^ 29 /\ (if 2 ^ 28 <=? u then u - 2 ^ 29 else u) = i) as [Hu Hi].
  { subst u. change (2 ^ 29) with 536870912. change (2 ^ 28) with 268435456 in *.
    change (- 2 ^ 28) with (-268435456) in *. zcases; lia. }
  apply (roundtrips_intro _ MARKER_INTEGER (u29_bytes u)); [done| |].
  - intros buf. cbn [encode_value]. rewrite H. fold u. unfold write_u8. by rewrite encode_u29_app, <- app_assoc.
  - intros. eapply parses_then; [by apply parses_u29|]. rewrite Hi. apply parses_ret.
Qed.

(** The three kinds of text. *)
Lemma text_roundtrips s :
  text s = true -> roundtrips (String s) /\ roundtrips (XmlDocument s) /\ roundtrips (Xml s).
Proof.
  intros Ht. pose proof Ht as [Hv _]%andb_true_iff.
  assert (X : forall (f : Z -> decoder Amf3Value) v,
    (forall len, f len = (s <- on_buf (read_utf8 len) ;; se_ret (v s))) ->
    parses (decode_complex_type f) (utf8_bytes s) (v s)).
  { intros f v Hf. apply amf3_parses_complex; [by apply text_size|]. rewrite Hf.
    eapply parses_then; [by apply parses_utf8|apply parses_ret]. }
  split_and!.
  - apply (roundtrips_intro _ MARKER_STRING (utf8_bytes s)); [done| |].
    + intros buf. cbn [encode_value]. unfold write_u8. by rewrite encode_utf8_app, <- app_assoc.
    + intros. eapply parses_then; [by apply parses_utf8_bytes|apply parses_ret].
  - apply (roundtrips_intro _ MARKER_XML_DOCUMENT (utf8_bytes s)); [done| |intros; by apply (X _ XmlDocument)].
    intros buf. cbn [encode_value]. unfold write_u8. by rewrite encode_utf8_app, <- app_assoc.
  - apply (roundtrips_intro _ MARKER_XML (utf8_bytes s)); [done| |intros; by apply (X _ Xml)].
    intros buf. cbn [encode_value]. unfold write_u8. by rewrite encode_utf8_app, <- app_assoc.
Qed.

(** The three vectors of numbers. *)
Lemma vector_roundtrips m width (read : reader Z) build lo hi fx l :
  in_u 8 m -> (1 <= width)%nat ->
  (forall z, lo <= z < hi -> parses (on_buf read) (be_bytes width z) z) ->
  (forall buf, encode_value (build fx l) buf = Some (encode_vector m width fx l buf)) ->
  (forall fuel dv, decode_marker fuel dv m = decode_vector fuel read build) ->
  fits (len_of l) && forallb (word lo hi) l = true -> roundtrips (build fx l).
Proof.
  intros Hm Hw Hr He Hd [Hl Hz]%andb_true_iff.
  eapply (roundtrips_intro _ m); [done| |].
  - intros buf. by rewrite He, encode_vector_app.
  - intros fuel Hf. rewrite length_app in Hf. cbn [length] in Hf. rewrite length_be_each in Hf. rewrite Hd.
    apply parses_numbers; [lia| |done|nia]. intros z Hi. apply Hr.
    pose proof (forallb_elem _ _ _ Hz Hi) as W. unfold word in W. lia.
Qed.

Lemma leaf_roundtrips v :
  match v with
  | Array _ _ | Object _ _ _ | ObjectVector _ _ _ | Dictionary _ _ => True
  | _ => encodable v = true -> roundtrips v
  end.
Proof.
  destruct v as [| |b|i|d|s|s|ms| | |s|bs|fx l|fx l|fx l| |]; try done; intros H;
    try (cbn [encodable] in H; by apply text_roundtrips).
  - apply (roundtrips_intro _ MARKER_UNDEFINED []); [done|done|]. intros; apply parses_ret.
  - apply (roundtrips_intro _ MARKER_NULL []); [done|done|]. intros; apply parses_ret.
  - apply (roundtrips_intro _ (if b then MARKER_TRUE else MARKER_FALSE) []); [by destruct b|done|].
    intros. destruct b; apply parses_ret.
  - by apply integer_roundtrips.
  - apply (roundtrips_intro _ MARKER_DOUBLE (be_bytes 8 d)); [done| |].
    + intros buf. cbn [encode_value]. unfold write_f64, write_u8. by rewrite <- app_assoc.
    + intros. apply andb_true_iff in H as [H1%Z.leb_le H2%Z.ltb_lt].
      eapply parses_then; [by apply parses_f64|apply parses_ret].
  - apply Z.ltb_lt, millis_roundtrip in H as (Hr & Hf & Hm).
    apply (roundtrips_intro _ MARKER_DATE (size_bytes 0 ++ be_bytes 8 (i64_to_f64 ms))); [done| |].
    + intros buf. cbn [encode_value]. unfold write_f64, write_u8. by rewrite encode_size_app, <- !app_assoc.
    + intros. apply (amf3_parses_complex _ 0); [done|]. eapply parses_then; [by apply parses_f64|].
      cbn beta. rewrite Hf, Hm. apply parses_ret.
  - pose proof (length_pairs_size bs _ H eq_refl) as Hn.
    apply (roundtrips_intro _ MARKER_BYTE_ARRAY (size_bytes (len_of bs) ++ bs)); [done| |].
    + intros buf. cbn [encode_value]. unfold write_bytes, write_u8. by rewrite encode_size_app, <- !app_assoc.
    + intros. apply amf3_parses_complex; [done|]. eapply parses_then; [apply parses_vec|apply parses_ret].
  - apply (vector_roundtrips MARKER_INT_VECTOR 4 read_i32 IntVector (- 2 ^ 31) (2 ^ 31)); try done; [lia|].
    intros z Hz. by apply parses_i32.
  - apply (vector_roundtrips MARKER_UINT_VECTOR 4 read_u32 UintVector 0 (2 ^ 32)); try done; [lia|].
    intros z Hz. by apply parses_u32.
  - apply (vector_roundtrips MARKER_DOUBLE_VECTOR 8 read_f64 DoubleVector 0 (2 ^ 64)); try done; [lia|].
    intros z Hz. by apply parses_f64.
Qed.

(** Hypotheses on elements that are encodable give elements that survive. *)
Lemma survive_all {A} (f : A -> bool) (P : A -> Prop) l :
  Forall (fun x => f x = true -> P x) l -> forallb f l = true -> Forall P l.
Proof. intros H Hf%forallb_Forall. rewrite Forall_forall in *. auto. Qed.

Lemma array_roundtrips assoc dense :
  Forall (fun kv => encodable (snd kv) = true -> roundtrips (snd kv)) assoc ->
  Forall (fun v => encodable v = true -> roundtrips v) dense ->
  encodable (Array assoc dense) = true -> roundtrips (Array assoc dense).
Proof.
  cbn [encodable]. intros Ha Hd [[Hn Hk]%andb_true_iff He]%andb_true_iff.
  destruct (amf3_pairs_survive assoc) as (b1 & E1 & L1 & P1).
  { apply (survive_all (fun '(k, v) => key_text k && encodable v)); [|done]. eapply Forall_impl; [exact Ha|].
    intros [k v] Hv [? ?]%andb_true_iff. cbn [fst snd] in *. auto. }
  destruct (each_survives encode_value decode_value dense) as (b2 & E2 & L2 & P2);
    [by apply (survive_all encodable)|].
  pose proof (length_pairs_size dense _ Hn eq_refl) as Hs.
  apply (roundtrips_intro _ MARKER_ARRAY (size_bytes (len_of dense) ++ b1 ++ b2)); [done| |].
  - intros buf. cbn [encode_value]. unfold write_u8. rewrite encode_size_app, E1 by done. cbn.
    by rewrite E2, <- !app_assoc.
  - intros fuel Hf. rewrite !length_app in Hf. apply amf3_parses_complex; [done|].
    eapply parses_bind; [apply P1; lia|]. eapply parses_then; [apply P2; lia|apply parses_ret].
Qed.

Lemma object_roundtrips c n entries :
  Forall (fun kv => encodable (snd kv) = true -> roundtrips (snd kv)) entries ->
  encodable (Object c n entries) = true -> roundtrips (Object c n entries).
Proof.
  cbn [encodable]. intros Hv [[[[Hc Hn%Nat.leb_le]%andb_true_iff Hs%Z.ltb_lt]%andb_true_iff He]%andb_true_iff Hk]%andb_true_iff.
  assert (Ht : Forall (fun kv => text (fst kv) = true /\ roundtrips (snd kv)) entries).
  { apply (survive_all (fun '(k, v) => text k && encodable v)); [|done]. eapply Forall_impl; [exact Hv|].
    intros [k v] H [? ?]%andb_true_iff. cbn [fst snd] in *. auto. }
  destruct (fields_survive n entries) as (b1 & b2 & E & P1 & P2); [|..|done|].
  { eapply Forall_impl; [exact Ht|]. by intros ? []. }
  { apply forallb_Forall in Hk. apply (Forall_drop _ n) in Ht. rewrite Forall_forall in *. intros [k v] Hx.
    specialize (Hk _ Hx). specialize (Ht _ Hx). cbn [fst snd] in *. unfold key_text. apply andb_true_iff. by destruct Ht. }
  assert (Hnames : forallb text (fst <$> take n entries) = true).
  { apply forallb_forall. intros k Hx%list_elem_of_In. apply list_elem_of_fmap in Hx as ([k' v] & -> & Hx).
    apply (Forall_take _ n) in Ht. rewrite Forall_forall in Ht. by apply Ht in Hx as [? _]. }
  set (names := fst <$> take n entries) in *.
  assert (Hl : length names = n) by (unfold names; rewrite length_fmap, length_take; lia).
  set (dynamic := (n <? length entries)%nat) in *.
  apply (roundtrips_intro _ MARKER_OBJECT (size_bytes (trait_u28 n dynamic) ++
    (utf8_bytes (default [] c) ++ (names ≫= utf8_bytes)) ++ b1 ++ b2)); [done| |].
  - intros buf. cbn [encode_value]. unfold write_u8.
    by rewrite encode_trait_app, E, <- !app_assoc by done.
  - intros fuel Hf. rewrite !length_app in Hf. apply amf3_parses_complex.
    { unfold trait_u28. change (2 ^ 25) with 33554432 in Hs. change (2 ^ 28) with 268435456. destruct dynamic; cbn; lia. }
    assert (Hnb : (length names <= length (names ≫= utf8_bytes))%nat).
    { clear. induction names as [|k l IH]; [done|]. cbn. rewrite length_app. pose proof (utf8_bytes_pos k). lia. }
    eapply parses_bind; [rewrite <- Hl; apply (parses_trait _ c names dynamic); [done|done|lia]|].
    cbn [t_fields t_is_dynamic t_class_name].
    eapply parses_bind; [apply P1; lia|].
    eapply parses_then; [apply P2; lia|]. rewrite take_drop, Hl. apply parses_ret.
Qed.

Lemma object_vector_roundtrips c fx entries :
  Forall (fun v => encodable v = true -> roundtrips v) entries ->
  encodable (ObjectVector c fx entries) = true -> roundtrips (ObjectVector c fx entries).
Proof.
  cbn [encodable]. intros Hv [[Hc Hn]%andb_true_iff He]%andb_true_iff.
  destruct (each_survives encode_value decode_value entries) as (b & E & L & P);
    [by apply (survive_all encodable)|].
  pose proof (length_pairs_size entries _ Hn eq_refl) as Hs.
  assert (Ht : text (default star c) = true) by (destruct c; [by apply andb_true_iff in Hc as [? _]|done]).
  apply (roundtrips_intro _ MARKER_OBJECT_VECTOR (size_bytes (len_of entries) ++ [byte_of (bool_u8 fx)] ++
    utf8_bytes (default star c) ++ b)); [done| |].
  - intros buf. cbn [encode_value]. unfold write_u8.
    by rewrite encode_utf8_app, encode_size_app, E, <- !app_assoc by done.
  - intros fuel Hf. rewrite !length_app in Hf. apply amf3_parses_complex; [done|].
    eapply parses_bind; [apply parses_u8; by destruct fx|].
    eapply parses_bind; [by apply parses_utf8_bytes|]. eapply parses_then; [apply P; lia|].
    replace (negb (bool_u8 fx =? 0)) with fx by (by destruct fx).
    assert (Ec : (if bool_decide (default star c = star) then None else Some (default star c)) = c).
    { destruct c as [c|]; [|done]. change (default star (Some c)) with c. apply andb_true_iff in Hc as [_ Hc].
      apply negb_true_iff, bool_decide_eq_false_1 in Hc. by case_bool_decide. }
    cbn beta. rewrite Ec. apply parses_ret.
Qed.

Lemma dictionary_roundtrips w entries :
  Forall (fun kv => (encodable (fst kv) = true -> roundtrips (fst kv)) /\
                    (encodable (snd kv) = true -> roundtrips (snd kv))) entries ->
  encodable (Dictionary w entries) = true -> roundtrips (Dictionary w entries).
Proof.
  cbn [encodable]. intros Hv [Hn He]%andb_true_iff.
  edestruct (each_survives
    (fun entry buf => let '(key, value) := entry in buf ← encode_value key buf; encode_value value buf)
    (fun fuel => key <- decode_value fuel ;; value <- decode_value fuel ;; se_ret (key, value)) entries)
    as (b & E & L & P).
  { apply (survive_all (fun '(k, v) => encodable k && encodable v)); [|done]. eapply Forall_impl; [exact Hv|].
    intros [k v] [Hk Hv'] [Ek Ev]%andb_true_iff. cbn [fst snd] in *.
    destruct (Hk Ek) as (b1 & E1 & L1 & P1), (Hv' Ev) as (b2 & E2 & L2 & P2).
    exists (b1 ++ b2). split; [exact (emits_bind _ _ _ _ E1 E2)|]. rewrite length_app. split; [lia|].
    intros fuel Hf. eapply parses_bind; [apply P1; lia|]. eapply parses_then; [apply P2; lia|apply parses_ret]. }
  pose proof (length_pairs_size entries _ Hn eq_refl) as Hs.
  apply (roundtrips_intro _ MARKER_DICTIONARY (size_bytes (len_of entries) ++ [byte_of (bool_u8 w)] ++ b)); [done| |].
  - intros buf. cbn [encode_value]. unfold write_u8. by rewrite encode_size_app, E, <- !app_assoc by done.
  - intros fuel Hf. rewrite !length_app in Hf. apply amf3_parses_complex; [done|].
    eapply parses_bind; [apply parses_u8; by destruct w|]. eapply parses_then; [apply P; lia|].
    replace (bool_u8 w =? 1) with w by (by destruct w). apply parses_ret.
Qed.

Lemma value_roundtrips v : encodable v = true -> roundtrips v.
Proof.
  revert v. apply (Amf3Value_ind' (fun v => encodable v = true -> roundtrips v)).
  - intros v. pose proof (leaf_roundtrips v) as L. destruct v; exact L.
  - intros. by apply array_roundtrips.
  - intros. by apply object_roundtrips.
  - intros. by apply object_vector_roundtrips.
  - intros. by apply dictionary_roundtrips.
Qed.

Lemma amf3_encode_decode v :
  encodable v = true ->
  exists bs, emits (encode_value v) bs /\ forall rest, decode (bs ++ rest) = Ok (length bs, v).
Proof.
  intros (bs & E & L & P)%value_roundtrips. exists bs. split; [exact E|]. intros rest. unfold decode.
  destruct (P (S (length (bs ++ rest))) ltac:(rewrite length_app; lia) (mk_decoder (bs ++ rest) [] [] [] ∅) rest eq_refl)
    as (d & -> & Hd). cbn in Hd. rewrite Hd, length_app. do 2 f_equal. lia.
Qed.

Lemma amf3_decode_error buf e : decode buf = Err e -> kind e <> InvalidState.
Proof.
  unfold decode. destruct (decode_value _ _) as [d [x|e']] eqn:E; [done|]. intros [= <-].
  eapply (amf3_decode_value_fuel (S (length buf)) (S (length buf)) (S (length buf))); [done|done|..|exact E].
  unfold remaining. cbn. lia.
Qed.

#[export] Instance amf3_codec : AmfCodec Amf3Value := {
  amf_encode := encode_value; amf_decode := decode; amf_encodable := encodable;
  amf_encode_decode := amf3_encode_decode; amf_decode_takes := amf3_decode_takes; amf_decode_error := amf3_decode_error
}.

(** ** Claims *)

(** [C28] AMF3 values survive the wire. A value that AMF3 can carry (29-bit integers,
    28-bit lengths, valid UTF-8, keys that are not empty) is appended to the buffer
    without a panic, and decoding these bytes, whatever follows them, gives the value
    back and the number of bytes it took. *)
Theorem amf3_roundtrip v buf rest :
  encodable v = true ->
  exists bs, encode_value v buf = Some (buf ++ bs) /\ decode (bs ++ rest) = Ok (length bs, v).
Proof. intros (bs & E & D)%amf3_encode_decode. exists bs. split; [apply E|apply D]. Qed.

Lemma amf3_roundtrip_witness :
  exists bs,
    encode_value (Object None 1 [([x61], Integer (-1)); ([x62], Date 1000)]) [x00] = Some ([x00] ++ bs) /\
    decode (bs ++ [xff]) = Ok (length bs, Object None 1 [([x61], Integer (-1)); ([x62], Date 1000)]).
Proof. apply amf3_roundtrip. reflexivity. Defined.
