(* ===== verification/Amf0.v ===== *)
(** * AMF0 values

    Models [crates/protocols/rtmp/core/src/amf0.rs], for any AMF3 codec ([AmfCodec]):
    an AMF0 value may hold an AMF3 value. The decoder keeps a table of the complex
    values it has read, to which the input may refer. The encoder keeps the addresses
    of the complex values it has written, to write a reference for a value it meets
    again; the address of a value is its path from the values that are encoded. The
    recursion of the decoder takes fuel; more than the bytes left changes nothing
    (AmfValue, [amf0_decode_value_fuel]). What a reason prints of a float is left
    out. *)
From Stdlib Require Import Strings.Byte Strings.String Strings.Ascii.
From S2P Require Import Prelude RtmpBytes Amf.

Definition MARKER_NUMBER : Z := 0x00.
Definition MARKER_BOOLEAN : Z := 0x01.
Definition MARKER_STRING : Z := 0x02.
Definition MARKER_OBJECT : Z := 0x03.
Definition MARKER_MOVIECLIP : Z := 0x04.
Definition MARKER_NULL : Z := 0x05.
Definition MARKER_UNDEFINED : Z := 0x06.
Definition MARKER_REFERENCE : Z := 0x07.
Definition MARKER_ECMA_ARRAY : Z := 0x08.
Definition MARKER_OBJECT_END_MARKER : Z := 0x09.
Definition MARKER_STRICT_ARRAY : Z := 0x0A.
Definition MARKER_DATE : Z := 0x0B.
Definition MARKER_LONG_STRING : Z := 0x0C.
Definition MARKER_UNSUPPORTED : Z := 0x0D.
Definition MARKER_RECORDSET : Z := 0x0E.
Definition MARKER_XML_DOCUMENT : Z := 0x0F.
Definition MARKER_TYPED_OBJECT : Z := 0x10.
Definition MARKER_AVMPLUS_OBJECT : Z := 0x11.

(** A [String]. *)
Abbreviation utf8 := (list byte).

Inductive Amf0Value {V3 : Type} : Type :=
| Number (n : Z)
| Boolean (b : bool)
| String (s : utf8)
| Object (class_name : option utf8) (entries : list (utf8 * Amf0Value))
| Null
| Undefined
| EcmaArray (entries : list (utf8 * Amf0Value))
| Array (entries : list Amf0Value)
| Date (unix_time_ms : Z)
| XmlDocument (s : utf8)
| AvmPlus (v : V3).
Arguments Amf0Value : clear implicits.

(** [Amf0Error]. *)
Inductive Amf0Error : Set :=
| UnexpectedEof
| UnsupportedMarker (marker : Z)
| UnsupportedValue (reason : string)
| InvalidUtf8.

Section amf0.
Context {V3 : Type} `{!AmfCodec V3}.
Abbreviation value := (Amf0Value V3).

(** ** Decoder *)

Record Decoder : Type := mk_decoder {
  d_buf : list byte;
  complexes : list value;
  decoding : gset nat
}.

#[global] Instance decoder_buf : HasBuf Decoder := {
  get_buf := d_buf;
  set_buf b s := mk_decoder b (complexes s) (decoding s);
  get_set_buf b s := eq_refl
}.

Definition set_complexes c s : Decoder := mk_decoder (d_buf s) c (decoding s).
Definition set_decoding d s : Decoder := mk_decoder (d_buf s) (complexes s) d.

Abbreviation decoder A := (SE Decoder Error A).

(** The table only grows, so [index] is in range when the value is stored. *)
Definition decode_complex_type (f : decoder value) : decoder value :=
  d <- se_get ;;
  let index := length (complexes d) in
  se_upd (fun d => set_decoding ({[index]} ∪ decoding d) (set_complexes (complexes d ++ [Null]) d)) ;;;
  value <- f ;;
  se_upd (fun d => set_complexes (<[index := value]> (complexes d))
                     (set_decoding (decoding d ∖ {[index]}) d)) ;;;
  se_ret value.

Definition decode_reference : decoder value :=
  index <- on_buf read_u16 ;;
  d <- se_get ;;
  v <- se_of (ok_or (complexes d !! Z.to_nat index)
                (invalid_data ("reference index out of range: " +:+ pretty index))) ;;
  if bool_decide (Z.to_nat index ∈ decoding d)
  then se_err (unsupported ("circular reference at index " +:+ pretty index))
  else se_ret v.

(** [Amf3Value::decode(self.buf)] and the bytes it took. *)
Definition read_amf3 : reader V3 := fun buf =>
  match amf_decode buf with
  | Ok (bytes_read, v) => (drop bytes_read buf, Ok v)
  | Err e => (buf, Err e)
  end.

Definition decode_string : decoder value :=
  len <- on_buf read_u16 ;; s <- on_buf (read_utf8 len) ;; se_ret (String s).
Definition decode_long_string : decoder value :=
  len <- on_buf read_u32 ;; s <- on_buf (read_utf8 len) ;; se_ret (String s).
Definition decode_xml_document : decoder value :=
  len <- on_buf read_u32 ;; s <- on_buf (read_utf8 len) ;; se_ret (XmlDocument s).

Definition decode_date : decoder value :=
  decode_complex_type (
    millis <- on_buf read_f64 ;;
    _ <- on_buf read_u16 ;;
    if is_finite millis then se_ret (Date (millis_of millis))
    else se_err (invalid_data "invalid date: millis must be finite")).

(** [self.buf.first().copied() == Some(MARKER_OBJECT_END_MARKER)]. *)
Definition at_object_end (d : Decoder) : bool :=
  match d_buf d with b :: _ => byte_val b =? MARKER_OBJECT_END_MARKER | [] => false end.

Section decode_step.
Context (fuel : nat) (decode_value : decoder value).

Fixpoint decode_pairs_loop (n : nat) : decoder (list (utf8 * value)) :=
  match n with
  | O => se_err out_of_fuel
  | S n =>
      key_len <- on_buf read_u16 ;;
      key <- on_buf (read_utf8 key_len) ;;
      d <- se_get ;;
      if at_object_end d then _ <- on_buf read_u8 ;; se_ret []
      else
        value <- decode_value ;;
        entries <- decode_pairs_loop n ;;
        se_ret ((key, value) :: entries)
  end.

Definition decode_pairs : decoder (list (utf8 * value)) := decode_pairs_loop fuel.

Definition decode_object : decoder value :=
  decode_complex_type (entries <- decode_pairs ;; se_ret (Object None entries)).

Definition decode_typed_object : decoder value :=
  decode_complex_type (
    len <- on_buf read_u16 ;;
    class_name <- on_buf (read_utf8 len) ;;
    entries <- decode_pairs ;;
    se_ret (Object (Some class_name) entries)).

Definition decode_ecma_array : decoder value :=
  decode_complex_type (
    _ <- on_buf read_u32 ;; entries <- decode_pairs ;; se_ret (EcmaArray entries)).

Definition decode_strict_array : decoder value :=
  decode_complex_type (
    count <- on_buf read_u32 ;; entries <- collect fuel count decode_value ;; se_ret (Array entries)).

Definition decode_marker (marker : Z) : decoder value :=
  if marker =? MARKER_NUMBER then n <- on_buf read_f64 ;; se_ret (Number n)
  else if marker =? MARKER_BOOLEAN then b <- on_buf read_u8 ;; se_ret (Boolean (negb (b =? 0)))
  else if marker =? MARKER_STRING then decode_string
  else if marker =? MARKER_OBJECT then decode_object
  else if marker =? MARKER_NULL then se_ret Null
  else if marker =? MARKER_UNDEFINED then se_ret Undefined
  else if marker =? MARKER_REFERENCE then decode_reference
  else if marker =? MARKER_ECMA_ARRAY then decode_ecma_array
  else if marker =? MARKER_STRICT_ARRAY then decode_strict_array
  else if marker =? MARKER_DATE then decode_date
  else if marker =? MARKER_LONG_STRING then decode_long_string
  else if marker =? MARKER_XML_DOCUMENT then decode_xml_document
  else if marker =? MARKER_TYPED_OBJECT then decode_typed_object
  else if marker =? MARKER_AVMPLUS_OBJECT then v <- on_buf read_amf3 ;; se_ret (AvmPlus v)
  else if (marker =? MARKER_MOVIECLIP) || (marker =? MARKER_RECORDSET) || (marker =? MARKER_UNSUPPORTED)
  then se_err (unsupported ("unsupported AMF0 marker " +:+ pretty marker))
  else se_err (invalid_data ("unexpected AMF0 marker " +:+ pretty marker)).
End decode_step.

Fixpoint decode_value (fuel : nat) : decoder value :=
  match fuel with
  | O => se_err out_of_fuel
  | S fuel => marker <- on_buf read_u8 ;; decode_marker fuel (decode_value fuel) marker
  end.

Definition decode (buf : list byte) : result Error (nat * value) :=
  match decode_value (S (length buf)) (mk_decoder buf [] ∅) with
  | (d, Ok v) => Ok ((length buf - length (d_buf d))%nat, v)
  | (_, Err e) => Err e
  end.

(** ** Errors of a whole payload *)

(** [str::parse::<u8>]. *)
Definition parse_u8 (s : string) : option Z :=
  let digits := fix go (s : string) (acc : Z) : option Z :=
    match s with
    | EmptyString => Some acc
    | String.String c s =>
        let d := Z.of_N (Ascii.N_of_ascii c) - 48 in
        if (0 <=? d) && (d <=? 9) && (acc * 10 + d <=? 255) then go s (acc * 10 + d) else None
    end in
  match s with
  | String.String "+"%char (String.String _ _ as s') => digits s' 0
  | EmptyString => None
  | _ => digits s 0
  end.

(** [rsplit_once(' ')], of which only the second part is used. *)
Fixpoint after_last_space (s : string) : option string :=
  match s with
  | EmptyString => None
  | String.String c s =>
      match after_last_space s with
      | Some r => Some r
      | None => if Ascii.eqb c " "%char then Some s else None
      end
  end.

Definition map_decode_error (error : Error) : Amf0Error :=
  match kind error with
  | InsufficientBuffer => UnexpectedEof
  | InvalidData =>
      match String.index 0 "UTF-8" (reason error) with
      | Some _ => InvalidUtf8
      | None => UnsupportedValue (reason error)
      end
  | RtmpBytes.Unsupported =>
      match s ← after_last_space (reason error); parse_u8 s with
      | Some m => UnsupportedMarker m
      | None => UnsupportedValue (reason error)
      end
  | _ => UnsupportedValue (reason error)
  end.

(** The [while] loop; every turn takes a byte. *)
Fixpoint decode_all_loop (fuel : nat) (payload : list byte) : result Amf0Error (list value) :=
  match payload, fuel with
  | [], _ => Ok []
  | _, O => Err UnexpectedEof
  | _, S fuel =>
      match decode payload with
      | Err e => Err (map_decode_error e)
      | Ok (size, v) => result_map (cons v) (decode_all_loop fuel (drop size payload))
      end
  end.

Definition decode_all (payload : list byte) : result Amf0Error (list value) :=
  decode_all_loop (length payload) payload.

(** ** Encoder *)

(** The path to a value, innermost index first. *)
Definition address : Set := list nat.

Record Encoder : Set := mk_encoder { e_buf : list byte; e_complexes : list address }.

Abbreviation encoding := (Encoder -> option Encoder).

(** A writer on [self.buf]. *)
Definition put (f : list byte -> list byte) (e : Encoder) : Encoder := mk_encoder (f (e_buf e)) (e_complexes e).

(** [iter().position(|&p| p == ptr)]. *)
Fixpoint position (ptr : address) (l : list address) : option nat :=
  match l with
  | [] => None
  | p :: l => if bool_decide (p = ptr) then Some O else S <$> position ptr l
  end.

Definition u16_max : Z := 65535.

Definition encode_complex (ptr : address) (f : encoding) : encoding := fun e =>
  match position ptr (e_complexes e) with
  | Some idx =>
      if Z.of_nat idx <=? u16_max
      then Some (put (fun buf => write_u16 (Z.of_nat idx) (write_u8 MARKER_REFERENCE buf)) e)
      else f e
  | None =>
      if u16_max <? Z.of_nat (length (e_complexes e)) then f e
      else f (mk_encoder (e_buf e) (e_complexes e ++ [ptr]))
  end.

Definition encode_string (s : utf8) (buf : list byte) : list byte :=
  let len := Z.of_nat (length s) in
  write_bytes s
    (if len <=? 0xFFFF then write_u16 len (write_u8 MARKER_STRING buf)
     else write_u32 len (write_u8 MARKER_LONG_STRING buf)).

(** A key or a class name: the length [as u16]. *)
Definition encode_name (s : utf8) (buf : list byte) : list byte :=
  write_bytes s (write_u16 (Z.of_nat (length s)) buf).

(** [for entry in entries], each at its index below [ptr]. *)
Definition encode_indexed {A} (f : address -> A -> encoding) (ptr : address) : nat -> list A -> encoding :=
  fix go i l e :=
    match l with
    | [] => Some e
    | x :: l => e ← f (i :: ptr) x e; go (S i) l e
    end.

Definition encode_pairs (f : address -> value -> encoding) (ptr : address)
    (entries : list (utf8 * value)) : encoding := fun e =>
  e ← encode_indexed (fun a pair e => let '(key, v) := pair in f a v (put (encode_name key) e)) ptr 0 entries e;
  Some (put (fun buf => write_u8 MARKER_OBJECT_END_MARKER (write_u16 0 buf)) e).

Fixpoint encode_value (ptr : address) (v : value) {struct v} : encoding :=
  match v with
  | Object class_name entries =>
      encode_complex ptr (fun e =>
        encode_pairs encode_value ptr entries
          (put (match class_name with
                | Some c => fun buf => encode_name c (write_u8 MARKER_TYPED_OBJECT buf)
                | None => write_u8 MARKER_OBJECT
                end) e))
  | EcmaArray entries =>
      encode_complex ptr (fun e =>
        encode_pairs encode_value ptr entries
          (put (fun buf => write_u32 (Z.of_nat (length entries)) (write_u8 MARKER_ECMA_ARRAY buf)) e))
  | Array entries =>
      encode_complex ptr (fun e =>
        encode_indexed encode_value ptr 0 entries
          (put (fun buf => write_u32 (Z.of_nat (length entries)) (write_u8 MARKER_STRICT_ARRAY buf)) e))
  | Date unix_time_ms =>
      encode_complex ptr (fun e =>
        Some (put (fun buf => write_u16 0 (write_f64 (i64_to_f64 unix_time_ms) (write_u8 MARKER_DATE buf))) e))
  | Number n => fun e => Some (put (fun buf => write_f64 n (write_u8 MARKER_NUMBER buf)) e)
  | Boolean b => fun e => Some (put (fun buf => write_u8 (if b then 1 else 0) (write_u8 MARKER_BOOLEAN buf)) e)
  | String s => fun e => Some (put (encode_string s) e)
  | Null => fun e => Some (put (write_u8 MARKER_NULL) e)
  | Undefined => fun e => Some (put (write_u8 MARKER_UNDEFINED) e)
  | XmlDocument s =>
      fun e => Some (put (fun buf => write_bytes s (write_u32 (Z.of_nat (length s))
                                       (write_u8 MARKER_XML_DOCUMENT buf))) e)
  | AvmPlus v =>
      fun e =>
        buf ← amf_encode v (write_u8 MARKER_AVMPLUS_OBJECT (e_buf e));
        Some (mk_encoder buf (e_complexes e))
  end.

(** [Amf0Value::encode]. *)
Definition encode (v : value) : writer := fun buf =>
  e_buf <$> encode_value [] v (mk_encoder buf []).

Definition encode_all (values : list value) : option (list byte) :=
  e_buf <$> encode_indexed encode_value [] 0 values (mk_encoder [] []).

(** ** What the format can carry *)

Definition name (s : utf8) : bool := utf8_valid s && (Z.of_nat (length s) <=? u16_max).
Definition long (s : utf8) : bool := utf8_valid s && (Z.of_nat (length s) <? 2 ^ 32).

Fixpoint encodable (v : value) : bool :=
  match v with
  | Number n => (0 <=? n) && (n <? 2 ^ 64)
  | Boolean _ | Null | Undefined => true
  | String s | XmlDocument s => long s
  | Object class_name entries =>
      match class_name with None => true | Some c => name c end &&
      forallb (fun '(k, v) => name k && encodable v) entries
  | EcmaArray entries => forallb (fun '(k, v) => name k && encodable v) entries
  | Array entries => (Z.of_nat (length entries) <? 2 ^ 32) && forallb encodable entries
  | Date ms => Z.abs ms <? 2 ^ 53
  | AvmPlus v => amf_encodable v
  end.

(** Nodes of a value. *)
Fixpoint nodes (v : value) : nat :=
  match v with
  | Object _ entries | EcmaArray entries => S (list_sum ((fun '(_, v) => nodes v) <$> entries))
  | Array entries => S (list_sum (nodes <$> entries))
  | _ => 1
  end.
End amf0.

Arguments Decoder : clear implicits.
