(* ===== verification/AmfValue.v ===== *)
(** * AMF values of either version

    Models [crates/protocols/rtmp/core/src/amf.rs]: [AmfVersion], [AmfValue] and the
    accessors that the command decoder uses. The AMF0 codec runs with the AMF3 codec
    of Amf3. *)
From Stdlib Require Import Strings.Byte.
From S2P Require Import Prelude RtmpBytes Amf Amf3 Amf3Roundtrip Amf0.

(** * AMF0: what is written is read back

    The encoder never meets a value twice, so it writes no reference; the decoder
    reads back what it writes. On its own the decoder takes what it reads and is not
    limited by fuel. [AmfValue] of [crates/protocols/rtmp/core/src/amf.rs] joins the
    two versions. *)

Section roundtrip.
Context {V3 : Type} `{!AmfCodec V3}.
Abbreviation value := (Amf0Value V3).
Abbreviation decoder A := (SE (Decoder V3) Error A).

(** ** Decoding takes bytes *)

#[global] Instance decode_complex_type_shrinks k (f : decoder value) :
  Shrinks k f -> Shrinks k (decode_complex_type f).
Proof using Type.
  intros Hf s s' a. unfold decode_complex_type, se_bind, se_get, se_upd, se_ret.
  destruct (f _) as [s1 [v|e]] eqn:E; [|done]. intros [= <- _]. apply Hf in E.
  unfold remaining in *. cbn in *. lia.
Qed.

#[global] Instance read_amf3_shrinks : Shrinks 1 (on_buf (S:=Decoder V3) (read_amf3 (V3:=V3))).
Proof using Type.
  apply shrinks_on_buf. intros p r a. unfold read_amf3. destruct (amf_decode p) as [[n v]|e] eqn:E; [|done].
  intros [= <- _]. apply amf_decode_takes in E. rewrite length_drop. lia.
Qed.

Lemma amf0_decode_pairs_shrinks (dv : decoder value) n : Shrinks 0 dv -> Shrinks 0 (decode_pairs_loop dv n).
Proof using Type. intros Hv. induction n as [|n IH]; cbn [decode_pairs_loop]; apply _. Qed.
#[local] Hint Extern 1 (Shrinks 0 (decode_pairs_loop _ _)) => apply amf0_decode_pairs_shrinks : typeclass_instances.

Lemma amf0_decode_marker_shrinks n (dv : decoder value) m : Shrinks 0 dv -> Shrinks 0 (decode_marker n dv m).
Proof using Type.
  intros Hv. unfold decode_marker, decode_string, decode_long_string, decode_xml_document, decode_date,
    decode_reference, decode_object, decode_typed_object, decode_ecma_array, decode_strict_array, decode_pairs.
  repeat (apply shrinks_if); apply _.
Qed.

#[global] Instance decode_value_shrinks n : Shrinks 1 (decode_value (V3:=V3) n).
Proof using Type.
  induction n as [|n IH]; cbn [decode_value]; [apply _|]. apply shrinks_bind_1; [apply _|].
  intros m. by apply amf0_decode_marker_shrinks, shrinks_0.
Qed.

(** ** Errors *)

#[global] Instance read_amf3_sane : Sane (on_buf (S:=Decoder V3) (read_amf3 (V3:=V3))).
Proof using Type.
  apply sane_on_buf. intros p r e. unfold read_amf3. destruct (amf_decode p) as [[n v]|e'] eqn:E; [done|].
  intros [= _ <-]. by eapply amf_decode_error.
Qed.

#[global] Instance decode_complex_type_sane (f : decoder value) : Sane f -> Sane (decode_complex_type f).
Proof using Type. intros Hf. unfold decode_complex_type. apply _. Qed.

(** ** Fuel beyond the bytes changes nothing *)

Lemma amf0_agree_complex n (f f' : decoder value) :
  agree n f f' -> agree n (decode_complex_type f) (decode_complex_type f').
Proof using Type.
  intros Hf. unfold decode_complex_type. apply agree_bind; [apply agree_refl, _|apply _|]. intros d. cbn zeta.
  apply agree_bind; [apply agree_refl, _|apply _|]. intros _.
  apply agree_bind_keep; [exact Hf|]. intros v. apply _.
Qed.

Lemma amf0_agree_pairs (dv dv' : decoder value) : forall n k k',
  agree n dv dv' -> Shrinks 0 dv -> (n <= k)%nat -> (n <= k')%nat ->
  agree n (decode_pairs_loop dv k) (decode_pairs_loop dv' k').
Proof using Type.
  intros n k. revert n. induction k as [|k IH]; intros n k' Hv Sv H1 H2; [intros s Hs; lia|].
  destruct n as [|n]; [intros s Hs; lia|]. destruct k' as [|k']; [lia|]. cbn [decode_pairs_loop].
  assert (Hv' : agree n dv dv') by (eapply agree_weaken; [exact Hv|lia]).
  apply agree_bind_take; [apply agree_refl, _|apply _|]. intros len.
  apply agree_bind; [apply agree_refl, _|apply _|]. intros key.
  apply agree_bind; [apply agree_refl, _|apply _|]. intros d. apply agree_if; [apply agree_refl, _|].
  apply agree_bind; [exact Hv'|done|]. intros v. apply agree_bind; [|apply _|intros; apply agree_refl, _].
  apply IH; [done|done|lia|lia].
Qed.

Ltac agree0_step :=
  match goal with
  | |- agree _ (decode_complex_type _) _ => apply amf0_agree_complex
  | |- agree _ (decode_pairs_loop _ _) _ => apply amf0_agree_pairs
  | _ => agree_step
  end.

Lemma amf0_agree_marker (dv dv' : decoder value) n k k' m :
  agree n dv dv' -> Shrinks 1 dv -> (n <= k)%nat -> (n <= k')%nat ->
  agree n (decode_marker k dv m) (decode_marker k' dv' m).
Proof using Type.
  intros Hv Sv H1 H2. unfold decode_marker, decode_object, decode_typed_object, decode_ecma_array,
    decode_strict_array, decode_pairs.
  repeat agree0_step.
Qed.

Lemma amf0_decode_value_fuel n : forall k k', (n <= k)%nat -> (n <= k')%nat ->
  agree n (decode_value (V3:=V3) k) (decode_value k').
Proof using Type.
  induction n as [|n IH]; intros k k' H1 H2; [intros s Hs; lia|].
  destruct k as [|k]; [lia|]. destruct k' as [|k']; [lia|]. cbn [decode_value].
  apply agree_bind_take; [apply agree_refl, _|apply _|]. intros m.
  apply amf0_agree_marker; [apply IH; lia|apply _|lia|lia].
Qed.

Lemma amf0_decode_takes buf n (v : value) : decode buf = Ok (n, v) -> (1 <= n <= length buf)%nat.
Proof using Type.
  unfold decode. destruct (Amf0.decode_value _ _) as [d [x|e]] eqn:E; [|done]. intros [= <- <-].
  apply decode_value_shrinks in E. unfold remaining in E. cbn in E. lia.
Qed.

Lemma amf0_decode_all_fuel payload : forall k k', (length payload <= k)%nat -> (length payload <= k')%nat ->
  decode_all_loop (V3:=V3) k payload = decode_all_loop k' payload.
Proof using Type.
  remember (length payload) as n eqn:Hn. revert payload Hn. induction (lt_wf n) as [n _ IH].
  intros [|b payload] -> k k' H1 H2; [by destruct k, k'|]. destruct k as [|k], k' as [|k']; cbn in H1, H2; try lia.
  cbn [decode_all_loop]. destruct (decode (b :: payload)) as [[size v]|e] eqn:E; [|done].
  apply amf0_decode_takes in E. f_equal. eapply IH; [|reflexivity|..]; rewrite length_drop; cbn [length] in *; lia.
Qed.

(** ** The encoder's addresses *)

(** [w] appends [bs] to the buffer when no address in [P] has been seen, and adds
    only addresses in [P]. *)
Definition appends (P : address -> Prop) (w : Encoder -> option Encoder) (bs : list byte) : Prop :=
  forall e, (forall q, q ∈ e_complexes e -> ~ P q) ->
  exists e', w e = Some e' /\ e_buf e' = e_buf e ++ bs /\
    forall q, q ∈ e_complexes e' -> q ∈ e_complexes e \/ P q.

(** A value at [a] and what is inside it; the values below [a] from index [i] on. *)
Definition inside (a q : address) : Prop := a `suffix_of` q.
Definition below (a : address) (i : nat) (q : address) : Prop := exists j, (i <= j)%nat /\ inside (j :: a) q.

Lemma appends_put P f bs : (forall buf, f buf = buf ++ bs) -> appends P (fun e => Some (put f e)) bs.
Proof using Type. intros Hf e _. eexists. split; [reflexivity|]. cbn. split; [apply Hf|auto]. Qed.

Lemma appends_weaken (P Q : address -> Prop) w bs : (forall q, P q -> Q q) -> appends P w bs -> appends Q w bs.
Proof using Type.
  intros H Hw e He. destruct (Hw e) as (e' & E & B & C); [intros q Hq HP; by apply (He q Hq), H|].
  exists e'. split_and!; [done|done|]. intros q Hq. destruct (C q Hq); auto.
Qed.

Lemma appends_seq P Q w1 w2 b1 b2 :
  (forall q, P q -> Q q -> False) -> appends P w1 b1 -> appends Q w2 b2 ->
  appends (fun q => P q \/ Q q) (fun e => e ← w1 e; w2 e) (b1 ++ b2).
Proof using Type.
  intros HPQ H1 H2 e He. destruct (H1 e) as (e1 & -> & B1 & C1).
  { intros q Hq HP. apply (He q Hq). by left. }
  destruct (H2 e1) as (e2 & E2 & B2 & C2).
  { intros q Hq HQ. destruct (C1 q Hq) as [Hq'|HP]; [apply (He q Hq'); by right|by eapply HPQ]. }
  exists e2. cbn. split_and!; [done|by rewrite B2, B1, app_assoc|].
  intros q Hq. destruct (C2 q Hq) as [Hq'|?]; [destruct (C1 q Hq')|]; auto.
Qed.

(** Writing to the buffer first. *)
Lemma appends_after P f w b1 b2 :
  (forall buf, f buf = buf ++ b1) -> appends P w b2 -> appends P (fun e => w (put f e)) (b1 ++ b2).
Proof using Type.
  intros Hf Hw e He. destruct (Hw (put f e) He) as (e' & E & B & C). exists e'. split_and!; [done| |done].
  rewrite B. cbn. by rewrite Hf, app_assoc.
Qed.

Lemma below_inside a i q : below a i q -> inside a q.
Proof using Type. intros (j & _ & H). etrans; [|exact H]. by apply suffix_cons_r. Qed.

Lemma below_step a i q : inside (i :: a) q \/ below a (S i) q -> below a i q.
Proof using Type. intros [H|(j & Hj & H)]; [by exists i|exists j; split; [lia|done]]. Qed.

Lemma below_disjoint a i q : inside (i :: a) q -> below a (S i) q -> False.
Proof using Type.
  intros [k1 E1] (j & Hj & [k2 E2]). rewrite E1 in E2.
  apply (app_inj_2 k1 k2 (i :: a) (j :: a)) in E2 as [_ E]; [|done]. injection E. lia.
Qed.

Lemma below_self a i : ~ below a i a.
Proof using Type.
  intros (j & _ & H). apply suffix_length in H. cbn in H. lia.
Qed.

Lemma position_none ptr l : ptr ∉ l -> position ptr l = None.
Proof using Type.
  induction l as [|p l IH]; [done|]. intros [Hp Hl]%not_elem_of_cons. cbn.
  rewrite bool_decide_eq_false_2 by congruence. by rewrite IH.
Qed.

(** The value itself is new, so it is written out. *)
Lemma appends_complex a f bs : appends (below a 0) f bs -> appends (inside a) (encode_complex a f) bs.
Proof using Type.
  intros Hf e He. unfold encode_complex.
  rewrite position_none by (intros Hq; by apply (He a Hq)).
  assert (Hb : forall q, q ∈ e_complexes e -> ~ below a 0 q) by (intros q Hq HB; by apply (He q Hq), (below_inside _ 0)).
  destruct (u16_max <? _).
  - destruct (Hf e Hb) as (e' & E & B & C). exists e'. split_and!; [done|done|].
    intros q Hq. destruct (C q Hq); [by left|right; by eapply below_inside].
  - destruct (Hf (mk_encoder (e_buf e) (e_complexes e ++ [a]))) as (e' & E & B & C).
    { cbn. intros q [Hq| ->%list_elem_of_singleton]%elem_of_app; [by apply Hb|apply below_self]. }
    exists e'. split_and!; [done|done|]. intros q Hq. destruct (C q Hq) as [Hq'|Hq']; [|right; by eapply below_inside].
    cbn in Hq'. apply elem_of_app in Hq' as [?| ->%list_elem_of_singleton]; [by left|by right].
Qed.

(** ** Reading back *)

(** A value's bytes do not start like the end of an object. *)
Definition starts (bs : list byte) : Prop :=
  exists m t, bs = byte_of m :: t /\ in_u 8 m /\ m <> MARKER_OBJECT_END_MARKER.

Definition survives (v : value) : Prop :=
  exists bs, (forall a, appends (inside a) (encode_value a v) bs) /\ starts bs /\
    forall fuel, (length bs <= fuel)%nat -> parses (decode_value fuel) bs v.

Lemma survives_intro v m bs :
  in_u 8 m -> m <> MARKER_OBJECT_END_MARKER ->
  (forall a, appends (inside a) (encode_value a v) (byte_of m :: bs)) ->
  (forall fuel, (length bs <= fuel)%nat -> parses (decode_marker fuel (decode_value fuel) m) bs v) ->
  survives v.
Proof using Type.
  intros Hm Hn He Hp. exists (byte_of m :: bs). split; [exact He|]. split; [by exists m, bs|].
  intros [|fuel] Hf; [cbn in Hf; lia|]. cbn [decode_value].
  apply (parses_bind _ _ [byte_of m] _ m); [by apply parses_u8|]. apply Hp. cbn in Hf. lia.
Qed.

Lemma amf0_parses_complex (f : decoder value) bs v : parses f bs v -> parses (decode_complex_type f) bs v.
Proof using Type.
  intros Hf. unfold decode_complex_type. apply parses_get. intros d. cbn zeta.
  apply (parses_bind _ _ [] bs tt); [by apply parses_upd|].
  eapply parses_then; [exact Hf|]. eapply (parses_bind _ _ [] []); [by apply parses_upd|apply parses_ret].
Qed.

Definition name_bytes (s : utf8) : list byte := be_bytes 2 (Z.of_nat (length s)) ++ s.

Lemma encode_name_app s buf : encode_name s buf = buf ++ name_bytes s.
Proof using Type. unfold encode_name, write_bytes, write_u16, name_bytes. by rewrite app_assoc. Qed.

Lemma parses_name {A} s (f : utf8 -> decoder A) bs (a : A) :
  name s = true -> parses (f s) bs a ->
  parses (len <- on_buf read_u16 ;; k <- on_buf (read_utf8 len) ;; f k) (name_bytes s ++ bs) a.
Proof using Type.
  unfold name, u16_max. intros [Hv Hl%Z.leb_le]%andb_true_iff Hf. unfold name_bytes. rewrite <- app_assoc.
  eapply parses_bind; [apply parses_u16; unfold in_u; lia|]. eapply parses_bind; [by apply parses_utf8|exact Hf].
Qed.

(** The end of an object is seen exactly when it is there. *)
Lemma parses_peek {A} (m1 m2 : decoder A) b bs (a : A) :
  parses (if byte_val b =? MARKER_OBJECT_END_MARKER then m1 else m2) (b :: bs) a ->
  parses (d <- se_get ;; if at_object_end d then m1 else m2) (b :: bs) a.
Proof using Type.
  intros H s rest E. unfold se_bind, se_get, at_object_end. cbn in E. rewrite E. cbn [app]. by apply H.
Qed.

Lemma starts_peek {A} (m1 m2 : decoder A) bs bs' (a : A) :
  starts bs -> parses m2 (bs ++ bs') a -> parses (d <- se_get ;; if at_object_end d then m1 else m2) (bs ++ bs') a.
Proof using Type.
  intros (m & t & -> & Hm & Hne) H. apply parses_peek. rewrite byte_val_of, Z.mod_small by exact Hm.
  by rewrite (proj2 (Z.eqb_neq _ _)) by done.
Qed.

Definition end_bytes : list byte := be_bytes 2 0 ++ [byte_of MARKER_OBJECT_END_MARKER].

Lemma length_end_bytes : length end_bytes = 3%nat.
Proof using Type. unfold end_bytes. by rewrite length_app, length_be_bytes. Qed.

Lemma amf0_pairs_survive (l : list (utf8 * value)) :
  Forall (fun kv => name (fst kv) = true /\ survives (snd kv)) l ->
  exists bs, (forall a, appends (below a 0) (encode_pairs encode_value a l) bs) /\ (length l < length bs)%nat /\
    forall fuel n, (length bs <= fuel)%nat -> (length l < n)%nat ->
      parses (decode_pairs_loop (decode_value fuel) n) bs l.
Proof using Type.
  intros Hl. enough (exists bs,
    (forall a i, appends (below a i)
       (encode_indexed (fun a pair e => let '(key, v) := pair in encode_value a v (put (encode_name key) e)) a i l) bs) /\
    (length l <= length bs)%nat /\
    forall fuel n, (length bs <= fuel)%nat -> (length l < n)%nat ->
      parses (decode_pairs_loop (decode_value fuel) n) (bs ++ end_bytes) l) as (bs & E & L & P).
  { exists (bs ++ end_bytes). split; [|rewrite length_app, length_end_bytes; split; [lia|]].
    - intros a e He. destruct (E a 0%nat e He) as (e' & E1 & B & C). unfold encode_pairs. rewrite E1. cbn.
      eexists. split; [reflexivity|]. cbn. split; [|exact C]. unfold write_u8, write_u16. by rewrite B, <- !app_assoc.
    - intros fuel n Hf Hn. apply P; lia. }
  induction Hl as [|[k v] l [Hk (b & E & St & P)] _ (bs & Es & L & Ps)].
  { exists []. split; [|split; [done|]].
    - intros a i e He. exists e. split_and!; [done|by rewrite app_nil_r|auto].
    - intros fuel [|n] _ Hn; [lia|]. cbn [decode_pairs_loop]. apply (parses_name [] _ [_]); [done|].
      apply parses_peek. eapply (parses_then _ _ _ MARKER_OBJECT_END_MARKER); [by apply parses_u8|apply parses_ret]. }
  cbn [fst snd] in *. exists (name_bytes k ++ b ++ bs). split; [|split].
  - intros a i. rewrite app_assoc. eapply appends_weaken; [intros q; apply below_step|].
    apply (appends_seq (inside (i :: a)) (below a (S i))); [intros q; apply below_disjoint| |apply Es].
    apply (appends_after _ (encode_name k)); [apply encode_name_app|apply E].
  - rewrite !length_app. destruct St as (m & t & -> & _). cbn [length]. lia.
  - intros fuel [|n] Hf Hn; [lia|]. rewrite !length_app in Hf. cbn [decode_pairs_loop length] in *.
    rewrite <- !app_assoc. apply parses_name; [done|]. apply starts_peek; [done|].
    eapply parses_bind; [apply P; lia|]. eapply parses_then; [apply Ps; lia|apply parses_ret].
Qed.

Lemma entries_survive (l : list value) :
  Forall survives l ->
  exists bs, (forall a i, appends (below a i) (encode_indexed encode_value a i l) bs) /\
    (length l <= length bs)%nat /\
    forall fuel n, (length bs <= fuel)%nat -> (length l <= n)%nat ->
      parses (collect n (Z.of_nat (length l)) (decode_value fuel)) bs l.
Proof using Type.
  induction 1 as [|v l (b & E & St & P) _ (bs & Es & L & Ps)].
  { exists []. split; [|split; [done|intros fuel [|n]; intros; apply parses_ret]].
    intros a i e He. exists e. split_and!; [done|by rewrite app_nil_r|auto]. }
  exists (b ++ bs). split; [|split].
  - intros a i. eapply appends_weaken; [intros q; apply below_step|].
    apply (appends_seq (inside (i :: a)) (below a (Datatypes.S i))); [intros q; apply below_disjoint|apply E|apply Es].
  - rewrite length_app. destruct St as (m & t & -> & _). cbn [length]. lia.
  - intros fuel [|n] Hf Hn; cbn [length] in *; [lia|]. rewrite length_app in Hf. cbn [collect].
    rewrite (proj2 (Z.leb_gt _ _)) by lia. eapply parses_bind; [apply P; lia|].
    replace (Z.of_nat (Datatypes.S (length l)) - 1) with (Z.of_nat (length l)) by lia.
    eapply parses_then; [apply Ps; lia|apply parses_ret].
Qed.

(** ** Every value *)

Section induction.
Context (P : value -> Prop).
Context (H_leaf : forall v, match v with Object _ _ | EcmaArray _ | Array _ => True | _ => P v end).
Context (H_object : forall c entries, Forall (fun kv => P (snd kv)) entries -> P (Object c entries)).
Context (H_ecma : forall entries, Forall (fun kv => P (snd kv)) entries -> P (EcmaArray entries)).
Context (H_array : forall entries, Forall P entries -> P (Array entries)).

Fixpoint Amf0Value_ind' (v : value) : P v :=
  let pairs := fix go (l : list (utf8 * value)) : Forall (fun kv => P (snd kv)) l :=
    match l with
    | [] => Forall_nil_2 _
    | (k, v) :: l => Forall_cons_2 (fun kv => P (snd kv)) (k, v) l (Amf0Value_ind' v) (go l)
    end in
  match v as v return P v with
  | Object c entries => H_object c entries (pairs entries)
  | EcmaArray entries => H_ecma entries (pairs entries)
  | Array entries =>
      H_array entries
        ((fix go l : Forall P l :=
            match l with [] => Forall_nil_2 _ | v :: l => Forall_cons_2 _ _ _ (Amf0Value_ind' v) (go l) end) entries)
  | v => H_leaf v
  end.
End induction.

Lemma all_survive {A} (f : A -> bool) (Q : A -> Prop) l :
  Forall (fun x => f x = true -> Q x) l -> forallb f l = true -> Forall Q l.
Proof using Type.
  intros H Hf. rewrite forallb_forall in Hf. rewrite Forall_forall in *.
  intros x Hx. apply H; [done|]. by apply Hf, list_elem_of_In.
Qed.

Lemma pairs_encodable entries :
  Forall (fun kv => encodable (snd kv) = true -> survives (snd kv)) entries ->
  forallb (fun '(k, v) => name k && encodable v) entries = true ->
  Forall (fun kv => name (fst kv) = true /\ survives (snd kv)) entries.
Proof using Type.
  intros Hv He. eapply all_survive; [|exact He]. eapply Forall_impl; [exact Hv|].
  intros [k v] H [? ?]%andb_true_iff. cbn [fst snd] in *. auto.
Qed.

Lemma long_size s : long s = true -> utf8_valid s = true /\ in_u 32 (Z.of_nat (length s)).
Proof using Type.
  unfold long. intros [? H%Z.ltb_lt]%andb_true_iff. split; [done|]. unfold in_u. split; [lia|exact H].
Qed.

Lemma object_survives c entries :
  Forall (fun kv => encodable (snd kv) = true -> survives (snd kv)) entries ->
  encodable (Object c entries) = true -> survives (Object c entries).
Proof using Type.
  cbn [encodable]. intros Hv [Hc He]%andb_true_iff.
  destruct (amf0_pairs_survive entries (pairs_encodable _ Hv He)) as (b & E & L & P). destruct c as [c|].
  - apply (survives_intro _ MARKER_TYPED_OBJECT (name_bytes c ++ b)); [done|done| |].
    + intros a. cbn [encode_value]. apply appends_complex.
      apply (appends_after _ (fun buf => encode_name c (write_u8 MARKER_TYPED_OBJECT buf))
               _ (byte_of MARKER_TYPED_OBJECT :: name_bytes c)); [|apply E].
      intros buf. unfold write_u8. by rewrite encode_name_app, <- app_assoc.
    + intros fuel Hf. rewrite length_app in Hf. apply amf0_parses_complex, parses_name; [done|].
      eapply parses_then; [apply P; lia|apply parses_ret].
  - apply (survives_intro _ MARKER_OBJECT b); [done|done| |].
    + intros a. cbn [encode_value]. apply appends_complex.
      by apply (appends_after _ (write_u8 MARKER_OBJECT) _ [byte_of MARKER_OBJECT]); [|apply E].
    + intros fuel Hf. apply amf0_parses_complex. eapply parses_then; [apply P; lia|apply parses_ret].
Qed.

Lemma ecma_survives entries :
  Forall (fun kv => encodable (snd kv) = true -> survives (snd kv)) entries ->
  encodable (EcmaArray entries) = true -> survives (EcmaArray entries).
Proof using Type.
  cbn [encodable]. intros Hv He.
  destruct (amf0_pairs_survive entries (pairs_encodable _ Hv He)) as (b & E & L & P).
  set (n := Z.of_nat (length entries)).
  apply (survives_intro _ MARKER_ECMA_ARRAY (be_bytes 4 n ++ b)); [done|done| |].
  - intros a. cbn [encode_value]. apply appends_complex.
    apply (appends_after _ (fun buf => write_u32 n (write_u8 MARKER_ECMA_ARRAY buf))
             _ (byte_of MARKER_ECMA_ARRAY :: be_bytes 4 n)); [|apply E].
    intros buf. unfold write_u32, write_u8. by rewrite <- app_assoc.
  - intros fuel Hf. rewrite length_app in Hf. apply amf0_parses_complex. eapply parses_bind.
    + apply parses_read. intros rest. unfold read_u32. by rewrite read_fixed_app by apply length_be_bytes.
    + eapply parses_then; [apply P; lia|apply parses_ret].
Qed.

Lemma array_survives entries :
  Forall (fun v => encodable v = true -> survives v) entries ->
  encodable (Array entries) = true -> survives (Array entries).
Proof using Type.
  cbn [encodable]. intros Hv [Hn%Z.ltb_lt He]%andb_true_iff.
  destruct (entries_survive entries (all_survive _ _ _ Hv He)) as (b & E & L & P).
  set (n := Z.of_nat (length entries)) in *.
  apply (survives_intro _ MARKER_STRICT_ARRAY (be_bytes 4 n ++ b)); [done|done| |].
  - intros a. cbn [encode_value]. apply appends_complex.
    apply (appends_after _ (fun buf => write_u32 n (write_u8 MARKER_STRICT_ARRAY buf))
             _ (byte_of MARKER_STRICT_ARRAY :: be_bytes 4 n)); [|apply E].
    intros buf. unfold write_u32, write_u8. by rewrite <- app_assoc.
  - intros fuel Hf. rewrite length_app in Hf. apply amf0_parses_complex.
    eapply parses_bind; [apply parses_u32; unfold in_u; split; [lia|exact Hn]|].
    eapply parses_then; [apply P; lia|apply parses_ret].
Qed.

Lemma string_survives s : long s = true -> survives (String s).
Proof using Type.
  intros [Hv Hl]%long_size. destruct (Z.leb_spec (Z.of_nat (length s)) 0xFFFF) as [Hs|Hs].
  - apply (survives_intro _ MARKER_STRING (name_bytes s)); [done|done| |].
    + intros a. apply appends_put. intros buf. unfold encode_string. rewrite (proj2 (Z.leb_le _ _)) by done.
      unfold name_bytes, write_bytes, write_u16, write_u8. by rewrite <- !app_assoc.
    + intros fuel Hf. rewrite <- (app_nil_r (name_bytes s)). apply parses_name; [|apply parses_ret].
      unfold name, u16_max. rewrite Hv. by apply Z.leb_le.
  - apply (survives_intro _ MARKER_LONG_STRING (be_bytes 4 (Z.of_nat (length s)) ++ s)); [done|done| |].
    + intros a. apply appends_put. intros buf. unfold encode_string. rewrite (proj2 (Z.leb_gt _ _)) by done.
      unfold write_bytes, write_u32, write_u8. by rewrite <- !app_assoc.
    + intros fuel Hf. eapply parses_bind; [by apply parses_u32|].
      eapply parses_then; [by apply parses_utf8|apply parses_ret].
Qed.

Lemma leaf_survives v :
  match v with Object _ _ | EcmaArray _ | Array _ => True | _ => encodable v = true -> survives v end.
Proof using Type.
  destruct v as [n|b|s| | | | | |ms|s|v]; try done; intros H; cbn [encodable] in H.
  - apply (survives_intro _ MARKER_NUMBER (be_bytes 8 n)); [done|done| |].
    + intros a. apply appends_put. intros buf. unfold write_f64, write_u8. by rewrite <- app_assoc.
    + intros. apply andb_true_iff in H as [? ?]. eapply parses_then; [apply parses_f64; unfold in_u; lia|apply parses_ret].
  - apply (survives_intro _ MARKER_BOOLEAN [byte_of (if b then 1 else 0)]); [done|done| |].
    + intros a. apply appends_put. intros buf. unfold write_u8. by rewrite <- app_assoc.
    + intros. eapply parses_then; [apply parses_u8; by destruct b|]. destruct b; apply parses_ret.
  - by apply string_survives.
  - apply (survives_intro _ MARKER_NULL []); [done|done| |intros; apply parses_ret].
    intros a. by apply appends_put.
  - apply (survives_intro _ MARKER_UNDEFINED []); [done|done| |intros; apply parses_ret].
    intros a. by apply appends_put.
  - apply Z.ltb_lt, millis_roundtrip in H as (Hr & Hf & Hm).
    apply (survives_intro _ MARKER_DATE (be_bytes 8 (i64_to_f64 ms) ++ be_bytes 2 0)); [done|done| |].
    + intros a. apply appends_complex, appends_put. intros buf. unfold write_u16, write_f64, write_u8. by rewrite <- !app_assoc.
    + intros. apply amf0_parses_complex. eapply parses_bind; [by apply parses_f64|].
      eapply parses_then; [by apply parses_u16|]. rewrite Hf, Hm. apply parses_ret.
  - apply long_size in H as [Hv Hl].
    apply (survives_intro _ MARKER_XML_DOCUMENT (be_bytes 4 (Z.of_nat (length s)) ++ s)); [done|done| |].
    + intros a. apply appends_put. intros buf. unfold write_bytes, write_u32, write_u8. by rewrite <- !app_assoc.
    + intros fuel Hf. eapply parses_bind; [by apply parses_u32|].
      eapply parses_then; [by apply parses_utf8|apply parses_ret].
  - destruct (amf_encode_decode v H) as (bs & E & D).
    apply (survives_intro _ MARKER_AVMPLUS_OBJECT bs); [done|done| |].
    + intros a e He. cbn [encode_value]. rewrite E. eexists. split; [reflexivity|]. cbn.
      unfold write_u8. rewrite <- app_assoc. auto.
    + intros fuel Hf. eapply parses_then; [|apply parses_ret]. apply parses_read. intros rest.
      unfold read_amf3. by rewrite D, drop_app_length.
Qed.

Lemma amf0_value_survives v : encodable v = true -> survives v.
Proof using Type.
  revert v. apply (Amf0Value_ind' (fun v => encodable v = true -> survives v)).
  - intros v. pose proof (leaf_survives v) as L. destruct v; exact L.
  - intros. by apply object_survives.
  - intros. by apply ecma_survives.
  - intros. by apply array_survives.
Qed.

Lemma survives_decode v bs rest :
  (forall fuel, (length bs <= fuel)%nat -> parses (decode_value fuel) bs v) ->
  decode (bs ++ rest) = Ok (length bs, v).
Proof using Type.
  intros P. unfold decode.
  destruct (P (Datatypes.S (length (bs ++ rest))) ltac:(rewrite length_app; lia)
    (mk_decoder (bs ++ rest) [] ∅) rest eq_refl) as (d & -> & Hd).
  cbn in Hd. rewrite Hd, length_app. do 2 f_equal. lia.
Qed.

Lemma amf0_encode_decode v :
  encodable v = true ->
  exists bs, emits (encode v) bs /\ forall rest, decode (bs ++ rest) = Ok (length bs, v).
Proof using Type.
  intros (bs & E & _ & P)%amf0_value_survives. exists bs. split; [|intros rest; by apply survives_decode].
  intros buf. unfold encode.
  destruct (E [] (mk_encoder buf [])) as (e' & -> & B & _); [by intros q ?%elem_of_nil|]. cbn in *. by rewrite B.
Qed.

Lemma amf0_decode_error buf e : decode (V3:=V3) buf = Err e -> kind e <> InvalidState.
Proof using Type.
  unfold decode. destruct (Amf0.decode_value _ _) as [d [x|e']] eqn:E; [done|]. intros [= <-].
  eapply (amf0_decode_value_fuel (Datatypes.S (length buf)) (Datatypes.S (length buf)) (Datatypes.S (length buf)));
    [done|done|..|exact E]. unfold remaining. cbn. lia.
Qed.

#[global] Instance amf0_codec : AmfCodec value := {
  amf_encode := encode; amf_decode := decode; amf_encodable := encodable;
  amf_encode_decode := amf0_encode_decode; amf_decode_takes := amf0_decode_takes; amf_decode_error := amf0_decode_error
}.

(** ** Payloads *)

Lemma all_decode (l : list value) :
  Forall survives l ->
  exists bs, (forall i, appends (below [] i) (encode_indexed encode_value [] i l) bs) /\
    forall fuel, (length bs <= fuel)%nat -> decode_all_loop fuel bs = Ok l.
Proof using Type.
  induction 1 as [|v l (b & E & St & P) _ (bs & Es & Ds)].
  { exists []. split; [|by intros [|fuel]]. intros i e He. exists e. split_and!; [done|by rewrite app_nil_r|auto]. }
  exists (b ++ bs). split.
  - intros i. eapply appends_weaken; [intros q; apply below_step|].
    apply (appends_seq (inside [i]) (below [] (Datatypes.S i))); [intros q; apply below_disjoint|apply E|apply Es].
  - pose proof (survives_decode v b bs P) as D. destruct St as (m & t & -> & _). intros [|fuel]; cbn [length app]; [lia|].
    rewrite length_app. intros Hf. cbn [decode_all_loop app] in *. rewrite D.
    change (drop _ _) with (drop (length (byte_of m :: t)) ((byte_of m :: t) ++ bs)).
    by rewrite drop_app_length, Ds by lia.
Qed.

Lemma payload_roundtrip (values : list value) :
  forallb encodable values = true ->
  exists payload, encode_all values = Some payload /\ decode_all payload = Ok values.
Proof using Type.
  intros H. destruct (all_decode values) as (bs & E & D).
  { apply (all_survive encodable); [|done]. apply Forall_forall. intros v _. apply amf0_value_survives. }
  exists bs. split; [|by apply D]. unfold encode_all.
  destruct (E 0%nat (mk_encoder [] [])) as (e & -> & B & _); [by intros q ?%elem_of_nil|]. cbn in *. by rewrite B.
Qed.
End roundtrip.

(** * AMF values of either version *)

Inductive AmfVersion : Set := VAmf0 | VAmf3.

Abbreviation Amf0V := (Amf0Value Amf3Value).

Inductive AmfValue : Type :=
| OfAmf0 (v : Amf0V)
| OfAmf3 (v : Amf3Value).

Definition version_of (v : AmfValue) : AmfVersion :=
  match v with OfAmf0 _ => VAmf0 | OfAmf3 _ => VAmf3 end.

Definition decode (version : AmfVersion) (buf : list byte) : result Error (nat * AmfValue) :=
  match version with
  | VAmf0 => result_map (fun '(n, v) => (n, OfAmf0 v)) (Amf0.decode buf)
  | VAmf3 => result_map (fun '(n, v) => (n, OfAmf3 v)) (Amf3.decode buf)
  end.

Definition encode (v : AmfValue) : writer :=
  match v with OfAmf0 x => Amf0.encode x | OfAmf3 x => Amf3.encode_value x end.

Definition encodable (v : AmfValue) : bool :=
  match v with OfAmf0 x => Amf0.encodable x | OfAmf3 x => Amf3.encodable x end.

(** [iter().rfind(|pair| pair.key == key)]. *)
Fixpoint rfind {V} (key : list byte) (entries : list (list byte * V)) : option V :=
  match entries with
  | [] => None
  | (k, v) :: rest =>
      match rfind key rest with
      | Some w => Some w
      | None => if bool_decide (k = key) then Some v else None
      end
  end.

(** [AmfValueRef] borrows; here it is the value. The reason names the key. *)
Definition expect_object_member (key : list byte) (v : AmfValue) : result Error AmfValue :=
  let missing := invalid_data "missing required key" in
  match v with
  | OfAmf0 (Amf0.Object _ entries) => ok_or (OfAmf0 <$> rfind key entries) missing
  | OfAmf3 (Amf3.Object _ _ entries) => ok_or (OfAmf3 <$> rfind key entries) missing
  | _ => Err (invalid_data "value is not an AMF object")
  end.

Definition expect_str (v : AmfValue) : result Error (list byte) :=
  match v with
  | OfAmf0 (Amf0.String s) | OfAmf3 (Amf3.String s) => Ok s
  | _ => Err (invalid_data "value is not an AMF string")
  end.

(** The number as the bits of an [f64]. *)
Definition expect_number (v : AmfValue) : result Error Z :=
  match v with
  | OfAmf0 (Amf0.Number n) | OfAmf3 (Amf3.Double n) => Ok n
  | OfAmf3 (Amf3.Integer n) => Ok (i64_to_f64 n)
  | _ => Err (invalid_data "value is not an AMF number")
  end.

(** The version is not on the wire: the reader must know it. *)
Lemma value_survives v :
  encodable v = true ->
  exists bs, emits (encode v) bs /\ forall rest, decode (version_of v) (bs ++ rest) = Ok (length bs, v).
Proof.
  destruct v as [v|v]; cbn [encodable encode version_of decode]; intros H.
  - destruct (amf0_encode_decode v H) as (bs & E & D). exists bs. split; [exact E|]. intros rest. by rewrite D.
  - destruct (Amf3Roundtrip.amf3_encode_decode v H) as (bs & E & D). exists bs. split; [exact E|]. intros rest. by rewrite D.
Qed.

(** A value takes at least one byte, and no more than there are. *)
Lemma amf_decode_shrinks version buf n v : decode version buf = Ok (n, v) -> (1 <= n <= length buf)%nat.
Proof.
  pose proof (amf_decode_takes (V:=Amf0V) buf) as T0. pose proof (amf_decode_takes (V:=Amf3Value) buf) as T3.
  cbn in *. destruct version; cbn [decode].
  - destruct (Amf0.decode buf) as [[k w]|e]; cbn; [|done]. intros [= <- _]. eauto.
  - destruct (Amf3.decode buf) as [[k w]|e]; cbn; [|done]. intros [= <- _]. eauto.
Qed.

(** The fuel is never what ends it. *)
Lemma amf_decode_kind version buf e : decode version buf = Err e -> kind e <> InvalidState.
Proof.
  pose proof (amf_decode_error (V:=Amf0V) buf) as T0. pose proof (amf_decode_error (V:=Amf3Value) buf) as T3.
  cbn in *. destruct version; cbn [decode].
  - destruct (Amf0.decode buf) as [[k w]|x]; cbn; [done|]. intros [= <-]. eauto.
  - destruct (Amf3.decode buf) as [[k w]|x]; cbn; [done|]. intros [= <-]. eauto.
Qed.

(** ** What the decoders accept *)

(** Arrays that each hold the one before twice, by reference, inside an array of [n]. *)
Definition doubling (n : nat) : list byte :=
  byte_of MARKER_STRICT_ARRAY :: be_bytes 4 (Z.of_nat (S n)) ++
  (byte_of MARKER_STRICT_ARRAY :: be_bytes 4 0) ++
  (seq 1 n ≫= fun i =>
     byte_of MARKER_STRICT_ARRAY :: be_bytes 4 2 ++
     (byte_of MARKER_REFERENCE :: be_bytes 2 (Z.of_nat i)) ++
     (byte_of MARKER_REFERENCE :: be_bytes 2 (Z.of_nat i))).

(** A reference is a copy, so the value grows by a factor for every few bytes. *)
Example references_double :
  length (doubling 10) = 120%nat /\
  match Amf0.decode (V3:=Amf3Value) (doubling 10) with
  | Ok (_, v) => (2 ^ 11 <? nodes v)%nat | Err _ => false
  end = true.
Proof. vm_compute. split; reflexivity. Qed.

(** The reason of a circular reference ends in a number, which is taken for a marker. *)
Example circular_reference_is_reported_as_marker :
  decode_all (V3:=Amf3Value) [x0a; x00; x00; x00; x01; x07; x00; x00] = Err (UnsupportedMarker 0).
Proof. vm_compute. reflexivity. Qed.

(** ** Claims *)

(** [C26] AMF0 payloads survive the wire. Values that AMF0 can carry (names of at most
    65535 bytes, valid UTF-8, dates of 53 bits, AMF3 values that AMF3 can carry) are
    encoded without a panic, and decoding the payload gives the list back. The
    encoder never takes one value for another it has written. *)
Theorem amf0_roundtrip (values : list Amf0V) :
  forallb Amf0.encodable values = true ->
  exists payload, encode_all values = Some payload /\ decode_all payload = Ok values.
Proof. apply payload_roundtrip. Qed.

Lemma amf0_roundtrip_witness :
  exists payload,
    encode_all [Amf0.String [x61] : Amf0V; Amf0.Object None [([x62], Amf0.AvmPlus (Amf3.Integer 3))]] = Some payload /\
    decode_all payload
    = Ok [Amf0.String [x61] : Amf0V; Amf0.Object None [([x62], Amf0.AvmPlus (Amf3.Integer 3))]].
Proof. apply amf0_roundtrip. reflexivity. Defined.

(** [C27] Decoding untrusted AMF ends. On any payload the loop over its values and the
    recursion into each, AMF0 or AMF3, have the result that any larger amount of fuel
    gives, and it is a value or an error about the input; a value takes at least one
    byte and no more than there are. *)
Theorem amf_decode_terminates (payload : list byte) (version : AmfVersion) :
  (forall fuel, (length payload <= fuel)%nat ->
     decode_all_loop (V3:=Amf3Value) fuel payload = decode_all payload) /\
  (forall fuel, (length payload < fuel)%nat ->
     Amf0.decode_value (V3:=Amf3Value) fuel (Amf0.mk_decoder payload [] ∅)
     = Amf0.decode_value (S (length payload)) (Amf0.mk_decoder payload [] ∅) /\
     Amf3.decode_value fuel (Amf3.mk_decoder payload [] [] [] ∅)
     = Amf3.decode_value (S (length payload)) (Amf3.mk_decoder payload [] [] [] ∅)) /\
  match decode version payload with
  | Ok (n, _) => (1 <= n <= length payload)%nat
  | Err e => kind e <> InvalidState
  end.
Proof.
  split; [intros; by apply amf0_decode_all_fuel|]. split.
  - intros fuel Hf. split.
    + apply (amf0_decode_value_fuel (S (length payload))); [lia|lia|]. unfold remaining. cbn. lia.
    + apply (Amf3Roundtrip.amf3_decode_value_fuel (S (length payload))); [lia|lia|]. unfold remaining. cbn. lia.
  - destruct (decode version payload) as [[n v]|e] eqn:E; [by eapply amf_decode_shrinks|by eapply amf_decode_kind].
Qed.
