(* ===== verification/RtmpUserControl.v ===== *)
(** * RTMP user control events

    Models [crates/protocols/rtmp/core/src/user_control.rs]: the payload of a
    [UserControl] message, a 16-bit event type followed by one or two 32-bit
    fields. *)
From Stdlib Require Import Strings.Byte.
From S2P Require Import Prelude RtmpBytes RtmpTypes.

(** ** Events *)

Definition EVENT_STREAM_BEGIN : Z := 0.
Definition EVENT_STREAM_EOF : Z := 1.
Definition EVENT_STREAM_DRY : Z := 2.
Definition EVENT_SET_BUFFER_LENGTH : Z := 3.
Definition EVENT_STREAM_IS_RECORDED : Z := 4.
Definition EVENT_PING_REQUEST : Z := 6.
Definition EVENT_PING_RESPONSE : Z := 7.
Definition EVENT_BUFFER_EMPTY : Z := 31.
Definition EVENT_BUFFER_READY : Z := 32.

Inductive RtmpUserControlEvent : Type :=
| StreamBegin (stream_id : Z)
| StreamEof (stream_id : Z)
| StreamDry (stream_id : Z)
| SetBufferLength (stream_id length : Z)
| StreamIsRecorded (stream_id : Z)
| PingRequest (timestamp : RtmpTimestamp)
| PingResponse (timestamp : RtmpTimestamp)
| BufferEmpty (stream_id : Z)
| BufferReady (stream_id : Z).

(** The fields are [u32]s. *)
Definition event_wf (e : RtmpUserControlEvent) : Prop :=
  match e with
  | SetBufferLength i n => in_u 32 i /\ in_u 32 n
  | StreamBegin v | StreamEof v | StreamDry v | StreamIsRecorded v
  | PingRequest v | PingResponse v | BufferEmpty v | BufferReady v => in_u 32 v
  end.

Definition event_name (e : RtmpUserControlEvent) : string :=
  match e with
  | StreamBegin _ => "StreamBegin"
  | StreamEof _ => "StreamEof"
  | StreamDry _ => "StreamDry"
  | SetBufferLength _ _ => "SetBufferLength"
  | StreamIsRecorded _ => "StreamIsRecorded"
  | PingRequest _ => "PingRequest"
  | PingResponse _ => "PingResponse"
  | BufferEmpty _ => "BufferEmpty"
  | BufferReady _ => "BufferReady"
  end.

(** ** Encoding *)

Definition encode_event (e : RtmpUserControlEvent) (buf : list byte) : list byte :=
  match e with
  | StreamBegin i => write_u32 i (write_u16 EVENT_STREAM_BEGIN buf)
  | StreamEof i => write_u32 i (write_u16 EVENT_STREAM_EOF buf)
  | StreamDry i => write_u32 i (write_u16 EVENT_STREAM_DRY buf)
  | SetBufferLength i n => write_u32 n (write_u32 i (write_u16 EVENT_SET_BUFFER_LENGTH buf))
  | StreamIsRecorded i => write_u32 i (write_u16 EVENT_STREAM_IS_RECORDED buf)
  | PingRequest t => write_u32 t (write_u16 EVENT_PING_REQUEST buf)
  | PingResponse t => write_u32 t (write_u16 EVENT_PING_RESPONSE buf)
  | BufferEmpty i => write_u32 i (write_u16 EVENT_BUFFER_EMPTY buf)
  | BufferReady i => write_u32 i (write_u16 EVENT_BUFFER_READY buf)
  end.

(** ** Decoding *)

Definition decode_event : reader RtmpUserControlEvent :=
  event_type <- read_u16 ;;
  match event_type with
  | 0 => i <- read_u32 ;; se_ret (StreamBegin i)
  | 1 => i <- read_u32 ;; se_ret (StreamEof i)
  | 2 => i <- read_u32 ;; se_ret (StreamDry i)
  | 3 => i <- read_u32 ;; n <- read_u32 ;; se_ret (SetBufferLength i n)
  | 4 => i <- read_u32 ;; se_ret (StreamIsRecorded i)
  | 6 => t <- read_u32 ;; se_ret (PingRequest t)
  | 7 => t <- read_u32 ;; se_ret (PingResponse t)
  | 31 => i <- read_u32 ;; se_ret (BufferEmpty i)
  | 32 => i <- read_u32 ;; se_ret (BufferReady i)
  | _ => se_err (invalid_data ("unknown user control event type: " +:+ pretty event_type))
  end.

(** The method takes the slice by value. *)
Definition decode_user_control (buf : list byte) : result Error RtmpUserControlEvent :=
  snd (decode_event buf).

(** An event is read back, whatever follows. *)
Lemma user_control_reads e tail :
  event_wf e -> decode_user_control (encode_event e [] ++ tail) = Ok e.
Proof.
  intros H. unfold decode_user_control, decode_event, encode_event.
  destruct e; cbn [event_wf] in H; try match type of H with _ /\ _ => destruct H as [H H'] end;
    unfold write_u32, write_u16; rewrite app_nil_l, <- !app_assoc;
    unfold se_bind at 1; rewrite read_u16_write by done;
    cbv beta match delta [EVENT_STREAM_BEGIN EVENT_STREAM_EOF EVENT_STREAM_DRY
      EVENT_SET_BUFFER_LENGTH EVENT_STREAM_IS_RECORDED EVENT_PING_REQUEST EVENT_PING_RESPONSE
      EVENT_BUFFER_EMPTY EVENT_BUFFER_READY];
    unfold se_bind; rewrite (read_u32_write _ _ H); try done.
  by rewrite (read_u32_write _ _ H').
Qed.

(** ** Claims *)

(** The wire format of user control events, both ways: a payload decodes to
    [e] exactly when it starts with the encoding of [e] (so every event survives
    the wire, whatever bytes follow it, and nothing else is taken for it). *)
Theorem user_control_wire buf e :
  decode_user_control buf = Ok e <-> event_wf e /\ exists tail, buf = encode_event e [] ++ tail.
Proof.
  unfold decode_user_control, decode_event. split.
  - unfold se_bind at 1. destruct (read_u16 buf) as [b1 [ty|x]] eqn:E; [|done].
    apply read_u16_split in E as [Hty ->]. unfold se_bind, se_ret, se_err.
    intros H. destruct (read_u32 b1) as [b2 [v|x]] eqn:E2; repeat case_match; simplify_eq/=.
    all: repeat match goal with
         | E : read_u32 _ = (_, Ok _) |- _ => apply read_u32_split in E as [? ->]
         end.
    all: split; [done|]; by eexists.
  - intros [H [tail ->]]. by apply user_control_reads.
Qed.
