(* ===== verification/Codecs.v ===== *)
(** * Codec identifiers

    Models [MediaKind] and [CodecId] of
    [crates/foundation/cheetah-codec/src/track.rs] and the RTMP identifiers of
    [compat.rs]: legacy codec ids, with their standard and domestic meaning, and
    the FourCCs of Enhanced RTMP. *)
From Stdlib Require Import Strings.Byte.
From S2P Require Import Prelude RtmpBytes.

Inductive MediaKind : Set := Video | Audio | Data | Subtitle.

#[export] Instance MediaKind_eq_dec : EqDecision MediaKind.
Proof. solve_decision. Defined.

Inductive CodecId : Set :=
| H264 | H265 | H266 | AV1 | VP8 | VP9 | MJPEG
| AAC | ADPCM | Opus | G711A | G711U | MP2 | MP3 | WebVtt | UnknownCodec.

#[export] Instance CodecId_eq_dec : EqDecision CodecId.
Proof. solve_decision. Defined.

Definition RTMP_AUDIO_CODEC_ID_ADPCM : Z := 1.
Definition RTMP_AUDIO_CODEC_ID_MP3 : Z := 2.
Definition RTMP_VIDEO_CODEC_ID_H264 : Z := 7.
Definition RTMP_AUDIO_CODEC_ID_G711A : Z := 7.
Definition RTMP_AUDIO_CODEC_ID_G711U : Z := 8.
Definition RTMP_AUDIO_CODEC_ID_AAC : Z := 10.
Definition RTMP_VIDEO_CODEC_ID_H265 : Z := 12.
Definition RTMP_VIDEO_CODEC_ID_AV1 : Z := 13.
Definition RTMP_AUDIO_CODEC_ID_OPUS : Z := 13.
Definition RTMP_VIDEO_CODEC_ID_H266 : Z := 14.
Definition RTMP_VIDEO_CODEC_ID_VP9 : Z := 16.
Definition DOMESTIC_VIDEO_CODEC_ID_H265 : Z := 12.
Definition DOMESTIC_VIDEO_CODEC_ID_AV1 : Z := 13.
Definition DOMESTIC_VIDEO_CODEC_ID_VP8 : Z := 14.
Definition DOMESTIC_VIDEO_CODEC_ID_VP9 : Z := 15.
Definition DOMESTIC_AUDIO_CODEC_ID_OPUS : Z := 13.

Inductive DomesticCodecMode : Set := Standard | Domestic | Auto.

(** A [match] on constants: the first that is equal. *)
Fixpoint select {A} (key : Z) (arms : list (Z * A)) : option A :=
  match arms with
  | [] => None
  | (k, a) :: arms => if key =? k then Some a else select key arms
  end.

Definition audio_codec_ids : list (Z * CodecId) :=
  [(RTMP_AUDIO_CODEC_ID_AAC, AAC); (RTMP_AUDIO_CODEC_ID_ADPCM, ADPCM);
   (RTMP_AUDIO_CODEC_ID_G711A, G711A); (RTMP_AUDIO_CODEC_ID_G711U, G711U);
   (RTMP_AUDIO_CODEC_ID_MP3, MP3); (RTMP_AUDIO_CODEC_ID_OPUS, Opus)].

Definition standard_video_codec_ids : list (Z * CodecId) :=
  [(RTMP_VIDEO_CODEC_ID_H264, H264); (RTMP_VIDEO_CODEC_ID_H265, H265);
   (RTMP_VIDEO_CODEC_ID_AV1, AV1); (RTMP_VIDEO_CODEC_ID_H266, H266);
   (RTMP_VIDEO_CODEC_ID_VP9, VP9)].

Definition domestic_video_codec_ids : list (Z * CodecId) :=
  [(RTMP_VIDEO_CODEC_ID_H264, H264); (DOMESTIC_VIDEO_CODEC_ID_H265, H265);
   (DOMESTIC_VIDEO_CODEC_ID_AV1, AV1); (DOMESTIC_VIDEO_CODEC_ID_VP8, VP8);
   (DOMESTIC_VIDEO_CODEC_ID_VP9, VP9); (RTMP_VIDEO_CODEC_ID_VP9, VP9)].

Definition codec_from_rtmp_codec_id (media : MediaKind) (codec_id : Z) : option CodecId :=
  match media with
  | Video => select codec_id standard_video_codec_ids
  | Audio => select codec_id audio_codec_ids
  | _ => None
  end.

Definition codec_from_rtmp_codec_id_with_mode (media : MediaKind) (codec_id : Z)
    (mode : DomesticCodecMode) : option CodecId :=
  match media with
  | Video =>
      match mode with
      | Standard => select codec_id standard_video_codec_ids
      | Domestic | Auto => select codec_id domestic_video_codec_ids
      end
  | Audio => select codec_id audio_codec_ids
  | _ => None
  end.

Definition rtmp_domestic_codec_id_from_codec (codec : CodecId) : option Z :=
  match codec with
  | H264 => Some RTMP_VIDEO_CODEC_ID_H264
  | H265 => Some DOMESTIC_VIDEO_CODEC_ID_H265
  | AV1 => Some DOMESTIC_VIDEO_CODEC_ID_AV1
  | VP8 => Some DOMESTIC_VIDEO_CODEC_ID_VP8
  | VP9 => Some DOMESTIC_VIDEO_CODEC_ID_VP9
  | AAC => Some RTMP_AUDIO_CODEC_ID_AAC
  | ADPCM => Some RTMP_AUDIO_CODEC_ID_ADPCM
  | G711A => Some RTMP_AUDIO_CODEC_ID_G711A
  | G711U => Some RTMP_AUDIO_CODEC_ID_G711U
  | MP3 => Some RTMP_AUDIO_CODEC_ID_MP3
  | Opus => Some DOMESTIC_AUDIO_CODEC_ID_OPUS
  | _ => None
  end.

Definition rtmp_codec_id_from_codec (codec : CodecId) : option Z :=
  match codec with
  | H264 => Some RTMP_VIDEO_CODEC_ID_H264
  | H265 => Some RTMP_VIDEO_CODEC_ID_H265
  | AV1 => Some RTMP_VIDEO_CODEC_ID_AV1
  | H266 => Some RTMP_VIDEO_CODEC_ID_H266
  | VP9 => Some RTMP_VIDEO_CODEC_ID_VP9
  | AAC => Some RTMP_AUDIO_CODEC_ID_AAC
  | ADPCM => Some RTMP_AUDIO_CODEC_ID_ADPCM
  | G711A => Some RTMP_AUDIO_CODEC_ID_G711A
  | G711U => Some RTMP_AUDIO_CODEC_ID_G711U
  | MP3 => Some RTMP_AUDIO_CODEC_ID_MP3
  | Opus => Some RTMP_AUDIO_CODEC_ID_OPUS
  | _ => None
  end.

(** The four bytes, most significant first. *)
Definition fourcc (v0 v1 v2 v3 : byte) : Z :=
  Z.lor (Z.lor (Z.lor (Z.shiftl (byte_val v0) 24) (Z.shiftl (byte_val v1) 16))
           (Z.shiftl (byte_val v2) 8)) (byte_val v3).

Definition RTMP_FOURCC_H265 : Z := fourcc x68 x76 x63 x31.
Definition RTMP_FOURCC_H266 : Z := fourcc x76 x76 x63 x31.
Definition RTMP_FOURCC_H264 : Z := fourcc x61 x76 x63 x31.
Definition RTMP_FOURCC_AV1 : Z := fourcc x61 x76 x30 x31.
Definition RTMP_FOURCC_VP8 : Z := fourcc x76 x70 x30 x38.
Definition RTMP_FOURCC_VP9 : Z := fourcc x76 x70 x30 x39.

Definition codec_from_rtmp_fourcc (code : Z) : option CodecId :=
  select code
    [(RTMP_FOURCC_H264, H264); (RTMP_FOURCC_H265, H265); (RTMP_FOURCC_H266, H266);
     (RTMP_FOURCC_AV1, AV1); (RTMP_FOURCC_VP8, VP8); (RTMP_FOURCC_VP9, VP9)].

Definition rtmp_fourcc_from_codec (codec : CodecId) : option Z :=
  match codec with
  | H264 => Some RTMP_FOURCC_H264
  | H265 => Some RTMP_FOURCC_H265
  | H266 => Some RTMP_FOURCC_H266
  | AV1 => Some RTMP_FOURCC_AV1
  | VP8 => Some RTMP_FOURCC_VP8
  | VP9 => Some RTMP_FOURCC_VP9
  | _ => None
  end.

(** The header byte of an audio tag. [codec_id << 4] is a shift of a [u8]. *)
Definition rtmp_audio_flag (codec : CodecId) (sample_rate bits_per_sample channels : Z) : option Z :=
  match rtmp_codec_id_from_codec codec with
  | None => None
  | Some codec_id =>
      match codec with
      | AAC | ADPCM | G711A | G711U | MP2 | MP3 | Opus =>
          let flags rate_code :=
            Z.lor (Z.lor (Z.lor (wrap_u 8 (Z.shiftl codec_id 4)) (Z.shiftl rate_code 2))
                     (Z.shiftl (if 16 <=? bits_per_sample then 1 else 0) 1))
                  (if 1 <? channels then 1 else 0) in
          if (sample_rate =? 44100) || (sample_rate =? 48000) then Some (flags 3)
          else if sample_rate =? 22050 then Some (flags 2)
          else if sample_rate =? 11025 then Some (flags 1)
          else if (sample_rate =? 5512) || (sample_rate =? 8000) || (sample_rate =? 16000)
          then Some (flags 0)
          else None
      | _ => None
      end
  end.

(** ** Facts *)

Lemma select_some {A} key (arms : list (Z * A)) a : select key arms = Some a -> (key, a) ∈ arms.
Proof.
  induction arms as [|[k x] arms IH]; cbn; [done|].
  destruct (Z.eqb_spec key k) as [->|_]; [intros [= ->]; by left|right; auto].
Qed.

(** Split [x ∈ [a1; ..; an]] into its cases. *)
Ltac arms H :=
  repeat (apply elem_of_cons in H as [[= -> ->]|H]; [done|]); by apply elem_of_nil in H.

(** The FourCC of a codec names it, and only FourCCs of codecs name one. *)
Lemma fourcc_codec code codec :
  codec_from_rtmp_fourcc code = Some codec <-> rtmp_fourcc_from_codec codec = Some code.
Proof.
  split.
  - intros H%select_some. arms H.
  - destruct codec; cbn; intros H; try discriminate H; injection H as <-; reflexivity.
Qed.

(** So does the legacy id, except that 14 is H266 or VP8 by the mode. *)
Lemma codec_id_codec media codec_id codec :
  codec_from_rtmp_codec_id media codec_id = Some codec -> rtmp_codec_id_from_codec codec = Some codec_id.
Proof.
  unfold codec_from_rtmp_codec_id. destruct media; intros H; try discriminate H;
    apply select_some in H; arms H.
Qed.

(** The bits of the audio header: codec, rate, size and channels can be read back. *)
Lemma rtmp_audio_flag_fields codec rate bits channels flag :
  rtmp_audio_flag codec rate bits channels = Some flag ->
  in_u 8 flag /\ rtmp_codec_id_from_codec codec = Some (Z.shiftr flag 4) /\
  Z.testbit flag 1 = (16 <=? bits) /\ Z.testbit flag 0 = (1 <? channels).
Proof.
  unfold rtmp_audio_flag. intros H.
  destruct codec; cbn [rtmp_codec_id_from_codec] in *; try discriminate H;
    destruct (16 <=? bits), (1 <? channels);
    repeat (match type of H with (if ?b then _ else _) = _ => destruct b end);
    try discriminate H; injection H as <-; unfold in_u; vm_compute;
    repeat split; discriminate.
Qed.
