(* ===== verification/RtmpFrames.v ===== *)
(** * RTMP audio and video tags

    Models the frame part of [crates/protocols/rtmp/core/src/media.rs]: the headers
    of audio and video tags ([AudioFrame], [VideoFrame]) and the AVC decoder
    configuration record. [decode] functions take a whole payload; what is left of
    the slice is the data of the frame. *)
From Stdlib Require Import Strings.Byte.
From S2P Require Import Prelude RtmpBytes RtmpTypes.

(** ** Data *)

Definition RtmpTimestampDelta : Type := Z.

Inductive AvcPacketType : Set := SequenceHeader | NalUnit | EndOfSequence.
Inductive VideoFrameType : Set :=
| KeyFrame | InterFrame | DisposableInterFrame | GeneratedKeyFrame | VideoInfoOrCommandFrame.
Inductive VideoCodec : Set :=
| Jpeg | H263 | ScreenVideo | Vp6 | Vp6WithAlpha | ScreenVideoV2 | Avc | UnknownVideo (id : Z).
Inductive AudioFormat : Set :=
| Adpcm | Mp3 | LinearPcmLittleEndian | Nellymoser16khzMono | Nellymoser8KhzMono | Nellymoser
| G711AlawLogarithmicPcm | G711MuLawLogarithmicPcm | Aac | Speex | Mp3_8khz
| DeviceSpecificSound | UnknownAudio (id : Z).
Inductive AudioSampleRate : Set := Khz5 | Khz11 | Khz22 | Khz44.

#[export] Instance VideoCodec_eq_dec : EqDecision VideoCodec.
Proof. solve_decision. Defined.
#[export] Instance VideoFrameType_eq_dec : EqDecision VideoFrameType.
Proof. solve_decision. Defined.
#[export] Instance AudioFormat_eq_dec : EqDecision AudioFormat.
Proof. solve_decision. Defined.

Record AudioFrame : Type := mk_audio {
  a_timestamp : RtmpTimestamp;
  a_format : AudioFormat;
  a_sample_rate : AudioSampleRate;
  a_is_8bit_sample : bool;
  a_is_stereo : bool;
  a_is_aac_sequence_header : bool;
  a_data : list byte
}.

Record VideoFrame : Type := mk_video {
  v_timestamp : RtmpTimestamp;
  v_composition_timestamp_offset : RtmpTimestampDelta;
  v_frame_type : VideoFrameType;
  v_codec : VideoCodec;
  v_avc_packet_type : option AvcPacketType;
  v_data : list byte
}.

Definition is_keyframe (f : VideoFrame) : bool := bool_decide (v_frame_type f = KeyFrame).

Definition avc_packet_type_u8 (t : AvcPacketType) : Z :=
  match t with SequenceHeader => 0 | NalUnit => 1 | EndOfSequence => 2 end.

Definition frame_type_u8 (t : VideoFrameType) : Z :=
  match t with
  | KeyFrame => 1 | InterFrame => 2 | DisposableInterFrame => 3 | GeneratedKeyFrame => 4
  | VideoInfoOrCommandFrame => 5
  end.

Definition sample_rate_u8 (r : AudioSampleRate) : Z :=
  match r with Khz5 => 0 | Khz11 => 1 | Khz22 => 2 | Khz44 => 3 end.

Definition video_raw_id (c : VideoCodec) : Z :=
  match c with
  | Jpeg => 1 | H263 => 2 | ScreenVideo => 3 | Vp6 => 4 | Vp6WithAlpha => 5
  | ScreenVideoV2 => 6 | Avc => 7 | UnknownVideo id => id
  end.

Definition audio_raw_id (f : AudioFormat) : Z :=
  match f with
  | Adpcm => 1 | Mp3 => 2 | LinearPcmLittleEndian => 3 | Nellymoser16khzMono => 4
  | Nellymoser8KhzMono => 5 | Nellymoser => 6 | G711AlawLogarithmicPcm => 7
  | G711MuLawLogarithmicPcm => 8 | Aac => 10 | Speex => 11 | Mp3_8khz => 14
  | DeviceSpecificSound => 15 | UnknownAudio id => id
  end.

Definition bool_u8 (b : bool) : Z := if b then 1 else 0.

(** ** Readers and writers of this file *)

Definition check_len (required actual : nat) : result Error unit :=
  if (actual <? required)%nat
  then Err (invalid_data ("insufficient buffer: require " +:+ pretty required
                          +:+ ", got " +:+ pretty actual))
  else Ok tt.

Definition read_u8 : reader Z := fun buf =>
  match check_len 1 (length buf) with
  | Err e => (buf, Err e)
  | Ok _ => (drop 1 buf, Ok (be_val (take 1 buf)))
  end.

Definition read_i24 : reader Z := fun buf =>
  match check_len 3 (length buf) with
  | Err e => (buf, Err e)
  | Ok _ =>
      let top := if Z.land (be_val (take 1 buf)) 0x80 =? 0 then x00 else xff in
      (drop 3 buf, Ok (wrap_i 32 (be_val (top :: take 3 buf))))
  end.

(** The [debug_assert!] on the range is not in a release build. *)
Definition write_i24 (v : Z) (buf : list byte) : list byte := buf ++ drop 1 (be_bytes 4 v).

(** ** Audio tags *)

Definition encode_audio_frame (frame : AudioFrame) (buf : list byte) : list byte :=
  let header :=
    Z.lor (Z.lor (Z.lor (wrap_u 8 (Z.shiftl (audio_raw_id (a_format frame)) 4))
                        (Z.shiftl (sample_rate_u8 (a_sample_rate frame)) 2))
                 (Z.shiftl (bool_u8 (a_is_8bit_sample frame)) 1))
          (bool_u8 (a_is_stereo frame)) in
  let buf := write_u8 header buf in
  let buf := if bool_decide (a_format frame = Aac)
             then write_u8 (if a_is_aac_sequence_header frame then 0 else 1) buf else buf in
  buf ++ a_data frame.

Definition audio_format_of (format_bits : Z) : AudioFormat :=
  match format_bits with
  | 1 => Adpcm
  | 2 => Mp3
  | 3 => LinearPcmLittleEndian
  | 4 => Nellymoser16khzMono
  | 5 => Nellymoser8KhzMono
  | 6 => Nellymoser
  | 7 => G711AlawLogarithmicPcm
  | 8 => G711MuLawLogarithmicPcm
  | 10 => Aac
  | 11 => Speex
  | 14 => Mp3_8khz
  | 15 => DeviceSpecificSound
  | _ => UnknownAudio format_bits
  end.

(** The last arm is [unreachable!()] in the source: two bits. *)
Definition sample_rate_of (sample_rate_bits : Z) : AudioSampleRate :=
  match sample_rate_bits with 0 => Khz5 | 1 => Khz11 | 2 => Khz22 | _ => Khz44 end.

Definition decode_audio_frame (buf : list byte) (timestamp : RtmpTimestamp) : result Error AudioFrame :=
  snd ((header <- read_u8 ;;
        let format := audio_format_of (Z.land (Z.shiftr header 4) 0x0F) in
        let sample_rate := sample_rate_of (Z.land (Z.shiftr header 2) 0x03) in
        let is_8bit_sample := negb (Z.land header 0x02 =? 0) in
        let is_stereo := negb (Z.land header 0x01 =? 0) in
        is_aac_sequence_header <-
          (if bool_decide (format = Aac)
           then aac_packet_type <- read_u8 ;; se_ret (aac_packet_type =? 0)
           else se_ret false) ;;
        data <- se_get ;;
        se_ret (mk_audio timestamp format sample_rate is_8bit_sample is_stereo
                  is_aac_sequence_header data)) buf).

(** ** Video tags *)

Definition encode_video_frame (frame : VideoFrame) (buf : list byte) : list byte :=
  let frame_type_codec :=
    Z.lor (wrap_u 8 (Z.shiftl (frame_type_u8 (v_frame_type frame)) 4)) (video_raw_id (v_codec frame)) in
  let buf := write_u8 frame_type_codec buf in
  let buf := match v_avc_packet_type frame with
             | Some t => write_i24 (v_composition_timestamp_offset frame) (write_u8 (avc_packet_type_u8 t) buf)
             | None => buf
             end in
  buf ++ v_data frame.

Definition frame_type_of (frame_type_bits : Z) : result Error VideoFrameType :=
  match frame_type_bits with
  | 1 => Ok KeyFrame
  | 2 => Ok InterFrame
  | 3 => Ok DisposableInterFrame
  | 4 => Ok GeneratedKeyFrame
  | 5 => Ok VideoInfoOrCommandFrame
  | _ => Err (invalid_data ("Invalid video frame type: " +:+ pretty frame_type_bits))
  end.

Definition video_codec_of (codec_bits : Z) : VideoCodec :=
  match codec_bits with
  | 1 => Jpeg
  | 2 => H263
  | 3 => ScreenVideo
  | 4 => Vp6
  | 5 => Vp6WithAlpha
  | 6 => ScreenVideoV2
  | 7 => Avc
  | _ => UnknownVideo codec_bits
  end.

Definition avc_packet_type_of (b : Z) : result Error AvcPacketType :=
  match b with
  | 0 => Ok SequenceHeader
  | 1 => Ok NalUnit
  | 2 => Ok EndOfSequence
  | _ => Err (invalid_data ("Invalid AVC packet type: " +:+ pretty b))
  end.

Definition decode_video_frame (buf : list byte) (timestamp : RtmpTimestamp) : result Error VideoFrame :=
  snd ((frame_type_codec <- read_u8 ;;
        frame_type <- se_of (frame_type_of (Z.land (Z.shiftr frame_type_codec 4) 0x0F)) ;;
        let codec := video_codec_of (Z.land frame_type_codec 0x0F) in
        avc <-
          (if bool_decide (codec = Avc) && negb (bool_decide (frame_type = VideoInfoOrCommandFrame))
           then b <- read_u8 ;;
                t <- se_of (avc_packet_type_of b) ;;
                cts <- read_i24 ;;
                se_ret (Some t, cts)
           else se_ret (None, 0)) ;;
        data <- se_get ;;
        se_ret (mk_video timestamp (snd avc) frame_type codec (fst avc) data)) buf).

(** ** The AVC decoder configuration record *)

Record AvcSequenceHeader : Type := mk_avc {
  avc_profile_indication : Z;
  profile_compatibility : Z;
  avc_level_indication : Z;
  length_size_minus_one : Z;
  sps_list : list (list byte);
  pps_list : list (list byte)
}.

Definition CONFIGURATION_VERSION : Z := 1.
Definition MAX_SPS_COUNT : Z := 31.
Definition MAX_PPS_COUNT : Z := 255.
Definition MAX_SPS_SIZE : Z := 4096.
Definition MAX_PPS_SIZE : Z := 4096.

Definition len {A} (l : list A) : Z := Z.of_nat (length l).
Definition at_ (data : list byte) (i : nat) : Z := be_val (take 1 (drop i data)).

(** The loop over the parameter sets of one kind; [what] is SPS or PPS. Gives the
    sets and the offset behind the last. *)
Fixpoint read_sets (what : string) (max_size : Z) (data : list byte) (count : nat) (i : nat)
    (offset : nat) : result Error (list (list byte) * nat) :=
  match count with
  | O => Ok ([], offset)
  | S count =>
      if (length data <? offset + 2)%nat
      then Err (invalid_data ("incomplete " +:+ what +:+ " length field at index " +:+ pretty i
                 +:+ ": need 2 bytes, have " +:+ pretty (length data - offset)%nat))
      else
        let size := be_val (take 2 (drop offset data)) in
        let offset := (offset + 2)%nat in
        if max_size <? size
        then Err (invalid_data (what +:+ " size exceeds maximum at index " +:+ pretty i +:+ ": "
                   +:+ pretty size +:+ " > " +:+ pretty max_size))
        else if len data <? Z.of_nat offset + size
        then Err (invalid_data ("incomplete " +:+ what +:+ " data at index " +:+ pretty i +:+ ": need "
                   +:+ pretty size +:+ " bytes, have " +:+ pretty (length data - offset)%nat))
        else
          rest <-? read_sets what max_size data count (S i) (offset + Z.to_nat size)%nat ;;
          Ok (take (Z.to_nat size) (drop offset data) :: fst rest, snd rest)
  end.

Definition from_bytes (data : list byte) : result Error AvcSequenceHeader :=
  if (length data <? 7)%nat
  then Err (invalid_data "AVCDecoderConfigurationRecord too short (expected at least 7 bytes)")
  else if negb (at_ data 0 =? CONFIGURATION_VERSION)
  then Err (unsupported ("unsupported AVC configuration version: " +:+ pretty (at_ data 0)
             +:+ " (expected " +:+ pretty CONFIGURATION_VERSION +:+ ")"))
  else if (length data <=? 5)%nat then Err (invalid_data "incomplete SPS count field (offset 5)")
  else
    let num_sps := Z.land (at_ data 5) 0x1F in
    if MAX_SPS_COUNT <? num_sps
    then Err (invalid_data ("SPS count exceeds maximum (" +:+ pretty num_sps +:+ " > "
               +:+ pretty MAX_SPS_COUNT +:+ ")"))
    else if num_sps =? 0 then Err (invalid_data "SPS list must not be empty")
    else
      sps <-? read_sets "SPS" MAX_SPS_SIZE data (Z.to_nat num_sps) 0 6 ;;
      let offset := snd sps in
      if (length data <=? offset)%nat then Err (invalid_data "incomplete PPS count field")
      else
        let num_pps := at_ data offset in
        if MAX_PPS_COUNT <? num_pps
        then Err (invalid_data ("PPS count exceeds maximum (" +:+ pretty num_pps +:+ " > "
                   +:+ pretty MAX_PPS_COUNT +:+ ")"))
        else if num_pps =? 0 then Err (invalid_data "PPS list must not be empty")
        else
          pps <-? read_sets "PPS" MAX_PPS_SIZE data (Z.to_nat num_pps) 0 (offset + 1) ;;
          Ok (mk_avc (at_ data 1) (at_ data 2) (at_ data 3) (Z.land (at_ data 4) 0x03)
                (fst sps) (fst pps)).

Fixpoint check_sizes (what : string) (max_size : Z) (i : nat) (sets : list (list byte)) : result Error unit :=
  match sets with
  | [] => Ok tt
  | s :: sets =>
      if max_size <? len s
      then Err (invalid_data (what +:+ " size exceeds maximum at index " +:+ pretty i +:+ ": "
                 +:+ pretty (len s) +:+ " > " +:+ pretty max_size))
      else check_sizes what max_size (S i) sets
  end.

Fixpoint write_sets (sets : list (list byte)) (buf : list byte) : list byte :=
  match sets with
  | [] => buf
  | s :: sets => write_sets sets (write_bytes s (write_u16 (len s) buf))
  end.

Definition to_bytes (h : AvcSequenceHeader) : result Error (list byte) :=
  if bool_decide (sps_list h = []) then Err (invalid_data "SPS list must not be empty")
  else if bool_decide (pps_list h = []) then Err (invalid_data "PPS list must not be empty")
  else if MAX_SPS_COUNT <? len (sps_list h)
  then Err (invalid_data ("too many SPS entries: " +:+ pretty (len (sps_list h)) +:+ " (max "
             +:+ pretty MAX_SPS_COUNT +:+ ")"))
  else if MAX_PPS_COUNT <? len (pps_list h)
  then Err (invalid_data ("too many PPS entries: " +:+ pretty (len (pps_list h)) +:+ " (max "
             +:+ pretty MAX_PPS_COUNT +:+ ")"))
  else
    _ <-? check_sizes "SPS" MAX_SPS_SIZE 0 (sps_list h) ;;
    _ <-? check_sizes "PPS" MAX_PPS_SIZE 0 (pps_list h) ;;
    let result := map byte_of
      [CONFIGURATION_VERSION; avc_profile_indication h; profile_compatibility h; avc_level_indication h;
       Z.lor 0xFC (Z.land (length_size_minus_one h) 0x03)] in
    let result := write_u8 (Z.lor 0xE0 (len (sps_list h))) result in
    let result := write_sets (sps_list h) result in
    let result := write_u8 (len (pps_list h)) result in
    Ok (write_sets (pps_list h) result).

(** ** Well-formed frames *)

(** A codec id has four bits, and [Unknown] is only used for ids without a name. *)
Definition audio_format_wf (f : AudioFormat) : Prop := in_u 4 (audio_raw_id f) /\ audio_format_of (audio_raw_id f) = f.
Definition video_codec_wf (c : VideoCodec) : Prop := in_u 4 (video_raw_id c) /\ video_codec_of (video_raw_id c) = c.

(** The AAC flag needs a byte that only AAC tags have. *)
Definition audio_wf (f : AudioFrame) : Prop :=
  audio_format_wf (a_format f) /\ (a_is_aac_sequence_header f = true -> a_format f = Aac).

Definition has_avc_header (f : VideoFrame) : bool :=
  bool_decide (v_codec f = Avc) && negb (bool_decide (v_frame_type f = VideoInfoOrCommandFrame)).

(** So do the AVC packet type and the composition offset. *)
Definition video_wf (f : VideoFrame) : Prop :=
  video_codec_wf (v_codec f) /\
  if has_avc_header f
  then is_Some (v_avc_packet_type f) /\ in_i 24 (v_composition_timestamp_offset f)
  else v_avc_packet_type f = None /\ v_composition_timestamp_offset f = 0.

(** ** Readers *)

Lemma be_val_one b : be_val [b] = byte_val b.
Proof. unfold be_val. cbn. lia. Qed.

Lemma media_read_u8_inv p r v : read_u8 p = (r, Ok v) -> p = byte_of v :: r /\ in_u 8 v.
Proof.
  destruct p as [|b p]; [done|]. unfold read_u8, check_len. cbn [length drop take Nat.ltb Nat.leb].
  rewrite drop_0. intros [= <- <-]. rewrite take_0, be_val_one, byte_of_val.
  split; [done|]. apply byte_val_range.
Qed.

Lemma media_read_u8_cons v q : in_u 8 v -> read_u8 (byte_of v :: q) = (q, Ok v).
Proof.
  intros H. unfold read_u8, check_len. cbn [length Nat.ltb Nat.leb drop take]. rewrite drop_0, take_0, be_val_one, byte_val_of.
  change 256 with (2 ^ 8). by rewrite Z.mod_small.
Qed.

(** Sign extension: three bytes are the low bytes of exactly one value. *)
Lemma i24_top b : (Z.land (byte_val b) 0x80 =? 0) = (byte_val b <? 128).
Proof. by destruct b. Qed.

Lemma i24_value bs :
  length bs = 3%nat ->
  wrap_i 32 (be_val ((if Z.land (be_val (take 1 bs)) 0x80 =? 0 then x00 else xff) :: bs))
  = wrap_i 24 (be_val bs).
Proof.
  intros Hl. destruct bs as [|b [|c [|d [|]]]]; try discriminate Hl. cbn [take].
  rewrite be_val_one, i24_top, be_val_cons, be_val_cons. cbn [length].
  pose proof (be_val_range [c; d]) as R. pose proof (byte_val_range b) as Rb. cbn [length] in R.
  change (2 ^ (8 * Z.of_nat 2)) with 65536 in *. change (2 ^ (8 * Z.of_nat 3)) with 16777216.
  set (r := be_val [c; d]) in *. unfold wrap_i. change (2 ^ 32) with 4294967296.
  change (2 ^ (32 - 1)) with 2147483648. change (2 ^ 24) with 16777216. change (2 ^ (24 - 1)) with 8388608.
  destruct (Z.ltb_spec (byte_val b) 128).
  - change (byte_val x00) with 0. zdm.
  - change (byte_val xff) with 255. zdm.
Qed.

Lemma media_read_i24_app v q : in_i 24 v -> read_i24 (drop 1 (be_bytes 4 v) ++ q) = (q, Ok v).
Proof.
  intros H. rewrite be_bytes_drop_top.
  assert (Hl : length (be_bytes 3 v) = 3%nat) by apply length_be_bytes.
  unfold read_i24, check_len. rewrite length_app, Hl. cbn [Nat.ltb Nat.leb Nat.add].
  rewrite drop_app_length' by done. rewrite (take_app_length' _ q 3) by done.
  replace (take 1 (be_bytes 3 v ++ q)) with (take 1 (be_bytes 3 v)) by (by rewrite take_app_le by lia).
  rewrite i24_value, be_val_bytes by done.
  do 2 f_equal. unfold in_i, wrap_i, wrap_u in *. change (2 ^ (24 - 1)) with 8388608 in *.
  change (8 * Z.of_nat 3) with 24. change (2 ^ 24) with 16777216. zdm.
Qed.

Lemma media_read_i24_inv p r v :
  read_i24 p = (r, Ok v) -> p = drop 1 (be_bytes 4 v) ++ r /\ in_i 24 v.
Proof.
  unfold read_i24, check_len. destruct (Nat.ltb_spec (length p) 3) as [L|L]; [done|].
  intros [= <- <-]. assert (Hl : length (take 3 p) = 3%nat) by (rewrite length_take; lia).
  replace (take 1 p) with (take 1 (take 3 p)) by (by rewrite take_take).
  rewrite i24_value by done. split; [|by apply wrap_i_range].
  rewrite be_bytes_drop_top. rewrite <- (take_drop 3 p) at 1. f_equal.
  rewrite <- (be_bytes_val (take 3 p)) at 1. rewrite Hl.
  set (x := be_val (take 3 p)). unfold wrap_i. change (2 ^ (24 - 1)) with 8388608.
  rewrite (Z.mod_eq (x + 8388608) (2 ^ 24)) by done.
  replace (x + 8388608 - 2 ^ 24 * ((x + 8388608) / 2 ^ 24) - 8388608)
    with (- ((x + 8388608) / 2 ^ 24) * 2 ^ (8 * Z.of_nat 3) + x)
    by (change (8 * Z.of_nat 3) with 24; lia).
  by rewrite be_bytes_high.
Qed.

(** ** Header bytes *)

(** Two nibbles. *)
Lemma nibbles hi lo :
  in_u 4 hi -> in_u 4 lo ->
  let b := Z.lor (wrap_u 8 (Z.shiftl hi 4)) lo in
  b = hi * 16 + lo /\ in_u 8 b /\ Z.land (Z.shiftr b 4) 0x0F = hi /\ Z.land b 0x0F = lo.
Proof.
  intros Hh Hl b. unfold in_u in *. change (2 ^ 4) with 16 in *. change (2 ^ 8) with 256.
  assert (Hb : b = hi * 16 + lo).
  { unfold b. rewrite wrap_u_small by (unfold in_u; rewrite Z.shiftl_mul_pow2 by done; change (2 ^ 4) with 16; change (2 ^ 8) with 256; lia).
    rewrite lor_shiftl by (done || (change (2 ^ 4) with 16; lia)). done. }
  clearbody b. subst b. change 0x0F with (Z.ones 4). rewrite !Z.land_ones by done.
  rewrite Z.shiftr_div_pow2 by done. change (2 ^ 4) with 16. repeat split; try lia; zdm.
Qed.

Lemma byte_nibbles v :
  in_u 8 v -> Z.lor (wrap_u 8 (Z.shiftl (Z.land (Z.shiftr v 4) 0x0F) 4)) (Z.land v 0x0F) = v.
Proof.
  unfold in_u. change (2 ^ 8) with 256. intros H. change 0x0F with (Z.ones 4).
  rewrite !Z.land_ones, Z.shiftr_div_pow2 by done. change (2 ^ 4) with 16.
  destruct (nibbles ((v / 16) mod 16) (v mod 16)) as [-> _]; unfold in_u; change (2 ^ 4) with 16; zdm.
Qed.

Lemma land_nibble z : in_u 4 (Z.land z 0x0F).
Proof. change 0x0F with (Z.ones 4). rewrite Z.land_ones by done. apply Z.mod_pos_bound. done. Qed.

Ltac small_cases x H :=
  let n := fresh in
  assert (exists n : nat, x = Z.of_nat n /\ (n < 16)%nat) as (n & -> & ?)
    by (exists (Z.to_nat x); unfold in_u in H; change (2 ^ 4) with 16 in H; lia);
  do 16 (destruct n as [|n]; [cbn; try done|]); lia.

Lemma audio_format_of_wf z : in_u 4 z -> audio_format_wf (audio_format_of z) /\ audio_raw_id (audio_format_of z) = z.
Proof. intros H. unfold audio_format_wf. small_cases z H. Qed.

Lemma video_codec_of_wf z : in_u 4 z -> video_codec_wf (video_codec_of z) /\ video_raw_id (video_codec_of z) = z.
Proof. intros H. unfold video_codec_wf. small_cases z H. Qed.

Definition audio_header (format : Z) (r : AudioSampleRate) (bits8 stereo : bool) : Z :=
  Z.lor (Z.lor (Z.lor (wrap_u 8 (Z.shiftl format 4)) (Z.shiftl (sample_rate_u8 r) 2))
           (Z.shiftl (bool_u8 bits8) 1)) (bool_u8 stereo).

Lemma audio_header_fields format r bits8 stereo :
  in_u 4 format ->
  let h := audio_header format r bits8 stereo in
  in_u 8 h /\ Z.land (Z.shiftr h 4) 0x0F = format /\ sample_rate_of (Z.land (Z.shiftr h 2) 0x03) = r /\
  negb (Z.land h 0x02 =? 0) = bits8 /\ negb (Z.land h 0x01 =? 0) = stereo.
Proof. intros H. unfold in_u. destruct r, bits8, stereo; small_cases format H. Qed.

Lemma audio_header_of_byte v :
  in_u 8 v ->
  audio_header (Z.land (Z.shiftr v 4) 0x0F) (sample_rate_of (Z.land (Z.shiftr v 2) 0x03))
    (negb (Z.land v 0x02 =? 0)) (negb (Z.land v 0x01 =? 0)) = v.
Proof.
  intros H. rewrite <- (wrap_u_small 8 v H). unfold wrap_u. change (2 ^ 8) with 256.
  rewrite <- byte_val_of. by destruct (byte_of v).
Qed.

(** ** Frames *)

Lemma audio_survives f :
  audio_wf f -> decode_audio_frame (encode_audio_frame f []) (a_timestamp f) = Ok f.
Proof.
  destruct f as [ts fmt rate b8 st hdr data]. intros [[Hi Hf] Ha]. cbn [a_format a_is_aac_sequence_header] in *.
  unfold encode_audio_frame, decode_audio_frame, write_u8. cbn [a_timestamp a_format a_sample_rate
    a_is_8bit_sample a_is_stereo a_is_aac_sequence_header a_data].
  fold (audio_header (audio_raw_id fmt) rate b8 st).
  destruct (audio_header_fields (audio_raw_id fmt) rate b8 st Hi) as (H1 & H2 & H3 & H4 & H5).
  case_bool_decide as E; cbn [app]; unfold se_bind at 1; rewrite media_read_u8_cons by done;
    cbn beta; rewrite H2, Hf, H3, H4, H5.
  - rewrite bool_decide_true by done. unfold se_bind at 1 2. rewrite media_read_u8_cons by (by destruct hdr).
    subst fmt. by destruct hdr.
  - rewrite bool_decide_false by done. destruct hdr; [by specialize (Ha eq_refl)|done].
Qed.

Lemma video_survives f :
  video_wf f -> decode_video_frame (encode_video_frame f []) (v_timestamp f) = Ok f.
Proof.
  destruct f as [ts cts ft codec t data]. intros [[Hi Hc] Ha]. unfold has_avc_header in Ha.
  cbn [v_codec v_frame_type v_avc_packet_type v_composition_timestamp_offset] in *.
  unfold encode_video_frame, decode_video_frame, write_u8, write_i24. cbn [v_timestamp v_codec v_frame_type
    v_avc_packet_type v_composition_timestamp_offset v_data].
  destruct (nibbles (frame_type_u8 ft) (video_raw_id codec)) as (_ & H1 & H2 & H3);
    [by destruct ft|done|].
  assert (Hft : frame_type_of (frame_type_u8 ft) = Ok ft) by (by destruct ft).
  destruct t as [t|]; rewrite <- ?app_assoc; cbn [app]; unfold se_bind at 1; rewrite media_read_u8_cons by done;
    cbn beta; rewrite H2, H3, Hft, Hc; unfold se_bind at 1; cbn [se_of];
    destruct (bool_decide (codec = Avc) && _).
  - destruct Ha as [_ Hr]. unfold se_bind at 1 2. rewrite media_read_u8_cons by (by destruct t).
    assert (Ht : avc_packet_type_of (avc_packet_type_u8 t) = Ok t) by (by destruct t).
    rewrite Ht. unfold se_bind at 1 2. cbn [se_of]. rewrite media_read_i24_app by done. done.
  - by destruct Ha.
  - by destruct Ha as [[? [=]] _].
  - by destruct Ha as [_ ->].
Qed.

(** What a byte [b] of an audio tag is turned into by decoding and encoding. *)
Definition aac_type (b : Z) : Z := if b =? 0 then 0 else 1.

(** The type byte of an AAC tag is read as a flag; all else is kept. *)
Lemma audio_decoded buf ts f :
  decode_audio_frame buf ts = Ok f ->
  a_timestamp f = ts /\ audio_wf f /\
  exists header tail,
    match tail with
    | t :: data => if bool_decide (a_format f = Aac)
                   then buf = header :: t :: data /\
                        encode_audio_frame f [] = header :: byte_of (aac_type (byte_val t)) :: data
                   else buf = header :: tail /\ encode_audio_frame f [] = buf
    | [] => buf = [header] /\ encode_audio_frame f [] = buf
    end.
Proof.
  unfold decode_audio_frame. unfold se_bind at 1.
  destruct (read_u8 buf) as [p1 [h|]] eqn:E1; [|done]. apply media_read_u8_inv in E1 as [-> Hh].
  cbn beta zeta. destruct (audio_format_of_wf _ (land_nibble (Z.shiftr h 4))) as [Hw Hr].
  pose proof (audio_header_of_byte h Hh) as Hb. rewrite <- Hr in Hb at 1. unfold audio_header in Hb.
  case_bool_decide as Ef; unfold se_bind, se_get, se_ret.
  - destruct (read_u8 p1) as [p2 [t|]] eqn:E2; [|done]. apply media_read_u8_inv in E2 as [-> Ht].
    intros [= <-]. unfold audio_wf, encode_audio_frame. cbn [a_timestamp a_format a_sample_rate
      a_is_8bit_sample a_is_stereo a_is_aac_sequence_header a_data].
    split_and!; [done|done|done|]. exists (byte_of h), (byte_of t :: p2).
    rewrite Hb, bool_decide_true by done. split; [done|]. unfold write_u8, aac_type. cbn [app].
    rewrite byte_val_of. change 256 with (2 ^ 8). rewrite Z.mod_small by done. by destruct (t =? 0).
  - intros [= <-]. unfold audio_wf, encode_audio_frame. cbn [a_timestamp a_format a_sample_rate
      a_is_8bit_sample a_is_stereo a_is_aac_sequence_header a_data].
    split_and!; [done|done|done|]. exists (byte_of h), p1.
    rewrite Hb, bool_decide_false by done. by destruct p1.
Qed.

Lemma frame_type_of_ok z ft : frame_type_of z = Ok ft -> frame_type_u8 ft = z.
Proof. unfold frame_type_of. intros H. repeat case_match; by simplify_eq. Qed.

Lemma avc_packet_type_of_ok z t : avc_packet_type_of z = Ok t -> avc_packet_type_u8 t = z.
Proof. unfold avc_packet_type_of. intros H. repeat case_match; by simplify_eq. Qed.

Lemma video_decoded buf ts f :
  decode_video_frame buf ts = Ok f ->
  v_timestamp f = ts /\ video_wf f /\ encode_video_frame f [] = buf.
Proof.
  unfold decode_video_frame. unfold se_bind at 1.
  destruct (read_u8 buf) as [p1 [h|]] eqn:E1; [|done]. apply media_read_u8_inv in E1 as [-> Hh].
  cbn beta. unfold se_bind at 1, se_of at 1. destruct (frame_type_of _) as [ft|] eqn:E2; [|done].
  apply frame_type_of_ok in E2. cbn beta zeta.
  destruct (video_codec_of_wf _ (land_nibble h)) as [Hw Hr].
  pose proof (byte_nibbles h Hh) as Hb. rewrite <- E2, <- Hr in Hb.
  unfold video_wf, encode_video_frame, has_avc_header, se_bind, se_get, se_ret, se_of.
  destruct (bool_decide (video_codec_of (Z.land h 15) = Avc) && _) eqn:Ec.
  - destruct (read_u8 p1) as [p2 [t|]] eqn:E3; [|done]. apply media_read_u8_inv in E3 as [-> Ht].
    destruct (avc_packet_type_of t) as [pt|] eqn:E4; [|done]. apply avc_packet_type_of_ok in E4.
    destruct (read_i24 p2) as [p3 [c|]] eqn:E5; [|done]. apply media_read_i24_inv in E5 as [-> Hc].
    intros [= <-]. cbn [v_timestamp v_codec v_frame_type v_avc_packet_type v_composition_timestamp_offset
      v_data fst snd]. rewrite Ec, Hb, E4. split_and!; [done|done|done|done|].
    unfold write_i24, write_u8. by rewrite <- !app_assoc.
  - intros [= <-]. cbn [v_timestamp v_codec v_frame_type v_avc_packet_type v_composition_timestamp_offset
      v_data fst snd]. rewrite Ec, Hb. by split_and!.
Qed.

(** ** Parameter sets *)

Definition set_bytes (s : list byte) : list byte := be_bytes 2 (len s) ++ s.
Definition sets_bytes (sets : list (list byte)) : list byte := concat (map set_bytes sets).

Lemma sets_bytes_cons s sets : sets_bytes (s :: sets) = be_bytes 2 (len s) ++ s ++ sets_bytes sets.
Proof. unfold sets_bytes, set_bytes. cbn [map concat]. by rewrite <- app_assoc. Qed.

Lemma write_sets_bytes sets buf : write_sets sets buf = buf ++ sets_bytes sets.
Proof.
  revert buf. induction sets as [|s sets IH]; intros buf; cbn [write_sets]; [by rewrite app_nil_r|].
  rewrite IH, sets_bytes_cons. unfold write_bytes, write_u16. by rewrite <- !app_assoc.
Qed.

Lemma check_sizes_ok what max_size i sets :
  check_sizes what max_size i sets = Ok tt <-> Forall (fun s => len s <= max_size) sets.
Proof.
  revert i. induction sets as [|s sets IH]; intros i; cbn [check_sizes]; [by split|].
  rewrite Forall_cons. destruct (Z.ltb_spec max_size (len s)); [split; [done|lia]|].
  rewrite IH. intuition.
Qed.

Lemma read_sets_written what max_size data sets rest : max_size < 2 ^ 16 -> forall i offset,
  Forall (fun s => len s <= max_size) sets ->
  (offset <= length data)%nat -> drop offset data = sets_bytes sets ++ rest ->
  read_sets what max_size data (length sets) i offset
  = Ok (sets, (offset + length (sets_bytes sets))%nat).
Proof.
  intros Hm. induction sets as [|s sets IH]; intros i offset Hall Ho Hd; cbn [read_sets length].
  - do 2 f_equal. cbn. lia.
  - apply Forall_cons in Hall as [Hs Hall]. rewrite sets_bytes_cons in Hd. rewrite <- !app_assoc in Hd.
    assert (Hl : (length data = offset + (2 + (length s + (length (sets_bytes sets) + length rest))))%nat).
    { apply (f_equal length) in Hd. rewrite length_drop, !length_app, length_be_bytes in Hd. lia. }
    destruct (Nat.ltb_spec (length data) (offset + 2)) as [L|_]; [lia|].
    rewrite Hd, (take_app_length' _ _ 2) by (by rewrite length_be_bytes).
    rewrite be_val_bytes_small.
    2: { unfold in_u, len in *. change (2 ^ (8 * Z.of_nat 2)) with (2 ^ 16). lia. }
    destruct (Z.ltb_spec max_size (len s)) as [L|_]; [lia|]. unfold len in *.
    destruct (Z.ltb_spec (Z.of_nat (length data)) (Z.of_nat (offset + 2) + Z.of_nat (length s))) as [L|_]; [lia|].
    rewrite Nat2Z.id.
    assert (Hd2 : drop (offset + 2) data = s ++ sets_bytes sets ++ rest).
    { rewrite <- drop_drop, Hd, drop_app_length'; [done|]. by rewrite length_be_bytes. }
    rewrite (IH (S i) (offset + 2 + length s)%nat Hall).
    + rewrite Hd2, take_app_length. cbn [result_bind fst snd]. do 2 f_equal.
      rewrite sets_bytes_cons, !length_app, length_be_bytes. lia.
    + lia.
    + rewrite <- drop_drop, Hd2, drop_app_length. done.
Qed.

Lemma read_sets_inv what max_size data : forall count i offset sets last,
  (offset <= length data)%nat ->
  read_sets what max_size data count i offset = Ok (sets, last) ->
  length sets = count /\ Forall (fun s => len s <= max_size) sets /\
  (offset <= last <= length data)%nat /\ drop offset data = sets_bytes sets ++ drop last data.
Proof.
  induction count as [|count IH]; intros i offset sets last Ho; cbn [read_sets].
  { intros [= <- <-]. split_and!; [done|constructor|lia|lia|done]. }
  destruct (Nat.ltb_spec (length data) (offset + 2)) as [L|L]; [done|].
  set (b := take 2 (drop offset data)).
  assert (Hb : length b = 2%nat) by (unfold b; rewrite length_take, length_drop; lia).
  pose proof (be_val_range b) as Rb.
  destruct (Z.ltb_spec max_size (be_val b)) as [L1|L1]; [done|].
  destruct (Z.ltb_spec (len data) (Z.of_nat (offset + 2) + be_val b)) as [L2|L2]; [done|]. unfold len in *.
  destruct (read_sets _ _ _ _ _ _) as [[rest last']|] eqn:E; [|done]. cbn [result_bind fst snd].
  intros [= <- <-]. apply IH in E as (E1 & E2 & E3 & E4); [|lia].
  set (s := take (Z.to_nat (be_val b)) (drop (offset + 2) data)).
  assert (Hs : length s = Z.to_nat (be_val b)) by (unfold s; rewrite length_take, length_drop; lia).
  split_and!; [by cbn; rewrite E1|constructor; [lia|done]|lia|lia|].
  rewrite sets_bytes_cons, <- !app_assoc, <- E4.
  rewrite <- (drop_drop data), <- (take_drop 2 (drop offset data)) at 1. fold b. f_equal.
  - unfold len. rewrite Hs, Z2Nat.id by lia. by rewrite <- Hb, be_bytes_val.
  - rewrite drop_drop. unfold s. by rewrite take_drop.
Qed.

(** The fields are [u8]s, and the length size has two bits. *)
Definition avc_wf (h : AvcSequenceHeader) : Prop :=
  in_u 8 (avc_profile_indication h) /\ in_u 8 (profile_compatibility h) /\
  in_u 8 (avc_level_indication h) /\ in_u 2 (length_size_minus_one h).

(** The record that [to_bytes] writes when it does not refuse. *)
Definition avc_bytes (h : AvcSequenceHeader) : list byte :=
  map byte_of [CONFIGURATION_VERSION; avc_profile_indication h; profile_compatibility h;
    avc_level_indication h; Z.lor 0xFC (Z.land (length_size_minus_one h) 0x03);
    Z.lor 0xE0 (len (sps_list h))]
  ++ sets_bytes (sps_list h) ++ byte_of (len (pps_list h)) :: sets_bytes (pps_list h).

(** What [to_bytes] checks. *)
Definition avc_writable (h : AvcSequenceHeader) : Prop :=
  1 <= len (sps_list h) <= MAX_SPS_COUNT /\ 1 <= len (pps_list h) <= MAX_PPS_COUNT /\
  Forall (fun s => len s <= MAX_SPS_SIZE) (sps_list h) /\
  Forall (fun s => len s <= MAX_PPS_SIZE) (pps_list h).

Lemma len_pos {A} (l : list A) : 1 <= len l <-> l <> [].
Proof. unfold len. destruct l; cbn; [|split; [done|lia]]. split; [lia|done]. Qed.

Lemma to_bytes_ok h bs : to_bytes h = Ok bs <-> avc_writable h /\ bs = avc_bytes h.
Proof.
  unfold to_bytes, avc_writable. rewrite !len_pos.
  case_bool_decide as E1; [split; [done|by intros [([E _] & _) _]]|].
  case_bool_decide as E2; [split; [done|by intros [(_ & [E _] & _) _]]|].
  destruct (Z.ltb_spec MAX_SPS_COUNT (len (sps_list h))); [split; [done|]; intros [([_ E] & _) _]; lia|].
  destruct (Z.ltb_spec MAX_PPS_COUNT (len (pps_list h))); [split; [done|]; intros [(_ & [_ E] & _) _]; lia|].
  destruct (check_sizes "SPS" _ _ _) as [[]|] eqn:E3; cbn [result_bind].
  2: { split; [done|]. intros [(_ & _ & E & _) _]. apply (check_sizes_ok "SPS" _ 0) in E. congruence. }
  destruct (check_sizes "PPS" _ _ _) as [[]|] eqn:E4; cbn [result_bind].
  2: { split; [done|]. intros [(_ & _ & _ & E) _]. apply (check_sizes_ok "PPS" _ 0) in E. congruence. }
  apply check_sizes_ok in E3, E4.
  assert (E : forall l, write_sets (pps_list h) (write_u8 (len (pps_list h))
     (write_sets (sps_list h) (write_u8 (Z.lor 0xE0 (len (sps_list h))) l)))
     = l ++ [byte_of (Z.lor 0xE0 (len (sps_list h)))] ++ sets_bytes (sps_list h)
       ++ byte_of (len (pps_list h)) :: sets_bytes (pps_list h)).
  { intros l. rewrite !write_sets_bytes. unfold write_u8. by rewrite <- !app_assoc. }
  rewrite E. unfold avc_bytes. cbn [map app]. split; [by intros [= <-]|by intros [_ ->]].
Qed.

Lemma low_bits mask n z :
  in_u n z -> 0 <= n -> Z.land mask (Z.ones n) = 0 -> Z.land (Z.lor mask z) (Z.ones n) = z.
Proof.
  intros Hz Hn Hm. rewrite Z.land_lor_distr_l, Hm, Z.lor_0_l, Z.land_ones by done. by apply Z.mod_small.
Qed.

Lemma byte_lor mask z : in_u 8 mask -> in_u 8 z -> byte_val (byte_of (Z.lor mask z)) = Z.lor mask z.
Proof.
  intros Hm Hz. rewrite byte_val_of. apply Z.mod_small. change 256 with (2 ^ 8). unfold in_u in *.
  assert (Hn : 0 <= Z.lor mask z) by (apply Z.lor_nonneg; lia).
  apply (proj2 (Z.bounded_iff_bits_nonneg' 8 (Z.lor mask z) ltac:(lia) Hn)). intros i Hi.
  rewrite Z.lor_spec, (proj1 (Z.bounded_iff_bits_nonneg' 8 mask ltac:(lia) ltac:(lia)) Hm i Hi).
  by rewrite (proj1 (Z.bounded_iff_bits_nonneg' 8 z ltac:(lia) ltac:(lia)) Hz i Hi).
Qed.

(** Reading a record laid out as [to_bytes] does, whatever its first six bytes. *)
Lemma from_bytes_layout b1 b2 b3 b4 b5 sps n pps rest :
  1 <= Z.land (byte_val b5) 0x1F -> len sps = Z.land (byte_val b5) 0x1F -> 1 <= n <= MAX_PPS_COUNT -> len pps = n ->
  Forall (fun s => len s <= MAX_SPS_SIZE) sps -> Forall (fun s => len s <= MAX_PPS_SIZE) pps ->
  from_bytes ([byte_of CONFIGURATION_VERSION; b1; b2; b3; b4; b5] ++ sets_bytes sps ++
              byte_of n :: sets_bytes pps ++ rest)
  = Ok (mk_avc (byte_val b1) (byte_val b2) (byte_val b3) (Z.land (byte_val b4) 0x03) sps pps).
Proof.
  intros Hb Hs Hn Hp S P. unfold from_bytes, MAX_PPS_COUNT in *.
  set (data := [_; _; _; _; _; _] ++ _).
  assert (Hl : length data = (7 + (length (sets_bytes sps) + (length (sets_bytes pps) + length rest)))%nat).
  { unfold data. rewrite !length_app. cbn [length]. rewrite length_app. lia. }
  assert (Hsize : MAX_SPS_SIZE < 2 ^ 16 /\ MAX_PPS_SIZE < 2 ^ 16) by done.
  assert (H6 : drop 6 data = sets_bytes sps ++ byte_of n :: sets_bytes pps ++ rest) by done.
  assert (Hat : at_ data 1 = byte_val b1 /\ at_ data 2 = byte_val b2 /\ at_ data 3 = byte_val b3 /\
                at_ data 4 = byte_val b4 /\ at_ data 5 = byte_val b5).
  { unfold at_, data. cbn [app drop take]. by rewrite ?take_0, !be_val_one. }
  destruct Hat as (-> & -> & -> & -> & ->).
  destruct (Nat.ltb_spec (length data) 7); [lia|]. destruct (Nat.leb_spec (length data) 5); [lia|].
  replace (negb (at_ data 0 =? CONFIGURATION_VERSION)) with false by done.
  pose proof (Z.land_ones (byte_val b5) 5 ltac:(lia)) as L. change (Z.ones 5) with 0x1F in L. change (2 ^ 5) with 32 in L.
  pose proof (Z.mod_pos_bound (byte_val b5) 32 ltac:(lia)). unfold MAX_SPS_COUNT.
  destruct (Z.ltb_spec 31 (Z.land (byte_val b5) 31)); [lia|].
  destruct (Z.eqb_spec (Z.land (byte_val b5) 31) 0); [lia|].
  rewrite <- Hs. unfold len at 1. rewrite Nat2Z.id.
  rewrite (read_sets_written _ _ data sps _ (proj1 Hsize) 0 6 S ltac:(lia) H6). cbn [result_bind snd fst].
  set (o := (6 + length (sets_bytes sps))%nat).
  assert (Ho : drop o data = byte_of n :: sets_bytes pps ++ rest).
  { unfold o. rewrite <- drop_drop, H6. by rewrite drop_app_length. }
  assert (Hat : at_ data o = n).
  { unfold at_. rewrite Ho. cbn [take]. rewrite take_0, be_val_one, byte_val_of, Z.mod_small; lia. }
  assert (Ho1 : drop (o + 1) data = sets_bytes pps ++ rest) by (rewrite <- drop_drop, Ho; done).
  rewrite Hat. destruct (Nat.leb_spec (length data) o); [lia|].
  destruct (Z.ltb_spec 255 n); [lia|]. destruct (Z.eqb_spec n 0); [lia|].
  rewrite <- Hp at 1. unfold len. rewrite Nat2Z.id.
  by rewrite (read_sets_written _ _ data pps rest (proj2 Hsize) 0 (o + 1) P ltac:(lia) Ho1).
Qed.

Lemma avc_survives h rest :
  avc_wf h -> avc_writable h -> from_bytes (avc_bytes h ++ rest) = Ok h.
Proof.
  intros (W1 & W2 & W3 & W4) ([S1 S1'] & [P1 P1'] & S2 & P2).
  unfold avc_bytes. rewrite <- !app_assoc. cbn [map app]. unfold MAX_SPS_COUNT in *.
  assert (Hs : Z.land (byte_val (byte_of (Z.lor 0xE0 (len (sps_list h))))) 0x1F = len (sps_list h)).
  { rewrite byte_lor by (unfold in_u; change (2 ^ 8) with 256; lia). change 0x1F with (Z.ones 5).
    apply low_bits; [unfold in_u; change (2 ^ 5) with 32; lia|lia|done]. }
  assert (Hl : Z.land (length_size_minus_one h) 0x03 = length_size_minus_one h).
  { change 0x03 with (Z.ones 2). rewrite Z.land_ones by done. by apply Z.mod_small. }
  assert (H4 : Z.land (byte_val (byte_of (Z.lor 0xFC (Z.land (length_size_minus_one h) 0x03)))) 0x03
               = length_size_minus_one h).
  { unfold in_u in W4. change (2 ^ 2) with 4 in W4.
    rewrite Hl, byte_lor by (unfold in_u; change (2 ^ 8) with 256; lia). change 0x03 with (Z.ones 2).
    apply low_bits; [done|lia|done]. }
  pose proof (from_bytes_layout (byte_of (avc_profile_indication h)) (byte_of (profile_compatibility h))
    (byte_of (avc_level_indication h)) (byte_of (Z.lor 0xFC (Z.land (length_size_minus_one h) 0x03)))
    (byte_of (Z.lor 0xE0 (len (sps_list h)))) (sps_list h) (len (pps_list h)) (pps_list h) rest) as E.
  cbn [app] in E. rewrite E by (done || lia). rewrite H4, !byte_val_of, !Z.mod_small by done. by destruct h.
Qed.

Lemma at_one data i : (i < length data)%nat -> exists b, drop i data = b :: drop (S i) data /\ at_ data i = byte_val b.
Proof.
  intros H. destruct (drop i data) as [|b l] eqn:E.
  { apply (f_equal length) in E. rewrite length_drop in E. cbn in E. lia. }
  exists b. unfold at_. rewrite E. cbn [take]. rewrite take_0, be_val_one. split; [|done].
  f_equal. replace (S i) with (i + 1)%nat by lia. by rewrite <- drop_drop, E.
Qed.

Lemma at_byte data i : (i < length data)%nat -> exists b, at_ data i = byte_val b.
Proof. intros (b & _ & H)%at_one. eauto. Qed.

(** A record that is accepted is one that [to_bytes] writes, but for the six reserved
    bits of its fifth and sixth byte and what follows it. *)
Lemma avc_read data h :
  from_bytes data = Ok h ->
  avc_wf h /\ avc_writable h /\
  at_ data 0 = CONFIGURATION_VERSION /\ at_ data 1 = avc_profile_indication h /\
  at_ data 2 = profile_compatibility h /\ at_ data 3 = avc_level_indication h /\
  Z.land (at_ data 4) 0x03 = length_size_minus_one h /\ Z.land (at_ data 5) 0x1F = len (sps_list h) /\
  exists rest, drop 6 data = sets_bytes (sps_list h) ++ byte_of (len (pps_list h)) :: sets_bytes (pps_list h) ++ rest.
Proof.
  unfold from_bytes. destruct (Nat.ltb_spec (length data) 7) as [L|L]; [done|].
  destruct (Z.eqb_spec (at_ data 0) CONFIGURATION_VERSION) as [E0|]; [|done]. cbn [negb].
  destruct (Nat.leb_spec (length data) 5); [lia|].
  destruct (Z.ltb_spec MAX_SPS_COUNT (Z.land (at_ data 5) 31)) as [|Ls]; [done|].
  destruct (Z.eqb_spec (Z.land (at_ data 5) 31) 0) as [|Ns]; [done|].
  destruct (read_sets "SPS" _ _ _ _ _) as [[sps o]|] eqn:Es; [|done]. cbn [result_bind fst snd].
  apply read_sets_inv in Es as (Ls1 & Ls2 & Ls3 & Ls4); [|lia].
  destruct (Nat.leb_spec (length data) o) as [|Lo]; [done|].
  destruct (Z.ltb_spec MAX_PPS_COUNT (at_ data o)) as [|Lp]; [done|].
  destruct (Z.eqb_spec (at_ data o) 0) as [|Np]; [done|].
  destruct (read_sets "PPS" _ _ _ _ _) as [[pps last]|] eqn:Ep; [|done]. cbn [result_bind fst snd].
  apply read_sets_inv in Ep as (Lp1 & Lp2 & Lp3 & Lp4); [|lia].
  intros [= <-]. unfold avc_wf, avc_writable. cbn [avc_profile_indication profile_compatibility
    avc_level_indication length_size_minus_one sps_list pps_list].
  destruct (at_byte data 1) as [b1 E1], (at_byte data 2) as [b2 E2], (at_byte data 3) as [b3 E3],
    (at_byte data 4) as [b4 E4]; try lia.
  destruct (at_one data o) as (bo & Eo & Eb); [lia|].
  pose proof (byte_val_range b1). pose proof (byte_val_range b2). pose proof (byte_val_range b3).
  pose proof (byte_val_range bo). pose proof (Z.land_ones (at_ data 4) 2 ltac:(lia)) as L4.
  pose proof (Z.mod_pos_bound (at_ data 4) (2 ^ 2) ltac:(lia)). change (Z.ones 2) with 3 in L4.
  pose proof (Z.land_ones (at_ data 5) 5 ltac:(lia)) as L5. change (Z.ones 5) with 31 in L5.
  pose proof (Z.mod_pos_bound (at_ data 5) (2 ^ 5) ltac:(lia)).
  assert (Hs : len sps = Z.land (at_ data 5) 31) by (unfold len; rewrite Ls1, Z2Nat.id; lia).
  assert (Hp : len pps = byte_val bo) by (unfold len; rewrite Lp1, Z2Nat.id; lia).
  unfold in_u. change (2 ^ 8) with 256. change (2 ^ 2) with 4 in *.
  split_and!; try done; try lia.
  exists (drop last data). by rewrite Ls4, Eo, Hp, byte_of_val, <- (Nat.add_1_r o), Lp4.
Qed.

(** The reserved bits are set, as the format asks. *)
Definition reserved_bits_set (data : list byte) : Prop :=
  Z.land (at_ data 4) 0xFC = 0xFC /\ Z.land (at_ data 5) 0xE0 = 0xE0.

Lemma split_byte b mask low :
  Z.lor mask low = 255 -> Z.land (byte_val b) mask = mask -> Z.lor mask (Z.land (byte_val b) low) = byte_val b.
Proof.
  intros Hm Hb. rewrite <- Hb at 1. rewrite <- Z.land_lor_distr_r, Hm. by destruct b.
Qed.

Lemma avc_canonical data h :
  from_bytes data = Ok h -> reserved_bits_set data ->
  exists rest, data = avc_bytes h ++ rest.
Proof.
  intros H [R4 R5]. pose proof (avc_read _ _ H) as (W & V & E0 & E1 & E2 & E3 & E4 & E5 & rest & Hd).
  exists rest. unfold from_bytes in H. destruct (Nat.ltb_spec (length data) 7) as [L|L]; [done|]. clear H.
  unfold avc_bytes. rewrite <- E1, <- E2, <- E3, <- E4, <- E5, <- E0.
  destruct data as [|d0 [|d1 [|d2 [|d3 [|d4 [|d5 data]]]]]]; try (cbn in L; lia).
  unfold at_ in R4, R5 |- *. cbn [drop take] in R4, R5, Hd |- *. cbn [map app].
  rewrite ?take_0, ?drop_0, !be_val_one in *.
  rewrite <- (Z.land_assoc _ 3 3), Z.land_diag, !split_byte, !byte_of_val by done.
  by rewrite Hd, <- app_assoc.
Qed.

(** ** Claims *)

(** Audio and video tags survive the wire in both directions. A well-formed frame
    is read back from its tag; a tag that is accepted gives a well-formed frame from
    which the same bytes are written again. The one exception is the type byte of an
    AAC tag, which is read as a flag: only 0 and 1 come back. *)
Theorem media_tags_wire :
  (forall f, audio_wf f -> decode_audio_frame (encode_audio_frame f []) (a_timestamp f) = Ok f) /\
  (forall f, video_wf f -> decode_video_frame (encode_video_frame f []) (v_timestamp f) = Ok f) /\
  (forall buf ts f, decode_audio_frame buf ts = Ok f ->
     audio_wf f /\ (a_format f <> Aac \/ at_ buf 1 <= 1 -> encode_audio_frame f [] = buf)) /\
  (forall buf ts f, decode_video_frame buf ts = Ok f -> video_wf f /\ encode_video_frame f [] = buf).
Proof.
  split_and!; [exact audio_survives|exact video_survives| |].
  - intros buf ts f (_ & Hw & header & tail & H)%audio_decoded. split; [done|]. intros Hc.
    destruct tail as [|t data]; [by destruct H|]. case_bool_decide as Ef; destruct H as [-> H]; [|done].
    rewrite H. destruct Hc as [|Hc]; [done|]. unfold at_ in Hc. cbn [drop take] in Hc.
    rewrite take_0, be_val_one in Hc. pose proof (byte_val_range t). unfold aac_type.
    rewrite <- (byte_of_val t) at 2. do 3 f_equal. destruct (Z.eqb_spec (byte_val t) 0); lia.
  - intros buf ts f (_ & Hw & H)%video_decoded. done.
Qed.

(** The AVC decoder configuration record survives the wire in both directions.
    What [to_bytes] writes is read back, whatever follows; it refuses exactly the
    headers with no or too many parameter sets or too large ones. A record that is
    accepted gives a header that can be written, and the bytes written are those read
    when the reserved bits are set as the format asks. *)
Theorem avc_record_wire :
  (forall h bs rest, avc_wf h -> to_bytes h = Ok bs -> from_bytes (bs ++ rest) = Ok h) /\
  (forall h, is_Some (result_ok (to_bytes h)) <-> avc_writable h) /\
  (forall data h, from_bytes data = Ok h ->
     avc_wf h /\ exists bs, to_bytes h = Ok bs /\
     (reserved_bits_set data -> exists rest, data = bs ++ rest)).
Proof.
  split_and!.
  - intros h bs rest Hw [Hv ->]%to_bytes_ok. by apply avc_survives.
  - intros h. destruct (to_bytes h) as [bs|e] eqn:E; cbn [result_ok].
    + apply to_bytes_ok in E as [Hv _]. split; [done|by eexists].
    + split; [by intros [? [=]]|]. intros Hv.
      pose proof (proj2 (to_bytes_ok h _) (conj Hv eq_refl)). congruence.
  - intros data h H. pose proof (avc_read _ _ H) as (Hw & Hv & _). split; [done|].
    exists (avc_bytes h). split; [by apply to_bytes_ok|]. by apply avc_canonical.
Qed.
