(* ===== verification/RtmpIngress.v ===== *)
(** * Video tags of incoming streams

    Models the ingress half of [crates/protocols/rtmp/core/src/media.rs]: the
    header of a legacy or Enhanced RTMP video tag as the ingest path reads it, the
    guess whether an enhanced tag carries a composition time, and multi-track
    packets. Indexing a slice out of its bounds panics in the source; here it reads
    zeroes, and the theorems show that it does not happen where it would matter. *)
From Stdlib Require Import Strings.Byte.
From S2P Require Import Prelude RtmpBytes Codecs.

Record VideoIngressHeader : Set := mk_header {
  frame_type : Z;
  codec : CodecId;
  packet_type : Z;
  cts : Z;
  payload_offset : nat
}.

Inductive MultiTrackType : Set := OneTrack | ManyTracks | ManyTracksManyCodecs.

Record MultiTrackEntry : Set := mk_entry {
  me_track_id : Z;
  me_codec : CodecId;
  me_packet_type : Z;
  data_offset : nat;
  data_len : nat
}.

Record VideoMultiTrackHeader : Set := mk_multi {
  mt_frame_type : Z;
  multi_track_type : MultiTrackType;
  tracks : list MultiTrackEntry
}.

(** [payload[i]]. *)
Definition byte_at (payload : list byte) (i : nat) : Z := be_val (take 1 (drop i payload)).

(** [from_be_bytes] of [n] bytes at [i]. *)
Definition be_at (payload : list byte) (i n : nat) : Z := be_val (take n (drop i payload)).

Definition is_enhanced (payload : list byte) : bool :=
  negb (Z.land (Z.shiftr (byte_at payload 0) 4) 8 =? 0).

Definition codec_of_fourcc (code : Z) : CodecId := default UnknownCodec (codec_from_rtmp_fourcc code).

(** ** Multi-track packets *)

(** The loop of [ManyTracks]. Every turn advances by at least five bytes. *)
Fixpoint many_tracks (fuel : nat) (payload : list byte) (base_codec : CodecId) (pos : nat) : list MultiTrackEntry :=
  match fuel with
  | O => []
  | S fuel =>
      if (pos + 5 <=? length payload)%nat then
        let track_id := byte_at payload pos in
        let track_pkt_type := byte_at payload (pos + 1) in
        let track_len := Z.to_nat (be_at payload (pos + 2) 3) in
        let pos := (pos + 5)%nat in
        if (length payload <? pos + track_len)%nat then []
        else mk_entry track_id base_codec track_pkt_type pos track_len
             :: many_tracks fuel payload base_codec (pos + track_len)
      else []
  end.

(** The loop of [ManyTracksManyCodecs]. *)
Fixpoint many_tracks_many_codecs (fuel : nat) (payload : list byte) (pos : nat) : list MultiTrackEntry :=
  match fuel with
  | O => []
  | S fuel =>
      if (pos + 9 <=? length payload)%nat then
        let track_id := byte_at payload pos in
        let track_codec := codec_of_fourcc (be_at payload (pos + 1) 4) in
        let track_pkt_type := byte_at payload (pos + 5) in
        let track_len := Z.to_nat (be_at payload (pos + 6) 3) in
        let pos := (pos + 9)%nat in
        if (length payload <? pos + track_len)%nat then []
        else mk_entry track_id track_codec track_pkt_type pos track_len
             :: many_tracks_many_codecs fuel payload (pos + track_len)
      else []
  end.

Definition multi_track_type_of (b : Z) : option MultiTrackType :=
  match b with 0 => Some OneTrack | 1 => Some ManyTracks | 2 => Some ManyTracksManyCodecs | _ => None end.

Definition parse_video_multi_track (payload : list byte) : option VideoMultiTrackHeader :=
  if (length payload <? 6)%nat then None
  else if negb (is_enhanced payload) then None
  else
    let frame_type := Z.land (Z.shiftr (byte_at payload 0) 4) 7 in
    let packet_type := Z.land (byte_at payload 0) 0x0f in
    if negb (packet_type =? 5) then None
    else
      let base_codec := codec_of_fourcc (be_at payload 1 4) in
      match multi_track_type_of (byte_at payload 5) with
      | None => None
      | Some ty =>
          let pos := 6%nat in
          let fuel := length payload in
          Some (mk_multi frame_type ty
            match ty with
            | OneTrack => [mk_entry 0 base_codec 1 pos (length payload - pos)]
            | ManyTracks => many_tracks fuel payload base_codec pos
            | ManyTracksManyCodecs => many_tracks_many_codecs fuel payload pos
            end)
      end.

(** ** Does an enhanced tag carry a composition time? *)

Definition signed_i24 (v : list byte) : Z :=
  let raw := Z.lor (Z.lor (Z.shiftl (byte_at v 0) 16) (Z.shiftl (byte_at v 1) 8)) (byte_at v 2) in
  if negb (Z.land raw 0x800000 =? 0) then Z.lor raw (Z.lnot 0xFFFFFF) else raw.

(** At most eight bytes; gives the value and the number of bytes. *)
Fixpoint leb128_loop (data : list byte) (idx : nat) (value shift : Z) : option (Z * nat) :=
  match data with
  | [] => None
  | b :: data =>
      if (8 <=? idx)%nat then None
      else
        let byte := byte_val b in
        let value := Z.lor value (wrap_u 64 (Z.shiftl (Z.land byte 0x7f) shift)) in
        if Z.land byte 0x80 =? 0 then Some (value, S idx)
        else leb128_loop data (S idx) value (shift + 7)
  end.

Definition parse_leb128 (data : list byte) : option (Z * nat) := leb128_loop data 0 0 0.

Definition bit_set (header mask : Z) : bool := negb (Z.land header mask =? 0).

Definition looks_like_av1_payload (payload : list byte) : bool :=
  let header := byte_at payload 0 in
  if bit_set header 0x80 || bit_set header 0x01 then false
  else
    let obu_type := Z.land (Z.shiftr header 3) 0x0f in
    if obu_type =? 0 then false
    else
      let has_extension := bit_set header 0x04 in
      let has_size_field := bit_set header 0x02 in
      if has_extension && (length payload <=? 1)%nat then false
      else
        let pos := if has_extension then 2%nat else 1%nat in
        if negb has_size_field then true
        else
          match parse_leb128 (drop pos payload) with
          | None => false
          | Some (size, size_len) =>
              let remaining := Z.of_nat (length payload - (pos + size_len)) in
              size <=? remaining
          end.

Definition looks_like_vp8_payload (payload : list byte) : bool :=
  if (length payload <? 3)%nat then false
  else
    let frame_tag := byte_at payload 0 in
    let frame_type := Z.land frame_tag 0x01 in
    let version := Z.land (Z.shiftr frame_tag 1) 0x07 in
    if 3 <? version then false
    else if frame_type =? 0 then
      if (length payload <? 6)%nat then false
      else (byte_at payload 3 =? 0x9d) && (byte_at payload 4 =? 0x01) && (byte_at payload 5 =? 0x2a)
    else true.

Definition looks_like_vp9_payload (payload : list byte) : bool :=
  match payload with
  | [] => false
  | _ =>
      let header := byte_at payload 0 in
      if negb (Z.shiftr header 6 =? 2) then false
      else
        let profile_low := Z.land (Z.shiftr header 5) 1 in
        if profile_low =? 0 then
          if bit_set header 0x10 then false else true
        else
          let profile_high := Z.land (Z.shiftr header 4) 1 in
          if (profile_high =? 1) && bit_set header 0x08 then false else true
  end.

Definition looks_like_video_payload (codec : CodecId) (payload : list byte) : bool :=
  match payload with
  | [] => false
  | _ =>
      match codec with
      | AV1 => looks_like_av1_payload payload
      | VP8 => looks_like_vp8_payload payload
      | VP9 => looks_like_vp9_payload payload
      | H265 | H266 => true
      | _ => false
      end
  end.

Definition should_parse_enhanced_cts (codec : CodecId) (payload : list byte) : bool :=
  if (length payload <? 8)%nat then false
  else
    let with_cts_looks_valid := looks_like_video_payload codec (drop 8 payload) in
    let without_cts_looks_valid := looks_like_video_payload codec (drop 5 payload) in
    match codec with
    | H264 | H265 | H266 => true
    | VP9 | AV1 => with_cts_looks_valid && negb without_cts_looks_valid
    | VP8 => with_cts_looks_valid || negb without_cts_looks_valid
    | _ => false
    end.

(** ** Headers *)

Definition parse_enhanced_header (payload : list byte) : option VideoIngressHeader :=
  if (length payload <? 5)%nat then None
  else
    let frame_type := Z.land (Z.shiftr (byte_at payload 0) 4) 7 in
    let packet_type := Z.land (byte_at payload 0) 0x0f in
    let codec := codec_of_fourcc (be_at payload 1 4) in
    let header '(cts, payload_offset) := Some (mk_header frame_type codec packet_type cts payload_offset) in
    match packet_type with
    | 0 | 3 => header (0, 5%nat)
    | 1 =>
        header (if should_parse_enhanced_cts codec payload
                then (signed_i24 (take 3 (drop 5 payload)), 8%nat) else (0, 5%nat))
    | 5 => Some (mk_header frame_type codec 5 0 5)
    | _ => match codec with AV1 | VP8 | VP9 | UnknownCodec => header (0, 5%nat) | _ => None end
    end.

Definition parse_legacy_header (payload : list byte) (mode : DomesticCodecMode) : option VideoIngressHeader :=
  let frame_type := Z.shiftr (byte_at payload 0) 4 in
  let codec_id := Z.land (byte_at payload 0) 0x0f in
  let codec := default UnknownCodec (codec_from_rtmp_codec_id_with_mode Video codec_id mode) in
  let packet_type := byte_at payload 1 in
  let header '(cts, payload_offset) := Some (mk_header frame_type codec packet_type cts payload_offset) in
  match packet_type with
  | 0 => if (length payload <? 5)%nat then None else header (0, 5%nat)
  | 1 => if (length payload <? 5)%nat then None
         else header (signed_i24 (take 3 (drop 2 payload)), 5%nat)
  | 3 => header (0, 2%nat)
  | _ => if bool_decide (codec = UnknownCodec) then header (0, 2%nat) else None
  end.

Definition parse_video_ingress_header_with_mode (payload : list byte) (mode : DomesticCodecMode) :
    option VideoIngressHeader :=
  if (length payload <? 2)%nat then None
  else if is_enhanced payload then parse_enhanced_header payload
  else parse_legacy_header payload mode.

Definition parse_video_ingress_header (payload : list byte) : option VideoIngressHeader :=
  parse_video_ingress_header_with_mode payload Standard.

(** ** Examples of the tests *)

Example av1_without_cts :
  parse_video_ingress_header
    [x91; x61; x76; x30; x31; x12; x00; x32; x0a; x01; x00; x12; x00; x32; x01; x00; x12; x00; x12]
  = Some (mk_header 1 AV1 1 0 5).
Proof. vm_compute. reflexivity. Qed.

Example one_track :
  parse_video_multi_track [x95; x68; x76; x63; x31; x00; x01; x02; x03]
  = Some (mk_multi 1 OneTrack [mk_entry 0 H265 1 6 3]).
Proof. vm_compute. reflexivity. Qed.

(** ** Bounds *)

Lemma be_at_range payload i n : in_u (8 * Z.of_nat n) (be_at payload i n).
Proof.
  unfold be_at, in_u. pose proof (be_val_range (take n (drop i payload))) as [H1 H2]. split; [done|].
  eapply Z.lt_le_trans; [exact H2|]. apply Z.pow_le_mono_r; [done|]. rewrite length_take. lia.
Qed.

Lemma byte_at_range payload i : 0 <= byte_at payload i < 256.
Proof. exact (be_at_range payload i 1). Qed.

(** Sign extension of three bytes. *)
Lemma signed_i24_value v :
  signed_i24 v = wrap_i 24 (byte_at v 0 * 65536 + byte_at v 1 * 256 + byte_at v 2).
Proof.
  unfold signed_i24. pose proof (byte_at_range v 0). pose proof (byte_at_range v 1). pose proof (byte_at_range v 2).
  replace (Z.shiftl (byte_at v 0) 16) with (Z.shiftl (Z.shiftl (byte_at v 0) 8) 8) by (by rewrite Z.shiftl_shiftl).
  rewrite <- Z.shiftl_lor.
  rewrite (lor_shiftl (byte_at v 0)), lor_shiftl by (change (2 ^ 8) with 256; lia). change (2 ^ 8) with 256.
  set (raw := (byte_at v 0 * 256 + byte_at v 1) * 256 + byte_at v 2).
  replace (byte_at v 0 * 65536 + byte_at v 1 * 256 + byte_at v 2) with raw by lia.
  assert (R : in_u 24 raw) by (unfold in_u, raw; change (2 ^ 24) with 16777216; lia).
  change 0x800000 with (2 ^ (24 - 1)). rewrite land_pow2, negb_involutive, testbit_top by done.
  unfold in_u in R. change (2 ^ 24) with 16777216 in R. unfold wrap_i. change (2 ^ (24 - 1)) with 8388608.
  change (2 ^ 24) with 16777216. destruct (Z.leb_spec 8388608 raw); [|zdm].
  assert (L : Z.land raw (Z.lnot 0xFFFFFF) = 0).
  { change 0xFFFFFF with (Z.ones 24). rewrite <- Z.ldiff_land, Z.ldiff_ones_r by done.
    rewrite Z.shiftr_div_pow2, Z.div_small by (done || (change (2 ^ 24) with 16777216; lia)). done. }
  pose proof (Z.add_lor_land raw (Z.lnot 0xFFFFFF)) as A. rewrite L in A.
  change (Z.lnot 0xFFFFFF) with (-16777216) in *. zdm.
Qed.

(** Entries in the order of the payload, apart, and inside it. *)
Fixpoint entries_within (from : nat) (stop : nat) (l : list MultiTrackEntry) : Prop :=
  match l with
  | [] => True
  | e :: l =>
      (from < data_offset e)%nat /\ (data_offset e + data_len e <= stop)%nat /\
      entries_within (data_offset e + data_len e) stop l
  end.

Lemma many_tracks_within fuel payload base : forall pos,
  entries_within pos (length payload) (many_tracks fuel payload base pos).
Proof.
  induction fuel as [|fuel IH]; intros pos; cbn [many_tracks]; [done|].
  destruct (Nat.leb_spec (pos + 5) (length payload)); [|done].
  destruct (Nat.ltb_spec (length payload) (pos + 5 + Z.to_nat (be_at payload (pos + 2) 3))); [done|].
  cbn [entries_within data_offset data_len]. split_and!; [lia|lia|apply IH].
Qed.

Lemma many_tracks_many_codecs_within fuel payload : forall pos,
  entries_within pos (length payload) (many_tracks_many_codecs fuel payload pos).
Proof.
  induction fuel as [|fuel IH]; intros pos; cbn [many_tracks_many_codecs]; [done|].
  destruct (Nat.leb_spec (pos + 9) (length payload)); [|done].
  destruct (Nat.ltb_spec (length payload) (pos + 9 + Z.to_nat (be_at payload (pos + 6) 3))); [done|].
  cbn [entries_within data_offset data_len]. split_and!; [lia|lia|apply IH].
Qed.

(** The loops end by themselves: more fuel than bytes left changes nothing. *)
Lemma many_tracks_fuel payload base : forall fuel fuel' pos,
  (length payload < pos + fuel)%nat -> (length payload < pos + fuel')%nat ->
  many_tracks fuel payload base pos = many_tracks fuel' payload base pos.
Proof.
  induction fuel as [|fuel IH]; intros [|fuel'] pos H1 H2; cbn [many_tracks]; try done;
    destruct (Nat.leb_spec (pos + 5) (length payload)); try done; try lia.
  destruct (Nat.ltb_spec (length payload) (pos + 5 + Z.to_nat (be_at payload (pos + 2) 3))); [done|].
  f_equal. apply IH; lia.
Qed.

Lemma many_tracks_many_codecs_fuel payload : forall fuel fuel' pos,
  (length payload < pos + fuel)%nat -> (length payload < pos + fuel')%nat ->
  many_tracks_many_codecs fuel payload pos = many_tracks_many_codecs fuel' payload pos.
Proof.
  induction fuel as [|fuel IH]; intros [|fuel'] pos H1 H2; cbn [many_tracks_many_codecs]; try done;
    destruct (Nat.leb_spec (pos + 9) (length payload)); try done; try lia.
  destruct (Nat.ltb_spec (length payload) (pos + 9 + Z.to_nat (be_at payload (pos + 6) 3))); [done|].
  f_equal. apply IH; lia.
Qed.

(** LEB128: at most eight bytes of those given, and the value has seven bits for each. *)
Lemma leb128_bounds data : forall idx value shift v n,
  leb128_loop data idx value shift = Some (v, n) -> shift = 7 * Z.of_nat idx -> 0 <= value < 2 ^ shift ->
  (idx < n <= idx + length data)%nat /\ (n <= 8)%nat /\ 0 <= v < 2 ^ (7 * Z.of_nat n).
Proof.
  induction data as [|b data IH]; intros idx value shift v n; cbn [leb128_loop length]; [done|].
  destruct (Nat.leb_spec 8 idx) as [|Hi]; [done|]. intros H -> Hv.
  set (value' := Z.lor value _) in H.
  assert (Hv' : 0 <= value' < 2 ^ (7 * Z.of_nat (S idx))).
  { unfold value'. change 0x7f with (Z.ones 7). rewrite Z.land_ones by done.
    pose proof (Z.mod_pos_bound (byte_val b) (2 ^ 7) ltac:(lia)) as Rb.
    replace (7 * Z.of_nat (S idx)) with (7 + 7 * Z.of_nat idx) by lia. rewrite Z.pow_add_r by lia.
    pose proof (Z.pow_pos_nonneg 2 (7 * Z.of_nat idx)) as P.
    assert (P2 : 2 ^ 7 * 2 ^ (7 * Z.of_nat idx) <= 2 ^ 56)
      by (rewrite <- Z.pow_add_r by lia; apply Z.pow_le_mono_r; lia).
    change (2 ^ 56) with 72057594037927936 in P2.
    rewrite wrap_u_small, Z.lor_comm, lor_shiftl by
      (try lia; unfold in_u; rewrite Z.shiftl_mul_pow2 by lia; change (2 ^ 64) with 18446744073709551616; nia).
    nia. }
  destruct (Z.land (byte_val b) 128 =? 0); [injection H as <- <-; split_and!; [lia|lia|lia|apply Hv'..]|].
  apply IH in H as (H1 & H2 & H3); [|lia|]; [split_and!; lia|].
  by replace (7 * Z.of_nat idx + 7) with (7 * Z.of_nat (S idx)) by lia.
Qed.

(** What a header promises about the payload it was read from. *)
Record header_within (payload : list byte) (h : VideoIngressHeader) : Prop := {
  hw_offset : (2 <= payload_offset h <= length payload)%nat;
  hw_cts : in_i 24 (cts h);
  hw_frame_type : in_u 4 (frame_type h);
  hw_packet_type : in_u 8 (packet_type h)
}.

Lemma signed_i24_range v : in_i 24 (signed_i24 v).
Proof. rewrite signed_i24_value. by apply wrap_i_range. Qed.

Lemma enhanced_within payload h : parse_enhanced_header payload = Some h -> header_within payload h.
Proof.
  unfold parse_enhanced_header. destruct (Nat.ltb_spec (length payload) 5) as [|L]; [done|].
  assert (Hf : in_u 4 (Z.land (Z.shiftr (byte_at payload 0) 4) 7)).
  { change 7 with (Z.ones 3). rewrite Z.land_ones by done. pose proof (Z.mod_pos_bound (byte_at payload 0 ≫ 4) (2 ^ 3)).
    unfold in_u. change (2 ^ 3) with 8 in *. change (2 ^ 4) with 16. lia. }
  assert (Hp : in_u 8 (Z.land (byte_at payload 0) 0x0f)).
  { change 0x0f with (Z.ones 4). rewrite Z.land_ones by done. pose proof (Z.mod_pos_bound (byte_at payload 0) (2 ^ 4)).
    unfold in_u. change (2 ^ 4) with 16 in *. change (2 ^ 8) with 256. lia. }
  set (p := Z.land (byte_at payload 0) 15) in *. set (f := Z.land _ 7) in *. set (c := codec_of_fourcc _).
  assert (H0 : forall q, in_u 8 q -> header_within payload (mk_header f c q 0 5)).
  { intros q Hq. split; cbn; [lia|by unfold in_i|done|done]. }
  assert (H1 : header_within payload (let '(x, o) := if should_parse_enhanced_cts c payload
    then (signed_i24 (take 3 (drop 5 payload)), 8%nat) else (0, 5%nat) in mk_header f c p x o)).
  { unfold should_parse_enhanced_cts. destruct (Nat.ltb_spec (length payload) 8); [by apply H0|].
    destruct (match c with H264 | H265 | H266 => true | _ => _ end); [|by apply H0].
    split; cbn; [lia|apply signed_i24_range|done|done]. }
  intros H. destruct (if should_parse_enhanced_cts c payload then _ else _) as [x o].
  repeat case_match; simplify_eq; auto. all: by apply H0.
Qed.

Lemma legacy_within payload mode h :
  (2 <= length payload)%nat -> parse_legacy_header payload mode = Some h -> header_within payload h.
Proof.
  intros L. unfold parse_legacy_header. pose proof (byte_at_range payload 0) as R0. pose proof (byte_at_range payload 1) as R1.
  assert (Hf : in_u 4 (Z.shiftr (byte_at payload 0) 4)).
  { rewrite Z.shiftr_div_pow2 by done. unfold in_u. change (2 ^ 4) with 16. zdm. }
  set (f := Z.shiftr (byte_at payload 0) 4) in *. set (c := default _ _). set (p := byte_at payload 1) in *.
  assert (H0 : forall x o, in_i 24 x -> (2 <= o <= length payload)%nat -> header_within payload (mk_header f c p x o))
    by (intros; by split).
  intros H. destruct (Nat.ltb_spec (length payload) 5) as [L5|L5]; repeat case_match; simplify_eq;
    apply H0; try (by unfold in_i); try apply signed_i24_range; lia.
Qed.

(** ** Claims *)

(** Whatever bytes a publisher sends as a video tag, what the ingest path reads
    off them stays inside them: the header that is recognised has its payload offset
    within the tag and a composition time of 24 bits, and the tracks of a multi-track
    packet lie behind its header, in order, without overlap, and within the packet,
    however often the loop that collects them turns. *)
Theorem ingress_in_bounds (payload : list byte) (mode : DomesticCodecMode) :
  match parse_video_ingress_header_with_mode payload mode with
  | Some h => header_within payload h
  | None => True
  end /\
  match parse_video_multi_track payload with
  | Some m => entries_within 5 (length payload) (tracks m) /\ in_u 3 (mt_frame_type m)
  | None => True
  end /\
  (forall base fuel, (length payload <= fuel)%nat ->
     many_tracks fuel payload base 6 = many_tracks (length payload) payload base 6 /\
     many_tracks_many_codecs fuel payload 6 = many_tracks_many_codecs (length payload) payload 6).
Proof.
  split_and!.
  - unfold parse_video_ingress_header_with_mode. destruct (Nat.ltb_spec (length payload) 2) as [|L]; [done|].
    destruct (is_enhanced payload).
    + destruct (parse_enhanced_header payload) eqn:E; [by apply enhanced_within|done].
    + destruct (parse_legacy_header payload mode) eqn:E; [by apply legacy_within in E|done].
  - unfold parse_video_multi_track. destruct (Nat.ltb_spec (length payload) 6) as [|L]; [done|].
    destruct (is_enhanced payload); [|done]. destruct (_ =? 5); [|done].
    destruct (multi_track_type_of _) as [ty|]; [|done]. cbn [negb tracks mt_frame_type]. split.
    + destruct ty.
      * cbn [entries_within data_offset data_len]. lia.
      * pose proof (many_tracks_within (length payload) payload (codec_of_fourcc (be_at payload 1 4)) 6) as H.
        destruct (many_tracks _ _ _ _); [done|]. cbn [entries_within] in *. intuition lia.
      * pose proof (many_tracks_many_codecs_within (length payload) payload 6) as H.
        destruct (many_tracks_many_codecs _ _ _); [done|]. cbn [entries_within] in *. intuition lia.
    + change 7 with (Z.ones 3). rewrite Z.land_ones by done. by apply Z.mod_pos_bound.
  - intros base fuel Hf. split; [apply many_tracks_fuel|apply many_tracks_many_codecs_fuel]; lia.
Qed.
