(* ===== verification/RtmpMessage.v ===== *)
(** * Typed RTMP messages

    Models [crates/protocols/rtmp/core/src/message/mod.rs], [message/encoder.rs],
    [message/decoder.rs] and the transaction ids of [command.rs]: the payload of a
    message of each type, the encoder that follows its own [SetChunkSize], and the
    decoder that follows the [SetChunkSize] and [Abort] of the peer. The encoder
    can panic in the AMF writer; that is [None]. *)
From Stdlib Require Import Strings.Byte.
From S2P Require Import Prelude RtmpBytes RtmpTypes ChunkDecoder ChunkEncoder ChunkLoop Amf Amf3 Amf0 AmfValue RtmpUserControl RtmpFrames ChunkRoundtrip.

(** ** Transaction ids *)

Definition TransactionId : Type := Z.
Definition ON_STATUS : TransactionId := 0.
Definition CONNECT : TransactionId := 1.
Definition NON_RESERVED_START : TransactionId := 2.

(** [value >= 0.0]; false for [NaN]. *)
Definition f64_ge_zero (bits : Z) : bool :=
  negb ((f64_exponent bits =? 2047) && negb (f64_fraction bits =? 0)) &&
  (negb (f64_negative bits) || f64_is_zero bits).

(** Whether [value - (value as i64) as f64] is at least one half from zero. Below [2^52]
    the subtraction is exact; from there on a double is an integer, and differs from
    its cast when that saturates. *)
Definition half_or_more (bits : Z) : bool :=
  let e := f64_exponent bits in
  let m := 2 ^ 52 + f64_fraction bits in
  if e =? 2047 then f64_fraction bits =? 0
  else if e =? 0 then false
  else if 1075 <=? e then 2 ^ 63 <? m * 2 ^ (e - 1075)
  else 2 ^ (1075 - e) <=? 2 * (m mod 2 ^ (1075 - e)).

Definition round_f64_to_i64 (value : Z) : Z :=
  let truncated := f64_to_i64 value in
  if f64_ge_zero value then
    if half_or_more value then sat_i 64 (truncated + 1) else truncated
  else if half_or_more value then sat_i 64 (truncated - 1) else truncated.

Definition from_f64 (id : Z) : TransactionId := round_f64_to_i64 id.

(** ** Messages *)

Record RtmpMessageHeader : Type := mk_header { h_stream_id : Z; h_timestamp : RtmpTimestamp }.

Definition PCM : RtmpMessageHeader := mk_header 0 0.

Inductive RtmpMessage : Type :=
| MSetChunkSize (header : RtmpMessageHeader) (size : Z)
| MAbort (header : RtmpMessageHeader) (chunk_stream_id : Z)
| MAck (header : RtmpMessageHeader) (sequence_number : Z)
| MWinAckSize (header : RtmpMessageHeader) (size : Z)
| MSetPeerBandwidth (header : RtmpMessageHeader) (size : Z) (limit_type : SetPeerBandwidthLimitType)
| MUserControl (header : RtmpMessageHeader) (event : RtmpUserControlEvent)
| MAudio (header : RtmpMessageHeader) (frame : AudioFrame) (payload : list byte)
| MVideo (header : RtmpMessageHeader) (frame : VideoFrame) (payload : list byte)
| MCommand (header : RtmpMessageHeader) (amf_version : AmfVersion) (name : utf8)
    (transaction_id : TransactionId) (object : AmfValue) (args : list AmfValue)
| MData (header : RtmpMessageHeader) (amf_version : AmfVersion) (values : list AmfValue).

Definition header (m : RtmpMessage) : RtmpMessageHeader :=
  match m with
  | MSetChunkSize h _ | MAbort h _ | MAck h _ | MWinAckSize h _ | MSetPeerBandwidth h _ _
  | MUserControl h _ | MAudio h _ _ | MVideo h _ _ | MCommand h _ _ _ _ _ | MData h _ _ => h
  end.

Definition type_of_message (m : RtmpMessage) : RtmpMessageType :=
  match m with
  | MSetChunkSize _ _ => TSetChunkSize
  | MAbort _ _ => TAbort
  | MAck _ _ => TAck
  | MWinAckSize _ _ => TWinAckSize
  | MSetPeerBandwidth _ _ _ => TSetPeerBandwidth
  | MUserControl _ _ => TUserControl
  | MAudio _ _ _ => TAudio
  | MVideo _ _ _ => TVideo
  | MCommand _ VAmf0 _ _ _ _ => TCommandAmf0
  | MCommand _ VAmf3 _ _ _ _ => TCommandAmf3
  | MData _ VAmf0 _ => TDataAmf0
  | MData _ VAmf3 _ => TDataAmf3
  end.

Definition stream_begin (stream_id : Z) : RtmpMessage := MUserControl PCM (StreamBegin stream_id).
Definition win_ack_size (size : Z) : RtmpMessage := MWinAckSize PCM size.
Definition set_peer_bandwidth (size : Z) : RtmpMessage := MSetPeerBandwidth PCM size Hard.
Definition ack (total_bytes_received : Z) : RtmpMessage := MAck PCM total_bytes_received.
Definition set_chunk_size (size : Z) : RtmpMessage := MSetChunkSize PCM size.

Definition limit_type_u8 (t : SetPeerBandwidthLimitType) : Z :=
  match t with Hard => 0 | Soft => 1 | Dynamic => 2 end.

(** [AmfValue::from((version, value))]. *)
Definition amf_string (version : AmfVersion) (s : utf8) : AmfValue :=
  match version with VAmf0 => OfAmf0 (Amf0.String s) | VAmf3 => OfAmf3 (Amf3.String s) end.
Definition amf_number (version : AmfVersion) (bits : Z) : AmfValue :=
  match version with VAmf0 => OfAmf0 (Amf0.Number bits) | VAmf3 => OfAmf3 (Amf3.Double bits) end.

(** ** Encoder *)

Definition encode_command (amf_version : AmfVersion) (name : utf8) (transaction_id : TransactionId)
    (object : AmfValue) (args : list AmfValue) : writer :=
  encode_each AmfValue.encode
    (amf_string amf_version name :: amf_number amf_version (i64_to_f64 transaction_id) :: object :: args).

Definition encode_data_payload (values : list AmfValue) : writer := encode_each AmfValue.encode values.

Definition encode_message_payload (m : RtmpMessage) : writer := fun buf =>
  match m with
  | MSetChunkSize _ size => Some (write_u32 size buf)
  | MAbort _ csid => Some (write_u32 csid buf)
  | MAck _ n => Some (write_u32 n buf)
  | MWinAckSize _ size => Some (write_u32 size buf)
  | MSetPeerBandwidth _ size limit_type => Some (write_u8 (limit_type_u8 limit_type) (write_u32 size buf))
  | MAudio _ frame _ => Some (encode_audio_frame frame buf)
  | MVideo _ frame _ => Some (encode_video_frame frame buf)
  | MData _ _ values => encode_data_payload values buf
  | MUserControl _ event => Some (encode_event event buf)
  | MCommand _ version name id object args => encode_command version name id object args buf
  end.

Definition message_to_chunk (chunk_stream_id : Z) (m : RtmpMessage) : option RtmpChunk :=
  payload ← encode_message_payload m [];
  Some (mk_chunk chunk_stream_id (h_stream_id (header m)) (type_of_message m)
          (h_timestamp (header m)) payload).

(** [RtmpMessageEncoder] holds a chunk encoder. The new chunk size is used for what
    follows the message that announces it. *)
Definition message_encode (e : RtmpChunkEncoder) (chunk_stream_id : Z) (m : RtmpMessage)
    (buf : list byte) : option (RtmpChunkEncoder * list byte) :=
  chunk ← message_to_chunk chunk_stream_id m;
  let '(e, buf) := ChunkEncoder.encode e chunk buf in
  Some (match m with MSetChunkSize _ size => encoder_set_chunk_size e size | _ => e end, buf).

(** ** Decoder *)

(** [while !buf.is_empty()]: every value takes a byte. *)
Fixpoint decode_amf_values_loop (fuel : nat) (version : AmfVersion) (buf : list byte) :
    result Error (list AmfValue) :=
  match buf with
  | [] => Ok []
  | _ =>
      match fuel with
      | O => Err out_of_fuel
      | S fuel =>
          v <-? AmfValue.decode version buf ;;
          values <-? decode_amf_values_loop fuel version (drop (fst v) buf) ;;
          Ok (snd v :: values)
      end
  end.

Definition decode_amf_values (version : AmfVersion) (buf : list byte) : result Error (list AmfValue) :=
  decode_amf_values_loop (length buf) version buf.

Definition decode_command (amf_version : AmfVersion) (h : RtmpMessageHeader) (payload : list byte) :
    result Error RtmpMessage :=
  let '(buf, amf_version) :=
    match amf_version, payload with
    | VAmf3, x00 :: buf => (buf, VAmf0)
    | _, _ => (payload, amf_version)
    end in
  name <-? AmfValue.decode amf_version buf ;;
  name_str <-? expect_str (snd name) ;;
  let buf := drop (fst name) buf in
  id <-? AmfValue.decode amf_version buf ;;
  transaction_id <-? expect_number (snd id) ;;
  let buf := drop (fst id) buf in
  object <-? AmfValue.decode amf_version buf ;;
  let buf := drop (fst object) buf in
  args <-? decode_amf_values amf_version buf ;;
  Ok (MCommand h amf_version name_str (from_f64 transaction_id) (snd object) args).

Definition limit_type_of (t : Z) : result Error SetPeerBandwidthLimitType :=
  match t with
  | 0 => Ok Hard
  | 1 => Ok Soft
  | 2 => Ok Dynamic
  | _ => Err (invalid_data ("invalid limit type: " +:+ pretty t))
  end.

Definition decode_rtmp_chunk_to_message (chunk : RtmpChunk) : result Error RtmpMessage :=
  let h := mk_header (message_stream_id chunk) (timestamp chunk) in
  let p := payload chunk in
  match message_type chunk with
  | TSetChunkSize =>
      size <-? snd (read_u32 p) ;; Ok (MSetChunkSize h (RtmpChunkSize_saturating_new size))
  | TAbort =>
      id <-? snd (read_u32 p) ;;
      csid <-? ok_or (RtmpChunkStreamId_new id) (invalid_data "invalid chunk stream ID") ;;
      Ok (MAbort h csid)
  | TAck => n <-? snd (read_u32 p) ;; Ok (MAck h n)
  | TWinAckSize => size <-? snd (read_u32 p) ;; Ok (MWinAckSize h size)
  | TSetPeerBandwidth =>
      snd ((size <- read_u32 ;;
            t <- RtmpBytes.read_u8 ;;
            limit_type <- se_of (limit_type_of t) ;;
            se_ret (MSetPeerBandwidth h size limit_type)) p)
  | TUserControl => event <-? decode_user_control p ;; Ok (MUserControl h event)
  | TAudio => frame <-? decode_audio_frame p (h_timestamp h) ;; Ok (MAudio h frame p)
  | TVideo => frame <-? decode_video_frame p (h_timestamp h) ;; Ok (MVideo h frame p)
  | TDataAmf0 => values <-? decode_amf_values VAmf0 p ;; Ok (MData h VAmf0 values)
  | TDataAmf3 => values <-? decode_amf_values VAmf3 p ;; Ok (MData h VAmf3 values)
  | TCommandAmf0 => decode_command VAmf0 h p
  | TCommandAmf3 => decode_command VAmf3 h p
  | TAggregate => Ok (MData h VAmf0 [])
  end.

Record RtmpMessageDecoder : Type := mk_message_decoder {
  chunk_decoder : RtmpChunkDecoder;
  md_buf : Buf
}.

Definition message_decoder_default : RtmpMessageDecoder := mk_message_decoder decoder_default buf_default.

Definition feed_buf (s : RtmpMessageDecoder) (buf : list byte) : RtmpMessageDecoder :=
  mk_message_decoder (chunk_decoder s) (buf_feed (md_buf s) buf).

(** What a message of the peer does to the chunk decoder. *)
Definition follow (m : RtmpMessage) (d : RtmpChunkDecoder) : RtmpChunkDecoder :=
  match m with
  | MSetChunkSize _ size => decoder_set_chunk_size d size
  | MAbort _ csid => decoder_reset_chunk_stream d csid
  | _ => d
  end.

(** The loop; every chunk takes a byte. *)
Fixpoint message_decode_loop (fuel : nat) (s : RtmpMessageDecoder) :
    RtmpMessageDecoder * result Error (option RtmpMessage) :=
  match fuel with
  | O => (s, Err out_of_fuel)
  | S fuel =>
      match ChunkDecoder.decode (chunk_decoder s) (buf_get (md_buf s)) with
      | (d, Ok (size, maybe_chunk)) =>
          let s := mk_message_decoder d (buf_advance (md_buf s) size) in
          match maybe_chunk with
          | None => message_decode_loop fuel s
          | Some chunk =>
              match decode_rtmp_chunk_to_message chunk with
              | Ok message => (mk_message_decoder (follow message d) (md_buf s), Ok (Some message))
              | Err e => (s, Err e)
              end
          end
      | (d, Err e) =>
          (mk_message_decoder d (md_buf s), if decide (kind e = InsufficientBuffer) then Ok None else Err e)
      end
  end.

Definition message_decode (s : RtmpMessageDecoder) : RtmpMessageDecoder * result Error (option RtmpMessage) :=
  message_decode_loop (S (length (buf_get (md_buf s)))) s.

(** * RTMP messages on a connection

    Theorems on RtmpMessage: payloads of well-formed messages are read back, decoding
    any payload ends, and a list of messages reaches the other end of a connection
    through both encoders and decoders, with the chunk size changing on the way. *)

(** ** Transaction ids *)

Lemma f64_to_i64_of n : Z.abs n < 2 ^ 53 -> f64_to_i64 (i64_to_f64 n) = n.
Proof.
  intros Hb. destruct (Z.eq_dec n 0) as [->|Hn]; [done|].
  destruct (millis_roundtrip n Hb) as (_ & _ & H). unfold millis_of in H.
  destruct (f64_is_zero _); [congruence|done].
Qed.

(** An id below [2^53] in size is not changed by its way through a double. *)
Lemma from_f64_of n : Z.abs n < 2 ^ 53 -> in_u 64 (i64_to_f64 n) /\ from_f64 (i64_to_f64 n) = n.
Proof.
  intros Hb. split; [by apply millis_roundtrip|]. unfold from_f64, round_f64_to_i64.
  rewrite f64_to_i64_of by done. destruct (Z.eq_dec n 0) as [->|Hn]; [done|].
  assert (H : half_or_more (i64_to_f64 n) = false); [|by rewrite H; destruct (f64_ge_zero _)].
  destruct (i64_to_f64_parts n Hn Hb) as (Hl & _ & _ & He & Hf). unfold half_or_more. rewrite He, Hf.
  set (l := Z.log2 (Z.abs n)) in *. rewrite !(proj2 (Z.eqb_neq _ _)) by lia.
  destruct (Z.leb_spec 1075 (l + 1023)).
  - replace l with 52 by lia. apply Z.ltb_ge. change (2 ^ (52 - 52)) with 1. change (2 ^ (52 + 1023 - 1075)) with 1.
    change (2 ^ 53) with 9007199254740992 in Hb. lia.
  - replace (1075 - (l + 1023)) with (52 - l) by lia.
    rewrite Z.mod_mul by (apply Z.pow_nonzero; lia). apply Z.leb_gt. apply Z.pow_pos_nonneg; lia.
Qed.

Example rounds_half_away : map round_f64_to_i64 [0x3FE0000000000000; 0xBFE0000000000000; 0x3FDFFFFFFFFFFFFF] = [1; -1; 0].
Proof. reflexivity. Qed.

(** ** Well-formed messages *)

Definition of_version (version : AmfVersion) (v : AmfValue) : Prop :=
  version_of v = version /\ AmfValue.encodable v = true.

Definition message_wf (m : RtmpMessage) : Prop :=
  in_u 32 (h_stream_id (header m)) /\ in_u 32 (h_timestamp (header m)) /\
  match m with
  | MSetChunkSize _ size => chunk_size_wf size
  | MAbort _ csid => csid_wf csid
  | MAck _ n => in_u 32 n
  | MWinAckSize _ size | MSetPeerBandwidth _ size _ => in_u 32 size
  | MUserControl _ event => event_wf event
  | MAudio h frame p => audio_wf frame /\ a_timestamp frame = h_timestamp h /\ p = encode_audio_frame frame []
  | MVideo h frame p => video_wf frame /\ v_timestamp frame = h_timestamp h /\ p = encode_video_frame frame []
  | MCommand _ version name id object args =>
      AmfValue.encodable (amf_string version name) = true /\ Z.abs id < 2 ^ 53 /\
      of_version version object /\ Forall (of_version version) args
  | MData _ version values => Forall (of_version version) values
  end.

(** ** AMF sequences *)

Lemma emits_total (f : list byte -> list byte) : (forall buf, f buf = buf ++ f []) -> emits (fun buf => Some (f buf)) (f []).
Proof. intros H buf. by rewrite H. Qed.

Lemma amf_values_fuel version : forall fuel fuel' buf,
  (length buf <= fuel)%nat -> (length buf <= fuel')%nat ->
  decode_amf_values_loop fuel version buf = decode_amf_values_loop fuel' version buf.
Proof.
  induction fuel as [|fuel IH]; intros [|fuel'] [|b buf] H1 H2; cbn [decode_amf_values_loop length] in *; try done; try lia.
  destruct (AmfValue.decode version (b :: buf)) as [[n v]|e] eqn:E; [|done]. cbn [result_bind fst snd].
  apply amf_decode_shrinks in E. rewrite (IH fuel'); [done|rewrite length_drop; cbn in *; lia..].
Qed.

(** The loop without fuel. *)
Lemma decode_amf_values_unfold version b buf :
  decode_amf_values version (b :: buf) =
    (v <-? AmfValue.decode version (b :: buf) ;;
     values <-? decode_amf_values version (drop (fst v) (b :: buf)) ;;
     Ok (snd v :: values)).
Proof.
  unfold decode_amf_values at 1. cbn [decode_amf_values_loop length].
  destruct (AmfValue.decode version (b :: buf)) as [[n v]|e] eqn:E; [|done]. cbn [result_bind fst snd].
  apply amf_decode_shrinks in E. unfold decode_amf_values.
  rewrite (amf_values_fuel _ _ (length (drop n (b :: buf)))); [done|rewrite length_drop; cbn in *; lia|lia].
Qed.

Lemma amf_values_survive version values :
  Forall (of_version version) values ->
  exists bs, emits (encode_each AmfValue.encode values) bs /\ decode_amf_values version bs = Ok values.
Proof.
  intros H. induction H as [|v values Hv Hvs IH]; [|destruct Hv as [<- Hv]; destruct IH as (bs & E & D)].
  - exists []. split; [|done]. intros buf. cbn. by rewrite app_nil_r.
  - destruct (value_survives v Hv) as (b & Eb & Db). exists (b ++ bs). split.
    + apply emits_bind; [exact Eb|exact E].
    + assert (Hn : (1 <= length b)%nat) by (pose proof (amf_decode_shrinks _ _ _ _ (Db [])); lia).
      destruct b as [|b0 b]; [cbn in Hn; lia|]. cbn [app].
      rewrite decode_amf_values_unfold. rewrite (app_comm_cons b bs b0), Db. cbn [result_bind fst snd].
      rewrite drop_app_length, D. done.
Qed.

Lemma amf_string_str version s : expect_str (amf_string version s) = Ok s.
Proof. by destruct version. Qed.

Lemma amf_number_num version bits : expect_number (amf_number version bits) = Ok bits.
Proof. by destruct version. Qed.

Lemma amf_number_of_version version bits : in_u 64 bits -> of_version version (amf_number version bits).
Proof.
  unfold in_u. intros H. destruct version; (split; [done|]); cbn; unfold word;
    apply andb_true_iff; split; [apply Z.leb_le|apply Z.ltb_lt|apply Z.leb_le|apply Z.ltb_lt]; lia.
Qed.

Lemma amf3_zero l : exists n, AmfValue.decode VAmf3 (x00 :: l) = Ok (n, OfAmf3 Amf3.Undefined).
Proof. eexists. reflexivity. Qed.

(** An AMF3 command does not start with the zero byte that announces AMF0. *)
Lemma amf3_name_first s bs :
  (forall rest, AmfValue.decode VAmf3 (bs ++ rest) = Ok (length bs, OfAmf3 (Amf3.String s))) ->
  forall rest, match bs ++ rest with x00 :: _ => False | _ => True end.
Proof.
  intros D rest. specialize (D rest). destruct (bs ++ rest) as [|b l]; [done|].
  destruct b; try exact I. destruct (amf3_zero l) as [n E]. congruence.
Qed.

Lemma command_survives h version name id object args :
  AmfValue.encodable (amf_string version name) = true -> Z.abs id < 2 ^ 53 ->
  of_version version object -> Forall (of_version version) args ->
  exists bs, emits (encode_command version name id object args) bs /\
    decode_command version h bs = Ok (MCommand h version name id object args).
Proof.
  intros Hn Hid [Hv Ho] Ha. destruct (from_f64_of id Hid) as [Hr Hf].
  assert (Hvs : version_of (amf_string version name) = version) by (by destruct version).
  destruct (value_survives _ Hn) as (bn & En & Dn). rewrite Hvs in Dn.
  destruct (amf_number_of_version version _ Hr) as [Hvi Hi].
  destruct (value_survives _ Hi) as (bi & Ei & Di). rewrite Hvi in Di.
  destruct (value_survives _ Ho) as (bo & Eo & Do). rewrite Hv in Do.
  destruct (amf_values_survive _ _ Ha) as (ba & Ea & Da).
  exists (bn ++ bi ++ bo ++ ba). split.
  - unfold encode_command. repeat apply emits_bind; [exact En|exact Ei|exact Eo|exact Ea].
  - unfold decode_command.
    assert (E : match version, bn ++ bi ++ bo ++ ba with
      | VAmf3, x00 :: buf => (buf, VAmf0) | _, _ => (bn ++ bi ++ bo ++ ba, version) end
      = (bn ++ bi ++ bo ++ ba, version)).
    { destruct version; [done|]. pose proof (amf3_name_first name bn Dn (bi ++ bo ++ ba)) as F.
      destruct (bn ++ bi ++ bo ++ ba) as [|[] l]; done. }
    rewrite E, Dn. cbn [result_bind fst snd]. rewrite amf_string_str. cbn [result_bind].
    rewrite drop_app_length, Di. cbn [result_bind fst snd]. rewrite amf_number_num. cbn [result_bind].
    rewrite drop_app_length, Do. cbn [result_bind fst snd]. rewrite drop_app_length, Da. cbn [result_bind].
    by rewrite Hf.
Qed.

(** ** Payloads *)

Lemma chunk_size_survives size : chunk_size_wf size -> in_u 32 size /\ RtmpChunkSize_saturating_new size = size.
Proof.
  unfold chunk_size_wf, RtmpChunkSize_saturating_new, CHUNK_SIZE_MIN, CHUNK_SIZE_MAX, in_u.
  change (2 ^ 32) with 4294967296. lia.
Qed.

Lemma read_be4 v : in_u 32 v -> read_u32 (be_bytes 4 v) = ([], Ok v).
Proof. intros H. rewrite <- (app_nil_r (be_bytes 4 v)). by apply read_u32_write. Qed.

(** A well-formed message is encoded without a panic, and its payload is read back. *)
Lemma payload_survives m :
  message_wf m ->
  exists bs, emits (encode_message_payload m) bs /\
    forall csid, decode_rtmp_chunk_to_message
      (mk_chunk csid (h_stream_id (header m)) (type_of_message m) (h_timestamp (header m)) bs) = Ok m.
Proof.
  intros (Hs & Ht & H). unfold decode_rtmp_chunk_to_message.
  destruct m as [h size|h csid|h n|h size|h size lt|h ev|h f p|h f p|h ver name id object args|h ver values];
    destruct h as [hs ht]; cbn [header type_of_message message_type payload message_stream_id timestamp
      h_stream_id h_timestamp] in *; unfold encode_message_payload.
  - destruct (chunk_size_survives _ H) as [H1 H2]. exists (be_bytes 4 size). split; [by intros buf|].
    intros csid. rewrite read_be4 by done. cbn [snd result_bind]. by rewrite H2.
  - assert (H1 : in_u 32 csid) by (unfold csid_wf in H; unfold in_u; change (2 ^ 32) with 4294967296; lia).
    exists (be_bytes 4 csid). split; [by intros buf|].
    intros id. rewrite read_be4 by done. cbn [snd result_bind]. by rewrite RtmpChunkStreamId_new_wf.
  - exists (be_bytes 4 n). split; [by intros buf|]. intros id. by rewrite read_be4.
  - exists (be_bytes 4 size). split; [by intros buf|]. intros id. by rewrite read_be4.
  - exists (be_bytes 4 size ++ [byte_of (limit_type_u8 lt)]). split.
    { intros buf. unfold write_u8, write_u32. by rewrite <- app_assoc. }
    intros id. unfold se_bind at 1. rewrite read_u32_write by done.
    unfold se_bind at 1. rewrite read_u8_write by (by destruct lt). by destruct lt.
  - exists (encode_event ev []). split.
    + apply (emits_total (encode_event ev)). intros buf. destruct ev; cbn; unfold write_u32, write_u16; by rewrite <- !app_assoc.
    + intros id. cbn [app]. pose proof (user_control_reads ev [] H) as E. rewrite app_nil_r in E. by rewrite E.
  - destruct H as (H1 & H2 & ->). exists (encode_audio_frame f []). split.
    + apply (emits_total (encode_audio_frame f)). intros buf. unfold encode_audio_frame, write_u8.
      destruct (bool_decide _); by rewrite <- !app_assoc.
    + intros id. rewrite <- H2, audio_survives by done. done.
  - destruct H as (H1 & H2 & ->). exists (encode_video_frame f []). split.
    + apply (emits_total (encode_video_frame f)). intros buf. unfold encode_video_frame, write_u8, write_i24.
      destruct (v_avc_packet_type f); by rewrite <- !app_assoc.
    + intros id. rewrite <- H2, video_survives by done. done.
  - destruct H as (H1 & H2 & H3 & H4).
    destruct (command_survives (mk_header hs ht) ver name id object args H1 H2 H3 H4) as (bs & E & D).
    exists bs. split; [exact E|]. intros csid. by destruct ver.
  - destruct (amf_values_survive ver values H) as (bs & E & D).
    exists bs. split; [exact E|]. intros csid. by destruct ver; cbn [type_of_message message_type]; rewrite D.
Qed.

(** ** Decoding ends *)

Lemma amf_values_kind version : forall fuel buf e,
  (length buf <= fuel)%nat -> decode_amf_values_loop fuel version buf = Err e -> kind e <> InvalidState.
Proof.
  induction fuel as [|fuel IH]; intros [|b buf] e Hf; cbn [decode_amf_values_loop length] in *; try done; try lia.
  destruct (AmfValue.decode version (b :: buf)) as [[n v]|x] eqn:E; cbn [result_bind fst snd].
  2: { intros [= <-]. by eapply amf_decode_kind. }
  apply amf_decode_shrinks in E.
  destruct (decode_amf_values_loop _ _ _) as [|x] eqn:Er; cbn [result_bind]; [done|]. intros [= <-].
  eapply IH; [|exact Er]. rewrite length_drop. cbn in *. lia.
Qed.

Lemma read_fixed_kind {A} n (f : list byte -> A) p r e : read_fixed n f p = (r, Err e) -> kind e <> InvalidState.
Proof. intros [-> _]%read_fixed_inv. done. Qed.

(** Every error of a command comes from its AMF values. *)
Lemma decode_command_kind version h p e : decode_command version h p = Err e -> kind e <> InvalidState.
Proof.
  unfold decode_command.
  assert (Hs : forall v x, expect_str v = Err x -> kind x <> InvalidState)
    by (intros v x; unfold expect_str; repeat case_match; intros; simplify_eq; done).
  assert (Hn : forall v x, expect_number v = Err x -> kind x <> InvalidState)
    by (intros v x; unfold expect_number; repeat case_match; intros; simplify_eq; done).
  destruct (match version, p with VAmf3, x00 :: buf => (buf, VAmf0) | _, _ => (p, version) end) as [buf ver].
  unfold decode_amf_values.
  repeat match goal with
  | |- result_bind ?r _ = Err _ -> _ => let E := fresh in destruct r eqn:E; cbn [result_bind]
  end; intros [= <-]; eauto using amf_decode_kind. by eapply amf_values_kind; [|eassumption].
Qed.

Lemma media_u8_kind p r e : RtmpFrames.read_u8 p = (r, Err e) -> kind e <> InvalidState.
Proof. unfold RtmpFrames.read_u8, check_len. destruct (_ <? _)%nat; [by intros [= _ <-]|done]. Qed.

Lemma media_i24_kind p r e : RtmpFrames.read_i24 p = (r, Err e) -> kind e <> InvalidState.
Proof. unfold RtmpFrames.read_i24, check_len. destruct (_ <? _)%nat; [by intros [= _ <-]|done]. Qed.

Lemma audio_kind buf ts e : decode_audio_frame buf ts = Err e -> kind e <> InvalidState.
Proof.
  unfold decode_audio_frame, se_bind, se_ret, se_get.
  destruct (RtmpFrames.read_u8 buf) as [p1 [v|x]] eqn:E1; [|intros [= <-]; by eapply media_u8_kind].
  destruct (bool_decide _); [|done].
  destruct (RtmpFrames.read_u8 p1) as [p2 [w|x]] eqn:E2; [done|]. intros [= <-]. by eapply media_u8_kind.
Qed.

Lemma video_kind buf ts e : decode_video_frame buf ts = Err e -> kind e <> InvalidState.
Proof.
  unfold decode_video_frame, se_bind, se_ret, se_get, se_of.
  destruct (RtmpFrames.read_u8 buf) as [p1 [v|x]] eqn:E1; [|intros [= <-]; by eapply media_u8_kind].
  destruct (frame_type_of _) as [ft|x] eqn:Ef; [|intros [= <-]].
  2: { unfold frame_type_of in Ef. repeat case_match; by simplify_eq. }
  destruct (_ && _); [|done].
  destruct (RtmpFrames.read_u8 p1) as [p2 [w|x]] eqn:E2; [|intros [= <-]; by eapply media_u8_kind].
  destruct (avc_packet_type_of w) as [t|x] eqn:Et; [|intros [= <-]].
  2: { unfold avc_packet_type_of in Et. repeat case_match; by simplify_eq. }
  destruct (RtmpFrames.read_i24 p2) as [p3 [c|x]] eqn:E3; [done|]. intros [= <-]. by eapply media_i24_kind.
Qed.

Lemma user_control_kind buf e : decode_user_control buf = Err e -> kind e <> InvalidState.
Proof.
  unfold decode_user_control, decode_event, se_bind at 1.
  destruct (read_u16 buf) as [p [ty|x]] eqn:E; [|intros [= <-]; by eapply read_fixed_kind].
  unfold se_bind, se_ret, se_err.
  destruct (read_u32 p) as [p2 [v|x]] eqn:E2; [destruct (read_u32 p2) as [p3 [w|x]] eqn:E3|];
    intros H; repeat case_match; simplify_eq/=; try done; by eapply read_fixed_kind.
Qed.

(** Whatever the chunk holds, the conversion ends with a message or with an error about
    the input; [InvalidState] stands for fuel that ran out. *)
Lemma to_message_kind c e : decode_rtmp_chunk_to_message c = Err e -> kind e <> InvalidState.
Proof.
  assert (Hr : forall r x, snd (read_u32 r) = Err x -> kind x <> InvalidState).
  { intros r x. destruct (read_u32 r) as [p o] eqn:E. cbn. intros ->. by eapply read_fixed_kind. }
  assert (Hb : forall A (r : result Error A) (k : A -> result Error RtmpMessage) x,
    (forall x, r = Err x -> kind x <> InvalidState) -> (forall a x, k a = Err x -> kind x <> InvalidState) ->
    result_bind r k = Err x -> kind x <> InvalidState).
  { intros A [a|y] k x H1 H2; cbn; [apply H2|]. intros [= <-]. auto. }
  unfold decode_rtmp_chunk_to_message, decode_amf_values.
  destruct (message_type c); try apply decode_command_kind; try done; try (apply Hb; [apply Hr|done]).
  - apply Hb; [apply Hr|]. intros id x. apply Hb; [|done]. unfold ok_or.
    destruct (RtmpChunkStreamId_new _); [done|]. by intros y [= <-].
  - apply Hb; [|done]. apply user_control_kind.
  - unfold se_bind, se_of, se_ret. destruct (read_u32 _) as [p [v|x]] eqn:E1.
    + destruct (RtmpBytes.read_u8 p) as [p2 [t|x]] eqn:E2; [|intros [= <-]; by eapply read_fixed_kind].
      unfold limit_type_of. intros H; repeat case_match; by simplify_eq/=.
    + intros [= <-]. by eapply read_fixed_kind.
  - apply Hb; [|done]. intros x. apply audio_kind.
  - apply Hb; [|done]. intros x. apply video_kind.
  - apply Hb; [|done]. intros x Hx. by eapply amf_values_kind; [|exact Hx].
  - apply Hb; [|done]. intros x Hx. by eapply amf_values_kind; [|exact Hx].
Qed.

(** ** The decoder of messages and the loop of ChunkLoop *)

(** What [message_decode] does with a chunk, as a handler of the loop: convert, follow,
    keep. *)
Definition on_message_chunk (c : RtmpChunk) : SE (RtmpChunkDecoder * list RtmpMessage) Error unit :=
  fun s =>
    match decode_rtmp_chunk_to_message c with
    | Ok m => ((follow m (fst s), snd s ++ [m]), Ok tt)
    | Err e => (s, Err e)
    end.

Definition message_pump := pump_all on_message_chunk (fun e => e).

(** Call [decode] until there is no further message. *)
Fixpoint read_messages (fuel : nat) (s : RtmpMessageDecoder) :
    RtmpMessageDecoder * list RtmpMessage * result Error unit :=
  match fuel with
  | O => (s, [], Ok tt)
  | S fuel =>
      match message_decode s with
      | (s, Ok (Some m)) => let '(s, l, r) := read_messages fuel s in (s, m :: l, r)
      | (s, Ok None) => (s, [], Ok tt)
      | (s, Err e) => (s, [], Err e)
      end
  end.

Definition md_view (s : RtmpMessageDecoder) : list byte := buf_get (md_buf s).

Lemma message_loop_fuel : forall fuel fuel' s,
  buf_wf (md_buf s) -> (length (md_view s) < fuel)%nat -> (length (md_view s) < fuel')%nat ->
  message_decode_loop fuel s = message_decode_loop fuel' s.
Proof.
  induction fuel as [|fuel IH]; intros [|fuel'] s Hw H1 H2; try lia. cbn [message_decode_loop].
  destruct (ChunkDecoder.decode _ _) as [d [[n [c|]]|e]] eqn:E; try done.
  destruct (decode_ok_app _ _ _ [] _ _ E) as [_ Hn].
  destruct (buf_advance_view (md_buf s) n Hw ltac:(lia)) as [Hw' Hv].
  apply IH; [done|unfold md_view in *; cbn [md_buf]; rewrite Hv, length_drop; lia..].
Qed.

(** One turn of the loop. *)
Lemma message_decode_unfold s :
  buf_wf (md_buf s) ->
  message_decode s =
    match ChunkDecoder.decode (chunk_decoder s) (md_view s) with
    | (d, Ok (size, maybe_chunk)) =>
        let s := mk_message_decoder d (buf_advance (md_buf s) size) in
        match maybe_chunk with
        | None => message_decode s
        | Some chunk =>
            match decode_rtmp_chunk_to_message chunk with
            | Ok message => (mk_message_decoder (follow message d) (md_buf s), Ok (Some message))
            | Err e => (s, Err e)
            end
        end
    | (d, Err e) =>
        (mk_message_decoder d (md_buf s), if decide (kind e = InsufficientBuffer) then Ok None else Err e)
    end.
Proof.
  intros Hw. unfold message_decode at 1. cbn [message_decode_loop]. fold (md_view s).
  destruct (ChunkDecoder.decode _ _) as [d [[n [c|]]|e]] eqn:E; try done.
  destruct (decode_ok_app _ _ _ [] _ _ E) as [_ Hn].
  destruct (buf_advance_view (md_buf s) n Hw ltac:(unfold md_view in *; lia)) as [Hw' Hv].
  apply message_loop_fuel; [done|unfold md_view in *; cbn [md_buf]; rewrite ?Hv, ?length_drop..].
  - lia.
  - lia.
Qed.

Lemma read_messages_pump : forall n k s log,
  buf_wf (md_buf s) -> (length (md_view s) < n)%nat -> (length (md_view s) < k)%nat ->
  let '(s', l, r) := read_messages k s in
  message_pump (chunk_decoder s, log) (md_view s) = ((chunk_decoder s', log ++ l), md_view s', r) /\ buf_wf (md_buf s').
Proof.
  induction n as [|n IH]; intros k s log Hw Hn Hk; [lia|]. destruct k as [|k]; [lia|].
  cbn [read_messages]. rewrite (message_decode_unfold s Hw). unfold message_pump. rewrite pump_unfold.
  cbn [get_decoder log_has_decoder fst].
  destruct (ChunkDecoder.decode _ _) as [d [[sz c]|e]] eqn:E; cbn zeta.
  2: { destruct (decide _); cbn; by rewrite app_nil_r. }
  destruct (decode_ok_app _ _ _ [] _ _ E) as [_ Hsz].
  destruct (buf_advance_view (md_buf s) sz Hw ltac:(unfold md_view in *; lia)) as [Hw' Hv].
  assert (Hl : (length (drop sz (md_view s)) < length (md_view s))%nat) by (rewrite length_drop; lia).
  fold (md_view s) in Hv. set (b := buf_advance (md_buf s) sz) in *. destruct c as [c|].
  - unfold on_message_chunk at 1. cbn [set_decoder log_has_decoder fst snd].
    destruct (decode_rtmp_chunk_to_message c) as [m|e].
    + specialize (IH k (mk_message_decoder (follow m d) b) (log ++ [m]) Hw').
      unfold md_view at 1 2 3 in IH. cbn [md_buf chunk_decoder] in *. rewrite Hv in IH.
      specialize (IH ltac:(lia) ltac:(lia)).
      destruct (read_messages k _) as [[s' l] r]. destruct IH as [IH1 IH2]. split; [|done].
      unfold message_pump in IH1. rewrite IH1. by rewrite <- app_assoc.
    + split; [|done]. unfold md_view at 2. cbn [md_buf chunk_decoder]. by rewrite Hv, app_nil_r.
  - specialize (IH (S k) (mk_message_decoder d b) log Hw').
    unfold md_view at 1 2 3 in IH. cbn [md_buf chunk_decoder] in *. rewrite Hv in IH.
    specialize (IH ltac:(lia) ltac:(lia)). exact IH.
Qed.

(** ** A connection *)

(** Segments as they arrive: feed one, read what is complete, go on. *)
Fixpoint receive_messages (s : RtmpMessageDecoder) (segments : list (list byte)) :
    RtmpMessageDecoder * list RtmpMessage * result Error unit :=
  match segments with
  | [] => (s, [], Ok tt)
  | x :: rest =>
      let s := feed_buf s x in
      match read_messages (S (length (md_view s))) s with
      | (s, l, Ok _) => let '(s, l', r) := receive_messages s rest in (s, l ++ l', r)
      | (s, l, Err e) => (s, l, Err e)
      end
  end.

Lemma receive_messages_pump segments : forall s log,
  buf_wf (md_buf s) ->
  let '(s', l, r) := receive_messages s segments in
  pump_segments on_message_chunk (fun e => e) (chunk_decoder s, log) (md_view s) segments
  = ((chunk_decoder s', log ++ l), md_view s', r) /\ buf_wf (md_buf s').
Proof.
  induction segments as [|x rest IH]; intros s log Hw; cbn [receive_messages pump_segments].
  { by rewrite app_nil_r. }
  destruct (buf_feed_view (md_buf s) x Hw) as [Hw' Hv].
  pose proof (read_messages_pump (S (length (md_view (feed_buf s x)))) (S (length (md_view (feed_buf s x))))
    (feed_buf s x) log Hw' ltac:(lia) ltac:(lia)) as P.
  destruct (read_messages _ _) as [[s1 l] r]. destruct P as [P Hw1].
  unfold message_pump in P. unfold md_view at 1 in P. cbn [feed_buf md_buf chunk_decoder] in P.
  rewrite Hv in P. fold (md_view s) in P. rewrite P. destruct r as [[]|e]; [|done].
  specialize (IH s1 (log ++ l) Hw1). destruct (receive_messages s1 rest) as [[s2 l2] r2].
  by rewrite <- app_assoc in IH.
Qed.

(** Encode messages, each on its chunk stream, into one buffer. *)
Fixpoint encode_messages (e : RtmpChunkEncoder) (msgs : list (Z * RtmpMessage)) (buf : list byte) :
    option (RtmpChunkEncoder * list byte) :=
  match msgs with
  | [] => Some (e, buf)
  | (csid, m) :: msgs =>
      '(e, buf) ← message_encode e csid m buf;
      encode_messages e msgs buf
  end.

(** A message that may be sent: [Abort] is left to the peer, and the payload fits the
    limit of the decoder. *)
Definition sendable (cm : Z * RtmpMessage) : Prop :=
  csid_wf (fst cm) /\ message_wf (snd cm) /\
  match encode_message_payload (snd cm) [] with
  | Some p => Z.of_nat (length p) <= MAX_MESSAGE_SIZE
  | None => True
  end /\
  match snd cm with MAbort _ _ => False | _ => True end.

Lemma chunk_encode_app e c buf :
  ChunkEncoder.encode e c buf = (fst (ChunkEncoder.encode e c []), buf ++ snd (ChunkEncoder.encode e c [])).
Proof.
  unfold ChunkEncoder.encode, encode_message. rewrite encode_chunks_app.
  by destruct (encode_chunks _ _ _ _ _ []).
Qed.

Lemma sendable_chunk csid m :
  sendable (csid, m) ->
  exists c, message_to_chunk csid m = Some c /\ chunk_fits c /\ decode_rtmp_chunk_to_message c = Ok m.
Proof.
  intros (Hc & Hw & Hl & _). cbn [fst snd] in *. destruct (payload_survives m Hw) as (bs & E & D).
  unfold message_to_chunk. rewrite (E []) in *. cbn [app mbind option_bind] in *.
  eexists. split; [reflexivity|]. destruct Hw as (H1 & H2 & _).
  split; [|apply D]. split; [by split|exact Hl].
Qed.

Lemma sim_follow e d m :
  connection_sim e d -> message_wf m -> match m with MAbort _ _ => False | _ => True end ->
  connection_sim (match m with MSetChunkSize _ size => encoder_set_chunk_size e size | _ => e end) (follow m d).
Proof.
  intros [S1 S2 S3] (_ & _ & Hw) Ha. destruct m; try done. split; cbn; [done| |exact S3].
  unfold chunk_size_wf, CHUNK_SIZE_MIN in Hw. lia.
Qed.

(** One list of messages, from any state the connection is in. *)
Lemma pump_messages msgs : forall e d log,
  connection_sim e d -> Forall sendable msgs ->
  exists e' bytes d',
    (forall buf, encode_messages e msgs buf = Some (e', buf ++ bytes)) /\ connection_sim e' d' /\
    message_pump (d, log) bytes = ((d', log ++ map snd msgs), [], Ok tt).
Proof.
  induction msgs as [|[csid m] msgs IH]; intros e d log Hs Hall.
  { exists e, [], d. split; [intros buf; cbn; by rewrite app_nil_r|]. split; [done|].
    rewrite app_nil_r. apply pump_nil. }
  apply Forall_cons in Hall as [Hm Hall]. pose proof Hm as (_ & Hw & _ & Ha). cbn [fst snd] in Hw, Ha.
  destruct (sendable_chunk _ _ Hm) as (c & Ec & Hc & Dc).
  set (e1 := match m with MSetChunkSize _ size => encoder_set_chunk_size (fst (ChunkEncoder.encode e c [])) size
             | _ => fst (ChunkEncoder.encode e c []) end).
  assert (Hs' : connection_sim e (get_decoder (d, log))) by exact Hs.
  assert (Hp : forall q, exists d1, connection_sim (fst (ChunkEncoder.encode e c [])) d1 /\
    message_pump (d, log) (snd (ChunkEncoder.encode e c []) ++ q) = message_pump (follow m d1, log ++ [m]) q).
  { intros q. destruct (pump_encode on_message_chunk (fun e => e) e (d, log) c q Hs' Hc) as (d1 & H1 & H2).
    exists d1. split; [done|]. unfold message_pump. rewrite H2. unfold on_message_chunk at 1. by rewrite Dc. }
  (* the decoder state does not depend on what follows *)
  destruct (Hp []) as (d1 & Hd1 & Ep).
  destruct (IH e1 (follow m d1) (log ++ [m])) as (e' & bytes & d' & E1 & E2 & E3).
  { by apply sim_follow. }
  { done. }
  exists e', (snd (ChunkEncoder.encode e c []) ++ bytes), d'. split_and!; [|done|].
  - intros buf. cbn [encode_messages]. unfold message_encode. rewrite Ec. cbn [mbind option_bind].
    rewrite chunk_encode_app. cbn [mbind option_bind]. fold e1. rewrite E1. by rewrite <- app_assoc.
  - assert (P : message_pump (d, log) (snd (ChunkEncoder.encode e c [])) = ((follow m d1, log ++ [m]), [], Ok tt)).
    { rewrite app_nil_r in Ep. rewrite Ep. apply pump_nil. }
    unfold message_pump. rewrite (pump_split _ _ _ _ _ bytes _ P). cbn [app].
    unfold message_pump in E3. rewrite E3. by rewrite <- app_assoc.
Qed.

(** ** What the peer may send *)

(** [Abort] forgets the headers of a chunk stream, not only the partial message: a
    sender that goes on with a compressed header (here of format 3) is then refused. *)
Example abort_forgets_headers :
  let first := snd (ChunkEncoder.encode encoder_default (mk_chunk 4 1 TAudio 0 [xaf; x01]) []) in
  let e := fst (ChunkEncoder.encode encoder_default (mk_chunk 4 1 TAudio 0 [xaf; x01]) []) in
  let next := snd (ChunkEncoder.encode e (mk_chunk 4 1 TAudio 0 [xaf; x01]) []) in
  let abort := match message_encode encoder_default 2 (MAbort PCM 4) [] with Some (_, b) => b | None => [] end in
  snd (receive_messages message_decoder_default [first; next]) = Ok tt /\
  match snd (receive_messages message_decoder_default [first; abort; next]) with
  | Ok _ => False | Err x => kind x = InvalidData
  end.
Proof. vm_compute. done. Qed.

(** ** Claims *)

(** Typed messages reach the other end of a connection. Any list of well-formed
    messages, on any chunk streams, with the chunk size changed by [SetChunkSize] on the
    way, is encoded without a panic; the bytes cut into any segments are read by
    [RtmpMessageDecoder] as exactly these messages in order, with nothing left over, and
    both ends still agree. ([Abort], which the library never sends, is excluded.) *)
Theorem message_transport e s msgs segments :
  connection_sim e (chunk_decoder s) -> buf_wf (md_buf s) -> md_view s = [] ->
  Forall sendable msgs -> segments <> [] ->
  exists e' bytes, encode_messages e msgs [] = Some (e', bytes) /\
    (concat segments = bytes ->
     exists s', receive_messages s segments = (s', map snd msgs, Ok tt) /\
       md_view s' = [] /\ connection_sim e' (chunk_decoder s')).
Proof.
  intros Hs Hw Hv Hm Hne.
  destruct (pump_messages msgs e (chunk_decoder s) [] Hs Hm) as (e' & bytes & d' & E1 & E2 & E3).
  exists e', bytes. split; [by rewrite E1|]. intros Hc.
  pose proof (pump_segments_concat on_message_chunk (fun e => e) (chunk_decoder s, []) [] segments Hne) as P.
  unfold message_pump in E3. rewrite Hc, app_nil_l, E3 in P.
  pose proof (receive_messages_pump segments s [] Hw) as R. rewrite Hv, P in R.
  destruct (receive_messages s segments) as [[s' l] r]. destruct R as [R _].
  injection R as R1 R2 R3 R4. cbn [app] in R2. exists s'. split_and!; congruence.
Qed.

(** A client in the middle of its session: a larger chunk size, then a command and media. *)
Definition demo_messages : list (Z * RtmpMessage) :=
  [(2, set_chunk_size 4096);
   (3, MCommand PCM VAmf0 [x70; x6c; x61; x79] 5 (OfAmf0 Null) [OfAmf0 (Amf0.String [x61])]);
   (6, let f := mk_video 40 (-2) KeyFrame Avc (Some NalUnit) (repeat x2a 300) in
       MVideo (mk_header 1 40) f (encode_video_frame f []))].

Lemma demo_sendable : Forall sendable demo_messages.
Proof.
  assert (P : forall csid m, csid_wf csid -> message_wf m ->
    match encode_message_payload m [] with Some p => Z.of_nat (length p) <=? MAX_MESSAGE_SIZE | None => true end = true ->
    match m with MAbort _ _ => False | _ => True end -> sendable (csid, m)).
  { intros csid m H1 H2 H3 H4. split_and!; [done|done| |done]. cbn [snd].
    destruct (encode_message_payload m []); [by apply Z.leb_le|done]. }
  unfold demo_messages. apply Forall_cons. split.
  { apply P; [split; lia| |vm_compute; reflexivity|exact I].
    split; [split; cbn; lia|]. split; [split; cbn; lia|]. unfold chunk_size_wf, CHUNK_SIZE_MIN, CHUNK_SIZE_MAX. cbn. lia. }
  apply Forall_cons. split.
  { apply P; [split; lia| |vm_compute; reflexivity|exact I].
    split; [split; cbn; lia|]. split; [split; cbn; lia|]. cbn [snd].
    split; [reflexivity|]. split; [lia|]. split; [by split|]. apply Forall_singleton. by split. }
  apply Forall_singleton.
  apply P; [split; lia| |vm_compute; reflexivity|exact I].
  split; [split; cbn; lia|]. split; [split; cbn; lia|]. cbn [snd].
  split; [|by split]. split; [split; [split; cbn; lia|reflexivity]|].
  cbn. split; [by eexists|]. unfold in_i. lia.
Qed.

Definition demo_bytes : list byte :=
  match encode_messages encoder_default demo_messages [] with Some (_, bytes) => bytes | None => [] end.

Lemma message_transport_witness :
  exists s', receive_messages message_decoder_default [take 50 demo_bytes; drop 50 demo_bytes]
             = (s', map snd demo_messages, Ok tt).
Proof.
  destruct (message_transport encoder_default message_decoder_default demo_messages
    [take 50 demo_bytes; drop 50 demo_bytes]) as (e' & bytes & E & H).
  - exact connection_sim_default.
  - vm_compute. lia.
  - reflexivity.
  - exact demo_sendable.
  - discriminate.
  - destruct H as (s' & H & _); [|exists s'; exact H].
    cbn [concat]. rewrite app_nil_r, take_drop. unfold demo_bytes. by rewrite E.
Defined.
