(* ===== verification/RtmpCommand.v ===== *)
(** * RTMP commands

    Models [crates/protocols/rtmp/core/src/command.rs]: the commands that the library
    understands, how they are read from the name, transaction id, object and arguments
    of a command message, and the messages they are sent as. A Rust [String] is its
    UTF-8 bytes, a literal is [lit "..."], an [f64] its bit pattern. *)
From Stdlib Require Import Strings.Byte Strings.String.
From S2P Require Import Prelude RtmpBytes RtmpTypes ChunkDecoder Amf Amf3 Amf0 AmfValue RtmpUserControl RtmpFrames RtmpMessage.

Definition lit (s : string) : utf8 := list_byte_of_string s.

(** An AMF0 value without an AMF3 one inside is typed alike. *)
Definition amf0_object (entries : list (utf8 * Amf0V)) : AmfValue := OfAmf0 (Amf0.Object None entries).
Definition str (s : utf8) : Amf0V := Amf0.String s.
Definition num (bits : Z) : Amf0V := Amf0.Number bits.
Definition null : AmfValue := OfAmf0 Amf0.Null.

(** ** Commands *)

Record RtmpConnectCommand : Type := mk_connect { app : utf8; flash_ver : utf8; tc_url : utf8 }.
Record RtmpOnStatusCommand : Type := mk_on_status {
  level : utf8; code : utf8; description : option utf8; details : option utf8
}.
Record RtmpResultCommand : Type := mk_result {
  r_transaction_id : TransactionId; properties : AmfValue; information : AmfValue
}.

Inductive RtmpCommand : Type :=
| Connect (c : RtmpConnectCommand)
| CreateStream (transaction_id : TransactionId)
| Publish (transaction_id : TransactionId) (stream_name : utf8)
| Play (transaction_id : TransactionId) (stream_name : utf8) (start : Z)
| DeleteStream (transaction_id : TransactionId) (stream_id : Z)
| GetStreamLength (transaction_id : TransactionId) (stream_name : utf8)
| Result (c : RtmpResultCommand)
| OnStatus (c : RtmpOnStatusCommand)
| Ignore (name : utf8) (object : AmfValue) (args : list AmfValue).

Definition command_name (c : RtmpCommand) : utf8 :=
  match c with
  | Connect _ => lit "connect"
  | CreateStream _ => lit "createStream"
  | Publish _ _ => lit "publish"
  | Play _ _ _ => lit "play"
  | DeleteStream _ _ => lit "deleteStream"
  | GetStreamLength _ _ => lit "getStreamLength"
  | Result _ => lit "_result"
  | OnStatus _ => lit "onStatus"
  | Ignore name _ _ => name
  end.

(** ** To messages *)

Definition optional (key : string) (v : option utf8) : list (utf8 * Amf0V) :=
  match v with Some s => [(lit key, str s)] | None => [] end.

Definition status_object (c : RtmpOnStatusCommand) : AmfValue :=
  amf0_object ([(lit "level", str (level c)); (lit "code", str (code c))]
    ++ optional "description" (description c) ++ optional "details" (details c)).

Definition into_message (c : RtmpCommand) (header : RtmpMessageHeader) : result Error RtmpMessage :=
  let command name transaction_id object args :=
    Ok (MCommand header VAmf0 (lit name) transaction_id object args) in
  match c with
  | Ignore _ _ _ => Err (invalid_state "BUG")
  | OnStatus c => command "onStatus" ON_STATUS null [status_object c]
  | Connect c =>
      command "connect" CONNECT
        (amf0_object [(lit "app", str (app c)); (lit "flashVer", str (flash_ver c));
                      (lit "tcUrl", str (tc_url c))]) []
  | CreateStream id => command "createStream" id null []
  | Publish id stream_name =>
      command "publish" id null [OfAmf0 (str stream_name); OfAmf0 (str (lit "live"))]
  | Play id stream_name start => command "play" id null [OfAmf0 (str stream_name); OfAmf0 (num start)]
  | DeleteStream id stream_id => command "deleteStream" id null [OfAmf0 (num (i64_to_f64 stream_id))]
  | GetStreamLength id stream_name => command "getStreamLength" id null [OfAmf0 (str stream_name)]
  | Result c => command "_result" (r_transaction_id c) (properties c) [information c]
  end.

Definition into_pcm_message (c : RtmpCommand) : result Error RtmpMessage := into_message c PCM.

(** ** From messages *)

Definition first_arg (args : list AmfValue) (missing : string) : result Error AmfValue :=
  ok_or (head args) (invalid_data missing).

(** [expect_object_member(key).ok().and_then(|v| v.expect_str().ok())]. *)
Definition member_str (key : utf8) (v : AmfValue) : option utf8 :=
  match expect_object_member key v with
  | Ok m => result_ok (expect_str m)
  | Err _ => None
  end.

(** [expect_object_member(key)?.expect_str()?]. *)
Definition required_str (key : utf8) (v : AmfValue) : result Error utf8 :=
  m <-? expect_object_member key v ;; expect_str m.

Definition connect_from_message (transaction_id : TransactionId) (object : AmfValue) :
    result Error RtmpConnectCommand :=
  if negb (transaction_id =? CONNECT)
  then Err (invalid_data ("invalid transaction ID for connect command: expected "
             +:+ pretty CONNECT +:+ ", got " +:+ pretty transaction_id))
  else
    app <-? required_str (lit "app") object ;;
    let flash_ver := default (lit "FMLE/3.0") (member_str (lit "flashVer") object) in
    tc_url <-? required_str (lit "tcUrl") object ;;
    Ok (mk_connect app flash_ver tc_url).

(** Invalid UTF-8 cannot occur in the reason, which repeats the type. *)
Definition publish_from_message (transaction_id : TransactionId) (args : list AmfValue) :
    result Error RtmpCommand :=
  name <-? first_arg args "publish: missing stream name" ;;
  stream_name <-? expect_str name ;;
  ty <-? ok_or (args !! 1%nat) (invalid_data "publish: missing publish type") ;;
  publish_type <-? expect_str ty ;;
  if negb (bool_decide (publish_type = lit "live"))
  then Err (unsupported ("unsupported publish type: " +:+ string_of_list_byte publish_type
             +:+ " (only 'live' is supported)"))
  else Ok (Publish transaction_id stream_name).

Definition play_from_message (transaction_id : TransactionId) (args : list AmfValue) : result Error RtmpCommand :=
  name <-? first_arg args "play: missing stream name" ;;
  stream_name <-? expect_str name ;;
  position <-? ok_or (args !! 1%nat) (invalid_data "play: missing start position") ;;
  start <-? expect_number position ;;
  Ok (Play transaction_id stream_name start).

Definition delete_stream_from_message (transaction_id : TransactionId) (args : list AmfValue) :
    result Error RtmpCommand :=
  id <-? first_arg args "deleteStream: missing stream id" ;;
  stream_id <-? expect_number id ;;
  Ok (DeleteStream transaction_id (wrap_u 32 (Z.max (round_f64_to_i64 stream_id) 0))).

Definition get_stream_length_from_message (transaction_id : TransactionId) (args : list AmfValue) :
    result Error RtmpCommand :=
  name <-? first_arg args "getStreamLength: missing stream name" ;;
  stream_name <-? expect_str name ;;
  Ok (GetStreamLength transaction_id stream_name).

Definition result_from_message (transaction_id : TransactionId) (object : AmfValue) (args : list AmfValue) :
    result Error RtmpResultCommand :=
  information <-? first_arg args "_result: missing information argument" ;;
  Ok (mk_result transaction_id object information).

Definition on_status_from_message (args : list AmfValue) : result Error RtmpOnStatusCommand :=
  status_obj <-? first_arg args "onStatus: missing status object" ;;
  level <-? required_str (lit "level") status_obj ;;
  code <-? required_str (lit "code") status_obj ;;
  Ok (mk_on_status level code (member_str (lit "description") status_obj)
        (member_str (lit "details") status_obj)).

Definition from_message (name : utf8) (transaction_id : TransactionId) (object : AmfValue)
    (args : list AmfValue) : result Error RtmpCommand :=
  if bool_decide (name = lit "connect")
  then result_map Connect (connect_from_message transaction_id object)
  else if bool_decide (name = lit "createStream") then Ok (CreateStream transaction_id)
  else if bool_decide (name = lit "publish") then publish_from_message transaction_id args
  else if bool_decide (name = lit "play") then play_from_message transaction_id args
  else if bool_decide (name = lit "deleteStream") then delete_stream_from_message transaction_id args
  else if bool_decide (name = lit "getStreamLength") then get_stream_length_from_message transaction_id args
  else if bool_decide (name = lit "_result") || bool_decide (name = lit "_error")
  then result_map Result (result_from_message transaction_id object args)
  else if bool_decide (name = lit "onStatus") then result_map OnStatus (on_status_from_message args)
  else Ok (Ignore name object args).

(** ** Results and statuses *)

Definition create_stream_result (transaction_id : TransactionId) (stream_id : Z) : RtmpResultCommand :=
  mk_result transaction_id null (OfAmf0 (num (i64_to_f64 stream_id))).

Definition get_stream_length_result (transaction_id : TransactionId) (length : Z) : RtmpResultCommand :=
  mk_result transaction_id null (OfAmf0 (num length)).

(** The answers that the command types build. *)
Definition connect_accept : result Error RtmpMessage :=
  into_pcm_message (Result (mk_result CONNECT
    (amf0_object [(lit "fmsVer", str (lit "FMS/4,5,0,297")); (lit "capabilities", num (i64_to_f64 255));
                  (lit "mode", num (i64_to_f64 1))])
    (amf0_object [(lit "level", str (lit "status")); (lit "code", str (lit "NetConnection.Connect.Success"));
                  (lit "description", str (lit "Connection succeeded."));
                  (lit "objectEncoding", num (i64_to_f64 0))]))).

Definition stream_accept (code description : string) (transaction_id : TransactionId) (stream_id : Z) :
    result Error RtmpMessage :=
  into_message (Result (mk_result transaction_id (amf0_object [])
    (amf0_object [(lit "level", str (lit "status")); (lit "code", str (lit code));
                  (lit "description", str (lit description))]))) (mk_header stream_id 0).

Definition publish_accept : TransactionId -> Z -> result Error RtmpMessage :=
  stream_accept "NetStream.Publish.Start" "Publish succeeded.".
Definition play_accept : TransactionId -> Z -> result Error RtmpMessage :=
  stream_accept "NetStream.Play.Start" "Play succeeded.".

Definition is_publish_start (c : RtmpOnStatusCommand) : bool := bool_decide (code c = lit "NetStream.Publish.Start").
Definition is_play_start (c : RtmpOnStatusCommand) : bool := bool_decide (code c = lit "NetStream.Play.Start").

Definition publish_start : RtmpOnStatusCommand :=
  mk_on_status (lit "status") (lit "NetStream.Publish.Start") (Some (lit "Publish succeeded.")) None.
Definition play_start : RtmpOnStatusCommand :=
  mk_on_status (lit "status") (lit "NetStream.Play.Start") (Some (lit "Play succeeded.")) None.
Definition publish_bad_name (reason : utf8) : RtmpOnStatusCommand :=
  mk_on_status (lit "error") (lit "NetStream.Publish.BadName") (Some (lit "Stream name already in use.")) (Some reason).
Definition play_stream_not_found (reason : utf8) : RtmpOnStatusCommand :=
  mk_on_status (lit "error") (lit "NetStream.Play.StreamNotFound") (Some (lit "Stream not found.")) (Some reason).

(** [eq_ignore_ascii_case] and [to_ascii_lowercase] work byte by byte. *)
Definition ascii_lower (b : byte) : byte :=
  if (0x41 <=? byte_val b) && (byte_val b <=? 0x5A) then byte_of (byte_val b + 32) else b.
Definition to_ascii_lowercase (s : utf8) : utf8 := map ascii_lower s.

Fixpoint starts_with (p s : utf8) : bool :=
  match p, s with
  | [], _ => true
  | a :: p, b :: s => bool_decide (a = b) && starts_with p s
  | _, [] => false
  end.

Fixpoint contains_str (p s : utf8) : bool :=
  starts_with p s || match s with [] => false | _ :: s => contains_str p s end.

(** [to_lowercase] is Unicode-aware; no character outside ASCII has a lower case with one
    of the letters of "error", so the ASCII one is enough for the test. *)
Definition is_error (c : RtmpResultCommand) : bool :=
  match member_str (lit "code") (information c) with
  | Some code => contains_str (lit "error") (to_ascii_lowercase code)
  | None => false
  end.

(** ** Well-formed commands *)

Definition text_ok (s : utf8) : Prop := AmfValue.encodable (OfAmf0 (str s)) = true.
Definition id_ok (id : TransactionId) : Prop := Z.abs id < 2 ^ 53.

Definition command_wf (c : RtmpCommand) : Prop :=
  match c with
  | Connect c => text_ok (app c) /\ text_ok (flash_ver c) /\ text_ok (tc_url c)
  | CreateStream id => id_ok id
  | Publish id name | GetStreamLength id name => id_ok id /\ text_ok name
  | Play id name start => id_ok id /\ text_ok name /\ in_u 64 start
  | DeleteStream id stream_id => id_ok id /\ in_u 32 stream_id
  | Result c => id_ok (r_transaction_id c) /\ of_version VAmf0 (properties c) /\ of_version VAmf0 (information c)
  | OnStatus c =>
      text_ok (level c) /\ text_ok (code c) /\
      match description c with Some s => text_ok s | None => True end /\
      match details c with Some s => text_ok s | None => True end
  | Ignore _ _ _ => False
  end.

Lemma stream_id_survives id : in_u 32 id ->
  in_u 64 (i64_to_f64 id) /\ wrap_u 32 (Z.max (round_f64_to_i64 (i64_to_f64 id)) 0) = id.
Proof.
  intros H. assert (Hb : Z.abs id < 2 ^ 53) by (unfold in_u in H; change (2 ^ 32) with 4294967296 in H;
    change (2 ^ 53) with 9007199254740992; lia).
  destruct (from_f64_of id Hb) as [H1 H2]. split; [done|]. unfold from_f64 in H2. rewrite H2.
  unfold in_u in H. rewrite Z.max_l by lia. by apply wrap_u_small.
Qed.

Lemma of_version_number bits : in_u 64 bits -> of_version VAmf0 (OfAmf0 (num bits)).
Proof. apply (amf_number_of_version VAmf0). Qed.

Lemma of_version_str s : text_ok s -> of_version VAmf0 (OfAmf0 (str s)).
Proof. by split. Qed.

Lemma of_version_object entries :
  Forall (fun kv => Amf0.name (fst kv) = true /\ AmfValue.encodable (OfAmf0 (snd kv)) = true) entries ->
  of_version VAmf0 (amf0_object entries).
Proof.
  intros H. split; [done|]. cbn. apply forallb_forall. intros [k v] Hin.
  rewrite Forall_forall in H. apply list_elem_of_In in Hin. destruct (H _ Hin) as [H1 H2]. cbn in *. by rewrite H1.
Qed.

Lemma status_object_ok c : command_wf (OnStatus c) -> of_version VAmf0 (status_object c).
Proof.
  destruct c as [l c d t]. cbn. intros (H1 & H2 & H3 & H4). apply of_version_object. cbn [level code description details].
  repeat apply Forall_app_2; repeat apply Forall_cons_2; try apply Forall_nil_2; try done;
    [destruct d|destruct t]; cbn [optional]; repeat constructor; done.
Qed.

(** The optional fields of a status are found again. *)
Lemma on_status_read c : on_status_from_message [status_object c] = Ok c.
Proof. destruct c as [l c [d|] [t|]]; reflexivity. Qed.

(** A command is read back from the message it is sent as, and the message is one that
    the encoder can carry. *)
Lemma command_message c h :
  command_wf c -> in_u 32 (h_stream_id h) -> in_u 32 (h_timestamp h) ->
  exists name id object args,
    into_message c h = Ok (MCommand h VAmf0 name id object args) /\
    message_wf (MCommand h VAmf0 name id object args) /\
    name = command_name c /\ from_message name id object args = Ok c.
Proof.
  intros Hc Hs Ht. unfold message_wf. cbn [header].
  assert (Hid : id_ok CONNECT /\ id_ok ON_STATUS) by done. destruct Hid as [Hi1 Hi2].
  assert (Hnull : of_version VAmf0 null) by done.
  destruct c as [[a f t]|id|id name|id name start|id sid|id name|[id p i]|st|]; [| | | | | | | |done];
    cbn [into_message command_wf app flash_ver tc_url r_transaction_id properties information] in *;
    eexists _, _, _, _; (split; [reflexivity|]);
    (split; [split; [done|]; split; [done|]; split; [reflexivity|]|split; [reflexivity|]]).
  - split; [done|]. split; [|constructor]. destruct Hc as (H1 & H2 & H3).
    apply of_version_object. repeat constructor; done.
  - reflexivity.
  - split_and!; [done|done|constructor].
  - reflexivity.
  - destruct Hc. split_and!; [done|done|]. repeat apply Forall_cons_2; by try apply of_version_str.
  - reflexivity.
  - destruct Hc as (? & ? & ?). split_and!; [done|done|].
    repeat apply Forall_cons_2; [by apply of_version_str|by apply of_version_number|constructor].
  - reflexivity.
  - destruct Hc as [? H]. destruct (stream_id_survives sid H) as [H1 _]. split_and!; [done|done|].
    apply Forall_singleton. by apply of_version_number.
  - destruct Hc as [_ H]. destruct (stream_id_survives sid H) as [_ H2]. rewrite <- H2 at 2. reflexivity.
  - destruct Hc. split_and!; [done|done|]. apply Forall_singleton. by apply of_version_str.
  - reflexivity.
  - destruct Hc as (? & ? & ?). split_and!; [done|done|]. by apply Forall_singleton.
  - reflexivity.
  - split_and!; [done|done|]. apply Forall_singleton. by apply status_object_ok.
  - change (result_map OnStatus (on_status_from_message [status_object st]) = Ok (OnStatus st)).
    by rewrite on_status_read.
Qed.

(** The answers are commands that may be sent, and none of them reads as an error. *)
Lemma answers_wf reason :
  text_ok reason ->
  Forall (fun st => command_wf (OnStatus st))
    [publish_start; play_start; publish_bad_name reason; play_stream_not_found reason] /\
  forall id stream_id m, m ∈ [connect_accept; publish_accept id stream_id; play_accept id stream_id] ->
    exists h c, m = into_message (Result c) h /\ is_error c = false.
Proof.
  intros Hr. split; [repeat constructor; done|].
  intros id stream_id m. rewrite !elem_of_cons. intros [->|[->|[->|[]%elem_of_nil]]]; by eexists _, _.
Qed.

(** ** Claims *)

(** Commands survive the wire. Every command the library understands, sent with
    any header, gives a message whose payload is encoded without a panic, decodes to the
    same name, id and values on any chunk stream, and is parsed as the same command;
    commands it does not understand are never sent. *)
Theorem command_wire :
  (forall c h, command_wf c -> in_u 32 (h_stream_id h) -> in_u 32 (h_timestamp h) ->
     exists payload m, into_message c h = Ok m /\ emits (encode_message_payload m) payload /\
       forall csid,
         match decode_rtmp_chunk_to_message
                 (mk_chunk csid (h_stream_id h) TCommandAmf0 (h_timestamp h) payload) with
         | Ok (MCommand h' _ name id object args) =>
             h' = h /\ name = command_name c /\ from_message name id object args = Ok c
         | _ => False
         end) /\
  (forall name object args h, exists e, into_message (Ignore name object args) h = Err e).
Proof.
  split; [|by eexists].
  intros c h Hc Hs Ht. destruct (command_message c h Hc Hs Ht) as (name & id & object & args & E1 & Hw & E2 & E3).
  destruct (payload_survives _ Hw) as (bs & Eb & D). exists bs. eexists. split; [exact E1|]. split; [exact Eb|].
  intros csid. specialize (D csid). cbn [header type_of_message] in D. by rewrite D.
Qed.
