(* ===== verification/RtmpHandshakeComplex.v ===== *)
(** * RTMP complex handshake

    Models [crates/protocols/rtmp/core/src/handshake_complex.rs], the digest
    handshake of Flash Player 9. HMAC-SHA256 comes from the [hmac] and [sha2]
    crates and is a parameter; the digest is 32 bytes long. *)
From Stdlib Require Import Strings.Byte.
From S2P Require Import Prelude RtmpBytes.

Definition ascii_bytes (s : string) : list byte := String.list_byte_of_string s.

Definition GENUINE_FP_KEY : list byte := ascii_bytes "Genuine Adobe Flash Player 001".
Definition GENUINE_FMS_KEY : list byte := ascii_bytes "Genuine Adobe Flash Media Server 001".
Definition GENUINE_FMS_KEY_FULL : list byte :=
  GENUINE_FMS_KEY ++
  [xf0; xee; xc2; x4a; x80; x68; xbe; xe8; x2e; x00; xd0; xd1; x02; x9e; x7e; x57;
   x6e; xec; x5d; x2d; x29; x80; x6f; xab; x93; xb8; xe6; x36; xcf; xeb; x31; xae]%byte.

Inductive HandshakeScheme : Set := Scheme0 | Scheme1.

(** [packet[i] as usize]. In this file [None] is a panic: an index out of range. *)
Definition byte_at (p : list byte) (i : nat) : option Z := byte_val <$> p !! i.

Definition digest_base (scheme : HandshakeScheme) : nat :=
  match scheme with Scheme0 => 8 | Scheme1 => 772 end.

(** [p[off..off + n]]. *)
Definition slice (off n : nat) (p : list byte) : option (list byte) :=
  if (off + n <=? length p)%nat then Some (take n (drop off p)) else None.

Definition digest_offset (packet : list byte) (scheme : HandshakeScheme) : option nat :=
  let base := digest_base scheme in
  b0 ← byte_at packet base; b1 ← byte_at packet (base + 1);
  b2 ← byte_at packet (base + 2); b3 ← byte_at packet (base + 3);
  let offset_sum := b0 + b1 + b2 + b3 in
  Some (base + 4 + Z.to_nat (offset_sum mod 728))%nat.

(** [p[off..off + 32].copy_from_slice(digest)]; a digest has 32 bytes by its type. *)
Definition copy_digest (off : nat) (digest p : list byte) : option (list byte) :=
  _ ← slice off 32 p; Some (take off p ++ digest ++ drop (off + 32) p).

(** The linear congruential generator that fills the packets. *)
Definition LCG : Z := 6364136223846793005.

Definition lcg_seed (seed : Z) (bs : list byte) : Z :=
  fold_left (fun seed b => wrap_u 64 (wrap_u 64 (seed * LCG) + byte_val b)) bs seed.

Fixpoint lcg_fill (n : nat) (seed : Z) : list byte :=
  match n with
  | O => []
  | S n => let seed := wrap_u 64 (wrap_u 64 (seed * LCG) + 1) in
           byte_of (Z.shiftr seed 33) :: lcg_fill n seed
  end.

Section complex.
(** [HmacSha256]: key, message. *)
Variable hmac : list byte -> list byte -> list byte.

Definition compute_digest (packet : list byte) (off : nat) (key : list byte) : option (list byte) :=
  before ← slice 0 off packet;
  behind ← (if (off + 32 <? length packet)%nat
            then slice (off + 32) (length packet - (off + 32)) packet else Some []);
  Some (hmac key (before ++ behind)).

Definition validate_c1_digest (c1 : list byte) (scheme : HandshakeScheme) : option bool :=
  off ← digest_offset c1 scheme;
  if (1536 <? off + 32)%nat then Some false
  else
    expected ← compute_digest c1 off GENUINE_FP_KEY;
    found ← slice off 32 c1;
    Some (bool_decide (found = expected)).

Definition detect_client_scheme (c1 : list byte) : option (option HandshakeScheme) :=
  if (length c1 <? 1536)%nat then Some None
  else
    valid0 ← validate_c1_digest c1 Scheme0;
    if valid0 : bool then Some (Some Scheme0)
    else
      valid1 ← validate_c1_digest c1 Scheme1;
      Some (if valid1 : bool then Some Scheme1 else None).

(** Timestamp 0, server version 4.5.0.1, pseudo-random data, digest. *)
Definition complex_s1_body (c1 : list byte) : list byte :=
  replicate 4 x00 ++ [x04; x05; x00; x01]%byte ++
  lcg_fill 1528 (lcg_seed 0xdeadbeef (take 64 c1)).

Definition build_complex_s1 (c1 : list byte) (scheme : HandshakeScheme) : option (list byte) :=
  let s1 := complex_s1_body c1 in
  off ← digest_offset s1 scheme;
  digest ← compute_digest s1 off GENUINE_FMS_KEY;
  copy_digest off digest s1.

Definition build_complex_s2 (c1 : list byte) (scheme : HandshakeScheme) : option (list byte) :=
  c1_digest_offset ← digest_offset c1 scheme;
  c1_digest ← slice c1_digest_offset 32 c1;
  let temp_key := hmac GENUINE_FMS_KEY_FULL c1_digest in
  let s2 := lcg_fill 1504 (lcg_seed 0xcafebabe (take 32 c1)) in
  Some (s2 ++ hmac temp_key s2).

(** ** Facts *)

Lemma lcg_fill_length n seed : length (lcg_fill n seed) = n.
Proof. revert seed. induction n as [|n IH]; intros; cbn; [done|]. by rewrite IH. Qed.

Lemma complex_s1_body_length c1 : length (complex_s1_body c1) = 1536%nat.
Proof.
  unfold complex_s1_body. rewrite !length_app, length_replicate, lcg_fill_length. done.
Qed.

Lemma byte_at_inside p i : (i < length p)%nat -> exists z, byte_at p i = Some z.
Proof. intros H. apply lookup_lt_is_Some in H as [b H]. unfold byte_at. rewrite H. by eexists. Qed.

Lemma slice_inside off n p : (off + n <= length p)%nat -> slice off n p = Some (take n (drop off p)).
Proof. intros H. unfold slice. by apply Nat.leb_le in H as ->. Qed.

(** Every index of the code is inside a packet of 1536 bytes. *)
Lemma digest_offset_inside p scheme :
  (1536 <= length p)%nat ->
  exists off, digest_offset p scheme = Some off /\
    (digest_base scheme + 4 <= off)%nat /\ (off + 32 <= 1536)%nat.
Proof.
  intros Hp. unfold digest_offset.
  assert (Hb : (digest_base scheme + 3 < length p)%nat) by (destruct scheme; cbn; lia).
  destruct (byte_at_inside p (digest_base scheme)) as [b0 ->]; [lia|].
  destruct (byte_at_inside p (digest_base scheme + 1)) as [b1 ->]; [lia|].
  destruct (byte_at_inside p (digest_base scheme + 2)) as [b2 ->]; [lia|].
  destruct (byte_at_inside p (digest_base scheme + 3)) as [b3 ->]; [lia|]. cbn [mbind option_bind].
  eexists. split; [reflexivity|]. pose proof (Z.mod_pos_bound (b0 + b1 + b2 + b3) 728 ltac:(lia)).
  destruct scheme; cbn; lia.
Qed.

Lemma compute_digest_inside packet off key :
  (off + 32 <= length packet)%nat ->
  compute_digest packet off key = Some (hmac key (take off packet ++ drop (off + 32) packet)).
Proof.
  intros H. unfold compute_digest. rewrite (slice_inside 0 off packet) by lia. cbn [mbind option_bind]. rewrite ?drop_0.
  destruct (Nat.ltb_spec (off + 32) (length packet)).
  - rewrite (slice_inside (off + 32)) by lia. cbn [mbind option_bind].
    by rewrite (take_ge (drop (off + 32) packet)) by (rewrite length_drop; lia).
  - cbn [mbind option_bind]. by rewrite (drop_ge packet (off + 32)) by lia.
Qed.

Lemma validate_inside c1 scheme :
  (1536 <= length c1)%nat -> is_Some (validate_c1_digest c1 scheme).
Proof.
  intros H. unfold validate_c1_digest. destruct (digest_offset_inside c1 scheme H) as (off & -> & _ & Ho).
  cbn [mbind option_bind]. destruct (Nat.ltb_spec 1536 (off + 32)); [done|].
  rewrite compute_digest_inside, slice_inside by lia. done.
Qed.

Lemma detect_inside c1 : is_Some (detect_client_scheme c1).
Proof.
  unfold detect_client_scheme. destruct (Nat.ltb_spec (length c1) 1536); [done|].
  destruct (validate_inside c1 Scheme0) as [[] ->]; [lia|done|]. cbn [mbind option_bind].
  destruct (validate_inside c1 Scheme1) as [v ->]; [lia|done].
Qed.

Lemma build_s1_inside c1 scheme :
  exists off digest, digest_offset (complex_s1_body c1) scheme = Some off /\
    (digest_base scheme + 4 <= off)%nat /\ (off + 32 <= 1536)%nat /\
    compute_digest (complex_s1_body c1) off GENUINE_FMS_KEY = Some digest /\
    build_complex_s1 c1 scheme
    = Some (take off (complex_s1_body c1) ++ digest ++ drop (off + 32) (complex_s1_body c1)).
Proof.
  unfold build_complex_s1. cbn zeta. pose proof (complex_s1_body_length c1) as L. set (s1 := complex_s1_body c1) in *.
  destruct (digest_offset_inside s1 scheme) as (off & -> & H1 & H2); [lia|].
  exists off. cbn [mbind option_bind]. rewrite compute_digest_inside by lia. eexists. do 4 (split; [done|]).
  cbn [mbind option_bind]. unfold copy_digest. by rewrite slice_inside by lia.
Qed.

Lemma build_s2_inside c1 scheme :
  (1536 <= length c1)%nat -> is_Some (build_complex_s2 c1 scheme).
Proof.
  intros H. unfold build_complex_s2. destruct (digest_offset_inside c1 scheme H) as (off & -> & _ & Ho).
  cbn [mbind option_bind]. by rewrite slice_inside by lia.
Qed.

(** The digest slot starts after the four bytes that locate it. *)
Lemma digest_offset_copy p scheme off src :
  digest_offset p scheme = Some off -> (digest_base scheme + 4 <= off)%nat -> (off <= length p)%nat ->
  digest_offset (take off p ++ src) scheme = Some off.
Proof.
  intros He Ho Hp.
  assert (E : forall i, (i < digest_base scheme + 4)%nat -> byte_at (take off p ++ src) i = byte_at p i).
  { intros i Hi. unfold byte_at. rewrite lookup_app_l by (rewrite length_take; lia).
    by rewrite lookup_take_lt by lia. }
  rewrite <- He. unfold digest_offset. by rewrite !E by lia.
Qed.
End complex.

(** ** Claims *)

(** The S1 packet of the complex handshake is built without a panic and carries a valid
    digest: for any C1 and either scheme, the 32 bytes at the offset that S1 itself
    announces are the HMAC of the rest of the packet under the server key, so a client that
    looks for the digest where the scheme puts it accepts the server; the packet is 1536
    bytes long. *)
Theorem complex_s1_digest_valid (hmac : list byte -> list byte -> list byte) c1 scheme :
  (forall k m, length (hmac k m) = 32%nat) ->
  exists s1 off digest,
    build_complex_s1 hmac c1 scheme = Some s1 /\ length s1 = 1536%nat /\
    digest_offset s1 scheme = Some off /\ (off + 32 <= 1536)%nat /\
    slice off 32 s1 = Some digest /\ compute_digest hmac s1 off GENUINE_FMS_KEY = Some digest.
Proof.
  intros Hh. pose proof (complex_s1_body_length c1) as L.
  destruct (build_s1_inside hmac c1 scheme) as (off & digest & Ho & H1 & H2 & Hd & E).
  rewrite compute_digest_inside in Hd by lia. injection Hd as <-. set (dg := hmac _ _) in *.
  assert (Hl : length dg = 32%nat) by apply Hh. set (body := complex_s1_body c1) in *.
  set (s1 := take off body ++ dg ++ drop (off + 32) body) in *.
  assert (Ht : length (take off body) = off) by (rewrite length_take; lia).
  assert (Ls : length s1 = 1536%nat) by (unfold s1; rewrite !length_app, length_drop; lia).
  exists s1, off, dg. split; [done|]. split; [done|].
  split; [unfold s1; apply digest_offset_copy; done || lia|]. split; [done|]. split.
  - rewrite slice_inside by lia. f_equal. unfold s1. rewrite drop_app_length' by done.
    by rewrite take_app_length' by done.
  - rewrite compute_digest_inside by lia.
    replace (take off s1) with (take off body) by (unfold s1; by rewrite take_app_length' by done).
    replace (drop (off + 32) s1) with (drop (off + 32) body); [done|].
    unfold s1. by rewrite app_assoc, drop_app_length' by (rewrite length_app; lia).
Qed.

Lemma complex_s1_digest_valid_witness :
  exists s1 off digest,
    build_complex_s1 (fun _ _ => repeat x00 32) [] Scheme0 = Some s1 /\
    slice off 32 s1 = Some digest /\
    compute_digest (fun _ _ => repeat x00 32) s1 off GENUINE_FMS_KEY = Some digest.
Proof.
  destruct (complex_s1_digest_valid (fun _ _ => repeat x00 32) [] Scheme0 (fun _ _ => eq_refl))
    as (s1 & off & digest & H1 & _ & _ & _ & H5 & H6).
  exists s1, off, digest. exact (conj H1 (conj H5 H6)).
Defined.
