(* ===== verification/RtmpHandshake.v ===== *)
(** * RTMP handshake

    Models [crates/protocols/rtmp/core/src/handshake.rs]: the server and client
    state machines. [complex_handshake] is the cargo feature of that name and
    [hmac] the HMAC-SHA256 of the crates it pulls in. The server is refined to a
    function of the whole byte stream received so far ([server_spec]), so what it
    sends and where it stands do not depend on how the stream is cut. *)
From Stdlib Require Import Strings.Byte.
From S2P Require Import Prelude RtmpBytes RtmpHandshakeComplex.

Definition RTMP_VERSION : Z := 3.
Definition HANDSHAKE_PACKET_SIZE : nat := 1536.

(** ** Options *)

Record RtmpHandshakeOptions : Set := mk_options {
  app_version : list byte;
  opt_timestamp : Z;
  random_data : list byte
}.

Definition options_default : RtmpHandshakeOptions :=
  mk_options (replicate 4 x00) 0 (replicate (HANDSHAKE_PACKET_SIZE - 8) x00).

Definition phase1_packet (o : RtmpHandshakeOptions) : list byte :=
  write_bytes (random_data o) (write_u32 (be_val (app_version o)) (write_u32 (opt_timestamp o) [])).

Inductive ServerHandshakeMode : Set := SrvStrict | LenientSeededS1.
Inductive ClientHandshakeMode : Set := CliStrict | Lenient.
Inductive Phase : Set := P0 | P1 | P2 | Complete.

#[export] Instance ServerHandshakeMode_eq_dec : EqDecision ServerHandshakeMode.
Proof. solve_decision. Defined.
#[export] Instance ClientHandshakeMode_eq_dec : EqDecision ClientHandshakeMode.
Proof. solve_decision. Defined.
#[export] Instance Phase_eq_dec : EqDecision Phase.
Proof. solve_decision. Defined.

(** ** The seeded S1 *)

Definition GOLDEN : Z := 0x9e3779b97f4a7c15.

Definition s1_seed (c1 : list byte) : Z :=
  fold_left (fun seed b =>
    wrap_u 64 (rotl 64 (Z.lxor seed (wrap_u 64 (byte_val b + GOLDEN))) 13 * 0xbf58476d1ce4e5b9))
    (take 128 c1) GOLDEN.

Fixpoint s1_fill (n : nat) (seed : Z) : list byte :=
  match n with
  | O => []
  | S n =>
      let seed := Z.lxor seed (wrap_u 64 (Z.shiftl seed 13)) in
      let seed := Z.lxor seed (Z.shiftr seed 7) in
      let seed := Z.lxor seed (wrap_u 64 (Z.shiftl seed 17)) in
      byte_of seed :: s1_fill n seed
  end.

Definition build_lenient_seeded_s1 (c1 : list byte) : list byte :=
  replicate 8 x00 ++ s1_fill (HANDSHAKE_PACKET_SIZE - 8) (s1_seed c1).

(** ** Server *)

Record RtmpServerHandshake : Set := mk_server {
  sv_options : RtmpHandshakeOptions;
  sv_mode : ServerHandshakeMode;
  sv_phase : Phase;
  sv_recv_buf : list byte;
  sv_send_buf : list byte;
  sv_s1_packet : list byte
}.

Definition server_new_with_mode (mode : ServerHandshakeMode) : RtmpServerHandshake :=
  mk_server options_default mode P0 [] [] [].
Definition server_new : RtmpServerHandshake := server_new_with_mode SrvStrict.
Definition server_new_lenient_seeded_s1 : RtmpServerHandshake :=
  server_new_with_mode LenientSeededS1.

Definition sv_set_recv (b : list byte) (s : RtmpServerHandshake) : RtmpServerHandshake :=
  mk_server (sv_options s) (sv_mode s) (sv_phase s) b (sv_send_buf s) (sv_s1_packet s).
Definition sv_set_phase (p : Phase) (s : RtmpServerHandshake) : RtmpServerHandshake :=
  mk_server (sv_options s) (sv_mode s) p (sv_recv_buf s) (sv_send_buf s) (sv_s1_packet s).
Definition sv_set_send (b : list byte) (s : RtmpServerHandshake) : RtmpServerHandshake :=
  mk_server (sv_options s) (sv_mode s) (sv_phase s) (sv_recv_buf s) b (sv_s1_packet s).
Definition sv_set_s1 (b : list byte) (s : RtmpServerHandshake) : RtmpServerHandshake :=
  mk_server (sv_options s) (sv_mode s) (sv_phase s) (sv_recv_buf s) (sv_send_buf s) b.

Definition version_error (got : Z) : Error :=
  invalid_data ("invalid RTMP version: expected 3, got " +:+ pretty got).

(** An error that is returned, or a panic (an index of RtmpHandshakeComplex out of range). *)
Inductive hs_fault : Set := Failed (e : Error) | Panicked.

Definition server_op := SE RtmpServerHandshake hs_fault unit.

Definition handle_phase_p2 : server_op := fun s =>
  if (length (sv_recv_buf s) <? HANDSHAKE_PACKET_SIZE)%nat then (s, Ok tt)
  else
    match read_bytes HANDSHAKE_PACKET_SIZE (sv_recv_buf s) with
    | (_, Err e) => (s, Err (Failed e))
    | (buf, Ok c2_packet) =>
        let s := sv_set_recv buf s in
        if bool_decide (sv_mode s = SrvStrict) && negb (bool_decide (sv_s1_packet s = c2_packet))
        then (s, Err (Failed (invalid_data "C2 packet does not match S1 packet")))
        else (sv_set_phase Complete s, Ok tt)
    end.

Section build.
(** The [complex-handshake] feature, and HMAC-SHA256. *)
Variable complex_handshake : bool.
Variable hmac : list byte -> list byte -> list byte.

Definition client_scheme (c1 : list byte) : option (option HandshakeScheme) :=
  if complex_handshake then detect_client_scheme hmac c1 else Some None.

Definition handle_phase_p1 : server_op := fun s =>
  if (length (sv_recv_buf s) <? HANDSHAKE_PACKET_SIZE)%nat then (s, Ok tt)
  else
    match read_bytes HANDSHAKE_PACKET_SIZE (sv_recv_buf s) with
    | (_, Err e) => (s, Err (Failed e))
    | (buf, Ok c1_packet) =>
        let s := sv_set_recv buf s in
        match client_scheme c1_packet with
        | None => (s, Err Panicked)
        | Some (Some scheme) =>
            match build_complex_s1 hmac c1_packet scheme, build_complex_s2 hmac c1_packet scheme with
            | Some s1, Some s2 =>
                let s := sv_set_s1 s1 s in
                let s := sv_set_send (write_bytes s1 (sv_send_buf s)) s in
                let s := sv_set_send (write_bytes s2 (sv_send_buf s)) s in
                handle_phase_p2 (sv_set_phase P2 s)
            | _, _ => (s, Err Panicked)
            end
        | Some None =>
            let s := sv_set_s1 (match sv_mode s with
                                | SrvStrict => phase1_packet (sv_options s)
                                | LenientSeededS1 => build_lenient_seeded_s1 c1_packet
                                end) s in
            let s := sv_set_send (write_bytes (sv_s1_packet s) (sv_send_buf s)) s in
            let s := sv_set_send (write_bytes c1_packet (sv_send_buf s)) s in
            handle_phase_p2 (sv_set_phase P2 s)
        end
    end.

Definition handle_phase_p0 : server_op := fun s =>
  match sv_recv_buf s with
  | [] => (s, Ok tt)
  | _ =>
      match read_u8 (sv_recv_buf s) with
      | (_, Err e) => (s, Err (Failed e))
      | (buf, Ok client_rtmp_version) =>
          let s := sv_set_recv buf s in
          if negb (client_rtmp_version =? RTMP_VERSION)
          then (s, Err (Failed (version_error client_rtmp_version)))
          else
            let s := sv_set_send (write_u8 RTMP_VERSION (sv_send_buf s)) s in
            handle_phase_p1 (sv_set_phase P1 s)
      end
  end.

Definition handle_recv_buf : server_op := fun s =>
  match sv_phase s with
  | P0 => handle_phase_p0 s
  | P1 => handle_phase_p1 s
  | P2 => handle_phase_p2 s
  | Complete => (s, Ok tt)
  end.

Definition feed_recv_buf (buf : list byte) : server_op := fun s =>
  handle_recv_buf (sv_set_recv (sv_recv_buf s ++ buf) s).
End build.

Definition take_recv_buf (s : RtmpServerHandshake) : RtmpServerHandshake * list byte :=
  (sv_set_recv [] s, sv_recv_buf s).

Definition advance_send_buf (n : nat) (s : RtmpServerHandshake) : RtmpServerHandshake :=
  sv_set_send (drop (Nat.min n (length (sv_send_buf s))) (sv_send_buf s)) s.

Definition is_recv_complete (s : RtmpServerHandshake) : bool := bool_decide (sv_phase s = Complete).
Definition is_send_complete (s : RtmpServerHandshake) : bool :=
  bool_decide (sv_phase s = Complete) && match sv_send_buf s with [] => true | _ => false end.

(** ** Client *)

Record RtmpClientHandshake : Set := mk_client {
  cl_options : RtmpHandshakeOptions;
  cl_mode : ClientHandshakeMode;
  cl_phase : Phase;
  cl_recv_buf : list byte;
  cl_send_buf : list byte
}.

Definition client_new_with_mode (mode : ClientHandshakeMode) : RtmpClientHandshake :=
  let options := options_default in
  mk_client options mode P0 [] ([byte_of RTMP_VERSION] ++ phase1_packet options).

Definition cl_set_recv (b : list byte) (s : RtmpClientHandshake) : RtmpClientHandshake :=
  mk_client (cl_options s) (cl_mode s) (cl_phase s) b (cl_send_buf s).
Definition cl_set_phase (p : Phase) (s : RtmpClientHandshake) : RtmpClientHandshake :=
  mk_client (cl_options s) (cl_mode s) p (cl_recv_buf s) (cl_send_buf s).
Definition cl_set_send (b : list byte) (s : RtmpClientHandshake) : RtmpClientHandshake :=
  mk_client (cl_options s) (cl_mode s) (cl_phase s) (cl_recv_buf s) b.

Definition client_op := SE RtmpClientHandshake Error unit.

Definition client_phase_p1 : client_op := fun s =>
  if (length (cl_recv_buf s) <? HANDSHAKE_PACKET_SIZE * 2)%nat then (s, Ok tt)
  else
    match read_bytes HANDSHAKE_PACKET_SIZE (cl_recv_buf s) with
    | (_, Err e) => (s, Err e)
    | (buf, Ok s1_packet) =>
        match read_bytes HANDSHAKE_PACKET_SIZE buf with
        | (_, Err e) => (s, Err e)
        | (buf, Ok s2_packet) =>
            let s := cl_set_recv buf s in
            if bool_decide (cl_mode s = CliStrict) &&
               negb (bool_decide (s2_packet = phase1_packet (cl_options s)))
            then (s, Err (invalid_data "S2 packet does not match C1 packet"))
            else
              let s := cl_set_send (cl_send_buf s ++ s1_packet) s in
              (cl_set_phase Complete s, Ok tt)
        end
    end.

Definition client_phase_p0 : client_op := fun s =>
  match cl_recv_buf s with
  | [] => (s, Ok tt)
  | _ =>
      match read_u8 (cl_recv_buf s) with
      | (_, Err e) => (s, Err e)
      | (buf, Ok server_rtmp_version) =>
          let s := cl_set_recv buf s in
          if negb (server_rtmp_version =? RTMP_VERSION)
          then (s, Err (version_error server_rtmp_version))
          else client_phase_p1 (cl_set_phase P1 s)
      end
  end.

Definition client_feed_recv_buf (buf : list byte) : client_op := fun s =>
  let s := cl_set_recv (cl_recv_buf s ++ buf) s in
  match cl_phase s with
  | P0 => client_phase_p0 s
  | P1 => client_phase_p1 s
  | P2 | Complete => (s, Ok tt)
  end.

Definition client_advance_send_buf (n : nat) (s : RtmpClientHandshake) : RtmpClientHandshake :=
  cl_set_send (drop (Nat.min n (length (cl_send_buf s))) (cl_send_buf s)) s.
Definition client_is_recv_complete (s : RtmpClientHandshake) : bool :=
  bool_decide (cl_phase s = Complete).

#[global] Opaque HANDSHAKE_PACKET_SIZE.
Arguments build_lenient_seeded_s1 : simpl never.
Arguments phase1_packet : simpl never.
Arguments options_default : simpl never.
Arguments build_complex_s1 : simpl never.
Arguments build_complex_s2 : simpl never.
Arguments handle_phase_p2 : simpl never.

(** ** Specification of the server

    Where the handshake stands after the bytes [all] have arrived: the phase,
    everything sent so far, and what is left in the receive buffer. *)
Section spec.
Variable complex_handshake : bool.
Variable hmac : list byte -> list byte -> list byte.

(** S1 and S2; building them never fails ([server_reply_built]). *)
Definition server_reply (mode : ServerHandshakeMode) (c1 : list byte) : list byte * list byte :=
  match client_scheme complex_handshake hmac c1 with
  | Some (Some scheme) =>
      (default [] (build_complex_s1 hmac c1 scheme), default [] (build_complex_s2 hmac c1 scheme))
  | _ => (match mode with
          | SrvStrict => phase1_packet options_default
          | LenientSeededS1 => build_lenient_seeded_s1 c1
          end, c1)
  end.

Record progress : Set := mk_progress {
  pg_phase : Phase;
  pg_sent : list byte;
  pg_left : list byte
}.

Definition server_spec_c2 (mode : ServerHandshakeMode) (s1 sent rest : list byte) :
    result Error progress :=
  if (length rest <? HANDSHAKE_PACKET_SIZE)%nat then Ok (mk_progress P2 sent rest)
  else if bool_decide (mode = SrvStrict) &&
          negb (bool_decide (s1 = take HANDSHAKE_PACKET_SIZE rest))
  then Err (invalid_data "C2 packet does not match S1 packet")
  else Ok (mk_progress Complete sent (drop HANDSHAKE_PACKET_SIZE rest)).

Definition server_spec_c1 (mode : ServerHandshakeMode) (rest : list byte) : result Error progress :=
  if (length rest <? HANDSHAKE_PACKET_SIZE)%nat
  then Ok (mk_progress P1 [byte_of RTMP_VERSION] rest)
  else let '(s1, s2) := server_reply mode (take HANDSHAKE_PACKET_SIZE rest) in
       server_spec_c2 mode s1 ([byte_of RTMP_VERSION] ++ s1 ++ s2)
         (drop HANDSHAKE_PACKET_SIZE rest).

Definition server_spec (mode : ServerHandshakeMode) (all : list byte) : result Error progress :=
  match all with
  | [] => Ok (mk_progress P0 [] [])
  | v :: rest =>
      if byte_val v =? RTMP_VERSION then server_spec_c1 mode rest
      else Err (version_error (byte_val v))
  end.

(** A server that has read [all] and whose earlier output [written] was moved
    to the socket. *)
Record server_rep (mode : ServerHandshakeMode) (written all : list byte)
    (s : RtmpServerHandshake) : Prop := {
  rep_options : sv_options s = options_default;
  rep_mode : sv_mode s = mode;
  rep_spec : server_spec mode all
    = Ok (mk_progress (sv_phase s) (written ++ sv_send_buf s) (sv_recv_buf s));
  rep_s1 : sv_phase s = P2 ->
    sv_s1_packet s = fst (server_reply mode (take HANDSHAKE_PACKET_SIZE (drop 1 all)))
}.

Lemma read_packet n buf :
  (n <= length buf)%nat -> read_bytes n buf = (drop n buf, Ok (take n buf)).
Proof.
  intros H. unfold read_bytes, read_fixed, check_buffer_size.
  by destruct (Nat.ltb_spec (length buf) n); [lia|].
Qed.

(** [handle_phase_p2] on a server that has answered C1 and has [rest] to read. *)
Lemma p2_refines s sent :
  sv_phase s = P2 ->
  match server_spec_c2 (sv_mode s) (sv_s1_packet s) sent (sv_recv_buf s) with
  | Ok pg => handle_phase_p2 s
             = (sv_set_phase (pg_phase pg) (sv_set_recv (pg_left pg) s), Ok tt) /\
             pg_sent pg = sent
  | Err e => snd (handle_phase_p2 s) = Err (Failed e)
  end.
Proof.
  intros Hp. unfold server_spec_c2, handle_phase_p2.
  destruct (Nat.ltb_spec (length (sv_recv_buf s)) HANDSHAKE_PACKET_SIZE) as [L|L].
  - split; [|done]. cbn. rewrite <- Hp. by destruct s.
  - rewrite read_packet by done. cbn [sv_set_recv sv_mode sv_s1_packet].
    by destruct (_ && _).
Qed.

(** What the digests need is inside the 1536 bytes of C1. *)
Lemma handshake_built c1 :
  (HANDSHAKE_PACKET_SIZE <= length c1)%nat ->
  client_scheme complex_handshake hmac c1 = Some None \/
  exists scheme s1 s2, client_scheme complex_handshake hmac c1 = Some (Some scheme) /\
    build_complex_s1 hmac c1 scheme = Some s1 /\ build_complex_s2 hmac c1 scheme = Some s2.
Proof.
  intros Hl. unfold client_scheme. destruct complex_handshake; [|by left].
  destruct (detect_inside hmac c1) as [[scheme|] E]; [right|by left].
  destruct (build_s1_inside hmac c1 scheme) as (off & digest & _ & _ & _ & _ & E1).
  destruct (build_s2_inside hmac c1 scheme) as [s2 E2]; [exact Hl|]. by eexists scheme, _, s2.
Qed.

Lemma p1_refines mode s written :
  sv_options s = options_default -> sv_mode s = mode -> sv_phase s = P1 ->
  written ++ sv_send_buf s = [byte_of RTMP_VERSION] ->
  match server_spec_c1 mode (sv_recv_buf s) with
  | Ok pg => exists s',
      handle_phase_p1 complex_handshake hmac s = (s', Ok tt) /\
      sv_options s' = options_default /\ sv_mode s' = mode /\
      pg = mk_progress (sv_phase s') (written ++ sv_send_buf s') (sv_recv_buf s') /\
      (sv_phase s' = P2 -> sv_s1_packet s' =
         fst (server_reply mode (take HANDSHAKE_PACKET_SIZE (sv_recv_buf s))))
  | Err e => snd (handle_phase_p1 complex_handshake hmac s) = Err (Failed e)
  end.
Proof.
  destruct s as [o m p rb sb s1p].
  cbn [sv_options sv_mode sv_phase sv_send_buf sv_recv_buf]. intros -> -> -> Hw.
  set (s := mk_server _ _ _ _ _ _). unfold server_spec_c1, handle_phase_p1.
  change (sv_recv_buf s) with rb.
  destruct (Nat.ltb_spec (length rb) HANDSHAKE_PACKET_SIZE) as [L|L].
  - exists s. repeat split; try done; cbn; by rewrite Hw.
  - rewrite read_packet by done. set (c1 := take _ _). set (rest := drop _ _).
    assert (G : forall s1 s2, server_reply mode c1 = (s1, s2) ->
      let s2' := mk_server options_default mode P2 rest ((sb ++ s1) ++ s2) s1 in
      match server_spec_c2 mode s1 ([byte_of RTMP_VERSION] ++ s1 ++ s2) rest with
      | Ok pg => exists s',
          handle_phase_p2 s2' = (s', Ok tt) /\
          sv_options s' = options_default /\ sv_mode s' = mode /\
          pg = mk_progress (sv_phase s') (written ++ sv_send_buf s') (sv_recv_buf s') /\
          (sv_phase s' = P2 -> sv_s1_packet s' = fst (server_reply mode c1))
      | Err e => snd (handle_phase_p2 s2') = Err (Failed e)
      end).
    { intros s1 s2 E s2'. rewrite <- Hw, <- app_assoc.
      pose proof (p2_refines s2' (written ++ sb ++ s1 ++ s2) eq_refl) as R.
      cbn [sv_mode sv_s1_packet sv_recv_buf s2'] in R.
      destruct (server_spec_c2 _ _ _ _) as [pg|e]; [|done].
      destruct R as [R1 R2]. eexists. split; [exact R1|]. cbn. repeat split; try done.
      - rewrite <- app_assoc, <- R2. by destruct pg.
      - intros _. change (s1 = fst (server_reply mode c1)). by rewrite E. }
    destruct (server_reply mode c1) as [s1 s2] eqn:Er. specialize (G _ _ eq_refl).
    cbn [fst] in G |- *. cbn zeta in G.
    unfold server_reply in Er.
    destruct (handshake_built c1) as [E|(scheme & s1' & s2' & E & E1 & E2)].
    { unfold c1. rewrite length_take. lia. }
    + rewrite E in Er |- *. injection Er as <- <-. exact G.
    + rewrite E, E1, E2 in Er |- *. cbn [default] in Er. injection Er as <- <-. exact G.
Qed.

Lemma read_u8_cons v r : read_u8 (v :: r) = (r, Ok (byte_val v)).
Proof.
  unfold read_u8. change (v :: r) with ([v] ++ r). by rewrite read_fixed_app.
Qed.

(** What is left after C1 grows with the stream; C1 itself does not change. *)
Lemma spec_c1_app mode rest b :
  (HANDSHAKE_PACKET_SIZE <= length rest)%nat ->
  server_spec_c1 mode (rest ++ b) =
    let '(s1, s2) := server_reply mode (take HANDSHAKE_PACKET_SIZE rest) in
    server_spec_c2 mode s1 ([byte_of RTMP_VERSION] ++ s1 ++ s2)
      (drop HANDSHAKE_PACKET_SIZE rest ++ b).
Proof.
  intros H. unfold server_spec_c1. rewrite length_app.
  destruct (Nat.ltb_spec (length rest + length b) HANDSHAKE_PACKET_SIZE); [lia|].
  by rewrite take_app_le, drop_app_le by done.
Qed.

Lemma spec_c2_app mode s1 sent rest b pg :
  (HANDSHAKE_PACKET_SIZE <= length rest)%nat -> server_spec_c2 mode s1 sent rest = Ok pg ->
  server_spec_c2 mode s1 sent (rest ++ b) = Ok (mk_progress Complete sent (pg_left pg ++ b)) /\
  pg_phase pg = Complete /\ pg_sent pg = sent.
Proof.
  intros H. unfold server_spec_c2. rewrite length_app.
  destruct (Nat.ltb_spec (length rest) HANDSHAKE_PACKET_SIZE); [lia|].
  destruct (Nat.ltb_spec (length rest + length b) HANDSHAKE_PACKET_SIZE); [lia|].
  rewrite take_app_le, drop_app_le by done. destruct (_ && _); [done|]. by intros [= <-].
Qed.

Lemma feed_refines mode written all s b :
  server_rep mode written all s ->
  match server_spec mode (all ++ b) with
  | Ok _ => exists s', feed_recv_buf complex_handshake hmac b s = (s', Ok tt) /\
                       server_rep mode written (all ++ b) s'
  | Err e => snd (feed_recv_buf complex_handshake hmac b s) = Err (Failed e)
  end.
Proof.
  intros [Ho Hm Hs H1]. unfold feed_recv_buf, handle_recv_buf. cbn [sv_phase sv_set_recv].
  destruct s as [o m p rb sb s1p]. cbn [sv_options sv_mode sv_phase sv_recv_buf sv_send_buf
    sv_s1_packet] in *. subst o m.
  destruct all as [|v rest].
  { injection Hs as <- E <-. destruct written, sb; try done. rewrite !app_nil_l. clear H1.
    unfold handle_phase_p0. cbn [sv_recv_buf sv_set_recv].
    destruct b as [|v b]; [cbn; eexists; split; [done|by split]|].
    rewrite read_u8_cons. cbn [server_spec]. destruct (byte_val v =? RTMP_VERSION) eqn:Ev; [|done].
    cbn [negb]. set (s := sv_set_phase _ _).
    pose proof (p1_refines mode s [] eq_refl eq_refl eq_refl eq_refl) as R.
    change (sv_recv_buf s) with b in R.
    destruct (server_spec_c1 mode b) as [pg|e] eqn:Esp; [|done].
    destruct R as (s' & R1 & R2 & R3 & R4 & R5). exists s'. split; [done|]. split; try done.
    cbn [server_spec]. by rewrite Ev, Esp, R4. }
  cbn [app server_spec] in *. destruct (byte_val v =? RTMP_VERSION) eqn:Ev; [|done].
  destruct (Nat.ltb_spec (length rest) HANDSHAKE_PACKET_SIZE) as [L|L].
  { unfold server_spec_c1 in Hs. apply Nat.ltb_lt in L. rewrite L in Hs.
    injection Hs as <- E <-.
    pose proof (p1_refines mode (mk_server options_default mode P1 (rest ++ b) sb s1p) written
      eq_refl eq_refl eq_refl (eq_sym E)) as R. cbn [sv_recv_buf sv_set_recv] in R |- *.
    destruct (server_spec_c1 mode (rest ++ b)) as [pg|e] eqn:Esp; [|done].
    destruct R as (s' & R1 & R2 & R3 & R4 & R5). exists s'. split; [done|]. split; try done.
    cbn [server_spec]. by rewrite Ev, Esp, R4. }
  rewrite spec_c1_app by done. rewrite <- (app_nil_r rest), spec_c1_app, app_nil_r in Hs by done.
  change (drop 1 (v :: rest)) with rest in H1.
  destruct (server_reply mode (take HANDSHAKE_PACKET_SIZE rest)) as [s1 s2] eqn:Er.
  set (b2 := drop _ rest) in *. set (sent := _ ++ s1 ++ s2) in *.
  assert (Hr : forall s', server_spec_c2 mode s1 sent (b2 ++ b)
      = Ok (mk_progress (sv_phase s') (written ++ sv_send_buf s') (sv_recv_buf s')) ->
    sv_options s' = options_default -> sv_mode s' = mode ->
    (sv_phase s' = P2 -> sv_s1_packet s' = s1) ->
    server_rep mode written (v :: rest ++ b) s').
  { intros s' E1 E2 E3 E4. split; try done.
    - cbn [server_spec]. by rewrite Ev, spec_c1_app, Er.
    - change (drop 1 (v :: rest ++ b)) with (rest ++ b). rewrite take_app_le by done.
      by rewrite Er. }
  destruct (Nat.ltb_spec (length b2) HANDSHAKE_PACKET_SIZE) as [L2|L2].
  - unfold server_spec_c2 in Hs. apply Nat.ltb_lt in L2. rewrite L2 in Hs.
    injection Hs as <- E <-. specialize (H1 eq_refl). cbn [fst] in H1. subst s1p.
    pose proof (p2_refines (mk_server options_default mode P2 (b2 ++ b) sb s1) sent eq_refl) as R.
    cbn [sv_mode sv_s1_packet sv_recv_buf sv_set_recv] in R |- *.
    destruct (server_spec_c2 mode s1 sent (b2 ++ b)) as [pg|e] eqn:Esp; [|done].
    destruct R as [R1 R2]. eexists. split; [exact R1|]. apply Hr; try done.
    cbn. rewrite <- E, <- R2. by destruct pg.
  - destruct (spec_c2_app _ _ _ _ b _ L2 Hs) as (R1 & R2 & R3).
    cbn [pg_phase pg_sent pg_left] in *. subst p. rewrite R1. eexists. split; [done|].
    apply Hr; try done. cbn [sv_phase sv_send_buf sv_recv_buf sv_set_recv]. by rewrite R1, R3.
Qed.

Lemma server_rep_new mode : server_rep mode [] [] (server_new_with_mode mode).
Proof. by split. Qed.

(** Moving output to the socket changes nothing. *)
Lemma advance_rep mode written all s n :
  server_rep mode written all s ->
  server_rep mode (written ++ take (Nat.min n (length (sv_send_buf s))) (sv_send_buf s)) all
    (advance_send_buf n s).
Proof.
  intros [H1 H2 H3 H4]. split; try done.
  cbn. by rewrite <- app_assoc, take_drop.
Qed.
(** *** No index of the handshake is out of range *)

Lemma p2_never_panics s : snd (handle_phase_p2 s) <> Err Panicked.
Proof.
  unfold handle_phase_p2. destruct (_ <? _)%nat; [done|].
  destruct (read_bytes _ _) as [buf [c2|e]]; [|done]. by destruct (_ && _).
Qed.

Lemma p1_never_panics s : snd (handle_phase_p1 complex_handshake hmac s) <> Err Panicked.
Proof.
  unfold handle_phase_p1. destruct (Nat.ltb_spec (length (sv_recv_buf s)) HANDSHAKE_PACKET_SIZE); [done|].
  rewrite read_packet by done.
  destruct (handshake_built (take HANDSHAKE_PACKET_SIZE (sv_recv_buf s)))
    as [E|(scheme & s1 & s2 & E & E1 & E2)]; [rewrite length_take; lia| |].
  - rewrite E. apply p2_never_panics.
  - rewrite E, E1, E2. apply p2_never_panics.
Qed.

Lemma feed_never_panics b s : snd (feed_recv_buf complex_handshake hmac b s) <> Err Panicked.
Proof.
  unfold feed_recv_buf, handle_recv_buf.
  destruct (sv_phase (sv_set_recv (sv_recv_buf s ++ b) s)); [|apply p1_never_panics|apply p2_never_panics|done].
  unfold handle_phase_p0. destruct (sv_recv_buf _); [done|]. destruct (read_u8 _) as [buf [v|e]]; [|done].
  destruct (negb _); [done|apply p1_never_panics].
Qed.

End spec.
