(* ===== verification/RtmpHandshakeSpec.v ===== *)
(** * RTMP handshake: both ends, over any transport

    The interface that the two state machines of [RtmpHandshake] share (the client's has no index
    that could be out of range), what
    refining a specification means for it, and the theorems that follow for any
    machine with the interface; then the client's specification and the
    handshake between a client and a server. *)
From Stdlib Require Import Strings.Byte.
From S2P Require Import Prelude RtmpBytes RtmpHandshakeComplex RtmpHandshake.

(** ** The interface *)

Class HandshakeMachine (S : Type) := {
  hm_feed : list byte -> SE S hs_fault unit;
  hm_phase : S -> Phase;
  hm_recv : S -> list byte;
  hm_send : S -> list byte;
  hm_advance : nat -> S -> S
}.

(** A machine that is a function of the stream it has read: [rep written all s]
    says that [s] has read [all] and that [written] was taken from its send
    buffer before. *)
Class HandshakeRefines (S : Type) `{HandshakeMachine S} (init : S)
    (spec : list byte -> result Error progress) (rep : list byte -> list byte -> S -> Prop) := {
  hr_init : rep [] [] init;
  hr_spec : forall written all s, rep written all s ->
    spec all = Ok (mk_progress (hm_phase s) (written ++ hm_send s) (hm_recv s));
  hr_feed : forall written all s b, rep written all s ->
    match spec (all ++ b) with
    | Ok _ => exists s', hm_feed b s = (s', Ok tt) /\ rep written (all ++ b) s'
    | Err e => snd (hm_feed b s) = Err (Failed e)
    end;
  hr_advance : forall written all s, rep written all s ->
    rep (written ++ hm_send s) all (hm_advance (length (hm_send s)) s) /\
    hm_send (hm_advance (length (hm_send s)) s) = [];
  hr_err : forall p q e, spec p = Err e -> spec (p ++ q) = Err e
}.

(** The driver: feed each segment, then move what is to be sent to the socket. *)
Fixpoint run {S} `{HandshakeMachine S} (s : S) (written : list byte)
    (segments : list (list byte)) : S * list byte * result hs_fault unit :=
  match segments with
  | [] => (s, written, Ok tt)
  | b :: rest =>
      match hm_feed b s with
      | (s, Err e) => (s, written, Err e)
      | (s, Ok _) => run (hm_advance (length (hm_send s)) s) (written ++ hm_send s) rest
      end
  end.

Section refines.
Context {S : Type} `{HandshakeMachine S} (init : S)
  (spec : list byte -> result Error progress) (rep : list byte -> list byte -> S -> Prop)
  `{!HandshakeRefines S init spec rep}.

(** The run of a machine that starts in the middle of the handshake. *)
Lemma run_rep s written all segments :
  rep written all s -> hm_send s = [] ->
  match spec (all ++ concat segments) with
  | Ok pg => exists s', run s written segments = (s', pg_sent pg, Ok tt) /\
      rep (pg_sent pg) (all ++ concat segments) s' /\ hm_send s' = [] /\
      hm_phase s' = pg_phase pg /\ hm_recv s' = pg_left pg
  | Err e => snd (run s written segments) = Err (Failed e)
  end.
Proof using All.
  revert s written all. induction segments as [|b segs IH]; intros s written all Hr Hs.
  - cbn [concat]. rewrite app_nil_r, (hr_spec _ _ _ Hr), Hs, app_nil_r. cbn.
    exists s. by rewrite Hs.
  - cbn [concat run]. pose proof (hr_feed _ _ _ b Hr) as F. rewrite app_assoc.
    destruct (spec (all ++ b)) as [pg|e] eqn:Es.
    + destruct F as (s1 & -> & Hr1). destruct (hr_advance _ _ _ Hr1) as [Hr2 Hs2].
      apply (IH _ _ _ Hr2 Hs2).
    + rewrite (hr_err _ (concat segs) _ Es). destruct (hm_feed b s) as [s1 r]. cbn in F.
      by rewrite F.
Qed.

(** From the start, with what the machine has to send before it reads anything. *)
Lemma run_init segments :
  let s0 := hm_advance (length (hm_send init)) init in
  match spec (concat segments) with
  | Ok pg => exists s', run s0 (hm_send init) segments = (s', pg_sent pg, Ok tt) /\
      rep (pg_sent pg) (concat segments) s' /\ hm_send s' = [] /\
      hm_phase s' = pg_phase pg /\ hm_recv s' = pg_left pg
  | Err e => snd (run s0 (hm_send init) segments) = Err (Failed e)
  end.
Proof using All.
  destruct (hr_advance _ _ _ hr_init) as [Hr Hs]. apply (run_rep _ _ _ _ Hr Hs).
Qed.
End refines.

(** ** The server *)

Section server.
Variable complex_handshake : bool.
Variable hmac : list byte -> list byte -> list byte.

#[export] Instance server_machine : HandshakeMachine RtmpServerHandshake := {
  hm_feed := feed_recv_buf complex_handshake hmac;
  hm_phase := sv_phase;
  hm_recv := sv_recv_buf;
  hm_send := sv_send_buf;
  hm_advance := advance_send_buf
}.

Lemma server_spec_err mode p q e :
  server_spec complex_handshake hmac mode p = Err e ->
  server_spec complex_handshake hmac mode (p ++ q) = Err e.
Proof.
  destruct p as [|v rest]; [done|]. cbn [server_spec app].
  destruct (byte_val v =? RTMP_VERSION); [|done].
  destruct (Nat.ltb_spec (length rest) HANDSHAKE_PACKET_SIZE) as [L|L].
  { unfold server_spec_c1 at 1. apply Nat.ltb_lt in L. by rewrite L. }
  rewrite spec_c1_app by done. rewrite <- (app_nil_r rest) at 1. rewrite spec_c1_app by done.
  destruct (server_reply _ _ _ _) as [s1 s2]. rewrite app_nil_r.
  set (b2 := drop _ _). unfold server_spec_c2. rewrite length_app.
  destruct (Nat.ltb_spec (length b2) HANDSHAKE_PACKET_SIZE); [done|].
  destruct (Nat.ltb_spec (length b2 + length q) HANDSHAKE_PACKET_SIZE); [lia|].
  rewrite take_app_le by done. by destruct (_ && _).
Qed.

#[export] Instance server_refines mode :
  HandshakeRefines RtmpServerHandshake (server_new_with_mode mode)
    (server_spec complex_handshake hmac mode) (server_rep complex_handshake hmac mode).
Proof.
  split.
  - apply server_rep_new.
  - by intros w all s [_ _ Hs _].
  - intros w all s b. apply feed_refines.
  - intros w all s Hr. pose proof (advance_rep _ _ _ _ _ _ (length (sv_send_buf s)) Hr) as A.
    rewrite Nat.min_id, firstn_all in A. split; [done|]. cbn.
    by rewrite Nat.min_id, drop_all.
  - apply server_spec_err.
Qed.
End server.

(** ** The client *)

Definition c0c1 : list byte := [byte_of RTMP_VERSION] ++ phase1_packet options_default.

#[local] Opaque c0c1.

Definition client_spec (mode : ClientHandshakeMode) (all : list byte) : result Error progress :=
  match all with
  | [] => Ok (mk_progress P0 c0c1 [])
  | v :: rest =>
      if byte_val v =? RTMP_VERSION then
        if (length rest <? HANDSHAKE_PACKET_SIZE * 2)%nat then Ok (mk_progress P1 c0c1 rest)
        else if bool_decide (mode = CliStrict) &&
                negb (bool_decide (take HANDSHAKE_PACKET_SIZE (drop HANDSHAKE_PACKET_SIZE rest)
                                   = phase1_packet options_default))
        then Err (invalid_data "S2 packet does not match C1 packet")
        else Ok (mk_progress Complete (c0c1 ++ take HANDSHAKE_PACKET_SIZE rest)
                   (drop (HANDSHAKE_PACKET_SIZE * 2) rest))
      else Err (version_error (byte_val v))
  end.

Record client_rep (mode : ClientHandshakeMode) (written all : list byte)
    (s : RtmpClientHandshake) : Prop := {
  crep_options : cl_options s = options_default;
  crep_mode : cl_mode s = mode;
  crep_spec : client_spec mode all
    = Ok (mk_progress (cl_phase s) (written ++ cl_send_buf s) (cl_recv_buf s))
}.

#[export] Instance client_machine : HandshakeMachine RtmpClientHandshake := {
  hm_feed := fun b s => let '(s, r) := client_feed_recv_buf b s in (s, result_map_err Failed r);
  hm_phase := cl_phase;
  hm_recv := cl_recv_buf;
  hm_send := cl_send_buf;
  hm_advance := client_advance_send_buf
}.

Lemma read_packets n rest :
  (n * 2 <= length rest)%nat ->
  read_bytes n rest = (drop n rest, Ok (take n rest)) /\
  read_bytes n (drop n rest) = (drop (n * 2) rest, Ok (take n (drop n rest))).
Proof.
  intros H. rewrite !read_packet by (rewrite ?length_drop; lia).
  split; [done|]. rewrite drop_drop. do 2 f_equal. lia.
Qed.

Lemma client_p1_refines v mode w rest sb :
  byte_val v = RTMP_VERSION -> w ++ sb = c0c1 ->
  match client_spec mode (v :: rest) with
  | Ok _ => exists s',
      client_phase_p1 (mk_client options_default mode P1 rest sb) = (s', Ok tt) /\
      client_rep mode w (v :: rest) s'
  | Err e => snd (client_phase_p1 (mk_client options_default mode P1 rest sb)) = Err e
  end.
Proof.
  intros Hv Hw. unfold client_phase_p1. cbn [cl_recv_buf client_spec].
  rewrite Hv, Z.eqb_refl.
  destruct (Nat.ltb_spec (length rest) (HANDSHAKE_PACKET_SIZE * 2)) as [L|L].
  - eexists. split; [done|]. split; try done. cbn [client_spec]. apply Nat.ltb_lt in L.
    by rewrite Hv, Z.eqb_refl, L, <- Hw.
  - destruct (read_packets _ _ L) as [-> ->]. cbn [cl_set_recv cl_mode cl_options].
    destruct (bool_decide _ && _) eqn:Eb; [done|].
    eexists. split; [done|]. split; try done. cbn [client_spec]. apply Nat.ltb_ge in L.
    rewrite Hv, Z.eqb_refl, L, Eb, <- Hw. cbn. by rewrite <- app_assoc.
Qed.

Lemma client_feed_refines mode w all s b :
  client_rep mode w all s ->
  match client_spec mode (all ++ b) with
  | Ok _ => exists s', client_feed_recv_buf b s = (s', Ok tt) /\ client_rep mode w (all ++ b) s'
  | Err e => snd (client_feed_recv_buf b s) = Err e
  end.
Proof.
  intros [Ho Hm Hs]. destruct s as [o m p rb sb].
  cbn [cl_options cl_mode cl_phase cl_recv_buf cl_send_buf] in *. subst o m.
  unfold client_feed_recv_buf. cbn [cl_set_recv cl_recv_buf cl_phase cl_options cl_mode cl_send_buf cl_set_phase].
  destruct all as [|v rest].
  { injection Hs as <- E <-. rewrite !app_nil_l. unfold client_phase_p0. cbn [cl_recv_buf].
    destruct b as [|v b]; [eexists; split; [done|]; split; try done; cbn; by rewrite <- E|].
    cbn [cl_set_recv cl_set_phase cl_recv_buf cl_options cl_mode cl_phase cl_send_buf].
    rewrite read_u8_cons. destruct (Z.eqb_spec (byte_val v) RTMP_VERSION) as [Ev|Ev]; cbn [negb].
    - by apply client_p1_refines.
    - cbn [client_spec]. by destruct (Z.eqb_spec (byte_val v) RTMP_VERSION). }
  cbn [client_spec] in Hs.
  destruct (Z.eqb_spec (byte_val v) RTMP_VERSION) as [Ev|Ev]; [|done].
  destruct (Nat.ltb_spec (length rest) (HANDSHAKE_PACKET_SIZE * 2)) as [L|L].
  { injection Hs as <- E <-. by apply client_p1_refines. }
  cbn [app client_spec]. rewrite Ev, Z.eqb_refl, length_app.
  destruct (Nat.ltb_spec (length rest + length b) (HANDSHAKE_PACKET_SIZE * 2)); [lia|].
  rewrite !drop_app_le, !take_app_le by (rewrite ?length_drop; lia).
  destruct (bool_decide _ && _) eqn:Eb; [done|]. injection Hs as <- E <-.
  eexists. split; [done|]. split; try done. cbn [client_spec].
  rewrite Ev, Z.eqb_refl, length_app.
  destruct (Nat.ltb_spec (length rest + length b) (HANDSHAKE_PACKET_SIZE * 2)); [lia|].
  rewrite !drop_app_le, !take_app_le by (rewrite ?length_drop; lia). by rewrite Eb, E.
Qed.

Lemma client_spec_err mode p q e :
  client_spec mode p = Err e -> client_spec mode (p ++ q) = Err e.
Proof.
  destruct p as [|v rest]; [done|]. cbn [client_spec app].
  destruct (byte_val v =? RTMP_VERSION); [|done]. rewrite length_app.
  destruct (Nat.ltb_spec (length rest) (HANDSHAKE_PACKET_SIZE * 2)); [done|].
  destruct (Nat.ltb_spec (length rest + length q) (HANDSHAKE_PACKET_SIZE * 2)); [lia|].
  rewrite !drop_app_le, !take_app_le by (rewrite ?length_drop; lia). by destruct (_ && _).
Qed.

#[local] Transparent c0c1.

#[export] Instance client_refines mode :
  HandshakeRefines RtmpClientHandshake (client_new_with_mode mode)
    (client_spec mode) (client_rep mode).
Proof.
  split.
  - by split.
  - by intros w all s [_ _ Hs].
  - intros w all s b Hr. pose proof (client_feed_refines _ _ _ _ b Hr) as F.
    destruct (client_spec mode (all ++ b)) as [pg|e]; cbn.
    + destruct F as (s' & -> & Hs). by exists s'.
    + destruct (client_feed_recv_buf b s) as [s' r]. cbn in F |- *. by rewrite F.
  - intros w all s [H1 H2 H3]. split.
    + split; try done. cbn. by rewrite Nat.min_id, drop_all, app_nil_r.
    + cbn. by rewrite Nat.min_id, drop_all.
  - apply client_spec_err.
Qed.

(** ** A client against a server *)

Lemma phase1_packet_length : length (phase1_packet options_default) = HANDSHAKE_PACKET_SIZE.
Proof. by vm_compute. Qed.

Lemma s1_fill_length n seed : length (s1_fill n seed) = n.
Proof. revert seed. induction n as [|n IH]; intros; cbn; [done|]. by rewrite IH. Qed.

Lemma seeded_s1_length c1 : length (build_lenient_seeded_s1 c1) = HANDSHAKE_PACKET_SIZE.
Proof.
  unfold build_lenient_seeded_s1. rewrite length_app, s1_fill_length, length_replicate.
  assert (8 <= HANDSHAKE_PACKET_SIZE)%nat by (apply Nat.leb_le; by vm_compute). lia.
Qed.

(** The S1 of a server that did not detect a digest. *)
Definition simple_s1 (mode : ServerHandshakeMode) : list byte :=
  match mode with
  | SrvStrict => phase1_packet options_default
  | LenientSeededS1 => build_lenient_seeded_s1 (phase1_packet options_default)
  end.

Lemma simple_s1_length mode : length (simple_s1 mode) = HANDSHAKE_PACKET_SIZE.
Proof. destruct mode; [apply phase1_packet_length|apply seeded_s1_length]. Qed.

Definition s0s1s2 (mode : ServerHandshakeMode) : list byte :=
  [byte_of RTMP_VERSION] ++ simple_s1 mode ++ phase1_packet options_default.

Lemma packet_size_pos : (0 < HANDSHAKE_PACKET_SIZE)%nat.
Proof. apply Nat.ltb_lt. by vm_compute. Qed.

Section pair.
Variable complex_handshake : bool.
Variable hmac : list byte -> list byte -> list byte.
Hypothesis simple : client_scheme complex_handshake hmac (phase1_packet options_default) = Some None.

Lemma server_answers mode tail :
  server_spec complex_handshake hmac mode (c0c1 ++ tail) =
  server_spec_c2 mode (simple_s1 mode) (s0s1s2 mode) tail.
Proof using All.
  unfold c0c1. cbn [app server_spec]. change (byte_val (byte_of RTMP_VERSION)) with RTMP_VERSION.
  rewrite Z.eqb_refl, spec_c1_app by (by rewrite phase1_packet_length).
  rewrite take_ge, drop_ge, app_nil_l by (by rewrite phase1_packet_length).
  unfold server_reply. by rewrite simple.
Qed.

Lemma client_answers cmode mode :
  client_spec cmode (s0s1s2 mode) = Ok (mk_progress Complete (c0c1 ++ simple_s1 mode) []).
Proof using Type.
  unfold s0s1s2. cbn [app client_spec].
  change (byte_val (byte_of RTMP_VERSION)) with RTMP_VERSION. rewrite Z.eqb_refl.
  pose proof (simple_s1_length mode) as L1. pose proof phase1_packet_length as L2.
  rewrite length_app, L1, L2.
  destruct (Nat.ltb_spec (HANDSHAKE_PACKET_SIZE + HANDSHAKE_PACKET_SIZE)
              (HANDSHAKE_PACKET_SIZE * 2)); [lia|].
  rewrite (drop_app_length' _ _ HANDSHAKE_PACKET_SIZE), (take_app_length' (simple_s1 mode)) by lia.
  rewrite (take_ge (phase1_packet _)) by (by rewrite L2).
  rewrite (bool_decide_true (_ = phase1_packet _)) by done. rewrite andb_false_r.
  rewrite drop_ge by (rewrite length_app, L1, L2; lia). done.
Qed.
End pair.

(** ** Claims *)

(** [C15] The server handshake is a function of the byte stream. However the bytes
    arrive, with the output moved to the socket after every segment, the server
    ends in the phase, with the bytes sent and the bytes left that [server_spec]
    gives for the whole stream: S0 as soon as a version byte 3 is there, S1 and
    S2 after the 1536 bytes of C1 (S2 an echo of C1 in the simple handshake),
    completion after the 1536 bytes of C2, everything after C2 left for the chunk
    decoder. It fails exactly when [server_spec] does, with the same error: a
    wrong version, or in strict mode a C2 that is not S1. *)
Theorem server_handshake_stream complex_handshake hmac mode segments :
  let '(s, sent, res) :=
    @run _ (server_machine complex_handshake hmac) (server_new_with_mode mode) [] segments in
  match server_spec complex_handshake hmac mode (concat segments) with
  | Ok pg => res = Ok tt /\ sent = pg_sent pg /\ sv_phase s = pg_phase pg /\
             sv_recv_buf s = pg_left pg /\ is_send_complete s = bool_decide (pg_phase pg = Complete)
  | Err e => res = Err (Failed e)
  end.
Proof.
  pose proof (run_init (server_new_with_mode mode) _ _ segments
    (HandshakeRefines0 := server_refines complex_handshake hmac mode)) as R.
  cbv zeta in R. cbn [hm_send hm_advance server_machine] in R.
  change (advance_send_buf _ _) with (server_new_with_mode mode) in R.
  change (sv_send_buf (server_new_with_mode mode)) with (@nil byte) in R.
  destruct (server_spec _ _ _ _) as [pg|e].
  - destruct R as (s' & -> & _ & H1 & H2 & H3). cbn in H1, H2, H3.
    unfold is_send_complete. rewrite H1, H2, andb_true_r. done.
  - by destruct (run _ _ _) as [[s w] r].
Qed.

(** Client and server of this library complete the handshake with each
    other, in every combination of modes, when the server does not take the
    client's C1 for a digest (always so without the complex-handshake feature).
    Cut the three flights anywhere and put anything behind the client's C2: both
    ends complete, the client has nothing left in its buffer and the server keeps
    exactly the bytes behind C2. *)
Theorem handshake_pair_completes complex_handshake hmac mode cmode flight1 flight2 flight3 tail :
  client_scheme complex_handshake hmac (phase1_packet options_default) = Some None ->
  concat flight1 = c0c1 -> concat flight2 = s0s1s2 mode ->
  concat flight3 = simple_s1 mode ++ tail ->
  cl_send_buf (client_new_with_mode cmode) = c0c1 /\
  exists s1 c s2,
    @run _ (server_machine complex_handshake hmac) (server_new_with_mode mode) [] flight1
      = (s1, s0s1s2 mode, Ok tt) /\
    run (client_advance_send_buf (length c0c1) (client_new_with_mode cmode)) c0c1 flight2
      = (c, c0c1 ++ simple_s1 mode, Ok tt) /\
    cl_phase c = Complete /\ cl_recv_buf c = [] /\
    @run _ (server_machine complex_handshake hmac) s1 (s0s1s2 mode) flight3
      = (s2, s0s1s2 mode, Ok tt) /\
    sv_phase s2 = Complete /\ sv_recv_buf s2 = tail.
Proof.
  intros Hs H1 H2 H3. split; [done|].
  pose proof (server_refines complex_handshake hmac mode) as RS.
  pose proof (run_rep _ _ _ (HandshakeRefines0 := RS) (server_new_with_mode mode) [] [] flight1
    (hr_init (HandshakeRefines := RS)) eq_refl) as R1.
  rewrite H1, app_nil_l, <- (app_nil_r c0c1), server_answers in R1 by done.
  pose proof packet_size_pos as Hp.
  unfold server_spec_c2 in R1 at 1. cbn [length] in R1.
  destruct (Nat.ltb_spec 0 HANDSHAKE_PACKET_SIZE); [|lia].
  destruct R1 as (s1 & R1 & Hr1 & Hd1 & _). cbn [pg_sent] in R1, Hr1.
  pose proof (run_rep _ _ _ (HandshakeRefines0 := RS) _ _ _ flight3 Hr1 Hd1) as R3.
  rewrite app_nil_r, H3, server_answers in R3 by done.
  pose proof (simple_s1_length mode) as L.
  unfold server_spec_c2 in R3. rewrite length_app, L in R3.
  destruct (Nat.ltb_spec (HANDSHAKE_PACKET_SIZE + length tail) HANDSHAKE_PACKET_SIZE); [lia|].
  rewrite take_app_length', drop_app_length' in R3 by lia.
  rewrite (bool_decide_true (simple_s1 mode = _)), andb_false_r in R3 by done.
  destruct R3 as (s2 & R3 & _ & _ & P3 & L3).
  pose proof (run_init (client_new_with_mode cmode) _ _ flight2
    (HandshakeRefines0 := client_refines cmode)) as RC.
  rewrite H2, client_answers in RC. destruct RC as (c & RC & _ & _ & PC & LC).
  exists s1, c, s2. auto 10.
Qed.

Lemma handshake_pair_completes_witness :
  exists s1 c s2,
    @run _ (server_machine false (fun _ _ => [])) (server_new_with_mode SrvStrict) [] [c0c1]
      = (s1, s0s1s2 SrvStrict, Ok tt) /\
    run (client_advance_send_buf (length c0c1) (client_new_with_mode Lenient)) c0c1 [s0s1s2 SrvStrict]
      = (c, c0c1 ++ simple_s1 SrvStrict, Ok tt) /\ cl_phase c = Complete /\
    @run _ (server_machine false (fun _ _ => [])) s1 (s0s1s2 SrvStrict) [simple_s1 SrvStrict; [x03]]
      = (s2, s0s1s2 SrvStrict, Ok tt) /\ sv_recv_buf s2 = [x03].
Proof.
  destruct (handshake_pair_completes false (fun _ _ => []) SrvStrict Lenient [c0c1] [s0s1s2 SrvStrict]
    [simple_s1 SrvStrict; [x03]] [x03]) as (_ & s1 & c & s2 & H1 & H2 & H3 & _ & H5 & _ & H7).
  - reflexivity.
  - apply app_nil_r.
  - apply app_nil_r.
  - reflexivity.
  - exists s1, c, s2. exact (conj H1 (conj H2 (conj H3 (conj H5 H7)))).
Defined.
