(* ===== verification/RtmpPublish.v ===== *)
(** * Media received before and after a publish is accepted

    Models [crates/protocols/rtmp/core/src/core/media.rs] and the publish states of
    [RtmpCore] ([core.rs], [core/command/inbound.rs], [core/command/outbound.rs]):
    media of a stream that asked to publish is kept until the application accepts,
    then replayed. The fields of [RtmpCore] that these functions use; event names
    and details of ignored messages are left out. *)
From Stdlib Require Import Strings.Byte.
From S2P Require Import Prelude RtmpBytes.

Inductive RtmpMediaType : Set := Audio | Video | Data.

Record PendingPublishMedia : Set := mk_media {
  stream_id : Z;
  timestamp_ms : Z;
  media_type : RtmpMediaType;
  payload : list byte;
  is_header : bool
}.

(** The events of [RtmpEvent] that these functions push. *)
Inductive media_event : Set :=
| MediaData (stream_id timestamp_ms : Z) (media_type : RtmpMediaType) (payload : list byte)
| MessageIgnored (stream_id : Z)
| PublishRequested (stream_id : Z)
| StreamClosed (stream_id : Z)
| PeerClosed.

Definition MAX_PENDING_PUBLISH_MEDIA_EVENTS : nat := 256.
Definition MAX_PENDING_PUBLISH_MEDIA_BYTES : Z := 8 * 1024 * 1024.

Record publish_state : Set := mk_publish {
  active_publish : option Z;
  pending_publish : option Z;
  pending_media : list PendingPublishMedia;
  pending_media_bytes : Z
}.

Definition publish_new : publish_state := mk_publish None None [] 0.

(** ** Sequence headers *)

Definition EX_VIDEO_FLAG : Z := 0x80.
Definition EX_VIDEO_PACKET_TYPE_SEQUENCE_START : Z := 0.

(** [payload.get(i) == Some(&v)]. *)
Definition byte_is (payload : list byte) (i : nat) (v : Z) : bool :=
  match payload !! i with Some b => byte_val b =? v | None => false end.

Definition is_sequence_header (t : RtmpMediaType) (payload : list byte) : bool :=
  match payload with
  | [] => false
  | b :: _ =>
      let first := byte_val b in
      match t with
      | Video =>
          if negb (Z.land first EX_VIDEO_FLAG =? 0)
          then byte_is payload 5 EX_VIDEO_PACKET_TYPE_SEQUENCE_START
          else
            let codec_id := Z.land first 0x0F in
            if (codec_id =? 7) || (codec_id =? 12) || (codec_id =? 13) || (codec_id =? 14)
            then byte_is payload 1 0 else false
      | Audio => if Z.shiftr first 4 =? 10 then byte_is payload 1 0 else false
      | Data => false
      end
  end.

(** ** The pending buffer *)

Definition usize_max : Z := 2 ^ 64 - 1.
Definition sat_add (a b : Z) : Z := Z.min usize_max (a + b).
Definition sat_sub (a b : Z) : Z := Z.max 0 (a - b).
Definition payload_len (p : list byte) : Z := Z.of_nat (length p).

(** [rposition(|m| !m.is_sequence_header)] and [remove]. *)
Fixpoint remove_last_frame (l : list PendingPublishMedia) :
    option (PendingPublishMedia * list PendingPublishMedia) :=
  match l with
  | [] => None
  | m :: l =>
      match remove_last_frame l with
      | Some (x, l') => Some (x, m :: l')
      | None => if is_header m then None else Some (m, l)
      end
  end.

Definition over_limit (len : Z) (l : list PendingPublishMedia) (bytes : Z) : bool :=
  (MAX_PENDING_PUBLISH_MEDIA_EVENTS <=? length l)%nat ||
  (MAX_PENDING_PUBLISH_MEDIA_BYTES <? sat_add bytes len).

(** The [while] loop; every turn removes one element. *)
Fixpoint evict (fuel : nat) (len : Z) (l : list PendingPublishMedia) (bytes : Z) :
    list PendingPublishMedia * Z :=
  match fuel with
  | O => (l, bytes)
  | S fuel =>
      if over_limit len l bytes then
        match remove_last_frame l with
        | Some (x, l') => evict fuel len l' (sat_sub bytes (payload_len (payload x)))
        | None => (l, bytes)
        end
      else (l, bytes)
  end.

Definition push_pending_publish_media (m : PendingPublishMedia) (s : publish_state) : publish_state :=
  let len := payload_len (payload m) in
  if MAX_PENDING_PUBLISH_MEDIA_BYTES <? len then s
  else
    let '(l, bytes) := evict (S (length (pending_media s))) len (pending_media s) (pending_media_bytes s) in
    mk_publish (active_publish s) (pending_publish s) (l ++ [m]) (sat_add bytes len).

Definition media_data (m : PendingPublishMedia) : media_event :=
  MediaData (stream_id m) (timestamp_ms m) (media_type m) (payload m).

(** The loop pops every element, so nothing is left of the bytes. *)
Definition flush_pending_publish_media (id : Z) (s : publish_state) : publish_state * list media_event :=
  if bool_decide (pending_publish s = Some id)
  then (mk_publish (active_publish s) None []
          (foldl (fun bytes m => sat_sub bytes (payload_len (payload m))) (pending_media_bytes s)
             (pending_media s)), media_data <$> pending_media s)
  else (s, []).

Definition clear_pending_publish (s : publish_state) : publish_state :=
  mk_publish (active_publish s) None [] 0.

(** ** Operations *)

Definition handle_media_input (id ts : Z) (t : RtmpMediaType) (p : list byte) (s : publish_state) :
    publish_state * list media_event :=
  if bool_decide (active_publish s = Some id) then (s, [MediaData id ts t p])
  else if bool_decide (pending_publish s = Some id)
  then (push_pending_publish_media (mk_media id ts t p (is_sequence_header t p)) s, [])
  else (s, [MessageIgnored id]).

Definition start_pending_publish (id : Z) (s : publish_state) : publish_state * list media_event :=
  (mk_publish None (Some id) [] 0, [PublishRequested id]).

(** The state changes of [AcceptPublish], [RejectPublish] and [CloseConnection]. *)
Definition accept_publish (id : Z) (s : publish_state) : publish_state * list media_event :=
  flush_pending_publish_media id
    (mk_publish (Some id) (pending_publish s) (pending_media s) (pending_media_bytes s)).

Definition reject_publish (id : Z) (s : publish_state) : publish_state * list media_event :=
  (if bool_decide (pending_publish s = Some id) then clear_pending_publish s else s, []).

Definition close_stream (id : Z) (s : publish_state) : publish_state * list media_event :=
  let s := if bool_decide (active_publish s = Some id)
           then mk_publish None (pending_publish s) (pending_media s) (pending_media_bytes s) else s in
  (if bool_decide (pending_publish s = Some id) then clear_pending_publish s else s, [StreamClosed id]).

Definition close_connection (s : publish_state) : publish_state * list media_event :=
  (clear_pending_publish (mk_publish None (pending_publish s) (pending_media s) (pending_media_bytes s)),
   [PeerClosed]).

(** ** Invariant *)

Definition total_bytes (l : list PendingPublishMedia) : Z :=
  foldr (fun m n => payload_len (payload m) + n) 0 l.

Definition frames (l : list PendingPublishMedia) : list PendingPublishMedia :=
  filter (fun m => is_header m = false) l.

Definition headers (l : list PendingPublishMedia) : list PendingPublishMedia :=
  filter (fun m => is_header m = true) l.

(** Within both limits. *)
Definition in_limits (l : list PendingPublishMedia) : Prop :=
  (length l <= MAX_PENDING_PUBLISH_MEDIA_EVENTS)%nat /\ total_bytes l <= MAX_PENDING_PUBLISH_MEDIA_BYTES.

(** [n] counts the operations so far. *)
Record publish_wf (n : Z) (s : publish_state) : Prop := {
  pw_bytes : pending_media_bytes s = total_bytes (pending_media s);
  pw_small : total_bytes (pending_media s) <= n * MAX_PENDING_PUBLISH_MEDIA_BYTES;
  pw_own : forall m, m ∈ pending_media s -> pending_publish s = Some (stream_id m);
  pw_limits : in_limits (pending_media s) \/ (length (frames (pending_media s)) <= 1)%nat
}.

Lemma payload_len_nonneg p : 0 <= payload_len p.
Proof. unfold payload_len. lia. Qed.

Lemma total_app a b : total_bytes (a ++ b) = total_bytes a + total_bytes b.
Proof. induction a as [|m a IH]; cbn [app total_bytes foldr]; [done|]. fold (total_bytes (a ++ b)) (total_bytes a). lia. Qed.

Lemma total_cons m l : total_bytes (m :: l) = payload_len (payload m) + total_bytes l.
Proof. done. Qed.

Lemma total_snoc l m : total_bytes (l ++ [m]) = total_bytes l + payload_len (payload m).
Proof. rewrite total_app, total_cons. change (total_bytes []) with 0. lia. Qed.

Lemma total_nonneg l : 0 <= total_bytes l.
Proof.
  induction l as [|m l IH]; cbn [total_bytes foldr]; [done|]. fold (total_bytes l).
  pose proof (payload_len_nonneg (payload m)). lia.
Qed.

Lemma remove_last_some l x l' :
  remove_last_frame l = Some (x, l') ->
  exists a b, l = a ++ x :: b /\ l' = a ++ b /\ is_header x = false /\ frames b = [].
Proof.
  revert l'. induction l as [|m l IH]; intros l'; cbn; [done|].
  destruct (remove_last_frame l) as [[y l1]|] eqn:E.
  - intros [= -> <-]. destruct (IH _ eq_refl) as (a & b & -> & -> & H1 & H2).
    by exists (m :: a), b.
  - destruct (is_header m) eqn:Em; [done|]. intros [= <- <-]. exists [], l. split_and!; try done.
    clear IH. unfold frames. apply filter_none. intros y Hy Hf.
    induction l as [|z l IHl]; [by apply elem_of_nil in Hy|]. cbn in E.
    destruct (remove_last_frame l) as [[? ?]|]; [done|]. destruct (is_header z) eqn:Ez; [|done].
    apply elem_of_cons in Hy as [->|Hy]; [congruence|]. by apply IHl.
Qed.

Lemma remove_last_none l : remove_last_frame l = None -> frames l = [].
Proof.
  intros E. apply filter_none. intros y Hy Hf. induction l as [|z l IHl]; [by apply elem_of_nil in Hy|].
  cbn in E. destruct (remove_last_frame l) as [[? ?]|]; [done|]. destruct (is_header z) eqn:Ez; [|done].
  apply elem_of_cons in Hy as [->|Hy]; [congruence|]. by apply IHl.
Qed.

Lemma frames_app a b : frames (a ++ b) = frames a ++ frames b.
Proof. apply filter_app. Qed.

Lemma headers_app a b : headers (a ++ b) = headers a ++ headers b.
Proof. apply filter_app. Qed.

(** What the loop leaves: the same headers, fewer frames in the same order, an exact
    byte count, and room for the new payload unless only headers are left. *)
Lemma evict_spec len fuel : forall l bytes,
  (length l < fuel)%nat -> bytes = total_bytes l -> 0 <= len -> total_bytes l + len < 2 ^ 63 ->
  let '(l', bytes') := evict fuel len l bytes in
  bytes' = total_bytes l' /\ l' `sublist_of` l /\ headers l' = headers l /\
  total_bytes l' <= total_bytes l /\
  (over_limit len l' bytes' = false \/ frames l' = []) /\
  (over_limit len l bytes = false -> l' = l).
Proof.
  induction fuel as [|fuel IH]; intros l bytes Hf Hb Hl Hs; [lia|]. cbn [evict].
  destruct (over_limit len l bytes) eqn:Eo; [|by subst; split_and!; auto].
  destruct (remove_last_frame l) as [[x l1]|] eqn:Er.
  2: { subst. split_and!; try done. right. by apply remove_last_none. }
  apply remove_last_some in Er as (a & b & -> & -> & Hx & Hb').
  rewrite length_app in Hf. cbn in Hf.
  assert (Et : total_bytes (a ++ x :: b) = payload_len (payload x) + total_bytes (a ++ b))
    by (rewrite !total_app, total_cons; lia).
  pose proof (total_nonneg (a ++ b)). pose proof (payload_len_nonneg (payload x)).
  specialize (IH (a ++ b) (sat_sub bytes (payload_len (payload x)))).
  destruct (evict fuel len (a ++ b) (sat_sub bytes (payload_len (payload x)))) as [l' bytes'].
  destruct IH as (I1 & I2 & I3 & I4 & I5 & _); [rewrite length_app; lia|unfold sat_sub; lia|done|lia|].
  split_and!; try done; [| |lia].
  - etrans; [exact I2|]. apply sublist_app; [done|]. by apply sublist_cons.
  - rewrite I3, !headers_app. f_equal. unfold headers. by rewrite filter_cons_False by congruence.
Qed.

Lemma sat_add_small a b : a + b <= usize_max -> sat_add a b = a + b.
Proof. unfold sat_add. lia. Qed.

(** One push. *)
Lemma push_spec n m s :
  publish_wf n s -> 0 <= n < 2 ^ 39 -> pending_publish s = Some (stream_id m) ->
  let s' := push_pending_publish_media m s in
  publish_wf (n + 1) s' /\
  active_publish s' = active_publish s /\ pending_publish s' = pending_publish s /\
  pending_media s' `sublist_of` pending_media s ++ [m] /\
  (payload_len (payload m) <= MAX_PENDING_PUBLISH_MEDIA_BYTES ->
   headers (pending_media s') = headers (pending_media s ++ [m]) /\
   (in_limits (pending_media s ++ [m]) -> pending_media s' = pending_media s ++ [m])).
Proof.
  intros [W1 W2 W3 W4] Hn Hp s'. unfold s', push_pending_publish_media.
  pose proof (payload_len_nonneg (payload m)) as Hm. pose proof (total_nonneg (pending_media s)) as Ht.
  change (2 ^ 39) with 549755813888 in Hn.
  assert (Hmax : MAX_PENDING_PUBLISH_MEDIA_BYTES = 8388608) by done.
  destruct (Z.ltb_spec MAX_PENDING_PUBLISH_MEDIA_BYTES (payload_len (payload m))) as [L|L].
  { split; [split; try done; lia|]. split; [done|]. split; [done|]. split; [|lia].
    by apply sublist_inserts_r. }
  pose proof (evict_spec (payload_len (payload m)) (S (length (pending_media s))) (pending_media s)
    (pending_media_bytes s)) as E.
  destruct (evict _ _ (pending_media s) (pending_media_bytes s)) as [l bytes].
  specialize (E ltac:(lia) W1 Hm). change (2 ^ 63) with 9223372036854775808 in E.
  rewrite Hmax in W2, L. destruct (E ltac:(lia)) as (E1 & E2 & E3 & E4 & E5 & E6). clear E.
  pose proof (total_nonneg l) as Hl.
  assert (Hadd : sat_add bytes (payload_len (payload m)) = total_bytes (l ++ [m])).
  { rewrite total_snoc, sat_add_small; [lia|].
    unfold usize_max. change (2 ^ 64) with 18446744073709551616. lia. }
  cbn [active_publish pending_publish pending_media]. split_and!; try done.
  - split; cbn [pending_media pending_media_bytes pending_publish].
    + exact Hadd.
    + rewrite total_snoc. lia.
    + intros x [Hx|Hx]%elem_of_app; [apply W3; by apply (elem_of_sublist l)|].
      by apply list_elem_of_singleton in Hx as ->.
    + destruct E5 as [E5|E5].
      * left. unfold over_limit in E5. apply orb_false_iff in E5 as [O1 O2].
        rewrite Hadd in O2. apply Nat.leb_gt in O1. apply Z.ltb_ge in O2.
        split; [rewrite length_app; cbn; lia|done].
      * right. rewrite frames_app, E5. unfold frames. cbn. by destruct (decide _); cbn; lia.
  - by apply sublist_app.
  - intros _. split; [by rewrite !headers_app, E3|]. intros [I1 I2]. f_equal. apply E6.
    rewrite length_app in I1. cbn in I1. rewrite total_snoc in I2.
    unfold over_limit. apply orb_false_iff. split; [apply Nat.leb_gt; lia|]. apply Z.ltb_ge.
    rewrite W1, sat_add_small; [lia|]. unfold usize_max. change (2 ^ 64) with 18446744073709551616. lia.
Qed.

Lemma wf_empty n a p : 0 <= n -> publish_wf n (mk_publish a p [] 0).
Proof.
  intros Hn. unfold MAX_PENDING_PUBLISH_MEDIA_BYTES. split; cbn; [done| |by intros m Hm%elem_of_nil|].
  - unfold MAX_PENDING_PUBLISH_MEDIA_BYTES. lia.
  - right. lia.
Qed.

Lemma flush_bytes l : foldl (fun bytes m => sat_sub bytes (payload_len (payload m))) (total_bytes l) l = 0.
Proof.
  induction l as [|m l IH]; cbn [foldl total_bytes foldr]; [done|]. fold (total_bytes l).
  pose proof (total_nonneg l). pose proof (payload_len_nonneg (payload m)).
  replace (sat_sub _ _) with (total_bytes l) by (unfold sat_sub; lia). exact IH.
Qed.

Lemma wf_mono n n' s : n <= n' -> publish_wf n s -> publish_wf n' s.
Proof.
  intros Hn [W1 W2 W3 W4]. split; try done. unfold MAX_PENDING_PUBLISH_MEDIA_BYTES in *. lia.
Qed.

Lemma wf_active n a s :
  publish_wf n s -> publish_wf n (mk_publish a (pending_publish s) (pending_media s) (pending_media_bytes s)).
Proof. by intros [W1 W2 W3 W4]; split. Qed.

(** ** Runs *)

Inductive media_op : Set :=
| Media (id ts : Z) (t : RtmpMediaType) (p : list byte)
| Publish (id : Z)
| Accept (id : Z)
| Reject (id : Z)
| CloseStream (id : Z)
| CloseConnection.

Definition media_step (s : publish_state) (o : media_op) : publish_state * list media_event :=
  match o with
  | Media id ts t p => handle_media_input id ts t p s
  | Publish id => start_pending_publish id s
  | Accept id => accept_publish id s
  | Reject id => reject_publish id s
  | CloseStream id => close_stream id s
  | CloseConnection => close_connection s
  end.

Fixpoint media_run (s : publish_state) (ops : list media_op) : publish_state * list media_event :=
  match ops with
  | [] => (s, [])
  | o :: ops =>
      let '(s, es) := media_step s o in
      let '(s, es') := media_run s ops in (s, es ++ es')
  end.

Lemma media_run_app s a b :
  media_run s (a ++ b) =
    let '(s, es) := media_run s a in let '(s, es') := media_run s b in (s, es ++ es').
Proof.
  revert s. induction a as [|o a IH]; intros s; cbn [app media_run]; [by destruct (media_run s b)|].
  destruct (media_step s o) as [s1 e1]. rewrite IH. destruct (media_run s1 a) as [s2 e2].
  destruct (media_run s2 b) as [s3 e3]. by rewrite app_assoc.
Qed.

Lemma step_wf n s o : publish_wf n s -> 0 <= n < 2 ^ 39 -> publish_wf (n + 1) (fst (media_step s o)).
Proof.
  intros W Hn. assert (W' : publish_wf (n + 1) s) by (apply (wf_mono n); [lia|done]).
  destruct o as [id ts t p|id|id|id|id|]; cbn [media_step].
  - unfold handle_media_input. case_bool_decide; [done|]. case_bool_decide as Hp; [|done].
    by apply push_spec.
  - apply wf_empty. lia.
  - unfold accept_publish, flush_pending_publish_media. cbn [pending_publish active_publish pending_media
      pending_media_bytes]. case_bool_decide; cbn [fst]; [|by apply wf_active].
    rewrite (pw_bytes _ _ W), flush_bytes. apply wf_empty. lia.
  - unfold reject_publish. cbn [fst]. case_bool_decide; [|done]. apply wf_empty. lia.
  - unfold close_stream. cbn [fst]. set (s1 := if bool_decide (active_publish s = Some id) then _ else s).
    assert (W1 : publish_wf (n + 1) s1) by (unfold s1; case_bool_decide; [by apply wf_active|done]).
    case_bool_decide; [|done]. apply wf_empty. lia.
  - apply wf_empty. lia.
Qed.

Lemma run_wf ops : forall n s,
  publish_wf n s -> 0 <= n -> n + Z.of_nat (length ops) < 2 ^ 39 ->
  publish_wf (n + Z.of_nat (length ops)) (fst (media_run s ops)).
Proof.
  induction ops as [|o ops IH]; intros n s W Hn Hb; cbn [media_run length].
  { by rewrite Z.add_0_r. }
  cbn [length] in Hb. pose proof (Nat2Z.is_nonneg (length ops)).
  pose proof (step_wf n s o W ltac:(lia)) as W1. destruct (media_step s o) as [s1 e1]. cbn [fst] in W1.
  specialize (IH (n + 1) s1 W1 ltac:(lia) ltac:(lia)). destruct (media_run s1 ops) as [s2 e2].
  cbn [fst] in *. by replace (n + Z.of_nat (S (length ops))) with (n + 1 + Z.of_nat (length ops)) by lia.
Qed.

(** Media that arrives while the publish is pending. *)
Definition input : Set := (Z * RtmpMediaType * list byte)%type.
Definition media_of (id : Z) (i : input) : PendingPublishMedia :=
  let '(ts, t, p) := i in mk_media id ts t p (is_sequence_header t p).
Definition op_of (id : Z) (i : input) : media_op := let '(ts, t, p) := i in Media id ts t p.

Definition fits (m : PendingPublishMedia) : bool := payload_len (payload m) <=? MAX_PENDING_PUBLISH_MEDIA_BYTES.

Lemma pending_run id ins : forall n s,
  publish_wf n s -> 0 <= n -> n + Z.of_nat (length ins) < 2 ^ 39 ->
  active_publish s <> Some id -> pending_publish s = Some id ->
  let '(s', es) := media_run s (op_of id <$> ins) in
  es = [] /\ active_publish s' = active_publish s /\ pending_publish s' = Some id /\
  publish_wf (n + Z.of_nat (length ins)) s' /\
  pending_media s' `sublist_of` pending_media s ++ (media_of id <$> ins) /\
  headers (pending_media s') = headers (pending_media s) ++ headers (filter (fun m => fits m) (media_of id <$> ins)) /\
  (in_limits (pending_media s ++ (media_of id <$> ins)) ->
   pending_media s' = pending_media s ++ (media_of id <$> ins)).
Proof.
  induction ins as [|[[ts t] p] ins IH]; intros n s W Hn Hb Ha Hp.
  { cbn. rewrite Z.add_0_r, !app_nil_r. by split_and!. }
  cbn [length] in Hb. pose proof (Nat2Z.is_nonneg (length ins)).
  set (m := mk_media id ts t p (is_sequence_header t p)).
  assert (Es : media_step s (op_of id (ts, t, p)) = (push_pending_publish_media m s, [])).
  { cbn. unfold handle_media_input. by rewrite bool_decide_eq_false_2, bool_decide_eq_true_2 by done. }
  destruct (push_spec n m s W ltac:(lia) Hp) as (P1 & P2 & P3 & P4 & P5).
  set (s1 := push_pending_publish_media m s) in *. change ((op_of id) <$> ((ts, t, p) :: ins))
    with (op_of id (ts, t, p) :: (op_of id <$> ins)). cbn [media_run]. rewrite Es.
  specialize (IH (n + 1) s1 P1 ltac:(lia) ltac:(lia)). rewrite P2 in IH. rewrite P3 in IH.
  specialize (IH Ha Hp). destruct (media_run s1 (op_of id <$> ins)) as [s' es].
  destruct IH as (-> & I2 & I3 & I4 & I5 & I6 & I7).
  change (media_of id <$> (ts, t, p) :: ins) with (m :: (media_of id <$> ins)).
  set (ms := media_of id <$> ins) in *. split_and!; try done.
  - cbn [length]. by replace (n + Z.of_nat (S (length ins))) with (n + 1 + Z.of_nat (length ins)) by lia.
  - etrans; [exact I5|]. rewrite (cons_middle m). rewrite app_assoc. by apply sublist_app.
  - rewrite I6. destruct (fits m) eqn:Ef.
    + rewrite filter_cons_True by (by rewrite Ef). apply Z.leb_le in Ef. destruct (P5 Ef) as [-> _].
      rewrite headers_app, <- app_assoc. f_equal. unfold headers. cbn [app].
      by destruct (decide (is_header m = true)); rewrite ?filter_cons_True, ?filter_cons_False by done.
    + rewrite filter_cons_False by (rewrite Ef; auto). f_equal. apply Z.leb_gt in Ef.
      unfold s1, push_pending_publish_media. apply Z.ltb_lt in Ef. by rewrite Ef.
  - intros I. pose proof (total_nonneg ms). pose proof (total_nonneg (pending_media s)).
    assert (Im : in_limits (pending_media s ++ [m])).
    { destruct I as [A B]. rewrite length_app in A. cbn in A. rewrite total_app, total_cons in B.
      split; [rewrite length_app; cbn; lia|]. rewrite total_snoc. lia. }
    assert (Ef : payload_len (payload m) <= MAX_PENDING_PUBLISH_MEDIA_BYTES).
    { destruct Im as [_ B]. rewrite total_snoc in B. lia. }
    destruct (P5 Ef) as [_ P6]. rewrite (P6 Im) in I7. rewrite (cons_middle m), app_assoc in I |- *.
    by apply I7.
Qed.

(** Where media events come from. *)
Lemma step_media s o id ts t p :
  (forall m, m ∈ pending_media s -> pending_publish s = Some (stream_id m)) ->
  MediaData id ts t p ∈ snd (media_step s o) -> active_publish s = Some id \/ o = Accept id.
Proof.
  intros Hown. destruct o as [i ts' t' p'|i|i|i|i|]; cbn [media_step].
  - unfold handle_media_input. case_bool_decide as Ha; cbn.
    + intros [= -> -> -> ->]%list_elem_of_singleton. by left.
    + case_bool_decide; cbn; [by intros ?%elem_of_nil|by intros ?%list_elem_of_singleton].
  - by intros ?%list_elem_of_singleton.
  - unfold accept_publish, flush_pending_publish_media. cbn [pending_publish active_publish pending_media].
    case_bool_decide as Hp; cbn; [|by intros ?%elem_of_nil].
    intros (m & E & Hm)%list_elem_of_fmap. apply Hown in Hm. injection E as E1 _ _ _. right. congruence.
  - by intros ?%elem_of_nil.
  - by intros ?%list_elem_of_singleton.
  - by intros ?%list_elem_of_singleton.
Qed.

Lemma step_active s o id :
  active_publish (fst (media_step s o)) = Some id -> active_publish s = Some id \/ o = Accept id.
Proof.
  destruct o as [i ts' t' p'|i|i|i|i|]; cbn [media_step].
  - unfold handle_media_input. case_bool_decide; [by left|]. case_bool_decide; [|by left].
    unfold push_pending_publish_media. destruct (_ <? _); [by left|]. destruct (evict _ _ _ _). by left.
  - done.
  - unfold accept_publish, flush_pending_publish_media. cbn [pending_publish active_publish].
    case_bool_decide; cbn; intros [= ->]; by right.
  - unfold reject_publish. cbn [fst]. case_bool_decide; by left.
  - unfold close_stream. cbn [fst]. case_bool_decide; case_bool_decide; cbn; by left.
  - done.
Qed.

Lemma run_media ops id ts t p : forall n s,
  publish_wf n s -> 0 <= n -> n + Z.of_nat (length ops) < 2 ^ 39 ->
  MediaData id ts t p ∈ snd (media_run s ops) -> active_publish s = Some id \/ Accept id ∈ ops.
Proof.
  induction ops as [|o ops IH]; intros n s W Hn Hb; cbn [media_run]; [by intros ?%elem_of_nil|].
  cbn [length] in Hb. pose proof (Nat2Z.is_nonneg (length ops)).
  pose proof (step_wf n s o W ltac:(lia)) as W1. pose proof (step_media s o id ts t p (pw_own _ _ W)) as Hm.
  pose proof (step_active s o id) as Ha. destruct (media_step s o) as [s1 e1]. cbn [fst snd] in *.
  specialize (IH (n + 1) s1 W1 ltac:(lia) ltac:(lia)). destruct (media_run s1 ops) as [s2 e2].
  cbn [snd] in *. intros [Hin|Hin]%elem_of_app.
  - destruct (Hm Hin) as [?| ->]; [by left|right]. left.
  - destruct (IH Hin) as [Hact|Hops]; [|right; by right].
    destruct (Ha Hact) as [?| ->]; [by left|right]. left.
Qed.

(** ** Claims *)

(** The pending buffer stays consistent. Whatever the peer sends and the
    application answers, the byte count is the sum of the buffered payloads,
    every buffered message belongs to the stream whose publish is pending, and
    the buffer is within its limits (256 messages, 8 MiB) unless it holds at most
    one message that is not a sequence header. *)
Theorem publish_buffer_consistent ops :
  Z.of_nat (length ops) < 2 ^ 39 ->
  let s := fst (media_run publish_new ops) in
  pending_media_bytes s = total_bytes (pending_media s) /\
  (forall m, m ∈ pending_media s -> pending_publish s = Some (stream_id m)) /\
  (in_limits (pending_media s) \/ (length (frames (pending_media s)) <= 1)%nat).
Proof.
  intros Hb s. destruct (run_wf ops 0 publish_new (wf_empty 0 None None ltac:(lia)) ltac:(lia) Hb)
    as [W1 W2 W3 W4]. done.
Qed.

Lemma publish_buffer_consistent_witness :
  let s := fst (media_run publish_new [Publish 1; Media 1 0 Audio [xaf; x01]; Media 1 20 Audio [xaf; x01]]) in
  pending_media_bytes s = total_bytes (pending_media s).
Proof.
  exact (proj1 (publish_buffer_consistent
    [Publish 1; Media 1 0 Audio [xaf; x01]; Media 1 20 Audio [xaf; x01]] eq_refl)).
Defined.

(** [C25] Acceptance replays what was kept. After a publish request, let any media
    of that stream arrive, then accept. What is emitted is a sub-sequence of what
    arrived, in order, with every sequence header of at most 8 MiB in it; if all
    of it fits the limits nothing is missing; and the buffer is empty again. *)
Theorem publish_replay id (s : publish_state) (ins : list input) :
  Z.of_nat (length ins) < 2 ^ 38 ->
  let arrived := media_of id <$> ins in
  exists kept,
    media_run s (Publish id :: (op_of id <$> ins) ++ [Accept id])
    = (mk_publish (Some id) None [] 0, PublishRequested id :: (media_data <$> kept)) /\
    kept `sublist_of` arrived /\
    headers (filter (fun m => fits m) arrived) `sublist_of` kept /\
    (in_limits arrived -> kept = arrived).
Proof.
  intros Hb arrived. change (2 ^ 38) with 274877906944 in Hb.
  set (s1 := mk_publish None (Some id) [] 0).
  pose proof (pending_run id ins 0 s1 (wf_empty 0 None (Some id) ltac:(lia)) ltac:(lia)
    ltac:(change (2 ^ 39) with 549755813888; lia) ltac:(done) eq_refl) as R.
  cbn [media_run]. unfold media_step at 1, start_pending_publish. fold s1. rewrite media_run_app.
  destruct (media_run s1 (op_of id <$> ins)) as [s2 es].
  destruct R as (-> & R2 & R3 & R4 & R5 & R6 & R7). cbn [pending_media s1 app] in R5, R6, R7.
  exists (pending_media s2). split; [|split; [exact R5|split; [|exact R7]]].
  - cbn [media_run media_step]. unfold accept_publish, flush_pending_publish_media.
    cbn [pending_publish active_publish pending_media pending_media_bytes].
    rewrite bool_decide_eq_true_2 by done. rewrite (pw_bytes _ _ R4), flush_bytes, app_nil_r. done.
  - fold arrived in R6. change (headers []) with (@nil PendingPublishMedia) in R6. cbn [app] in R6.
    rewrite <- R6. apply sublist_filter.
Qed.

Lemma publish_replay_witness :
  exists kept, media_run publish_new [Publish 1; Media 1 0 Video [x17; x00]; Media 1 40 Video [x17; x01]; Accept 1]
    = (mk_publish (Some 1) None [] 0, PublishRequested 1 :: (media_data <$> kept)).
Proof.
  destruct (publish_replay 1 publish_new [(0, Video, [x17; x00]); (40, Video, [x17; x01])]) as (kept & H & _).
  - reflexivity.
  - exists kept. exact H.
Defined.

(** Nothing is forwarded before it is accepted. In any run, media of a stream
    is emitted only if the application accepted a publish of that stream before. *)
Theorem media_needs_acceptance ops id ts t p :
  Z.of_nat (length ops) < 2 ^ 39 ->
  MediaData id ts t p ∈ snd (media_run publish_new ops) -> Accept id ∈ ops.
Proof.
  intros Hb Hin. by destruct (run_media ops id ts t p 0 publish_new (wf_empty 0 None None ltac:(lia))
    ltac:(lia) Hb Hin).
Qed.

Lemma media_needs_acceptance_witness :
  Accept 1 ∈ [Publish 1; Media 1 0 Video [x17; x00]; Accept 1].
Proof.
  apply (media_needs_acceptance [Publish 1; Media 1 0 Video [x17; x00]; Accept 1] 1 0 Video [x17; x00]).
  - reflexivity.
  - vm_compute. right. left.
Defined.

(** ** What the limits do not cover *)

(** Sequence headers are never evicted: a peer that sends only those fills the
    buffer without bound. *)
Example headers_exceed_limit :
  let s := fst (media_run publish_new (Publish 1 :: repeat (Media 1 0 Audio [xaf; x00]) 300)) in
  length (pending_media s) = 300%nat.
Proof. vm_compute. reflexivity. Qed.

(** The sequence header that [build_video_config_payload] of
    [foundation/cheetah-codec/src/flv_egress.rs] writes for an enhanced codec (byte
    [0x90], four characters, then the configuration, here of HEVC) is not
    recognised: the packet type is in the low bits of the first byte, not in the
    sixth. *)
Example enhanced_header_missed :
  is_sequence_header Video ([x90; x68; x76; x63; x31] ++ [x01; x01; x60]) = false.
Proof. reflexivity. Qed.
