(* ===== verification/RtmpSession.v ===== *)
(** * The RTMP session

    Models [RtmpCore] of [crates/protocols/rtmp/core/src/core.rs] with [core/handshake.rs]
    and [core/command/]: the automaton that a driver feeds with bytes and commands and
    whose outputs it carries out. It joins the handshake (RtmpHandshake), the chunk
    decoder under its loop (ChunkLoop), typed messages and commands (RtmpMessage,
    RtmpCommand) and the publish gate (RtmpPublish), whose state it keeps.

    Outputs are collected in order next to the state. A failed [assert!], an
    [unreachable!], the nesting of aggregates without end and an index out of range of the
    session's own code ([core.rs], [core/command/], [Buf::get], [handshake_complex.rs]) is
    [Panic]. The readers of [bytes.rs] index right behind their own check of the length
    and the chunk encoder cuts a payload by the minimum of two lengths: these are total
    here, as are the AMF decoders' tables. The texts that are only for
    display are left out: of an error the protocol error is kept, of an ignored
    message its stream id. *)
From Stdlib Require Import Strings.Byte Strings.String.
From S2P Require Import RtmpPublish Amf3Roundtrip AmfValue Prelude RtmpBytes RtmpTypes ChunkDecoder ChunkEncoder ChunkLoop Amf Amf3 Amf0 RtmpUserControl RtmpFrames RtmpMessage RtmpCommand RtmpHandshake.

(** ** Data *)

Inductive HandshakeState : Set := Handshaking | WaitC2 | Ready | Closed.
Inductive ClientPendingAction : Set := PendingPublish | PendingPlay.
Inductive HandshakeRole : Type := Server (h : RtmpServerHandshake) | Client.
Inductive RtmpClientState : Set := Connected | MediaStreamCreated | Publishing | Playing.

#[export] Instance HandshakeState_eq_dec : EqDecision HandshakeState.
Proof. solve_decision. Defined.
#[export] Instance ClientPendingAction_eq_dec : EqDecision ClientPendingAction.
Proof. solve_decision. Defined.

Inductive RtmpEvent : Type :=
| EvConnected (app tc_url : utf8)
| EvPublishRequested (stream_id : Z) (app tc_url stream_name : utf8)
| EvPlayRequested (stream_id : Z) (app tc_url stream_name : utf8)
| EvStreamCreated (stream_id : Z)
| EvCommandIgnored (name : utf8)
| EvMessageIgnored (stream_id : Z)
| EvUserControlIgnored (name : string)
| EvAckReceived (sequence_number : Z)
| EvLocalAckWindowUpdated (size : Z)
| EvPeerAckWindowUpdated (size : Z)
| EvClientStateChanged (new_state : RtmpClientState)
| EvClientDisconnectRequested (reason : utf8)
| EvMetadata (stream_id : Z) (values : list AmfValue)
| EvNotify (stream_id : Z) (name : utf8) (values : list AmfValue)
| EvMediaData (stream_id timestamp_ms : Z) (media_type : RtmpMediaType) (payload : list byte)
| EvSeekRequested (stream_id : Z) (millis : Z)
| EvPauseRequested (stream_id : Z) (pause : bool) (millis : Z)
| EvReceiveVideo (stream_id : Z) (enabled : bool)
| EvReceiveAudio (stream_id : Z) (enabled : bool)
| EvStreamClosed (stream_id : Z)
| EvPeerClosed.

(** The core never sets or cancels a timer. *)
Inductive CoreOutput : Type := Write (wire : list byte) | Event (e : RtmpEvent).

Inductive RtmpCoreCommand : Type :=
| SetWindowAckSize (size : Z)
| SetPeerBandwidth (size : Z)
| SetChunkSize (size : Z)
| SendAck (sequence_number : Z)
| SendPingResponse (timestamp : RtmpTimestamp)
| ClientConnect (app flash_ver tc_url : utf8)
| ClientCreateStream (transaction_id : Z)
| ClientPublish (stream_id transaction_id : Z) (stream_name : utf8)
| ClientPlay (stream_id transaction_id : Z) (stream_name : utf8) (start : Z)
| ClientSeek (stream_id millis : Z)
| ClientPause (stream_id : Z) (pause : bool) (millis : Z)
| ClientHandleWireCommand (message_stream_id : Z) (name : utf8) (transaction_id : TransactionId)
    (object : AmfValue) (args : list AmfValue)
| ClientObserveAck (sequence_number : Z)
| ClientObserveWinAckSize (size : Z)
| ClientHandleSetPeerBandwidth (size response_window_size : Z)
| ClientObserveMediaData (stream_id timestamp_ms : Z) (media_type : RtmpMediaType) (payload : list byte)
| ClientHandleUserControl (event : RtmpUserControlEvent)
| ClientHandleUnhandledMessage (message : RtmpMessage)
| AcceptPublish (stream_id : Z)
| RejectPublish (stream_id : Z) (description : utf8)
| AcceptPlay (stream_id : Z)
| AcceptPlayConfigured (stream_id : Z) (emit_play_status emit_sample_access : bool)
| RejectPlay (stream_id : Z) (description : utf8)
| SendMetadata (stream_id timestamp_ms : Z) (payload : list byte)
| SendAudio (stream_id timestamp_ms : Z) (payload : list byte)
| SendVideo (stream_id timestamp_ms : Z) (payload : list byte)
| SendNotify (stream_id timestamp_ms : Z) (payload : list byte)
| CloseStream (stream_id : Z)
| CloseConnection.

Inductive CoreInput : Type := Bytes (bytes : list byte) | Timeout (id : Z) | Command (cmd : RtmpCoreCommand).

Inductive RtmpCoreError : Type :=
| ChunkError (e : Error)
| Amf0Failed (e : Error)
| InvalidHandshakeVersion (version : Z)
| HandshakeError (reason : string).

Inductive fault : Type := Raise (e : RtmpCoreError) | Panic.

Record RtmpCore : Type := mk_core {
  state : HandshakeState;
  in_chunk_size : Z;
  out_chunk_size : Z;
  decoder : RtmpChunkDecoder;
  encoder : RtmpChunkEncoder;
  input_buf : Buf;
  handshake : HandshakeRole;
  connected_app : option utf8;
  connected_tc_url : option utf8;
  peer_ack_window_size : Z;
  local_ack_window_size : Z;
  last_peer_bandwidth_limit_type : SetPeerBandwidthLimitType;
  total_bytes_received : Z;
  last_ack_sent : Z;
  publish : publish_state;
  next_stream_id : Z;
  client_create_stream_transaction_id : option Z;
  client_pending_action : option ClientPendingAction
}.

(** Field updates. *)
Definition set_state (x : HandshakeState) (s : RtmpCore) : RtmpCore :=
  mk_core x (in_chunk_size s) (out_chunk_size s) (decoder s) (encoder s) (input_buf s) (handshake
    s) (connected_app s) (connected_tc_url s) (peer_ack_window_size s) (local_ack_window_size s)
    (last_peer_bandwidth_limit_type s) (total_bytes_received s) (last_ack_sent s) (publish s)
    (next_stream_id s) (client_create_stream_transaction_id s) (client_pending_action s).
Definition set_in_chunk_size (x : Z) (s : RtmpCore) : RtmpCore :=
  mk_core (state s) x (out_chunk_size s) (decoder s) (encoder s) (input_buf s) (handshake s)
    (connected_app s) (connected_tc_url s) (peer_ack_window_size s) (local_ack_window_size s)
    (last_peer_bandwidth_limit_type s) (total_bytes_received s) (last_ack_sent s) (publish s)
    (next_stream_id s) (client_create_stream_transaction_id s) (client_pending_action s).
Definition set_out_chunk_size (x : Z) (s : RtmpCore) : RtmpCore :=
  mk_core (state s) (in_chunk_size s) x (decoder s) (encoder s) (input_buf s) (handshake s)
    (connected_app s) (connected_tc_url s) (peer_ack_window_size s) (local_ack_window_size s)
    (last_peer_bandwidth_limit_type s) (total_bytes_received s) (last_ack_sent s) (publish s)
    (next_stream_id s) (client_create_stream_transaction_id s) (client_pending_action s).
Definition put_decoder (x : RtmpChunkDecoder) (s : RtmpCore) : RtmpCore :=
  mk_core (state s) (in_chunk_size s) (out_chunk_size s) x (encoder s) (input_buf s) (handshake s)
    (connected_app s) (connected_tc_url s) (peer_ack_window_size s) (local_ack_window_size s)
    (last_peer_bandwidth_limit_type s) (total_bytes_received s) (last_ack_sent s) (publish s)
    (next_stream_id s) (client_create_stream_transaction_id s) (client_pending_action s).
Definition set_encoder (x : RtmpChunkEncoder) (s : RtmpCore) : RtmpCore :=
  mk_core (state s) (in_chunk_size s) (out_chunk_size s) (decoder s) x (input_buf s) (handshake s)
    (connected_app s) (connected_tc_url s) (peer_ack_window_size s) (local_ack_window_size s)
    (last_peer_bandwidth_limit_type s) (total_bytes_received s) (last_ack_sent s) (publish s)
    (next_stream_id s) (client_create_stream_transaction_id s) (client_pending_action s).
Definition set_input_buf (x : Buf) (s : RtmpCore) : RtmpCore :=
  mk_core (state s) (in_chunk_size s) (out_chunk_size s) (decoder s) (encoder s) x (handshake s)
    (connected_app s) (connected_tc_url s) (peer_ack_window_size s) (local_ack_window_size s)
    (last_peer_bandwidth_limit_type s) (total_bytes_received s) (last_ack_sent s) (publish s)
    (next_stream_id s) (client_create_stream_transaction_id s) (client_pending_action s).
Definition set_handshake (x : HandshakeRole) (s : RtmpCore) : RtmpCore :=
  mk_core (state s) (in_chunk_size s) (out_chunk_size s) (decoder s) (encoder s) (input_buf s) x
    (connected_app s) (connected_tc_url s) (peer_ack_window_size s) (local_ack_window_size s)
    (last_peer_bandwidth_limit_type s) (total_bytes_received s) (last_ack_sent s) (publish s)
    (next_stream_id s) (client_create_stream_transaction_id s) (client_pending_action s).
Definition set_connected (a : option utf8) (u : option utf8) (s : RtmpCore) : RtmpCore :=
  mk_core (state s) (in_chunk_size s) (out_chunk_size s) (decoder s) (encoder s) (input_buf s)
    (handshake s) a u (peer_ack_window_size s) (local_ack_window_size s)
    (last_peer_bandwidth_limit_type s) (total_bytes_received s) (last_ack_sent s) (publish s)
    (next_stream_id s) (client_create_stream_transaction_id s) (client_pending_action s).
Definition set_peer_ack_window_size (x : Z) (s : RtmpCore) : RtmpCore :=
  mk_core (state s) (in_chunk_size s) (out_chunk_size s) (decoder s) (encoder s) (input_buf s)
    (handshake s) (connected_app s) (connected_tc_url s) x (local_ack_window_size s)
    (last_peer_bandwidth_limit_type s) (total_bytes_received s) (last_ack_sent s) (publish s)
    (next_stream_id s) (client_create_stream_transaction_id s) (client_pending_action s).
Definition set_local_ack_window (x : Z) (t : SetPeerBandwidthLimitType) (s : RtmpCore) : RtmpCore :=
  mk_core (state s) (in_chunk_size s) (out_chunk_size s) (decoder s) (encoder s) (input_buf s)
    (handshake s) (connected_app s) (connected_tc_url s) (peer_ack_window_size s) x t
    (total_bytes_received s) (last_ack_sent s) (publish s) (next_stream_id s)
    (client_create_stream_transaction_id s) (client_pending_action s).
Definition set_total_bytes_received (x : Z) (s : RtmpCore) : RtmpCore :=
  mk_core (state s) (in_chunk_size s) (out_chunk_size s) (decoder s) (encoder s) (input_buf s)
    (handshake s) (connected_app s) (connected_tc_url s) (peer_ack_window_size s)
    (local_ack_window_size s) (last_peer_bandwidth_limit_type s) x (last_ack_sent s) (publish s)
    (next_stream_id s) (client_create_stream_transaction_id s) (client_pending_action s).
Definition set_last_ack_sent (x : Z) (s : RtmpCore) : RtmpCore :=
  mk_core (state s) (in_chunk_size s) (out_chunk_size s) (decoder s) (encoder s) (input_buf s)
    (handshake s) (connected_app s) (connected_tc_url s) (peer_ack_window_size s)
    (local_ack_window_size s) (last_peer_bandwidth_limit_type s) (total_bytes_received s) x (publish
    s) (next_stream_id s) (client_create_stream_transaction_id s) (client_pending_action s).
Definition set_publish (x : publish_state) (s : RtmpCore) : RtmpCore :=
  mk_core (state s) (in_chunk_size s) (out_chunk_size s) (decoder s) (encoder s) (input_buf s)
    (handshake s) (connected_app s) (connected_tc_url s) (peer_ack_window_size s)
    (local_ack_window_size s) (last_peer_bandwidth_limit_type s) (total_bytes_received s)
    (last_ack_sent s) x (next_stream_id s) (client_create_stream_transaction_id s)
    (client_pending_action s).
Definition set_next_stream_id (x : Z) (s : RtmpCore) : RtmpCore :=
  mk_core (state s) (in_chunk_size s) (out_chunk_size s) (decoder s) (encoder s) (input_buf s)
    (handshake s) (connected_app s) (connected_tc_url s) (peer_ack_window_size s)
    (local_ack_window_size s) (last_peer_bandwidth_limit_type s) (total_bytes_received s)
    (last_ack_sent s) (publish s) x (client_create_stream_transaction_id s) (client_pending_action
    s).
Definition set_client_create (x : option Z) (s : RtmpCore) : RtmpCore :=
  mk_core (state s) (in_chunk_size s) (out_chunk_size s) (decoder s) (encoder s) (input_buf s)
    (handshake s) (connected_app s) (connected_tc_url s) (peer_ack_window_size s)
    (local_ack_window_size s) (last_peer_bandwidth_limit_type s) (total_bytes_received s)
    (last_ack_sent s) (publish s) (next_stream_id s) x (client_pending_action s).
Definition set_client_pending_action (x : option ClientPendingAction) (s : RtmpCore) : RtmpCore :=
  mk_core (state s) (in_chunk_size s) (out_chunk_size s) (decoder s) (encoder s) (input_buf s)
    (handshake s) (connected_app s) (connected_tc_url s) (peer_ack_window_size s)
    (local_ack_window_size s) (last_peer_bandwidth_limit_type s) (total_bytes_received s)
    (last_ack_sent s) (publish s) (next_stream_id s) (client_create_stream_transaction_id s) x.

(** ** State and outputs *)

Definition core_op (A : Type) : Type := SE (RtmpCore * list CoreOutput) fault A.

Definition push (o : CoreOutput) : core_op unit := se_upd (fun s => (fst s, snd s ++ [o])).
Definition event (e : RtmpEvent) : core_op unit := push (Event e).
Definition get : core_op RtmpCore := fun s => (s, Ok (fst s)).
Definition upd (f : RtmpCore -> RtmpCore) : core_op unit := se_upd (fun s => (f (fst s), snd s)).
Definition raise {A} (e : RtmpCoreError) : core_op A := se_err (Raise e).
Definition panic {A} : core_op A := se_err Panic.
(** [r.map_err(f)?]. *)
Definition lift {A} (f : Error -> RtmpCoreError) (r : result Error A) : core_op A :=
  match r with Ok a => se_ret a | Err e => raise (f e) end.
Definition when (b : bool) (m : core_op unit) : core_op unit := if b then m else se_ret tt.

(** The decoder of the loop is the one inside the core. *)
#[export, refine] Instance core_has_decoder : HasDecoder (RtmpCore * list CoreOutput) := {
    get_decoder := fun s => decoder (fst s);
    set_decoder := fun d s => (put_decoder d (fst s), snd s)
  }.
Proof. all: by intros; destruct s as [[] ?]. Defined.

(** ** Writing ([wire_writer.rs]) *)

Definition send_message (csid timestamp message_type message_stream_id : Z) (payload : list byte) : core_op unit :=
  chunk_stream_id <- lift ChunkError (ok_or (RtmpChunkStreamId_new csid) (invalid_data "invalid outbound csid")) ;;
  ty <- lift ChunkError (from_type_id message_type) ;;
  s <- get ;;
  let '(e, wire) := ChunkEncoder.encode (encoder s) (mk_chunk chunk_stream_id message_stream_id ty timestamp payload) [] in
  upd (set_encoder e) ;;; push (Write wire).

Definition send_user_control (event_type value : Z) : core_op unit :=
  send_message 2 0 4 0 (be_bytes 2 event_type ++ be_bytes 4 value).

Definition send_rtmp_message (csid : Z) (m : RtmpMessage) : core_op unit :=
  match RtmpChunkStreamId_new csid with
  | None => panic
  | Some chunk_stream_id =>
      s <- get ;;
      match message_encode (encoder s) chunk_stream_id m [] with
      | Some (e, wire) => upd (set_encoder e) ;;; push (Write wire)
      | None => panic
      end
  end.

(** [command.into_message(header)?] and [send_rtmp_message]. *)
Definition send_command (csid : Z) (c : RtmpCommand) (h : RtmpMessageHeader) : core_op unit :=
  message <- lift Amf0Failed (into_message c h) ;; send_rtmp_message csid message.

(** [amf0::encode_all] and [send_message]. *)
Definition send_amf0 (csid message_stream_id : Z) (values : list Amf0V) : core_op unit :=
  match Amf0.encode_all values with
  | Some payload => send_message csid 0 20 message_stream_id payload
  | None => panic
  end.

(** [let _ = self.send_message(..)]. *)
Definition ignore_error (m : core_op unit) : core_op unit := fun s =>
  match m s with
  | (s, Err (Raise _)) => (s, Ok tt)
  | r => r
  end.

(** ** Replies ([outbound.rs]) *)

Definition send_window_ack_size : core_op unit := send_rtmp_message 2 (win_ack_size 5000000).
Definition send_set_peer_bandwidth : core_op unit := send_rtmp_message 2 (set_peer_bandwidth 5000000).

Definition send_set_chunk_size (chunk_size : Z) : core_op unit :=
  let chunk_size := RtmpChunkSize_saturating_new chunk_size in
  upd (set_out_chunk_size chunk_size) ;;;
  send_rtmp_message 2 (set_chunk_size chunk_size).

Definition f64_of (n : Z) : Amf0V := num (i64_to_f64 n).

Definition send_connect_result (txn : Z) : core_op unit :=
  send_command 3 (Result (mk_result (from_f64 txn)
    (amf0_object [(lit "fmsVer", str (lit "FMS/4,5,0,297")); (lit "capabilities", f64_of 255); (lit "mode", f64_of 1)])
    (amf0_object [(lit "level", str (lit "status")); (lit "code", str (lit "NetConnection.Connect.Success"));
                  (lit "description", str (lit "Connection succeeded.")); (lit "objectEncoding", f64_of 0)]))) PCM.

Definition send_create_stream_result (txn stream_id : Z) : core_op unit :=
  send_command 3 (Result (create_stream_result (from_f64 txn) stream_id)) PCM.

Definition allocate_stream_id : core_op Z :=
  s <- get ;;
  let current := Z.max (next_stream_id s) 1 in
  upd (set_next_stream_id (if next_stream_id s + 1 <? 2 ^ 32 then next_stream_id s + 1 else 1)) ;;;
  se_ret current.

Definition send_on_status (stream_id : Z) (level code : string) (description : utf8) : core_op unit :=
  send_command 5 (OnStatus (mk_on_status (lit level) (lit code) (Some description) None)) (mk_header stream_id 0).

Definition send_rtmp_sample_access (stream_id : Z) : core_op unit :=
  send_rtmp_message 6 (MData (mk_header stream_id 0) VAmf0
    [OfAmf0 (str (lit "|RtmpSampleAccess")); OfAmf0 (Amf0.Boolean true); OfAmf0 (Amf0.Boolean true)]).

Definition send_accept_play (stream_id : Z) (emit_play_status emit_sample_access : bool) : core_op unit :=
  send_user_control 0 stream_id ;;;
  when emit_play_status (
    send_on_status stream_id "status" "NetStream.Play.Reset" (lit "Resetting and playing stream.") ;;;
    send_on_status stream_id "status" "NetStream.Play.Start" (lit "Started playing.")) ;;;
  when emit_sample_access (send_rtmp_sample_access stream_id).

Definition send_seek_request (stream_id millis : Z) : core_op unit :=
  send_amf0 8 stream_id [str (lit "seek"); f64_of 0; Amf0.Null; num millis].

Definition send_pause_request (stream_id : Z) (pause : bool) (millis : Z) : core_op unit :=
  send_amf0 8 stream_id [str (lit "pause"); f64_of 0; Amf0.Null; Amf0.Boolean pause; num millis].

Definition send_null_result (txn : Z) : core_op unit :=
  ignore_error (send_amf0 3 0 [str (lit "_result"); num txn; Amf0.Null]).

Definition send_on_bw_done : core_op unit :=
  ignore_error (send_amf0 3 0 [str (lit "onBWDone"); f64_of 0; Amf0.Null]).

(** ** What the peer answers ([outbound.rs], client side) *)

Definition emit_result_received (r : RtmpResultCommand) : core_op unit :=
  let description :=
    match member_str (lit "description") (properties r) with
    | Some d => Some d
    | None => member_str (lit "description") (information r)
    end in
  if is_error r then
    upd (fun s => set_client_create None (set_client_pending_action None s)) ;;;
    event (EvClientDisconnectRequested
             (lit "Command response error: " ++ default (lit "Unknown error") description))
  else if r_transaction_id r =? CONNECT then event (EvClientStateChanged Connected)
  else
    s <- get ;;
    if bool_decide (client_create_stream_transaction_id s = Some (r_transaction_id r)) then
      upd (set_client_create None) ;;; event (EvClientStateChanged MediaStreamCreated)
    else event (EvCommandIgnored (lit "_result")).

Definition emit_on_status_received (st : RtmpOnStatusCommand) : core_op unit :=
  s <- get ;;
  if bool_decide (code st = lit "NetStream.Publish.Start")
     && bool_decide (client_pending_action s = Some PendingPublish) then
    upd (set_client_pending_action None) ;;; event (EvClientStateChanged Publishing)
  else if bool_decide (code st = lit "NetStream.Play.Start")
          && bool_decide (client_pending_action s = Some PendingPlay) then
    upd (set_client_pending_action None) ;;; event (EvClientStateChanged Playing)
  else if bool_decide (level st = lit "error") then
    upd (set_client_pending_action None) ;;;
    event (EvClientDisconnectRequested
      (lit "OnStatus error: " ++ code st
       ++ match description st with Some d => lit " - " ++ d | None => [] end
       ++ match details st with Some d => lit " (" ++ d ++ lit ")" | None => [] end))
  else event (EvCommandIgnored (lit "onStatus")).

(** ** Media and publishing ([media.rs], RtmpPublish) *)

Definition lift_media (e : media_event) : RtmpEvent :=
  match e with
  | MediaData id ts t p => EvMediaData id ts t p
  | MessageIgnored id => EvMessageIgnored id
  | PublishRequested id => EvPublishRequested id [] [] []
  | StreamClosed id => EvStreamClosed id
  | PeerClosed => EvPeerClosed
  end.

(** An operation of the publish gate, with its events. *)
Definition gate (f : publish_state -> publish_state * list media_event) : core_op unit := fun s =>
  let '(p, es) := f (publish (fst s)) in
  ((set_publish p (fst s), snd s ++ (Event ∘ lift_media <$> es)), Ok tt).

Definition media_input (id ts : Z) (t : RtmpMediaType) (p : list byte) : core_op unit :=
  gate (handle_media_input id ts t p).

(** The app and URL of the connection, or their defaults. *)
Definition app_and_url (s : RtmpCore) : utf8 * utf8 :=
  let app := default (lit "live") (connected_app s) in
  (app, default (lit "rtmp:///" ++ app) (connected_tc_url s)).

Definition handle_publish_command (message_stream_id : Z) (stream_name : utf8) : core_op unit :=
  s <- get ;;
  upd (fun s => set_publish (fst (start_pending_publish message_stream_id (publish s))) s) ;;;
  event (EvPublishRequested message_stream_id (fst (app_and_url s)) (snd (app_and_url s)) stream_name).

Definition handle_play_command (message_stream_id : Z) (stream_name : utf8) : core_op unit :=
  s <- get ;;
  event (EvPlayRequested message_stream_id (fst (app_and_url s)) (snd (app_and_url s)) stream_name).

Definition handle_delete_stream_command (stream_id : Z) : core_op unit := gate (close_stream stream_id).

(** ** AMF of the peer ([inbound.rs]) *)

Definition amf_str (v : AmfValue) : option utf8 :=
  match v with OfAmf0 (Amf0.String s) | OfAmf3 (Amf3.String s) => Some s | _ => None end.

Definition amf_num (v : AmfValue) : option Z :=
  match v with
  | OfAmf0 (Amf0.Number n) | OfAmf3 (Amf3.Double n) => Some n
  | OfAmf3 (Amf3.Integer n) => Some (i64_to_f64 n)
  | _ => None
  end.

Definition amf_bool (v : AmfValue) : option bool :=
  match v with
  | OfAmf0 (Amf0.Boolean b) | OfAmf3 (Amf3.Boolean b) => Some b
  | OfAmf0 (Amf0.Number n) => Some (negb (f64_is_zero n))
  | _ => None
  end.

Definition object_member_string (object : AmfValue) (key : utf8) : option utf8 :=
  match object with
  | OfAmf0 (Amf0.Object _ entries) | OfAmf0 (Amf0.EcmaArray entries) =>
      rfind key entries ≫= fun v => amf_str (OfAmf0 v)
  | OfAmf3 (Amf3.Object _ _ entries) => rfind key entries ≫= fun v => amf_str (OfAmf3 v)
  | _ => None
  end.

Definition amf_string_at (args : list AmfValue) (idx : nat) : option utf8 := args !! idx ≫= amf_str.

(** Positive doubles are ordered as their bit patterns. *)
Definition command_target_stream_id (args : list AmfValue) : option Z :=
  stream_id ← head args ≫= amf_num;
  if negb (is_finite stream_id) || f64_negative stream_id || f64_is_zero stream_id
     || (i64_to_f64 4294967295 <? stream_id)
  then None else Some (wrap_u 32 (f64_to_i64 stream_id)).

Definition eq_ignore_ascii_case (a b : utf8) : bool :=
  bool_decide (to_ascii_lowercase a = to_ascii_lowercase b).

Definition normalize_amf_payload (payload : list byte) (amf_version : AmfVersion) : list byte * AmfVersion :=
  match amf_version, payload with
  | VAmf3, x00 :: payload => (payload, VAmf0)
  | _, _ => (payload, amf_version)
  end.

Definition amf_failed {A} (r : result Error A) : result fault A :=
  result_map_err (fun e => Raise (Amf0Failed e)) r.

(** [&buf[n..]]: out of range is a panic. *)
Definition slice_from (buf : list byte) (n : nat) : result fault (list byte) :=
  if (n <=? length buf)%nat then Ok (drop n buf) else Err Panic.

(** [while !buf.is_empty()]: every value takes a byte. *)
Fixpoint values_loop (fuel : nat) (version : AmfVersion) (buf : list byte) : result fault (list AmfValue) :=
  match buf with
  | [] => Ok []
  | _ =>
      match fuel with
      | O => Err (Raise (Amf0Failed out_of_fuel))
      | S fuel =>
          v <-? amf_failed (AmfValue.decode version buf) ;;
          buf <-? slice_from buf (fst v) ;;
          values <-? values_loop fuel version buf ;;
          Ok (snd v :: values)
      end
  end.

Definition payload_values (payload : list byte) (amf_version : AmfVersion) : core_op (list AmfValue) :=
  let '(payload, amf_version) := normalize_amf_payload payload amf_version in
  se_of (values_loop (length payload) amf_version payload).

Definition emit_notify_event (message_stream_id : Z) (values : list AmfValue) : option RtmpEvent :=
  match values with
  | [] => None
  | _ =>
      let first := default [] (head values ≫= amf_str) in
      let notify := Some (EvNotify message_stream_id first values) in
      if eq_ignore_ascii_case first (lit "@setDataFrame") then
        match values !! 1%nat ≫= amf_str with
        | Some v => if eq_ignore_ascii_case v (lit "onMetaData")
                    then Some (EvMetadata message_stream_id values) else notify
        | None => notify
        end
      else if eq_ignore_ascii_case first (lit "onMetaData")
      then Some (EvMetadata message_stream_id values)
      else notify
  end.

Definition on_notify_message (version : AmfVersion) (message_stream_id : Z) (payload : list byte) :
    core_op (option RtmpEvent) :=
  values <- payload_values payload version ;; se_ret (emit_notify_event message_stream_id values).

Record DecodedCommand : Type := mk_decoded {
  dc_name : utf8;
  dc_transaction_id : TransactionId;
  dc_transaction_id_raw : Z;
  dc_object : AmfValue;
  dc_args : list AmfValue
}.

(** The next value, or the default where the payload has ended. *)
Definition next_value {A} (version : AmfVersion) (buf : list byte) (default : A) (f : AmfValue -> A) :
    result fault (list byte * A) :=
  match buf with
  | [] => Ok (buf, default)
  | _ =>
      v <-? amf_failed (AmfValue.decode version buf) ;;
      buf <-? slice_from buf (fst v) ;;
      Ok (buf, f (snd v))
  end.

Definition decode_session_command (payload : list byte) (amf_version : AmfVersion) :
    result fault (option DecodedCommand) :=
  match payload with
  | [] => Ok None
  | _ =>
      let '(buf, version) := normalize_amf_payload payload amf_version in
      name <-? amf_failed (AmfValue.decode version buf) ;;
      buf <-? slice_from buf (fst name) ;;
      id <-? next_value version buf 0 (fun v => default 0 (amf_num v)) ;;
      object <-? next_value version (fst id) null (fun v => v) ;;
      args <-? values_loop (length (fst object)) version (fst object) ;;
      Ok (Some (mk_decoded (default [] (amf_str (snd name))) (from_f64 (snd id)) (snd id) (snd object) args))
  end.

Definition canonical_command_name (name_lower : utf8) : option utf8 :=
  head (filter (fun name => to_ascii_lowercase name = name_lower)
    (lit <$> ["connect"; "createStream"; "publish"; "play"; "deleteStream"; "getStreamLength";
              "_result"; "_error"; "onStatus"])).

(** ** Commands of the peer *)

Definition handle_connect_command (app tc_url : utf8) (transaction_id_raw : Z) : core_op unit :=
  upd (set_connected (Some app) (Some tc_url)) ;;;
  send_connect_result transaction_id_raw ;;;
  send_on_bw_done ;;;
  event (EvConnected app tc_url).

Definition handle_create_stream_command (transaction_id_raw : Z) : core_op unit :=
  stream_id <- allocate_stream_id ;;
  send_create_stream_result transaction_id_raw stream_id ;;;
  event (EvStreamCreated stream_id).

Definition handle_get_stream_length_command (transaction_id : TransactionId) : core_op unit :=
  send_command 3 (Result (get_stream_length_result transaction_id 0)) PCM.

Definition is_one_of (name : utf8) (names : list string) : bool :=
  existsb (fun n => bool_decide (name = lit n)) names.

Definition handle_unstructured_command (command : DecodedCommand) (message_stream_id : Z) : core_op unit :=
  let name_lower := to_ascii_lowercase (dc_name command) in
  let args := dc_args command in
  let raw := dc_transaction_id_raw command in
  if is_one_of name_lower ["connect"] then
    handle_connect_command (default (lit "live") (object_member_string (dc_object command) (lit "app")))
      (default [] (object_member_string (dc_object command) (lit "tcUrl"))) raw
  else if is_one_of name_lower ["createstream"] then handle_create_stream_command raw
  else if is_one_of name_lower ["getstreamlength"] then
    handle_get_stream_length_command (dc_transaction_id command)
  else if is_one_of name_lower ["publish"] then
    handle_publish_command message_stream_id (default [] (amf_string_at args 0))
  else if is_one_of name_lower ["play"; "play2"] then
    handle_play_command message_stream_id (default [] (amf_string_at args 0))
  else if is_one_of name_lower ["deletestream"; "closestream"] then
    handle_delete_stream_command (default message_stream_id (command_target_stream_id args))
  else if is_one_of name_lower ["fcpublish"; "fcunpublish"; "releasestream"; "_checkbw"] then
    send_null_result raw ;;; event (EvCommandIgnored (dc_name command))
  else if is_one_of name_lower ["seek"] then
    send_null_result raw ;;;
    event (EvSeekRequested message_stream_id (default 0 (head args ≫= amf_num)))
  else if is_one_of name_lower ["pause"] then
    send_null_result raw ;;;
    event (EvPauseRequested message_stream_id (default true (head args ≫= amf_bool))
             (default 0 (args !! 1%nat ≫= amf_num)))
  else if is_one_of name_lower ["receivevideo"] then
    event (EvReceiveVideo message_stream_id (default true (head args ≫= amf_bool)))
  else if is_one_of name_lower ["receiveaudio"] then
    event (EvReceiveAudio message_stream_id (default true (head args ≫= amf_bool)))
  else event (EvCommandIgnored (dc_name command)).

Definition dispatch_command (command : DecodedCommand) (message_stream_id : Z) : core_op unit :=
  let parsed :=
    name ← canonical_command_name (to_ascii_lowercase (dc_name command));
    result_ok (from_message name (dc_transaction_id command) (dc_object command) (dc_args command)) in
  match parsed with
  | Some (Connect c) => handle_connect_command (app c) (tc_url c) (dc_transaction_id_raw command)
  | Some (CreateStream id) => handle_create_stream_command (i64_to_f64 id)
  | Some (GetStreamLength id _) => handle_get_stream_length_command id
  | Some (RtmpCommand.Publish _ stream_name) => handle_publish_command message_stream_id stream_name
  | Some (Play _ stream_name _) => handle_play_command message_stream_id stream_name
  | Some (DeleteStream _ stream_id) =>
      handle_delete_stream_command (if stream_id =? 0 then message_stream_id else stream_id)
  | Some (Result r) => emit_result_received r
  | Some (OnStatus st) => emit_on_status_received st
  | _ => handle_unstructured_command command message_stream_id
  end.

Definition on_command_message_with_version (message_stream_id : Z) (payload : list byte)
    (amf_version : AmfVersion) : core_op unit :=
  command <- se_of (decode_session_command payload amf_version) ;;
  match command with
  | None => se_ret tt
  | Some command => dispatch_command command message_stream_id
  end.

(** ** Control messages ([core.rs]) *)

Definition handle_control_message (chunk : RtmpChunk) : core_op unit :=
  message <- lift ChunkError (decode_rtmp_chunk_to_message chunk) ;;
  match message with
  | MSetChunkSize _ size => upd (fun s => put_decoder (decoder_set_chunk_size (decoder s) size) (set_in_chunk_size size s))
  | MAck _ n => event (EvAckReceived n)
  | MWinAckSize _ size => upd (set_peer_ack_window_size size) ;;; event (EvPeerAckWindowUpdated size)
  | MUserControl _ (PingRequest timestamp) => send_message 2 0 4 0 (encode_event (PingResponse timestamp) [])
  | MSetPeerBandwidth _ size limit_type =>
      upd (set_local_ack_window size limit_type) ;;;
      event (EvLocalAckWindowUpdated size) ;;;
      send_message 2 0 5 0 (be_bytes 4 size)
  | MAbort _ csid => upd (fun s => put_decoder (decoder_reset_chunk_stream (decoder s) csid) s)
  | _ => se_ret tt
  end.

(** ** Messages *)

(** [Err(RtmpCoreError::Amf0(_)) => {}]. *)
Definition tolerate_amf0 (m : core_op unit) : core_op unit := fun s =>
  match m s with
  | (s, Err (Raise (Amf0Failed _))) => (s, Ok tt)
  | r => r
  end.

Definition notify_or_media (version : AmfVersion) (msg : RtmpChunk) : core_op unit :=
  e <- on_notify_message version (message_stream_id msg) (payload msg) ;;
  match e with
  | Some e => event e
  | None => media_input (message_stream_id msg) (timestamp msg) Data (payload msg)
  end.

Section aggregate.
(** [on_message]. *)
Variable deliver : RtmpChunk -> core_op unit.

(** [&payload[i..i + n]]: out of range is a panic. *)
Definition slice (payload : list byte) (i n : nat) : core_op (list byte) :=
  if (i + n <=? length payload)%nat then se_ret (take n (drop i payload)) else panic.

(** The [while] loop; every turn takes eleven bytes or more. The stream id inside is
    ignored, a sub-message of an unknown type is skipped. *)
Fixpoint aggregate_loop (fuel : nat) (msg : RtmpChunk) (pos : nat) : core_op unit :=
  match fuel with
  | O => se_ret tt
  | S fuel =>
      let p := payload msg in
      if (pos + 11 <=? length p)%nat then
        sub_type <- slice p pos 1 ;;
        sub_length <- slice p (pos + 1) 3 ;;
        extended <- slice p (pos + 7) 1 ;;
        lower <- slice p (pos + 4) 3 ;;
        let sub_length := Z.to_nat (be_val sub_length) in
        let sub_timestamp := be_val (extended ++ lower) in
        let pos := (pos + 11)%nat in
        if (length p <? pos + sub_length)%nat then se_ret tt
        else
          sub_payload <- slice p pos sub_length ;;
          let pos := (pos + sub_length)%nat in
          let pos := if (pos + 4 <=? length p)%nat then (pos + 4)%nat else pos in
          match from_type_id (be_val sub_type) with
          | Err _ => aggregate_loop fuel msg pos
          | Ok ty =>
              deliver (mk_chunk (chunk_stream_id msg) (message_stream_id msg) ty
                         (wrap_u 32 (timestamp msg + sub_timestamp)) sub_payload) ;;;
              aggregate_loop fuel msg pos
          end
      else se_ret tt
  end.

Definition on_aggregate_message (msg : RtmpChunk) : core_op unit :=
  aggregate_loop (length (payload msg)) msg 0.
End aggregate.

(** [depth] bounds the nesting of aggregates, which the payload bounds
    ([on_message_depth]); the source has no other bound, and running out of stack is a
    panic. *)
Fixpoint on_message_depth (depth : nat) (msg : RtmpChunk) : core_op unit :=
  match message_type msg with
  | TSetChunkSize | TAck | TWinAckSize | TUserControl | TSetPeerBandwidth | TAbort =>
      handle_control_message msg
  | TAudio => media_input (message_stream_id msg) (timestamp msg) Audio (payload msg)
  | TVideo => media_input (message_stream_id msg) (timestamp msg) Video (payload msg)
  | TDataAmf3 => tolerate_amf0 (notify_or_media VAmf3 msg)
  | TDataAmf0 => notify_or_media VAmf0 msg
  | TCommandAmf0 => on_command_message_with_version (message_stream_id msg) (payload msg) VAmf0
  | TCommandAmf3 =>
      tolerate_amf0 (on_command_message_with_version (message_stream_id msg) (payload msg) VAmf3)
  | TAggregate =>
      match depth with
      | O => panic
      | S depth => on_aggregate_message (on_message_depth depth) msg
      end
  end.

Definition on_message (msg : RtmpChunk) : core_op unit := on_message_depth (S (length (payload msg))) msg.

(** ** Bytes *)

Definition loop_error (e : Error) : fault := Raise (ChunkError e).

(** [Buf::advance] once per chunk comes to one step over all of them
    ([buf_advance_add]). *)
Definition process_ready_bytes (bytes : list byte) : core_op unit :=
  upd (fun s => set_total_bytes_received (wrap_u 64 (total_bytes_received s + Z.of_nat (length bytes))) s) ;;;
  s <- get ;;
  let unacked_bytes := wrap_u 64 (total_bytes_received s - last_ack_sent s) in
  when (peer_ack_window_size s / 2 <? unacked_bytes) (
    upd (set_last_ack_sent (total_bytes_received s)) ;;;
    send_message 2 0 3 0 (be_bytes 4 (Z.land (total_bytes_received s) 0xFFFFFFFF))) ;;;
  upd (fun s => set_input_buf (buf_feed (input_buf s) bytes) s) ;;;
  fun st =>
    if buf_in_range (input_buf (fst st)) then
      let buf := buf_get (input_buf (fst st)) in
      let '(st, rest, r) := pump_all on_message loop_error st buf in
      ((set_input_buf (buf_advance (input_buf (fst st)) (length buf - length rest)) (fst st), snd st), r)
    else (st, Err Panic).

Section build.
Variable complex_handshake : bool.
Variable hmac : list byte -> list byte -> list byte.

(** Leaving the handshake: what the server says first, and the bytes behind it. *)
Definition finish_handshake (h : RtmpServerHandshake) : core_op unit :=
  let '(h, remaining) := take_recv_buf h in
  upd (set_handshake (Server h)) ;;;
  upd (set_state Ready) ;;;
  s <- get ;;
  send_set_chunk_size (out_chunk_size s) ;;;
  send_window_ack_size ;;;
  send_set_peer_bandwidth ;;;
  match remaining with
  | [] => se_ret tt
  | _ => process_ready_bytes remaining
  end.

Definition try_handshake (bytes : list byte) : core_op unit :=
  s <- get ;;
  match handshake s with
  | Client =>
      upd (set_state Closed) ;;;
      raise (HandshakeError "client core does not accept raw bytes during handshake")
  | Server h =>
      let bad_version :=
        match bytes with b :: _ => negb (byte_val b =? 3) | [] => false end in
      if bool_decide (state s = Handshaking) && bad_version then
        upd (set_state Closed) ;;; raise (InvalidHandshakeVersion (be_val (take 1 bytes)))
      else
        match feed_recv_buf complex_handshake hmac bytes h with
        | (h, Err Panicked) => upd (set_handshake (Server h)) ;;; panic
        | (h, Err (Failed e)) =>
            upd (set_handshake (Server h)) ;;; upd (set_state Closed) ;;; raise (HandshakeError (reason e))
        | (h, Ok _) =>
            match sv_send_buf h with
            | [] => upd (set_handshake (Server h))
            | pending =>
                upd (set_handshake (Server (advance_send_buf (length pending) h))) ;;;
                push (Write pending) ;;;
                when (bool_decide (state s = Handshaking)) (upd (set_state WaitC2))
            end ;;;
            (if is_recv_complete h then finish_handshake (advance_send_buf (length (sv_send_buf h)) h)
             else se_ret tt)
        end
  end.

Definition on_bytes (bytes : list byte) : core_op unit :=
  s <- get ;;
  match state s with
  | Closed => se_ret tt
  | Handshaking | WaitC2 => try_handshake bytes
  | Ready => process_ready_bytes bytes
  end.

(** ** Commands of the application ([on_command]) *)

Definition ping_response (timestamp : RtmpTimestamp) : RtmpMessage := MUserControl PCM (PingResponse timestamp).

Definition on_command (cmd : RtmpCoreCommand) : core_op unit :=
  match cmd with
  | SetWindowAckSize size => send_rtmp_message 2 (win_ack_size size)
  | SetPeerBandwidth size => send_rtmp_message 2 (set_peer_bandwidth size)
  | SetChunkSize size => send_set_chunk_size size
  | SendAck n => send_rtmp_message 2 (ack n)
  | SendPingResponse timestamp => send_rtmp_message 2 (ping_response timestamp)
  | ClientConnect app flash_ver tc_url => send_command 3 (Connect (mk_connect app flash_ver tc_url)) PCM
  | ClientCreateStream raw =>
      let id := from_f64 raw in
      upd (set_client_create (Some id)) ;;; send_command 3 (CreateStream id) PCM
  | ClientPublish stream_id raw stream_name =>
      upd (set_client_pending_action (Some PendingPublish)) ;;;
      send_command 8 (RtmpCommand.Publish (from_f64 raw) stream_name) (mk_header stream_id 0)
  | ClientPlay stream_id raw stream_name start =>
      upd (set_client_pending_action (Some PendingPlay)) ;;;
      send_command 8 (Play (from_f64 raw) stream_name start) (mk_header stream_id 0)
  | ClientSeek stream_id millis => send_seek_request stream_id millis
  | ClientPause stream_id pause millis => send_pause_request stream_id pause millis
  | ClientHandleWireCommand _ name id object args =>
      match from_message name id object args with
      | Ok (Result r) => emit_result_received r
      | Ok (OnStatus st) => emit_on_status_received st
      | _ => event (EvCommandIgnored name)
      end
  | ClientObserveAck n => event (EvAckReceived n)
  | ClientObserveWinAckSize size => upd (set_peer_ack_window_size size) ;;; event (EvPeerAckWindowUpdated size)
  | ClientHandleSetPeerBandwidth size response_window_size =>
      send_rtmp_message 2 (win_ack_size response_window_size) ;;; event (EvLocalAckWindowUpdated size)
  | ClientObserveMediaData id ts t p => event (EvMediaData id ts t p)
  | ClientHandleUserControl (PingRequest timestamp) => send_rtmp_message 2 (ping_response timestamp)
  | ClientHandleUserControl e => event (EvUserControlIgnored (event_name e))
  | ClientHandleUnhandledMessage m => event (EvMessageIgnored (h_stream_id (header m)))
  | AcceptPublish id =>
      gate (accept_publish id) ;;;
      send_on_status id "status" "NetStream.Publish.Start" (lit "Start publishing.")
  | RejectPublish id description =>
      gate (reject_publish id) ;;; send_on_status id "error" "NetStream.Publish.BadName" description
  | AcceptPlay id => send_accept_play id true true
  | AcceptPlayConfigured id emit_play_status emit_sample_access =>
      send_accept_play id emit_play_status emit_sample_access
  | RejectPlay id description => send_on_status id "error" "NetStream.Play.StreamNotFound" description
  | SendMetadata id ts p => send_message 6 ts 18 id p
  | SendAudio id ts p => send_message 4 ts 8 id p
  | SendVideo id ts p => send_message 6 ts 9 id p
  | SendNotify id ts p => send_message 6 ts 18 id p
  | CloseStream id => send_user_control 1 id
  | CloseConnection =>
      upd (set_state Closed) ;;;
      upd (fun s => set_client_create None (set_client_pending_action None s)) ;;;
      gate close_connection
  end.

(** ** The automaton *)

Definition new_with (st : HandshakeState) (role : HandshakeRole) : RtmpCore :=
  mk_core st 128 60000 decoder_default
    (encoder_set_chunk_size encoder_default (RtmpChunkSize_saturating_new 60000)) buf_default role
    None None (2 ^ 64 - 1) 5000000 Soft 0 0 publish_new 1 None None.

Definition new : RtmpCore := new_with Handshaking (Server server_new_lenient_seeded_s1).
Definition new_client : RtmpCore := new_with Ready Client.

(** The outputs of a call that fails are lost; the state is not. *)
Definition handle_input (input : CoreInput) (s : RtmpCore) : RtmpCore * result fault (list CoreOutput) :=
  let '((s, out), r) :=
    match input with
    | Bytes bytes => on_bytes bytes (s, [])
    | Timeout _ => ((s, []), Ok tt)
    | Command cmd => on_command cmd (s, [])
    end in
  (s, result_map (fun _ => out) r).
End build.
