(* ===== verification/RtmpSessionSpec.v ===== *)
(** * What the RTMP session promises

    An abstract description of the session of RtmpSession: the steps it may take, which
    say when media is passed on, what may be written and how the states follow each
    other. Every input takes the core through such steps ([input_steps]), whatever the
    peer sends; the properties of the session are then properties of the steps. *)
From Stdlib Require Import Strings.Byte Strings.String.
From stdpp Require Import relations.
From S2P Require Import RtmpPublish Amf3Roundtrip AmfValue Prelude RtmpBytes RtmpTypes ChunkDecoder ChunkEncoder ChunkLoop ChunkRoundtrip Amf Amf3 Amf0 RtmpUserControl RtmpFrames RtmpMessage RtmpCommand RtmpHandshake RtmpSession.

(** ** Steps *)

Abbreviation session := (RtmpCore * list CoreOutput)%type.

(** Media is announced for the gate, or was handed in by the client driver. *)
Definition event_allowed (i : CoreInput) (e : RtmpEvent) : Prop :=
  match e with
  | EvMediaData id ts t p => i = Command (ClientObserveMediaData id ts t p)
  | _ => True
  end.

(** The peer moves media and its own streams, the application the rest. *)
Definition op_allowed (i : CoreInput) (o : media_op) : Prop :=
  match o with
  | Media _ _ _ _ | RtmpPublish.Publish _ | RtmpPublish.CloseStream _ => exists bytes, i = Bytes bytes
  | Accept id => i = Command (AcceptPublish id)
  | Reject id => exists description, i = Command (RejectPublish id description)
  | RtmpPublish.CloseConnection => i = Command CloseConnection
  end.

(** An event of the gate as the session shows it. *)
Definition shows (m : media_event) (e : RtmpEvent) : Prop :=
  match m, e with
  | PublishRequested id, EvPublishRequested id' _ _ _ => id = id'
  | PublishRequested _, _ => False
  | _, _ => e = lift_media m
  end.

(** What the application hands in fits its types, and a message. *)
Definition cmd_fits (cmd : RtmpCoreCommand) : Prop :=
  let text s := Z.of_nat (length s) <= 2 ^ 20 in
  match cmd with
  | ClientConnect app flash_ver tc_url => text app /\ text flash_ver /\ text tc_url
  | ClientPublish id _ name => in_u 32 id /\ text name
  | ClientPlay id _ name _ => in_u 32 id /\ text name
  | ClientSeek id _ | ClientPause id _ _ | AcceptPublish id | AcceptPlay id
  | AcceptPlayConfigured id _ _ => in_u 32 id
  | RejectPublish id description | RejectPlay id description => in_u 32 id /\ text description
  | SendMetadata id ts p | SendAudio id ts p | SendVideo id ts p | SendNotify id ts p =>
      in_u 32 id /\ in_u 32 ts /\ Z.of_nat (length p) <= MAX_MESSAGE_SIZE
  | _ => True
  end.

Definition input_fits (i : CoreInput) : Prop :=
  match i with Command cmd => cmd_fits cmd | _ => True end.

(** What is sent fits the limits of the peer's decoder, unless the application has
    handed in something too large. *)
Definition reply_fits (i : CoreInput) (c : RtmpChunk) : Prop :=
  message_type c <> TSetChunkSize /\ (input_fits i -> chunk_fits c).

(** The handshake goes forward, and only on bytes; anything may close. *)
Definition state_allowed (i : CoreInput) (from to : HandshakeState) : Prop :=
  match to with
  | Handshaking => False
  | WaitC2 => from = Handshaking /\ exists bytes, i = Bytes bytes
  | Ready => (from = Handshaking \/ from = WaitC2) /\ exists bytes, i = Bytes bytes
  | Closed => True
  end.

Inductive core_step (i : CoreInput) : session -> session -> Prop :=
| step_bookkeeping s s' out :
    state s' = state s -> encoder s' = encoder s -> publish s' = publish s ->
    core_step i (s, out) (s', out)
| step_event s out e : event_allowed i e -> core_step i (s, out) (s, out ++ [Event e])
| step_gate s out o es :
    op_allowed i o -> Forall2 shows (snd (media_step (publish s) o)) es ->
    core_step i (s, out) (set_publish (fst (media_step (publish s) o)) s, out ++ (Event <$> es))
| step_send s out c :
    reply_fits i c ->
    core_step i (s, out) (set_encoder (fst (ChunkEncoder.encode (encoder s) c [])) s,
                          out ++ [Write (snd (ChunkEncoder.encode (encoder s) c []))])
| step_announce s out size :
    chunk_size_wf size ->
    let c := mk_chunk 2 0 TSetChunkSize 0 (be_bytes 4 size) in
    core_step i (s, out) (set_encoder (encoder_set_chunk_size (fst (ChunkEncoder.encode (encoder s) c [])) size) s,
                          out ++ [Write (snd (ChunkEncoder.encode (encoder s) c []))])
| step_handshake s out wire :
    state s = Handshaking \/ state s = WaitC2 -> core_step i (s, out) (s, out ++ [Write wire])
| step_state s out st :
    state_allowed i (state s) st -> core_step i (s, out) (set_state st s, out).

(** ** Operations that take such steps *)

(** No operation panics: see [slice], [slice_from], [send_rtmp_message] and
    [on_message_depth]. The receive buffer is not theirs. *)
Definition good_at (i : CoreInput) {A} (s : session) (m : core_op A) : Prop :=
  rtc (core_step i) s (fst (m s)) /\ snd (m s) <> Err Panic /\
  input_buf (fst (fst (m s))) = input_buf (fst s).

(** What reads the receive buffer needs it in range, and leaves it so. *)
Definition fine_at (i : CoreInput) {A} (s : session) (m : core_op A) : Prop :=
  rtc (core_step i) s (fst (m s)) /\
  (buf_wf (input_buf (fst s)) ->
   snd (m s) <> Err Panic /\ buf_wf (input_buf (fst (fst (m s))))).

Class Good (i : CoreInput) {A} (m : core_op A) : Prop := good s : good_at i s m.

Section good.
Context (i : CoreInput).

Lemma good_fine {A} s (m : core_op A) : good_at i s m -> fine_at i s m.
Proof. intros (H1 & H2 & H3). split; [done|]. intros Hw. by rewrite H3. Qed.

Lemma at_upd {A} s out f (k : core_op A) :
  core_step i (s, out) (f s, out) -> (buf_wf (input_buf s) -> buf_wf (input_buf (f s))) ->
  fine_at i (f s, out) k -> fine_at i (s, out) (upd f ;;; k).
Proof.
  intros H Hb [H1 H2]. split; [etrans; [by apply rtc_once|exact H1]|]. intros Hw. apply H2, Hb, Hw.
Qed.

Lemma at_bind {A B} s s1 (a : A) (m : core_op A) (k : A -> core_op B) :
  m s = (s1, Ok a) -> rtc (core_step i) s s1 -> input_buf (fst s1) = input_buf (fst s) ->
  fine_at i s1 (k a) -> fine_at i s (se_bind m k).
Proof.
  intros E H Hb [H1 H2]. rewrite Hb in H2. unfold fine_at, se_bind. rewrite E.
  split; [by etrans|exact H2].
Qed.

(** First what leaves the buffer alone. *)
Lemma at_seq {A B} s (m : core_op A) (k : A -> core_op B) :
  good_at i s m -> (forall a s1, fine_at i s1 (k a)) -> fine_at i s (se_bind m k).
Proof.
  intros (H1 & H2 & H3) Hk. unfold fine_at, se_bind. destruct (m s) as [s1 [a|e]]; cbn in *.
  - destruct (Hk a s1) as [K1 K2]. rewrite H3 in K2. split; [by etrans|done].
  - split; [done|]. intros Hw. rewrite H3. split; [congruence|done].
Qed.

Lemma at_raise {A} s e : fine_at i s (raise (A:=A) e).
Proof. by split; [apply rtc_refl|]. Qed.

Lemma at_ret {A} s (a : A) : fine_at i s (se_ret a).
Proof. by split; [apply rtc_refl|]. Qed.

#[local] Instance good_ret {A} (a : A) : Good i (se_ret a).
Proof. intros s. split; [apply rtc_refl|done]. Qed.

#[local] Instance good_raise {A} e : Good i (raise (A:=A) e).
Proof. intros s. split; [apply rtc_refl|done]. Qed.

#[local] Instance good_get : Good i get.
Proof. intros s. split; [apply rtc_refl|done]. Qed.

#[local] Instance good_bind {A B} (m : core_op A) (k : A -> core_op B) :
  Good i m -> (forall a, Good i (k a)) -> Good i (se_bind m k).
Proof.
  intros Hm Hk s. unfold good_at, se_bind. destruct (Hm s) as (H1 & H2 & H3).
  destruct (m s) as [s1 [a|e]]; [|cbn in *; split_and!; congruence].
  destruct (Hk a s1) as (H4 & H5 & H6). split; [by etrans|]. split; [done|]. by rewrite H6.
Qed.

Lemma good_bind_ret {A B} (a : A) (k : A -> core_op B) : Good i (k a) -> Good i (se_bind (se_ret a) k).
Proof. done. Qed.

Lemma good_upd f :
  (forall s, state (f s) = state s /\ encoder (f s) = encoder s /\ publish (f s) = publish s /\
             input_buf (f s) = input_buf s) -> Good i (upd f).
Proof.
  intros Hf [s out]. destruct (Hf s) as (H1 & H2 & H3 & H4). split; [|done].
  by apply rtc_once, step_bookkeeping.
Qed.

Lemma good_session_event e : event_allowed i e -> Good i (event e).
Proof. intros He [s out]. split; [|done]. by apply rtc_once, step_event. Qed.

#[local] Instance good_lift {A} f (r : result Error A) : Good i (lift f r).
Proof. destruct r; apply _. Qed.

Lemma good_of {A} (r : result fault A) : r <> Err Panic -> Good i (se_of r).
Proof. intros H s. split; [apply rtc_refl|done]. Qed.

#[local] Instance good_when b m : Good i m -> Good i (when b m).
Proof. intros H. destruct b; [done|apply _]. Qed.

#[local] Instance good_ignore m : Good i m -> Good i (ignore_error m).
Proof.
  intros H s. destruct (H s) as (H1 & H2 & H3). unfold good_at, ignore_error. by destruct (m s) as [s' [[]|[e|]]].
Qed.

#[local] Instance good_tolerate m : Good i m -> Good i (tolerate_amf0 m).
Proof.
  intros H s. destruct (H s) as (H1 & H2 & H3). unfold good_at, tolerate_amf0. by destruct (m s) as [s' [[]|[[]|]]].
Qed.

Lemma shows_lift es : Forall (fun m => match m with PublishRequested _ => False | _ => True end) es ->
  Forall2 shows es (lift_media <$> es).
Proof. induction 1 as [|[] es H _ IH]; by constructor. Qed.

(** One operation of the gate. *)
Lemma good_gate o f :
  op_allowed i o -> (forall p, f p = media_step p o) ->
  (forall p, Forall (fun m => match m with PublishRequested _ => False | _ => True end) (snd (f p))) ->
  Good i (gate f).
Proof.
  intros Ho Hf Hn [s out]. unfold good_at, gate. cbn [fst snd]. pose proof (Hn (publish s)) as H.
  rewrite Hf in H |- *. destruct (media_step (publish s) o) as [p es] eqn:E. split; [|done].
  apply rtc_once. rewrite list_fmap_compose. pose proof (step_gate i s out o (lift_media <$> es) Ho) as G.
  rewrite E in G. by apply G, shows_lift.
Qed.
End good.

(** ** Sizes

    The session writes AMF0 commands whose values are scalars and objects of scalars;
    they are always encoded, in no more than the following number of bytes. *)

Definition scalar_size (v : Amf0V) : option nat :=
  match v with
  | Amf0.Number _ => Some 9%nat
  | Amf0.Boolean _ => Some 2%nat
  | Amf0.String s => Some (5 + length s)%nat
  | Amf0.Null => Some 1%nat
  | _ => None
  end.

Fixpoint entries_size (entries : list (utf8 * Amf0V)) : option nat :=
  match entries with
  | [] => Some 3%nat
  | (k, v) :: entries =>
      n ← scalar_size v; m ← entries_size entries; Some (2 + length k + n + m)%nat
  end.

Definition flat_size (v : Amf0V) : option nat :=
  match v with
  | Amf0.Object None entries => S <$> entries_size entries
  | v => scalar_size v
  end.

Definition value_size (v : AmfValue) : option nat :=
  match v with OfAmf0 v => flat_size v | OfAmf3 _ => None end.

Fixpoint values_size (l : list AmfValue) : option nat :=
  match l with
  | [] => Some O
  | v :: l => n ← value_size v; m ← values_size l; Some (n + m)%nat
  end.

Lemma scalar_encoded v n ptr :
  scalar_size v = Some n ->
  exists bs, (length bs <= n)%nat /\
    forall buf l, Amf0.encode_value ptr v (mk_encoder buf l) = Some (mk_encoder (buf ++ bs) l).
Proof.
  destruct v as [x|b|s| | | | | | | |]; cbn [scalar_size]; intros [= <-].
  - exists (byte_of MARKER_NUMBER :: be_bytes 8 x). split; [cbn; rewrite length_be_bytes; lia|].
    intros buf l. cbn. unfold put, write_f64, write_u8. cbn. by rewrite <- app_assoc.
  - exists [byte_of MARKER_BOOLEAN; byte_of (if b then 1 else 0)]. split; [cbn; lia|].
    intros buf l. cbn. unfold put, write_u8. cbn. by rewrite <- app_assoc.
  - exists (if Z.of_nat (length s) <=? 0xFFFF then byte_of MARKER_STRING :: be_bytes 2 (Z.of_nat (length s)) ++ s
            else byte_of MARKER_LONG_STRING :: be_bytes 4 (Z.of_nat (length s)) ++ s).
    split; [destruct (Z.of_nat (length s) <=? 0xFFFF); cbn; rewrite length_app, length_be_bytes; lia|].
    intros buf l. cbn. unfold put, encode_string, write_bytes, write_u16, write_u32, write_u8. cbn.
    destruct (Z.of_nat (length s) <=? 65535); by rewrite <- !app_assoc.
  - exists [byte_of MARKER_NULL]. split; [cbn; lia|]. done.
Qed.

Lemma entries_encoded ptr entries : forall n idx,
  entries_size entries = Some n ->
  exists bs, (3 + length bs <= n)%nat /\
    forall buf l,
      encode_indexed (fun a pair e => let '(key, v) := pair in Amf0.encode_value a v (put (encode_name key) e))
        ptr idx entries (mk_encoder buf l) = Some (mk_encoder (buf ++ bs) l).
Proof.
  induction entries as [|[k v] entries IH]; intros n idx; cbn [entries_size].
  { intros [= <-]. exists []. split; [cbn; lia|]. intros buf l. cbn. by rewrite app_nil_r. }
  destruct (scalar_size v) as [n1|] eqn:E1; [|done]. destruct (entries_size entries) as [n2|] eqn:E2; [|done].
  cbn. intros [= <-]. destruct (scalar_encoded v n1 (idx :: ptr) E1) as (b1 & L1 & H1).
  destruct (IH n2 (S idx) eq_refl) as (b2 & L2 & H2).
  exists (be_bytes 2 (Z.of_nat (length k)) ++ k ++ b1 ++ b2). split.
  { rewrite !length_app, length_be_bytes. lia. }
  intros buf l. cbn [encode_indexed]. change (put (encode_name k) (mk_encoder buf l))
    with (mk_encoder ((buf ++ be_bytes 2 (Z.of_nat (length k))) ++ k) l).
  rewrite H1. cbn [mbind option_bind]. rewrite H2. by rewrite <- !app_assoc.
Qed.

Lemma value_encoded v n :
  value_size v = Some n -> exists bs, (length bs <= n)%nat /\ emits (AmfValue.encode v) bs.
Proof.
  destruct v as [v|v]; [|done]. cbn [value_size AmfValue.encode].
  assert (Sc : scalar_size v = Some n -> exists bs, (length bs <= n)%nat /\ emits (Amf0.encode v) bs).
  { intros (bs & L & H)%(scalar_encoded v n []). exists bs. split; [done|]. intros buf. unfold Amf0.encode. by rewrite H. }
  destruct v as [| | |[c|] entries| | | | | | |]; try exact Sc. cbn [flat_size].
  destruct (entries_size entries) as [m|] eqn:E; [|done]. intros [= <-].
  destruct (entries_encoded [] entries m 0 E) as (bs & L & H).
  exists (byte_of MARKER_OBJECT :: bs ++ [x00; x00; byte_of MARKER_OBJECT_END_MARKER]).
  split; [cbn; rewrite length_app; cbn; lia|]. intros buf. unfold Amf0.encode.
  change (Amf0.encode_value [] (Amf0.Object None entries) (mk_encoder buf []))
    with (encode_pairs Amf0.encode_value [] entries (mk_encoder (buf ++ [byte_of MARKER_OBJECT]) [[]])).
  unfold encode_pairs. rewrite H. cbn [mbind option_bind fmap option_fmap option_map e_buf put].
  unfold write_u8, write_u16. by rewrite <- !app_assoc.
Qed.

Lemma values_encoded l : forall n,
  values_size l = Some n -> exists bs, (length bs <= n)%nat /\ emits (encode_each AmfValue.encode l) bs.
Proof.
  induction l as [|v l IH]; intros n; cbn [values_size].
  { intros [= <-]. exists []. split; [cbn; lia|]. intros buf. cbn. by rewrite app_nil_r. }
  destruct (value_size v) as [n1|] eqn:E1; [|done]. destruct (values_size l) as [n2|] eqn:E2; [|done].
  cbn. intros [= <-]. destruct (value_encoded v n1 E1) as (b1 & L1 & H1). destruct (IH n2 eq_refl) as (b2 & L2 & H2).
  exists (b1 ++ b2). split; [rewrite length_app; lia|]. intros buf. cbn. rewrite H1. cbn.
  rewrite H2. by rewrite <- app_assoc.
Qed.

Fixpoint scalars_size (l : list Amf0V) : option nat :=
  match l with
  | [] => Some O
  | v :: l => n ← scalar_size v; m ← scalars_size l; Some (n + m)%nat
  end.

(** [amf0::encode_all] keeps one table of complex values, which scalars do not use. *)
Lemma encode_all_scalars l : forall idx n buf t,
  scalars_size l = Some n ->
  exists bs, (length bs <= n)%nat /\
    encode_indexed Amf0.encode_value [] idx l (mk_encoder buf t) = Some (mk_encoder (buf ++ bs) t).
Proof.
  induction l as [|v l IH]; intros idx n buf t; cbn [scalars_size].
  { intros [= <-]. exists []. split; [cbn; lia|]. cbn. by rewrite app_nil_r. }
  destruct (scalar_size v) as [n1|] eqn:E1; [|done]. destruct (scalars_size l) as [n2|] eqn:E2; [|done].
  cbn. intros [= <-]. destruct (scalar_encoded v n1 [idx] E1) as (b1 & L1 & H1).
  destruct (IH (S idx) n2 (buf ++ b1) t eq_refl) as (b2 & L2 & H2).
  exists (b1 ++ b2). split; [rewrite length_app; lia|]. rewrite H1. cbn. rewrite H2. by rewrite <- app_assoc.
Qed.

(** ** Every operation takes allowed steps *)

#[export] Existing Instances good_ret good_raise good_get good_bind good_lift good_when good_ignore good_tolerate.
Create HintDb good.
#[export] Hint Resolve good_upd good_session_event : good.

Section handlers.
Context (i : CoreInput).

(** What [reply_fits] asks of a chunk of at most [n] bytes. *)
Definition room (csid ts stream_id : Z) (n : nat) : Prop :=
  csid_wf csid /\
  (input_fits i -> in_u 32 ts /\ in_u 32 stream_id /\ Z.of_nat n <= MAX_MESSAGE_SIZE).

Lemma room_fits csid ts stream_id n ty p :
  ty <> TSetChunkSize -> room csid ts stream_id n -> (length p <= n)%nat ->
  reply_fits i (mk_chunk csid stream_id ty ts p).
Proof.
  intros Ht [H1 H2] Hp. split; [done|]. intros (H3 & H4 & H5)%H2. split; [by split|]. cbn [payload]. lia.
Qed.

Lemma good_send_message csid ts ty stream_id p t :
  from_type_id ty = Ok t -> t <> TSetChunkSize -> room csid ts stream_id (length p) ->
  Good i (send_message csid ts ty stream_id p).
Proof.
  intros Ht Hs Hr [s out]. unfold good_at, send_message, se_bind. rewrite (RtmpChunkStreamId_new_wf csid), Ht by apply Hr.
  cbn. destruct (ChunkEncoder.encode (encoder s) _ []) as [e wire] eqn:E. cbn. split; [|done].
  apply rtc_once. pose proof (step_send i s out _ (room_fits _ _ _ _ t p Hs Hr ltac:(done))) as G. by rewrite E in G.
Qed.

Lemma good_send_rtmp_message csid m p n :
  encode_message_payload m [] = Some p -> (length p <= n)%nat ->
  room csid (h_timestamp (header m)) (h_stream_id (header m)) n ->
  match m with MSetChunkSize _ _ => False | _ => True end ->
  Good i (send_rtmp_message csid m).
Proof.
  intros Hm Hn Hr Hs [s out]. unfold good_at, send_rtmp_message. rewrite (RtmpChunkStreamId_new_wf csid) by apply Hr.
  unfold se_bind, get, message_encode, message_to_chunk. cbn [fst]. rewrite Hm. cbn [mbind option_bind].
  destruct (ChunkEncoder.encode (encoder s) _ []) as [e wire] eqn:E. cbn [fst snd].
  assert (G : core_step i (s, out) (set_encoder e s, out ++ [Write wire])).
  { assert (Ht : type_of_message m <> TSetChunkSize) by (by destruct m as [| | | | | | | |? [] ? ? ? ?|? [] ?]).
    pose proof (step_send i s out _ (room_fits _ _ _ _ (type_of_message m) p Ht Hr Hn)) as G. by rewrite E in G. }
  destruct m; try done; (split; [|done]); by apply rtc_once.
Qed.

Lemma good_set_chunk_size size : Good i (send_set_chunk_size size).
Proof.
  intros [s out]. pose proof (saturating_new_wf size) as Hw. set (z := RtmpChunkSize_saturating_new size) in *.
  pose proof (step_announce i (set_out_chunk_size z s) out z Hw) as G. cbn zeta in G.
  set (r := ChunkEncoder.encode (encoder s) (mk_chunk 2 0 TSetChunkSize 0 (be_bytes 4 z)) []) in *.
  change (encoder (set_out_chunk_size z s)) with (encoder s) in G. fold r in G.
  assert (R : send_set_chunk_size size (s, out)
    = ((set_encoder (encoder_set_chunk_size (fst r) z) (set_out_chunk_size z s), out ++ [Write (snd r)]), Ok tt)).
  { unfold send_set_chunk_size. fold z. unfold se_bind at 1. cbn.
    unfold send_rtmp_message, se_bind, get, message_encode, message_to_chunk. cbn. fold r. by destruct r. }
  unfold good_at. rewrite R. split; [|done].
  etrans; [by apply rtc_once, (step_bookkeeping i s (set_out_chunk_size z s))|]. by apply rtc_once.
Qed.

(** Commands of known size. *)
Lemma good_send_command csid c h name id object args n :
  into_message c h = Ok (MCommand h VAmf0 (lit name) id object args) ->
  values_size (OfAmf0 (str (lit name)) :: OfAmf0 (num (i64_to_f64 id)) :: object :: args) = Some n ->
  room csid (h_timestamp h) (h_stream_id h) n ->
  Good i (send_command csid c h).
Proof.
  intros Hc (bs & L & E)%values_encoded Hr. unfold send_command. rewrite Hc.
  change (Good i (send_rtmp_message csid (MCommand h VAmf0 (lit name) id object args))).
  apply (good_send_rtmp_message _ _ bs n); [|done..]. apply (E []).
Qed.

Lemma good_send_amf0 csid stream_id values n :
  scalars_size values = Some n -> room csid 0 stream_id n -> Good i (send_amf0 csid stream_id values).
Proof.
  intros Hn Hr. destruct (encode_all_scalars values 0 n [] [] Hn) as (bs & L & E). unfold send_amf0, Amf0.encode_all.
  rewrite E. apply (good_send_message _ _ _ _ _ TCommandAmf0); [done..|]. destruct Hr as [H1 H2].
  split; [done|]. intros (H3 & H4 & H5)%H2. split_and!; try done. cbn. lia.
Qed.
End handlers.

(** Walk through an operation: the leaves are instances, field updates and events. *)
Ltac fits :=
  split; [unfold csid_wf; lia|]; unfold MAX_MESSAGE_SIZE; cbn -[in_u Z.le]; intros ?; destruct_and?;
  split_and!; first [done | by (unfold in_u; lia) | lia].
Ltac walk := repeat (intros; lazymatch goal with
  | |- Good _ (event _) => apply good_session_event; exact I
  | |- Good _ (upd _) => apply good_upd; intros []; done
  | |- Good _ (se_bind _ _) => apply good_bind
  | |- Good _ (when _ _) => apply good_when
  | |- Good _ (tolerate_amf0 _) => apply good_tolerate
  | |- Good _ (match ?x with _ => _ end) => destruct x
  | |- Good _ (send_message _ _ _ _ _) => eapply good_send_message; [reflexivity|done|fits]
  | |- Good _ (send_command _ _ _) => eapply good_send_command; [reflexivity|reflexivity|fits]
  | |- Good _ (send_amf0 _ _ _) => eapply good_send_amf0; [reflexivity|fits]
  | |- Good _ (send_rtmp_message _ _) => eapply good_send_rtmp_message; [reflexivity|reflexivity|fits|done]
  | |- _ => typeclasses eauto
  end).

#[export] Typeclasses Opaque media_input handle_delete_stream_command handle_publish_command send_null_result
  send_on_bw_done send_connect_result send_create_stream_result handle_get_stream_length_command
  allocate_stream_id emit_result_received emit_on_status_received handle_connect_command
  handle_create_stream_command handle_play_command handle_unstructured_command dispatch_command
  on_command_message_with_version send_message send_rtmp_message send_command send_amf0 event upd push
  send_set_chunk_size se_ret raise get se_bind lift when ignore_error tolerate_amf0 panic se_of payload_values.

#[export] Instance good_result i r : Good i (emit_result_received r).
Proof. unfold emit_result_received. walk. Qed.

#[export] Instance good_on_status i st : Good i (emit_on_status_received st).
Proof. unfold emit_on_status_received. walk. Qed.

#[export] Existing Instance good_set_chunk_size.

(** ** Values are cut from the payload in range *)

Lemma values_loop_eq version : forall fuel buf,
  values_loop fuel version buf = amf_failed (decode_amf_values_loop fuel version buf).
Proof.
  induction fuel as [|fuel IH]; intros [|b buf]; [done..|]. cbn [values_loop decode_amf_values_loop].
  destruct (AmfValue.decode version (b :: buf)) as [[n v]|e] eqn:E; [|done].
  apply amf_decode_shrinks in E. unfold slice_from. cbn [result_bind result_map_err amf_failed fst].
  rewrite (proj2 (Nat.leb_le _ _)) by lia. cbn [result_bind]. rewrite IH.
  by destruct (decode_amf_values_loop _ _ _).
Qed.

Lemma values_in_range fuel version buf : values_loop fuel version buf <> Err Panic.
Proof. rewrite values_loop_eq. by destruct (decode_amf_values_loop _ _ _). Qed.

(** Past a value. *)
Lemma slice_value version buf n v :
  AmfValue.decode version buf = Ok (n, v) -> slice_from buf n = Ok (drop n buf).
Proof. intros E%amf_decode_shrinks. unfold slice_from. by rewrite (proj2 (Nat.leb_le _ _)) by lia. Qed.

Lemma next_in_range {A} version buf (d : A) f : next_value version buf d f <> Err Panic.
Proof.
  unfold next_value. destruct buf as [|b buf]; [done|].
  destruct (AmfValue.decode version (b :: buf)) as [[n v]|e] eqn:E; [|done]. cbn.
  by rewrite (slice_value _ _ _ _ E).
Qed.

Lemma command_in_range p version : decode_session_command p version <> Err Panic.
Proof.
  unfold decode_session_command. destruct p as [|b p]; [done|].
  destruct (normalize_amf_payload _ _) as [buf ver].
  destruct (AmfValue.decode ver buf) as [[n v]|e] eqn:E; [|done]. cbn [amf_failed result_map_err result_bind fst snd].
  rewrite (slice_value _ _ _ _ E). cbn [result_bind].
  match goal with |- context [next_value ver ?b 0 ?f] => pose proof (next_in_range ver b 0 f) as H1;
    destruct (next_value ver b 0 f) as [id|x1]; cbn [result_bind]; [clear H1|by intros [= ->]; apply H1] end.
  match goal with |- context [next_value ver ?b ?d ?f] => pose proof (next_in_range ver b d f) as H2;
    destruct (next_value ver b d f) as [ob|x2]; cbn [result_bind]; [clear H2|by intros [= ->]; apply H2] end.
  match goal with |- context [values_loop ?n ver ?b] => pose proof (values_in_range n ver b) as H3;
    destruct (values_loop n ver b) as [args|x3]; cbn [result_bind]; [done|by intros [= ->]; apply H3] end.
Qed.

(** ** What the peer causes *)

Section peer.
Context (bytes : list byte).
Abbreviation i := (Bytes bytes).

#[local] Instance good_media id ts t p : Good i (media_input id ts t p).
Proof.
  apply (good_gate _ (Media id ts t p)); [by eexists|done|]. intros q. unfold handle_media_input.
  case_bool_decide; [by repeat constructor|]. case_bool_decide; by repeat constructor.
Qed.

#[local] Instance good_delete id : Good i (handle_delete_stream_command id).
Proof. apply (good_gate _ (RtmpPublish.CloseStream id)); [by eexists|done|]. intros q. by repeat constructor. Qed.

#[local] Instance good_publish id name : Good i (handle_publish_command id name).
Proof.
  intros [s out]. split; [|done]. apply rtc_once.
  pose proof (step_gate i s out (RtmpPublish.Publish id)
    [EvPublishRequested id (fst (app_and_url s)) (snd (app_and_url s)) name]) as G.
  apply G; [by eexists|by repeat constructor].
Qed.

#[local] Instance good_null_result txn : Good i (send_null_result txn).
Proof. apply good_ignore. walk. Qed.

#[local] Instance good_bw_done : Good i send_on_bw_done.
Proof. apply good_ignore. walk. Qed.

#[local] Instance good_connect_result txn : Good i (send_connect_result txn).
Proof. unfold send_connect_result. walk. Qed.

#[local] Instance good_create_stream_result txn id : Good i (send_create_stream_result txn id).
Proof. unfold send_create_stream_result. walk. Qed.

#[local] Instance good_get_stream_length id : Good i (handle_get_stream_length_command id).
Proof. unfold handle_get_stream_length_command. walk. Qed.

#[local] Instance good_allocate : Good i allocate_stream_id.
Proof. unfold allocate_stream_id. walk. Qed.

#[local] Instance good_connect app url txn : Good i (handle_connect_command app url txn).
Proof. unfold handle_connect_command. walk. Qed.

#[local] Instance good_create_stream txn : Good i (handle_create_stream_command txn).
Proof. unfold handle_create_stream_command. walk. Qed.

#[local] Instance good_play id name : Good i (handle_play_command id name).
Proof. unfold handle_play_command. walk. Qed.

#[local] Instance good_unstructured command id : Good i (handle_unstructured_command command id).
Proof. unfold handle_unstructured_command. cbn zeta. walk. Qed.

#[local] Instance good_dispatch command id : Good i (dispatch_command command id).
Proof. unfold dispatch_command. cbn zeta. walk. Qed.

#[local] Instance good_payload_values p v : Good i (payload_values p v).
Proof. unfold payload_values. destruct (normalize_amf_payload p v). apply good_of, values_in_range. Qed.

#[local] Instance good_decode p v : Good i (se_of (decode_session_command p v)).
Proof. apply good_of, command_in_range. Qed.

#[local] Instance good_command id p v : Good i (on_command_message_with_version id p v).
Proof. unfold on_command_message_with_version. walk. Qed.

#[local] Instance good_control msg : Good i (handle_control_message msg).
Proof. unfold handle_control_message. walk. Qed.

Lemma notify_allowed stream_id values e : emit_notify_event stream_id values = Some e -> event_allowed i e.
Proof. unfold emit_notify_event. intros H. by repeat (case_match; simplify_eq/=). Qed.

#[local] Instance good_notify v msg : Good i (notify_or_media v msg).
Proof.
  unfold notify_or_media, on_notify_message. intros s. unfold good_at, se_bind at 1 3 5.
  set (m := values <- payload_values _ v ;; se_ret (emit_notify_event _ values)).
  assert (G : Good i m) by (unfold m; walk). destruct (G s) as (G1 & G2 & G3).
  assert (N : forall s' e, m s = (s', Ok (Some e)) -> event_allowed i e).
  { intros s' e. unfold m, se_bind. destruct (payload_values _ v s) as [s1 [l|]]; [|done]. intros [= _ E].
    by eapply notify_allowed. }
  destruct (m s) as [s1 [[e|]|x]]; cbn [fst snd] in *;
    [| |split_and!; [done|by intros [= ->]; apply G2|done]].
  - destruct (good_session_event i e (N _ _ eq_refl) s1) as (H1 & H2 & H3). split; [by etrans|]. by rewrite H3.
  - destruct (good_media (message_stream_id msg) (timestamp msg) Data (payload msg) s1) as (H1 & H2 & H3).
    split; [by etrans|]. by rewrite H3.
Qed.

(** Inside an aggregate every message is shorter, so the nesting ends. *)
Lemma good_aggregate deliver msg : forall fuel pos,
  (forall m, (length (payload m) + 11 <= length (payload msg))%nat -> Good i (deliver m)) ->
  Good i (aggregate_loop deliver fuel msg pos).
Proof.
  induction fuel as [|fuel IH]; intros pos Hd; cbn [aggregate_loop]; [apply _|].
  destruct (Nat.leb_spec (pos + 11) (length (payload msg))) as [L|L]; [|apply _].
  assert (Sl : forall j n, (j + n <= length (payload msg))%nat ->
    slice (payload msg) j n = se_ret (take n (drop j (payload msg)))).
  { intros j n H. unfold slice. by apply Nat.leb_le in H as ->. }
  rewrite !Sl by lia. do 4 apply good_bind_ret. cbn zeta.
  match goal with |- Good _ (if ?b then _ else _) => destruct b eqn:L2; [apply _|] end. apply Nat.ltb_ge in L2.
  rewrite Sl by lia. apply good_bind_ret. destruct (from_type_id _) as [ty|]; [|by apply IH].
  apply good_bind; [apply Hd|intros _; by apply IH]. cbn [payload]. rewrite length_take, length_drop. lia.
Qed.

Lemma good_on_message : forall depth msg,
  (length (payload msg) < depth)%nat -> Good i (on_message_depth depth msg).
Proof.
  induction depth as [|depth IH]; intros msg Hd; [lia|]. cbn [on_message_depth].
  destruct (message_type msg); try apply good_control; walk.
  apply good_aggregate. intros m Hm. apply IH. lia.
Qed.

#[local] Instance good_message msg : Good i (on_message msg).
Proof. apply good_on_message. lia. Qed.

Lemma pump_good (f : RtmpChunk -> core_op unit) : (forall c, Good i (f c)) ->
  forall fuel s buf,
  let '(s', _, r) := pump f loop_error fuel s buf in
  rtc (core_step i) s s' /\ r <> Err Panic /\ input_buf (fst s') = input_buf (fst s).
Proof.
  intros Hf. induction fuel as [|fuel IH]; intros s buf; [by split; [apply rtc_refl|]|].
  cbn [pump]. destruct (ChunkDecoder.decode (get_decoder s) buf) as [d r].
  assert (Hd : rtc (core_step i) s (set_decoder d s)).
  { destruct s as [s out]. by apply rtc_once, step_bookkeeping. }
  assert (Hb : input_buf (fst (set_decoder d s)) = input_buf (fst s)) by by destruct s as [[] ?].
  cbn zeta. destruct r as [[n [c|]]|e].
  - destruct (Hf c (set_decoder d s)) as (H1 & H2 & H3). rewrite Hb in H3.
    destruct (f c (set_decoder d s)) as [s1 [x|e]]; cbn [fst snd] in *.
    + specialize (IH s1 (drop n buf)). destruct (pump f loop_error fuel s1 _) as [[s2 b] r].
      destruct IH as (IH1 & IH2 & IH3). split; [|split; [done|congruence]]. etrans; [exact Hd|]. by etrans.
    + split; [by etrans|]. split; [|done]. by intros [= ->]; apply H2.
  - specialize (IH (set_decoder d s) (drop n buf)). destruct (pump f loop_error fuel _ _) as [[s2 b] r].
    destruct IH as (IH1 & IH2 & IH3). split; [by etrans|]. split; [done|congruence].
  - by destruct (decide _).
Qed.

Lemma fine_ready p s : fine_at i s (process_ready_bytes p).
Proof.
  unfold process_ready_bytes. apply at_seq; [refine ((_ : Good i _) s); walk|]. intros _ s1.
  apply at_seq; [refine ((_ : Good i _) s1); walk|]. intros c s2.
  apply at_seq; [refine ((_ : Good i _) s2); walk|]. intros _ [s3 out].
  apply at_upd; [by apply step_bookkeeping|intros Hw; by apply buf_feed_view|].
  set (s4 := (_, out)). unfold fine_at. destruct (buf_in_range (input_buf (fst s4))) eqn:Er.
  2: { split; [apply rtc_refl|]. intros Hw%buf_in_range_wf. congruence. }
  apply buf_in_range_wf in Er. unfold pump_all. set (buf := buf_get (input_buf (fst s4))).
  pose proof (pump_good on_message _ (S (length buf)) s4 buf) as P.
  destruct (pump _ _ _ s4 _) as [[s5 rest] r]. destruct P as (P1 & P2 & P3). split.
  - etrans; [exact P1|]. destruct s5. by apply rtc_once, step_bookkeeping.
  - intros _. split; [done|]. cbn [fst input_buf set_input_buf]. rewrite P3.
    apply buf_advance_view; [done|]. fold buf. lia.
Qed.

Lemma fine_greeting (remaining : list byte) s :
  fine_at i s (s <- get ;;
          send_set_chunk_size (out_chunk_size s) ;;;
          send_window_ack_size ;;;
          send_set_peer_bandwidth ;;;
          match remaining with [] => se_ret tt | _ => process_ready_bytes remaining end).
Proof.
  unfold send_window_ack_size, send_set_peer_bandwidth.
  apply at_seq; [refine ((_ : Good i _) s); walk|]. intros c s1.
  apply at_seq; [refine ((_ : Good i _) s1); walk|]. intros _ s2.
  apply at_seq; [refine ((_ : Good i _) s2); walk|]. intros _ s3.
  apply at_seq; [refine ((_ : Good i _) s3); walk|]. intros _ s4.
  destruct remaining; [apply at_ret|apply fine_ready].
Qed.

Definition connecting (s : RtmpCore) : Prop := state s = Handshaking \/ state s = WaitC2.

Lemma fine_finish h s out :
  connecting s -> fine_at i (s, out) (finish_handshake h).
Proof.
  intros Hs. unfold finish_handshake. destruct (take_recv_buf h) as [h' remaining].
  apply at_upd; [by apply step_bookkeeping|done|].
  apply at_upd; [apply step_state; split; [exact Hs|by eexists]|done|].
  apply fine_greeting.
Qed.

Section handshake.
Context (complex_handshake : bool) (hmac : list byte -> list byte -> list byte).

Lemma fine_handshake p s out :
  connecting s -> fine_at i (s, out) (try_handshake complex_handshake hmac p).
Proof.
  intros Hs. unfold try_handshake. eapply at_bind; [reflexivity|apply rtc_refl|done|]. cbn [fst].
  destruct (handshake s) as [h|]; [|by apply at_upd; [apply step_state| |apply at_raise]].
  destruct (_ && _); [by apply at_upd; [apply step_state| |apply at_raise]|].
  pose proof (feed_never_panics complex_handshake hmac p h) as Hp.
  destruct (feed_recv_buf complex_handshake hmac p h) as [h' [[]|[e|]]]; [| |done].
  2: { apply at_upd; [by apply step_bookkeeping|done|]. by apply at_upd; [apply step_state| |apply at_raise]. }
  set (final := if is_recv_complete h' then _ else _).
  assert (Hf : forall s1 out1, connecting s1 -> fine_at i (s1, out1) final).
  { intros s1 out1 H1. unfold final. destruct (is_recv_complete h'); [by apply fine_finish|apply at_ret]. }
  destruct (sv_send_buf h') as [|b pending] eqn:Ep.
  { apply at_upd; [by apply step_bookkeeping|done|]. by apply Hf. }
  set (h2 := advance_send_buf _ h'). set (s1 := set_handshake (Server h2) s).
  set (out1 := out ++ [Write (b :: pending)]).
  destruct (decide (state s = Handshaking)) as [E|E].
  - apply (at_bind _ _ (set_state WaitC2 s1, out1) tt); [|etrans; [|etrans]|done|apply Hf; by right].
    + rewrite (bool_decide_true (state s = Handshaking)) by done. done.
    + by apply rtc_once, (step_bookkeeping i s s1).
    + by apply rtc_once, (step_handshake i s1 out (b :: pending)).
    + apply rtc_once, (step_state i s1 out1 WaitC2). split; [done|by eexists].
  - apply (at_bind _ _ (s1, out1) tt); [|etrans|done|by apply Hf].
    + by rewrite (bool_decide_false (state s = Handshaking)).
    + by apply rtc_once, (step_bookkeeping i s s1).
    + by apply rtc_once, (step_handshake i s1 out (b :: pending)).
Qed.

Lemma fine_bytes s out : fine_at i (s, out) (on_bytes complex_handshake hmac bytes).
Proof.
  unfold on_bytes. eapply at_bind; [reflexivity|apply rtc_refl|done|]. cbn [fst].
  destruct (state s) eqn:E; [apply fine_handshake; by left|apply fine_handshake; by right|apply fine_ready|].
  by split; [apply rtc_refl|].
Qed.
End handshake.
End peer.

(** ** Commands of the application *)

#[export] Typeclasses Opaque gate.

Lemma fine_command_app cmd s out : fine_at (Command cmd) (s, out) (on_command cmd).
Proof.
  destruct cmd; cbn [on_command];
    unfold send_accept_play, send_on_status, send_rtmp_sample_access, send_seek_request,
      send_pause_request, send_user_control.
  all: lazymatch goal with
       | |- context [RtmpSession.CloseConnection] => idtac
       | |- fine_at ?j ?s ?m => apply good_fine; refine ((_ : Good j m) s); walk
       end.
  - by apply good_session_event.
  - apply (good_gate _ (Accept stream_id)); [done..|]. intros q. cbn.
    unfold accept_publish, flush_pending_publish_media. case_bool_decide; cbn; [|by constructor].
    by apply Forall_fmap, Forall_true.
  - apply (good_gate _ (Reject stream_id)); [by eexists|done|]. by constructor.
  - apply at_upd; [by apply step_state|done|]. apply at_upd; [by apply step_bookkeeping|done|].
    apply good_fine; apply (good_gate _ RtmpPublish.CloseConnection); [done..|]. intros q. by repeat constructor.
Qed.

(** ** Inputs *)

Section inputs.
Context (complex_handshake : bool) (hmac : list byte -> list byte -> list byte).
Abbreviation handle := (handle_input complex_handshake hmac).

(** The outputs as they are collected, delivered or not. *)
Definition collected (i : CoreInput) (s : RtmpCore) : session * result fault unit :=
  match i with
  | Bytes bytes => on_bytes complex_handshake hmac bytes (s, [])
  | Timeout _ => ((s, []), Ok tt)
  | Command cmd => on_command cmd (s, [])
  end.

Lemma handle_collected i s :
  handle i s = (fst (fst (collected i s)), result_map (fun _ => snd (fst (collected i s))) (snd (collected i s))).
Proof. unfold handle_input. fold (collected i s). by destruct (collected i s) as [[s' out] r]. Qed.

Lemma input_fine i s : fine_at i (s, []) (fun _ => collected i s).
Proof.
  destruct i as [bytes|id|cmd]; cbn [collected].
  - apply fine_bytes.
  - by split; [apply rtc_refl|].
  - apply fine_command_app.
Qed.

Lemma input_steps i s : rtc (core_step i) (s, []) (fst (collected i s)).
Proof. apply input_fine. Qed.

(** A run: the driver ends it at the first error. *)
Fixpoint session_run (s : RtmpCore) (inputs : list CoreInput) : RtmpCore * list CoreOutput :=
  match inputs with
  | [] => (s, [])
  | i :: inputs =>
      match handle i s with
      | (s, Ok out) => let '(s, out') := session_run s inputs in (s, out ++ out')
      | (s, Err _) => (s, [])
      end
  end.

Lemma handle_ok i s s' out : handle i s = (s', Ok out) -> rtc (core_step i) (s, []) (s', out).
Proof.
  rewrite handle_collected. pose proof (input_steps i s) as H. destruct (collected i s) as [[s1 o] [[]|e]]; [|done].
  by intros [= <- <-].
Qed.

Lemma handle_steps i s : exists out, rtc (core_step i) (s, []) (fst (handle i s), out).
Proof.
  rewrite handle_collected. pose proof (input_steps i s) as H. destruct (collected i s) as [[s1 o] r]. by exists o.
Qed.
End inputs.

(** ** Where media comes from *)

Definition owned (p : publish_state) : Prop :=
  forall m, m ∈ pending_media p -> pending_publish p = Some (stream_id m).

Lemma evict_sublist len fuel : forall l bytes, fst (evict fuel len l bytes) `sublist_of` l.
Proof.
  induction fuel as [|fuel IH]; intros l bytes; [done|]. cbn [evict]. destruct (over_limit _ _ _); [|done].
  destruct (remove_last_frame l) as [[x l']|] eqn:E; [|done].
  apply remove_last_some in E as (a & b & -> & -> & _). etrans; [apply IH|].
  apply sublist_app; [done|]. by apply sublist_cons.
Qed.

Lemma owned_empty a p n : owned (mk_publish a p [] n).
Proof. by intros m Hm%elem_of_nil. Qed.

Lemma step_owned p o : owned p -> owned (fst (media_step p o)).
Proof.
  intros H. destruct o as [id ts t d|id|id|id|id|]; cbn [media_step].
  - unfold handle_media_input. case_bool_decide; [done|]. case_bool_decide as Hp; [|done].
    unfold push_pending_publish_media. cbn [fst payload]. destruct (_ <? _); [done|].
    pose proof (evict_sublist (payload_len d) (S (length (pending_media p))) (pending_media p) (pending_media_bytes p)) as E.
    destruct (evict _ _ _ _) as [l b]. cbn [fst] in E. intros m. cbn [pending_media pending_publish].
    intros [Hm|Hm]%elem_of_app; [apply H; by apply (elem_of_sublist l)|].
    by apply list_elem_of_singleton in Hm as ->.
  - apply owned_empty.
  - unfold accept_publish, flush_pending_publish_media. cbn. case_bool_decide; [apply owned_empty|exact H].
  - unfold reject_publish. cbn. case_bool_decide; [apply owned_empty|exact H].
  - unfold RtmpPublish.close_stream. cbn. case_bool_decide; case_bool_decide; try apply owned_empty; exact H.
  - apply owned_empty.
Qed.

(** [allowed] lists the streams that the application has accepted. *)
Definition media_inv (allowed : Z -> Prop) (i : CoreInput) (x : session) : Prop :=
  owned (publish (fst x)) /\
  (forall id, active_publish (publish (fst x)) = Some id -> allowed id) /\
  (forall id ts t p, Event (EvMediaData id ts t p) ∈ snd x ->
     allowed id \/ i = Command (ClientObserveMediaData id ts t p)).

Lemma step_media_inv allowed i x y :
  (forall id, i = Command (AcceptPublish id) -> allowed id) ->
  core_step i x y -> media_inv allowed i x -> media_inv allowed i y.
Proof.
  intros Ha Hs (I1 & I2 & I3). destruct Hs as [s s' out _ _ E|s out e He|s out o es Ho Hes|s out c _|s out size _ c|s out wire _|s out st _];
    cbn [fst snd] in *.
  - by rewrite <- E in I1, I2.
  - split_and!; [done|done|]. intros id ts t p [Hin|Hin]%elem_of_app; [by apply I3|].
    apply list_elem_of_singleton in Hin as [= <-]. by right.
  - split_and!; [by apply step_owned|..].
    + intros id Hid. cbn in Hid. destruct (step_active _ _ _ Hid) as [?| ->]; [by apply I2|by apply Ha].
    + intros id ts t p [Hin|(e & E & Hin)%list_elem_of_fmap]%elem_of_app; [by apply I3|]. left.
      injection E as E. subst e. apply list_elem_of_lookup in Hin as [k Hk].
      destruct (Forall2_lookup_r _ _ _ _ _ Hes Hk) as (m & Hm & Hsh).
      assert (m = MediaData id ts t p) as ->.
      { destruct m; cbn in Hsh; try done; by injection Hsh as -> -> -> ->. }
      apply list_elem_of_lookup_2 in Hm. destruct (step_media _ _ _ _ _ _ I1 Hm) as [?| ->]; [by apply I2|by apply Ha].
  - split_and!; [done|done|]. intros id ts t p [Hin|Hin]%elem_of_app; [by apply I3|].
    by apply list_elem_of_singleton in Hin.
  - split_and!; [done|done|]. intros id ts t p [Hin|Hin]%elem_of_app; [by apply I3|].
    by apply list_elem_of_singleton in Hin.
  - split_and!; [done|done|]. intros id ts t p [Hin|Hin]%elem_of_app; [by apply I3|].
    by apply list_elem_of_singleton in Hin.
  - done.
Qed.

Lemma rtc_inv {A} (R : A -> A -> Prop) (I : A -> Prop) x y :
  (forall x y, R x y -> I x -> I y) -> rtc R x y -> I x -> I y.
Proof. induction 2 as [|x z y Hxz _ IH]; [done|]. intros Hx. by apply IH, (H _ _ Hxz). Qed.

(** ** States *)

Definition rank (st : HandshakeState) : nat :=
  match st with Handshaking => 0 | WaitC2 => 1 | Ready => 2 | Closed => 3 end.

Lemma step_rank i x y : core_step i x y -> (rank (state (fst x)) <= rank (state (fst y)))%nat.
Proof.
  destruct 1 as [s s' out E _ _|s out e He|s out o es Ho Hes|s out c _|s out size _ c|s out wire _|s out st H]; cbn [fst] in *.
  1: by rewrite E.
  all: try done. destruct st; cbn in *; [done|destruct H as [-> _]; cbn; lia| |destruct (state s); cbn; lia].
  destruct H as [[-> | ->] _]; cbn; lia.
Qed.

Lemma steps_rank i x y : rtc (core_step i) x y -> (rank (state (fst x)) <= rank (state (fst y)))%nat.
Proof. induction 1 as [|x z y Hxz _ IH]; [done|]. pose proof (step_rank _ _ _ Hxz). lia. Qed.

(** ** The peer's side

    The chunk reader of a peer, which follows the chunk size and keeps what it reads. *)
Definition read_chunk (c : RtmpChunk) : SE (RtmpChunkDecoder * list RtmpChunk) Error unit := fun s =>
  ((if decide (message_type c = TSetChunkSize)
    then decoder_set_chunk_size (fst s) (RtmpChunkSize_saturating_new (be_val (take 4 (payload c))))
    else fst s, snd s ++ [c]), Ok tt).

Definition peer_reads := pump_all read_chunk (fun e : Error => e).

Definition wire_of (out : list CoreOutput) : list byte :=
  out ≫= fun o => match o with Write wire => wire | Event _ => [] end.

Lemma wire_snoc out o : wire_of (out ++ [o]) = wire_of out ++ match o with Write w => w | Event _ => [] end.
Proof. unfold wire_of. rewrite bind_app. cbn. by rewrite app_nil_r. Qed.

Lemma wire_events out es : wire_of (out ++ (Event <$> es)) = wire_of out.
Proof.
  unfold wire_of. rewrite bind_app. rewrite <- (app_nil_r (out ≫= _)) at 2. f_equal. by induction es.
Qed.

(** [d] is a decoder that has read [wire_of out] from [d0] without an error and without
    waiting for more, and agrees with the encoder. *)
Definition in_step (d0 : RtmpChunkDecoder) (x : session) : Prop :=
  ~ connecting (fst x) /\
  exists d log, peer_reads (d0, []) (wire_of (snd x)) = ((d, log), [], Ok tt) /\
    connection_sim (encoder (fst x)) d.

Lemma in_step_read d0 s out c e :
  in_step d0 (s, out) -> chunk_fits c ->
  (forall d, connection_sim (fst (ChunkEncoder.encode (encoder s) c [])) d ->
     connection_sim e (fst (fst (read_chunk c (d, []))))) ->
  in_step d0 (set_encoder e s, out ++ [Write (snd (ChunkEncoder.encode (encoder s) c []))]).
Proof.
  intros (Hc & d & log & Hr & Hs) Hf He. split; [exact Hc|]. cbn [fst snd encoder set_encoder].
  rewrite wire_snoc. assert (Hs' : connection_sim (encoder s) (get_decoder (d, log))) by exact Hs.
  destruct (pump_encode read_chunk (fun e : Error => e) (encoder s) (d, log) c [] Hs' Hf) as (d1 & H1 & H2).
  rewrite app_nil_r in H2. unfold peer_reads in *. rewrite (pump_split _ _ _ _ _ _ _ Hr), app_nil_l.
  rewrite H2. unfold read_chunk at 1. cbn [set_decoder log_has_decoder fst snd]. rewrite pump_nil.
  eexists _, _. split; [reflexivity|]. exact (He d1 H1).
Qed.

Lemma step_in_step i d0 x y : input_fits i -> core_step i x y -> in_step d0 x -> in_step d0 y.
Proof.
  intros Hi. destruct 1 as [s s' out E1 E2 _|s out e He|s out o es Ho Hes|s out c [Ht Hr]|s out size Hw c|s out wire Hw|s out st H];
    intros I.
  - destruct I as [I1 I2]. unfold in_step, connecting in *. cbn [fst snd] in *. by rewrite E1, E2.
  - destruct I as [I1 I2]. split; [done|]. cbn [fst snd] in *. by rewrite wire_snoc, app_nil_r.
  - destruct I as [I1 I2]. split; [done|]. cbn [fst snd] in *. by rewrite wire_events.
  - apply in_step_read; [done|by apply Hr|]. intros d Hd. unfold read_chunk. by rewrite decide_False.
  - apply in_step_read; [done| |].
    + split; [split; cbn; unfold csid_wf, in_u; lia|]. cbn. rewrite length_be_bytes. unfold MAX_MESSAGE_SIZE. lia.
    + intros d [S1 S2 S3]. unfold read_chunk. cbn [c message_type payload fst].
      rewrite decide_True, take_ge by (rewrite ?length_be_bytes; done).
      unfold chunk_size_wf, CHUNK_SIZE_MIN, CHUNK_SIZE_MAX in Hw.
      rewrite be_val_bytes_small by (unfold in_u; cbn; lia).
      split; cbn; [|lia|exact S3]. unfold RtmpChunkSize_saturating_new, CHUNK_SIZE_MIN, CHUNK_SIZE_MAX. lia.
  - destruct I as [I1 I2]. by destruct (I1 Hw).
  - destruct I as [I1 I2]. split; [|done]. cbn [fst snd] in *. unfold connecting in *. cbn.
    destruct st; cbn in H; [done|tauto|by intros [?|?]..].
Qed.

(** ** Claims *)

(** A session after any inputs, errors included, from the start of either role. *)
Inductive reached (complex_handshake : bool) (hmac : list byte -> list byte -> list byte) : RtmpCore -> Prop :=
| reached_server : reached complex_handshake hmac new
| reached_client : reached complex_handshake hmac new_client
| reached_input i s :
    reached complex_handshake hmac s ->
    reached complex_handshake hmac (fst (handle_input complex_handshake hmac i s)).

Lemma reached_buffer complex_handshake hmac s :
  reached complex_handshake hmac s -> buf_wf (input_buf s).
Proof.
  induction 1 as [| |i s _ IH]; [by apply Nat.leb_le; vm_compute..|].
  rewrite handle_collected. by apply (proj2 (input_fine complex_handshake hmac i s) IH).
Qed.

(** [C7] Nothing makes a session panic. In a session that has begun as a server or a
    client and has had any inputs, whatever bytes arrive next and whatever command is
    given: the receive buffer is cut in range, and so are C1 and S1 where the digests of
    the complex handshake are computed and placed, the values of a command or a data
    message, and the parts of an aggregate; no assertion of the encoders fails, no
    unreachable arm is reached, and nested aggregates end within one call per byte of the
    message. *)
Theorem session_never_panics complex_handshake hmac i s :
  reached complex_handshake hmac s ->
  snd (handle_input complex_handshake hmac i s) <> Err Panic.
Proof.
  intros Hr%reached_buffer. rewrite handle_collected.
  destruct (proj2 (input_fine complex_handshake hmac i s) Hr) as [H _].
  destruct (collected _ _ i s) as [[s' out] [[]|e]]; [done|]. intros [= ->]. by apply H.
Qed.

(** A server with the complex handshake that reads C0 and C1, and then whatever follows. *)
Lemma session_never_panics_witness :
  let hmac := fun _ _ : list byte => replicate 32 x00 in
  let s := fst (handle_input true hmac (Bytes (x03 :: replicate 1536 x01)) new) in
  reached true hmac s /\ sv_phase (match handshake s with Server h => h | Client => server_new end) = P2 /\
  snd (handle_input true hmac (Bytes [x01; x02]) s) <> Err Panic.
Proof.
  intros hmac s. assert (R : reached true hmac s) by (apply reached_input, reached_server).
  split; [exact R|]. split; [vm_compute; reflexivity|].
  apply (session_never_panics true hmac (Bytes [x01; x02]) s R).
Defined.

(** [C13] Media is passed on only for streams that the application has accepted. In any
    run of a session with an empty gate, a media event for a stream comes after an
    [AcceptPublish] of that stream, unless the client driver handed that very media in:
    every prefix of a run is a run. *)
Theorem session_media_accepted complex_handshake hmac s inputs id ts t p :
  publish s = publish_new ->
  Event (EvMediaData id ts t p) ∈ snd (session_run complex_handshake hmac s inputs) ->
  Command (AcceptPublish id) ∈ inputs \/ Command (ClientObserveMediaData id ts t p) ∈ inputs.
Proof.
  intros Hp Hin.
  set (allowed := fun id => Command (AcceptPublish id) ∈ inputs).
  assert (G : forall rest s, (forall x, x ∈ rest -> x ∈ inputs) -> owned (publish s) ->
    (forall id, active_publish (publish s) = Some id -> allowed id) ->
    Event (EvMediaData id ts t p) ∈ snd (session_run complex_handshake hmac s rest) ->
    allowed id \/ Command (ClientObserveMediaData id ts t p) ∈ inputs).
  2: { apply (G inputs s); rewrite ?Hp; [done|apply owned_empty|done|done]. }
  clear Hin Hp s. induction rest as [|i rest IH]; intros s Hsub Ho Ha; cbn [session_run]; [by intros ?%elem_of_nil|].
  destruct (handle_input complex_handshake hmac i s) as [s1 [out|e]] eqn:E; [|by intros ?%elem_of_nil].
  apply handle_ok in E. assert (I : media_inv allowed i (s1, out)).
  { apply (rtc_inv _ _ _ _ (fun x y => step_media_inv allowed i x y ltac:(intros ? ->; apply Hsub; left)) E).
    split_and!; [done..|]. by intros ? ? ? ? ?%elem_of_nil. }
  destruct I as (I1 & I2 & I3). specialize (IH s1). destruct (session_run _ _ s1 rest) as [s2 out'].
  cbn [snd fst] in *. intros [Hin|Hin]%elem_of_app.
  - destruct (I3 _ _ _ _ Hin) as [?|Hi]; [by left|]. right. apply Hsub. rewrite Hi. left.
  - apply IH; [intros x Hx; apply Hsub; by right|done..].
Qed.

(** A session behind the handshake that accepts and then hears audio. *)
Definition demo_core : RtmpCore := set_state Ready (set_encoder encoder_default new_client).
Definition demo_audio : list byte := [x04; x00; x00; x14; x00; x00; x02; x08; x01; x00; x00; x00; xaf; x01].
Definition demo_inputs : list CoreInput := [Command (AcceptPublish 1); Bytes demo_audio].

Lemma session_media_accepted_witness :
  Event (EvMediaData 1 20 Audio [xaf; x01]) ∈ snd (session_run false (fun _ _ => []) demo_core demo_inputs) /\
  (Command (AcceptPublish 1) ∈ demo_inputs \/ Command (ClientObserveMediaData 1 20 Audio [xaf; x01]) ∈ demo_inputs).
Proof.
  assert (H : Event (EvMediaData 1 20 Audio [xaf; x01]) ∈ snd (session_run false (fun _ _ => []) demo_core demo_inputs)).
  { apply (list_elem_of_lookup_2 _ 1). vm_compute. reflexivity. }
  split; [exact H|]. apply (session_media_accepted false (fun _ _ => []) demo_core demo_inputs 1 20 Audio [xaf; x01]).
  - reflexivity.
  - exact H.
Defined.

(** A session only goes forward: from the handshake to [Ready] to [Closed], never
    back. Once closed it stays closed, and further bytes change nothing and cause
    nothing. *)
Theorem session_moves_forward complex_handshake hmac i s :
  let r := handle_input complex_handshake hmac i s in
  (rank (state s) <= rank (state (fst r)))%nat /\
  (state s = Closed -> state (fst r) = Closed /\ forall bytes, i = Bytes bytes -> r = (s, Ok [])).
Proof.
  intros r. destruct (handle_steps complex_handshake hmac i s) as (out & Hs).
  pose proof (steps_rank _ _ _ Hs) as Hr. cbn [fst] in Hr. fold r in Hr. split; [done|].
  intros Hc. split; [rewrite Hc in Hr; destruct (state (fst r)); cbn in Hr; by try lia|].
  intros bytes ->. unfold r, handle_input, on_bytes, se_bind, get. cbn [fst]. by rewrite Hc.
Qed.

(** [C9] Whatever the peer sends, it can read what comes back. Behind the handshake,
    let the peer's decoder agree with the session's encoder. Then everything the session
    writes, for any input whose texts and payloads fit a message, is read by the peer to
    the last byte without an error, through changes of the chunk size too, and both
    agree again. *)
Theorem session_is_readable complex_handshake hmac i s d s' out :
  state s = Ready \/ state s = Closed -> input_fits i -> connection_sim (encoder s) d ->
  handle_input complex_handshake hmac i s = (s', Ok out) ->
  exists d' log, peer_reads (d, []) (wire_of out) = ((d', log), [], Ok tt) /\ connection_sim (encoder s') d'.
Proof.
  intros Hc Hi Hd Hs%handle_ok.
  assert (I : in_step d (s', out)).
  { apply (rtc_inv _ _ _ _ (fun x y => step_in_step i d x y Hi) Hs). split.
    - cbn [fst]. unfold connecting. destruct Hc as [-> | ->]; by intros [?|?].
    - exists d, []. split; [apply pump_nil|done]. }
  apply I.
Qed.

(** A peer that pings. *)
Definition demo_ping : list byte :=
  [x02; x00; x00; x00; x00; x00; x06; x04; x00; x00; x00; x00; x00; x06; x00; x00; x00; x07].

Lemma session_is_readable_witness :
  exists out d' log,
    snd (handle_input false (fun _ _ => []) (Bytes demo_ping) demo_core) = Ok out /\
    peer_reads (decoder_default, []) (wire_of out) = ((d', log), [], Ok tt).
Proof.
  set (i := Bytes demo_ping).
  destruct (handle_input false (fun _ _ => []) i demo_core) as [s' [out|e]] eqn:E.
  2: { exfalso. apply (f_equal snd) in E. vm_compute in E. discriminate E. }
  destruct (session_is_readable false (fun _ _ => []) i demo_core decoder_default s' out) as (d' & log & H & _).
  - left. reflexivity.
  - exact I.
  - exact connection_sim_default.
  - exact E.
  - exists out, d', log. split; [reflexivity|exact H].
Defined.
