(* ===== verification/RtmpConversation.v ===== *)
(** * Two ends of an RTMP connection

    What the commands of a client come to at a server: the sessions of RtmpSession are
    put at both ends of a connection, with everything in between (AMF, messages, chunks)
    as modelled. Also what nested aggregates ask of the stack. *)
From Stdlib Require Import Strings.Byte Strings.String.
From S2P Require Import RtmpPublish Amf3Roundtrip AmfValue Prelude RtmpBytes RtmpTypes ChunkDecoder ChunkEncoder ChunkLoop ChunkRoundtrip Amf Amf3 Amf0 RtmpUserControl RtmpFrames RtmpMessage RtmpCommand RtmpHandshake RtmpSession RtmpSessionSpec.

(** ** A command at the receiver *)

Lemma slice_from_app (b rest : list byte) : slice_from (b ++ rest) (length b) = Ok rest.
Proof.
  unfold slice_from. rewrite length_app, drop_app_length. by rewrite (proj2 (Nat.leb_le _ _)) by lia.
Qed.

(** The session reads the values that the encoder of messages has written. *)
Lemma session_command_survives name id object args :
  AmfValue.encodable (amf_string VAmf0 name) = true -> Z.abs id < 2 ^ 53 ->
  of_version VAmf0 object -> Forall (of_version VAmf0) args ->
  exists bs, emits (encode_command VAmf0 name id object args) bs /\
    decode_session_command bs VAmf0 = Ok (Some (mk_decoded name id (i64_to_f64 id) object args)).
Proof.
  intros Hn Hid [Hv Ho] Ha. destruct (from_f64_of id Hid) as [Hr Hf].
  destruct (value_survives _ Hn) as (bn & En & Dn). cbn [amf_string version_of] in Dn.
  destruct (amf_number_of_version VAmf0 _ Hr) as [Hvi Hi].
  destruct (value_survives _ Hi) as (bi & Ei & Di). rewrite Hvi in Di.
  destruct (value_survives _ Ho) as (bo & Eo & Do). rewrite Hv in Do.
  destruct (amf_values_survive _ _ Ha) as (ba & Ea & Da).
  assert (Pos : forall v b, (forall rest, AmfValue.decode VAmf0 (b ++ rest) = Ok (length b, v)) -> b <> []).
  { intros v b D ->. pose proof (amf_decode_shrinks _ _ _ _ (D [])). cbn in *. lia. }
  pose proof (Pos _ _ Dn) as Pn. pose proof (Pos _ _ Di) as Pi. pose proof (Pos _ _ Do) as Po.
  exists (bn ++ bi ++ bo ++ ba). split.
  { unfold encode_command. repeat apply emits_bind; [exact En|exact Ei|exact Eo|exact Ea]. }
  unfold decode_session_command, normalize_amf_payload.
  assert (Nx : forall {A} (b rest : list byte) (v : AmfValue) (d : A) f,
    b <> [] -> (forall rest, AmfValue.decode VAmf0 (b ++ rest) = Ok (length b, v)) ->
    next_value VAmf0 (b ++ rest) d f = Ok (rest, f v)).
  { intros A b rest v d f Hb D. unfold next_value. rewrite D. cbn [amf_failed result_map_err result_bind fst snd].
    rewrite slice_from_app. cbn [result_bind]. by destruct b. }
  destruct (bn ++ bi ++ bo ++ ba) as [|x l] eqn:El; [by destruct bn|]. rewrite <- El. clear x l El.
  rewrite Dn. cbn [amf_failed result_map_err result_bind fst snd]. rewrite slice_from_app. cbn [result_bind].
  rewrite (Nx Z bi _ _ _ _ Pi Di). cbn [result_bind fst snd].
  rewrite (Nx AmfValue bo _ _ _ _ Po Do). cbn [result_bind fst snd].
  rewrite values_loop_eq. fold (decode_amf_values VAmf0 ba). rewrite Da. cbn [amf_failed result_map_err result_bind].
  change (default 0 (RtmpSession.amf_num (amf_number VAmf0 (i64_to_f64 id)))) with (i64_to_f64 id).
  by rewrite Hf.
Qed.

(** What the session does with each command. *)
Definition on_wire_command (c : RtmpCommand) (id : Z) : core_op unit :=
  match c with
  | Connect c => handle_connect_command (RtmpCommand.app c) (tc_url c) (i64_to_f64 CONNECT)
  | CreateStream txn => handle_create_stream_command (i64_to_f64 txn)
  | GetStreamLength txn _ => handle_get_stream_length_command txn
  | RtmpCommand.Publish _ name => handle_publish_command id name
  | Play _ name _ => handle_play_command id name
  | DeleteStream _ stream_id => handle_delete_stream_command (if stream_id =? 0 then id else stream_id)
  | Result r => emit_result_received r
  | OnStatus st => emit_on_status_received st
  | Ignore _ _ _ => se_ret tt
  end.

Lemma command_arrives c h :
  command_wf c -> in_u 32 (h_stream_id h) -> in_u 32 (h_timestamp h) ->
  exists m payload, into_message c h = Ok m /\ emits (encode_message_payload m) payload /\
    header m = h /\ type_of_message m = TCommandAmf0 /\
    forall csid, on_message (mk_chunk csid (h_stream_id h) TCommandAmf0 (h_timestamp h) payload)
                 = on_wire_command c (h_stream_id h).
Proof.
  intros Hc Hs Ht. destruct (command_message c h Hc Hs Ht) as (name & id & object & args & E & W & N & F).
  destruct W as (_ & _ & W1 & W2 & W3 & W4).
  destruct (session_command_survives name id object args W1 W2 W3 W4) as (bs & Eb & Db).
  exists (MCommand h VAmf0 name id object args), bs. split_and!; [done|exact Eb|done|done|].
  intros csid. unfold on_message. cbn [on_message_depth message_type RtmpTypes.message_stream_id payload].
  unfold on_command_message_with_version. rewrite Db.
  change (dispatch_command (mk_decoded name id (i64_to_f64 id) object args) (h_stream_id h)
          = on_wire_command c (h_stream_id h)).
  unfold dispatch_command. cbn [dc_name dc_transaction_id dc_object dc_args dc_transaction_id_raw].
  assert (Hn : canonical_command_name (to_ascii_lowercase (command_name c)) = Some (command_name c)) by (by destruct c).
  rewrite N, Hn. cbn [mbind option_bind]. rewrite <- N, F. cbn [result_ok].
  assert (Hid : match c with Connect _ => id = CONNECT | _ => True end).
  { destruct c; try done. by injection E as _ <- _ _. }
  destruct c; [rewrite Hid; reflexivity|reflexivity..|destruct Hc].
Qed.

(** ** Handlers that succeed *)

(** What reading goes on with. *)
Definition same_reader (s s' : RtmpCore) : Prop :=
  decoder s' = decoder s /\ input_buf s' = input_buf s /\ state s' = state s.

Definition writes (m : core_op unit) : Prop :=
  forall s out, exists e w, m (s, out) = ((set_encoder e s, out ++ [w]), Ok tt).

Lemma writes_message csid ts ty stream_id p t :
  csid_wf csid -> from_type_id ty = Ok t -> writes (send_message csid ts ty stream_id p).
Proof.
  intros Hc Ht s out. unfold send_message, se_bind. rewrite RtmpChunkStreamId_new_wf, Ht by done. cbn.
  destruct (ChunkEncoder.encode (encoder s) _ []) as [e w]. by exists e, (Write w).
Qed.

Lemma writes_command csid c h name id object args n :
  into_message c h = Ok (MCommand h VAmf0 (lit name) id object args) ->
  values_size (OfAmf0 (str (lit name)) :: OfAmf0 (num (i64_to_f64 id)) :: object :: args) = Some n ->
  csid_wf csid ->
  exists bs, (length bs <= n)%nat /\
    encode_message_payload (MCommand h VAmf0 (lit name) id object args) [] = Some bs /\
    forall s out,
      let r := ChunkEncoder.encode (encoder s) (mk_chunk csid (h_stream_id h) TCommandAmf0 (h_timestamp h) bs) [] in
      send_command csid c h (s, out) = ((set_encoder (fst r) s, out ++ [Write (snd r)]), Ok tt).
Proof.
  intros Hc (bs & L & E)%values_encoded Hi. exists bs. split; [done|]. split; [apply (E [])|].
  intros s out r. unfold send_command. rewrite Hc.
  change (send_rtmp_message csid (MCommand h VAmf0 (lit name) id object args) (s, out)
    = ((set_encoder (fst r) s, out ++ [Write (snd r)]), Ok tt)).
  unfold send_rtmp_message. rewrite RtmpChunkStreamId_new_wf by done.
  unfold se_bind, get, message_encode, message_to_chunk. cbn [fst].
  assert (P : encode_message_payload (MCommand h VAmf0 (lit name) id object args) [] = Some bs) by apply (E []).
  rewrite P. cbn [mbind option_bind header type_of_message]. fold r. by destruct r.
Qed.

Lemma writes_known csid c h name id object args n :
  into_message c h = Ok (MCommand h VAmf0 (lit name) id object args) ->
  values_size (OfAmf0 (str (lit name)) :: OfAmf0 (num (i64_to_f64 id)) :: object :: args) = Some n ->
  csid_wf csid -> writes (send_command csid c h).
Proof.
  intros H1 H2 H3. destruct (writes_command _ _ _ _ _ _ _ _ H1 H2 H3) as (bs & _ & _ & E).
  intros s out. rewrite E. by eexists _, _.
Qed.

Lemma writes_amf0 csid stream_id values n :
  csid_wf csid -> scalars_size values = Some n -> writes (ignore_error (send_amf0 csid stream_id values)).
Proof.
  intros Hc Hn s out. unfold ignore_error, send_amf0, Amf0.encode_all.
  destruct (encode_all_scalars values 0 n [] [] Hn) as (bs & _ & ->). cbn [fmap option_fmap option_map].
  destruct (writes_message csid 0 20 stream_id ([] ++ bs) TCommandAmf0 Hc eq_refl s out) as (e & w & E).
  cbn [e_buf]. rewrite E. by eexists _, _.
Qed.

(** The commands of a client, as the driver gives them. *)
Definition wire_command (cmd : RtmpCoreCommand) : option (Z * RtmpCommand * RtmpMessageHeader) :=
  match cmd with
  | ClientConnect app flash_ver tc_url => Some (3, Connect (mk_connect app flash_ver tc_url), PCM)
  | ClientCreateStream raw => Some (3, CreateStream (from_f64 raw), PCM)
  | ClientPublish id raw name => Some (8, RtmpCommand.Publish (from_f64 raw) name, mk_header id 0)
  | ClientPlay id raw name start => Some (8, Play (from_f64 raw) name start, mk_header id 0)
  | _ => None
  end.

(** What the server is to hear. *)
Definition announced (cmd : RtmpCoreCommand) (sv : RtmpCore) : option RtmpEvent :=
  let '(app, url) := app_and_url sv in
  match cmd with
  | ClientConnect app _ tc_url => Some (EvConnected app tc_url)
  | ClientCreateStream _ => Some (EvStreamCreated (Z.max (next_stream_id sv) 1))
  | ClientPublish id _ name => Some (EvPublishRequested id app url name)
  | ClientPlay id _ name _ => Some (EvPlayRequested id app url name)
  | _ => None
  end.

Lemma writes_connect_result txn : writes (send_connect_result txn).
Proof. eapply writes_known; [reflexivity|reflexivity|unfold csid_wf; lia]. Qed.

Lemma writes_create_stream_result txn id : writes (send_create_stream_result txn id).
Proof. eapply writes_known; [reflexivity|reflexivity|unfold csid_wf; lia]. Qed.

Lemma writes_bw_done : writes send_on_bw_done.
Proof. eapply writes_amf0; [unfold csid_wf; lia|reflexivity]. Qed.

Lemma writes_bind {A} (m : core_op unit) (k : core_op A) s out :
  writes m -> exists e w, (m ;;; k) (s, out) = k (set_encoder e s, out ++ [w]).
Proof. intros H. destruct (H s out) as (e & w & E). exists e, w. unfold se_bind. by rewrite E. Qed.

(** The handler of each announces it and leaves the reader alone. *)
Lemma handler_announces cmd csid c h sv out :
  wire_command cmd = Some (csid, c, h) ->
  exists sv' w e, on_wire_command c (h_stream_id h) (sv, out) = ((sv', out ++ w), Ok tt) /\
    announced cmd sv = Some e /\ Event e ∈ w /\ same_reader sv sv'.
Proof.
  unfold announced. destruct (app_and_url sv) as [a u] eqn:Eau.
  destruct cmd; try done; cbn [wire_command]; intros [= <- <- <-]; cbn [on_wire_command h_stream_id PCM].
  - set (s1 := set_connected (Some app) (Some tc_url) sv).
    destruct (writes_bind _ (send_on_bw_done ;;; event (EvConnected app tc_url)) s1 out
      (writes_connect_result (i64_to_f64 CONNECT))) as (e1 & w1 & E1).
    destruct (writes_bind _ (event (EvConnected app tc_url)) (set_encoder e1 s1) (out ++ [w1]) writes_bw_done)
      as (e2 & w2 & E2).
    eexists _, [w1; w2; Event (EvConnected app tc_url)], _. split; [|split; [reflexivity|]].
    + etrans; [exact E1|]. etrans; [exact E2|]. unfold event, push, se_upd. cbn [fst snd]. rewrite <- !app_assoc. reflexivity.
    + split; [do 2 right; left|done].
  - unfold handle_create_stream_command, allocate_stream_id. 
    set (id := Z.max (next_stream_id sv) 1). set (s1 := set_next_stream_id (if next_stream_id sv + 1 <? 2 ^ 32 then next_stream_id sv + 1 else 1) sv).
    destruct (writes_bind _ (event (EvStreamCreated id)) s1 out
      (writes_create_stream_result (i64_to_f64 (from_f64 transaction_id)) id)) as (e1 & w1 & E1).
    eexists _, [w1; Event (EvStreamCreated id)], _. split; [|split; [reflexivity|]].
    + etrans; [exact E1|]. unfold event, push, se_upd. cbn [fst snd]. rewrite <- !app_assoc. reflexivity.
    + split; [right; left|done].
  - exists (set_publish (fst (start_pending_publish stream_id (publish sv))) sv).
    eexists [Event _], _. split; [|split; [reflexivity|split; [left|done]]].
    change a with (fst (a, u)). change u with (snd (a, u)) at 2. rewrite <- Eau. reflexivity.
  - eexists sv, [Event _], _. split; [|split; [reflexivity|split; [left|done]]].
    change a with (fst (a, u)). change u with (snd (a, u)) at 2. rewrite <- Eau. reflexivity.
Qed.

(** ** One message between two sessions *)

(** The session as it goes into the loop: the bytes are in the buffer, an
    acknowledgement may have been written. *)
Definition fed (wire : list byte) (sv sv1 : RtmpCore) : Prop :=
  decoder sv1 = decoder sv /\ input_buf sv1 = buf_feed (input_buf sv) wire /\ state sv1 = state sv /\
  next_stream_id sv1 = next_stream_id sv /\ app_and_url sv1 = app_and_url sv.

Lemma ready_feeds wire sv :
  buf_wf (input_buf sv) ->
  exists sv1 acks, fed wire sv sv1 /\
    process_ready_bytes wire (sv, []) =
      (let buf := buf_get (input_buf sv1) in
       let '(st, rest, r) := pump_all on_message loop_error (sv1, acks) buf in
       ((set_input_buf (buf_advance (input_buf (fst st)) (length buf - length rest)) (fst st), snd st), r)).
Proof.
  intros Hb. assert (Hr : buf_in_range (buf_feed (input_buf sv) wire) = true)
    by (apply buf_in_range_wf; by apply buf_feed_view).
  unfold process_ready_bytes. set (n := wrap_u 64 (total_bytes_received sv + Z.of_nat (length wire))).
  set (s0 := set_total_bytes_received n sv). set (s1 := set_last_ack_sent n s0).
  destruct (writes_message 2 0 3 0 (be_bytes 4 (Z.land n 0xFFFFFFFF)) TAck ltac:(unfold csid_wf; lia) eq_refl s1 [])
    as (e & w & E).
  unfold se_bind at 1. change (upd _ (sv, [])) with ((s0, [] : list CoreOutput), Ok tt : result fault unit). cbv iota.
  unfold se_bind at 1, get. cbn [fst]. cbv zeta.
  change (total_bytes_received s0) with n.
  destruct (_ <? _).
  - exists (set_input_buf (buf_feed (input_buf sv) wire) (set_encoder e s1)), [w]. split; [by split_and!|].
    unfold se_bind at 1. cbn [when].
    assert (Ew : (upd (set_last_ack_sent n) ;;; send_message 2 0 3 0 (be_bytes 4 (Z.land n 0xFFFFFFFF))) (s0, [])
      = ((set_encoder e s1, [w]), Ok tt)) by exact E.
    rewrite Ew. unfold se_bind, upd, se_upd. cbn [fst snd].
    change (buf_in_range _) with (buf_in_range (buf_feed (input_buf sv) wire)). by rewrite Hr.
  - exists (set_input_buf (buf_feed (input_buf sv) wire) s0), []. split; [by split_and!|].
    unfold se_bind, upd, se_upd, when, se_ret. cbn [fst snd].
    change (buf_in_range _) with (buf_in_range (buf_feed (input_buf sv) wire)). by rewrite Hr.
Qed.

(** The client writes one message. *)
Lemma client_writes cmd csid c h cl :
  wire_command cmd = Some (csid, c, h) -> cmd_fits cmd ->
  exists cl0 m bs, encoder cl0 = encoder cl /\ into_message c h = Ok m /\
    encode_message_payload m [] = Some bs /\ Z.of_nat (length bs) <= MAX_MESSAGE_SIZE /\ csid_wf csid /\
    let r := ChunkEncoder.encode (encoder cl) (mk_chunk csid (h_stream_id h) TCommandAmf0 (h_timestamp h) bs) [] in
    on_command cmd (cl, []) = ((set_encoder (fst r) cl0, [Write (snd r)]), Ok tt).
Proof.
  intros Hw Hf.
  assert (P : forall cl0 name id object args n,
    encoder cl0 = encoder cl -> into_message c h = Ok (MCommand h VAmf0 (lit name) id object args) ->
    values_size (OfAmf0 (str (lit name)) :: OfAmf0 (num (i64_to_f64 id)) :: object :: args) = Some n ->
    Z.of_nat n <= MAX_MESSAGE_SIZE -> csid_wf csid -> on_command cmd (cl, []) = send_command csid c h (cl0, []) ->
    exists cl0 m bs, encoder cl0 = encoder cl /\ into_message c h = Ok m /\
      encode_message_payload m [] = Some bs /\ Z.of_nat (length bs) <= MAX_MESSAGE_SIZE /\ csid_wf csid /\
      let r := ChunkEncoder.encode (encoder cl) (mk_chunk csid (h_stream_id h) TCommandAmf0 (h_timestamp h) bs) [] in
      on_command cmd (cl, []) = ((set_encoder (fst r) cl0, [Write (snd r)]), Ok tt)).
  { intros cl0 name id object args n E1 E2 E3 Hn Hc E4.
    destruct (writes_command csid c h name id object args n E2 E3 Hc) as (bs & L & Ep & Es).
    exists cl0, (MCommand h VAmf0 (lit name) id object args), bs. split_and!; try done; [lia|].
    rewrite E4, Es, E1. done. }
  unfold MAX_MESSAGE_SIZE in *. destruct cmd; try done; injection Hw as <- <- <-; cbn in Hf; destruct_and?.
  - eapply (P cl); [reflexivity|reflexivity|reflexivity|cbn; lia|unfold csid_wf; lia|reflexivity].
  - eapply (P (set_client_create (Some (from_f64 transaction_id)) cl));
      [reflexivity|reflexivity|reflexivity|cbn; lia|unfold csid_wf; lia|reflexivity].
  - eapply (P (set_client_pending_action (Some PendingPublish) cl));
      [reflexivity|reflexivity|reflexivity|cbn; lia|unfold csid_wf; lia|reflexivity].
  - eapply (P (set_client_pending_action (Some PendingPlay) cl));
      [reflexivity|reflexivity|reflexivity|cbn; lia|unfold csid_wf; lia|reflexivity].
Qed.

(** ** Claims *)

(** [C8] The commands of a client reach a server. Let the encoder of the client's
    session agree with the decoder of a server's session that is [Ready] with nothing
    unread. A [connect], [createStream], [publish] or [play] command with texts that are
    valid and fit a message makes the client write one piece of wire; given these bytes,
    the server announces the very command to its application (the app and URL of the
    connection, the stream id it allocates, the name of the stream), writes what answer
    there is, and both agree again. *)
Theorem client_command_arrives complex_handshake hmac cmd csid c h cl sv :
  wire_command cmd = Some (csid, c, h) -> command_wf c -> in_u 32 (h_stream_id h) -> cmd_fits cmd ->
  state sv = Ready -> buf_wf (input_buf sv) -> buf_get (input_buf sv) = [] ->
  connection_sim (encoder cl) (decoder sv) ->
  exists cl' wire sv' out e,
    handle_input complex_handshake hmac (Command cmd) cl = (cl', Ok [Write wire]) /\
    handle_input complex_handshake hmac (Bytes wire) sv = (sv', Ok out) /\
    announced cmd sv = Some e /\ Event e ∈ out /\
    connection_sim (encoder cl') (decoder sv') /\ state sv' = Ready /\
    buf_wf (input_buf sv') /\ buf_get (input_buf sv') = [].
Proof.
  intros Hw Hc Hs Hf Hr Hb Hg Hsim.
  destruct (client_writes cmd csid c h cl Hw Hf) as (cl0 & m & bs & _ & Em & Eb & Lb & Hcs & Ecl). cbv zeta in Ecl.
  assert (Ht : in_u 32 (h_timestamp h)).
  { destruct cmd; try done; injection Hw as _ _ <-; unfold in_u; cbn; lia. }
  destruct (command_arrives c h Hc Hs Ht) as (m' & bs' & Em' & Eb' & _ & _ & Hon).
  assert (m' = m) as -> by congruence. specialize (Eb' []). rewrite Eb in Eb'. injection Eb' as <-.
  set (ch := mk_chunk csid (h_stream_id h) TCommandAmf0 (h_timestamp h) bs) in *.
  set (r := ChunkEncoder.encode (encoder cl) ch []) in *.
  destruct (ready_feeds (snd r) sv Hb) as (sv1 & acks & (F1 & F2 & F3 & F4 & F5) & Ep).
  destruct (buf_feed_view (input_buf sv) (snd r) Hb) as [Hb1 Hv1]. rewrite Hg, app_nil_l in Hv1. rewrite <- F2 in Hb1, Hv1.
  assert (Hsim' : connection_sim (encoder cl) (get_decoder (sv1, acks))) by (cbn; by rewrite F1).
  destruct (pump_encode on_message loop_error (encoder cl) (sv1, acks) ch [] Hsim' ltac:(by split)) as (d & Hd & Epm).
  fold r in Hd, Epm. rewrite app_nil_r in Epm. cbn [set_decoder core_has_decoder fst snd] in Epm.
  assert (Eo : on_message ch = on_wire_command c (h_stream_id h)) by apply Hon. rewrite Eo in Epm.
  destruct (handler_announces cmd csid c h (put_decoder d sv1) acks Hw) as (sv2 & w & e & Eh & Ea & Hin & S1 & S2 & S3).
  rewrite Eh in Epm. rewrite pump_nil in Epm. rewrite Hv1 in Ep. cbv zeta in Ep. rewrite Epm in Ep.
  cbn [fst snd length] in Ep. rewrite Nat.sub_0_r in Ep.
  destruct (buf_advance_view (input_buf sv2) (length (snd r))) as [Hb2 Hv2].
  { rewrite S2. exact Hb1. }
  { rewrite S2. cbn [put_decoder input_buf]. by rewrite Hv1. }
  eexists _, _, _, _, e. split; [unfold handle_input; rewrite Ecl; reflexivity|].
  split; [unfold handle_input, on_bytes, se_bind, get; cbn [fst]; rewrite Hr, Ep; reflexivity|].
  split_and!.
  - rewrite <- Ea. unfold announced. change (app_and_url (put_decoder d sv1)) with (app_and_url sv1). rewrite F5.
    destruct (app_and_url sv). by cbn; rewrite F4.
  - apply elem_of_app. by right.
  - cbn [encoder set_encoder decoder set_input_buf]. by rewrite S1.
  - cbn [state set_input_buf]. rewrite S3. cbn [state put_decoder]. by rewrite F3.
  - exact Hb2.
  - cbn [input_buf set_input_buf]. rewrite Hv2, S2. cbn [put_decoder input_buf]. rewrite Hv1. apply drop_all.
Qed.

Lemma client_command_arrives_witness :
  exists wire sv' out,
    handle_input false (fun _ _ => []) (Bytes wire) demo_core = (sv', Ok out) /\
    Event (EvPublishRequested 1 (lit "live") (lit "rtmp:///live") (lit "camera")) ∈ out.
Proof.
  destruct (client_command_arrives false (fun _ _ => []) (ClientPublish 1 (i64_to_f64 4) (lit "camera")) 8
    (RtmpCommand.Publish 4 (lit "camera")) (mk_header 1 0) demo_core demo_core)
    as (cl' & wire & sv' & out & e & _ & H & He & Hin & _).
  - reflexivity.
  - split; reflexivity.
  - split; [discriminate|reflexivity].
  - split; [split; [discriminate|reflexivity]|discriminate].
  - reflexivity.
  - apply Nat.le_refl.
  - reflexivity.
  - exact connection_sim_default.
  - exists wire, sv', out. split; [exact H|]. injection He as <-. exact Hin.
Defined.

(** A whole connection, from the first byte: the handshake in two pieces, the commands
    that open the client's session, then a publish that the application accepts and
    media before and after. Chunk sizes differ until the server has said its own. *)
Definition client_wire (cmds : list RtmpCoreCommand) : list byte :=
  wire_of (snd (session_run false (fun _ _ => []) new_client (Command <$> cmds))).

Definition events_of (out : list CoreOutput) : list RtmpEvent :=
  omap (fun o => match o with Event e => Some e | Write _ => None end) out.

Example whole_connection :
  let c0c1 := x03 :: repeat x00 1536 in
  let c2 := repeat x00 1536 in
  let sent := client_wire [SetWindowAckSize 5000000; SetPeerBandwidth 5000000; SetChunkSize 60000;
                           ClientConnect (lit "live") (lit "test") (lit "rtmp://h/live");
                           ClientCreateStream (i64_to_f64 2); ClientPublish 1 (i64_to_f64 3) (lit "camera");
                           SendAudio 1 0 [xaf; x00; x12]] in
  let more := [x04; x00; x00; x14; x00; x00; x03; x08; x01; x00; x00; x00; xaf; x01; x21] in
  let '(s, out) := session_run false (fun _ _ => []) new
    [Bytes (take 1000 c0c1); Bytes (drop 1000 c0c1); Bytes (c2 ++ take 30 sent); Bytes (drop 30 sent);
     Command (AcceptPublish 1); Bytes more; Command CloseConnection; Bytes more] in
  state s = Closed /\
  events_of out =
    [EvPeerAckWindowUpdated 5000000; EvLocalAckWindowUpdated 5000000; EvConnected (lit "live") (lit "rtmp://h/live");
     EvStreamCreated 1; EvPublishRequested 1 (lit "live") (lit "rtmp://h/live") (lit "camera");
     EvMediaData 1 0 Audio [xaf; x00; x12]; EvMediaData 1 20 Audio [xaf; x01; x21]; EvPeerClosed].
Proof. vm_compute. by split. Qed.

(** ** Nested aggregates *)

(** [n] aggregate messages inside each other, the innermost empty. *)
Fixpoint nest (n : nat) : list byte :=
  match n with
  | O => []
  | S n => [byte_of 22] ++ be_bytes 3 (Z.of_nat (length (nest n))) ++ repeat x00 7 ++ nest n
  end.

Lemma length_nest n : length (nest n) = (11 * n)%nat.
Proof. induction n as [|n IH]; [done|]. cbn [nest]. rewrite !length_app, length_be_bytes, repeat_length, IH. cbn. lia. Qed.

Definition aggregate (csid stream_id : Z) (n : nat) : RtmpChunk :=
  mk_chunk csid stream_id TAggregate 0 (nest n).

Lemma bind_ret {A B} (a : A) (k : A -> core_op B) : se_bind (se_ret a) k = k a.
Proof. reflexivity. Qed.

Lemma nest_turn deliver csid id n fuel :
  Z.of_nat (11 * n) < 2 ^ 24 ->
  aggregate_loop deliver (S fuel) (aggregate csid id (S n)) 0 =
    (deliver (aggregate csid id n) ;;; aggregate_loop deliver fuel (aggregate csid id (S n)) (11 * S n)).
Proof.
  intros Hn. cbn [aggregate_loop aggregate payload chunk_stream_id RtmpTypes.message_stream_id timestamp].
  set (p := nest (S n)). assert (Lp : length p = (11 * S n)%nat) by apply length_nest.
  assert (Ep : p = [byte_of 22] ++ be_bytes 3 (Z.of_nat (length (nest n))) ++ repeat x00 7 ++ nest n) by done.
  assert (Sl : forall i k, (i + k <= length p)%nat -> slice p i k = se_ret (take k (drop i p))).
  { intros i k H. unfold slice. by apply Nat.leb_le in H as ->. }
  rewrite (proj2 (Nat.leb_le _ _)) by lia. rewrite !Sl by lia.
  assert (E1 : take 1 (drop 0 p) = [byte_of 22]) by done.
  assert (E2 : take 3 (drop (0 + 1) p) = be_bytes 3 (Z.of_nat (11 * n))).
  { rewrite Ep, length_nest. cbn [Nat.add drop]. apply take_app_length'. by rewrite length_be_bytes. }
  assert (D : drop (0 + 4) p = repeat x00 7 ++ nest n).
  { rewrite Ep. change (drop (0 + 4) _) with (drop 3 (be_bytes 3 (Z.of_nat (length (nest n))) ++ repeat x00 7 ++ nest n)).
    apply drop_app_length'. by rewrite length_be_bytes. }
  assert (E3 : take 3 (drop (0 + 4) p) = [x00; x00; x00]) by by rewrite D.
  assert (E4 : take 1 (drop (0 + 7) p) = [x00]).
  { change (0 + 7)%nat with (0 + 4 + 3)%nat. rewrite <- drop_drop, D. done. }
  assert (E5 : drop (0 + 11) p = nest n).
  { change (0 + 11)%nat with (0 + 4 + 7)%nat. rewrite <- drop_drop, D. done. }
  rewrite E1, E2, E3, E4, !bind_ret. rewrite be_val_bytes_small by (unfold in_u; cbn; lia). rewrite Nat2Z.id.
  rewrite (proj2 (Nat.ltb_ge _ _)) by lia. rewrite Sl by lia. rewrite bind_ret, E5.
  rewrite take_ge by (rewrite length_nest; lia).
  change (from_type_id (be_val [byte_of 22])) with (Ok TAggregate : result Error RtmpMessageType).
  rewrite (proj2 (Nat.leb_gt _ _)) by lia.
  replace (0 + 11 + 11 * n)%nat with (11 * S n)%nat by lia. reflexivity.
Qed.

Lemma nest_end deliver csid id n fuel :
  aggregate_loop deliver fuel (aggregate csid id n) (11 * n) = se_ret tt.
Proof.
  destruct fuel as [|fuel]; [done|]. cbn [aggregate_loop aggregate payload]. rewrite length_nest.
  by rewrite (proj2 (Nat.leb_gt _ _)) by lia.
Qed.

Lemma nest_depth csid id d : forall n s,
  Z.of_nat (11 * n) < 2 ^ 24 ->
  on_message_depth d (aggregate csid id n) s = if (n <? d)%nat then (s, Ok tt) else (s, Err Panic).
Proof.
  induction d as [|d IH]; intros n s Hn; [done|]. cbn [on_message_depth aggregate message_type].
  fold (aggregate csid id n). unfold on_aggregate_message. cbn [payload aggregate]. rewrite length_nest.
  fold (aggregate csid id n). destruct n as [|n].
  { change (11 * 0)%nat with 0%nat at 1. done. }
  replace (11 * S n)%nat with (S (11 * n + 10)) at 1 by lia. rewrite nest_turn by lia.
  unfold se_bind. rewrite IH by lia. change (S n <? S d)%nat with (n <? d)%nat.
  destruct (n <? d)%nat; [|done]. by rewrite nest_end.
Qed.

(** Only the size of a message bounds how deep aggregates nest. A message of
    [11 * n] bytes, which the decoder lets through for every [n] up to 762600, can hold
    [n] aggregates inside each other: handling it takes [n + 1] nested calls, no fewer,
    and has no other effect. *)
Theorem aggregates_nest csid stream_id n s :
  Z.of_nat n <= 762600 ->
  Z.of_nat (length (payload (aggregate csid stream_id n))) <= MAX_MESSAGE_SIZE /\
  on_message (aggregate csid stream_id n) s = (s, Ok tt) /\
  forall depth, on_message_depth depth (aggregate csid stream_id n) s = (s, Ok tt) <-> (n < depth)%nat.
Proof.
  intros Hn. assert (Hl : Z.of_nat (11 * n) < 2 ^ 24) by (change (2 ^ 24) with 16777216; lia).
  cbn [aggregate payload]. rewrite length_nest. split; [unfold MAX_MESSAGE_SIZE; lia|].
  split.
  - unfold on_message. cbn [aggregate payload]. rewrite length_nest. fold (aggregate csid stream_id n).
    rewrite nest_depth by done. by rewrite (proj2 (Nat.ltb_lt _ _)) by lia.
  - intros depth. rewrite nest_depth by done. destruct (Nat.ltb_spec n depth); split; [done|done|done|lia].
Qed.

Lemma aggregates_nest_witness :
  on_message (aggregate 3 1 1000) (new_client, []) = ((new_client, []), Ok tt) /\
  on_message_depth 1000 (aggregate 3 1 1000) (new_client, []) <> ((new_client, []), Ok tt).
Proof.
  destruct (aggregates_nest 3 1 1000 (new_client, [])) as (_ & H1 & H2).
  - vm_compute. discriminate.
  - split; [exact H1|]. intros H. apply H2 in H. exact (Nat.lt_irrefl _ H).
Defined.
