(* ===== verification/Rtp.v ===== *)
(** * RTP packets

    Models [crates/foundation/cheetah-codec/src/rtp.rs]: the RTP header and packet
    codec (RFC 3550), the two framings of RTP over TCP and their detection, the plain
    packetizers, the reassembly of a payload from packets in any order, the clock
    conversions, and the decoder of the Ehome stream format. *)
From Stdlib Require Import Strings.Byte Strings.String Sorting.Sorted.
From stdpp Require Import sorting.
From S2P Require Import Prelude RtmpBytes.

(** ** Header and packet *)

Record RtpHeader : Set := mk_header {
  version : Z;
  payload_type : Z;
  sequence_number : Z;
  timestamp : Z;
  ssrc : Z;
  marker : bool
}.

Record RtpPacket : Set := mk_packet { header : RtpHeader; payload : list byte }.

#[export] Instance RtpHeader_eq_dec : EqDecision RtpHeader.
Proof. solve_decision. Defined.
#[export] Instance RtpPacket_eq_dec : EqDecision RtpPacket.
Proof. solve_decision. Defined.

(** [raw[i]] of a slice whose length has been checked. *)
Definition at_ (raw : list byte) (i : nat) : Z := byte_val (nth i raw x00).
(** [&raw[i..i + n]] under the same condition. *)
Definition sub_ (i n : nat) (raw : list byte) : list byte := take n (drop i raw).

(** [RtpHeader::parse]. *)
Definition header_parse (raw : list byte) : option (RtpHeader * nat) :=
  if (length raw <? 12)%nat then None else
  let ver := Z.shiftr (at_ raw 0) 6 in
  let has_padding := negb (Z.land (at_ raw 0) 0x20 =? 0) in
  let has_extension := negb (Z.land (at_ raw 0) 0x10 =? 0) in
  let csrc_count := Z.to_nat (Z.land (at_ raw 0) 0x0f) in
  let mark := negb (Z.land (at_ raw 1) 0x80 =? 0) in
  let ptype := Z.land (at_ raw 1) 0x7f in
  let offset := (12 + csrc_count * 4)%nat in
  if (length raw <? offset)%nat then None else
  match (if has_extension then
           if (length raw <? offset + 4)%nat then None else
           let ext_len_words := Z.to_nat (be_val (sub_ (offset + 2) 2 raw)) in
           let offset := (offset + (4 + ext_len_words * 4))%nat in
           if (length raw <? offset)%nat then None else Some offset
         else Some offset) with
  | None => None
  | Some offset =>
      if has_padding && (length raw <=? offset)%nat then None else
      Some (mk_header ver ptype (be_val (sub_ 2 2 raw)) (be_val (sub_ 4 4 raw))
              (be_val (sub_ 8 4 raw)) mark, offset)
  end.

(** [RtpHeader::encode]. *)
Definition header_encode (h : RtpHeader) : list byte :=
  [byte_of (Z.shiftl (Z.land (version h) 0x03) 6);
   byte_of (Z.lor (Z.shiftl (Z.b2z (marker h)) 7) (Z.land (payload_type h) 0x7f))]
  ++ be_bytes 2 (sequence_number h) ++ be_bytes 4 (timestamp h) ++ be_bytes 4 (ssrc h).

(** [RtpPacket::parse]. *)
Definition packet_parse (raw : list byte) : option RtpPacket :=
  match header_parse raw with
  | None => None
  | Some (h, header_len) =>
      match (if Z.land (at_ raw 0) 0x20 =? 0 then Some (length raw) else
             match last raw with
             | None => None
             | Some b => let pad_len := Z.to_nat (byte_val b) in
                 if (length raw <? pad_len)%nat then None else Some (length raw - pad_len)%nat
             end) with
      | None => None
      | Some payload_end =>
          if (payload_end <? header_len)%nat then None else
          Some (mk_packet h (sub_ header_len (payload_end - header_len) raw))
      end
  end.

Definition packet_encode (p : RtpPacket) : list byte := header_encode (header p) ++ payload p.

(** ** Clock *)

(** Division of Rust truncates; both operands are non-negative here. *)
Definition ticks_to_micros (rate ticks : Z) : Z :=
  if rate =? 0 then 0 else ticks * 1000000 / rate.

Definition micros_to_ticks (rate micros : Z) : Z :=
  if (rate =? 0) || (micros <=? 0) then 0 else wrap_u 32 (micros * rate / 1000000).

(** ** Packetizing

    [cursor] shrinks by at least one byte per turn, so its length is fuel enough. *)

Definition payload_mtu (mtu : nat) : nat := Nat.max (mtu - 12) 1.

Fixpoint packetize_loop (fuel chunk_max : nat) (h : RtpHeader) (seq : Z) (cursor : list byte) :
    list RtpPacket :=
  match fuel with
  | O => []
  | S fuel =>
      match cursor with
      | [] => []
      | _ =>
          let take_len := Nat.min (length cursor) chunk_max in
          let chunk := take take_len cursor in
          let cursor := drop take_len cursor in
          mk_packet (mk_header (version h) (payload_type h) seq (timestamp h) (ssrc h)
                       (bool_decide (cursor = []))) chunk
          :: packetize_loop fuel chunk_max h (wrap_u 16 (seq + 1)) cursor
      end
  end.

Definition packetize_payload (bs : list byte) (mtu : nat) (h : RtpHeader) : list RtpPacket :=
  packetize_loop (length bs) (payload_mtu mtu) h (sequence_number h) bs.

Fixpoint packetize_g711_loop (fuel chunk_bytes : nat) (h : RtpHeader) (seq ts : Z)
    (cursor : list byte) : list RtpPacket :=
  match fuel with
  | O => []
  | S fuel =>
      match cursor with
      | [] => []
      | _ =>
          let take_len := Nat.min (length cursor) chunk_bytes in
          mk_packet (mk_header (version h) (payload_type h) seq ts (ssrc h) false)
            (take take_len cursor)
          :: packetize_g711_loop fuel chunk_bytes h (wrap_u 16 (seq + 1))
               (wrap_u 32 (ts + Z.of_nat take_len)) (drop take_len cursor)
      end
  end.

(** [samples_per_packet.clamp(1, 1400)]; the product is in [u64]. *)
Definition g711_chunk_bytes (sample_rate packet_duration_ms : Z) : nat :=
  Z.to_nat (Z.max 1 (Z.min 1400 (sample_rate * Z.max packet_duration_ms 1 / 1000))).

Definition packetize_g711 (bs : list byte) (sample_rate packet_duration_ms : Z) (h : RtpHeader) :
    list RtpPacket :=
  packetize_g711_loop (length bs) (g711_chunk_bytes sample_rate packet_duration_ms) h
    (sequence_number h) (timestamp h) bs.

(** ** Reassembly *)

Definition seq_of (p : RtpPacket) : Z := sequence_number (header p).

(** [sort_by_key] is stable: an element goes before the first later one whose key is not
    smaller. *)
Fixpoint insert_by_key {A} (key : A -> Z) (x : A) (l : list A) : list A :=
  match l with
  | [] => [x]
  | y :: l' => if key x <=? key y then x :: l else y :: insert_by_key key x l'
  end.

Fixpoint sort_by_key {A} (key : A -> Z) (l : list A) : list A :=
  match l with
  | [] => []
  | x :: l => insert_by_key key x (sort_by_key key l)
  end.

(** The loop over [0..(packets.len() - 1)]: the largest gap and the place of the first one. *)
Fixpoint largest_gap_loop (seqs : list Z) (idx : nat) (largest_gap : Z) (split_after : nat) :
    Z * nat :=
  match seqs with
  | curr :: (next :: _) as rest =>
      let gap := wrap_u 16 (next - curr) in
      if largest_gap <? gap then largest_gap_loop rest (S idx) gap idx
      else largest_gap_loop rest (S idx) largest_gap split_after
  | _ => (largest_gap, split_after)
  end.

(** Where the sorted sequence numbers are cut open; [saturating_sub] is in [u32]. *)
Definition split_start (seqs : list Z) : nat :=
  let n := length seqs in
  let '(largest_gap, split_after) := largest_gap_loop seqs 0 0 (n - 1) in
  let first := default 0 (head seqs) in
  let last_ := default 0 (last seqs) in
  let wrap_gap := Z.max 0 (65535 + 1 + first - last_) in
  let split_after := if largest_gap <? wrap_gap then (n - 1)%nat else split_after in
  ((split_after + 1) mod n)%nat.

Definition rotate_left {A} (k : nat) (l : list A) : list A := drop k l ++ take k l.

Definition depacketize_payload (packets : list RtpPacket) : list byte :=
  match packets with
  | [] => []
  | _ =>
      let packets := sort_by_key seq_of packets in
      let packets := if (1 <? length packets)%nat
                     then rotate_left (split_start (map seq_of packets)) packets
                     else packets in
      concat (map payload packets)
  end.

(** ** RTP over TCP *)

Definition parse_tcp_rtp_frame (raw : list byte) : option (RtpPacket * nat) :=
  if (length raw <? 2)%nat then None else
  let len := Z.to_nat (be_val (sub_ 0 2 raw)) in
  if (length raw <? 2 + len)%nat then None else
  match packet_parse (sub_ 2 len raw) with
  | None => None
  | Some p => Some (p, (2 + len)%nat)
  end.

Definition encode_tcp_rtp_frame (p : RtpPacket) : list byte :=
  be_bytes 2 (Z.of_nat (length (packet_encode p))) ++ packet_encode p.

Definition encode_tcp_rtcp_frame (data : list byte) : list byte :=
  be_bytes 2 (Z.of_nat (length data)) ++ data.

Inductive RtpTcpFraming : Set := TwoByte | Interleaved4Byte | AutoDetect.

(** [b'$'] is 0x24. *)
Definition parse_interleaved_rtp_frame (raw : list byte) : option (RtpPacket * Z * nat) :=
  if (length raw <? 4)%nat then None else
  if negb (at_ raw 0 =? 0x24) then None else
  let channel := at_ raw 1 in
  let len := Z.to_nat (be_val (sub_ 2 2 raw)) in
  if (length raw <? 4 + len)%nat then None else
  match packet_parse (sub_ 4 len raw) with
  | None => None
  | Some p => Some (p, channel, (4 + len)%nat)
  end.

Definition encode_interleaved_rtp_frame (p : RtpPacket) (channel : Z) : list byte :=
  [x24; byte_of channel] ++ be_bytes 2 (Z.of_nat (length (packet_encode p))) ++ packet_encode p.

Record ParsedTcpRtpFrame : Set := mk_parsed {
  parsed_packet : RtpPacket;
  consumed : nat;
  channel : option Z;
  framing : RtpTcpFraming
}.

Definition parsed_two_byte (raw : list byte) : option ParsedTcpRtpFrame :=
  '(p, n) ← parse_tcp_rtp_frame raw; Some (mk_parsed p n None TwoByte).

Definition parsed_interleaved (raw : list byte) : option ParsedTcpRtpFrame :=
  '(p, c, n) ← parse_interleaved_rtp_frame raw; Some (mk_parsed p n (Some c) Interleaved4Byte).

Definition parse_tcp_rtp_frame_with (raw : list byte) (mode : RtpTcpFraming) :
    option ParsedTcpRtpFrame :=
  match mode with
  | TwoByte => parsed_two_byte raw
  | Interleaved4Byte => parsed_interleaved raw
  | AutoDetect =>
      if bool_decide (head raw = Some x24) then
        match parsed_interleaved raw with
        | Some f => Some f
        | None => parsed_two_byte raw
        end
      else parsed_two_byte raw
  end.

(** ** The wire form *)

Definition header_wf (h : RtpHeader) : Prop :=
  0 <= version h < 4 /\ 0 <= payload_type h < 128 /\ in_u 16 (sequence_number h) /\
  in_u 32 (timestamp h) /\ in_u 32 (ssrc h).

(** A packet that fits the 16-bit length of the framings. *)
Definition packet_fits (p : RtpPacket) : Prop :=
  header_wf (header p) /\ 12 + Z.of_nat (length (payload p)) <= 65535.

Lemma at_app_l (p q : list byte) (i : nat) : (i < length p)%nat -> at_ (p ++ q) i = at_ p i.
Proof. intros H. unfold at_. by rewrite app_nth1. Qed.

Lemma sub_app_r (p q : list byte) (i n : nat) :
  (length p <= i)%nat -> sub_ i n (p ++ q) = sub_ (i - length p) n q.
Proof. intros H. unfold sub_. by rewrite drop_app_ge by done. Qed.

Lemma sub_app_l (p q : list byte) : sub_ 0 (length p) (p ++ q) = p.
Proof. unfold sub_. by rewrite drop_0, take_app_length. Qed.

(** The bytes of an integer behind [i] others. *)
Lemma sub_be_bytes (p q : list byte) (k : nat) (z : Z) :
  in_u (8 * Z.of_nat k) z -> be_val (sub_ (length p) k (p ++ be_bytes k z ++ q)) = z.
Proof.
  intros Hz. rewrite sub_app_r, Nat.sub_diag by done.
  pose proof (sub_app_l (be_bytes k z) q) as E. rewrite length_be_bytes in E. rewrite E.
  by apply be_val_bytes_small.
Qed.

(** The two bits below the version are clear. *)
Lemma version_byte (v : Z) : 0 <= v < 4 ->
  let b := byte_val (byte_of (Z.shiftl (Z.land v 0x03) 6)) in
  Z.shiftr b 6 = v /\ Z.land b 0x20 = 0 /\ Z.land b 0x10 = 0 /\ Z.land b 0x0f = 0.
Proof.
  intros Hv. assert (v = 0 \/ v = 1 \/ v = 2 \/ v = 3) as [-> | [-> | [-> | ->]]] by lia;
    by vm_compute.
Qed.

Lemma marker_byte (m : bool) (pt : Z) : 0 <= pt < 128 ->
  let b := byte_val (byte_of (Z.lor (Z.shiftl (Z.b2z m) 7) (Z.land pt 0x7f))) in
  negb (Z.land b 0x80 =? 0) = m /\ Z.land b 0x7f = pt.
Proof.
  intros Hp. cbv zeta.
  assert (E : forallb (fun n => let pt := Z.of_nat n in
    let b := byte_val (byte_of (Z.lor (Z.shiftl (Z.b2z m) 7) (Z.land pt 0x7f))) in
    eqb (negb (Z.land b 0x80 =? 0)) m && (Z.land b 0x7f =? pt)) (seq 0 128) = true)
    by (by destruct m; vm_compute).
  rewrite forallb_forall in E. specialize (E (Z.to_nat pt)).
  rewrite Z2Nat.id in E by lia. cbv zeta in E.
  apply andb_prop in E as [E1 E2]; [|apply in_seq; lia].
  apply eqb_prop in E1. apply Z.eqb_eq in E2. done.
Qed.

Lemma length_header_encode (h : RtpHeader) : length (header_encode h) = 12%nat.
Proof. unfold header_encode. by rewrite !length_app, !length_be_bytes. Qed.

Lemma header_parse_encode (h : RtpHeader) (rest : list byte) :
  header_wf h -> header_parse (header_encode h ++ rest) = Some (h, 12%nat).
Proof.
  intros (Hv & Hp & Hs & Ht & Hr). unfold header_parse.
  rewrite length_app, length_header_encode.
  destruct (Nat.ltb_spec (12 + length rest) 12); [lia|].
  destruct (version_byte (version h) Hv) as (V1 & V2 & V3 & V4).
  destruct (marker_byte (marker h) (payload_type h) Hp) as [M1 M2].
  assert (A0 : at_ (header_encode h ++ rest) 0
               = byte_val (byte_of (Z.shiftl (Z.land (version h) 0x03) 6))) by done.
  assert (A1 : at_ (header_encode h ++ rest) 1
               = byte_val (byte_of (Z.lor (Z.shiftl (Z.b2z (marker h)) 7)
                                      (Z.land (payload_type h) 0x7f)))) by done.
  rewrite A0, A1, V1, V2, V3, V4, M1, M2.
  change (12 + Z.to_nat 0 * 4)%nat with 12%nat.
  destruct (Nat.ltb_spec (12 + length rest) 12); [lia|].
  change (negb (0 =? 0)) with false. cbv iota. rewrite andb_false_l.
  unfold header_encode. rewrite <- !app_assoc.
  set (b2 := [_; _]).
  pose proof (sub_be_bytes b2 (be_bytes 4 (timestamp h) ++ be_bytes 4 (ssrc h) ++ rest) 2 _ Hs) as E1.
  pose proof (sub_be_bytes (b2 ++ be_bytes 2 (sequence_number h)) (be_bytes 4 (ssrc h) ++ rest) 4 _ Ht) as E2.
  pose proof (sub_be_bytes (b2 ++ be_bytes 2 (sequence_number h) ++ be_bytes 4 (timestamp h)) rest 4 _ Hr) as E3.
  change (length b2) with 2%nat in E1.
  rewrite length_app, length_be_bytes, <- !app_assoc in E2.
  rewrite !length_app, !length_be_bytes, <- !app_assoc in E3.
  change (length b2 + 2)%nat with 4%nat in E2.
  change (length b2 + (2 + 4))%nat with 8%nat in E3. rewrite E1, E2, E3.
  by destruct h.
Qed.

Lemma packet_parse_encode (p : RtpPacket) :
  header_wf (header p) -> packet_parse (packet_encode p) = Some p.
Proof.
  intros H. unfold packet_parse, packet_encode. rewrite header_parse_encode by done.
  destruct (version_byte (version (header p)) (proj1 H)) as (_ & V2 & _ & _).
  change (at_ (header_encode (header p) ++ payload p) 0)
    with (byte_val (byte_of (Z.shiftl (Z.land (version (header p)) 0x03) 6))).
  rewrite V2. cbn [Z.eqb]. rewrite length_app, length_header_encode.
  destruct (Nat.ltb_spec (12 + length (payload p)) 12); [lia|].
  rewrite sub_app_r, length_header_encode by (rewrite length_header_encode; lia).
  replace (12 + length (payload p) - 12)%nat with (length (payload p)) by lia.
  unfold sub_. rewrite Nat.sub_diag, drop_0, firstn_all. by destruct p.
Qed.

(** What is read of a buffer is inside of it. *)
Lemma header_parse_bounds (raw : list byte) h off :
  header_parse raw = Some (h, off) -> (12 <= off <= length raw)%nat /\ header_wf h.
Proof.
  unfold header_parse. destruct (Nat.ltb_spec (length raw) 12) as [|L12]; [done|].
  destruct (Nat.ltb_spec (length raw) (12 + Z.to_nat (Z.land (at_ raw 0) 0x0f) * 4)); [done|].
  assert (W : forall n i k, (i + n <= length raw)%nat -> k = 8 * Z.of_nat n ->
              in_u k (be_val (sub_ i n raw))).
  { intros n i k Hn ->. unfold in_u, sub_. pose proof (be_val_range (take n (drop i raw))) as Hb.
    rewrite length_take, length_drop in Hb. by rewrite Nat.min_l in Hb by lia. }
  assert (V : forall i, 0 <= Z.shiftr (at_ raw i) 6 < 4).
  { intros i. unfold at_. pose proof (byte_val_range (nth i raw x00)).
    rewrite Z.shiftr_div_pow2 by lia. change (2 ^ 6) with 64. zdm. }
  assert (T : forall i, 0 <= Z.land (at_ raw i) 0x7f < 128).
  { intros i. change 0x7f with (Z.ones 7). rewrite Z.land_ones by lia. apply Z.mod_pos_bound. lia. }
  repeat first [case_match; try done]; intros [= <- <-]; simplify_eq;
    repeat match goal with
    | H : (_ <? _)%nat = false |- _ => apply Nat.ltb_ge in H
    end; (split; [lia|]); repeat split; cbn;
    first [apply V|apply T|eapply W; [lia|done]].
Qed.

Lemma packet_parse_bounds (raw : list byte) p :
  packet_parse raw = Some p ->
  header_wf (header p) /\ (12 + length (payload p) <= length raw)%nat.
Proof.
  unfold packet_parse. destruct (header_parse raw) as [[h off]|] eqn:E; [|done].
  apply header_parse_bounds in E as [B Hw].
  repeat first [case_match; try done]; intros [= <-]; simplify_eq; (split; [done|]);
    cbn; unfold sub_; rewrite length_take, length_drop; lia.
Qed.

Lemma length_packet_encode (p : RtpPacket) :
  length (packet_encode p) = (12 + length (payload p))%nat.
Proof. unfold packet_encode. by rewrite length_app, length_header_encode. Qed.

Lemma fits_length (p : RtpPacket) :
  packet_fits p -> in_u 16 (Z.of_nat (length (packet_encode p))).
Proof.
  intros [_ L]. rewrite length_packet_encode. unfold in_u. change (2 ^ 16) with 65536. lia.
Qed.

(** A length field, and that many bytes behind it. *)
Lemma framed_body (pre body rest : list byte) :
  in_u 16 (Z.of_nat (length body)) ->
  let raw := pre ++ be_bytes 2 (Z.of_nat (length body)) ++ body ++ rest in
  Z.to_nat (be_val (sub_ (length pre) 2 raw)) = length body /\
  sub_ (length pre + 2) (length body) raw = body.
Proof.
  intros H raw. subst raw. rewrite sub_be_bytes by done. split; [lia|].
  rewrite sub_app_r by lia. rewrite sub_app_r by (rewrite length_be_bytes; lia).
  rewrite length_be_bytes. replace (length pre + 2 - length pre - 2)%nat with 0%nat by lia.
  apply sub_app_l.
Qed.

Lemma parse_tcp_encode (p : RtpPacket) (rest : list byte) :
  packet_fits p ->
  parse_tcp_rtp_frame (encode_tcp_rtp_frame p ++ rest)
  = Some (p, length (encode_tcp_rtp_frame p)).
Proof.
  intros H. pose proof (fits_length p H) as L. unfold parse_tcp_rtp_frame, encode_tcp_rtp_frame.
  destruct (framed_body [] (packet_encode p) rest L) as [E1 E2].
  cbn [app length Nat.add] in E1, E2. rewrite <- app_assoc, !length_app, length_be_bytes.
  destruct (Nat.ltb_spec (2 + (length (packet_encode p) + length rest)) 2); [lia|].
  rewrite E1.
  destruct (Nat.ltb_spec (2 + (length (packet_encode p) + length rest))
              (2 + length (packet_encode p))); [lia|].
  rewrite E2, packet_parse_encode by apply H. done.
Qed.

Lemma parse_interleaved_encode (p : RtpPacket) (c : Z) (rest : list byte) :
  packet_fits p -> in_u 8 c ->
  parse_interleaved_rtp_frame (encode_interleaved_rtp_frame p c ++ rest)
  = Some (p, c, length (encode_interleaved_rtp_frame p c)).
Proof.
  intros H Hc. pose proof (fits_length p H) as L.
  unfold parse_interleaved_rtp_frame, encode_interleaved_rtp_frame.
  destruct (framed_body [x24; byte_of c] (packet_encode p) rest L) as [E1 E2].
  cbn [length Nat.add] in E1, E2. rewrite <- !app_assoc, !length_app, length_be_bytes.
  set (raw := [x24; byte_of c] ++ _) in *.
  assert (A0 : at_ raw 0 = 0x24) by done.
  assert (A1 : at_ raw 1 = c).
  { change (byte_val (byte_of c) = c). rewrite byte_val_of. by apply Z.mod_small. }
  change (length [x24; byte_of c]) with 2%nat.
  destruct (Nat.ltb_spec (2 + (2 + (length (packet_encode p) + length rest))) 4); [lia|].
  rewrite A0, A1, E1. change (negb (0x24 =? 0x24)) with false. cbv iota.
  destruct (Nat.ltb_spec (2 + (2 + (length (packet_encode p) + length rest)))
              (4 + length (packet_encode p))); [lia|].
  rewrite E2, packet_parse_encode by apply H. done.
Qed.

(** An incomplete frame is left for later. *)
Lemma parse_tcp_incomplete (p : RtpPacket) (n : nat) :
  packet_fits p -> (n < length (encode_tcp_rtp_frame p))%nat ->
  parse_tcp_rtp_frame (take n (encode_tcp_rtp_frame p)) = None.
Proof.
  intros H Hn. pose proof (fits_length p H) as L. unfold parse_tcp_rtp_frame.
  rewrite length_take, Nat.min_l by lia.
  destruct (Nat.ltb_spec n 2); [done|].
  assert (E : sub_ 0 2 (take n (encode_tcp_rtp_frame p))
              = be_bytes 2 (Z.of_nat (length (packet_encode p)))).
  { unfold sub_. rewrite drop_0, take_take, Nat.min_l by lia.
    unfold encode_tcp_rtp_frame. apply take_app_length'. by rewrite length_be_bytes. }
  rewrite E, be_val_bytes_small by done. unfold encode_tcp_rtp_frame in Hn.
  rewrite length_app, length_be_bytes in Hn.
  by destruct (Nat.ltb_spec n (2 + Z.to_nat (Z.of_nat (length (packet_encode p))))); [|lia].
Qed.

Lemma parse_interleaved_incomplete (p : RtpPacket) (c : Z) (n : nat) :
  packet_fits p -> (n < length (encode_interleaved_rtp_frame p c))%nat ->
  parse_interleaved_rtp_frame (take n (encode_interleaved_rtp_frame p c)) = None.
Proof.
  intros H Hn. pose proof (fits_length p H) as L. unfold parse_interleaved_rtp_frame.
  rewrite length_take, Nat.min_l by lia.
  destruct (Nat.ltb_spec n 4); [done|]. destruct (negb _); [done|].
  assert (E : sub_ 2 2 (take n (encode_interleaved_rtp_frame p c))
              = be_bytes 2 (Z.of_nat (length (packet_encode p)))).
  { unfold sub_. rewrite take_drop_commute, take_take, Nat.min_l by lia.
    rewrite <- (take_drop_commute _ 2 2). unfold encode_interleaved_rtp_frame.
    change (drop 2 ([x24; byte_of c] ++ ?x)) with x.
    apply take_app_length'. by rewrite length_be_bytes. }
  rewrite E, be_val_bytes_small by done. unfold encode_interleaved_rtp_frame in Hn.
  rewrite !length_app, length_be_bytes in Hn. change (length [x24; byte_of c]) with 2%nat in Hn.
  by destruct (Nat.ltb_spec n (4 + Z.to_nat (Z.of_nat (length (packet_encode p))))); [|lia].
Qed.

(** The first byte of a two-byte frame is the high byte of the length. *)
Lemma head_two_byte (p : RtpPacket) (rest : list byte) :
  head (encode_tcp_rtp_frame p ++ rest)
  = Some (byte_of (Z.of_nat (length (packet_encode p)) / 256)).
Proof.
  change (Some (byte_of (Z.shiftr (Z.of_nat (length (packet_encode p))) (8 * Z.of_nat 1)))
          = Some (byte_of (Z.of_nat (length (packet_encode p)) / 256))).
  by rewrite Z.shiftr_div_pow2 by lia.
Qed.

(** Frames of RTP over TCP are cut out of the stream again. In either framing a
    packet that fits is returned as it was sent, whatever follows it, with exactly the
    bytes of its frame consumed, and an incomplete frame is not touched; detection picks
    the interleaved framing for an interleaved frame, and the two-byte framing for a
    two-byte frame unless the high byte of its length is that of a dollar sign. *)
Theorem rtp_tcp_wire (p : RtpPacket) (c : Z) (rest : list byte) :
  packet_fits p -> in_u 8 c ->
  let two := encode_tcp_rtp_frame p in
  let inter := encode_interleaved_rtp_frame p c in
  let parsed_two := Some (mk_parsed p (length two) None TwoByte) in
  let parsed_inter := Some (mk_parsed p (length inter) (Some c) Interleaved4Byte) in
  parse_tcp_rtp_frame_with (two ++ rest) TwoByte = parsed_two /\
  parse_tcp_rtp_frame_with (inter ++ rest) Interleaved4Byte = parsed_inter /\
  parse_tcp_rtp_frame_with (inter ++ rest) AutoDetect = parsed_inter /\
  (Z.of_nat (12 + length (payload p)) / 256 <> 0x24 ->
   parse_tcp_rtp_frame_with (two ++ rest) AutoDetect = parsed_two) /\
  (forall n, (n < length two)%nat -> parse_tcp_rtp_frame_with (take n two) TwoByte = None) /\
  (forall n, (n < length inter)%nat ->
   parse_tcp_rtp_frame_with (take n inter) Interleaved4Byte = None).
Proof.
  intros H Hc two inter parsed_two parsed_inter.
  assert (T : parsed_two_byte (two ++ rest) = parsed_two)
    by (unfold parsed_two_byte, two; by rewrite parse_tcp_encode).
  assert (I : parsed_interleaved (inter ++ rest) = parsed_inter)
    by (unfold parsed_interleaved, inter; by rewrite parse_interleaved_encode).
  split_and!; try done.
  - cbn [parse_tcp_rtp_frame_with]. rewrite I. by rewrite bool_decide_true.
  - intros Hd. cbn [parse_tcp_rtp_frame_with]. rewrite bool_decide_false; [done|].
    unfold two. rewrite head_two_byte, length_packet_encode. intros E.
    apply (inj Some) in E. destruct Hd.
    apply (f_equal byte_val) in E. rewrite byte_val_of in E.
    change (byte_val x24) with 0x24 in E. destruct H as [_ H]. rewrite Z.mod_small in E; [done|].
    zdm.
  - intros n Hn. cbn [parse_tcp_rtp_frame_with]. unfold parsed_two_byte.
    unfold two in *. by rewrite parse_tcp_incomplete.
  - intros n Hn. cbn [parse_tcp_rtp_frame_with]. unfold parsed_interleaved.
    unfold inter in *. by rewrite parse_interleaved_incomplete.
Qed.

Definition sample_packet : RtpPacket :=
  mk_packet (mk_header 2 96 65535 4294967295 1 true) [x01; x02; x03].

Lemma rtp_tcp_wire_witness :
  packet_fits sample_packet /\ in_u 8 1 /\
  parse_tcp_rtp_frame_with (encode_tcp_rtp_frame sample_packet ++ [x24]) AutoDetect
  = Some (mk_parsed sample_packet 17 None TwoByte).
Proof.
  assert (H : packet_fits sample_packet).
  { split; [|cbn; lia]. repeat split; cbn; try lia; lazy; congruence. }
  assert (Hc : in_u 8 1) by (split; [lia|lazy; congruence]).
  split; [exact H|]. split; [exact Hc|].
  apply (rtp_tcp_wire sample_packet 1 [x24] H Hc). intros E. lazy in E. discriminate.
Defined.

(** Detection looks at one frame only: the 36 in the length of a packet of 9216 bytes is
    taken for a dollar sign when enough bytes are in the buffer, since any bytes parse as
    an RTP packet. *)
Example two_byte_frame_misread :
  let p := mk_packet (mk_header 2 0 0 0 0 false) (repeat x00 (Z.to_nat (9216 - 12))) in
  (parse_tcp_rtp_frame_with (encode_tcp_rtp_frame p ++ repeat x00 (Z.to_nat 30000)) AutoDetect)
  ≫= (fun f => Some (Z.of_nat (consumed f), framing f)) = Some (32772, Interleaved4Byte).
Proof. by vm_compute. Qed.

(** A packet longer than the length field is framed with its length cut off. *)
Example long_packet_truncated :
  let p := mk_packet (mk_header 2 0 0 0 0 false) (repeat x00 (Z.to_nat 65530)) in
  take 2 (encode_tcp_rtp_frame p) = [x00; x06].
Proof. by vm_compute. Qed.

(** ** Order of arrival

    The extended number of a packet is one that its 16-bit sequence number is the
    remainder of. *)

Section sorting.
Context {A : Type} (key : A -> Z).

Definition key_le (x y : A) : Prop := key x <= key y.
Definition key_lt (x y : A) : Prop := key x < key y.

Lemma insert_by_key_perm x l : insert_by_key key x l ≡ₚ x :: l.
Proof.
  induction l as [|y l IH]; [done|]. cbn [insert_by_key].
  destruct (key x <=? key y); [done|]. rewrite IH. apply perm_swap.
Qed.

Lemma sort_by_key_perm l : sort_by_key key l ≡ₚ l.
Proof. induction l as [|x l IH]; [done|]. cbn. by rewrite insert_by_key_perm, IH. Qed.

Lemma insert_by_key_sorted x l :
  StronglySorted key_le l -> StronglySorted key_le (insert_by_key key x l).
Proof.
  induction 1 as [|y l Hs IH Hy]; [by repeat constructor|]. cbn [insert_by_key].
  destruct (Z.leb_spec (key x) (key y)) as [L|L].
  - constructor; [by constructor|]. constructor; [done|].
    eapply Forall_impl; [exact Hy|]. unfold key_le. intros; lia.
  - constructor; [done|]. rewrite insert_by_key_perm.
    constructor; [unfold key_le; lia|done].
Qed.

Lemma sort_by_key_sorted l : StronglySorted key_le (sort_by_key key l).
Proof. induction l; [constructor|]. by apply insert_by_key_sorted. Qed.

Lemma strict_keys_inj l x y :
  StronglySorted key_lt l -> x ∈ l -> y ∈ l -> key x = key y -> x = y.
Proof.
  induction 1 as [|z l Hs IH Hz]; [by intros ?%elem_of_nil|].
  rewrite Forall_forall in Hz. unfold key_lt in Hz.
  rewrite !elem_of_cons. intros [->|Hx] [->|Hy] E; [done| | |by auto];
    [specialize (Hz _ Hy)|specialize (Hz _ Hx)]; lia.
Qed.

(** Sorting finds the one arrangement with increasing keys. *)
Lemma sort_by_key_unique l l' :
  l ≡ₚ l' -> StronglySorted key_lt l' -> sort_by_key key l = l'.
Proof.
  intros P S. apply (StronglySorted_unique_strong key_le).
  - intros x y Hx Hy L1 L2. rewrite sort_by_key_perm, P in Hx.
    eapply strict_keys_inj; [exact S|done..|unfold key_le in *; lia].
  - apply sort_by_key_sorted.
  - clear P. induction S as [|x l' S IH Hx]; constructor; [done|].
    eapply Forall_impl; [exact Hx|]. unfold key_lt, key_le. intros; lia.
  - by rewrite sort_by_key_perm.
Qed.
End sorting.

(** What the loop over the gaps returns: the maximum, and a place where it is. *)
Lemma largest_gap_spec (l : list Z) (idx : nat) (g : Z) (sp : nat) g' sp' :
  largest_gap_loop l idx g sp = (g', sp') ->
  g <= g' /\
  (forall i a b, l !! i = Some a -> l !! S i = Some b -> wrap_u 16 (b - a) <= g') /\
  ((g' = g /\ sp' = sp) \/
   exists i a b, sp' = (idx + i)%nat /\ l !! i = Some a /\ l !! S i = Some b /\
                 g' = wrap_u 16 (b - a)).
Proof.
  revert idx g sp. induction l as [|x l IH]; intros idx g sp.
  { intros [= <- <-]. split_and!; [lia|done|by left]. }
  destruct l as [|y l].
  { intros [= <- <-]. split_and!; [lia| |by left]. by intros [|i] a b. }
  cbn [largest_gap_loop].
  destruct (Z.ltb_spec g (wrap_u 16 (y - x))) as [L|L];
    intros (G & M & W)%IH; (split; [lia|]); split.
  - intros [|i] a b; [|apply M]. intros [= <-] [= <-]. lia.
  - right. destruct W as [[-> ->]|(i & a & b & -> & ? & ? & ->)].
    + exists 0%nat, x, y. split_and!; [lia|done..].
    + exists (S i), a, b. split_and!; [lia|done..].
  - intros [|i] a b; [|apply M]. intros [= <-] [= <-]. lia.
  - destruct W as [[-> ->]|(i & a & b & -> & ? & ? & ->)]; [by left|right].
    exists (S i), a, b. split_and!; [lia|done..].
Qed.

(** Neighbours in a list of numbers are less than [k] apart. *)
Definition gaps_below (k : Z) (l : list Z) : Prop :=
  forall i a b, l !! i = Some a -> l !! S i = Some b -> b - a < k.

(** The gap around the end of the number circle is the widest one. *)
Definition compact (es : list Z) : Prop :=
  gaps_below (65536 + default 0 (head es) - default 0 (last es)) es.

Definition extends (e : Z) (p : RtpPacket) : Prop := seq_of p = wrap_u 16 e.

Lemma sorted_head_last (l : list Z) (x : Z) :
  StronglySorted Z.lt l -> x ∈ l -> default 0 (head l) <= x <= default 0 (last l).
Proof.
  intros S. revert x. induction S as [|y l S IH Hy]; intros x; [by intros ?%elem_of_nil|].
  rewrite Forall_forall in Hy. cbn [head]. change (default 0 (Some y)) with y. intros [->|Hx]%elem_of_cons.
  - destruct l as [|z l]; [cbn; lia|]. change (last (y :: z :: l)) with (last (z :: l)).
    pose proof (Hy z ltac:(left)). pose proof (IH z ltac:(left)). lia.
  - destruct l as [|z l]; [by apply elem_of_nil in Hx|].
    change (last (y :: z :: l)) with (last (z :: l)).
    pose proof (Hy x Hx). pose proof (IH x Hx). lia.
Qed.

Lemma sorted_split (T : Z) (l : list Z) :
  StronglySorted Z.lt l ->
  exists l1 l2, l = l1 ++ l2 /\ Forall (fun x => x < T) l1 /\ Forall (fun x => T <= x) l2.
Proof.
  induction 1 as [|y l S (l1 & l2 & -> & H1 & H2) Hy]; [by exists [], []|].
  destruct (Z.ltb_spec y T) as [L|L].
  - exists (y :: l1), l2. split_and!; [done|by constructor|done].
  - exists [], (y :: l1 ++ l2). split_and!; [done..|]. constructor; [done|].
    eapply Forall_impl; [exact Hy|]. cbn. intros; lia.
Qed.

(** The largest gap is at its only place. *)
Lemma split_start_wrap (l1 l2 : list Z) (a b : Z) :
  last l1 = Some a -> head l2 = Some b -> 0 < wrap_u 16 (b - a) ->
  (forall i x y, (l1 ++ l2) !! i = Some x -> (l1 ++ l2) !! S i = Some y ->
     S i <> length l1 -> wrap_u 16 (y - x) < wrap_u 16 (b - a)) ->
  65536 + default 0 (head l1) - default 0 (last l2) < wrap_u 16 (b - a) ->
  split_start (l1 ++ l2) = length l1.
Proof.
  intros Ha Hb Pos M W. unfold split_start.
  destruct (largest_gap_loop _ _ _ _) as [g sp] eqn:E.
  apply largest_gap_spec in E as (G & Max & At).
  assert (Hl : exists n, length l1 = S n) by (destruct l1; [done|by eexists]). destruct Hl as [n Hn].
  assert (Hr : exists m, length l2 = S m) by (destruct l2; [done|by eexists]). destruct Hr as [m Hm].
  assert (Ja : (l1 ++ l2) !! n = Some a).
  { rewrite lookup_app_l by lia. rewrite last_lookup, Hn in Ha. done. }
  assert (Jb : (l1 ++ l2) !! S n = Some b).
  { rewrite lookup_app_r by lia. rewrite Hn, Nat.sub_diag. by rewrite <- head_lookup. }
  pose proof (Max _ _ _ Ja Jb) as Hg.
  assert (Hh : head (l1 ++ l2) = head l1) by (destruct l1; done).
  assert (Ht : last (l1 ++ l2) = last l2).
  { rewrite last_app. destruct l2 as [|z l2]; [done|]. destruct (last (z :: l2)) eqn:Ez; [done|].
    by apply last_None in Ez. }
  rewrite Hh, Ht.
  destruct (Z.ltb_spec g (Z.max 0 (65535 + 1 + default 0 (head l1) - default 0 (last l2)))); [lia|].
  rewrite length_app, Hn, Hm.
  assert (sp = n) as ->.
  { destruct At as [[-> _]|(i & x & y & -> & Hx & Hy & E0)].
    - lia.
    - destruct (decide (S i = length l1)) as [|Ne]; [lia|].
      pose proof (M _ _ _ Hx Hy Ne). lia. }
  rewrite Nat.mod_small by lia. lia.
Qed.

Lemma split_start_no_wrap (l : list Z) :
  let k := 65536 + default 0 (head l) - default 0 (last l) in
  l <> [] -> 0 < k ->
  (forall i x y, l !! i = Some x -> l !! S i = Some y -> wrap_u 16 (y - x) < k) ->
  split_start l = 0%nat.
Proof.
  intros k Ne Hk M. unfold split_start.
  destruct (largest_gap_loop _ _ _ _) as [g sp] eqn:E.
  apply largest_gap_spec in E as (_ & _ & At).
  assert (g < k) as Hg by (destruct At as [[-> _]|(i & x & y & _ & ? & ? & ->)]; [done|by eapply M]).
  destruct (Z.ltb_spec g (Z.max 0 (65535 + 1 + default 0 (head l) - default 0 (last l))));
    [|subst k; lia].
  destruct l as [|x l]; [done|]. cbn [length].
  rewrite Nat.sub_succ, Nat.sub_0_r, Nat.add_1_r. apply Nat.Div0.mod_same.
Qed.

Definition shift (k : Z) (l : list Z) : list Z := map (fun e => e - k) l.

Lemma shift_lookup k l i x : shift k l !! i = Some x -> exists e, l !! i = Some e /\ x = e - k.
Proof. unfold shift. intros (e & He & ->)%list_lookup_fmap_Some. by exists e. Qed.

Lemma shift_head k l : l <> [] -> default 0 (head (shift k l)) = default 0 (head l) - k.
Proof. by destruct l. Qed.

Lemma shift_last k l : l <> [] -> default 0 (last (shift k l)) = default 0 (last l) - k.
Proof.
  intros Ne. unfold shift. rewrite fmap_last. destruct (last l) eqn:E; [done|].
  by apply last_None in E.
Qed.

Lemma head_some (l : list Z) : l <> [] -> head l = Some (default 0 (head l)).
Proof. by destruct l. Qed.

Lemma last_some (l : list Z) : l <> [] -> last l = Some (default 0 (last l)).
Proof. intros Ne. destruct (last l) eqn:E; [done|]. by apply last_None in E. Qed.

(** The sequence numbers of one turn of the number circle. *)
Lemma epoch_seqs (k : Z) (es : list Z) (ps : list RtpPacket) :
  Forall2 extends es ps -> (65536 | k) -> Forall (fun e => k <= e < k + 65536) es ->
  map seq_of ps = shift k es.
Proof.
  intros F D. induction F as [|e p es ps E F IH]; [done|]. intros B.
  apply Forall_cons in B as [He B]. cbn. rewrite IH by done. f_equal.
  unfold extends in E. rewrite E. unfold wrap_u. change (2 ^ 16) with 65536.
  destruct D as [q ->]. symmetry. apply (Z.mod_unique _ _ q); lia.
Qed.

Lemma shifted_sorted (k : Z) (es : list Z) (ps : list RtpPacket) :
  StronglySorted Z.lt es -> map seq_of ps = shift k es -> StronglySorted (key_lt seq_of) ps.
Proof.
  intros S. revert ps. induction S as [|e es S IH He]; intros [|p ps]; try done;
    [constructor|]. intros [= Ep Eps]. constructor; [by apply IH|].
  apply Forall_forall. intros q Hq. unfold key_lt. rewrite Ep.
  assert (Hs : seq_of q ∈ shift k es) by (rewrite <- Eps; by apply list_elem_of_fmap_2).
  apply list_elem_of_fmap in Hs as (e' & -> & He'). rewrite Forall_forall in He.
  specialize (He _ He'). lia.
Qed.

Section reassembly.
Context (l1 l2 : list Z) (T : Z).
Hypothesis sorted : StronglySorted Z.lt (l1 ++ l2).
Hypothesis close : compact (l1 ++ l2).
Hypothesis turn : (65536 | T).
Hypothesis low : Forall (fun e => T - 65536 <= e < T) l1.
Hypothesis high : Forall (fun e => T <= e < T + 65536) l2.
Hypothesis first_some : l1 <> [].
Hypothesis spread : (1 < length (l1 ++ l2))%nat.

#[local] Abbreviation e0 := (default 0 (head (l1 ++ l2))).
#[local] Abbreviation en := (default 0 (last (l1 ++ l2))).

Lemma first_of_low : default 0 (head l1) = e0.
Proof. by destruct l1. Qed.

Lemma last_of_high : l2 <> [] -> default 0 (last l2) = en.
Proof.
  intros Ne. rewrite last_app. destruct (last l2) eqn:E; [done|].
  by apply last_None in E.
Qed.

Lemma within x : x ∈ l1 ++ l2 -> e0 <= x <= en.
Proof. by apply sorted_head_last. Qed.

Lemma adjacent i x y :
  (l1 ++ l2) !! i = Some x -> (l1 ++ l2) !! S i = Some y ->
  0 < y - x < 65536 + e0 - en /\ e0 <= x /\ y <= en.
Proof.
  intros Hx Hy. pose proof (close i x y Hx Hy) as G.
  pose proof (within x (list_elem_of_lookup_2 _ _ _ Hx)).
  pose proof (within y (list_elem_of_lookup_2 _ _ _ Hy)).
  rewrite <- (take_drop_middle _ _ _ Hx) in sorted.
  apply StronglySorted_app_1_r in sorted. inversion sorted as [|? ? _ Hall]; subst.
  rewrite Forall_forall in Hall.
  assert (Hin : y ∈ drop (S i) (l1 ++ l2)).
  { apply (list_elem_of_lookup_2 _ 0). by rewrite lookup_drop, Nat.add_0_r. }
  specialize (Hall y Hin). lia.
Qed.

Lemma span : 0 < en - e0 < 65536.
Proof.
  destruct (lookup_lt_is_Some_2 (l1 ++ l2) 0) as [x Hx]; [lia|].
  destruct (lookup_lt_is_Some_2 (l1 ++ l2) 1) as [y Hy]; [lia|].
  pose proof (adjacent 0 x y Hx Hy). lia.
Qed.

Lemma gap_small i x y :
  (l1 ++ l2) !! i = Some x -> (l1 ++ l2) !! S i = Some y ->
  wrap_u 16 (y - x) = y - x /\ y - x < 65536 + e0 - en.
Proof.
  intros Hx Hy. pose proof (adjacent i x y Hx Hy). pose proof span.
  split; [|lia]. apply wrap_u_small. unfold in_u. change (2 ^ 16) with 65536. lia.
Qed.

Lemma start_one_turn : l2 = [] -> split_start (shift (T - 65536) l1) = 0%nat.
Proof.
  intros E. pose proof span as Sp. pose proof gap_small as G. revert Sp G.
  rewrite E, app_nil_r. intros Sp G.
  apply split_start_no_wrap; [by destruct l1| |]; rewrite shift_head, shift_last by done; [lia|].
  intros i x y Hx Hy.
  apply shift_lookup in Hx as (x' & Hx & ->). apply shift_lookup in Hy as (y' & Hy & ->).
  replace (y' - (T - 65536) - (x' - (T - 65536))) with (y' - x') by lia.
  destruct (G i x' y' Hx Hy) as [-> ?]. lia.
Qed.

Lemma start_two_turns :
  l2 <> [] -> split_start (shift T l2 ++ shift (T - 65536) l1) = length l2.
Proof.
  intros Ne.
  assert (J : wrap_u 16 (e0 - (T - 65536) - (en - T)) = 65536 + e0 - en).
  { pose proof span. rewrite wrap_u_small; [lia|]. unfold in_u. change (2 ^ 16) with 65536. lia. }
  assert (Ln : forall k l, length (shift k l) = length l) by (intros; apply length_map).
  rewrite <- (Ln T l2).
  apply (split_start_wrap _ _ (en - T) (e0 - (T - 65536))).
  - rewrite last_some by (by destruct l2). by rewrite shift_last, last_of_high.
  - rewrite head_some by (by destruct l1). by rewrite shift_head, first_of_low.
  - rewrite J. pose proof span. lia.
  - rewrite J. intros i x y Hx Hy Hi. rewrite Ln in Hi.
    destruct (Nat.lt_ge_cases (S i) (length l2)) as [L|L].
    + rewrite lookup_app_l in Hx, Hy by (rewrite Ln; lia).
      apply shift_lookup in Hx as (x' & Hx & ->). apply shift_lookup in Hy as (y' & Hy & ->).
      replace (y' - T - (x' - T)) with (y' - x') by lia.
      pose proof (gap_small (length l1 + i) x' y') as G.
      rewrite !lookup_app_r in G by lia.
      replace (length l1 + i - length l1)%nat with i in G by lia.
      replace (S (length l1 + i) - length l1)%nat with (S i) in G by lia.
      destruct (G Hx Hy) as [-> ?]. done.
    + rewrite lookup_app_r in Hx, Hy by (rewrite Ln; lia). rewrite Ln in Hx, Hy.
      apply shift_lookup in Hx as (x' & Hx & ->). apply shift_lookup in Hy as (y' & Hy & ->).
      replace (y' - (T - 65536) - (x' - (T - 65536))) with (y' - x') by lia.
      replace (S i - length l2)%nat with (S (i - length l2)) in Hy by lia.
      pose proof (gap_small (i - length l2) x' y') as G.
      rewrite (lookup_app_l_Some _ _ _ _ Hx), (lookup_app_l_Some _ _ _ _ Hy) in G.
      destruct (G eq_refl eq_refl) as [-> ?]. done.
  - rewrite J, shift_head, shift_last by done.
    assert (length l1 <> 0)%nat by (by intros ?%nil_length_inv).
    assert (Ea : (l1 ++ l2) !! (length l1 - 1)%nat = Some (default 0 (last l1))).
    { rewrite lookup_app_l by lia. rewrite <- (last_some l1 first_some), last_lookup.
      f_equal. lia. }
    assert (Eb : (l1 ++ l2) !! S (length l1 - 1) = Some (default 0 (head l2))).
    { rewrite lookup_app_r by lia. rewrite <- (head_some l2 Ne), head_lookup.
      f_equal. lia. }
    destruct (gap_small _ _ _ Ea Eb). lia.
Qed.

Lemma reassemble ps qs :
  Forall2 extends (l1 ++ l2) ps -> qs ≡ₚ ps ->
  rotate_left (split_start (map seq_of (sort_by_key seq_of qs))) (sort_by_key seq_of qs) = ps.
Proof.
  intros (p1 & p2 & F1 & F2 & ->)%Forall2_app_inv_l Hperm.
  pose proof (epoch_seqs (T - 65536) l1 p1 F1) as S1.
  assert (D1 : (65536 | T - 65536)).
  { destruct turn as [q Hq]. exists (q - 1). lia. }
  specialize (S1 D1).
  assert (B1 : Forall (fun e => T - 65536 <= e < T - 65536 + 65536) l1).
  { eapply Forall_impl; [exact low|]. cbn. intros; lia. }
  specialize (S1 B1).
  pose proof (epoch_seqs T l2 p2 F2 turn high) as S2.
  pose proof sorted as So. apply StronglySorted_app in So as (_ & So1 & So2).
  pose proof (shifted_sorted _ _ _ So1 S1) as K1.
  pose proof (shifted_sorted _ _ _ So2 S2) as K2.
  destruct (decide (l2 = [])) as [E|Ne].
  - assert (p2 = []) as -> by (rewrite E in F2; by inversion F2).
    rewrite app_nil_r in Hperm |- *. rewrite (sort_by_key_unique seq_of qs p1) by done.
    rewrite S1, start_one_turn by done. unfold rotate_left. by rewrite drop_0, take_0, app_nil_r.
  - rewrite (sort_by_key_unique seq_of qs (p2 ++ p1)).
    + rewrite map_app, S1, S2, start_two_turns by done.
      rewrite (Forall2_length _ _ _ F2). unfold rotate_left.
      by rewrite drop_app_length, take_app_length.
    + rewrite Hperm. apply Permutation_app_comm.
    + apply StronglySorted_app_2; [|done..]. intros x y Hx Hy. unfold key_lt.
      assert (Hx' : seq_of x ∈ shift T l2) by (rewrite <- S2; by apply list_elem_of_fmap_2).
      assert (Hy' : seq_of y ∈ shift (T - 65536) l1) by (rewrite <- S1; by apply list_elem_of_fmap_2).
      apply list_elem_of_fmap in Hx' as (ex & -> & Hx'). apply list_elem_of_fmap in Hy' as (ey & -> & Hy').
      pose proof (within ex ltac:(apply elem_of_app; by right)).
      pose proof (within ey ltac:(apply elem_of_app; by left)). pose proof span. lia.
Qed.
End reassembly.

(** Packets with compact extended numbers come out in the order of these, whatever the
    order they arrive in. *)
Lemma depacketize_in_order (es : list Z) (ps qs : list RtpPacket) :
  StronglySorted Z.lt es -> compact es -> Forall2 extends es ps -> qs ≡ₚ ps ->
  depacketize_payload qs = concat (map payload ps).
Proof.
  intros So C F Hp. pose proof (Permutation_length Hp) as Lq.
  pose proof (Forall2_length _ _ _ F) as Le.
  destruct qs as [|q qs].
  { symmetry in Hp. apply Permutation_nil_r in Hp. by subst ps. }
  unfold depacketize_payload. set (srt := sort_by_key seq_of (q :: qs)).
  assert (Ls : length srt = length (q :: qs)) by (apply Permutation_length, sort_by_key_perm).
  destruct (Nat.ltb_spec 1 (length srt)) as [L|L].
  - destruct es as [|e es]; [cbn [length] in *; lia|].
    set (T := (e / 65536 + 1) * 65536).
    destruct (sorted_split T _ So) as (l1 & l2 & E & B1 & B2).
    assert (Te : T - 65536 <= e < T) by (subst T; zdm).
    assert (Ne : l1 <> []).
    { intros ->. cbn [app] in E. subst l2. apply Forall_cons in B2 as [? _]. lia. }
    assert (W : forall x, x ∈ e :: es -> e <= x < e + 65536).
    { intros x Hx. pose proof (sorted_head_last _ _ So Hx) as B. cbn [head] in B.
      change (default 0 (Some e)) with e in B. split; [lia|].
      destruct es as [|e' es]; [cbn [length] in *; lia|].
      pose proof (C 0%nat e e' eq_refl eq_refl) as G. cbn [head] in G.
      change (default 0 (Some e)) with e in G.
      apply StronglySorted_cons in So as [So _]. apply Forall_cons in So as [? _]. lia. }
    rewrite E in So, C, F, W.
    assert (R : rotate_left (split_start (map seq_of srt)) srt = ps); [|by rewrite R].
    apply (reassemble l1 l2 T So C); [by exists (e / 65536 + 1)| | |done| |done|done].
    + apply Forall_forall. intros x Hx. rewrite Forall_forall in B1. specialize (B1 x Hx).
      specialize (W x ltac:(apply elem_of_app; by left)). lia.
    + apply Forall_forall. intros x Hx. rewrite Forall_forall in B2. specialize (B2 x Hx).
      specialize (W x ltac:(apply elem_of_app; by right)). lia.
    + rewrite <- E, Le, <- Lq, <- Ls. exact L.
  - subst srt. destruct qs; [|cbn [length] in *; lia].
    destruct ps as [|p [|]]; [by apply Permutation_nil_r in Hp|..|cbn [length] in *; lia].
    apply Permutation_singleton_r in Hp as [= ->]. done.
Qed.

Lemma window_compact (es : list Z) :
  StronglySorted Z.lt es -> default 0 (last es) - default 0 (head es) < 32768 -> compact es.
Proof.
  intros So W i a b Ha Hb.
  pose proof (sorted_head_last _ _ So (list_elem_of_lookup_2 _ _ _ Ha)).
  pose proof (sorted_head_last _ _ So (list_elem_of_lookup_2 _ _ _ Hb)). lia.
Qed.

(** [n] numbers from [e] on. *)
Fixpoint consecutive (e : Z) (n : nat) : list Z :=
  match n with
  | O => []
  | S n => e :: consecutive (e + 1) n
  end.

Lemma consecutive_lookup (e : Z) (n i : nat) (x : Z) :
  consecutive e n !! i = Some x -> x = e + Z.of_nat i /\ (i < n)%nat.
Proof.
  revert e i. induction n as [|n IH]; intros e i; [done|]. cbn [consecutive].
  destruct i as [|i]; cbn [lookup list_lookup]; [intros [= <-]; lia|]. intros H%IH. lia.
Qed.

Lemma consecutive_sorted (e : Z) (n : nat) : StronglySorted Z.lt (consecutive e n).
Proof.
  revert e. induction n as [|n IH]; intros e; constructor; [apply IH|].
  apply Forall_lookup_2. intros i x H%consecutive_lookup. lia.
Qed.

Lemma consecutive_ends (e : Z) (n : nat) :
  default 0 (head (consecutive e (S n))) = e /\
  default 0 (last (consecutive e (S n))) = e + Z.of_nat n.
Proof.
  split; [done|]. revert e. induction n as [|n IH]; intros e; [cbn; lia|].
  change (last (consecutive e (S (S n)))) with (last (consecutive (e + 1) (S n))).
  rewrite IH. lia.
Qed.

Lemma consecutive_compact (e : Z) (n : nat) : Z.of_nat n < 65536 -> compact (consecutive e n).
Proof.
  intros Hn i a b Ha Hb. destruct n as [|n]; [done|].
  destruct (consecutive_ends e n) as [-> ->].
  apply consecutive_lookup in Ha, Hb. lia.
Qed.

Lemma sublist_extends (es : list Z) (ps ps' : list RtpPacket) :
  Forall2 extends es ps -> sublist ps' ps ->
  exists es', sublist es' es /\ Forall2 extends es' ps'.
Proof.
  intros F S. revert es F.
  induction S as [|p ps' ps S IH|p ps' ps S IH]; intros es F; inversion F; subst.
  - by exists [].
  - destruct (IH _ ltac:(eassumption)) as (es' & ? & ?). exists (x :: es').
    split; by constructor.
  - destruct (IH _ ltac:(eassumption)) as (es' & ? & ?). exists es'. split; [by constructor|done].
Qed.

Lemma sublist_sorted (es' es : list Z) :
  sublist es' es -> StronglySorted Z.lt es -> StronglySorted Z.lt es'.
Proof.
  induction 1 as [|x l1 l2 S IH|x l1 l2 S IH]; [done| |];
    intros [Hx So]%StronglySorted_cons; [|by apply IH].
  constructor; [by apply IH|]. eapply Forall_impl; [|by intros ?; exact id].
  apply Forall_forall. intros y Hy. rewrite Forall_forall in Hx. apply Hx.
  eapply elem_of_submseteq; [exact Hy|by apply sublist_submseteq].
Qed.

(** ** Packetizing *)

Lemma packetize_loop_extends (fuel c : nat) h e bs :
  Forall2 extends (consecutive e (length (packetize_loop fuel c h (wrap_u 16 e) bs)))
    (packetize_loop fuel c h (wrap_u 16 e) bs).
Proof.
  revert e bs. induction fuel as [|fuel IH]; intros e bs; [constructor|].
  destruct bs as [|b bs]; [constructor|]. cbn [packetize_loop length consecutive].
  assert (E : wrap_u 16 (wrap_u 16 e + 1) = wrap_u 16 (e + 1))
    by (unfold wrap_u; by rewrite Zplus_mod_idemp_l).
  rewrite E. constructor; [done|]. apply IH.
Qed.

(** [bs] cut into pieces: all but the last have the marker off. *)
Lemma packetize_loop_pieces (fuel c : nat) h s bs :
  (0 < c)%nat -> (length bs <= fuel)%nat ->
  let ps := packetize_loop fuel c h s bs in
  concat (map payload ps) = bs /\
  Forall (fun p => (0 < length (payload p) <= c)%nat /\
                   timestamp (header p) = timestamp h /\ ssrc (header p) = ssrc h) ps /\
  forall i p, ps !! i = Some p -> marker (header p) = bool_decide (S i = length ps).
Proof.
  intros Hc. revert s bs. induction fuel as [|fuel IH]; intros s bs L.
  { destruct bs; [by split_and!|cbn in L; lia]. }
  destruct bs as [|b bs]; [by split_and!|]. cbn [packetize_loop].
  set (k := Nat.min (length (b :: bs)) c).
  assert (K : (0 < k <= c)%nat /\ (k <= length (b :: bs))%nat) by (subst k; cbn [length]; lia).
  assert (D : (length (drop k (b :: bs)) <= fuel)%nat) by (rewrite length_drop; cbn [length] in *; lia).
  specialize (IH (wrap_u 16 (s + 1)) (drop k (b :: bs)) D). cbv zeta in *.
  set (rest := packetize_loop fuel c h (wrap_u 16 (s + 1)) (drop k (b :: bs))) in *.
  destruct IH as (E & F & M). split_and!.
  - cbn [map payload concat]. rewrite E. apply take_drop.
  - constructor; [|done]. cbn [payload header timestamp ssrc]. rewrite length_take. cbn [length] in *. lia.
  - intros [|i] p.
    + intros [= <-]. cbn [header marker length]. apply bool_decide_ext.
      split; intros H; [|].
      * rewrite H in E. destruct rest as [|r rest]; [done|].
        cbn [map concat] in E. apply Forall_cons in F as [[F _] _].
        apply app_eq_nil in E as [E _]. rewrite E in F. cbn in F. lia.
      * destruct rest; [by rewrite <- E|done].
    + cbn [lookup list_lookup length]. intros Hi. rewrite (M _ _ Hi).
      apply bool_decide_ext. lia.
Qed.

(** A payload cut into RTP packets comes back from them in any order of arrival,
    also across the wrap-around of the sequence numbers. Each packet keeps to the MTU and
    carries some data, only the last one has the marker; fewer than 65536 packets, in any
    order, give the payload, and when some of at most 32768 packets are lost the rest
    still gives its data in order. *)
Theorem packets_reassemble (bs : list byte) (mtu : nat) (h : RtpHeader) :
  in_u 16 (sequence_number h) ->
  let ps := packetize_payload bs mtu h in
  Z.of_nat (length ps) < 65536 ->
  Forall (fun p => (12 + length (payload p) <= Nat.max mtu 13)%nat /\ payload p <> []) ps /\
  (forall i p, ps !! i = Some p -> marker (header p) = bool_decide (S i = length ps)) /\
  (forall qs, qs ≡ₚ ps -> depacketize_payload qs = bs) /\
  (Z.of_nat (length ps) <= 32768 ->
   forall ps' qs, sublist ps' ps -> qs ≡ₚ ps' ->
   depacketize_payload qs = concat (map payload ps')).
Proof.
  intros Hs ps Hn. unfold ps, packetize_payload in *.
  pose proof (packetize_loop_extends (length bs) (payload_mtu mtu) h (sequence_number h) bs) as F.
  rewrite wrap_u_small in F by done.
  destruct (packetize_loop_pieces (length bs) (payload_mtu mtu) h (sequence_number h) bs)
    as (E & P & M); [unfold payload_mtu; lia|lia|].
  set (l := packetize_loop _ _ _ _ _) in *. split_and!.
  - eapply Forall_impl; [exact P|]. cbn. intros p (B & _). unfold payload_mtu in B.
    split; [lia|]. intros E0. rewrite E0 in B. cbn in B. lia.
  - exact M.
  - intros qs Hp. rewrite <- E. eapply depacketize_in_order; [..|exact Hp].
    + apply consecutive_sorted.
    + by apply consecutive_compact.
    + exact F.
  - intros Hl ps' qs Hsub Hp. destruct (sublist_extends _ _ _ F Hsub) as (es' & Se & F').
    pose proof (sublist_sorted _ _ Se (consecutive_sorted _ _)) as So.
    eapply depacketize_in_order; [exact So| |exact F'|exact Hp].
    apply window_compact; [exact So|]. destruct es' as [|e es']; [cbn; lia|].
    assert (B : forall x, x ∈ e :: es' ->
              sequence_number h <= x < sequence_number h + Z.of_nat (length l)).
    { intros x Hx. eapply elem_of_submseteq in Hx; [|by apply sublist_submseteq].
      apply list_elem_of_lookup_1 in Hx as [i Hi%consecutive_lookup]. lia. }
    pose proof (B e ltac:(left)). pose proof (B (default 0 (last (e :: es')))) as B'.
    rewrite (last_some (e :: es')) in * by done. cbn [head].
    change (default 0 (Some e)) with e. cut (default 0 (last (e :: es')) ∈ e :: es').
    { intros Hi. specialize (B' Hi). lia. }
    apply last_Some_elem_of. by apply last_some.
Qed.

Definition wrapping_header : RtpHeader := mk_header 2 96 65534 7 1 false.

Lemma packets_reassemble_witness :
  let bs := [x01; x02; x03; x04; x05; x06; x07] in
  let ps := packetize_payload bs 14 wrapping_header in
  in_u 16 (sequence_number wrapping_header) /\ Z.of_nat (length ps) < 65536 /\
  map seq_of ps = [65534; 65535; 0; 1] /\
  depacketize_payload (rev ps) = bs /\
  depacketize_payload (rev (take 1 ps ++ drop 2 ps)) = [x01; x02; x05; x06; x07].
Proof.
  set (bs := [x01; x02; x03; x04; x05; x06; x07]).
  assert (Hs : in_u 16 (sequence_number wrapping_header)) by (split; [lazy; congruence|reflexivity]).
  assert (Hn : Z.of_nat (length (packetize_payload bs 14 wrapping_header)) < 65536) by reflexivity.
  split; [exact Hs|]. split; [exact Hn|]. split; [reflexivity|].
  destruct (packets_reassemble bs 14 wrapping_header Hs Hn) as (_ & _ & R & L).
  split; [apply R; symmetry; apply Permutation_rev|].
  apply (L ltac:(lazy; congruence) (take 1 (packetize_payload bs 14 wrapping_header)
           ++ drop 2 (packetize_payload bs 14 wrapping_header))).
  - vm_compute. repeat constructor.
  - symmetry. apply Permutation_rev.
Defined.
