(* ===== verification/RtpH26x.v ===== *)
(** * H.264 and H.265 over RTP

    Models the H.26x part of [crates/protocols/rtsp/module/src/media.rs] and the
    depacketizer states of [session.rs]: an Annex B access unit is split into NAL units
    and packed into RTP packets (single, STAP-A, FU), and packets are assembled into
    access units again. [h26x_nalu_is_random_access] is that of
    [crates/foundation/cheetah-codec/src/video.rs].

    The H.264 and H.265 assemblers of the source are the same code but for the unit
    depacketizer they call; here they are one definition over that call. Lengths of
    buffers do not overflow [usize], so [checked_add] always succeeds. *)
From Stdlib Require Import Strings.Byte.
From S2P Require Import Prelude RtmpBytes Codecs Rtp.

(** ** Annex B *)

Definition START_CODE : list byte := [x00; x00; x00; x01].

(** The loop over [i]; the four-byte test of an index needs one more byte. *)
Fixpoint find_start_code_from (i : nat) (data : list byte) : option (nat * nat) :=
  match data with
  | a :: ((b :: c :: rest) as data') =>
      if bool_decide (a = x00 /\ b = x00) then
        if bool_decide (c = x01) then Some (i, 3%nat)
        else if bool_decide (c = x00 /\ head rest = Some x01) then Some (i, 4%nat)
        else find_start_code_from (S i) data'
      else find_start_code_from (S i) data'
  | _ => None
  end.

Definition find_start_code (data : list byte) : option (nat * nat) :=
  find_start_code_from 0 data.

(** A turn drops the three or four bytes of a start code at least. *)
Fixpoint split_loop (fuel : nat) (payload : list byte) : list (list byte) :=
  match fuel with
  | O => []
  | S fuel =>
      match find_start_code payload with
      | None => []
      | Some (start, code_len) =>
          let payload := drop (start + code_len) payload in
          let next_start := match find_start_code payload with
                            | Some (idx, _) => idx
                            | None => length payload
                            end in
          (if (0 <? next_start)%nat then [take next_start payload] else [])
          ++ split_loop fuel (drop next_start payload)
      end
  end.

Definition split_annexb_units (payload : list byte) : list (list byte) :=
  split_loop (length payload) payload.

(** ** NAL units *)

Definition h264_nal_type (unit_ : list byte) : option Z :=
  (fun b => Z.land (byte_val b) 0x1f) <$> head unit_.

Definition h265_nal_type (unit_ : list byte) : option Z :=
  (fun b => Z.land (Z.shiftr (byte_val b) 1) 0x3f) <$> head unit_.

Definition is_some_and (f : Z -> bool) (o : option Z) : bool :=
  match o with Some z => f z | None => false end.

Definition h26x_nalu_is_random_access (codec : CodecId) (unit_ : list byte) : bool :=
  match codec with
  | H264 => is_some_and (fun t => t =? 5) (h264_nal_type unit_)
  | H265 => is_some_and (fun t => (16 <=? t) && (t <=? 21)) (h265_nal_type unit_)
  | H266 => is_some_and (fun h => let t := Z.land (Z.shiftr h 3) 0x1f in (7 <=? t) && (t <=? 10))
              (byte_val <$> unit_ !! 1%nat)
  | _ => false
  end.

Definition h264_nalu_is_keyframe : list byte -> bool := h26x_nalu_is_random_access H264.

(** ** Packetizing *)

Definition rtp_packet (pt seq ts ssrc : Z) (marker : bool) (bs : list byte) : RtpPacket :=
  mk_packet (mk_header 2 pt seq ts ssrc marker) bs.

(** The payloads of the fragments of one unit. [head_bytes] go in front of the FU header;
    [cursor] is 0 in the first turn, and every turn takes a byte at least. *)
Fixpoint fu_loop (fuel max_chunk : nat) (head_bytes : list byte) (nal_type : Z) (start : bool)
    (cursor : list byte) : list (list byte) :=
  match fuel with
  | O => []
  | S fuel =>
      match cursor with
      | [] => []
      | _ =>
          let take_len := Nat.min (length cursor) max_chunk in
          let end_ := bool_decide (drop take_len cursor = []) in
          let fu_header := Z.lor (Z.lor nal_type (if start then 0x80 else 0))
                             (if end_ then 0x40 else 0) in
          (head_bytes ++ [byte_of fu_header] ++ take take_len cursor)
          :: fu_loop fuel max_chunk head_bytes nal_type false (drop take_len cursor)
      end
  end.

Definition fragments (max_chunk : nat) (head_bytes : list byte) (nal_type : Z)
    (fu_payload : list byte) : list (list byte) :=
  fu_loop (length fu_payload) max_chunk head_bytes nal_type true fu_payload.

(** Packets in sequence; of the unit that [last_unit] tells is the last one, the last packet
    has the marker. *)
Fixpoint number_packets (pt seq ts ssrc : Z) (last_unit : bool) (payloads : list (list byte)) :
    list RtpPacket * Z :=
  match payloads with
  | [] => ([], seq)
  | bs :: payloads' =>
      let '(ps, seq') := number_packets pt (wrap_u 16 (seq + 1)) ts ssrc last_unit payloads' in
      (rtp_packet pt seq ts ssrc (last_unit && bool_decide (payloads' = [])) bs :: ps, seq')
  end.

Section units.
Context (unit_payloads : list byte -> list (list byte)) (pt ts ssrc : Z).

(** [for (unit_index, unit) in units.iter().enumerate()] *)
Fixpoint packetize_units (seq : Z) (units : list (list byte)) : list RtpPacket * Z :=
  match units with
  | [] => ([], seq)
  | u :: units' =>
      let '(ps, seq) := number_packets pt seq ts ssrc (bool_decide (units' = [])) (unit_payloads u) in
      let '(ps', seq) := packetize_units seq units' in
      (ps ++ ps', seq)
  end.
End units.

Definition h264_unit_payloads (max_payload : nat) (u : list byte) : list (list byte) :=
  match u with
  | [] => []
  | b0 :: fu_payload =>
      if (length u <=? max_payload)%nat then [u] else
      fragments (Nat.max (max_payload - 2) 1) [byte_of (Z.lor (Z.land (byte_val b0) 0xe0) 28)]
        (Z.land (byte_val b0) 0x1f) fu_payload
  end.

Definition stap_len (units : list (list byte)) : nat :=
  (1 + sum_list_with (fun u => length u + 2) units)%nat.

Definition stap_nri (units : list (list byte)) : Z :=
  fold_left (fun acc u => Z.lor acc (Z.land (at_ u 0) 0x60)) units 0.

Definition stap_payload (units : list (list byte)) : list byte :=
  byte_of (Z.lor (stap_nri units) 24)
  :: concat (map (fun u => be_bytes 2 (Z.of_nat (length u)) ++ u) units).

Definition units_or_whole (payload : list byte) : list (list byte) :=
  match split_annexb_units payload with [] => [payload] | units => units end.

(** The packets and the new value of [seq]. *)
Definition packetize_h264 (payload : list byte) (pt seq ts ssrc : Z) (mtu : nat) :
    list RtpPacket * Z :=
  let max_payload := Nat.max (mtu - 12) 32 in
  let units := units_or_whole payload in
  if (1 <? length units)%nat && (stap_len units <=? max_payload)%nat
     && forallb (fun u => Z.of_nat (length u) <=? 65535) units
  then ([rtp_packet pt seq ts ssrc true (stap_payload units)], wrap_u 16 (seq + 1))
  else packetize_units (h264_unit_payloads max_payload) pt ts ssrc seq units.

Definition h265_unit_payloads (max_payload : nat) (u : list byte) : list (list byte) :=
  if (length u <=? max_payload)%nat then [u] else
  match h265_nal_type u with
  | None => []
  | Some nal_type =>
      fragments (Nat.max (max_payload - 3) 1)
        [byte_of (Z.lor (Z.land (at_ u 0) 0x81) (Z.shiftl 49 1)); byte_of (at_ u 1)]
        nal_type (drop 2 u)
  end.

Definition packetize_h265 (payload : list byte) (pt seq ts ssrc : Z) (mtu : nat) :
    list RtpPacket * Z :=
  let max_payload := Nat.max (mtu - 12) 3 in
  let units := List.filter (fun u => (2 <=? length u)%nat && bool_decide (h265_nal_type u <> Some 35))
                 (units_or_whole payload) in
  packetize_units (h265_unit_payloads max_payload) pt ts ssrc seq units.

(** ** Depacketizing units *)

Inductive DepacketizeResult : Set :=
| Nalu (bs : list byte) (keyframe : bool)
| NeedMore
| DropCurrent.

Definition H26X_DEPACKETIZER_MAX_FU_BUFFER_BYTES : Z := 4 * 1024 * 1024.
Definition H26X_DEPACKETIZER_MAX_ACCESS_UNIT_BYTES : Z := 8 * 1024 * 1024.

(** The loop over an aggregation packet. [short] units end it, delimiters are skipped. *)
Fixpoint stap_loop (fuel : nat) (short delimiter key : list byte -> bool) (cursor out : list byte)
    (keyframe : bool) : list byte * bool :=
  match fuel with
  | O => (out, keyframe)
  | S fuel =>
      if (length cursor <? 2)%nat then (out, keyframe) else
      let size := Z.to_nat (be_val (sub_ 0 2 cursor)) in
      let cursor := drop 2 cursor in
      if (size =? 0)%nat || (length cursor <? size)%nat then (out, keyframe) else
      let u := take size cursor in
      if short u then (out, keyframe) else
      if delimiter u then stap_loop fuel short delimiter key (drop size cursor) out keyframe
      else stap_loop fuel short delimiter key (drop size cursor) (out ++ START_CODE ++ u)
             (keyframe || key u)
  end.

Definition stap_result (r : list byte * bool) : DepacketizeResult :=
  match r.1 with [] => NeedMore | _ => Nalu r.1 r.2 end.

(** A fragment: [start_bytes] open the buffer, [body] is appended, and the unit is complete
    with the last one. *)
Definition fu_step (key : list byte -> bool) (start end_ : bool) (start_bytes body fu : list byte) :
    DepacketizeResult * list byte :=
  let fu := if start then start_bytes else fu in
  match fu with
  | [] => (NeedMore, [])
  | _ =>
      if H26X_DEPACKETIZER_MAX_FU_BUFFER_BYTES <? Z.of_nat (length fu + length body) then
        (DropCurrent, [])
      else
        let fu := fu ++ body in
        if negb end_ then (NeedMore, fu) else (Nalu (START_CODE ++ fu) (key fu), [])
  end.

Definition h264_is_aud (u : list byte) : bool := is_some_and (fun t => t =? 9) (h264_nal_type u).

Definition depacketize_h264_with_status (payload fu : list byte) : DepacketizeResult * list byte :=
  match payload with
  | [] => (NeedMore, fu)
  | b0 :: rest =>
      let nal_type := Z.land (byte_val b0) 0x1f in
      if (1 <=? nal_type) && (nal_type <=? 23) then
        if nal_type =? 9 then (NeedMore, fu)
        else (Nalu (START_CODE ++ payload) (h264_nalu_is_keyframe payload), fu)
      else if nal_type =? 24 then
        (stap_result (stap_loop (length rest) (fun _ => false) h264_is_aud h264_nalu_is_keyframe
                        rest [] false), fu)
      else if nal_type =? 28 then
        match rest with
        | [] => (NeedMore, fu)
        | fu_header :: body =>
            let start := negb (Z.land (byte_val fu_header) 0x80 =? 0) in
            let end_ := negb (Z.land (byte_val fu_header) 0x40 =? 0) in
            let nal_header := byte_of (Z.lor (Z.land (byte_val b0) 0xe0)
                                         (Z.land (byte_val fu_header) 0x1f)) in
            fu_step h264_nalu_is_keyframe start end_ [nal_header] body fu
        end
      else (NeedMore, fu)
  end.

Definition h265_is_aud (u : list byte) : bool := is_some_and (fun t => t =? 35) (h265_nal_type u).

Definition depacketize_h265_with_status (codec : CodecId) (payload fu : list byte) :
    DepacketizeResult * list byte :=
  match payload with
  | b0 :: b1 :: rest =>
      let key := h26x_nalu_is_random_access codec in
      if bool_decide (codec = H266) then (Nalu (START_CODE ++ payload) (key payload), fu) else
      let nal_type := Z.land (Z.shiftr (byte_val b0) 1) 0x3f in
      if nal_type <=? 47 then
        if nal_type =? 35 then (NeedMore, fu) else (Nalu (START_CODE ++ payload) (key payload), fu)
      else if nal_type =? 48 then
        (stap_result (stap_loop (length rest) (fun u => (length u <? 2)%nat) h265_is_aud key
                        rest [] false), fu)
      else if nal_type =? 49 then
        match rest with
        | [] => (NeedMore, fu)
        | fu_header :: body =>
            let start := negb (Z.land (byte_val fu_header) 0x80 =? 0) in
            let end_ := negb (Z.land (byte_val fu_header) 0x40 =? 0) in
            let fu_type := Z.land (byte_val fu_header) 0x3f in
            let nal_header_0 := byte_of (Z.lor (Z.land (byte_val b0) 0x81) (Z.shiftl fu_type 1)) in
            fu_step key start end_ [nal_header_0; b1] body fu
        end
      else (NeedMore, fu)
  | _ => (NeedMore, fu)
  end.

(** ** Assembling access units *)

Record PublishDepacketizer : Set := mk_depacketizer {
  fu_buffer : list byte;
  access_unit : list byte;
  access_unit_timestamp : option Z;
  access_unit_last_sequence : option Z;
  access_unit_keyframe : bool;
  access_unit_marker_seen : bool
}.

Definition depacketizer_default : PublishDepacketizer := mk_depacketizer [] [] None None false false.

(** [reset_publish_h264_depacketizer_state] and that of H.265. *)
Definition reset_state (st : PublishDepacketizer) : PublishDepacketizer := depacketizer_default.

Definition AccessUnit : Type := list byte * bool * Z * Z.

Section assembler.
Context (with_status : list byte -> list byte -> DepacketizeResult * list byte).

(** A packet with a new timestamp ends the unit before it. *)
Definition open_access_unit (p : RtpPacket) (st : PublishDepacketizer) :
    option AccessUnit * PublishDepacketizer :=
  let ts := timestamp (header p) in
  let fresh := mk_depacketizer [] [] (Some ts) (Some (seq_of p)) false false in
  match access_unit_timestamp st with
  | Some current_ts =>
      if current_ts =? ts then (None, st) else
      ((if access_unit_marker_seen st && bool_decide (access_unit st <> []) then
          Some (access_unit st, access_unit_keyframe st, current_ts,
                default (seq_of p) (access_unit_last_sequence st))
        else None), fresh)
  | None =>
      (None, mk_depacketizer (fu_buffer st) (access_unit st) (Some ts) (Some (seq_of p))
               (access_unit_keyframe st) (access_unit_marker_seen st))
  end.

(** The marker ends a unit with a keyframe at once. *)
Definition close_access_unit (completed_previous : option AccessUnit) (p : RtpPacket)
    (st : PublishDepacketizer) : option AccessUnit * PublishDepacketizer :=
  if marker (header p) then
    let first_marker_for_timestamp := negb (access_unit_marker_seen st) in
    if first_marker_for_timestamp && bool_decide (completed_previous = None)
       && access_unit_keyframe st && bool_decide (access_unit st <> []) then
      (Some (access_unit st, access_unit_keyframe st, timestamp (header p), seq_of p),
       mk_depacketizer (fu_buffer st) [] (access_unit_timestamp st) (Some (seq_of p)) false true)
    else
      (completed_previous,
       mk_depacketizer (fu_buffer st) (access_unit st) (access_unit_timestamp st)
         (access_unit_last_sequence st) (access_unit_keyframe st) true)
  else (completed_previous, st).

Definition add_to_access_unit (completed_previous : option AccessUnit) (p : RtpPacket)
    (st : PublishDepacketizer) : option AccessUnit * PublishDepacketizer :=
  let '(r, fu) := with_status (payload p) (fu_buffer st) in
  match r with
  | Nalu bs keyframe =>
      if H26X_DEPACKETIZER_MAX_ACCESS_UNIT_BYTES <? Z.of_nat (length (access_unit st) + length bs)
      then (None, reset_state st)
      else close_access_unit completed_previous p
             (mk_depacketizer fu (access_unit st ++ bs) (access_unit_timestamp st)
                (Some (seq_of p)) (access_unit_keyframe st || keyframe)
                (access_unit_marker_seen st))
  | NeedMore =>
      close_access_unit completed_previous p
        (mk_depacketizer fu (access_unit st) (access_unit_timestamp st)
           (access_unit_last_sequence st) (access_unit_keyframe st) (access_unit_marker_seen st))
  | DropCurrent => (completed_previous, reset_state st)
  end.

Definition depacketize_access_unit (p : RtpPacket) (st : PublishDepacketizer) :
    option AccessUnit * PublishDepacketizer :=
  let '(completed_previous, st) := open_access_unit p st in
  add_to_access_unit completed_previous p st.

(** Packet after packet, as they come. *)
Fixpoint depacketize_all (ps : list RtpPacket) (st : PublishDepacketizer) :
    list AccessUnit * PublishDepacketizer :=
  match ps with
  | [] => ([], st)
  | p :: ps =>
      let '(o, st) := depacketize_access_unit p st in
      let '(os, st) := depacketize_all ps st in
      (option_list o ++ os, st)
  end.
End assembler.

Definition depacketize_h264_access_unit : RtpPacket -> PublishDepacketizer ->
    option AccessUnit * PublishDepacketizer :=
  depacketize_access_unit depacketize_h264_with_status.

Definition depacketize_h265_access_unit (codec : CodecId) : RtpPacket -> PublishDepacketizer ->
    option AccessUnit * PublishDepacketizer :=
  depacketize_access_unit (depacketize_h265_with_status codec).
