(* ===== verification/RtpH26xSpec.v ===== *)
(** * Access units across RTP

    What RtpH26x packs it also assembles: the units of an access unit, and a stream of
    access units packet by packet. The two codecs are instances of the class [NalFormat],
    against which the assembler is treated. *)
From Stdlib Require Import Strings.Byte Sorting.Sorted.
From S2P Require Import Prelude RtmpBytes Codecs Rtp RtpH26x.

(** ** Annex B *)

Definition annexb (units : list (list byte)) : list byte :=
  concat (map (fun u => START_CODE ++ u) units).

(** A unit in which no start code begins, also not at its end. *)
Definition clean (u : list byte) : Prop :=
  u <> [] /\ find_start_code (u ++ START_CODE) = Some (length u, 4%nat).

(** Whether a start code begins with these bytes, and its length. *)
Definition code_here (a b c : byte) (rest : list byte) : option nat :=
  if bool_decide (a = x00 /\ b = x00) then
    if bool_decide (c = x01) then Some 3%nat
    else if bool_decide (c = x00 /\ head rest = Some x01) then Some 4%nat else None
  else None.

Lemma find_step (i : nat) a b c rest :
  find_start_code_from i (a :: b :: c :: rest)
  = match code_here a b c rest with
    | Some l => Some (i, l)
    | None => find_start_code_from (S i) (b :: c :: rest)
    end.
Proof. unfold code_here. cbn [find_start_code_from]. by repeat case_bool_decide. Qed.

Lemma code_here_app a b c rest e l :
  code_here a b c rest = Some l -> code_here a b c (rest ++ e) = Some l.
Proof.
  unfold code_here. repeat case_bool_decide; try done.
  destruct rest; naive_solver.
Qed.

(** The end of the data can hide a four-byte code, but then it has no later one. *)
Lemma code_here_later a b c rest e i r :
  find_start_code_from i (b :: c :: rest) = Some r ->
  code_here a b c rest = None -> code_here a b c (rest ++ e) = None.
Proof.
  destruct rest; [done|]. intros _. unfold code_here. by repeat case_bool_decide.
Qed.

Lemma find_start_code_app (i : nat) (d e : list byte) r :
  find_start_code_from i d = Some r -> find_start_code_from i (d ++ e) = Some r.
Proof.
  revert i. induction d as [|a d IH]; intros i; [done|].
  destruct d as [|b [|c d]]; [done..|]. cbn [app]. rewrite !find_step.
  destruct (code_here a b c d) as [l|] eqn:E.
  - by rewrite (code_here_app _ _ _ _ e _ E).
  - intros H. rewrite (code_here_later _ _ _ _ e _ _ H E). by apply IH.
Qed.

Lemma find_start_code_bound (i : nat) (d : list byte) j l :
  find_start_code_from i d = Some (j, l) -> (j + l <= i + length d)%nat.
Proof.
  revert i. induction d as [|a d IH]; intros i; [done|].
  destruct d as [|b [|c d]]; [done..|]. rewrite find_step.
  destruct (code_here a b c d) as [k|] eqn:E.
  - intros [= <- <-]. revert E. unfold code_here.
    repeat case_bool_decide; try done; intros [= <-]; cbn [length]; [lia|].
    destruct d; [naive_solver|]. cbn [length]. lia.
  - intros H%IH. cbn [length] in *. lia.
Qed.

Lemma clean_none (u : list byte) : clean u -> find_start_code u = None.
Proof.
  intros [_ C]. destruct (find_start_code u) as [[j l]|] eqn:E; [|done].
  pose proof (find_start_code_bound _ _ _ _ E).
  apply (find_start_code_app _ _ START_CODE) in E. unfold find_start_code in C.
  rewrite E in C. injection C as -> ->. lia.
Qed.

(** Splitting gives the units back. *)
Lemma split_annexb (units : list (list byte)) :
  Forall clean units -> split_annexb_units (annexb units) = units.
Proof.
  unfold split_annexb_units.
  assert (G : forall fuel, (length units <= fuel)%nat -> Forall clean units ->
              split_loop fuel (annexb units) = units).
  { induction units as [|u units IH]; intros fuel L C; [by destruct fuel|].
    destruct fuel as [|fuel]; [cbn in L; lia|]. apply Forall_cons in C as [[Ne Cu] C].
    unfold annexb. cbn [map concat split_loop]. fold (annexb units).
    change (find_start_code ((START_CODE ++ u) ++ annexb units)) with (Some (0%nat, 4%nat)).
    cbv iota beta. change (drop (0 + 4) ((START_CODE ++ u) ++ annexb units)) with (u ++ annexb units).
    assert (N : match find_start_code (u ++ annexb units) with
                | Some (idx, _) => idx
                | None => length (u ++ annexb units)
                end = length u).
    { destruct units as [|u' units].
      - change (annexb []) with (@nil byte). rewrite app_nil_r.
        by rewrite (clean_none u) by done.
      - unfold annexb. cbn [map concat]. rewrite <- !app_assoc, app_assoc.
        unfold find_start_code in *. by rewrite (find_start_code_app _ _ _ _ Cu). }
    rewrite N. rewrite (proj2 (Nat.ltb_lt 0 (length u))) by (destruct u; [done|cbn; lia]).
    rewrite take_app_length, drop_app_length. cbn [app]. f_equal.
    apply IH; [cbn [length] in L; lia|done]. }
  apply G. clear G. induction units as [|u units IH]; [cbn; lia|].
  unfold annexb in *. cbn [map concat length]. rewrite length_app.
  change (length (START_CODE ++ u)) with (S (S (S (S (length u))))). lia.
Qed.

(** ** Payload after payload

    The units that a sequence of payloads yields, whether there is a keyframe among them,
    and the fragment buffer afterwards; [None] when something is dropped. *)

Definition unit_depacketizer : Type := list byte -> list byte -> DepacketizeResult * list byte.

Definition yield (r : DepacketizeResult) : option (list byte * bool) :=
  match r with
  | Nalu bs k => Some (bs, k)
  | NeedMore => Some ([], false)
  | DropCurrent => None
  end.

Fixpoint collect (ws : unit_depacketizer) (fu : list byte) (payloads : list (list byte)) :
    option (list byte * bool * list byte) :=
  match payloads with
  | [] => Some ([], false, fu)
  | bs :: payloads =>
      match yield (ws bs fu).1, collect ws (ws bs fu).2 payloads with
      | Some (o1, k1), Some (o2, k2, fu') => Some (o1 ++ o2, k1 || k2, fu')
      | _, _ => None
      end
  end.

Lemma collect_app ws fu ps qs o1 k1 f1 o2 k2 f2 :
  collect ws fu ps = Some (o1, k1, f1) -> collect ws f1 qs = Some (o2, k2, f2) ->
  collect ws fu (ps ++ qs) = Some (o1 ++ o2, k1 || k2, f2).
Proof.
  revert fu o1 k1. induction ps as [|bs ps IH]; intros fu o1 k1; cbn [collect app].
  { intros [= <- <- <-] H. exact H. }
  destruct (yield _) as [[o k]|]; [|done].
  destruct (collect ws (ws bs fu).2 ps) as [[[o' k'] f']|] eqn:E; [|done].
  intros [= <- <- <-] H. rewrite (IH _ _ _ E H). by rewrite <- app_assoc, <- orb_assoc.
Qed.

Lemma collect_one ws fu bs o k f :
  ws bs fu = (Nalu o k, f) -> collect ws fu [bs] = Some (o, k, f).
Proof. intros H. cbn [collect]. rewrite H. cbn. by rewrite app_nil_r, orb_false_r. Qed.

(** *** Fragments *)

Section fragments.
Context (ws : unit_depacketizer) (key : list byte -> bool) (max_chunk : nat)
  (head_bytes : list byte) (nal_type : Z) (start_bytes : list byte).
Hypothesis chunk_pos : (0 < max_chunk)%nat.
Hypothesis start_some : start_bytes <> [].
(** A fragment is read as one of this unit. *)
Hypothesis read_fragment : forall (start end_ : bool) body fu,
  ws (head_bytes ++ [byte_of (Z.lor (Z.lor nal_type (if start then 0x80 else 0))
                                (if end_ then 0x40 else 0))] ++ body) fu
  = fu_step key start end_ start_bytes body fu.

Lemma fu_loop_collect (fuel : nat) (start : bool) (cursor fu : list byte) :
  (length cursor <= fuel)%nat -> cursor <> [] ->
  let acc := if start then start_bytes else fu in
  acc <> [] -> Z.of_nat (length acc + length cursor) <= H26X_DEPACKETIZER_MAX_FU_BUFFER_BYTES ->
  collect ws fu (fu_loop fuel max_chunk head_bytes nal_type start cursor)
  = Some (START_CODE ++ acc ++ cursor, key (acc ++ cursor), []).
Proof.
  revert start cursor fu. induction fuel as [|fuel IH]; intros start cursor fu L Ne acc Na B.
  { destruct cursor; [done|cbn [length] in L; lia]. }
  cbn [fu_loop]. destruct cursor as [|z cursor]; [done|]. set (c := z :: cursor) in *.
  set (k := Nat.min (length c) max_chunk).
  assert (K : (0 < k <= length c)%nat) by (subst k c; cbn [length]; lia). clearbody k.
  cbn [collect]. rewrite read_fragment. unfold fu_step. fold acc.
  destruct acc as [|a acc'] eqn:Ea; [done|]. rewrite <- Ea in *.
  assert (T : length (take k c) = k) by (rewrite length_take; lia).
  rewrite T. destruct (Z.ltb_spec H26X_DEPACKETIZER_MAX_FU_BUFFER_BYTES
                         (Z.of_nat (length acc + k))); [lia|].
  case_bool_decide as D; cbn [negb fst snd yield].
  - assert (E : fu_loop fuel max_chunk head_bytes nal_type false (drop k c) = [])
      by (rewrite D; by destruct fuel).
    rewrite E. cbn [collect]. rewrite app_nil_r, orb_false_r.
    assert (Ec : take k c = c) by (rewrite <- (take_drop k c) at 2; by rewrite D, app_nil_r).
    by rewrite Ec.
  - specialize (IH false (drop k c) (acc ++ take k c)). cbv zeta in IH.
    rewrite IH; [by rewrite <- app_assoc, take_drop|..].
    + rewrite length_drop. lia.
    + done.
    + rewrite Ea. done.
    + rewrite length_app, T, length_drop. lia.
Qed.

Lemma fragments_collect (fu_payload fu : list byte) :
  fu_payload <> [] ->
  Z.of_nat (length start_bytes + length fu_payload) <= H26X_DEPACKETIZER_MAX_FU_BUFFER_BYTES ->
  collect ws fu (fragments max_chunk head_bytes nal_type fu_payload)
  = Some (START_CODE ++ start_bytes ++ fu_payload, key (start_bytes ++ fu_payload), []).
Proof. intros Ne B. by apply (fu_loop_collect _ true). Qed.
End fragments.

(** *** Aggregation packets *)

Lemma stap_loop_units (fuel : nat) (short del key : list byte -> bool) us out (k : bool) :
  (forall u, u ∈ us -> u <> [] /\ Z.of_nat (length u) <= 65535 /\ short u = false) ->
  (length us <= fuel)%nat ->
  stap_loop fuel short del key (concat (map (fun u => be_bytes 2 (Z.of_nat (length u)) ++ u) us)) out k
  = (out ++ annexb (List.filter (fun u => negb (del u)) us),
     k || existsb key (List.filter (fun u => negb (del u)) us)).
Proof.
  revert fuel out k. induction us as [|u us IH]; intros fuel out k H L.
  { destruct fuel; cbn; by rewrite app_nil_r, orb_false_r. }
  destruct fuel as [|fuel]; [cbn in L; lia|].
  destruct (H u ltac:(left)) as (Ne & Lu & Su).
  assert (IH' : forall out k, stap_loop fuel short del key
     (concat (map (fun u => be_bytes 2 (Z.of_nat (length u)) ++ u) us)) out k = _) by
    (intros o k'; apply IH; [intros v Hv; apply H; by right|cbn [length] in L; lia]).
  clear IH. cbn [map concat stap_loop].
  set (rest := concat (map _ us)) in *.
  destruct (framed_body [] u rest) as [E1 _].
  { unfold in_u. change (2 ^ 16) with 65536. lia. }
  cbn [app length] in E1. rewrite <- app_assoc.
  destruct (Nat.ltb_spec (length (be_bytes 2 (Z.of_nat (length u)) ++ u ++ rest)) 2) as [C|_].
  { rewrite length_app, length_be_bytes in C. lia. }
  rewrite E1. rewrite drop_app_length' by (by rewrite length_be_bytes).
  assert (Z0 : (length u =? 0)%nat = false) by (destruct u; done). rewrite Z0.
  destruct (Nat.ltb_spec (length (u ++ rest)) (length u)) as [C|_].
  { rewrite length_app in C. lia. }
  rewrite take_app_length, drop_app_length. cbn [orb]. rewrite Su. rewrite !IH'.
  cbn [List.filter]. destruct (del u); cbn [negb]; [done|].
  unfold annexb. cbn [map concat existsb]. by rewrite <- !app_assoc, orb_assoc.
Qed.

(** ** Packets of an access unit *)

Lemma number_packets_spec pt seq ts ssrc lst payloads :
  let '(ps, seq') := number_packets pt seq ts ssrc lst payloads in
  map payload ps = payloads /\ Forall (fun p => timestamp (header p) = ts) ps /\
  (forall i p, ps !! i = Some p ->
     marker (header p) = lst && bool_decide (S i = length payloads)) /\
  (forall e, seq = wrap_u 16 e -> Forall2 extends (consecutive e (length ps)) ps /\
     seq' = wrap_u 16 (e + Z.of_nat (length ps))).
Proof.
  revert seq. induction payloads as [|bs payloads IH]; intros seq; cbn [number_packets].
  { split_and!; [done|constructor|done|]. intros e ->. cbn. by rewrite Z.add_0_r. }
  specialize (IH (wrap_u 16 (seq + 1))).
  destruct (number_packets pt (wrap_u 16 (seq + 1)) ts ssrc lst payloads) as [ps seq'].
  destruct IH as (E & T & M & N). split_and!.
  - cbn. by rewrite E.
  - by constructor.
  - intros [|i] p.
    + intros [= <-]. cbn. f_equal. apply bool_decide_ext. destruct payloads; cbn; naive_solver lia.
    + intros Hi. rewrite (M i p Hi). f_equal. apply bool_decide_ext. cbn. lia.
  - intros e ->. destruct (N (e + 1)) as [N1 N2].
    { unfold wrap_u. by rewrite Zplus_mod_idemp_l. }
    split; [by constructor|]. rewrite N2. cbn [length]. f_equal. lia.
Qed.

Lemma consecutive_app e n k :
  consecutive e (n + k) = consecutive e n ++ consecutive (e + Z.of_nat n) k.
Proof.
  revert e. induction n as [|n IH]; intros e; cbn [Nat.add consecutive app].
  { by rewrite Z.add_0_r. }
  rewrite IH. do 3 f_equal. lia.
Qed.

(** All units have some packet: the marker is on the last packet only. *)
Lemma packetize_units_spec f pt ts ssrc seq units :
  let '(ps, seq') := packetize_units f pt ts ssrc seq units in
  map payload ps = concat (map f units) /\
  Forall (fun p => timestamp (header p) = ts) ps /\
  (Forall (fun u => f u <> []) units ->
   forall i p, ps !! i = Some p -> marker (header p) = bool_decide (S i = length ps)) /\
  (forall e, seq = wrap_u 16 e -> Forall2 extends (consecutive e (length ps)) ps /\
     seq' = wrap_u 16 (e + Z.of_nat (length ps))).
Proof.
  revert seq. induction units as [|u units IH]; intros seq; cbn [packetize_units].
  { split_and!; [done|constructor|done|]. intros e ->. cbn. by rewrite Z.add_0_r. }
  pose proof (number_packets_spec pt seq ts ssrc (bool_decide (units = [])) (f u)) as H.
  destruct (number_packets pt seq ts ssrc (bool_decide (units = [])) (f u)) as [ps1 s1].
  destruct H as (E1 & T1 & M1 & N1).
  specialize (IH s1). destruct (packetize_units f pt ts ssrc s1 units) as [ps2 s2].
  destruct IH as (E2 & T2 & M2 & N2).
  assert (L1 : length ps1 = length (f u)) by (rewrite <- E1; by rewrite length_map).
  split_and!.
  - cbn [map concat]. by rewrite map_app, E1, E2.
  - by apply Forall_app.
  - intros [Nu Nus]%Forall_cons i p Hi. rewrite length_app.
    assert (units <> [] -> (0 < length ps2)%nat).
    { intros Ne. destruct units as [|u' units]; [done|]. apply Forall_cons in Nus as [Nu' _].
      assert (length ps2 = length (map payload ps2)) as -> by (by rewrite length_map).
      rewrite E2. cbn [map concat]. rewrite length_app. destruct (f u'); [done|cbn; lia]. }
    apply lookup_app_Some in Hi as [Hi|[L Hi]].
    + rewrite (M1 i p Hi), <- L1. apply lookup_lt_Some in Hi.
      destruct units as [|u' units]; cbn [bool_decide].
      * assert (ps2 = []) as -> by (destruct ps2; [done|by cbn in E2]). cbn [length].
        rewrite bool_decide_true, andb_true_l by done. apply bool_decide_ext. lia.
      * rewrite bool_decide_false, andb_false_l by done. rewrite bool_decide_false; [done|].
        specialize (H ltac:(done)). lia.
    + rewrite (M2 Nus _ p Hi). apply bool_decide_ext. lia.
  - intros e He. destruct (N1 e He) as [A1 B1]. destruct (N2 _ B1) as [A2 B2].
    rewrite length_app, consecutive_app. split; [by apply Forall2_app|].
    rewrite B2. f_equal. lia.
Qed.

(** ** The formats

    What an access unit assembler needs of a codec: its packets, read one by one, yield
    the units that are kept, with the marker on the last packet. *)
Class NalFormat (ws : unit_depacketizer)
    (packetize : list byte -> Z -> Z -> Z -> Z -> nat -> list RtpPacket * Z)
    (unit_ok : list byte -> Prop) (keep key : list byte -> bool) : Prop := {
  packetize_yields : forall bs pt seq ts ssrc mtu,
    Forall unit_ok (split_annexb_units bs) ->
    List.filter keep (split_annexb_units bs) <> [] ->
    let '(ps, seq') := packetize bs pt seq ts ssrc mtu in
    let kept := List.filter keep (split_annexb_units bs) in
    collect ws [] (map payload ps) = Some (annexb kept, existsb key kept, []) /\
    Forall (fun p => timestamp (header p) = ts) ps /\
    (forall i p, ps !! i = Some p -> marker (header p) = bool_decide (S i = length ps)) /\
    (forall e, seq = wrap_u 16 e -> Forall2 extends (consecutive e (length ps)) ps /\
       seq' = wrap_u 16 (e + Z.of_nat (length ps)))
}.

(** A check of all bytes. *)
Lemma byte_check (P : byte -> bool) :
  forallb P (map (fun n => byte_of (Z.of_nat n)) (seq 0 256)) = true -> forall b, P b = true.
Proof.
  rewrite forallb_forall. intros H b. apply H. apply in_map_iff.
  pose proof (byte_val_range b). exists (Z.to_nat (byte_val b)).
  rewrite Z2Nat.id, byte_of_val by lia. split; [done|]. apply in_seq. lia.
Qed.

Lemma concat_collect ws f (keep key : list byte -> bool) units :
  Forall (fun u => collect ws [] (f u)
                   = Some (if keep u then START_CODE ++ u else [], keep u && key u, [])) units ->
  let kept := List.filter keep units in
  collect ws [] (concat (map f units)) = Some (annexb kept, existsb key kept, []).
Proof.
  induction 1 as [|u units Hu _ IH]; [done|]. cbn [map concat List.filter]. cbv zeta in *.
  rewrite (collect_app _ _ _ _ _ _ _ _ _ _ Hu IH). unfold annexb.
  by destruct (keep u).
Qed.

Lemma annexb_units_nonempty (keep : list byte -> bool) bs :
  List.filter keep (split_annexb_units bs) <> [] -> units_or_whole bs = split_annexb_units bs.
Proof. unfold units_or_whole. by destruct (split_annexb_units bs). Qed.

(** *** H.264 *)

Definition h264_keep (u : list byte) : bool := negb (h264_is_aud u).

(** A unit as an encoder makes it: a type of its own, no delimiter that needs fragments. *)
Definition h264_unit_ok (u : list byte) : Prop :=
  is_some_and (fun t => (1 <=? t) && (t <=? 23)) (h264_nal_type u) = true /\
  (h264_is_aud u = true -> (length u <= 32)%nat) /\
  Z.of_nat (length u) <= H26X_DEPACKETIZER_MAX_FU_BUFFER_BYTES.

#[export] Instance h264_unit_ok_dec (u : list byte) : Decision (h264_unit_ok u).
Proof. unfold h264_unit_ok. apply _. Defined.

Lemma h264_fragment (b0 : byte) (start end_ : bool) body fu :
  depacketize_h264_with_status
    ([byte_of (Z.lor (Z.land (byte_val b0) 0xe0) 28)]
     ++ [byte_of (Z.lor (Z.lor (Z.land (byte_val b0) 0x1f) (if start then 0x80 else 0))
                    (if end_ then 0x40 else 0))] ++ body) fu
  = fu_step h264_nalu_is_keyframe start end_ [b0] body fu.
Proof.
  pose proof (byte_check (fun b0 =>
    let ind := byte_val (byte_of (Z.lor (Z.land (byte_val b0) 0xe0) 28)) in
    let fh := byte_val (byte_of (Z.lor (Z.lor (Z.land (byte_val b0) 0x1f) (if start then 0x80 else 0))
                         (if end_ then 0x40 else 0))) in
    (Z.land ind 0x1f =? 28) && eqb (negb (Z.land fh 0x80 =? 0)) start
    && eqb (negb (Z.land fh 0x40 =? 0)) end_
    && bool_decide (byte_of (Z.lor (Z.land ind 0xe0) (Z.land fh 0x1f)) = b0))
    ltac:(destruct start, end_; by vm_compute) b0) as C.
  cbv beta zeta in C. rewrite !andb_true_iff in C. destruct C as [[[C1 C2] C3] C4].
  apply Z.eqb_eq in C1. apply eqb_prop in C2, C3. apply bool_decide_eq_true in C4.
  cbn [app depacketize_h264_with_status]. rewrite C1, C2, C3, C4. done.
Qed.

Lemma h264_unit_collect (max_payload : nat) (u : list byte) :
  (32 <= max_payload)%nat -> h264_unit_ok u ->
  collect depacketize_h264_with_status [] (h264_unit_payloads max_payload u)
  = Some (if h264_keep u then START_CODE ++ u else [], h264_keep u && h264_nalu_is_keyframe u, []).
Proof.
  intros M (T & A & B). destruct u as [|b0 body]; [done|].
  unfold h264_keep, h264_is_aud in *. cbn [h264_nal_type head fmap option_fmap option_map is_some_and] in *.
  cbn [h264_unit_payloads].
  destruct (Nat.leb_spec (length (b0 :: body)) max_payload) as [L|L].
  - cbn [collect depacketize_h264_with_status]. rewrite T.
    destruct (Z.land (byte_val b0) 0x1f =? 9); [done|]. cbn [fst snd yield negb andb].
    by rewrite app_nil_r, orb_false_r.
  - destruct (Z.land (byte_val b0) 0x1f =? 9); [specialize (A eq_refl); lia|]. cbn [negb andb].
    apply (fragments_collect _ h264_nalu_is_keyframe _ _ _ [b0]); [lia|done| | |].
    + intros start end_ body' fu. apply h264_fragment.
    + destruct body; [cbn [length] in L; lia|done].
    + exact B.
Qed.

Lemma stap_header (nri : Z) : Z.land nri 0x60 = nri ->
  Z.land (byte_val (byte_of (Z.lor nri 24))) 0x1f = 24.
Proof.
  intros H. rewrite byte_val_of. change 256 with (2 ^ 8). rewrite <- Z.land_ones by lia.
  rewrite <- Z.land_assoc. change (Z.land (Z.ones 8) 0x1f) with 0x1f.
  rewrite Z.land_lor_distr_l, <- H, <- Z.land_assoc. change (Z.land 0x60 0x1f) with 0.
  by rewrite Z.land_0_r.
Qed.

Lemma stap_nri_bits (units : list (list byte)) : Z.land (stap_nri units) 0x60 = stap_nri units.
Proof.
  unfold stap_nri. assert (H : Z.land 0 0x60 = 0) by done. revert H. generalize 0.
  induction units as [|u units IH]; intros acc H; [done|]. cbn [fold_left]. apply IH.
  rewrite Z.land_lor_distr_l, H, <- Z.land_assoc. done.
Qed.

Lemma h264_stap_collect (units : list (list byte)) :
  Forall h264_unit_ok units -> Forall (fun u => Z.of_nat (length u) <= 65535) units ->
  List.filter h264_keep units <> [] ->
  let kept := List.filter h264_keep units in
  collect depacketize_h264_with_status [] [stap_payload units]
  = Some (annexb kept, existsb h264_nalu_is_keyframe kept, []).
Proof.
  intros O S Ne kept. apply collect_one. unfold stap_payload. cbn [depacketize_h264_with_status].
  rewrite stap_header by apply stap_nri_bits.
  change ((1 <=? 24) && (24 <=? 23)) with false. change (24 =? 24) with true. cbv iota.
  rewrite stap_loop_units.
  - cbn [app orb]. fold h264_keep. fold kept. unfold stap_result. cbn [fst snd].
    fold kept in Ne. destruct kept; [by destruct Ne|]. done.
  - intros u Hu. rewrite Forall_forall in O, S. specialize (S u Hu). destruct (O u Hu) as [T _].
    split_and!; [|done|done]. by intros ->.
  - clear O Ne kept. induction S as [|u units Hu S IH]; [cbn; lia|].
    cbn [map concat length]. rewrite !length_app, length_be_bytes. lia.
Qed.

#[export] Instance h264_format :
  NalFormat depacketize_h264_with_status packetize_h264 h264_unit_ok h264_keep h264_nalu_is_keyframe.
Proof.
  constructor. intros bs pt seq ts ssrc mtu O Ne. unfold packetize_h264.
  rewrite (annexb_units_nonempty _ _ Ne). set (units := split_annexb_units bs) in *.
  destruct ((1 <? length units)%nat && _ && _) eqn:S.
  - apply andb_prop in S as [_ S]. rewrite forallb_forall in S.
    split_and!.
    + apply h264_stap_collect; [done| |done]. apply Forall_forall. intros u Hu.
      apply Z.leb_le, S. by apply list_elem_of_In.
    + by repeat constructor.
    + intros [|i] p; [|done]. intros [= <-]. done.
    + intros e ->. split; [by repeat constructor|].
      unfold wrap_u. by rewrite Zplus_mod_idemp_l.
  - pose proof (packetize_units_spec (h264_unit_payloads (Nat.max (mtu - 12) 32)) pt ts ssrc seq units) as H.
    destruct (packetize_units _ pt ts ssrc seq units) as [ps seq'].
    destruct H as (E & T & M & N). split_and!; [|done| |done].
    + rewrite E. apply concat_collect. eapply Forall_impl; [exact O|].
      intros u Hu. apply h264_unit_collect; [lia|done].
    + apply M. eapply Forall_impl; [exact O|]. intros u (Tu & _ & _) Eu.
      destruct u as [|b0 body]; [done|]. cbn [h264_unit_payloads] in Eu.
      destruct (Nat.leb_spec (length (b0 :: body)) (Nat.max (mtu - 12) 32)); [done|].
      destruct body; [cbn [length] in *; lia|done].
Qed.

(** *** H.265 *)

Definition h265_keep (u : list byte) : bool := negb (h265_is_aud u).

Definition h265_unit_ok (u : list byte) : Prop :=
  (2 <= length u)%nat /\ is_some_and (fun t => t <=? 47) (h265_nal_type u) = true /\
  Z.of_nat (length u) <= H26X_DEPACKETIZER_MAX_FU_BUFFER_BYTES.

Definition h265_key : list byte -> bool := h26x_nalu_is_random_access H265.

Lemma h265_fragment (b0 b1 : byte) (start end_ : bool) body fu :
  depacketize_h265_with_status H265
    ([byte_of (Z.lor (Z.land (byte_val b0) 0x81) (Z.shiftl 49 1)); b1]
     ++ [byte_of (Z.lor (Z.lor (Z.land (Z.shiftr (byte_val b0) 1) 0x3f) (if start then 0x80 else 0))
                    (if end_ then 0x40 else 0))] ++ body) fu
  = fu_step h265_key start end_ [b0; b1] body fu.
Proof.
  pose proof (byte_check (fun b0 =>
    let ind := byte_val (byte_of (Z.lor (Z.land (byte_val b0) 0x81) (Z.shiftl 49 1))) in
    let fh := byte_val (byte_of (Z.lor (Z.lor (Z.land (Z.shiftr (byte_val b0) 1) 0x3f)
                                          (if start then 0x80 else 0)) (if end_ then 0x40 else 0))) in
    (Z.land (Z.shiftr ind 1) 0x3f =? 49) && eqb (negb (Z.land fh 0x80 =? 0)) start
    && eqb (negb (Z.land fh 0x40 =? 0)) end_
    && bool_decide (byte_of (Z.lor (Z.land ind 0x81) (Z.shiftl (Z.land fh 0x3f) 1)) = b0))
    ltac:(destruct start, end_; by vm_compute) b0) as C.
  cbv beta zeta in C. rewrite !andb_true_iff in C. destruct C as [[[C1 C2] C3] C4].
  apply Z.eqb_eq in C1. apply eqb_prop in C2, C3. apply bool_decide_eq_true in C4.
  cbn [app depacketize_h265_with_status]. rewrite (bool_decide_false (H265 = H266)) by done.
  rewrite C1, C2, C3, C4. done.
Qed.

Lemma h265_unit_collect (max_payload : nat) (u : list byte) :
  (3 <= max_payload)%nat -> h265_unit_ok u -> h265_keep u = true ->
  collect (depacketize_h265_with_status H265) [] (h265_unit_payloads max_payload u)
  = Some (START_CODE ++ u, h265_key u, []).
Proof.
  intros M (L2 & T & B) K. destruct u as [|b0 [|b1 body]]; [cbn in L2; lia..|].
  unfold h265_keep, h265_is_aud in K. unfold h265_unit_payloads.
  cbn [h265_nal_type head fmap option_fmap option_map is_some_and] in *.
  destruct (Nat.leb_spec (length (b0 :: b1 :: body)) max_payload) as [L|L].
  - apply collect_one. cbn [depacketize_h265_with_status].
    rewrite (bool_decide_false (H265 = H266)), T by done.
    by destruct (Z.land (Z.shiftr (byte_val b0) 1) 0x3f =? 35).
  - change (drop 2 (b0 :: b1 :: body)) with body.
    change (at_ (b0 :: b1 :: body) 0) with (byte_val b0).
    change (at_ (b0 :: b1 :: body) 1) with (byte_val b1). rewrite (byte_of_val b1).
    apply (fragments_collect _ h265_key _ _ _ [b0; b1]); [lia|done| | |exact B].
    + intros start end_ body' fu. apply h265_fragment.
    + destruct body; [cbn [length] in L; lia|done].
Qed.

Lemma filter_filter_keep {A} (f : A -> bool) (l : list A) :
  List.filter f (List.filter f l) = List.filter f l.
Proof.
  induction l as [|x l IH]; [done|]. cbn [List.filter].
  destruct (f x) eqn:E; [cbn [List.filter]; by rewrite E, IH|done].
Qed.

#[export] Instance h265_format :
  NalFormat (depacketize_h265_with_status H265) packetize_h265 h265_unit_ok h265_keep h265_key.
Proof.
  constructor. intros bs pt seq ts ssrc mtu O Ne. unfold packetize_h265.
  rewrite (annexb_units_nonempty _ _ Ne). set (units := split_annexb_units bs) in *.
  assert (E : List.filter (fun u => (2 <=? length u)%nat && bool_decide (h265_nal_type u <> Some 35)) units
              = List.filter h265_keep units).
  { apply List.filter_ext_in. intros u Hu. apply list_elem_of_In in Hu.
    rewrite Forall_forall in O. destruct (O u Hu) as (L & T & _).
    rewrite (proj2 (Nat.leb_le 2 (length u)) L). unfold h265_keep, h265_is_aud.
    destruct (h265_nal_type u) as [t|]; [|done]. cbn [is_some_and andb].
    destruct (Z.eqb_spec t 35) as [->|N]; [by rewrite bool_decide_false by (intros []; done)|].
    rewrite bool_decide_true; [done|]. by intros [= ?]. }
  rewrite E. set (kept := List.filter h265_keep units) in *.
  assert (P : Forall (fun u => h265_unit_ok u /\ h265_keep u = true) kept).
  { apply Forall_forall. intros u Hu. apply list_elem_of_In, filter_In in Hu as [Hu K].
    rewrite Forall_forall in O. split; [apply O; by apply list_elem_of_In|done]. }
  pose proof (packetize_units_spec (h265_unit_payloads (Nat.max (mtu - 12) 3)) pt ts ssrc seq kept) as H.
  destruct (packetize_units _ pt ts ssrc seq kept) as [ps seq'].
  destruct H as (E' & T & M & N). cbv zeta. split_and!; [|done| |done].
  - rewrite E'.
    pose proof (concat_collect (depacketize_h265_with_status H265)
      (h265_unit_payloads (Nat.max (mtu - 12) 3)) h265_keep h265_key kept) as C.
    cbv zeta in C. unfold kept in C at 3 4. rewrite filter_filter_keep in C. apply C.
    eapply Forall_impl; [exact P|]. cbv beta. intros u [Hu K]. rewrite K.
    apply h265_unit_collect; [lia|done..].
  - apply M. eapply Forall_impl; [exact P|]. cbv beta. intros u [(L2 & _ & _) _] Eu.
    destruct u as [|b0 [|b1 body]]; [cbn in L2; lia..|]. unfold h265_unit_payloads in Eu.
    destruct (Nat.leb_spec (length (b0 :: b1 :: body)) (Nat.max (mtu - 12) 3)); [done|].
    destruct body; [cbn [length] in *; lia|done].
Qed.

(** ** The assembler *)

(** An access unit without the sequence number: bytes, keyframe, timestamp. *)
Definition au_view (a : AccessUnit) : list byte * bool * Z :=
  let '(bs, k, ts, _) := a in (bs, k, ts).

(** What the assembler still keeps of a unit that is complete. *)
Definition held (st : PublishDepacketizer) : list (list byte * bool * Z) :=
  if access_unit_marker_seen st && bool_decide (access_unit st <> [])
  then [(access_unit st, access_unit_keyframe st, default 0 (access_unit_timestamp st))] else [].

(** Between two units: the next one has another timestamp. *)
Definition boundary (st : PublishDepacketizer) (next : Z) : Prop :=
  st = depacketizer_default \/ exists t, access_unit_timestamp st = Some t /\ t <> next.

Section assembler_spec.
Context (ws : unit_depacketizer).

Lemma open_spec p st :
  boundary st (timestamp (header p)) ->
  exists c s, open_access_unit p st
              = (c, mk_depacketizer [] [] (Some (timestamp (header p))) s false false) /\
  held st = map au_view (option_list c).
Proof.
  unfold open_access_unit. intros [->|(t & Et & Ne)]; [by do 2 eexists|].
  rewrite Et. destruct (Z.eqb_spec t (timestamp (header p))); [done|]. do 2 eexists.
  split; [done|]. unfold held. rewrite Et.
  by destruct (access_unit_marker_seen st && bool_decide (access_unit st <> [])).
Qed.

Lemma open_same p st :
  access_unit_timestamp st = Some (timestamp (header p)) -> open_access_unit p st = (None, st).
Proof. intros E. unfold open_access_unit. by rewrite E, Z.eqb_refl. Qed.

(** The packets of a unit once it is open, [c] being what the first packet ended. *)
Definition assemble_from (c : option AccessUnit) (ps : list RtpPacket) (st : PublishDepacketizer) :
    list AccessUnit * PublishDepacketizer :=
  match ps with
  | [] => ([], st)
  | p :: ps =>
      let '(o, st) := add_to_access_unit ws c p st in
      let '(os, st) := depacketize_all ws ps st in
      (option_list o ++ os, st)
  end.

(** Adding a packet that yields something and stays within the limit. *)
Lemma add_spec c p st bs k :
  let fu := (ws (payload p) (fu_buffer st)).2 in
  yield (ws (payload p) (fu_buffer st)).1 = Some (bs, k) ->
  Z.of_nat (length (access_unit st) + length bs) <= H26X_DEPACKETIZER_MAX_ACCESS_UNIT_BYTES ->
  exists s, add_to_access_unit ws c p st
    = close_access_unit c p (mk_depacketizer fu (access_unit st ++ bs) (access_unit_timestamp st) s
        (access_unit_keyframe st || k) (access_unit_marker_seen st)).
Proof.
  cbv zeta. unfold add_to_access_unit. destruct (ws (payload p) (fu_buffer st)) as [r fu].
  cbn [fst snd]. destruct r as [o' k'| |]; cbn [yield]; [| |done].
  - intros [= -> ->] L. destruct (Z.ltb_spec H26X_DEPACKETIZER_MAX_ACCESS_UNIT_BYTES
      (Z.of_nat (length (access_unit st) + length bs))); [lia|]. by eexists.
  - intros [= <- <-] _. rewrite app_nil_r, orb_false_r. by eexists.
Qed.

Lemma close_no_marker c p st : marker (header p) = false -> close_access_unit c p st = (c, st).
Proof. intros E. unfold close_access_unit. by rewrite E. Qed.

(** With the marker, the unit is handed out or held. *)
Lemma close_marker c p st :
  marker (header p) = true -> access_unit_marker_seen st = false -> access_unit st <> [] ->
  access_unit_timestamp st = Some (timestamp (header p)) ->
  let '(o, st') := close_access_unit c p st in
  map au_view (option_list o) ++ held st'
  = map au_view (option_list c)
    ++ [(access_unit st, access_unit_keyframe st, timestamp (header p))] /\
  access_unit_timestamp st' = Some (timestamp (header p)).
Proof.
  intros Em Es Ne Et. unfold close_access_unit. rewrite Em, Es. cbn [negb].
  rewrite (bool_decide_true (access_unit st <> [])), andb_true_r, andb_true_l by done.
  destruct c as [c|]; [|destruct (access_unit_keyframe st) eqn:Ek]; cbn;
    unfold held; cbn [access_unit_marker_seen access_unit access_unit_timestamp access_unit_keyframe];
    rewrite ?Et; try (rewrite bool_decide_true by done); cbn; by rewrite ?Ek.
Qed.

Lemma assemble_unit c ps st t out k :
  ps <> [] ->
  Forall (fun p => timestamp (header p) = t) ps ->
  (forall i p, ps !! i = Some p -> marker (header p) = bool_decide (S i = length ps)) ->
  access_unit_timestamp st = Some t -> access_unit_marker_seen st = false ->
  collect ws (fu_buffer st) (map payload ps) = Some (out, k, []) ->
  access_unit st ++ out <> [] ->
  Z.of_nat (length (access_unit st ++ out)) <= H26X_DEPACKETIZER_MAX_ACCESS_UNIT_BYTES ->
  let '(os, st') := assemble_from c ps st in
  map au_view os ++ held st'
  = map au_view (option_list c) ++ [(access_unit st ++ out, access_unit_keyframe st || k, t)] /\
  access_unit_timestamp st' = Some t.
Proof.
  revert c st out k. induction ps as [|p ps IH]; intros c st out k Ne Ht Hm Et Es C Na L; [done|].
  apply Forall_cons in Ht as [Tp Ht]. cbn [map collect] in C.
  destruct (yield (ws (payload p) (fu_buffer st)).1) as [[o1 k1]|] eqn:Y; [|done].
  destruct (collect ws (ws (payload p) (fu_buffer st)).2 (map payload ps)) as [[[o2 k2] f]|] eqn:C2;
    [|done]. injection C as <- <- ->. rewrite app_assoc, length_app in L. rewrite length_app in L.
  destruct (add_spec c p st o1 k1 Y) as [s A]; [lia|]. cbn [assemble_from]. rewrite A. clear A.
  pose proof (Hm 0%nat p eq_refl) as Mp. cbn [length] in Mp.
  destruct ps as [|p' ps].
  - cbn [map collect] in C2. injection C2 as <- <- C2. rewrite app_nil_r, orb_false_r in *.
    rewrite bool_decide_true in Mp by done. cbn [depacketize_all].
    pose proof (close_marker c p (mk_depacketizer (ws (payload p) (fu_buffer st)).2
      (access_unit st ++ o1) (access_unit_timestamp st) s (access_unit_keyframe st || k1)
      (access_unit_marker_seen st)) Mp Es Na ltac:(by rewrite Tp)) as CM.
    destruct (close_access_unit _ _ _) as [o st']. rewrite app_nil_r. by rewrite Tp in CM.
  - rewrite bool_decide_false in Mp by done. rewrite close_no_marker by done.
    set (st1 := mk_depacketizer _ _ _ _ _ _).
    assert (D : depacketize_all ws (p' :: ps) st1 = assemble_from None (p' :: ps) st1).
    { cbn [depacketize_all assemble_from]. unfold depacketize_access_unit.
      rewrite open_same; [done|]. apply Forall_cons in Ht as [-> _]. exact Et. }
    rewrite D. specialize (IH None st1 o2 k2). destruct (assemble_from None (p' :: ps) st1) as [os st'].
    destruct IH as [I1 I2]; [done|done| |exact Et|exact Es|exact C2| | |].
    + intros i q Hq. rewrite (Hm (S i) q Hq). apply bool_decide_ext. cbn [length]. lia.
    + cbn [access_unit st1]. by rewrite <- app_assoc.
    + cbn [access_unit st1]. rewrite !length_app. lia.
    + split; [|done]. rewrite map_app, <- app_assoc, I1. cbn [access_unit access_unit_keyframe st1].
      by rewrite <- app_assoc, <- orb_assoc.
Qed.

(** A whole unit at a boundary. *)
Lemma assemble_access_unit ps st t out k :
  ps <> [] ->
  Forall (fun p => timestamp (header p) = t) ps ->
  (forall i p, ps !! i = Some p -> marker (header p) = bool_decide (S i = length ps)) ->
  boundary st t -> collect ws [] (map payload ps) = Some (out, k, []) -> out <> [] ->
  Z.of_nat (length out) <= H26X_DEPACKETIZER_MAX_ACCESS_UNIT_BYTES ->
  let '(os, st') := depacketize_all ws ps st in
  map au_view os ++ held st' = held st ++ [(out, k, t)] /\ access_unit_timestamp st' = Some t.
Proof.
  intros Ne Ht Hm B C No L. destruct ps as [|p ps]; [done|].
  pose proof (Forall_inv Ht) as Tp. cbn beta in Tp. rewrite <- Tp in B.
  destruct (open_spec p st B) as (c & s & E & H). rewrite H. rewrite Tp in E.
  pose proof (assemble_unit c (p :: ps) (mk_depacketizer [] [] (Some t) s false false) t out k
                Ne Ht Hm eq_refl eq_refl C No L) as A.
  cbn [depacketize_all assemble_from] in *. unfold depacketize_access_unit. rewrite E. exact A.
Qed.
End assembler_spec.

(** ** Streams of access units *)

(** Access units sent one after the other. *)
Fixpoint send_frames (packetize : list byte -> Z -> Z -> Z -> Z -> nat -> list RtpPacket * Z)
    (pt ssrc : Z) (mtu : nat) (seq : Z) (frames : list (Z * list byte)) : list RtpPacket :=
  match frames with
  | [] => []
  | (ts, bs) :: frames =>
      let '(ps, seq) := packetize bs pt seq ts ssrc mtu in
      ps ++ send_frames packetize pt ssrc mtu seq frames
  end.

(** Neighbours have different timestamps. *)
Fixpoint changes (timestamps : list Z) : Prop :=
  match timestamps with
  | a :: ((b :: _) as rest) => a <> b /\ changes rest
  | _ => True
  end.

Definition starts_after (st : PublishDepacketizer) (frames : list (Z * list byte)) : Prop :=
  match frames with [] => True | (t, _) :: _ => boundary st t end.

Lemma depacketize_all_app ws ps qs st :
  depacketize_all ws (ps ++ qs) st
  = let '(os, st1) := depacketize_all ws ps st in
    let '(os', st2) := depacketize_all ws qs st1 in (os ++ os', st2).
Proof.
  revert st. induction ps as [|p ps IH]; intros st; cbn [depacketize_all app].
  { by destruct (depacketize_all ws qs st). }
  destruct (depacketize_access_unit ws p st) as [o st1]. rewrite IH.
  destruct (depacketize_all ws ps st1) as [os st2]. destruct (depacketize_all ws qs st2).
  by rewrite app_assoc.
Qed.

Section streams.
Context {ws packetize unit_ok keep key} `{!NalFormat ws packetize unit_ok keep key}.

Definition kept_units (bs : list byte) : list (list byte) :=
  List.filter keep (split_annexb_units bs).

Definition frame_ok (f : Z * list byte) : Prop :=
  Forall unit_ok (split_annexb_units f.2) /\ kept_units f.2 <> [] /\
  Z.of_nat (length (annexb (kept_units f.2))) <= H26X_DEPACKETIZER_MAX_ACCESS_UNIT_BYTES.

#[export] Instance frame_ok_dec `{!forall u, Decision (unit_ok u)} f : Decision (frame_ok f).
Proof. unfold frame_ok. apply _. Defined.

Definition frame_view (f : Z * list byte) : list byte * bool * Z :=
  (annexb (kept_units f.2), existsb key (kept_units f.2), f.1).

Lemma stream_arrives frames pt ssrc mtu e st :
  Forall frame_ok frames -> changes (map fst frames) -> starts_after st frames ->
  let ps := send_frames packetize pt ssrc mtu (wrap_u 16 e) frames in
  let '(os, st') := depacketize_all ws ps st in
  map au_view os ++ held st' = held st ++ map frame_view frames /\
  Forall2 extends (consecutive e (length ps)) ps.
Proof.
  revert e st. induction frames as [|[ts bs] frames IH]; intros e st O C B.
  { cbn. rewrite app_nil_r. split; [done|constructor]. }
  apply Forall_cons in O as [(Ou & Ne & L) O]. cbn [fst snd send_frames map] in *.
  pose proof (packetize_yields bs pt (wrap_u 16 e) ts ssrc mtu Ou Ne) as P.
  destruct (packetize bs pt (wrap_u 16 e) ts ssrc mtu) as [ps seq']. destruct P as (Co & T & M & N).
  destruct (N e eq_refl) as [N1 ->]. fold (kept_units bs) in *.
  assert (Nps : ps <> []).
  { intros ->. cbn in Co. by destruct (kept_units bs). }
  assert (No : annexb (kept_units bs) <> []) by (by destruct (kept_units bs)).
  pose proof (assemble_access_unit ws ps st ts _ _ Nps T M B Co No L) as A.
  cbv zeta. rewrite depacketize_all_app. destruct (depacketize_all ws ps st) as [os st1].
  destruct A as [A1 A2].
  specialize (IH (e + Z.of_nat (length ps)) st1 O). cbv zeta in IH.
  set (rest := send_frames packetize pt ssrc mtu _ frames) in *.
  destruct (depacketize_all ws rest st1) as [os' st']. destruct IH as [I1 I2].
  - destruct frames; [done|]. apply C.
  - destruct frames as [|[ts' bs'] frames]; [done|]. right. exists ts. split; [done|apply C].
  - split.
    + rewrite map_app, <- app_assoc, I1, app_assoc, A1, <- app_assoc. done.
    + rewrite length_app, consecutive_app. by apply Forall2_app.
Qed.

(** An access unit of clean units with nothing to drop is not changed. *)
Lemma frame_view_annexb ts us :
  Forall clean us -> forallb keep us = true ->
  frame_view (ts, annexb us) = (annexb us, existsb key us, ts).
Proof.
  intros C K. unfold frame_view, kept_units. cbn [fst snd]. rewrite split_annexb by done.
  assert (E : List.filter keep us = us); [|by rewrite E].
  clear C. induction us as [|u us IH]; [done|]. cbn in *. apply andb_prop in K as [-> K].
  by rewrite IH.
Qed.
End streams.

(** *** By codec *)

Definition h26x_with_status (codec : CodecId) : unit_depacketizer :=
  match codec with
  | H264 => depacketize_h264_with_status
  | _ => depacketize_h265_with_status codec
  end.
Definition packetize_h26x (codec : CodecId) :
    list byte -> Z -> Z -> Z -> Z -> nat -> list RtpPacket * Z :=
  match codec with H264 => packetize_h264 | _ => packetize_h265 end.
Definition h26x_unit_ok (codec : CodecId) : list byte -> Prop :=
  match codec with H264 => h264_unit_ok | _ => h265_unit_ok end.
Definition h26x_keep (codec : CodecId) : list byte -> bool :=
  match codec with H264 => h264_keep | _ => h265_keep end.

Definition h26x_frame_ok (codec : CodecId) : Z * list byte -> Prop :=
  frame_ok (unit_ok := h26x_unit_ok codec) (keep := h26x_keep codec).
Definition h26x_frame_view (codec : CodecId) : Z * list byte -> list byte * bool * Z :=
  frame_view (keep := h26x_keep codec) (key := h26x_nalu_is_random_access codec).

#[export] Instance h26x_format (codec : CodecId) (H : codec = H264 \/ codec = H265) :
  NalFormat (h26x_with_status codec) (packetize_h26x codec) (h26x_unit_ok codec) (h26x_keep codec)
    (h26x_nalu_is_random_access codec).
Proof. destruct H as [-> | ->]; [apply h264_format|apply h265_format]. Qed.

(** [C18] H.264 and H.265 access units cross RTP. Packed for any MTU, whether as single
    units, an aggregation packet or fragments, and read packet by packet, they come out in
    order, each with its units but the delimiters in Annex B form, its timestamp, and
    whether it has a keyframe; the last one may still be held. The assembler may start in
    any state of another timestamp, so a damaged unit does not touch the next. The packets
    are numbered without a gap; what has four-byte start codes and no delimiters comes
    back byte for byte. *)
Theorem access_units_arrive (codec : CodecId) (frames : list (Z * list byte)) (pt ssrc : Z)
    (mtu : nat) (seq : Z) (st : PublishDepacketizer) :
  codec = H264 \/ codec = H265 -> in_u 16 seq ->
  Forall (h26x_frame_ok codec) frames -> changes (map fst frames) -> starts_after st frames ->
  let ps := send_frames (packetize_h26x codec) pt ssrc mtu seq frames in
  let '(os, st') := depacketize_all (h26x_with_status codec) ps st in
  map au_view os ++ held st' = held st ++ map (h26x_frame_view codec) frames /\
  Forall2 extends (consecutive seq (length ps)) ps /\
  (forall ts us, Forall clean us -> forallb (h26x_keep codec) us = true ->
   (h26x_frame_view codec (ts, annexb us)).1.1 = annexb us).
Proof.
  intros Hc Hs O C B. pose proof (h26x_format codec Hc) as F.
  pose proof (stream_arrives (NalFormat0 := F) frames pt ssrc mtu seq st O C B) as A.
  rewrite (wrap_u_small 16 seq Hs) in A. cbv zeta in *.
  destruct (depacketize_all _ _ _) as [os st']. destruct A as [A1 A2].
  split_and!; [exact A1|exact A2|]. intros ts us Cl K.
  unfold h26x_frame_view. by rewrite frame_view_annexb.
Qed.

(** A keyframe with parameter sets, and a frame that needs fragments. *)
Definition sample_idr : list byte := annexb [[x67; x42; x01]; [x68; xce]; [x65; x88; x84]].
Definition sample_slice : list byte := annexb [[x09; xf0]; x41 :: repeat x77 100].

Lemma access_units_arrive_witness :
  let frames := [(3000, sample_idr); (6000, sample_slice); (9000, sample_idr)] in
  Forall (h26x_frame_ok H264) frames /\ changes (map fst frames) /\
  exists os, map au_view os ++ held
      (depacketize_all (h26x_with_status H264) (send_frames packetize_h264 96 1 60 65535 frames)
         depacketizer_default).2
    = [(sample_idr, true, 3000); (annexb [x41 :: repeat x77 100], false, 6000); (sample_idr, true, 9000)].
Proof.
  set (frames := [(3000, sample_idr); (6000, sample_slice); (9000, sample_idr)]).
  assert (O : Forall (h26x_frame_ok H264) frames).
  { apply (bool_decide_unpack (Forall (frame_ok (unit_ok := h264_unit_ok) (keep := h264_keep)) frames)).
    vm_compute. exact I. }
  assert (C : changes (map fst frames)) by (cbn; lia).
  split; [exact O|]. split; [exact C|].
  pose proof (access_units_arrive H264 frames 96 1 60 65535 depacketizer_default
    (or_introl eq_refl) ltac:(lazy; split; congruence) O C (or_introl eq_refl)) as A.
  cbv zeta in A. change (packetize_h26x H264) with packetize_h264 in A.
  destruct (depacketize_all _ _ _) as [os st']. exists os. destruct A as [A _].
  cbn [snd]. rewrite A. vm_compute. reflexivity.
Defined.
