(* ===== verification/Ts.v ===== *)
(** * MPEG transport streams: what the muxer and the demuxer share

    Models [crates/foundation/cheetah-codec/src/ts_common.rs]: time stamps of 33 bits, the
    CRC of tables, stream types and descriptors, the packets that carry a PES packet, and the
    search for the sync byte. Packets are lists of bytes; where the code fills an array of
    188 bytes of 0xFF, the model puts the parts and the filling one after the other. *)
From Stdlib Require Import Strings.Byte.
From S2P Require Import Prelude RtmpBytes Codecs Rtp.

Definition TS_PACKET_SIZE : nat := 188.
Definition SYNC_BYTE : byte := x47.
Definition PAT_PID : Z := 0.
Definition PMT_PID : Z := 0x1000.

Definition AUD_H264 : list byte := [x00; x00; x00; x01; x09; xf0].
Definition AUD_H265 : list byte := [x00; x00; x00; x01; x46; x01; x50].
Definition AUD_H266 : list byte := [x00; x00; x00; x01; x00; xa0; x01].

(** ** Codecs *)

Definition stream_type_for_codec (codec : CodecId) : Z :=
  match codec with
  | H264 => 0x1B
  | H265 => 0x24
  | H266 => 0x33
  | VP8 => 0x9D
  | VP9 => 0x9E
  | AV1 => 0x9F
  | AAC => 0x0F
  | MP2 => 0x03
  | MP3 => 0x04
  | G711A => 0x90
  | G711U => 0x91
  | Opus => 0x06
  | ADPCM | MJPEG | WebVtt | UnknownCodec => 0x06
  end.

Definition codec_from_stream_type (stream_type : Z) : option (CodecId * MediaKind) :=
  select stream_type
    [(0x1B, (H264, Video)); (0x24, (H265, Video)); (0x33, (H266, Video)); (0x9D, (VP8, Video));
     (0x9E, (VP9, Video)); (0x9F, (AV1, Video)); (0x0F, (AAC, Audio)); (0x03, (MP2, Audio));
     (0x04, (MP3, Audio)); (0x90, (G711A, Audio)); (0x91, (G711U, Audio)); (0x9C, (Opus, Audio))].

(** Tag 5, length 4 and a name of four letters. *)
Definition registration_descriptor (codec : CodecId) : list byte :=
  match codec with
  | AV1 => [x05; x04; x41; x56; x30; x31]
  | VP8 => [x05; x04; x56; x50; x38; x30]
  | VP9 => [x05; x04; x56; x50; x30; x39]
  | Opus => [x05; x04; x4f; x70; x75; x73]
  | MJPEG => [x05; x04; x4d; x4a; x50; x47]
  | ADPCM => [x05; x04; x41; x44; x50; x43]
  | _ => []
  end.

Definition registered_names : list (list byte * (CodecId * MediaKind)) :=
  [([x41; x56; x30; x31], (AV1, Video)); ([x4f; x70; x75; x73], (Opus, Audio));
   ([x56; x50; x30; x39], (VP9, Video)); ([x56; x50; x38; x30], (VP8, Video));
   ([x4d; x4a; x50; x47], (MJPEG, Video)); ([x41; x44; x50; x43], (ADPCM, Audio))].

Definition registered (name : list byte) : option (CodecId * MediaKind) :=
  snd <$> List.find (fun p => bool_decide (p.1 = name)) registered_names.

(** A descriptor has two bytes at least. *)
Fixpoint identify_loop (fuel : nat) (es_info : list byte) : option (CodecId * MediaKind) :=
  match fuel with
  | O => None
  | S fuel =>
      if (length es_info <? 2)%nat then None
      else
        let tag := at_ es_info 0 in
        let len := Z.to_nat (at_ es_info 1) in
        if (length es_info <? 2 + len)%nat then None
        else
          let data := sub_ 2 len es_info in
          let next := identify_loop fuel (drop (2 + len) es_info) in
          if (tag =? 0x05) && (4 <=? len)%nat then
            match registered (take 4 data) with Some r => Some r | None => next end
          else if tag =? 0x80 then Some (AV1, Video)
          else next
  end.

Definition identify_private_stream (es_info : list byte) : option (CodecId * MediaKind) :=
  identify_loop (length es_info) es_info.

Definition g711_duration_us (payload_len sample_rate : Z) : Z :=
  if sample_rate =? 0 then 0 else payload_len * 1000000 / sample_rate.
Definition g711_duration_90k (payload_len sample_rate : Z) : Z :=
  if sample_rate =? 0 then 0 else payload_len * 90000 / sample_rate.

(** ** Time stamps *)

Definition TS_MASK : Z := 0x1FFFFFFFF.

Definition encode_timestamp (marker ts : Z) : list byte :=
  let ts := Z.land ts TS_MASK in
  [byte_of (Z.lor (Z.lor (Z.shiftl marker 4) (Z.land (Z.shiftr ts 29) 0x0E)) 0x01);
   byte_of (Z.shiftr ts 22);
   byte_of (Z.lor (Z.land (Z.shiftr ts 14) 0xFE) 0x01);
   byte_of (Z.shiftr ts 7);
   byte_of (Z.lor (Z.land (Z.shiftl ts 1) 0xFE) 0x01)].

Definition decode_timestamp (buf : list byte) : Z :=
  let b0 := at_ buf 0 in let b1 := at_ buf 1 in let b2 := at_ buf 2 in
  let b3 := at_ buf 3 in let b4 := at_ buf 4 in
  Z.lor (Z.lor (Z.lor (Z.lor
    (Z.shiftl (Z.land (Z.shiftr b0 1) 0x07) 30)
    (Z.shiftl b1 22))
    (Z.shiftl (Z.shiftr b2 1) 15))
    (Z.shiftl b3 7))
    (Z.shiftr b4 1).

(** ** The CRC of tables *)

Fixpoint crc_shifts (n : nat) (crc : Z) : Z :=
  match n with
  | O => crc
  | S n =>
      crc_shifts n (if Z.land crc 0x80000000 =? 0 then wrap_u 32 (Z.shiftl crc 1)
                    else Z.lxor (wrap_u 32 (Z.shiftl crc 1)) 0x04C11DB7)
  end.

Definition crc32_mpeg2 (data : list byte) : Z :=
  fold_left (fun crc b => crc_shifts 8 (Z.lxor crc (Z.shiftl (byte_val b) 24))) data 0xFFFFFFFF.

(** ** Packets *)

Definition pcr_bytes (pcr_base : Z) : list byte :=
  [byte_of (Z.shiftr pcr_base 25); byte_of (Z.shiftr pcr_base 17); byte_of (Z.shiftr pcr_base 9);
   byte_of (Z.shiftr pcr_base 1); byte_of (Z.lor (Z.shiftl (Z.land pcr_base 1) 7) 0x7E); x00].

(** The four bytes in front; [control] says whether an adaptation field or a payload follows. *)
Definition ts_header (pusi : bool) (pid control cc : Z) : list byte :=
  let pid := Z.lor (if pusi then 0x4000 else 0) pid in
  [SYNC_BYTE; byte_of (Z.shiftr pid 8); byte_of pid; byte_of (Z.lor control (Z.land cc 0x0F))].

Definition fill (n : nat) : list byte := replicate n xff.

(** One turn of the loop: a packet, and how many bytes of [rest] it takes. *)
Definition pes_packet (pid cc : Z) (first random_access : bool) (pcr : option Z) (rest : list byte) :
    list byte * nat :=
  let remaining := length rest in
  let need_af := first && (random_access || bool_decide (is_Some pcr)) in
  let af_flags := Z.lor (if random_access then 0x40 else 0) (if pcr is Some _ then 0x10 else 0) in
  let af_data := match pcr with Some v => pcr_bytes v | None => [] end in
  let af_len := S (length af_data) in
  let af := fun len : nat => byte_of (Z.of_nat len) :: byte_of af_flags :: af_data in
  let header_end := if need_af then (4 + 1 + af_len)%nat else 4%nat in
  let available := (TS_PACKET_SIZE - header_end)%nat in
  let stuff := (available - remaining)%nat in
  if (remaining <? available)%nat then
    if need_af then (ts_header first pid 0x30 cc ++ af (af_len + stuff)%nat ++ fill stuff ++ rest, remaining)
    else if (stuff =? 1)%nat then (ts_header first pid 0x30 cc ++ [x00] ++ rest, remaining)
    else (ts_header first pid 0x30 cc ++ [byte_of (Z.of_nat (stuff - 1)); x00] ++ fill (stuff - 2) ++ rest,
          remaining)
  else if need_af then (ts_header first pid 0x30 cc ++ af af_len ++ take available rest, available)
  else (ts_header first pid 0x10 cc ++ take available rest, available).

(** [(cc + 1) & 0x0F] *)
Definition next_cc (cc : Z) : Z := Z.land (cc + 1) 0x0F.

(** A packet takes one byte at least. *)
Fixpoint write_pes_loop (fuel : nat) (pid cc : Z) (first random_access : bool) (pcr : option Z) (pes : list byte) :
    list (list byte) * Z :=
  match fuel, pes with
  | S fuel, _ :: _ =>
      let '(pkt, taken) := pes_packet pid cc first random_access pcr pes in
      let '(pkts, cc) := write_pes_loop fuel pid (next_cc cc) false random_access pcr (drop taken pes) in
      (pkt :: pkts, cc)
  | _, _ => ([], cc)
  end.

Definition write_pes_packets (pid : Z) (pes : list byte) (cc : Z) (random_access : bool) (pcr : option Z) :
    list (list byte) * Z :=
  write_pes_loop (length pes) pid cc true random_access pcr pes.

(** ** The search for the sync byte *)

Definition is_sync (o : option byte) : bool := bool_decide (o = Some SYNC_BYTE).

(** [(start..).find(p)] among the [n] indices from [start]. *)
Fixpoint find_index (p : nat -> bool) (start n : nat) : option nat :=
  match n with
  | O => None
  | S n => if p start then Some start else find_index p (S start) n
  end.

Definition find_sync (data : list byte) (start : nat) : option nat :=
  let end_ := (length data - TS_PACKET_SIZE)%nat in
  match find_index (fun i => is_sync (data !! i)
                             && ((length data <=? i + TS_PACKET_SIZE)%nat || is_sync (data !! (i + TS_PACKET_SIZE)%nat)))
          start (end_ - start) with
  | Some i => Some i
  | None => find_index (fun i => is_sync (data !! i)) (Nat.max end_ start) (length data - Nat.max end_ start)
  end.
