(* ===== verification/Aac.v ===== *)
(** * AAC headers

    Models, of [crates/foundation/cheetah-codec/src/audio.rs], the two bytes of an
    AudioSpecificConfig, the ADTS header, and putting it on and taking it off a frame. The
    parser of whole configurations ([aac_channel_count_from_asc]) is left out. *)
From Stdlib Require Import Strings.Byte.
From S2P Require Import Prelude RtmpBytes Rtp.

Record AacAudioSpecificConfig : Set := mk_asc {
  audio_object_type : Z;
  asc_sampling_frequency_index : Z;
  asc_channel_configuration : Z
}.

Definition asc_from_bytes (bytes : list byte) : option AacAudioSpecificConfig :=
  if (length bytes <? 2)%nat then None
  else
    let b0 := at_ bytes 0 in let b1 := at_ bytes 1 in
    Some (mk_asc (Z.land (Z.shiftr b0 3) 0x1f)
            (Z.lor (Z.shiftl (Z.land b0 0x07) 1) (Z.shiftr b1 7)) (Z.land (Z.shiftr b1 3) 0x0f)).

Definition asc_to_bytes (c : AacAudioSpecificConfig) : list byte :=
  [byte_of (Z.lor (Z.shiftl (audio_object_type c) 3) (Z.land (Z.shiftr (asc_sampling_frequency_index c) 1) 0x07));
   byte_of (Z.lor (Z.shiftl (Z.land (asc_sampling_frequency_index c) 0x01) 7)
              (Z.shiftl (Z.land (asc_channel_configuration c) 0x0f) 3))].

Definition aac_channel_count_from_config (channel_configuration : Z) : option Z :=
  if (1 <=? channel_configuration) && (channel_configuration <=? 6) then Some channel_configuration
  else if channel_configuration =? 7 then Some 8
  else if channel_configuration =? 11 then Some 7
  else if (channel_configuration =? 12) || (channel_configuration =? 14) then Some 8
  else None.

Record AdtsHeader : Set := mk_adts {
  profile : Z;
  sampling_frequency_index : Z;
  channel_configuration : Z;
  frame_length : Z
}.

Definition adts_parse (data : list byte) : option AdtsHeader :=
  if (length data <? 7)%nat then None
  else if negb (at_ data 0 =? 0xff) || negb (Z.land (at_ data 1) 0xf0 =? 0xf0) then None
  else
    let b2 := at_ data 2 in let b3 := at_ data 3 in let b4 := at_ data 4 in let b5 := at_ data 5 in
    Some (mk_adts (Z.land (Z.shiftr b2 6) 0x03) (Z.land (Z.shiftr b2 2) 0x0f)
            (Z.lor (Z.shiftl (Z.land b2 0x01) 2) (Z.land (Z.shiftr b3 6) 0x03))
            (Z.lor (Z.lor (Z.shiftl (Z.land b3 0x03) 11) (Z.shiftl b4 3)) (Z.land (Z.shiftr b5 5) 0x07))).

Definition adts_build (h : AdtsHeader) : list byte :=
  let ch_cfg := Z.min (channel_configuration h) 7 in
  [xff; xf1;
   byte_of (Z.lor (Z.lor (Z.shiftl (Z.land (profile h) 0x03) 6)
                    (Z.shiftl (Z.land (sampling_frequency_index h) 0x0f) 2))
              (Z.land (Z.shiftr ch_cfg 2) 0x01));
   byte_of (Z.lor (Z.shiftl (Z.land ch_cfg 0x03) 6) (Z.land (Z.shiftr (frame_length h) 11) 0x03));
   byte_of (Z.land (Z.shiftr (frame_length h) 3) 0xff);
   byte_of (Z.lor (Z.shiftl (Z.land (frame_length h) 0x07) 5) 0x1f);
   xfc].

Definition RATES : list Z :=
  [96000; 88200; 64000; 48000; 44100; 32000; 24000; 22050; 16000; 12000; 11025; 8000; 7350].

Definition aac_sample_rate (index : Z) : Z := default 0 (RATES !! Z.to_nat index).

(** The header that belongs to a configuration and a frame. *)
Definition adts_header_of (c : AacAudioSpecificConfig) (raw_aac : list byte) : AdtsHeader :=
  mk_adts (Z.land (Z.max 0 (audio_object_type c - 1)) 0x03) (asc_sampling_frequency_index c)
    (asc_channel_configuration c) (Z.min (Z.of_nat (length raw_aac) + 7) 0xFFFF).

Definition adts_wrap (raw_aac : list byte) (c : AacAudioSpecificConfig) : list byte :=
  adts_build (adts_header_of c raw_aac) ++ raw_aac.

Definition adts_strip (frame : list byte) : option (AdtsHeader * list byte) :=
  match adts_parse frame with
  | None => None
  | Some h =>
      if (frame_length h <? 7) || (Z.of_nat (length frame) <? frame_length h) then None
      else Some (h, sub_ 7 (Z.to_nat (frame_length h) - 7) frame)
  end.

(** ** What comes back *)

Definition adts_wf (h : AdtsHeader) : Prop :=
  in_u 2 (profile h) /\ in_u 4 (sampling_frequency_index h) /\ in_u 3 (channel_configuration h) /\
  in_u 13 (frame_length h).

Lemma adts_parse_build h rest : adts_wf h -> adts_parse (adts_build h ++ rest) = Some h.
Proof.
  intros (P & F & C & L). unfold in_u in *. unfold adts_parse, adts_build, at_. cbn [app length nth].
  rewrite !byte_val_of. cbn [Nat.ltb Nat.leb]. change (byte_val xff) with 255. change (byte_val xf1) with 241.
  change (negb (255 =? 255) || negb (Z.land 241 240 =? 240)) with false. cbv iota.
  rewrite Z.min_l by lia. autorewrite with masks. rewrite !Z.shiftr_div_pow2 by done.
  destruct h as [p f c l]. cbn [profile sampling_frequency_index channel_configuration frame_length] in *.
  rewrite !Z.shiftl_mul_pow2 by done.
  rewrite (lor_add (p mod 4 * 2 ^ 6) _ 6), !(lor_add (_ + _) _ 2), (lor_add (c mod 4 * 2 ^ 6) _ 2), (lor_add _ 31 5) by zdm.
  rewrite (lor_add _ (_ * 2 ^ 3) 11), (lor_add (_ + _) _ 3), (lor_add _ _ 2) by zdm.
  f_equal. f_equal; zdm.
Qed.

Lemma asc_back c rest :
  in_u 5 (audio_object_type c) -> in_u 4 (asc_sampling_frequency_index c) -> in_u 4 (asc_channel_configuration c) ->
  asc_from_bytes (asc_to_bytes c ++ rest) = Some c.
Proof.
  intros A F C. unfold in_u in *. unfold asc_from_bytes, asc_to_bytes, at_. cbn [app length nth Nat.ltb Nat.leb].
  rewrite !byte_val_of. destruct c as [a f c]. cbn [audio_object_type asc_sampling_frequency_index asc_channel_configuration] in *.
  autorewrite with masks. rewrite !Z.shiftr_div_pow2, !Z.shiftl_mul_pow2 by done.
  rewrite (lor_add (a * 2 ^ 3) _ 3), (lor_add (f mod 2 * 2 ^ 7) _ 7) by zdm.
  rewrite (lor_add _ _ 1) by zdm. f_equal. f_equal; zdm.
Qed.

Definition adts_fits (c : AacAudioSpecificConfig) (raw_aac : list byte) : Prop :=
  in_u 4 (asc_sampling_frequency_index c) /\ in_u 3 (asc_channel_configuration c) /\
  Z.of_nat (length raw_aac) + 7 < 8192.

Lemma adts_header_wf c raw : adts_fits c raw -> adts_wf (adts_header_of c raw).
Proof.
  intros (F & C & L). unfold adts_wf. cbn. split_and!; [|done..|unfold in_u; lia].
  unfold in_u. rewrite land_3. zdm.
Qed.

Lemma length_adts_build h : length (adts_build h) = 7%nat.
Proof. done. Qed.

(** A wrapped frame comes back, with whatever follows it left over. *)
Lemma adts_strip_wrap c raw rest :
  adts_fits c raw -> adts_strip (adts_wrap raw c ++ rest) = Some (adts_header_of c raw, raw).
Proof.
  intros Fi. unfold adts_strip, adts_wrap. rewrite <- app_assoc, adts_parse_build by by apply adts_header_wf.
  destruct Fi as (_ & _ & L). cbn [frame_length adts_header_of]. rewrite !length_app, length_adts_build.
  rewrite Z.min_l by lia. rewrite (proj2 (Z.ltb_ge _ 7)), (proj2 (Z.ltb_ge _ (_ + 7))) by lia. cbn [orb].
  unfold sub_. rewrite drop_app_ge, length_adts_build, Nat.sub_diag, drop_0 by done.
  replace (Z.to_nat (Z.of_nat (length raw) + 7) - 7)%nat with (length raw) by lia. by rewrite take_app_length.
Qed.

(** The length field has 13 bits: a frame that is longer is wrapped and cannot be read. *)
Example adts_long_frame : adts_strip (adts_wrap (replicate (Z.to_nat 8185) x21) (mk_asc 2 4 2)) = None.
Proof. by vm_compute. Qed.
