(* ===== verification/Tracks.v ===== *)
(** * Tracks, parameter sets and key frames of the codec library

    Models, of [crates/foundation/cheetah-codec/src/]: of [track.rs] the extradata and the
    readiness of a track; of [video.rs] the cache of H.26x parameter sets and the tests for
    key frames of H.26x, AV1, VP8 and VP9. [split_annexb_units] and [find_start_code] are the
    code of the RTSP module once more, which RtpH26x models. Fields of a track that the model
    does not read are left out. Offsets are [nat]: the checked additions of the code cannot
    fail on data that fits in memory. *)
From Stdlib Require Import Strings.Byte.
From S2P Require Import Prelude RtmpBytes Codecs Rtp RtpH26x.

(** ** Tracks *)

Inductive CodecExtradata : Set :=
| ExNone
| ExH264 (sps pps : list (list byte)) (avcc : option (list byte))
| ExH265 (vps sps pps : list (list byte)) (hvcc : option (list byte))
| ExH266 (vps sps pps : list (list byte))
| ExAAC (asc : list byte)
| ExAV1 (sequence_header codec_config : option (list byte))
| ExVP8 (config : option (list byte))
| ExVP9 (config : option (list byte))
| ExMP3 (side_info : option (list byte))
| ExOpus (fmtp : option string) (channel_mapping : option (list byte))
| ExRaw (bytes : list byte).

Inductive TrackReadiness : Set := NotReady | PendingConfig | Ready.

Record TrackInfo : Set := mk_track {
  track_id : Z;
  media_kind : MediaKind;
  codec : CodecId;
  clock_rate : Z;
  sample_rate : option Z;
  channels : option Z;
  extradata : CodecExtradata;
  readiness : TrackReadiness
}.

Definition track_new (id : Z) (kind : MediaKind) (codec : CodecId) (rate : Z) : TrackInfo :=
  mk_track id kind codec rate None None ExNone NotReady.

Definition is_empty {A} (l : list A) : bool := match l with [] => true | _ => false end.

Definition ready_if (b : bool) : TrackReadiness := if b then Ready else PendingConfig.

Definition some_bytes (o : option (list byte)) : bool :=
  match o with Some l => negb (is_empty l) | None => false end.

Definition refreshed (t : TrackInfo) : TrackReadiness :=
  match codec t with
  | H264 | H265 | H266 =>
      match extradata t with
      | ExH264 sps pps _ => ready_if (negb (is_empty sps || is_empty pps))
      | ExH265 vps sps pps _ => ready_if (negb (is_empty vps || is_empty sps || is_empty pps))
      | ExH266 vps sps pps => ready_if (negb (is_empty vps || is_empty sps || is_empty pps))
      | _ => PendingConfig
      end
  | AAC => match extradata t with ExAAC asc => ready_if (negb (is_empty asc)) | _ => PendingConfig end
  | AV1 =>
      match extradata t with
      | ExAV1 sequence_header codec_config => ready_if (some_bytes sequence_header || some_bytes codec_config)
      | _ => PendingConfig
      end
  | VP8 | VP9 | MJPEG | Opus | G711A | G711U | MP2 | MP3 | ADPCM => Ready
  | _ => readiness t
  end.

Definition refresh_readiness (t : TrackInfo) : TrackInfo :=
  mk_track (track_id t) (media_kind t) (codec t) (clock_rate t) (sample_rate t) (channels t) (extradata t)
    (refreshed t).

(** ** Annex B *)

Definition codec_split_annexb_units : list byte -> list (list byte) := split_annexb_units.
Definition codec_find_start_code : list byte -> option (nat * nat) := find_start_code.

(** ** Parameter sets *)

Record ParameterSetCache : Set := mk_cache {
  cache_vps : option (list byte);
  cache_sps : option (list byte);
  cache_pps : option (list byte)
}.

Definition cache_default : ParameterSetCache := mk_cache None None None.

Definition PARAMETER_SET_MAX_SIZE : nat := 4096.

Definition store_vps (unit_ : list byte) (c : ParameterSetCache) : ParameterSetCache * bool :=
  if bool_decide (cache_vps c = Some unit_) then (c, false)
  else (mk_cache (Some unit_) (cache_sps c) (cache_pps c), true).
Definition store_sps (unit_ : list byte) (c : ParameterSetCache) : ParameterSetCache * bool :=
  if bool_decide (cache_sps c = Some unit_) then (c, false)
  else (mk_cache (cache_vps c) (Some unit_) (cache_pps c), true).
Definition store_pps (unit_ : list byte) (c : ParameterSetCache) : ParameterSetCache * bool :=
  if bool_decide (cache_pps c = Some unit_) then (c, false)
  else (mk_cache (cache_vps c) (cache_sps c) (Some unit_), true).

(** The cache, and whether it changed. *)
Definition store_nalu (codec : CodecId) (unit_ : list byte) (c : ParameterSetCache) : ParameterSetCache * bool :=
  if is_empty unit_ || (PARAMETER_SET_MAX_SIZE <? length unit_)%nat then (c, false)
  else
    match codec with
    | H264 =>
        let t := Z.land (at_ unit_ 0) 0x1f in
        if t =? 7 then store_sps unit_ c else if t =? 8 then store_pps unit_ c else (c, false)
    | H265 =>
        let t := Z.land (Z.shiftr (at_ unit_ 0) 1) 0x3f in
        if t =? 32 then store_vps unit_ c else if t =? 33 then store_sps unit_ c
        else if t =? 34 then store_pps unit_ c else (c, false)
    | H266 =>
        if (length unit_ <? 2)%nat then (c, false)
        else
          let t := Z.land (Z.shiftr (at_ unit_ 1) 3) 0x1f in
          if t =? 14 then store_vps unit_ c else if t =? 15 then store_sps unit_ c
          else if t =? 16 then store_pps unit_ c else (c, false)
    | _ => (c, false)
    end.

Fixpoint store_all (codec : CodecId) (units : list (list byte)) (c : ParameterSetCache) : ParameterSetCache * bool :=
  match units with
  | [] => (c, false)
  | u :: units =>
      let '(c, changed) := store_nalu codec u c in
      let '(c, changed') := store_all codec units c in
      (c, changed || changed')
  end.

Definition update_from_annexb (codec : CodecId) (payload : list byte) (c : ParameterSetCache) :
    ParameterSetCache * bool :=
  store_all codec (codec_split_annexb_units payload) c.

Definition update_from_extradata (ex : CodecExtradata) (c : ParameterSetCache) : ParameterSetCache * bool :=
  match ex with
  | ExH264 sps pps _ => store_all H264 (sps ++ pps) c
  | ExH265 vps sps pps _ => store_all H265 ((vps ++ sps) ++ pps) c
  | ExH266 vps sps pps => store_all H266 ((vps ++ sps) ++ pps) c
  | _ => (c, false)
  end.

Definition has_required_sets (codec : CodecId) (c : ParameterSetCache) : bool :=
  match codec with
  | H264 => bool_decide (is_Some (cache_sps c)) && bool_decide (is_Some (cache_pps c))
  | H265 | H266 =>
      bool_decide (is_Some (cache_vps c)) && bool_decide (is_Some (cache_sps c))
      && bool_decide (is_Some (cache_pps c))
  | _ => true
  end.

Definition extradata_for_codec (codec : CodecId) (c : ParameterSetCache) : option CodecExtradata :=
  match codec with
  | H264 => sps ← cache_sps c; pps ← cache_pps c; Some (ExH264 [sps] [pps] None)
  | H265 => vps ← cache_vps c; sps ← cache_sps c; pps ← cache_pps c; Some (ExH265 [vps] [sps] [pps] None)
  | H266 => vps ← cache_vps c; sps ← cache_sps c; pps ← cache_pps c; Some (ExH266 [vps] [sps] [pps])
  | _ => None
  end.

(** The sets that go in front of a unit list, in order. *)
Definition cached_prefix (codec : CodecId) (c : ParameterSetCache) : list (list byte) :=
  match codec with
  | H264 => option_list (cache_sps c) ++ option_list (cache_pps c)
  | H265 | H266 => option_list (cache_vps c) ++ option_list (cache_sps c) ++ option_list (cache_pps c)
  | _ => []
  end.

Definition annexb_from_units (units : list (list byte)) : list byte :=
  concat (map (fun u => START_CODE ++ u) units).

Definition prepend_to_annexb_access_unit (codec : CodecId) (payload : list byte) (c : ParameterSetCache) : list byte :=
  match codec_split_annexb_units payload with
  | [] => payload
  | units => annexb_from_units (cached_prefix codec c ++ units)
  end.

(** ** Bits *)

Record BitReader : Set := mk_bits { bits_data : list byte; bit_offset : nat }.

Definition bit_at (data : list byte) (i : nat) : Z :=
  Z.land (Z.shiftr (at_ data (i / 8)) (7 - Z.of_nat (i mod 8))) 1.

Fixpoint bits_value (data : list byte) (offset count : nat) (value : Z) : Z :=
  match count with
  | O => value
  | S n => bits_value data (S offset) n (wrap_u 32 (Z.lor (wrap_u 32 (Z.shiftl value 1)) (bit_at data offset)))
  end.

Definition read_bits (count : nat) (r : BitReader) : option (Z * BitReader) :=
  if (32 <? count)%nat || (length (bits_data r) * 8 <? bit_offset r + count)%nat then None
  else Some (bits_value (bits_data r) (bit_offset r) count 0, mk_bits (bits_data r) (bit_offset r + count)).

(** ** Key frames *)

Definition h26x_annexb_has_random_access (codec : CodecId) (payload : list byte) : bool :=
  existsb (h26x_nalu_is_random_access codec) (codec_split_annexb_units payload).

Definition vp8_frame_is_keyframe (payload : list byte) : bool :=
  match payload with b :: _ => Z.land (byte_val b) 0x01 =? 0 | [] => false end.

Definition vp9_header (payload : list byte) : option bool :=
  '(frame_marker, r) ← read_bits 2 (mk_bits payload 0);
  if negb (frame_marker =? 2) then Some false
  else
    '(profile_low, r) ← read_bits 1 r;
    '(profile_high, r) ← read_bits 1 r;
    r ← (if Z.lor profile_low (Z.shiftl profile_high 1) =? 3 then snd <$> read_bits 1 r else Some r);
    '(show_existing_frame, r) ← read_bits 1 r;
    if negb (show_existing_frame =? 0) then Some false
    else
      '(frame_type, _) ← read_bits 1 r;
      Some (frame_type =? 0).

Definition vp9_frame_is_keyframe (payload : list byte) : bool :=
  if is_empty payload then false else default false (vp9_header payload).

(** LEB128 of at most eight bytes: the value and its length. *)
Fixpoint leb128_loop (n : nat) (data : list byte) (index : nat) (value : Z) : option (Z * nat) :=
  match n, data with
  | S n, b :: data =>
      let value := Z.lor value (Z.shiftl (Z.land (byte_val b) 0x7f) (7 * Z.of_nat index)) in
      if Z.land (byte_val b) 0x80 =? 0 then Some (value, S index) else leb128_loop n data (S index) value
  | _, _ => None
  end.
Definition av1_read_leb128 (data : list byte) : option (Z * nat) := leb128_loop 8 data 0 0.

Definition av1_frame_header_is_keyframe (payload : list byte) : option bool :=
  '(show_existing_frame, r) ← read_bits 1 (mk_bits payload 0);
  if negb (show_existing_frame =? 0) then Some false
  else
    '(frame_type, _) ← read_bits 2 r;
    Some (frame_type =? 0).

Definition obu_type (header : Z) : Z := Z.land (Z.shiftr header 3) 0x0f.
Definition obu_has_extension (header : Z) : bool := negb (Z.land header 0x04 =? 0).
Definition obu_has_size_field (header : Z) : bool := negb (Z.land header 0x02 =? 0).

Definition av1_obu_is_keyframe (obu : list byte) : option bool :=
  header ← byte_val <$> head obu;
  let offset := if obu_has_extension header then 2%nat else 1%nat in
  offset ← (if obu_has_size_field header
            then (fun r => (offset + snd r)%nat) <$> av1_read_leb128 (drop offset obu)
            else Some offset);
  if (length obu <? offset)%nat then None
  else if (obu_type header =? 3) || (obu_type header =? 6) || (obu_type header =? 7)
  then av1_frame_header_is_keyframe (drop offset obu)
  else None.

(** An OBU has one byte at least. *)
Fixpoint av1_obu_loop (fuel : nat) (cursor : list byte) : bool :=
  match fuel, cursor with
  | S fuel, h :: _ =>
      let header := byte_val h in
      let offset := if obu_has_extension header then 2%nat else 1%nat in
      if obu_has_size_field header then
        match av1_read_leb128 (drop offset cursor) with
        | None => false
        | Some (obu_len, leb_len) =>
            let offset := (offset + leb_len)%nat in
            if Z.of_nat (length cursor - offset) <? obu_len then false
            else
              let end_ := (offset + Z.to_nat obu_len)%nat in
              match av1_obu_is_keyframe (take end_ cursor) with
              | Some is_key => is_key
              | None => av1_obu_loop fuel (drop end_ cursor)
              end
        end
      else default false (av1_obu_is_keyframe cursor)
  | _, _ => false
  end.

Definition av1_obu_payload_has_keyframe (payload : list byte) : bool := av1_obu_loop (length payload) payload.
