(* ===== verification/TsMux.v ===== *)
(** * The MPEG-TS muxer

    Models [crates/foundation/cheetah-codec/src/ts_mux.rs]: tables, PES packets, and the
    muxer of several tracks. An event of the muxer is a list of packets; it has no other
    event. Of a frame the model keeps what the muxer reads. *)
From Stdlib Require Import Strings.Byte.
From S2P Require Import Prelude RtmpBytes Codecs Rtp RtpH26x Ts Aac Tracks.

Record MpegTsMuxerConfig : Set := mk_mux_config { video_pid_base : Z; audio_pid_base : Z }.
Definition mux_config_default : MpegTsMuxerConfig := mk_mux_config 0x0100 0x0110.

Record MuxTrackEntry : Set := mk_entry {
  e_track_id : Z;
  e_pid : Z;
  e_stream_id : Z;
  e_codec : CodecId;
  e_media_kind : MediaKind;
  e_cc : Z;
  e_extradata : CodecExtradata
}.

Record MpegTsMuxer : Set := mk_muxer {
  m_tracks : list MuxTrackEntry;
  pat_cc : Z;
  pmt_cc : Z;
  pcr_pid : Z
}.

(** What the muxer reads of a frame. *)
Record MuxFrame : Set := mk_mux_frame {
  mf_track_id : Z;
  mf_pts_us : Z;
  mf_dts_us : Z;
  mf_key : bool;
  mf_payload : list byte
}.

(** ** Tracks *)

(** [sort_by_key] by kind and id is stable. *)
Definition track_le (a b : TrackInfo) : bool :=
  let ka := negb (bool_decide (media_kind a = Video)) in
  let kb := negb (bool_decide (media_kind b = Video)) in
  if Bool.eqb ka kb then track_id a <=? track_id b else kb.

Fixpoint insert_track (t : TrackInfo) (l : list TrackInfo) : list TrackInfo :=
  match l with
  | [] => [t]
  | x :: l' => if track_le t x then t :: l else x :: insert_track t l'
  end.
Definition sort_tracks (l : list TrackInfo) : list TrackInfo := foldr insert_track [] l.

Definition muxable (t : TrackInfo) : bool := bool_decide (media_kind t = Video \/ media_kind t = Audio).

(** PIDs are [u16], stream ids [u8]. *)
Fixpoint entries_of (video_pid audio_pid video_id audio_id : Z) (l : list TrackInfo) : list MuxTrackEntry :=
  match l with
  | [] => []
  | t :: l =>
      let entry pid id := mk_entry (track_id t) pid id (codec t) (media_kind t) 0 (extradata t) in
      match media_kind t with
      | Video =>
          entry video_pid video_id
            :: entries_of (wrap_u 16 (video_pid + 1)) audio_pid (wrap_u 8 (video_id + 1)) audio_id l
      | Audio =>
          entry audio_pid audio_id
            :: entries_of video_pid (wrap_u 16 (audio_pid + 1)) video_id (wrap_u 8 (audio_id + 1)) l
      | _ => entries_of video_pid audio_pid video_id audio_id l
      end
  end.

Definition is_video (e : MuxTrackEntry) : bool := bool_decide (e_media_kind e = Video).

Definition muxer_new (config : MpegTsMuxerConfig) (tracks : list TrackInfo) : MpegTsMuxer :=
  let entries := entries_of (video_pid_base config) (audio_pid_base config) 0xE0 0xC0
                   (sort_tracks (List.filter muxable tracks)) in
  let pcr := match List.find is_video entries with
             | Some e => e_pid e
             | None => match entries with e :: _ => e_pid e | [] => video_pid_base config end
             end in
  mk_muxer entries 0 0 pcr.

(** ** Tables *)

(** One turn of [write_single_ts_packet]. *)
Definition table_packet (pid cc : Z) (pusi : bool) (rest : list byte) : list byte * nat :=
  let head := if pusi then ts_header true pid 0x10 cc ++ [x00] else ts_header false pid 0x10 cc in
  let available := (TS_PACKET_SIZE - length head)%nat in
  let copy_len := Nat.min (length rest) available in
  (head ++ take copy_len rest ++ fill (available - copy_len), copy_len).

(** A packet takes a byte, but for an empty payload, which has one packet. *)
Fixpoint write_table_loop (fuel : nat) (pid cc : Z) (first pusi : bool) (payload : list byte) : list (list byte) * Z :=
  match fuel with
  | O => ([], cc)
  | S fuel =>
      if negb (is_empty payload) || first then
        let '(pkt, taken) := table_packet pid cc (first && pusi) payload in
        let '(pkts, cc) := write_table_loop fuel pid (next_cc cc) false pusi (drop taken payload) in
        (pkt :: pkts, cc)
      else ([], cc)
  end.

Definition write_single_ts_packet (pid : Z) (payload : list byte) (cc : Z) (pusi : bool) : list (list byte) * Z :=
  write_table_loop (S (length payload)) pid cc true pusi payload.

Definition with_crc (section : list byte) : list byte := section ++ be_bytes 4 (crc32_mpeg2 section).

Definition pat_section : list byte :=
  x00 :: be_bytes 2 (Z.lor 0xB000 13) ++ be_bytes 2 1 ++ [xc1; x00; x00] ++ be_bytes 2 1
  ++ be_bytes 2 (Z.lor 0xE000 PMT_PID).

Definition write_pat (m : MpegTsMuxer) : MpegTsMuxer * list (list byte) :=
  let '(pkts, cc) := write_single_ts_packet PAT_PID (with_crc pat_section) (pat_cc m) true in
  (mk_muxer (m_tracks m) cc (pmt_cc m) (pcr_pid m), pkts).

Definition pmt_entry (e : MuxTrackEntry) : list byte :=
  let desc := registration_descriptor (e_codec e) in
  byte_of (stream_type_for_codec (e_codec e)) :: be_bytes 2 (Z.lor 0xE000 (e_pid e))
  ++ be_bytes 2 (Z.lor 0xF000 (Z.of_nat (length desc))) ++ desc.

(** The section behind its length. *)
Definition pmt_body (m : MpegTsMuxer) : list byte :=
  be_bytes 2 1 ++ [xc1; x00; x00] ++ be_bytes 2 (Z.lor 0xE000 (pcr_pid m)) ++ be_bytes 2 0xF000
  ++ concat (map pmt_entry (m_tracks m)).

Definition pmt_section (m : MpegTsMuxer) : list byte :=
  let body := pmt_body m in
  x02 :: be_bytes 2 (Z.lor 0xB000 (wrap_u 16 (Z.of_nat (length body) + 4))) ++ body.

Definition write_pmt (m : MpegTsMuxer) : MpegTsMuxer * list (list byte) :=
  let '(pkts, cc) := write_single_ts_packet PMT_PID (with_crc (pmt_section m)) (pmt_cc m) true in
  (mk_muxer (m_tracks m) (pat_cc m) cc (pcr_pid m), pkts).

Definition write_tables (m : MpegTsMuxer) : MpegTsMuxer * list (list byte) :=
  let '(m, pat) := write_pat m in
  let '(m, pmt) := write_pmt m in
  (m, pat ++ pmt).

(** ** Frames *)

Definition nal_prefix (sets : list (list byte)) : list byte := concat (map (fun s => START_CODE ++ s) sets).

Definition prepend_h264_params (ex : CodecExtradata) : list byte :=
  match ex with ExH264 sps pps _ => nal_prefix (sps ++ pps) | _ => [] end.
Definition prepend_h265_params (ex : CodecExtradata) : list byte :=
  match ex with ExH265 vps sps pps _ => nal_prefix (vps ++ sps ++ pps) | _ => [] end.
Definition prepend_h266_params (ex : CodecExtradata) : list byte :=
  match ex with ExH266 vps sps pps => nal_prefix (vps ++ sps ++ pps) | _ => [] end.

Definition wrap_aac_adts (payload : list byte) (ex : CodecExtradata) : option (list byte) :=
  if (2 <=? length payload)%nat && (at_ payload 0 =? 0xFF) && (Z.land (at_ payload 1) 0xF0 =? 0xF0) then None
  else
    match ex with
    | ExAAC asc =>
        c ← asc_from_bytes asc;
        Some (adts_build (adts_header_of c payload) ++ payload)
    | _ => None
    end.

(** The product of [u64] wraps. *)
Definition us_to_90k (us : Z) : Z := if 0 <=? us then wrap_u 64 (us * 9) / 100 else 0.

Definition build_pes (stream_id : Z) (payload : list byte) (pts dts : option Z) : list byte :=
  let has_pts := bool_decide (is_Some pts) in
  let has_dts := bool_decide (is_Some dts) && negb (bool_decide (dts = pts)) in
  let header_data_len := if has_pts then if has_dts then 10 else 5 else 0 in
  let pts_dts_flags := if has_pts then if has_dts then 0xC0 else 0x80 else 0x00 in
  let pes_packet_len :=
    if 0xE0 <=? stream_id then 0
    else
      let len := wrap_u 32 (3 + header_data_len + wrap_u 32 (Z.of_nat (length payload))) in
      if 0xFFFF <? len then 0 else len in
  [x00; x00; x01; byte_of stream_id] ++ be_bytes 2 pes_packet_len
  ++ [x80; byte_of pts_dts_flags; byte_of header_data_len]
  ++ match pts with Some v => encode_timestamp (if has_dts then 0x03 else 0x02) v | None => [] end
  ++ (if has_dts then match dts with Some v => encode_timestamp 0x01 v | None => [] end else [])
  ++ payload.

(** What goes into the PES packet. *)
Definition ts_payload (e : MuxTrackEntry) (key : bool) (payload : list byte) : list byte :=
  let params p := if key then p (e_extradata e) else [] in
  match e_codec e with
  | H264 => if is_video e then AUD_H264 ++ params prepend_h264_params ++ payload else payload
  | H265 => if is_video e then AUD_H265 ++ params prepend_h265_params ++ payload else payload
  | H266 => if is_video e then AUD_H266 ++ params prepend_h266_params ++ payload else payload
  | AAC => match wrap_aac_adts payload (e_extradata e) with Some adts => adts | None => payload end
  | _ => payload
  end.

Definition entry_pes (e : MuxTrackEntry) (f : MuxFrame) : list byte :=
  build_pes (e_stream_id e) (ts_payload e (mf_key f) (mf_payload f)) (Some (us_to_90k (mf_pts_us f)))
    (if is_video e then Some (us_to_90k (mf_dts_us f)) else None).

Definition entry_packets (e : MuxTrackEntry) (f : MuxFrame) : list (list byte) * Z :=
  let key := is_video e && mf_key f in
  write_pes_packets (e_pid e) (entry_pes e f) (e_cc e) key
    (if key then Some (us_to_90k (mf_dts_us f)) else None).

Definition with_cc (cc : Z) (e : MuxTrackEntry) : MuxTrackEntry :=
  mk_entry (e_track_id e) (e_pid e) (e_stream_id e) (e_codec e) (e_media_kind e) cc (e_extradata e).

(** The first entry of the track. *)
Fixpoint push_entry (f : MuxFrame) (l : list MuxTrackEntry) : list MuxTrackEntry * list (list byte) :=
  match l with
  | [] => ([], [])
  | e :: l =>
      if e_track_id e =? mf_track_id f then
        let '(pkts, cc) := entry_packets e f in (with_cc cc e :: l, pkts)
      else
        let '(l, pkts) := push_entry f l in (e :: l, pkts)
  end.

Definition push_frame (m : MpegTsMuxer) (f : MuxFrame) : MpegTsMuxer * list (list byte) :=
  let '(l, pkts) := push_entry f (m_tracks m) in
  (mk_muxer l (pat_cc m) (pmt_cc m) (pcr_pid m), pkts).
