(* ===== verification/TsDemux.v ===== *)
(** * The MPEG-TS demuxer

    Models [crates/foundation/cheetah-codec/src/ts_demux.rs]: the search for packets in any
    bytes, the tables, the reassembly of PES packets per PID, and the frames in them. Events
    come in the order in which the code pushes them. Of a frame the model keeps the fields
    that the demuxer sets. *)
From Stdlib Require Import Strings.Byte.
From S2P Require Import Prelude RtmpBytes Codecs Rtp RtpH26x Ts Aac Tracks.

Record MpegTsDemuxerConfig : Set := mk_demux_config { max_reassembly_bytes : Z; strict_crc : bool }.
Definition demux_config_default : MpegTsDemuxerConfig := mk_demux_config (4 * 1024 * 1024) false.

Inductive FrameFormat : Set :=
| CanonicalH26x | CanonicalAv1Obu | CanonicalVp8Frame | CanonicalVp9Frame | MjpegFrame | AacRaw | OpusPacket
| G711Packet | Mp2Frame | Mp3Frame | WebVttPacket | AdpcmPacket | UnknownFormat.

Inductive AdtsReason : Set := LengthTooSmall | LengthExceedsPayload | InvalidIndex.

Inductive MpegTsDemuxDiagnostic : Set :=
| SyncLoss
| ContinuityGap (pid expected got : Z)
| CrcError (pid : Z)
| PesOverflow (pid : Z)
| UnknownStreamType (stream_type pid : Z)
| AdaptationFieldOverflow (pid : Z)
| AdtsError (pid : Z) (reason : AdtsReason).

Record DemuxFrame : Set := mk_demux_frame {
  df_track_id : Z;
  df_kind : MediaKind;
  df_codec : CodecId;
  df_format : FrameFormat;
  df_pts : Z;
  df_dts : Z;
  df_pts_us : Z;
  df_dts_us : Z;
  df_duration : Z;
  df_duration_us : Z;
  df_key : bool;
  df_payload : list byte
}.

Inductive MpegTsDemuxEvent : Set :=
| TrackFound (info : TrackInfo)
| Frame (frame : DemuxFrame)
| Diagnostic (d : MpegTsDemuxDiagnostic).

Record DemuxTrackState : Set := mk_demux_track {
  t_pid : Z;
  t_track_id : Z;
  t_codec : CodecId;
  t_kind : MediaKind;
  t_clock_rate : Z;
  pes_buf : list byte;
  pes_started : bool;
  expected_cc : option Z;
  parameter_sets : ParameterSetCache;
  aac_asc : option (list byte);
  t_sample_rate : option Z;
  t_channels : option Z;
  av1_sequence_header : option (list byte);
  pending_private_probe : bool;
  pts_wrap_offset : Z;
  last_raw_pts : option Z
}.

Record MpegTsDemuxer : Set := mk_demuxer {
  config : MpegTsDemuxerConfig;
  pmt_pid : option Z;
  d_tracks : list DemuxTrackState;
  remainder : list byte;
  pmt_section_buf : list byte;
  pmt_section_target_len : option nat;
  next_track_id : Z
}.

Definition demuxer_new (c : MpegTsDemuxerConfig) : MpegTsDemuxer := mk_demuxer c None [] [] [] None 1.

(** ** Setters *)

Definition set_pes (buf : list byte) (started : bool) (t : DemuxTrackState) : DemuxTrackState :=
  mk_demux_track (t_pid t) (t_track_id t) (t_codec t) (t_kind t) (t_clock_rate t) buf started (expected_cc t)
    (parameter_sets t) (aac_asc t) (t_sample_rate t) (t_channels t) (av1_sequence_header t)
    (pending_private_probe t) (pts_wrap_offset t) (last_raw_pts t).
Definition set_cc (cc : Z) (t : DemuxTrackState) : DemuxTrackState :=
  mk_demux_track (t_pid t) (t_track_id t) (t_codec t) (t_kind t) (t_clock_rate t) (pes_buf t) (pes_started t)
    (Some cc) (parameter_sets t) (aac_asc t) (t_sample_rate t) (t_channels t) (av1_sequence_header t)
    (pending_private_probe t) (pts_wrap_offset t) (last_raw_pts t).
Definition set_clock (offset pts : Z) (t : DemuxTrackState) : DemuxTrackState :=
  mk_demux_track (t_pid t) (t_track_id t) (t_codec t) (t_kind t) (t_clock_rate t) (pes_buf t) (pes_started t)
    (expected_cc t) (parameter_sets t) (aac_asc t) (t_sample_rate t) (t_channels t) (av1_sequence_header t)
    (pending_private_probe t) offset (Some pts).
Definition set_parameter_sets (c : ParameterSetCache) (t : DemuxTrackState) : DemuxTrackState :=
  mk_demux_track (t_pid t) (t_track_id t) (t_codec t) (t_kind t) (t_clock_rate t) (pes_buf t) (pes_started t)
    (expected_cc t) c (aac_asc t) (t_sample_rate t) (t_channels t) (av1_sequence_header t)
    (pending_private_probe t) (pts_wrap_offset t) (last_raw_pts t).
Definition set_asc (asc : list byte) (t : DemuxTrackState) : DemuxTrackState :=
  mk_demux_track (t_pid t) (t_track_id t) (t_codec t) (t_kind t) (t_clock_rate t) (pes_buf t) (pes_started t)
    (expected_cc t) (parameter_sets t) (Some asc) (t_sample_rate t) (t_channels t) (av1_sequence_header t)
    (pending_private_probe t) (pts_wrap_offset t) (last_raw_pts t).
Definition set_av1_header (h : option (list byte)) (t : DemuxTrackState) : DemuxTrackState :=
  mk_demux_track (t_pid t) (t_track_id t) (t_codec t) (t_kind t) (t_clock_rate t) (pes_buf t) (pes_started t)
    (expected_cc t) (parameter_sets t) (aac_asc t) (t_sample_rate t) (t_channels t) h
    (pending_private_probe t) (pts_wrap_offset t) (last_raw_pts t).
Definition set_private_codec (c : CodecId) (t : DemuxTrackState) : DemuxTrackState :=
  mk_demux_track (t_pid t) (t_track_id t) c Video 90000 (pes_buf t) (pes_started t)
    (expected_cc t) (parameter_sets t) (aac_asc t) (t_sample_rate t) (t_channels t) (av1_sequence_header t)
    false (pts_wrap_offset t) (last_raw_pts t).
Definition set_audio (c : CodecId) (rate channels : Z) (t : DemuxTrackState) : DemuxTrackState :=
  mk_demux_track (t_pid t) (t_track_id t) c (t_kind t) rate (pes_buf t) (pes_started t)
    (expected_cc t) (parameter_sets t) (aac_asc t) (Some rate) (Some channels) (av1_sequence_header t)
    (pending_private_probe t) (pts_wrap_offset t) (last_raw_pts t).

(** ** Probing of payloads *)

Definition frame_format_for_codec (codec : CodecId) : FrameFormat :=
  match codec with
  | H264 | H265 | H266 => CanonicalH26x
  | AV1 => CanonicalAv1Obu
  | VP8 => CanonicalVp8Frame
  | VP9 => CanonicalVp9Frame
  | MJPEG => MjpegFrame
  | AAC => AacRaw
  | Opus => OpusPacket
  | G711A | G711U => G711Packet
  | MP2 => Mp2Frame
  | MP3 => Mp3Frame
  | WebVtt => WebVttPacket
  | ADPCM => AdpcmPacket
  | UnknownCodec => UnknownFormat
  end.

(** [video_payload_is_random_access] of [video.rs], on these formats. *)
Definition video_payload_is_random_access (codec : CodecId) (format : FrameFormat) (payload : list byte) : bool :=
  match codec, format with
  | H264, CanonicalH26x | H265, CanonicalH26x | H266, CanonicalH26x => h26x_annexb_has_random_access codec payload
  | AV1, CanonicalAv1Obu => av1_obu_payload_has_keyframe payload
  | VP8, CanonicalVp8Frame => vp8_frame_is_keyframe payload
  | VP9, CanonicalVp9Frame => vp9_frame_is_keyframe payload
  | MJPEG, MjpegFrame => true
  | _, _ => false
  end.

(** [data.windows(n).any(p)] *)
Fixpoint any_window (n : nat) (p : list byte -> bool) (data : list byte) : bool :=
  if (length data <? n)%nat then false
  else p (take n data) || match data with [] => false | _ :: data => any_window n p data end.

Definition is_keyframe_payload (data : list byte) (codec : CodecId) : bool :=
  match codec with
  | H264 =>
      any_window 4 (fun w => bool_decide (take 3 w = [x00; x00; x01]) && (Z.land (at_ w 3) 0x1F =? 5)) data
      || any_window 5 (fun w => bool_decide (take 4 w = START_CODE) && (Z.land (at_ w 4) 0x1F =? 5)) data
  | H265 =>
      any_window 5 (fun w => bool_decide (take 4 w = START_CODE)
                             && (let t := Z.land (Z.shiftr (at_ w 4) 1) 0x3F in (16 <=? t) && (t <=? 21))) data
  | _ => false
  end.

(** [read_leb128_usize] is [av1_read_leb128] once more. *)
Definition read_leb128_usize : list byte -> option (Z * nat) := av1_read_leb128.

(** An OBU has a byte of header at least. *)
Fixpoint sequence_header_loop (fuel : nat) (rest : list byte) : option (list byte) :=
  match fuel, rest with
  | S fuel, h :: _ =>
      let header := byte_val h in
      if negb (Z.land header 0x80 =? 0) then None
      else
        let offset := if obu_has_extension header then 2%nat else 1%nat in
        if (length rest <? offset)%nat then None
        else if obu_has_size_field header then
          '(obu_len, leb_len) ← read_leb128_usize (drop offset rest);
          let end_ := (offset + leb_len + Z.to_nat obu_len)%nat in
          if (length rest <? end_)%nat then None
          else if obu_type header =? 1 then Some (take end_ rest)
          else sequence_header_loop fuel (drop end_ rest)
        else None
  | _, _ => None
  end.
Definition extract_av1_sequence_header_obu (payload : list byte) : option (list byte) :=
  sequence_header_loop (length payload) payload.

Definition looks_like_vp8_keyframe (payload : list byte) : bool :=
  (10 <=? length payload)%nat && bool_decide (sub_ 3 3 payload = [x9d; x01; x2a]).
Definition looks_like_vp9_frame (payload : list byte) : bool :=
  negb (is_empty payload) && (Z.shiftr (at_ payload 0) 6 =? 2) && vp9_frame_is_keyframe payload.
Definition looks_like_av1_obu_stream (payload : list byte) : bool :=
  av1_obu_payload_has_keyframe payload || bool_decide (is_Some (extract_av1_sequence_header_obu payload)).

Definition infer_private_video_codec (payload : list byte) : option (CodecId * FrameFormat) :=
  if looks_like_vp8_keyframe payload then Some (VP8, CanonicalVp8Frame)
  else if looks_like_vp9_frame payload then Some (VP9, CanonicalVp9Frame)
  else if looks_like_av1_obu_stream payload then Some (AV1, CanonicalAv1Obu)
  else None.

Record MpegAudioFrameInfo : Set := mk_audio_info { ai_codec : CodecId; ai_sample_rate : Z; ai_channels : Z }.

Definition parse_mpeg_audio_header (payload : list byte) : option MpegAudioFrameInfo :=
  if (length payload <? 4)%nat || negb (at_ payload 0 =? 0xFF) || negb (Z.land (at_ payload 1) 0xE0 =? 0xE0) then None
  else
    let version_id := Z.land (Z.shiftr (at_ payload 1) 3) 0x03 in
    let layer := Z.land (Z.shiftr (at_ payload 1) 1) 0x03 in
    if (version_id =? 1) || (layer =? 0) then None
    else
      let sample_rate_index := Z.land (Z.shiftr (at_ payload 2) 2) 0x03 in
      if sample_rate_index =? 3 then None
      else
        base_rate ← select sample_rate_index [(0, 44100); (1, 48000); (2, 32000)];
        sample_rate ← select version_id [(3, base_rate); (2, base_rate / 2); (0, base_rate / 4)];
        codec ← select layer [(1, MP3); (2, MP2); (3, MP2)];
        Some (mk_audio_info codec sample_rate (if Z.shiftr (at_ payload 3) 6 =? 3 then 1 else 2)).

(** ** Tracks *)

Definition track_info_from_state (t : DemuxTrackState) : TrackInfo :=
  let info := track_new (t_track_id t) (t_kind t) (t_codec t) (t_clock_rate t) in
  let with_extradata ex :=
    mk_track (track_id info) (media_kind info) (codec info) (clock_rate info) None None ex NotReady in
  refresh_readiness
    match t_codec t with
    | H264 | H265 | H266 =>
        match extradata_for_codec (t_codec t) (parameter_sets t) with
        | Some ex => with_extradata ex
        | None => info
        end
    | AAC =>
        match aac_asc t with
        | Some asc =>
            match asc_from_bytes asc with
            | Some c =>
                let rate := aac_sample_rate (asc_sampling_frequency_index c) in
                mk_track (track_id info) (media_kind info) (codec info)
                  (if 0 <? rate then rate else clock_rate info) (if 0 <? rate then Some rate else None)
                  (aac_channel_count_from_config (asc_channel_configuration c)) (ExAAC asc) NotReady
            | None => with_extradata (ExAAC asc)
            end
        | None => info
        end
    | MP2 | MP3 =>
        mk_track (track_id info) (media_kind info) (codec info)
          (default (clock_rate info) (t_sample_rate t)) (t_sample_rate t) (t_channels t) ExNone NotReady
    | AV1 => with_extradata (ExAV1 (av1_sequence_header t) None)
    | _ => info
    end.

(** [(ticks as i64) * 100 / 9] *)
Definition ticks_to_us (ticks : Z) : Z := Z.quot (wrap_i 64 (wrap_i 64 ticks * 100)) 9.

Definition new_frame (t : DemuxTrackState) (format : FrameFormat) (pts dts : Z) (data : list byte) : DemuxFrame :=
  mk_demux_frame (t_track_id t) (t_kind t) (t_codec t) format (wrap_i 64 pts) (wrap_i 64 dts)
    (ticks_to_us pts) (ticks_to_us dts) 0 0 false data.

Definition with_duration_and_key (duration duration_us : Z) (key : bool) (f : DemuxFrame) : DemuxFrame :=
  mk_demux_frame (df_track_id f) (df_kind f) (df_codec f) (df_format f) (df_pts f) (df_dts f) (df_pts_us f)
    (df_dts_us f) duration duration_us key (df_payload f).

Definition build_single_frame_event (data : list byte) (format : FrameFormat) (pts dts : Z)
    (t : DemuxTrackState) : DemuxTrackState * list MpegTsDemuxEvent :=
  let keyframe := bool_decide (t_kind t = Video) && is_keyframe_payload data (t_codec t) in
  let '(t, found) :=
    match t_codec t with
    | H264 | H265 | H266 =>
        let '(c, changed) := update_from_annexb (t_codec t) data (parameter_sets t) in
        let t := set_parameter_sets c t in
        (t, if changed && has_required_sets (t_codec t) c then [TrackFound (track_info_from_state t)] else [])
    | AV1 =>
        match av1_sequence_header t, extract_av1_sequence_header_obu data with
        | None, Some h => let t := set_av1_header (Some h) t in (t, [TrackFound (track_info_from_state t)])
        | _, _ => (t, [])
        end
    | _ => (t, [])
    end in
  let frame := new_frame t format pts dts data in
  let g711 := bool_decide (t_codec t = G711A \/ t_codec t = G711U) in
  let len := Z.of_nat (length data) in
  (t, found ++ [Frame (with_duration_and_key (if g711 then g711_duration_90k len 8000 else 0)
                         (if g711 then g711_duration_us len 8000 else 0) keyframe frame)]).

(** The loop of [split_aac_adts_frames]; a frame takes seven bytes at least. *)
Fixpoint adts_loop (fuel : nat) (first : bool) (rest : list byte) (frame_idx pts dts : Z) (t : DemuxTrackState) :
    DemuxTrackState * list MpegTsDemuxEvent :=
  match fuel, rest with
  | S fuel, _ :: _ =>
      match adts_parse rest with
      | None => (t, if first then [Frame (new_frame t AacRaw pts dts rest)] else [])
      | Some header =>
          if frame_length header <? 7 then (t, [Diagnostic (AdtsError (t_pid t) LengthTooSmall)])
          else if Z.of_nat (length rest) <? frame_length header
          then (t, [Diagnostic (AdtsError (t_pid t) LengthExceedsPayload)])
          else if 12 <? sampling_frequency_index header then (t, [Diagnostic (AdtsError (t_pid t) InvalidIndex)])
          else
            let '(t, found) :=
              match aac_asc t with
              | Some _ => (t, [])
              | None =>
                  let t := set_asc (asc_to_bytes (mk_asc (wrap_u 8 (profile header + 1))
                                                    (sampling_frequency_index header)
                                                    (channel_configuration header))) t in
                  (t, [TrackFound (track_info_from_state t)])
              end in
            let len := Z.to_nat (frame_length header) in
            let rate := aac_sample_rate (sampling_frequency_index header) in
            let duration := if 0 <? rate then 1024 * 90000 / rate else 0 in
            let at_frame ticks := wrap_u 64 (ticks + frame_idx * duration) in
            let frame := new_frame t AacRaw (at_frame pts) (at_frame dts) (sub_ 7 (len - 7) rest) in
            let '(t, events) := adts_loop fuel false (drop len rest) (frame_idx + 1) pts dts t in
            (t, found ++ Frame frame :: events)
      end
  | _, _ => (t, [])
  end.

Definition split_aac_adts_frames (raw_payload : list byte) (pts dts : Z) (t : DemuxTrackState) :
    DemuxTrackState * list MpegTsDemuxEvent :=
  adts_loop (length raw_payload) true raw_payload 0 pts dts t.

(** ** PES packets *)

Definition WRAP_THRESHOLD : Z := 2 ^ 32.
Definition WRAP_VALUE : Z := 2 ^ 33.

Definition unwrap_clock (pts : Z) (t : DemuxTrackState) : DemuxTrackState :=
  let offset :=
    match last_raw_pts t with
    | Some last => if (pts <? last) && (WRAP_THRESHOLD <? last - pts) then pts_wrap_offset t + WRAP_VALUE
                   else pts_wrap_offset t
    | None => pts_wrap_offset t
    end in
  set_clock offset pts t.

(** What the codec makes of a payload. *)
Definition payload_to_frames (raw_payload : list byte) (pts dts : Z) (t : DemuxTrackState) :
    DemuxTrackState * list MpegTsDemuxEvent :=
  if pending_private_probe t then
    match infer_private_video_codec raw_payload with
    | None => (t, [])
    | Some (codec, format) =>
        let t := set_private_codec codec t in
        let t := if bool_decide (codec = AV1)
                 then set_av1_header (extract_av1_sequence_header_obu raw_payload) t else t in
        let found := TrackFound (track_info_from_state t) in
        let '(t, events) := build_single_frame_event raw_payload format pts dts t in
        (t, found :: events)
    end
  else
    match t_codec t with
    | AAC => split_aac_adts_frames raw_payload pts dts t
    | MP2 | MP3 =>
        let '(t, found) :=
          match parse_mpeg_audio_header raw_payload with
          | None => (t, [])
          | Some info =>
              let changed := negb (bool_decide (t_codec t = ai_codec info /\
                                                t_sample_rate t = Some (ai_sample_rate info) /\
                                                t_channels t = Some (ai_channels info))) in
              let t := set_audio (ai_codec info) (ai_sample_rate info) (ai_channels info) t in
              (t, if changed then [TrackFound (track_info_from_state t)] else [])
          end in
        let '(t, events) :=
          build_single_frame_event raw_payload (frame_format_for_codec (t_codec t)) pts dts t in
        (t, found ++ events)
    | codec => build_single_frame_event raw_payload (frame_format_for_codec codec) pts dts t
    end.

Definition parse_pes_to_frames (t : DemuxTrackState) : DemuxTrackState * list MpegTsDemuxEvent :=
  let buf := pes_buf t in
  let cleared := set_pes [] (pes_started t) t in
  if (length buf <? 9)%nat || negb (bool_decide (take 3 buf = [x00; x00; x01])) then (cleared, [])
  else
    let header_data_len := at_ buf 8 in
    let pts_dts_flags := Z.land (Z.shiftr (at_ buf 7) 6) 0x03 in
    let payload_start := (9 + Z.to_nat header_data_len)%nat in
    if (length buf <=? payload_start)%nat then (cleared, [])
    else if (pts_dts_flags =? 1) || ((2 <=? pts_dts_flags) && (header_data_len <? 5))
            || ((pts_dts_flags =? 3) && (header_data_len <? 10)) then (cleared, [])
    else
      let pts := if 2 <=? pts_dts_flags then decode_timestamp (sub_ 9 5 buf) else 0 in
      let dts := if pts_dts_flags =? 3 then decode_timestamp (sub_ 14 5 buf) else pts in
      let t := unwrap_clock pts cleared in
      payload_to_frames (drop payload_start buf) (wrap_u 64 (pts + pts_wrap_offset t))
        (wrap_u 64 (dts + pts_wrap_offset t)) t.

(** The part of [feed_packet] that is for the track of the PID. *)
Definition feed_track (max : Z) (pusi : bool) (cc : Z) (payload : list byte) (t : DemuxTrackState) :
    DemuxTrackState * list MpegTsDemuxEvent :=
  let gap := match expected_cc t with
             | Some expected => if cc =? expected then []
                                else [Diagnostic (ContinuityGap (t_pid t) expected cc)]
             | None => []
             end in
  let t := set_cc (Z.land (cc + 1) 0x0F) t in
  let '(t, frames) :=
    if pusi then
      let '(t, frames) := if is_empty (pes_buf t) then (t, []) else parse_pes_to_frames t in
      (set_pes [] true t, frames)
    else (t, []) in
  let '(t, overflow) :=
    if pes_started t then
      if max <? Z.of_nat (length (pes_buf t) + length payload)
      then (set_pes [] false t, [Diagnostic (PesOverflow (t_pid t))])
      else (set_pes (pes_buf t ++ payload) true t, [])
    else (t, []) in
  (t, gap ++ frames ++ overflow).

(** The first track with the PID. *)
Fixpoint feed_tracks (max pid : Z) (pusi : bool) (cc : Z) (payload : list byte) (l : list DemuxTrackState) :
    list DemuxTrackState * list MpegTsDemuxEvent :=
  match l with
  | [] => ([], [])
  | t :: l =>
      if t_pid t =? pid then let '(t, events) := feed_track max pusi cc payload t in (t :: l, events)
      else let '(l, events) := feed_tracks max pid pusi cc payload l in (t :: l, events)
  end.

(** ** Tables *)

Definition set_pmt_pid (pid : option Z) (d : MpegTsDemuxer) : MpegTsDemuxer :=
  mk_demuxer (config d) pid (d_tracks d) (remainder d) (pmt_section_buf d) (pmt_section_target_len d) (next_track_id d).
Definition set_tracks (l : list DemuxTrackState) (next : Z) (d : MpegTsDemuxer) : MpegTsDemuxer :=
  mk_demuxer (config d) (pmt_pid d) l (remainder d) (pmt_section_buf d) (pmt_section_target_len d) next.
Definition set_section (buf : list byte) (target : option nat) (d : MpegTsDemuxer) : MpegTsDemuxer :=
  mk_demuxer (config d) (pmt_pid d) (d_tracks d) (remainder d) buf target (next_track_id d).
Definition set_remainder (r : list byte) (d : MpegTsDemuxer) : MpegTsDemuxer :=
  mk_demuxer (config d) (pmt_pid d) (d_tracks d) r (pmt_section_buf d) (pmt_section_target_len d) (next_track_id d).

(** Behind the pointer field of a packet that starts a section. *)
Definition section_start (payload : list byte) (pusi : bool) : option (list byte) :=
  match payload with
  | pointer :: _ =>
      if pusi then
        if (length payload <=? 1 + Z.to_nat (byte_val pointer))%nat then None
        else Some (drop (1 + Z.to_nat (byte_val pointer)) payload)
      else Some payload
  | [] => Some payload
  end.

(** The length of 12 bits at an index. *)
Definition len_at (data : list byte) (i : nat) : nat :=
  Z.to_nat (Z.lor (Z.shiftl (Z.land (at_ data i) 0x0F) 8) (at_ data (S i))).

Definition pid_at (data : list byte) (i : nat) : Z :=
  Z.lor (Z.shiftl (Z.land (at_ data i) 0x1F) 8) (at_ data (S i)).

(** Whether the stored CRC is the computed one. *)
Definition crc_ok (data : list byte) (section_end : nat) : bool :=
  be_val (sub_ (section_end - 4) 4 data) =? crc32_mpeg2 (take (section_end - 4) data).

Definition parse_pat (payload : list byte) (pusi : bool) (d : MpegTsDemuxer) :
    MpegTsDemuxer * list MpegTsDemuxEvent :=
  match section_start payload pusi with
  | None => (d, [])
  | Some data =>
      if (length data <? 12)%nat then (d, [])
      else
        let section_end := Nat.min (3 + len_at data 1) (length data) in
        if (section_end <? 4)%nat then (d, [])
        else
          let ok := crc_ok data section_end in
          let error := if ok then [] else [Diagnostic (CrcError 0)] in
          if negb ok && strict_crc (config d) then (d, error)
          else (set_pmt_pid (Some (pid_at data 10)) d, error)
  end.

Definition reassemble_pmt_section (payload : list byte) (pusi : bool) (d : MpegTsDemuxer) :
    MpegTsDemuxer * option (list byte) :=
  match section_start payload pusi with
  | None => (d, None)
  | Some data =>
      let d := if pusi && negb (is_empty payload) then set_section [] None d else d in
      if is_empty data then (d, None)
      else
        let buf := pmt_section_buf d ++ data in
        let target :=
          match pmt_section_target_len d with
          | Some n => Some n
          | None => if (3 <=? length buf)%nat then Some (3 + len_at buf 1)%nat else None
          end in
        match target with
        | None => (set_section buf None d, None)
        | Some n =>
            if (length buf <? n)%nat then (set_section buf (Some n) d, None)
            else (set_section [] None d, Some (take n buf))
        end
  end.

Definition clock_rate_for (kind : MediaKind) (codec : CodecId) : Z :=
  match kind with
  | Audio => match codec with AAC | Opus => 48000 | G711A | G711U => 8000 | _ => 90000 end
  | _ => 90000
  end.

Definition demux_track_new (pid id : Z) (codec : CodecId) (kind : MediaKind) (pending : bool) : DemuxTrackState :=
  mk_demux_track pid id codec kind (clock_rate_for kind codec) [] false None cache_default None None None None
    pending 0 None.

(** One entry of the table: the codec of a stream type, if it has one. *)
Definition resolve_stream (stream_type : Z) (es_info : list byte) (es_info_len : nat) :
    option (CodecId * MediaKind * bool) :=
  match (if stream_type =? 0x06 then identify_private_stream es_info else codec_from_stream_type stream_type) with
  | Some (codec, kind) => Some (codec, kind, false)
  | None => if (stream_type =? 0x06) && (es_info_len =? 0)%nat then Some (UnknownCodec, Video, true) else None
  end.

Definition add_stream (stream_type pid : Z) (es_info : list byte) (es_info_len : nat)
    (tracks : list DemuxTrackState) (next : Z) : list DemuxTrackState * Z * list MpegTsDemuxEvent :=
  if existsb (fun t => t_pid t =? pid) tracks then (tracks, next, [])
  else
    match resolve_stream stream_type es_info es_info_len with
    | None => (tracks, next, [Diagnostic (UnknownStreamType stream_type pid)])
    | Some (codec, kind, pending) =>
        (tracks ++ [demux_track_new pid next codec kind pending], wrap_u 32 (next + 1),
         if pending then []
         else [TrackFound (refresh_readiness (track_new next kind codec (clock_rate_for kind codec)))])
    end.

(** The entries between [pos] and [end_], where the CRC starts. *)
Fixpoint pmt_loop (fuel : nat) (data : list byte) (pos end_ : nat) (tracks : list DemuxTrackState) (next : Z) :
    list DemuxTrackState * Z * list MpegTsDemuxEvent :=
  match fuel with
  | O => (tracks, next, [])
  | S fuel =>
      if (end_ <? pos + 5)%nat then (tracks, next, [])
      else
        let len := len_at data (pos + 3) in
        let '(tracks, next, events) :=
          add_stream (at_ data pos) (pid_at data (pos + 1)) (sub_ (pos + 5) len data) len tracks next in
        let '(tracks, next, events') := pmt_loop fuel data (pos + 5 + len) end_ tracks next in
        (tracks, next, events ++ events')
  end.

Definition parse_pmt_section (data : list byte) (d : MpegTsDemuxer) : MpegTsDemuxer * list MpegTsDemuxEvent :=
  if (length data <? 12)%nat then (d, [])
  else
    let section_end := (3 + len_at data 1)%nat in
    if (length data <? section_end)%nat then (d, [])
    else
      let ok := if (4 <=? section_end)%nat then crc_ok data section_end else true in
      let error := if ok then [] else [Diagnostic (CrcError (default 0 (pmt_pid d)))] in
      if negb ok && strict_crc (config d) then (d, error)
      else
        let prog_info_len := len_at data 10 in
        let '(tracks, next, events) :=
          pmt_loop (length data) data (12 + prog_info_len) (section_end - 4) (d_tracks d) (next_track_id d) in
        (set_tracks tracks next d, error ++ events).

Definition parse_pmt (payload : list byte) (pusi : bool) (d : MpegTsDemuxer) :
    MpegTsDemuxer * list MpegTsDemuxEvent :=
  match reassemble_pmt_section payload pusi d with
  | (d, None) => (d, [])
  | (d, Some data) => parse_pmt_section data d
  end.

(** ** Packets and bytes *)

(** The part of [feed_packet] behind the adaptation field: who gets the payload. *)
Definition feed_payload (pid : Z) (pusi : bool) (cc : Z) (payload : list byte) (d : MpegTsDemuxer) :
    MpegTsDemuxer * list MpegTsDemuxEvent :=
  if pid =? 0 then parse_pat payload pusi d
  else if bool_decide (Some pid = pmt_pid d) then parse_pmt payload pusi d
  else if pid =? 0x1FFF then (d, [])
  else
    let '(tracks, events) := feed_tracks (max_reassembly_bytes (config d)) pid pusi cc payload (d_tracks d) in
    (set_tracks tracks (next_track_id d) d, events).

Definition feed_packet (pkt : list byte) (d : MpegTsDemuxer) : MpegTsDemuxer * list MpegTsDemuxEvent :=
  let pid := pid_at pkt 1 in
  let pusi := negb (Z.land (at_ pkt 1) 0x40 =? 0) in
  let af_control := Z.land (Z.shiftr (at_ pkt 3) 4) 0x03 in
  let cc := Z.land (at_ pkt 3) 0x0F in
  let has_af := (af_control =? 2) || (af_control =? 3) in
  let af_len := Z.to_nat (at_ pkt 4) in
  if has_af && (TS_PACKET_SIZE <? 5 + af_len)%nat then (d, [Diagnostic (AdaptationFieldOverflow pid)])
  else if (af_control =? 0) || (af_control =? 2) then (d, [])
  else
    let payload_offset := if has_af then (5 + af_len)%nat else 4%nat in
    if (TS_PACKET_SIZE <=? payload_offset)%nat then (d, [])
    else feed_payload pid pusi cc (drop payload_offset pkt) d.

(** A turn goes on by a byte at least; the result is where the rest starts. *)
Fixpoint push_loop (fuel : nat) (buf : list byte) (offset : nat) (d : MpegTsDemuxer) :
    MpegTsDemuxer * list MpegTsDemuxEvent * nat :=
  match fuel with
  | O => (d, [], offset)
  | S fuel =>
      if (length buf <? offset + TS_PACKET_SIZE)%nat then (d, [], offset)
      else if negb (is_sync (buf !! offset)) then
        match find_sync buf offset with
        | None => (d, [], offset)
        | Some next =>
            let '(d, events, rest) := push_loop fuel buf next d in
            (d, Diagnostic SyncLoss :: events, rest)
        end
      else
        let '(d, events) := feed_packet (sub_ offset TS_PACKET_SIZE buf) d in
        let '(d, events', rest) := push_loop fuel buf (offset + TS_PACKET_SIZE) d in
        (d, events ++ events', rest)
  end.

Definition push (data : list byte) (d : MpegTsDemuxer) : MpegTsDemuxer * list MpegTsDemuxEvent :=
  let buf := remainder d ++ data in
  let d := set_remainder [] d in
  match find_sync buf 0 with
  | None =>
      let keep := Nat.min (length buf) (TS_PACKET_SIZE - 1) in
      (set_remainder (drop (length buf - keep) buf) d, [])
  | Some pos =>
      let lost := if (0 <? pos)%nat then [Diagnostic SyncLoss] else [] in
      let '(d, events, rest) := push_loop (S (length buf)) buf pos d in
      (set_remainder (drop rest buf) d, lost ++ events)
  end.

Fixpoint flush_tracks (l : list DemuxTrackState) : list DemuxTrackState * list MpegTsDemuxEvent :=
  match l with
  | [] => ([], [])
  | t :: l =>
      let '(t, events) := if is_empty (pes_buf t) then (t, []) else parse_pes_to_frames t in
      let '(l, events') := flush_tracks l in
      (t :: l, events ++ events')
  end.

Definition flush (d : MpegTsDemuxer) : MpegTsDemuxer * list MpegTsDemuxEvent :=
  let '(tracks, events) := flush_tracks (d_tracks d) in
  (set_tracks tracks (next_track_id d) d, events).
