(* ===== verification/TsTables.v ===== *)
(** * The tables of a transport stream read back

    The demuxer finds in the PAT and the PMT, of any number of packets, the tracks of the
    muxer: PIDs and codecs, in order. A table that is written again changes nothing. *)
From Stdlib Require Import Strings.Byte.
From S2P Require Import Prelude RtmpBytes Codecs Rtp RtpH26x Ts Aac Tracks TsMux TsDemux.

(** * Transport stream packets read back

    What the demuxer makes of the packets that the muxer writes: time stamps, the header of a
    packet, the PES packet cut into packets, and the alignment of any cut of the bytes. *)

(** ** Bits *)

Lemma land_double x k : Z.land x (2 * k) = 2 * Z.land (x / 2) k.
Proof.
  apply Z.bits_inj'. intros n Hn. rewrite Z.land_spec. destruct (decide (n = 0)) as [->|Hz].
  - by rewrite !Z.testbit_even_0, andb_false_r.
  - replace n with (Z.succ (n - 1)) by lia. rewrite !Z.testbit_even_succ, Z.land_spec by lia.
    f_equal. by rewrite <- Z.div2_div, Z.div2_spec, Z.shiftr_spec, Z.add_1_r by lia.
Qed.

Lemma land_14 x : Z.land x 0x0E = 2 * (x / 2 mod 8).
Proof. change 0x0E with (2 * 7). by rewrite land_double, land_7. Qed.
Lemma land_127 x : Z.land x 0x7F = x mod 128.
Proof. change 0x7F with (Z.ones 7). by rewrite Z.land_ones. Qed.
Lemma land_254 x : Z.land x 0xFE = 2 * (x / 2 mod 128).
Proof. change 0xFE with (2 * 127). by rewrite land_double, land_127. Qed.
Lemma land_ts_mask x : Z.land x TS_MASK = x mod 2 ^ 33.
Proof. change TS_MASK with (Z.ones 33). by rewrite Z.land_ones. Qed.

(** Thirty-three bits of a time stamp come back. *)
Lemma timestamp_back marker ts rest :
  0 <= marker < 16 -> decode_timestamp (encode_timestamp marker ts ++ rest) = ts mod 2 ^ 33.
Proof.
  intros M. unfold decode_timestamp, encode_timestamp, at_. rewrite land_ts_mask. cbn [app nth]. rewrite !byte_val_of.
  assert (0 <= ts mod 2 ^ 33 < 2 ^ 33) as R by by apply Z.mod_pos_bound. revert R. generalize (ts mod 2 ^ 33).
  intros t R. rewrite land_14, !land_254, land_7. rewrite !Z.shiftr_div_pow2, !Z.shiftl_mul_pow2 by done.
  rewrite (lor_add (marker * 2 ^ 4) _ 4), !(lor_add _ 1 1) by zdm.
  rewrite (lor_add _ (_ * 2 ^ 22) 30) by zdm. rewrite (lor_add _ (_ * 2 ^ 15) 22) by zdm.
  rewrite (lor_add _ (_ * 2 ^ 7) 15) by zdm. rewrite (lor_add _ _ 7) by zdm. zdm.
Qed.

Lemma length_encode_timestamp marker ts : length (encode_timestamp marker ts) = 5%nat.
Proof. done. Qed.

(** ** The header of a packet *)

Definition pid_ok (pid : Z) : Prop := 0 <= pid < 8192.
Definition cc_ok (cc : Z) : Prop := 0 <= cc < 16.

Lemma next_cc_ok cc : cc_ok (next_cc cc).
Proof. unfold cc_ok, next_cc. rewrite land_15. by apply Z.mod_pos_bound. Qed.

Lemma header_pid pusi pid control cc rest :
  pid_ok pid -> pid_at (ts_header pusi pid control cc ++ rest) 1 = pid.
Proof.
  intros P. unfold pid_ok in P. unfold pid_at, at_, ts_header. cbn [app nth]. rewrite !byte_val_of, land_31.
  rewrite !Z.shiftr_div_pow2, Z.shiftl_mul_pow2 by done.
  destruct pusi; [rewrite (lor_add 0x4000 _ 13) by zdm|rewrite Z.lor_0_l]; (rewrite (lor_add _ _ 8) by zdm; zdm).
Qed.

Lemma header_pusi pusi pid control cc rest :
  pid_ok pid -> negb (Z.land (at_ (ts_header pusi pid control cc ++ rest) 1) 0x40 =? 0) = pusi.
Proof.
  intros P. unfold pid_ok in P. unfold at_, ts_header. cbn [app nth]. rewrite byte_val_of.
  change 0x40 with (2 ^ 6). rewrite land_pow2, negb_involutive, Z.testbit_odd by done.
  rewrite !Z.shiftr_div_pow2 by done.
  destruct pusi; [rewrite (lor_add 0x4000 _ 13) by zdm|rewrite Z.lor_0_l].
  - replace (_ / 2 ^ 6) with 1 by zdm. done.
  - replace (_ / 2 ^ 6) with 0 by zdm. done.
Qed.

Lemma header_control pusi pid k cc rest :
  0 <= k < 4 -> cc_ok cc ->
  let b := at_ (ts_header pusi pid (16 * k) cc ++ rest) 3 in
  Z.land (Z.shiftr b 4) 0x03 = k /\ Z.land b 0x0F = cc.
Proof.
  intros K C. unfold cc_ok in C. unfold at_, ts_header. cbn [app nth]. rewrite byte_val_of, !land_15, land_3.
  rewrite Z.shiftr_div_pow2 by done. rewrite (lor_add _ _ 4) by zdm. split; zdm.
Qed.

(** What stands between the header and the payload: nothing, or a field that says its length. *)
Definition adaptation (mid : list byte) : Prop :=
  mid = [] \/ exists m, mid = byte_of (Z.of_nat (length m)) :: m.

Definition af_control_of (mid : list byte) : Z := if is_empty mid then 0x10 else 0x30.

Lemma feed_written pusi pid cc mid chunk d :
  pid_ok pid -> cc_ok cc -> adaptation mid -> chunk <> [] -> (length mid + length chunk = 184)%nat ->
  feed_packet (ts_header pusi pid (af_control_of mid) cc ++ mid ++ chunk) d = feed_payload pid pusi cc chunk d.
Proof.
  intros P C M Ne L. unfold feed_packet. rewrite header_pid, header_pusi by done.
  destruct M as [->|[m ->]].
  - change (af_control_of []) with (16 * 1).
    destruct (header_control pusi pid 1 cc ([] ++ chunk)) as [-> ->]; [done..|]. cbn. done.
  - change (af_control_of _) with (16 * 3). cbn [length] in L. assert (length chunk <> 0%nat) by by destruct chunk.
    destruct (header_control pusi pid 3 cc ((byte_of (Z.of_nat (length m)) :: m) ++ chunk)) as [-> ->]; [done..|].
    cbn [Z.eqb Pos.eqb orb andb]. change (at_ _ 4) with (byte_val (byte_of (Z.of_nat (length m)))).
    rewrite byte_val_of. rewrite (Z.mod_small _ 256) by lia. rewrite Nat2Z.id. unfold TS_PACKET_SIZE.
    rewrite (proj2 (Nat.ltb_ge 188 _)), (proj2 (Nat.leb_gt 188 _)) by lia. f_equal.
    change (5 + length m)%nat with (S (S (S (S (S (length m)))))). cbn [ts_header app drop]. by rewrite drop_app_length.
Qed.

(** ** The packets of a PES packet *)

Lemma length_fill n : length (fill n) = n.
Proof. apply length_replicate. Qed.

Definition written (pusi : bool) (pid cc : Z) (chunk pkt : list byte) : Prop :=
  exists mid, adaptation mid /\ chunk <> [] /\ (length mid + length chunk = 184)%nat
              /\ pkt = ts_header pusi pid (af_control_of mid) cc ++ mid ++ chunk.

Lemma adaptation_intro n m : n = length m -> adaptation (byte_of (Z.of_nat n) :: m).
Proof. intros ->. right. by exists m. Qed.

(** A chunk of [n] bytes leaves [184 - n] for the field. *)
Lemma written_intro pusi pid cc mid rest n control :
  adaptation mid -> (0 < n <= length rest)%nat -> (length mid + n = 184)%nat -> control = af_control_of mid ->
  let '(pkt, taken) := (ts_header pusi pid control cc ++ mid ++ take n rest, n) in
  written pusi pid cc (take taken rest) pkt /\ (0 < taken <= length rest)%nat.
Proof.
  intros M N L ->. split; [|done]. exists mid.
  assert (length (take n rest) = n) as Lt by (rewrite length_take; lia).
  split; [done|]. split; [|split; [lia|done]]. intros E. rewrite E in Lt. cbn in Lt. lia.
Qed.

Lemma pes_packet_written pid cc first ra pcr rest :
  rest <> [] ->
  let '(pkt, taken) := pes_packet pid cc first ra pcr rest in
  written first pid cc (take taken rest) pkt /\ (0 < taken <= length rest)%nat.
Proof.
  intros Ne. assert (0 < length rest)%nat as L by (destruct rest; cbn; [done|lia]).
  unfold pes_packet. cbv zeta.
  set (afd := match pcr with Some v => pcr_bytes v | None => [] end).
  assert (length afd <= 6)%nat as A by (unfold afd; destruct pcr; cbn; lia).
  set (flags := byte_of (Z.lor _ (if pcr is Some _ then _ else _))). unfold TS_PACKET_SIZE.
  destruct (first && _).
  - destruct (Nat.ltb_spec (length rest) (188 - (4 + 1 + S (length afd)))) as [Lt|Ge].
    + set (stuff := (_ - length rest)%nat).
      assert (length (flags :: afd ++ fill stuff) = (S (length afd) + stuff)%nat) as Lm.
      { cbn [length]. by rewrite length_app, length_fill. }
      epose proof (written_intro first pid cc (byte_of (Z.of_nat (S (length afd) + stuff)) :: flags :: afd ++ fill stuff)
        rest (length rest) 0x30 _ _ _ _) as W. rewrite firstn_all in W. cbn [app] in W |- *.
      by rewrite <- app_assoc in W.
    + epose proof (written_intro first pid cc (byte_of (Z.of_nat (S (length afd))) :: flags :: afd)
        rest (188 - (4 + 1 + S (length afd))) 0x30 _ _ _ _) as W. exact W.
  - destruct (Nat.ltb_spec (length rest) (188 - 4)) as [Lt|Ge].
    + destruct (Nat.eqb_spec (188 - 4 - length rest) 1) as [E|E].
      * epose proof (written_intro first pid cc [byte_of (Z.of_nat 0)] rest (length rest) 0x30 _ _ _ _) as W.
        rewrite firstn_all in W. exact W.
      * epose proof (written_intro first pid cc
          (byte_of (Z.of_nat (188 - 4 - length rest - 1)) :: x00 :: fill (188 - 4 - length rest - 2))
          rest (length rest) 0x30 _ _ _ _) as W. rewrite firstn_all in W. exact W.
    + epose proof (written_intro first pid cc [] rest (188 - 4) 0x10 _ _ _ _) as W. exact W.
  Unshelve. all: try by left. all: try apply adaptation_intro. all: try (unfold af_control_of; reflexivity); try (cbn [length]; rewrite ?length_app, ?length_fill; lia).
Qed.

(** The packets of [bs], from a counter to the next. *)
Inductive wrote (pid : Z) : Z -> bool -> list byte -> list (list byte) -> Z -> Prop :=
| wrote_nil cc first : cc_ok cc -> wrote pid cc first [] [] cc
| wrote_cons cc first chunk bs pkt pkts cc' :
    cc_ok cc -> written first pid cc chunk pkt -> wrote pid (next_cc cc) false bs pkts cc' ->
    wrote pid cc first (chunk ++ bs) (pkt :: pkts) cc'.

Lemma write_pes_loop_wrote fuel pid cc first ra pcr bs :
  cc_ok cc -> (length bs <= fuel)%nat ->
  let '(pkts, cc') := write_pes_loop fuel pid cc first ra pcr bs in wrote pid cc first bs pkts cc' /\ cc_ok cc'.
Proof.
  revert cc first bs. induction fuel as [|fuel IH]; intros cc first [|b bs] C L; cbn in L; try lia;
    try (split; [by constructor|done]).
  cbn [write_pes_loop]. pose proof (pes_packet_written pid cc first ra pcr (b :: bs) ltac:(done)) as W.
  destruct (pes_packet _ _ _ _ _ _) as [pkt taken]. destruct W as [W T].
  specialize (IH (next_cc cc) false (drop taken (b :: bs)) (next_cc_ok cc)).
  destruct (write_pes_loop _ _ _ _ _ _ _) as [pkts cc']. destruct IH as [IH C'].
  - rewrite length_drop. cbn. lia.
  - split; [|done]. rewrite <- (take_drop taken (b :: bs)) at 1. by econstructor.
Qed.

Lemma write_pes_wrote pid cc ra pcr bs :
  cc_ok cc -> let '(pkts, cc') := write_pes_packets pid bs cc ra pcr in wrote pid cc true bs pkts cc' /\ cc_ok cc'.
Proof. intros C. by apply write_pes_loop_wrote. Qed.

(** ** A PES packet arrives *)

Fixpoint feed_all (pkts : list (list byte)) (d : MpegTsDemuxer) : MpegTsDemuxer * list MpegTsDemuxEvent :=
  match pkts with
  | [] => (d, [])
  | p :: pkts => let '(d, e) := feed_packet p d in let '(d, e') := feed_all pkts d in (d, e ++ e')
  end.

Lemma feed_all_app ps qs d :
  feed_all (ps ++ qs) d = (let '(d, e) := feed_all ps d in let '(d, e') := feed_all qs d in (d, e ++ e')).
Proof.
  revert d. induction ps as [|p ps IH]; intros d; cbn [feed_all app].
  - by destruct (feed_all qs d).
  - destruct (feed_packet p d) as [d1 e1]. rewrite IH. destruct (feed_all ps d1) as [d2 e2].
    destruct (feed_all qs d2). by rewrite app_assoc.
Qed.

(** The PID is one of a track: not of a table, nor of the filling. *)
Definition track_pid (d : MpegTsDemuxer) (pid : Z) : Prop :=
  pid_ok pid /\ pid <> 0 /\ pid <> 0x1FFF /\ pmt_pid d <> Some pid.

Lemma feed_tracks_at max pid pusi cc payload l1 t l2 :
  Forall (fun x => t_pid x <> pid) l1 -> t_pid t = pid ->
  feed_tracks max pid pusi cc payload (l1 ++ t :: l2)
  = (let '(t, events) := feed_track max pusi cc payload t in (l1 ++ t :: l2, events)).
Proof.
  intros F E. induction F as [|x l1 Nx _ IH]; cbn [app feed_tracks].
  - by rewrite (proj2 (Z.eqb_eq _ _)).
  - rewrite (proj2 (Z.eqb_neq _ _)), IH by done. by destruct (feed_track _ _ _ _ _).
Qed.

Lemma feed_packet_track d pid pusi cc chunk pkt l1 t l2 :
  written pusi pid cc chunk pkt -> cc_ok cc -> track_pid d pid ->
  d_tracks d = l1 ++ t :: l2 -> Forall (fun x => t_pid x <> pid) l1 -> t_pid t = pid ->
  feed_packet pkt d
  = (let '(t, events) := feed_track (max_reassembly_bytes (config d)) pusi cc chunk t in
     (set_tracks (l1 ++ t :: l2) (next_track_id d) d, events)).
Proof.
  intros (mid & M & Ne & L & ->) C (P & P0 & P1 & P2) E F Et. rewrite feed_written by done. unfold feed_payload.
  rewrite (proj2 (Z.eqb_neq _ _)), bool_decide_false by congruence. rewrite (proj2 (Z.eqb_neq _ _)) by done.
  rewrite E, feed_tracks_at by done. by destruct (feed_track _ _ _ _ _).
Qed.

Lemma feed_track_continues max cc chunk t :
  pes_started t = true -> expected_cc t = Some cc -> Z.of_nat (length (pes_buf t) + length chunk) <= max ->
  feed_track max false cc chunk t = (set_pes (pes_buf t ++ chunk) true (set_cc (next_cc cc) t), []).
Proof.
  intros S X L. unfold feed_track. rewrite X, Z.eqb_refl. cbn [pes_started set_cc pes_buf].
  by rewrite S, (proj2 (Z.ltb_ge _ _)) by done.
Qed.

Lemma feed_continues pid cc bs pkts cc' d l1 t l2 :
  wrote pid cc false bs pkts cc' -> track_pid d pid ->
  d_tracks d = l1 ++ t :: l2 -> Forall (fun x => t_pid x <> pid) l1 -> t_pid t = pid ->
  pes_started t = true -> expected_cc t = Some cc ->
  Z.of_nat (length (pes_buf t) + length bs) <= max_reassembly_bytes (config d) ->
  feed_all pkts d = (set_tracks (l1 ++ set_pes (pes_buf t ++ bs) true (set_cc cc' t) :: l2) (next_track_id d) d, []).
Proof.
  intros W. remember false as first eqn:Ef. revert d t Ef.
  induction W as [cc first C|cc first chunk bs pkt pkts cc' C W1 W IH]; intros d t -> P E F Et S X L; cbn [feed_all].
  - rewrite app_nil_r. destruct d, t; cbn in *. by subst.
  - rewrite length_app in L. erewrite feed_packet_track by done. rewrite feed_track_continues by (done || lia).
    erewrite IH; [|done|done|reflexivity|done..|]; cbn [pes_buf set_pes set_cc t_pid]; try done.
    + by rewrite app_assoc.
    + rewrite length_app. cbn. lia.
Qed.

(** What the start of a packet makes of the one before. *)
Definition close_pes (t : DemuxTrackState) : DemuxTrackState * list MpegTsDemuxEvent :=
  if is_empty (pes_buf t) then (t, []) else parse_pes_to_frames t.

Lemma feed_track_starts max cc chunk t :
  expected_cc t = None \/ expected_cc t = Some cc -> Z.of_nat (length chunk) <= max ->
  feed_track max true cc chunk t
  = (let '(t, events) := close_pes (set_cc (next_cc cc) t) in (set_pes chunk true t, events)).
Proof.
  intros X L. unfold feed_track, close_pes.
  replace (match expected_cc t with Some _ => _ | None => _ end) with (@nil MpegTsDemuxEvent)
    by (destruct X as [-> | ->]; [|rewrite Z.eqb_refl]; done).
  fold (next_cc cc). destruct (if is_empty _ then _ else _) as [t' ev]. cbn [pes_started set_pes pes_buf app length].
  by rewrite (proj2 (Z.ltb_ge _ _)), app_nil_r by lia.
Qed.

Lemma feed_pes pid cc bs pkts cc' d l1 t l2 t1 ev :
  wrote pid cc true bs pkts cc' -> bs <> [] -> track_pid d pid ->
  d_tracks d = l1 ++ t :: l2 -> Forall (fun x => t_pid x <> pid) l1 -> t_pid t = pid ->
  expected_cc t = None \/ expected_cc t = Some cc ->
  Z.of_nat (length bs) <= max_reassembly_bytes (config d) ->
  close_pes (set_cc (next_cc cc) t) = (t1, ev) -> t_pid t1 = pid -> expected_cc t1 = Some (next_cc cc) ->
  feed_all pkts d = (set_tracks (l1 ++ set_pes bs true (set_cc cc' t1) :: l2) (next_track_id d) d, ev).
Proof.
  intros W. inversion W as [|? ? chunk bs' pkt pkts' ? C W1 W2]; subst; [done|].
  intros _ P E F Et X L Cl Et1 X1. rewrite length_app in L. cbn [feed_all].
  erewrite feed_packet_track by done. rewrite feed_track_starts, Cl by (done || lia).
  erewrite feed_continues; [|done|done|reflexivity|done..|]; cbn [pes_buf set_pes set_cc t_pid config set_tracks]; try done.
  by rewrite app_nil_r.
Qed.

(** ** Any cut of the bytes *)

Definition packet_shape (pkt : list byte) : Prop := length pkt = TS_PACKET_SIZE /\ pkt !! 0%nat = Some SYNC_BYTE.

Lemma written_shape pusi pid cc chunk pkt : written pusi pid cc chunk pkt -> packet_shape pkt.
Proof.
  intros (mid & _ & _ & L & ->). split; [|done]. rewrite !length_app. unfold TS_PACKET_SIZE.
  change (length (ts_header _ _ _ _)) with 4%nat. lia.
Qed.

Lemma wrote_shape pid cc first bs pkts cc' : wrote pid cc first bs pkts cc' -> Forall packet_shape pkts.
Proof. induction 1; constructor; [by eapply written_shape|done]. Qed.

(** Bytes that start at a packet: whole packets, and the start of one more. *)
Definition aligned (buf : list byte) (pkts : list (list byte)) (tail : list byte) : Prop :=
  buf = concat pkts ++ tail /\ Forall packet_shape pkts /\ (length tail < TS_PACKET_SIZE)%nat
  /\ (tail = [] \/ tail !! 0%nat = Some SYNC_BYTE).

Lemma sync_true o : is_sync o = true <-> o = Some SYNC_BYTE.
Proof. unfold is_sync. by rewrite bool_decide_eq_true. Qed.

Lemma aligned_starts buf pkts tail : aligned buf pkts tail -> buf <> [] -> buf !! 0%nat = Some SYNC_BYTE.
Proof.
  intros (-> & F & _ & T) Ne. destruct pkts as [|p pkts]; cbn.
  - destruct T as [->|T]; [done|]. done.
  - apply Forall_cons in F as [[_ S] _]. rewrite <- app_assoc. by rewrite (lookup_app_l_Some _ _ _ _ S).
Qed.

Lemma aligned_tail p pkts tail buf :
  aligned buf (p :: pkts) tail -> exists rest, buf = p ++ rest /\ aligned rest pkts tail /\ packet_shape p.
Proof.
  intros (-> & F & T). apply Forall_cons in F as [S F]. exists (concat pkts ++ tail).
  split; [by cbn; rewrite <- app_assoc|by split].
Qed.

Lemma aligned_sync_ahead buf pkts tail :
  aligned buf pkts tail -> (length buf <= 0 + TS_PACKET_SIZE)%nat \/ is_sync (buf !! (0 + TS_PACKET_SIZE)%nat) = true.
Proof.
  intros A. destruct pkts as [|p pkts].
  - left. destruct A as (-> & _ & L & _). cbn. lia.
  - apply aligned_tail in A as (rest & -> & A & [Lp _]). rewrite length_app, Lp.
    destruct rest as [|b rest]; [left; by rewrite Nat.add_0_r|]. right. apply sync_true.
    rewrite lookup_app_r by (rewrite Lp; cbn; lia). rewrite Lp. by apply (aligned_starts _ _ _ A).
Qed.

Lemma find_sync_aligned buf pkts tail : aligned buf pkts tail -> buf <> [] -> find_sync buf 0 = Some 0%nat.
Proof.
  intros A Ne. pose proof (aligned_starts _ _ _ A Ne) as S. pose proof (aligned_sync_ahead _ _ _ A) as N.
  assert (length buf <> 0%nat) by by destruct buf. unfold find_sync. rewrite Nat.sub_0_r.
  destruct (length buf - TS_PACKET_SIZE)%nat as [|n] eqn:E; cbn [find_index].
  - rewrite Nat.max_0_r, Nat.sub_0_r. destruct (length buf); [done|]. cbn [find_index]. by rewrite (proj2 (sync_true _)).
  - rewrite (proj2 (sync_true _) S). destruct N as [N|N]; [lia|]. by rewrite N, orb_true_r.
Qed.

Lemma reassemble_remainder payload pusi r d :
  reassemble_pmt_section payload pusi (set_remainder r d)
  = (let '(d, o) := reassemble_pmt_section payload pusi d in (set_remainder r d, o)).
Proof.
  unfold reassemble_pmt_section. destruct (section_start _ _) as [data|]; [|done].
  destruct (pusi && _), (is_empty data); try done; cbv zeta;
    cbn [set_remainder set_section pmt_section_buf pmt_section_target_len];
    match goal with |- context [match ?o with Some n => if (length _ <? n)%nat then _ else _ | None => _ end] =>
      destruct o as [n|]; [|done] end; by destruct (_ <? n)%nat.
Qed.

Lemma section_remainder data r d :
  parse_pmt_section data (set_remainder r d)
  = (let '(d, e) := parse_pmt_section data d in (set_remainder r d, e)).
Proof.
  unfold parse_pmt_section. destruct d as [c0 p0 l0 r0 b0 t0 n0]. cbn [set_remainder config pmt_pid d_tracks next_track_id].
  destruct (_ <? 12)%nat; [done|]. destruct (length data <? _)%nat; [done|]. destruct (negb _ && _); [done|].
  by destruct (pmt_loop _ _ _ _ _ _) as [[? ?] ?].
Qed.

(** The bytes kept back have no part in what a packet does. *)
Lemma feed_packet_remainder pkt r d :
  feed_packet pkt (set_remainder r d) = (let '(d, e) := feed_packet pkt d in (set_remainder r d, e)).
Proof.
  unfold feed_packet. destruct (_ && _); [done|]. destruct (_ || _); [done|]. destruct (_ <=? _)%nat; [done|].
  unfold feed_payload. destruct (_ =? 0).
  { unfold parse_pat. destruct d as [c0 p0 l0 r0 b0 t0 n0]. cbn. repeat case_match; simplify_eq/=; done. }
  change (pmt_pid (set_remainder r d)) with (pmt_pid d). destruct (bool_decide _).
  { unfold parse_pmt. rewrite reassemble_remainder. destruct (reassemble_pmt_section _ _ _) as [d1 [data|]]; [|done].
    apply section_remainder. }
  destruct (_ =? _); [done|]. destruct d as [c0 p0 l0 r0 b0 t0 n0]. cbn. by destruct (feed_tracks _ _ _ _ _ _).
Qed.

(** ** A whole push *)

Lemma push_loop_aligned fuel pkts tail pre d :
  (length pkts < fuel)%nat -> Forall packet_shape pkts -> (length tail < TS_PACKET_SIZE)%nat ->
  push_loop fuel (pre ++ concat pkts ++ tail) (length pre) d
  = (let '(d, e) := feed_all pkts d in (d, e, length (pre ++ concat pkts))).
Proof.
  revert pkts pre d. induction fuel as [|fuel IH]; intros pkts pre d L F T; [lia|]. cbn [push_loop].
  rewrite length_app. destruct F as [|p pkts [Lp Sp] F]; cbn [concat feed_all app length] in *.
  - rewrite app_nil_r, (proj2 (Nat.ltb_lt _ _)) by lia. done.
  - rewrite (proj2 (Nat.ltb_ge _ _)) by (rewrite !length_app, Lp; lia).
    rewrite lookup_app_r, Nat.sub_diag, <- !app_assoc, (lookup_app_l_Some _ _ _ _ Sp) by done.
    rewrite (proj2 (sync_true _)) by done. cbn [negb].
    unfold sub_ at 1. rewrite drop_app_length, <- Lp, take_app_length, Lp. destruct (feed_packet p d) as [d1 e1].
    pose proof (IH pkts (pre ++ p) d1 ltac:(lia) F T) as E. rewrite <- !app_assoc, length_app, Lp in E. rewrite E.
    by destruct (feed_all pkts d1).
Qed.

Lemma feed_all_remainder pkts r d :
  feed_all pkts (set_remainder r d) = (let '(d, e) := feed_all pkts d in (set_remainder r d, e)).
Proof.
  revert d. induction pkts as [|p pkts IH]; intros d; [done|]. cbn [feed_all]. rewrite feed_packet_remainder.
  destruct (feed_packet p d) as [d1 e1]. rewrite IH. by destruct (feed_all pkts d1).
Qed.

Lemma concat_packets_length pkts : Forall packet_shape pkts -> (length pkts <= length (concat pkts))%nat.
Proof.
  induction 1 as [|p pkts [Lp _] _ IH]; [done|]. cbn [concat length]. rewrite length_app, Lp. unfold TS_PACKET_SIZE. lia.
Qed.

Lemma push_aligned data d pkts tail :
  aligned (remainder d ++ data) pkts tail ->
  push data d = (let '(d, e) := feed_all pkts d in (set_remainder tail d, e)).
Proof.
  intros A. unfold push. destruct (decide (remainder d ++ data = [])) as [E|Ne].
  - rewrite E in *. destruct A as (E' & F & _). symmetry in E'. apply app_eq_nil in E' as [E' ->].
    apply concat_packets_length in F. rewrite E' in F. by destruct pkts; cbn in F; [|lia].
  - rewrite (find_sync_aligned _ _ _ A) by done. destruct A as (-> & F & T & _). cbn [Nat.ltb Nat.leb].
    pose proof (push_loop_aligned (S (length (concat pkts ++ tail))) pkts tail [] (set_remainder [] d)) as E.
    cbn [app length] in E. rewrite E; [|rewrite length_app; apply concat_packets_length in F; lia|done..].
    rewrite feed_all_remainder. destruct (feed_all pkts d) as [d1 e1]. by rewrite drop_app_length.
Qed.

Lemma cut_aligned pkts buf rest :
  Forall packet_shape pkts -> buf ++ rest = concat pkts ->
  exists ps qs tail, pkts = ps ++ qs /\ aligned buf ps tail /\ tail ++ rest = concat qs.
Proof.
  intros F. revert buf. induction F as [|p pkts [Lp Sp] F IH]; intros buf E.
  { exists [], [], []. cbn in E. apply app_eq_nil in E as [-> ->]. split_and!; try done. split_and!; try done; [unfold TS_PACKET_SIZE; cbn; lia|by left]. }
  destruct (decide (length buf < TS_PACKET_SIZE)%nat) as [L|L].
  - exists [], (p :: pkts), buf. split_and!; try done. split_and!; try done. destruct buf as [|b buf]; [by left|right].
    cbn [concat] in E. rewrite <- Sp. destruct p as [|b' p]; [done|]. by cbn in E; simplify_eq.
  - assert (exists b1, buf = p ++ b1) as [b1 ->].
    { exists (drop (length p) buf). rewrite <- (take_drop (length p) buf) at 1. f_equal.
      apply (f_equal (take (length p))) in E. rewrite take_app_le in E by lia. rewrite E. cbn. by rewrite take_app_length. }
    cbn [concat] in E. rewrite <- app_assoc in E. apply app_inv_head in E. destruct (IH _ E) as (ps & qs & tail & -> & A & E').
    exists (p :: ps), qs, tail. split_and!; [done| |done]. destruct A as (-> & Fp & T). split_and!; try done.
    + by cbn; rewrite app_assoc.
    + by constructor.
    + apply T.
    + apply T.
Qed.

(** Pieces of bytes, one after the other. *)
Fixpoint push_all (segs : list (list byte)) (d : MpegTsDemuxer) : MpegTsDemuxer * list MpegTsDemuxEvent :=
  match segs with
  | [] => (d, [])
  | s :: segs => let '(d, e) := push s d in let '(d, e') := push_all segs d in (d, e ++ e')
  end.

Lemma set_remainder_same d : set_remainder (remainder d) d = d.
Proof. by destruct d. Qed.

Lemma feed_all_keeps_remainder pkts d : remainder (feed_all pkts d).1 = remainder d.
Proof.
  rewrite <- (set_remainder_same d) at 1. rewrite feed_all_remainder. by destruct (feed_all pkts d).
Qed.

(** However the packets are cut, each is fed once, in order, and no sync is lost. *)
Lemma push_all_packets segs pkts d :
  Forall packet_shape pkts -> remainder d ++ concat segs = concat pkts -> (length (remainder d) < TS_PACKET_SIZE)%nat ->
  push_all segs d = (let '(d, e) := feed_all pkts d in (set_remainder [] d, e)).
Proof.
  revert pkts d. induction segs as [|s segs IH]; intros pkts d F E L.
  - cbn in E. rewrite app_nil_r in E. destruct F as [|p pkts [Lp _] F].
    + cbn in *. by rewrite <- E, set_remainder_same.
    + cbn in E. rewrite E, length_app, Lp in L. lia.
  - cbn [concat push_all] in *. rewrite app_assoc in E. destruct (cut_aligned _ _ _ F E) as (ps & qs & tail & -> & A & E').
    rewrite (push_aligned _ _ _ _ A), feed_all_app. destruct (feed_all ps d) as [d1 e1] eqn:E1.
    rewrite (IH qs); [|by apply Forall_app in F as [_ F]|done|apply A].
    rewrite feed_all_remainder. destruct (feed_all qs d1) as [d2 e2]. done.
Qed.

(** * The tables of a transport stream read back *)

(** ** The CRC *)

Lemma lxor_range n a b : 0 < n -> in_u n a -> in_u n b -> in_u n (Z.lxor a b).
Proof.
  unfold in_u. intros N A B. assert (0 <= Z.lxor a b) as L by (apply Z.lxor_nonneg; lia). split; [done|].
  destruct (decide (Z.lxor a b = 0)) as [->|Nz]; [by apply Z.pow_pos_nonneg; lia|].
  apply Z.log2_lt_pow2; [lia|]. pose proof (Z.log2_lxor a b ltac:(lia) ltac:(lia)) as M.
  assert (forall x, 0 <= x < 2 ^ n -> Z.log2 x < n) as X.
  { intros x Hx. destruct (decide (x = 0)) as [->|]; [done|]. apply Z.log2_lt_pow2; lia. }
  pose proof (X a A). pose proof (X b B). lia.
Qed.

Lemma crc_shifts_range n crc : in_u 32 crc -> in_u 32 (crc_shifts n crc).
Proof.
  revert crc. induction n as [|n IH]; intros crc R; [done|]. cbn [crc_shifts]. apply IH.
  pose proof (wrap_u_range 32 (Z.shiftl crc 1) ltac:(lia)). destruct (_ =? 0); [done|]. by apply lxor_range.
Qed.

Lemma crc_range data : in_u 32 (crc32_mpeg2 data).
Proof.
  unfold crc32_mpeg2. assert (in_u 32 0xFFFFFFFF) as R by by unfold in_u. revert R. generalize 0xFFFFFFFF.
  induction data as [|b data IH]; intros crc R; [done|]. cbn [fold_left]. apply IH, crc_shifts_range, lxor_range; [done..|].
  pose proof (byte_val_range b). unfold in_u. rewrite Z.shiftl_mul_pow2 by done. lia.
Qed.

Lemma crc_ok_with_crc section : crc_ok (with_crc section) (length (with_crc section)) = true.
Proof.
  unfold crc_ok, with_crc. rewrite length_app. change (length (be_bytes 4 _)) with 4%nat.
  replace (length section + 4 - 4)%nat with (length section) by lia.
  rewrite take_app_length. apply Z.eqb_eq.
  pose proof (sub_be_bytes section [] 4 (crc32_mpeg2 section) (crc_range section)) as E. by rewrite app_nil_r in E.
Qed.

(** ** Fields of two bytes *)

Lemma be_bytes_2 z : be_bytes 2 z = [byte_of (z / 256); byte_of z].
Proof. unfold be_bytes. by rewrite Z.shiftr_0_r, Z.shiftr_div_pow2. Qed.

Lemma at_app_r (p q : list byte) (i : nat) : at_ (p ++ q) (length p + i) = at_ q i.
Proof. unfold at_. by rewrite app_nth2_plus. Qed.

Lemma pid_at_app_r (p q : list byte) (i : nat) : pid_at (p ++ q) (length p + i) = pid_at q i.
Proof. unfold pid_at. by rewrite <- Nat.add_succ_r, !at_app_r. Qed.

(** Three bits above a PID, four bits above a length. *)
Lemma pid_field pid rest : pid_ok pid -> pid_at (be_bytes 2 (Z.lor 0xE000 pid) ++ rest) 0 = pid.
Proof.
  intros P. unfold pid_ok in P. rewrite be_bytes_2. unfold pid_at, at_. cbn [app nth]. rewrite !byte_val_of, land_31.
  rewrite (lor_add 0xE000 _ 13), Z.shiftl_mul_pow2, (lor_add _ _ 8) by zdm. zdm.
Qed.

Lemma len_field base l rest :
  base mod 2 ^ 12 = 0 -> 0 <= base < 2 ^ 16 -> 0 <= l < 4096 ->
  len_at (be_bytes 2 (Z.lor base l) ++ rest) 0 = Z.to_nat l.
Proof.
  intros B B' L. rewrite be_bytes_2. unfold len_at, at_. cbn [app nth]. rewrite !byte_val_of, land_15.
  rewrite (lor_add base _ 12), Z.shiftl_mul_pow2, (lor_add _ _ 8) by zdm. f_equal. zdm.
Qed.

Lemma len_at_app_r (p q : list byte) (i : nat) : len_at (p ++ q) (length p + i) = len_at q i.
Proof. unfold len_at. by rewrite <- Nat.add_succ_r, !at_app_r. Qed.

(** ** The entries of the PMT *)

Definition desc_of (e : MuxTrackEntry) : list byte := registration_descriptor (e_codec e).

Definition add_entry (e : MuxTrackEntry) (tracks : list DemuxTrackState) (next : Z) :
    list DemuxTrackState * Z * list MpegTsDemuxEvent :=
  add_stream (stream_type_for_codec (e_codec e)) (e_pid e) (desc_of e) (length (desc_of e)) tracks next.

Fixpoint add_entries (es : list MuxTrackEntry) (tracks : list DemuxTrackState) (next : Z) :
    list DemuxTrackState * Z * list MpegTsDemuxEvent :=
  match es with
  | [] => (tracks, next, [])
  | e :: es =>
      let '(tracks, next, ev) := add_entry e tracks next in
      let '(tracks, next, ev') := add_entries es tracks next in
      (tracks, next, ev ++ ev')
  end.

Lemma desc_short e : (length (desc_of e) <= 6)%nat.
Proof. unfold desc_of. destruct (e_codec e); cbn; lia. Qed.

Lemma stream_type_byte c : byte_val (byte_of (stream_type_for_codec c)) = stream_type_for_codec c.
Proof. by destruct c. Qed.

Lemma length_pmt_entry e : length (pmt_entry e) = (5 + length (desc_of e))%nat.
Proof. done. Qed.

(** The fields of an entry, wherever it stands. *)
Lemma entry_fields e pre rest :
  pid_ok (e_pid e) ->
  let data := pre ++ pmt_entry e ++ rest in
  at_ data (length pre) = stream_type_for_codec (e_codec e) /\ pid_at data (length pre + 1) = e_pid e /\
  len_at data (length pre + 3) = length (desc_of e) /\
  sub_ (length pre + 5) (length (desc_of e)) data = desc_of e.
Proof.
  intros P. cbv zeta. rewrite pid_at_app_r, len_at_app_r, sub_app_r by lia.
  rewrite <- (Nat.add_0_r (length pre)) at 1. rewrite at_app_r.
  replace (length pre + 5 - length pre)%nat with 5%nat by lia.
  set (len := be_bytes 2 (Z.lor 0xF000 (Z.of_nat (length (desc_of e))))).
  assert (pmt_entry e ++ rest = byte_of (stream_type_for_codec (e_codec e))
            :: be_bytes 2 (Z.lor 0xE000 (e_pid e)) ++ len ++ desc_of e ++ rest) as -> by reflexivity.
  pose proof (desc_short e) as D. split_and!.
  - apply stream_type_byte.
  - change (pid_at (be_bytes 2 (Z.lor 0xE000 (e_pid e)) ++ len ++ desc_of e ++ rest) 0 = e_pid e). by apply pid_field.
  - change (len_at (len ++ desc_of e ++ rest) 0 = length (desc_of e)). unfold len. rewrite len_field by (done || lia). lia.
  - change (take (length (desc_of e)) (desc_of e ++ rest) = desc_of e). by rewrite take_app_length.
Qed.

Lemma pmt_loop_entries fuel es pre post pos end_ tracks next :
  (length es < fuel)%nat -> Forall (fun e => pid_ok (e_pid e)) es -> pos = length pre ->
  end_ = (pos + length (concat (map pmt_entry es)))%nat ->
  pmt_loop fuel (pre ++ concat (map pmt_entry es) ++ post) pos end_ tracks next = add_entries es tracks next.
Proof.
  revert es pre pos tracks next. induction fuel as [|fuel IH]; intros es pre pos tracks next L F -> E; [lia|].
  cbn [pmt_loop]. destruct F as [|e es P F]; cbn [map concat add_entries length] in *.
  - by rewrite (proj2 (Nat.ltb_lt _ _)) by lia.
  - rewrite length_app, length_pmt_entry in E. rewrite (proj2 (Nat.ltb_ge _ _)) by lia.
    rewrite <- app_assoc. destruct (entry_fields e pre (concat (map pmt_entry es) ++ post) P) as (-> & -> & -> & ->).
    fold (add_entry e tracks next). destruct (add_entry e tracks next) as [[t1 n1] ev1].
    rewrite app_assoc, IH; [by destruct (add_entries es t1 n1) as [[? ?] ?]|lia|done| |].
    + rewrite length_app, length_pmt_entry. lia.
    + lia.
Qed.

(** The length has twelve bits. *)
Definition pmt_ok (m : MpegTsMuxer) : Prop :=
  (length (pmt_body m) + 4 < 4096)%nat /\ Forall (fun e => pid_ok (e_pid e)) (m_tracks m).

Definition pmt_head (m : MpegTsMuxer) : list byte :=
  x02 :: be_bytes 2 (Z.lor 0xB000 (wrap_u 16 (Z.of_nat (length (pmt_body m)) + 4)))
  ++ be_bytes 2 1 ++ [xc1; x00; x00] ++ be_bytes 2 (Z.lor 0xE000 (pcr_pid m)) ++ be_bytes 2 0xF000.

Lemma pmt_section_parts m :
  with_crc (pmt_section m)
  = pmt_head m ++ concat (map pmt_entry (m_tracks m)) ++ be_bytes 4 (crc32_mpeg2 (pmt_section m)).
Proof. done. Qed.

Lemma len_at_cons b p i : len_at (b :: p) (S i) = len_at p i.
Proof. done. Qed.

Lemma pmt_len m rest :
  pmt_ok m -> len_at (pmt_head m ++ rest) 1 = (length (pmt_body m) + 4)%nat.
Proof.
  intros [L _]. unfold pmt_head. rewrite wrap_u_small by (unfold in_u; lia).
  set (l := be_bytes 2 (Z.lor 0xB000 _)). set (r := be_bytes 2 1 ++ _).
  assert ((x02 :: l ++ r) ++ rest = x02 :: l ++ r ++ rest) as -> by (cbn [app]; by rewrite <- app_assoc).
  rewrite len_at_cons. unfold l. rewrite len_field by (done || lia). lia.
Qed.

Lemma entries_short es : (length es <= length (concat (map pmt_entry es)))%nat.
Proof. induction es as [|e es IH]; cbn [map concat length]; [done|]. rewrite length_app, length_pmt_entry. lia. Qed.

Lemma length_pmt_body m : length (pmt_body m) = (9 + length (concat (map pmt_entry (m_tracks m))))%nat.
Proof. done. Qed.

Lemma parse_written_pmt m d :
  pmt_ok m ->
  parse_pmt_section (with_crc (pmt_section m)) d
  = (let '(tracks, next, ev) := add_entries (m_tracks m) (d_tracks d) (next_track_id d) in
     (set_tracks tracks next d, ev)).
Proof.
  intros Ok. pose proof (crc_ok_with_crc (pmt_section m)) as Crc.
  pose proof (length_pmt_body m) as Lb.
  assert (length (with_crc (pmt_section m)) = (3 + (length (pmt_body m) + 4))%nat) as L.
  { rewrite pmt_section_parts, !length_app, Lb. change (length (pmt_head m)) with 12%nat.
    change (length (be_bytes 4 _)) with 4%nat. lia. }
  unfold parse_pmt_section. rewrite L in *. rewrite (proj2 (Nat.ltb_ge _ 12)) by lia.
  replace (len_at (with_crc (pmt_section m)) 1) with (length (pmt_body m) + 4)%nat
    by by rewrite pmt_section_parts, pmt_len.
  rewrite (proj2 (Nat.ltb_ge _ (_ + _))), (proj2 (Nat.leb_le 4 _)), Crc by lia. cbn [negb andb].
  replace (len_at (with_crc (pmt_section m)) 10) with 0%nat by reflexivity. rewrite pmt_section_parts.
  pose proof (entries_short (m_tracks m)).
  rewrite pmt_loop_entries; [by destruct (add_entries _ _ _) as [[? ?] ?]|lia|apply Ok|done|lia].
Qed.

(** ** Tables over packets *)

Lemma table_packet_written pid cc pusi rest :
  let '(pkt, taken) := table_packet pid cc pusi rest in
  let room := if pusi then 183%nat else 184%nat in
  taken = Nat.min (length rest) room /\
  written pusi pid cc ((if pusi then [x00] else []) ++ take taken rest ++ fill (room - taken)) pkt.
Proof.
  unfold table_packet, TS_PACKET_SIZE. destruct pusi; cbn [length app ts_header Nat.sub]; (split; [done|]);
    exists []; (split; [by left|]); set (k := Nat.min _ _);
    assert (length (take k rest) = k) as L by (rewrite length_take; lia).
  - split_and!; [done| |done]. cbn [length]. rewrite length_app, length_fill, L. cbn. lia.
  - split_and!; [|by cbn; rewrite length_app, length_fill, L; lia|done].
    intros E. apply (f_equal length) in E. rewrite length_app, length_fill, L in E. cbn in E. lia.
Qed.

(** The PMT is the section of its PID. *)
Definition pmt_pid_ok (d : MpegTsDemuxer) (pid : Z) : Prop := pid_ok pid /\ pid <> 0 /\ pmt_pid d = Some pid.

Lemma feed_packet_pmt pusi pid cc chunk pkt d :
  written pusi pid cc chunk pkt -> cc_ok cc -> pmt_pid_ok d pid -> feed_packet pkt d = parse_pmt chunk pusi d.
Proof.
  intros (mid & M & Ne & L & ->) C (P & N & E). rewrite feed_written by done. unfold feed_payload.
  by rewrite (proj2 (Z.eqb_neq _ _)), E, bool_decide_true by done.
Qed.

Lemma section_complete section buf n d :
  length section = n -> (exists k, buf = section ++ fill k) ->
  (if (length buf <? n)%nat then (set_section buf (Some n) d, None) else (set_section [] None d, Some (take n buf)))
  = (set_section [] None d, Some section).
Proof.
  intros <- [k ->]. rewrite length_app, (proj2 (Nat.ltb_ge _ _)) by lia. by rewrite take_app_length.
Qed.

Lemma reassemble_continues chunk n d :
  chunk <> [] -> pmt_section_target_len d = Some n ->
  reassemble_pmt_section chunk false d
  = (let buf := pmt_section_buf d ++ chunk in
     if (length buf <? n)%nat then (set_section buf (Some n) d, None)
     else (set_section [] None d, Some (take n buf))).
Proof. intros Ne T. unfold reassemble_pmt_section. destruct chunk as [|b chunk]; [done|]. cbn. by rewrite T. Qed.

Lemma write_table_end fuel pid cc pusi : write_table_loop fuel pid cc false pusi [] = ([], cc).
Proof. by destruct fuel. Qed.

(** The rest of a section. *)
Lemma feed_table_rest fuel pid cc rest d :
  (length rest < fuel)%nat -> cc_ok cc -> pmt_pid_ok d pid -> rest <> [] ->
  pmt_section_target_len d = Some (length (pmt_section_buf d ++ rest)) ->
  let '(pkts, cc') := write_table_loop fuel pid cc false true rest in
  feed_all pkts d = parse_pmt_section (pmt_section_buf d ++ rest) (set_section [] None d)
  /\ Forall packet_shape pkts /\ cc_ok cc'.
Proof.
  revert cc rest d. induction fuel as [|fuel IH]; intros cc rest d L C P Ne T; [lia|]. cbn [write_table_loop].
  assert (length rest <> 0%nat) as Lr by by destruct rest.
  replace (negb (is_empty rest) || false) with true by by destruct rest. cbn [andb].
  pose proof (table_packet_written pid cc false rest) as W. destruct (table_packet _ _ _ _) as [pkt taken].
  cbv zeta in W. destruct W as [Tk W]. pose proof (written_shape _ _ _ _ _ W) as Sh.
  assert (take taken rest ++ fill (184 - taken) <> []) as Nc.
  { intros E. apply (f_equal length) in E. rewrite length_app, length_take in E. cbn in E. lia. }
  pose proof (feed_packet_pmt _ _ _ _ _ d W C P) as Fp. unfold parse_pmt in Fp. cbn [app] in Fp.
  rewrite (reassemble_continues _ _ _ Nc T) in Fp. cbv zeta in Fp.
  destruct (decide (length rest <= 184)%nat) as [Le|Gt].
  - rewrite Nat.min_l in Tk by done. subst taken. rewrite drop_all, write_table_end. rewrite firstn_all in Fp.
    rewrite (section_complete (pmt_section_buf d ++ rest)) in Fp;
      [|done|exists (184 - length rest)%nat; by rewrite app_assoc].
    cbn [feed_all]. rewrite Fp. destruct (parse_pmt_section _ _) as [d' e]. rewrite app_nil_r.
    split; [done|split; [|apply next_cc_ok]]. constructor; [done|by constructor].
  - rewrite Nat.min_r in Tk by lia. subst taken. change (fill (184 - 184)) with (@nil byte) in Fp. rewrite app_nil_r in Fp.
    rewrite (proj2 (Nat.ltb_lt _ _)) in Fp by (rewrite !length_app, length_take; lia).
    set (d1 := set_section _ _ d) in Fp.
    assert (pmt_section_buf d1 ++ drop 184 rest = pmt_section_buf d ++ rest) as E.
    { cbn [d1 set_section pmt_section_buf]. by rewrite <- app_assoc, take_drop. }
    specialize (IH (next_cc cc) (drop 184 rest) d1).
    destruct (write_table_loop _ _ _ _ _ _) as [pkts cc']. cbn [feed_all]. rewrite Fp.
    destruct IH as (IH & Sp & C').
    + rewrite length_drop. lia.
    + apply next_cc_ok.
    + done.
    + intros E'. apply (f_equal length) in E'. rewrite length_drop in E'. cbn in E'. lia.
    + by rewrite E.
    + rewrite IH, E. change (set_section [] None d1) with (set_section [] None d).
      destruct (parse_pmt_section (pmt_section_buf d ++ rest) (set_section [] None d)) as [d2 e2].
      split; [done|].
      split; [by constructor|done].
Qed.

Lemma reassemble_starts data d :
  (3 <= length data)%nat ->
  reassemble_pmt_section (x00 :: data) true d
  = (let n := (3 + len_at data 1)%nat in
     if (length data <? n)%nat then (set_section data (Some n) d, None)
     else (set_section [] None d, Some (take n data))).
Proof.
  intros L. unfold reassemble_pmt_section, section_start. change (Z.to_nat (byte_val x00)) with 0%nat.
  rewrite (proj2 (Nat.leb_gt _ _)) by (cbn; lia). change (drop (1 + 0) (x00 :: data)) with data.
  change (true && negb (is_empty (x00 :: data))) with true. cbv iota zeta.
  destruct data as [|b data]; [by cbn in L; lia|]. cbn [is_empty pmt_section_buf pmt_section_target_len set_section app].
  by rewrite (proj2 (Nat.leb_le 3 _)) by done.
Qed.

Lemma len_at_take n s r : (3 <= n <= length s)%nat -> len_at (take n s ++ r) 1 = len_at s 1.
Proof.
  intros L. rewrite <- (take_drop n s) at 2. unfold len_at. by rewrite !at_app_l by (rewrite length_take; lia).
Qed.

(** A section that says its length, however many packets it takes. *)
Lemma feed_table pid cc section d :
  cc_ok cc -> pmt_pid_ok d pid -> (3 <= length section)%nat -> (3 + len_at section 1 = length section)%nat ->
  let '(pkts, cc') := write_single_ts_packet pid section cc true in
  feed_all pkts d = parse_pmt_section section (set_section [] None d) /\ Forall packet_shape pkts /\ cc_ok cc'.
Proof.
  intros C P L3 Le. unfold write_single_ts_packet. cbn [write_table_loop]. rewrite orb_true_r. cbn [andb].
  pose proof (table_packet_written pid cc true section) as W. destruct (table_packet _ _ _ _) as [pkt taken].
  cbv zeta in W. destruct W as [Tk W]. pose proof (written_shape _ _ _ _ _ W) as Sh.
  pose proof (feed_packet_pmt _ _ _ _ _ d W C P) as Fp. unfold parse_pmt in Fp. cbn [app] in Fp.
  rewrite reassemble_starts in Fp by (rewrite length_app, length_take; lia). cbv zeta in Fp.
  rewrite len_at_take, Le in Fp by lia.
  destruct (decide (length section <= 183)%nat) as [Lt|Gt].
  - rewrite Nat.min_l in Tk by done. subst taken. rewrite drop_all, write_table_end. rewrite firstn_all in Fp.
    rewrite length_app, (proj2 (Nat.ltb_ge _ _)), take_app_length in Fp by lia.
    cbn [feed_all]. rewrite Fp. destruct (parse_pmt_section _ _) as [d2 e2]. rewrite app_nil_r.
    split; [done|split; [|apply next_cc_ok]]. constructor; [done|by constructor].
  - rewrite Nat.min_r in Tk by lia. subst taken. change (fill (183 - 183)) with (@nil byte) in Fp. rewrite app_nil_r in Fp.
    rewrite (proj2 (Nat.ltb_lt _ _)) in Fp by (rewrite length_take; lia). set (d1 := set_section _ _ d) in Fp.
    assert (pmt_section_buf d1 ++ drop 183 section = section) as E by apply take_drop.
    pose proof (feed_table_rest (length section) pid (next_cc cc) (drop 183 section) d1) as R.
    destruct (write_table_loop _ _ _ _ _ _) as [pkts cc']. cbn [feed_all]. rewrite Fp. rewrite E in R.
    destruct R as (R & Sp & C'); [rewrite length_drop; lia|apply next_cc_ok|done| |done|].
    + intros E'. apply (f_equal length) in E'. rewrite length_drop in E'. cbn in E'. lia.
    + rewrite R. change (set_section [] None d1) with (set_section [] None d).
      destruct (parse_pmt_section section (set_section [] None d)) as [d2 e2].
      split; [done|]. split; [by constructor|done].
Qed.

(** ** The PAT, and both *)

Lemma write_pat_written m :
  cc_ok (pat_cc m) ->
  exists pkt chunk, (write_pat m).2 = [pkt] /\ written true PAT_PID (pat_cc m) chunk pkt
    /\ chunk = x00 :: with_crc pat_section ++ fill (183 - 16)
    /\ (write_pat m).1 = mk_muxer (m_tracks m) (next_cc (pat_cc m)) (pmt_cc m) (pcr_pid m).
Proof.
  intros C. unfold write_pat, write_single_ts_packet.
  cbn [write_table_loop].
  pose proof (table_packet_written PAT_PID (pat_cc m) true (with_crc pat_section)) as W.
  rewrite orb_true_r. cbn [andb]. destruct (table_packet _ _ _ _) as [pkt taken]. cbv zeta in W.
  change (length (with_crc pat_section)) with 16%nat in W. destruct W as [-> W].
  change (drop (Nat.min 16 183) (with_crc pat_section)) with (@nil byte). rewrite write_table_end.
  eexists pkt, _. split; [done|]. split; [exact W|]. split; [|done].
  change (Nat.min 16 183) with (length (with_crc pat_section)). by rewrite firstn_all.
Qed.

Lemma parse_written_pat d :
  parse_pat (x00 :: with_crc pat_section ++ fill (183 - 16)) true d = (set_pmt_pid (Some PMT_PID) d, []).
Proof.
  unfold parse_pat. set (s := section_start _ _). vm_compute in s. unfold s. cbv iota.
  match goal with |- context [crc_ok ?x ?y] => replace (crc_ok x y) with true by by vm_compute end.
  match goal with |- context [pid_at ?x 10] => replace (pid_at x 10) with PMT_PID by by vm_compute end. done.
Qed.

(** The tables, wherever the muxer and the demuxer stand. *)
Lemma feed_tables m d :
  pmt_ok m -> cc_ok (pat_cc m) -> cc_ok (pmt_cc m) ->
  let '(m', pkts) := write_tables m in
  feed_all pkts d
  = (let d := set_section [] None (set_pmt_pid (Some PMT_PID) d) in
     let '(tracks, next, ev) := add_entries (m_tracks m) (d_tracks d) (next_track_id d) in
     (set_tracks tracks next d, ev))
  /\ Forall packet_shape pkts /\ cc_ok (pat_cc m') /\ cc_ok (pmt_cc m') /\ m_tracks m' = m_tracks m.
Proof.
  intros Ok C1 C2. unfold write_tables. destruct (write_pat_written m C1) as (pkt & chunk & E1 & W & -> & E2).
  destruct (write_pat m) as [m1 pat]. cbn [fst snd] in E1, E2. subst. unfold write_pmt.
  set (m1 := mk_muxer _ _ _ _). change (pmt_section m1) with (pmt_section m). change (pmt_cc m1) with (pmt_cc m).
  pose proof (length_pmt_body m) as Lb.
  assert (length (with_crc (pmt_section m)) = (3 + (length (pmt_body m) + 4))%nat) as L.
  { rewrite pmt_section_parts, !length_app, Lb. change (length (pmt_head m)) with 12%nat.
    change (length (be_bytes 4 _)) with 4%nat. lia. }
  pose proof (feed_table PMT_PID (pmt_cc m) (with_crc (pmt_section m)) (set_pmt_pid (Some PMT_PID) d) C2) as R.
  destruct (write_single_ts_packet _ _ _ _) as [pkts cc']. destruct R as (R & Sp & C').
  - split_and!; done.
  - lia.
  - rewrite pmt_section_parts at 1. rewrite pmt_len by done. lia.
  - split.
    + cbn [app feed_all]. pose proof W as (mid & M & Ne & Lm & ->). rewrite feed_written by done.
      unfold feed_payload. change (PAT_PID =? 0) with true. cbv iota. rewrite parse_written_pat, R, parse_written_pmt by done.
      cbv zeta. by destruct (add_entries _ _ _) as [[? ?] ?].
    + split; [constructor; [by eapply written_shape|done]|]. split; [apply next_cc_ok|done].
Qed.

(** ** The tracks of the tables *)

(** The codec is one that its stream type and descriptor name, with its kind. *)
Definition carried (e : MuxTrackEntry) : Prop :=
  resolve_stream (stream_type_for_codec (e_codec e)) (desc_of e) (length (desc_of e))
  = Some (e_codec e, e_media_kind e, false).

#[export] Instance carried_dec e : Decision (carried e).
Proof. unfold carried. solve_decision. Defined.

Definition track_of (next : Z) (e : MuxTrackEntry) : DemuxTrackState :=
  demux_track_new (e_pid e) next (e_codec e) (e_media_kind e) false.

Fixpoint tracks_of (next : Z) (es : list MuxTrackEntry) : list DemuxTrackState :=
  match es with [] => [] | e :: es => track_of next e :: tracks_of (wrap_u 32 (next + 1)) es end.

Definition all_found (events : list MpegTsDemuxEvent) : Prop := Forall (fun e => exists i, e = TrackFound i) events.

Lemma pid_known pid tracks : existsb (fun t => t_pid t =? pid) tracks = true <-> pid ∈ map t_pid tracks.
Proof.
  rewrite existsb_exists. setoid_rewrite list_elem_of_In. rewrite in_map_iff. setoid_rewrite Z.eqb_eq. firstorder.
Qed.

Lemma add_entries_known es tracks next :
  Forall (fun e => e_pid e ∈ map t_pid tracks) es -> add_entries es tracks next = (tracks, next, []).
Proof.
  induction 1 as [|e es K F IH]; [done|]. cbn [add_entries]. unfold add_entry, add_stream.
  by rewrite (proj2 (pid_known _ _) K), IH.
Qed.

Lemma add_entries_new es tracks next :
  Forall carried es -> NoDup (map t_pid tracks ++ map e_pid es) ->
  exists next' events, add_entries es tracks next = (tracks ++ tracks_of next es, next', events) /\ all_found events.
Proof.
  intros F. revert tracks next. induction F as [|e es K F IH]; intros tracks next N; cbn [add_entries tracks_of].
  - exists next, []. rewrite app_nil_r. by split; [|constructor].
  - unfold add_entry, add_stream. destruct (existsb _ tracks) eqn:Ex.
    { apply pid_known in Ex. apply NoDup_app in N as (_ & N & _). destruct (N _ Ex). by left. }
    rewrite K. destruct (IH (tracks ++ [track_of next e]) (wrap_u 32 (next + 1))) as (next' & events & E & A).
    + rewrite map_app, <- app_assoc. exact N.
    + unfold track_of in E at 1. rewrite E. eexists next', _. rewrite <- app_assoc. split; [done|].
      constructor; [by eexists|done].
Qed.

Lemma length_tracks_of next es : length (tracks_of next es) = length es.
Proof. revert next. induction es as [|e es IH]; intros next; cbn; [done|by rewrite IH]. Qed.

Lemma tracks_of_pids next es : map t_pid (tracks_of next es) = map e_pid es.
Proof. revert next. induction es as [|e es IH]; intros next; cbn; [done|by rewrite IH]. Qed.

(** Ids count from the first. *)
Lemma tracks_of_lookup next es i e :
  0 <= next -> next + Z.of_nat (length es) < 2 ^ 32 -> es !! i = Some e ->
  tracks_of next es !! i = Some (track_of (next + Z.of_nat i) e).
Proof.
  revert next i. induction es as [|x es IH]; intros next i N L E; [done|]. cbn [tracks_of length] in *.
  destruct i as [|i]; cbn in E |- *.
  - simplify_eq. by rewrite Z.add_0_r.
  - rewrite wrap_u_small by (unfold in_u; lia). rewrite IH by (done || lia). do 2 f_equal. lia.
Qed.
