(* ===== verification/TsSpec.v ===== *)
(** * What a transport stream carries

    The frames that a muxer of [TsMux.v] takes come out of the demuxer of [TsDemux.v]: track
    by track, in order, with their payloads and times, however the bytes are cut. *)
From Stdlib Require Import Strings.Byte.
From S2P Require Import Prelude RtmpBytes Codecs Rtp RtpH26x Ts Aac Tracks TsMux TsDemux TsTables.

(** ** What is seen of events *)

(** Payload, times in ticks of 90 kHz, and whether the frame is a key frame. *)
Definition seen_frame (f : DemuxFrame) : list byte * Z * Z * bool := (df_payload f, df_pts f, df_dts f, df_key f).

Definition frame_of (id : Z) (e : MpegTsDemuxEvent) : option (list byte * Z * Z * bool) :=
  match e with Frame f => if df_track_id f =? id then Some (seen_frame f) else None | _ => None end.
Definition frames_of (id : Z) (events : list MpegTsDemuxEvent) : list (list byte * Z * Z * bool) :=
  omap (frame_of id) events.

Definition is_diagnostic (e : MpegTsDemuxEvent) : bool := match e with Diagnostic _ => true | _ => false end.
Definition quiet (events : list MpegTsDemuxEvent) : Prop := Forall (fun e => is_diagnostic e = false) events.

(** Every frame among the events is one of the track. *)
Definition only_track (id : Z) (events : list MpegTsDemuxEvent) : Prop :=
  forall i, i <> id -> frames_of i events = [].

Lemma frames_of_app id e1 e2 : frames_of id (e1 ++ e2) = frames_of id e1 ++ frames_of id e2.
Proof. apply omap_app. Qed.

(** ** A track's part of the state *)

(** MP2 and MP3 have one header, which tells them apart. *)
Definition same_family (a b : CodecId) : Prop :=
  a = b \/ (a = MP2 \/ a = MP3) /\ (b = MP2 \/ b = MP3).

(** What a payload does to a track: its PID, kind, counter, buffer and clock stay. *)
Definition keeps (t t' : DemuxTrackState) : Prop :=
  t_pid t' = t_pid t /\ t_track_id t' = t_track_id t /\ t_kind t' = t_kind t /\ same_family (t_codec t) (t_codec t') /\
  pending_private_probe t' = pending_private_probe t /\ expected_cc t' = expected_cc t /\ pes_buf t' = pes_buf t /\
  pts_wrap_offset t' = pts_wrap_offset t /\ last_raw_pts t' = last_raw_pts t.

Lemma keeps_refl t : keeps t t.
Proof. unfold keeps, same_family. split_and!; try done. by left. Qed.

(** Events of one frame. *)
Definition one_frame (id : Z) (seen : list byte * Z * Z * bool) (events : list MpegTsDemuxEvent) : Prop :=
  quiet events /\ only_track id events /\ frames_of id events = [seen].

Lemma one_frame_intro id found f :
  df_track_id f = id -> Forall (fun e => exists i, e = TrackFound i) found ->
  one_frame id (seen_frame f) (found ++ [Frame f]).
Proof.
  intros <- F. induction F as [|e found [i ->] F IH].
  - split_and!; [by repeat constructor| |]; [intros i N|]; cbn; [|by rewrite Z.eqb_refl].
    by rewrite (proj2 (Z.eqb_neq _ _)).
  - destruct IH as (Q & O & E). split_and!; [by constructor|done|done].
Qed.

Lemma single_frame payload format pts dts t :
  in_u 63 pts -> in_u 63 dts ->
  let '(t', events) := build_single_frame_event payload format pts dts t in
  keeps t t' /\ one_frame (t_track_id t)
    (payload, pts, dts, bool_decide (t_kind t = Video) && is_keyframe_payload payload (t_codec t)) events.
Proof.
  intros Hp Hd. unfold in_u in *. unfold build_single_frame_event.
  set (key := bool_decide _ && _). set (upd := match t_codec t with H264 => _ | _ => _ end).
  assert (keeps t upd.1 /\ Forall (fun e => exists i, e = TrackFound i) upd.2) as [K F].
  { unfold upd. destruct (t_codec t);
      repeat first [ case_match; simplify_eq/=
                   | split; [first [apply keeps_refl | unfold keeps, same_family; cbn; split_and!; try done; by left]
                            |repeat constructor; eauto]]. }
  destruct upd as [t' found]. cbn [fst snd] in K, F. split; [done|].
  replace (payload, pts, dts, key) with (seen_frame (with_duration_and_key
    (if bool_decide (t_codec t' = G711A \/ t_codec t' = G711U) then g711_duration_90k (Z.of_nat (length payload)) 8000 else 0)
    (if bool_decide (t_codec t' = G711A \/ t_codec t' = G711U) then g711_duration_us (Z.of_nat (length payload)) 8000 else 0)
    key (new_frame t' format pts dts payload))).
  - apply one_frame_intro; [|done]. apply K.
  - unfold seen_frame. cbn. by rewrite !wrap_i_small by (unfold in_i; lia).
Qed.

Lemma same_family_trans a b c : same_family a b -> same_family b c -> same_family a c.
Proof.
  unfold same_family. intros [->|[F F']] [G|[G G']]; [by left|by right|right; by rewrite <- G|by right].
Qed.

Lemma keeps_trans a b c : keeps a b -> keeps b c -> keeps a c.
Proof.
  unfold keeps. intros (-> & -> & -> & F & -> & -> & -> & -> & ->) (-> & -> & -> & G & -> & -> & -> & -> & ->).
  split_and!; try done. by eapply same_family_trans.
Qed.

Lemma one_frame_more id found seen events :
  Forall (fun e => exists i, e = TrackFound i) found -> one_frame id seen events -> one_frame id seen (found ++ events).
Proof.
  intros F (Q & O & E). induction F as [|e found [i ->] F (Q' & O' & E')]; [done|]. by split_and!; [constructor| |].
Qed.

Lemma audio_codec payload info : parse_mpeg_audio_header payload = Some info -> ai_codec info = MP2 \/ ai_codec info = MP3.
Proof.
  unfold parse_mpeg_audio_header. destruct (_ || _); [done|]. destruct (_ || _); [done|]. destruct (_ =? 3); [done|].
  intros H. repeat (apply bind_Some in H as (? & ? & H)). simplify_eq. cbn. unfold select in *.
  repeat match goal with E : context [if ?b then _ else _] |- _ => destruct b; simplify_eq/= end; tauto.
Qed.

Lemma plain_frames payload pts dts t :
  pending_private_probe t = false -> t_codec t <> AAC -> t_kind t = Video \/ t_kind t = Audio ->
  (t_kind t = Video -> t_codec t <> MP2 /\ t_codec t <> MP3) -> in_u 63 pts -> in_u 63 dts ->
  let '(t', events) := payload_to_frames payload pts dts t in
  keeps t t' /\ one_frame (t_track_id t)
    (payload, pts, dts, bool_decide (t_kind t = Video) && is_keyframe_payload payload (t_codec t)) events.
Proof.
  intros Pr NA K NV Hp Hd. unfold payload_to_frames. rewrite Pr.
  destruct (t_codec t) eqn:C; try done; try (rewrite <- C; by apply single_frame).
  all: destruct K as [K|K]; [destruct (NV K); done|]; rewrite K, bool_decide_false by done; cbn [andb].
  all: set (found := match parse_mpeg_audio_header payload with None => _ | _ => _ end).
  all: assert (keeps t found.1 /\ Forall (fun e => exists i, e = TrackFound i) found.2) as [Kf F].
  1,3: unfold found; destruct (parse_mpeg_audio_header payload) as [info|] eqn:Ep; [|split; [apply keeps_refl|done]];
    (split; [|cbn; case_match; repeat constructor; eauto]); apply audio_codec in Ep; unfold keeps, same_family; cbn;
    split_and!; try done; rewrite C; tauto.
  all: destruct found as [t1 ev1]; cbn [fst snd] in Kf, F;
    pose proof (single_frame payload (frame_format_for_codec (t_codec t1)) pts dts t1 Hp Hd) as S;
    destruct (build_single_frame_event _ _ _ _ _) as [t2 ev2]; destruct S as [S1 S2];
    pose proof Kf as (_ & Ei & Ek & _); rewrite Ek, Ei, K, bool_decide_false in S2 by done; cbn [andb] in S2;
    split; [by eapply keeps_trans|by apply one_frame_more].
Qed.

(** A frame behind its own header. *)
Lemma adts_frame c raw pts dts t :
  adts_fits c raw -> asc_sampling_frequency_index c <= 12 -> raw <> [] -> in_u 63 pts -> in_u 63 dts ->
  let '(t', events) := split_aac_adts_frames (adts_wrap raw c) pts dts t in
  keeps t t' /\ one_frame (t_track_id t) (raw, pts, dts, false) events.
Proof.
  intros Fi Ix Ne Hp Hd. unfold split_aac_adts_frames. pose proof (adts_header_wf _ _ Fi) as Wf.
  set (h := adts_header_of c raw) in *.
  assert (adts_parse (adts_wrap raw c) = Some h) as Pa by by (unfold adts_wrap; apply adts_parse_build).
  assert (frame_length h = Z.of_nat (length raw) + 7) as Fl by (destruct Fi; cbn; lia).
  assert (length (adts_wrap raw c) = (7 + length raw)%nat) as L by by unfold adts_wrap; rewrite length_app.
  assert (sub_ 7 (length raw) (adts_wrap raw c) = raw) as Su.
  { unfold adts_wrap. rewrite sub_app_r by (cbn; lia). unfold sub_. by rewrite drop_0, firstn_all. }
  rewrite L. cbn [Nat.add adts_loop]. destruct (adts_wrap raw c) as [|b data] eqn:Ed; [done|].
  rewrite Pa, Fl, L. rewrite (proj2 (Z.ltb_ge _ 7)), (proj2 (Z.ltb_ge _ (_ + 7))) by lia.
  change (sampling_frequency_index h) with (asc_sampling_frequency_index c). rewrite (proj2 (Z.ltb_ge 12 _)) by lia.
  set (found := match aac_asc t with Some _ => _ | None => _ end).
  assert (keeps t found.1 /\ Forall (fun e => exists i, e = TrackFound i) found.2) as [Kf F].
  { unfold found. destruct (aac_asc t); [split; [apply keeps_refl|done]|].
    split; [|repeat constructor; eauto]. unfold keeps, same_family. cbn. split_and!; try done. by left. }
  destruct found as [t1 ev1]. cbn [fst snd] in Kf, F.
  rewrite (drop_ge (b :: data)) by (rewrite L; lia). replace (Z.to_nat _ - 7)%nat with (length raw) by lia. rewrite Su.
  cbn [fst snd]. split; [done|]. unfold in_u in *. rewrite !Z.mul_0_l, !Z.add_0_r, !wrap_u_small by (unfold in_u; lia).
  replace (raw, pts, dts, false) with (seen_frame (new_frame t1 AacRaw pts dts raw)).
  - apply one_frame_intro; [|done]. apply Kf.
  - unfold seen_frame. cbn. by rewrite !wrap_i_small by (unfold in_i; lia).
Qed.

(** ** A PES packet read *)

Definition clock_of (t : DemuxTrackState) : Prop :=
  pts_wrap_offset t = 0 /\ (forall last, last_raw_pts t = Some last -> 0 <= last < 2 ^ 32).

Lemma unwrap_still t pts :
  clock_of t -> 0 <= pts < 2 ^ 32 -> unwrap_clock pts t = set_clock 0 pts t.
Proof.
  intros [O L] P. unfold unwrap_clock. destruct (last_raw_pts t) as [last|]; rewrite O; [|done].
  specialize (L last eq_refl). by rewrite (proj2 (Z.ltb_ge WRAP_THRESHOLD _)), andb_false_r by (unfold WRAP_THRESHOLD; lia).
Qed.

Lemma parse_build_pes t sid payload pts dts :
  pes_buf t = build_pes sid payload (Some pts) dts -> payload <> [] -> clock_of t -> 0 <= pts < 2 ^ 32 ->
  (forall d, dts = Some d -> 0 <= d < 2 ^ 33) ->
  parse_pes_to_frames t
  = payload_to_frames payload pts (default pts dts) (set_clock 0 pts (set_pes [] (pes_started t) t)).
Proof.
  intros E Ne Cl P D. unfold parse_pes_to_frames. rewrite E. unfold build_pes. rewrite bool_decide_true by by eexists.
  set (has_dts := bool_decide (is_Some dts) && _). set (len := if 0xE0 <=? sid then _ else _).
  assert (exists a b, be_bytes 2 len = [a; b]) as (la & lb & ->) by by eexists _, _.
  assert (length payload <> 0%nat) as Lp by by destruct payload.
  destruct has_dts eqn:Hd.
  - unfold has_dts in Hd. destruct dts as [d|]; [|done]. specialize (D d eq_refl).
    set (buf := [x00; x00; x01; byte_of sid] ++ _).
    assert (length buf = (19 + length payload)%nat) as L by reflexivity.
    change (take 3 buf) with [x00; x00; x01]. rewrite bool_decide_true by done.
    change (at_ buf 7) with 0xC0. change (at_ buf 8) with 10. change (Z.to_nat 10) with 10%nat.
    rewrite L, (proj2 (Nat.ltb_ge _ 9)), (proj2 (Nat.leb_gt _ (9 + _))) by lia.
    change (sub_ 9 5 buf) with (encode_timestamp 3 pts ++ []). change (sub_ 14 5 buf) with (encode_timestamp 1 d ++ []).
    change (drop (9 + 10) buf) with payload. rewrite !timestamp_back by lia.
    change (Z.land (Z.shiftr 0xC0 6) 0x03) with 3.
    cbn [negb orb andb Z.eqb Pos.eqb Z.ltb Z.leb Z.compare Pos.compare Pos.compare_cont].
    rewrite !Z.mod_small by lia. rewrite unwrap_still by done. cbn [pts_wrap_offset set_clock].
    by rewrite !Z.add_0_r, !wrap_u_small by (unfold in_u; lia).
  - assert (default pts dts = pts) as ->.
    { unfold has_dts in Hd. destruct dts as [d|]; [|done]. rewrite bool_decide_true in Hd by by eexists.
      cbn in Hd. destruct (bool_decide_reflect (Some d = Some pts)); [|done]. by simplify_eq. }
    set (buf := [x00; x00; x01; byte_of sid] ++ _).
    assert (length buf = (14 + length payload)%nat) as L by reflexivity.
    change (take 3 buf) with [x00; x00; x01]. rewrite bool_decide_true by done.
    change (at_ buf 7) with 0x80. change (at_ buf 8) with 5. change (Z.to_nat 5) with 5%nat.
    rewrite L, (proj2 (Nat.ltb_ge _ 9)), (proj2 (Nat.leb_gt _ (9 + _))) by lia.
    change (sub_ 9 5 buf) with (encode_timestamp 2 pts ++ []).
    change (drop (9 + 5) buf) with payload. rewrite !timestamp_back by lia.
    change (Z.land (Z.shiftr 0x80 6) 0x03) with 2.
    cbn [negb orb andb Z.eqb Pos.eqb Z.ltb Z.leb Z.compare Pos.compare Pos.compare_cont].
    rewrite !Z.mod_small by lia. rewrite unwrap_still by done. cbn [pts_wrap_offset set_clock].
    by rewrite !Z.add_0_r, !wrap_u_small by (unfold in_u; lia).
Qed.

(** ** A track of the muxer and its track at the demuxer *)

(** An AAC frame that takes a header: a configuration, no header of its own, 13 bits of length. *)
Definition aac_ok (e : MuxTrackEntry) (payload : list byte) : Prop :=
  exists asc c, e_extradata e = ExAAC asc /\ asc_from_bytes asc = Some c /\ adts_fits c payload
    /\ asc_sampling_frequency_index c <= 12
    /\ (2 <=? length payload)%nat && (at_ payload 0 =? 0xFF) && (Z.land (at_ payload 1) 0xF0 =? 0xF0) = false.

(** Microseconds on the clock of 90 kHz, rounded down; a negative time counts as zero. *)
Definition ticks (us : Z) : Z := Z.max 0 us * 90000 / 1000000.

(** A frame of a track: not empty, of less than thirteen hours, and of 4 MB at most. *)
Definition frame_ok (e : MuxTrackEntry) (f : MuxFrame) : Prop :=
  mf_payload f <> [] /\ ticks (mf_pts_us f) < 2 ^ 32 /\ ticks (mf_dts_us f) < 2 ^ 32 /\
  Z.of_nat (length (entry_pes e f)) <= max_reassembly_bytes demux_config_default /\
  (e_codec e = AAC -> aac_ok e (mf_payload f)).

(** What comes out for it. *)
Definition due_payload (e : MuxTrackEntry) (f : MuxFrame) : list byte :=
  if bool_decide (e_codec e = AAC) then mf_payload f else ts_payload e (mf_key f) (mf_payload f).
Definition due (e : MuxTrackEntry) (f : MuxFrame) : list byte * Z * Z * bool :=
  (due_payload e f, us_to_90k (mf_pts_us f), us_to_90k (if is_video e then mf_dts_us f else mf_pts_us f),
   is_video e && is_keyframe_payload (due_payload e f) (e_codec e)).

(** [pending] is the frame whose packets have come, and which nothing has followed yet. *)
Definition linked (e : MuxTrackEntry) (id : Z) (t : DemuxTrackState) (pending : option MuxFrame) : Prop :=
  t_pid t = e_pid e /\ t_track_id t = id /\ t_kind t = e_media_kind e /\ same_family (e_codec e) (t_codec t) /\
  pending_private_probe t = false /\ clock_of t /\
  match pending with None => pes_buf t = [] | Some f => pes_buf t = entry_pes e f /\ frame_ok e f end.

Lemma us_to_90k_ticks us : ticks us < 2 ^ 32 -> us_to_90k us = ticks us.
Proof.
  unfold ticks, us_to_90k. intros B. destruct (Z.leb_spec 0 us) as [L|L].
  - rewrite Z.max_r in * by lia.
    assert (E : us * 90000 / 1000000 = us * 9 / 100)
      by (replace (us * 90000) with (us * 9 * 10000) by lia; by rewrite (Z.div_mul_cancel_r _ 100 10000)).
    rewrite E in *. rewrite wrap_u_small; [done|]. unfold in_u.
    pose proof (Z.div_mod (us * 9) 100 ltac:(lia)). pose proof (Z.mod_pos_bound (us * 9) 100 ltac:(lia)).
    change (2 ^ 64) with 18446744073709551616. change (2 ^ 32) with 4294967296 in B. lia.
  - by rewrite Z.max_l by lia.
Qed.

Lemma us_to_90k_nonneg us : 0 <= us_to_90k us.
Proof.
  unfold us_to_90k. destruct (0 <=? us); [|done]. pose proof (wrap_u_range 64 (us * 9) ltac:(lia)) as R.
  unfold in_u in R. apply Z.div_pos; lia.
Qed.

Lemma resolved_kind c k :
  resolve_stream (stream_type_for_codec c) (registration_descriptor c) (length (registration_descriptor c))
  = Some (c, k, false) ->
  (k = Video \/ k = Audio) /\ (k = Video -> c <> MP2 /\ c <> MP3 /\ c <> AAC).
Proof.
  destruct c; intros H; vm_compute in H; try discriminate H; injection H as <-;
    (split; [tauto|intros ?; try discriminate; by split_and!]).
Qed.

Lemma carried_kind e :
  carried e -> (e_media_kind e = Video \/ e_media_kind e = Audio) /\
               (e_media_kind e = Video -> e_codec e <> MP2 /\ e_codec e <> MP3 /\ e_codec e <> AAC).
Proof. apply resolved_kind. Qed.

Lemma aac_payload e f : e_codec e = AAC -> aac_ok e (mf_payload f) ->
  exists c, ts_payload e (mf_key f) (mf_payload f) = adts_wrap (mf_payload f) c /\ adts_fits c (mf_payload f)
            /\ asc_sampling_frequency_index c <= 12.
Proof.
  intros C (asc & c & Ex & As & Fi & Ix & No). exists c. split_and!; [|done|done].
  unfold ts_payload, wrap_aac_adts. rewrite C, Ex, No, As. done.
Qed.

Lemma ts_payload_nonempty e f : frame_ok e f -> ts_payload e (mf_key f) (mf_payload f) <> [].
Proof.
  intros (Ne & _ & _ & _ & A). destruct (decide (e_codec e = AAC)) as [C|C].
  - destruct (aac_payload e f C (A C)) as (c & -> & _). done.
  - unfold ts_payload. destruct (e_codec e); try done; by destruct (is_video e).
Qed.

(** The frame of a track's packet, when the next one starts or nothing more comes. *)
Lemma close_linked e id t pending t1 ev :
  carried e -> linked e id t pending -> close_pes t = (t1, ev) ->
  linked e id t1 None /\ expected_cc t1 = expected_cc t /\ quiet ev /\ only_track id ev /\
  frames_of id ev = option_list (due e <$> pending).
Proof.
  intros K (Pid & Id & Kd & Fam & Pr & Cl & P). unfold close_pes. destruct pending as [f|].
  2: { rewrite P. intros [= <- <-]. split_and!; try done. by constructor. }
  destruct P as [P Ok]. pose proof (ts_payload_nonempty e f Ok) as Ne.
  assert (is_empty (pes_buf t) = false) as -> by by rewrite P.
  set (pl := ts_payload e (mf_key f) (mf_payload f)) in *. intros E.
  destruct Ok as (Ne0 & Bp & Bd & _ & A). rewrite <- (us_to_90k_ticks _ Bp) in Bp.
  rewrite <- (us_to_90k_ticks _ Bd) in Bd. pose proof (us_to_90k_nonneg (mf_pts_us f)). pose proof (us_to_90k_nonneg (mf_dts_us f)).
  rewrite (parse_build_pes t (e_stream_id e) pl (us_to_90k (mf_pts_us f))
             (if is_video e then Some (us_to_90k (mf_dts_us f)) else None)) in E; [|done..| |]; [|lia|].
  2: { intros d. destruct (is_video e); [|done]. intros [= <-]. lia. }
  set (t0 := set_clock 0 _ _) in E.
  set (dts := default _ _) in E.
  assert (dts = us_to_90k (if is_video e then mf_dts_us f else mf_pts_us f)) as Ed by by unfold dts; destruct (is_video e).
  assert (in_u 63 (us_to_90k (mf_pts_us f)) /\ in_u 63 dts) as [Up Ud].
  { unfold in_u. rewrite Ed. destruct (is_video e); lia. }
  destruct (carried_kind e K) as [Vk NV].
  assert (keeps t0 t1 /\ one_frame (t_track_id t0) (due e f) ev) as [Ks (Q & O & Fr)].
  { assert (t_codec t0 = t_codec t /\ t_kind t0 = e_media_kind e /\ pending_private_probe t0 = false) as (C0 & K0 & P0)
      by by split.
    destruct (decide (e_codec e = AAC)) as [C|C].
    - destruct (aac_payload e f C (A C)) as (c & Ep & Fi & Ix). fold pl in Ep.
      assert (e_media_kind e <> Video) as Nv by (intros V; by destruct (NV V) as (_ & _ & ?)).
      assert (is_video e = false) as Iv by (unfold is_video; by rewrite bool_decide_false).
      assert (due e f = (mf_payload f, us_to_90k (mf_pts_us f), dts, false)) as ->.
      { unfold due, due_payload. by rewrite bool_decide_true, Ed, Iv by done. }
      unfold payload_to_frames in E. rewrite P0, C0 in E.
      assert (t_codec t = AAC) as Ct by (destruct Fam as [Eq|[[?|?] _]]; congruence). rewrite Ct, Ep in E.
      pose proof (adts_frame c (mf_payload f) (us_to_90k (mf_pts_us f)) dts t0 Fi Ix Ne0 Up Ud) as F. by rewrite E in F.
    - pose proof (plain_frames pl (us_to_90k (mf_pts_us f)) dts t0 P0) as F. rewrite E, C0, K0 in F.
      assert (t_codec t <> AAC) as Na by (destruct Fam as [Eq|[_ [?|?]]]; congruence).
      assert (due e f = (pl, us_to_90k (mf_pts_us f), dts,
                         bool_decide (e_media_kind e = Video) && is_keyframe_payload pl (t_codec t))) as ->.
      { unfold due, due_payload. rewrite bool_decide_false, Ed by done. fold pl. f_equal. unfold is_video.
        destruct (bool_decide_reflect (e_media_kind e = Video)) as [V|]; [|done]. destruct (NV V) as (N1 & N2 & _).
        destruct Fam as [->|[[?|?] _]]; done. }
      apply F; try done. intros V. destruct (NV V) as (N1 & N2 & _). destruct Fam as [<-|[[?|?] _]]; done. }
  destruct Ks as (K1 & K2 & K3 & K4 & K5 & K6 & K7 & K8 & K9).
  split_and!; try done.
  - unfold linked. rewrite K1, K2, K3, K5, K7. split; [done|]. split; [done|]. split; [done|].
    split; [by eapply same_family_trans|]. split; [done|]. split; [|done].
    split; [by rewrite K8|]. intros last. rewrite K9. intros [= <-]. lia.
  - by rewrite <- Id.
  - by rewrite <- Id.
Qed.

(** ** The muxer and the demuxer together *)

Inductive MuxStep : Set := Tables | Push (f : MuxFrame).

Definition mux_step (m : MpegTsMuxer) (s : MuxStep) : MpegTsMuxer * list (list byte) :=
  match s with Tables => write_tables m | Push f => push_frame m f end.

Fixpoint mux_run (m : MpegTsMuxer) (steps : list MuxStep) : MpegTsMuxer * list (list byte) :=
  match steps with
  | [] => (m, [])
  | s :: steps => let '(m, p) := mux_step m s in let '(m, p') := mux_run m steps in (m, p ++ p')
  end.

(** The frames of a track among the steps. *)
Definition frame_for (id : Z) (s : MuxStep) : option MuxFrame :=
  match s with Push f => if mf_track_id f =? id then Some f else None | Tables => None end.
Definition pushed (id : Z) (steps : list MuxStep) : list MuxFrame := omap (frame_for id) steps.

Definition entry_ok (e : MuxTrackEntry) : Prop :=
  carried e /\ pid_ok (e_pid e) /\ e_pid e <> 0 /\ e_pid e <> PMT_PID /\ e_pid e <> 0x1FFF /\ cc_ok (e_cc e).

(** Tracks with PIDs and ids of their own, and a table within its length. *)
Definition mux_ok (m : MpegTsMuxer) : Prop :=
  Forall entry_ok (m_tracks m) /\ NoDup (map e_pid (m_tracks m)) /\ NoDup (map e_track_id (m_tracks m)) /\
  (length (pmt_body m) + 4 < 4096)%nat /\ cc_ok (pat_cc m) /\ cc_ok (pmt_cc m).

Definition step_ok (m : MpegTsMuxer) (s : MuxStep) : Prop :=
  match s with
  | Tables => True
  | Push f => Forall (fun e => e_track_id e = mf_track_id f -> frame_ok e f) (m_tracks m)
  end.

(** The same tracks, but for the counters. *)
Definition alike (m m' : MpegTsMuxer) : Prop := map (with_cc 0) (m_tracks m') = map (with_cc 0) (m_tracks m).

Definition synced (m : MpegTsMuxer) (d : MpegTsDemuxer) (events : list MpegTsDemuxEvent) (steps : list MuxStep) : Prop :=
  mux_ok m /\ pmt_pid d = Some PMT_PID /\ config d = demux_config_default /\
  length (d_tracks d) = length (m_tracks m) /\ quiet events /\
  forall i e, m_tracks m !! i = Some e ->
    exists t pending, d_tracks d !! i = Some t /\ (expected_cc t = None \/ expected_cc t = Some (e_cc e)) /\
      linked e (1 + Z.of_nat i) t pending /\
      frames_of (1 + Z.of_nat i) events ++ option_list (due e <$> pending) = map (due e) (pushed (e_track_id e) steps).

Lemma mux_ok_pmt m : mux_ok m -> pmt_ok m.
Proof. intros (F & _ & _ & L & _). split; [done|]. eapply Forall_impl; [exact F|]. intros e E. apply E. Qed.

Lemma pushed_app id s1 s2 : pushed id (s1 ++ s2) = pushed id s1 ++ pushed id s2.
Proof. apply omap_app. Qed.

Lemma synced_tables m d events steps :
  synced m d events steps ->
  let '(m', pkts) := write_tables m in
  let '(d', events') := feed_all pkts d in
  synced m' d' (events ++ events') (steps ++ [Tables]) /\ alike m m' /\ Forall packet_shape pkts.
Proof.
  intros (Ok & Pp & Cf & Len & Q & Each). pose proof Ok as (F & N1 & N2 & Lb & C1 & C2).
  pose proof (feed_tables m d (mux_ok_pmt m Ok) C1 C2) as R. destruct (write_tables m) as [m' pkts].
  destruct R as (R & Sh & C1' & C2' & Em). rewrite R. cbv zeta.
  rewrite add_entries_known.
  2: { apply Forall_lookup. intros i e E. destruct (Each i e E) as (t & pending & Et & _ & (Pid & _) & _).
       rewrite <- Pid. by eapply list_elem_of_fmap_2, list_elem_of_lookup_2. }
  unfold alike. rewrite app_nil_r. split; [|by rewrite Em]. unfold synced, mux_ok. rewrite !length_pmt_body, Em in *.
  split_and!; try done. intros i e E. destruct (Each i e E) as (t & pending & H). exists t, pending.
  rewrite pushed_app. change (pushed (e_track_id e) [Tables]) with (@nil MuxFrame). by rewrite app_nil_r.
Qed.

(** From nothing to the first tables. *)
Lemma synced_start m :
  mux_ok m ->
  let '(m', pkts) := write_tables m in
  let '(d', events') := feed_all pkts (demuxer_new demux_config_default) in
  synced m' d' events' [Tables] /\ alike m m' /\ Forall packet_shape pkts.
Proof.
  intros Ok. pose proof Ok as (F & N1 & N2 & Lb & C1 & C2).
  pose proof (feed_tables m (demuxer_new demux_config_default) (mux_ok_pmt m Ok) C1 C2) as R.
  destruct (write_tables m) as [m' pkts]. destruct R as (R & Sh & C1' & C2' & Em). rewrite R. cbv zeta.
  destruct (add_entries_new (m_tracks m) [] 1) as (next' & events & E & A).
  { eapply Forall_impl; [exact F|]. intros e K. apply K. }
  { done. }
  change (d_tracks (set_section _ _ _)) with (@nil DemuxTrackState). change (next_track_id (set_section _ _ _)) with 1.
  rewrite E. unfold alike. split; [|by rewrite Em]. unfold synced, mux_ok. rewrite !length_pmt_body, Em in *.
  pose proof (entries_short (m_tracks m)) as Sh'.
  split_and!; try done.
  - apply length_tracks_of.
  - eapply Forall_impl; [exact A|]. by intros ? [i ->].
  - intros i e Ei. exists (track_of (1 + Z.of_nat i) e), None. split_and!.
    + cbn [d_tracks set_tracks app]. apply tracks_of_lookup; [done|lia|done].
    + by left.
    + unfold linked, clock_of, same_family. cbn. split_and!; try done. by left.
    + assert (frames_of (1 + Z.of_nat i) events = []) as ->; [|done].
      clear -A. induction A as [|? ? [? ->] A IH]; [done|exact IH].
Qed.

(** *** A frame pushed *)

Lemma entry_split (id : Z) (l : list MuxTrackEntry) :
  Forall (fun e => e_track_id e <> id) l \/
  exists l1 e l2, l = l1 ++ e :: l2 /\ Forall (fun e => e_track_id e <> id) l1 /\ e_track_id e = id.
Proof.
  induction l as [|x l IH]; [by left|]. destruct (decide (e_track_id x = id)) as [E|Ne]; [right; by exists [], x, l|].
  destruct IH as [F|(l1 & e & l2 & -> & F & E)]; [left; by constructor|right].
  exists (x :: l1), e, l2. split; [done|]. by split; [constructor|].
Qed.

Lemma push_entry_none f l : Forall (fun e => e_track_id e <> mf_track_id f) l -> push_entry f l = (l, []).
Proof. induction 1 as [|x l N F IH]; [done|]. cbn [push_entry]. by rewrite (proj2 (Z.eqb_neq _ _)), IH. Qed.

Lemma push_entry_at f l1 e l2 :
  Forall (fun e => e_track_id e <> mf_track_id f) l1 -> e_track_id e = mf_track_id f ->
  push_entry f (l1 ++ e :: l2) = (let '(pkts, cc) := entry_packets e f in (l1 ++ with_cc cc e :: l2, pkts)).
Proof.
  intros F E. induction F as [|x l1 N F IH]; cbn [push_entry app].
  - by rewrite (proj2 (Z.eqb_eq _ _)).
  - rewrite (proj2 (Z.eqb_neq _ _)), IH by done. by destruct (entry_packets e f).
Qed.

Lemma entry_wrote e f :
  cc_ok (e_cc e) ->
  let '(pkts, cc) := entry_packets e f in wrote (e_pid e) (e_cc e) true (entry_pes e f) pkts cc /\ cc_ok cc.
Proof. intros C. by apply write_pes_wrote. Qed.

Lemma pushed_other id f : mf_track_id f <> id -> pushed id [Push f] = [].
Proof. intros N. cbn. by rewrite (proj2 (Z.eqb_neq _ _)). Qed.
Lemma pushed_one id f : mf_track_id f = id -> pushed id [Push f] = [f].
Proof. intros N. cbn. by rewrite (proj2 (Z.eqb_eq _ _)). Qed.

Lemma lookup_beside {A} (l1 l2 : list A) x y i :
  i <> length l1 -> (l1 ++ y :: l2) !! i = (l1 ++ x :: l2) !! i.
Proof.
  intros N. destruct (decide (i < length l1)%nat) as [L|L]; [by rewrite !lookup_app_l|].
  rewrite !lookup_app_r by lia. by destruct (i - length l1)%nat eqn:E; [lia|].
Qed.

Lemma nodup_beside {A} (f : A -> Z) (l1 l2 : list A) x y i :
  NoDup (map f (l1 ++ x :: l2)) -> (l1 ++ x :: l2) !! i = Some y -> i <> length l1 -> f y <> f x.
Proof.
  intros N E Ne Eq. destruct Ne. apply (NoDup_lookup (f <$> (l1 ++ x :: l2)) _ _ (f x)); [done| |].
  - by rewrite list_lookup_fmap, E; cbn; rewrite Eq.
  - by rewrite list_lookup_fmap, lookup_app_r, Nat.sub_diag.
Qed.

Lemma mux_ok_push m l1 e l2 cc :
  mux_ok m -> m_tracks m = l1 ++ e :: l2 -> cc_ok cc ->
  mux_ok (mk_muxer (l1 ++ with_cc cc e :: l2) (pat_cc m) (pmt_cc m) (pcr_pid m)) /\
  alike m (mk_muxer (l1 ++ with_cc cc e :: l2) (pat_cc m) (pmt_cc m) (pcr_pid m)).
Proof.
  intros (F & N1 & N2 & Lb & C1 & C2) E C. unfold alike. cbn [m_tracks]. rewrite E in *. split.
  - rewrite length_pmt_body, E in Lb. unfold mux_ok. rewrite length_pmt_body. cbn [m_tracks pat_cc pmt_cc].
    rewrite !map_app in *. split_and!; try done.
    apply Forall_app in F as [F1 F2]. apply Forall_cons in F2 as [(? & ? & ? & ? & ? & ?) F2].
    apply Forall_app; split; [done|]. constructor; [|done]. done.
  - by rewrite !map_app.
Qed.

Lemma linked_cc e id t pending c : linked e id t pending -> linked e id (set_cc c t) pending.
Proof. done. Qed.

Lemma linked_next e id t f cc :
  linked e id t None -> frame_ok e f -> linked (with_cc cc e) id (set_pes (entry_pes e f) true (set_cc cc t)) (Some f).
Proof. intros (P & I & K & F & Pr & Cl & _) Ok. done. Qed.

Lemma synced_push m d events steps f :
  synced m d events steps -> step_ok m (Push f) ->
  let '(m', pkts) := push_frame m f in
  let '(d', events') := feed_all pkts d in
  synced m' d' (events ++ events') (steps ++ [Push f]) /\ alike m m' /\ Forall packet_shape pkts.
Proof.
  intros Sy Sok. pose proof Sy as (Ok & Pp & Cf & Len & Q & Each). unfold push_frame.
  destruct (entry_split (mf_track_id f) (m_tracks m)) as [No|(l1 & e & l2 & Em & No & Id)].
  { rewrite push_entry_none by done. cbn [feed_all]. rewrite app_nil_r. split; [|done].
    replace (mk_muxer _ _ _ _) with m by by destruct m. split_and!; try done. intros i e E.
    destruct (Each i e E) as (t & pending & H). exists t, pending. rewrite pushed_app, pushed_other, app_nil_r; [done|].
    eapply Forall_lookup in No; [|exact E]. congruence. }
  rewrite Em, push_entry_at by done. pose proof Ok as (F & N1 & N2 & _). rewrite Em in F, N1, N2.
  assert (entry_ok e) as (K & P & P0 & P1 & P2 & C) by by apply Forall_app in F as [_ F]; apply Forall_cons in F as [F _].
  pose proof (entry_wrote e f C) as W. destruct (entry_packets e f) as [pkts cc]. destruct W as [W C'].
  destruct (mux_ok_push m l1 e l2 cc Ok Em C') as [Ok' Al].
  destruct (Each (length l1) e) as (t & pending & Et & Xc & Lk & Fr); [by rewrite Em, lookup_app_r, Nat.sub_diag|].
  assert (frame_ok e f) as Fo.
  { cbn in Sok. rewrite Em in Sok. apply Forall_app in Sok as [_ Sok]. apply Forall_cons in Sok as [Sok _]. by apply Sok. }
  set (k1 := take (length l1) (d_tracks d)). set (k2 := drop (S (length l1)) (d_tracks d)).
  assert (d_tracks d = k1 ++ t :: k2) as Ed by by symmetry; apply take_drop_middle.
  assert (length k1 = length l1) as Lk1 by (unfold k1; rewrite length_take, Len, Em, length_app; cbn; lia).
  assert (Forall (fun x => t_pid x <> e_pid e) k1) as Np.
  { apply Forall_lookup. intros i t' Ei. pose proof (lookup_lt_Some _ _ _ Ei) as Li. rewrite Lk1 in Li.
    destruct (lookup_lt_is_Some_2 l1 i Li) as [e' Ee].
    assert ((l1 ++ e :: l2) !! i = Some e') as Ee' by by rewrite lookup_app_l.
    destruct (Each i e') as (t'' & ? & Et'' & _ & (Pid & _) & _); [by rewrite Em|].
    rewrite Ed, lookup_app_l in Et'' by lia. replace t' with t'' by congruence. rewrite Pid.
    apply (nodup_beside e_pid l1 l2 e e' i N1 Ee'). lia. }
  destruct (close_pes (set_cc (next_cc (e_cc e)) t)) as [t1 ev] eqn:Cl.
  destruct (close_linked e _ _ pending t1 ev K (linked_cc _ _ _ _ _ Lk) Cl) as (Lk' & X1 & Qe & Oe & Fe).
  pose proof Fo as (_ & _ & _ & Sz & _).
  rewrite (feed_pes (e_pid e) (e_cc e) (entry_pes e f) pkts cc d k1 t k2 t1 ev W);
    [|done| |done|done|apply Lk|done|by rewrite Cf|done|apply Lk'|done].
  2: { unfold track_pid. rewrite Pp. split_and!; try done. intros [= E]. by symmetry in E. }
  split; [|split; [done|by eapply wrote_shape]]. unfold synced. split; [done|]. split; [done|]. split; [done|].
  split; [cbn; rewrite Em, Ed, !length_app in Len; rewrite !length_app; done|]. split; [by apply Forall_app|].
  cbn [m_tracks d_tracks set_tracks]. intros i e' Ei. rewrite pushed_app, frames_of_app.
  destruct (decide (i = length l1)) as [->|Ni].
  - rewrite lookup_app_r, Nat.sub_diag in Ei by done. cbn in Ei. simplify_eq.
    eexists _, (Some f). rewrite lookup_app_r, Lk1, Nat.sub_diag by lia. split; [done|]. split; [by right|].
    split; [by apply linked_next|]. cbn [e_track_id with_cc]. rewrite Fe, pushed_one, map_app by done.
    rewrite Fr. done.
  - rewrite (lookup_beside l1 l2 e) in Ei by done. destruct (Each i e') as (t' & pending' & Et' & H); [by rewrite Em|].
    exists t', pending'. rewrite <- Lk1 in Ni. rewrite (lookup_beside k1 k2 t) by done. rewrite <- Ed. rewrite Lk1 in Ni.
    split; [done|]. rewrite (Oe (1 + Z.of_nat i)) by lia. rewrite app_nil_r.
    rewrite pushed_other; [by rewrite app_nil_r|]. rewrite <- Id. intros E.
    by apply (nodup_beside e_track_id l1 l2 e e' i N2 Ei Ni).
Qed.

Lemma alike_lookup m m' i e :
  alike m m' -> m_tracks m !! i = Some e -> exists e', m_tracks m' !! i = Some e' /\ with_cc 0 e' = with_cc 0 e.
Proof.
  intros A E. apply (f_equal (fun l => l !! i)) in A. rewrite !list_lookup_fmap, E in A.
  destruct (m_tracks m' !! i) as [e'|]; [|done]. exists e'. split; [done|]. by apply (inj Some).
Qed.

Lemma step_ok_alike m m' s : alike m m' -> step_ok m s -> step_ok m' s.
Proof.
  intros A. destruct s as [|f]; [done|]. cbn [step_ok]. rewrite !Forall_lookup. intros H i e E.
  destruct (alike_lookup m' m i e) as (e0 & E0 & Ec); [done..|]. specialize (H i e0 E0).
  change (e_track_id e) with (e_track_id (with_cc 0 e)). change (frame_ok e f) with (frame_ok (with_cc 0 e) f).
  by rewrite <- Ec.
Qed.

Lemma synced_run m d events steps more :
  synced m d events steps -> Forall (step_ok m) more ->
  let '(m', pkts) := mux_run m more in
  let '(d', events') := feed_all pkts d in
  synced m' d' (events ++ events') (steps ++ more) /\ alike m m' /\ Forall packet_shape pkts.
Proof.
  revert m d events steps. induction more as [|s more IH]; intros m d events steps Sy F; cbn [mux_run].
  { cbn [feed_all]. by rewrite !app_nil_r. }
  apply Forall_cons in F as [Ok F].
  assert (let '(m', pkts) := mux_step m s in let '(d', events') := feed_all pkts d in
          synced m' d' (events ++ events') (steps ++ [s]) /\ alike m m' /\ Forall packet_shape pkts) as H.
  { destruct s as [|f]; [by apply synced_tables|by apply synced_push]. }
  destruct (mux_step m s) as [m1 p1]. destruct (feed_all p1 d) as [d1 e1] eqn:E1. destruct H as (Sy1 & Al & Sh1).
  specialize (IH m1 d1 _ _ Sy1). destruct (mux_run m1 more) as [m2 p2]. rewrite feed_all_app, E1.
  destruct (feed_all p2 d1) as [d2 e2]. destruct IH as (Sy2 & Al2 & Sh2).
  { eapply Forall_impl; [exact F|]. intros s'. by apply step_ok_alike. }
  rewrite <- !app_assoc in Sy2. split; [done|]. split; [by unfold alike in *; rewrite Al2|by apply Forall_app].
Qed.

(** *** The end *)

Lemma flush_frames es ts k :
  length ts = length es ->
  (forall i e, es !! i = Some e -> carried e /\ exists t p, ts !! i = Some t /\ linked e (k + Z.of_nat i) t p) ->
  let ev := (flush_tracks ts).2 in
  quiet ev /\ (forall id, id < k -> frames_of id ev = []) /\
  (forall i e t p, es !! i = Some e -> ts !! i = Some t -> linked e (k + Z.of_nat i) t p ->
     frames_of (k + Z.of_nat i) ev = option_list (due e <$> p)).
Proof.
  revert ts k. induction es as [|e es IH]; intros [|t ts] k L Each; try done; cbn [flush_tracks].
  { split; [by constructor|done]. }
  destruct (Each 0%nat e eq_refl) as (K & t' & p & Et & Lk). injection Et as <-. rewrite Z.add_0_r in Lk.
  fold (close_pes t). destruct (close_pes t) as [t1 ev] eqn:Cl.
  destruct (IH ts (k + 1)) as (Q & Lo & Fr); [by injection L| |].
  { intros i e' E. destruct (Each (S i) e' E) as (K' & t' & p' & Et & Lk'). split; [done|]. exists t', p'.
    replace (k + 1 + Z.of_nat i) with (k + Z.of_nat (S i)) by lia. done. }
  destruct (flush_tracks ts) as [ts' ev']. cbn [snd] in *.
  pose proof (close_linked e k t p t1 ev K Lk Cl) as (_ & _ & Qe & Oe & _). split_and!.
  - by apply Forall_app.
  - intros id Li. rewrite frames_of_app, Oe, Lo by lia. done.
  - intros i e' t' p' E Et' Lk'. rewrite frames_of_app. destruct i as [|i]; cbn in E, Et'; simplify_eq.
    + rewrite Z.add_0_r in *. pose proof (close_linked e' k t' p' t1 ev K Lk' Cl) as (_ & _ & _ & _ & ->).
      rewrite Lo by lia. by rewrite app_nil_r.
    + rewrite Oe by lia. replace (k + Z.of_nat (S i)) with (k + 1 + Z.of_nat i) in * by lia. by eapply Fr.
Qed.

Definition run_ts (segs : list (list byte)) : list MpegTsDemuxEvent :=
  let '(d, events) := push_all segs (demuxer_new demux_config_default) in events ++ (flush d).2.

(** Every frame comes out as [due] says. *)
Lemma frames_arrive m steps segs :
  mux_ok m -> Forall (step_ok m) steps -> concat segs = concat (mux_run m (Tables :: steps)).2 ->
  quiet (run_ts segs) /\
  forall i e, m_tracks m !! i = Some e ->
    frames_of (1 + Z.of_nat i) (run_ts segs) = map (due e) (pushed (e_track_id e) steps).
Proof.
  intros Ok F E. cbn [mux_run mux_step] in E. pose proof (synced_start m Ok) as S0.
  destruct (write_tables m) as [m1 p1]. destruct (feed_all p1 _) as [d1 e1] eqn:E1. destruct S0 as (Sy & Al & Sh).
  pose proof (synced_run m1 d1 e1 [Tables] steps Sy) as S1. destruct (mux_run m1 steps) as [m2 p2].
  cbn [snd] in E. unfold run_ts. destruct (feed_all p2 d1) as [d2 e2] eqn:E2.
  destruct S1 as (Sy2 & Al2 & Sh2); [by eapply Forall_impl; [exact F|]; intros s; apply step_ok_alike|].
  rewrite (push_all_packets segs (p1 ++ p2)); [|by apply Forall_app|done|cbn; unfold TS_PACKET_SIZE; lia].
  rewrite feed_all_app, E1, E2. destruct Sy2 as (Ok2 & _ & _ & Len & Q & Each).
  change (flush (set_remainder [] d2)).2 with (flush (set_remainder [] d2)).2. unfold flush.
  change (d_tracks (set_remainder [] d2)) with (d_tracks d2).
  destruct (flush_frames (m_tracks m2) (d_tracks d2) 1 Len) as (Qf & _ & Fr).
  { intros i e Ei. destruct (Each i e Ei) as (t & p & Et & _ & Lk & _). split; [|by exists t, p].
    destruct Ok2 as (F2 & _). eapply Forall_lookup in F2; [|exact Ei]. apply F2. }
  destruct (flush_tracks (d_tracks d2)) as [ts ev]. cbn [snd] in *. split; [by apply Forall_app|].
  intros i e Ei. apply alike_lookup with (m' := m2) in Ei as (e' & Ei & Ee); [|by unfold alike in *; rewrite Al2].
  destruct (Each i e' Ei) as (t & p & Et & _ & Lk & Ev). rewrite frames_of_app, (Fr i e' t p Ei Et Lk), Ev.
  rewrite pushed_app. change (pushed (e_track_id e') [Tables]) with (@nil MuxFrame). cbn [app].
  change (due e') with (due (with_cc 0 e')). change (e_track_id e') with (e_track_id (with_cc 0 e')). by rewrite Ee.
Qed.

(** *** What a receiver may expect, without the code *)

(** Units of an elementary stream of H.264, H.265 or H.266, each behind a start code. *)
Definition annexb (units : list (list byte)) : list byte := concat (map (fun u => [x00; x00; x00; x01] ++ u) units).

(** The access unit delimiter that opens an access unit: any slice type. *)
Definition delimiter (c : CodecId) : list byte :=
  match c with
  | H264 => [x09; xf0]
  | H265 => [x46; x01; x50]
  | H266 => [x00; xa0; x01]
  | _ => []
  end.

(** The parameter sets that a decoder needs before a key frame. *)
Definition parameter_sets (c : CodecId) (ex : CodecExtradata) : list (list byte) :=
  match c, ex with
  | H264, ExH264 sps pps _ => sps ++ pps
  | H265, ExH265 vps sps pps _ => vps ++ sps ++ pps
  | H266, ExH266 vps sps pps => vps ++ sps ++ pps
  | _, _ => []
  end.

Definition h26x (c : CodecId) : bool := match c with H264 | H265 | H266 => true | _ => false end.

(** An access unit is opened by its delimiter and, for a key frame, the parameter sets; any
    other frame is sent as it is. *)
Definition sent_payload (e : MuxTrackEntry) (f : MuxFrame) : list byte :=
  if h26x (e_codec e) then
    annexb (delimiter (e_codec e) :: (if mf_key f then parameter_sets (e_codec e) (e_extradata e) else []))
    ++ mf_payload f
  else mf_payload f.

(** A slice of an IDR picture of H.264, and of a random access picture of H.265 behind a long
    start code. *)
Definition has_key_slice (c : CodecId) (data : list byte) : Prop :=
  match c with
  | H264 => exists a b rest, data = a ++ [x00; x00; x01] ++ b :: rest /\ byte_val b mod 32 = 5
  | H265 => exists a b rest, data = a ++ [x00; x00; x00; x01] ++ b :: rest /\ 16 <= byte_val b / 2 mod 64 <= 21
  | _ => False
  end.

(** The frame is marked as a key frame when its payload shows one. *)
Definition honest (e : MuxTrackEntry) (f : MuxFrame) : Prop :=
  (e_codec e = H264 \/ e_codec e = H265) /\ (mf_key f = true <-> has_key_slice (e_codec e) (mf_payload f)).

Definition arrives (e : MuxTrackEntry) (f : MuxFrame) (x : list byte * Z * Z * bool) : Prop :=
  let '(payload, pts, dts, key) := x in
  payload = sent_payload e f /\ pts = ticks (mf_pts_us f) /\
  dts = ticks (if is_video e then mf_dts_us f else mf_pts_us f) /\ (honest e f -> key = mf_key f).

(** *** That is what comes out *)

Lemma any_window_spec n (p : list byte -> bool) l :
  any_window n p l = true <-> exists a w b, l = a ++ w ++ b /\ length w = n /\ p w = true.
Proof.
  induction l as [|x l IH]; cbn [any_window].
  - destruct n as [|n]; cbn.
    + rewrite orb_false_r. split; [intros E; by exists [], [], []|].
      intros ([|? ?] & [|? ?] & [|? ?] & E & L & P); done.
    + split; [done|]. intros ([|? ?] & [|? ?] & [|? ?] & E & L & P); done.
  - destruct (Nat.ltb_spec (length (x :: l)) n) as [L|L].
    + split; [done|]. intros (a & w & b & E & Lw & _). rewrite E, !length_app in L. lia.
    + rewrite orb_true_iff, IH. split.
      * intros [P|(a & w & b & -> & Lw & P)]; [|by exists (x :: a), w, b].
        exists [], (take n (x :: l)), (drop n (x :: l)). cbn [app]. rewrite take_drop.
        split_and!; [done|rewrite length_take; lia|done].
      * intros ([|y a] & w & b & E & Lw & P).
        -- left. cbn [app] in E. rewrite E, take_app_length' by done. done.
        -- right. injection E as -> ->. by exists a, w, b.
Qed.

Lemma four_bytes (w : list byte) n : length w = S n -> exists b, w = take n w ++ [b] /\ at_ w n = byte_val b.
Proof.
  intros L. destruct (drop n w) as [|b [|? ?]] eqn:D; apply (f_equal length) in D as Ld; rewrite length_drop in Ld;
    cbn in Ld; [lia| |lia].
  exists b. rewrite <- D, take_drop. split; [done|]. rewrite <- (take_drop n w), D at 1. unfold at_.
  rewrite app_nth2 by (rewrite length_take; lia). by rewrite length_take, Nat.min_l, Nat.sub_diag by lia.
Qed.

Lemma keyframe_payload_spec c data :
  c = H264 \/ c = H265 -> is_keyframe_payload data c = true <-> has_key_slice c data.
Proof.
  intros C. unfold is_keyframe_payload, has_key_slice. destruct C as [-> | ->].
  - rewrite orb_true_iff, !any_window_spec. split.
    + intros [(a & w & b & -> & L & P)|(a & w & b & -> & L & P)]; apply andb_true_iff in P as [P1 P2];
        apply bool_decide_eq_true in P1; apply Z.eqb_eq in P2;
        destruct (four_bytes _ _ L) as (x & E & Ex); rewrite P1 in E; rewrite Ex in P2; subst w;
        change 0x1F with (Z.ones 5) in P2; rewrite Z.land_ones in P2 by lia.
      * exists a, x, b. by rewrite <- app_assoc.
      * exists (a ++ [x00]), x, b. split; [|done]. by rewrite <- !app_assoc.
    + intros (a & x & b & -> & M). left. exists a, [x00; x00; x01; x], b. split_and!; [done..|].
      cbn. change 0x1F with (Z.ones 5). unfold at_. cbn. rewrite Z.land_ones by lia. by apply Z.eqb_eq.
  - rewrite any_window_spec. split.
    + intros (a & w & b & -> & L & P). apply andb_true_iff in P as [P1 P2]. apply bool_decide_eq_true in P1.
      destruct (four_bytes _ _ L) as (x & E & Ex). rewrite P1 in E. rewrite Ex in P2. subst w.
      exists a, x, b. split; [by rewrite <- app_assoc|].
      change 0x3F with (Z.ones 6) in P2. rewrite Z.land_ones, Z.shiftr_div_pow2 in P2 by lia.
      apply andb_true_iff in P2 as [P2 P3]. split; [by apply Z.leb_le|by apply Z.leb_le].
    + intros (a & x & b & -> & M). exists a, [x00; x00; x00; x01; x], b. split_and!; [done..|].
      unfold at_. cbn [nth take]. rewrite bool_decide_true by done. cbn [andb].
      change 0x3F with (Z.ones 6). rewrite Z.land_ones, Z.shiftr_div_pow2 by lia.
      change (2 ^ 1) with 2. change (2 ^ 6) with 64. apply andb_true_iff. split; apply Z.leb_le; lia.
Qed.

Lemma has_key_slice_app c pre data : has_key_slice c data -> has_key_slice c (pre ++ data).
Proof.
  unfold has_key_slice. destruct c; try done; intros (a & b & rest & -> & M); exists (pre ++ a), b, rest;
    by rewrite <- app_assoc.
Qed.
(** The delimiter in front of a payload shows no key slice. *)
Lemma delimiter_no_key c data :
  c = H264 \/ c = H265 -> has_key_slice c (annexb [delimiter c] ++ data) -> has_key_slice c data.
Proof.
  intros [-> | ->]; cbn; intros (a & b & rest & E & M).
  - do 6 (destruct a as [|? a]; cbn in E;
      [solve [simplify_eq|simplify_eq; by vm_compute in M]|injection E as _ E]). by exists a, b, rest.
  - do 7 (destruct a as [|? a]; cbn in E;
      [solve [simplify_eq|simplify_eq; exfalso; vm_compute in M; destruct M as [_ M]; by apply M]|injection E as _ E]). by exists a, b, rest.
Qed.

Lemma annexb_prefix units : nal_prefix units = annexb units.
Proof. done. Qed.

Lemma due_sent e f : carried e -> frame_ok e f -> due_payload e f = sent_payload e f.
Proof.
  intros K (_ & _ & _ & _ & A). unfold due_payload, sent_payload, ts_payload.
  destruct (carried_kind e K) as [_ NV]. pose proof (resolved_kind _ _ K) as [Kd _].
  assert (V : h26x (e_codec e) = true -> is_video e = true).
  { intros H. unfold is_video. apply bool_decide_eq_true. unfold carried, desc_of in K.
    destruct (e_codec e); try discriminate H; vm_compute in K; by injection K. }
  destruct (e_codec e); cbn [h26x] in *; try (rewrite bool_decide_false by done); try rewrite V by done; try done.
  - unfold annexb. cbn [map concat delimiter]. rewrite <- !app_assoc. unfold prepend_h264_params.
    destruct (mf_key f); [|done]. by destruct (e_extradata e).
  - unfold annexb. cbn [map concat delimiter]. rewrite <- !app_assoc. unfold prepend_h265_params.
    destruct (mf_key f); [|done]. by destruct (e_extradata e).
  - unfold annexb. cbn [map concat delimiter]. rewrite <- !app_assoc. unfold prepend_h266_params.
    destruct (mf_key f); [|done]. by destruct (e_extradata e).
Qed.

Lemma due_arrives e f : carried e -> frame_ok e f -> arrives e f (due e f).
Proof.
  intros K Ok. pose proof Ok as (_ & Bp & Bd & _). unfold due, arrives. rewrite (due_sent e f K Ok).
  split; [done|]. split; [by apply us_to_90k_ticks|]. split; [by destruct (is_video e); apply us_to_90k_ticks|].
  intros [C Hk].
  assert (V : is_video e = true).
  { unfold is_video. apply bool_decide_eq_true. unfold carried, desc_of in K.
    destruct C as [C|C]; rewrite C in K; vm_compute in K; by injection K. }
  rewrite V. cbn [andb]. apply eq_bool_prop_intro. rewrite !Is_true_true, keyframe_payload_spec by done.
  unfold sent_payload. assert (h26x (e_codec e) = true) as -> by (destruct C as [-> | ->]; done).
  destruct (mf_key f) eqn:Ek.
  - split; [done|]. intros _. by apply has_key_slice_app, Hk.
  - split; [|done]. intros H. apply Hk. by apply delimiter_no_key.
Qed.

(** [C4] Whatever a muxer with its tables in front is given comes out at the other end: for
    any cut of its bytes into pieces, and with tables written again anywhere, a fresh demuxer
    reports no diagnostic, and for each track exactly its frames, in order and none twice,
    each with both times on the clock of 90 kHz and its payload: an H.264, H.265 or H.266
    frame behind its access unit delimiter and, when it is a key frame, the parameter sets
    of the track, every other frame as it was. The key flag of an H.264 or H.265 frame is its
    own, when the frame is marked honestly: as a key frame exactly when its payload shows a
    random access slice (for H.265 behind a start code of four bytes). *)
Theorem ts_roundtrip m steps segs :
  mux_ok m -> Forall (step_ok m) steps -> concat segs = concat (mux_run m (Tables :: steps)).2 ->
  quiet (run_ts segs) /\
  forall i e, m_tracks m !! i = Some e ->
    Forall2 (arrives e) (pushed (e_track_id e) steps) (frames_of (1 + Z.of_nat i) (run_ts segs)).
Proof.
  intros Ok F E. destruct (frames_arrive m steps segs Ok F E) as [Q Fr]. split; [exact Q|].
  intros i e Ei. rewrite (Fr i e Ei). destruct Ok as (Oe & _). eapply Forall_lookup in Oe; [|exact Ei].
  destruct Oe as [K _]. apply list_elem_of_lookup_2 in Ei. clear -F K Ei.
  induction F as [|s steps Fs F IH]; [constructor|]. unfold pushed. cbn [omap list_omap].
  destruct s as [|f]; cbn [frame_for]; [exact IH|].
  destruct (Z.eqb_spec (mf_track_id f) (e_track_id e)) as [Et|Et]; [|exact IH].
  cbn [map]. constructor; [|exact IH]. apply due_arrives; [done|]. by apply (proj1 (Forall_forall _ _) Fs e Ei).
Qed.

(** ** Muxers made by [muxer_new] *)

Definition count_kind (k : MediaKind) (l : list TrackInfo) : Z :=
  Z.of_nat (length (List.filter (fun t => bool_decide (media_kind t = k)) l)).

Lemma count_kind_cons k t l :
  count_kind k (t :: l) = (if bool_decide (media_kind t = k) then 1 else 0) + count_kind k l.
Proof. unfold count_kind. cbn [List.filter]. destruct (bool_decide _); cbn [length]; lia. Qed.

Lemma count_kind_nonneg k l : 0 <= count_kind k l.
Proof. unfold count_kind. lia. Qed.

Definition pid_between (vp ap : Z) (e : MuxTrackEntry) : Prop :=
  vp <= e_pid e < 0x110 \/ ap <= e_pid e < PMT_PID.

Lemma pid_fresh vp ap p es :
  Forall (pid_between vp ap) es -> ~ (vp <= p < 0x110) -> ~ (ap <= p < PMT_PID) -> p ∉ map e_pid es.
Proof.
  intros F N1 N2 E. apply list_elem_of_fmap in E as (e & -> & E). eapply Forall_forall in F; [|exact E].
  unfold pid_between in F. tauto.
Qed.

(** The PIDs of video tracks count up to those of audio tracks. *)
Lemma entries_pids vp ap vi ai l :
  0 < vp -> vp + count_kind Video l <= 0x110 -> 0x110 <= ap -> ap + count_kind Audio l <= PMT_PID ->
  let es := entries_of vp ap vi ai l in Forall (pid_between vp ap) es /\ NoDup (map e_pid es).
Proof.
  unfold PMT_PID. revert vp ap vi ai. induction l as [|t l IH]; intros vp ap vi ai V Vb A Ab; cbn [entries_of].
  { split; constructor. }
  rewrite count_kind_cons in Vb, Ab. pose proof (count_kind_nonneg Video l). pose proof (count_kind_nonneg Audio l).
  destruct (media_kind t); cbv [bool_decide decide_rel] in Vb, Ab; cbn in Vb, Ab.
  - destruct (IH (vp + 1) ap (wrap_u 8 (vi + 1)) ai) as [F N]; [lia..|]. rewrite wrap_u_small by (unfold in_u; lia).
    split; constructor; [left; cbn; unfold PMT_PID; lia| | |done].
    + eapply Forall_impl; [exact F|]. unfold pid_between, PMT_PID. intros e. lia.
    + apply (pid_fresh _ _ _ _ F); cbn; unfold PMT_PID; lia.
  - destruct (IH vp (ap + 1) vi (wrap_u 8 (ai + 1))) as [F N]; [lia..|]. rewrite wrap_u_small by (unfold in_u; lia).
    split; constructor; [right; cbn; unfold PMT_PID; lia| | |done].
    + eapply Forall_impl; [exact F|]. unfold pid_between, PMT_PID. intros e. lia.
    + apply (pid_fresh _ _ _ _ F); cbn; unfold PMT_PID; lia.
  - apply IH; lia.
  - apply IH; lia.
Qed.

Lemma insert_track_perm t l : insert_track t l ≡ₚ t :: l.
Proof. induction l as [|x l IH]; cbn [insert_track]; [done|]. destruct (track_le t x); [done|]. by rewrite IH, Permutation_swap. Qed.

Lemma sort_tracks_perm l : sort_tracks l ≡ₚ l.
Proof. unfold sort_tracks. induction l as [|t l IH]; cbn [foldr]; [done|]. by rewrite insert_track_perm, IH. Qed.

(** What an entry keeps of its track. *)
Lemma entries_of_tracks (P : TrackInfo -> Prop) vp ap vi ai l :
  Forall (fun t => (media_kind t = Video \/ media_kind t = Audio) /\ P t) l ->
  let es := entries_of vp ap vi ai l in
  map e_track_id es = map track_id l /\ length es = length l /\
  Forall (fun e => e_cc e = 0 /\ exists t, P t /\ e_codec e = codec t /\ e_media_kind e = media_kind t) es.
Proof.
  intros F. revert vp ap vi ai. induction F as [|t l [[K|K] Pt] F IH]; intros vp ap vi ai; cbn [entries_of]; [done| |];
    rewrite K.
  - destruct (IH (wrap_u 16 (vp + 1)) ap (wrap_u 8 (vi + 1)) ai) as (E1 & E2 & E3). cbn. rewrite E1, E2.
    split_and!; [done..|]. constructor; [|done]. split; [done|]. by exists t.
  - destruct (IH vp (wrap_u 16 (ap + 1)) vi (wrap_u 8 (ai + 1))) as (E1 & E2 & E3). cbn. rewrite E1, E2.
    split_and!; [done..|]. constructor; [|done]. split; [done|]. by exists t.
Qed.

(** A codec that the tables can name, with its kind. *)
Definition codec_carried (t : TrackInfo) : Prop :=
  resolve_stream (stream_type_for_codec (codec t)) (registration_descriptor (codec t))
    (length (registration_descriptor (codec t))) = Some (codec t, media_kind t, false).

Lemma length_entries es : (length (concat (map pmt_entry es)) <= 11 * length es)%nat.
Proof.
  induction es as [|e es IH]; cbn [map concat length]; [done|]. rewrite length_app, length_pmt_entry.
  pose proof (desc_short e). lia.
Qed.

Lemma count_kind_perm k l l' : l ≡ₚ l' -> count_kind k l = count_kind k l'.
Proof.
  unfold count_kind. induction 1 as [|x l l' _ IH|x y l|l1 l2 l3 _ IH1 _ IH2]; [done| | |congruence];
    cbn [List.filter]; repeat destruct (bool_decide _); cbn [length]; lia.
Qed.

(** With the usual PIDs: sixteen video tracks, and 371 tracks in all. *)
Lemma default_mux_ok tracks :
  Forall codec_carried tracks -> NoDup (map track_id tracks) -> count_kind Video tracks <= 16 ->
  (length tracks <= 371)%nat -> mux_ok (muxer_new mux_config_default tracks).
Proof.
  intros F N V L.
  assert (List.filter muxable tracks = tracks) as Em.
  { clear -F. induction F as [|t tracks K F IH]; [done|]. cbn [List.filter].
    replace (muxable t) with true; [by rewrite IH|]. symmetry. apply bool_decide_eq_true.
    by destruct (resolved_kind _ _ K) as [[-> | ->] _]; [left|right]. }
  unfold muxer_new. rewrite Em. pose proof (sort_tracks_perm tracks) as Pm. set (l := sort_tracks tracks) in *.
  assert (Forall (fun t => (media_kind t = Video \/ media_kind t = Audio) /\ codec_carried t) l) as Fl.
  { rewrite Pm. eapply Forall_impl; [exact F|]. intros t K. split; [apply (resolved_kind _ _ K)|done]. }
  destruct (entries_of_tracks codec_carried (video_pid_base mux_config_default) (audio_pid_base mux_config_default)
              0xE0 0xC0 l Fl) as (E1 & E2 & E3).
  assert (length l = length tracks) as Ll by by rewrite Pm.
  assert (count_kind Audio l <= Z.of_nat (length l)) as Ca.
  { unfold count_kind. clear. induction l as [|t l IH]; cbn [List.filter]; [done|]. destruct (bool_decide _); cbn [length]; lia. }
  destruct (entries_pids (video_pid_base mux_config_default) (audio_pid_base mux_config_default) 0xE0 0xC0 l) as [Fp Np].
  { done. }
  { rewrite (count_kind_perm _ _ _ Pm). cbn. lia. }
  { done. }
  { unfold PMT_PID. cbn. lia. }
  set (es := entries_of _ _ _ _ l) in *. unfold mux_ok. rewrite length_pmt_body. cbn [m_tracks pat_cc pmt_cc].
  pose proof (length_entries es). split_and!; try done.
  - apply Forall_lookup. intros i e E. eapply Forall_lookup in Fp; [|exact E]. eapply Forall_lookup in E3; [|exact E].
    destruct E3 as (Cc & t & K & C & Kd). unfold pid_between, PMT_PID in Fp. cbn in Fp.
    unfold entry_ok, carried, desc_of, pid_ok, cc_ok, PMT_PID. rewrite C, Kd, Cc. split_and!; try lia. exact K.
  - rewrite E1. by rewrite Pm.
  - lia.
Qed.

(** ** Examples *)

Definition sample_sps : list byte := [x67; x64; x00; x1f; xac].
Definition sample_pps : list byte := [x68; xee; x3c; x80].

(** H.264 with its parameter sets, AAC at 44.1 kHz, and G.711. *)
Definition sample_tracks : list TrackInfo :=
  [mk_track 2 Audio AAC 44100 None None (ExAAC [x12; x10]) Ready;
   mk_track 1 Video H264 90000 None None (ExH264 [sample_sps] [sample_pps] None) Ready;
   mk_track 7 Audio G711A 8000 None None ExNone Ready].

Definition sample_frames : list MuxStep :=
  [Push (mk_mux_frame 1 40000 0 true (START_CODE ++ x65 :: replicate 500 x11));
   Push (mk_mux_frame 2 10000 10000 true (replicate 300 x21));
   Tables;
   Push (mk_mux_frame 7 20000 20000 false (replicate 160 xd5));
   Push (mk_mux_frame 9 20000 20000 false [x00]);
   Push (mk_mux_frame 1 80000 40000 false (START_CODE ++ x41 :: replicate 200 x22));
   Push (mk_mux_frame 2 33220 33220 true (replicate 10 x21))].

Definition sample_bytes : list byte :=
  concat (mux_run (muxer_new mux_config_default sample_tracks) (Tables :: sample_frames)).2.

Definition sample_cut : list (list byte) :=
  [take 1 sample_bytes; sub_ 1 500 sample_bytes; []; drop 501 sample_bytes].

(** The frames as they come out. *)
Definition sample_unit : list byte :=
  annexb [[x09; xf0]; sample_sps; sample_pps; x65 :: replicate 500 x11].

Lemma ts_roundtrip_witness :
  mux_ok (muxer_new mux_config_default sample_tracks) /\
  (exists k k', frames_of 2 (run_ts sample_cut) =
     [(replicate 300 x21, 900, 900, k); (replicate 10 x21, 2989, 2989, k')]) /\
  exists x, frames_of 1 (run_ts sample_cut) = [(sample_unit, 3600, 0, true); x].
Proof.
  assert (mux_ok (muxer_new mux_config_default sample_tracks)) as Ok.
  { apply default_mux_ok; [by repeat constructor| |by vm_compute|cbn; lia].
    repeat (apply NoDup_cons; split; [rewrite list_elem_of_In; cbn; lia|]). apply NoDup_nil_2. }
  assert (Forall (step_ok (muxer_new mux_config_default sample_tracks)) sample_frames) as F.
  { repeat (apply List.Forall_cons; [first [exact I|unfold step_ok; apply List.Forall_forall; intros e He Ei;
      vm_compute in He, Ei; repeat destruct He as [<-|He]; try discriminate Ei; try done;
      (split; [done|]; split; [by vm_compute|]; split; [by vm_compute|]; split; [by vm_compute|]); intros C;
      try discriminate C; exists [x12; x10], (mk_asc 2 4 2); by vm_compute]|]). apply List.Forall_nil. }
  destruct (ts_roundtrip _ _ sample_cut Ok F) as [_ Fr]; [by vm_compute|].
  split; [exact Ok|]. split.
  - pose proof (Fr 1%nat _ eq_refl) as F1. change (1 + Z.of_nat 1) with 2 in F1.
    destruct (frames_of 2 (run_ts sample_cut)) as [|[[[p1 t1] d1] k1] [|[[[p2 t2] d2] k2] [|x l]]];
      try (apply Forall2_length in F1; vm_compute in F1; discriminate F1).
    apply Forall2_cons in F1 as [(P1 & T1 & D1 & _) F1]. apply Forall2_cons in F1 as [(P2 & T2 & D2 & _) _].
    exists k1, k2. vm_compute in P1, T1, D1, P2, T2, D2. subst. vm_compute. reflexivity.
  - pose proof (Fr 0%nat _ eq_refl) as F0. change (1 + Z.of_nat 0) with 1 in F0.
    destruct (frames_of 1 (run_ts sample_cut)) as [|[[[p1 t1] d1] k1] [|x [|y l]]];
      try (apply Forall2_length in F0; vm_compute in F0; discriminate F0).
    apply Forall2_cons in F0 as [(P1 & T1 & D1 & K1) _]. exists x.
    rewrite K1; [|split; [by left|]; split; [intros _|reflexivity]].
    + vm_compute in P1, T1, D1. subst. vm_compute. reflexivity.
    + exists [x00], x65, (replicate 500 x11). split; vm_compute; reflexivity.
Defined.

(** The seventeenth video track takes the PID of the first audio track. *)
Example pids_collide :
  let tracks := mk_track 1 Audio AAC 44100 None None ExNone Ready
                :: map (fun i => mk_track (Z.of_nat i) Video H264 90000 None None ExNone Ready) (seq 2 17) in
  count_occ Z.eq_dec (map e_pid (m_tracks (muxer_new mux_config_default tracks))) 0x110 = 2%nat.
Proof. by vm_compute. Qed.

(** Around the end of the clock a frame out of order is put a whole turn late: of three frames
    at 1000 ticks before, 500 after and 500 before the end, the last comes out at [2^34 - 500]. *)
Example reordered_frame_jumps :
  let t := demux_track_new 0x100 1 H264 Video false in
  let t := unwrap_clock (2 ^ 33 - 500) (unwrap_clock 500 (unwrap_clock (2 ^ 33 - 1000) t)) in
  2 ^ 33 - 500 + pts_wrap_offset t = 2 ^ 34 - 500.
Proof. by vm_compute. Qed.

(** An IDR frame behind a start code of three bytes is a key frame of H.264, not of H.265; one
    of H.266 never is. *)
Example key_frames_missed :
  is_keyframe_payload [x00; x00; x01; x65] H264 = true /\
  is_keyframe_payload [x00; x00; x01; x26; x01] H265 = false /\
  is_keyframe_payload (START_CODE ++ [x00; x39]) H266 = false /\
  h26x_nalu_is_random_access H265 [x26; x01] = true.
Proof. by vm_compute. Qed.
