(* ===== verification/Ehome.v ===== *)
(** * The Ehome stream format

    Models [EhomeDecoder] of [crates/foundation/cheetah-codec/src/rtp.rs]: a stream of
    packets with a four-byte header, which starts with an optional block of 256 bytes and
    two handshake packets. The SSRC is a string of the characters U+0000 to U+00FF, given
    by their bytes. Indexing the codec packet out of its bounds panics: that is [None]. *)
From Stdlib Require Import Strings.Byte Strings.String.
From S2P Require Import Prelude RtmpBytes Rtp.

Record EhomeCodecInfo : Set := mk_codec_info {
  codec_payload_type : string;
  video_codec : option string;
  audio_codec : option string;
  channels : Z;
  sample_bit : Z;
  sample_rate : Z
}.

Inductive EhomeOutput : Set :=
| HandshakeSsrc (ssrc : list byte)
| HandshakeCodec (codec : EhomeCodecInfo)
| MediaPayload (media : list byte).

Record EhomeDecoder : Set := mk_decoder {
  packet_seq : Z;
  ssrc_seen : option (list byte);
  codec_info : option EhomeCodecInfo;
  is_ehome2 : bool;
  first_packet : bool
}.

Definition decoder_new : EhomeDecoder := mk_decoder 0 None None false true.

(** [u16::from_le_bytes] of two bytes. *)
Definition le16 (inner : list byte) (i : nat) : Z := be_val (rev (sub_ i 2 inner)).
Definition be16 (inner : list byte) (i : nat) : Z := be_val (sub_ i 2 inner).

(** One of these values in either byte order. *)
Definition is_either (inner : list byte) (i : nat) (values : list Z) : bool :=
  existsb (fun v => (le16 inner i =? v) || (be16 inner i =? v)) values.

(** The codec handshake of a payload of 20 bytes at least. *)
Definition parse_codec (inner : list byte) : option EhomeCodecInfo :=
  if (length inner <? 22)%nat then None else
  let le := le16 inner 20 in
  let be := be16 inner 20 in
  Some (mk_codec_info
    (if at_ inner 12 =? 2 then "ps" else "nalu")
    (if is_either inner 14 [0x0100; 0x0001] then Some "h264"
     else if is_either inner 14 [0x0005; 0x0500] then Some "h265" else None)%string
    (if is_either inner 16 [0x7111; 0x1171] then Some "g711a"
     else if is_either inner 16 [0x7110; 0x1071] then Some "g711u"
     else if is_either inner 16 [0x2001; 0x0120] then Some "aac" else None)%string
    (at_ inner 18) (at_ inner 19)
    (if (0 <? le) && (le <? 96000) then le else be)).

(** The bytes before the first zero. *)
Fixpoint ssrc_bytes (inner : list byte) : list byte :=
  match inner with
  | [] => []
  | b :: inner => if bool_decide (b = x00) then [] else b :: ssrc_bytes inner
  end.

Definition handle_packet (inner : list byte) (d : EhomeDecoder) :
    option (EhomeDecoder * list EhomeOutput) :=
  if packet_seq d =? 0 then
    Some (mk_decoder (packet_seq d + 1) (Some (ssrc_bytes inner)) (codec_info d) (is_ehome2 d)
            (first_packet d), [HandshakeSsrc (ssrc_bytes inner)])
  else if packet_seq d =? 1 then
    if (20 <=? length inner)%nat then
      match parse_codec inner with
      | None => None
      | Some codec =>
          Some (mk_decoder (packet_seq d + 1) (ssrc_seen d) (Some codec) (is_ehome2 d)
                  (first_packet d), [HandshakeCodec codec])
      end
    else Some (mk_decoder (packet_seq d + 1) (ssrc_seen d) (codec_info d) (is_ehome2 d)
                 (first_packet d), [])
  else Some (d, if (4 <? length inner)%nat then [MediaPayload (drop 4 inner)] else []).

(** [while buf.len() >= 4]: every turn takes four bytes at least. *)
Fixpoint decode_loop (fuel : nat) (buf : list byte) (d : EhomeDecoder) :
    option (EhomeDecoder * list byte * list EhomeOutput) :=
  match fuel with
  | O => Some (d, buf, [])
  | S fuel =>
      if (length buf <? 4)%nat then Some (d, buf, []) else
      let total_len := (4 + Z.to_nat (be_val (sub_ 2 2 buf)))%nat in
      if (length buf <? total_len)%nat then Some (d, buf, []) else
      '(d, o1) ← handle_packet (sub_ 4 (total_len - 4) buf) d;
      '(d, buf, o2) ← decode_loop fuel (drop total_len buf) d;
      Some (d, buf, o1 ++ o2)
  end.

Definition set_first (d : EhomeDecoder) (ehome2 : bool) : EhomeDecoder :=
  mk_decoder (packet_seq d) (ssrc_seen d) (codec_info d) ehome2 false.

(** What is done about the first packet: [None] when more bytes are needed. *)
Definition first_block (buf : list byte) (d : EhomeDecoder) : option (list byte * EhomeDecoder) :=
  if first_packet d then
    if (length buf <? 3)%nat then
      if (negb (length buf =? 0)%nat && negb (at_ buf 0 =? 0x01))
         || ((2 <=? length buf)%nat && negb (at_ buf 1 =? 0x00))
      then Some (buf, set_first d (is_ehome2 d))
      else None
    else if (at_ buf 0 =? 0x01) && (at_ buf 1 =? 0x00)
            && ((at_ buf 2 =? 0x01) || (at_ buf 2 =? 0x02)) then
      if (length buf <? 256)%nat then None else Some (drop 256 buf, set_first d true)
    else Some (buf, set_first d (is_ehome2 d))
  else Some (buf, d).

(** [EhomeDecoder::decode]: the decoder, what is left in the buffer, and the outputs. *)
Definition decode (buf : list byte) (d : EhomeDecoder) :
    option (EhomeDecoder * list byte * list EhomeOutput) :=
  match first_block buf d with
  | None => Some (d, buf, [])
  | Some (buf, d) => decode_loop (length buf) buf d
  end.

(** A connection: each segment is put into the buffer and decoded. *)
Fixpoint receive (segments : list (list byte)) (buf : list byte) (d : EhomeDecoder) :
    option (EhomeDecoder * list byte * list EhomeOutput) :=
  match segments with
  | [] => Some (d, buf, [])
  | s :: segments =>
      '(d, buf, o1) ← decode (buf ++ s) d;
      '(d, buf, o2) ← receive segments buf d;
      Some (d, buf, o1 ++ o2)
  end.

(** ** Segmentation *)

(** The first packet of a buffer and what follows it. *)
Definition cut (buf : list byte) : option (list byte * list byte) :=
  if (length buf <? 4)%nat then None else
  let total_len := (4 + Z.to_nat (be_val (sub_ 2 2 buf)))%nat in
  if (length buf <? total_len)%nat then None else
  Some (sub_ 4 (total_len - 4) buf, drop total_len buf).

(** One packet, then the others. *)
Definition after (r : option (EhomeDecoder * list EhomeOutput))
    (k : EhomeDecoder -> option (EhomeDecoder * list byte * list EhomeOutput)) :
    option (EhomeDecoder * list byte * list EhomeOutput) :=
  '(d, o1) ← r; '(d, buf, o2) ← k d; Some (d, buf, o1 ++ o2).

Lemma decode_turn (fuel : nat) buf d :
  decode_loop (S fuel) buf d
  = match cut buf with
    | None => Some (d, buf, [])
    | Some (inner, rest) => after (handle_packet inner d) (decode_loop fuel rest)
    end.
Proof.
  unfold cut. cbn [decode_loop]. destruct (length buf <? 4)%nat; [done|].
  by destruct (length buf <? _)%nat.
Qed.

Lemma cut_length buf inner rest : cut buf = Some (inner, rest) -> (length rest < length buf)%nat.
Proof.
  unfold cut. destruct (Nat.ltb_spec (length buf) 4); [done|].
  destruct (length buf <? _)%nat; [done|]. intros [= _ <-]. rewrite length_drop. lia.
Qed.

Lemma sub_app_inside (buf s : list byte) i k :
  (i + k <= length buf)%nat -> sub_ i k (buf ++ s) = sub_ i k buf.
Proof.
  intros H. unfold sub_. rewrite drop_app_le by lia. apply take_app_le. rewrite length_drop. lia.
Qed.

Lemma cut_app buf s inner rest :
  cut buf = Some (inner, rest) -> cut (buf ++ s) = Some (inner, rest ++ s).
Proof.
  unfold cut. destruct (Nat.ltb_spec (length buf) 4); [done|].
  rewrite sub_app_inside by lia. set (n := (4 + Z.to_nat (be_val (sub_ 2 2 buf)))%nat).
  destruct (Nat.ltb_spec (length buf) n); [done|]. intros [= <- <-].
  rewrite length_app, !(proj2 (Nat.ltb_ge _ _)) by lia.
  rewrite sub_app_inside, drop_app_le by (subst n; lia). done.
Qed.

Lemma decode_loop_fuel (f1 f2 : nat) buf d :
  (length buf <= f1)%nat -> (length buf <= f2)%nat -> decode_loop f1 buf d = decode_loop f2 buf d.
Proof.
  revert f2 buf d. induction f1 as [|f1 IH]; intros f2 buf d L1 L2.
  { destruct buf; [|cbn in L1; lia]. by destruct f2. }
  destruct f2 as [|f2]; [destruct buf; [done|cbn in L2; lia]|]. rewrite !decode_turn.
  destruct (cut buf) as [[inner rest]|] eqn:E; [|done]. apply cut_length in E.
  unfold after. destruct (handle_packet inner d) as [[d1 o1]|]; [|done]. cbn.
  by rewrite (IH f2) by lia.
Qed.

Lemma decode_loop_length (fuel : nat) buf d d1 b1 o1 :
  decode_loop fuel buf d = Some (d1, b1, o1) -> (length b1 <= length buf)%nat.
Proof.
  revert buf d d1 b1 o1. induction fuel as [|fuel IH]; intros buf d d1 b1 o1.
  { intros [= <- <- <-]. lia. }
  rewrite decode_turn. destruct (cut buf) as [[inner rest]|] eqn:E; [|intros [= <- <- <-]; lia].
  apply cut_length in E. unfold after. destruct (handle_packet inner d) as [[d' o']|]; [|done]. cbn.
  destruct (decode_loop fuel rest d') as [[[d'' b''] o'']|] eqn:E2; [|done]. intros [= <- <- <-].
  apply IH in E2. lia.
Qed.

(** Decoding goes on where it stopped. *)
Definition resume (r : option (EhomeDecoder * list byte * list EhomeOutput))
    (k : EhomeDecoder -> list byte -> option (EhomeDecoder * list byte * list EhomeOutput)) :
    option (EhomeDecoder * list byte * list EhomeOutput) :=
  '(d, buf, o1) ← r; '(d, buf, o2) ← k d buf; Some (d, buf, o1 ++ o2).

Lemma resume_ret d buf k : resume (Some (d, buf, [])) k = k d buf.
Proof. unfold resume. cbn. by destruct (k d buf) as [[[d' b'] o']|]. Qed.

(** More bytes behind the buffer do not change the packets before them. *)
Lemma decode_loop_app (fuel : nat) buf s d :
  (length (buf ++ s) <= fuel)%nat ->
  decode_loop fuel (buf ++ s) d
  = resume (decode_loop fuel buf d) (fun d buf => decode_loop fuel (buf ++ s) d).
Proof.
  revert buf d. induction fuel as [|fuel IH]; intros buf d L; [done|].
  rewrite (decode_turn fuel buf). destruct (cut buf) as [[inner rest]|] eqn:E.
  2: by rewrite resume_ret.
  pose proof (cut_length _ _ _ E) as Lr. rewrite decode_turn, (cut_app _ s _ _ E).
  unfold after. destruct (handle_packet inner d) as [[d1 o1]|]; [|done].
  rewrite length_app in L. cbn [mbind option_bind].
  rewrite IH by (rewrite length_app; lia).
  destruct (decode_loop fuel rest d1) as [[[d2 b2] o2]|] eqn:E2; [|done].
  apply decode_loop_length in E2. unfold resume. cbn [mbind option_bind].
  rewrite (decode_loop_fuel (S fuel) fuel) by (rewrite length_app; lia).
  destruct (decode_loop fuel (b2 ++ s) d2) as [[[d3 b3] o3]|]; [|done].
  cbn [mbind option_bind]. by rewrite app_assoc.
Qed.

(** The decision about the first packet does not depend on what comes later. *)
Lemma first_block_app buf s d buf1 d1 :
  first_block buf d = Some (buf1, d1) -> first_block (buf ++ s) d = Some (buf1 ++ s, d1).
Proof.
  unfold first_block. destruct (first_packet d); [|by intros [= <- <-]].
  destruct buf as [|a [|b [|c buf]]].
  - done.
  - cbn [length Nat.ltb Nat.leb Nat.eqb negb andb orb]. rewrite orb_false_r.
    change (at_ [a] 0) with (byte_val a). destruct (byte_val a =? 1) eqn:Ea; [done|]. cbn [negb].
    intros [= <- <-]. destruct s as [|b [|c s]]; cbn [app length Nat.ltb Nat.leb Nat.eqb negb andb];
      rewrite ?orb_false_r;
      change (at_ (a :: ?l) 0) with (byte_val a); by rewrite Ea.
  - cbn [length Nat.ltb Nat.leb Nat.eqb negb andb orb].
    change (at_ [a; b] 0) with (byte_val a). change (at_ [a; b] 1) with (byte_val b).
    destruct (negb (byte_val a =? 1) || negb (byte_val b =? 0)) eqn:Eab; [|done].
    intros [= <- <-]. destruct s as [|c s]; cbn [app length Nat.ltb Nat.leb Nat.eqb negb andb];
      change (at_ (a :: b :: ?l) 0) with (byte_val a);
      change (at_ (a :: b :: ?l) 1) with (byte_val b); [by rewrite Eab|].
    rewrite <- negb_andb in Eab. apply negb_true_iff in Eab. by rewrite Eab.
  - set (l := a :: b :: c :: buf). change (length l <? 3)%nat with false.
    change (length (l ++ s) <? 3)%nat with false. cbv iota.
    change (at_ (l ++ s) 0) with (at_ l 0). change (at_ (l ++ s) 1) with (at_ l 1).
    change (at_ (l ++ s) 2) with (at_ l 2).
    destruct ((at_ l 0 =? 1) && (at_ l 1 =? 0) && ((at_ l 2 =? 1) || (at_ l 2 =? 2)));
      [|by intros [= <- <-]].
    destruct (Nat.ltb_spec (length l) 256); [done|]. intros [= <- <-].
    rewrite length_app, (proj2 (Nat.ltb_ge _ _)) by lia. by rewrite drop_app_le by lia.
Qed.

Lemma first_block_done buf d buf1 d1 :
  first_block buf d = Some (buf1, d1) -> first_packet d1 = false.
Proof.
  unfold first_block. destruct (first_packet d) eqn:E; [|by intros [= <- <-]].
  repeat case_match; intros [= <- <-]; done.
Qed.

Lemma handle_packet_first inner d d1 o :
  handle_packet inner d = Some (d1, o) -> first_packet d1 = first_packet d.
Proof. unfold handle_packet. repeat case_match; by intros [= <- <-]. Qed.

Lemma decode_loop_first fuel buf d d1 b1 o1 :
  decode_loop fuel buf d = Some (d1, b1, o1) -> first_packet d1 = first_packet d.
Proof.
  revert buf d d1 b1 o1. induction fuel as [|fuel IH]; intros buf d d1 b1 o1.
  { by intros [= <- <- <-]. }
  rewrite decode_turn. destruct (cut buf) as [[inner rest]|]; [|by intros [= <- <- <-]].
  unfold after. destruct (handle_packet inner d) as [[d' o']|] eqn:E1; [|done]. cbn.
  destruct (decode_loop fuel rest d') as [[[d'' b''] o'']|] eqn:E2; [|done]. intros [= <- <- <-].
  rewrite (IH _ _ _ _ _ E2). by apply handle_packet_first in E1.
Qed.

Lemma decode_app buf s d :
  decode (buf ++ s) d = resume (decode buf d) (fun d buf => decode (buf ++ s) d).
Proof.
  unfold decode at 2. destruct (first_block buf d) as [[b1 d1]|] eqn:E; [|by rewrite resume_ret].
  unfold decode at 1. rewrite (first_block_app _ s _ _ _ E).
  rewrite decode_loop_app by done.
  rewrite (decode_loop_fuel (length (b1 ++ s)) (length b1)) by (rewrite ?length_app; lia).
  destruct (decode_loop (length b1) b1 d1) as [[[d2 b2] o2]|] eqn:E2; [|done].
  pose proof (decode_loop_length _ _ _ _ _ _ E2) as L.
  apply decode_loop_first in E2. rewrite (first_block_done _ _ _ _ E) in E2.
  unfold resume. cbn [mbind option_bind]. unfold decode, first_block. rewrite E2.
  by rewrite (decode_loop_fuel (length (b1 ++ s)) (length (b2 ++ s))) by (rewrite ?length_app; lia).
Qed.

(** How TCP cuts an Ehome stream does not matter: fed segment by segment, the decoder
    ends in the same state, with the same bytes left, the same outputs and the same panic
    as on the whole stream at once. *)
Theorem ehome_segmentation_free (segments : list (list byte)) (buf : list byte) (d : EhomeDecoder) :
  decode buf d = Some (d, buf, []) ->
  receive segments buf d = decode (buf ++ concat segments) d.
Proof.
  revert buf d. induction segments as [|s segments IH]; intros buf d H; cbn [receive concat].
  { by rewrite app_nil_r, H. }
  rewrite app_assoc, (decode_app (buf ++ s) (concat segments)). unfold resume.
  destruct (decode (buf ++ s) d) as [[[d1 b1] o1]|] eqn:E; [|done]. cbn [mbind option_bind].
  rewrite IH; [done|].
  pose proof (decode_app (buf ++ s) [] d) as A. rewrite app_nil_r, E in A. unfold resume in A.
  cbn [mbind option_bind] in A. rewrite app_nil_r in A.
  destruct (decode b1 d1) as [[[d2 b2] o2]|]; [|done]. cbn [mbind option_bind] in A.
  injection A as -> -> A. rewrite <- (app_nil_r o1) in A at 1. apply app_inv_head in A. by subst.
Qed.

Definition packet (inner : list byte) : list byte :=
  [x00; x00] ++ be_bytes 2 (Z.of_nat (length inner)) ++ inner.

Lemma ehome_segmentation_free_witness :
  let stream := packet [x31; x32; x00] ++ packet [x01] ++ packet [x00; x00; x00; x00; x55; x66] in
  decode [] decoder_new = Some (decoder_new, [], []) /\
  receive (map (fun b => [b]) stream) [] decoder_new
  = Some (mk_decoder 2 (Some [x31; x32]) None false false, [],
          [HandshakeSsrc [x31; x32]; MediaPayload [x55; x66]]).
Proof.
  set (stream := packet _ ++ _).
  assert (H : decode [] decoder_new = Some (decoder_new, [], [])) by reflexivity.
  split; [exact H|].
  rewrite (ehome_segmentation_free (map (fun b => [b]) stream) [] decoder_new H).
  vm_compute. reflexivity.
Defined.

(** A codec packet of 20 or 21 bytes passes the length check and is indexed past its end. *)
Example short_codec_packet_panics :
  receive [packet [x31; x00]; packet (repeat x00 20)] [] decoder_new = None.
Proof. by vm_compute. Qed.
