(* ===== verification/RtpReorder.v ===== *)
(** * RTP reordering

    Models [crates/foundation/cheetah-codec/src/rtp_reorder.rs]: the buffer that
    puts RTP packets back in sequence order with a bounded delay, and the
    unwrapper that extends 16-bit sequence numbers for statistics. Packets are of
    any type [T]. [u64] additions wrap, as in a release build.

    Also [crates/protocols/rtsp/core/src/core/seq_tracker.rs]: the tracker that classifies
    each 16-bit sequence number against the one before it, counts losses and wraps, and
    derives the extended sequence number of RTCP reports. Its counters are [u32] and [u64]
    and wrap too. *)
From stdpp Require Import sorting.
From S2P Require Import Prelude.

Definition SEQUENCE_PERIOD : Z := Z.shiftl 1 16.
Definition HALF_SEQUENCE_PERIOD : Z := Z.shiftl 1 15.

Record RtpReorderSettings : Set := mk_settings { max_packets : Z; max_delay_ms : Z }.
Definition settings_default : RtpReorderSettings := mk_settings 2 40.

(** [u64::saturating_sub]. *)
Definition saturating_sub (a b : Z) : Z := Z.max 0 (a - b).

(** The loop [for k in [-1, 1]]: the cycle whose candidate is closest to [exp]. *)
Definition closest_candidate (exp base : Z) : Z * Z :=
  fold_left (fun '(best_candidate, best_diff) k =>
    let candidate := base + k * SEQUENCE_PERIOD in
    let diff := Z.abs (candidate - exp) in
    if diff <? best_diff then (candidate, diff) else (best_candidate, best_diff))
    [-1; 1] (base, Z.abs (base - exp)).

(** ** The buffer *)

Record PendingPacket (T : Type) : Type := mk_pending {
  sequence_number : Z;
  arrival_ms : Z;
  packet : T
}.
Arguments mk_pending {T}.
Arguments sequence_number {T}.
Arguments arrival_ms {T}.
Arguments packet {T}.

Record RtpReorderBuffer (T : Type) : Type := mk_buffer {
  settings : RtpReorderSettings;
  expected_seq : option Z;
  pending : list (PendingPacket T)
}.
Arguments mk_buffer {T}.
Arguments settings {T}.
Arguments expected_seq {T}.
Arguments pending {T}.

Definition ABSOLUTE_PENDING_CAP : Z := 64.

Section buffer.
Context {T : Type}.
Implicit Types (b : RtpReorderBuffer T) (ps : list (PendingPacket T)).

Definition buffer_new (s : RtpReorderSettings) : RtpReorderBuffer T := mk_buffer s None [].

Definition set_expected (e : option Z) b : RtpReorderBuffer T :=
  mk_buffer (settings b) e (pending b).
Definition set_pending ps b : RtpReorderBuffer T :=
  mk_buffer (settings b) (expected_seq b) ps.

Definition extend_sequence b (raw : Z) : Z :=
  match expected_seq b with
  | None => raw
  | Some expected =>
      let base := expected / SEQUENCE_PERIOD * SEQUENCE_PERIOD + raw in
      let '(best_candidate, best_diff) := closest_candidate expected base in
      if HALF_SEQUENCE_PERIOD <=? best_diff then saturating_sub expected 1
      else if best_candidate <? expected then saturating_sub expected 1
      else wrap_u 64 best_candidate
  end.

(** [Vec::remove] of the first packet that satisfies [f]. *)
Fixpoint take_first (f : PendingPacket T -> bool) ps :
    option (PendingPacket T * list (PendingPacket T)) :=
  match ps with
  | [] => None
  | p :: ps => if f p then Some (p, ps)
               else match take_first f ps with
                    | Some (q, rest) => Some (q, p :: rest)
                    | None => None
                    end
  end.

Definition remove_pending (seq : Z) b : option (T * RtpReorderBuffer T) :=
  match take_first (fun p => sequence_number p =? seq) (pending b) with
  | Some (p, rest) => Some (packet p, set_pending rest b)
  | None => None
  end.

(** The [while let] of [drain_contiguous]; each turn takes a pending packet. *)
Fixpoint drain_loop (fuel : nat) (expected : Z) b (out : list T) :
    Z * RtpReorderBuffer T * list T :=
  match fuel with
  | O => (expected, b, out)
  | S fuel =>
      match remove_pending expected b with
      | Some (p, b) => drain_loop fuel (wrap_u 64 (expected + 1)) b (out ++ [p])
      | None => (expected, b, out)
      end
  end.

Definition drain_contiguous b (out : list T) : RtpReorderBuffer T * list T :=
  let expected := default 0 (expected_seq b) in
  let '(expected, b, out) := drain_loop (S (length (pending b))) expected b out in
  (set_expected (Some expected) b, out).

(** [min_by_key] over [enumerate]: the index of the first minimum. *)
Fixpoint min_by_distance (expected : Z) ps (i : nat) (best : option (nat * Z)) :
    option (nat * Z) :=
  match ps with
  | [] => best
  | p :: ps =>
      let d := wrap_u 64 (sequence_number p - expected) in
      let best := match best with
                  | None => Some (i, d)
                  | Some (j, dj) => if d <? dj then Some (i, d) else Some (j, dj)
                  end in
      min_by_distance expected ps (S i) best
  end.

Definition force_release_closest (expected : Z) b : RtpReorderBuffer T * list T :=
  match min_by_distance expected (pending b) 0 None with
  | None => (b, [])
  | Some (index, _) =>
      match pending b !! index with
      | None => (b, [])
      | Some first_pending =>
          let b := set_pending (delete index (pending b)) b in
          let first_seq := sequence_number first_pending in
          drain_contiguous (set_expected (Some (wrap_u 64 (first_seq + 1))) b)
            [packet first_pending]
      end
  end.

Definition push (sequence_number_ arrival : Z) (p : T) b : RtpReorderBuffer T * list T :=
  let seq := extend_sequence b sequence_number_ in
  match expected_seq b with
  | None => (set_expected (Some (wrap_u 64 (seq + 1))) b, [p])
  | Some expected =>
      if seq <? expected then (b, [])
      else if seq =? expected then
        drain_contiguous (set_expected (Some (wrap_u 64 (expected + 1))) b) [p]
      else
        let b := if existsb (fun q => sequence_number q =? seq) (pending b) then b
                 else set_pending (pending b ++ [mk_pending seq arrival p]) b in
        let len := Z.of_nat (length (pending b)) in
        if (0 <? max_packets (settings b)) && (max_packets (settings b) <? len) then
          force_release_closest expected b
        else if (0 <? max_delay_ms (settings b)) &&
                existsb (fun q => max_delay_ms (settings b)
                                  <=? saturating_sub arrival (arrival_ms q)) (pending b) then
          force_release_closest expected b
        else if ABSOLUTE_PENDING_CAP <? len then force_release_closest expected b
        else (b, [])
  end.

Definition reset b : RtpReorderBuffer T := mk_buffer (settings b) None [].
Definition pending_len b : nat := length (pending b).
End buffer.

(** ** The unwrapper *)

Record RtpSequenceUnwrapper : Set := mk_unwrapper { unw_expected : option Z; unw_max : option Z }.
Definition unwrapper_new : RtpSequenceUnwrapper := mk_unwrapper None None.

Definition extend (u : RtpSequenceUnwrapper) (raw : Z) : RtpSequenceUnwrapper * Z :=
  match unw_expected u with
  | None => (mk_unwrapper (Some (wrap_u 64 (raw + 1))) (Some raw), raw)
  | Some expected =>
      let base := expected / SEQUENCE_PERIOD * SEQUENCE_PERIOD + raw in
      let '(best, best_diff) := closest_candidate expected base in
      if HALF_SEQUENCE_PERIOD <=? best_diff then (u, saturating_sub expected 1)
      else if best <? expected then (u, saturating_sub expected 1)
      else
        let extended := wrap_u 64 best in
        let max := match unw_max u with
                   | None => Some extended
                   | Some m => if m <? extended then Some extended else Some m
                   end in
        (mk_unwrapper (Some (wrap_u 64 (extended + 1))) max, extended)
  end.

(** ** Extension of sequence numbers *)

Ltac periods := change SEQUENCE_PERIOD with 65536 in *; change HALF_SEQUENCE_PERIOD with 32768 in *.

(** Forward distance on the 16-bit circle. *)
Definition seq_ahead (expected raw : Z) : Z := (raw - expected) mod 65536.

Lemma closest_candidate_spec e raw :
  0 <= e -> in_u 16 raw ->
  let '(best, diff) := closest_candidate e (e / SEQUENCE_PERIOD * SEQUENCE_PERIOD + raw) in
  diff = Z.min (seq_ahead e raw) (65536 - seq_ahead e raw) /\
  (diff < 32768 -> best = if seq_ahead e raw <? 32768 then e + seq_ahead e raw
                          else e + seq_ahead e raw - 65536).
Proof.
  intros He Hr. unfold in_u in Hr. change (2 ^ 16) with 65536 in Hr. periods.
  unfold closest_candidate, seq_ahead. cbn [fold_left]. periods.
  set (base := e / 65536 * 65536 + raw).
  assert (Hb : base = e - e mod 65536 + raw) by (unfold base; zdm).
  assert (Hd : (raw - e) mod 65536 = (base - e) mod 65536).
  { rewrite Hb. replace (e - e mod 65536 + raw - e) with (raw - e mod 65536) by lia.
    by rewrite Zminus_mod_idemp_r. }
  rewrite Hd. pose proof (Z.mod_pos_bound e 65536).
  assert (-65536 < base - e < 65536) by lia. clearbody base.
  assert (Hm : (base - e) mod 65536 = base - e \/ (base - e) mod 65536 = base - e + 65536) by zdm.
  pose proof (Z.mod_pos_bound (base - e) 65536).
  zcases; split; intros; zcases; lia.
Qed.

(** ** Invariant *)

Section invariant.
Context {T : Type}.
Implicit Types (b : RtpReorderBuffer T) (ps : list (PendingPacket T)).

(** How many packets the buffer may hold between two calls. *)
Definition pending_limit (s : RtpReorderSettings) : Z :=
  if 0 <? max_packets s then Z.min (max_packets s) ABSOLUTE_PENDING_CAP else ABSOLUTE_PENDING_CAP.

(** The expected number stays far from the end of [u64]. *)
Definition expected_bound : Z := 2 ^ 63.

(** Pending packets are distinct, ahead of the expected number and within half
    a period of it. *)
Record window_wf (e : Z) ps : Prop := {
  ww_nodup : NoDup (sequence_number <$> ps);
  ww_range : Forall (fun p => e < sequence_number p < e + 32768) ps
}.

Definition buffer_wf b : Prop :=
  Z.of_nat (length (pending b)) <= pending_limit (settings b) /\
  match expected_seq b with
  | None => pending b = []
  | Some e => 1 <= e /\ window_wf e (pending b)
  end.

Lemma extend_sequence_spec b e raw :
  expected_seq b = Some e -> 1 <= e <= expected_bound -> in_u 16 raw ->
  extend_sequence b raw = if seq_ahead e raw <? 32768 then e + seq_ahead e raw else e - 1.
Proof.
  intros He Hb Hr. unfold extend_sequence. rewrite He.
  pose proof (closest_candidate_spec e raw ltac:(lia) Hr) as C.
  destruct (closest_candidate _ _) as [best diff]. destruct C as [C1 C2]. periods.
  assert (0 <= seq_ahead e raw < 65536) by (apply Z.mod_pos_bound; lia).
  unfold saturating_sub, expected_bound in *.
  destruct (Z.leb_spec 32768 diff); [zcases; lia|]. rewrite C2 by lia.
  destruct (Z.ltb_spec (seq_ahead e raw) 32768).
  - destruct (Z.ltb_spec (e + seq_ahead e raw) e); [lia|].
    apply wrap_u_small. unfold in_u. change (2 ^ 63) with 9223372036854775808 in Hb.
    change (2 ^ 64) with 18446744073709551616. lia.
  - destruct (Z.ltb_spec (e + seq_ahead e raw - 65536) e); lia.
Qed.

Lemma take_first_some f ps q rest :
  take_first f ps = Some (q, rest) -> f q = true /\ ps ≡ₚ q :: rest.
Proof.
  revert rest. induction ps as [|p ps IH]; intros rest; cbn; [done|].
  destruct (f p) eqn:E; [by intros [= <- <-]|].
  destruct (take_first f ps) as [[q' rest']|]; [|done]. intros [= <- <-].
  destruct (IH _ eq_refl) as [Hq Hp]. split; [done|]. rewrite Hp. apply perm_swap.
Qed.

Lemma take_first_none f ps : take_first f ps = None -> Forall (fun p => f p = false) ps.
Proof.
  induction ps as [|p ps IH]; cbn; [done|]. destruct (f p) eqn:E; [done|].
  destruct (take_first f ps) as [[q rest]|]; [done|]. auto.
Qed.

(** Draining: the packets it takes are the consecutive numbers from [e], what it
    leaves is ahead of the next expected number. *)
Lemma drain_loop_spec fuel e b out :
  (length (pending b) < fuel)%nat -> 0 <= e -> e + Z.of_nat (length (pending b)) < 2 ^ 64 ->
  NoDup (sequence_number <$> pending b) -> Forall (fun p => e <= sequence_number p) (pending b) ->
  exists taken rest,
    drain_loop fuel e b out
    = (e + Z.of_nat (length taken), set_pending rest b, out ++ (packet <$> taken)) /\
    pending b ≡ₚ taken ++ rest /\
    sequence_number <$> taken = seqZ e (Z.of_nat (length taken)) /\
    Forall (fun p => e + Z.of_nat (length taken) < sequence_number p) rest.
Proof.
  revert e b out. induction fuel as [|fuel IH]; intros e b out Hf He Hb Hnd Hge; [lia|].
  cbn [drain_loop]. unfold remove_pending.
  destruct (take_first _ (pending b)) as [[q rest]|] eqn:Et.
  - apply take_first_some in Et as [Hq Hp]. apply Z.eqb_eq in Hq.
    rewrite Hp in Hnd, Hge. cbn in Hnd. apply NoDup_cons in Hnd as [Hni Hnd].
    apply Forall_cons in Hge as [_ Hge]. apply Permutation_length in Hp as Hl. cbn in Hl.
    rewrite wrap_u_small by (unfold in_u; lia).
    destruct (IH (e + 1) (set_pending rest b) (out ++ [packet q])) as (tk & rs & E & P & S & F).
    + cbn. lia.
    + lia.
    + cbn. lia.
    + done.
    + cbn. apply Forall_forall. intros p Hin.
      rewrite Forall_forall in Hge. specialize (Hge p Hin).
      assert (sequence_number p <> e); [|lia].
      intros Heq. apply Hni. rewrite Hq, <- Heq. by apply list_elem_of_fmap_2.
    + exists (q :: tk), rs. rewrite E. cbn [pending set_pending] in *.
      assert (El : e + Z.of_nat (length (q :: tk)) = e + 1 + Z.of_nat (length tk)) by (cbn [length]; lia).
      rewrite El. split; [by rewrite <- app_assoc|]. split; [by rewrite Hp, P|]. split; [|done].
      cbn [fmap list_fmap length]. rewrite Nat2Z.inj_succ, seqZ_cons by lia.
      rewrite Hq, Z.pred_succ. f_equal. rewrite S. f_equal; lia.
  - apply take_first_none in Et. exists [], (pending b). cbn [length fmap list_fmap].
    rewrite Z.add_0_r, app_nil_r. split; [by destruct b|]. split; [done|]. split; [done|].
    apply Forall_forall. intros p Hin. rewrite Forall_forall in Et, Hge.
    specialize (Et p Hin). apply Z.eqb_neq in Et. specialize (Hge p Hin). lia.
Qed.
(** Releasing [x], numbered [n], and everything contiguous behind it. *)
Lemma release_spec b n x :
  0 <= n -> n + 65536 < 2 ^ 64 -> Z.of_nat (length (pending b)) <= 65 ->
  NoDup (sequence_number <$> pending b) -> Forall (fun p => n < sequence_number p) (pending b) ->
  exists taken rest,
    drain_contiguous (set_expected (Some (wrap_u 64 (n + 1))) b) [x]
    = (mk_buffer (settings b) (Some (n + 1 + Z.of_nat (length taken))) rest,
       x :: (packet <$> taken)) /\
    pending b ≡ₚ taken ++ rest /\
    sequence_number <$> taken = seqZ (n + 1) (Z.of_nat (length taken)) /\
    Forall (fun p => n + 1 + Z.of_nat (length taken) < sequence_number p) rest.
Proof.
  intros Hn Hb Hl Hnd Hgt. rewrite wrap_u_small by (unfold in_u; lia).
  unfold drain_contiguous. change (default 0 _) with (n + 1).
  change (pending (set_expected _ b)) with (pending b).
  destruct (drain_loop_spec (S (length (pending b))) (n + 1) (set_expected (Some (n + 1)) b) [x])
    as (tk & rs & E & P & S & F); cbn [pending set_expected] in *; try done; try lia.
  { eapply Forall_impl; [exact Hgt|]. cbn. lia. }
  rewrite E. exists tk, rs. done.
Qed.

Lemma consecutive_bound n m (tk : list (PendingPacket T)) :
  n < m -> sequence_number <$> tk = seqZ (n + 1) (Z.of_nat (length tk)) ->
  Forall (fun p => sequence_number p < m) tk -> n + 1 + Z.of_nat (length tk) <= m.
Proof.
  intros Hn Hs Hm. destruct (decide (tk = [])) as [->|Htk]; [cbn; lia|].
  assert (Hlast : n + Z.of_nat (length tk) ∈ sequence_number <$> tk).
  { rewrite Hs. apply elem_of_seqZ. destruct tk; [done|]. cbn [length]. lia. }
  apply list_elem_of_fmap in Hlast as (q & Eq & Hq).
  rewrite Forall_forall in Hm. specialize (Hm q Hq). lia.
Qed.

Lemma min_by_distance_spec e ps : forall i best j d,
  min_by_distance e ps i best = Some (j, d) ->
  (best = Some (j, d) \/ exists p, (i <= j)%nat /\ ps !! (j - i)%nat = Some p /\
     d = wrap_u 64 (sequence_number p - e)) /\
  (forall j' d', best = Some (j', d') -> d <= d') /\
  Forall (fun q => d <= wrap_u 64 (sequence_number q - e)) ps.
Proof.
  induction ps as [|p ps IH]; intros i best j d; cbn [min_by_distance].
  { intros ->. split; [by left|]. split; [|done]. intros j' d' [= <- <-]. lia. }
  intros H. destruct (IH _ _ _ _ H) as (H1 & H2 & H3).
  assert (Hp : d <= wrap_u 64 (sequence_number p - e)).
  { destruct best as [[j0 d0]|]; [|by eapply H2].
    destruct (Z.ltb_spec (wrap_u 64 (sequence_number p - e)) d0); [by eapply H2|].
    specialize (H2 _ _ eq_refl). lia. }
  split; [|split].
  - destruct H1 as [H1|(q & Hle & Hq & Hd)].
    + destruct best as [[j0 d0]|];
        [destruct (_ <? d0)|]; simplify_eq; auto; right; exists p;
        rewrite Nat.sub_diag; auto.
    + right. exists q. split; [lia|]. split; [|done].
      replace (j - i)%nat with (S (j - S i)) by lia. done.
  - intros j' d' ->. destruct (Z.ltb_spec (wrap_u 64 (sequence_number p - e)) d').
    + lia.
    + by eapply H2.
  - by constructor.
Qed.

Lemma min_by_distance_some e ps i best :
  best <> None \/ ps <> [] -> is_Some (min_by_distance e ps i best).
Proof.
  revert i best. induction ps as [|p ps IH]; intros i best H; cbn.
  - destruct best; [done|]. by destruct H.
  - apply IH. left. by destruct best as [[j d]|]; [destruct (_ <? d)|].
Qed.

(** What a call releases: consecutive numbers, from the expected one unless a
    limit made it skip. *)
Record released_from (e e' : Z) (taken : list (PendingPacket T)) : Prop := {
  rf_seqs : exists first, e <= first /\
    sequence_number <$> taken = seqZ first (Z.of_nat (length taken)) /\
    (taken <> [] -> e' = first + Z.of_nat (length taken));
  rf_mono : e <= e' <= e + 32768;
  rf_nothing : taken = [] -> e' = e
}.

Lemma force_release_spec b e :
  1 <= e <= expected_bound -> expected_seq b = Some e -> pending b <> [] ->
  Z.of_nat (length (pending b)) <= 65 -> window_wf e (pending b) ->
  exists taken rest e',
    force_release_closest e b
    = (mk_buffer (settings b) (Some e') rest, packet <$> taken) /\
    pending b ≡ₚ taken ++ rest /\ taken <> [] /\ released_from e e' taken /\ window_wf e' rest.
Proof.
  intros He Heq Hne Hl [Hnd Hr]. unfold force_release_closest.
  destruct (min_by_distance_some e (pending b) 0 None ltac:(by right)) as [[j d] Hm].
  rewrite Hm. apply min_by_distance_spec in Hm as ([?|(p & _ & Hp & Hd)] & _ & Hmin); [done|].
  rewrite Nat.sub_0_r in Hp. rewrite Hp.
  pose proof (delete_Permutation _ _ _ Hp) as Hperm. set (rest0 := delete j (pending b)) in *.
  rewrite Hperm in Hnd, Hr, Hmin. cbn in Hnd. apply NoDup_cons in Hnd as [Hni Hnd].
  apply Forall_cons in Hr as [Hr1 Hr]. apply Forall_cons in Hmin as [_ Hmin].
  apply Permutation_length in Hperm as Hlen. cbn in Hlen. unfold expected_bound in He.
  change (2 ^ 63) with 9223372036854775808 in He.
  assert (Hgt : Forall (fun q => sequence_number p < sequence_number q) rest0).
  { apply Forall_forall. intros q Hq. rewrite Forall_forall in Hr, Hmin.
    specialize (Hr q Hq). specialize (Hmin q Hq). rewrite Hd in Hmin. cbn in Hr, Hmin.
    rewrite !wrap_u_small in Hmin by (unfold in_u; change (2 ^ 64) with 18446744073709551616; lia).
    assert (sequence_number q <> sequence_number p); [|lia].
    intros E. apply Hni. rewrite <- E. by apply list_elem_of_fmap_2. }
  destruct (release_spec (set_pending rest0 b) (sequence_number p) (packet p))
    as (tk & rs & E & P & S & F); cbn [pending set_pending settings] in *; try done; try lia.
  exists (p :: tk), rs, (sequence_number p + 1 + Z.of_nat (length tk)).
  split; [exact E|]. split; [by rewrite Hperm, P|]. split; [done|].
  rewrite P in Hnd, Hr. rewrite fmap_app in Hnd. apply NoDup_app in Hnd as (_ & _ & Hnd).
  apply Forall_app in Hr as [Hrt Hr]. split; [split|split].
  - exists (sequence_number p). split; [lia|]. split; [|cbn [length]; intros; lia].
    cbn [fmap list_fmap length]. rewrite Nat2Z.inj_succ, seqZ_cons by lia. f_equal.
    rewrite S. f_equal; lia.
  - assert (sequence_number p + 1 + Z.of_nat (length tk) <= e + 32768); [|lia].
    apply consecutive_bound; [lia|done|]. eapply Forall_impl; [exact Hrt|]. cbn. lia.
  - done.
  - done.
  - apply Forall_forall. intros q Hq. rewrite Forall_forall in F, Hr.
    specialize (F q Hq). specialize (Hr q Hq). cbn in *. lia.
Qed.
Lemma pending_limit_bound st : pending_limit st <= 64.
Proof. unfold pending_limit, ABSOLUTE_PENDING_CAP. destruct (_ <? _); lia. Qed.

(** The packet's turn is over, or a packet of its number waits already. *)
Definition passed b (raw : Z) : Prop :=
  match expected_seq b with
  | Some e => extend_sequence b raw < e \/ extend_sequence b raw ∈ (sequence_number <$> pending b)
  | None => False
  end.

(** The record of a step: [taken] is what was released, [accepted] the packet if
    it was not dropped. *)
Record push_result b (raw arr : Z) (p : T) b' (out : list T)
    (taken accepted : list (PendingPacket T)) (e' : Z) : Prop := {
  pr_out : out = packet <$> taken;
  pr_conserve : pending b ++ accepted ≡ₚ taken ++ pending b';
  pr_accepted : accepted = [] /\ passed b raw \/
    accepted = [mk_pending (extend_sequence b raw) arr p] /\
    extend_sequence b raw mod 65536 = raw;
  pr_settings : settings b' = settings b;
  pr_expected : expected_seq b' = Some e';
  pr_wf : buffer_wf b';
  pr_released : released_from (default raw (expected_seq b)) e' taken
}.

Lemma released_nothing e : released_from e e [].
Proof. split; [|lia|done]. exists e. split; [lia|]. by split. Qed.

Lemma force_step b b1 raw arr p e accepted :
  1 <= e <= expected_bound -> expected_seq b = Some e ->
  b1 = set_pending (pending b ++ accepted) b -> pending b1 <> [] ->
  Z.of_nat (length (pending b1)) <= pending_limit (settings b) + 1 -> window_wf e (pending b1) ->
  (accepted = [] /\ passed b raw \/ accepted = [mk_pending (extend_sequence b raw) arr p] /\
     extend_sequence b raw mod 65536 = raw) ->
  exists taken e' , push_result b raw arr p (fst (force_release_closest e b1))
    (snd (force_release_closest e b1)) taken accepted e'.
Proof.
  intros He Heb -> Hne Hl Hw Ha. pose proof (pending_limit_bound (settings b)).
  cbn [pending set_pending] in *.
  destruct (force_release_spec (set_pending (pending b ++ accepted) b) e)
    as (tk & rs & e' & E & P & Htk & R & W); cbn [pending set_pending] in *; try done; [lia|].
  exists tk, e'. rewrite E. cbn [fst snd settings set_pending]. split; try done.
  - split; cbn [pending settings expected_seq].
    + apply Permutation_length in P. rewrite (length_app tk) in P.
      destruct tk; [done|]. cbn [length] in P. lia.
    + split; [|done]. destruct R as [_ R _]. lia.
  - by rewrite Heb.
Qed.

Lemma window_insert e b arr p seq :
  window_wf e (pending b) -> e < seq < e + 32768 ->
  existsb (fun q => sequence_number q =? seq) (pending b) = false ->
  window_wf e (pending b ++ [mk_pending seq arr p]).
Proof.
  intros [Hnd Hr] Hs Hx. split.
  - rewrite fmap_app. apply NoDup_app. split; [done|]. split; [|apply NoDup_singleton].
    intros x Hin Hx'. apply list_elem_of_singleton in Hx' as ->.
    apply list_elem_of_fmap in Hin as (q & Hq & Hin). cbn in Hq.
    assert (existsb (fun q => sequence_number q =? seq) (pending b) = true); [|congruence].
    apply existsb_exists. exists q. split; [by apply list_elem_of_In|]. rewrite <- Hq. by apply Z.eqb_eq.
  - apply Forall_app. split; [done|]. by constructor.
Qed.

Lemma push_first raw arr p b :
  buffer_wf b -> in_u 16 raw -> expected_seq b = None ->
  push_result b raw arr p (set_expected (Some (wrap_u 64 (extend_sequence b raw + 1))) b) [p]
    [mk_pending raw arr p] [mk_pending raw arr p] (raw + 1).
Proof.
  intros [Hlen Hwf] Hraw Heb. rewrite Heb in Hwf. assert (Hr : 0 <= raw < 65536) by exact Hraw.
  assert (Hext : extend_sequence b raw = raw) by (unfold extend_sequence; by rewrite Heb).
  rewrite Hext, wrap_u_small by (unfold in_u; lia).
  split; cbn [settings expected_seq set_expected pending]; try done.
  - by rewrite Hwf.
  - right. rewrite Hext. split; [done|]. by apply Z.mod_small.
  - split; [done|]. split; [cbn; lia|]. cbn. rewrite Hwf. split; constructor.
  - rewrite Heb. split; [|cbn; lia|done]. exists raw. split; [cbn; lia|]. by split.
Qed.

Lemma push_late raw arr p b e :
  buffer_wf b -> expected_seq b = Some e -> extend_sequence b raw < e -> push_result b raw arr p b [] [] [] e.
Proof.
  intros Hwf Heb Hl. split; try done; [by rewrite app_nil_r|left; split; [done|]; unfold passed; rewrite Heb; by left|].
  rewrite Heb. apply released_nothing.
Qed.

Lemma push_in_order raw arr p b e :
  buffer_wf b -> expected_seq b = Some e -> e <= expected_bound ->
  extend_sequence b raw = e -> e mod 65536 = raw ->
  exists taken accepted e',
    push_result b raw arr p
      (fst (drain_contiguous (set_expected (Some (wrap_u 64 (e + 1))) b) [p]))
      (snd (drain_contiguous (set_expected (Some (wrap_u 64 (e + 1))) b) [p])) taken accepted e'.
Proof.
  intros [Hlen Hwf] Heb Hbound Hext Hmod. rewrite Heb in Hwf. destruct Hwf as [He [Hnd Hrg]].
  pose proof (pending_limit_bound (settings b)) as Hlim. unfold expected_bound in Hbound.
  destruct (release_spec b e p) as (tk & rs & E & P & S & F); try done; try lia.
  { eapply Forall_impl; [exact Hrg|]. cbn. lia. }
  rewrite E. cbn [fst snd]. rewrite P, fmap_app in Hnd. apply NoDup_app in Hnd as (_ & _ & Hnd).
  apply Permutation_length in P as Pl. rewrite length_app in Pl.
  rewrite P in Hrg. apply Forall_app in Hrg as [Hrt Hrg].
  exists (mk_pending e arr p :: tk), [mk_pending e arr p], (e + 1 + Z.of_nat (length tk)).
  split; try done.
  - cbn [pending]. rewrite P, <- app_assoc. cbn.
    by rewrite Permutation_middle, (Permutation_app_comm rs).
  - right. by rewrite Hext.
  - split; cbn [pending settings expected_seq]; [lia|]. split; [lia|]. split; [done|].
    apply Forall_forall. intros q Hq. rewrite Forall_forall in F, Hrg.
    specialize (F q Hq). specialize (Hrg q Hq). cbn in *. lia.
  - rewrite Heb. cbn [default]. split; [|  |done].
    + exists e. split; [cbn; lia|]. split; [|cbn [length]; intros; cbn; lia].
      cbn [fmap list_fmap length sequence_number].
      rewrite Nat2Z.inj_succ, seqZ_cons by lia. f_equal. rewrite S. f_equal; lia.
    + cbn. assert (e + 1 + Z.of_nat (length tk) <= e + 32768); [|lia].
      apply consecutive_bound; [lia|done|]. eapply Forall_impl; [exact Hrt|]. cbn. lia.
Qed.

(** A packet ahead of the expected number: buffered, unless a limit forces a
    release. *)
Lemma push_future raw arr p b b1 accepted e b' out :
  buffer_wf b -> expected_seq b = Some e -> e <= expected_bound ->
  b1 = set_pending (pending b ++ accepted) b ->
  (accepted = [] /\ passed b raw \/ accepted = [mk_pending (extend_sequence b raw) arr p] /\
     extend_sequence b raw mod 65536 = raw) ->
  window_wf e (pending b1) -> Z.of_nat (length (pending b1)) <= pending_limit (settings b) + 1 ->
  (if (0 <? max_packets (settings b1)) && (max_packets (settings b1) <? Z.of_nat (length (pending b1)))
   then force_release_closest e b1
   else if (0 <? max_delay_ms (settings b1)) &&
           existsb (fun q => max_delay_ms (settings b1)
                             <=? saturating_sub arr (arrival_ms q)) (pending b1)
   then force_release_closest e b1
   else if ABSOLUTE_PENDING_CAP <? Z.of_nat (length (pending b1)) then force_release_closest e b1
   else (b1, [])) = (b', out) ->
  exists taken accepted e', push_result b raw arr p b' out taken accepted e'.
Proof.
  intros [Hlen Hwf] Heb Hbound B1 Hacc Hw1 Hl1. rewrite Heb in Hwf. destruct Hwf as [He Hw].
  assert (Hforce : pending b1 <> [] -> force_release_closest e b1 = (b', out) ->
    exists taken accepted e', push_result b raw arr p b' out taken accepted e').
  { intros Hne1 Ef. destruct (force_step b b1 raw arr p e accepted) as (tk & e' & R); try done.
    rewrite Ef in R. eauto. }
  assert (Hs1 : settings b1 = settings b) by (by rewrite B1). rewrite Hs1.
  assert (Hgt0 : 0 < Z.of_nat (length (pending b1)) -> pending b1 <> [])
    by (intros ? E; rewrite E in *; cbn in *; lia).
  destruct ((0 <? max_packets (settings b)) && _) eqn:E1.
  { apply Hforce, Hgt0. apply andb_prop in E1 as [?%Z.ltb_lt ?%Z.ltb_lt]. lia. }
  destruct ((0 <? max_delay_ms (settings b)) && _) eqn:E2.
  { apply Hforce. apply andb_prop in E2 as [_ E2]. by destruct (pending b1). }
  destruct (Z.ltb_spec ABSOLUTE_PENDING_CAP (Z.of_nat (length (pending b1)))) as [L|L].
  { apply Hforce, Hgt0. unfold ABSOLUTE_PENDING_CAP in L. lia. }
  intros [= <- <-]. exists [], accepted, e. split; try done; try by rewrite B1.
  - split; [rewrite Hs1|rewrite B1 in *; cbn [expected_seq set_pending]; by rewrite Heb].
    unfold pending_limit. destruct (0 <? max_packets (settings b)); cbn in E1; zcases_in E1; lia.
  - rewrite Heb. apply released_nothing.
Qed.

Lemma push_step raw arr p b b' out :
  buffer_wf b -> in_u 16 raw -> default 0 (expected_seq b) <= expected_bound ->
  push raw arr p b = (b', out) ->
  exists taken accepted e', push_result b raw arr p b' out taken accepted e'.
Proof.
  intros Hwf Hraw Hbound. unfold push.
  destruct (expected_seq b) as [e|] eqn:Heb.
  2: { intros [= <- <-]. do 3 eexists. by apply push_first. }
  cbn in Hbound. pose proof Hwf as [Hlen Hw]. rewrite Heb in Hw. destruct Hw as [He Hw].
  pose proof (extend_sequence_spec b e raw Heb ltac:(lia) Hraw) as Hext.
  assert (Hah : 0 <= seq_ahead e raw < 65536) by (apply Z.mod_pos_bound; lia).
  destruct (Z.ltb_spec (extend_sequence b raw) e) as [Hlt|Hge].
  { intros [= <- <-]. do 3 eexists. by apply push_late. }
  destruct (Z.ltb_spec (seq_ahead e raw) 32768) as [Hlo|Hhi]; [|lia].
  assert (Hmod : extend_sequence b raw mod 65536 = raw).
  { rewrite Hext. unfold seq_ahead. rewrite Zplus_mod_idemp_r, Zplus_minus. by apply Z.mod_small. }
  destruct (Z.eqb_spec (extend_sequence b raw) e) as [Heq|Hne].
  { intros Ed. rewrite Heq in Hmod. pose proof (push_in_order raw arr p b e Hwf Heb Hbound Heq Hmod) as R.
    by rewrite Ed in R. }
  set (b1 := if existsb _ (pending b) then b else _).
  assert (B1 : exists accepted, b1 = set_pending (pending b ++ accepted) b /\
    (accepted = [] /\ passed b raw \/ accepted = [mk_pending (extend_sequence b raw) arr p] /\
       extend_sequence b raw mod 65536 = raw) /\
    window_wf e (pending b1) /\ Z.of_nat (length (pending b1)) <= pending_limit (settings b) + 1).
  { unfold b1. destruct (existsb _ (pending b)) eqn:Ex.
    - exists []. rewrite app_nil_r. split; [by destruct b|]. split; [|split; [done|lia]].
      left. split; [done|]. unfold passed. rewrite Heb. right.
      apply existsb_exists in Ex as (q & Hq%list_elem_of_In & <-%Z.eqb_eq). by apply list_elem_of_fmap_2.
    - eexists. split; [done|]. split; [by right|]. split; [|cbn; rewrite length_app; cbn; lia].
      apply window_insert; [done|lia|done]. }
  destruct B1 as (accepted & B1 & Hacc & Hw1 & Hl1). clearbody b1.
  by apply (push_future raw arr p b b1 accepted e).
Qed.
End invariant.

(** ** Runs *)

Section runs.
Context {T : Type}.
Implicit Types (b : RtpReorderBuffer T).

(** Packets in arrival order: raw sequence number, arrival time, packet. *)
Fixpoint push_all (inputs : list (Z * Z * T)) b : RtpReorderBuffer T * list T :=
  match inputs with
  | [] => (b, [])
  | (raw, arr, p) :: inputs =>
      let '(b, out) := push raw arr p b in
      let '(b, out') := push_all inputs b in (b, out ++ out')
  end.

(** The arrival a buffered packet comes from. *)
Definition arrival_of (q : PendingPacket T) : Z * Z * T :=
  (sequence_number q mod 65536, arrival_ms q, packet q).

Lemma seqZ_sorted m n : StronglySorted Z.lt (seqZ m n).
Proof.
  unfold seqZ. generalize (Z.to_nat n) as k, O as j. intros k.
  induction k as [|k IH]; intros j; cbn; constructor; [apply IH|].
  apply Forall_forall. intros x (i & -> & Hi)%list_elem_of_fmap.
  apply elem_of_seq in Hi. lia.
Qed.

Lemma released_bounds e e' (taken : list (PendingPacket T)) :
  released_from e e' taken ->
  StronglySorted Z.lt (sequence_number <$> taken) /\
  Forall (fun z => e <= z < e') (sequence_number <$> taken).
Proof.
  intros [(first & Hf & Hs & He) _ _]. rewrite Hs. split; [apply seqZ_sorted|].
  apply Forall_forall. intros x Hx%elem_of_seqZ.
  assert (taken <> []) as Hne by (intros ->; cbn in Hx; lia). specialize (He Hne). lia.
Qed.

Lemma push_all_spec inputs b b' out :
  buffer_wf b -> Forall (fun i => in_u 16 (fst (fst i))) inputs ->
  default 0 (expected_seq b) + 65536 * Z.of_nat (length inputs) <= expected_bound ->
  push_all inputs b = (b', out) ->
  exists taken accepted,
    out = packet <$> taken /\
    pending b ++ accepted ≡ₚ taken ++ pending b' /\
    (arrival_of <$> accepted) `sublist_of` inputs /\
    StronglySorted Z.lt (sequence_number <$> taken) /\
    Forall (fun z => default 0 (expected_seq b) <= z < default 0 (expected_seq b'))
      (sequence_number <$> taken) /\
    default 0 (expected_seq b) <= default 0 (expected_seq b') /\
    buffer_wf b' /\ settings b' = settings b.
Proof.
  intros Hwf Hin. revert b out Hwf.
  induction Hin as [|[[raw arr] p] inputs Hraw _ IH]; intros b out Hwf Hb; cbn [push_all].
  { intros [= <- <-]. exists [], []. cbn. rewrite app_nil_r. repeat split; auto using SSorted_nil; lia || apply Hwf. }
  destruct (push raw arr p b) as [b1 out1] eqn:E1. destruct (push_all inputs b1) as [b2 out2] eqn:E2.
  intros [= <- <-]. cbn [length fst] in *.
  destruct (push_step raw arr p b b1 out1 Hwf Hraw ltac:(lia) E1)
    as (t1 & a1 & e1 & [Ho Hc Ha Hs Hx Hwf1 Hr]).
  assert (He1 : default 0 (expected_seq b) <= e1 <= default 0 (expected_seq b) + 65536 /\
                default 0 (expected_seq b) <= default raw (expected_seq b)).
  { destruct Hr as [_ [R1 R2] _]. assert (0 <= raw < 65536) by exact Hraw.
    destruct Hwf as [_ Hwf]. destruct (expected_seq b) as [e|] eqn:Hxb; cbn in *; [lia|].
    unfold push in E1. rewrite Hxb in E1. injection E1 as <- <-. cbn in Hx. injection Hx as <-.
    unfold extend_sequence. rewrite Hxb, wrap_u_small by (unfold in_u; lia). lia. }
  destruct (IH b1 out2 Hwf1) as (t2 & a2 & Ho2 & Hc2 & Ha2 & Hs2 & Hf2 & Hm2 & Hwf2 & Hset2).
  { rewrite Hx. change (default 0 (Some e1)) with e1. lia. }
  { done. }
  rewrite Hx in Hf2, Hm2. change (default 0 (Some e1)) with e1 in *.
  apply released_bounds in Hr as [Hr1 Hr2].
  exists (t1 ++ t2), (a1 ++ a2). split; [by rewrite fmap_app, Ho, Ho2|].
  split; [by rewrite app_assoc, Hc, <- app_assoc, Hc2, app_assoc|]. split.
  { destruct Ha as [[-> _]|[-> Hmod]]; cbn; [by apply sublist_cons|].
    unfold arrival_of at 1. cbn. rewrite Hmod. by apply sublist_skip. }
  split.
  { rewrite fmap_app. apply StronglySorted_app_2; try done. intros x y Hx1 Hy.
    rewrite Forall_forall in Hr2, Hf2. specialize (Hr2 _ Hx1). specialize (Hf2 _ Hy). lia. }
  split; [|split; [lia|split; [done|congruence]]].
  rewrite fmap_app. apply Forall_app. split; eapply Forall_impl; try done; cbn; lia.
Qed.
End runs.

(** ** Packets with the numbers their sender gave them

    A sender numbers its packets without end; on the wire is the number modulo 2^16. *)

Section sent.
Context {T : Type}.
Implicit Types (b : RtpReorderBuffer T) (l : list (Z * Z * T)).

(** The number, the time of arrival and the packet. *)
Definition number (x : Z * Z * T) : Z := x.1.1.
Definition on_wire (x : Z * Z * T) : Z * Z * T := (number x mod 65536, x.1.2, x.2).
Definition as_arrival (q : PendingPacket T) : Z * Z * T := (sequence_number q, arrival_ms q, packet q).

(** No packet is more than 500 numbers ahead of all before it, or half a period behind the
    highest of them. *)
Fixpoint stays_near (top : Z) l : Prop :=
  match l with
  | [] => True
  | x :: l => top - 32767 <= number x <= top + 500 /\ stays_near (Z.max top (number x)) l
  end.

(** [top] is the highest number that came: it has been released, or it waits, with others
    that bridge the gap. *)
Record near_inv b (e top : Z) : Prop := {
  ni_wf : buffer_wf b;
  ni_expected : expected_seq b = Some e;
  ni_top : e - 1 <= top;
  ni_pending : Forall (fun q => sequence_number q <= top) (pending b);
  ni_cover : forall x, e - 1 <= x < top ->
    exists q, q ∈ pending b /\ x < sequence_number q <= x + 500
}.

Lemma cover_bound (ns : list Z) : forall a top,
  (forall x, a <= x < top -> exists y, y ∈ ns /\ x < y <= x + 500) -> a <= top ->
  top - a <= 500 * Z.of_nat (length ns).
Proof.
  remember (length ns) as k eqn:Ek. revert ns Ek. induction k as [|k IH]; intros ns Ek a top H Ha.
  - destruct (decide (a = top)); [lia|]. destruct (H a ltac:(lia)) as (y & Hy & _).
    destruct ns; [|done]. by apply not_elem_of_nil in Hy.
  - destruct (decide (a = top)); [lia|]. destruct (H a ltac:(lia)) as (y & Hy & Hl).
    destruct (decide (top <= y)); [lia|].
    apply list_elem_of_split in Hy as (l1 & l2 & ->). rewrite length_app in Ek. cbn in Ek.
    assert (top - y <= 500 * Z.of_nat k); [|lia].
    apply (IH (l1 ++ l2)); [rewrite length_app; lia| |lia].
    intros x Hx. destruct (H x ltac:(lia)) as (z & Hz & Hzl). exists z. split; [|done].
    rewrite elem_of_app, elem_of_cons in Hz. rewrite elem_of_app. destruct Hz as [?|[->|?]]; [by left|lia|by right].
Qed.

Lemma near_top b e top : near_inv b e top -> top - (e - 1) <= 32000.
Proof.
  intros [[Hl _] _ Ht _ Hc]. pose proof (pending_limit_bound (settings b)).
  pose proof (cover_bound (sequence_number <$> pending b) (e - 1) top) as C. rewrite length_fmap in C.
  enough (top - (e - 1) <= 500 * Z.of_nat (length (pending b))) by lia. apply C; [|lia].
  intros x Hx. destruct (Hc x Hx) as (q & Hq & ?). exists (sequence_number q).
  split; [by apply list_elem_of_fmap_2|done].
Qed.

(** The number that the buffer reconstructs is the sender's, unless its turn is over. *)
Lemma near_extend b e top n :
  near_inv b e top -> e <= expected_bound -> top - 32767 <= n <= top + 500 ->
  extend_sequence b (n mod 65536) = if n <? e then e - 1 else n.
Proof.
  intros I He Hn. pose proof (near_top b e top I). destruct I as [[_ Hw] Hx Ht _ _]. rewrite Hx in Hw.
  destruct Hw as [He1 _]. rewrite (extend_sequence_spec b e) by (done || lia || (apply Z.mod_pos_bound; lia)).
  unfold seq_ahead. rewrite Zminus_mod_idemp_l.
  destruct (Z.ltb_spec n e) as [L|L].
  - replace ((n - e) mod 65536) with (n - e + 65536); [|apply Z.mod_unique with (q := -1); lia].
    by destruct (Z.ltb_spec (n - e + 65536) 32768); [lia|].
  - rewrite Z.mod_small by lia. by destruct (Z.ltb_spec (n - e) 32768); [lia|lia].
Qed.

(** What became of the packet [x]. *)
Definition fate_of (e : Z) b (x : Z * Z * T) (accepted : list (PendingPacket T)) : Prop :=
  as_arrival <$> accepted = [x] \/
  accepted = [] /\ (number x < e \/ number x ∈ (sequence_number <$> pending b)).

Lemma push_late_out raw arr p b e :
  expected_seq b = Some e -> extend_sequence b raw < e -> push raw arr p b = (b, []).
Proof. intros Hx He. unfold push. rewrite Hx. by apply Z.ltb_lt in He as ->. Qed.

Lemma push_fate b e top x b' out tk ac e' :
  near_inv b e top -> e <= expected_bound -> top - 32767 <= number x <= top + 500 ->
  push (number x mod 65536) x.1.2 x.2 b = (b', out) ->
  push_result b (number x mod 65536) x.1.2 x.2 b' out tk ac e' -> fate_of e b x ac.
Proof.
  intros I He Hn E [Ho Hcons Ha _ _ _ _]. pose proof (near_extend b e top _ I He Hn) as Hx.
  pose proof (ni_expected _ _ _ I) as Hexp. destruct Ha as [[-> Hpass]|[-> _]].
  - right. split; [done|]. unfold passed in Hpass. rewrite Hexp, Hx in Hpass.
    destruct (Z.ltb_spec (number x) e); [by left|]. destruct Hpass; [lia|by right].
  - destruct (Z.ltb_spec (number x) e) as [L|L].
    + exfalso. rewrite (push_late_out _ _ _ _ e) in E by (done || lia). injection E as <- <-.
      assert (tk = []) as -> by by destruct tk. apply Permutation_length in Hcons.
      rewrite length_app in Hcons. cbn in Hcons. lia.
    + left. rewrite Hx. by destruct x as [[n a] p].
Qed.

(** The accepted packets are the sender's, under its numbers. *)
Lemma fate_number e b x ac q :
  fate_of e b x ac -> q ∈ ac -> sequence_number q = number x.
Proof.
  intros [F|[-> _]] Hq; [|by apply not_elem_of_nil in Hq].
  apply (list_elem_of_fmap_2 as_arrival) in Hq. rewrite F in Hq.
  apply list_elem_of_singleton in Hq. by rewrite <- Hq.
Qed.

Lemma pending_ahead b e :
  buffer_wf b -> expected_seq b = Some e -> Forall (fun q => e < sequence_number q) (pending b).
Proof.
  intros [_ Hw] He. rewrite He in Hw. destruct Hw as [_ [_ Hr]].
  eapply Forall_impl; [exact Hr|]. cbn. lia.
Qed.

Lemma last_released e e' (tk : list (PendingPacket T)) :
  released_from e e' tk -> tk <> [] -> e' - 1 ∈ sequence_number <$> tk.
Proof.
  intros [(first & _ & Hs & He) _ _] Hne. rewrite Hs. apply elem_of_seqZ. specialize (He Hne).
  destruct tk; [done|]. cbn [length] in *. lia.
Qed.

Lemma near_step b e top x b' tk ac e' :
  near_inv b e top -> number x <= top + 500 -> fate_of e b x ac ->
  pending b ++ ac ≡ₚ tk ++ pending b' -> released_from e e' tk ->
  buffer_wf b' -> expected_seq b' = Some e' -> near_inv b' e' (Z.max top (number x)).
Proof.
  intros [Hwf Hexp Ht Hp Hc] Hn F Hcons Hr Hwf' Hexp'.
  pose proof (released_bounds _ _ _ Hr) as [_ Hrb]. rewrite Forall_fmap in Hrb.
  assert (Hall : Forall (fun q => sequence_number q <= Z.max top (number x)) (tk ++ pending b')).
  { rewrite <- Hcons. apply Forall_app. split; [eapply Forall_impl; [exact Hp|]; cbn; lia|].
    apply Forall_forall. intros q Hq. rewrite (fate_number _ _ _ _ _ F Hq). lia. }
  apply Forall_app in Hall as [Htk Hp']. split; try done.
  - destruct (decide (tk = [])) as [->|Hne]; [rewrite (rf_nothing _ _ _ Hr) by done; lia|].
    apply last_released, list_elem_of_fmap in Hr as (q & Hq & Hin); [|done].
    rewrite Forall_forall in Htk. specialize (Htk q Hin). cbn in Htk. lia.
  - intros y Hy. pose proof (rf_mono _ _ _ Hr).
    assert (Hq : exists q, q ∈ pending b ++ ac /\ y < sequence_number q <= y + 500).
    { destruct (decide (y < top)); [destruct (Hc y ltac:(lia)) as (q & ? & ?); exists q; split; [|done];
        apply elem_of_app; by left|].
      destruct F as [F|[_ F]].
      - destruct ac as [|q [|]]; try discriminate F. injection F as F. exists q.
        split; [apply elem_of_app; right; by apply list_elem_of_singleton|]. rewrite <- F in *. cbn in *. lia.
      - exfalso. destruct F as [F|F]; [lia|]. apply list_elem_of_fmap in F as (q & Hq & Hin).
        rewrite Forall_forall in Hp. specialize (Hp q Hin). cbn in Hp. lia. }
    destruct Hq as (q & Hin & Hq). exists q. split; [|done]. rewrite Hcons in Hin.
    apply elem_of_app in Hin as [Hin|Hin]; [|done].
    rewrite Forall_forall in Hrb. specialize (Hrb q Hin). cbn in Hrb. lia.
Qed.

Lemma near_push b e top x b' out :
  near_inv b e top -> e <= expected_bound -> top - 32767 <= number x <= top + 500 ->
  push (number x mod 65536) x.1.2 x.2 b = (b', out) ->
  exists taken accepted e',
    out = packet <$> taken /\ pending b ++ accepted ≡ₚ taken ++ pending b' /\
    fate_of e b x accepted /\ released_from e e' taken /\ near_inv b' e' (Z.max top (number x)) /\
    settings b' = settings b.
Proof.
  intros I He Hn E. pose proof I as [Hwf Hexp _ _ _].
  assert (Hd : default 0 (expected_seq b) <= expected_bound) by by rewrite Hexp.
  destruct (push_step _ _ _ b b' out Hwf ltac:(apply Z.mod_pos_bound; lia) Hd E)
    as (tk & ac & e' & R). pose proof (push_fate _ _ _ _ _ _ _ _ _ I He Hn E R) as F.
  destruct R as [Ho Hcons _ Hs Hx' Hwf' Hr]. rewrite Hexp in Hr. change (default _ (Some e)) with e in Hr.
  exists tk, ac, e'. do 4 (split; [done|]). split; [|done]. eapply near_step; eauto. lia.
Qed.

(** *** When no limit is reached *)

(** The first number from [n] on that is not in [ns]. *)
Fixpoint first_missing_from (fuel : nat) (n : Z) (ns : list Z) : Z :=
  match fuel with
  | O => n
  | S fuel => if decide (n ∈ ns) then first_missing_from fuel (n + 1) ns else n
  end.
Definition first_missing (n : Z) (ns : list Z) : Z := first_missing_from (S (length ns)) n ns.

(** Among the packets [seen], those that wait for a number that has not come. *)
Definition waiting (n0 : Z) (seen : list (Z * Z * T)) : list (Z * Z * T) :=
  filter (fun y => first_missing n0 (number <$> seen) < number y) seen.

(** Never do more packets wait than the buffer may hold, nor any for as long as the delay
    limit. *)
Fixpoint calm (st : RtpReorderSettings) (n0 : Z) (seen l : list (Z * Z * T)) : Prop :=
  match l with
  | [] => True
  | x :: l =>
      Z.of_nat (length (remove_dups (number <$> waiting n0 (seen ++ [x])))) <= pending_limit st /\
      (0 < max_delay_ms st ->
       Forall (fun y => x.1.2 - y.1.2 < max_delay_ms st) (waiting n0 (seen ++ [x]))) /\
      calm st n0 (seen ++ [x]) l
  end.

Lemma first_missing_from_spec fuel : forall n ns,
  n <= first_missing_from fuel n ns /\
  (forall k, n <= k < first_missing_from fuel n ns -> k ∈ ns) /\
  (first_missing_from fuel n ns ∉ ns \/ first_missing_from fuel n ns = n + Z.of_nat fuel).
Proof.
  induction fuel as [|fuel IH]; intros n ns; cbn [first_missing_from]; [split; [lia|split; [lia|right; lia]]|].
  destruct (decide (n ∈ ns)) as [Hin|Hin]; [|split; [lia|split; [lia|by left]]].
  destruct (IH (n + 1) ns) as (H1 & H2 & H3). split; [lia|]. split; [|destruct H3; [by left|right; lia]].
  intros k Hk. destruct (decide (k = n)) as [->|]; [done|]. apply H2. lia.
Qed.

Lemma first_missing_spec n ns :
  n <= first_missing n ns /\ (forall k, n <= k < first_missing n ns -> k ∈ ns) /\ first_missing n ns ∉ ns.
Proof.
  unfold first_missing. destruct (first_missing_from_spec (S (length ns)) n ns) as (H1 & H2 & [H3|H3]); [done|].
  exfalso. assert (Hsub : seqZ n (Z.of_nat (S (length ns))) ⊆+ ns).
  { apply NoDup_submseteq; [apply NoDup_seqZ|]. intros k Hk%elem_of_seqZ. apply H2. lia. }
  apply submseteq_length in Hsub. rewrite length_seqZ in Hsub. lia.
Qed.

Lemma first_missing_unique n ns m :
  n <= m -> (forall k, n <= k < m -> k ∈ ns) -> m ∉ ns -> first_missing n ns = m.
Proof.
  intros Hm Hk Hn. destruct (first_missing_spec n ns) as (H1 & H2 & H3).
  destruct (Z.lt_trichotomy (first_missing n ns) m) as [L|[L|L]]; [|done|].
  - by destruct (H3 (Hk (first_missing n ns) ltac:(lia))).
  - by destruct (Hn (H2 m ltac:(lia))).
Qed.

(** All of [seen] from [n0] on is released up to the first number missing, the rest waits. *)
Record caught_up (n0 : Z) (seen : list (Z * Z * T)) b (e : Z) : Prop := {
  cu_expected : first_missing n0 (number <$> seen) = e;
  cu_pending : Forall (fun q => as_arrival q ∈ seen) (pending b);
  cu_waits : Forall (fun y => e < number y -> number y ∈ sequence_number <$> pending b) seen
}.

Lemma waiting_pending n0 seen b e ps :
  first_missing n0 (number <$> seen) = e -> NoDup (sequence_number <$> ps) ->
  Forall (fun q => as_arrival q ∈ seen) ps -> Forall (fun q => e < sequence_number q) ps ->
  Forall (fun q => as_arrival q ∈ waiting n0 seen) ps /\
  (length ps <= length (remove_dups (number <$> waiting n0 seen)))%nat.
Proof.
  intros He Hnd Hs Hg. assert (Hw : Forall (fun q => as_arrival q ∈ waiting n0 seen) ps).
  { apply Forall_forall. intros q Hq. rewrite Forall_forall in Hs, Hg. apply list_elem_of_filter.
    rewrite He. split; [exact (Hg q Hq)|exact (Hs q Hq)]. }
  split; [done|]. rewrite <- (length_fmap sequence_number ps). apply submseteq_length, NoDup_submseteq; [done|].
  intros k (q & -> & Hq)%list_elem_of_fmap. apply elem_of_remove_dups, list_elem_of_fmap.
  rewrite Forall_forall in Hw. exists (as_arrival q). split; [done|by apply Hw].
Qed.

(** Within the limits, a packet whose turn has not come releases nothing. *)
Lemma push_waits b e x n0 seen :
  buffer_wf b -> expected_seq b = Some e -> e <= expected_bound -> number x <> e ->
  extend_sequence b (number x mod 65536) = (if number x <? e then e - 1 else number x) ->
  number x < e + 32768 ->
  caught_up n0 seen b e -> first_missing n0 (number <$> seen ++ [x]) = e ->
  Z.of_nat (length (remove_dups (number <$> waiting n0 (seen ++ [x])))) <= pending_limit (settings b) ->
  (0 < max_delay_ms (settings b) ->
   Forall (fun y => x.1.2 - y.1.2 < max_delay_ms (settings b)) (waiting n0 (seen ++ [x]))) ->
  snd (push (number x mod 65536) x.1.2 x.2 b) = [].
Proof.
  intros Hwf Hexp He Hne Hx Hfar [_ Hp _] Hm Hl Hd. unfold push. rewrite Hexp, Hx.
  destruct (Z.ltb_spec (number x) e) as [L|L]; [by rewrite (proj2 (Z.ltb_lt (e - 1) e)) by lia|].
  destruct (Z.ltb_spec (number x) e); [lia|]. destruct (Z.eqb_spec (number x) e); [lia|].
  pose proof Hwf as [_ Hw]. rewrite Hexp in Hw. destruct Hw as [_ Hw].
  set (b1 := if existsb _ (pending b) then b else _).
  assert (B1 : settings b1 = settings b /\ window_wf e (pending b1) /\
               Forall (fun q => as_arrival q ∈ seen ++ [x]) (pending b1)).
  { assert (Hp' : Forall (fun q => as_arrival q ∈ seen ++ [x]) (pending b)).
    { eapply Forall_impl; [exact Hp|]. cbn. intros q Hq. apply elem_of_app. by left. }
    unfold b1. destruct (existsb _ (pending b)) eqn:Ex; [done|]. split; [done|].
    split; [apply window_insert; done || lia|]. cbn [pending set_pending]. apply Forall_app. split; [done|].
    apply Forall_singleton, elem_of_app. right. apply list_elem_of_singleton. by destruct x as [[k a] p]. }
  clearbody b1. destruct B1 as (-> & [Hnd Hr] & Hs).
  destruct (waiting_pending n0 (seen ++ [x]) b1 e (pending b1)) as [W1 W2]; try done.
  { eapply Forall_impl; [exact Hr|]. cbn. lia. }
  assert (Hlen : Z.of_nat (length (pending b1)) <= pending_limit (settings b)) by lia.
  destruct ((0 <? max_packets (settings b)) && _) eqn:E1.
  { apply andb_prop in E1 as [E1 E2]. unfold pending_limit in Hlen. rewrite E1 in Hlen.
    apply Z.ltb_lt in E2. lia. }
  destruct ((0 <? max_delay_ms (settings b)) && _) eqn:E2.
  { apply andb_prop in E2 as [E2 E3]. apply Z.ltb_lt in E2. specialize (Hd E2).
    apply existsb_exists in E3 as (q & Hq%list_elem_of_In & E3%Z.leb_le).
    rewrite Forall_forall in W1. rewrite Forall_forall in Hd. specialize (Hd _ (W1 q Hq)). cbn in Hd. unfold saturating_sub in E3. lia. }
  destruct (Z.ltb_spec ABSOLUTE_PENDING_CAP (Z.of_nat (length (pending b1)))); [|done].
  pose proof (pending_limit_bound (settings b)). unfold ABSOLUTE_PENDING_CAP in *. lia.
Qed.

(** A number held before a run is released by it or still held. *)
Lemma held_next b ac tk b' e e' k :
  pending b ++ ac ≡ₚ tk ++ pending b' -> Forall (fun k => e <= k < e') (sequence_number <$> tk) ->
  k ∈ sequence_number <$> (pending b ++ ac) -> k < e' \/ k ∈ sequence_number <$> pending b'.
Proof.
  intros Hc Ht Hk. rewrite Hc, fmap_app, elem_of_app in Hk. destruct Hk as [Hk|Hk]; [left|by right].
  rewrite Forall_forall in Ht. specialize (Ht k Hk). lia.
Qed.

Lemma fate_held b e x ac :
  fate_of e b x ac -> number x < e \/ number x ∈ sequence_number <$> (pending b ++ ac).
Proof.
  rewrite fmap_app, elem_of_app. intros [F|[_ [F|F]]]; [|by left|by right; left]. right. right.
  destruct ac as [|q [|]]; try discriminate F. injection F as F. rewrite <- F. cbn. by left.
Qed.

(** Within the limits, what is released begins at the expected number. *)
Lemma released_in_order b e top x b' out n0 seen tk ac e' :
  near_inv b e top -> e <= expected_bound -> top - 32767 <= number x <= top + 500 -> n0 <= e ->
  push (number x mod 65536) x.1.2 x.2 b = (b', out) -> out = packet <$> tk ->
  pending b ++ ac ≡ₚ tk ++ pending b' -> fate_of e b x ac -> released_from e e' tk ->
  Forall (fun q => e' < sequence_number q) (pending b') ->
  caught_up n0 seen b e -> calm (settings b) n0 seen [x] ->
  sequence_number <$> tk = seqZ e (e' - e).
Proof.
  intros I He Hn Hn0 E Ho Hcons F Hr Hp' C (Hl & Hd & _). pose proof (rf_mono _ _ _ Hr) as Hmono.
  destruct (decide (tk = [])) as [->|Hne]; [rewrite (rf_nothing _ _ _ Hr) by done; by rewrite Z.sub_diag|].
  destruct (first_missing_spec n0 (number <$> seen)) as (_ & Hbelow & Hmiss).
  rewrite (cu_expected _ _ _ _ C) in Hbelow, Hmiss.
  assert (Hxe : number x = e).
  { destruct (decide (number x = e)) as [|Hxe]; [done|exfalso].
    pose proof (push_waits b e x n0 seen (ni_wf _ _ _ I) (ni_expected _ _ _ I) He Hxe
      (near_extend _ _ _ _ I He Hn)) as W. rewrite E in W. cbn in W.
    rewrite W in Ho; [by destruct tk| |done| |done|done].
    - pose proof (near_top _ _ _ I). lia.
    - apply first_missing_unique; [done| |].
      + intros k Hk. rewrite fmap_app. apply elem_of_app. left. by apply Hbelow.
      + rewrite fmap_app, elem_of_app. cbn. rewrite list_elem_of_singleton. intros [?|?]; [done|lia]. }
  assert (Hin : e ∈ sequence_number <$> tk).
  { destruct (fate_held _ _ _ _ F) as [L|L]; [lia|]. rewrite Hcons, fmap_app, elem_of_app, Hxe in L.
    destruct L as [L|L]; [done|]. apply list_elem_of_fmap in L as (q & Hq & Hin).
    rewrite Forall_forall in Hp'. specialize (Hp' q Hin). cbn in Hp'. lia. }
  destruct Hr as [(first & Hf & Hs & Hfe) _ _]. specialize (Hfe Hne).
  rewrite Hs in Hin. apply elem_of_seqZ in Hin. assert (first = e) as -> by lia.
  rewrite Hs. f_equal. lia.
Qed.

Lemma caught_up_held n0 seen b e x ac y :
  caught_up n0 seen b e -> fate_of e b x ac -> y ∈ seen ++ [x] ->
  number y < e \/ number y ∈ sequence_number <$> (pending b ++ ac).
Proof.
  intros [Hfm _ Hwait] F Hy. destruct (first_missing_spec n0 (number <$> seen)) as (_ & _ & Hmiss).
  rewrite Hfm in Hmiss. apply elem_of_app in Hy as [Hy|Hy%list_elem_of_singleton]; [|subst; by eapply fate_held].
  rewrite Forall_forall in Hwait. specialize (Hwait y Hy).
  assert (number y <> e) by (intros Hye; apply Hmiss; rewrite <- Hye; by apply list_elem_of_fmap_2).
  destruct (decide (number y < e)); [by left|]. right. rewrite fmap_app, elem_of_app. left. apply Hwait. lia.
Qed.

Lemma calm_push b e top x b' out n0 seen tk ac e' :
  near_inv b e top -> e <= expected_bound -> top - 32767 <= number x <= top + 500 -> n0 <= e ->
  push (number x mod 65536) x.1.2 x.2 b = (b', out) -> out = packet <$> tk ->
  pending b ++ ac ≡ₚ tk ++ pending b' -> fate_of e b x ac -> released_from e e' tk ->
  near_inv b' e' (Z.max top (number x)) ->
  caught_up n0 seen b e -> calm (settings b) n0 seen [x] ->
  sequence_number <$> tk = seqZ e (e' - e) /\ caught_up n0 (seen ++ [x]) b' e'.
Proof.
  intros I He Hn Hn0 E Ho Hcons F Hr I' C K. pose proof (rf_mono _ _ _ Hr) as Hmono.
  pose proof (pending_ahead _ _ (ni_wf _ _ _ I') (ni_expected _ _ _ I')) as Hp'.
  pose proof (released_in_order _ _ _ _ _ _ _ _ _ _ _ I He Hn Hn0 E Ho Hcons F Hr Hp' C K) as Htk.
  apply released_bounds in Hr as [_ Hr].
  destruct (first_missing_spec n0 (number <$> seen)) as (_ & Hbelow & _).
  rewrite (cu_expected _ _ _ _ C) in Hbelow.
  assert (Hseen : Forall (fun q => as_arrival q ∈ seen ++ [x]) (tk ++ pending b')).
  { rewrite <- Hcons. apply Forall_app. split.
    - eapply Forall_impl; [exact (cu_pending _ _ _ _ C)|]. cbn. intros q Hq. apply elem_of_app. by left.
    - apply Forall_forall. intros q Hq. apply elem_of_app. right.
      destruct F as [F|[-> _]]; [|by apply not_elem_of_nil in Hq].
      apply (list_elem_of_fmap_2 as_arrival) in Hq. by rewrite F in Hq. }
  assert (Hheld : forall y, y ∈ seen ++ [x] -> number y < e' \/ number y ∈ sequence_number <$> pending b').
  { intros y Hy. destruct (caught_up_held _ _ _ _ _ _ _ C F Hy) as [L|L]; [left; lia|].
    by apply (held_next _ _ _ _ _ _ _ Hcons Hr). }
  split; [done|]. split.
  - apply first_missing_unique; [lia| |].
    + intros k Hk. rewrite fmap_app, elem_of_app. destruct (decide (k < e)); [left; apply Hbelow; lia|].
      assert (Hin : k ∈ sequence_number <$> tk) by (rewrite Htk; apply elem_of_seqZ; lia).
      apply list_elem_of_fmap in Hin as (q & -> & Hq). apply Forall_app in Hseen as [Hseen _].
      rewrite Forall_forall in Hseen. specialize (Hseen q Hq). rewrite elem_of_app in Hseen.
      destruct Hseen as [Hs|Hs]; [left|right]; by apply (list_elem_of_fmap_2 number) in Hs.
    + intros (y & -> & Hy)%list_elem_of_fmap. destruct (Hheld y Hy) as [L|L]; [lia|].
      apply list_elem_of_fmap in L as (q & Hq & Hin). rewrite Forall_forall in Hp'.
      specialize (Hp' q Hin). cbn in Hp'. lia.
  - by apply Forall_app in Hseen as [_ Hseen].
  - apply Forall_forall. intros y Hy Hgt. destruct (Hheld y Hy) as [L|L]; [lia|done].
Qed.

(** What a run does with the packets [l] that come after [seen]. *)
Record run_result n0 (seen l : list (Z * Z * T)) b (e : Z) b' (out : list T)
    (taken accepted : list (PendingPacket T)) (e' : Z) : Prop := {
  rr_out : out = packet <$> taken;
  rr_conserve : pending b ++ accepted ≡ₚ taken ++ pending b';
  rr_accepted : (as_arrival <$> accepted) `sublist_of` l;
  rr_sorted : StronglySorted Z.lt (sequence_number <$> taken);
  rr_bounds : Forall (fun k => e <= k < e') (sequence_number <$> taken);
  rr_last : e <= e' /\ (e < e' -> e' - 1 ∈ sequence_number <$> taken);
  rr_fate : forall y, y ∈ l -> number y < e' \/ number y ∈ sequence_number <$> pending b';
  rr_calm : caught_up n0 seen b e -> calm (settings b) n0 seen l ->
    sequence_number <$> taken = seqZ e (e' - e) /\ caught_up n0 (seen ++ l) b' e'
}.

Lemma near_run l : forall b e top b' out n0 seen,
  near_inv b e top -> stays_near top l -> top + 500 * Z.of_nat (length l) < expected_bound -> n0 <= e ->
  push_all (map on_wire l) b = (b', out) ->
  exists taken accepted e' top',
    run_result n0 seen l b e b' out taken accepted e' /\ near_inv b' e' top' /\ settings b' = settings b.
Proof.
  induction l as [|x l IH]; intros b e top b' out n0 seen I Hn Hb Hn0; cbn [push_all map on_wire].
  { intros [= <- <-]. exists [], [], e, top. split; [|done]. split; cbn; try done.
    - by rewrite app_nil_r.
    - constructor.
    - split; [done|lia].
    - intros y Hy. by apply not_elem_of_nil in Hy.
    - rewrite Z.sub_diag, app_nil_r. auto. }
  destruct Hn as [Hx Hn]. cbn [length] in Hb. pose proof (ni_top _ _ _ I).
  unfold on_wire at 1. destruct (push _ _ _ b) as [b1 out1] eqn:E1.
  destruct (push_all _ b1) as [b2 out2] eqn:E2. intros [= <- <-].
  destruct (near_push b e top x b1 out1 I ltac:(lia) Hx E1) as (t1 & a1 & e1 & Ho & Hc & F & R & I1 & Hs).
  pose proof (calm_push b e top x b1 out1 n0 seen t1 a1 e1 I ltac:(lia) Hx Hn0 E1 Ho Hc F R I1) as Hcalm.
  pose proof (rf_mono _ _ _ R). pose proof (rf_nothing _ _ _ R) as Hno. pose proof (last_released _ _ _ R) as Hla.
  apply released_bounds in R as [R1 R2].
  destruct (IH b1 e1 (Z.max top (number x)) b2 out2 n0 (seen ++ [x]) I1 Hn ltac:(lia) ltac:(lia) E2)
    as (t2 & a2 & e2 & top2 & [Ho2 Hc2 Ha2 Hs2 Hf2 [Hm2 Hl2] Hfate2 Hcalm2] & I2 & Hset).
  exists (t1 ++ t2), (a1 ++ a2), e2, top2. split; [|split; [done|congruence]]. split.
  - by rewrite fmap_app, Ho, Ho2.
  - by rewrite app_assoc, Hc, <- app_assoc, Hc2, app_assoc.
  - rewrite fmap_app. change (x :: l) with ([x] ++ l). apply sublist_app; [|done].
    destruct F as [->|[-> _]]; [done|apply sublist_nil_l].
  - rewrite fmap_app. apply StronglySorted_app_2; try done. intros y z Hy Hz.
    rewrite Forall_forall in R2, Hf2. specialize (R2 _ Hy). specialize (Hf2 _ Hz). lia.
  - rewrite fmap_app. apply Forall_app. split; eapply Forall_impl; try done; cbn; lia.
  - split; [lia|]. intros Hlt. rewrite fmap_app, elem_of_app. destruct (decide (e1 < e2)); [right; auto|].
    left. replace e2 with e1 by lia. apply Hla. intros ->. specialize (Hno eq_refl). lia.
  - intros y Hy%elem_of_cons. destruct Hy as [->|Hy]; [|auto].
    destruct (fate_held _ _ _ _ F) as [L|L]; [left; lia|].
    destruct (held_next _ _ _ _ _ _ _ Hc R2 L) as [M|M]; [left; lia|].
    apply (held_next b1 a2 t2 b2 e1 e2); try done. rewrite fmap_app. apply elem_of_app. by left.
  - intros C (H1 & H2 & H3). destruct Hcalm as [Q1 C1]; [done|done|]. rewrite Hs in Hcalm2.
    destruct (Hcalm2 C1 H3) as [Q2 C2]. rewrite <- app_assoc in C2. split; [|done].
    rewrite fmap_app, Q1, Q2. replace (e2 - e) with ((e1 - e) + (e2 - e1)) by lia.
    rewrite seqZ_app by lia. repeat f_equal; lia.
Qed.

(** After the first packet. *)
Lemma first_near st x :
  0 <= number x < 65536 -> near_inv (mk_buffer st (Some (number x + 1)) []) (number x + 1) (number x).
Proof.
  intros Hx. split; cbn; [| |lia|done|lia].
  - split; cbn; [unfold pending_limit, ABSOLUTE_PENDING_CAP; destruct (Z.ltb_spec 0 (max_packets st)); lia|].
    split; [lia|]. split; cbn; [apply NoDup_nil_2|done].
  - done.
Qed.

Lemma first_caught st x :
  caught_up (number x) [x] (mk_buffer st (Some (number x + 1)) []) (number x + 1).
Proof.
  split; cbn; [|done|by apply Forall_singleton; lia]. apply first_missing_unique; [lia| |].
  - intros k Hk. apply list_elem_of_singleton. lia.
  - rewrite list_elem_of_singleton. lia.
Qed.
End sent.

(** Numbers extended one after the other. *)
Fixpoint extend_all (u : RtpSequenceUnwrapper) (raws : list Z) : RtpSequenceUnwrapper * list Z :=
  match raws with
  | [] => (u, [])
  | r :: raws =>
      let '(u, n) := extend u r in
      let '(u, ns) := extend_all u raws in (u, n :: ns)
  end.

(** Each number is ahead of the one before it by less than half a period. *)
Fixpoint steps_forward (prev : Z) (ns : list Z) : Prop :=
  match ns with
  | [] => True
  | n :: ns => prev < n <= prev + 32768 /\ n < expected_bound /\ steps_forward n ns
  end.

(** The last of [prev :: ns]. *)
Definition latest (prev : Z) (ns : list Z) : Z := foldl (fun _ n => n) prev ns.

Lemma seq_ahead_forward e n :
  e <= n < e + 32768 -> seq_ahead e (n mod 65536) = n - e.
Proof.
  intros H. unfold seq_ahead. rewrite Zminus_mod_idemp_l. apply Z.mod_small. lia.
Qed.

Lemma extend_forward e n m :
  0 <= e <= n -> n < e + 32768 -> n < expected_bound ->
  (forall m', m = Some m' -> m' < n) ->
  extend (mk_unwrapper (Some e) m) (n mod 65536) = (mk_unwrapper (Some (n + 1)) (Some n), n).
Proof.
  intros He Hn Hb Hm. unfold extend. cbn [unw_expected unw_max].
  assert (Hr : in_u 16 (n mod 65536)) by (apply Z.mod_pos_bound; lia).
  pose proof (closest_candidate_spec e _ ltac:(lia) Hr) as C.
  destruct (closest_candidate _ _) as [best diff]. rewrite seq_ahead_forward in C by lia.
  destruct C as [C1 C2]. periods. destruct (Z.leb_spec 32768 diff); [lia|].
  rewrite C2 by lia. destruct (Z.ltb_spec (n - e) 32768); [|lia].
  replace (e + (n - e)) with n by lia. destruct (Z.ltb_spec n e); [lia|].
  unfold expected_bound in Hb. change (2 ^ 63) with 9223372036854775808 in Hb.
  rewrite (wrap_u_small 64 n), (wrap_u_small 64 (n + 1))
    by (unfold in_u; change (2 ^ 64) with 18446744073709551616; lia).
  destruct m as [m|]; [|done]. specialize (Hm m eq_refl). by destruct (Z.ltb_spec m n); [|lia].
Qed.

Lemma extend_all_forward ns : forall prev,
  0 <= prev -> steps_forward prev ns ->
  extend_all (mk_unwrapper (Some (prev + 1)) (Some prev)) (map (fun n => n mod 65536) ns)
  = (mk_unwrapper (Some (latest prev ns + 1)) (Some (latest prev ns)), ns).
Proof.
  induction ns as [|n ns IH]; intros prev Hp H; [done|]. destruct H as (H1 & H2 & H3).
  cbn [map extend_all]. rewrite extend_forward by (try lia; by intros m [= <-]; lia).
  by rewrite IH by (done || lia).
Qed.

(** ** Claims *)

(** Whatever numbers come, with any settings (up to 2^40 packets, so that the 64-bit numbers
    do not overflow): the accepted packets are a subsequence of the arrivals, the packets that
    come out are in strictly increasing order of the numbers that the buffer gave them, and
    at most [pending_limit] packets are ever pending, all of them ahead of everything
    released. *)
Theorem reorder_any_numbers {T} (st : RtpReorderSettings) (inputs : list (Z * Z * T)) :
  Forall (fun i => in_u 16 (fst (fst i))) inputs -> Z.of_nat (length inputs) < 2 ^ 40 ->
  let '(b, out) := push_all inputs (buffer_new st) in
  exists released accepted,
    out = packet <$> released /\
    StronglySorted Z.lt (sequence_number <$> released) /\
    accepted ≡ₚ released ++ pending b /\
    (arrival_of <$> accepted) `sublist_of` inputs /\
    Z.of_nat (length (pending b)) <= pending_limit st /\
    (forall p q, p ∈ released -> q ∈ pending b -> sequence_number p < sequence_number q).
Proof.
  intros Hraw Hlen. destruct (push_all inputs (buffer_new st)) as [b out] eqn:E.
  assert (W0 : buffer_wf (T:=T) (buffer_new st)).
  { split; [|done]. cbn. unfold pending_limit, ABSOLUTE_PENDING_CAP. destruct (Z.ltb_spec 0 (max_packets st)); lia. }
  assert (B0 : default 0 (expected_seq (T:=T) (buffer_new st)) + 65536 * Z.of_nat (length inputs)
               <= expected_bound).
  { cbn [default expected_seq buffer_new]. change (default 0 None) with 0. unfold expected_bound.
    change (2 ^ 40) with 1099511627776 in Hlen. change (2 ^ 63) with 9223372036854775808. lia. }
  destruct (push_all_spec inputs _ b out W0 Hraw B0 E)
    as (tk & ac & Ho & Hc & Ha & Hs & Hf & Hm & [Hwl Hw] & Hset).
  exists tk, ac. rewrite Hset in Hwl. do 5 (split; [done|]). intros p q Hp Hq.
  rewrite Forall_forall in Hf. specialize (Hf _ (list_elem_of_fmap_2 sequence_number _ _ Hp)).
  destruct (expected_seq b) as [e|] eqn:Ee; [|rewrite Hw in Hq; by apply not_elem_of_nil in Hq].
  destruct Hw as [_ [_ Hr]]. rewrite Forall_forall in Hr. specialize (Hr q Hq).
  change (default 0 (Some e)) with e in Hf. lia.
Qed.

(** [C16] The buffer puts the packets back in the order in which their sender numbered them,
    though it sees only 16 bits of a number. The packets [x :: sent] come with the sender's
    own numbers, which go on without end from one in the first period; on the wire is the
    number modulo 2^16. No packet is more than 500 numbers ahead of all that came before it
    or half a period behind the highest. Then the packets that come out carry strictly
    increasing numbers, the sender's own; the packets taken are a subsequence of the arrivals,
    and each of them has come out or waits, at most [pending_limit] of them, ahead of all that
    came out; one that is not taken has a number that was taken already, or that a later one
    has overtaken. And as long as the limits on the number of waiting packets and on their
    delay are not reached, nothing is overtaken: what has come out is every number from the
    first on, without a gap, up to the first one that has not arrived. *)
Theorem reorder_stream {T} (st : RtpReorderSettings) (x : Z * Z * T) (sent : list (Z * Z * T)) :
  0 <= number x < 65536 -> stays_near (number x) sent -> Z.of_nat (length sent) < 2 ^ 40 ->
  let '(b, out) := push_all (map on_wire (x :: sent)) (buffer_new st) in
  exists released accepted,
    out = packet <$> released /\
    StronglySorted Z.lt (sequence_number <$> released) /\
    (as_arrival <$> accepted) `sublist_of` x :: sent /\
    accepted ≡ₚ released ++ pending b /\
    Z.of_nat (length (pending b)) <= pending_limit st /\
    (forall p q, p ∈ released -> q ∈ pending b -> sequence_number p < sequence_number q) /\
    (forall y, y ∈ x :: sent ->
       number y ∈ sequence_number <$> accepted \/
       exists q, q ∈ released /\ number y < sequence_number q) /\
    (calm st (number x) [x] sent ->
     sequence_number <$> released
     = seqZ (number x) (first_missing (number x) (number <$> x :: sent) - number x)).
Proof.
  intros Hx Hn Hl. cbn [map push_all]. unfold on_wire at 1.
  set (b1 := mk_buffer st (Some (number x + 1)) [] : RtpReorderBuffer T).
  assert (E1 : push (number x mod 65536) x.1.2 x.2 (buffer_new st) = (b1, [x.2])).
  { unfold push, extend_sequence. cbn [expected_seq buffer_new].
    by rewrite Z.mod_small, wrap_u_small by (unfold in_u; lia). }
  rewrite E1. destruct (push_all _ b1) as [b out] eqn:E. pose proof (first_near st x Hx) as I.
  destruct (near_run sent b1 (number x + 1) (number x) b out (number x) [x] I Hn)
    as (tk & ac & e & top & [Ho Hc Ha Hs Hb [Hm Hlast] Hf Hcalm] & I' & Hset); [|lia|done|].
  { unfold expected_bound. change (2 ^ 40) with 1099511627776 in Hl. change (2 ^ 63) with 9223372036854775808. lia. }
  set (q0 := mk_pending (number x) x.1.2 x.2). cbn in Hc.
  exists (q0 :: tk), (q0 :: ac). cbn [fmap list_fmap].
  pose proof (pending_ahead _ _ (ni_wf _ _ _ I') (ni_expected _ _ _ I')) as Hp.
  assert (Hrel : Forall (fun q => sequence_number q < e) (q0 :: tk)).
  { constructor; [cbn; lia|]. rewrite Forall_fmap in Hb. eapply Forall_impl; [exact Hb|]. cbn. lia. }
  assert (Hle : e - 1 ∈ sequence_number <$> (q0 :: tk)).
  { apply elem_of_cons. destruct (decide (number x + 1 < e)); [right; auto|left; cbn; lia]. }
  split; [by rewrite Ho|]. split.
  { constructor; [done|]. eapply Forall_impl; [exact Hb|]. cbn. lia. }
  split; [destruct x as [[n a] p]; by apply sublist_skip|]. split; [by rewrite Hc|].
  split; [replace st with (settings b) by done; apply (ni_wf _ _ _ I')|]. split.
  { intros p q Hp1 Hq. rewrite Forall_forall in Hrel, Hp. specialize (Hrel p Hp1). specialize (Hp q Hq). lia. }
  split.
  - intros y Hy. assert (Hcase : number y < e \/ number y ∈ sequence_number <$> pending b).
    { apply elem_of_cons in Hy as [->|Hy]; [left; lia|auto]. }
    apply list_elem_of_fmap in Hle as (q & Hqe & Hq).
    destruct Hcase as [L|L]; [destruct (decide (number y = e - 1)) as [->|]; [left|right; exists q; split; [done|lia]]|left].
    + rewrite Hqe. apply (list_elem_of_fmap_2 sequence_number (q0 :: ac) q). rewrite Hc. apply (elem_of_app (q0 :: tk)). by left.
    + apply list_elem_of_fmap in L as (q' & -> & Hq'). apply (list_elem_of_fmap_2 sequence_number (q0 :: ac) q'). rewrite Hc.
      apply (elem_of_app (q0 :: tk)). by right.
  - intros C. destruct Hcalm as [Q [Hfm _ _]]; [apply first_caught; done|done|].
    rewrite Q. cbn [app] in Hfm. cbn [fmap list_fmap] in Hfm. rewrite Hfm, (seqZ_cons (number x)) by lia. cbn.
    f_equal. f_equal; lia.
Qed.

Lemma reorder_stream_witness :
  let s := [(65536, 1, "b"); (65535, 2, "c"); (65533, 3, "d"); (65538, 4, "e"); (65537, 5, "f"); (65540, 6, "g")]%string in
  let '(b, out) := push_all (map on_wire ((65534, 0, "a")%string :: s)) (buffer_new (mk_settings 2 40)) in
  out = ["a"; "c"; "b"; "f"; "e"]%string /\ (exists released : list (PendingPacket string),
    out = packet <$> released /\ sequence_number <$> released = [65534; 65535; 65536; 65537; 65538]).
Proof.
  intros s. pose proof (reorder_stream (mk_settings 2 40) (65534, 0, "a"%string) s) as R.
  destruct (push_all _ _) as [b out] eqn:E.
  assert (Ho : out = ["a"; "c"; "b"; "f"; "e"]%string) by (vm_compute in E; by injection E as <- <-).
  destruct R as (rel & acc & Hout & _ & _ & _ & _ & _ & _ & Hc).
  { cbn. lia. }
  { cbn. lia. }
  { cbn. lia. }
  split; [done|]. exists rel. split; [done|]. rewrite Hc; [by vm_compute|].
  repeat (split; [by vm_compute|]; split; [by vm_compute; repeat constructor|]). done.
Defined.

(** The unwrapper recovers the numbers. If a sender's 64-bit packet numbers
    start in the first period and each is ahead of the one before by at most half
    a period, then from their low 16 bits the unwrapper returns exactly those
    numbers and keeps the last one as the highest seen. *)
Theorem unwrapper_recovers n ns :
  0 <= n < 65536 -> steps_forward n ns ->
  extend_all unwrapper_new (map (fun n => n mod 65536) (n :: ns))
  = (mk_unwrapper (Some (latest n ns + 1)) (Some (latest n ns)), n :: ns).
Proof.
  intros Hn Hs. cbn [map extend_all]. unfold extend at 1. cbn [unw_expected unwrapper_new].
  rewrite (Z.mod_small n), wrap_u_small by (unfold in_u; lia).
  by rewrite extend_all_forward by (done || lia).
Qed.

Lemma unwrapper_recovers_witness :
  extend_all unwrapper_new [65000; 2000; 34768; 34769] =
  (mk_unwrapper (Some 100306) (Some 100305), [65000; 67536; 100304; 100305]).
Proof.
  apply (unwrapper_recovers 65000 [67536; 100304; 100305]); [lia|].
  cbn. unfold expected_bound. lia.
Defined.

(** The delay limit is checked only when a packet from the future arrives, and
    releases one run of packets: packet [c] waits longer than [max_delay_ms]. *)
Example delay_limit_is_not_a_bound :
  push_all [(10, 0, "a"); (12, 0, "b"); (20, 0, "c"); (30, 100, "d")]%string
    (buffer_new (mk_settings 0 40))
  = (mk_buffer (mk_settings 0 40) (Some 13)
       [mk_pending 20 0 "c"; mk_pending 30 100 "d"]%string, ["a"; "b"]%string).
Proof. by vm_compute. Qed.

(** ** The tracker of RTSP *)

Inductive SeqEvent : Set :=
| Initial | Normal | Wrap | Reset | Duplicate | OutOfOrder
| Gap (lost : Z).

Record SeqTracker : Set := mk_tracker {
  last_seq : option Z;
  wrap_count : Z;
  total_packets : Z;
  total_lost : Z;
  reset_threshold : Z
}.

Definition with_threshold (threshold : Z) : SeqTracker := mk_tracker None 0 0 0 threshold.
Definition tracker_new : SeqTracker := with_threshold 5000.

Definition update (t : SeqTracker) (seq : Z) : SeqTracker * SeqEvent :=
  let packets := wrap_u 64 (total_packets t + 1) in
  let set l w n := mk_tracker (Some l) w packets n (reset_threshold t) in
  match last_seq t with
  | None => (set seq (wrap_count t) (total_lost t), Initial)
  | Some last =>
      let expected := wrap_u 16 (last + 1) in
      if seq =? expected then
        if expected =? 0 then (set seq (wrap_u 32 (wrap_count t + 1)) (total_lost t), Wrap)
        else (set seq (wrap_count t) (total_lost t), Normal)
      else if seq =? last then (set last (wrap_count t) (total_lost t), Duplicate)
      else
        let forward := wrap_u 16 (seq - expected) in
        let backward := wrap_u 16 (expected - seq) in
        if forward <? 0x8000 then
          if reset_threshold t <=? forward then (set seq 0 (total_lost t), Reset)
          else
            let lost := forward in
            (set seq (if seq <? last then wrap_u 32 (wrap_count t + 1) else wrap_count t)
               (wrap_u 64 (total_lost t + lost)), Gap lost)
        else
          if reset_threshold t <=? backward then (set seq 0 (total_lost t), Reset)
          else (set last (wrap_count t) (total_lost t), OutOfOrder)
  end.

Definition extended_seq (t : SeqTracker) : Z :=
  wrap_u 64 (wrap_count t * 65536 + default 0 (last_seq t)).

Definition fraction_lost_256 (t : SeqTracker) : Z :=
  if total_packets t =? 0 then 0
  else
    let expected := wrap_u 64 (total_packets t + total_lost t) in
    let frac := wrap_u 64 (total_lost t * 256) / expected in
    wrap_u 8 (Z.min frac 255).

Definition tracker_reset (t : SeqTracker) : SeqTracker := mk_tracker None 0 0 0 (reset_threshold t).

Fixpoint update_all (t : SeqTracker) (seqs : list Z) : SeqTracker :=
  match seqs with
  | [] => t
  | s :: seqs => update_all (fst (update t s)) seqs
  end.

(** ** Specification

    The sender numbers its packets without wrapping. The receiver's view: the
    highest number so far, how many packets it got, and how many numbers were
    jumped over. *)
Record view : Set := mk_view { v_highest : Z; v_packets : Z; v_lost : Z }.

Definition view_step (v : view) (n : Z) : view :=
  if v_highest v <? n
  then mk_view n (v_packets v + 1) (v_lost v + (n - v_highest v - 1))
  else mk_view (v_highest v) (v_packets v + 1) (v_lost v).

(** The packets arrive close enough to the highest number: jumps ahead lose fewer
    than [threshold] packets, late packets are fewer than [threshold] behind the
    next expected one. *)
Fixpoint within (threshold highest : Z) (ns : list Z) : Prop :=
  match ns with
  | [] => True
  | n :: ns =>
      0 <= n < 2 ^ 40 /\ n - (highest + 1) < threshold /\ highest + 1 - n < threshold /\
      within threshold (Z.max highest n) ns
  end.

Record tracks (t : SeqTracker) (v : view) : Prop := {
  tr_last : last_seq t = Some (v_highest v mod 65536);
  tr_wrap : wrap_count t = v_highest v / 65536;
  tr_packets : total_packets t = v_packets v;
  tr_lost : total_lost t = v_lost v;
  tr_range : 0 <= v_highest v < 2 ^ 40
}.

Lemma wrap16_mod x : wrap_u 16 x = x mod 65536.
Proof. done. Qed.

(** What the arithmetic of [update] sees of two numbers [h] and [n]. *)
Lemma forward_distance h n :
  wrap_u 16 (n mod 65536 - wrap_u 16 (h mod 65536 + 1)) = (n - (h + 1)) mod 65536.
Proof. rewrite !wrap16_mod. zdm. Qed.

Lemma tracks_step t v n :
  tracks t v -> 0 <= n < 2 ^ 40 -> 1 <= reset_threshold t <= 32768 ->
  n - (v_highest v + 1) < reset_threshold t -> v_highest v + 1 - n < reset_threshold t ->
  0 <= v_packets v < 2 ^ 50 -> 0 <= v_lost v < 2 ^ 50 ->
  tracks (fst (update t (n mod 65536))) (view_step v n).
Proof.
  intros [T1 T2 T3 T4 T5] Hn Ht Hf Hb Hp Hl.
  change (2 ^ 40) with 1099511627776 in *. change (2 ^ 50) with 1125899906842624 in *.
  unfold update. rewrite T1, T3, T4, T2. destruct v as [h k l]. cbn [v_highest v_packets v_lost] in *.
  assert (Wp : wrap_u 64 (k + 1) = k + 1).
  { apply wrap_u_small. unfold in_u. change (2 ^ 64) with 18446744073709551616. lia. }
  assert (Ww : wrap_u 32 (h / 65536 + 1) = h / 65536 + 1).
  { apply wrap_u_small. unfold in_u. change (2 ^ 32) with 4294967296. zdm. }
  assert (Wl : n > h -> wrap_u 64 (l + (n - (h + 1)) mod 65536) = l + (n - h - 1)).
  { intros. rewrite Z.mod_small by lia. rewrite wrap_u_small; [lia|].
    unfold in_u. change (2 ^ 64) with 18446744073709551616. lia. }
  rewrite forward_distance.
  assert (Eb : wrap_u 16 (wrap_u 16 (h mod 65536 + 1) - n mod 65536) = (h + 1 - n) mod 65536)
    by (rewrite !wrap16_mod; zdm).
  rewrite Eb, Wp, Ww. clear Eb Wp Ww. rewrite (wrap16_mod (h mod 65536 + 1)).
  unfold view_step. cbn [v_highest v_packets v_lost].
  change 32768 with (0x8000) in *.
  repeat match goal with
  | |- context [if ?b then _ else _] => destruct b eqn:?; cbn [fst]
  end; split; cbn [last_seq wrap_count total_packets total_lost v_highest v_packets v_lost];
    try rewrite Wl by lia; try lia; try (f_equal; zdm); try zdm.
Qed.

Lemma update_threshold t s : reset_threshold (fst (update t s)) = reset_threshold t.
Proof. unfold update. repeat case_match; reflexivity. Qed.

Lemma tracks_all ns : forall t v,
  tracks t v -> 1 <= reset_threshold t <= 32768 -> within (reset_threshold t) (v_highest v) ns ->
  0 <= v_packets v -> v_packets v + Z.of_nat (length ns) < 2 ^ 50 -> 0 <= v_lost v <= v_highest v ->
  tracks (update_all t (map (fun n => n mod 65536) ns)) (foldl view_step v ns) /\
  v_lost (foldl view_step v ns) <= v_highest (foldl view_step v ns) /\
  v_packets (foldl view_step v ns) = v_packets v + Z.of_nat (length ns) /\
  0 <= v_lost (foldl view_step v ns).
Proof.
  induction ns as [|n ns IH]; intros t v Ht Hth Hw Hp0 Hp Hl; cbn [map update_all foldl].
  { cbn. split; [done|lia]. }
  destruct Hw as (Hn & Hf & Hb & Hw). cbn [length] in Hp.
  pose proof (tr_range _ _ Ht) as Hr. change (2 ^ 40) with 1099511627776 in *.
  assert (Hs : tracks (fst (update t (n mod 65536))) (view_step v n)).
  { apply tracks_step; try done; change (2 ^ 50) with 1125899906842624 in *; lia. }
  assert (E : v_highest (view_step v n) = Z.max (v_highest v) n /\
              v_packets (view_step v n) = v_packets v + 1 /\
              0 <= v_lost (view_step v n) <= v_highest (view_step v n)).
  { unfold view_step. destruct (Z.ltb_spec (v_highest v) n); cbn; lia. }
  destruct E as (E1 & E2 & E3).
  destruct (IH _ _ Hs) as (H1 & H2 & H3 & H4); rewrite ?update_threshold, ?E1, ?E2; try done; try lia.
  split; [done|]. cbn [length]. lia.
Qed.

(** ** Claims *)

(** The tracker sees through the 16-bit numbers. Let a sender number its
    packets from [n] in the first period, and let them arrive in any order, with
    losses, duplicates and late packets, as long as every jump stays under the
    reset threshold. Fed only the low 16 bits, the tracker's extended sequence
    number is the highest number received, its packet count the number of
    arrivals, its loss count the numbers jumped over, and the loss fraction is
    their ratio in 1/256, at most 255. *)
Theorem tracker_refines threshold n ns :
  1 <= threshold <= 32768 -> 0 <= n < 65536 -> within threshold n ns ->
  Z.of_nat (length ns) < 2 ^ 40 ->
  let t := update_all (with_threshold threshold) (map (fun n => n mod 65536) (n :: ns)) in
  let v := foldl view_step (mk_view n 1 0) ns in
  extended_seq t = v_highest v /\
  total_packets t = 1 + Z.of_nat (length ns) /\
  total_lost t = v_lost v /\
  fraction_lost_256 t = Z.min (v_lost v * 256 / (v_packets v + v_lost v)) 255.
Proof.
  intros Hth Hn Hw Hlen t v. change (2 ^ 40) with 1099511627776 in *.
  assert (T0 : tracks (fst (update (with_threshold threshold) (n mod 65536))) (mk_view n 1 0)).
  { split; cbn; try done; [by rewrite Z.div_small|change (2 ^ 40) with 1099511627776; lia]. }
  destruct (tracks_all ns _ _ T0) as (H1 & H2 & H3 & H4);
    rewrite ?update_threshold; cbn [v_packets v_lost v_highest reset_threshold with_threshold]; try done;
    try (change (2 ^ 50) with 1125899906842624); try lia.
  change (update_all _ _) with t in H1. fold v in H1, H2, H3, H4. cbn [v_packets] in H3.
  destruct H1 as [R1 R2 R3 R4 R5]. change (2 ^ 40) with 1099511627776 in *.
  unfold extended_seq, fraction_lost_256. rewrite R1, R2, R3, R4.
  change (default 0 (Some ?x)) with x. split; [|split; [lia|split; [done|]]].
  - rewrite wrap_u_small; [zdm|]. unfold in_u. change (2 ^ 64) with 18446744073709551616. zdm.
  - destruct (Z.eqb_spec (v_packets v) 0); [lia|].
    rewrite !(wrap_u_small 64) by (unfold in_u; change (2 ^ 64) with 18446744073709551616; lia).
    apply wrap_u_small. unfold in_u. change (2 ^ 8) with 256.
    pose proof (Z.div_pos (v_lost v * 256) (v_packets v + v_lost v)). lia.
Qed.

Lemma tracker_refines_witness :
  let t := update_all tracker_new [65530; 65533; 65531; 2; 2; 1] in
  extended_seq t = 65538 /\ total_packets t = 6 /\ total_lost t = 6 /\
  fraction_lost_256 t = 128.
Proof.
  apply (tracker_refines 5000 65530 [65533; 65531; 65538; 65538; 65537]); cbn; lia.
Defined.
