(* ===== verification/Timeline.v ===== *)
(** * Media time: timebases, unwrapping, stamping

    Models the first half of [crates/foundation/cheetah-codec/src/time.rs]: tick
    conversion between timebases, the unwrapper of fixed-width timestamps, the
    generator of missing timestamps and the discontinuity judge. [i64] and [u64]
    additions written with [+] wrap, as in a release build; [/] truncates. *)
From stdpp Require Import sorting.
From S2P Require Import Prelude.

Definition i64_max : Z := 2 ^ 63 - 1.
(** Overflow behaviour of [i64]: [a + b], [a - b], [saturating_add], [saturating_sub]. *)
Definition i64_add (a b : Z) : Z := wrap_i 64 (a + b).
Definition i64_sub (a b : Z) : Z := wrap_i 64 (a - b).
Definition i64_sat_add (a b : Z) : Z := sat_i 64 (a + b).
Definition i64_sat_sub (a b : Z) : Z := sat_i 64 (a - b).

(** ** Timebases *)

Record Timebase : Set := mk_timebase { tb_num : Z; tb_den : Z }.

Definition timebase_wf (tb : Timebase) : Prop := in_u 32 (tb_num tb) /\ in_u 32 (tb_den tb).

(** The products fit [i128]; the cast to [i64] truncates. *)
Definition to_micros (tb : Timebase) (value : Z) : Z :=
  wrap_i 64 (Z.quot (value * tb_num tb * 1000000) (Z.max (tb_den tb) 1)).

Definition from_micros (tb : Timebase) (micros : Z) : Z :=
  wrap_i 64 (Z.quot (micros * tb_den tb) (Z.max (tb_num tb) 1 * 1000000)).

(** [TimebaseConverter::convert]. *)
Definition convert (value : Z) (src dst : Timebase) : Z := from_micros dst (to_micros src value).

(** ** Unwrapping *)

Record WrapUnwrapper : Set := mk_unwrapper {
  mask : Z; half : Z; high : Z; last_raw : option Z
}.

Definition unwrapper_new (bits : Z) : option WrapUnwrapper :=
  if (bits =? 0) || (63 <? bits) then None
  else Some (mk_unwrapper (Z.shiftl 1 bits - 1) (Z.shiftl 1 (bits - 1)) 0 None).

Definition unwrap (u : WrapUnwrapper) (raw : Z) : WrapUnwrapper * Z :=
  let raw := Z.land raw (mask u) in
  let high' :=
    match last_raw u with
    | Some last =>
        if (raw <? last) && (half u <? last - raw) then wrap_u 64 (high u + (mask u + 1))
        else if (last <? raw) && (half u <? raw - last) then wrap_u 64 (high u - (mask u + 1))
        else high u
    | None => high u
    end in
  (mk_unwrapper (mask u) (half u) high' (Some raw), wrap_u 64 (high' + raw)).

Definition unwrapper_reset (u : WrapUnwrapper) : WrapUnwrapper :=
  mk_unwrapper (mask u) (half u) 0 None.

(** ** Stamping *)

Inductive StampAdjustMode : Set := Source | Arrival | SampleCount | FrameRateGuess.

Record StampAdjust : Set := mk_stamp { sa_mode : StampAdjustMode; sa_last : option Z; sa_step : Z }.

Definition stamp_new (mode : StampAdjustMode) (step_us : Z) : StampAdjust :=
  mk_stamp mode None (Z.max step_us 1).

(** [now] is the [u64] of a [MonoTime]. *)
Definition adjust (s : StampAdjust) (source_pts_us : option Z) (now : Z) : StampAdjust * Z :=
  let now := wrap_i 64 now in
  let value := match sa_mode s with
               | Source => default now source_pts_us
               | Arrival => now
               | SampleCount | FrameRateGuess =>
                   match sa_last s with None => now | Some v => i64_add v (sa_step s) end
               end in
  let value := match sa_last s with
               | Some last => if value <=? last then i64_add last (sa_step s) else value
               | None => value
               end in
  (mk_stamp (sa_mode s) (Some value) (sa_step s), value).

(** ** Discontinuities *)

Record DiscontinuityJudge : Set := mk_judge { max_gap_us : Z; last_pts_us : option Z }.

Definition judge_new (gap : Z) : DiscontinuityJudge := mk_judge (Z.max gap 0) None.

Definition observe (j : DiscontinuityJudge) (pts_us : Z) : DiscontinuityJudge * bool :=
  let is_discontinuity :=
    match last_pts_us j with
    | Some last => (pts_us <? last) || (max_gap_us j <? i64_sub pts_us last)
    | None => false
    end in
  (mk_judge (max_gap_us j) (Some pts_us), is_discontinuity).

(** ** Facts *)

Lemma i64_range z : in_i 64 z <-> - 9223372036854775808 <= z < 9223372036854775808.
Proof. done. Qed.

Lemma sat_add_mono a b : in_i 64 a -> 0 <= b -> a <= i64_sat_add a b.
Proof. rewrite i64_range. unfold i64_sat_add, sat_i. change (2 ^ (64 - 1)) with 9223372036854775808. lia. Qed.

Lemma sat_succ a : in_i 64 a -> a < i64_max -> i64_sat_add a 1 = a + 1.
Proof.
  rewrite i64_range. unfold i64_sat_add, sat_i, i64_max.
  change (2 ^ (64 - 1)) with 9223372036854775808. change (2 ^ 63) with 9223372036854775808. lia.
Qed.

Lemma sat_sub_self a : i64_sat_sub a a = 0.
Proof. unfold i64_sat_sub. by rewrite Z.sub_diag. Qed.

Lemma to_micros_range tb v : in_i 64 (to_micros tb v).
Proof. by apply wrap_i_range. Qed.

Lemma from_micros_range tb v : in_i 64 (from_micros tb v).
Proof. by apply wrap_i_range. Qed.

Lemma sat_add_range a b : in_i 64 (i64_sat_add a b).
Proof. by apply sat_i_range. Qed.

Lemma sat_sub_range a b : in_i 64 (i64_sat_sub a b).
Proof. by apply sat_i_range. Qed.

#[export] Hint Resolve to_micros_range from_micros_range sat_add_range sat_sub_range : rust.

(** Timestamps one after the other. *)
Fixpoint unwrap_all (u : WrapUnwrapper) (raws : list Z) : WrapUnwrapper * list Z :=
  match raws with
  | [] => (u, [])
  | r :: raws =>
      let '(u, t) := unwrap u r in
      let '(u, ts) := unwrap_all u raws in (u, t :: ts)
  end.

(** True times, each less than half a period away from the one before. *)
Fixpoint steady (h prev : Z) (ts : list Z) : Prop :=
  match ts with
  | [] => True
  | t :: ts => 0 <= t < 2 ^ 63 /\ Z.abs (t - prev) < h /\ steady h t ts
  end.

(** The unwrapper after the true time [t]. *)
Definition at_time (bits t : Z) : WrapUnwrapper :=
  mk_unwrapper (2 ^ bits - 1) (2 ^ (bits - 1)) (t / 2 ^ bits * 2 ^ bits) (Some (t mod 2 ^ bits)).

Lemma unwrap_step bits t t' :
  1 <= bits <= 63 -> 0 <= t < 2 ^ 63 -> 0 <= t' < 2 ^ 63 -> Z.abs (t' - t) < 2 ^ (bits - 1) ->
  unwrap (at_time bits t) (t' mod 2 ^ bits) = (at_time bits t', t').
Proof.
  intros Hb Ht Ht' Hd. unfold unwrap, at_time. cbn [mask half high last_raw].
  set (P := 2 ^ bits) in *. set (h := 2 ^ (bits - 1)) in *.
  assert (EP : P = 2 * h) by (unfold P, h; rewrite <- Z.pow_succ_r by lia; f_equal; lia).
  assert (Hh : 1 <= h) by (assert (0 < h) by (apply Z.pow_pos_nonneg; lia); lia).
  assert (HP : P <= 2 ^ 63) by (apply Z.pow_le_mono_r; lia).
  change (2 ^ 63) with 9223372036854775808 in *.
  assert (El : Z.land (t' mod P) (P - 1) = t' mod P).
  { assert (E1 : P - 1 = Z.ones bits) by (rewrite Z.ones_equiv; unfold P; lia).
    rewrite E1, Z.land_ones by lia. fold P. by rewrite Z.mod_mod by lia. }
  rewrite El. clear El. pose proof (Z.div_mod t P ltac:(lia)) as Dt.
  pose proof (Z.div_mod t' P ltac:(lia)) as Dt'.
  pose proof (Z.mod_pos_bound t P ltac:(lia)) as Bt. pose proof (Z.mod_pos_bound t' P ltac:(lia)) as Bt'.
  set (q := t / P) in *. set (r := t mod P) in *. set (q' := t' / P) in *. set (r' := t' mod P) in *.
  assert (Hq : q' = q \/ q' = q + 1 \/ q' = q - 1) by nia.
  assert (Hq'0 : 0 <= q') by (apply Z.div_pos; lia).
  replace (P - 1 + 1) with P by lia.
  assert (G : forall x, x = q' * P -> wrap_u 64 x = q' * P).
  { intros x ->. apply wrap_u_small. unfold in_u. change (2 ^ 64) with 18446744073709551616. nia. }
  set (high' := if _ && _ then _ else _).
  assert (Eh : high' = q' * P).
  { unfold high'. destruct (Z.ltb_spec r' r), (Z.ltb_spec h (r - r')), (Z.ltb_spec r r'),
      (Z.ltb_spec h (r' - r)); cbn [andb]; try lia; try (apply G);
      destruct Hq as [Hq|[Hq|Hq]]; rewrite ?Hq in *; nia. }
  rewrite Eh. do 2 f_equal. rewrite wrap_u_small; [lia|].
  unfold in_u. change (2 ^ 64) with 18446744073709551616. lia.
Qed.

Lemma unwrap_all_steady bits ts : 1 <= bits <= 63 -> forall t,
  0 <= t < 2 ^ 63 -> steady (2 ^ (bits - 1)) t ts ->
  snd (unwrap_all (at_time bits t) (map (fun t => t mod 2 ^ bits) ts)) = ts.
Proof.
  intros Hb. induction ts as [|t' ts IH]; intros t Ht H; [done|]. destruct H as (H1 & H2 & H3).
  cbn [map unwrap_all]. rewrite unwrap_step by done.
  specialize (IH t' H1 H3). destruct (unwrap_all _ _) as [u rest]. cbn in *. by rewrite IH.
Qed.

(** Stamps one after the other, each with an optional source time and a clock. *)
Fixpoint adjust_all (s : StampAdjust) (inputs : list (option Z * Z)) : list Z :=
  match inputs with
  | [] => []
  | (src, now) :: inputs =>
      let '(s, v) := adjust s src now in v :: adjust_all s inputs
  end.

Lemma adjust_next s src now last :
  sa_last s = Some last -> 1 <= sa_step s -> in_i 64 (last + sa_step s) ->
  let '(s', v) := adjust s src now in
  last < v /\ sa_last s' = Some v /\ sa_step s' = sa_step s /\ sa_mode s' = sa_mode s.
Proof.
  intros Hl Hs Hr. unfold adjust. rewrite Hl. cbn [sa_last sa_step sa_mode].
  assert (E : i64_add last (sa_step s) = last + sa_step s) by (by apply wrap_i_small).
  rewrite E. set (value := match sa_mode s with Source => _ | _ => _ end).
  destruct (Z.leb_spec value last); repeat split; lia.
Qed.

(** An input that leaves room for the steps: source and clock below [2^62]. *)
Definition stamp_input_ok (i : option Z * Z) : Prop :=
  (forall v, fst i = Some v -> - 2 ^ 62 <= v < 2 ^ 62) /\ 0 <= snd i < 2 ^ 62.

Lemma adjust_bound s src now m :
  stamp_input_ok (src, now) -> 1 <= sa_step s -> 2 ^ 62 <= m -> m + sa_step s < 2 ^ 63 ->
  (forall l, sa_last s = Some l -> - 2 ^ 62 <= l <= m) ->
  - 2 ^ 62 <= snd (adjust s src now) <= m + sa_step s.
Proof.
  change (2 ^ 62) with 4611686018427387904. change (2 ^ 63) with 9223372036854775808.
  intros [H1 H2] Hs Hm Hb Hl. cbn [fst snd] in *. unfold adjust.
  change (2 ^ 62) with 4611686018427387904 in *.
  rewrite (wrap_i_small 64 now) by (try apply i64_range; lia).
  assert (Ha : forall l, sa_last s = Some l -> i64_add l (sa_step s) = l + sa_step s).
  { intros l E. specialize (Hl l E). unfold i64_add. apply wrap_i_small; [lia|]. apply i64_range. lia. }
  destruct (sa_last s) as [l|] eqn:El; cbn [snd].
  - specialize (Hl l eq_refl). specialize (Ha l eq_refl).
    destruct (sa_mode s); cbn [default]; try rewrite Ha; try (destruct src as [v|]; cbn; [specialize (H1 v eq_refl)|]); zcases; lia.
  - destruct (sa_mode s); try lia. destruct src as [v|]; cbn; [specialize (H1 v eq_refl)|]; lia.
Qed.

Lemma adjust_all_sorted inputs : forall s m,
  Forall stamp_input_ok inputs -> 1 <= sa_step s -> 2 ^ 62 <= m ->
  m + sa_step s * Z.of_nat (length inputs) < 2 ^ 63 ->
  (forall l, sa_last s = Some l -> - 2 ^ 62 <= l <= m) ->
  StronglySorted Z.lt (adjust_all s inputs) /\
  (forall l, sa_last s = Some l -> Forall (fun v => l < v) (adjust_all s inputs)).
Proof.
  induction inputs as [|[src now] inputs IH]; intros s m Hin Hs Hm Hb Hl; cbn [adjust_all].
  { split; [constructor|done]. }
  apply Forall_cons in Hin as [Hi Hin]. cbn [length] in Hb.
  assert (Hb' : m + sa_step s < 2 ^ 63) by nia.
  pose proof (adjust_bound s src now m Hi Hs Hm Hb' Hl) as B.
  assert (Hn : forall l, sa_last s = Some l -> l < snd (adjust s src now)).
  { intros l E. pose proof (adjust_next s src now l E Hs) as N.
    destruct (adjust s src now) as [s' v]. apply N. apply i64_range. specialize (Hl l E).
    change (2 ^ 62) with 4611686018427387904 in *. change (2 ^ 63) with 9223372036854775808 in *. lia. }
  assert (Es : sa_step (fst (adjust s src now)) = sa_step s /\
               sa_last (fst (adjust s src now)) = Some (snd (adjust s src now))) by done.
  destruct (adjust s src now) as [s' v]. cbn [fst snd] in *. destruct Es as [Es1 Es2].
  destruct (IH s' (m + sa_step s)) as [I1 I2]; rewrite ?Es1; try done; try lia.
  { intros l E. rewrite Es2 in E. injection E as <-. lia. }
  specialize (I2 v Es2). split.
  - by apply StronglySorted_cons.
  - intros l E. constructor; [by apply Hn|]. eapply Forall_impl; [exact I2|].
    cbn. specialize (Hn l E). lia.
Qed.

(** Truncating division within one unit. *)
Lemma quot_bounds a b : 0 <= a -> 0 < b -> b * (a ÷ b) <= a < b * (a ÷ b) + b.
Proof.
  intros. pose proof (Z.quot_rem a b ltac:(lia)). pose proof (Z.rem_bound_pos a b ltac:(lia) ltac:(lia)). lia.
Qed.

(** ** Claims *)

(** The unwrapper recovers the timeline. Take any width from 1 to 63 bits and
    any true times that start in the first period and move by less than half a
    period at each step, forward or back: fed the wrapped values, the unwrapper
    returns the true times. *)
Theorem unwrap_recovers bits u t ts :
  unwrapper_new bits = Some u -> 0 <= t < 2 ^ bits -> steady (2 ^ (bits - 1)) t ts ->
  snd (unwrap_all u (map (fun t => t mod 2 ^ bits) (t :: ts))) = t :: ts.
Proof.
  unfold unwrapper_new. intros Hu Ht Hs.
  destruct (Z.eqb_spec bits 0); [done|]. destruct (Z.ltb_spec 63 bits); [done|].
  injection Hu as <-. assert (Hb : 1 <= bits <= 63).
  { split; [|lia]. destruct (Z.le_gt_cases bits 0); [|lia].
    destruct (Z.eq_dec bits 0); [lia|]. rewrite Z.pow_neg_r in Ht by lia. lia. }
  rewrite !Z.shiftl_1_l. cbn [map unwrap_all]. unfold unwrap at 1. cbn [last_raw mask half high].
  assert (E : Z.land (t mod 2 ^ bits) (2 ^ bits - 1) = t).
  { replace (2 ^ bits - 1) with (Z.ones bits) by (rewrite Z.ones_equiv; lia).
    rewrite Z.land_ones, Z.mod_mod, Z.mod_small by lia. done. }
  assert (HP : 2 ^ bits <= 2 ^ 63) by (apply Z.pow_le_mono_r; lia).
  rewrite E, Z.add_0_l, wrap_u_small by
    (unfold in_u; change (2 ^ 63) with 9223372036854775808 in HP;
     change (2 ^ 64) with 18446744073709551616; lia).
  replace (mk_unwrapper _ _ 0 (Some t)) with (at_time bits t).
  - pose proof (unwrap_all_steady bits ts Hb t ltac:(lia) Hs) as R.
    destruct (unwrap_all _ _) as [u' rest]. cbn in *. by rewrite R.
  - unfold at_time. by rewrite Z.div_small, Z.mod_small by lia.
Qed.

Lemma unwrap_recovers_witness :
  snd (unwrap_all (mk_unwrapper 4294967295 2147483648 0 None) [4294967290; 4294967295; 5; 3; 100])
  = [4294967290; 4294967295; 4294967301; 4294967299; 4294967396].
Proof.
  apply (unwrap_recovers 32 _ 4294967290 [4294967295; 4294967301; 4294967299; 4294967396]);
    [done|lia|cbn; lia].
Defined.

(** Converting ticks to microseconds and back loses at most one tick, and
    loses nothing upwards: with a tick of at least one microsecond and no value
    outside [i64], the result is the value or the one before it, so timestamps
    never move into the future and stay in order. *)
Theorem timebase_roundtrip tb v :
  timebase_wf tb -> 1 <= tb_num tb -> 1 <= tb_den tb -> tb_den tb <= tb_num tb * 1000000 ->
  0 <= v -> v * tb_num tb * 1000000 / tb_den tb <= i64_max ->
  v - 1 <= from_micros tb (to_micros tb v) <= v.
Proof.
  intros _ Hn Hd Hle Hv Hmax. unfold from_micros, to_micros, i64_max in *.
  set (N := tb_num tb) in *. set (D := tb_den tb) in *.
  rewrite (Z.max_l D 1), (Z.max_l N 1) by lia.
  rewrite <- Z.quot_div_nonneg in Hmax by nia.
  pose proof (quot_bounds (v * N * 1000000) D ltac:(nia) ltac:(lia)) as B1.
  set (m := (v * N * 1000000) ÷ D) in *.
  assert (Hm0 : 0 <= m) by (apply Z.quot_pos; nia).
  rewrite (wrap_i_small 64 m) by (try apply i64_range; change (2 ^ 63) with 9223372036854775808 in Hmax; lia).
  pose proof (quot_bounds (m * D) (N * 1000000) ltac:(nia) ltac:(lia)) as B2.
  set (r := (m * D) ÷ (N * 1000000)) in *.
  assert (Hr0 : 0 <= r) by (apply Z.quot_pos; nia).
  assert (Hr1 : v - 1 <= r <= v) by nia.
  rewrite wrap_i_small; [done|lia|]. apply i64_range.
  change (2 ^ 63) with 9223372036854775808 in Hmax.
  assert (v <= m) by nia. lia.
Qed.

Lemma timebase_roundtrip_witness :
  from_micros (mk_timebase 1 90000) (to_micros (mk_timebase 1 90000) 3601) = 3600 /\
  3601 - 1 <= from_micros (mk_timebase 1 90000) (to_micros (mk_timebase 1 90000) 3601) <= 3601.
Proof.
  split; [by vm_compute|]. apply timebase_roundtrip; [split; unfold in_u; cbn; lia|cbn; lia..|].
  vm_compute. discriminate.
Defined.

(** Generated stamps strictly increase, in every mode, whatever source
    timestamps and clock values come in (below 2^62 microseconds, and a number of
    frames whose steps stay in [i64]). *)
Theorem stamps_increase mode step_us inputs :
  Forall stamp_input_ok inputs ->
  Z.max step_us 1 * Z.of_nat (length inputs) < 2 ^ 62 ->
  StronglySorted Z.lt (adjust_all (stamp_new mode step_us) inputs).
Proof.
  intros Hin Hb. change (2 ^ 62) with 4611686018427387904 in Hb.
  apply (adjust_all_sorted inputs (stamp_new mode step_us) (2 ^ 62)); cbn [sa_step sa_last stamp_new];
    try done; [lia|].
  change (2 ^ 62) with 4611686018427387904. change (2 ^ 63) with 9223372036854775808. lia.
Qed.

Lemma stamps_increase_witness :
  adjust_all (stamp_new Source 10) [(Some 5, 0); (Some 5, 1); (None, 2); (Some 1000, 3)]
    = [5; 15; 25; 1000] /\
  StronglySorted Z.lt
    (adjust_all (stamp_new Source 10) [(Some 5, 0); (Some 5, 1); (None, 2); (Some 1000, 3)]).
Proof.
  split; [by vm_compute|]. apply stamps_increase; [|vm_compute; done].
  repeat (apply Forall_cons; split; [split; cbn; [by intros v [= <-]|lia]|]). by apply Forall_nil.
Defined.
