(* ===== verification/TimestampNormalizer.v ===== *)
(** * Timestamp normalization

    Models the second half of [crates/foundation/cheetah-codec/src/time.rs]: the
    DTS generator and [TimestampNormalizer], where every ingress protocol turns its
    timestamps into one monotone timeline. *)
From stdpp Require Import sorting.
From S2P Require Import Prelude Timeline.

(** ** DTS generator *)

Record DtsGenerator : Set := mk_generator {
  g_last_dts : option Z;
  g_last_source_pts : option Z;
  g_smoothed_step : option Z;
  g_pts_reorder_seen : bool
}.

Definition generator_default : DtsGenerator := mk_generator None None None false.
Definition generator_reset (g : DtsGenerator) : DtsGenerator := generator_default.

Definition generate_monotonic_from_pts (g : DtsGenerator) (pts : Z) : DtsGenerator * Z :=
  let dts := match g_last_dts g with
             | Some last => if pts <=? last then i64_add last 1 else pts
             | None => pts
             end in
  (mk_generator (Some dts) (g_last_source_pts g) (g_smoothed_step g) (g_pts_reorder_seen g), dts).

Record PtsOnlyDtsGeneration : Set := mk_generation {
  gen_dts : Z; gen_reordered : bool; gen_discontinuity : bool
}.

Definition i64_sat_mul (a b : Z) : Z := sat_i 64 (a * b).
Definition i64_sat_abs (a : Z) : Z := sat_i 64 (Z.abs a).

(** What the first [if let] of [generate_from_pts_only] decides. *)
Record cadence : Set := mk_cadence {
  cd_discontinuity : bool;
  cd_reordered : bool;
  cd_reorder_seen : bool;
  cd_smoothed : option Z;
  cd_step : Z;
  cd_observed : option Z
}.

Definition observe_pts (g : DtsGenerator) (pts fallback_step expected_step jump_threshold step : Z) :
    cadence :=
  let seen := g_pts_reorder_seen g in
  let smoothed := g_smoothed_step g in
  match g_last_source_pts g with
  | None => mk_cadence false false seen smoothed step None
  | Some last_pts =>
      let delta := i64_sat_sub pts last_pts in
      if jump_threshold <? i64_sat_abs delta then
        if (0 <? delta) && (step =? 0)
        then mk_cadence true false seen None delta (Some delta)
        else mk_cadence true false seen None step None
      else if delta <? 0 then mk_cadence false true true (Some fallback_step) step None
      else if (0 <? delta) && (step =? 0) then
        if seen then mk_cadence false false seen smoothed expected_step (Some expected_step)
        else mk_cadence false false seen smoothed delta (Some delta)
      else mk_cadence false false seen smoothed step None
  end.

Definition generate_from_pts_only (g : DtsGenerator) (pts fallback_step : Z)
    (frame_duration : option Z) (max_gap_ticks : Z) : DtsGenerator * PtsOnlyDtsGeneration :=
  let fallback_step := Z.max fallback_step 1 in
  let expected_step := Z.max (default fallback_step (g_smoothed_step g)) 1 in
  let jump_threshold :=
    Z.max (Z.max (Z.max max_gap_ticks (i64_sat_mul expected_step 8))
             (i64_sat_mul fallback_step 8)) 1 in
  let c := observe_pts g pts fallback_step expected_step jump_threshold
             (Z.max (default 0 frame_duration) 0) in
  let step := if cd_step c =? 0 then Z.max (default fallback_step (cd_smoothed c)) 1
              else cd_step c in
  let dts := match g_last_dts g with
             | Some last_dts => i64_sat_add last_dts step
             | None => pts
             end in
  let observed_step :=
    Z.max (match g_last_source_pts g with
           | Some last_pts =>
               let delta := i64_sat_sub pts last_pts in
               match cd_observed c with
               | Some value => value
               | None => if 0 <? delta then delta else step
               end
           | None => step
           end) 1 in
  let blended_step :=
    match cd_smoothed c with
    | Some previous => Z.max 1 (Z.min ((previous * 3 + observed_step) ÷ 4) i64_max)
    | None => observed_step
    end in
  (mk_generator (Some dts) (Some pts) (Some (Z.max blended_step 1)) (cd_reorder_seen c),
   mk_generation dts (cd_reordered c) (cd_discontinuity c)).

(** ** Configuration *)

Inductive TimestampValue : Set := Unwrapped (value : Z) | Wrapped (raw : Z).

Record TimestampNormalizerConfig : Set := mk_config {
  input_timebase : Timebase;
  output_timebase : Timebase;
  wrap_bits : option Z;
  max_forward_gap_us : Z;
  default_fallback_step : Z;
  allow_negative_composition : bool
}.

Inductive TimestampNormalizerConfigError : Set :=
| InvalidInputTimebase (num den : Z)
| InvalidOutputTimebase (num den : Z)
| InvalidWrapWidth (bits : Z).

Definition config_new (input output : Timebase) (bits : option Z) :
    result TimestampNormalizerConfigError TimestampNormalizerConfig :=
  if (tb_num input =? 0) || (tb_den input =? 0)
  then Err (InvalidInputTimebase (tb_num input) (tb_den input))
  else if (tb_num output =? 0) || (tb_den output =? 0)
  then Err (InvalidOutputTimebase (tb_num output) (tb_den output))
  else
    let config := mk_config input output bits 2000000 1 true in
    match bits with
    | Some b => if (b =? 0) || (63 <? b) then Err (InvalidWrapWidth b) else Ok config
    | None => Ok config
    end.

Definition with_max_forward_gap_us (gap : Z) (c : TimestampNormalizerConfig) :=
  mk_config (input_timebase c) (output_timebase c) (wrap_bits c) (Z.max gap 0)
    (default_fallback_step c) (allow_negative_composition c).
Definition with_default_fallback_step (step : Z) (c : TimestampNormalizerConfig) :=
  mk_config (input_timebase c) (output_timebase c) (wrap_bits c) (max_forward_gap_us c)
    (Z.max step 1) (allow_negative_composition c).
Definition with_negative_composition_allowed (allow : bool) (c : TimestampNormalizerConfig) :=
  mk_config (input_timebase c) (output_timebase c) (wrap_bits c) (max_forward_gap_us c)
    (default_fallback_step c) allow.

(** ** Inputs and outputs *)

Inductive TimestampNormalizeError : Set :=
| WrappedTimestampWithoutConfig
| UnwrappedTimestampOverflow (value : Z).

Inductive TimestampAlert : Set :=
| MissingDtsUsedFallback | MissingPtsDerivedFromDts | NonMonotonicDtsRepaired
| PtsReorderObserved | TimelineDiscontinuityDetected | NegativeCompositionClamped | ResetApplied.

#[export] Instance TimestampAlert_eq_dec : EqDecision TimestampAlert.
Proof. solve_decision. Defined.

Inductive TimestampNormalizeMode : Set :=
| NoTimestamp
| DtsPts (dts pts : TimestampValue)
| DtsWithCompositionOffset (dts : TimestampValue) (composition_offset : option Z)
| PtsOnly (pts : TimestampValue).

Record TimestampNormalizeInput : Set := mk_input {
  in_mode : TimestampNormalizeMode;
  in_frame_duration : option Z;
  in_fallback_step : option Z;
  in_is_video : bool;
  in_force_discontinuity : bool
}.

Record TimestampNormalizeOutput : Set := mk_output {
  out_pts : Z;
  out_dts : Z;
  out_pts_us : Z;
  out_dts_us : Z;
  out_discontinuity : bool;
  out_alerts : list TimestampAlert
}.

Definition push_alert (alerts : list TimestampAlert) (alert : TimestampAlert) :
    list TimestampAlert :=
  if decide (alert ∈ alerts) then alerts else alerts ++ [alert].

(** ** Normalizer *)

Record TimestampNormalizer : Set := mk_normalizer {
  n_config : TimestampNormalizerConfig;
  n_dts_unwrapper : option WrapUnwrapper;
  n_pts_unwrapper : option WrapUnwrapper;
  n_epoch_offset : option Z;
  n_last_dts : option Z;
  n_next_fallback_dts : option Z;
  n_dts_generator : DtsGenerator;
  n_pending_reset : bool
}.

Definition normalizer_new (config : TimestampNormalizerConfig) : TimestampNormalizer :=
  let unwrapper := match wrap_bits config with
                   | Some bits => unwrapper_new bits
                   | None => None
                   end in
  mk_normalizer config unwrapper unwrapper None None None generator_default false.

Definition normalizer_reset (n : TimestampNormalizer) : TimestampNormalizer :=
  mk_normalizer (n_config n) (unwrapper_reset <$> n_dts_unwrapper n)
    (unwrapper_reset <$> n_pts_unwrapper n) None None None
    (generator_reset (n_dts_generator n)) true.

Definition norm_op A := SE TimestampNormalizer TimestampNormalizeError A.

Definition set_unwrapper (is_dts : bool) (u : WrapUnwrapper) (n : TimestampNormalizer) :=
  mk_normalizer (n_config n) (if is_dts then Some u else n_dts_unwrapper n)
    (if is_dts then n_pts_unwrapper n else Some u) (n_epoch_offset n) (n_last_dts n)
    (n_next_fallback_dts n) (n_dts_generator n) (n_pending_reset n).

(** [resolve_ticks] of [Some value]. *)
Definition resolve_ticks (value : TimestampValue) (is_dts : bool) : norm_op Z :=
  n <- se_get ;;
  let convert_in raw_ticks :=
    convert raw_ticks (input_timebase (n_config n)) (output_timebase (n_config n)) in
  match value with
  | Unwrapped v => se_ret (convert_in v)
  | Wrapped raw =>
      match (if is_dts then n_dts_unwrapper n else n_pts_unwrapper n) with
      | None => se_err WrappedTimestampWithoutConfig
      | Some u =>
          let '(u, unwrapped) := unwrap u raw in
          se_upd (set_unwrapper is_dts u) ;;;
          if unwrapped <=? i64_max then se_ret (convert_in unwrapped)
          else se_err (UnwrappedTimestampOverflow unwrapped)
      end
  end.

(** The [match input.mode] of [normalize]: source DTS, source PTS, composition
    offset. *)
Definition resolve_mode (mode : TimestampNormalizeMode) :
    norm_op (option Z * option Z * option Z) :=
  match mode with
  | NoTimestamp => se_ret (None, None, None)
  | DtsPts dts pts =>
      d <- resolve_ticks dts true ;;
      p <- resolve_ticks pts false ;;
      se_ret (Some d, Some p, None)
  | DtsWithCompositionOffset dts offset =>
      d <- resolve_ticks dts true ;;
      n <- se_get ;;
      se_ret (Some d, None,
              (fun v => convert v (input_timebase (n_config n)) (output_timebase (n_config n)))
                <$> offset)
  | PtsOnly pts =>
      p <- resolve_ticks pts false ;;
      se_ret (None, Some p, None)
  end.

Definition is_pts_only (mode : TimestampNormalizeMode) : bool :=
  match mode with PtsOnly _ => true | _ => false end.

(** The missing-DTS branch: generator, generated DTS, discontinuity, alerts. *)
Definition derive_dts (n : TimestampNormalizer) (pts_only : bool) (source_pts : option Z)
    (fallback_step : Z) (frame_duration : option Z) (max_gap_ticks : Z)
    (discontinuity : bool) (alerts : list TimestampAlert) :
    DtsGenerator * Z * bool * list TimestampAlert :=
  let alerts := push_alert alerts MissingDtsUsedFallback in
  match source_pts with
  | Some pts =>
      if pts_only then
        let '(g, generated) :=
          generate_from_pts_only (n_dts_generator n) pts fallback_step frame_duration max_gap_ticks in
        let alerts := if gen_reordered generated then push_alert alerts PtsReorderObserved else alerts in
        if gen_discontinuity generated
        then (g, gen_dts generated, true, push_alert alerts TimelineDiscontinuityDetected)
        else (g, gen_dts generated, discontinuity, alerts)
      else
        let '(g, dts) := generate_monotonic_from_pts (n_dts_generator n) pts in
        (g, dts, discontinuity, alerts)
  | None => (n_dts_generator n, default 0 (n_next_fallback_dts n), discontinuity, alerts)
  end.

(** Monotonicity repair and gap detection. *)
Definition repair_dts (c : TimestampNormalizerConfig) (last : option Z) (dts : Z)
    (discontinuity : bool) (alerts : list TimestampAlert) : Z * bool * list TimestampAlert :=
  match last with
  | None => (dts, discontinuity, alerts)
  | Some last =>
      if dts <=? last
      then (i64_sat_add last 1, discontinuity, push_alert alerts NonMonotonicDtsRepaired)
      else
        let gap := to_micros (output_timebase c) (i64_sat_sub dts last) in
        if max_forward_gap_us c <? gap
        then (dts, true, push_alert alerts TimelineDiscontinuityDetected)
        else (dts, discontinuity, alerts)
  end.

(** [normalize] once the source timestamps are resolved. *)
Definition normalize_resolved (input : TimestampNormalizeInput)
    (source_dts source_pts composition_offset : option Z) (n : TimestampNormalizer) :
    TimestampNormalizer * TimestampNormalizeOutput :=
  let c := n_config n in
  let fallback_step :=
    Z.max (convert (Z.max (default (default_fallback_step c) (in_fallback_step input)) 1)
             (input_timebase c) (output_timebase c)) 1 in
  let frame_duration :=
    (fun value => Z.max (convert (Z.max value 1) (input_timebase c) (output_timebase c)) 1)
      <$> in_frame_duration input in
  let max_gap_ticks := Z.max (from_micros (output_timebase c) (max_forward_gap_us c)) 1 in
  let '(alerts, discontinuity) :=
    if n_pending_reset n then (push_alert [] ResetApplied, true)
    else ([], in_force_discontinuity input) in
  let '(generator, dts, discontinuity, alerts) :=
    match source_dts with
    | Some value => (n_dts_generator n, value, discontinuity, alerts)
    | None => derive_dts n (is_pts_only (in_mode input)) source_pts fallback_step frame_duration
                max_gap_ticks discontinuity alerts
    end in
  let has_source := match source_dts, source_pts with None, None => false | _, _ => true end in
  let epoch := if has_source then Some (default dts (n_epoch_offset n)) else n_epoch_offset n in
  let epoch_offset := if has_source then default dts (n_epoch_offset n) else 0 in
  let dts := i64_sat_sub dts epoch_offset in
  let '(dts, discontinuity, alerts) := repair_dts c (n_last_dts n) dts discontinuity alerts in
  let '(pts, alerts) :=
    match source_pts with
    | Some value => (i64_sat_sub value epoch_offset, alerts)
    | None => (i64_sat_add dts (default 0 composition_offset),
               push_alert alerts MissingPtsDerivedFromDts)
    end in
  let '(pts, alerts) :=
    if in_is_video input && negb (allow_negative_composition c) && (pts <? dts)
    then (dts, push_alert alerts NegativeCompositionClamped)
    else (pts, alerts) in
  (mk_normalizer c (n_dts_unwrapper n) (n_pts_unwrapper n) epoch (Some dts)
     (Some (i64_sat_add dts fallback_step)) generator false,
   mk_output pts dts (to_micros (output_timebase c) pts) (to_micros (output_timebase c) dts)
     discontinuity alerts).

Definition normalize (input : TimestampNormalizeInput) : norm_op TimestampNormalizeOutput :=
  sources <- resolve_mode (in_mode input) ;;
  let '(source_dts, source_pts, composition_offset) := sources in
  fun n =>
    let '(n, out) := normalize_resolved input source_dts source_pts composition_offset n in
    (n, Ok out).

(** Frames one after the other; a frame that fails is dropped by the caller. *)
Fixpoint normalize_all (inputs : list TimestampNormalizeInput) (n : TimestampNormalizer) :
    TimestampNormalizer * list TimestampNormalizeOutput :=
  match inputs with
  | [] => (n, [])
  | i :: inputs =>
      match normalize i n with
      | (n, Ok out) => let '(n, outs) := normalize_all inputs n in (n, out :: outs)
      | (n, Err _) => normalize_all inputs n
      end
  end.

(** ** What one frame gives *)

(** The last DTS is an [i64]. *)
Definition norm_wf (n : TimestampNormalizer) : Prop :=
  forall last, n_last_dts n = Some last -> in_i 64 last.

(** The next DTS after [last]: greater, or stuck at the end of [i64]. *)
Definition dts_after (last dts : Z) : Prop :=
  last < dts \/ (last = i64_max /\ dts = i64_max).

Lemma push_alert_nodup alerts a : NoDup alerts -> NoDup (push_alert alerts a).
Proof.
  unfold push_alert. destruct (decide _) as [|Hn]; [done|]. intros H.
  apply NoDup_app. split; [done|]. split; [|apply NoDup_singleton].
  intros x Hx Hy%list_elem_of_singleton. by subst.
Qed.

Lemma push_alert_in alerts a b : b ∈ alerts -> b ∈ push_alert alerts a.
Proof. unfold push_alert. destruct (decide _); [done|]. intros. apply elem_of_app. by left. Qed.

#[local] Hint Resolve push_alert_nodup push_alert_in : rust.

Lemma i64_max_range : in_i 64 i64_max.
Proof. unfold in_i, i64_max. lia. Qed.

Lemma derive_dts_spec n po sp fs fd mg disc al :
  NoDup al ->
  let '(_, _, disc', al') := derive_dts n po sp fs fd mg disc al in
  NoDup al' /\ (forall a, a ∈ al -> a ∈ al') /\ (disc = true -> disc' = true).
Proof.
  intros H. unfold derive_dts. destruct sp as [pts|].
  - destruct po.
    + destruct (generate_from_pts_only _ _ _ _ _) as [g gen].
      destruct (gen_reordered gen), (gen_discontinuity gen); split; auto with rust.
    + destruct (generate_monotonic_from_pts _ _). split; auto with rust.
  - split; auto with rust.
Qed.

Lemma repair_dts_spec c last dts disc al :
  (forall l, last = Some l -> in_i 64 l) -> in_i 64 dts -> NoDup al ->
  let '(dts', disc', al') := repair_dts c last dts disc al in
  in_i 64 dts' /\ (forall l, last = Some l -> dts_after l dts') /\
  (last = None -> dts' = dts) /\
  NoDup al' /\ (forall a, a ∈ al -> a ∈ al') /\ (disc = true -> disc' = true).
Proof.
  intros Hl Hd Hal. unfold repair_dts. destruct last as [l|]; [|by split_and!].
  specialize (Hl l eq_refl). destruct (Z.leb_spec dts l).
  - split_and!; auto with rust; [|done]. intros l' [= <-]. unfold dts_after.
    destruct (Z.eq_dec l i64_max) as [->|Hne]; [by right|]. left.
    rewrite sat_succ; [lia|done|]. unfold in_i in Hl. unfold i64_max in *. lia.
  - destruct (_ <? _); split_and!; auto with rust; try done; intros l' [= <-]; by left.
Qed.

(** The record of a successful call. *)
Record normalized (i : TimestampNormalizeInput) (n n' : TimestampNormalizer)
    (out : TimestampNormalizeOutput) : Prop := {
  nz_after : forall last, n_last_dts n = Some last -> dts_after last (out_dts out);
  nz_last : n_last_dts n' = Some (out_dts out);
  nz_config : n_config n' = n_config n;
  nz_pending : n_pending_reset n' = false;
  nz_range : in_i 64 (out_dts out) /\ in_i 64 (out_pts out) /\
             in_i 64 (out_dts_us out) /\ in_i 64 (out_pts_us out);
  nz_video : in_is_video i = true -> allow_negative_composition (n_config n) = false ->
             out_dts out <= out_pts out;
  nz_alerts : NoDup (out_alerts out);
  nz_reset : n_pending_reset n = true ->
             out_discontinuity out = true /\ ResetApplied ∈ out_alerts out;
  nz_forced : in_force_discontinuity i = true -> out_discontinuity out = true
}.

Lemma normalize_resolved_spec i sd sp co n :
  norm_wf n ->
  let '(n', out) := normalize_resolved i sd sp co n in normalized i n n' out.
Proof.
  intros Hwf. unfold normalize_resolved.
  set (fs := Z.max (convert _ _ _) 1). set (fd := _ <$> in_frame_duration i).
  set (mg := Z.max (from_micros _ _) 1).
  destruct (if n_pending_reset n then _ else _) as [al0 disc0] eqn:E0.
  assert (H0 : NoDup al0 /\ (n_pending_reset n = true -> ResetApplied ∈ al0 /\ disc0 = true) /\
               (in_force_discontinuity i = true -> disc0 = true)).
  { destruct (n_pending_reset n); injection E0 as <- <-; split_and!; try done.
    - apply push_alert_nodup, NoDup_nil_2.
    - intros _. split; [by apply list_elem_of_singleton|done].
    - apply NoDup_nil_2. }
  destruct H0 as (Hnd0 & Hpend & Hforce). clear E0.
  destruct (match sd with Some _ => _ | None => _ end) as [[[g dts1] disc1] al1] eqn:E1.
  assert (H1 : NoDup al1 /\ (forall a, a ∈ al0 -> a ∈ al1) /\ (disc0 = true -> disc1 = true)).
  { destruct sd as [v|]; [by injection E1 as <- <- <- <-|].
    pose proof (derive_dts_spec n (is_pts_only (in_mode i)) sp fs fd mg disc0 al0 Hnd0) as D.
    by rewrite E1 in D. }
  destruct H1 as (Hnd1 & Hin1 & Hd1). clear E1.
  set (has := match sd with Some _ => _ | None => _ end). set (eo := if has then default _ _ else 0).
  destruct (repair_dts _ _ _ _ _) as [[dts2 disc2] al2] eqn:E2.
  pose proof (repair_dts_spec (n_config n) (n_last_dts n) (i64_sat_sub dts1 eo) disc1 al1 Hwf
                ltac:(auto with rust) Hnd1) as R.
  rewrite E2 in R. destruct R as (Hr2 & Ha2 & _ & Hnd2 & Hin2 & Hd2). clear E2.
  destruct (match sp with Some _ => (_, _) | None => _ end) as [pts3 al3] eqn:E3.
  assert (H3 : in_i 64 pts3 /\ NoDup al3 /\ forall a, a ∈ al2 -> a ∈ al3).
  { destruct sp; injection E3 as <- <-; split_and!; auto with rust. }
  destruct H3 as (Hr3 & Hnd3 & Hin3). clear E3.
  set (clamp := _ && _ && (pts3 <? dts2)). destruct (if clamp then _ else _) as [pts4 al4] eqn:E4.
  assert (H4 : in_i 64 pts4 /\ NoDup al4 /\ (forall a, a ∈ al3 -> a ∈ al4) /\
    (in_is_video i = true -> allow_negative_composition (n_config n) = false -> dts2 <= pts4)).
  { unfold clamp in E4. destruct (in_is_video i), (allow_negative_composition (n_config n));
      cbn in E4; try (injection E4 as <- <-; by split_and!).
    destruct (Z.ltb_spec pts3 dts2); injection E4 as <- <-; split_and!; auto with rust; lia. }
  destruct H4 as (Hr4 & Hnd4 & Hin4 & Hv).
  split; cbn; try done; auto with rust.
  intros Hp. destruct (Hpend Hp). split; auto.
Qed.

Lemma resolve_ticks_frame v d n n' r :
  resolve_ticks v d n = (n', r) ->
  n_last_dts n' = n_last_dts n /\ n_config n' = n_config n /\ n_pending_reset n' = n_pending_reset n.
Proof.
  unfold resolve_ticks, se_bind, se_get, se_upd, se_ret, se_err. intros H.
  repeat case_match; simplify_eq; done.
Qed.

Lemma resolve_mode_frame m n n' r :
  resolve_mode m n = (n', r) ->
  n_last_dts n' = n_last_dts n /\ n_config n' = n_config n /\ n_pending_reset n' = n_pending_reset n.
Proof.
  unfold resolve_mode, se_bind, se_get, se_ret. intros H.
  repeat case_match; simplify_eq; try done;
    repeat match goal with
    | E : resolve_ticks _ _ _ = _ |- _ => apply resolve_ticks_frame in E as (? & ? & ?)
    end; split_and!; congruence.
Qed.

Lemma normalize_spec i n n' r :
  norm_wf n -> normalize i n = (n', r) ->
  match r with
  | Ok out => normalized i n n' out
  | Err _ => n_last_dts n' = n_last_dts n /\ n_config n' = n_config n
  end.
Proof.
  intros Hwf. unfold normalize, se_bind.
  destruct (resolve_mode (in_mode i) n) as [n1 [[[sd sp] co]|e]] eqn:E;
    apply resolve_mode_frame in E as (E1 & E2 & E3).
  - pose proof (normalize_resolved_spec i sd sp co n1 ltac:(unfold norm_wf; by rewrite E1)) as S.
    destruct (normalize_resolved i sd sp co n1) as [n2 out]. intros [= <- <-].
    destruct S. split; try done; by rewrite <- ?E1, <- ?E2, <- ?E3.
  - by intros [= <- <-].
Qed.

Lemma dts_after_trans a b c : dts_after a b -> dts_after b c -> dts_after a c.
Proof. unfold dts_after. lia. Qed.

Lemma normalize_all_sorted inputs : forall n,
  norm_wf n ->
  let outs := snd (normalize_all inputs n) in
  StronglySorted (fun a b => dts_after (out_dts a) (out_dts b)) outs /\
  (forall last, n_last_dts n = Some last -> Forall (fun o => dts_after last (out_dts o)) outs).
Proof.
  induction inputs as [|i inputs IH]; intros n Hwf; cbn [normalize_all].
  { split; [constructor|by constructor]. }
  destruct (normalize i n) as [n1 [out|e]] eqn:E; pose proof (normalize_spec _ _ _ _ Hwf E) as N.
  - destruct N as [N1 N2 _ _ N5 _ _ _ _].
    assert (Hwf1 : norm_wf n1) by (intros l Hl; rewrite N2 in Hl; injection Hl as <-; apply N5).
    destruct (IH n1 Hwf1) as [I1 I2]. specialize (I2 _ N2).
    destruct (normalize_all inputs n1) as [n2 outs]. cbn [snd] in *. split.
    + by apply StronglySorted_cons.
    + intros l Hl. constructor; [auto|]. eapply Forall_impl; [exact I2|].
      intros o. apply dts_after_trans. auto.
  - destruct N as [N1 N2].
    assert (Hwf1 : norm_wf n1) by (intros l Hl; rewrite N1 in Hl; auto).
    destruct (IH n1 Hwf1) as [I1 I2]. split; [done|]. by rewrite N1 in I2.
Qed.

(** ** The start of a timeline *)

(** No epoch yet: a new normalizer, or one that was reset. *)
Definition fresh (n : TimestampNormalizer) : Prop :=
  n_epoch_offset n = None /\ n_last_dts n = None /\ n_next_fallback_dts n = None.

Lemma resolve_ticks_fresh v d n n' r : resolve_ticks v d n = (n', r) -> fresh n -> fresh n'.
Proof.
  unfold resolve_ticks, se_bind, se_get, se_upd, se_ret, se_err. intros H F.
  repeat case_match; simplify_eq; done.
Qed.

Lemma resolve_mode_fresh m n n' r : resolve_mode m n = (n', r) -> fresh n -> fresh n'.
Proof.
  unfold resolve_mode, se_bind, se_get, se_ret. intros H F.
  repeat case_match; simplify_eq; try done;
    repeat match goal with
    | E : resolve_ticks _ _ ?n = _, F : fresh ?n |- _ => apply (resolve_ticks_fresh _ _ _ _ _ E) in F
    end; done.
Qed.

Lemma normalize_fresh i n n' out : fresh n -> normalize i n = (n', Ok out) -> out_dts out = 0.
Proof.
  intros F. unfold normalize, se_bind.
  destruct (resolve_mode (in_mode i) n) as [n1 [[[sd sp] co]|e]] eqn:E; [|done].
  apply resolve_mode_fresh in E as (F1 & F2 & F3); [|done].
  unfold normalize_resolved. rewrite F1, F2.
  destruct (if n_pending_reset n1 then _ else _) as [al0 disc0].
  destruct (match sd with Some _ => (_, _, _, _) | None => _ end) as [[[g dts1] disc1] al1] eqn:E1.
  assert (Hz : i64_sat_sub dts1 (if match sd, sp with None, None => false | _, _ => true end
                                 then dts1 else 0) = 0).
  { destruct sd; [apply sat_sub_self|]. destruct sp; [apply sat_sub_self|].
    unfold derive_dts in E1. rewrite F3 in E1. by injection E1 as <- <- <- <-. }
  cbn [repair_dts default]. change (from_option id dts1 None) with dts1. rewrite Hz.
  destruct (match sp with Some _ => (_, _) | None => _ end) as [pts3 al3].
  destruct (if _ && _ && _ then _ else _) as [pts4 al4]. by intros [= <- <-].
Qed.

Lemma normalizer_new_wf c : norm_wf (normalizer_new c).
Proof. intros l. done. Qed.

Lemma normalize_all_wf inputs : forall n, norm_wf n -> norm_wf (fst (normalize_all inputs n)).
Proof.
  induction inputs as [|i inputs IH]; intros n Hwf; cbn [normalize_all]; [done|].
  destruct (normalize i n) as [n1 [out|e]] eqn:E; pose proof (normalize_spec _ _ _ _ Hwf E) as N.
  - destruct N as [N1 N2 _ _ N5 _ _ _ _].
    assert (Hwf1 : norm_wf n1) by (intros l Hl; rewrite N2 in Hl; injection Hl as <-; apply N5).
    specialize (IH n1 Hwf1). by destruct (normalize_all inputs n1).
  - apply IH. destruct N as [N1 _]. intros l Hl. rewrite N1 in Hl. auto.
Qed.

Lemma normalize_all_config inputs : forall n,
  norm_wf n -> n_config (fst (normalize_all inputs n)) = n_config n.
Proof.
  induction inputs as [|i inputs IH]; intros n Hwf; cbn [normalize_all]; [done|].
  destruct (normalize i n) as [n1 [out|e]] eqn:E; pose proof (normalize_spec _ _ _ _ Hwf E) as N.
  - destruct N as [N1 N2 N3 _ N5 _ _ _ _].
    assert (Hwf1 : norm_wf n1) by (intros l Hl; rewrite N2 in Hl; injection Hl as <-; apply N5).
    specialize (IH n1 Hwf1). destruct (normalize_all inputs n1). cbn in *. congruence.
  - destruct N as [N1 N2]. rewrite IH; [done|]. intros l Hl. rewrite N1 in Hl. auto.
Qed.

(** ** Claims *)

(** [C17] The normalized timeline is monotone. Whatever frames a source sends, in
    any mix of modes (no timestamps, DTS and PTS, composition offsets, PTS only),
    wrapped or not, jumping, repeating or failing in between, the DTS of the
    frames that come out strictly increase, up to the end of the [i64] range. *)
Theorem normalized_dts_monotone config inputs :
  StronglySorted (fun a b => out_dts a < out_dts b \/ (out_dts a = i64_max /\ out_dts b = i64_max))
    (snd (normalize_all inputs (normalizer_new config))).
Proof. apply normalize_all_sorted, normalizer_new_wf. Qed.

(** What every normalized frame satisfies, at any point of a stream: all
    four timestamps are in range, no alert is repeated, a forced discontinuity is
    reported, and where negative composition is not allowed no video frame is
    presented before it is decoded. After a reset the next frame starts a new
    timeline: it is marked discontinuous, carries [ResetApplied], and its DTS is
    zero. *)
Theorem normalized_frame config inputs i n' out :
  let n := fst (normalize_all inputs (normalizer_new config)) in
  (normalize i n = (n', Ok out) \/ normalize i (normalizer_reset n) = (n', Ok out)) ->
  (in_i 64 (out_dts out) /\ in_i 64 (out_pts out) /\ in_i 64 (out_dts_us out) /\ in_i 64 (out_pts_us out)) /\
  NoDup (out_alerts out) /\
  (in_force_discontinuity i = true -> out_discontinuity out = true) /\
  (in_is_video i = true -> allow_negative_composition config = false -> out_dts out <= out_pts out) /\
  (normalize i (normalizer_reset n) = (n', Ok out) ->
     out_discontinuity out = true /\ ResetApplied ∈ out_alerts out /\ out_dts out = 0).
Proof.
  intros n H. assert (Hwf : norm_wf n) by apply normalize_all_wf, normalizer_new_wf.
  assert (Hc : n_config n = config) by (unfold n; by rewrite normalize_all_config).
  assert (Hwf' : norm_wf (normalizer_reset n)) by done.
  assert (N : exists m, normalized i m n' out /\ n_config m = config).
  { destruct H as [H|H]; apply normalize_spec in H; eauto. }
  destruct N as (m & [_ _ _ _ N5 N6 N7 _ N9] & Hm). rewrite Hm in N6.
  split; [done|]. split; [done|]. split; [done|]. split; [done|]. intros Hr. pose proof (normalize_spec _ _ _ _ Hwf' Hr) as [].
  assert (out_dts out = 0) by (eapply normalize_fresh; [|exact Hr]; by split_and!).
  split_and!; [apply nz_reset0; done..|done].
Qed.

Definition rtp_config : TimestampNormalizerConfig :=
  mk_config (mk_timebase 1 90000) (mk_timebase 1 1000) (Some 32) 2000000 1 false.

Lemma normalized_frame_witness :
  let n := fst (normalize_all
    [mk_input (DtsPts (Wrapped 4294967295) (Wrapped 4294967290)) None None true false]
    (normalizer_new rtp_config)) in
  exists n' out,
    normalize (mk_input (PtsOnly (Wrapped 90000)) None None true false) (normalizer_reset n)
    = (n', Ok out) /\
    out_discontinuity out = true /\ ResetApplied ∈ out_alerts out /\ out_dts out = 0.
Proof.
  intros n.
  destruct (normalize (mk_input (PtsOnly (Wrapped 90000)) None None true false) (normalizer_reset n))
    as [n' r] eqn:E.
  assert (exists out, r = Ok out) as [out ->].
  { assert (R : r = snd (normalize (mk_input (PtsOnly (Wrapped 90000)) None None true false)
                          (normalizer_reset n))) by (by rewrite E).
    rewrite R. eexists. by vm_compute. }
  exists n', out. split; [done|].
  apply (normalized_frame rtp_config
    [mk_input (DtsPts (Wrapped 4294967295) (Wrapped 4294967290)) None None true false] _ n' out
    (or_intror E)). exact E.
Defined.

(** ** Findings *)

(** DTS and PTS are unwrapped independently: when the first frame's PTS is behind
    the wrap point and its DTS before it, the PTS stays a whole period too low.
    Here (MPEG-TS, 33 bits, 90 kHz) a PTS 1500 ticks after the DTS comes out
    2^33 - 1500 ticks before it. *)
Example pts_wrapped_before_dts :
  let config := mk_config (mk_timebase 1 90000) (mk_timebase 1 90000) (Some 33) 2000000 1 true in
  match snd (normalize (mk_input (DtsPts (Wrapped (2 ^ 33 - 1000)) (Wrapped 500)) None None true false)
               (normalizer_new config)) with
  | Ok out => out_pts out - out_dts out < - (2 ^ 33 - 2000)
  | Err _ => False
  end.
Proof. by vm_compute. Qed.

(** A step back across zero before the first wrap leaves [i64]: the frame is
    rejected. *)
Example step_back_before_first_wrap :
  let config := mk_config (mk_timebase 1 1000) (mk_timebase 1 1000) (Some 32) 2000000 1 true in
  snd (normalize_all
         [mk_input (PtsOnly (Wrapped 5)) None None false false] (normalizer_new config)) <> [] /\
  snd (normalize (mk_input (PtsOnly (Wrapped 4294967291)) None None false false)
         (fst (normalize_all [mk_input (PtsOnly (Wrapped 5)) None None false false]
                 (normalizer_new config))))
  = Err (UnwrappedTimestampOverflow (2 ^ 64 - 5)).
Proof. split; by vm_compute. Qed.
