(* ===== verification/MediaKeys.v ===== *)
(** * Media keys and stream keys

    Models [crates/sdk/cheetah-media-api/src/ids.rs] (names, [MediaSchema],
    [MediaKey], [StreamKeyBridge]): how the public address of a resource is turned
    into the key of the stream engine and back. A [String] is the [string] of its
    UTF-8 bytes; every character the code looks for is ASCII. Error messages are
    left out. *)
From Stdlib Require Import Ascii.
From S2P Require Import Prelude.
Local Open Scope string_scope.

Inductive MediaErrorCode : Set :=
| InvalidArgument | Unauthenticated | PermissionDenied | NotFound | AlreadyExists | Conflict
| StaleOwner | Busy | RateLimited | Timeout | Cancelled | Unavailable | Unsupported
| VersionMismatch | CursorExpired | StorageFailed | ProtocolFailed | Internal | UnknownOutcome.

(** ** Characters *)

Fixpoint contains_char (c : ascii) (s : string) : bool :=
  match s with
  | EmptyString => false
  | String a s => Ascii.eqb a c || contains_char c s
  end.

(** [splitn(2, c)]: the parts before and after the first [c], if there is one. *)
Fixpoint split_once (c : ascii) (s : string) : option (string * string) :=
  match s with
  | EmptyString => None
  | String a s =>
      if Ascii.eqb a c then Some (EmptyString, s)
      else match split_once c s with
           | Some (x, y) => Some (String a x, y)
           | None => None
           end
  end.

Definition to_ascii_lower (a : ascii) : ascii :=
  let n := nat_of_ascii a in
  if (65 <=? n)%nat && (n <=? 90)%nat then ascii_of_nat (n + 32) else a.

Fixpoint to_ascii_lowercase (s : string) : string :=
  match s with
  | EmptyString => EmptyString
  | String a s => String (to_ascii_lower a) (to_ascii_lowercase s)
  end.

(** ** Names *)

Definition DEFAULT_VHOST : string := "__defaultVhost__".

(** [VhostName::new], [AppName::new] and [StreamName::new] make the same checks. *)
Definition name_new (value : string) : result MediaErrorCode string :=
  if bool_decide (value = "") then Err InvalidArgument
  else if contains_char "/" value || contains_char "\" value then Err InvalidArgument
  else Ok value.

Definition VhostName_new := name_new.
Definition AppName_new := name_new.
Definition StreamName_new := name_new.

(** ** Schemas *)

Inductive MediaSchema : Set := Rtsp | Rtmp | HttpFlv | Hls | Webrtc | Ts | Fmp4 | Srt | Rtp.

#[export] Instance MediaSchema_eq_dec : EqDecision MediaSchema.
Proof. solve_decision. Defined.

Definition schema_parse (s : string) : result MediaErrorCode MediaSchema :=
  let l := to_ascii_lowercase s in
  if bool_decide (l = "rtsp") then Ok Rtsp
  else if bool_decide (l = "rtmp") then Ok Rtmp
  else if bool_decide (l = "http-flv" \/ l = "http_flv" \/ l = "flv") then Ok HttpFlv
  else if bool_decide (l = "hls") then Ok Hls
  else if bool_decide (l = "webrtc" \/ l = "rtc") then Ok Webrtc
  else if bool_decide (l = "ts") then Ok Ts
  else if bool_decide (l = "fmp4") then Ok Fmp4
  else if bool_decide (l = "srt") then Ok Srt
  else if bool_decide (l = "rtp") then Ok Rtp
  else Err InvalidArgument.

Definition schema_display (s : MediaSchema) : string :=
  match s with
  | Rtsp => "rtsp" | Rtmp => "rtmp" | HttpFlv => "http-flv" | Hls => "hls" | Webrtc => "webrtc"
  | Ts => "ts" | Fmp4 => "fmp4" | Srt => "srt" | Rtp => "rtp"
  end.

(** ** Keys *)

Record MediaKey : Set := mk_media_key {
  vhost : string;
  app : string;
  stream : string;
  schema : option MediaSchema
}.

#[export] Instance MediaKey_eq_dec : EqDecision MediaKey.
Proof. solve_decision. Defined.

Definition MediaKey_new (v a s : string) (sch : option MediaSchema) : result MediaErrorCode MediaKey :=
  v <-? VhostName_new v ;; a <-? AppName_new a ;; s <-? StreamName_new s ;;
  Ok (mk_media_key v a s sch).

Definition with_default_vhost (a s : string) (sch : option MediaSchema) :=
  MediaKey_new DEFAULT_VHOST a s sch.

Definition without_schema (k : MediaKey) : MediaKey := mk_media_key (vhost k) (app k) (stream k) None.

Definition to_canonical (k : MediaKey) : string :=
  match schema k with
  | Some sch => vhost k +:+ "/" +:+ app k +:+ "/" +:+ stream k +:+ "?schema=" +:+ schema_display sch
  | None => vhost k +:+ "/" +:+ app k +:+ "/" +:+ stream k
  end.

Definition to_namespace_path (k : MediaKey) : string * string :=
  (if bool_decide (vhost k = DEFAULT_VHOST) then app k else vhost k +:+ "#" +:+ app k, stream k).

Definition from_namespace_path (namespace path : string) : result MediaErrorCode MediaKey :=
  match split_once "#" namespace with
  | Some (v, a) => MediaKey_new v a path None
  | None => with_default_vhost namespace path None
  end.

(** ** Lemmas *)

Lemma append_nil_l s : "" +:+ s = s.
Proof. done. Qed.

Lemma append_cons_l a x s : String a x +:+ s = String a (x +:+ s).
Proof. done. Qed.

Lemma length_append x y : String.length (x +:+ y) = (String.length x + String.length y)%nat.
Proof. induction x as [|a x IH]; [done|]. rewrite append_cons_l. cbn. by rewrite IH. Qed.

Lemma split_once_none c s : split_once c s = None <-> contains_char c s = false.
Proof.
  induction s as [|a s IH]; cbn; [done|]. destruct (Ascii.eqb a c); cbn; [done|].
  rewrite <- IH. by destruct (split_once c s) as [[x y]|].
Qed.

Lemma split_once_some c s x y :
  split_once c s = Some (x, y) <-> s = x +:+ String c y /\ contains_char c x = false.
Proof.
  revert x y. induction s as [|a s IH]; intros x y; cbn.
  { split; [done|]. by intros [E _]; destruct x. }
  destruct (Ascii.eqb_spec a c) as [->|Hne].
  - split; [intros [= <- <-]; done|]. intros [E Hx]. destruct x as [|b x].
    + rewrite append_nil_l in E. by injection E as ->.
    + rewrite append_cons_l in E. injection E as <- _. cbn in Hx. by rewrite Ascii.eqb_refl in Hx.
  - split.
    + destruct (split_once c s) as [[x' y']|] eqn:Es; [|done]. intros [= <- <-].
      destruct (proj1 (IH x' y') eq_refl) as [-> Hx]. split; [done|]. cbn. rewrite Hx.
      by destruct (Ascii.eqb_spec a c).
    + intros [E Hx]. destruct x as [|b x]; [rewrite append_nil_l in E; congruence|].
      rewrite append_cons_l in E. injection E as -> ->. cbn in Hx. apply orb_false_iff in Hx as [_ Hx].
      by rewrite (proj2 (IH x y) (conj eq_refl Hx)).
Qed.

Lemma name_new_ok v w : name_new v = Ok w -> w = v /\ name_new v = Ok v.
Proof.
  intros H. assert (w = v) as ->; [|done]. unfold name_new in H. case_bool_decide; [done|].
  destruct (_ || _); [done|]. by injection H as ->.
Qed.

Lemma MediaKey_new_ok v a s sch k :
  MediaKey_new v a s sch = Ok k <->
  k = mk_media_key v a s sch /\ name_new v = Ok v /\ name_new a = Ok a /\ name_new s = Ok s.
Proof.
  unfold MediaKey_new, VhostName_new, AppName_new, StreamName_new. split.
  - destruct (name_new v) as [v'|] eqn:Ev; [|done]. destruct (name_new a) as [a'|] eqn:Ea; [|done].
    destruct (name_new s) as [s'|] eqn:Es; [|done]. cbn. intros [= <-].
    destruct (name_new_ok _ _ Ev) as [-> _], (name_new_ok _ _ Ea) as [-> _],
      (name_new_ok _ _ Es) as [-> _]. done.
  - by intros (-> & -> & -> & ->).
Qed.

Lemma default_vhost_ok : name_new DEFAULT_VHOST = Ok DEFAULT_VHOST.
Proof. reflexivity. Qed.

(** Every string with the separator splits. *)
Lemma split_once_total c s : contains_char c s = true -> is_Some (split_once c s).
Proof.
  intros H. destruct (split_once c s) eqn:E; [eauto|]. apply split_once_none in E. congruence.
Qed.

(** The part before the first separator is cut there, whatever follows. *)
Lemma split_once_app c x y : contains_char c x = false -> split_once c (x +:+ String c y) = Some (x, y).
Proof. intros. by apply split_once_some. Qed.

Lemma split_once_app_l c x y z w :
  split_once c x = Some (z, w) -> split_once c (x +:+ y) = Some (z, w +:+ y).
Proof.
  intros [-> H]%split_once_some. apply split_once_some. split; [|done].
  clear. induction z as [|b z IH]; [done|]. by rewrite !append_cons_l, IH.
Qed.

(** ** Claims *)

(** When the bridge between media keys and stream keys loses nothing. For a
    valid media key, decoding its stream key gives the key back (without its
    schema, which is a view and not part of the address) exactly when the
    virtual host contains no [#] and, for the default host, the application name
    contains none either. *)
Theorem bridge_reversible v a s sch k :
  MediaKey_new v a s sch = Ok k ->
  from_namespace_path (fst (to_namespace_path k)) (snd (to_namespace_path k)) = Ok (without_schema k)
  <-> (if bool_decide (v = DEFAULT_VHOST) then contains_char "#" a else contains_char "#" v) = false.
Proof.
  intros (-> & Hv & Ha & Hs)%MediaKey_new_ok. unfold to_namespace_path, from_namespace_path. cbn.
  case_bool_decide as Hd.
  - subst v. destruct (split_once "#" a) as [[x y]|] eqn:E.
    + assert (contains_char "#" a = true) as ->.
      { destruct (contains_char "#" a) eqn:C; [done|]. apply split_once_none in C. congruence. }
      split; [|done]. intros (Eq & _)%MediaKey_new_ok. injection Eq as Hx Hy.
      apply split_once_some in E as [Ea _]. apply (f_equal String.length) in Ea.
      rewrite <- Hy in Ea. rewrite length_append in Ea. cbn in Ea. lia.
    + split; [intros _; by apply split_once_none|]. intros _. by apply MediaKey_new_ok.
  - destruct (contains_char "#" v) eqn:C.
    + split; [|done]. destruct (split_once_total _ _ C) as [[x y] E].
      rewrite (split_once_app_l _ _ _ _ _ E). intros (Eq & _)%MediaKey_new_ok.
      injection Eq as Hx Hy. apply split_once_some in E as [E _].
      apply (f_equal String.length) in E. rewrite Hx, length_append in E. cbn in E. lia.
    + split; [done|]. intros _. change ("#" +:+ a) with (String "#" a). rewrite split_once_app by done. by apply MediaKey_new_ok.
Qed.

Lemma bridge_reversible_witness :
  MediaKey_new "edge" "live" "cam" (Some Rtmp) = Ok (mk_media_key "edge" "live" "cam" (Some Rtmp)) /\
  from_namespace_path "edge#live" "cam" = Ok (mk_media_key "edge" "live" "cam" None).
Proof.
  split; [reflexivity|].
  exact (proj2 (bridge_reversible "edge" "live" "cam" (Some Rtmp)
    (mk_media_key "edge" "live" "cam" (Some Rtmp)) eq_refl) eq_refl).
Defined.

(** Two different resources share one stream: host [default] with application
    [a#b], and host [a] with application [b]. *)
Example bridge_collision :
  exists k1 k2, MediaKey_new DEFAULT_VHOST "a#b" "s" None = Ok k1 /\
    MediaKey_new "a" "b" "s" None = Ok k2 /\ k1 <> k2 /\
    to_namespace_path k1 = to_namespace_path k2.
Proof. do 2 eexists. split; [reflexivity|]. split; [reflexivity|]. split; [done|reflexivity]. Qed.
