(* ===== verification/ControlIds.v ===== *)
(** * Identifiers of the control plane

    Models the validated identifiers of [crates/sdk/cheetah-media-api/src/ids.rs]:
    [validated_string_id] ([TenantId] and others) and [uuid_string_id] ([MediaNodeId],
    [MediaSessionId], [MediaBindingId] and others). A [String] is the [string] of its UTF-8
    bytes. What an error says is left out. *)
From Stdlib Require Import Ascii.
From stdpp Require Import strings.
From S2P Require Import Prelude MediaKeys.
Local Open Scope string_scope.
Local Open Scope Z_scope.

Definition CONTROL_ID_MAX_LEN : nat := 256.

(** [char::is_control] on UTF-8: U+0000 to U+001F, U+007F, and U+0080 to U+009F, which are
    the bytes C2 80 to C2 9F. *)
Fixpoint has_control_char (s : string) : bool :=
  match s with
  | EmptyString => false
  | String a rest =>
      let n := nat_of_ascii a in
      (n <? 32)%nat || (n =? 127)%nat
      || ((n =? 194)%nat && match rest with
                           | String b _ => (nat_of_ascii b <? 160)%nat
                           | EmptyString => false
                           end)
      || has_control_char rest
  end.

(** [split(c)]: one part more than there are separators. *)
Fixpoint split_char (c : ascii) (s : string) : list string :=
  match s with
  | EmptyString => [EmptyString]
  | String a s =>
      if Ascii.eqb a c then EmptyString :: split_char c s
      else match split_char c s with
           | p :: ps => String a p :: ps
           | [] => [String a EmptyString]
           end
  end.

Definition is_ascii_hexdigit (a : ascii) : bool :=
  let n := nat_of_ascii a in
  ((48 <=? n) && (n <=? 57) || (65 <=? n) && (n <=? 70) || (97 <=? n) && (n <=? 102))%nat.

Fixpoint all_chars (p : ascii -> bool) (s : string) : bool :=
  match s with
  | EmptyString => true
  | String a s => p a && all_chars p s
  end.

Definition uuid_part (p : string) (len : nat) : bool :=
  (String.length p =? len)%nat && all_chars is_ascii_hexdigit p.

Definition is_canonical_uuid (s : string) : bool :=
  let parts := split_char "-" s in
  (length parts =? 5)%nat
  && forallb (fun '(p, len) => uuid_part p len) (combine parts [8; 4; 4; 4; 12]%nat).

(** [TenantId::new], [MessageId::new], [OperationId::new] and [OperationStepId::new]. *)
Definition string_id_new (value : string) : result MediaErrorCode string :=
  if bool_decide (value = "") then Err InvalidArgument
  else if (CONTROL_ID_MAX_LEN <? String.length value)%nat then Err InvalidArgument
  else if has_control_char value then Err InvalidArgument
  else Ok value.

(** [MediaNodeId::new], [MediaNodeInstanceId::new], [MediaSessionId::new] and
    [MediaBindingId::new]; what is lowered is ASCII. *)
Definition uuid_id_new (value : string) : result MediaErrorCode string :=
  if bool_decide (value = "") then Err InvalidArgument
  else if (CONTROL_ID_MAX_LEN <? String.length value)%nat then Err InvalidArgument
  else if negb (is_canonical_uuid value) then Err InvalidArgument
  else Ok (to_ascii_lowercase value).

(** The identifiers there are: what [new] gives out. *)
Definition string_id (s : string) : Prop := string_id_new s = Ok s.
Definition uuid_id (s : string) : Prop := uuid_id_new s = Ok s.

(** ** Lower case *)

Lemma lower_length s : String.length (to_ascii_lowercase s) = String.length s.
Proof. induction s as [|a s IH]; cbn; [done|]. by rewrite IH. Qed.

Lemma lower_idem s : to_ascii_lowercase (to_ascii_lowercase s) = to_ascii_lowercase s.
Proof.
  induction s as [|a s IH]; [done|]. cbn. rewrite IH. f_equal.
  by destruct a as [[] [] [] [] [] [] [] []].
Qed.

Lemma lower_hexdigit a : is_ascii_hexdigit (to_ascii_lower a) = is_ascii_hexdigit a.
Proof. by destruct a as [[] [] [] [] [] [] [] []]. Qed.

Lemma lower_dash a : Ascii.eqb (to_ascii_lower a) "-" = Ascii.eqb a "-".
Proof. by destruct a as [[] [] [] [] [] [] [] []]. Qed.

Lemma lower_split s : split_char "-" (to_ascii_lowercase s) = to_ascii_lowercase <$> split_char "-" s.
Proof.
  induction s as [|a s IH]; [done|]. cbn [to_ascii_lowercase split_char]. rewrite lower_dash, IH.
  destruct (Ascii.eqb a "-"); [done|]. by destruct (split_char "-" s).
Qed.

Lemma lower_all_hex s :
  all_chars is_ascii_hexdigit (to_ascii_lowercase s) = all_chars is_ascii_hexdigit s.
Proof. induction s as [|a s IH]; [done|]. cbn. by rewrite lower_hexdigit, IH. Qed.

Lemma lower_uuid s : is_canonical_uuid (to_ascii_lowercase s) = is_canonical_uuid s.
Proof.
  unfold is_canonical_uuid. rewrite lower_split, length_fmap. f_equal.
  generalize (split_char "-" s), [8; 4; 4; 4; 12]%nat. intros ps. induction ps as [|p ps IH]; [done|].
  intros [|n ns]; [done|]. cbn. rewrite IH. unfold uuid_part. by rewrite lower_length, lower_all_hex.
Qed.

Lemma lower_empty s : bool_decide (to_ascii_lowercase s = "") = bool_decide (s = "").
Proof. by destruct s. Qed.

(** ** An identifier that was given out is taken back as it is *)

Lemma string_id_new_same v s : string_id_new v = Ok s -> s = v.
Proof. unfold string_id_new. intros H. by repeat case_match; simplify_eq. Qed.

Lemma string_id_new_id v s : string_id_new v = Ok s -> string_id s.
Proof. intros H. by pose proof (string_id_new_same _ _ H) as ->. Qed.

Lemma uuid_id_new_id v s : uuid_id_new v = Ok s -> uuid_id s.
Proof.
  intros H. assert (s = to_ascii_lowercase v) as ->.
  { unfold uuid_id_new in H. by repeat case_match; simplify_eq. }
  unfold uuid_id. unfold uuid_id_new in *.
  rewrite lower_empty, lower_length, lower_uuid, lower_idem.
  destruct (bool_decide (v = "")); [done|]. destruct (_ <? _)%nat; [done|].
  by destruct (is_canonical_uuid v).
Qed.

(** Spellings that differ in case are one identifier. *)
Lemma uuid_id_new_case v w :
  to_ascii_lowercase v = to_ascii_lowercase w -> uuid_id_new v = uuid_id_new w.
Proof.
  intros E. unfold uuid_id_new.
  rewrite <- (lower_empty v), <- (lower_empty w), <- (lower_length v), <- (lower_length w),
    <- (lower_uuid v), <- (lower_uuid w). by rewrite E.
Qed.

Example uuid_sample :
  uuid_id_new "550E8400-e29b-41d4-a716-446655440000" = Ok "550e8400-e29b-41d4-a716-446655440000" /\
  uuid_id_new "550e8400e29b41d4a716446655440000" = Err InvalidArgument.
Proof. by vm_compute. Qed.
