(* ===== verification/ControlPlane.v ===== *)
(** * What the parts of the control plane share

    Models what the control plane reads of [crates/sdk/cheetah-media-api/src/error.rs]
    ([EffectOutcome], [MediaError]) and
    [crates/system/cheetah-media-control-plane/src/error.rs] ([ControlPlaneError]), and the
    references and states of controlled resources of [fencing.rs] and [resource_filter.rs].
    Of an error the code, the outcome and the retry hints are kept, which are what the control
    plane decides by. Its message, ids, details, resource reference and violations are left out:
    equal errors here may differ in them there. The store of idempotency records is defined
    over any type of stored errors, so its theorems do not depend on the choice.

    Interfaces state what the control plane relies on of code it only calls: [Serde] and [Json]
    for serde_json and [OrderBy] for the ordering of a query. *)
From Stdlib Require Import Ascii.
From stdpp Require Import sorting.
From S2P Require Import Prelude MediaKeys.

Inductive EffectOutcome : Set := NotApplied | Applied | Unknown.

#[export] Instance MediaErrorCode_eq_dec : EqDecision MediaErrorCode.
Proof. solve_decision. Defined.
#[export] Instance EffectOutcome_eq_dec : EqDecision EffectOutcome.
Proof. solve_decision. Defined.

(** [impl From<MediaErrorCode> for EffectOutcome] *)
Definition outcome_of (code : MediaErrorCode) : EffectOutcome :=
  match code with
  | InvalidArgument | Unauthenticated | PermissionDenied | NotFound | AlreadyExists | Conflict
  | StaleOwner | Busy | RateLimited | Unsupported | VersionMismatch | CursorExpired => NotApplied
  | Timeout | Cancelled | Unavailable | StorageFailed | ProtocolFailed | Internal
  | UnknownOutcome => Unknown
  end.

Record MediaError : Set := mk_error {
  code : MediaErrorCode;
  retryable : bool;
  outcome : EffectOutcome;
  retry_after_ms : option Z
}.

#[export] Instance MediaError_eq_dec : EqDecision MediaError.
Proof. solve_decision. Defined.

Definition error_new (c : MediaErrorCode) : MediaError := mk_error c false (outcome_of c) None.
Definition with_retryable (r : bool) (e : MediaError) : MediaError :=
  mk_error (code e) r (outcome e) (retry_after_ms e).
Definition with_retry_after (ms : Z) (e : MediaError) : MediaError :=
  mk_error (code e) (retryable e) (outcome e) (Some ms).
Definition unavailable : MediaError := error_new Unavailable.
Definition invalid_argument : MediaError := error_new InvalidArgument.
Definition cursor_expired : MediaError := error_new CursorExpired.

(** Variants of [ControlPlaneError] that would clash with a code have the prefix [Cp]. *)
Inductive ControlPlaneError : Set :=
| Media (e : MediaError)
| StoreUnavailable
| InvalidIdempotencyState
| Serialization
| CpConflict
| CpInvalidArgument
| CpNotFound
| RuntimeShutdown
| RuntimeError
| CpInternal
| Db.

#[export] Instance ControlPlaneError_eq_dec : EqDecision ControlPlaneError.
Proof. solve_decision. Defined.

Definition error_code (e : ControlPlaneError) : MediaErrorCode :=
  match e with
  | Media e => code e
  | StoreUnavailable => Unavailable
  | InvalidIdempotencyState => Conflict
  | Serialization => StorageFailed
  | CpConflict => Conflict
  | CpInvalidArgument => InvalidArgument
  | CpNotFound => NotFound
  | RuntimeShutdown => Unavailable
  | RuntimeError => Internal
  | CpInternal => Internal
  | Db => StorageFailed
  end.

(** ** Controlled resources *)

Inductive ResourceOrigin : Set := Cluster | Local.

Inductive ResourceState : Set := Pending | RActive | Stopping | RStopped | Failed | RUnknown.

Definition is_terminal (s : ResourceState) : bool :=
  match s with RStopped | Failed => true | _ => false end.

Record ControlledResourceRef : Set := mk_ref {
  ref_tenant : string;
  ref_session : option string;
  ref_binding : option string;
  ref_kind : string;
  ref_handle : string;
  ref_owner_epoch : Z;
  ref_node_epoch : Z;
  ref_generation : Z;
  ref_origin : ResourceOrigin
}.

#[export] Instance ResourceOrigin_eq_dec : EqDecision ResourceOrigin.
Proof. solve_decision. Defined.
#[export] Instance ResourceState_eq_dec : EqDecision ResourceState.
Proof. solve_decision. Defined.
#[export] Instance ControlledResourceRef_eq_dec : EqDecision ControlledResourceRef.
Proof. solve_decision. Defined.

(** [MediaErrorCode::as_str] *)
Definition as_str (code : MediaErrorCode) : string :=
  match code with
  | InvalidArgument => "invalid_argument"
  | Unauthenticated => "unauthenticated"
  | PermissionDenied => "permission_denied"
  | NotFound => "not_found"
  | AlreadyExists => "already_exists"
  | Conflict => "conflict"
  | StaleOwner => "stale_owner"
  | Busy => "busy"
  | RateLimited => "rate_limited"
  | Timeout => "timeout"
  | Cancelled => "cancelled"
  | Unavailable => "unavailable"
  | Unsupported => "unsupported"
  | VersionMismatch => "version_mismatch"
  | CursorExpired => "cursor_expired"
  | StorageFailed => "storage_failed"
  | ProtocolFailed => "protocol_failed"
  | Internal => "internal"
  | UnknownOutcome => "unknown_outcome"
  end.

(** ** Interfaces of code that is only called *)

(** serde_json on one type: writing and reading may fail. *)
Class Serde (A : Type) := {
  to_json : A -> option string;
  from_json : string -> option A
}.

(** What was written of [a] reads back as [a]. Of a JSON value this holds when its floating-point
    numbers do: without the feature float_roundtrip serde_json may read them back inexactly. *)
Definition reads_back `{!Serde A} (a : A) : Prop := forall s, to_json a = Some s -> from_json s = Some a.

(** Types of texts, integers and lists of them, of which every value reads back. *)
Class Json (A : Type) := {
  json_serde :: Serde A;
  json_back : forall a : A, reads_back a
}.

(** [map(to_json).transpose()] *)
Definition opt_to_json `{!Serde A} (o : option A) : option (option string) :=
  match o with
  | None => Some None
  | Some a => Some <$> to_json a
  end.

(** [ORDER BY key ASC]: rows with the same key come in any order. *)
Class OrderBy := {
  order_by {A} : (A -> Z) -> list A -> list A;
  order_by_perm {A} (key : A -> Z) l : order_by key l ≡ₚ l;
  order_by_sorted {A} (key : A -> Z) l :
    StronglySorted (fun x y => key x <= key y) (order_by key l)
}.

(** ** Rows *)

(** [as i64] and [as u64] *)
Definition as_i64 (z : Z) : Z := wrap_i 64 z.
Definition as_u64 (z : Z) : Z := wrap_u 64 z.

(** Rows one by one; the first that cannot be read ends the query. *)
Fixpoint read_rows {A B} (f : A -> result ControlPlaneError B) (l : list A) :
    result ControlPlaneError (list B) :=
  match l with
  | [] => Ok []
  | x :: l => y <-? f x ;; ys <-? read_rows f l ;; Ok (y :: ys)
  end.

Lemma as_u64_i64 z : in_u 64 z -> as_u64 (as_i64 z) = z.
Proof.
  unfold as_u64, as_i64, wrap_u, wrap_i, in_u. intros Hz. rewrite Zminus_mod_idemp_l, Z.add_simpl_r.
  by apply Z.mod_small.
Qed.

Lemma as_i64_u64 z : in_i 64 z -> as_i64 (as_u64 z) = z.
Proof.
  unfold as_u64, as_i64, wrap_u, wrap_i, in_i. intros Hz. rewrite Zplus_mod_idemp_l.
  change (2 ^ (64 - 1)) with 9223372036854775808 in *. change (2 ^ 64) with 18446744073709551616.
  rewrite Z.mod_small; lia.
Qed.

Lemma as_i64_eqb x e : in_i 64 x -> in_u 64 e -> (x =? as_i64 e) = (as_u64 x =? e).
Proof.
  intros Hx He. apply eq_bool_prop_intro. rewrite !Is_true_true, !Z.eqb_eq. split.
  - intros ->. by apply as_u64_i64.
  - intros <-. by rewrite as_i64_u64.
Qed.

Lemma result_bind_ok {E A B} (m : result E A) (k : A -> result E B) b :
  result_bind m k = Ok b -> exists a, m = Ok a /\ k a = Ok b.
Proof. destruct m as [a|e]; [|done]. intros E'. by exists a. Qed.

Lemma read_rows_all {A B : Type} (f : A -> result ControlPlaneError B) l :
  Forall (fun x => exists y, f x = Ok y) l ->
  exists ys, read_rows f l = Ok ys /\ Forall2 (fun x y => f x = Ok y) l ys.
Proof.
  induction 1 as [|x l [y E] _ (ys & Es & F)]; [by exists []|].
  exists (y :: ys). cbn. rewrite E. cbn. rewrite Es. split; [done|]. by constructor.
Qed.

Lemma Forall2_no_dup {A B : Type} (R : A -> B -> Prop) l k :
  (forall x y z, R x z -> R y z -> x = y) -> Forall2 R l k -> NoDup l -> NoDup k.
Proof.
  intros Inj F. induction F as [|x z l k Hx F IH]; [constructor|]. intros [N D]%NoDup_cons.
  apply NoDup_cons. split; [|by apply IH]. intros I. apply N.
  apply list_elem_of_lookup_1 in I as [i I]. destruct (Forall2_lookup_r _ _ _ _ _ F I) as (y & L & Hy).
  rewrite (Inj _ _ _ Hx Hy). by eapply list_elem_of_lookup_2.
Qed.

Lemma StronglySorted_Forall2 {A B : Type} (R : A -> B -> Prop) (f : A -> Z) (g : B -> Z) l k :
  (forall x y, R x y -> f x = g y) -> Forall2 R l k ->
  StronglySorted (fun x y => f x <= f y) l -> StronglySorted (fun x y => g x <= g y) k.
Proof.
  intros E F. induction F as [|x y l k Hx F IH]; [constructor|]. intros Sl.
  apply StronglySorted_inv in Sl as [S Hd]. constructor; [by apply IH|]. apply Forall_lookup. intros i z I.
  destruct (Forall2_lookup_r _ _ _ _ _ F I) as (w & L & Hw). rewrite <- (E _ _ Hx), <- (E _ _ Hw).
  by apply (Forall_lookup_1 _ _ _ _ Hd L).
Qed.

Lemma read_rows_take {A B : Type} (f : A -> result ControlPlaneError B) n l ys :
  read_rows f l = Ok ys -> read_rows f (take n l) = Ok (take n ys).
Proof.
  revert n ys. induction l as [|x l IH]; intros n ys; cbn.
  - intros [= <-]. by rewrite !take_nil.
  - destruct (f x) as [y|] eqn:E; [|done]. cbn. destruct (read_rows f l) as [ys'|] eqn:E'; [|done].
    cbn. intros [= <-]. destruct n as [|n]; [done|]. cbn. rewrite E. cbn. by rewrite (IH n ys').
Qed.

(** ** Instances, for examples

    Any countable type has a [Json] instance: the binary digits of its number. A merge sort
    orders rows. *)

Fixpoint digits (p : positive) : string :=
  match p with
  | xH => ""
  | xO p => String "0" (digits p)
  | xI p => String "1" (digits p)
  end.

Fixpoint number (s : string) : positive :=
  match s with
  | EmptyString => xH
  | String a s => if Ascii.eqb a "0" then xO (number s) else xI (number s)
  end.

Lemma number_digits p : number (digits p) = p.
Proof. induction p as [p IH|p IH|]; cbn; [..|done]; by rewrite IH. Qed.

Definition json_of_countable (A : Type) `{Countable A} : Json A.
Proof.
  refine {| json_serde := {| to_json a := Some (digits (encode a)); from_json s := decode (number s) |} |}.
  intros a s [= <-]. cbn. by rewrite number_digits, decode_encode.
Defined.

Definition all_codes : list MediaErrorCode :=
  [InvalidArgument; Unauthenticated; PermissionDenied; NotFound; AlreadyExists; Conflict; StaleOwner;
   Busy; RateLimited; Timeout; Cancelled; Unavailable; Unsupported; VersionMismatch; CursorExpired;
   StorageFailed; ProtocolFailed; Internal; UnknownOutcome].

#[export] Instance MediaErrorCode_countable : Countable MediaErrorCode.
Proof.
  apply (inj_countable as_str (fun s => List.find (fun c => bool_decide (as_str c = s)) all_codes)).
  by intros [].
Defined.
#[export] Instance EffectOutcome_countable : Countable EffectOutcome.
Proof.
  apply (inj_countable' (fun o => match o with NotApplied => Some false | Applied => Some true
                                  | Unknown => None end)
           (fun b => match b with Some false => NotApplied | Some true => Applied | None => Unknown end)).
  by intros [].
Defined.
#[export] Instance MediaError_countable : Countable MediaError.
Proof.
  apply (inj_countable' (fun e => (code e, retryable e, outcome e, retry_after_ms e))
           (fun '(c, r, o, a) => mk_error c r o a)). by intros [].
Defined.
#[export] Instance ResourceOrigin_countable : Countable ResourceOrigin.
Proof.
  apply (inj_countable' (fun o => match o with Cluster => false | Local => true end)
           (fun b : bool => if b then Local else Cluster)). by intros [].
Defined.
#[export] Instance ControlledResourceRef_countable : Countable ControlledResourceRef.
Proof.
  apply (inj_countable'
           (fun r => (ref_tenant r, ref_session r, ref_binding r, ref_kind r, ref_handle r,
                      (ref_owner_epoch r, ref_node_epoch r, ref_generation r, ref_origin r)))
           (fun '(t, s, b, k, h, (oe, ne, g, o)) => mk_ref t s b k h oe ne g o)). by intros [].
Defined.

Definition rows_le {A} (key : A -> Z) (x y : A) : Prop := key x <= key y.
#[export] Instance rows_le_dec {A} (key : A -> Z) : RelDecision (rows_le key).
Proof. intros x y. unfold rows_le. apply _. Defined.
#[export] Instance rows_le_total {A} (key : A -> Z) : Total (rows_le key).
Proof. intros x y. unfold rows_le. lia. Qed.
#[export] Instance rows_le_trans {A} (key : A -> Z) : Transitive (rows_le key).
Proof. intros x y z. unfold rows_le. lia. Qed.

Definition order_by_merge_sort : OrderBy.
Proof.
  refine {| order_by A key l := merge_sort (rows_le key) l |}.
  - intros. apply merge_sort_Permutation.
  - intros. apply (StronglySorted_merge_sort (rows_le key)).
Defined.
