(* ===== verification/Capacity.v ===== *)
(** * Capacity of a node

    Models [crates/system/cheetah-media-control-plane/src/capacity.rs] with the vectors
    of [crates/sdk/cheetah-media-api/src/capacity.rs]: hard limits in eight dimensions,
    permits that give back what they reserved when they are dropped, and the gate of
    the node. The mutex makes each operation one step; the wall clock is an argument. *)
From S2P Require Import Prelude MediaKeys ControlPlane.

Record CapacityVector : Set := mk_vector {
  session_count : Z;
  port_count : Z;
  bandwidth_bps : Z;
  worker_count : Z;
  blocking_job_count : Z;
  file_task_count : Z;
  event_subscriber_count : Z;
  cpu_permille : Z
}.

Abbreviation CapacityRequest := CapacityVector.
Abbreviation CapacityLimits := CapacityVector.

Definition vector_default : CapacityVector := mk_vector 0 0 0 0 0 0 0 0.

(** The same operation in each dimension. *)
Definition map2 (f : Z -> Z -> Z) (a b : CapacityVector) : CapacityVector :=
  mk_vector (f (session_count a) (session_count b)) (f (port_count a) (port_count b))
    (f (bandwidth_bps a) (bandwidth_bps b)) (f (worker_count a) (worker_count b))
    (f (blocking_job_count a) (blocking_job_count b)) (f (file_task_count a) (file_task_count b))
    (f (event_subscriber_count a) (event_subscriber_count b)) (f (cpu_permille a) (cpu_permille b)).

Definition checked_add (a b : Z) : option Z := if a + b <? 2 ^ 64 then Some (a + b) else None.

Definition fits_dimension (used request limit : Z) : bool :=
  match checked_add used request with Some sum => sum <=? limit | None => false end.

Definition fits (used request limits : CapacityVector) : bool :=
  fits_dimension (session_count used) (session_count request) (session_count limits)
  && fits_dimension (port_count used) (port_count request) (port_count limits)
  && fits_dimension (bandwidth_bps used) (bandwidth_bps request) (bandwidth_bps limits)
  && fits_dimension (worker_count used) (worker_count request) (worker_count limits)
  && fits_dimension (blocking_job_count used) (blocking_job_count request) (blocking_job_count limits)
  && fits_dimension (file_task_count used) (file_task_count request) (file_task_count limits)
  && fits_dimension (event_subscriber_count used) (event_subscriber_count request)
       (event_subscriber_count limits)
  && fits_dimension (cpu_permille used) (cpu_permille request) (cpu_permille limits).

(** [saturating_add] and [saturating_sub] of [u64]. *)
Definition add : CapacityVector -> CapacityVector -> CapacityVector := map2 (fun x y => sat_u 64 (x + y)).
Definition sub : CapacityVector -> CapacityVector -> CapacityVector := map2 (fun x y => sat_u 64 (x - y)).
Definition remaining (used : CapacityVector) (limits : CapacityLimits) : CapacityVector := sub limits used.

Record CapacityState : Set := mk_state {
  used : CapacityVector;
  limits : CapacityLimits;
  node_gate_open : bool;
  updated_at_ms : Z
}.

Record CapacitySnapshot : Set := mk_snapshot {
  snap_used : CapacityVector;
  snap_remaining : CapacityVector;
  snap_node_gate_open : bool;
  snap_updated_at_ms : Z
}.

Definition orchestrator_new (limits : CapacityLimits) (now : Z) : CapacityState :=
  mk_state vector_default limits true now.

Definition snapshot (st : CapacityState) : CapacitySnapshot :=
  mk_snapshot (used st) (remaining (used st) (limits st)) (node_gate_open st) (updated_at_ms st).

(** [MediaError::new(Busy, ..).with_retryable(true).with_retry_after(100)] *)
Definition busy : MediaError := with_retry_after 100 (with_retryable true (error_new Busy)).

(** A permit holds its request until it is released. *)
Definition acquire (request : CapacityRequest) (now : Z) : SE CapacityState MediaError CapacityRequest :=
  fun st =>
    if negb (node_gate_open st) then (st, Err busy)
    else if negb (fits (used st) request (limits st)) then
      (st, Err busy)
    else (mk_state (add (used st) request) (limits st) (node_gate_open st) now, Ok request).

(** [OwnedCapacityPermit::release], which [drop] calls; [released] is the flag of the permit. *)
Definition release (permit : CapacityRequest) (released : bool) (now : Z) (st : CapacityState) :
    CapacityState :=
  if released then st
  else mk_state (sub (used st) permit) (limits st) (node_gate_open st) now.

Definition update_limits (limits : CapacityLimits) (now : Z) (st : CapacityState) : CapacityState :=
  mk_state (used st) limits (node_gate_open st) now.

Definition set_node_gate (open : bool) (now : Z) (st : CapacityState) : CapacityState :=
  mk_state (used st) (limits st) open now.

(** ** Worlds

    The permits that are alive, next to the books. Vectors are of [u64]. *)

Definition vector_wf (v : CapacityVector) : Prop :=
  in_u 64 (session_count v) /\ in_u 64 (port_count v) /\ in_u 64 (bandwidth_bps v) /\
  in_u 64 (worker_count v) /\ in_u 64 (blocking_job_count v) /\ in_u 64 (file_task_count v) /\
  in_u 64 (event_subscriber_count v) /\ in_u 64 (cpu_permille v).

Definition world : Type := CapacityState * list CapacityRequest.

Inductive world_step : world -> world -> Prop :=
| step_acquire st live request now st' permit :
    vector_wf request -> acquire request now st = (st', Ok permit) ->
    world_step (st, live) (st', permit :: live)
| step_refused st live request now st' e :
    vector_wf request -> acquire request now st = (st', Err e) ->
    world_step (st, live) (st', live)
| step_drop st l1 permit l2 now :
    world_step (st, l1 ++ permit :: l2) (release permit false now st, l1 ++ l2)
| step_limits st live limits now :
    vector_wf limits -> world_step (st, live) (update_limits limits now st, live)
| step_gate st live open now : world_step (st, live) (set_node_gate open now st, live).

Definition reachable : world -> world -> Prop := rtc world_step.

Definition plus : CapacityVector -> CapacityVector -> CapacityVector := map2 Z.add.
Definition total (live : list CapacityRequest) : CapacityVector := foldr plus vector_default live.

(** At most, in each dimension. *)
Definition within (a b : CapacityVector) : Prop :=
  session_count a <= session_count b /\ port_count a <= port_count b /\
  bandwidth_bps a <= bandwidth_bps b /\ worker_count a <= worker_count b /\
  blocking_job_count a <= blocking_job_count b /\ file_task_count a <= file_task_count b /\
  event_subscriber_count a <= event_subscriber_count b /\ cpu_permille a <= cpu_permille b.

#[export] Instance within_dec a b : Decision (within a b).
Proof. unfold within. apply _. Defined.

(** ** Lemmas *)

Lemma fits_dimension_spec u r l : fits_dimension u r l = true <-> u + r < 2 ^ 64 /\ u + r <= l.
Proof.
  unfold fits_dimension, checked_add. destruct (Z.ltb_spec (u + r) (2 ^ 64)).
  - rewrite Z.leb_le. lia.
  - split; [done|lia].
Qed.

Lemma fits_spec u r l : vector_wf l -> fits u r l = true <-> within (plus u r) l.
Proof.
  unfold fits, within, vector_wf, in_u. rewrite !andb_true_iff, !fits_dimension_spec.
  change (2 ^ 64) with 18446744073709551616.
  destruct u, r, l; cbn. lia.
Qed.

Lemma sat_small z : in_u 64 z -> sat_u 64 z = z.
Proof. unfold in_u, sat_u. lia. Qed.

Ltac vectors :=
  unfold vector_wf, within, plus, add, sub, map2, in_u in *; cbn in *;
  change (2 ^ 64) with 18446744073709551616 in *.

Lemma add_exact a b : vector_wf (plus a b) -> add a b = plus a b.
Proof.
  intros (H1 & H2 & H3 & H4 & H5 & H6 & H7 & H8). unfold add, plus, map2 in *. cbn in *.
  by rewrite !sat_small.
Qed.

Lemma sub_exact a b : vector_wf a -> vector_wf (plus a b) -> sub (plus a b) b = a.
Proof.
  intros H _. destruct a, b. unfold sub, plus, map2. cbn. unfold vector_wf in H. cbn in H.
  f_equal; (rewrite sat_small; [lia|]); match goal with |- in_u 64 (?x + ?y - ?y) =>
    replace (x + y - y) with x by lia end; tauto.
Qed.

Lemma within_wf a b c : within (plus a b) c -> vector_wf a -> vector_wf b -> vector_wf c ->
  vector_wf (plus a b).
Proof. destruct a, b, c. vectors. lia. Qed.

Lemma plus_comm a b : plus a b = plus b a.
Proof. destruct a, b. unfold plus, map2. cbn. f_equal; lia. Qed.

Lemma plus_assoc a b c : plus a (plus b c) = plus (plus a b) c.
Proof. destruct a, b, c. unfold plus, map2. cbn. f_equal; lia. Qed.

Lemma plus_default a : plus vector_default a = a.
Proof. by destruct a. Qed.

Lemma grand_total_app l1 l2 : total (l1 ++ l2) = plus (total l1) (total l2).
Proof.
  induction l1 as [|v l1 IH]; [by rewrite plus_default|].
  change (total ((v :: l1) ++ l2)) with (plus v (total (l1 ++ l2))).
  change (total (v :: l1)) with (plus v (total l1)). by rewrite IH, plus_assoc.
Qed.

Lemma total_middle l1 p l2 : total (l1 ++ p :: l2) = plus (total (l1 ++ l2)) p.
Proof.
  rewrite !grand_total_app. change (total (p :: l2)) with (plus p (total l2)).
  rewrite (plus_comm p).
  apply plus_assoc.
Qed.


(** ** The books *)

Definition world_inv (w : world) : Prop :=
  used w.1 = total w.2 /\ vector_wf (used w.1) /\ vector_wf (limits w.1) /\ Forall vector_wf w.2.

(** What [acquire] does, in terms of the vectors. *)
Lemma acquire_spec request now st :
  vector_wf (used st) -> vector_wf request -> vector_wf (limits st) ->
  (node_gate_open st = true /\ within (plus (used st) request) (limits st) /\
   vector_wf (plus (used st) request) /\
   acquire request now st
   = (mk_state (plus (used st) request) (limits st) (node_gate_open st) now, Ok request)) \/
  (~ (node_gate_open st = true /\ within (plus (used st) request) (limits st)) /\
   exists e, acquire request now st = (st, Err e) /\ code e = Busy /\ retryable e = true).
Proof.
  intros Hu Hr Hl. unfold acquire. destruct (node_gate_open st); cbn [negb].
  2: { right. split; [naive_solver|by eexists]. }
  destruct (fits (used st) request (limits st)) eqn:F; cbn [negb].
  - left. apply fits_spec in F; [|done]. pose proof (within_wf _ _ _ F Hu Hr Hl).
    by rewrite add_exact.
  - right. split; [|by eexists]. intros [_ W]. apply fits_spec in W; [|done]. congruence.
Qed.

Lemma world_step_inv w w' : world_step w w' -> world_inv w -> world_inv w'.
Proof.
  intros S. destruct S as [st live request now st' permit Hr A|st live request now st' e Hr A
    |st l1 permit l2 now|st live lim now Hl|st live open now];
    intros (E & Hu & Hl' & Hf); cbn [fst snd] in *.
  - destruct (acquire_spec request now st Hu Hr Hl') as [(_ & _ & W & A')|(_ & e & A' & _)];
      rewrite A' in A; [|done]. injection A as <- <-. split_and!; cbn; [|done..|by constructor].
    rewrite E. apply plus_comm.
  - destruct (acquire_spec request now st Hu Hr Hl') as [(_ & _ & _ & A')|(_ & e' & A' & _)];
      rewrite A' in A; [done|]. by injection A as <- <-.
  - apply Forall_app in Hf as [F1 F2]. apply Forall_cons in F2 as [Hp F2].
    rewrite total_middle in E. unfold release. cbn [used limits].
    assert (W : vector_wf (total (l1 ++ l2))).
    { assert (F : Forall vector_wf (l1 ++ l2)) by (by apply Forall_app).
      rewrite E in Hu. revert Hu Hp F. clear. generalize (l1 ++ l2). intros l Hu Hp F.
      assert (N : forall l, Forall vector_wf l -> within vector_default (total l)).
      { induction 1 as [|v l' Hv _ IH]; [unfold within; cbn; lia|].
        change (total (v :: l')) with (plus v (total l')). destruct v, (total l'). vectors. lia. }
      specialize (N l F). destruct (total l), permit. vectors. lia. }
    rewrite E, sub_exact by (try done; by rewrite <- E). split_and!; [done..|by apply Forall_app].
  - split_and!; done.
  - split_and!; done.
Qed.

Lemma reachable_inv lim now w :
  vector_wf lim -> reachable (orchestrator_new lim now, []) w -> world_inv w.
Proof.
  intros Hl R. assert (I : world_inv (orchestrator_new lim now, [])).
  { split_and!; cbn; [done| |done|constructor]. unfold vector_wf, in_u. cbn. lia. }
  induction R as [w|w w1 w2 S R IH]; [done|]. apply IH. by eapply world_step_inv.
Qed.

(** [C31] The books of the capacity are exact. In every reachable world the use is the sum
    of the live permits, without overflow; a request is admitted exactly when the gate is
    open and it fits the limits next to what is alive, and is answered [Busy] with nothing
    changed otherwise; an admission adds exactly the request, and dropping a permit takes
    exactly its request away, so nothing is left when no permit is. *)
Theorem capacity_exact (lim : CapacityLimits) (now0 : Z) (st : CapacityState)
    (live : list CapacityRequest) :
  vector_wf lim -> reachable (orchestrator_new lim now0, []) (st, live) ->
  used st = total live /\ vector_wf (used st) /\
  (forall request now, vector_wf request ->
     if decide (node_gate_open st = true /\ within (plus (total live) request) (limits st))
     then acquire request now st
          = (mk_state (total (request :: live)) (limits st) (node_gate_open st) now, Ok request)
     else exists e, acquire request now st = (st, Err e) /\ code e = Busy) /\
  (forall l1 permit l2 now, live = l1 ++ permit :: l2 ->
     used (release permit false now st) = total (l1 ++ l2)).
Proof.
  intros Hl R. destruct (reachable_inv _ _ _ Hl R) as (E & Hu & Hl' & Hf). cbn [fst snd] in *.
  split_and!; [done|done| |].
  - intros request now Hr.
    destruct (acquire_spec request now st Hu Hr Hl') as [(G & W & _ & A)|(N & e & A & C & _)];
      rewrite E in *.
    + rewrite decide_True by done. rewrite A.
      change (total (request :: live)) with (plus request (total live)). by rewrite plus_comm.
    + rewrite decide_False by done. by exists e.
  - intros l1 permit l2 now ->.
    pose proof (world_step_inv _ _ (step_drop st l1 permit l2 now)) as (E' & _).
    { split_and!; done. }
    exact E'.
Qed.

Definition sample_limits : CapacityLimits := mk_vector 2 2 1000 1 1 1 1 100.
Definition sample_request : CapacityRequest := mk_vector 1 1 600 0 0 0 0 10.

Lemma capacity_exact_witness :
  let st := mk_state sample_request sample_limits true 7 in
  reachable (orchestrator_new sample_limits 0, []) (st, [sample_request]) /\
  exists e, acquire sample_request 8 st = (st, Err e) /\ code e = Busy.
Proof.
  set (st := mk_state sample_request sample_limits true 7).
  assert (Hl : vector_wf sample_limits) by (unfold vector_wf, in_u; cbn; lia).
  assert (Hr : vector_wf sample_request) by (unfold vector_wf, in_u; cbn; lia).
  assert (R : reachable (orchestrator_new sample_limits 0, []) (st, [sample_request])).
  { eapply rtc_l; [|apply rtc_refl].
    apply (step_acquire _ _ sample_request 7 st sample_request Hr). vm_compute. reflexivity. }
  split; [exact R|].
  pose proof (capacity_exact sample_limits 0 st [sample_request] Hl R) as (_ & _ & A & _).
  specialize (A sample_request 8 Hr). rewrite decide_False in A; [exact A|].
  intros [_ (_ & _ & B & _)]. cbn in B. lia.
Defined.
