(* ===== verification/NodeSupervisor.v ===== *)
(** * The lifecycle of a node

    Models [crates/system/cheetah-media-control-plane/src/node_supervisor.rs] with the
    states of [crates/sdk/cheetah-media-api/src/fencing.rs]: registration, heartbeat,
    lease, drain, isolation and shutdown of a node, and the gate of its capacity.

    The code holds its lock in short sections, with calls to the registry and to the
    gate between them. Each section is a definition; a method is their composition when
    nothing comes in between, and the examples at the end interleave them. The answers
    of the registry and the clock are arguments. What is only passed through (addresses,
    labels, versions, load) is left out. *)
From S2P Require Import Prelude MediaKeys ControlPlane Capacity.

(** ** Data *)

Inductive NodeState : Set :=
| Disabled | Binding | Registering | Active | Draining | Isolated | Deregistering | Stopped.
Inductive LeaseStatus : Set := LeasePending | LeaseActive | LeaseExpired | LeaseRevoked.
Inductive LeaseLossReason : Set :=
| RegistryUnreachable | LossExpired | LossRevoked | ContractVersionRejected | InstanceReplaced
| AdminInitiated.

#[export] Instance NodeState_eq_dec : EqDecision NodeState.
Proof. solve_decision. Defined.
#[export] Instance LeaseStatus_eq_dec : EqDecision LeaseStatus.
Proof. solve_decision. Defined.
#[export] Instance LeaseLossReason_eq_dec : EqDecision LeaseLossReason.
Proof. solve_decision. Defined.

Record MediaNodeLease : Set := mk_lease {
  lease_id : string;
  status : LeaseStatus;
  deadline_ms : Z;
  heartbeat_interval_ms : Z;
  lease_instance_epoch : Z
}.

Record NodeIdentity : Set := mk_identity {
  node_id : string;
  instance_id : string;
  instance_epoch : Z
}.

Record NodeRuntimeState : Set := mk_runtime {
  rt_node_id : string;
  rt_instance_id : string;
  accepted_instance_epoch : Z;
  state : NodeState;
  lease : MediaNodeLease
}.

Record SupervisorInner : Set := mk_inner {
  identity : NodeIdentity;
  runtime : option NodeRuntimeState;
  next_heartbeat_interval_ms : Z;
  last_register_attempt_ms : Z;
  register_backoff_ms : Z;
  drain_deadline_ms : option Z
}.

(** The supervisor and the capacity it drives. *)
Record NodeSupervisor : Set := mk_supervisor { inner : SupervisorInner; capacity : CapacityState }.

Record NodeRegistrationResponse : Set := mk_registration {
  resp_instance_epoch : Z;
  resp_lease : MediaNodeLease
}.
Record NodeHeartbeatResponse : Set := mk_heartbeat_response {
  hb_lease : option MediaNodeLease;
  hb_next_interval_ms : Z
}.
Record NodeIsolateRequest : Set := mk_isolate {
  target_node_id : string;
  target_instance_id : string;
  reason : LeaseLossReason;
  force : bool
}.

Definition supervisor_new (id : NodeIdentity) (capacity : CapacityState) : NodeSupervisor :=
  mk_supervisor (mk_inner id None 5000 0 1000 None) capacity.

Definition node_state (s : NodeSupervisor) : NodeState :=
  match runtime (inner s) with Some rt => state rt | None => Disabled end.

Definition mutations_allowed (s : NodeSupervisor) : bool := bool_decide (node_state s = Active).
Definition reads_allowed (s : NodeSupervisor) : bool :=
  bool_decide (node_state s = Active \/ node_state s = Draining \/ node_state s = Isolated).

(** ** Setters *)

Definition set_runtime (rt : option NodeRuntimeState) (g : SupervisorInner) : SupervisorInner :=
  mk_inner (identity g) rt (next_heartbeat_interval_ms g) (last_register_attempt_ms g)
    (register_backoff_ms g) (drain_deadline_ms g).
Definition set_state (st : NodeState) (rt : NodeRuntimeState) : NodeRuntimeState :=
  mk_runtime (rt_node_id rt) (rt_instance_id rt) (accepted_instance_epoch rt) st (lease rt).
Definition set_lease (l : MediaNodeLease) (rt : NodeRuntimeState) : NodeRuntimeState :=
  mk_runtime (rt_node_id rt) (rt_instance_id rt) (accepted_instance_epoch rt) (state rt) l.
Definition set_status (st : LeaseStatus) (l : MediaNodeLease) : MediaNodeLease :=
  mk_lease (lease_id l) st (deadline_ms l) (heartbeat_interval_ms l) (lease_instance_epoch l).
(** [if let Some(rt) = g.runtime.as_mut() { rt.state = .. }] *)
Definition put_state (st : NodeState) (g : SupervisorInner) : SupervisorInner :=
  set_runtime (set_state st <$> runtime g) g.
Definition set_drain_deadline (d : option Z) (g : SupervisorInner) : SupervisorInner :=
  mk_inner (identity g) (runtime g) (next_heartbeat_interval_ms g) (last_register_attempt_ms g)
    (register_backoff_ms g) d.
Definition set_heartbeat_interval (ms : Z) (g : SupervisorInner) : SupervisorInner :=
  mk_inner (identity g) (runtime g) ms (last_register_attempt_ms g) (register_backoff_ms g)
    (drain_deadline_ms g).

(** A section that holds the lock, and a call to the gate. *)
Definition locked {A} (m : SE SupervisorInner ControlPlaneError A) :
    SE NodeSupervisor ControlPlaneError A :=
  fun s => let '(g, r) := m (inner s) in (mk_supervisor g (capacity s), r).
Definition gate (open : bool) (now : Z) : SE NodeSupervisor ControlPlaneError unit :=
  fun s => (mk_supervisor (inner s) (set_node_gate open now (capacity s)), Ok tt).

(** ** Registration *)

Definition placeholder_runtime (id : NodeIdentity) (st : NodeState) : NodeRuntimeState :=
  mk_runtime (node_id id) (instance_id id) (instance_epoch id) st
    (mk_lease "" LeasePending 0 5000 (instance_epoch id)).

Definition register_begin (now : Z) : SE SupervisorInner ControlPlaneError unit := fun g =>
  let go g :=
    (mk_inner (identity g) (set_state Registering <$> runtime g) (next_heartbeat_interval_ms g) now
       (register_backoff_ms g) (drain_deadline_ms g), Ok tt) in
  match state <$> runtime g with
  | None | Some Disabled | Some Isolated =>
      go (set_runtime (Some (placeholder_runtime (identity g) Binding)) g)
  | Some Active | Some Draining => (g, Err CpConflict)
  | Some Deregistering | Some Stopped => (g, Err CpConflict)
  | Some Binding | Some Registering => go g
  end.

(** The locked part of [apply_registration]. *)
Definition registration_accepted (resp : NodeRegistrationResponse) :
    SE SupervisorInner ControlPlaneError unit := fun g =>
  let id := mk_identity (node_id (identity g)) (instance_id (identity g)) (resp_instance_epoch resp) in
  (mk_inner id
     (Some (mk_runtime (node_id id) (instance_id id) (resp_instance_epoch resp) Active (resp_lease resp)))
     (Z.max (heartbeat_interval_ms (resp_lease resp)) 100) (last_register_attempt_ms g) 1000 None, Ok tt).

Definition apply_registration (resp : NodeRegistrationResponse) (now : Z) :
    SE NodeSupervisor ControlPlaneError unit :=
  locked (registration_accepted resp) ;;; gate true now.

Definition registration_failed : SE SupervisorInner ControlPlaneError unit := fun g =>
  let g := put_state Registering g in
  (mk_inner (identity g) (runtime g) (next_heartbeat_interval_ms g) (last_register_attempt_ms g)
     (Z.min (sat_u 64 (register_backoff_ms g * 2)) 60000) (drain_deadline_ms g), Ok tt).

Definition register (now : Z) (answer : result ControlPlaneError NodeRegistrationResponse) :
    SE NodeSupervisor ControlPlaneError NodeRegistrationResponse :=
  locked (register_begin now) ;;;
  gate false now ;;;
  match answer with
  | Ok resp => apply_registration resp now ;;; se_ret resp
  | Err e => locked registration_failed ;;; se_err e
  end.

(** ** Isolation *)

Definition isolate_locked (request : NodeIsolateRequest) : SE SupervisorInner ControlPlaneError bool :=
  fun g =>
  match runtime g with
  | None => (g, Err (Media unavailable))
  | Some rt =>
      if bool_decide (rt_node_id rt <> target_node_id request \/
                      rt_instance_id rt <> target_instance_id request) then (g, Err CpNotFound)
      else if bool_decide (state rt = Stopped) then (g, Ok false)
      else
        let rt := set_state Isolated rt in
        let rt :=
          if force request || bool_decide (reason request <> RegistryUnreachable) then
            match reason request with
            | LossRevoked => set_lease (set_status LeaseRevoked (lease rt)) rt
            | LossExpired => set_lease (set_status LeaseExpired (lease rt)) rt
            | _ => rt
            end
          else rt in
        (set_runtime (Some rt) g, Ok true)
  end.

(** The answer is the state it reports; a stopped node is left as it is. *)
Definition isolate (request : NodeIsolateRequest) (now : Z) :
    SE NodeSupervisor ControlPlaneError NodeState :=
  done <- locked (isolate_locked request) ;;
  if done then gate false now ;;; se_ret Isolated else se_ret Stopped.

(** [self.isolate(..)] of the own instance, as the checks call it. *)
Definition isolate_self (r : LeaseLossReason) (now : Z) : SE NodeSupervisor ControlPlaneError unit :=
  fun s =>
  match runtime (inner s) with
  | None => (s, Ok tt)
  | Some rt =>
      let '(s, r) := isolate (mk_isolate (rt_node_id rt) (rt_instance_id rt) r true) now s in
      (s, result_map (fun _ => tt) r)
  end.

(** ** Heartbeat *)

(** The lease and the epoch that the heartbeat is sent with. *)
Definition heartbeat_begin : SE SupervisorInner ControlPlaneError (string * Z) := fun g =>
  match runtime g with
  | None => (g, Err (Media unavailable))
  | Some rt =>
      if bool_decide (state rt = Active \/ state rt = Draining) then
        (g, Ok (lease_id (lease rt), accepted_instance_epoch rt))
      else (g, Err (Media unavailable))
  end.

(** The locked part of [apply_heartbeat_response]: whether another instance has taken over. *)
Definition heartbeat_accepted (expected_lease_id : string) (expected_epoch : Z)
    (resp : NodeHeartbeatResponse) : SE SupervisorInner ControlPlaneError bool := fun g =>
  match runtime g with
  | None => (g, Ok false)
  | Some rt =>
      if bool_decide (lease_id (lease rt) <> expected_lease_id)
         || negb (accepted_instance_epoch rt =? expected_epoch) then (g, Ok false)
      else
        let '(rt, replaced) :=
          match hb_lease resp with
          | Some l => if lease_instance_epoch l =? expected_epoch then (set_lease l rt, false)
                      else (rt, true)
          | None => (rt, false)
          end in
        let g := set_runtime (Some rt) g in
        (if 0 <? hb_next_interval_ms resp then set_heartbeat_interval (hb_next_interval_ms resp) g else g,
         Ok replaced)
  end.

(** [let _ =] drops an error of the isolation. *)
Definition apply_heartbeat_response (expected_lease_id : string) (expected_epoch : Z)
    (resp : NodeHeartbeatResponse) (now : Z) : SE NodeSupervisor ControlPlaneError unit :=
  replaced <- locked (heartbeat_accepted expected_lease_id expected_epoch resp) ;;
  if replaced : bool then fun s => ((isolate_self InstanceReplaced now s).1, Ok tt) else se_ret tt.

Definition heartbeat (now : Z) (answer : result ControlPlaneError NodeHeartbeatResponse) :
    SE NodeSupervisor ControlPlaneError NodeHeartbeatResponse :=
  expected <- locked heartbeat_begin ;;
  resp <- se_of answer ;;
  apply_heartbeat_response (fst expected) (snd expected) resp now ;;; se_ret resp.

(** ** Lease *)

Definition lease_lost (now : Z) (g : SupervisorInner) : option LeaseLossReason :=
  match runtime g with
  | None => None
  | Some rt =>
      if bool_decide (state rt = Active \/ state rt = Draining) then
        if bool_decide (status (lease rt) = LeaseRevoked) then Some LossRevoked
        else if deadline_ms (lease rt) <=? now then Some LossExpired else None
      else None
  end.

Definition check_lease (now : Z) : SE NodeSupervisor ControlPlaneError unit := fun s =>
  match lease_lost now (inner s) with
  | Some r => isolate_self r now s
  | None => (s, Ok tt)
  end.

(** ** Drain *)

Definition drain_locked (deadline : Z) : SE SupervisorInner ControlPlaneError unit := fun g =>
  match runtime g with
  | None => (g, Err (Media unavailable))
  | Some rt =>
      if bool_decide (state rt = Stopped \/ state rt = Deregistering) then (g, Err CpConflict)
      else (set_drain_deadline (Some deadline) (set_runtime (Some (set_state Draining rt)) g), Ok tt)
  end.

Definition drain (deadline now : Z) : SE NodeSupervisor ControlPlaneError unit :=
  locked (drain_locked deadline) ;;; gate false now.

(** Whether the gate is to be opened. *)
Definition leave_drain_locked (now : Z) : SE SupervisorInner ControlPlaneError bool := fun g =>
  match runtime g with
  | None => (g, Err (Media unavailable))
  | Some rt =>
      if bool_decide (state rt <> Draining) then (g, Err CpConflict)
      else if bool_decide (status (lease rt) = LeaseActive) && (now <? deadline_ms (lease rt)) then
        (set_drain_deadline None (set_runtime (Some (set_state Active rt)) g), Ok true)
      else (set_drain_deadline None (set_runtime (Some (set_state Isolated rt)) g), Ok false)
  end.

Definition leave_drain (now : Z) : SE NodeSupervisor ControlPlaneError unit :=
  open <- locked (leave_drain_locked now) ;; gate open now.

(** ** Shutdown *)

(** Whether there is something to deregister. *)
Definition deregister_begin : SE SupervisorInner ControlPlaneError bool := fun g =>
  match runtime g with
  | Some rt => (set_runtime (Some (set_state Deregistering rt)) g, Ok true)
  | None => (g, Ok false)
  end.

Definition deregister_done : SE SupervisorInner ControlPlaneError unit := fun g =>
  (put_state Stopped g, Ok tt).

Definition shutdown (now : Z) (answer : result ControlPlaneError unit) :
    SE NodeSupervisor ControlPlaneError unit :=
  (fun s => ((drain (sat_i 64 (now + 30000)) now s).1, Ok tt)) ;;;
  registered <- locked deregister_begin ;;
  if registered : bool then
    locked deregister_done ;;; gate false now ;;; se_of answer
  else se_ret tt.

(** ** Calls one after the other *)

Inductive call : Set :=
| Register (now : Z) (answer : result ControlPlaneError NodeRegistrationResponse)
| Heartbeat (now : Z) (answer : result ControlPlaneError NodeHeartbeatResponse)
| CheckLease (now : Z)
| Drain (deadline now : Z)
| LeaveDrain (now : Z)
| Isolate (request : NodeIsolateRequest) (now : Z)
| Shutdown (now : Z) (answer : result ControlPlaneError unit).

(** The state a call leaves, whatever it returns. *)
Definition run (c : call) (s : NodeSupervisor) : NodeSupervisor :=
  match c with
  | Register now answer => (register now answer s).1
  | Heartbeat now answer => (heartbeat now answer s).1
  | CheckLease now => (check_lease now s).1
  | Drain deadline now => (drain deadline now s).1
  | LeaveDrain now => (leave_drain now s).1
  | Isolate request now => (isolate request now s).1
  | Shutdown now answer => (shutdown now answer s).1
  end.

Definition gate_open (s : NodeSupervisor) : bool := node_gate_open (capacity s).

(** Between calls: the gate tells whether the node is active, once a registration has been
    tried, and no call is half done. *)
Definition settled (s : NodeSupervisor) : Prop :=
  match runtime (inner s) with
  | None => True
  | Some rt => gate_open s = bool_decide (state rt = Active) /\
               state rt <> Deregistering /\ state rt <> Binding
  end.

(** ** What each call can do

    The outcome of a call: it keeps the runtime state, or it moves it. *)

Ltac settle S := split_and!; try done; try apply S.

(** Case analysis on a test of the goal. *)
Ltac test_goal D :=
  match goal with
  | |- context [if bool_decide ?P then _ else _] =>
      destruct (decide P) as [D|D];
      [rewrite (bool_decide_true P) by exact D|rewrite (bool_decide_false P) by exact D]
  end.

Ltac unfold_ops :=
  unfold register, heartbeat, check_lease, drain, leave_drain, isolate, shutdown,
    apply_registration, apply_heartbeat_response, isolate_self, locked, gate, se_bind, se_ret,
    se_err, se_of in *.

(** What isolation leaves. *)
Definition isolated_from (rt : NodeRuntimeState) (r : LeaseLossReason) (s' : NodeSupervisor) : Prop :=
  exists l, runtime (inner s') = Some (set_lease l (set_state Isolated rt)) /\
    gate_open s' = false /\
    (r = LossExpired -> status l = LeaseExpired) /\ (r = LossRevoked -> status l = LeaseRevoked).

Lemma isolate_own (request : NodeIsolateRequest) (now : Z) (s : NodeSupervisor) rt :
  runtime (inner s) = Some rt -> rt_node_id rt = target_node_id request ->
  rt_instance_id rt = target_instance_id request -> state rt <> Stopped ->
  isolated_from rt (reason request) (isolate request now s).1.
Proof.
  intros R E1 E2 N. unfold_ops. unfold isolate_locked. destruct s as [g cap]. cbn in R |- *. rewrite R.
  rewrite bool_decide_false by tauto. rewrite bool_decide_false by done. cbn.
  unfold isolated_from. destruct rt as [n i e st l], l as [li ls ld lh le].
  destruct (reason request), (force request); cbn; eexists (mk_lease _ _ _ _ _);
    split_and!; done.
Qed.

Lemma isolate_cases (request : NodeIsolateRequest) (now : Z) (s : NodeSupervisor) :
  (isolate request now s).1 = s \/
  exists rt, runtime (inner s) = Some rt /\ state rt <> Stopped /\
    isolated_from rt (reason request) (isolate request now s).1.
Proof.
  destruct (runtime (inner s)) as [rt|] eqn:R.
  - destruct (decide (rt_node_id rt = target_node_id request /\
                      rt_instance_id rt = target_instance_id request)) as [[E1 E2]|N].
    + destruct (decide (state rt = Stopped)) as [St|St].
      * left. unfold_ops. unfold isolate_locked. destruct s as [g cap]. cbn in R |- *. rewrite R.
        rewrite bool_decide_false by tauto. by rewrite bool_decide_true.
      * right. exists rt. split_and!; [done..|]. by apply isolate_own.
    + left. unfold_ops. unfold isolate_locked. destruct s as [g cap]. cbn in R |- *. rewrite R.
      by rewrite bool_decide_true by (destruct (decide (rt_node_id rt = target_node_id request)); tauto).
  - left. unfold_ops. unfold isolate_locked. destruct s as [g cap]. cbn in R |- *. by rewrite R.
Qed.

Lemma isolate_self_spec (r : LeaseLossReason) (now : Z) (s : NodeSupervisor) rt :
  runtime (inner s) = Some rt -> state rt <> Stopped -> isolated_from rt r (isolate_self r now s).1.
Proof.
  intros R N. unfold isolate_self. rewrite R.
  pose proof (isolate_own (mk_isolate (rt_node_id rt) (rt_instance_id rt) r true) now s rt R
                eq_refl eq_refl N) as O.
  by destruct (isolate _ now s).
Qed.

(** What a call does to the state of the node. *)
Definition activated (c : call) (s s' : NodeSupervisor) : Prop :=
  (exists now resp, c = Register now (Ok resp) /\
     lease <$> runtime (inner s') = Some (resp_lease resp)) \/
  (exists now rt, c = LeaveDrain now /\ runtime (inner s) = Some rt /\ state rt = Draining /\
     status (lease rt) = LeaseActive /\ now < deadline_ms (lease rt)).

Definition call_ok (c : call) (s : NodeSupervisor) : Prop :=
  let s' := run c s in
  settled s' /\
  (node_state s = Stopped -> node_state s' = Stopped) /\
  (node_state s <> Active -> node_state s' = Active -> activated c s s').

Lemma isolated_settled rt r s' : isolated_from rt r s' -> settled s' /\ node_state s' = Isolated.
Proof. intros (l & R & G & _). unfold settled, node_state. rewrite R. by cbn. Qed.

(** A call that leaves the node isolated, or as it was, is in order. *)
Lemma call_ok_isolated c s rt r :
  runtime (inner s) = Some rt -> state rt <> Stopped -> isolated_from rt r (run c s) -> call_ok c s.
Proof.
  intros R N I. destruct (isolated_settled _ _ _ I) as [S E]. unfold call_ok. rewrite E.
  split_and!; [done| |done]. unfold node_state. rewrite R. done.
Qed.

Lemma call_ok_same c s :
  settled s -> runtime (inner (run c s)) = runtime (inner s) ->
  gate_open (run c s) = gate_open s -> call_ok c s.
Proof.
  intros S E G. unfold call_ok, settled, node_state in *. rewrite E, G. split_and!; done.
Qed.

Lemma register_ok now answer s : settled s -> call_ok (Register now answer) s.
Proof.
  intros S. unfold call_ok, run. unfold_ops. unfold register_begin, settled, node_state, gate_open in *.
  destruct s as [g cap]. cbn in *. destruct g as [id rt nh lr rb dd]. cbn in *.
  destruct rt as [rt|]; cbn; [destruct (state rt) eqn:St; cbn|];
    destruct answer as [resp|e]; cbn; rewrite ?St; split_and!; try done; try (by destruct S); try (by apply S);
    try (intros _ _; left; by do 2 eexists).
Qed.

Lemma drain_ok deadline now s : settled s -> call_ok (Drain deadline now) s.
Proof.
  intros S. unfold call_ok, run. unfold_ops. unfold drain_locked, settled, node_state, gate_open in *.
  destruct s as [g cap]. cbn in *. destruct (runtime g) as [rt|] eqn:R; cbn.
  - test_goal D; cbn; rewrite ?R; settle S; by intros; tauto.
  - rewrite R. settle S.
Qed.

Lemma leave_drain_ok now s : settled s -> call_ok (LeaveDrain now) s.
Proof.
  intros S. unfold call_ok, run. unfold_ops.
  unfold leave_drain_locked, activated, settled, node_state, gate_open in *.
  destruct s as [g cap]. cbn in *. destruct (runtime g) as [rt|] eqn:R; cbn.
  - test_goal D; cbn; [rewrite R; settle S; tauto|]. apply dec_stable in D.
    destruct (bool_decide (status (lease rt) = LeaseActive) && (now <? deadline_ms (lease rt))) eqn:B;
      cbn; split_and!; try done; try (rewrite D; done).
    intros _ _. right. apply andb_prop in B as [B1 B2]. apply bool_decide_eq_true in B1.
    apply Z.ltb_lt in B2. by exists now, rt.
  - rewrite R. settle S.
Qed.

Lemma drain_registered deadline now s :
  is_Some (runtime (inner s)) -> is_Some (runtime (inner (drain deadline now s).1)).
Proof.
  unfold drain, drain_locked, locked, gate, se_bind. destruct s as [g cap]. cbn [inner].
  destruct (runtime g) as [rt|] eqn:R; [|by intros [? [=]]]. intros _.
  test_goal D; cbn; [by rewrite R|done].
Qed.

Lemma drain_unregistered deadline now s :
  runtime (inner s) = None -> (drain deadline now s).1 = s.
Proof. unfold drain, drain_locked, locked, se_bind. destruct s as [g cap]. cbn. by intros ->. Qed.

Lemma shutdown_registered now answer s :
  is_Some (runtime (inner s)) ->
  exists rt, runtime (inner (shutdown now answer s).1) = Some rt /\ state rt = Stopped /\
    gate_open (shutdown now answer s).1 = false.
Proof.
  intros H. unfold shutdown, locked, deregister_begin, deregister_done, gate, put_state, se_bind, se_of.
  destruct (drain_registered (sat_i 64 (now + 30000)) now s H) as [rt R]. rewrite R. cbn. by eexists.
Qed.

Lemma shutdown_ok now answer s : settled s -> call_ok (Shutdown now answer) s.
Proof.
  intros S. destruct (runtime (inner s)) as [rt|] eqn:R.
  - destruct (shutdown_registered now answer s) as (rt' & R' & St & G); [by rewrite R|].
    unfold call_ok, settled, node_state, run. rewrite R', St, G. by split_and!.
  - apply call_ok_same; [done|..];
      unfold run, shutdown, locked, deregister_begin, se_bind, se_ret;
      rewrite drain_unregistered by done; rewrite R; [cbn; congruence|done].
Qed.

Lemma lease_lost_registered now g r :
  lease_lost now g = Some r -> exists rt, runtime g = Some rt /\ state rt <> Stopped.
Proof.
  unfold lease_lost. destruct (runtime g) as [rt|]; [|done]. intros L. exists rt.
  split; [done|]. revert L. destruct (decide (state rt = Active \/ state rt = Draining)) as [D|D].
  - intros _ E. rewrite E in D. by destruct D.
  - by rewrite bool_decide_false by done.
Qed.

Lemma check_lease_ok now s : settled s -> call_ok (CheckLease now) s.
Proof.
  intros S. destruct (lease_lost now (inner s)) as [r|] eqn:L.
  - destruct (lease_lost_registered _ _ _ L) as (rt & R & N).
    apply (call_ok_isolated _ _ rt r R N). unfold run, check_lease. rewrite L.
    by apply isolate_self_spec.
  - apply call_ok_same; [done|..]; unfold run, check_lease; by rewrite L.
Qed.

Lemma isolate_ok request now s : settled s -> call_ok (Isolate request now) s.
Proof.
  intros S. destruct (isolate_cases request now s) as [E|(rt & R & N & I)].
  - apply call_ok_same; [done|..]; unfold run; by rewrite E.
  - by apply (call_ok_isolated _ _ rt (reason request)).
Qed.

(** A heartbeat leaves the node alone, changes its lease, or isolates it. *)
Lemma heartbeat_accepted_cases id epoch resp g rt :
  runtime g = Some rt ->
  exists l rep, (heartbeat_accepted id epoch resp g).2 = Ok rep /\
    runtime (heartbeat_accepted id epoch resp g).1 = Some (set_lease l rt).
Proof.
  intros R. assert (same : rt = set_lease (lease rt) rt) by (by destruct rt).
  unfold heartbeat_accepted. rewrite R. destruct (bool_decide _ || _).
  { eexists _, _. split; [done|]. cbn. by rewrite R, same at 1. }
  destruct (hb_lease resp) as [l|]; [destruct (_ =? epoch)|]; cbn; destruct (0 <? _); cbn;
    eexists _, _; (split; [done|]); (reflexivity || by rewrite same at 1).
Qed.

Lemma heartbeat_cases now answer s :
  (heartbeat now answer s).1 = s \/
  exists rt l, runtime (inner s) = Some rt /\ state rt <> Stopped /\
    ((runtime (inner (heartbeat now answer s).1) = Some (set_lease l rt) /\
      gate_open (heartbeat now answer s).1 = gate_open s) \/
     isolated_from (set_lease l rt) InstanceReplaced (heartbeat now answer s).1).
Proof.
  destruct s as [g cap]. destruct (runtime g) as [rt|] eqn:R.
  2: { left. unfold heartbeat, se_bind, locked, heartbeat_begin. cbn. by rewrite R. }
  destruct (decide (state rt = Active \/ state rt = Draining)) as [D|D].
  2: { left. unfold heartbeat, se_bind, locked, heartbeat_begin. cbn.
       by rewrite R, bool_decide_false by done. }
  assert (B : locked heartbeat_begin (mk_supervisor g cap)
              = (mk_supervisor g cap, Ok (lease_id (lease rt), accepted_instance_epoch rt))).
  { unfold locked, heartbeat_begin. cbn. by rewrite R, bool_decide_true by done. }
  unfold heartbeat. rewrite (se_bind_ok _ _ _ _ _ B).
  destruct answer as [resp|e]; [|by left]. right.
  destruct (heartbeat_accepted_cases (lease_id (lease rt)) (accepted_instance_epoch rt) resp g rt R)
    as (l & rep & E & R').
  assert (N : state rt <> Stopped) by (intros E'; rewrite E' in D; by destruct D).
  exists rt, l. split; [done|]. split; [done|].
  unfold apply_heartbeat_response, locked, se_bind, se_of, fst, snd. cbn [inner capacity].
  destruct (heartbeat_accepted _ _ _ g) as [g' r]. cbn in E, R'. subst r.
  destruct rep; [right|by left].
  by apply (isolate_self_spec InstanceReplaced now (mk_supervisor g' cap) (set_lease l rt)).
Qed.

Lemma heartbeat_ok now answer s : settled s -> call_ok (Heartbeat now answer) s.
Proof.
  intros S. destruct (heartbeat_cases now answer s) as [E|(rt & l & R & N & [[R' G]|I])].
  - apply call_ok_same; [done|..]; unfold run; by rewrite E.
  - unfold call_ok, settled, node_state, run in *. rewrite R', G.
    rewrite R in S |- *. cbn. split_and!; try done; apply S.
  - destruct (isolated_settled _ _ _ I) as [S' E]. unfold call_ok, run. rewrite E. split_and!; [done| |done].
    unfold node_state. by rewrite R.
Qed.

Lemma call_in_order c s : settled s -> call_ok c s.
Proof.
  destruct c; [apply register_ok|apply heartbeat_ok|apply check_lease_ok|apply drain_ok
    |apply leave_drain_ok|apply isolate_ok|apply shutdown_ok].
Qed.

(** States after any calls. *)
Inductive reached (s0 : NodeSupervisor) : NodeSupervisor -> Prop :=
| reached_start : reached s0 s0
| reached_call s c : reached s0 s -> reached s0 (run c s).

Lemma reached_settled id cap s : reached (supervisor_new id cap) s -> settled s.
Proof. induction 1 as [|s c _ IH]; [done|]. by apply (call_in_order c s IH). Qed.

(** A registered node stays registered. *)
Lemma call_keeps_runtime c s : is_Some (runtime (inner s)) -> is_Some (runtime (inner (run c s))).
Proof.
  intros [rt R]. pose proof R as R'. destruct s as [g cap]. cbn in R. destruct c as [n a|n a|n|d n|n|r n|n a].
  - unfold run. unfold_ops. unfold register_begin. cbn. rewrite R. cbn.
    destruct (state rt) eqn:E, a; cbn; rewrite ?R; cbn; eauto.
  - destruct (heartbeat_cases n a (mk_supervisor g cap)) as [E|(rt0 & l & R0 & N & [[E _]|(l' & E & _)])];
      unfold run; rewrite E; eauto.
  - unfold run, check_lease. destruct (lease_lost n _) as [r|] eqn:L; [|eauto].
    destruct (lease_lost_registered _ _ _ L) as (rt0 & R0 & N).
    destruct (isolate_self_spec r n (mk_supervisor g cap) rt0 R0 N) as (l & E & _). rewrite E. eauto.
  - unfold run. unfold_ops. unfold drain_locked. cbn. rewrite R. case_bool_decide; cbn; eauto.
  - unfold run. unfold_ops. unfold leave_drain_locked. cbn. rewrite R. case_bool_decide; cbn; [eauto|].
    destruct (_ && _); cbn; eauto.
  - destruct (isolate_cases r n (mk_supervisor g cap)) as [E|(rt0 & _ & _ & l & E & _)];
      unfold run; rewrite E; eauto.
  - destruct (shutdown_registered n a (mk_supervisor g cap)) as (rt' & E & _); [by rewrite R'|].
    unfold run. rewrite E. eauto.
Qed.

(** Before the first registration no call touches the gate. *)
Lemma unregistered_call c s :
  runtime (inner (run c s)) = None -> runtime (inner s) = None /\ gate_open (run c s) = gate_open s.
Proof.
  intros R. destruct (runtime (inner s)) as [rt|] eqn:R0.
  - exfalso. destruct (call_keeps_runtime c s) as [rt' E]; [eauto|]. congruence.
  - split; [done|]. destruct s as [g cap]. cbn in R0. revert R. destruct c as [n a|n a|n|d n|n|r n|n a]; cbn.
    + unfold_ops. unfold register_begin. cbn. rewrite R0. cbn. by destruct a.
    + unfold_ops. unfold heartbeat_begin. cbn. by rewrite R0.
    + unfold check_lease, lease_lost. cbn. by rewrite R0.
    + unfold_ops. unfold drain_locked. cbn. by rewrite R0.
    + unfold_ops. unfold leave_drain_locked. cbn. by rewrite R0.
    + unfold_ops. unfold isolate_locked. cbn. by rewrite R0.
    + unfold shutdown, locked, deregister_begin, se_bind, se_ret.
      rewrite drain_unregistered by done. cbn [inner]. by rewrite R0.
Qed.

Lemma reached_unregistered id cap s :
  reached (supervisor_new id cap) s -> runtime (inner s) = None -> gate_open s = node_gate_open cap.
Proof.
  induction 1 as [|s c _ IH]; [done|]. intros R. destruct (unregistered_call c s R) as [R0 ->]. auto.
Qed.

(** [C30] A node whose calls do not overlap is fenced by its state. In every state that any
    calls lead to: from the first attempt to register on, the gate of the capacity is open
    exactly when the node is active; before it, when the node is [Disabled], the gate is
    still as the capacity was given. A stopped node stays stopped. A node becomes active
    only by a registration, with the lease that the registry granted, or by leaving drain
    with a lease whose status is active and whose deadline lies ahead. After a check of the
    lease, an active or draining node holds one that is not revoked and whose deadline lies
    ahead; [check_lease] looks at nothing else of it, so its status may be [Pending] or
    [Expired]. *)
Theorem supervisor_fences (id : NodeIdentity) (cap : CapacityState) (s : NodeSupervisor) (c : call) :
  reached (supervisor_new id cap) s ->
  match runtime (inner s) with
  | Some _ => gate_open s = mutations_allowed s
  | None => node_state s = Disabled /\ gate_open s = node_gate_open cap
  end /\
  (node_state s = Stopped -> node_state (run c s) = Stopped) /\
  (node_state s <> Active -> node_state (run c s) = Active -> activated c s (run c s)) /\
  (forall now rt, c = CheckLease now -> runtime (inner (run c s)) = Some rt ->
     state rt = Active \/ state rt = Draining ->
     status (lease rt) <> LeaseRevoked /\ now < deadline_ms (lease rt)).
Proof.
  intros Re. pose proof (reached_settled _ _ _ Re) as S.
  destruct (call_in_order c s S) as (S' & St & A). split_and!; [|exact St|exact A|].
  - pose proof (reached_unregistered _ _ _ Re) as U.
    unfold settled, mutations_allowed, node_state in *. destruct (runtime (inner s)); [apply S|auto].
  - intros now rt -> R D. unfold run, check_lease in R.
    destruct (lease_lost now (inner s)) as [r|] eqn:L.
    + exfalso. destruct (lease_lost_registered _ _ _ L) as (rt0 & R0 & N).
      destruct (isolate_self_spec r now s rt0 R0 N) as (l & R1 & _). rewrite R1 in R.
      injection R as <-. cbn in D. by destruct D.
    + cbn [fst] in R. unfold lease_lost in L. rewrite R in L.
      rewrite bool_decide_true in L by done. case_bool_decide; [done|].
      destruct (Z.leb_spec (deadline_ms (lease rt)) now); [done|]. split; [done|lia].
Qed.

(** ** A node at work *)

Definition sample_identity : NodeIdentity := mk_identity "node" "instance" 0.
Definition sample_lease : MediaNodeLease := mk_lease "lease" LeaseActive 10000 2000 7.
Definition sample_response : NodeRegistrationResponse := mk_registration 7 sample_lease.
Definition sample_node : NodeSupervisor :=
  supervisor_new sample_identity (orchestrator_new (mk_vector 1 1 1 1 1 1 1 1) 0).
Definition sample_active : NodeSupervisor := run (Register 100 (Ok sample_response)) sample_node.

Lemma supervisor_fences_witness :
  reached sample_node (run (CheckLease 10000) sample_active) /\
  node_state sample_active = Active /\ gate_open sample_active = true /\
  node_state (run (CheckLease 10000) sample_active) = Isolated /\
  gate_open (run (CheckLease 10000) sample_active) = false.
Proof.
  assert (R : reached sample_node (run (CheckLease 10000) sample_active))
    by (do 2 apply reached_call; apply reached_start).
  split; [exact R|]. split; [vm_compute; reflexivity|]. split; [vm_compute; reflexivity|].
  split; [vm_compute; reflexivity|].
  destruct (supervisor_fences sample_identity _ _ (Heartbeat 10000 (Err CpInternal)) R) as (G & _).
  change (gate_open (run (CheckLease 10000) sample_active) =
    mutations_allowed (run (CheckLease 10000) sample_active)) in G.
  rewrite G. vm_compute. reflexivity.
Defined.

(** A lease that its own registry reports as expired passes the check while its deadline lies
    ahead. *)
Example expired_status_passes_the_check :
  let answer := mk_heartbeat_response (Some (mk_lease "lease" LeaseExpired 20000 2000 7)) 0 in
  let s := run (CheckLease 300) (run (Heartbeat 200 (Ok answer)) sample_active) in
  node_state s = Active /\ gate_open s = true.
Proof. vm_compute. done. Qed.

(** ** What overlapping calls, and drain, can do *)

(** An instance that was replaced is isolated, but keeps the status of its lease; entering and
    leaving drain makes it active again. *)
Example replaced_instance_returns :
  let replaced := mk_heartbeat_response (Some (mk_lease "lease" LeaseActive 20000 2000 8)) 0 in
  let isolated := run (Heartbeat 200 (Ok replaced)) sample_active in
  let back := run (LeaveDrain 400) (run (Drain 30000 300) isolated) in
  node_state isolated = Isolated /\ gate_open isolated = false /\
  node_state back = Active /\ gate_open back = true.
Proof. vm_compute. done. Qed.

(** A shutdown that runs while the registry answers a registration: the answer brings the
    stopped node back. *)
Example stopped_node_returns :
  let registering := ((locked (register_begin 100) ;;; gate false 100) sample_node).1 in
  let stopped := run (Shutdown 200 (Ok tt)) registering in
  let back := (apply_registration sample_response 300 stopped).1 in
  node_state stopped = Stopped /\ node_state back = Active /\ gate_open back = true.
Proof. vm_compute. done. Qed.

(** An isolation between the two halves of [apply_registration]: the gate is open although
    the node is isolated. *)
Example gate_of_an_isolated_node :
  let registering := ((locked (register_begin 100) ;;; gate false 100) sample_node).1 in
  let accepted := (locked (registration_accepted sample_response) registering).1 in
  let isolated := run (Isolate (mk_isolate "node" "instance" LossRevoked true) 200) accepted in
  let late := (gate true 300 isolated).1 in
  node_state late = Isolated /\ gate_open late = true.
Proof. vm_compute. done. Qed.
