(* ===== verification/Idempotency.v ===== *)
(** * Idempotency records

    Models the part of the store of [crates/system/cheetah-media-control-plane/src/] that
    makes mutations idempotent: keys, digests and records of [idempotency.rs] and
    [store.rs], the rows of [sqlite.rs] and its transactions [get], [prepare], [complete]
    and [list_prepared_unknown].

    A row is kept the way it is stored, with its digest in hex and its JSON columns as text.
    Every transaction holds the lock of the one connection, so it is one step on the table;
    the clock is an argument, read before the lock by some of them, so that successive
    transactions may have times in any order. A failing database rolls back and is left out:
    it changes nothing. [Value] is the type of JSON values of a domain result and [SafeError]
    that of stored errors, which are only passed through; reading them back may be inexact.
    Text columns are the [string] of their bytes. *)
From Stdlib Require Import Ascii Strings.Byte.
From stdpp Require Import strings sorting.
From S2P Require Import Prelude MediaKeys ControlIds ControlPlane.
Local Open Scope string_scope.
Local Open Scope Z_scope.

(** ** Keys *)

Record IdempotencyKey : Set := mk_key {
  tenant_id : string;
  operation_kind : string;
  key : string
}.

#[export] Instance IdempotencyKey_eq_dec : EqDecision IdempotencyKey.
Proof. solve_decision. Defined.
#[export] Instance IdempotencyKey_countable : Countable IdempotencyKey.
Proof.
  apply (inj_countable' (fun k => (tenant_id k, operation_kind k, key k))
           (fun '(t, o, s) => mk_key t o s)). by intros [].
Defined.

Definition validate (k : IdempotencyKey) : result ControlPlaneError unit :=
  if bool_decide (key k = "") then Err (Media invalid_argument)
  else if has_control_char (key k) then Err (Media invalid_argument)
  else if bool_decide (operation_kind k = "") then Err (Media invalid_argument)
  else Ok tt.

(** ** Digests

    A digest is a list of 32 bytes. *)

Abbreviation CanonicalDigest := (list byte).

#[export] Instance digest_byte_eq_dec : EqDecision byte := Byte.byte_eq_dec.

Definition hex_digit (n : Z) : ascii :=
  ascii_of_nat (Z.to_nat (if n <? 10 then n + 48 else n + 87)).

Fixpoint to_hex (d : CanonicalDigest) : string :=
  match d with
  | [] => ""
  | b :: d =>
      let z := Z.of_N (to_N b) in
      String (hex_digit (z / 16)) (String (hex_digit (z mod 16)) (to_hex d))
  end.

Definition digit_of (a : ascii) : option Z :=
  let n := Z.of_nat (nat_of_ascii a) in
  if (48 <=? n) && (n <=? 57) then Some (n - 48)
  else if (97 <=? n) && (n <=? 102) then Some (n - 87)
  else if (65 <=? n) && (n <=? 70) then Some (n - 55)
  else None.

(** [u8::from_str_radix(chunk, 16)] on a chunk of two bytes; a leading plus sign is allowed. *)
Definition radix_16 (a b : ascii) : option byte :=
  match (if Ascii.eqb a "+" then Some 0 else digit_of a), digit_of b with
  | Some hi, Some lo => of_N (Z.to_N (hi * 16 + lo))
  | _, _ => None
  end.

Fixpoint hex_chunks (s : string) : option CanonicalDigest :=
  match s with
  | EmptyString => Some []
  | String a (String b s) => b0 ← radix_16 a b; rest ← hex_chunks s; Some (b0 :: rest)
  | String _ EmptyString => None
  end.

(** [CanonicalDigest::from_hex] and [parse_hex]. *)
Definition parse_hex (s : string) : option CanonicalDigest :=
  if (String.length s =? 64)%nat then hex_chunks s else None.

(** ** Records and rows *)

Inductive IdempotencyState : Set := Prepared | Completed | IdFailed | IdUnknown.

#[export] Instance IdempotencyState_eq_dec : EqDecision IdempotencyState.
Proof. solve_decision. Defined.

Definition state_to_str (s : IdempotencyState) : string :=
  match s with
  | Prepared => "prepared"
  | Completed => "completed"
  | IdFailed => "failed"
  | IdUnknown => "unknown"
  end.

Definition str_to_state (s : string) : IdempotencyState :=
  if bool_decide (s = "completed") then Completed
  else if bool_decide (s = "failed") then IdFailed
  else if bool_decide (s = "unknown") then IdUnknown
  else Prepared.

Definition effect_outcome_to_str (o : EffectOutcome) : string :=
  match o with
  | NotApplied => "not_applied"
  | Applied => "applied"
  | Unknown => "unknown"
  end.

Definition str_to_effect_outcome (s : string) : EffectOutcome :=
  if bool_decide (s = "applied") then Applied
  else if bool_decide (s = "unknown") then Unknown
  else NotApplied.

Record RowIdempotency : Set := mk_row {
  row_digest : string;
  row_state : string;
  row_resource_ref : option string;
  row_effect_outcome : string;
  row_domain_result : option string;
  row_safe_error : option string;
  row_created_at_ms : Z;
  row_updated_at_ms : Z;
  row_expires_at_ms : Z;
  row_attempt_count : Z
}.

Abbreviation idempotency_table := (gmap IdempotencyKey RowIdempotency).

Record IdempotencyRecord {Value SafeError : Type} : Type := mk_record {
  record_key : IdempotencyKey;
  state : IdempotencyState;
  canonical_digest : CanonicalDigest;
  resource_ref : option ControlledResourceRef;
  effect_outcome : EffectOutcome;
  serialized_domain_result : option Value;
  safe_error : option SafeError;
  created_at_ms : Z;
  updated_at_ms : Z;
  expires_at_ms : Z;
  attempt_count : Z
}.
Arguments IdempotencyRecord : clear implicits.
Arguments mk_record {Value SafeError}.

Inductive IdempotencyOutcome {Value SafeError : Type} : Type :=
| Proceed
| Replay (r : IdempotencyRecord Value SafeError)
| OutcomeConflict
| OutcomeReconcile.
Arguments IdempotencyOutcome : clear implicits.

Section store.
Context {Value SafeError : Type} `{!Json ControlledResourceRef, !Serde Value, !Serde SafeError, !OrderBy}.

Abbreviation Record_ := (IdempotencyRecord Value SafeError).

Definition into_record (k : IdempotencyKey) (r : RowIdempotency) : Record_ :=
  mk_record k (str_to_state (row_state r)) (default (replicate 32 x00) (parse_hex (row_digest r)))
    (row_resource_ref r ≫= from_json) (str_to_effect_outcome (row_effect_outcome r))
    (row_domain_result r ≫= from_json) (row_safe_error r ≫= from_json) (row_created_at_ms r)
    (row_updated_at_ms r) (row_expires_at_ms r) (row_attempt_count r).

Definition get (now : Z) (k : IdempotencyKey) :
    SE idempotency_table ControlPlaneError (option Record_) := fun t =>
  match t !! k with
  | Some r => if row_expires_at_ms r <? now then (delete k t, Ok None) else (t, Ok (Some (into_record k r)))
  | None => (t, Ok None)
  end.

Definition prepared_row (now : Z) (digest : CanonicalDigest) (expires : Z) : RowIdempotency :=
  mk_row (to_hex digest) (state_to_str Prepared) None (effect_outcome_to_str NotApplied) None None
    now now expires 0.

Definition prepare (now : Z) (k : IdempotencyKey) (digest : CanonicalDigest) (expires : Z) :
    SE idempotency_table ControlPlaneError (IdempotencyOutcome Value SafeError) := fun t =>
  let insert t := (<[k := prepared_row now digest expires]> t, Ok Proceed) in
  match t !! k with
  | Some r =>
      if row_expires_at_ms r <? now then insert (delete k t)
      else
        let record := into_record k r in
        if bool_decide (canonical_digest record <> digest) then (t, Ok OutcomeConflict)
        else
          match state record with
          | Completed | IdFailed => (t, Ok (Replay record))
          | Prepared | IdUnknown => (t, Ok OutcomeReconcile)
          end
  | None => insert t
  end.

(** The row that [complete] writes; [None] when a column cannot be serialized. *)
Definition completed_row (record : Record_) (created attempts : Z) : option RowIdempotency :=
  ref ← opt_to_json (resource_ref record);
  res ← opt_to_json (serialized_domain_result record);
  err ← opt_to_json (safe_error record);
  Some (mk_row (to_hex (canonical_digest record)) (state_to_str (state record)) ref
          (effect_outcome_to_str (effect_outcome record)) res err created (updated_at_ms record)
          (expires_at_ms record) attempts).

(** The count is a [u32]. *)
Definition complete (record : Record_) : SE idempotency_table ControlPlaneError unit := fun t =>
  let write created attempts :=
    match completed_row record created attempts with
    | Some row => (<[record_key record := row]> t, Ok tt)
    | None => (t, Err Serialization)
    end in
  match t !! record_key record with
  | Some r =>
      if bool_decide (parse_hex (row_digest r) <> Some (canonical_digest record))
      then (t, Err InvalidIdempotencyState)
      else write (row_created_at_ms r) (wrap_u 32 (row_attempt_count r + 1))
  | None => write (created_at_ms record) (attempt_count record)
  end.

Definition in_flight (row : IdempotencyKey * RowIdempotency) : Prop :=
  row_state row.2 = "prepared" \/ row_state row.2 = "unknown".

#[local] Instance in_flight_dec row : Decision (in_flight row).
Proof. unfold in_flight. apply _. Defined.

Definition list_prepared_unknown (max_records : nat) (t : idempotency_table) : list Record_ :=
  (fun row => into_record row.1 row.2) <$>
    take max_records (order_by (fun row => row_updated_at_ms row.2) (filter in_flight (map_to_list t))).

(** ** Runs of transactions *)

Inductive txn : Type :=
| TGet (k : IdempotencyKey)
| TPrepare (k : IdempotencyKey) (digest : CanonicalDigest) (expires : Z)
| TComplete (record : Record_).

Inductive answer : Type :=
| AGet (r : option Record_)
| APrepare (o : IdempotencyOutcome Value SafeError)
| AComplete.

Definition run_txn (now : Z) (x : txn) : SE idempotency_table ControlPlaneError answer :=
  match x with
  | TGet k => r <- get now k ;; se_ret (AGet r)
  | TPrepare k digest expires => o <- prepare now k digest expires ;; se_ret (APrepare o)
  | TComplete record => complete record ;;; se_ret AComplete
  end.

Definition txn_wf (x : txn) : Prop :=
  match x with
  | TGet _ => True
  | TPrepare _ digest _ => length digest = 32%nat
  | TComplete record => length (canonical_digest record) = 32%nat
  end.

(** What happened, newest first: the clock, the transaction and its answer. The clocks are
    in any order. *)
Definition event : Type := Z * txn * result ControlPlaneError answer.

Inductive store_run : list event -> idempotency_table -> Prop :=
| run_nil : store_run [] ∅
| run_cons h t now x t' res :
    store_run h t -> txn_wf x -> run_txn now x t = (t', res) -> store_run ((now, x, res) :: h) t'.

(** ** The specification: what was last written to the key, and whether it is in force *)

Definition written (e : event) : option Record_ :=
  match e with
  | (now, TPrepare k digest expires, Ok (APrepare Proceed)) =>
      Some (mk_record k Prepared digest None NotApplied None None now now expires 0)
  | (_, TComplete record, Ok AComplete) => Some record
  | _ => None
  end.

Fixpoint last_write (h : list event) (k : IdempotencyKey) : option Record_ :=
  match h with
  | [] => None
  | e :: h =>
      match written e with
      | Some r => if bool_decide (record_key r = k) then Some r else last_write h k
      | None => last_write h k
      end
  end.

(** The transaction looks the key up, at a time when a record with [expires] is over. *)
Definition looks_after (e : event) (k : IdempotencyKey) (expires : Z) : bool :=
  match e with
  | (now, TGet k', _) | (now, TPrepare k' _ _, _) => bool_decide (k' = k) && (expires <? now)
  | _ => false
  end.

(** The last write to a key is in force until a look at the key finds it over. *)
Fixpoint in_force (h : list event) (k : IdempotencyKey) : option Record_ :=
  match h with
  | [] => None
  | e :: h =>
      match written e with
      | Some r => if bool_decide (record_key r = k) then Some r else in_force h k
      | None =>
          match in_force h k with
          | Some r => if looks_after e k (expires_at_ms r) then None else Some r
          | None => None
          end
      end
  end.

(** The outcome of a mutation is known. *)
Definition closed (st : IdempotencyState) : bool :=
  match st with Completed | IdFailed => true | Prepared | IdUnknown => false end.

(** The key is free: it was never written, or the outcome last written is known and over. *)
Definition free (h : list event) (now : Z) (k : IdempotencyKey) : Prop :=
  match last_write h k with
  | None => True
  | Some r => closed (state r) = true /\ expires_at_ms r < now
  end.

(** Equal but for the time of creation and the number of attempts. *)
Definition with_counts (created attempts : Z) (r : Record_) : Record_ :=
  mk_record (record_key r) (state r) (canonical_digest r) (resource_ref r) (effect_outcome r)
    (serialized_domain_result r) (safe_error r) created (updated_at_ms r) (expires_at_ms r) attempts.
Definition same_result (r r' : Record_) : Prop := with_counts 0 0 r = with_counts 0 0 r'.

(** What serde_json makes of a value that was written. *)
Definition reread {A} `{!Serde A} (o : option A) : option A := a ← o; s ← to_json a; from_json s.

Definition as_stored (r : Record_) : Record_ :=
  mk_record (record_key r) (state r) (canonical_digest r) (resource_ref r) (effect_outcome r)
    (reread (serialized_domain_result r)) (reread (safe_error r)) (created_at_ms r) (updated_at_ms r)
    (expires_at_ms r) (attempt_count r).

Definition values_read_back (r : Record_) : Prop :=
  (forall v, serialized_domain_result r = Some v -> reads_back v) /\
  (forall e, safe_error r = Some e -> reads_back e).

(** [r'] is what the store answers for the record [r]: the same but for the counts, with the
    values that serde_json read back. *)
Definition replays (r' r : Record_) : Prop :=
  same_result r' (as_stored r) /\ (values_read_back r -> same_result r' r).

Definition prepare_spec (r : Record_) (digest : CanonicalDigest)
    (o : IdempotencyOutcome Value SafeError) : Prop :=
  if bool_decide (canonical_digest r <> digest) then o = OutcomeConflict
  else if closed (state r) then exists r', o = Replay r' /\ replays r' r
  else o = OutcomeReconcile.

(** ** The codecs of the columns *)

Lemma radix_16_digits (b : byte) :
  radix_16 (hex_digit (Z.of_N (to_N b) / 16)) (hex_digit (Z.of_N (to_N b) mod 16)) = Some b.
Proof. by destruct b. Qed.

Lemma hex_chunks_to_hex d : hex_chunks (to_hex d) = Some d.
Proof. induction d as [|b d IH]; [done|]. cbn [to_hex hex_chunks]. by rewrite radix_16_digits, IH. Qed.

Lemma to_hex_length d : String.length (to_hex d) = (2 * length d)%nat.
Proof. induction d as [|b d IH]; [done|]. cbn [to_hex String.length length]. lia. Qed.

Lemma parse_hex_to_hex d : length d = 32%nat -> parse_hex (to_hex d) = Some d.
Proof. intros L. unfold parse_hex. by rewrite to_hex_length, L, hex_chunks_to_hex. Qed.

Lemma str_to_state_to_str st : str_to_state (state_to_str st) = st.
Proof. by destruct st. Qed.

Lemma str_to_effect_outcome_to_str o : str_to_effect_outcome (effect_outcome_to_str o) = o.
Proof. by destruct o. Qed.

Lemma opt_json_back {A} `{!Json A} (o : option A) c : opt_to_json o = Some c -> c ≫= from_json = o.
Proof.
  destruct o as [a|]; cbn; [|by intros [= <-]].
  destruct (to_json a) eqn:E; cbn; [|done]. intros [= <-]. cbn. by apply json_back.
Qed.

Lemma opt_json_reread {A} `{!Serde A} (o : option A) c : opt_to_json o = Some c -> c ≫= from_json = reread o.
Proof.
  unfold reread. destruct o as [a|]; cbn; [|by intros [= <-]].
  destruct (to_json a) eqn:E; cbn; [|done]. by intros [= <-].
Qed.

Lemma reread_exact {A} `{!Serde A} (o : option A) c :
  opt_to_json o = Some c -> (forall a, o = Some a -> reads_back a) -> reread o = o.
Proof.
  unfold reread. destruct o as [a|]; cbn; [|done]. destruct (to_json a) eqn:E; cbn; [|done].
  intros _ R. by apply (R a).
Qed.

Definition serializable (record : Record_) : Prop := completed_row record 0 0 <> None.

Lemma completed_row_counts record created attempts :
  serializable record -> exists row, completed_row record created attempts = Some row.
Proof.
  unfold serializable, completed_row.
  destruct (opt_to_json (resource_ref record)), (opt_to_json (serialized_domain_result record)),
    (opt_to_json (safe_error record)); cbn; try done. by eexists.
Qed.

Lemma completed_row_serializable record created attempts row :
  completed_row record created attempts = Some row -> serializable record.
Proof.
  unfold serializable, completed_row.
  by destruct (opt_to_json (resource_ref record)), (opt_to_json (serialized_domain_result record)),
    (opt_to_json (safe_error record)).
Qed.

Lemma as_stored_exact r : serializable r -> values_read_back r -> as_stored r = r.
Proof.
  intros [row C]%(completed_row_counts _ 0 0) [V E]. unfold completed_row in C.
  destruct (opt_to_json (resource_ref r)) as [c1|]; [|done].
  destruct (opt_to_json (serialized_domain_result r)) as [c2|] eqn:E2; [|done].
  destruct (opt_to_json (safe_error r)) as [c3|] eqn:E3; [|done].
  unfold as_stored. rewrite (reread_exact _ _ E2 V), (reread_exact _ _ E3 E). by destruct r.
Qed.

Lemma replays_stored r' r : serializable r -> same_result r' (as_stored r) -> replays r' r.
Proof. intros W S. split; [done|]. intros V. by rewrite as_stored_exact in S. Qed.

(** The row of a record reads back as what is stored of the record. *)
Lemma completed_row_back record created attempts row :
  length (canonical_digest record) = 32%nat -> completed_row record created attempts = Some row ->
  into_record (record_key record) row = with_counts created attempts (as_stored record) /\
  parse_hex (row_digest row) = Some (canonical_digest record).
Proof.
  intros L. unfold completed_row, into_record, with_counts, as_stored.
  destruct (opt_to_json (resource_ref record)) as [c1|] eqn:E1; [|done].
  destruct (opt_to_json (serialized_domain_result record)) as [c2|] eqn:E2; [|done].
  destruct (opt_to_json (safe_error record)) as [c3|] eqn:E3; [|done]. cbn. intros [= <-]. cbn.
  by rewrite (opt_json_back _ _ E1), (opt_json_reread _ _ E2), (opt_json_reread _ _ E3),
    str_to_state_to_str, str_to_effect_outcome_to_str, parse_hex_to_hex.
Qed.

Lemma prepared_row_back now k digest expires :
  length digest = 32%nat ->
  into_record k (prepared_row now digest expires)
  = mk_record k Prepared digest None NotApplied None None now now expires 0 /\
  parse_hex (row_digest (prepared_row now digest expires)) = Some digest.
Proof. intros L. unfold into_record. cbn. by rewrite parse_hex_to_hex. Qed.

(** ** The table is what is in force *)

Definition row_agrees (k : IdempotencyKey) (row : option RowIdempotency) (w : option Record_) : Prop :=
  match row, w with
  | Some row, Some r =>
      serializable r /\ same_result (into_record k row) (as_stored r) /\
      parse_hex (row_digest row) = Some (canonical_digest r)
  | None, None => True
  | _, _ => False
  end.

Definition agrees (t : idempotency_table) (h : list event) : Prop :=
  forall k, row_agrees k (t !! k) (in_force h k).

Lemma same_result_fields r r' :
  same_result r (as_stored r') ->
  record_key r = record_key r' /\ state r = state r' /\ canonical_digest r = canonical_digest r' /\
  expires_at_ms r = expires_at_ms r'.
Proof. unfold same_result, with_counts, as_stored. intros [= E1 E2 E3 E4 E5 E6 E7 E8 E9]. done. Qed.

Lemma row_agrees_expires k row r :
  row_agrees k (Some row) (Some r) -> row_expires_at_ms row = expires_at_ms r.
Proof. intros (_ & S & _). by destruct (same_result_fields _ _ S) as (_ & _ & _ & E). Qed.

Lemma agrees_insert t h k row e r :
  (forall k', k' <> k -> row_agrees k' (t !! k') (in_force h k')) ->
  written e = Some r -> record_key r = k -> row_agrees k (Some row) (Some r) ->
  agrees (<[k := row]> t) (e :: h).
Proof.
  intros A W K R k'. cbn [in_force]. rewrite W. destruct (decide (k = k')) as [<-|N].
  - by rewrite lookup_insert_eq, bool_decide_true.
  - rewrite lookup_insert_ne, bool_decide_false by congruence. by apply A.
Qed.

(** A transaction that writes nothing, on [k]: the row stays unless it is found to be over. *)
Lemma agrees_look t t' h e k :
  agrees t h -> written e = None ->
  (forall k' expires, k' <> k -> looks_after e k' expires = false) ->
  (t' = t /\ (forall r, in_force h k = Some r -> looks_after e k (expires_at_ms r) = false) \/
   t' = delete k t /\ forall r, in_force h k = Some r -> looks_after e k (expires_at_ms r) = true) ->
  agrees t' (e :: h).
Proof.
  intros A W Other Own k'. cbn [in_force]. rewrite W. specialize (A k'). destruct (decide (k' = k)) as [->|N].
  - destruct Own as [[-> Own]|[-> Own]].
    + destruct (in_force h k) as [r|]; [|done]. by rewrite (Own r).
    + rewrite lookup_delete_eq. destruct (in_force h k) as [r|]; [|done]. by rewrite (Own r).
  - assert (t' !! k' = t !! k') as ->.
    { destruct Own as [[-> _]|[-> _]]; [done|]. by rewrite lookup_delete_ne. }
    destruct (in_force h k') as [r|]; [|done]. by rewrite Other.
Qed.

(** What the row of a key tells. *)
Inductive key_view (k : IdempotencyKey) (t : idempotency_table) (h : list event) : Prop :=
| view_none : t !! k = None -> in_force h k = None -> key_view k t h
| view_row row r :
    t !! k = Some row -> in_force h k = Some r -> row_expires_at_ms row = expires_at_ms r -> serializable r ->
    same_result (into_record k row) (as_stored r) -> parse_hex (row_digest row) = Some (canonical_digest r) ->
    key_view k t h.

Lemma agrees_view t h k : agrees t h -> key_view k t h.
Proof.
  intros A. specialize (A k). unfold row_agrees in A. destruct (t !! k) as [row|] eqn:R, (in_force h k) as [r|] eqn:W;
    try done.
  - pose proof (row_agrees_expires k row r A) as X. destruct A as (Se & S & D).
    by apply (view_row _ _ _ row r).
  - by apply view_none.
Qed.

Lemma other_look (now : Z) (k k' : IdempotencyKey) (expires : Z) :
  k' <> k -> bool_decide (k = k') && (expires <? now) = false.
Proof. intros N. by rewrite bool_decide_false by congruence. Qed.

Lemma get_step now k t h t' res :
  agrees t h -> get now k t = (t', res) ->
  agrees t' ((now, TGet k, result_map AGet res) :: h) /\
  match in_force h k with
  | None => res = Ok None
  | Some r => if expires_at_ms r <? now then res = Ok None else exists r', res = Ok (Some r') /\ replays r' r
  end.
Proof.
  intros A. unfold get.
  destruct (agrees_view t h k A) as [R L|row r R L X Se S D]; rewrite R, L.
  - intros [= <- <-]. split; [|done]. apply (agrees_look t _ _ _ k); try done.
    + intros k' x N. by apply other_look.
    + left. split; [done|]. intros r. by rewrite L.
  - rewrite X. destruct (expires_at_ms r <? now) eqn:E; intros [= <- <-].
    + split; [|done]. apply (agrees_look t _ _ _ k); try done; [intros k' x N; by apply other_look|].
      right. split; [done|]. rewrite L. intros r0 [= <-]. cbn. by rewrite bool_decide_true, E.
    + split; [|eexists; split; [done|by apply replays_stored]].
      apply (agrees_look t _ _ _ k); try done; [intros k' x N; by apply other_look|].
      left. split; [done|]. rewrite L. intros r0 [= <-]. cbn. by rewrite E, andb_false_r.
Qed.

Lemma prepare_step now k digest expires t h t' res :
  agrees t h -> length digest = 32%nat -> prepare now k digest expires t = (t', res) ->
  exists o, res = Ok o /\
    match in_force h k with
    | None => o = Proceed
    | Some r => if expires_at_ms r <? now then o = Proceed else prepare_spec r digest o
    end /\
    agrees t' ((now, TPrepare k digest expires, Ok (APrepare o)) :: h).
Proof.
  intros A Ld. unfold prepare.
  destruct (prepared_row_back now k digest expires Ld) as [B1 B2].
  assert (new : forall t0, (forall k', k' <> k -> t0 !! k' = t !! k') ->
    agrees (<[k := prepared_row now digest expires]> t0)
      ((now, TPrepare k digest expires, Ok (APrepare Proceed)) :: h)).
  { intros t0 Same. eapply agrees_insert; [|done|done|].
    - intros k' N. rewrite Same by done. apply A.
    - cbn. rewrite B1. done. }
  destruct (agrees_view t h k A) as [R L|row r R L X Se S D]; rewrite R, L.
  - intros [= <- <-]. eexists. split_and!; [done|done|]. by apply new.
  - rewrite X. destruct (expires_at_ms r <? now) eqn:E.
    + intros [= <- <-]. eexists. split_and!; [done|done|]. apply new. intros k' N. by rewrite lookup_delete_ne.
    + destruct (same_result_fields _ _ S) as (_ & ES & ED & _). cbv zeta. rewrite ED, ES.
      assert (keep : forall o, written (now, TPrepare k digest expires, Ok (APrepare o)) = None ->
        agrees t ((now, TPrepare k digest expires, Ok (APrepare o)) :: h)).
      { intros o W. apply (agrees_look t _ _ _ k); try done; [intros k' x N; by apply other_look|].
        left. split; [done|]. rewrite L. intros r0 [= <-]. cbn. by rewrite E, andb_false_r. }
      unfold prepare_spec.
      destruct (bool_decide (canonical_digest r <> digest)); [|destruct (state r)];
        intros [= <- <-]; eexists; split_and!; try done; try (by apply keep).
      all: by eexists; split; [|apply replays_stored].
Qed.

Lemma complete_step now record t h t' res :
  agrees t h -> length (canonical_digest record) = 32%nat -> complete record t = (t', res) ->
  agrees t' ((now, TComplete record, result_map (fun _ => AComplete) res) :: h) /\
  (serializable record ->
   res = match in_force h (record_key record) with
         | Some r => if bool_decide (canonical_digest r = canonical_digest record) then Ok tt
                     else Err InvalidIdempotencyState
         | None => Ok tt
         end).
Proof.
  intros A Ld. unfold complete.
  assert (same : forall e, agrees t ((now, TComplete record, Err e) :: h)).
  { intros e. apply (agrees_look t _ _ _ (record_key record)); try done. by left. }
  assert (write : forall created attempts t' res,
    match completed_row record created attempts with
    | Some row => (<[record_key record := row]> t, Ok tt)
    | None => (t, Err Serialization)
    end = (t', res) ->
    agrees t' ((now, TComplete record, result_map (fun _ => AComplete) res) :: h) /\
    (serializable record -> res = Ok tt)).
  { intros created attempts t0 res0. destruct (completed_row record created attempts) as [row|] eqn:C.
    - intros [= <- <-]. split; [|done]. destruct (completed_row_back _ _ _ _ Ld C) as [B1 B2].
      eapply agrees_insert; [intros k' _; apply A|done|done|]. cbn. rewrite B1.
      split; [by eapply completed_row_serializable|done].
    - intros [= <- <-]. split; [by apply same|]. intros [row C']%(completed_row_counts _ created attempts).
      congruence. }
  destruct (agrees_view t h (record_key record) A) as [R L|row r R L X Se S D]; rewrite R, L.
  - intros [W1 W2]%write. by split.
  - rewrite D. case_bool_decide as N.
    + intros [= <- <-]. split; [by apply same|]. by rewrite bool_decide_false by congruence.
    + intros [W1 W2]%write. split; [done|]. intros ?%W2. by rewrite bool_decide_true by congruence.
Qed.

Lemma run_agrees h t : store_run h t -> agrees t h.
Proof.
  induction 1 as [|h t now x t' res Ru IH W E].
  - intros k. by rewrite lookup_empty.
  - destruct x as [k|k digest expires|record]; cbn in E; unfold se_bind in E.
    + destruct (get now k t) as [t0 r0] eqn:G. destruct (get_step _ _ _ _ _ _ IH G) as [A _].
      destruct r0; by injection E as <- <-.
    + destruct (prepare now k digest expires t) as [t0 r0] eqn:P.
      destruct (prepare_step _ _ _ _ _ _ _ _ IH W P) as (o & -> & _ & A). by injection E as <- <-.
    + destruct (complete record t) as [t0 r0] eqn:C.
      destruct (complete_step now _ _ _ _ _ IH W C) as [A _]. by destruct r0; injection E as <- <-.
Qed.

Lemma in_force_last h k r : in_force h k = Some r -> last_write h k = Some r.
Proof.
  induction h as [|e h IH]; cbn; [done|]. destruct (written e) as [r0|].
  - destruct (bool_decide _); [done|exact IH].
  - destruct (in_force h k) as [r1|]; [|done]. destruct (looks_after _ _ _); [done|]. exact IH.
Qed.

(** A key that is free proceeds, and is not found. *)
Lemma free_in_force h now k r : free h now k -> in_force h k = Some r -> expires_at_ms r < now.
Proof. intros F L. unfold free in F. rewrite (in_force_last _ _ _ L) in F. by destruct F. Qed.

(** [C32] The answers of the store are a function of the history of a key, whatever the clocks
    of the transactions in it. While the last write to a key is in force and not over,
    [prepare] answers a different digest with a conflict, replays the record whose outcome
    is known, and sends the caller to reconcile while the outcome is open: no second caller
    proceeds. A key that was never written, or whose outcome is known and whose time is
    over, proceeds. [get] gives the write in force while it is not over, and nothing for a
    free key. [complete] cannot change the digest of a write in force, and succeeds for the
    same digest. A record comes back with the domain result and the error that serde_json
    reads back: the very ones that were completed, if their JSON is read back exactly. *)
Theorem idempotency_by_history (h : list event) (t : idempotency_table) (now : Z) :
  store_run h t ->
  (forall k digest expires r, length digest = 32%nat -> in_force h k = Some r -> now <= expires_at_ms r ->
     exists o, (prepare now k digest expires t).2 = Ok o /\ prepare_spec r digest o) /\
  (forall k digest expires, length digest = 32%nat -> free h now k ->
     (prepare now k digest expires t).2 = Ok Proceed) /\
  (forall k r, in_force h k = Some r -> now <= expires_at_ms r ->
     exists r', (get now k t).2 = Ok (Some r') /\ replays r' r) /\
  (forall k, free h now k -> (get now k t).2 = Ok None) /\
  (forall record r, length (canonical_digest record) = 32%nat -> serializable record ->
     in_force h (record_key record) = Some r ->
     (complete record t).2 = if bool_decide (canonical_digest r = canonical_digest record) then Ok tt
                             else Err InvalidIdempotencyState).
Proof.
  intros Ru. pose proof (run_agrees h t Ru) as A. split_and!.
  - intros k digest expires r L W X. destruct (prepare now k digest expires t) as [t' res] eqn:P.
    destruct (prepare_step _ _ _ _ _ _ _ _ A L P) as (o & -> & S & _). exists o. split; [done|].
    by rewrite W, (proj2 (Z.ltb_ge _ _) X) in S.
  - intros k digest expires L F. destruct (prepare now k digest expires t) as [t' res] eqn:P.
    destruct (prepare_step _ _ _ _ _ _ _ _ A L P) as (o & -> & S & _). cbn.
    destruct (in_force h k) as [r|] eqn:W; [|by subst].
    pose proof (free_in_force _ _ _ _ F W) as X. by rewrite (proj2 (Z.ltb_lt _ _) X) in S; subst.
  - intros k r W X. destruct (get now k t) as [t' res] eqn:G. destruct (get_step _ _ _ _ _ _ A G) as [_ S].
    by rewrite W, (proj2 (Z.ltb_ge _ _) X) in S.
  - intros k F. destruct (get now k t) as [t' res] eqn:G. destruct (get_step _ _ _ _ _ _ A G) as [_ S].
    destruct (in_force h k) as [r|] eqn:W; [|done].
    pose proof (free_in_force _ _ _ _ F W) as X. by rewrite (proj2 (Z.ltb_lt _ _) X) in S.
  - intros record r L S W. destruct (complete record t) as [t' res] eqn:C.
    destruct (complete_step now _ _ _ _ _ A L C) as [_ E]. specialize (E S). by rewrite W in E.
Qed.
End store.

(** ** A mutation that is retried *)

#[local] Instance sample_ref_json : Json ControlledResourceRef := json_of_countable _.
#[local] Instance sample_value_json : Json string := json_of_countable _.
#[local] Instance sample_error_json : Json MediaError := json_of_countable _.
#[local] Instance sample_order : OrderBy := order_by_merge_sort.

Abbreviation sample_prepare := (prepare (Value := string) (SafeError := MediaError)).

Definition sample_key : IdempotencyKey := mk_key "tenant-1" "create_session" "key-1".
Definition sample_digest : CanonicalDigest := replicate 32 x2a.
Definition sample_record : IdempotencyRecord string MediaError :=
  mk_record sample_key Completed sample_digest None Applied (Some "handle-1") None 50 50 1000 1.

Definition claimed_table : idempotency_table := (sample_prepare 10 sample_key sample_digest 100 ∅).1.
Definition sample_table : idempotency_table := (complete sample_record claimed_table).1.
Definition sample_history : list (event (Value := string) (SafeError := MediaError)) :=
  [(50, TComplete sample_record, Ok AComplete);
   (10, TPrepare sample_key sample_digest 100, Ok (APrepare Proceed))].

Lemma sample_run : store_run sample_history sample_table.
Proof.
  assert (E1 : run_txn (Value := string) (SafeError := MediaError) 10 (TPrepare sample_key sample_digest 100) ∅
               = (claimed_table, Ok (APrepare Proceed))).
  { unfold claimed_table, run_txn, se_bind, prepare. by rewrite lookup_empty. }
  assert (E2 : run_txn 50 (TComplete sample_record) claimed_table = (sample_table, Ok AComplete)).
  { unfold sample_table, run_txn, se_bind, complete, claimed_table, prepare.
    rewrite lookup_empty. cbn [fst record_key sample_record]. rewrite lookup_insert_eq.
    rewrite bool_decide_false; [done|]. intros N. apply N. by apply parse_hex_to_hex. }
  refine (run_cons _ _ 50 (TComplete sample_record) _ _ _ _ E2); [|reflexivity].
  exact (run_cons _ _ 10 (TPrepare sample_key sample_digest 100) _ _ run_nil eq_refl E1).
Qed.

Lemma sample_in_force : in_force sample_history sample_key = Some sample_record.
Proof. vm_compute. reflexivity. Qed.

Lemma sample_values : values_read_back sample_record.
Proof. split; intros v _; apply json_back. Qed.

Lemma idempotency_by_history_witness :
  store_run sample_history sample_table /\
  (exists r, (sample_prepare 60 sample_key sample_digest 100 sample_table).2 = Ok (Replay r) /\
     same_result r sample_record) /\
  (sample_prepare 60 sample_key (replicate 32 x2b) 100 sample_table).2 = Ok OutcomeConflict /\
  (sample_prepare 1001 sample_key sample_digest 2000 sample_table).2 = Ok Proceed.
Proof.
  split; [exact sample_run|]. split; [|split].
  - destruct (idempotency_by_history sample_history sample_table 60 sample_run) as (P & _).
    destruct (P sample_key sample_digest 100 sample_record eq_refl sample_in_force ltac:(cbn; lia)) as (o & E & S).
    unfold prepare_spec in S. rewrite bool_decide_false in S by (intros N; by apply N).
    destruct S as (r & -> & _ & S). exists r. split; [exact E|]. exact (S sample_values).
  - destruct (idempotency_by_history sample_history sample_table 60 sample_run) as (P & _).
    destruct (P sample_key (replicate 32 x2b) 100 sample_record eq_refl sample_in_force ltac:(cbn; lia)) as (o & E & S).
    unfold prepare_spec in S. rewrite bool_decide_true in S by discriminate. by rewrite E, S.
  - destruct (idempotency_by_history sample_history sample_table 1001 sample_run) as (_ & P & _).
    apply P; [reflexivity|]. vm_compute. by split.
Defined.

(** An expired record is deleted whatever its state: the same request proceeds a second time
    while the first is still at work, or while its outcome is unknown. *)
Example expired_claim_is_executed_twice :
  let first := sample_prepare 10 sample_key sample_digest 100 ∅ in
  let second := sample_prepare 101 sample_key sample_digest 200 first.1 in
  first.2 = Ok Proceed /\ second.2 = Ok Proceed.
Proof. vm_compute. done. Qed.

(** Two digits of a byte may begin with a plus sign, so a text may read back as a digest it was
    not written for. *)
Example hex_is_not_unique :
  parse_hex ("+f" ++ String.substring 2 62 (to_hex sample_digest))%string
  = parse_hex ("0f" ++ String.substring 2 62 (to_hex sample_digest))%string.
Proof. vm_compute. done. Qed.
