(* ===== verification/Resources.v ===== *)
(** * Controlled resources and orphans

    Models, of [crates/system/cheetah-media-control-plane/src/], the table of resources
    ([resource_store.rs]), the table of orphan marks ([orphan_store.rs]) and their records
    ([store.rs]). Rows are kept the way they are stored: enums and digests as text, [u64]
    columns as the [i64] they are cast to, JSON as text.

    Every call of a store is one step, since it holds the lock of the connection; the clock
    is an argument. A failing database changes nothing and is left out. *)
From stdpp Require Import strings sorting.
From S2P Require Import Prelude MediaKeys ControlIds ControlPlane Idempotency.
Local Open Scope string_scope.
Local Open Scope Z_scope.

(** ** Rows and records *)

(** Tenant, kind and handle: the primary key of both tables. *)
Abbreviation ResourceId := (string * string * string)%type.

Record ResourceRecord : Set := mk_resource {
  res_tenant : string;
  res_kind : string;
  res_handle : string;
  res_session : option string;
  res_binding : option string;
  res_media_key : option MediaKey;
  res_scope : option string;
  res_digest : option CanonicalDigest;
  res_owner_epoch : Z;
  res_node_id : option string;
  res_node_instance : option string;
  res_node_epoch : Z;
  res_generation : Z;
  res_state : ResourceState;
  res_error : option MediaError;
  res_origin : ResourceOrigin;
  res_created : Z;
  res_updated : Z;
  res_terminal : option Z
}.

Record RowResource : Set := mk_row_resource {
  rr_session : option string;
  rr_binding : option string;
  rr_media_key : option string;
  rr_scope : option string;
  rr_digest : option string;
  rr_owner_epoch : Z;
  rr_node_id : option string;
  rr_node_instance : option string;
  rr_node_epoch : Z;
  rr_generation : Z;
  rr_state : string;
  rr_error : option string;
  rr_origin : string;
  rr_created : Z;
  rr_updated : Z;
  rr_terminal : option Z
}.

Record RowOrphan : Set := mk_row_orphan {
  ro_ref_json : string;
  ro_marked : Z;
  ro_confirmed : Z;
  ro_confirmed_at : option Z
}.

Record OrphanRecord : Set := mk_orphan {
  or_tenant : string;
  or_kind : string;
  or_handle : string;
  or_ref_json : string;
  or_marked : Z;
  or_confirmed : bool;
  or_confirmed_at : option Z
}.

Record ControlStore : Set := mk_store {
  resources : gmap ResourceId RowResource;
  orphans : gmap ResourceId RowOrphan
}.

Definition with_resources (t : gmap ResourceId RowResource) (s : ControlStore) : ControlStore :=
  mk_store t (orphans s).
Definition with_orphans (t : gmap ResourceId RowOrphan) (s : ControlStore) : ControlStore :=
  mk_store (resources s) t.

Definition resource_id (r : ResourceRecord) : ResourceId := (res_tenant r, res_kind r, res_handle r).
Definition orphan_id (o : OrphanRecord) : ResourceId := (or_tenant o, or_kind o, or_handle o).

(** [ResourceRecord::resource_ref] *)
Definition record_ref (r : ResourceRecord) : ControlledResourceRef :=
  mk_ref (res_tenant r) (res_session r) (res_binding r) (res_kind r) (res_handle r)
    (res_owner_epoch r) (res_node_epoch r) (res_generation r) (res_origin r).
Definition ref_id (r : ControlledResourceRef) : ResourceId := (ref_tenant r, ref_kind r, ref_handle r).

Definition resource_state_to_str (s : ResourceState) : string :=
  match s with
  | Pending => "pending"
  | RActive => "active"
  | Stopping => "stopping"
  | RStopped => "stopped"
  | Failed => "failed"
  | RUnknown => "unknown"
  end.
Definition str_to_resource_state (s : string) : ResourceState :=
  if bool_decide (s = "active") then RActive
  else if bool_decide (s = "stopping") then Stopping
  else if bool_decide (s = "stopped") then RStopped
  else if bool_decide (s = "failed") then Failed
  else if bool_decide (s = "unknown") then RUnknown
  else Pending.
Definition origin_to_str (o : ResourceOrigin) : string :=
  match o with Cluster => "cluster" | Local => "local" end.
Definition str_to_origin (s : string) : ResourceOrigin :=
  if bool_decide (s = "local") then Local else Cluster.

(** [o.map(f).transpose()], with any error turned into a serialization error. *)
Definition read_opt {A B} (f : A -> option B) (o : option A) : result ControlPlaneError (option B) :=
  match o with
  | None => Ok None
  | Some a => ok_or (Some <$> f a) Serialization
  end.
Definition read_id (new : string -> result MediaErrorCode string) (o : option string) :
    result ControlPlaneError (option string) :=
  read_opt (fun s => result_ok (new s)) o.

(** The specification of the table. *)
Abbreviation resource_map := (gmap ResourceId ResourceRecord).

Section store.
Context `{!Json MediaKey, !Json MediaError, !Json ControlledResourceRef, !OrderBy}.

(** ** The table of resources *)

Definition row_into_record (row : ResourceId * RowResource) : result ControlPlaneError ResourceRecord :=
  let '(tenant, kind, handle) := row.1 in
  let r := row.2 in
  tenant <-? ok_or (result_ok (string_id_new tenant)) Serialization ;;
  session <-? read_id uuid_id_new (rr_session r) ;;
  binding <-? read_id uuid_id_new (rr_binding r) ;;
  node <-? read_id uuid_id_new (rr_node_id r) ;;
  instance <-? read_id uuid_id_new (rr_node_instance r) ;;
  media_key <-? read_opt from_json (rr_media_key r) ;;
  digest <-? read_opt parse_hex (rr_digest r) ;;
  error <-? read_opt from_json (rr_error r) ;;
  Ok (mk_resource tenant kind handle session binding media_key (rr_scope r) digest
        (as_u64 (rr_owner_epoch r)) node instance (as_u64 (rr_node_epoch r))
        (as_u64 (rr_generation r)) (str_to_resource_state (rr_state r)) error
        (str_to_origin (rr_origin r)) (rr_created r) (rr_updated r) (rr_terminal r)).

Definition resource_get (id : ResourceId) : SE ControlStore ControlPlaneError (option ResourceRecord) :=
  fun s =>
  (s, match resources s !! id with
      | None => Ok None
      | Some r => result_map Some (row_into_record (id, r))
      end).

(** The row that [do_insert] writes; [None] when a column cannot be serialized. *)
Definition inserted_row (now : Z) (r : ResourceRecord) : option RowResource :=
  media_key ← opt_to_json (res_media_key r);
  error ← opt_to_json (res_error r);
  Some (mk_row_resource (res_session r) (res_binding r) media_key (res_scope r)
          (to_hex <$> res_digest r) (as_i64 (res_owner_epoch r)) (res_node_id r)
          (res_node_instance r) (as_i64 (res_node_epoch r)) (as_i64 (res_generation r))
          (resource_state_to_str (res_state r)) error (origin_to_str (res_origin r))
          (res_created r) (res_updated r)
          (if is_terminal (res_state r) then Some (default now (res_terminal r)) else None)).

Definition resource_insert (now : Z) (r : ResourceRecord) : SE ControlStore ControlPlaneError unit :=
  fun s =>
  match resources s !! resource_id r with
  | Some _ => (s, Err CpConflict)
  | None =>
      match inserted_row now r with
      | Some row => (with_resources (<[resource_id r := row]> (resources s)) s, Ok tt)
      | None => (s, Err Serialization)
      end
  end.

Definition row_with_owner (epoch now : Z) (r : RowResource) : RowResource :=
  mk_row_resource (rr_session r) (rr_binding r) (rr_media_key r) (rr_scope r) (rr_digest r) epoch
    (rr_node_id r) (rr_node_instance r) (rr_node_epoch r) (rr_generation r) (rr_state r) (rr_error r)
    (rr_origin r) (rr_created r) now (rr_terminal r).

(** [SET generation = .., state = .., terminal_at_ms = CASE .. END, updated_at_ms = ..] *)
Definition row_with_state (generation : Z) (state : ResourceState) (now : Z) (r : RowResource) :
    RowResource :=
  mk_row_resource (rr_session r) (rr_binding r) (rr_media_key r) (rr_scope r) (rr_digest r)
    (rr_owner_epoch r) (rr_node_id r) (rr_node_instance r) (rr_node_epoch r) generation
    (resource_state_to_str state) (rr_error r) (rr_origin r) (rr_created r) now
    (if is_terminal state && bool_decide (rr_terminal r = None) then Some now else rr_terminal r).

Definition compare_and_set_owner_epoch (now : Z) (id : ResourceId) (expected new : Z) :
    SE ControlStore ControlPlaneError bool := fun s =>
  match resources s !! id with
  | Some r =>
      if rr_owner_epoch r =? as_i64 expected
      then (with_resources (<[id := row_with_owner (as_i64 new) now r]> (resources s)) s, Ok true)
      else (s, Ok false)
  | None => (s, Ok false)
  end.

Definition compare_and_set_generation (now : Z) (id : ResourceId) (expected new : Z)
    (state : ResourceState) : SE ControlStore ControlPlaneError bool := fun s =>
  match resources s !! id with
  | Some r =>
      if rr_generation r =? as_i64 expected
      then (with_resources (<[id := row_with_state (as_i64 new) state now r]> (resources s)) s, Ok true)
      else (s, Ok false)
  | None => (s, Ok false)
  end.

Definition set_state (now : Z) (id : ResourceId) (state : ResourceState) :
    SE ControlStore ControlPlaneError unit := fun s =>
  match resources s !! id with
  | Some r =>
      (with_resources (<[id := row_with_state (rr_generation r) state now r]> (resources s)) s, Ok tt)
  | None => (s, Err CpNotFound)
  end.

Definition tombstone (now : Z) (id : ResourceId) (state : ResourceState) :
    SE ControlStore ControlPlaneError unit :=
  if is_terminal state then set_state now id state else se_err CpInvalidArgument.

(** The list queries. *)
Definition select_resources (p : ResourceId * RowResource -> bool) (key : RowResource -> Z)
    (limit : option nat) (s : ControlStore) : result ControlPlaneError (list ResourceRecord) :=
  let rows := order_by (fun row => key row.2) (filter p (map_to_list (resources s))) in
  read_rows row_into_record (match limit with Some n => take n rows | None => rows end).

Definition list_by_session (tenant session : string) : ControlStore -> result ControlPlaneError (list ResourceRecord) :=
  select_resources (fun row => bool_decide (row.1.1.1 = tenant /\ rr_session row.2 = Some session))
    (fun r => - rr_updated r) None.
Definition list_by_binding (tenant binding : string) : ControlStore -> result ControlPlaneError (list ResourceRecord) :=
  select_resources (fun row => bool_decide (row.1.1.1 = tenant /\ rr_binding row.2 = Some binding))
    (fun r => - rr_updated r) None.
Definition list_by_node (tenant node : string) : ControlStore -> result ControlPlaneError (list ResourceRecord) :=
  select_resources (fun row => bool_decide (row.1.1.1 = tenant /\ rr_node_id row.2 = Some node))
    (fun r => - rr_updated r) None.
Definition list_non_terminal (max_records : Z) : ControlStore -> result ControlPlaneError (list ResourceRecord) :=
  select_resources
    (fun row => bool_decide (rr_state row.2 <> "stopped" /\ rr_state row.2 <> "failed"))
    rr_updated (Some (Z.to_nat max_records)).

(** ** The table of orphans *)

Definition row_into_orphan (row : ResourceId * RowOrphan) : result ControlPlaneError OrphanRecord :=
  let '(tenant, kind, handle) := row.1 in
  let r := row.2 in
  tenant <-? ok_or (result_ok (string_id_new tenant)) Serialization ;;
  Ok (mk_orphan tenant kind handle (ro_ref_json r) (ro_marked r) (negb (ro_confirmed r =? 0))
        (ro_confirmed_at r)).

(** [INSERT OR IGNORE] *)
Definition orphan_mark (ref : ControlledResourceRef) (now : Z) : SE ControlStore ControlPlaneError unit :=
  fun s =>
  match to_json ref with
  | None => (s, Err Serialization)
  | Some json =>
      match orphans s !! ref_id ref with
      | Some _ => (s, Ok tt)
      | None => (with_orphans (<[ref_id ref := mk_row_orphan json now 0 None]> (orphans s)) s, Ok tt)
      end
  end.

Definition get_orphan (id : ResourceId) : SE ControlStore ControlPlaneError (option OrphanRecord) :=
  fun s =>
  (s, match orphans s !! id with
      | None => Ok None
      | Some r => result_map Some (row_into_orphan (id, r))
      end).

Definition confirm_orphan (id : ResourceId) (now : Z) : SE ControlStore ControlPlaneError unit :=
  fun s =>
  (with_orphans
     (alter (fun r => mk_row_orphan (ro_ref_json r) (ro_marked r) 1 (Some now)) id (orphans s)) s,
   Ok tt).

Definition remove_orphan (id : ResourceId) : SE ControlStore ControlPlaneError unit :=
  fun s => (with_orphans (delete id (orphans s)) s, Ok tt).

Definition select_orphans (p : RowOrphan -> bool) (max_records : Z) (s : ControlStore) :
    result ControlPlaneError (list OrphanRecord) :=
  read_rows row_into_orphan
    (take (Z.to_nat max_records)
       (order_by (fun row => ro_marked row.2)
          (filter (fun row => p row.2) (map_to_list (orphans s))))).

Definition list_unconfirmed : Z -> ControlStore -> result ControlPlaneError (list OrphanRecord) :=
  select_orphans (fun r => ro_confirmed r =? 0).
Definition list_unconfirmed_older_than (before : Z) :
    Z -> ControlStore -> result ControlPlaneError (list OrphanRecord) :=
  select_orphans (fun r => (ro_confirmed r =? 0) && (ro_marked r <=? before)).

(** ** The table as a map of records *)

Definition record_with_owner (epoch now : Z) (r : ResourceRecord) : ResourceRecord :=
  mk_resource (res_tenant r) (res_kind r) (res_handle r) (res_session r) (res_binding r)
    (res_media_key r) (res_scope r) (res_digest r) epoch (res_node_id r) (res_node_instance r)
    (res_node_epoch r) (res_generation r) (res_state r) (res_error r) (res_origin r) (res_created r)
    now (res_terminal r).

(** The time at which a resource first became terminal is kept. *)
Definition record_with_state (generation : Z) (state : ResourceState) (now : Z) (r : ResourceRecord) :
    ResourceRecord :=
  mk_resource (res_tenant r) (res_kind r) (res_handle r) (res_session r) (res_binding r)
    (res_media_key r) (res_scope r) (res_digest r) (res_owner_epoch r) (res_node_id r)
    (res_node_instance r) (res_node_epoch r) generation state (res_error r) (res_origin r)
    (res_created r) now
    (match res_terminal r with
     | Some t => Some t
     | None => if is_terminal state then Some now else None
     end).

Definition as_inserted (now : Z) (r : ResourceRecord) : ResourceRecord :=
  mk_resource (res_tenant r) (res_kind r) (res_handle r) (res_session r) (res_binding r)
    (res_media_key r) (res_scope r) (res_digest r) (res_owner_epoch r) (res_node_id r)
    (res_node_instance r) (res_node_epoch r) (res_generation r) (res_state r) (res_error r)
    (res_origin r) (res_created r) (res_updated r)
    (if is_terminal (res_state r) then Some (default now (res_terminal r)) else None).

(** The records there are: identifiers that were given out, numbers of [u64], digests of 32
    bytes, and JSON columns that can be written. *)
Definition opt_uuid (o : option string) : Prop := match o with Some s => uuid_id s | None => True end.
Definition resource_wf (r : ResourceRecord) : Prop :=
  string_id (res_tenant r) /\ opt_uuid (res_session r) /\ opt_uuid (res_binding r) /\
  opt_uuid (res_node_id r) /\ opt_uuid (res_node_instance r) /\
  match res_digest r with Some d => length d = 32%nat | None => True end /\
  in_u 64 (res_owner_epoch r) /\ in_u 64 (res_node_epoch r) /\ in_u 64 (res_generation r).
Definition resource_serializable (r : ResourceRecord) : Prop := inserted_row 0 r <> None.

Definition row_of (id : ResourceId) (row : RowResource) (r : ResourceRecord) : Prop :=
  row_into_record (id, row) = Ok r /\ in_i 64 (rr_owner_epoch row) /\ in_i 64 (rr_generation row) /\
  (rr_session row, rr_binding row, rr_node_id row) = (res_session r, res_binding r, res_node_id r).

Definition represents (s : ControlStore) (m : resource_map) : Prop :=
  forall id, match resources s !! id, m !! id with
             | Some row, Some r => row_of id row r
             | None, None => True
             | _, _ => False
             end.

Lemma str_to_resource_state_to_str st : str_to_resource_state (resource_state_to_str st) = st.
Proof. by destruct st. Qed.

Lemma str_to_origin_to_str o : str_to_origin (origin_to_str o) = o.
Proof. by destruct o. Qed.

Lemma read_opt_ok {A B} (f : A -> option B) o b :
  read_opt f o = Ok b <-> match o, b with
                          | Some a, Some b => f a = Some b
                          | None, None => True
                          | _, _ => False
                          end.
Proof.
  unfold read_opt, ok_or. destruct o as [a|], b as [b|]; cbn; try done.
  - destruct (f a); cbn; naive_solver.
  - destruct (f a); cbn; naive_solver.
Qed.

Lemma read_id_back o : opt_uuid o -> read_id uuid_id_new o = Ok o.
Proof. intros U. apply read_opt_ok. destruct o as [s|]; [|done]. cbn in U. unfold uuid_id in U. by rewrite U. Qed.

Lemma read_json_back {A} `{!Json A} (o : option A) c :
  opt_to_json o = Some c -> read_opt from_json c = Ok o.
Proof.
  intros E. apply read_opt_ok. destruct o as [a|]; cbn in E; [|by simplify_eq].
  destruct (to_json a) eqn:J; cbn in E; simplify_eq. by apply json_back.
Qed.

Lemma read_digest_back o :
  match o with Some d => length d = 32%nat | None => True end -> read_opt parse_hex (to_hex <$> o) = Ok o.
Proof. intros L. apply read_opt_ok. destruct o as [d|]; [|done]. by apply parse_hex_to_hex. Qed.

(** What an inserted row reads back as. *)
Lemma inserted_row_back now r row :
  resource_wf r -> inserted_row now r = Some row -> row_of (resource_id r) row (as_inserted now r).
Proof.
  intros (T & S & B & N & I & D & U1 & U2 & U3). unfold inserted_row.
  destruct (opt_to_json (res_media_key r)) as [mk|] eqn:E1; [|done].
  destruct (opt_to_json (res_error r)) as [er|] eqn:E2; [|done]. cbn. intros [= <-].
  split_and!.
  2,3: by apply wrap_i_range.
  2: done.
  unfold row_into_record, resource_id. cbn. unfold string_id in T. rewrite T. cbn.
  rewrite !read_id_back by done. cbn. rewrite (read_json_back _ _ E1), (read_json_back _ _ E2). cbn.
  rewrite read_digest_back by done. cbn.
  rewrite !as_u64_i64, str_to_resource_state_to_str, str_to_origin_to_str by done. done.
Qed.

(** What a row reads as, column by column. *)
Record row_reads (id : ResourceId) (row : RowResource) (r : ResourceRecord) : Prop := {
  reads_id : id = resource_id r;
  reads_tenant : string_id_new (res_tenant r) = Ok (res_tenant r);
  reads_session : read_id uuid_id_new (rr_session row) = Ok (res_session r);
  reads_binding : read_id uuid_id_new (rr_binding row) = Ok (res_binding r);
  reads_node : read_id uuid_id_new (rr_node_id row) = Ok (res_node_id r);
  reads_instance : read_id uuid_id_new (rr_node_instance row) = Ok (res_node_instance r);
  reads_media_key : read_opt from_json (rr_media_key row) = Ok (res_media_key r);
  reads_digest : read_opt parse_hex (rr_digest row) = Ok (res_digest r);
  reads_error : read_opt from_json (rr_error row) = Ok (res_error r);
  reads_rest :
    (rr_scope row, as_u64 (rr_owner_epoch row), as_u64 (rr_node_epoch row),
     as_u64 (rr_generation row), str_to_resource_state (rr_state row), str_to_origin (rr_origin row),
     rr_created row, rr_updated row, rr_terminal row)
    = (res_scope r, res_owner_epoch r, res_node_epoch r, res_generation r, res_state r, res_origin r,
       res_created r, res_updated r, res_terminal r)
}.

Lemma row_into_record_reads id row r : row_into_record (id, row) = Ok r <-> row_reads id row r.
Proof.
  destruct id as [[t k] h]. split.
  - unfold row_into_record. cbn [fst snd]. intros E.
    repeat (apply result_bind_ok in E as (? & ? & E)).
    match goal with E : ok_or (result_ok (string_id_new t)) _ = Ok _ |- _ => rename E into T end.
    destruct (string_id_new t) as [t'|e] eqn:T'; [|done]. cbn in T. injection T as <-.
    pose proof (string_id_new_same _ _ T') as ->. injection E as <-. by constructor.
  - intros [Ei T S B N I K D Er R]. unfold resource_id in Ei. injection Ei as -> -> ->.
    unfold row_into_record. cbn [fst snd]. rewrite T. cbn. rewrite S. cbn. rewrite B. cbn. rewrite N. cbn.
    rewrite I. cbn. rewrite K. cbn. rewrite D. cbn. rewrite Er. cbn. destruct r. cbn in R |- *.
    by simplify_eq.
Qed.

Lemma row_with_owner_of id row r epoch now :
  in_u 64 epoch -> row_of id row r ->
  row_of id (row_with_owner (as_i64 epoch) now row) (record_with_owner epoch now r).
Proof.
  intros U (R & O & G & C). split_and!; [|by apply wrap_i_range|done..].
  apply row_into_record_reads in R as [? ? ? ? ? ? ? ? ? R]. apply row_into_record_reads.
  constructor; try done. cbn. rewrite as_u64_i64 by done. congruence.
Qed.

Lemma row_with_state_of id row r generation state now :
  in_i 64 generation -> row_of id row r ->
  row_of id (row_with_state generation state now row) (record_with_state (as_u64 generation) state now r).
Proof.
  intros U (R & O & G & C). split_and!; [|done..].
  apply row_into_record_reads in R as [? ? ? ? ? ? ? ? ? R]. apply row_into_record_reads.
  constructor; try done. cbn. rewrite str_to_resource_state_to_str. injection R as R1 R2 R3 R4 R5 R6 R7 R8 R9.
  rewrite <- R9. destruct (rr_terminal row); cbn; [rewrite andb_false_r; congruence|].
  destruct (is_terminal state); cbn; congruence.
Qed.

(** ** Operations on the table, and on the map *)

Inductive operation : Set :=
| OpGet (id : ResourceId)
| OpInsert (r : ResourceRecord)
| OpCasOwner (id : ResourceId) (expected new : Z)
| OpCasGeneration (id : ResourceId) (expected new : Z) (state : ResourceState)
| OpSetState (id : ResourceId) (state : ResourceState)
| OpTombstone (id : ResourceId) (state : ResourceState).

Inductive op_answer : Set :=
| AnsRecord (r : option ResourceRecord)
| AnsBool (b : bool)
| AnsUnit.

Definition op_wf (op : operation) : Prop :=
  match op with
  | OpGet _ | OpSetState _ _ | OpTombstone _ _ => True
  | OpInsert r => resource_wf r /\ resource_serializable r
  | OpCasOwner _ expected new | OpCasGeneration _ expected new _ => in_u 64 expected /\ in_u 64 new
  end.

Definition run_op (now : Z) (op : operation) : SE ControlStore ControlPlaneError op_answer :=
  match op with
  | OpGet id => r <- resource_get id ;; se_ret (AnsRecord r)
  | OpInsert r => resource_insert now r ;;; se_ret AnsUnit
  | OpCasOwner id expected new =>
      b <- compare_and_set_owner_epoch now id expected new ;; se_ret (AnsBool b)
  | OpCasGeneration id expected new state =>
      b <- compare_and_set_generation now id expected new state ;; se_ret (AnsBool b)
  | OpSetState id state => set_state now id state ;;; se_ret AnsUnit
  | OpTombstone id state => tombstone now id state ;;; se_ret AnsUnit
  end.

Definition spec_set_state (now : Z) (id : ResourceId) (state : ResourceState) :
    SE resource_map ControlPlaneError op_answer := fun m =>
  match m !! id with
  | Some r => (<[id := record_with_state (res_generation r) state now r]> m, Ok AnsUnit)
  | None => (m, Err CpNotFound)
  end.

Definition spec_op (now : Z) (op : operation) : SE resource_map ControlPlaneError op_answer := fun m =>
  match op with
  | OpGet id => (m, Ok (AnsRecord (m !! id)))
  | OpInsert r =>
      if bool_decide (m !! resource_id r = None)
      then (<[resource_id r := as_inserted now r]> m, Ok AnsUnit) else (m, Err CpConflict)
  | OpCasOwner id expected new =>
      match m !! id with
      | Some r =>
          if res_owner_epoch r =? expected
          then (<[id := record_with_owner new now r]> m, Ok (AnsBool true)) else (m, Ok (AnsBool false))
      | None => (m, Ok (AnsBool false))
      end
  | OpCasGeneration id expected new state =>
      match m !! id with
      | Some r =>
          if res_generation r =? expected
          then (<[id := record_with_state new state now r]> m, Ok (AnsBool true))
          else (m, Ok (AnsBool false))
      | None => (m, Ok (AnsBool false))
      end
  | OpSetState id state => spec_set_state now id state m
  | OpTombstone id state =>
      if is_terminal state then spec_set_state now id state m else (m, Err CpInvalidArgument)
  end.

Fixpoint run_ops {S} (step : Z -> operation -> SE S ControlPlaneError op_answer)
    (ops : list (Z * operation)) (s : S) : S * list (result ControlPlaneError op_answer) :=
  match ops with
  | [] => (s, [])
  | (now, op) :: ops =>
      let '(s, a) := step now op s in
      let '(s, answers) := run_ops step ops s in (s, a :: answers)
  end.

Lemma represents_insert s m id row r :
  represents s m -> row_of id row r ->
  represents (with_resources (<[id := row]> (resources s)) s) (<[id := r]> m).
Proof.
  intros R Ro id'. cbn. destruct (decide (id = id')) as [<-|N].
  - by rewrite !lookup_insert_eq.
  - rewrite !lookup_insert_ne by done. apply R.
Qed.

Inductive represents_at (s : ControlStore) (m : resource_map) (id : ResourceId) : Prop :=
| at_none : resources s !! id = None -> m !! id = None -> represents_at s m id
| at_some row r : resources s !! id = Some row -> m !! id = Some r -> row_of id row r ->
    represents_at s m id.

Lemma represents_lookup s m id : represents s m -> represents_at s m id.
Proof.
  intros R. specialize (R id). destruct (resources s !! id) eqn:E1, (m !! id) eqn:E2; try done.
  - by eapply at_some.
  - by apply at_none.
Qed.

(** A step of the table is a step of the map, with the same answer. *)
Definition simulates {A : Type} (s : ControlStore) (m : resource_map) (x : ControlStore * result ControlPlaneError A)
    (y : resource_map * result ControlPlaneError A) : Prop :=
  represents x.1 y.1 /\ orphans x.1 = orphans s /\ x.2 = y.2.

Lemma set_state_simulates now id state s m :
  represents s m ->
  simulates s m ((set_state now id state ;;; se_ret AnsUnit) s) (spec_set_state now id state m).
Proof.
  intros R. unfold spec_set_state, set_state, se_bind.
  destruct (represents_lookup s m id R) as [-> ->|row r E1 E2 Ro]; [by split_and!|].
  rewrite E1, E2. split_and!; [|done|done]. apply represents_insert; [done|].
  pose proof (proj1 (row_into_record_reads _ _ _) (proj1 Ro)) as [? ? ? ? ? ? ? ? ? X].
  injection X as X1 X2 X3 X4 X5 X6 X7 X8 X9. rewrite <- X4. apply row_with_state_of; [|done]. by apply Ro.
Qed.

Lemma run_op_simulates now op s m :
  represents s m -> op_wf op -> simulates s m (run_op now op s) (spec_op now op m).
Proof.
  intros R W. destruct op as [id|r|id expected new|id expected new state|id state|id state]; cbn.
  - unfold se_bind, resource_get.
    destruct (represents_lookup s m id R) as [-> ->|row r E1 E2 Ro]; [by split_and!|].
    rewrite E1, E2. destruct Ro as (-> & _). by split_and!.
  - destruct W as [W Se]. unfold se_bind, resource_insert.
    destruct (represents_lookup s m (resource_id r) R) as [-> ->|row r' E1 E2 Ro].
    + destruct (inserted_row now r) as [row|] eqn:I.
      * split_and!; [|done|done]. apply represents_insert; [done|]. by apply inserted_row_back.
      * exfalso. apply Se. revert I. unfold inserted_row.
        destruct (opt_to_json (res_media_key r)); [|done]. by destruct (opt_to_json (res_error r)).
    + rewrite E1, E2. by split_and!.
  - destruct W as [We Wn]. unfold se_bind, compare_and_set_owner_epoch.
    destruct (represents_lookup s m id R) as [-> ->|row r E1 E2 Ro]; [by split_and!|].
    rewrite E1, E2. pose proof (proj1 (row_into_record_reads _ _ _) (proj1 Ro)) as [? ? ? ? ? ? ? ? ? X].
    injection X as X1 X2 X3 X4 X5 X6 X7 X8 X9. rewrite as_i64_eqb, X2 by (done || apply Ro).
    destruct (res_owner_epoch r =? expected); [|by split_and!].
    split_and!; [|done|done]. apply represents_insert; [done|]. by apply row_with_owner_of.
  - destruct W as [We Wn]. unfold se_bind, compare_and_set_generation.
    destruct (represents_lookup s m id R) as [-> ->|row r E1 E2 Ro]; [by split_and!|].
    rewrite E1, E2. pose proof (proj1 (row_into_record_reads _ _ _) (proj1 Ro)) as [? ? ? ? ? ? ? ? ? X].
    injection X as X1 X2 X3 X4 X5 X6 X7 X8 X9. rewrite as_i64_eqb, X4 by (done || apply Ro).
    destruct (res_generation r =? expected); [|by split_and!].
    split_and!; [|done|done]. apply represents_insert; [done|].
    rewrite <- (as_u64_i64 new) at 2 by done. apply row_with_state_of; [by apply wrap_i_range|done].
  - by apply set_state_simulates.
  - unfold tombstone. destruct (is_terminal state); [by apply set_state_simulates|by split_and!].
Qed.

(** ** Queries *)

(** A query gives the records that satisfy it, in its order. *)
Definition query_result (m : resource_map) (p : ResourceRecord -> bool) (key : ResourceRecord -> Z)
    (limit : option nat) (l : list ResourceRecord) : Prop :=
  exists all, all ≡ₚ filter (fun r => Is_true (p r)) (snd <$> map_to_list m) /\
    StronglySorted (fun x y => key x <= key y) all /\
    l = match limit with Some n => take n all | None => all end.

Lemma row_of_same_key id id' row row' r :
  row_of id row r -> row_of id' row' r -> id = id'.
Proof.
  intros [R _] [R' _]. apply row_into_record_reads in R as [-> _ _ _ _ _ _ _ _ _].
  by apply row_into_record_reads in R' as [-> _ _ _ _ _ _ _ _ _].
Qed.

Lemma select_resources_spec p key p' key' limit s m :
  represents s m ->
  (forall id row r, row_of id row r -> p (id, row) = p' r /\ key row = key' r) ->
  exists l, select_resources p key limit s = Ok l /\ query_result m p' key' limit l.
Proof.
  intros R Same. unfold select_resources.
  set (rows := order_by (fun row => key row.2) (filter _ (map_to_list (resources s)))).
  assert (In : forall id row, (id, row) ∈ rows <-> resources s !! id = Some row /\ Is_true (p (id, row))).
  { intros id row. unfold rows. rewrite order_by_perm, list_elem_of_filter, elem_of_map_to_list. naive_solver. }
  assert (Rep : forall id row, resources s !! id = Some row -> exists r, m !! id = Some r /\ row_of id row r).
  { intros id row E. destruct (represents_lookup s m id R) as [E1 _|row' r E1 E2 Ro]; simplify_eq.
    by exists r. }
  destruct (read_rows_all row_into_record rows) as (all & Ea & F).
  { apply Forall_forall. intros [id row] [E _]%In. destruct (Rep _ _ E) as (r & _ & Ro & _). by exists r. }
  assert (F' : Forall2 (fun x y => row_of x.1 x.2 y /\ resources s !! x.1 = Some x.2) rows all).
  { apply Forall2_same_length_lookup_2; [by eapply Forall2_length|]. intros i [id row] r Lx Ly.
    destruct (proj1 (In id row) (list_elem_of_lookup_2 _ _ _ Lx)) as [E _]. split; [|done].
    destruct (Rep _ _ E) as (r' & _ & Ro). pose proof (Forall2_lookup_lr _ _ _ _ _ _ F Lx Ly) as E'.
    cbn in E'. assert (r = r') as -> by (destruct Ro as [Ro _]; congruence). done. }
  exists (match limit with Some n => take n all | None => all end). split.
  { destruct limit; [by apply read_rows_take|done]. }
  exists all. split_and!; [|by eapply StronglySorted_Forall2, order_by_sorted; [|exact F']; naive_solver|done].
  apply NoDup_Permutation.
  - eapply Forall2_no_dup; [|exact F'|].
    + intros [id row] [id' row'] r [Ro L] [Ro' L']. cbn in *.
      pose proof (row_of_same_key _ _ _ _ _ Ro Ro') as <-. congruence.
    + unfold rows. rewrite order_by_perm. apply NoDup_filter, NoDup_map_to_list.
  - apply NoDup_filter, NoDup_fmap_2_strong; [|apply NoDup_map_to_list].
    intros [id r] [id' r'] I I' E. cbn in E. subst r'.
    apply elem_of_map_to_list in I, I'.
    destruct (represents_lookup s m id R) as [_ ?|row ? _ E1 Ro],
      (represents_lookup s m id' R) as [_ ?|row' ? _ E2 Ro']; simplify_eq.
    by pose proof (row_of_same_key _ _ _ _ _ Ro Ro') as <-.
  - intros r. rewrite list_elem_of_filter, list_elem_of_fmap. split.
    + intros I. apply list_elem_of_lookup_1 in I as [i I].
      destruct (Forall2_lookup_r _ _ _ _ _ F' I) as ([id row] & Lx & Ro & L). cbn in *.
      apply list_elem_of_lookup_2 in Lx. apply In in Lx as [_ P].
      destruct (Same _ _ _ Ro) as [Ep _]. split; [by rewrite <- Ep|].
      destruct (Rep _ _ L) as (r' & L' & Ro'). exists (id, r'). split; [|by apply elem_of_map_to_list].
      cbn. destruct Ro as [Ro _], Ro' as [Ro' _]. congruence.
    + intros [P ([id r'] & -> & L)]. cbn in *. apply elem_of_map_to_list in L.
      destruct (represents_lookup s m id R) as [_ ?|row ? E1 E2 Ro]; simplify_eq.
      assert (I : (id, row) ∈ rows) by (apply In; destruct (Same _ _ _ Ro) as [-> _]; done).
      apply list_elem_of_lookup_1 in I as [i I].
      destruct (Forall2_lookup_l _ _ _ _ _ F' I) as (r & Ly & Ro' & _).
      assert (r = r') as -> by (destruct Ro as [Ro _], Ro' as [Ro' _]; cbn in Ro'; congruence).
      by apply list_elem_of_lookup_2 in Ly.
Qed.

Lemma str_state_terminal st :
  bool_decide (st <> "stopped" /\ st <> "failed") = negb (is_terminal (str_to_resource_state st)).
Proof.
  unfold str_to_resource_state.
  destruct (decide (st = "stopped")) as [->|N1]; [by vm_compute|].
  destruct (decide (st = "failed")) as [->|N2]; [by vm_compute|].
  rewrite bool_decide_true by done.
  rewrite (bool_decide_false (st = "stopped")), (bool_decide_false (st = "failed")) by done.
  by repeat case_bool_decide.
Qed.

Lemma row_of_columns id row r :
  row_of id row r ->
  id = resource_id r /\ rr_session row = res_session r /\ rr_binding row = res_binding r /\
  rr_node_id row = res_node_id r /\ rr_updated row = res_updated r /\
  str_to_resource_state (rr_state row) = res_state r.
Proof.
  intros (R & _ & _ & C). injection C as C1 C2 C3.
  apply row_into_record_reads in R as [-> _ _ _ _ _ _ _ _ X].
  injection X as X1 X2 X3 X4 X5 X6 X7 X8 X9. by split_and!.
Qed.

Lemma represents_empty : represents (mk_store ∅ ∅) ∅.
Proof. intros id. cbn. by rewrite !lookup_empty. Qed.

Lemma run_ops_simulates ops s m :
  represents s m -> Forall (fun x => op_wf x.2) ops ->
  represents (run_ops run_op ops s).1 (run_ops spec_op ops m).1 /\
  (run_ops run_op ops s).2 = (run_ops spec_op ops m).2.
Proof.
  revert s m. induction ops as [|[now op] ops IH]; intros s m R W; [done|].
  apply Forall_cons in W as [W1 W]. destruct (run_op_simulates now op s m R W1) as (R1 & _ & E).
  cbn [run_ops]. destruct (run_op now op s) as [s1 a], (spec_op now op m) as [m1 b]. cbn in R1, E. subst b.
  destruct (IH s1 m1 R1 W) as [R2 E2].
  destruct (run_ops run_op ops s1), (run_ops spec_op ops m1). cbn in *. by rewrite E2.
Qed.

(** [C36] The table of resources, with its text columns, casts and JSON, behaves as a map from
    tenant, kind and handle to records: whatever operations ran, every answer is the one of
    the map, errors included, so that an insert never replaces, a compare-and-set succeeds
    exactly on the expected epoch or generation, and the time at which a resource first became
    terminal is kept. Every query succeeds and gives exactly the records of the map that it
    asks for, in its order and up to its limit. *)
Theorem resources_refine (ops : list (Z * operation)) :
  Forall (fun x => op_wf x.2) ops ->
  let '(s, answers) := run_ops run_op ops (mk_store ∅ ∅) in
  let '(m, answers') := run_ops spec_op ops ∅ in
  answers = answers' /\
  (forall tenant session, exists l, list_by_session tenant session s = Ok l /\
     query_result m (fun r => bool_decide (res_tenant r = tenant /\ res_session r = Some session))
       (fun r => - res_updated r) None l) /\
  (forall tenant binding, exists l, list_by_binding tenant binding s = Ok l /\
     query_result m (fun r => bool_decide (res_tenant r = tenant /\ res_binding r = Some binding))
       (fun r => - res_updated r) None l) /\
  (forall tenant node, exists l, list_by_node tenant node s = Ok l /\
     query_result m (fun r => bool_decide (res_tenant r = tenant /\ res_node_id r = Some node))
       (fun r => - res_updated r) None l) /\
  (forall max, exists l, list_non_terminal max s = Ok l /\
     query_result m (fun r => negb (is_terminal (res_state r))) res_updated (Some (Z.to_nat max)) l).
Proof.
  intros W. pose proof (run_ops_simulates ops _ _ represents_empty W) as [R E].
  destruct (run_ops run_op ops _) as [s a], (run_ops spec_op ops _) as [m b]. cbn in R, E.
  split; [done|].
  split_and!; intros; apply select_resources_spec; try done; intros id row r Ro;
    destruct (row_of_columns _ _ _ Ro) as (-> & C1 & C2 & C3 & C4 & St); cbn [fst snd];
    rewrite ?C1, ?C2, ?C3, ?C4, ?str_state_terminal, ?St; done.
Qed.
End store.

(** ** Instances, for examples *)

#[export] Instance MediaSchema_countable : Countable MediaSchema.
Proof.
  apply (inj_countable schema_display (fun s => result_ok (schema_parse s))). by intros [].
Defined.
#[export] Instance MediaKey_countable : Countable MediaKey.
Proof.
  apply (inj_countable' (fun k => (vhost k, app k, stream k, schema k))
           (fun '(v, a, s, c) => mk_media_key v a s c)). by intros [].
Defined.

#[local] Instance sample_key_json : Json MediaKey := json_of_countable _.
#[local] Instance sample_media_error_json : Json MediaError := json_of_countable _.
#[local] Instance sample_rows_order : OrderBy := order_by_merge_sort.

Definition sample_resource : ResourceRecord :=
  mk_resource "t" "k" "h" None None None None None 7 None None 1 0 RActive None Cluster 10 10 None.

(** Two owners race for epoch 7; the loser is told so. A stopped resource that is stopped again
    keeps the time of the first stop. *)
Definition sample_ops : list (Z * operation) :=
  [(10, OpInsert sample_resource); (20, OpInsert sample_resource);
   (30, OpCasOwner ("t", "k", "h") 7 8); (31, OpCasOwner ("t", "k", "h") 7 9);
   (40, OpTombstone ("t", "k", "h") RStopped); (50, OpSetState ("t", "k", "h") Failed);
   (60, OpTombstone ("t", "k", "h") RActive)].

Lemma resources_refine_witness :
  (run_ops run_op sample_ops (mk_store ∅ ∅)).2
  = [Ok AnsUnit; Err CpConflict; Ok (AnsBool true); Ok (AnsBool false); Ok AnsUnit; Ok AnsUnit;
     Err CpInvalidArgument].
Proof.
  pose proof (resources_refine sample_ops) as T.
  assert (W : Forall (fun x => op_wf x.2) sample_ops).
  { repeat constructor; cbn; unfold in_u; try lia; done. }
  specialize (T W). destruct (run_ops run_op sample_ops _) as [s a].
  destruct (run_ops spec_op sample_ops ∅) as [m b] eqn:E. destruct T as [-> _]. cbn [snd].
  transitivity (run_ops spec_op sample_ops ∅).2; [by rewrite E|]. vm_compute. reflexivity.
Defined.

Example sample_terminal_time :
  (fun r => (res_state r, res_owner_epoch r, res_terminal r, res_updated r))
    <$> ((run_ops spec_op sample_ops ∅).1 !! ("t", "k", "h")) = Some (Failed, 8, Some 40, 50).
Proof. vm_compute. reflexivity. Qed.

(** A state can be set on a resource that is over: it is active again, and still has the time
    at which it ended. *)
Example terminal_resource_returns :
  (fun r => (res_state r, res_terminal r))
    <$> ((run_ops spec_op (sample_ops ++ [(70, OpSetState ("t", "k", "h") RActive)]) ∅).1
           !! ("t", "k", "h")) = Some (RActive, Some 40).
Proof. vm_compute. reflexivity. Qed.
