(* ===== verification/Reconciler.v ===== *)
(** * The reconciler

    Models [crates/system/cheetah-media-control-plane/src/reconciler.rs]: marking resources
    that have lost their binding, confirming the marks after a grace period, and cleaning up
    on the word of an administrator. A method is the composition of its calls of the stores
    of Resources when nothing comes in between; the clock is an argument. *)
From stdpp Require Import strings sorting.
From S2P Require Import Prelude MediaKeys ControlIds ControlPlane Idempotency Resources.
Local Open Scope string_scope.
Local Open Scope Z_scope.

(** ** Limits and reports *)

Record ReconcileLimits : Set := mk_limits { max_mark : Z; max_confirm : Z; grace_period_ms : Z }.
Definition limits_default : ReconcileLimits := mk_limits 100 100 30000.

Record ReconcileReport : Set := mk_report { orphans_marked : Z; orphans_confirmed : Z }.

Inductive ReconcileScope : Set := ScopeAll | ScopeNode | ScopeTenant.

#[export] Instance ReconcileScope_eq_dec : EqDecision ReconcileScope.
Proof. solve_decision. Defined.

Inductive AdminScope : Set := AdminNode | AdminReconcile | AdminTls | AdminStore | AdminOrphan.

#[export] Instance AdminScope_eq_dec : EqDecision AdminScope.
Proof. solve_decision. Defined.

Definition has_scope (scopes : list AdminScope) (scope : AdminScope) : bool := bool_decide (scope ∈ scopes).

Section reconciler.
Context `{!Json MediaKey, !Json MediaError, !Json ControlledResourceRef, !OrderBy}.

(** ** The methods *)

Definition mark_orphan (ref : ControlledResourceRef) (now : Z) : SE ControlStore ControlPlaneError unit :=
  if bool_decide (ref_binding ref <> None) then se_err CpInvalidArgument
  else
    found <- resource_get (ref_id ref) ;;
    match found with
    | None => se_err CpNotFound
    | Some r =>
        if is_terminal (res_state r) then se_ret tt
        else if bool_decide (res_binding r <> None) then se_err CpInvalidArgument
        else orphan_mark ref now
    end.

(** [r.media_binding_id.is_none() && !r.state.is_terminal()] *)
Definition still_orphan (r : option ResourceRecord) : bool :=
  match r with
  | Some r => bool_decide (res_binding r = None) && negb (is_terminal (res_state r))
  | None => false
  end.

(** One candidate: whether it was confirmed. *)
Definition confirm_or_remove (id : ResourceId) (resource : option ResourceRecord) (now : Z) :
    SE ControlStore ControlPlaneError bool :=
  if still_orphan resource then confirm_orphan id now ;;; se_ret true
  else remove_orphan id ;;; se_ret false.

Fixpoint confirm_loop (candidates : list OrphanRecord) (now confirmed : Z) :
    SE ControlStore ControlPlaneError Z :=
  match candidates with
  | [] => se_ret confirmed
  | orphan :: rest =>
      resource <- resource_get (orphan_id orphan) ;;
      done <- confirm_or_remove (orphan_id orphan) resource now ;;
      confirm_loop rest now (if done : bool then confirmed + 1 else confirmed)
  end.

Definition confirm_orphans (now : Z) (limits : ReconcileLimits) : SE ControlStore ControlPlaneError Z :=
  candidates <- (fun s => (s, list_unconfirmed_older_than (sat_i 64 (now - grace_period_ms limits))
                               (max_confirm limits) s)) ;;
  confirm_loop candidates now 0.

Definition matches_scope (r : ResourceRecord) (scope : ReconcileScope) (node tenant : option string) :
    bool :=
  match scope with
  | ScopeAll => true
  | ScopeTenant => match tenant with Some t => bool_decide (res_tenant r = t) | None => false end
  | ScopeNode =>
      match tenant with Some t => bool_decide (res_tenant r = t) | None => true end
      && match node with Some n => bool_decide (res_node_id r = Some n) | None => false end
  end.

(** [saturating_mul(4).max(..)] of [u32] *)
Definition over_fetch (max : Z) : Z := Z.max (sat_u 32 (max * 4)) max.

Fixpoint mark_loop (records : list ResourceRecord) (now : Z) (limits : ReconcileLimits)
    (scope : ReconcileScope) (node tenant : option string) (marked : Z) :
    SE ControlStore ControlPlaneError Z :=
  match records with
  | [] => se_ret marked
  | record :: rest =>
      if max_mark limits <=? marked then se_ret marked
      else if negb (matches_scope record scope node tenant) then
        mark_loop rest now limits scope node tenant marked
      else if bool_decide (res_binding record <> None) || is_terminal (res_state record) then
        mark_loop rest now limits scope node tenant marked
      else
        known <- get_orphan (resource_id record) ;;
        match known with
        | Some _ => mark_loop rest now limits scope node tenant marked
        | None =>
            fun s =>
            let '(s, r) := mark_orphan (record_ref record) now s in
            mark_loop rest now limits scope node tenant
              (match r with Ok _ => marked + 1 | Err _ => marked end) s
        end
  end.

Definition mark_candidates (now : Z) (limits : ReconcileLimits) (scope : ReconcileScope)
    (node tenant : option string) : SE ControlStore ControlPlaneError Z :=
  let fetch := if bool_decide (scope = ScopeAll) then max_mark limits else over_fetch (max_mark limits) in
  records <- (fun s => (s, list_non_terminal fetch s)) ;;
  mark_loop records now limits scope node tenant 0.

Fixpoint confirm_scoped_loop (candidates : list OrphanRecord) (now : Z) (limits : ReconcileLimits)
    (scope : ReconcileScope) (node tenant : option string) (confirmed : Z) :
    SE ControlStore ControlPlaneError Z :=
  match candidates with
  | [] => se_ret confirmed
  | orphan :: rest =>
      let next := confirm_scoped_loop rest now limits scope node tenant in
      if max_confirm limits <=? confirmed then se_ret confirmed
      else if match tenant with Some t => bool_decide (or_tenant orphan <> t) | None => false end then
        next confirmed
      else
        resource <- resource_get (orphan_id orphan) ;;
        if match resource with
           | Some r => negb (matches_scope r scope node tenant)
           | None => bool_decide (scope = ScopeNode)
           end then next confirmed
        else
          done <- confirm_or_remove (orphan_id orphan) resource now ;;
          next (if done : bool then confirmed + 1 else confirmed)
  end.

Definition confirm_orphans_scoped (now : Z) (limits : ReconcileLimits) (scope : ReconcileScope)
    (node tenant : option string) : SE ControlStore ControlPlaneError Z :=
  if bool_decide (scope = ScopeAll /\ node = None /\ tenant = None) then confirm_orphans now limits
  else
    candidates <- (fun s => (s, list_unconfirmed_older_than (sat_i 64 (now - grace_period_ms limits))
                                 (over_fetch (max_confirm limits)) s)) ;;
    confirm_scoped_loop candidates now limits scope node tenant 0.

Definition reconcile_scoped (now : Z) (limits : ReconcileLimits) (scope : ReconcileScope)
    (node tenant : option string) : SE ControlStore ControlPlaneError ReconcileReport :=
  marked <- mark_candidates now limits scope node tenant ;;
  confirmed <- confirm_orphans_scoped now limits scope node tenant ;;
  se_ret (mk_report marked confirmed).

Definition reconcile (now : Z) (limits : ReconcileLimits) : SE ControlStore ControlPlaneError ReconcileReport :=
  reconcile_scoped now limits ScopeAll None None.

(** The answer is [cleaned]. *)
Definition cleanup_orphan (scopes : list AdminScope) (id : ResourceId) (now : Z) :
    SE ControlStore ControlPlaneError bool :=
  if negb (has_scope scopes AdminOrphan) then se_err (Media (error_new PermissionDenied))
  else
    resource <- resource_get id ;;
    orphan <- get_orphan id ;;
    if bool_decide (resource = None) && bool_decide (orphan = None) then se_ret true
    else
      let eligible :=
        match resource, orphan with
        | Some r, _ => bool_decide (res_binding r = None)
        | None, Some o => or_confirmed o
        | None, None => false
        end in
      if negb eligible then se_err CpInvalidArgument
      else
        (match resource with
         | Some r => if negb (is_terminal (res_state r)) then tombstone now id Failed else se_ret tt
         | None => se_ret tt
         end) ;;;
        (match orphan with
         | Some _ => remove_orphan id
         | None => se_ret tt
         end) ;;;
        se_ret true.

(** ** Reading through the map of records *)

(** Every mark is of a resource of the map. *)
Definition marks_in (s : ControlStore) (m : resource_map) : Prop :=
  forall id, is_Some (orphans s !! id) -> is_Some (m !! id).

Definition store_ok (s : ControlStore) (m : resource_map) : Prop := represents s m /\ marks_in s m.

Definition orphan_of (id : ResourceId) (r : RowOrphan) : OrphanRecord :=
  mk_orphan id.1.1 id.1.2 id.2 (ro_ref_json r) (ro_marked r) (negb (ro_confirmed r =? 0))
    (ro_confirmed_at r).

Lemma orphan_of_id id r : orphan_id (orphan_of id r) = id.
Proof. by destruct id as [[t k] h]. Qed.

Lemma represents_reads s m id row :
  represents s m -> resources s !! id = Some row -> exists r, m !! id = Some r /\ row_of id row r.
Proof.
  intros R E. destruct (represents_lookup s m id R) as [E1 _|row' r E1 E2 Ro]; simplify_eq. by exists r.
Qed.

Lemma represents_id s m id r : represents s m -> m !! id = Some r -> resource_id r = id.
Proof.
  intros R E. destruct (represents_lookup s m id R) as [_ E2|row r' E1 E2 Ro]; simplify_eq.
  by destruct (row_of_columns _ _ _ Ro) as [-> _].
Qed.

Lemma resource_get_rep s m id : represents s m -> resource_get id s = (s, Ok (m !! id)).
Proof.
  intros R. unfold resource_get. destruct (represents_lookup s m id R) as [-> ->|row r -> -> Ro]; [done|].
  by destruct Ro as [-> _].
Qed.

Lemma row_into_orphan_rep s m id r :
  store_ok s m -> orphans s !! id = Some r -> row_into_orphan (id, r) = Ok (orphan_of id r).
Proof.
  intros [R M] E. destruct (M id) as [rec Er]; [by rewrite E|].
  destruct (represents_lookup s m id R) as [_ E2|row r' E1 E2 Ro]; simplify_eq.
  destruct Ro as [Ro _]. apply row_into_record_reads in Ro as [-> T _ _ _ _ _ _ _ _].
  unfold row_into_orphan, resource_id. cbn. by rewrite T.
Qed.

Lemma get_orphan_rep s m id :
  store_ok s m -> get_orphan id s = (s, Ok (orphan_of id <$> orphans s !! id)).
Proof.
  intros O. unfold get_orphan. destruct (orphans s !! id) as [r|] eqn:E; [|done].
  by rewrite (row_into_orphan_rep s m).
Qed.

Lemma represents_with_orphans t s m : represents (with_orphans t s) m <-> represents s m.
Proof. done. Qed.

(** What [mark_orphan] does: nothing, or a new mark on a resource without a binding. *)
Definition markable (s : ControlStore) (m : resource_map) (id : ResourceId) : Prop :=
  (exists r, m !! id = Some r /\ res_binding r = None /\ is_terminal (res_state r) = false) /\
  orphans s !! id = None.

Definition marked_store (id : ResourceId) (json : string) (now : Z) (s : ControlStore) : ControlStore :=
  with_orphans (<[id := mk_row_orphan json now 0 None]> (orphans s)) s.

Lemma mark_orphan_cases s m ref now :
  represents s m ->
  (mark_orphan ref now s).1 = s \/
  exists json, markable s m (ref_id ref) /\
    mark_orphan ref now s = (marked_store (ref_id ref) json now s, Ok tt).
Proof.
  intros R. unfold mark_orphan. case_bool_decide; [by left|].
  unfold se_bind. rewrite (resource_get_rep s m) by done.
  destruct (m !! ref_id ref) as [r|] eqn:E; [|by left].
  destruct (is_terminal (res_state r)) eqn:T; [by left|].
  case_bool_decide as B; [by left|]. unfold orphan_mark.
  destruct (to_json ref) as [json|]; [|by left]. destruct (orphans s !! ref_id ref) eqn:O; [by left|].
  right. exists json. split; [|done]. split; [|done]. by exists r.
Qed.

(** ** What the loops preserve *)

Section preserve.
Context (m : resource_map) (P : ControlStore -> Prop).
Hypothesis P_ok : forall s, P s -> store_ok s m.

Lemma mark_loop_preserves now limits scope node tenant records marked s :
  (forall s id json, P s -> markable s m id -> P (marked_store id json now s)) ->
  P s ->
  exists k, (mark_loop records now limits scope node tenant marked s).2 = Ok k /\
    P (mark_loop records now limits scope node tenant marked s).1.
Proof.
  intros Mark. revert marked s. induction records as [|record rest IH]; intros marked s Hs; cbn.
  { by exists marked. }
  destruct (max_mark limits <=? marked); [by exists marked|].
  destruct (negb _); [by apply IH|]. destruct (bool_decide _ || _); [by apply IH|].
  unfold se_bind. rewrite (get_orphan_rep s m) by auto.
  destruct (orphans s !! resource_id record) eqn:O; cbn; [by apply IH|].
  destruct (mark_orphan_cases s m (record_ref record) now (proj1 (P_ok s Hs))) as [E|(json & Mk & E)].
  - destruct (mark_orphan (record_ref record) now s) as [s' r]. cbn in E. subst s'. by apply IH.
  - rewrite E. apply IH. by apply Mark.
Qed.

Lemma confirm_or_remove_preserves id now s :
  (forall s r, P s -> m !! id = Some r -> res_binding r = None -> P (confirm_orphan id now s).1) ->
  (forall s, P s -> P (remove_orphan id s).1) ->
  P s ->
  exists b, (confirm_or_remove id (m !! id) now s).2 = Ok b /\ P (confirm_or_remove id (m !! id) now s).1.
Proof.
  intros Conf Rem Hs. unfold confirm_or_remove. destruct (still_orphan (m !! id)) eqn:St.
  - eexists. split; [done|]. cbn. destruct (m !! id) as [r|] eqn:E; [|done].
    cbn in St. apply andb_prop in St as [St _]. apply bool_decide_eq_true in St. by eapply (Conf s r).
  - eexists. split; [done|]. cbn. by apply Rem.
Qed.

Lemma confirm_loop_preserves now candidates confirmed s :
  (forall o, o ∈ candidates -> forall s r, P s -> m !! orphan_id o = Some r -> res_binding r = None ->
     P (confirm_orphan (orphan_id o) now s).1) ->
  (forall s id, P s -> P (remove_orphan id s).1) ->
  P s ->
  exists k, (confirm_loop candidates now confirmed s).2 = Ok k /\
    P (confirm_loop candidates now confirmed s).1.
Proof.
  intros Conf Rem. revert confirmed s. induction candidates as [|o rest IH]; intros confirmed s Hs; cbn [confirm_loop].
  { by exists confirmed. }
  rewrite (se_bind_ok _ _ _ _ _ (resource_get_rep s m (orphan_id o) (proj1 (P_ok s Hs)))).
  destruct (confirm_or_remove_preserves (orphan_id o) now s) as (b & E & Hs'); [|by auto|done|].
  { apply Conf. by left. }
  unfold se_bind. destruct (confirm_or_remove _ _ now s) as [s' r]. cbn in E, Hs'. subst r.
  apply IH; [|done]. intros o' I. apply Conf. by right.
Qed.

Lemma confirm_scoped_loop_preserves now limits scope node tenant candidates confirmed s :
  (forall o, o ∈ candidates -> forall s r, P s -> m !! orphan_id o = Some r -> res_binding r = None ->
     P (confirm_orphan (orphan_id o) now s).1) ->
  (forall s id, P s -> P (remove_orphan id s).1) ->
  P s ->
  exists k, (confirm_scoped_loop candidates now limits scope node tenant confirmed s).2 = Ok k /\
    P (confirm_scoped_loop candidates now limits scope node tenant confirmed s).1.
Proof.
  intros Conf Rem. revert confirmed s. induction candidates as [|o rest IH]; intros confirmed s Hs;
    cbn [confirm_scoped_loop].
  { by exists confirmed. }
  specialize (IH (fun o' I => Conf o' (list_elem_of_further _ _ _ I))).
  destruct (max_confirm limits <=? confirmed); [by exists confirmed|].
  destruct (match tenant with Some _ => _ | None => _ end); [by apply IH|].
  rewrite (se_bind_ok _ _ _ _ _ (resource_get_rep s m (orphan_id o) (proj1 (P_ok s Hs)))).
  destruct (match m !! orphan_id o with Some _ => _ | None => _ end); [by apply IH|].
  destruct (confirm_or_remove_preserves (orphan_id o) now s) as (b & E & Hs'); [|by auto|done|].
  { apply Conf. by left. }
  unfold se_bind. destruct (confirm_or_remove _ _ now s) as [s' r]. cbn in E, Hs'. subst r.
  by apply IH.
Qed.
End preserve.

(** ** Worlds *)

Inductive call : Set :=
| CallStore (now : Z) (op : operation)
| CallMark (ref : ControlledResourceRef) (now : Z)
| CallReconcile (now : Z) (limits : ReconcileLimits) (scope : ReconcileScope) (node tenant : option string)
| CallCleanup (scopes : list AdminScope) (id : ResourceId) (now : Z).

Definition run_call (c : call) (s : ControlStore) : ControlStore :=
  match c with
  | CallStore now op => (run_op now op s).1
  | CallMark ref now => (mark_orphan ref now s).1
  | CallReconcile now limits scope node tenant => (reconcile_scoped now limits scope node tenant s).1
  | CallCleanup scopes id now => (cleanup_orphan scopes id now s).1
  end.

(** Passes wait for [grace] at least, and times are not negative. *)
Definition pass_wf (grace now : Z) (limits : ReconcileLimits) : Prop :=
  0 <= now /\ 0 <= grace <= grace_period_ms limits /\ in_i 64 now /\ in_i 64 (grace_period_ms limits).

Definition call_wf (grace : Z) (c : call) : Prop :=
  match c with
  | CallStore _ op => op_wf op
  | CallReconcile now limits _ _ _ => pass_wf grace now limits
  | CallMark _ _ | CallCleanup _ _ _ => True
  end.

Inductive reached (grace : Z) : ControlStore -> Prop :=
| reached_start : reached grace (mk_store ∅ ∅)
| reached_call s c : reached grace s -> call_wf grace c -> reached grace (run_call c s).

(** A mark is of a resource without a binding, and was confirmed after the grace period. *)
Definition mark_ok (grace : Z) (m : resource_map) (id : ResourceId) (o : RowOrphan) : Prop :=
  (exists r, m !! id = Some r /\ res_binding r = None) /\
  (ro_confirmed o <> 0 -> exists t, ro_confirmed_at o = Some t /\ ro_marked o + grace <= t).

Definition marks_ok (grace : Z) (s : ControlStore) (m : resource_map) : Prop :=
  represents s m /\ forall id o, orphans s !! id = Some o -> mark_ok grace m id o.

Lemma marks_ok_store grace s m : marks_ok grace s m -> store_ok s m.
Proof. intros [R M]. split; [done|]. intros id [o E]. destruct (M id o E) as [(r & Er & _) _]. by exists r. Qed.

Lemma marks_ok_marked grace s m id json now :
  marks_ok grace s m -> markable s m id -> marks_ok grace (marked_store id json now s) m.
Proof.
  intros [R M] [(r & E & B & _) _]. split; [done|]. intros id' o. cbn.
  intros [[<- <-]|[_ L]]%lookup_insert_Some; [|by apply M]. split; [by exists r|done].
Qed.

Lemma marks_ok_removed grace s m id : marks_ok grace s m -> marks_ok grace (remove_orphan id s).1 m.
Proof. intros [R M]. split; [done|]. intros id' o. cbn. intros [_ L]%lookup_delete_Some. by apply M. Qed.

(** *** Marking and confirming *)

Lemma mark_candidates_ok grace now limits scope node tenant s m :
  marks_ok grace s m ->
  exists k, (mark_candidates now limits scope node tenant s).2 = Ok k /\
    marks_ok grace (mark_candidates now limits scope node tenant s).1 m /\
    resources (mark_candidates now limits scope node tenant s).1 = resources s.
Proof.
  intros Ok. unfold mark_candidates, se_bind.
  destruct (select_resources_spec
    (fun row => bool_decide (rr_state row.2 <> "stopped" /\ rr_state row.2 <> "failed")) rr_updated
    (fun r => negb (is_terminal (res_state r))) res_updated
    (Some (Z.to_nat (if bool_decide (scope = ScopeAll) then max_mark limits else over_fetch (max_mark limits))))
    s m (proj1 Ok)) as (l & E & _).
  { intros id row r Ro. destruct (row_of_columns _ _ _ Ro) as (-> & C1 & C2 & C3 & C4 & St).
    cbn [fst snd]. by rewrite C4, str_state_terminal, St. }
  unfold list_non_terminal. rewrite E.
  refine (mark_loop_preserves m (fun s' => marks_ok grace s' m /\ resources s' = resources s) _
            now limits scope node tenant l 0 s _ _).
  - intros s' [Ok' _]. by eapply marks_ok_store.
  - intros s' id json [Ok' Same] Mk. split; [by apply marks_ok_marked|done].
  - done.
Qed.

(** The marks of [s'] are marks of [s], with the times at which they were made. *)
Definition older_marks (s s' : ControlStore) : Prop :=
  forall id o', orphans s' !! id = Some o' -> exists o, orphans s !! id = Some o /\ ro_marked o' = ro_marked o.

Lemma older_marks_confirm s s' id now : older_marks s s' -> older_marks s (confirm_orphan id now s').1.
Proof.
  intros Old id' o'. cbn. intros [[<- (o & E & ->)]|[_ E]]%lookup_alter_Some; by apply Old in E.
Qed.

Lemma older_marks_remove s s' id : older_marks s s' -> older_marks s (remove_orphan id s').1.
Proof. intros Old id' o'. cbn. intros [_ E]%lookup_delete_Some. by apply Old. Qed.

(** The marks that a pass looks at are old enough. *)
Lemma candidates_spec before max s m :
  store_ok s m ->
  exists l, list_unconfirmed_older_than before max s = Ok l /\
    (forall o, o ∈ l -> exists r, orphans s !! orphan_id o = Some r /\ ro_marked r <= before) /\
    (Z.of_nat (size (orphans s)) <= max -> forall id r, orphans s !! id = Some r ->
       ro_confirmed r = 0 -> ro_marked r <= before -> id ∈ orphan_id <$> l).
Proof.
  intros O. unfold list_unconfirmed_older_than, select_orphans.
  set (rows := order_by _ (filter _ (map_to_list (orphans s)))).
  assert (In : forall row, row ∈ rows <->
    orphans s !! row.1 = Some row.2 /\ ro_confirmed row.2 = 0 /\ ro_marked row.2 <= before).
  { intros [id r]. unfold rows. rewrite order_by_perm, list_elem_of_filter, elem_of_map_to_list.
    cbn. rewrite Is_true_true, andb_true_iff, Z.eqb_eq, Z.leb_le. tauto. }
  destruct (read_rows_all row_into_orphan (take (Z.to_nat max) rows)) as (l & E & F).
  { apply Forall_forall. intros [id r] I%elem_of_take. destruct I as (i & I & _).
    apply list_elem_of_lookup_2 in I. apply In in I as [I _]. eexists. by apply (row_into_orphan_rep s m). }
  exists l. split; [done|].
  assert (Row : Forall2 (fun x y => orphan_id y = x.1) (take (Z.to_nat max) rows) l).
  { eapply Forall2_impl; [exact F|]. intros [[[t k] h] r] o Eo. unfold row_into_orphan in Eo. cbn in Eo.
    apply result_bind_ok in Eo as (t' & Et & [= <-]). cbn.
    destruct (string_id_new t) as [t0|] eqn:T; [|done]. cbn in Et. injection Et as <-.
    by pose proof (string_id_new_same _ _ T) as ->. }
  split.
  - intros o I. apply list_elem_of_lookup_1 in I as [i I].
    destruct (Forall2_lookup_r _ _ _ _ _ Row I) as ([id r] & L & ->). cbn.
    apply lookup_take_Some in L as [L _]. apply list_elem_of_lookup_2 in L. apply In in L as (L & _ & B).
    by exists r.
  - intros Sz id r L C B.
    assert (I : (id, r) ∈ take (Z.to_nat max) rows).
    { rewrite take_ge; [by apply In|]. transitivity (length (map_to_list (orphans s))).
      - unfold rows. rewrite order_by_perm. apply length_filter.
      - rewrite length_map_to_list. lia. }
    apply list_elem_of_lookup_1 in I as [i I].
    destruct (Forall2_lookup_l _ _ _ _ _ Row I) as (o & Lo & Eo).
    apply list_elem_of_fmap. exists o. split; [by rewrite Eo|]. by apply list_elem_of_lookup_2 in Lo.
Qed.

Lemma confirm_orphans_scoped_ok grace now limits scope node tenant s m :
  pass_wf grace now limits -> marks_ok grace s m ->
  exists k, (confirm_orphans_scoped now limits scope node tenant s).2 = Ok k /\
    marks_ok grace (confirm_orphans_scoped now limits scope node tenant s).1 m /\
    resources (confirm_orphans_scoped now limits scope node tenant s).1 = resources s.
Proof.
  intros (N & G & Rn & Rg) Ok.
  set (before := sat_i 64 (now - grace_period_ms limits)).
  assert (Bf : before <= now - grace).
  { unfold before, sat_i. unfold in_i in *. lia. }
  pose (P s' := marks_ok grace s' m /\ resources s' = resources s /\ older_marks s s').
  assert (P_ok : forall s', P s' -> store_ok s' m) by (intros s' [Ok' _]; by eapply marks_ok_store).
  assert (P_s : P s) by (split_and!; [done..|]; intros id o E; by exists o).
  assert (Rem : forall s' id, P s' -> P (remove_orphan id s').1).
  { intros s' id (Ok' & Same & Old).
    split_and!; [by apply marks_ok_removed|done|by apply older_marks_remove]. }
  assert (Conf : forall o r0, orphans s !! orphan_id o = Some r0 -> ro_marked r0 <= before ->
    forall s' r, P s' -> m !! orphan_id o = Some r -> res_binding r = None ->
      P (confirm_orphan (orphan_id o) now s').1).
  { intros o r0 L0 B0 s' r (Ok' & Same & Old) E B. split_and!; [|done|by apply older_marks_confirm].
    split; [apply Ok'|]. intros id o'. cbn.
    intros [[<- (o1 & E1 & ->)]|[_ E1]]%lookup_alter_Some; [|by apply Ok'].
    split; [by exists r|]. intros _. exists now. split; [done|]. cbn.
    destruct (Old _ _ E1) as (o2 & E2 & ->). simplify_eq. lia. }
  unfold confirm_orphans_scoped, confirm_orphans, se_bind. fold before.
  case_bool_decide.
  - destruct (candidates_spec before (max_confirm limits) s m) as (l & -> & Cand & _);
      [by eapply marks_ok_store|].
    destruct (confirm_loop_preserves m P P_ok now l 0 s) as (k & Ek & Pk); [|done..|].
    { intros o I. destruct (Cand o I) as (r0 & L0 & B0). by eapply Conf. }
    exists k. split; [done|]. by destruct Pk as (? & ? & _).
  - destruct (candidates_spec before (over_fetch (max_confirm limits)) s m) as (l & -> & Cand & _);
      [by eapply marks_ok_store|].
    destruct (confirm_scoped_loop_preserves m P P_ok now limits scope node tenant l 0 s)
      as (k & Ek & Pk); [|done..|].
    { intros o I. destruct (Cand o I) as (r0 & L0 & B0). by eapply Conf. }
    exists k. split; [done|]. by destruct Pk as (? & ? & _).
Qed.

Lemma reconcile_scoped_ok grace now limits scope node tenant s m :
  pass_wf grace now limits -> marks_ok grace s m ->
  exists report, (reconcile_scoped now limits scope node tenant s).2 = Ok report /\
    marks_ok grace (reconcile_scoped now limits scope node tenant s).1 m /\
    resources (reconcile_scoped now limits scope node tenant s).1 = resources s.
Proof.
  intros W M. unfold reconcile_scoped, se_bind.
  destruct (mark_candidates_ok grace now limits scope node tenant s m M) as (k1 & E1 & M1 & R1).
  destruct (mark_candidates now limits scope node tenant s) as [s1 r1]. cbn in E1, M1, R1. subst r1.
  destruct (confirm_orphans_scoped_ok grace now limits scope node tenant s1 m W M1) as (k2 & E2 & M2 & R2).
  destruct (confirm_orphans_scoped now limits scope node tenant s1) as [s2 r2]. cbn in E2, M2, R2. subst r2.
  eexists. split_and!; [done..|]. cbn. congruence.
Qed.

(** *** Cleaning up *)

(** What a clean-up leaves: no mark, a resource that is over or was never there, and
    everything else as it was. *)
Definition cleaned (id : ResourceId) (s : ControlStore) (m : resource_map) (s' : ControlStore) : Prop :=
  orphans s' = delete id (orphans s) /\
  (forall id', id' <> id -> resources s' !! id' = resources s !! id') /\
  exists m', represents s' m' /\ (forall id', id' <> id -> m' !! id' = m !! id') /\
    match m' !! id with
    | Some r => is_terminal (res_state r) = true /\ res_binding r = None
    | None => m !! id = None
    end.

Definition remove_if_marked (o : option OrphanRecord) (id : ResourceId) :
    SE ControlStore ControlPlaneError unit :=
  match o with Some _ => remove_orphan id | None => se_ret tt end.

Lemma remove_if_marked_spec s id :
  remove_if_marked (orphan_of id <$> orphans s !! id) id s = (with_orphans (delete id (orphans s)) s, Ok tt).
Proof.
  unfold remove_if_marked. destruct (orphans s !! id) eqn:E; [done|]. cbn. unfold se_ret.
  rewrite delete_id by done. by destruct s.
Qed.

Lemma cleanup_orphan_spec scopes id now s m :
  store_ok s m ->
  if has_scope scopes AdminOrphan then
    match m !! id with
    | Some r =>
        if bool_decide (res_binding r = None)
        then (cleanup_orphan scopes id now s).2 = Ok true /\ cleaned id s m (cleanup_orphan scopes id now s).1
        else cleanup_orphan scopes id now s = (s, Err CpInvalidArgument)
    | None => cleanup_orphan scopes id now s = (s, Ok true)
    end
  else cleanup_orphan scopes id now s = (s, Err (Media (error_new PermissionDenied))).
Proof.
  intros O. pose proof O as [R M]. unfold cleanup_orphan.
  destruct (has_scope scopes AdminOrphan); cbn [negb]; [|done].
  rewrite (se_bind_ok _ _ _ _ _ (resource_get_rep s m id R)), (se_bind_ok _ _ _ _ _ (get_orphan_rep s m id O)).
  destruct (m !! id) as [r|] eqn:E; cycle 1.
  { destruct (orphans s !! id) as [o|] eqn:Eo; [|done]. destruct (M id); [by rewrite Eo|congruence]. }
  rewrite (bool_decide_false (Some r = None)) by done. cbn [andb].
  destruct (decide (res_binding r = None)) as [B|B].
  2: { by rewrite bool_decide_false by done. }
  rewrite bool_decide_true by done. cbn [negb].
  set (finish := match orphan_of id <$> orphans s !! id with Some _ => _ | None => _ end).
  assert (Fin : forall s0, orphans s0 = orphans s -> finish s0 = (with_orphans (delete id (orphans s)) s0, Ok tt)).
  { intros s0 E0. change (finish s0) with (remove_if_marked (orphan_of id <$> orphans s !! id) id s0).
    rewrite <- E0. apply remove_if_marked_spec. }
  destruct (is_terminal (res_state r)) eqn:T; cbn [negb].
  - change ((se_ret tt ;;; finish ;;; se_ret true) s) with ((finish ;;; se_ret true) s).
    rewrite (se_bind_ok _ _ _ _ _ (Fin s eq_refl)). split; [done|]. split; [done|]. split; [done|].
    exists m. split; [done|]. split; [done|]. by rewrite E.
  - destruct (run_op_simulates now (OpTombstone id Failed) s m R I) as (R' & Os & Ea).
    revert R' Os Ea. unfold run_op, spec_op, is_terminal, spec_set_state. rewrite E.
    unfold se_bind at 1 2 3. destruct (tombstone now id Failed s) as [s1 [[]|e]] eqn:Ts; [|done].
    cbn [fst snd se_ret]. intros R' Os _. rewrite (se_bind_ok _ _ _ _ _ Ts), (se_bind_ok _ _ _ _ _ (Fin s1 Os)).
    split; [done|]. split; [done|]. split.
    + intros id' N. cbn. unfold tombstone, set_state in Ts. cbn in Ts.
      destruct (resources s !! id); simplify_eq. cbn. by rewrite lookup_insert_ne.
    + eexists. split; [exact R'|]. split; [|by rewrite lookup_insert_eq].
      intros id' N. by rewrite lookup_insert_ne.
Qed.

(** *** Every call *)

Lemma spec_op_binding now op m id r :
  m !! id = Some r -> exists r', (spec_op now op m).1 !! id = Some r' /\ res_binding r' = res_binding r.
Proof.
  intros E.
  assert (upd : forall id0 (r0 : ResourceRecord), (forall r1, m !! id0 = Some r1 -> res_binding r0 = res_binding r1) ->
    exists r', (<[id0 := r0]> m) !! id = Some r' /\ res_binding r' = res_binding r).
  { intros id0 r0 Same. destruct (decide (id0 = id)) as [->|N].
    - exists r0. rewrite lookup_insert_eq. split; [done|]. by apply Same.
    - exists r. by rewrite lookup_insert_ne. }
  assert (set : forall id0 state, exists r', (spec_set_state now id0 state m).1 !! id = Some r' /\
    res_binding r' = res_binding r).
  { intros id0 state. unfold spec_set_state. destruct (m !! id0) as [r0|] eqn:E0; [|by exists r].
    apply upd. intros r1. rewrite E0. by intros [= <-]. }
  destruct op as [|r0|id0 e n|id0 e n st|id0 st|id0 st]; cbn.
  - by exists r.
  - case_bool_decide as N; [|by exists r]. apply upd. intros r1. by rewrite N.
  - destruct (m !! id0) as [r0|] eqn:E0; [|by exists r]. destruct (_ =? _); [|by exists r].
    apply upd. intros r1. rewrite E0. by intros [= <-].
  - destruct (m !! id0) as [r0|] eqn:E0; [|by exists r]. destruct (_ =? _); [|by exists r].
    apply upd. intros r1. rewrite E0. by intros [= <-].
  - apply set.
  - destruct (is_terminal st); [apply set|by exists r].
Qed.

Lemma run_call_ok grace c s m :
  call_wf grace c -> marks_ok grace s m -> exists m', marks_ok grace (run_call c s) m'.
Proof.
  intros W M. destruct c as [now op|ref now|now limits scope node tenant|scopes id now]; cbn in *.
  - destruct (run_op_simulates now op s m (proj1 M) W) as (R & O & _).
    exists (spec_op now op m).1. split; [done|]. intros id o. rewrite O. intros E.
    destruct (proj2 M id o E) as [(r & Er & B) C]. split; [|done].
    destruct (spec_op_binding now op m id r Er) as (r' & Er' & B'). exists r'. split; [done|congruence].
  - exists m. destruct (mark_orphan_cases s m ref now (proj1 M)) as [->|(json & Mk & ->)]; [done|].
    by apply marks_ok_marked.
  - exists m. by destruct (reconcile_scoped_ok grace now limits scope node tenant s m W M) as (_ & _ & ? & _).
  - pose proof (cleanup_orphan_spec scopes id now s m (marks_ok_store _ _ _ M)) as C.
    destruct (has_scope scopes AdminOrphan); [|by exists m; rewrite C].
    destruct (m !! id) as [r|] eqn:E; [|by exists m; rewrite C].
    case_bool_decide; [|by exists m; rewrite C].
    destruct C as (_ & Os & _ & m' & R' & Rest & _). exists m'. split; [done|].
    intros id' o. rewrite Os. intros [N Eo]%lookup_delete_Some. unfold mark_ok. rewrite Rest by done.
    by apply (proj2 M).
Qed.

Lemma reached_ok grace s : reached grace s -> exists m, marks_ok grace s m.
Proof.
  induction 1 as [|s c _ [m M] W].
  - exists ∅. split; [apply represents_empty|]. intros id o. cbn. by rewrite lookup_empty.
  - by apply (run_call_ok grace c s m).
Qed.

(** *** Nothing is missed *)

Definition orphaned (m : resource_map) (id : ResourceId) : Prop := still_orphan (m !! id) = true.

(** [mark_loop] marks every orphan it is given, while the limit is not reached. *)
Lemma mark_loop_complete now limits m records marked s :
  store_ok s m -> Forall (fun r => m !! resource_id r = Some r /\ to_json (record_ref r) <> None) records ->
  marked + Z.of_nat (length records) <= max_mark limits ->
  let s' := (mark_loop records now limits ScopeAll None None marked s).1 in
  store_ok s' m /\
  (forall id o, orphans s !! id = Some o -> orphans s' !! id = Some o) /\
  (forall id o, orphans s' !! id = Some o -> orphans s !! id = Some o \/ ro_marked o = now) /\
  (forall r, r ∈ records -> still_orphan (Some r) = true -> is_Some (orphans s' !! resource_id r)).
Proof.
  intros O F. revert marked s O. induction F as [|r records [E J] F IH]; intros marked s O L; cbn [mark_loop].
  { split_and!; try done; [by left|]. by intros r I%elem_of_nil. }
  cbn [length] in L. destruct (Z.leb_spec (max_mark limits) marked); [lia|]. cbn [matches_scope negb].
  destruct (bool_decide (res_binding r <> None) || is_terminal (res_state r)) eqn:Sk.
  { destruct (IH marked s O ltac:(lia)) as (O' & K & N & C). split_and!; try done.
    intros r' [->|I]%elem_of_cons; [|by apply C]. intros St. exfalso. cbn in St.
    apply andb_prop in St as [B T]. apply bool_decide_eq_true in B. rewrite B in Sk.
    by destruct (is_terminal (res_state r)). }
  apply orb_false_iff in Sk as [B T]. apply bool_decide_eq_false in B. apply dec_stable in B.
  rewrite (se_bind_ok _ _ _ _ _ (get_orphan_rep s m (resource_id r) O)).
  destruct (orphans s !! resource_id r) as [o|] eqn:Eo; cbn [fmap option_fmap option_map].
  { destruct (IH marked s O ltac:(lia)) as (O' & K & N & C). split_and!; try done.
    intros r' [->|I]%elem_of_cons; [|by apply C]. intros _. exists o. by apply K. }
  destruct (to_json (record_ref r)) as [json|] eqn:Ej; [|done].
  assert (Em : mark_orphan (record_ref r) now s = (marked_store (resource_id r) json now s, Ok tt)).
  { unfold mark_orphan. rewrite bool_decide_false by (cbn; rewrite B; tauto).
    rewrite (se_bind_ok _ _ _ _ _ (resource_get_rep s m (ref_id (record_ref r)) (proj1 O))).
    change (ref_id (record_ref r)) with (resource_id r). rewrite E, T, bool_decide_false by (rewrite B; tauto).
    unfold orphan_mark. rewrite Ej.
    change (ref_id (record_ref r)) with (resource_id r). by rewrite Eo. }
  rewrite Em.
  assert (O1 : store_ok (marked_store (resource_id r) json now s) m).
  { split; [apply O|]. intros id. cbn. destruct (decide (resource_id r = id)) as [<-|Nid].
    - intros _. by exists r.
    - rewrite lookup_insert_ne by done. apply (proj2 O). }
  destruct (IH (marked + 1) _ O1 ltac:(lia)) as (O' & K & N & C). split_and!; [done| | |].
  - intros id o Eid. apply K. cbn. rewrite lookup_insert_ne; [done|]. intros <-. congruence.
  - intros id o [Eid|Eid]%N; [|by right]. cbn in Eid.
    apply lookup_insert_Some in Eid as [[_ <-]|[_ Eid]]; [by right|by left].
  - intros r' [->|I]%elem_of_cons; [|by apply C]. intros _. eexists. apply K. cbn. apply lookup_insert_eq.
Qed.

(** A pass keeps the marks of orphans, and confirms those it looks at. *)
Lemma confirm_loop_complete now m candidates confirmed s :
  store_ok s m ->
  let s' := (confirm_loop candidates now confirmed s).1 in
  store_ok s' m /\
  (forall id o, orphaned m id -> orphans s !! id = Some o ->
     exists o', orphans s' !! id = Some o' /\ ro_marked o' = ro_marked o /\
       (ro_confirmed o <> 0 \/ id ∈ orphan_id <$> candidates -> ro_confirmed o' <> 0)) /\
  older_marks s s'.
Proof.
  revert confirmed s. induction candidates as [|c rest IH]; intros confirmed s O; cbn [confirm_loop].
  { split_and!; [done| |by intros id o E; exists o].
    intros id o Or E. exists o. split_and!; [done..|]. intros [?|I%elem_of_nil]; done. }
  rewrite (se_bind_ok _ _ _ _ _ (resource_get_rep s m (orphan_id c) (proj1 O))).
  unfold confirm_or_remove. destruct (still_orphan (m !! orphan_id c)) eqn:St.
  - set (s1 := (confirm_orphan (orphan_id c) now s).1).
    assert (O1 : store_ok s1 m).
    { split; [apply O|]. intros id. cbn. rewrite lookup_alter_is_Some. apply (proj2 O). }
    destruct (IH (confirmed + 1) s1 O1) as (O' & K & Old). split_and!; [done| |].
    + intros id o Or E. destruct (decide (orphan_id c = id)) as [<-|N].
      * destruct (K (orphan_id c) (mk_row_orphan (ro_ref_json o) (ro_marked o) 1 (Some now)) Or)
          as (o' & E' & M' & C'); [cbn; by rewrite lookup_alter_eq, E|].
        exists o'. split_and!; [done..|]. intros _. apply C'. by left.
      * destruct (K id o Or) as (o' & E' & M' & C'); [cbn; by rewrite lookup_alter_ne|].
        exists o'. split_and!; [done..|]. intros [?|[->|I]%elem_of_cons]; [|done|]; apply C'; auto.
    + intros id o' E'. destruct (Old id o' E') as (o1 & E1 & M1).
      destruct (older_marks_confirm s s (orphan_id c) now) with (id := id) (o' := o1) as (o & E & M);
        [by intros i x Ex; exists x|done|]. exists o. split; [done|congruence].
  - set (s1 := (remove_orphan (orphan_id c) s).1).
    assert (O1 : store_ok s1 m).
    { split; [apply O|]. intros id. cbn. intros [x [_ E]%lookup_delete_Some]. apply (proj2 O). by exists x. }
    destruct (IH confirmed s1 O1) as (O' & K & Old). split_and!; [done| |].
    + intros id o Or E. assert (N : orphan_id c <> id) by (intros <-; unfold orphaned in Or; congruence).
      destruct (K id o Or) as (o' & E' & M' & C'); [cbn; by rewrite lookup_delete_ne|].
      exists o'. split_and!; [done..|]. intros [?|[->|I]%elem_of_cons]; [|done|]; apply C'; auto.
    + intros id o' E'. destruct (Old id o' E') as (o1 & E1 & M1). cbn in E1.
      apply lookup_delete_Some in E1 as [_ E1]. by exists o1.
Qed.

Lemma marks_size s m : marks_in s m -> (size (orphans s) <= size m)%nat.
Proof.
  intros M. rewrite <- !size_dom. apply subseteq_size. intros id [o E]%elem_of_dom.
  apply elem_of_dom, M. by exists o.
Qed.

Definition refs_serializable (m : resource_map) : Prop :=
  forall id r, m !! id = Some r -> to_json (record_ref r) <> None.

Lemma mark_candidates_complete now limits s m :
  store_ok s m -> refs_serializable m -> Z.of_nat (size m) <= max_mark limits ->
  exists k s', mark_candidates now limits ScopeAll None None s = (s', Ok k) /\ store_ok s' m /\
    (forall id o, orphans s !! id = Some o -> orphans s' !! id = Some o) /\
    (forall id o, orphans s' !! id = Some o -> orphans s !! id = Some o \/ ro_marked o = now) /\
    (forall id, orphaned m id -> is_Some (orphans s' !! id)).
Proof.
  intros O J L. unfold mark_candidates. rewrite bool_decide_true by done.
  destruct (select_resources_spec
    (fun row => bool_decide (rr_state row.2 <> "stopped" /\ rr_state row.2 <> "failed")) rr_updated
    (fun r => negb (is_terminal (res_state r))) res_updated (Some (Z.to_nat (max_mark limits)))
    s m (proj1 O)) as (l & E & all & Pm & _ & El).
  { intros id row r Ro. destruct (row_of_columns _ _ _ Ro) as (-> & C1 & C2 & C3 & C4 & St).
    cbn [fst snd]. by rewrite C4, str_state_terminal, St. }
  assert (La : (length all <= size m)%nat).
  { rewrite Pm. etransitivity; [apply length_filter|]. by rewrite length_fmap, length_map_to_list. }
  rewrite take_ge in El by lia. subst l.
  assert (In : forall r, r ∈ all <-> m !! resource_id r = Some r /\ is_terminal (res_state r) = false).
  { intros r. rewrite Pm, list_elem_of_filter, Is_true_true, negb_true_iff, list_elem_of_fmap. split.
    - intros [T ([id r'] & -> & I%elem_of_map_to_list)]. split; [|done]. cbn.
      by rewrite (represents_id s m id r' (proj1 O) I).
    - intros [I T]. split; [done|]. exists (resource_id r, r). split; [done|]. by apply elem_of_map_to_list. }
  assert (F : Forall (fun r => m !! resource_id r = Some r /\ to_json (record_ref r) <> None) all).
  { apply Forall_forall. intros r I%In. split; [apply I|]. eapply J, I. }
  destruct (mark_loop_complete now limits m all 0 s O F ltac:(lia)) as (O' & K & N & C).
  unfold se_bind, list_non_terminal. rewrite E.
  destruct (mark_loop_preserves m (fun s => store_ok s m) ltac:(done) now limits ScopeAll None None all 0 s)
    as (k & Ek & _); [|done|].
  { intros s' id json [R M] [(r & Er & _) _]. split; [done|]. intros id'. cbn.
    destruct (decide (id = id')) as [<-|Ne]; [by exists r|]. rewrite lookup_insert_ne by done. apply M. }
  destruct (mark_loop all now limits ScopeAll None None 0 s) as [s' r]. cbn in *. subst r.
  exists k, s'. split_and!; try done. intros id Or. unfold orphaned in Or.
  destruct (m !! id) as [r|] eqn:Er; [|done].
  rewrite <- (represents_id s m id r (proj1 O) Er). apply C; [|done]. apply In.
  rewrite (represents_id s m id r (proj1 O) Er). split; [done|]. cbn in Or.
  apply andb_prop in Or as [_ T]. by apply negb_true_iff.
Qed.

(** One pass over everything: every orphan has a mark, and those marked early enough are
    confirmed. *)
Lemma reconcile_complete grace now limits s m :
  pass_wf grace now limits -> store_ok s m -> refs_serializable m ->
  Z.of_nat (size m) <= max_mark limits -> Z.of_nat (size m) <= max_confirm limits ->
  let s' := (reconcile now limits s).1 in
  store_ok s' m /\
  (forall id o', orphans s' !! id = Some o' ->
     ro_marked o' = now \/ exists o, orphans s !! id = Some o /\ ro_marked o' = ro_marked o) /\
  (forall id, orphaned m id -> exists o', orphans s' !! id = Some o' /\
     forall o, orphans s !! id = Some o ->
       ro_confirmed o <> 0 \/ ro_marked o <= now - grace_period_ms limits -> ro_confirmed o' <> 0).
Proof.
  intros (W1 & W2 & W3 & W4) O J L1 L2. unfold reconcile, reconcile_scoped.
  destruct (mark_candidates_complete now limits s m O J L1) as (k & s1 & E1 & O1 & K1 & N1 & C1).
  rewrite (se_bind_ok _ _ _ _ _ E1). unfold confirm_orphans_scoped. rewrite bool_decide_true by done.
  unfold confirm_orphans.
  destruct (candidates_spec (sat_i 64 (now - grace_period_ms limits)) (max_confirm limits) s1 m O1)
    as (l & El & _ & Full).
  destruct (confirm_loop_complete now m l 0 s1 O1) as (O2 & K2 & Old).
  destruct (confirm_loop_preserves m (fun s => store_ok s m) ltac:(done) now l 0 s1) as (k2 & E2 & _); [..|done|].
  { intros o _ s' r [R M] E _. split; [done|]. intros id. cbn. rewrite lookup_alter_is_Some. apply M. }
  { intros s' id [R M]. split; [done|]. intros id'. cbn. intros [x [_ E]%lookup_delete_Some].
    apply M. by exists x. }
  unfold se_bind at 1 2 3. unfold se_bind. rewrite El.
  destruct (confirm_loop l now 0 s1) as [s2 r2]. cbn in *. subst r2. cbn. split_and!; [done| |].
  - intros id o' E. destruct (Old id o' E) as (o1 & Eo & M). rewrite M.
    destruct (N1 id o1 Eo) as [E0|E0]; [right; by exists o1|by left].
  - intros id Or. destruct (C1 id Or) as [o1 Eo]. destruct (K2 id o1 Or Eo) as (o' & E' & M & Cf).
    exists o'. split; [done|]. intros o Es H1. assert (o1 = o) as -> by (apply K1 in Es; congruence). apply Cf.
    destruct (decide (ro_confirmed o = 0)) as [Z0|Z0]; [|by left]. right.
    apply (Full ltac:(pose proof (marks_size s1 m (proj2 O1)); lia) id o Eo Z0). destruct H1; [done|].
    unfold sat_i, in_i in *. lia.
Qed.

(** [C38] No orphan is missed when the limits are not exceeded. If the resources are no more
    than a pass may mark and confirm, then after two passes over everything, a grace period
    apart, every resource that is not over and has no binding has a confirmed mark. *)
Theorem orphans_found (grace t1 t2 : Z) (limits : ReconcileLimits) (s : ControlStore) (m : resource_map) :
  reached grace s -> represents s m -> refs_serializable m ->
  (forall id o, orphans s !! id = Some o -> ro_marked o <= t1) ->
  pass_wf grace t1 limits -> pass_wf grace t2 limits -> t1 + grace_period_ms limits <= t2 ->
  Z.of_nat (size m) <= max_mark limits -> Z.of_nat (size m) <= max_confirm limits ->
  forall id r, m !! id = Some r -> res_binding r = None -> is_terminal (res_state r) = false ->
    exists o, orphans (reconcile t2 limits (reconcile t1 limits s).1).1 !! id = Some o /\
      ro_confirmed o <> 0.
Proof.
  intros Re R J Past W1 W2 Gap L1 L2 id r E B T. destruct (reached_ok grace s Re) as [m' M].
  assert (m' = m) as ->.
  { apply map_eq. intros i. destruct (represents_lookup s m i R) as [Er ->|row r1 Er -> Ro1],
      (represents_lookup s m' i (proj1 M)) as [Er' ->|row' r2 Er' -> Ro2]; simplify_eq; try done.
    destruct Ro1 as [Ro1 _], Ro2 as [Ro2 _]. congruence. }
  destruct (reconcile_complete grace t1 limits s m W1 (marks_ok_store _ _ _ M) J L1 L2) as (O1 & N1 & C1).
  destruct (reconcile_complete grace t2 limits _ m W2 O1 J L1 L2) as (O2 & N2 & C2).
  assert (Or : orphaned m id).
  { unfold orphaned. rewrite E. cbn. by rewrite bool_decide_true, T by done. }
  destruct (C1 id Or) as (o1 & E1 & _). destruct (C2 id Or) as (o2 & E2 & F2). exists o2. split; [done|].
  apply (F2 o1 E1). right. destruct (N1 id o1 E1) as [->|(o & Eo & ->)]; [lia|].
  pose proof (Past id o Eo). lia.
Qed.

(** What a clean-up of [id] may never touch: the other resources and their marks. *)
Definition others_kept (id : ResourceId) (s s' : ControlStore) : Prop :=
  forall id', id' <> id -> resources s' !! id' = resources s !! id' /\ orphans s' !! id' = orphans s !! id'.

Lemma cleanup_others scopes id now s m :
  store_ok s m -> others_kept id s (cleanup_orphan scopes id now s).1.
Proof.
  intros O. pose proof (cleanup_orphan_spec scopes id now s m O) as C.
  destruct (has_scope scopes AdminOrphan); [|by rewrite C].
  destruct (m !! id) as [r|]; [|by rewrite C]. case_bool_decide; [|by rewrite C].
  destruct C as (_ & Os & Rest & _). intros id' N. split; [by apply Rest|]. by rewrite Os, lookup_delete_ne.
Qed.

(** [C34] Orphans are protected. Whatever calls there were, with passes that wait for the grace
    period at least: a mark is of a resource without a binding, and a confirmed one has
    waited. A pass always succeeds and changes no resource. A clean-up without the scope of
    orphans is refused and changes nothing, and so is the clean-up of a resource that has a
    binding; any clean-up leaves every other resource and every other mark as they are; and
    one that has the scope and asks for a confirmed orphan succeeds, ends that resource and
    removes its mark. *)
Theorem orphans_protected (grace : Z) (s : ControlStore) :
  reached grace s ->
  exists m, represents s m /\
    (forall id o, orphans s !! id = Some o -> mark_ok grace m id o) /\
    (forall now limits scope node tenant, pass_wf grace now limits ->
       exists report, (reconcile_scoped now limits scope node tenant s).2 = Ok report /\
         resources (reconcile_scoped now limits scope node tenant s).1 = resources s) /\
    (forall scopes id now, has_scope scopes AdminOrphan = false ->
       cleanup_orphan scopes id now s = (s, Err (Media (error_new PermissionDenied)))) /\
    (forall scopes id now r, m !! id = Some r -> res_binding r <> None ->
       exists e, cleanup_orphan scopes id now s = (s, Err e)) /\
    (forall scopes id now, others_kept id s (cleanup_orphan scopes id now s).1) /\
    (forall scopes id now o, has_scope scopes AdminOrphan = true ->
       orphans s !! id = Some o -> ro_confirmed o <> 0 ->
       (cleanup_orphan scopes id now s).2 = Ok true /\ cleaned id s m (cleanup_orphan scopes id now s).1).
Proof.
  intros Re. destruct (reached_ok grace s Re) as [m M]. pose proof (marks_ok_store _ _ _ M) as O.
  exists m. split_and!; [apply M|apply M| | | | |].
  - intros now limits scope node tenant W.
    destruct (reconcile_scoped_ok grace now limits scope node tenant s m W M) as (report & E & _ & Same).
    by exists report.
  - intros scopes id now Sc. pose proof (cleanup_orphan_spec scopes id now s m O) as C. by rewrite Sc in C.
  - intros scopes id now r E B. pose proof (cleanup_orphan_spec scopes id now s m O) as C.
    destruct (has_scope scopes AdminOrphan); [|by eexists]. rewrite E, bool_decide_false in C by done.
    by eexists.
  - intros. by eapply cleanup_others.
  - intros scopes id now o Sc E _. pose proof (cleanup_orphan_spec scopes id now s m O) as C. rewrite Sc in C.
    destruct (proj2 M id o E) as [(r & Er & B) _]. by rewrite Er, bool_decide_true in C.
Qed.
End reconciler.

(** ** A resource that lost its binding *)

#[local] Instance sample_orphan_key_json : Json MediaKey := json_of_countable _.
#[local] Instance sample_orphan_error_json : Json MediaError := json_of_countable _.
#[local] Instance sample_orphan_ref_json : Json ControlledResourceRef := json_of_countable _.
#[local] Instance sample_orphan_order : OrderBy := order_by_merge_sort.

Definition sample_id : ResourceId := ("t", "k", "h").
Definition sample_limits : ReconcileLimits := mk_limits 10 10 1000.
Definition sample_store : ControlStore :=
  run_call (CallStore 10 (OpInsert sample_resource)) (mk_store ∅ ∅).
Definition sample_map : resource_map := {[sample_id := as_inserted 10 sample_resource]}.

Lemma sample_op_wf : op_wf (OpInsert sample_resource).
Proof. repeat constructor; cbn; unfold in_u; try lia; done. Qed.

Lemma sample_reached : reached 1000 sample_store.
Proof. apply reached_call; [apply reached_start|apply sample_op_wf]. Qed.

Lemma sample_represents : represents sample_store sample_map.
Proof.
  destruct (run_op_simulates 10 (OpInsert sample_resource) _ ∅ represents_empty sample_op_wf) as (R & _).
  exact R.
Qed.

(** Marked, and confirmed by a pass a grace period later. *)
Definition sample_confirmed : ControlStore :=
  run_call (CallReconcile 2000 sample_limits ScopeAll None None)
    (run_call (CallReconcile 20 sample_limits ScopeAll None None) sample_store).

Lemma orphans_protected_witness :
  reached 1000 sample_confirmed /\
  cleanup_orphan [AdminStore] sample_id 2500 sample_confirmed
  = (sample_confirmed, Err (Media (error_new PermissionDenied))) /\
  (cleanup_orphan [AdminOrphan] sample_id 2500 sample_confirmed).2 = Ok true /\
  orphans (cleanup_orphan [AdminOrphan] sample_id 2500 sample_confirmed).1 !! sample_id = None.
Proof.
  assert (R : reached 1000 sample_confirmed).
  { do 2 (apply reached_call; [|cbn; unfold pass_wf, in_i; cbn; lia]). exact sample_reached. }
  split; [exact R|].
  destruct (orphans_protected 1000 sample_confirmed R) as (m & _ & _ & _ & C & _ & _ & D).
  split; [exact (C [AdminStore] sample_id 2500 eq_refl)|].
  destruct (D [AdminOrphan] sample_id 2500
    (mk_row_orphan (default EmptyString (to_json (record_ref (as_inserted 10 sample_resource)))) 20 1 (Some 2000)))
    as [D1 [D2 _]]; [reflexivity|vm_compute; reflexivity|discriminate|].
  split; [exact D1|]. rewrite D2. apply lookup_delete_eq.
Defined.

Lemma orphans_found_witness :
  exists o, orphans (reconcile 2000 sample_limits (reconcile 20 sample_limits sample_store).1).1
              !! sample_id = Some o /\ ro_confirmed o <> 0.
Proof.
  apply (orphans_found 1000 20 2000 sample_limits sample_store sample_map)
    with (r := as_inserted 10 sample_resource).
  - exact sample_reached.
  - exact sample_represents.
  - intros id r _. done.
  - intros id o E. change (orphans sample_store) with (∅ : gmap ResourceId RowOrphan) in E.
    by rewrite lookup_empty in E.
  - unfold pass_wf, in_i. cbn. lia.
  - unfold pass_wf, in_i. cbn. lia.
  - cbn. lia.
  - unfold sample_map. rewrite map_size_singleton. cbn. lia.
  - unfold sample_map. rewrite map_size_singleton. cbn. lia.
  - unfold sample_map. apply lookup_singleton_eq.
  - reflexivity.
  - reflexivity.
Defined.

(** A clean-up does not ask for a mark: an active resource that nobody has marked, let alone
    confirmed after the grace period, is ended. *)
Example cleanup_needs_no_mark :
  let '(s, r) := cleanup_orphan [AdminOrphan] sample_id 20 sample_store in
  r = Ok true /\
  match (resource_get sample_id s).2 with Ok (Some r) => res_state r = Failed | _ => False end.
Proof. vm_compute. done. Qed.

(** The candidates of a pass are the [max_mark] resources that have not changed for longest,
    before those with a binding are left out: resources that keep their binding for long
    hide every orphan behind them. *)
Example bound_resources_hide_orphans :
  let bound := mk_resource "t" "k" "b" None (Some "550e8400-e29b-41d4-a716-446655440000") None None
                 None 7 None None 1 0 RActive None Cluster 5 5 None in
  let s := run_call (CallStore 5 (OpInsert bound)) sample_store in
  let '(s', r) := reconcile 20 (mk_limits 1 10 1000) s in
  r = Ok (mk_report 0 0) /\ orphans s' !! sample_id = None.
Proof. vm_compute. done. Qed.
