(* ===== verification/Mutations.v ===== *)
(** * Mutations

    Models [crates/system/cheetah-media-control-plane/src/mutation.rs]: the orchestrator that
    every adapter goes through to create something. It asks the node and the capacity gate,
    claims the idempotency key, and when the side effect is done it registers the resource
    and completes the key.

    A call is a sequence of transactions of the one store, which holds both the resources and
    the idempotency keys. The node and the capacity are what the call finds when it reads
    them; [now] and [now'] are what the clock says at its transactions. Transactions of other
    calls come in between. *)
From Stdlib Require Import Strings.Byte.
From stdpp Require Import strings sorting.
From S2P Require Import Prelude MediaKeys ControlIds ControlPlane Capacity NodeSupervisor Idempotency Resources.
Local Open Scope string_scope.
Local Open Scope Z_scope.

Inductive MutationPrepareResult {Value SafeError : Type} : Type :=
| MProceed (key : IdempotencyKey) (digest : CanonicalDigest)
| MReplay (record : IdempotencyRecord Value SafeError)
| MConflict
| MReconcile (record : IdempotencyRecord Value SafeError).
Arguments MutationPrepareResult : clear implicits.

Section orchestrator.
Context {Value SafeError : Type} {json_ref : Json ControlledResourceRef} {serde_value : Serde Value}
  {serde_error : Serde SafeError} {json_error : Json MediaError} {json_key : Json MediaKey}.

Abbreviation Store := (ControlStore * idempotency_table)%type.

Definition on_resources {A} (m : SE ControlStore ControlPlaneError A) : SE Store ControlPlaneError A :=
  fun w => let '(s, r) := m w.1 in ((s, w.2), r).
Definition on_keys {A} (m : SE idempotency_table ControlPlaneError A) : SE Store ControlPlaneError A :=
  se_snd m.

(** The gates: a part that was not configured is no gate. *)
Definition node_accepts (node : option NodeSupervisor) : bool :=
  match node with Some node => mutations_allowed node | None => true end.
Definition capacity_accepts (capacity : option CapacityState) : bool :=
  match capacity with Some st => snap_node_gate_open (snapshot st) | None => true end.

Definition prepare_mutation (node : option NodeSupervisor) (capacity : option CapacityState) (now now' : Z)
    (key : IdempotencyKey) (digest : CanonicalDigest) (expires_at : Z) :
    SE Store ControlPlaneError (MutationPrepareResult Value SafeError) :=
  se_of (validate key) ;;;
  if negb (node_accepts node) then se_err (Media busy)
  else if negb (capacity_accepts capacity) then se_err (Media busy)
  else
    outcome <- on_keys (prepare now key digest expires_at) ;;
    match outcome with
    | Proceed => se_ret (MProceed key digest)
    | Replay record => se_ret (MReplay record)
    | OutcomeConflict => se_ret MConflict
    | OutcomeReconcile =>
        record <- on_keys (get now' key) ;;
        match record with
        | Some record => se_ret (MReconcile record)
        | None => se_err CpInternal
        end
    end.

(** A resource that is there already is taken for the one to register. *)
Definition register_resource (now : Z) (record : ResourceRecord) : SE Store ControlPlaneError unit := fun w =>
  match on_resources (resource_insert now record) w with
  | (w, Err CpConflict) =>
      (existing <- on_resources (resource_get (resource_id record)) ;;
       match existing with
       | None => se_err CpConflict
       | Some _ => se_ret tt
       end) w
  | res => res
  end.

Definition DAY_MS : Z := 24 * 60 * 60 * 1000.

Definition success_record (now : Z) (key : IdempotencyKey) (digest : CanonicalDigest)
    (resource : option ResourceRecord) (domain_result : option Value) : IdempotencyRecord Value SafeError :=
  mk_record key Completed digest (record_ref <$> resource) Applied domain_result None now now
    (sat_i 64 (now + DAY_MS)) 1.

Definition complete_success (now now' : Z) (key : IdempotencyKey) (digest : CanonicalDigest)
    (resource : option ResourceRecord) (domain_result : option Value) :
    SE Store ControlPlaneError (IdempotencyRecord Value SafeError) :=
  (match resource with Some record => register_resource now record | None => se_ret tt end) ;;;
  let record := success_record now' key digest resource domain_result in
  on_keys (complete record) ;;;
  se_ret record.

Definition failure_record (now : Z) (key : IdempotencyKey) (digest : CanonicalDigest) (error : SafeError)
    (outcome : EffectOutcome) (ref : option ControlledResourceRef) : IdempotencyRecord Value SafeError :=
  mk_record key (if bool_decide (outcome = Unknown) then IdUnknown else IdFailed) digest ref outcome None
    (Some error) now now (sat_i 64 (now + DAY_MS)) 1.

Definition complete_failure (now : Z) (key : IdempotencyKey) (digest : CanonicalDigest) (error : SafeError)
    (outcome : EffectOutcome) (ref : option ControlledResourceRef) :
    SE Store ControlPlaneError (IdempotencyRecord Value SafeError) :=
  let record := failure_record now key digest error outcome ref in
  on_keys (complete record) ;;;
  se_ret record.

(** ** Runs: transactions of any calls, in any order

    The store with the resources that calls of [register_resource] found in the table or put
    there. A call completes with a success for its resource only after that, and other
    transactions, on keys and on resources, may come in between; nothing removes a row of the
    resources. *)

Abbreviation run_events := (list (event (Value := Value) (SafeError := SafeError))).

(** A completion that names no resource: a failure, or a success without one. *)
Definition names_nothing (x : txn (Value := Value) (SafeError := SafeError)) : Prop :=
  match x with
  | TComplete record => state record = Completed -> resource_ref record = None
  | _ => True
  end.

Inductive mutation_run : run_events -> Store -> list ResourceRecord -> Prop :=
| run_start : mutation_run [] (mk_store ∅ ∅, ∅) []
| run_key h s t regs now x t' res :
    mutation_run h (s, t) regs -> txn_wf x -> names_nothing x -> run_txn now x t = (t', res) ->
    mutation_run ((now, x, res) :: h) (s, t') regs
| run_resource h s t regs now op s' res :
    mutation_run h (s, t) regs -> run_op now op s = (s', res) -> mutation_run h (s', t) regs
| run_register h w regs now record w' :
    mutation_run h w regs -> register_resource now record w = (w', Ok tt) ->
    mutation_run h w' (record :: regs)
| run_success h s t regs now now' key digest record value t' res :
    mutation_run h (s, t) regs -> length digest = 32%nat -> record ∈ regs ->
    run_txn now (TComplete (success_record now' key digest (Some record) value)) t = (t', res) ->
    mutation_run ((now, TComplete (success_record now' key digest (Some record) value), res) :: h) (s, t') regs.

Definition names_resource (s : ControlStore) (record : IdempotencyRecord Value SafeError) : Prop :=
  state record = Completed ->
  forall ref, resource_ref record = Some ref -> is_Some (resources s !! ref_id ref).

Lemma run_op_grows now op s id : is_Some (resources s !! id) -> is_Some (resources (run_op now op s).1 !! id).
Proof.
  assert (forall id' row, is_Some (resources s !! id) ->
            is_Some (resources (with_resources (<[id' := row]> (resources s)) s) !! id)) as Up.
  { intros id' row I. cbn. destruct (decide (id' = id)) as [->|N];
      [by rewrite lookup_insert_eq; eexists|by rewrite lookup_insert_ne]. }
  intros I. destruct op as [k|r|k e n|k e n st|k st|k st]; unfold run_op, se_bind.
  - unfold resource_get. by destruct (resources s !! k) as [row|]; [destruct (row_into_record _)|].
  - unfold resource_insert. destruct (resources s !! resource_id r); [done|].
    destruct (inserted_row now r); [by apply Up|done].
  - unfold compare_and_set_owner_epoch. destruct (resources s !! k) as [row|]; [|done].
    destruct (_ =? _); [by apply Up|done].
  - unfold compare_and_set_generation. destruct (resources s !! k) as [row|]; [|done].
    destruct (_ =? _); [by apply Up|done].
  - unfold set_state. destruct (resources s !! k) as [row|]; [by apply Up|done].
  - unfold tombstone, set_state. destruct (is_terminal st); [|done].
    destruct (resources s !! k) as [row|]; [by apply Up|done].
Qed.

(** What registering does to the two tables. *)
Lemma register_cases now record (w w' : Store) :
  register_resource now record w = (w', Ok tt) ->
  w'.2 = w.2 /\ (w'.1 = w.1 \/ w'.1 = (run_op now (OpInsert record) w.1).1) /\
  is_Some (resources w'.1 !! resource_id record).
Proof.
  destruct w as [s t]. unfold register_resource, on_resources. cbn [fst snd].
  unfold run_op, se_bind. unfold resource_insert.
  destruct (resources s !! resource_id record) as [row|] eqn:L.
  - cbn [fst snd]. unfold resource_get. rewrite L.
    destruct (row_into_record _) as [x|]; cbn; [|done]. intros [= <-]. cbn.
    split_and!; [done|by left|by eexists].
  - destruct (inserted_row now record) as [row|] eqn:Ro; [|done]. intros [= <-]. cbn.
    split_and!; [done|by right|]. rewrite lookup_insert_eq. by eexists.
Qed.

Lemma last_write_names (P : IdempotencyRecord Value SafeError -> Prop) now x res (h : run_events) :
  (forall k r, last_write h k = Some r -> P r) ->
  (forall r, written (now, x, res) = Some r -> P r) ->
  forall k r, last_write ((now, x, res) :: h) k = Some r -> P r.
Proof.
  intros Old New k r. cbn [last_write]. destruct (written _) as [r'|]; [|apply Old].
  case_bool_decide; [|apply Old]. intros [= <-]. by apply New.
Qed.

Lemma run_history h w regs :
  mutation_run h w regs ->
  store_run h w.2 /\ (forall r, r ∈ regs -> is_Some (resources w.1 !! resource_id r)) /\
  forall k r, last_write h k = Some r -> names_resource w.1 r.
Proof.
  assert (grown : forall s s' (h : run_events), (forall id, is_Some (resources s !! id) -> is_Some (resources s' !! id)) ->
    (forall k r, last_write h k = Some r -> names_resource s r) ->
    forall k r, last_write h k = Some r -> names_resource s' r).
  { intros s s' h0 G Old k r L C ref Er. by apply G, (Old k r L C). }
  induction 1 as [|h s t regs now x t' res R (IH1 & IH2 & IH3) W Nn E|h s t regs now op s' res R (IH1 & IH2 & IH3) E
    |h w regs now record w' R (IH1 & IH2 & IH3) E
    |h s t regs now now' key digest record value t' res R (IH1 & IH2 & IH3) L I E]; cbn [fst snd] in *.
  - split_and!; [constructor|by intros r ?%not_elem_of_nil|done].
  - split_and!; [by eapply run_cons|done|]. apply (last_write_names (names_resource s)); [done|].
    intros r Wr. destruct x as [k'|k' d e|record]; cbn in Wr; [done|..].
    + destruct res as [[| |]|]; try done. destruct o; try done. injection Wr as <-. done.
    + destruct res as [[| |]|]; try done. injection Wr as <-. intros C ref Er. cbn in Nn. by rewrite Nn in Er.
  - assert (G : forall id, is_Some (resources s !! id) -> is_Some (resources s' !! id)).
    { intros id Is. pose proof (run_op_grows now op s id Is) as G. by rewrite E in G. }
    split_and!; [done|auto|]. by apply (grown s).
  - destruct (register_cases _ _ _ _ E) as (E2 & E1 & Is).
    assert (G : forall id, is_Some (resources w.1 !! id) -> is_Some (resources w'.1 !! id)).
    { intros id Is'. destruct E1 as [->| ->]; [done|]. by apply run_op_grows. }
    split_and!; [by rewrite E2| |by apply (grown w.1)]. intros r [->|I]%elem_of_cons; auto.
  - split_and!; [by eapply run_cons|done|]. apply (last_write_names (names_resource s)); [done|].
    intros r Wr. cbn -[success_record] in Wr. destruct res as [[| |]|]; try done. injection Wr as <-.
    intros _ ref [= <-]. by apply IH2.
Qed.

Lemma same_result_names s r r' : same_result r' (as_stored r) -> names_resource s r -> names_resource s r'.
Proof.
  intros S N C ref E. unfold same_result, with_counts, as_stored in S. injection S as _ S _ Er _ _ _ _ _.
  apply (N (eq_trans (eq_sym S) C)). cbn in Er. congruence.
Qed.

(** ** What the orchestrator answers *)

(** For a write in force that is not over. *)
Definition prepare_answers (s : ControlStore) (r : IdempotencyRecord Value SafeError)
    (digest : CanonicalDigest) (res : result ControlPlaneError (MutationPrepareResult Value SafeError)) : Prop :=
  if bool_decide (canonical_digest r <> digest) then res = Ok MConflict
  else if closed (state r)
       then exists r', res = Ok (MReplay r') /\ replays r' r /\ names_resource s r'
       else exists r', res = Ok (MReconcile r') /\ replays r' r.

(** The node and the capacity that are configured let a mutation pass. *)
Definition gates_open (node : option NodeSupervisor) (capacity : option CapacityState) : Prop :=
  (forall n, node = Some n -> node_state n = Active) /\
  (forall c, capacity = Some c -> node_gate_open c = true).

Lemma gates_spec node capacity : node_accepts node && capacity_accepts capacity = true <-> gates_open node capacity.
Proof.
  unfold gates_open, node_accepts, capacity_accepts, mutations_allowed. rewrite andb_true_iff. split.
  - intros [N C]. split; intros x ->; [by apply bool_decide_eq_true in N|exact C].
  - intros [N C]. split; [destruct node as [n|]|destruct capacity as [c|]]; try done.
    + apply bool_decide_eq_true. by apply N.
    + by apply (C c).
Qed.

Lemma refused_at_gate node capacity now now' key digest expires w :
  validate key = Ok tt -> ~ gates_open node capacity ->
  prepare_mutation node capacity now now' key digest expires w = (w, Err (Media busy)).
Proof.
  intros V G. unfold prepare_mutation, se_bind, se_of. rewrite V. rewrite <- gates_spec in G.
  destruct (node_accepts node); [|done]. cbn in *. by destruct (capacity_accepts capacity).
Qed.

Lemma prepare_in_force h s t regs node capacity now now' key digest expires r :
  mutation_run h (s, t) regs -> length digest = 32%nat -> validate key = Ok tt -> gates_open node capacity ->
  in_force h key = Some r -> now <= expires_at_ms r -> now' <= expires_at_ms r ->
  prepare_answers s r digest (prepare_mutation node capacity now now' key digest expires (s, t)).2.
Proof.
  intros R Ld V G W X X'. destruct (run_history _ _ _ R) as (Sr & _ & Names). cbn [fst snd] in Sr, Names.
  pose proof (run_agrees h t Sr) as A. apply gates_spec in G. apply andb_true_iff in G as [G1 G2].
  assert (Nr : names_resource s r) by (eapply Names, in_force_last, W).
  unfold prepare_mutation, se_bind, se_of. rewrite V, G1, G2. cbn [negb].
  unfold on_keys, se_snd. destruct (prepare now key digest expires t) as [t' res] eqn:P.
  destruct (prepare_step _ _ _ _ _ _ _ _ A Ld P) as (o & -> & S & A'). rewrite W in S.
  rewrite (proj2 (Z.ltb_ge _ _) X) in S. unfold prepare_spec in S. unfold prepare_answers.
  destruct (bool_decide (canonical_digest r <> digest)); [by subst o|].
  destruct (closed (state r)) eqn:Cl.
  - destruct S as (r' & -> & Sm & Ex). exists r'. split_and!; [done|by split|by eapply same_result_names].
  - subst o. destruct (get now' key t') as [t'' res'] eqn:Gt.
    destruct (get_step _ _ _ _ _ _ A' Gt) as [_ S]. cbn [in_force written] in S. rewrite W in S. cbn [looks_after] in S.
    rewrite bool_decide_true, (proj2 (Z.ltb_ge _ _) X) in S by done. cbn [andb] in S.
    rewrite (proj2 (Z.ltb_ge _ _) X') in S. destruct S as (r' & -> & S). by exists r'.
Qed.

Lemma prepare_free h s t regs node capacity now now' key digest expires :
  mutation_run h (s, t) regs -> length digest = 32%nat -> validate key = Ok tt -> gates_open node capacity ->
  free h now key ->
  (prepare_mutation node capacity now now' key digest expires (s, t)).2 = Ok (MProceed key digest).
Proof.
  intros R Ld V G F. destruct (run_history _ _ _ R) as (Sr & _). cbn [snd] in Sr.
  pose proof (run_agrees h t Sr) as A. apply gates_spec in G. apply andb_true_iff in G as [G1 G2].
  unfold prepare_mutation, se_bind, se_of. rewrite V, G1, G2. cbn [negb].
  unfold on_keys, se_snd. destruct (prepare now key digest expires t) as [t' res] eqn:P.
  destruct (prepare_step _ _ _ _ _ _ _ _ A Ld P) as (o & -> & S & _).
  destruct (in_force h key) as [r|] eqn:W; [|by subst o].
  pose proof (free_in_force _ _ _ _ F W) as X. rewrite (proj2 (Z.ltb_lt _ _) X) in S. by subst o.
Qed.

(** ** The calls are runs *)

Lemma prepare_runs h s t regs node capacity now now' key digest expires :
  mutation_run h (s, t) regs -> length digest = 32%nat ->
  exists h', mutation_run (h' ++ h) (prepare_mutation node capacity now now' key digest expires (s, t)).1 regs.
Proof.
  intros R Ld. unfold prepare_mutation, se_bind, se_of. destruct (validate key); [|by exists []].
  destruct (node_accepts node); [|by exists []]. destruct (capacity_accepts capacity); [|by exists []]. cbn [negb].
  unfold on_keys, se_snd. destruct (prepare now key digest expires t) as [t' res] eqn:P.
  assert (R' : mutation_run ((now, TPrepare key digest expires, result_map APrepare res) :: h) (s, t') regs).
  { eapply (run_key h s t regs now (TPrepare key digest expires)); [done..|]. unfold run_txn, se_bind. rewrite P.
    by destruct res. }
  destruct res as [o|e]; [|by eexists [_]]. destruct o; [by eexists [_]..|].
  destruct (get now' key t') as [t'' res] eqn:Gt.
  assert (R'' : mutation_run ((now', TGet key, result_map AGet res)
                  :: (now, TPrepare key digest expires, Ok (APrepare OutcomeReconcile)) :: h) (s, t'') regs).
  { eapply (run_key _ s t' regs now' (TGet key)); [exact R'|done|done|]. unfold run_txn, se_bind. rewrite Gt.
    by destruct res. }
  destruct res as [[r|]|]; eexists [_; _]; exact R''.
Qed.

Lemma register_runs h w regs now record :
  mutation_run h w regs -> mutation_run h (register_resource now record w).1 regs.
Proof.
  intros R. destruct w as [s t]. unfold register_resource, on_resources. cbn [fst snd].
  destruct (resource_insert now record s) as [s' r] eqn:I.
  assert (Ri : mutation_run h (s', t) regs).
  { eapply (run_resource h s t regs now (OpInsert record)); [done|]. unfold run_op, se_bind. rewrite I.
    instantiate (1 := result_map (fun _ => AnsUnit) r). by destruct r. }
  destruct r as [[]|[]]; try exact Ri. unfold se_bind. unfold resource_get. cbn [fst snd].
  destruct (resources s' !! _) as [row|]; [|exact Ri]. destruct (row_into_record _); exact Ri.
Qed.

Lemma complete_success_runs h w regs now now' key digest resource value :
  mutation_run h w regs -> length digest = 32%nat ->
  exists h' regs', mutation_run (h' ++ h) (complete_success now now' key digest resource value w).1 regs' /\
    match (complete_success now now' key digest resource value w).2 with
    | Ok record => state record = Completed /\ in_force (h' ++ h) key = Some record
    | Err _ => in_force (h' ++ h) key = in_force h key
    end.
Proof.
  intros R Ld. unfold complete_success, se_bind.
  assert (fin : forall s t regs (Q : forall t' res,
      run_txn now' (TComplete (success_record now' key digest resource value)) t = (t', res) ->
      mutation_run ((now', TComplete (success_record now' key digest resource value), res) :: h) (s, t') regs),
    exists h' regs', mutation_run (h' ++ h)
      ((on_keys (complete (success_record now' key digest resource value)) ;;;
        se_ret (success_record now' key digest resource value)) (s, t)).1 regs' /\
    match ((on_keys (complete (success_record now' key digest resource value)) ;;;
        se_ret (success_record now' key digest resource value)) (s, t)).2 with
    | Ok record => state record = Completed /\ in_force (h' ++ h) key = Some record
    | Err _ => in_force (h' ++ h) key = in_force h key
    end).
  { intros s t regs0 Q. unfold se_bind, on_keys, se_snd.
    destruct (complete _ t) as [t' r] eqn:C. specialize (Q t' (result_map (fun _ => AComplete) r)).
    eexists [_], regs0. split.
    - destruct r; cbn [fst]; apply Q; unfold run_txn, se_bind; by rewrite C.
    - destruct r as [[]|e]; cbn -[success_record].
      + split; [done|]. by rewrite bool_decide_true.
      + by destruct (in_force h key). }
  destruct w as [s t]. destruct resource as [record|].
  - pose proof (register_runs h (s, t) regs now record R) as Rr.
    destruct (register_resource now record (s, t)) as [[s' t'] [[]|e]] eqn:E; [|by exists [], regs].
    pose proof (run_register h (s, t) regs now record _ R E) as R'.
    apply (fin s' t' (record :: regs)). intros t'' res X. eapply run_success; [exact R'|done|by left|exact X].
  - cbn. apply (fin s t regs). intros t' res X. by eapply (run_key h s t regs).
Qed.

Lemma complete_failure_runs h s t regs now key digest error outcome ref :
  mutation_run h (s, t) regs -> length digest = 32%nat ->
  exists h', mutation_run (h' ++ h) (complete_failure now key digest error outcome ref (s, t)).1 regs /\
    match (complete_failure now key digest error outcome ref (s, t)).2 with
    | Ok record => state record = (if bool_decide (outcome = Unknown) then IdUnknown else IdFailed) /\
                   in_force (h' ++ h) key = Some record
    | Err _ => in_force (h' ++ h) key = in_force h key
    end.
Proof.
  intros R Ld. unfold complete_failure, se_bind, on_keys, se_snd.
  destruct (complete _ t) as [t' r] eqn:C.
  assert (Rc : mutation_run ((now, TComplete (failure_record now key digest error outcome ref),
                 result_map (fun _ => AComplete) r) :: h) (s, t') regs).
  { eapply (run_key h s t regs now (TComplete _)); [done|done| |].
    - cbn. by destruct (bool_decide _).
    - unfold run_txn, se_bind. rewrite C. by destruct r. }
  eexists [_]. destruct r as [[]|e]; (split; [exact Rc|]); cbn -[failure_record].
  - split; [done|]. by rewrite bool_decide_true.
  - by destruct (in_force h key).
Qed.

(** [C33] In runs of the orchestrator of any number of callers, whose transactions come in any
    order and with any clocks, a mutation is prepared as follows. A node that is configured and
    not active, or a capacity that is configured and whose gate is closed, refuses it and
    changes nothing. Otherwise, while the last write to its key is in force and not over, no
    second caller proceeds: another digest is a conflict; a known outcome is replayed, and the
    resource that a success names is in the table; an open outcome goes to reconciliation. A
    free key proceeds. The calls that complete a mutation are runs again, and put in force what
    they answer: [Completed] for a success, behind its resource, and for a failure [Unknown]
    or [Failed] by its outcome. *)
Theorem mutations_by_history h s t regs :
  mutation_run h (s, t) regs ->
  (forall node capacity now now' key digest expires, length digest = 32%nat -> validate key = Ok tt ->
     let '(w, res) := prepare_mutation node capacity now now' key digest expires (s, t) in
     (exists h', mutation_run (h' ++ h) w regs) /\
     (~ gates_open node capacity -> w = (s, t) /\ res = Err (Media busy)) /\
     (gates_open node capacity ->
      (forall r, in_force h key = Some r -> now <= expires_at_ms r -> now' <= expires_at_ms r ->
         prepare_answers s r digest res) /\
      (free h now key -> res = Ok (MProceed key digest)))) /\
  (forall now now' key digest resource value, length digest = 32%nat ->
     let '(w, res) := complete_success now now' key digest resource value (s, t) in
     exists h' regs', mutation_run (h' ++ h) w regs' /\
       match res with
       | Ok record => state record = Completed /\ in_force (h' ++ h) key = Some record
       | Err _ => in_force (h' ++ h) key = in_force h key
       end) /\
  (forall now key digest error outcome ref, length digest = 32%nat ->
     let '(w, res) := complete_failure now key digest error outcome ref (s, t) in
     exists h', mutation_run (h' ++ h) w regs /\
       match res with
       | Ok record => state record = (if bool_decide (outcome = Unknown) then IdUnknown else IdFailed) /\
                      in_force (h' ++ h) key = Some record
       | Err _ => in_force (h' ++ h) key = in_force h key
       end).
Proof.
  intros R. split_and!.
  - intros node capacity now now' key digest expires Ld V.
    pose proof (prepare_runs h s t regs node capacity now now' key digest expires R Ld) as Run.
    pose proof (fun G => refused_at_gate node capacity now now' key digest expires (s, t) V G) as Shut.
    pose proof (prepare_in_force h s t regs node capacity now now' key digest expires) as Force.
    pose proof (prepare_free h s t regs node capacity now now' key digest expires R Ld V) as Free.
    destruct (prepare_mutation _ _ _ _ _ _ _ _) as [w res]. split_and!; [exact Run| |].
    + intros G. by injection (Shut G) as -> ->.
    + intros G. split; [|by apply Free]. intros r W X X'. by apply Force.
  - intros now now' key digest resource value Ld.
    pose proof (complete_success_runs h (s, t) regs now now' key digest resource value R Ld) as C.
    by destruct (complete_success _ _ _ _ _ _ _).
  - intros now key digest error outcome ref Ld.
    pose proof (complete_failure_runs h s t regs now key digest error outcome ref R Ld) as C.
    by destruct (complete_failure _ _ _ _ _ _ _).
Qed.
End orchestrator.

(** ** Examples *)

#[local] Instance mutation_ref_json : Json ControlledResourceRef := json_of_countable _.
#[local] Instance mutation_value_json : Json string := json_of_countable _.
#[local] Instance mutation_error_json : Json MediaError := json_of_countable _.
#[local] Instance mutation_key_json : Json MediaKey := json_of_countable _.

Definition empty_store : ControlStore * idempotency_table := (mk_store ∅ ∅, ∅).

(** One mutation from its claim to its success. *)
Abbreviation demo_prepare := (prepare_mutation (Value := string) (SafeError := MediaError)).

Definition demo_claimed : ControlStore * idempotency_table := (mk_store ∅ ∅, claimed_table).
Definition demo_registered : ControlStore * idempotency_table := (register_resource 20 sample_resource demo_claimed).1.
Definition demo_success : IdempotencyRecord string MediaError :=
  success_record 30 sample_key sample_digest (Some sample_resource) (Some "result").
Definition demo_done : ControlStore * idempotency_table := (demo_registered.1, (complete demo_success demo_registered.2).1).
Abbreviation demo_claim := ([(10, TPrepare sample_key sample_digest 100, Ok (APrepare Proceed))]
  : list (event (Value := string) (SafeError := MediaError))).
Definition demo_history : list (event (Value := string) (SafeError := MediaError)) :=
  (30, TComplete demo_success, Ok AComplete) :: demo_claim.

Lemma demo_registers :
  register_resource 20 sample_resource demo_claimed = (demo_registered, Ok tt) /\ demo_registered.2 = claimed_table.
Proof.
  unfold demo_registered, register_resource, on_resources, resource_insert, demo_claimed. cbn [fst snd resources].
  rewrite lookup_empty. destruct (inserted_row 20 sample_resource) as [row|] eqn:E; [done|by vm_compute in E].
Qed.

Lemma demo_completes :
  run_txn 30 (TComplete demo_success) demo_registered.2 = (demo_done.2, Ok AComplete).
Proof.
  unfold demo_done, run_txn, se_bind. cbn [snd]. rewrite (proj2 demo_registers).
  unfold complete, claimed_table, sample_prepare, prepare. rewrite lookup_empty. cbn [fst record_key demo_success success_record].
  rewrite lookup_insert_eq, bool_decide_false by (intros N; apply N; by apply parse_hex_to_hex).
  destruct (completed_row _ _ _) as [row|] eqn:E; [done|by vm_compute in E].
Qed.

Lemma demo_run : mutation_run demo_history (demo_done.1, demo_done.2) [sample_resource].
Proof.
  apply (run_success demo_claim demo_registered.1 demo_registered.2 _ 30 30); [|done|by left|exact demo_completes].
  rewrite <- surjective_pairing. apply (run_register demo_claim demo_claimed [] 20); [|apply demo_registers].
  apply (run_key [] (mk_store ∅ ∅) ∅ [] 10 (TPrepare sample_key sample_digest 100)); [constructor|done|done|].
  unfold run_txn, se_bind, claimed_table, sample_prepare, prepare. by rewrite lookup_empty.
Qed.

(** The same request again is answered with the result and the resource of the first; another
    one under the same key is a conflict; and a node that is isolated refuses both. *)
Lemma mutations_by_history_witness :
  (exists r, (demo_prepare (Some sample_active) None 40 40 sample_key sample_digest 100 demo_done).2 = Ok (MReplay r) /\
     resource_ref r = Some (record_ref sample_resource) /\ serialized_domain_result r = Some "result" /\
     is_Some (resources demo_done.1 !! resource_id sample_resource)) /\
  (demo_prepare (Some sample_active) None 40 40 sample_key (replicate 32 x00) 100 demo_done).2 = Ok MConflict /\
  demo_prepare (Some sample_node) None 40 40 sample_key sample_digest 100 demo_done = (demo_done, Err (Media busy)).
Proof.
  assert (V : validate sample_key = Ok tt) by by vm_compute.
  assert (G : gates_open (Some sample_active) None).
  { split; [|done]. intros n [= <-]. by vm_compute. }
  assert (W : in_force demo_history sample_key = Some demo_success) by by vm_compute.
  destruct (mutations_by_history (Value := string) (SafeError := MediaError) demo_history demo_done.1 demo_done.2
              [sample_resource] demo_run) as (P & _).
  change (demo_done.1, demo_done.2) with demo_done in P.
  split; [|split].
  - specialize (P (Some sample_active) None 40 40 sample_key sample_digest 100 eq_refl V).
    destruct (prepare_mutation _ _ _ _ _ _ _ _) as [w res]. destruct P as (_ & _ & P). destruct (P G) as [A _].
    specialize (A _ W ltac:(by vm_compute) ltac:(by vm_compute)). unfold prepare_answers in A.
    rewrite bool_decide_false in A by (intros N; by apply N). destruct A as (r & -> & (_ & S) & N).
    exists r. specialize (S (conj (fun v _ => json_back v) (fun v _ => json_back v))).
    unfold same_result, with_counts in S. injection S as _ S2 _ S4 _ S6 _ _ _.
    split; [done|]. split; [exact S4|]. split; [exact S6|]. exact (N S2 _ S4).
  - specialize (P (Some sample_active) None 40 40 sample_key (replicate 32 x00) 100 eq_refl V).
    destruct (prepare_mutation _ _ _ _ _ _ _ _) as [w res]. destruct P as (_ & _ & P). destruct (P G) as [A _].
    specialize (A _ W ltac:(by vm_compute) ltac:(by vm_compute)). unfold prepare_answers in A.
    by rewrite bool_decide_true in A by discriminate.
  - specialize (P (Some sample_node) None 40 40 sample_key sample_digest 100 eq_refl V).
    destruct (prepare_mutation _ _ _ _ _ _ _ _) as [w res]. destruct P as (_ & P & _).
    destruct P as [-> ->]; [|done]. intros [N _]. by specialize (N _ eq_refl).
Defined.

(** When the handle is taken by the resource of another session, the mutation succeeds, and
    what is replayed names a session that the table does not know. *)
Definition other_resource : ResourceRecord :=
  mk_resource "t" "k" "h" (Some "mine") None None None None 7 None None 1 0 RActive None Cluster 10 10 None.

Example resource_of_another :
  let w := (register_resource 10 sample_resource empty_store).1 in
  let '(w', res) := complete_success (Value := string) (SafeError := MediaError) 20 20 sample_key sample_digest (Some other_resource) None w in
  result_map (fun r => ref_session <$> resource_ref r) res = Ok (Some (Some "mine")) /\
  result_map (fun r => res_session <$> r) (resource_get (resource_id other_resource) w'.1).2 = Ok (Some None).
Proof. vm_compute. done. Qed.
