(* ===== verification/Cursors.v ===== *)
(** * Signed cursors and resource filters

    Models [crates/sdk/cheetah-media-api/src/cursor.rs] ([OpaqueCursor], [CursorPageRequest],
    the sort keys and [CursorCodec]), [event_cursor.rs] ([EventCursorCodec]) and
    [resource_filter.rs] ([ResourceFilter]).

    The two codecs are one piece of code written twice; here it is written once, over the
    class [CursorKind] that says what the codec reads of the contents. serde_json is the
    interface [Json]; the base64 crate is the interface [Base64]; HMAC-SHA256 and SHA-256 are
    arguments. An [OpaqueCursor] is the [string] of its UTF-8 bytes. *)
From Stdlib Require Import Ascii Strings.Byte.
From stdpp Require Import strings.
From S2P Require Import Prelude MediaKeys ControlIds ControlPlane Idempotency.
Local Open Scope string_scope.
Local Open Scope Z_scope.

(** ** [OpaqueCursor] *)

Definition MAX_LEN : nat := 4096.

Definition opaque_cursor_new (value : string) : result MediaError string :=
  if bool_decide (value = "") then Err invalid_argument
  else if (MAX_LEN <? String.length value)%nat then Err invalid_argument
  else if has_control_char value then Err invalid_argument
  else Ok value.

(** ** [CursorPageRequest] *)

Record CursorPageRequest : Set := mk_page_request { page_cursor : option string; page_size : Z }.

Definition DEFAULT_PAGE_SIZE : Z := 50.
Definition MAX_PAGE_SIZE : Z := 1000.

Definition clamp_page_size (r : CursorPageRequest) : CursorPageRequest :=
  let size := if page_size r =? 0 then DEFAULT_PAGE_SIZE else page_size r in
  mk_page_request (page_cursor r) (Z.min size MAX_PAGE_SIZE).

(** ** Sort keys *)

Inductive SortTimestamp : Set := UpdatedAt (v : Z) | CreatedAt (v : Z).

Definition millis (t : SortTimestamp) : Z :=
  match t with UpdatedAt v | CreatedAt v => v end.

Record SortKey : Set := mk_sort_key { timestamp : SortTimestamp; sort_handle : string }.

(** [Ord for String] is the order of the bytes. *)
Definition sort_key_cmp (a b : SortKey) : comparison :=
  match millis (timestamp a) ?= millis (timestamp b) with
  | Eq => String.compare (sort_handle a) (sort_handle b)
  | c => c
  end.

Definition sort_key_eq (a b : SortKey) : bool :=
  (millis (timestamp a) =? millis (timestamp b)) && bool_decide (sort_handle a = sort_handle b).

(** ** Contents of the two kinds of cursor *)

Record CursorBoundary : Set := mk_boundary {
  boundary_key : SortKey;
  snapshot_epoch : Z;
  snapshot_expiry_ms : Z
}.

Record CursorContents : Set := mk_contents {
  cc_schema_version : Z;
  cc_resource_kind : string;
  cc_sort_key : SortKey;
  cc_tenant_filter_digest : string;
  cc_node_instance_epoch : Z;
  cc_boundary : CursorBoundary
}.

Record EventCursorContents : Set := mk_event_contents {
  ec_schema_version : Z;
  ec_media_node_id : string;
  ec_media_node_instance_epoch : Z;
  ec_last_delivered_sequence : Z;
  ec_tenant_filter_digest : string;
  ec_issued_at_ms : Z;
  ec_expires_at_ms : Z;
  ec_key_id : string
}.

Definition CURRENT_SCHEMA_VERSION : Z := 1.

Class CursorKind (C : Type) := {
  contents_version : C -> Z;
  contents_expiry : C -> Z;
  contents_epoch : C -> Z
}.

Definition cursor_kind : CursorKind CursorContents := {|
  contents_version := cc_schema_version;
  contents_expiry c := snapshot_expiry_ms (cc_boundary c);
  contents_epoch c := snapshot_epoch (cc_boundary c)
|}.

Definition event_cursor_kind : CursorKind EventCursorContents := {|
  contents_version := ec_schema_version;
  contents_expiry := ec_expires_at_ms;
  contents_epoch := ec_media_node_instance_epoch
|}.
#[export] Existing Instances cursor_kind event_cursor_kind.

Record SignedCursor (C : Type) : Type := mk_signed { contents : C; hmac_text : string }.
Arguments mk_signed {C} contents hmac_text.
Arguments contents {C} s.
Arguments hmac_text {C} s.

(** The standard alphabet of base64: it reads back and has no control characters. *)
Class Base64 := {
  b64_encode : list byte -> string;
  b64_decode : string -> option (list byte);
  b64_back : forall l, b64_decode (b64_encode l) = Some l;
  b64_clean : forall l, has_control_char (b64_encode l) = false
}.

(** ** The codec *)

Section codec.
Context {C : Type} {kind : CursorKind C} {json : Json C} {json_signed : Json (SignedCursor C)} {base64 : Base64}.
Variable hmac : list byte -> list byte -> option (list byte).

Definition to_vec {A} `{!Json A} (a : A) : option (list byte) := String.list_byte_of_string <$> to_json a.
Definition from_slice {A} `{!Json A} (l : list byte) : option A := from_json (String.string_of_list_byte l).

Definition sign (payload key : list byte) : result MediaError (list byte) :=
  ok_or (hmac key payload) invalid_argument.

Definition encode (c : C) (key : list byte) : result MediaError string :=
  if (length key <? 32)%nat then Err invalid_argument
  else
    payload_bytes <-? ok_or (to_vec c) invalid_argument ;;
    mac <-? sign payload_bytes key ;;
    let signed := mk_signed c (b64_encode mac) in
    token_bytes <-? ok_or (to_vec signed) invalid_argument ;;
    opaque_cursor_new (b64_encode token_bytes).

Definition decode (cursor : string) (key : list byte) (now_ms current_epoch : Z) : result MediaError C :=
  if (length key <? 32)%nat then Err invalid_argument
  else
    token_bytes <-? ok_or (b64_decode cursor) cursor_expired ;;
    signed <-? ok_or (from_slice (A := SignedCursor C) token_bytes) cursor_expired ;;
    let c := contents signed in
    if negb (contents_version c =? CURRENT_SCHEMA_VERSION) then Err cursor_expired
    else if (0 <? contents_expiry c) && (contents_expiry c <? now_ms) then Err cursor_expired
    else if negb (contents_epoch c =? current_epoch) then Err cursor_expired
    else
      payload_bytes <-? ok_or (to_vec c) cursor_expired ;;
      expected <-? sign payload_bytes key ;;
      actual <-? ok_or (b64_decode (hmac_text signed)) cursor_expired ;;
      if negb (length expected =? length actual)%nat then Err cursor_expired
      else if negb (bool_decide (expected = actual)) then Err cursor_expired
      else Ok c.

(** ** What the codec guarantees *)

(** What [decode] asks of the contents, whatever the signature. *)
Definition in_date (c : C) (now current_epoch : Z) : Prop :=
  contents_version c = CURRENT_SCHEMA_VERSION /\ (0 < contents_expiry c -> now <= contents_expiry c) /\
  contents_epoch c = current_epoch.

#[export] Instance in_date_dec c now current_epoch : Decision (in_date c now current_epoch).
Proof. unfold in_date. apply _. Defined.

(** The signature of the contents under the key. *)
Definition mac_of (c : C) (key : list byte) : option (list byte) :=
  payload ← to_vec c; hmac key payload.

Lemma to_vec_back {A} `{!Json A} (a : A) l : to_vec a = Some l -> from_slice l = Some a.
Proof.
  unfold to_vec, from_slice. destruct (to_json a) as [s|] eqn:E; [|done]. cbn. intros [= <-].
  rewrite String.string_of_list_byte_of_string. by apply json_back.
Qed.

Lemma ok_or_ok {E A} (o : option A) (e : E) a : ok_or o e = Ok a -> o = Some a.
Proof. destruct o; [|done]. by intros [= ->]. Qed.

Lemma opaque_cursor_new_same v t : opaque_cursor_new v = Ok t -> t = v.
Proof. unfold opaque_cursor_new. intros H. by repeat case_match; simplify_eq. Qed.

(** A token that [encode] gives out is the base64 of its contents with their signature. *)
Lemma encode_ok c key t :
  encode c key = Ok t ->
  (32 <= length key)%nat /\
  exists mac signed, mac_of c key = Some mac /\ to_vec (mk_signed c (b64_encode mac)) = Some signed /\
                     t = b64_encode signed.
Proof.
  unfold encode. destruct (length key <? 32)%nat eqn:L; [done|]. apply Nat.ltb_ge in L.
  intros (payload & P%ok_or_ok & (mac & M%ok_or_ok & (signed & S%ok_or_ok & N)%result_bind_ok)%result_bind_ok)%result_bind_ok.
  split; [done|]. exists mac, signed. unfold mac_of. rewrite P. split_and!; [done..|].
  by apply opaque_cursor_new_same.
Qed.

(** The checks of [decode] on the contents pass exactly when they are in date. *)
Lemma decode_token c mac signed key now current_epoch text :
  (32 <= length key)%nat -> to_vec (mk_signed c text) = Some signed -> b64_decode text = Some mac ->
  decode (b64_encode signed) key now current_epoch =
  if decide (in_date c now current_epoch) then
    payload <-? ok_or (to_vec c) cursor_expired ;;
    expected <-? sign payload key ;;
    if negb (bool_decide (expected = mac)) then Err cursor_expired else Ok c
  else Err cursor_expired.
Proof.
  intros L S B. unfold decode. rewrite (proj2 (Nat.ltb_ge _ _)) by done. rewrite b64_back. cbn [ok_or result_bind].
  rewrite (to_vec_back _ _ S). cbn [ok_or result_bind contents hmac_text]. rewrite B. cbn [ok_or result_bind].
  assert ((contents_version c =? CURRENT_SCHEMA_VERSION)
          && negb ((0 <? contents_expiry c) && (contents_expiry c <? now))
          && (contents_epoch c =? current_epoch) = bool_decide (in_date c now current_epoch)) as E.
  { apply eq_bool_prop_intro. rewrite bool_decide_spec. unfold in_date.
    destruct (Z.eqb_spec (contents_version c) CURRENT_SCHEMA_VERSION), (Z.ltb_spec 0 (contents_expiry c)),
      (Z.ltb_spec (contents_expiry c) now), (Z.eqb_spec (contents_epoch c) current_epoch); cbn; intuition lia. }
  destruct (decide (in_date c now current_epoch)) as [D|D].
  - rewrite (bool_decide_true _ D) in E. apply andb_true_iff in E as [[-> E%negb_true_iff]%andb_true_iff ->].
    rewrite E. cbn [negb]. destruct (to_vec c) as [payload|]; [|done]. cbn. destruct (sign payload key) as [x|]; [|done].
    cbn. destruct (bool_decide_reflect (x = mac)) as [->|Ne]; [by rewrite Nat.eqb_refl|].
    by destruct (length x =? length mac)%nat.
  - rewrite (bool_decide_false _ D) in E. destruct (_ =? _); [|done]. cbn [negb andb] in *.
    destruct ((0 <? _) && _); [done|]. cbn [negb andb] in E. by rewrite E.
Qed.

(** A token is read back, in date, with the key it was signed with; with another key it is
    refused unless the two keys give the contents one signature. *)
Lemma decode_encode_key c key key' t now current_epoch :
  encode c key = Ok t -> (32 <= length key')%nat -> (forall payload, is_Some (hmac key' payload)) ->
  decode t key' now current_epoch =
  if decide (in_date c now current_epoch /\ mac_of c key' = mac_of c key) then Ok c else Err cursor_expired.
Proof.
  intros (_ & mac & signed & M & S & ->)%encode_ok L Total.
  rewrite (decode_token _ mac _ _ _ _ _ L S (b64_back mac)). unfold mac_of in *.
  destruct (to_vec c) as [payload|]; [|done]. cbn in *. unfold sign. destruct (Total payload) as [mac' E].
  rewrite E, M. cbn. case_decide as D; case_decide as D'; try tauto.
  - rewrite bool_decide_true; [done|]. destruct D' as [_ [=]]. done.
  - rewrite bool_decide_false; [done|]. intros ->. by apply D'.
Qed.

(** Nothing else is read from a token. *)
Lemma decode_encode c c' key key' t now current_epoch :
  encode c key = Ok t -> decode t key' now current_epoch = Ok c' -> c' = c.
Proof.
  intros (_ & mac & signed & M & S & ->)%encode_ok D.
  destruct (length key' <? 32)%nat eqn:L; [unfold decode in D; by rewrite L in D|]. apply Nat.ltb_ge in L.
  rewrite (decode_token _ mac _ _ _ _ _ L S (b64_back mac)) in D. case_decide; [|done].
  destruct (to_vec c); [|done]. cbn in D. destruct (sign _ _); [|done]. cbn in D.
  destruct (bool_decide _); [|done]. cbn in D. by injection D.
Qed.

(** What is accepted carries the signature of its contents. *)
Lemma decode_signed cursor key now current_epoch c :
  decode cursor key now current_epoch = Ok c ->
  in_date c now current_epoch /\
  exists token signed mac, b64_decode cursor = Some token /\ from_slice token = Some signed /\
    contents signed = c /\ mac_of c key = Some mac /\ b64_decode (hmac_text signed) = Some mac.
Proof.
  unfold decode. destruct (_ <? _)%nat; [done|].
  intros (token & T%ok_or_ok & (signed & S%ok_or_ok & R)%result_bind_ok)%result_bind_ok.
  destruct (Z.eqb_spec (contents_version (contents signed)) CURRENT_SCHEMA_VERSION) as [V|]; [|done].
  destruct ((0 <? _) && _) eqn:D in R; [done|]. destruct (Z.eqb_spec (contents_epoch (contents signed)) current_epoch); [|done].
  cbn [negb] in R.
  apply result_bind_ok in R as (payload & P%ok_or_ok & (x & X%ok_or_ok & (mac & M%ok_or_ok & R)%result_bind_ok)%result_bind_ok).
  destruct (_ =? _)%nat; [|done]. destruct (bool_decide_reflect (x = mac)) as [->|]; [|done]. cbn in R.
  injection R as <-. split.
  - split_and!; [done| |done]. lia.
  - exists token, signed, mac. unfold mac_of. by rewrite P.
Qed.
End codec.

(** The codecs of the source. *)
Definition cursor_encode `{!Json CursorContents} `{!Json (SignedCursor CursorContents)} `{!Base64} :=
  encode (C := CursorContents).
Definition cursor_decode `{!Json CursorContents} `{!Json (SignedCursor CursorContents)} `{!Base64} :=
  decode (C := CursorContents).
Definition event_cursor_encode `{!Json EventCursorContents} `{!Json (SignedCursor EventCursorContents)} `{!Base64} :=
  encode (C := EventCursorContents).
Definition event_cursor_decode `{!Json EventCursorContents} `{!Json (SignedCursor EventCursorContents)} `{!Base64} :=
  decode (C := EventCursorContents).

(** ** [ResourceFilter] *)

Record ResourceFilter : Set := mk_filter {
  filter_tenant : string;
  filter_session : option string;
  filter_binding : option string;
  filter_handle : option string;
  filter_media_key : option MediaKey;
  filter_idempotency_key : option string;
  filter_state : option ResourceState;
  non_terminal : bool;
  filter_owner_epoch : option Z;
  filter_node_epoch : option Z;
  updated_before_ms : option Z;
  updated_after_ms : option Z
}.

Definition filter_validate (f : ResourceFilter) : result MediaError unit :=
  if bool_decide (filter_tenant f = "") then Err invalid_argument
  else if match updated_after_ms f, updated_before_ms f with
          | Some after, Some before => before <=? after
          | _, _ => false
          end then Err invalid_argument
  else if match filter_state f with
          | Some state => non_terminal f && is_terminal state
          | None => false
          end then Err (error_new InvalidArgument)
  else Ok tt.

(** [unwrap_or_else(|_| String::new())] *)
Definition filter_digest `{!Json ResourceFilter} (sha256 : list byte -> list byte) (f : ResourceFilter) : string :=
  let json := match to_json f with Some s => s | None => "" end in
  to_hex (sha256 (String.list_byte_of_string json)).

(** ** Instances, for examples

    Values of a list are written as their position; hex stands in for base64. *)

Fixpoint unary (n : nat) : string :=
  match n with O => "" | S n => String "1" (unary n) end.

Lemma unary_length n : String.length (unary n) = n.
Proof. induction n as [|n IH]; [done|]. cbn. by rewrite IH. Qed.

Definition json_of_list {A} `{EqDecision A} (l : list A) : Json A.
Proof.
  refine {| json_serde := {| to_json a := (fun p => unary (S p.1)) <$> list_find (fun b => a = b) l;
                             from_json s := l !! pred (String.length s) |} |}.
  intros a s. cbn. destruct (list_find _ l) as [[i b]|] eqn:E; [|done]. cbn. intros [= <-].
  apply list_find_Some in E as (L & -> & _). cbn [fst unary String.length pred]. by rewrite unary_length.
Defined.

Lemma to_hex_clean l : has_control_char (to_hex l) = false.
Proof. induction l as [|[] l IH]; [done|..]; cbn -[has_control_char] in *; cbn; exact IH. Qed.

Definition base64_by_hex : Base64 :=
  {| b64_encode := to_hex; b64_decode := hex_chunks; b64_back := hex_chunks_to_hex; b64_clean := to_hex_clean |}.

#[export] Instance EventCursorContents_eq_dec : EqDecision EventCursorContents.
Proof. solve_decision. Defined.
#[export] Instance SignedCursor_eq_dec {C} `{EqDecision C} : EqDecision (SignedCursor C).
Proof. solve_decision. Defined.
#[export] Instance SortTimestamp_eq_dec : EqDecision SortTimestamp.
Proof. solve_decision. Defined.
#[export] Instance SortKey_eq_dec : EqDecision SortKey.
Proof. solve_decision. Defined.
#[export] Instance CursorBoundary_eq_dec : EqDecision CursorBoundary.
Proof. solve_decision. Defined.
#[export] Instance CursorContents_eq_dec : EqDecision CursorContents.
Proof. solve_decision. Defined.
#[export] Instance ResourceFilter_eq_dec : EqDecision ResourceFilter.
Proof. solve_decision. Defined.
