(* ===== verification/EventJournal.v ===== *)
(** * The event journal

    Models [crates/system/cheetah-media-control-plane/src/event_store.rs]: the table of
    events, its queries and its retention. A row is kept as it is stored, under its primary
    key, the epoch of the node instance and the sequence number as the [i64] they are cast
    to. Every call is one step, since it holds the lock of the connection; the clock is an
    argument. A failing database changes nothing and is left out, except that an insert
    under a key that is taken fails, as SQL says. *)
From stdpp Require Import strings sorting.
From S2P Require Import Prelude MediaKeys ControlIds ControlPlane.
Local Open Scope Z_scope.

Record EventRecord : Set := mk_event {
  event_id : string;
  event_epoch : Z;
  sequence : Z;
  event_tenant : string;
  event_resource_kind : option string;
  event_resource_handle : option string;
  occurred_at : Z;
  event_kind : string;
  serialized_payload : string;
  correlation_id : option string;
  traceparent : option string;
  tracestate : option string;
  expires_at : Z
}.

Record RowEvent : Set := mk_row_event {
  re_event_id : string;
  re_tenant : string;
  re_kind : option string;
  re_handle : option string;
  re_occurred_at : Z;
  re_event_kind : string;
  re_payload : string;
  re_correlation : option string;
  re_traceparent : option string;
  re_tracestate : option string;
  re_expires_at : Z
}.

Abbreviation journal := (gmap (Z * Z) RowEvent).

Definition event_row (r : EventRecord) : RowEvent :=
  mk_row_event (event_id r) (event_tenant r) (event_resource_kind r) (event_resource_handle r)
    (occurred_at r) (event_kind r) (serialized_payload r) (correlation_id r) (traceparent r)
    (tracestate r) (expires_at r).
Definition event_key (r : EventRecord) : Z * Z := (as_i64 (event_epoch r), as_i64 (sequence r)).

Definition row_into_event (row : (Z * Z) * RowEvent) : result ControlPlaneError EventRecord :=
  let r := row.2 in
  id <-? ok_or (result_ok (string_id_new (re_event_id r))) Serialization ;;
  tenant <-? ok_or (result_ok (string_id_new (re_tenant r))) Serialization ;;
  Ok (mk_event id (as_u64 row.1.1) (as_u64 row.1.2) tenant (re_kind r) (re_handle r)
        (re_occurred_at r) (re_event_kind r) (re_payload r) (re_correlation r) (re_traceparent r)
        (re_tracestate r) (re_expires_at r)).

Definition append (r : EventRecord) : SE journal ControlPlaneError unit := fun t =>
  match t !! event_key r with
  | Some _ => (t, Err Db)
  | None => (<[event_key r := event_row r]> t, Ok tt)
  end.

Definition get_by_sequence (epoch sequence : Z) (t : journal) : result ControlPlaneError (option EventRecord) :=
  match t !! (as_i64 epoch, as_i64 sequence) with
  | None => Ok None
  | Some r => result_map Some (row_into_event ((as_i64 epoch, as_i64 sequence), r))
  end.

(** [instance_epoch > ?2 OR (instance_epoch = ?3 AND sequence > ?4)] *)
Definition after (epoch start : Z) (key : Z * Z) : bool :=
  (epoch <? key.1) || ((key.1 =? epoch) && (start <? key.2)).

(** [ORDER BY instance_epoch ASC, sequence ASC] as one number: the columns are [i64]. *)
Definition key_order (key : Z * Z) : Z := key.1 * 2 ^ 64 + key.2.

(** [expires_at = 0 OR expires_at > ?] *)
Definition not_expired (now : Z) (r : RowEvent) : bool :=
  (re_expires_at r =? 0) || (now <? re_expires_at r).

Section queries.
Context `{!OrderBy}.

Definition select_events (p : (Z * Z) * RowEvent -> bool) (limit : Z) (t : journal) :
    result ControlPlaneError (list EventRecord) :=
  read_rows row_into_event
    (take (Z.to_nat limit) (order_by (fun row => key_order row.1) (filter p (map_to_list t)))).

Definition list_by_tenant (tenant : string) (epoch start limit : Z) (t : journal) :
    result ControlPlaneError (list EventRecord) :=
  select_events (fun row => bool_decide (re_tenant row.2 = tenant)
                            && after (as_i64 epoch) (as_i64 start) row.1) limit t.

Definition list_by_resource (tenant kind handle : string) (epoch start limit : Z) (t : journal) :
    result ControlPlaneError (list EventRecord) :=
  select_events (fun row => bool_decide (re_tenant row.2 = tenant /\ re_kind row.2 = Some kind /\
                                         re_handle row.2 = Some handle)
                            && after (as_i64 epoch) (as_i64 start) row.1) limit t.

Definition list_after_sequence (now epoch start limit : Z) (t : journal) :
    result ControlPlaneError (list EventRecord) :=
  read_rows row_into_event
    (take (Z.to_nat limit)
       (order_by (fun row => row.1.2)
          (filter (fun row => (row.1.1 =? as_i64 epoch) && (as_i64 start <? row.1.2) && not_expired now row.2)
             (map_to_list t)))).

(** The sequence numbers of an epoch. *)
Definition sequences (epoch : Z) (p : RowEvent -> bool) (t : journal) : list Z :=
  (fun row => row.1.2) <$> filter (fun row => (row.1.1 =? as_i64 epoch) && p row.2) (map_to_list t).

(** [COALESCE(MAX(sequence), 0) + 1]; the sum of [i64] is SQL's. *)
Definition next_sequence (epoch : Z) (t : journal) : Z :=
  as_u64 (match sequences epoch (fun _ => true) t with
          | [] => 0
          | x :: l => foldr Z.max x l
          end + 1).

(** [MIN(sequence)] *)
Definition first_available_sequence (epoch now : Z) (t : journal) : option Z :=
  match sequences epoch (not_expired now) t with
  | [] => None
  | x :: l => Some (as_u64 (foldr Z.min x l))
  end.

(** The rows to delete: [ORDER BY expires_at ASC, instance_epoch ASC, sequence ASC] as one
    number. *)
Definition purge_order (row : (Z * Z) * RowEvent) : Z := re_expires_at row.2 * 2 ^ 128 + key_order row.1.

Definition purge_expired (now max_rows : Z) (t : journal) : journal * Z :=
  let rows := take (Z.to_nat max_rows)
                (order_by purge_order
                   (filter (fun row => (0 <? re_expires_at row.2) && (re_expires_at row.2 <=? now))
                      (map_to_list t))) in
  (foldr (fun row t => delete row.1 t) t rows, Z.of_nat (length rows)).

(** ** Well-formed journals *)

Definition row_event_wf (key : Z * Z) (r : RowEvent) : Prop :=
  in_i 64 key.1 /\ in_u 63 key.2 /\ string_id (re_event_id r) /\ string_id (re_tenant r).
Definition journal_wf (t : journal) : Prop := map_Forall row_event_wf t.

(** Sequence numbers stay in the positive half of [i64]. *)
Definition event_wf (r : EventRecord) : Prop :=
  in_u 64 (event_epoch r) /\ in_u 63 (sequence r) /\ string_id (event_id r) /\ string_id (event_tenant r).

(** The event that a row holds. *)
Definition event_of (key : Z * Z) (r : RowEvent) : EventRecord :=
  mk_event (re_event_id r) (as_u64 key.1) (as_u64 key.2) (re_tenant r) (re_kind r) (re_handle r)
    (re_occurred_at r) (re_event_kind r) (re_payload r) (re_correlation r) (re_traceparent r)
    (re_tracestate r) (re_expires_at r).

Lemma row_into_event_ok key r : row_event_wf key r -> row_into_event (key, r) = Ok (event_of key r).
Proof.
  intros (_ & _ & I & T). unfold row_into_event, string_id in *. cbn [fst snd]. rewrite I. cbn. by rewrite T.
Qed.

Lemma event_of_row r :
  in_u 64 (event_epoch r) -> in_u 64 (sequence r) -> event_of (event_key r) (event_row r) = r.
Proof. intros E S. unfold event_of, event_key. cbn. rewrite !as_u64_i64 by done. by destruct r. Qed.

Lemma as_i64_small z : in_u 63 z -> as_i64 z = z.
Proof. intros B. apply wrap_i_small; [done|]. unfold in_u, in_i in *. change (64 - 1) with 63. lia. Qed.

Lemma event_wf_row r : event_wf r -> row_event_wf (event_key r) (event_row r).
Proof.
  intros (E & S & I & T). split_and!; [by apply wrap_i_range| |done|done]. cbn. by rewrite as_i64_small.
Qed.

Lemma event_of_wf key row : row_event_wf key row -> event_wf (event_of key row).
Proof.
  intros (E & S & I & T). split_and!; cbn; [by apply wrap_u_range| |done|done].
  unfold as_u64. rewrite wrap_u_small; [done|]. unfold in_u in *. lia.
Qed.

(** The event [r] is in the journal. *)
Definition stored (t : journal) (r : EventRecord) : Prop := event_wf r /\ t !! event_key r = Some (event_row r).

Lemma row_stored t key row :
  journal_wf t -> t !! key = Some row -> stored t (event_of key row) /\ event_key (event_of key row) = key.
Proof.
  intros W L. pose proof (W _ _ L) as Wr. assert (event_key (event_of key row) = key) as K.
  { destruct key as [e n], Wr as (E & S & _). unfold event_key. cbn in *. rewrite as_i64_u64 by done. f_equal.
    unfold as_u64. rewrite wrap_u_small by (unfold in_u in *; lia). by apply as_i64_small. }
  split; [|done]. split; [by apply event_of_wf|]. rewrite K, L. by destruct row.
Qed.

Lemma append_wf r t : journal_wf t -> event_wf r -> journal_wf (append r t).1.
Proof.
  intros W Wr. unfold append. destruct (t !! event_key r); [done|]. cbn.
  apply map_Forall_insert_2; [by apply event_wf_row|done].
Qed.

Lemma purge_wf now max_rows t : journal_wf t -> journal_wf (purge_expired now max_rows t).1.
Proof.
  intros W. cbn. induction (take _ _) as [|row rows IH]; [done|]. cbn. by apply map_Forall_delete.
Qed.

Lemma foldr_delete_lookup (rows : list ((Z * Z) * RowEvent)) (t : journal) key :
  foldr (fun row t => delete row.1 t) t rows !! key =
  if decide (key ∈ rows.*1) then None else t !! key.
Proof.
  induction rows as [|row rows IH]; [done|]. cbn [foldr fmap list_fmap].
  destruct (decide (row.1 = key)) as [->|Ne].
  - rewrite lookup_delete_eq. rewrite decide_True; [done|]. by left.
  - rewrite lookup_delete_ne, IH by done. apply decide_ext. rewrite elem_of_cons. naive_solver.
Qed.

(** A purge takes only rows whose retention is over. *)
Lemma purge_lookup (now max_rows : Z) (t : journal) key row :
  t !! key = Some row ->
  (purge_expired now max_rows t).1 !! key = Some row \/ 0 < re_expires_at row <= now.
Proof.
  intros L. cbn. rewrite foldr_delete_lookup. case_decide as D; [|by left]. right.
  apply list_elem_of_fmap in D as ([key' row'] & E & I). cbn in E. subst key'.
  apply elem_of_take in I as (i & I & _). apply list_elem_of_lookup_2 in I. rewrite order_by_perm in I.
  apply list_elem_of_filter in I as [P L'%elem_of_map_to_list]. rewrite L in L'. injection L' as <-.
  cbn in P. apply Is_true_true, andb_true_iff in P. lia.
Qed.

Lemma purge_lookup_inv (now max_rows : Z) (t : journal) key row :
  (purge_expired now max_rows t).1 !! key = Some row -> t !! key = Some row.
Proof. cbn. rewrite foldr_delete_lookup. by case_decide. Qed.

(** ** What the queries that a stream asks answer *)

(** The retention of an event: it is gone at [now]. *)
Definition expired (now : Z) (r : EventRecord) : Prop := 0 <> expires_at r /\ expires_at r <= now.

#[export] Instance expired_dec now r : Decision (expired now r).
Proof. unfold expired. apply _. Defined.

Lemma not_expired_row now r : not_expired now (event_row r) = false <-> expired now r.
Proof. unfold not_expired, expired. cbn. rewrite orb_false_iff, Z.eqb_neq, Z.ltb_ge. intuition lia. Qed.

(** What a stream wants of a journal: the events of an epoch after [start] that are there at
    [now]. *)
Definition pending (now epoch start : Z) (t : journal) (r : EventRecord) : Prop :=
  stored t r /\ event_epoch r = epoch /\ start < sequence r /\ ~ expired now r.

Definition live_rows (now epoch start : Z) (t : journal) : list ((Z * Z) * RowEvent) :=
  filter (fun row => (row.1.1 =? as_i64 epoch) && (as_i64 start <? row.1.2) && not_expired now row.2)
    (map_to_list t).

Lemma elem_of_live_rows now epoch start t key row :
  journal_wf t -> in_u 64 epoch -> in_u 63 start ->
  (key, row) ∈ live_rows now epoch start t <->
  pending now epoch start t (event_of key row) /\ event_key (event_of key row) = key /\
  event_row (event_of key row) = row.
Proof.
  intros W E B. unfold live_rows. rewrite list_elem_of_filter, elem_of_map_to_list. cbn [fst snd].
  rewrite (as_i64_small start) by done. split.
  - intros [P L]. destruct (row_stored _ _ _ W L) as [S K]. pose proof (W _ _ L) as (Ee & Es & _).
    apply Is_true_true, andb_true_iff in P as [[P1 P2]%andb_true_iff P3].
    rewrite as_i64_eqb in P1 by done. split; [|split; [done|by destruct row]]. split_and!; [done|cbn; lia| |].
    + cbn. unfold as_u64. rewrite wrap_u_small by (unfold in_u in *; lia). lia.
    + intros X%not_expired_row. assert (event_row (event_of key row) = row) as R by by destruct row.
      rewrite R in X. by rewrite X in P3.
  - intros ([[Wr L] (Ee & Es & X)] & K & R). rewrite K, R in L. split; [|done].
    pose proof (W _ _ L) as (Be & Bs & _). cbn in Ee, Es. apply Is_true_true, andb_true_iff. split; [apply andb_true_iff; split|].
    + rewrite as_i64_eqb by done. lia.
    + unfold as_u64 in Es. rewrite wrap_u_small in Es by (unfold in_u in *; lia). lia.
    + apply not_false_iff_true. intros F. apply X, not_expired_row. by rewrite R.
Qed.

Lemma sorted_strict {A : Type} (f : A -> Z) l :
  StronglySorted (fun x y => f x <= f y) l -> NoDup (f <$> l) -> StronglySorted (fun x y => f x < f y) l.
Proof.
  induction l as [|x l IH]; [constructor|]. intros [S Hd]%StronglySorted_inv [N D]%NoDup_cons.
  constructor; [by apply IH|]. apply Forall_forall. intros y I.
  assert (f x <= f y) by exact (proj1 (Forall_forall _ _) Hd y I). cut (f x <> f y); [lia|].
  intros E. apply N. rewrite E. by apply list_elem_of_fmap_2.
Qed.

Lemma read_rows_map {A B : Type} (f : A -> result ControlPlaneError B) g l :
  (forall x, x ∈ l -> f x = Ok (g x)) -> read_rows f l = Ok (g <$> l).
Proof.
  induction l as [|x l IH]; [done|]. intros E. cbn. rewrite (E x) by by left. cbn. rewrite IH; [done|].
  intros y I. apply E. by right.
Qed.

(** A page of at most [limit] events: in order, those that come first. *)
Lemma list_after_sequence_ok now epoch start limit t :
  journal_wf t -> in_u 64 epoch -> in_u 63 start ->
  exists l, list_after_sequence now epoch start limit t = Ok l /\
    StronglySorted (fun x y => sequence x < sequence y) l /\ (length l <= Z.to_nat limit)%nat /\
    (forall r, r ∈ l -> pending now epoch start t r) /\
    (forall r, pending now epoch start t r ->
       r ∈ l \/ (length l = Z.to_nat limit /\ forall x, x ∈ l -> sequence x < sequence r)).
Proof.
  intros W E B. unfold list_after_sequence. fold (live_rows now epoch start t).
  set (rows := order_by _ _). set (g := fun row : (Z * Z) * RowEvent => event_of row.1 row.2).
  assert (forall row, row ∈ rows <-> row ∈ live_rows now epoch start t) as In.
  { intros row. unfold rows. by rewrite order_by_perm. }
  assert (forall r, pending now epoch start t r <-> r ∈ g <$> rows) as Pend.
  { intros r. rewrite list_elem_of_fmap. split.
    - intros P. exists (event_key r, event_row r). pose proof P as [[(We & Ws & Wr) _] _].
      assert (event_of (event_key r) (event_row r) = r) as K.
      { apply event_of_row; [done|]. unfold in_u in *. lia. }
      split; [done|]. apply In, elem_of_live_rows; [done..|]. rewrite K. by split_and!.
    - intros ([key row] & -> & (P & _)%In%elem_of_live_rows); done. }
  assert (StronglySorted (fun x y => sequence x < sequence y) (g <$> rows)) as Sorted.
  { apply sorted_strict.
    - apply (StronglySorted_Forall2 (fun row r => row ∈ rows /\ r = g row) (fun row => row.1.2) _ rows).
      + intros [key row] r [I ->]. apply In, elem_of_live_rows in I as (P & K & R); [|done..]. destruct P as [[_ L] _].
        rewrite K, R in L. apply W in L as (_ & Bs & _). cbn. unfold as_u64.
        rewrite wrap_u_small; [done|]. unfold in_u in *. lia.
      + apply Forall2_fmap_r, Forall_Forall2_diag, Forall_forall. done.
      + apply order_by_sorted.
    - assert (NoDup rows) as D.
      { unfold rows. rewrite order_by_perm. apply NoDup_filter, NoDup_map_to_list. }
      rewrite <- list_fmap_compose. apply NoDup_fmap_2_strong; [|done].
      intros [key row] [key' row'] I I' Es. apply In, elem_of_live_rows in I as (P & K & R); [|done..].
      apply In, elem_of_live_rows in I' as (P' & K' & R'); [|done..].
      assert (key = key') as <-.
      { rewrite <- K, <- K'. unfold event_key. f_equal; [|by f_equal]. f_equal. destruct P as (_ & -> & _), P' as (_ & -> & _). done. }
      f_equal. destruct P as [[_ L] _], P' as [[_ L'] _]. congruence. }
  exists (take (Z.to_nat limit) (g <$> rows)).
  assert (take (Z.to_nat limit) (g <$> rows) ++ drop (Z.to_nat limit) (g <$> rows) = g <$> rows) as App by apply take_drop.
  split_and!.
  - rewrite <- fmap_take. apply read_rows_map. intros [key row] I. apply row_into_event_ok.
    apply elem_of_take in I as (i & I & _). apply list_elem_of_lookup_2, In, elem_of_live_rows in I as (P & K & R); [|done..].
    destruct P as [[_ L] _]. rewrite K, R in L. by apply W in L.
  - apply (StronglySorted_app_1_l _ _ (drop (Z.to_nat limit) (g <$> rows))). by rewrite App.
  - rewrite length_take. lia.
  - intros r I. apply Pend. rewrite <- App. apply elem_of_app. by left.
  - intros r P%Pend. rewrite <- App in P, Sorted. apply elem_of_app in P as [P|P]; [by left|]. right. split.
    + rewrite length_take. apply list_elem_of_lookup_1 in P as [i P]. rewrite lookup_drop in P.
      apply lookup_lt_Some in P. lia.
    + intros x I. by apply (StronglySorted_app_1_elem_of _ _ _ _ _ Sorted I P).
Qed.

(** The first event that is there. *)
Definition live (now epoch : Z) (t : journal) (r : EventRecord) : Prop :=
  stored t r /\ event_epoch r = epoch /\ ~ expired now r.

Lemma elem_of_sequences now epoch t x :
  journal_wf t -> in_u 64 epoch ->
  x ∈ sequences epoch (not_expired now) t <-> exists r, live now epoch t r /\ sequence r = x.
Proof.
  intros W E. unfold sequences. rewrite list_elem_of_fmap. split.
  - intros ([key row] & -> & [P L%elem_of_map_to_list]%list_elem_of_filter). cbn [fst snd] in *.
    destruct (row_stored _ _ _ W L) as [S K]. pose proof (W _ _ L) as (Be & Bs & _).
    apply Is_true_true, andb_true_iff in P as [P1 P2]. rewrite as_i64_eqb in P1 by done.
    exists (event_of key row). split.
    + split_and!; [done|cbn; lia|]. intros X%not_expired_row.
      assert (event_row (event_of key row) = row) as R by by destruct row. rewrite R in X. by rewrite X in P2.
    + cbn. unfold as_u64. apply wrap_u_small. unfold in_u in *. lia.
  - intros (r & ([(We & Ws & Wr) L] & <- & X) & <-). exists (event_key r, event_row r). split.
    + cbn. symmetry. by apply as_i64_small.
    + rewrite list_elem_of_filter, elem_of_map_to_list. split; [|done]. cbn [fst snd].
      apply Is_true_true, andb_true_iff. split; [by apply Z.eqb_eq|].
      apply not_false_iff_true. intros F. by apply X, not_expired_row.
Qed.

Lemma foldr_min x l : foldr Z.min x l ∈ x :: l /\ forall y, y ∈ x :: l -> foldr Z.min x l <= y.
Proof.
  induction l as [|z l [I L]]; cbn.
  - split; [by left|]. intros y [->|[]%not_elem_of_nil]%elem_of_cons. done.
  - split.
    + destruct (Z.min_spec z (foldr Z.min x l)) as [[_ ->]|[_ ->]]; [set_solver|].
      apply elem_of_cons in I as [->|I]; set_solver.
    + intros y [->|[->|I']%elem_of_cons]%elem_of_cons; [|lia|].
      * assert (foldr Z.min x l <= x) by by apply L; left. lia.
      * assert (foldr Z.min x l <= y) by by apply L; right. lia.
Qed.

Lemma first_available_ok now epoch t :
  journal_wf t -> in_u 64 epoch ->
  match first_available_sequence epoch now t with
  | None => forall r, ~ live now epoch t r
  | Some x => in_u 63 x /\ (exists r, live now epoch t r /\ sequence r = x) /\
              forall r, live now epoch t r -> x <= sequence r
  end.
Proof.
  intros W E. unfold first_available_sequence. pose proof (fun x => elem_of_sequences now epoch t x W E) as In.
  destruct (sequences epoch (not_expired now) t) as [|y l].
  - intros r L. apply (not_elem_of_nil (sequence r)), In. by exists r.
  - destruct (foldr_min y l) as [I Min]. pose proof (proj1 (In _) I) as (r & L & Er).
    assert (in_u 63 (foldr Z.min y l)) as B. { rewrite <- Er. by destruct L as [[(_ & ? & _) _] _]. }
    unfold as_u64. rewrite wrap_u_small by (unfold in_u in *; lia). split_and!; [done|by exists r|].
    intros r' L'. apply Min, In. by exists r'.
Qed.
End queries.
