(* ===== verification/EventStream.v ===== *)
(** * The event stream of the control plane

    Models [crates/system/cheetah-media-control-plane/src/event_stream.rs]: a subscriber polls
    the journal page by page, each page with a signed cursor from which the next one resumes.

    A poll makes two calls of the journal and awaits each, so other calls come in between:
    [poll_begin] is what happens up to the first, [poll_page] the rest, and [poll] is the two
    one after the other. [now] is what the clock of the service says and [wall] what
    [now_ms()] says when the journal lists the page. The list of typed events of a response
    is always empty and is left out; the limits that are only kept are not read. *)
From Stdlib Require Import Strings.Byte.
From stdpp Require Import strings sorting.
From S2P Require Import Prelude MediaKeys ControlIds ControlPlane Idempotency Cursors EventJournal.
Local Open Scope string_scope.
Local Open Scope Z_scope.

Record SubscriberLimits : Set := mk_limits {
  queue_capacity : Z;
  max_batch : Z;
  max_bytes : Z;
  idle_deadline_ms : Z;
  max_subscribers : Z
}.

Definition default_subscriber_limits : SubscriberLimits := mk_limits 256 64 (1024 * 1024) 60000 128.

Record EventSubscribeRequest : Set := mk_subscribe {
  sub_tenant : string;
  sub_filter : ResourceFilter;
  resume_cursor : option string;
  sub_max_batch : Z;
  sub_max_bytes : Z
}.

Record EventGap : Set := mk_gap {
  requested_sequence : Z;
  first_available : Z;
  gap_epoch : Z;
  reconciliation_required : bool
}.

Record EventPollPage : Set := mk_page {
  records : list EventRecord;
  gap : option EventGap;
  next_cursor : string;
  response_cursor : option string
}.

Record EventStreamService : Set := mk_service {
  cursor_hmac_key : list byte;
  node_id : string;
  instance_epoch : Z;
  limits : SubscriberLimits;
  cursor_ttl_ms : Z
}.

Definition service_new (key : list byte) (node : string) (epoch : Z) :
    result ControlPlaneError EventStreamService :=
  if (length key <? 32)%nat then Err CpInvalidArgument
  else Ok (mk_service key node epoch default_subscriber_limits (24 * 60 * 60 * 1000)).

Definition with_limits (l : SubscriberLimits) (s : EventStreamService) : EventStreamService :=
  mk_service (cursor_hmac_key s) (node_id s) (instance_epoch s) l (cursor_ttl_ms s).

(** [map_err(ControlPlaneError::Media)] *)
Definition media {A} (r : result MediaError A) : result ControlPlaneError A :=
  match r with Ok a => Ok a | Err e => Err (Media e) end.

(** What [poll] has when it lists the page. *)
Record Poll : Set := mk_poll {
  poll_now : Z;
  poll_start : Z;
  poll_digest : string;
  poll_gap : option EventGap
}.

Section stream.
Context {json : Json EventCursorContents} {json_signed : Json (SignedCursor EventCursorContents)}
  {json_filter : Json ResourceFilter} {base64 : Base64} {order : OrderBy}.
Variables (hmac : list byte -> list byte -> option (list byte)) (sha256 : list byte -> list byte).

Definition decode_resume (s : EventStreamService) (request : EventSubscribeRequest) (now : Z) :
    result ControlPlaneError (Z * string) :=
  let digest := filter_digest sha256 (sub_filter request) in
  match resume_cursor request with
  | None => Ok (0, digest)
  | Some cursor =>
      contents <-? media (event_cursor_decode hmac cursor (cursor_hmac_key s) now (instance_epoch s)) ;;
      if negb (bool_decide (ec_media_node_id contents = node_id s)) then Err (Media (error_new StaleOwner))
      else if negb (bool_decide (ec_tenant_filter_digest contents = digest)) then Err CpInvalidArgument
      else Ok (ec_last_delivered_sequence contents, digest)
  end.

Definition cursor_contents (s : EventStreamService) (last : Z) (digest : string) (now : Z) : EventCursorContents :=
  mk_event_contents CURRENT_SCHEMA_VERSION (node_id s) (instance_epoch s) last digest now
    (sat_i 64 (now + cursor_ttl_ms s)) "k1".

Definition encode_cursor (s : EventStreamService) (last : Z) (digest : string) (now : Z) :
    result ControlPlaneError string :=
  media (event_cursor_encode hmac (cursor_contents s last digest now) (cursor_hmac_key s)).

(** The gap between the sequence that is expected next and the first one there is, and where
    to go on. *)
Definition detect_gap (epoch start : Z) (first : option Z) : option EventGap * Z :=
  match first with
  | None => (None, start)
  | Some first_seq =>
      let next_expected := sat_u 64 (start + 1) in
      if next_expected <? first_seq
      then (Some (mk_gap next_expected first_seq epoch true), sat_u 64 (first_seq - 1))
      else (None, start)
  end.

Definition poll_begin (s : EventStreamService) (request : EventSubscribeRequest) (now : Z) (t : journal) :
    result ControlPlaneError Poll :=
  _ <-? media (filter_validate (sub_filter request)) ;;
  if negb (bool_decide (sub_tenant request = filter_tenant (sub_filter request))) then Err CpInvalidArgument
  else
    resume <-? decode_resume s request now ;;
    let gs := detect_gap (instance_epoch s) resume.1 (first_available_sequence (instance_epoch s) now t) in
    Ok (mk_poll now gs.2 resume.2 gs.1).

(** [request.max_batch.min(self.limits.max_batch).max(1)] *)
Definition batch (s : EventStreamService) (request : EventSubscribeRequest) : Z :=
  Z.max (Z.min (sub_max_batch request) (max_batch (limits s))) 1.

(** What is retained of a page. *)
Definition selected (request : EventSubscribeRequest) (r : EventRecord) : bool :=
  bool_decide (event_tenant r = sub_tenant request)
  && match filter_handle (sub_filter request) with
     | Some handle => bool_decide (event_resource_handle r = Some handle)
     | None => true
     end.

Definition last_sequence (start : Z) (l : list EventRecord) : Z :=
  match last l with Some r => sequence r | None => start end.

Definition poll_page (s : EventStreamService) (request : EventSubscribeRequest) (p : Poll) (wall : Z) (t : journal) :
    result ControlPlaneError EventPollPage :=
  listed <-? list_after_sequence wall (instance_epoch s) (poll_start p) (batch s request) t ;;
  let records := filter (selected request) listed in
  next <-? encode_cursor s (last_sequence (poll_start p) records) (poll_digest p) (poll_now p) ;;
  Ok (mk_page records (poll_gap p) next (Some next)).

Definition poll (s : EventStreamService) (request : EventSubscribeRequest) (now wall : Z) (t : journal) :
    result ControlPlaneError EventPollPage :=
  p <-? poll_begin s request now t ;; poll_page s request p wall t.

(** [EventStreamService::purge_expired] *)
Definition stream_purge_expired (now max_rows : Z) (t : journal) : journal * Z := purge_expired now max_rows t.

(** ** A subscriber among the writers of the journal

    The events ever written are remembered, and the latest time that anyone read. *)

Record world : Set := mk_world {
  jrn : journal;
  history : list EventRecord;
  clock : Z;
  cursor : option string;
  delivered : list EventRecord;
  polling : option Poll
}.

Definition start_world : world := mk_world ∅ [] 0 None [] None.

Variables (s : EventStreamService) (f : ResourceFilter).

(** The requests of the subscriber differ in their limits only. *)
Definition request (cursor : option string) (max_batch max_bytes : Z) : EventSubscribeRequest :=
  mk_subscribe (filter_tenant f) f cursor max_batch max_bytes.

(** A writer may append whatever the journal takes, a purge may come at any time, and a poll
    may fail half way. *)
Inductive step : world -> world -> Prop :=
| Appended w r t : event_wf r -> append r (jrn w) = (t, Ok tt) ->
    step w (mk_world t (r :: history w) (clock w) (cursor w) (delivered w) (polling w))
| Purged w now max_rows :
    step w (mk_world (stream_purge_expired now max_rows (jrn w)).1 (history w) (Z.max (clock w) now)
              (cursor w) (delivered w) (polling w))
| Asked w batch bytes now p : polling w = None ->
    poll_begin s (request (cursor w) batch bytes) now (jrn w) = Ok p ->
    step w (mk_world (jrn w) (history w) (Z.max (clock w) now) (cursor w) (delivered w) (Some p))
| Answered w batch bytes p wall page : polling w = Some p ->
    poll_page s (request (cursor w) batch bytes) p wall (jrn w) = Ok page ->
    step w (mk_world (jrn w) (history w) (Z.max (clock w) wall) (Some (next_cursor page))
              (delivered w ++ records page) None)
| Dropped w :
    step w (mk_world (jrn w) (history w) (clock w) (cursor w) (delivered w) None).

(** [r] was written in turn: with a number beyond those of all events of its epoch that were
    written before. ([next_sequence] gives such a number while the last of them is still in
    the journal, but not after a purge of all of them: see [numbers_start_over].) *)
Fixpoint in_turn (history : list EventRecord) (r : EventRecord) : Prop :=
  match history with
  | [] => False
  | h :: older =>
      (h = r /\ 0 < sequence r /\
       forall x, x ∈ older -> event_epoch x = event_epoch r -> sequence x < sequence r) \/
      in_turn older r
  end.

(** The filter names a tenant, and at most a resource. *)
Definition names_only : Prop :=
  f = mk_filter (filter_tenant f) None None (filter_handle f) None None None false None None None None.

(** The position that a cursor stands for. *)
Definition at_position (c : option string) (n : Z) : Prop :=
  match c with
  | None => n = 0
  | Some c => exists now, encode_cursor s n (filter_digest sha256 f) now = Ok c
  end.

(** What such a filter asks for. *)
Definition wanted (r : EventRecord) : Prop :=
  event_epoch r = instance_epoch s /\ event_tenant r = filter_tenant f /\
  (forall handle, filter_handle f = Some handle -> event_resource_handle r = Some handle).

(** ** Every event once, in order *)

(** All that was written in turn up to [n] was delivered, unless its retention is over. *)
Definition covered (w : world) (n : Z) : Prop :=
  in_u 63 n /\ (n = 0 \/ exists h, h ∈ history w /\ event_epoch h = instance_epoch s /\ n <= sequence h) /\
  forall r, in_turn (history w) r -> wanted r -> sequence r <= n -> r ∈ delivered w \/ expired (clock w) r.

Lemma in_turn_in l r : in_turn l r -> r ∈ l.
Proof using Type. induction l as [|h l IH]; cbn; [done|]. intros [(-> & _)|H]; [left|right; auto]. Qed.

Definition history_kept (w : world) : Prop :=
  journal_wf (jrn w) /\ (forall r, stored (jrn w) r -> r ∈ history w) /\
  forall r, r ∈ history w -> event_wf r /\ (stored (jrn w) r \/ expired (clock w) r).

Definition delivered_to (w : world) (n : Z) : Prop :=
  StronglySorted (fun x y => sequence x < sequence y) (delivered w) /\
  forall r, r ∈ delivered w -> r ∈ history w /\ wanted r /\ sequence r <= n.

Definition world_ok (w : world) : Prop :=
  history_kept w /\
  exists n, at_position (cursor w) n /\ delivered_to w n /\ covered w n /\
    match polling w with
    | None => True
    | Some p => n <= poll_start p /\ covered w (poll_start p) /\ poll_digest p = filter_digest sha256 f
    end.

Lemma expired_mono now now' r : expired now r -> now <= now' -> expired now' r.
Proof. intros [N L] ?. split; [done|lia]. Qed.

Lemma stored_key t r r' : stored t r -> stored t r' -> event_key r = event_key r' -> r = r'.
Proof.
  intros [(E & S & _) L] [(E' & S' & _) L'] K. rewrite K in L. assert (event_row r = event_row r') as R by congruence.
  rewrite <- (event_of_row r), <- (event_of_row r'), K, R; try done; unfold in_u in *; lia.
Qed.

(** A later world with the same deliveries. *)
Lemma covered_later w w' n :
  covered w n -> delivered w' = delivered w -> clock w <= clock w' ->
  (forall r, r ∈ history w -> r ∈ history w') ->
  (forall r, in_turn (history w') r -> in_turn (history w) r \/ (event_epoch r = instance_epoch s -> n < sequence r)) ->
  covered w' n.
Proof.
  intros (B & A & C) Ed Ec Sub New. split; [done|]. split.
  - destruct A as [A|(h & I & A)]; [by left|]. right. exists h. split; [by apply Sub|done].
  - intros r I Wr L. rewrite Ed. destruct (New _ I) as [I'|Nr].
    + destruct (C _ I' Wr L) as [?|X]; [by left|]. right. by eapply expired_mono.
    + destruct Wr as [Er _]. specialize (Nr Er). lia.
Qed.

Lemma delivered_later w w' n :
  delivered_to w n -> delivered w' = delivered w -> (forall r, r ∈ history w -> r ∈ history w') -> delivered_to w' n.
Proof.
  intros [So D] Ed Sub. unfold delivered_to. rewrite Ed. split; [done|]. intros r I.
  destruct (D _ I) as (H & ?). split; [by apply Sub|done].
Qed.

(** What one delivers next. *)
Lemma world_ok_later w w' :
  world_ok w -> history_kept w' -> cursor w' = cursor w -> delivered w' = delivered w ->
  polling w' = polling w -> clock w <= clock w' -> (forall r, r ∈ history w -> r ∈ history w') ->
  (forall n r, covered w n -> in_turn (history w') r ->
     in_turn (history w) r \/ (event_epoch r = instance_epoch s -> n < sequence r)) ->
  world_ok w'.
Proof.
  intros (_ & n & At & D & C & P) K Ec Ed Ep Et Sub New. split; [done|]. exists n. rewrite Ec, Ep. split_and!; [done| | |].
  - by eapply delivered_later.
  - eapply covered_later; [done..|]. intros r. by apply New.
  - destruct (polling w) as [p|]; [|done]. destruct P as (L & Cp & Dg). split_and!; [done| |done].
    eapply covered_later; [done..|]. intros r. by apply New.
Qed.

Lemma appended_ok w r t :
  world_ok w -> event_wf r -> append r (jrn w) = (t, Ok tt) ->
  world_ok (mk_world t (r :: history w) (clock w) (cursor w) (delivered w) (polling w)).
Proof.
  intros Ok Wr A. pose proof Ok as [(W & In & Kept) _].
  assert (jrn w !! event_key r = None /\ t = <[event_key r := event_row r]> (jrn w)) as [Fresh ->].
  { unfold append in A. by destruct (jrn w !! event_key r); simplify_eq. }
  assert (stored (<[event_key r := event_row r]> (jrn w)) r) as Sr.
  { split; [done|]. by rewrite lookup_insert_eq. }
  apply (world_ok_later w); cbn; try done.
  - split_and!; cbn.
    + pose proof (append_wf r (jrn w) W Wr) as Wa. by rewrite A in Wa.
    + intros x Sx. destruct (decide (event_key x = event_key r)) as [K|K].
      * rewrite (stored_key _ _ _ Sx Sr K). by left.
      * right. apply In. destruct Sx as [Wx L]. rewrite lookup_insert_ne in L by done. done.
    + intros x [->|I]%elem_of_cons; [by split; [|left]|]. destruct (Kept _ I) as [Wx [[_ L]|X]]; [|by split; [|right]].
      split; [done|]. left. split; [done|]. rewrite lookup_insert_ne; [done|]. intros K. by rewrite K, L in Fresh.
  - intros x I. by right.
  - intros n x (B & At & _) [(<- & Pos & Up)|I]; [right|by left]. intros E.
    destruct At as [->|(h & I & Eh & L)]; [done|]. specialize (Up _ I (eq_trans Eh (eq_sym E))). lia.
Qed.

Lemma purged_ok w now max_rows :
  world_ok w ->
  world_ok (mk_world (purge_expired now max_rows (jrn w)).1 (history w) (Z.max (clock w) now)
              (cursor w) (delivered w) (polling w)).
Proof.
  intros Ok. pose proof Ok as [(W & In & Kept) _].
  apply (world_ok_later w); try done; cbn [clock]; [..|lia|].
  - split_and!; cbn [jrn history clock].
    + by apply purge_wf.
    + intros r [Wr L%purge_lookup_inv]. by apply In.
    + intros r I. destruct (Kept _ I) as [Wr [[_ L]|X]]; (split; [done|]).
      * destruct (purge_lookup now max_rows _ _ _ L) as [L'|X]; [by left|]. right. cbn in X. split; lia.
      * right. eapply expired_mono; [done|lia].
  - intros n r _ I. by left.
Qed.

(** Reading the clock. *)
Lemma tick_ok w now :
  world_ok w ->
  world_ok (mk_world (jrn w) (history w) (Z.max (clock w) now) (cursor w) (delivered w) (polling w)).
Proof.
  intros Ok. pose proof Ok as [(W & In & Kept) _]. apply (world_ok_later w); try done; cbn [clock]; [|lia|].
  - split_and!; [done..|]. intros r I. destruct (Kept _ I) as [Wr [L|X]]; (split; [done|]); [by left|].
    right. eapply expired_mono; [done|cbn; lia].
  - intros n r _ I. by left.
Qed.

Lemma resume_position c n now b bytes m digest :
  at_position c n -> decode_resume s (request c b bytes) now = Ok (m, digest) ->
  m = n /\ digest = filter_digest sha256 f.
Proof.
  unfold decode_resume. destruct c as [c|]; cbn; [|by intros -> [= <- <-]].
  intros (n0 & E). unfold encode_cursor in E.
  destruct (event_cursor_encode _ _ _) as [t|] eqn:Enc in E; [|done]. injection E as ->.
  destruct (event_cursor_decode _ _ _ _ _) as [d|] eqn:Dec; [|done]. cbn.
  pose proof (decode_encode hmac _ _ _ _ _ _ _ Enc Dec) as ->.
  do 2 (destruct (bool_decide _); [|done]). cbn. by intros [= <- <-].
Qed.

(** Going on after a gap leaves out only what is gone. *)
Lemma detect_gap_covered w n now :
  world_ok w -> in_u 64 (instance_epoch s) -> covered w n ->
  let start := (detect_gap (instance_epoch s) n (first_available_sequence (instance_epoch s) now (jrn w))).2 in
  n <= start /\
  covered (mk_world (jrn w) (history w) (Z.max (clock w) now) (cursor w) (delivered w) (polling w)) start.
Proof.
  intros [(W & In & Kept) _] E C. pose proof (first_available_ok now (instance_epoch s) (jrn w) W E) as F.
  assert (covered (mk_world (jrn w) (history w) (Z.max (clock w) now) (cursor w) (delivered w) (polling w)) n) as C'.
  { apply (covered_later w); cbn [clock]; try done; [lia|]. intros r I. by left. }
  unfold detect_gap. destruct (first_available_sequence _ _ _) as [x|]; [|by split].
  destruct F as (B & (r & L & Er) & Min). destruct C as (Bn & _ & Cn).
  assert (sat_u 64 (n + 1) = n + 1) as -> by (unfold sat_u, in_u in *; lia).
  destruct (Z.ltb_spec (n + 1) x); [|by split]. cbn [snd]. unfold in_u in *.
  assert (sat_u 64 (x - 1) = x - 1) as -> by (unfold sat_u; lia). split; [lia|]. split_and!.
  - unfold in_u. lia.
  - right. exists r. destruct L as (S & ? & _). split_and!; [by apply In|done|lia].
  - cbn [history delivered clock]. intros r' I Wr Le. right. destruct (Kept _ (in_turn_in _ _ I)) as [_ [S|X]].
    + destruct (decide (expired now r')) as [X|X].
      * eapply expired_mono; [done|lia].
      * destruct Wr as [Ee _]. assert (x <= sequence r') by by apply Min. lia.
    + eapply expired_mono; [done|lia].
Qed.

Lemma asked_ok w b bytes now p :
  world_ok w -> in_u 64 (instance_epoch s) ->
  poll_begin s (request (cursor w) b bytes) now (jrn w) = Ok p ->
  world_ok (mk_world (jrn w) (history w) (Z.max (clock w) now) (cursor w) (delivered w) (Some p)).
Proof.
  intros Ok E P. pose proof (tick_ok _ now Ok) as [K _]. pose proof Ok as (_ & n & At & D & C & _).
  unfold poll_begin in P. apply result_bind_ok in P as (u & _ & P). cbn in P. rewrite bool_decide_true in P by done.
  cbn in P. apply result_bind_ok in P as ([m digest] & R & P). cbn in P. injection P as <-.
  destruct (resume_position _ _ _ _ _ _ _ At R) as [-> ->].
  destruct (detect_gap_covered _ _ now Ok E C) as [L C']. split; [done|]. exists n. cbn [cursor polling poll_start poll_digest].
  split_and!; [done|done| |done..]. apply (covered_later w); cbn [clock]; try done; [lia|]. intros r I. by left.
Qed.

Lemma sorted_last l r x :
  StronglySorted (fun x y => sequence x < sequence y) l -> last l = Some r -> x ∈ l -> sequence x <= sequence r.
Proof.
  intros So (l' & ->)%last_Some [I|I%list_elem_of_singleton]%elem_of_app; [|by subst].
  assert (sequence x < sequence r); [|lia].
  exact (StronglySorted_app_1_elem_of _ _ _ _ _ So I (proj2 (list_elem_of_singleton _ _) eq_refl)).
Qed.

Lemma selected_wanted c b bytes r :
  Is_true (selected (request c b bytes) r) <->
  event_tenant r = filter_tenant f /\
  (forall handle, filter_handle f = Some handle -> event_resource_handle r = Some handle).
Proof.
  unfold selected. cbn. rewrite andb_True, bool_decide_spec.
  destruct (filter_handle f) as [h|]; [rewrite bool_decide_spec|]; naive_solver.
Qed.

Lemma sorted_NoDup l : StronglySorted (fun x y => sequence x < sequence y) l -> NoDup l.
Proof.
  induction 1 as [|x l So IH Hd]; constructor; [|done]. intros I.
  assert (sequence x < sequence x) by exact (proj1 (Forall_forall _ _) Hd x I). lia.
Qed.

Lemma sorted_filter (P : EventRecord -> Prop) `{!forall r, Decision (P r)} l :
  StronglySorted (fun x y => sequence x < sequence y) l ->
  StronglySorted (fun x y => sequence x < sequence y) (filter P l).
Proof.
  induction 1 as [|x l So IH Hd]; [constructor|]. rewrite filter_cons. case_decide; [|done].
  constructor; [done|]. apply Forall_forall. intros y I%list_elem_of_filter.
  apply (proj1 (Forall_forall _ _) Hd y), I.
Qed.

(** A whole batch of events is to come before [r]. *)
Definition batch_before (c : option string) (b bytes wall start : Z) (t : journal) (r : EventRecord) : Prop :=
  exists l, NoDup l /\ Z.of_nat (length l) = batch s (request c b bytes) /\
    forall x, x ∈ l -> pending wall (instance_epoch s) start t x /\ sequence x < sequence r.

(** A page holds what is wanted, in order and after the start; it leaves out an event only
    when a whole batch of others comes before. *)
Lemma page_ok p c b bytes wall t page :
  journal_wf t -> in_u 64 (instance_epoch s) -> in_u 63 (poll_start p) ->
  poll_page s (request c b bytes) p wall t = Ok page ->
  StronglySorted (fun x y => sequence x < sequence y) (records page) /\
  (forall r, r ∈ records page <-> pending wall (instance_epoch s) (poll_start p) t r /\ wanted r /\
                                 ~ batch_before c b bytes wall (poll_start p) t r) /\
  encode_cursor s (last_sequence (poll_start p) (records page)) (poll_digest p) (poll_now p) = Ok (next_cursor page) /\
  gap page = poll_gap p.
Proof.
  intros W E B P. unfold poll_page in P.
  destruct (list_after_sequence_ok wall (instance_epoch s) (poll_start p) (batch s (request c b bytes)) t W E B)
    as (l & El & So & Len & In & All).
  rewrite El in P. cbn in P. apply result_bind_ok in P as (next & En & [= <-]). cbn [records next_cursor gap].
  assert (0 < batch s (request c b bytes)) as Pos by (unfold batch; lia).
  split_and!; [by apply sorted_filter| |done|done]. intros r. rewrite list_elem_of_filter, selected_wanted. split.
  - intros [S I]. pose proof (In _ I) as P. split_and!; [done|by destruct P as (_ & ? & _)|].
    intros (l' & D & Len' & Before). assert (r :: l' ⊆+ l) as Sub%submseteq_length.
    { apply NoDup_submseteq.
      - constructor; [|done]. intros I'. apply Before in I' as [_ X]. lia.
      - intros x [->|I']%elem_of_cons; [done|]. destruct (Before _ I') as [Px Lx].
        destruct (All _ Px) as [|[_ X]]; [done|]. specialize (X _ I). lia. }
    cbn in Sub. lia.
  - intros (P & (Ee & S) & N). split; [done|]. destruct (All _ P) as [|[Len' X]]; [done|]. destruct N.
    exists l. split_and!; [by apply sorted_NoDup|lia|]. intros x I. split; [by apply In|by apply X].
Qed.

Lemma answered_ok w b bytes p wall page :
  world_ok w -> in_u 64 (instance_epoch s) -> polling w = Some p ->
  poll_page s (request (cursor w) b bytes) p wall (jrn w) = Ok page ->
  world_ok (mk_world (jrn w) (history w) (Z.max (clock w) wall) (Some (next_cursor page))
              (delivered w ++ records page) None).
Proof.
  intros Ok E Pw P. pose proof (tick_ok _ wall Ok) as [K _].
  assert (forall r, expired (clock w) r -> expired (Z.max (clock w) wall) r) as Later.
  { intros r X. eapply expired_mono; [done|lia]. }
  assert (forall r, expired wall r -> expired (Z.max (clock w) wall) r) as Later'.
  { intros r X. eapply expired_mono; [done|lia]. }
  destruct Ok as [(W & In & Kept) (n & At & (So & D) & C & Cp)].
  rewrite Pw in Cp. destruct Cp as (Ln & (B & A & Cs) & Dg).
  destruct (page_ok _ _ _ _ _ _ _ W E B P) as (Sp & Rp & Next & _). rewrite Dg in Next.
  assert (forall r, r ∈ records page -> r ∈ history w /\ wanted r /\ poll_start p < sequence r /\
                                        sequence r <= last_sequence (poll_start p) (records page)) as Got.
  { intros r I. pose proof (proj1 (Rp r) I) as ((S & _ & L & _) & Wr & _). split_and!; [by apply In|done|done|].
    unfold last_sequence. destruct (last (records page)) as [x|] eqn:La; [by eapply sorted_last|].
    apply last_None in La. rewrite La in I. by apply not_elem_of_nil in I. }
  assert (poll_start p <= last_sequence (poll_start p) (records page)) as Up.
  { unfold last_sequence. destruct (last (records page)) as [x|] eqn:La; [|lia].
    apply last_Some_elem_of, Got in La. lia. }
  split; [done|]. exists (last_sequence (poll_start p) (records page)). split_and!; [by eexists| | |done].
  - split; cbn [delivered history].
    + apply StronglySorted_app_2; [|done..]. intros x y Ix Iy. apply D in Ix. apply Got in Iy. lia.
    + intros r [I|I]%elem_of_app; [apply D in I|apply Got in I]; split_and!; try tauto. lia.
  - unfold covered. cbn [delivered history clock]. unfold last_sequence in *. destruct (last (records page)) as [x|] eqn:La.
    + apply last_Some_elem_of in La. pose proof (Got _ La) as (Hx & (Ex & _) & _). split_and!.
      * by destruct (Kept _ Hx) as [(_ & ? & _) _].
      * right. by exists x.
      * intros r Hr Wr L. destruct (decide (sequence r <= poll_start p)) as [Lp|Lp].
        { destruct (Cs _ Hr Wr Lp) as [I|X]; [left; apply elem_of_app; by left|right; by apply Later]. }
        destruct (decide (expired wall r)) as [X|X]; [right; by apply Later'|].
        destruct (Kept _ (in_turn_in _ _ Hr)) as [_ [S|X']]; [|right; by apply Later].
        left. apply elem_of_app. right. apply Rp. split_and!; [split_and!; [done|by destruct Wr|lia|done]|done|].
        intros (l & Dl & Len & Before). apply (proj1 (Rp x) La). exists l. split_and!; [done..|].
        intros y I. destruct (Before _ I) as [Py Ly]. split; [done|lia].
    + split_and!; [done|done|]. intros r Hr Wr L.
      destruct (Cs _ Hr Wr L) as [I|X]; [left; apply elem_of_app; by left|right; by apply Later].
Qed.

Lemma step_ok w w' : in_u 64 (instance_epoch s) -> step w w' -> world_ok w -> world_ok w'.
Proof.
  intros E St Ok. destruct St as [w r t Wr A|w now m|w b bytes now p No P|w b bytes p wall page Pw P|w].
  - by apply appended_ok.
  - by apply purged_ok.
  - by eapply asked_ok.
  - by eapply answered_ok.
  - destruct Ok as [K (n & At & D & C & _)]. split; [done|]. by exists n.
Qed.

Lemma start_ok : world_ok start_world.
Proof.
  split.
  - split_and!; cbn; [done|by intros r [_ L]; rewrite lookup_empty in L|].
    by intros r ?%not_elem_of_nil.
  - exists 0. split_and!; [done| | |done].
    + split; [constructor|]. by intros r ?%not_elem_of_nil.
    + split_and!; [done|by left|]. by intros r [].
Qed.

(** [C35] A subscriber that resumes each poll from the cursor of the page before loses
    nothing behind its cursor and gets nothing twice. Its filter names a tenant and at most a
    resource; its polls, between and within them, interleave with writers and purges in any
    order. Then what was delivered has strictly increasing sequence numbers, is of that
    tenant and resource, and was written; and every such event up to the position of the
    cursor that was written in turn was delivered, unless its retention is over. (This does
    not say that the cursor moves on: see [poll_is_stuck].) *)
Theorem events_once_in_order w :
  in_u 64 (instance_epoch s) -> names_only -> rtc step start_world w ->
  exists n, at_position (cursor w) n /\
    StronglySorted (fun x y => sequence x < sequence y) (delivered w) /\
    (forall r, r ∈ delivered w -> r ∈ history w /\ wanted r /\ sequence r <= n) /\
    (forall r, in_turn (history w) r -> wanted r -> sequence r <= n -> r ∈ delivered w \/ expired (clock w) r).
Proof.
  intros E _ R. assert (world_ok w) as (_ & n & At & [So D] & (_ & _ & C) & _); [|by exists n].
  generalize start_ok. clear -E R. induction R as [w|w1 w2 w3 St R IH]; [done|]. intros Ok.
  by eapply IH, step_ok.
Qed.

(** What a poll answers. The page holds, in order, the wanted events that come after
    where the poll starts, less those that come after a whole batch of events of any tenant;
    the cursor stands for the last of them, or for the start. A gap is reported when the
    first event there is has a number beyond the one that is expected next, and then the poll
    starts right before that event; otherwise it starts at the cursor. *)
Theorem poll_page_exact t c n b bytes now wall page :
  journal_wf t -> in_u 64 (instance_epoch s) -> in_u 63 n -> at_position c n ->
  poll s (request c b bytes) now wall t = Ok page ->
  exists start,
    StronglySorted (fun x y => sequence x < sequence y) (records page) /\
    (forall r, r ∈ records page <-> pending wall (instance_epoch s) start t r /\ wanted r /\
                                   ~ batch_before c b bytes wall start t r) /\
    at_position (Some (next_cursor page)) (last_sequence start (records page)) /\
    match gap page with
    | Some g => start = first_available g - 1 /\ requested_sequence g = n + 1 /\ n + 1 < first_available g /\
                (exists r, live now (instance_epoch s) t r /\ sequence r = first_available g) /\
                forall r, live now (instance_epoch s) t r -> first_available g <= sequence r
    | None => start = n /\
              ((forall r, ~ live now (instance_epoch s) t r) \/
               exists r, live now (instance_epoch s) t r /\ sequence r <= n + 1)
    end.
Proof.
  intros W E Bn At P. unfold poll in P. apply result_bind_ok in P as (p & Pb & Pp).
  unfold poll_begin in Pb. apply result_bind_ok in Pb as (u & _ & Pb). cbn in Pb. rewrite bool_decide_true in Pb by done.
  cbn in Pb. apply result_bind_ok in Pb as ([m digest] & R & Pb). cbn in Pb.
  destruct (resume_position _ _ _ _ _ _ _ At R) as [-> ->].
  pose proof (first_available_ok now (instance_epoch s) t W E) as F. unfold detect_gap in Pb. unfold in_u in *.
  assert (in_u 63 (poll_start p) /\ poll_digest p = filter_digest sha256 f /\ match poll_gap p with
    | Some g => poll_start p = first_available g - 1 /\ requested_sequence g = n + 1 /\ n + 1 < first_available g /\
                (exists r, live now (instance_epoch s) t r /\ sequence r = first_available g) /\
                forall r, live now (instance_epoch s) t r -> first_available g <= sequence r
    | None => poll_start p = n /\ ((forall r, ~ live now (instance_epoch s) t r) \/
                                  exists r, live now (instance_epoch s) t r /\ sequence r <= n + 1)
    end) as (B & Dg & G).
  { assert (sat_u 64 (n + 1) = n + 1) as Sat by (unfold sat_u; lia). rewrite Sat in Pb. unfold in_u.
    destruct (first_available_sequence _ _ _) as [x|]; [|injection Pb as <-; cbn; split_and!; [lia..|done|done|by left]].
    destruct F as (Bx & (r & L & Er) & Min). unfold in_u in Bx.
    destruct (Z.ltb_spec (n + 1) x); injection Pb as <-; cbn.
    - assert (sat_u 64 (x - 1) = x - 1) as -> by (unfold sat_u; lia). split_and!; try done; [lia..|by exists r].
    - split_and!; [lia..|done|done|]. right. exists r. split; [done|lia]. }
  destruct (page_ok _ _ _ _ _ _ _ W E B Pp) as (Sp & Rp & Next & ->). rewrite Dg in Next.
  exists (poll_start p). split_and!; [done|done|by eexists|done].
Qed.

(** What becomes of a cursor of a service [s] at a service [s']. *)
Lemma resume_elsewhere s' f' n now c now' b bytes t :
  filter_validate f' = Ok tt -> (32 <= length (cursor_hmac_key s'))%nat ->
  (forall payload, is_Some (hmac (cursor_hmac_key s') payload)) ->
  encode_cursor s n (filter_digest sha256 f) now = Ok c ->
  let contents := cursor_contents s n (filter_digest sha256 f) now in
  poll_begin s' (mk_subscribe (filter_tenant f') f' (Some c) b bytes) now' t =
    if decide (instance_epoch s = instance_epoch s' /\
               (0 < ec_expires_at_ms contents -> now' <= ec_expires_at_ms contents) /\
               mac_of hmac contents (cursor_hmac_key s') = mac_of hmac contents (cursor_hmac_key s))
    then if decide (node_id s = node_id s')
         then if decide (filter_digest sha256 f = filter_digest sha256 f')
              then let gs := detect_gap (instance_epoch s') n (first_available_sequence (instance_epoch s') now' t) in
                   Ok (mk_poll now' gs.2 (filter_digest sha256 f') gs.1)
              else Err CpInvalidArgument
         else Err (Media (error_new StaleOwner))
    else Err (Media cursor_expired).
Proof.
  intros V L Total Enc contents. unfold poll_begin. cbn. rewrite V. cbn. rewrite bool_decide_true by done.
  unfold decode_resume. cbn.
  unfold encode_cursor in Enc. destruct (event_cursor_encode _ _ _) as [c0|] eqn:E; [|done]. injection Enc as ->.
  unfold event_cursor_decode. rewrite (decode_encode_key hmac _ _ _ _ now' (instance_epoch s') E L Total).
  fold contents. unfold in_date. cbn -[contents filter_digest].
  case_decide as D; case_decide as D'; try tauto. cbn -[contents filter_digest].
  case_decide as N; [rewrite (bool_decide_true _ N)|by rewrite (bool_decide_false _ N)].
  cbn -[filter_digest].
  case_decide as Dg; [by rewrite (bool_decide_true _ Dg)|by rewrite (bool_decide_false _ Dg)].
Qed.

(** [C37] Which cursors are accepted. A cursor that a service [s] gave for a filter [f] is shown
    to a service [s'], which has one key, with a filter [f']. While it is in date and the two
    agree on its signature, the instance and the node, the poll goes on from its position if
    the filter is the same, and is answered [InvalidArgument] if it is another; with another
    node it is [StaleOwner], with a later time than the cursor allows [CursorExpired], and
    with another instance it is refused. And no cursor whatever is accepted but with a
    signature of its contents under the key of [s'], for its node, its instance and this
    filter. *)
Theorem cursor_refusals s' f' n now c now' b bytes t :
  filter_validate f' = Ok tt -> (32 <= length (cursor_hmac_key s'))%nat ->
  (forall payload, is_Some (hmac (cursor_hmac_key s') payload)) ->
  encode_cursor s n (filter_digest sha256 f) now = Ok c ->
  let contents := cursor_contents s n (filter_digest sha256 f) now in
  let request c := mk_subscribe (filter_tenant f') f' (Some c) b bytes in
  let digest := filter_digest sha256 in
  (mac_of hmac contents (cursor_hmac_key s') = mac_of hmac contents (cursor_hmac_key s) ->
   let in_date := 0 < ec_expires_at_ms contents -> now' <= ec_expires_at_ms contents in
   let gs := detect_gap (instance_epoch s') n (first_available_sequence (instance_epoch s') now' t) in
   (instance_epoch s = instance_epoch s' -> in_date -> node_id s = node_id s' -> digest f = digest f' ->
    poll_begin s' (request c) now' t = Ok (mk_poll now' gs.2 (digest f') gs.1)) /\
   (instance_epoch s = instance_epoch s' -> in_date -> node_id s = node_id s' -> digest f <> digest f' ->
    poll_begin s' (request c) now' t = Err CpInvalidArgument) /\
   (instance_epoch s = instance_epoch s' -> in_date -> node_id s <> node_id s' ->
    poll_begin s' (request c) now' t = Err (Media (error_new StaleOwner))) /\
   (instance_epoch s = instance_epoch s' -> ~ in_date -> node_id s = node_id s' -> digest f = digest f' ->
    poll_begin s' (request c) now' t = Err (Media cursor_expired)) /\
   (instance_epoch s <> instance_epoch s' -> exists e, poll_begin s' (request c) now' t = Err e)) /\
  forall c' p, poll_begin s' (request c') now' t = Ok p ->
    exists token signed mac, b64_decode c' = Some token /\ from_slice token = Some signed /\
      b64_decode (hmac_text signed) = Some mac /\ mac_of hmac (Cursors.contents signed) (cursor_hmac_key s') = Some mac /\
      ec_media_node_id (Cursors.contents signed) = node_id s' /\
      ec_media_node_instance_epoch (Cursors.contents signed) = instance_epoch s' /\
      ec_tenant_filter_digest (Cursors.contents signed) = filter_digest sha256 f'.
Proof.
  intros V L Total Enc contents request digest. split.
  - intros M in_date gs. pose proof (resume_elsewhere s' f' n now c now' b bytes t V L Total Enc) as R.
    cbv zeta in R. fold contents digest in R. unfold request. subst in_date gs.
    split_and!; intros; rewrite R; repeat case_decide; try tauto; eauto; done.
  - unfold poll_begin. cbn. rewrite V. cbn. rewrite bool_decide_true by done. unfold decode_resume. cbn.
    intros c' p (r & R & _)%result_bind_ok.
    destruct (event_cursor_decode _ _ _ _ _) as [ec|] eqn:Dec; [|done]. cbn -[filter_digest] in R.
    destruct (bool_decide_reflect (ec_media_node_id ec = node_id s')); [|done].
    destruct (bool_decide_reflect (ec_tenant_filter_digest ec = filter_digest sha256 f')); [|done].
    apply decode_signed in Dec as ((_ & _ & Ee) & token & signed & mac & ? & ? & <- & ? & ?).
    by exists token, signed, mac.
Qed.
End stream.

(** ** Examples *)

Definition demo_key : list byte := repeat "007"%byte 32.
Definition demo_service : EventStreamService :=
  mk_service demo_key "node" 1 default_subscriber_limits (24 * 60 * 60 * 1000).
Definition demo_filter (tenant : string) : ResourceFilter :=
  mk_filter tenant None None None None None None false None None None None.

Definition demo_hmac (key payload : list byte) : option (list byte) := Some (take 4 (rev key ++ payload)).
Definition demo_sha256 (l : list byte) : list byte := l.

#[export] Instance demo_json_filter : Json ResourceFilter := json_of_list [demo_filter "a"; demo_filter "b"].
Definition demo_digest (tenant : string) : string := filter_digest demo_sha256 (demo_filter tenant).

(** The cursors of the examples. *)
Definition demo_contents : list EventCursorContents :=
  [cursor_contents demo_service 0 (demo_digest "a") 100; cursor_contents demo_service 1 (demo_digest "a") 100;
   cursor_contents demo_service 5 (demo_digest "a") 100].
#[export] Instance demo_base64 : Base64 := base64_by_hex.
#[export] Instance demo_json_contents : Json EventCursorContents := json_of_list demo_contents.
#[export] Instance demo_json_signed : Json (SignedCursor EventCursorContents) :=
  json_of_list ((fun c => mk_signed c (match mac_of demo_hmac c demo_key with Some m => b64_encode m | None => "" end)) <$> demo_contents).
#[export] Instance demo_order : OrderBy := order_by_merge_sort.

Definition demo_event (n : Z) (tenant : string) (expires : Z) : EventRecord :=
  mk_event "e" 1 n tenant None None 0 "kind" "{}" None None None expires.
Definition demo_journal (l : list EventRecord) : journal := foldr (fun r t => (append r t).1) ∅ l.

Definition demo_request (cursor : option string) (batch : Z) : EventSubscribeRequest :=
  request (demo_filter "a") cursor batch 1000.
Definition demo_poll := poll demo_hmac demo_sha256 demo_service.
Definition demo_cursor (n : Z) : string :=
  match encode_cursor demo_hmac demo_service n (demo_digest "a") 100 with Ok c => c | Err _ => "" end.

(** A page that is full of the events of other tenants leaves the cursor where it is, so
    the poll from it answers the same page again, and the event behind is never delivered. *)
Example poll_is_stuck :
  let t := demo_journal [demo_event 1 "b" 0; demo_event 2 "a" 0] in
  demo_poll (demo_request None 1) 100 100 t = Ok (mk_page [] None (demo_cursor 0) (Some (demo_cursor 0))) /\
  demo_poll (demo_request (Some (demo_cursor 0)) 1) 100 100 t =
    Ok (mk_page [] None (demo_cursor 0) (Some (demo_cursor 0))) /\
  list_by_tenant "a" 1 0 10 t = Ok [demo_event 2 "a" 0].
Proof. by vm_compute. Qed.

(** After a purge the numbers start over, and a subscriber that is further on misses the
    event that is written next. *)
Example numbers_start_over :
  let t := demo_journal [demo_event 5 "a" 50] in
  next_sequence 1 t = 6 /\
  let t' := (purge_expired 100 10 t).1 in
  next_sequence 1 t' = 1 /\
  demo_poll (demo_request (Some (demo_cursor 5)) 10) 100 100 (append (demo_event 1 "a" 0) t').1 =
    Ok (mk_page [] None (demo_cursor 5) (Some (demo_cursor 5))).
Proof. by vm_compute. Qed.

(** When the retention of all events is over, what was missed is not reported. *)
Example no_gap_when_all_is_gone :
  demo_poll (demo_request (Some (demo_cursor 1)) 10) 100 100 (demo_journal [demo_event 5 "a" 50]) =
    Ok (mk_page [] None (demo_cursor 1) (Some (demo_cursor 1))).
Proof. by vm_compute. Qed.

(** Of the filter, which is validated and signed as a whole, the tenant and the handle alone
    are applied. *)
Example filter_is_not_applied f f' c b bytes r :
  filter_tenant f = filter_tenant f' -> filter_handle f = filter_handle f' ->
  selected (request f c b bytes) r = selected (request f' c b bytes) r.
Proof. intros T H. unfold selected. cbn. by rewrite T, H. Qed.

Definition demo_step := step demo_hmac demo_sha256 demo_service (demo_filter "a").
Definition demo_written : EventRecord := demo_event 1 "a" 0.
Definition demo_asked : Poll := mk_poll 100 0 (demo_digest "a") None.
Definition demo_page : EventPollPage := mk_page [demo_written] None (demo_cursor 1) (Some (demo_cursor 1)).
Definition demo_first : world := mk_world (demo_journal [demo_written]) [demo_written] 0 None [] None.
Definition demo_second : world := mk_world (demo_journal [demo_written]) [demo_written] 100 None [] (Some demo_asked).
Definition demo_end : world :=
  mk_world (demo_journal [demo_written]) [demo_written] 100 (Some (demo_cursor 1)) [demo_written] None.

Lemma events_once_in_order_witness :
  in_u 64 1 /\ rtc demo_step start_world demo_end /\
  exists n, at_position demo_hmac demo_sha256 demo_service (demo_filter "a") (cursor demo_end) n /\
    StronglySorted (fun x y => sequence x < sequence y) (delivered demo_end) /\
    (forall r, r ∈ delivered demo_end ->
       r ∈ history demo_end /\ wanted demo_service (demo_filter "a") r /\ sequence r <= n) /\
    (forall r, in_turn (history demo_end) r -> wanted demo_service (demo_filter "a") r -> sequence r <= n ->
       r ∈ delivered demo_end \/ expired (clock demo_end) r).
Proof.
  assert (rtc demo_step start_world demo_end) as R.
  { eapply (rtc_l _ _ demo_first); [|eapply (rtc_l _ _ demo_second); [|eapply (rtc_l _ _ demo_end); [|apply rtc_refl]]].
    - apply (Appended demo_hmac demo_sha256 demo_service (demo_filter "a") start_world demo_written);
        [by repeat split|by vm_compute].
    - by apply (Asked demo_hmac demo_sha256 demo_service (demo_filter "a") demo_first 10 1000 100 demo_asked); vm_compute.
    - by apply (Answered demo_hmac demo_sha256 demo_service (demo_filter "a") demo_second 10 1000 demo_asked 100 demo_page);
        vm_compute. }
  split; [done|]. split; [exact R|].
  by apply (events_once_in_order demo_hmac demo_sha256 demo_service (demo_filter "a") demo_end).
Defined.

Lemma poll_page_exact_witness :
  demo_poll (demo_request None 10) 100 100 (demo_journal [demo_written]) = Ok demo_page /\
  exists start r, live 100 1 (demo_journal [demo_written]) r /\ start = 0 /\ r = demo_written.
Proof.
  split; [by vm_compute|].
  assert (journal_wf (demo_journal [demo_written])) as W by by apply append_wf; repeat split.
  destruct (poll_page_exact demo_hmac demo_sha256 demo_service (demo_filter "a") (demo_journal [demo_written])
              None 0 10 1000 100 100 demo_page W) as (start & _ & _ & _ & E & [N|(r & L & Le)]);
    [done|done|done|by vm_compute|..].
  - exfalso. apply (N demo_written). split_and!; [by repeat split|done|]. by intros [? _].
  - exists start, demo_written. split_and!; [|done|done].
    split_and!; [by repeat split|done|]. by intros [? _].
Defined.

(** The cursor of an earlier instance of the node is answered [CursorExpired], and so is one
    that was signed before the key was changed. *)
Example other_instance_is_expired :
  let s' := mk_service demo_key "node" 2 default_subscriber_limits 1000 in
  poll_begin demo_hmac demo_sha256 s' (demo_request (Some (demo_cursor 1)) 10) 200 ∅ = Err (Media cursor_expired).
Proof. by vm_compute. Qed.

Example previous_key_is_refused :
  let s' := mk_service (repeat "008"%byte 32) "node" 1 default_subscriber_limits 1000 in
  poll_begin demo_hmac demo_sha256 s' (demo_request (Some (demo_cursor 1)) 10) 200 ∅ = Err (Media cursor_expired).
Proof. by vm_compute. Qed.

Lemma cursor_refusals_witness :
  let s' := mk_service demo_key "other" 1 default_subscriber_limits 1000 in
  encode_cursor demo_hmac demo_service 1 (demo_digest "a") 100 = Ok (demo_cursor 1) /\
  poll_begin demo_hmac demo_sha256 s' (demo_request (Some (demo_cursor 1)) 10) 200 ∅ = Err (Media (error_new StaleOwner)) /\
  poll_begin demo_hmac demo_sha256 demo_service
    (mk_subscribe "b" (demo_filter "b") (Some (demo_cursor 1)) 10 1000) 200 ∅ = Err CpInvalidArgument /\
  poll_begin demo_hmac demo_sha256 demo_service (demo_request (Some (demo_cursor 1)) 10) 200 ∅ =
    Ok (mk_poll 200 1 (demo_digest "a") None).
Proof.
  intros s'. assert (encode_cursor demo_hmac demo_service 1 (demo_digest "a") 100 = Ok (demo_cursor 1)) as E by by vm_compute.
  split; [exact E|].
  assert (0 < 86400100 -> 200 <= 86400100) as D by done.
  pose proof (fun s' f' => cursor_refusals demo_hmac demo_sha256 demo_service (demo_filter "a") s' f' 1 100 (demo_cursor 1)
              200 10 1000 ∅) as C. cbv zeta in C. split; [|split].
  - destruct (C s' (demo_filter "a")) as [C' _]; [done|cbn; lia|by eexists|exact E|].
    destruct (C' eq_refl) as (_ & _ & C3 & _). apply C3; [done|exact D|done].
  - destruct (C demo_service (demo_filter "b")) as [C' _]; [done|cbn; lia|by eexists|exact E|].
    destruct (C' eq_refl) as (_ & C2 & _). apply C2; [done|exact D|done|by vm_compute].
  - destruct (C demo_service (demo_filter "a")) as [C' _]; [done|cbn; lia|by eexists|exact E|].
    destruct (C' eq_refl) as (C1 & _). apply C1; [done|exact D|done|done].
Defined.
