(* ===== verification/EngineTypes.v ===== *)
(** * Engine data

    The part of the frame and of the SDK types that the stream engine looks at:
    [crates/foundation/cheetah-codec/src/frame.rs],
    [crates/sdk/cheetah-sdk/src/stream.rs], [event.rs], [error.rs] and [ids.rs].
    Fields of [AVFrame] that the engine only carries (codec, format, microsecond
    timestamps, duration, side data, origin) are left out; the payload stands for
    them. *)
From Stdlib Require Import Strings.Byte.
From S2P Require Import Prelude Timeline Codecs.

(** [bitflags] of [FrameFlags]. *)
Definition FLAG_KEY : Z := Z.shiftl 1 0.
Definition FLAG_DISCONTINUITY : Z := Z.shiftl 1 6.
Definition FLAG_DROPPABLE : Z := Z.shiftl 1 9.

Definition contains (flags flag : Z) : bool := Z.land flags flag =? flag.

Record AVFrame : Set := mk_frame {
  track_id : Z;
  media_kind : MediaKind;
  pts : Z;
  dts : Z;
  timebase : Timebase;
  flags : Z;
  payload : list byte
}.

Definition is_key (f : AVFrame) : bool := contains (flags f) FLAG_KEY.
Definition is_discontinuity (f : AVFrame) : bool := contains (flags f) FLAG_DISCONTINUITY.
Definition is_droppable (f : AVFrame) : bool := contains (flags f) FLAG_DROPPABLE.

Inductive BackpressurePolicy : Set :=
| DropDroppableFirst | DropUntilNextKeyframe | DisconnectOnOverflow.

#[export] Instance BackpressurePolicy_eq_dec : EqDecision BackpressurePolicy.
Proof. solve_decision. Defined.

Inductive DispatchResult : Set := Accepted | DroppedByPolicy | RejectedClosed.

#[export] Instance DispatchResult_eq_dec : EqDecision DispatchResult.
Proof. solve_decision. Defined.

Inductive BootstrapMode : Set := BootNone | LiveTail | FullGop.

Record BootstrapPolicy : Set := mk_policy {
  mode : BootstrapMode;
  max_bootstrap_age_ms : option Z;
  max_bootstrap_frames : nat;
  wait_for_next_random_access_point : bool
}.

Record MediaFilter : Set := mk_filter { enable_video : bool; enable_audio : bool }.

Record SubscriberOptions : Set := mk_sub_options {
  queue_capacity : nat;
  backpressure : BackpressurePolicy;
  bootstrap_policy : BootstrapPolicy;
  media_filter : MediaFilter
}.

Record PublisherOptions : Set := mk_pub_options {
  announce_tracks : bool;
  protocol : string;
  remote_endpoint : option string
}.

(** Namespace and path. *)
Definition StreamKey : Set := (string * string)%type.
Definition stream_key_string (k : StreamKey) : string := fst k +:+ "/" +:+ snd k.

(** Message texts are left out. *)
Inductive SdkError : Set :=
| NotFound | AlreadyExists | InvalidArgument | Conflict | Unavailable | Internal.

Inductive StreamEventKind : Set :=
| PublisherOpened | SubscriberOpened | SubscriberClosed | StreamClosed | FrameDropped.

Record StreamEvent : Set := mk_event {
  ev_key : StreamKey;
  ev_kind : StreamEventKind;
  ev_stream_id : option Z;
  ev_subscriber_id : option Z;
  ev_dispatch_result : option DispatchResult
}.
