(* ===== verification/EngineRing.v ===== *)
(** * Stream ring buffer

    Models [RingSlot], [IdrNode] and [RingBuffer] of
    [crates/system/cheetah-engine/src/stream.rs]: the recent frames of a stream,
    from which a new subscriber is bootstrapped. One operation at a time; an
    atomic counter or swap cell is a field. Positions and versions are counters
    that start at zero and grow by one; they are [nat] (the [usize] and [u64] of
    the code wrap after 2^64 frames). *)
From S2P Require Import Prelude Codecs Timeline EngineTypes.

(** ** State *)

Record IdrNode : Set := mk_idr { ring_pos : nat; idr_version : nat }.

Record RingSlot : Set := mk_slot { slot_frame : option AVFrame; slot_version : nat }.
Definition slot_new : RingSlot := mk_slot None 0.

Record RingBuffer : Set := mk_ring {
  slots : list RingSlot;
  mask : nat;
  write_pos : nat;
  idr_list : list IdrNode
}.

(** [next_power_of_two] of a number from 2. *)
Definition next_power_of_two (n : nat) : nat := Nat.pow 2 (Nat.log2_up n).

Definition ring_new (capacity : nat) : RingBuffer :=
  let cap := next_power_of_two (Nat.max capacity 2) in
  mk_ring (replicate cap slot_new) (cap - 1) 0 [].

Definition set_idr_list (l : list IdrNode) (r : RingBuffer) : RingBuffer :=
  mk_ring (slots r) (mask r) (write_pos r) l.

(** [self.slots[pos & self.mask]]. *)
Definition slot_at (r : RingBuffer) (pos : nat) : option RingSlot :=
  slots r !! Nat.land pos (mask r).

(** ** Writing *)

Definition earliest_readable_pos (r : RingBuffer) (end_ : nat) : nat := end_ - length (slots r).

(** The closure of [retain]. *)
Definition idr_live (r : RingBuffer) (end_ : nat) (node : IdrNode) : bool :=
  let min_pos := earliest_readable_pos r end_ in
  if (ring_pos node <? min_pos)%nat || (end_ <=? ring_pos node)%nat then false
  else match slot_at r (ring_pos node) with
       | Some slot => (slot_version slot =? idr_version node)%nat
       | None => false
       end.

Definition prune_idr_nodes (r : RingBuffer) (nodes : list IdrNode) (end_ : nat) : list IdrNode :=
  filter (fun node => idr_live r end_ node) nodes.

Definition record_idr (r : RingBuffer) (pos version : nat) : RingBuffer :=
  let nodes := idr_list r ++ [mk_idr pos version] in
  let nodes := prune_idr_nodes r nodes (write_pos r) in
  let max_entries := (length (slots r) * 2)%nat in
  let nodes := if (max_entries <? length nodes)%nat then drop (length nodes - max_entries) nodes
               else nodes in
  set_idr_list nodes r.

Definition push (r : RingBuffer) (frame : AVFrame) : RingBuffer * (nat * nat) :=
  let pos := write_pos r in
  let slot_idx := Nat.land pos (mask r) in
  let version := match slots r !! slot_idx with Some s => S (slot_version s) | None => 1%nat end in
  let r := mk_ring (<[slot_idx := mk_slot (Some frame) version]> (slots r)) (mask r) (S pos)
             (idr_list r) in
  let r := if is_key frame then record_idr r pos version else r in
  (r, (pos, version)).

(** ** Reading *)

Definition read (r : RingBuffer) (pos : nat) : option (AVFrame * nat) :=
  match slot_at r pos with
  | Some slot => match slot_frame slot with
                 | Some frame => Some (frame, slot_version slot)
                 | None => None
                 end
  | None => None
  end.

(** [i128] arithmetic of [frame_time_ms]. *)
Definition checked_i128 (z : Z) : option Z :=
  if (- 2 ^ 127 <=? z) && (z <? 2 ^ 127) then Some z else None.

Definition frame_time_ms (frame : AVFrame) : option Z :=
  ts ← (if 0 <=? dts frame then Some (dts frame)
        else if 0 <=? pts frame then Some (pts frame) else None);
  numer ← checked_i128 (ts * tb_num (timebase frame));
  let denom := tb_den (timebase frame) in
  if denom <=? 0 then None
  else scaled ← checked_i128 (numer * 1000); checked_i128 (scaled ÷ denom).

(** [(start..end).rev()], from the last position down. *)
Definition positions_down (start end_ : nat) : list nat := rev (seq start (end_ - start)).

(** [find_map]. *)
Fixpoint find_map {A B} (f : A -> option B) (l : list A) : option B :=
  match l with
  | [] => None
  | x :: l => match f x with Some y => Some y | None => find_map f l end
  end.

Definition clamp_start_by_max_age (r : RingBuffer) (start end_ : nat) (max_age : option Z) : nat :=
  match max_age with
  | None => start
  | Some max_age_ms =>
      if (max_age_ms =? 0) || (end_ <=? start)%nat then end_
      else
        match find_map (read r) (positions_down start end_) with
        | None => start
        | Some (latest, _) =>
            match frame_time_ms latest with
            | None => start
            | Some latest_ts_ms =>
                let min_ts_ms := sat_i 128 (latest_ts_ms - max_age_ms) in
                match find_map (fun pos =>
                        match read r pos with
                        | Some (frame, _) =>
                            match frame_time_ms frame with
                            | Some ts_ms => if ts_ms <? min_ts_ms then Some (S pos) else None
                            | None => None
                            end
                        | None => None
                        end) (positions_down start end_) with
                | Some p => p
                | None => start
                end
            end
        end
  end.

Definition clamp_start_by_discontinuity (r : RingBuffer) (start end_ : nat) : nat :=
  match find_map (fun pos =>
          match read r pos with
          | Some (frame, _) => if is_discontinuity frame then Some pos else None
          | None => None
          end) (positions_down start end_) with
  | Some p => p
  | None => start
  end.

Definition in_window (start end_ : nat) (node : IdrNode) : option nat :=
  if (start <=? ring_pos node)%nat && (ring_pos node <? end_)%nat then Some (ring_pos node) else None.

Definition clamp_start_by_random_access (r : RingBuffer) (start end_ : nat)
    (policy : BootstrapPolicy) : RingBuffer * nat :=
  match mode policy with
  | BootNone => (r, start)
  | m =>
      let nodes := prune_idr_nodes r (idr_list r) end_ in
      let chosen := match m with
                    | LiveTail => find_map (in_window start end_) (rev nodes)
                    | FullGop => find_map (in_window start end_) nodes
                    | BootNone => None
                    end in
      (set_idr_list nodes r,
       match chosen with
       | Some p => p
       | None => if wait_for_next_random_access_point policy then end_ else start
       end)
  end.

(** The window start before it is moved to a keyframe. *)
Definition bootstrap_window (r : RingBuffer) (policy : BootstrapPolicy) : nat :=
  let end_ := write_pos r in
  let start := (end_ - max_bootstrap_frames policy)%nat in
  let start := clamp_start_by_max_age r start end_ (max_bootstrap_age_ms policy) in
  clamp_start_by_discontinuity r start end_.

Definition bootstrap_frames (r : RingBuffer) (policy : BootstrapPolicy) :
    RingBuffer * list AVFrame :=
  match mode policy with
  | BootNone => (r, [])
  | _ =>
      if (max_bootstrap_frames policy =? 0)%nat then (r, [])
      else
        let end_ := write_pos r in
        let '(r, start) := clamp_start_by_random_access r (bootstrap_window r policy) end_ policy in
        (r, omap (fun pos => fst <$> read r pos) (seq start (end_ - start)))
  end.

(** ** The ring holds the last frames *)

Fixpoint push_all (r : RingBuffer) (fs : list AVFrame) : RingBuffer :=
  match fs with
  | [] => r
  | f :: fs => push_all (fst (push r f)) fs
  end.

(** How often slot [i] was written by the first [n] pushes. *)
Definition writes (cap n i : nat) : nat := (n + cap - 1 - i) / cap.

Definition slot_after (cap : nat) (fs : list AVFrame) (i : nat) : RingSlot :=
  match writes cap (length fs) i with
  | O => slot_new
  | S w => mk_slot (fs !! (i + w * cap)) (S w)
  end%nat.

Definition key_at (fs : list AVFrame) (p : nat) : bool :=
  match fs !! p with Some f => is_key f | None => false end.

(** The keyframes from position [b] on. *)
Definition key_nodes (cap : nat) (fs : list AVFrame) (b : nat) : list IdrNode :=
  (fun p => mk_idr p (S (p / cap))) <$> filter (fun p => key_at fs p) (seq b (length fs - b)).

Record ring_rep (k : nat) (r : RingBuffer) (fs : list AVFrame) : Prop := {
  rr_cap : length (slots r) = Nat.pow 2 k;
  rr_mask : mask r = (Nat.pow 2 k - 1)%nat;
  rr_pos : write_pos r = length fs;
  rr_slots : forall i, (i < Nat.pow 2 k)%nat -> slots r !! i = Some (slot_after (Nat.pow 2 k) fs i);
  rr_idr : exists b, (b <= length fs - Nat.pow 2 k)%nat /\ idr_list r = key_nodes (Nat.pow 2 k) fs b
}.

Lemma land_mask k p : Nat.land p (Nat.pow 2 k - 1) = (p mod Nat.pow 2 k)%nat.
Proof. rewrite Nat.sub_1_r, <- Nat.ones_equiv. apply Nat.land_ones. Qed.

Lemma pow2_pos k : (0 < Nat.pow 2 k)%nat.
Proof. apply Nat.neq_0_lt_0, Nat.pow_nonzero. lia. Qed.

Lemma div_known (cap q m r : nat) : (0 < cap)%nat -> m = (q * cap + r)%nat -> (r < cap)%nat -> (m / cap = q)%nat.
Proof. intros. symmetry. apply (Nat.div_unique m cap q r); lia. Qed.

(** A readable position is the last write of its slot. *)
Lemma writes_recent cap n p :
  (0 < cap)%nat -> (n - cap <= p < n)%nat -> writes cap n (p mod cap) = S (p / cap).
Proof.
  intros Hc Hp. pose proof (Nat.div_mod p cap ltac:(lia)) as D.
  pose proof (Nat.mod_upper_bound p cap ltac:(lia)). unfold writes.
  apply (div_known _ _ _ (n - p - 1)); try done; nia.
Qed.

Lemma writes_push_same cap n :
  (0 < cap)%nat -> writes cap n (n mod cap) = (n / cap)%nat /\ writes cap (S n) (n mod cap) = S (n / cap).
Proof.
  intros Hc. split; [|by rewrite writes_recent by lia].
  pose proof (Nat.div_mod n cap ltac:(lia)). pose proof (Nat.mod_upper_bound n cap ltac:(lia)).
  unfold writes. apply (div_known _ _ _ (cap - 1)); nia.
Qed.

Lemma writes_push_other cap n i :
  (i < cap)%nat -> i <> (n mod cap)%nat -> writes cap (S n) i = writes cap n i.
Proof.
  intros Hi Hne. pose proof (Nat.div_mod n cap ltac:(lia)).
  pose proof (Nat.mod_upper_bound n cap ltac:(lia)). unfold writes.
  destruct (Nat.lt_ge_cases i (n mod cap)).
  - rewrite (div_known cap (S (n / cap)) (S n + cap - 1 - i) (n mod cap - i)),
      (div_known cap (S (n / cap)) (n + cap - 1 - i) (n mod cap - i - 1)); try done; nia.
  - rewrite (div_known cap (n / cap) (S n + cap - 1 - i) (cap - (i - n mod cap))),
      (div_known cap (n / cap) (n + cap - 1 - i) (cap - 1 - (i - n mod cap))); try done; nia.
Qed.

Lemma writes_bound cap n i w : (i < cap)%nat -> writes cap n i = S w -> (i + w * cap < n)%nat.
Proof.
  intros Hi Hw. unfold writes in Hw.
  pose proof (Nat.Div0.mul_div_le (n + cap - 1 - i) cap) as M. rewrite Hw in M. nia.
Qed.

Lemma slot_at_mod k r fs p :
  ring_rep k r fs -> slot_at r p = Some (slot_after (Nat.pow 2 k) fs (p mod Nat.pow 2 k)).
Proof.
  intros [R1 R2 R3 R4 R5]. unfold slot_at. rewrite R2, land_mask. apply R4.
  apply Nat.mod_upper_bound. pose proof (pow2_pos k). lia.
Qed.

Lemma slot_recent cap fs p f :
  (0 < cap)%nat -> (length fs - cap <= p)%nat -> fs !! p = Some f ->
  slot_after cap fs (p mod cap) = mk_slot (Some f) (S (p / cap)).
Proof.
  intros Hc Hp Hf. pose proof (lookup_lt_Some _ _ _ Hf). unfold slot_after.
  rewrite writes_recent by lia. f_equal.
  pose proof (Nat.div_mod p cap ltac:(lia)). rewrite <- Hf. f_equal. lia.
Qed.

Lemma read_recent k r fs p f :
  ring_rep k r fs -> (length fs - Nat.pow 2 k <= p)%nat -> fs !! p = Some f ->
  read r p = Some (f, S (p / Nat.pow 2 k)).
Proof.
  intros R Hp Hf. unfold read. rewrite (slot_at_mod _ _ _ _ R).
  by rewrite (slot_recent _ _ _ f) by (try done; apply pow2_pos).
Qed.

(** ** Pruning *)

Lemma idr_live_iff k r fs p :
  ring_rep k r fs -> (p < length fs)%nat ->
  idr_live r (length fs) (mk_idr p (S (p / Nat.pow 2 k)))
  = negb (p <? length fs - Nat.pow 2 k)%nat.
Proof.
  intros R Hp. unfold idr_live, earliest_readable_pos. cbn [ring_pos idr_version].
  rewrite (rr_cap _ _ _ R), (slot_at_mod _ _ _ _ R).
  destruct (Nat.ltb_spec p (length fs - Nat.pow 2 k)) as [L|L]; [done|]. cbn [orb negb].
  destruct (Nat.leb_spec (length fs) p); [lia|].
  destruct (lookup_lt_is_Some_2 fs p Hp) as [f Hf].
  rewrite (slot_recent _ _ _ f) by (try done; apply pow2_pos). cbn. apply Nat.eqb_refl.
Qed.

Lemma key_nodes_elem cap fs b node :
  node ∈ key_nodes cap fs b <->
  (b <= ring_pos node < length fs)%nat /\ key_at fs (ring_pos node) = true /\
  idr_version node = S (ring_pos node / cap).
Proof.
  unfold key_nodes. rewrite list_elem_of_fmap. split.
  - intros (p & -> & [Hk Hp]%list_elem_of_filter). apply elem_of_seq in Hp. cbn.
    split; [lia|]. split; [by apply Is_true_eq_true|done].
  - intros (H1 & H2 & H3). exists (ring_pos node). split; [by destruct node; cbn in *; subst|].
    apply list_elem_of_filter. split; [by apply Is_true_eq_left|]. apply elem_of_seq. lia.
Qed.

Lemma prune_key_nodes k r fs b :
  ring_rep k r fs -> (b <= length fs - Nat.pow 2 k)%nat ->
  prune_idr_nodes r (key_nodes (Nat.pow 2 k) fs b) (length fs)
  = key_nodes (Nat.pow 2 k) fs (length fs - Nat.pow 2 k).
Proof.
  intros R Hb. unfold prune_idr_nodes. set (m := (length fs - Nat.pow 2 k)%nat).
  assert (E : key_nodes (Nat.pow 2 k) fs b =
    ((fun p => mk_idr p (S (p / Nat.pow 2 k))) <$> filter (fun p => key_at fs p) (seq b (m - b))) ++
    key_nodes (Nat.pow 2 k) fs m).
  { unfold key_nodes. rewrite <- fmap_app, <- filter_app. do 2 f_equal.
    replace (length fs - b)%nat with ((m - b) + (length fs - m))%nat by lia.
    rewrite seq_app. do 2 f_equal. lia. }
  rewrite E, filter_app. clear E. rewrite filter_none, filter_all; [done| |].
  - intros [p v] Hn. apply key_nodes_elem in Hn as (H1 & _ & H3). cbn in *. subst v.
    rewrite (idr_live_iff _ _ _ _ R) by lia. fold m. by destruct (Nat.ltb_spec p m); [lia|].
  - intros x (p & -> & [_ Hp]%list_elem_of_filter)%list_elem_of_fmap. apply elem_of_seq in Hp.
    rewrite (idr_live_iff _ _ _ _ R) by lia. fold m.
    destruct (Nat.ltb_spec p m); [cbn; tauto|lia].
Qed.

(** ** Pushing preserves the invariant *)

Lemma next_pow2_spec n : exists k, next_power_of_two (Nat.max n 2) = Nat.pow 2 k /\ (n <= Nat.pow 2 k)%nat.
Proof.
  exists (Nat.log2_up (Nat.max n 2)). split; [done|].
  pose proof (Nat.log2_log2_up_spec (Nat.max n 2) ltac:(lia)). lia.
Qed.

Lemma ring_rep_new n k :
  next_power_of_two (Nat.max n 2) = Nat.pow 2 k -> ring_rep k (ring_new n) [].
Proof.
  intros E. unfold ring_new. rewrite E. pose proof (pow2_pos k).
  split; cbn [slots mask write_pos idr_list length]; try done.
  - by rewrite length_replicate.
  - intros i Hi. rewrite lookup_replicate_2 by done. unfold slot_after, writes. cbn [length].
    rewrite (div_known (Nat.pow 2 k) 0 _ (Nat.pow 2 k - 1 - i)) by lia. done.
  - exists O. split; [lia|done].
Qed.

Lemma slots_push k r fs f :
  ring_rep k r fs ->
  let i := (length fs mod Nat.pow 2 k)%nat in
  forall j, (j < Nat.pow 2 k)%nat ->
  <[i := mk_slot (Some f) (S (length fs / Nat.pow 2 k))]> (slots r) !! j
  = Some (slot_after (Nat.pow 2 k) (fs ++ [f]) j).
Proof.
  intros [R1 R2 R3 R4 R5] i j Hj. pose proof (pow2_pos k) as Hc.
  set (cap := Nat.pow 2 k) in *. unfold slot_after. rewrite length_app. cbn [length].
  rewrite Nat.add_1_r. destruct (decide (j = i)) as [->|Hne].
  - rewrite list_lookup_insert_eq by lia.
    destruct (writes_push_same cap (length fs) Hc) as [_ E]. fold i in E. rewrite E.
    do 2 f_equal. rewrite lookup_app_r.
    + pose proof (Nat.div_mod (length fs) cap ltac:(lia)) as D. fold i in D.
      replace (i + length fs / cap * cap - length fs)%nat with O by lia. done.
    + pose proof (Nat.div_mod (length fs) cap ltac:(lia)) as D. fold i in D. lia.
  - rewrite list_lookup_insert_ne by done. rewrite R4 by done. f_equal. unfold slot_after.
    rewrite (writes_push_other cap (length fs) j) by done.
    destruct (writes cap (length fs) j) as [|w] eqn:Ew; [done|].
    f_equal. rewrite lookup_app_l; [done|]. by apply writes_bound with (n := length fs).
Qed.

Lemma key_nodes_push cap fs f b :
  (b <= length fs)%nat ->
  key_nodes cap (fs ++ [f]) b =
  key_nodes cap fs b ++ (if is_key f then [mk_idr (length fs) (S (length fs / cap))] else []).
Proof.
  intros Hb. unfold key_nodes. rewrite length_app. cbn [length].
  replace (length fs + 1 - b)%nat with ((length fs - b) + 1)%nat by lia.
  rewrite seq_app, filter_app, fmap_app. f_equal.
  - f_equal. apply filter_ext_in. intros p Hp%elem_of_seq.
    unfold key_at. by rewrite lookup_app_l by lia.
  - replace (b + (length fs - b))%nat with (length fs) by lia. cbn [seq].
    destruct (is_key f) eqn:Ek.
    + rewrite filter_cons_True; [done|]. unfold key_at.
      rewrite list_lookup_middle by done. rewrite Ek. cbn. tauto.
    + rewrite filter_cons_False; [done|]. unfold key_at.
      rewrite list_lookup_middle by done. rewrite Ek. cbn. tauto.
Qed.

Lemma key_nodes_length cap fs b : (length (key_nodes cap fs b) <= length fs - b)%nat.
Proof.
  unfold key_nodes. rewrite length_fmap. etrans; [apply length_filter|]. by rewrite length_seq.
Qed.

Lemma ring_rep_push k r fs f : ring_rep k r fs -> ring_rep k (fst (push r f)) (fs ++ [f]).
Proof.
  intros R. pose proof R as [R1 R2 R3 R4 (b & Hb & R5)]. pose proof (pow2_pos k) as Hc.
  unfold push. rewrite R2, R3, land_mask, R4 by (apply Nat.mod_upper_bound; lia).
  assert (Ev : slot_version (slot_after (Nat.pow 2 k) fs (length fs mod Nat.pow 2 k))
               = (length fs / Nat.pow 2 k)%nat).
  { unfold slot_after. destruct (writes_push_same (Nat.pow 2 k) (length fs) Hc) as [E _].
    rewrite E. by destruct (length fs / Nat.pow 2 k)%nat. }
  rewrite Ev. set (r1 := mk_ring _ _ _ _).
  assert (R' : forall nodes, (exists b, (b <= length (fs ++ [f]) - Nat.pow 2 k)%nat /\
      nodes = key_nodes (Nat.pow 2 k) (fs ++ [f]) b) -> ring_rep k (set_idr_list nodes r1) (fs ++ [f])).
  { intros nodes Hn. split; cbn [slots mask write_pos idr_list set_idr_list r1]; try done.
    - by rewrite length_insert.
    - rewrite length_app. cbn. lia.
    - by apply slots_push. }
  assert (Hlen : length (fs ++ [f]) = S (length fs)) by (rewrite length_app; cbn; lia).
  cbn [fst]. destruct (is_key f) eqn:Ek.
  - unfold record_idr. cbn [idr_list write_pos slots r1]. rewrite R5, length_insert, R1.
    pose proof (key_nodes_push (Nat.pow 2 k) fs f b ltac:(lia)) as Ekn. rewrite Ek in Ekn.
    rewrite <- Ekn, <- Hlen.
    change (prune_idr_nodes r1) with
      (prune_idr_nodes (set_idr_list (key_nodes (Nat.pow 2 k) (fs ++ [f]) b) r1)).
    rewrite (prune_key_nodes k) by
      first [lia | apply R'; exists b; split; [lia|done]].
    pose proof (key_nodes_length (Nat.pow 2 k) (fs ++ [f]) (length (fs ++ [f]) - Nat.pow 2 k)) as Hl.
    destruct (Nat.ltb_spec (Nat.pow 2 k * 2)
      (length (key_nodes (Nat.pow 2 k) (fs ++ [f]) (length (fs ++ [f]) - Nat.pow 2 k)))); [lia|].
    apply R'. eexists. split; [|done]. lia.
  - replace r1 with (set_idr_list (key_nodes (Nat.pow 2 k) (fs ++ [f]) b) r1).
    + apply R'. exists b. split; [lia|done].
    + pose proof (key_nodes_push (Nat.pow 2 k) fs f b ltac:(lia)) as Ekn.
      rewrite Ek, app_nil_r in Ekn. rewrite Ekn, <- R5. done.
Qed.

Lemma ring_rep_push_all k fs : forall r gs, ring_rep k r gs -> ring_rep k (push_all r fs) (gs ++ fs).
Proof.
  induction fs as [|f fs IH]; intros r gs R; cbn [push_all]; [by rewrite app_nil_r|].
  apply ring_rep_push with (f := f) in R. apply IH in R. by rewrite <- app_assoc in R.
Qed.

(** ** The bootstrap window *)

Lemma find_map_some {A B} (f : A -> option B) l y :
  find_map f l = Some y ->
  exists l1 x l2, l = l1 ++ x :: l2 /\ f x = Some y /\ forall z, z ∈ l1 -> f z = None.
Proof.
  induction l as [|x l IH]; cbn; [done|]. destruct (f x) eqn:E.
  - intros [= <-]. exists [], x, l. split; [done|]. split; [done|].
    intros z Hz. by apply not_elem_of_nil in Hz.
  - intros H. destruct (IH H) as (l1 & x' & l2 & -> & Hx & Hl). exists (x :: l1), x', l2.
    split; [done|]. split; [done|]. intros z [->|Hz]%elem_of_cons; auto.
Qed.

Lemma find_map_none {A B} (f : A -> option B) l x :
  find_map f l = None -> x ∈ l -> f x = None.
Proof.
  induction l as [|y l IH]; cbn; [by intros _ ?%not_elem_of_nil|].
  destruct (f y) eqn:E; [done|]. intros H [->|Hx]%elem_of_cons; auto.
Qed.

(** A search from the top of a range finds the last hit. *)
Lemma find_down_some {B} (f : nat -> option B) s e y :
  find_map f (positions_down s e) = Some y ->
  exists p, (s <= p < e)%nat /\ f p = Some y /\ forall q, (p < q < e)%nat -> f q = None.
Proof.
  intros (l1 & p & l2 & E & Hp & Hl)%find_map_some. unfold positions_down in E.
  assert (Hin : p ∈ seq s (e - s)).
  { apply list_elem_of_In, in_rev. rewrite E. apply in_app_iff. right. by left. }
  apply elem_of_seq in Hin. exists p. split; [lia|]. split; [done|]. intros q Hq. apply Hl.
  assert (E' : seq s (e - s) = rev l2 ++ p :: rev l1).
  { rewrite <- (rev_involutive (seq _ _)), E, rev_app_distr. cbn. by rewrite <- app_assoc. }
  assert (Hq' : q ∈ seq s (e - s)) by (apply elem_of_seq; lia).
  assert (Hpos : length (rev l2) = (p - s)%nat).
  { assert (Hn : seq s (e - s) !! length (rev l2) = Some p) by (rewrite E'; by apply list_lookup_middle).
    apply lookup_seq in Hn. lia. }
  assert (Hqn : seq s (e - s) !! (q - s)%nat = Some q) by (apply lookup_seq; lia).
  rewrite E', lookup_app_r, lookup_cons_ne_0 in Hqn by lia.
  apply list_elem_of_lookup_2 in Hqn. by apply list_elem_of_In, in_rev, list_elem_of_In in Hqn.
Qed.

Lemma find_down_none {B} (f : nat -> option B) s e q :
  find_map f (positions_down s e) = None -> (s <= q < e)%nat -> f q = None.
Proof.
  intros H Hq. eapply find_map_none; [exact H|]. unfold positions_down.
  apply list_elem_of_In, in_rev. rewrite rev_involutive. apply list_elem_of_In, elem_of_seq. lia.
Qed.

Section window.
Context (k : nat) (r : RingBuffer) (fs : list AVFrame) (R : ring_rep k r fs).
Let n := length fs.
Let cap := Nat.pow 2 k.

Lemma age_range s a :
  (s <= n)%nat -> (s <= clamp_start_by_max_age r s n a <= n)%nat.
Proof using R.
  intros Hs. unfold clamp_start_by_max_age. destruct a as [m|]; [|lia].
  destruct (_ || _); [lia|].
  destruct (find_map (read r) _) as [[f v]|]; [|lia].
  destruct (frame_time_ms f) as [t|]; [|lia].
  destruct (find_map _ _) as [p|] eqn:E; [|lia].
  apply find_down_some in E as (q & Hq & Hf & _). repeat case_match; simplify_eq; lia.
Qed.

Lemma disc_range s :
  (s <= n)%nat ->
  (s <= clamp_start_by_discontinuity r s n <= n)%nat /\
  (clamp_start_by_discontinuity r s n = s \/
   exists f v, read r (clamp_start_by_discontinuity r s n) = Some (f, v) /\
               is_discontinuity f = true /\ (clamp_start_by_discontinuity r s n < n)%nat) /\
  forall q f, (clamp_start_by_discontinuity r s n < q)%nat -> (n - cap <= q)%nat ->
    fs !! q = Some f -> is_discontinuity f = false.
Proof using R.
  intros Hs. unfold clamp_start_by_discontinuity. destruct (find_map _ _) as [p|] eqn:E.
  - apply find_down_some in E as (p' & Hp & Hf & Hq).
    destruct (read r p') as [[f v]|] eqn:Er; [|done].
    destruct (is_discontinuity f) eqn:Ed; simplify_eq. split; [lia|]. split; [right; exists f, v; split; [done|]; split; [done|lia]|].
    intros q g Hlt Hc Hg. pose proof (lookup_lt_Some _ _ _ Hg) as Hl. fold n in Hl.
    specialize (Hq q ltac:(lia)). rewrite (read_recent _ _ _ _ _ R Hc Hg) in Hq.
    by destruct (is_discontinuity g).
  - split; [lia|]. split; [by left|]. intros q g Hlt Hc Hg.
    pose proof (lookup_lt_Some _ _ _ Hg) as Hl. fold n in Hl.
    pose proof (find_down_none _ _ _ q E ltac:(lia)) as Hq. cbn in Hq.
    rewrite (read_recent _ _ _ _ _ R Hc Hg) in Hq. by destruct (is_discontinuity g).
Qed.

(** No frame from the clamped start on is older than the limit. *)
Lemma age_bound s m latest t :
  (s <= n)%nat -> 0 < m -> last fs = Some latest -> frame_time_ms latest = Some t ->
  forall q f tq, (clamp_start_by_max_age r s n (Some m) <= q)%nat -> (n - cap <= q)%nat ->
    fs !! q = Some f -> frame_time_ms f = Some tq -> sat_i 128 (t - m) <= tq.
Proof using R.
  intros Hs Hm Hlast Ht q f tq Hge Hc Hf Htq. pose proof (lookup_lt_Some _ _ _ Hf) as Hl. fold n in Hl.
  unfold clamp_start_by_max_age in Hge. destruct (Z.eqb_spec m 0); [lia|]. cbn [orb] in Hge.
  destruct (Nat.leb_spec n s); [lia|].
  rewrite last_lookup in Hlast. fold n in Hlast. replace (pred n) with (n - 1)%nat in Hlast by lia.
  pose proof (pow2_pos k) as Hcap. fold cap in Hcap.
  pose proof (read_recent _ _ _ (n - 1) _ R ltac:(fold n cap; lia) Hlast) as Hr.
  destruct (find_map (read r) _) as [[g v]|] eqn:Ef.
  2: { pose proof (find_down_none _ _ _ (n - 1) Ef ltac:(lia)). congruence. }
  assert (g = latest) as ->.
  { apply find_down_some in Ef as (p & Hp & Hg & Hq).
    destruct (decide (p = n - 1)%nat) as [->|]; [congruence|].
    specialize (Hq (n - 1)%nat ltac:(lia)). congruence. }
  rewrite Ht in Hge. pose proof (read_recent _ _ _ _ _ R Hc Hf) as Hrq.
  destruct (find_map _ _) as [p|] eqn:E.
  - apply find_down_some in E as (p' & Hp & Hp' & Hq).
    assert (p = S p') by (repeat case_match; simplify_eq; done). subst p.
    specialize (Hq q ltac:(lia)). rewrite Hrq, Htq in Hq.
    by destruct (Z.ltb_spec tq (sat_i 128 (t - m))).
  - pose proof (find_down_none _ _ _ q E ltac:(lia)) as Hq. cbn in Hq.
    rewrite Hrq, Htq in Hq. by destruct (Z.ltb_spec tq (sat_i 128 (t - m))).
Qed.
End window.

(** ** Bootstrap *)

Lemma find_map_filter {A B C} (P : A -> bool) (g : A -> B) (f : B -> option C) (l : list A) :
  find_map f (g <$> filter (fun x => P x) l) = find_map (fun x => if P x then f (g x) else None) l.
Proof.
  induction l as [|x l IH]; [done|]. cbn [find_map]. destruct (P x) eqn:E.
  - rewrite filter_cons_True by (by rewrite E). cbn. by rewrite IH.
  - rewrite filter_cons_False by (rewrite E; auto). exact IH.
Qed.

Lemma rev_filter {A} (P : A -> bool) (l : list A) :
  rev (filter (fun x => P x) l) = filter (fun x => P x) (rev l).
Proof.
  induction l as [|x l IH]; [done|]. cbn [rev]. rewrite filter_app, <- IH. destruct (P x) eqn:E.
  - rewrite !filter_cons_True by (by rewrite E). done.
  - rewrite !filter_cons_False by (rewrite E; auto). by rewrite app_nil_r.
Qed.

Section bootstrap.
Context (k : nat) (r : RingBuffer) (fs : list AVFrame) (R : ring_rep k r fs).
Let n := length fs.
Let cap := Nat.pow 2 k.

Definition live_key (w : nat) (q : nat) : option nat :=
  if key_at fs q then if (w <=? q)%nat && (q <? length fs)%nat then Some q else None else None.

Lemma choose_node (w : nat) :
  find_map (in_window w n) (key_nodes cap fs (n - cap)) =
    find_map (live_key w) (seq (n - cap) (n - (n - cap))) /\
  find_map (in_window w n) (rev (key_nodes cap fs (n - cap))) =
    find_map (live_key w) (positions_down (n - cap) n).
Proof using k.
  unfold key_nodes. rewrite <- map_rev, rev_filter. split; apply find_map_filter.
Qed.

Lemma live_key_some w q p : live_key w q = Some p -> p = q /\ key_at fs q = true /\ (w <= q < n)%nat.
Proof using k.
  unfold live_key. destruct (key_at fs q); [|done].
  destruct (Nat.leb_spec w q), (Nat.ltb_spec q (length fs)); cbn; try done.
  intros [= <-]. unfold n. auto.
Qed.

Lemma live_key_intro w q : key_at fs q = true -> (w <= q < n)%nat -> live_key w q = Some q.
Proof using k.
  intros Hk Hq. unfold live_key. rewrite Hk. unfold n in Hq.
  destruct (Nat.leb_spec w q), (Nat.ltb_spec q (length fs)); try lia. done.
Qed.

Lemma reads_suffix p :
  (n - cap <= p <= n)%nat -> omap (fun pos => fst <$> read r pos) (seq p (n - p)) = drop p fs.
Proof using R.
  intros Hp. remember (n - p)%nat as m eqn:Em. revert p Hp Em.
  induction m as [|m IH]; intros p Hp Em.
  - rewrite drop_ge by (unfold n in *; lia). done.
  - cbn [seq omap list_omap]. destruct (lookup_lt_is_Some_2 fs p ltac:(unfold n in *; lia)) as [f Hf].
    rewrite (read_recent _ _ _ _ f R) by (done || unfold n, cap in *; lia).
    cbn [fst fmap option_fmap option_map]. rewrite (IH (S p)) by lia.
    by rewrite (drop_S _ _ _ Hf).
Qed.

Lemma pruned_list : prune_idr_nodes r (idr_list r) n = key_nodes cap fs (n - cap).
Proof using R.
  pose proof R as [_ _ _ _ (b & Hb & ->)]. by apply prune_key_nodes.
Qed.

Lemma clamp_live_tail w policy :
  mode policy = LiveTail -> wait_for_next_random_access_point policy = true ->
  let start := snd (clamp_start_by_random_access r w n policy) in
  (start = n /\ forall q, (w <= q)%nat -> (n - cap <= q < n)%nat -> key_at fs q = false) \/
  ((w <= start)%nat /\ (n - cap <= start < n)%nat /\ key_at fs start = true /\
   forall q, (start < q < n)%nat -> key_at fs q = false).
Proof using R.
  intros Hm Hw. unfold clamp_start_by_random_access. rewrite Hm, pruned_list, Hw. cbn [snd].
  destruct (choose_node w) as [_ ->]. destruct (find_map _ _) as [p|] eqn:E.
  - right. apply find_down_some in E as (p' & Hp & Hk & Hq).
    apply live_key_some in Hk as (-> & Hk & Hwp). repeat split; try lia; try done.
    intros q Hlt. specialize (Hq q Hlt). destruct (key_at fs q) eqn:Ek; [|done].
    by rewrite live_key_intro in Hq by (done || lia).
  - left. split; [done|]. intros q Hwq Hq. pose proof (find_down_none _ _ _ q E Hq) as Hn.
    destruct (key_at fs q) eqn:Ek; [|done]. by rewrite live_key_intro in Hn by (done || lia).
Qed.

Lemma clamp_full_gop w policy :
  mode policy = FullGop -> wait_for_next_random_access_point policy = true ->
  let start := snd (clamp_start_by_random_access r w n policy) in
  (start = n /\ forall q, (w <= q)%nat -> (n - cap <= q < n)%nat -> key_at fs q = false) \/
  ((w <= start)%nat /\ (n - cap <= start < n)%nat /\ key_at fs start = true).
Proof using R.
  intros Hm Hw. unfold clamp_start_by_random_access. rewrite Hm, pruned_list, Hw. cbn [snd].
  destruct (choose_node w) as [-> _]. destruct (find_map _ _) as [p|] eqn:E.
  - right. apply find_map_some in E as (l1 & x & l2 & Eq & Hk & _).
    assert (Hx : x ∈ seq (n - cap) (n - (n - cap))).
    { rewrite Eq. apply elem_of_app. right. left. }
    apply elem_of_seq in Hx. apply live_key_some in Hk as (-> & Hk & Hwp).
    repeat split; try lia; done.
  - left. split; [done|]. intros q Hwq Hq.
    assert (Hx : q ∈ seq (n - cap) (n - (n - cap))) by (apply elem_of_seq; lia).
    pose proof (find_map_none _ _ _ E Hx) as Hn.
    destruct (key_at fs q) eqn:Ek; [|done]. by rewrite live_key_intro in Hn by (done || lia).
Qed.
(** What the policy's limits make of the window. *)
Lemma window_facts policy :
  let w := bootstrap_window r policy in
  (n - max_bootstrap_frames policy <= w <= n)%nat /\
  (max_bootstrap_age_ms policy = None -> (n - max_bootstrap_frames policy < w)%nat -> (n - cap <= w)%nat ->
   exists g, fs !! w = Some g /\ is_discontinuity g = true) /\
  (forall q f, (w < q)%nat -> (n - cap <= q)%nat -> fs !! q = Some f -> is_discontinuity f = false) /\
  (forall m latest t, max_bootstrap_age_ms policy = Some m -> 0 < m -> last fs = Some latest ->
     frame_time_ms latest = Some t ->
     forall q f tq, (w <= q)%nat -> (n - cap <= q)%nat -> fs !! q = Some f -> frame_time_ms f = Some tq ->
     sat_i 128 (t - m) <= tq).
Proof using R.
  intros w. set (s0 := (n - max_bootstrap_frames policy)%nat).
  set (s1 := clamp_start_by_max_age r s0 n (max_bootstrap_age_ms policy)).
  assert (Ew : w = clamp_start_by_discontinuity r s1 n)
    by (unfold w, bootstrap_window; by rewrite (rr_pos _ _ _ R)).
  pose proof (age_range k r fs R s0 (max_bootstrap_age_ms policy) ltac:(unfold s0, n; lia)) as A1.
  fold n s1 in A1. destruct (disc_range k r fs R s1 ltac:(unfold n in *; lia)) as (D1 & D2 & D3).
  fold n in D1, D2, D3. rewrite <- Ew in D1, D2, D3. split; [lia|]. split; [|split].
  - intros Hage Hlt Hcap. unfold s1 in D2. rewrite Hage in D2. cbn in D2.
    destruct D2 as [D2|(g & v & Hr & Hg & Hwn)]; [lia|].
    destruct (lookup_lt_is_Some_2 fs w Hwn) as [g' Hg']. exists g'. split; [done|].
    rewrite (read_recent _ _ _ w g' R Hcap Hg') in Hr. by injection Hr as -> _.
  - exact D3.
  - intros m latest t Hm Hpos Hlast Ht q f tq Hq Hc Hf Htq.
    apply (age_bound k r fs R s0 m latest t) with (q := q) (f := f); try done; fold n.
    + unfold s0. lia.
    + unfold s1 in D1. rewrite Hm in D1. lia.
Qed.

(** The bootstrap is a suffix of the stream; where it starts. *)
Lemma bootstrap_suffix policy :
  mode policy <> BootNone -> wait_for_next_random_access_point policy = true ->
  (0 < max_bootstrap_frames policy)%nat ->
  let w := bootstrap_window r policy in
  exists start, snd (bootstrap_frames r policy) = drop start fs /\
    (start = n /\ (forall q, (w <= q)%nat -> (n - cap <= q < n)%nat -> key_at fs q = false) \/
     (w <= start)%nat /\ (n - cap <= start < n)%nat /\ key_at fs start = true /\
     (mode policy = LiveTail -> forall q, (start < q < n)%nat -> key_at fs q = false)).
Proof using R.
  intros Hmode Hwait Hmax w. exists (snd (clamp_start_by_random_access r w n policy)).
  assert (C : let start := snd (clamp_start_by_random_access r w n policy) in
    start = n /\ (forall q, (w <= q)%nat -> (n - cap <= q < n)%nat -> key_at fs q = false) \/
    (w <= start)%nat /\ (n - cap <= start < n)%nat /\ key_at fs start = true /\
    (mode policy = LiveTail -> forall q, (start < q < n)%nat -> key_at fs q = false)).
  { destruct (mode policy) eqn:Em; [done| |].
    - destruct (clamp_live_tail w policy Em Hwait) as [C|C]; [by left|right]. intuition.
    - destruct (clamp_full_gop w policy Em Hwait) as [C|C]; [by left|right]. intuition discriminate. }
  split; [|exact C]. unfold bootstrap_frames.
  destruct (Nat.eqb_spec (max_bootstrap_frames policy) 0) as [|_]; [lia|].
  rewrite (rr_pos _ _ _ R). fold n w. cbv zeta in C.
  destruct (clamp_start_by_random_access r w n policy) as [r' start] eqn:Ec. cbn [snd] in *.
  assert (Er : forall p, read r' p = read r p).
  { intros p. unfold clamp_start_by_random_access in Ec. destruct (mode policy); by injection Ec as <- _. }
  transitivity (omap (fun pos => fst <$> read r pos) (seq start (n - start))).
  - transitivity (omap (fun pos => fst <$> read r' pos) (seq start (n - start))); [by destruct (mode policy)|].
    clear -Er. induction (seq start (n - start)) as [|x l IH]; cbn; [done|]. by rewrite Er, IH.
  - apply reads_suffix. lia.
Qed.
End bootstrap.

(** ** Claims *)

(** The ring holds exactly the last frames. After any frames were pushed
    into a ring of any capacity, reading a position among the last [cap] (the
    capacity rounded up to a power of two) gives the frame pushed there and the
    number of times its slot was written. *)
Theorem ring_reads_recent capacity fs p f :
  let cap := next_power_of_two (Nat.max capacity 2) in
  fs !! p = Some f -> (length fs - cap <= p)%nat ->
  read (push_all (ring_new capacity) fs) p = Some (f, S (p / cap)).
Proof.
  intros cap Hf Hp. destruct (next_pow2_spec capacity) as (k & E & _). unfold cap in *. rewrite E in *.
  apply (read_recent k _ fs); try done.
  apply (ring_rep_push_all k fs _ []), ring_rep_new, E.
Qed.

(** [C11] A bootstrapped subscriber can decode from the first frame. In the modes
    [LiveTail] and [FullGop], when the policy waits for a random access point, a
    new subscriber is given nothing or a suffix of the published frames that
    starts with a keyframe, is no longer than the policy's limit or the ring, does
    not cross a discontinuity, and holds no frame older than the policy's age
    limit (relative to the newest frame); in [LiveTail] mode it starts at the
    newest keyframe. Without an age limit it is empty only if no keyframe
    qualifies. *)
Theorem bootstrap_decodable capacity fs policy :
  mode policy <> BootNone -> wait_for_next_random_access_point policy = true ->
  (0 < max_bootstrap_frames policy)%nat ->
  let cap := next_power_of_two (Nat.max capacity 2) in
  let out := snd (bootstrap_frames (push_all (ring_new capacity) fs) policy) in
  (out = [] /\
    (max_bootstrap_age_ms policy = None ->
     forall q f, fs !! q = Some f -> is_key f = true ->
       (length fs - q <= Nat.min cap (max_bootstrap_frames policy))%nat ->
       exists d g, (q < d)%nat /\ fs !! d = Some g /\ is_discontinuity g = true)) \/
  exists p f,
    fs !! p = Some f /\ is_key f = true /\ out = drop p fs /\
    (length out <= Nat.min cap (max_bootstrap_frames policy))%nat /\
    (forall d g, (p < d)%nat -> fs !! d = Some g -> is_discontinuity g = false) /\
    (mode policy = LiveTail -> forall q g, (p < q)%nat -> fs !! q = Some g -> is_key g = false) /\
    (forall m latest t, max_bootstrap_age_ms policy = Some m -> 0 < m -> last fs = Some latest ->
       frame_time_ms latest = Some t ->
       forall q g tq, (p <= q)%nat -> fs !! q = Some g -> frame_time_ms g = Some tq ->
       sat_i 128 (t - m) <= tq).
Proof.
  intros Hmode Hwait Hmax cap out. destruct (next_pow2_spec capacity) as (k & E & _).
  assert (R : ring_rep k (push_all (ring_new capacity) fs) fs)
    by (apply (ring_rep_push_all k fs _ []), ring_rep_new, E).
  unfold cap, out in *. rewrite E in *. clear cap out. set (r := push_all _ _) in *.
  destruct (window_facts k r fs R policy) as (W1 & W2 & W3 & W4).
  destruct (bootstrap_suffix k r fs R policy Hmode Hwait Hmax) as (start & -> & [[-> C]|(C1 & C2 & C3 & C4)]).
  - left. split; [by apply drop_ge|]. intros Hage q f Hf Hk Hq.
    pose proof (lookup_lt_Some _ _ _ Hf) as Hl.
    destruct (Nat.le_gt_cases (bootstrap_window r policy) q) as [Hwq|Hwq].
    { specialize (C q Hwq ltac:(lia)). unfold key_at in C. rewrite Hf in C. congruence. }
    destruct (W2 Hage ltac:(lia) ltac:(lia)) as (g & Hg & Hd). eauto.
  - right. destruct (lookup_lt_is_Some_2 fs start ltac:(lia)) as [f Hf]. exists start, f.
    split; [done|]. split; [unfold key_at in C3; by rewrite Hf in C3|]. split; [done|].
    split; [rewrite length_drop; lia|]. split; [|split].
    + intros d g Hd Hg. apply (W3 d g); [lia|lia|done].
    + intros Hm q g Hq Hg. pose proof (lookup_lt_Some _ _ _ Hg) as Hl.
      specialize (C4 Hm q ltac:(lia)). unfold key_at in C4. by rewrite Hg in C4.
    + intros m latest t Hm Hpos Hlast Ht q g tq Hq Hg Htq.
      apply (W4 m latest t Hm Hpos Hlast Ht q g tq); done || lia.
Qed.

(** A ring of eight frames, with a keyframe at every third position. *)
Definition demo_gop (n : nat) : list AVFrame :=
  (fun i => mk_frame 1 Video (Z.of_nat i * 40) (Z.of_nat i * 40) (mk_timebase 1 1000)
              (if (i mod 3 =? 0)%nat then FLAG_KEY else 0) []) <$> seq 0 n.

Lemma ring_reads_recent_witness :
  exists f, read (push_all (ring_new 8) (demo_gop 11)) 5 = Some (f, 1%nat) /\ dts f = 200.
Proof.
  eexists. split; [|shelve]. apply (ring_reads_recent 8 (demo_gop 11) 5).
  - reflexivity.
  - vm_compute. lia.
  Unshelve. reflexivity.
Defined.

Lemma bootstrap_decodable_witness :
  let policy := mk_policy LiveTail (Some 200) 6 true in
  let out := snd (bootstrap_frames (push_all (ring_new 8) (demo_gop 11)) policy) in
  out = [] \/ exists p, out = drop p (demo_gop 11) /\ (length out <= 6)%nat.
Proof.
  intros policy out.
  destruct (bootstrap_decodable 8 (demo_gop 11) policy) as [[H _]|(p & f & _ & _ & H & Hl & _)].
  - discriminate.
  - reflexivity.
  - vm_compute. lia.
  - left. exact H.
  - right. exists p. split; [exact H|]. etransitivity; [exact Hl|]. vm_compute. lia.
Defined.
