(* ===== verification/EngineDispatch.v ===== *)
(** * Frame dispatch

    Models [DispatchSubscriber], [DispatcherInner] and [Dispatcher] of
    [crates/system/cheetah-engine/src/stream.rs]: every published frame is offered
    to every subscriber's queue, under the subscriber's media filter and
    backpressure policy. The queue is tokio's bounded [mpsc] channel, which the
    sources only call: it is an interface with the documented laws of
    [try_send] and of receiving. *)
From S2P Require Import Prelude Codecs EngineTypes.

(** ** The channel *)

Inductive send_result : Set := SendOk | SendFull | SendClosed.

(** A channel of [A]s, seen as the queue of what was sent and not received. *)
Class BoundedChannel (A C : Type) := {
  ch_new : nat -> C;
  ch_try_send : C -> A -> C * send_result;
  ch_recv : C -> C * option A;
  ch_close : C -> C;
  ch_queue : C -> list A;
  ch_capacity : C -> nat;
  ch_closed : C -> bool;
  ch_new_law : forall n, ch_queue (ch_new n) = [] /\ ch_capacity (ch_new n) = n /\
    ch_closed (ch_new n) = false;
  ch_send_law : forall c f,
    let '(c', res) := ch_try_send c f in
    ch_capacity c' = ch_capacity c /\ ch_closed c' = ch_closed c /\
    if ch_closed c then res = SendClosed /\ ch_queue c' = ch_queue c
    else if (length (ch_queue c) <? ch_capacity c)%nat
         then res = SendOk /\ ch_queue c' = ch_queue c ++ [f]
         else res = SendFull /\ ch_queue c' = ch_queue c;
  ch_recv_law : forall c,
    let '(c', res) := ch_recv c in
    ch_capacity c' = ch_capacity c /\ ch_closed c' = ch_closed c /\
    res = head (ch_queue c) /\ ch_queue c' = tail (ch_queue c)
}.

(** A queue with a length limit satisfies the interface. *)
Record list_channel (A : Type) : Type := mk_channel {
  lc_queue : list A; lc_cap : nat; lc_closed : bool
}.
Arguments mk_channel {A}.
Arguments lc_queue {A}.
Arguments lc_cap {A}.
Arguments lc_closed {A}.

#[export, refine] Instance list_channel_bounded {A} : BoundedChannel A (list_channel A) := {
    ch_new := fun n => mk_channel [] n false;
    ch_try_send := fun c f =>
      if lc_closed c then (c, SendClosed)
      else if (length (lc_queue c) <? lc_cap c)%nat
           then (mk_channel (lc_queue c ++ [f]) (lc_cap c) false, SendOk) else (c, SendFull);
    ch_recv := fun c => (mk_channel (tail (lc_queue c)) (lc_cap c) (lc_closed c), head (lc_queue c));
    ch_close := fun c => mk_channel (lc_queue c) (lc_cap c) true;
    ch_queue := lc_queue;
    ch_capacity := lc_cap;
    ch_closed := lc_closed
  }.
Proof.
  - done.
  - intros c f. destruct c as [q cap []]; cbn [lc_queue lc_cap lc_closed]; [done|].
    destruct (length q <? cap)%nat eqn:El; cbn [lc_queue lc_cap lc_closed]; by rewrite ?El.
  - by intros c.
Defined.

(** ** State *)

Record DispatchSubscriber : Set := mk_subscriber {
  sub_id : Z;
  sub_policy : BackpressurePolicy;
  sub_filter : MediaFilter
}.

(** What the [Arc]s of a subscriber share with its handle: the channel and the
    [wait_for_next_keyframe] flag. *)
Record port (C : Type) : Type := mk_port { p_chan : C; p_wait : bool }.
Arguments mk_port {C}.
Arguments p_chan {C}.
Arguments p_wait {C}.

Record DispatcherInner (C : Type) : Type := mk_dispatcher {
  subscribers : list DispatchSubscriber;
  next_subscriber_id : Z;
  ports : gmap Z (port C)
}.
Arguments mk_dispatcher {C}.
Arguments subscribers {C}.
Arguments next_subscriber_id {C}.
Arguments ports {C}.

Section dispatcher.
Context {C : Type} `{!BoundedChannel AVFrame C}.
Implicit Types (d : DispatcherInner C) (p : port C).

Definition dispatcher_new : DispatcherInner C := mk_dispatcher [] 0 ∅.

Definition add_subscriber (options : SubscriberOptions) d : DispatcherInner C * Z :=
  let id := wrap_u 64 (next_subscriber_id d + 1) in
  let sub := mk_subscriber id (backpressure options) (media_filter options) in
  (mk_dispatcher (subscribers d ++ [sub]) id
     (<[id := mk_port (ch_new (Nat.max (queue_capacity options) 1)) false]> (ports d)), id).

Definition remove_subscribers (ids : list Z) d : DispatcherInner C :=
  match ids with
  | [] => d
  | _ => mk_dispatcher (filter (fun sub => sub_id sub ∉ ids) (subscribers d))
           (next_subscriber_id d) (ports d)
  end.

Definition remove_subscriber (id : Z) d : DispatcherInner C := remove_subscribers [id] d.

Definition clear_subscribers d : DispatcherInner C := mk_dispatcher [] (next_subscriber_id d) (ports d).

Definition subscriber_count d : nat := length (subscribers d).

(** ** One frame, one subscriber *)

Definition filtered_out (f : MediaFilter) (frame : AVFrame) : bool :=
  (negb (enable_video f) && bool_decide (media_kind frame = Video)) ||
  (negb (enable_audio f) && bool_decide (media_kind frame = Audio)).

(** What the body of the loop does: the port it leaves, and whether it sets
    [accepted], [dropped] and adds the subscriber to [remove_ids]. *)
Record verdict : Set := mk_verdict { vd_accepted : bool; vd_dropped : bool; vd_remove : bool }.
Definition no_verdict : verdict := mk_verdict false false false.

Definition send (sub : DispatchSubscriber) (frame : AVFrame) p : port C * verdict :=
  let '(c, res) := ch_try_send (p_chan p) frame in
  match res with
  | SendOk => (mk_port c (p_wait p), mk_verdict true false false)
  | SendFull =>
      match sub_policy sub with
      | DropDroppableFirst =>
          if negb (is_key frame) || is_droppable frame
          then (mk_port c (p_wait p), mk_verdict false true false)
          else (mk_port c (p_wait p), mk_verdict false false true)
      | DropUntilNextKeyframe => (mk_port c true, mk_verdict false true false)
      | DisconnectOnOverflow => (mk_port c (p_wait p), mk_verdict false true true)
      end
  | SendClosed => (mk_port c (p_wait p), mk_verdict false false true)
  end.

Definition offer (sub : DispatchSubscriber) (frame : AVFrame) p : port C * verdict :=
  if filtered_out (sub_filter sub) frame then (p, no_verdict)
  else if bool_decide (sub_policy sub = DropUntilNextKeyframe) && p_wait p then
    if is_key frame then send sub frame (mk_port (p_chan p) false)
    else (p, mk_verdict false true false)
  else send sub frame p.

(** ** The loop *)

Record sweep : Type := mk_sweep {
  sw_ports : gmap Z (port C);
  sw_accepted : bool;
  sw_dropped : bool;
  sw_remove : list Z
}.

Definition dispatch_one (frame : AVFrame) (s : sweep) (sub : DispatchSubscriber) : sweep :=
  match sw_ports s !! sub_id sub with
  | None => s
  | Some p =>
      let '(p, v) := offer sub frame p in
      mk_sweep (<[sub_id sub := p]> (sw_ports s)) (sw_accepted s || vd_accepted v)
        (sw_dropped s || vd_dropped v)
        (if vd_remove v then sw_remove s ++ [sub_id sub] else sw_remove s)
  end.

Definition dispatch_frame (frame : AVFrame) d : DispatcherInner C * DispatchResult :=
  match subscribers d with
  | [] => (d, RejectedClosed)
  | subs =>
      let s := foldl (dispatch_one frame) (mk_sweep (ports d) false false []) subs in
      (remove_subscribers (sw_remove s)
         (mk_dispatcher (subscribers d) (next_subscriber_id d) (sw_ports s)),
       if sw_accepted s then Accepted
       else if sw_dropped s then DroppedByPolicy else RejectedClosed)
  end.

(** The subscriber's side: take one frame; dropping the receiver closes the
    channel. *)
Definition recv_from (id : Z) d : DispatcherInner C * option AVFrame :=
  match ports d !! id with
  | None => (d, None)
  | Some p =>
      let '(c, res) := ch_recv (p_chan p) in
      (mk_dispatcher (subscribers d) (next_subscriber_id d)
         (<[id := mk_port c (p_wait p)]> (ports d)), res)
  end.

Definition drop_receiver (id : Z) d : DispatcherInner C :=
  mk_dispatcher (subscribers d) (next_subscriber_id d)
    (alter (fun p => mk_port (ch_close (p_chan p)) (p_wait p)) id (ports d)).

(** ** Invariant *)

(** Identifiers are distinct, every subscriber has a port, and identifiers are
    handed out in order. *)
Record dispatcher_wf d : Prop := {
  dw_nodup : NoDup (sub_id <$> subscribers d);
  dw_ports : forall sub, sub ∈ subscribers d -> is_Some (ports d !! sub_id sub);
  dw_ids : forall id p, ports d !! id = Some p -> 0 < id <= next_subscriber_id d;
  dw_next : 0 <= next_subscriber_id d < 2 ^ 63
}.

Definition verdict_of (frame : AVFrame) (ps : gmap Z (port C)) (sub : DispatchSubscriber) : verdict :=
  match ps !! sub_id sub with
  | Some p => snd (offer sub frame p)
  | None => no_verdict
  end.

(** The sweep treats each subscriber by itself: the ports it reads are those
    the frame found. *)
Lemma sweep_spec frame ps subs : forall s,
  NoDup (sub_id <$> subs) ->
  (forall sub, sub ∈ subs -> sw_ports s !! sub_id sub = ps !! sub_id sub) ->
  (forall sub, sub ∈ subs -> is_Some (ps !! sub_id sub)) ->
  let s' := foldl (dispatch_one frame) s subs in
  (forall id, sw_ports s' !! id =
     match find (fun sub => sub_id sub =? id) subs with
     | Some sub => (fun p => fst (offer sub frame p)) <$> ps !! id
     | None => sw_ports s !! id
     end) /\
  sw_accepted s' = sw_accepted s || existsb (fun sub => vd_accepted (verdict_of frame ps sub)) subs /\
  sw_dropped s' = sw_dropped s || existsb (fun sub => vd_dropped (verdict_of frame ps sub)) subs /\
  sw_remove s' = sw_remove s ++
    (sub_id <$> filter (fun sub => vd_remove (verdict_of frame ps sub)) subs).
Proof using Type.
  induction subs as [|sub subs IH]; intros s Hnd Hps Hsome; cbn [foldl].
  { cbn. by rewrite !orb_false_r, app_nil_r. }
  cbn in Hnd. apply NoDup_cons in Hnd as [Hni Hnd].
  destruct (Hsome sub ltac:(left)) as [p Hp].
  pose proof (Hps sub ltac:(left)) as Hsp. rewrite Hp in Hsp.
  destruct (offer sub frame p) as [p' v] eqn:Eo.
  assert (Ed : dispatch_one frame s sub =
    mk_sweep (<[sub_id sub := p']> (sw_ports s)) (sw_accepted s || vd_accepted v)
      (sw_dropped s || vd_dropped v)
      (if vd_remove v then sw_remove s ++ [sub_id sub] else sw_remove s))
    by (unfold dispatch_one; rewrite Hsp; cbv beta iota; by rewrite Eo).
  cbv zeta. rewrite Ed.
  assert (Hv : verdict_of frame ps sub = v) by (unfold verdict_of; rewrite Hp; cbv beta iota; by rewrite Eo).
  destruct (IH (mk_sweep (<[sub_id sub := p']> (sw_ports s)) (sw_accepted s || vd_accepted v)
    (sw_dropped s || vd_dropped v)
    (if vd_remove v then sw_remove s ++ [sub_id sub] else sw_remove s)) Hnd) as (I1 & I2 & I3 & I4).
  { intros sub' Hin. cbn [sw_ports]. rewrite lookup_insert_ne; [apply Hps; by right|].
    intros E. apply Hni. rewrite E. by apply list_elem_of_fmap_2. }
  { intros sub' Hin. apply Hsome. by right. }
  cbn [sw_ports sw_accepted sw_dropped sw_remove] in *.
  split; [|split; [|split]].
  - intros id. rewrite I1. cbn [find]. destruct (Z.eqb_spec (sub_id sub) id) as [E|E].
    + rewrite <- E. destruct (find _ subs) as [sub'|] eqn:Ef.
      * apply find_some in Ef as [Hin Heq]. apply Z.eqb_eq in Heq. exfalso. apply Hni.
        rewrite <- Heq. by apply list_elem_of_fmap_2, list_elem_of_In.
      * rewrite lookup_insert_eq, Hp. cbn [fmap option_fmap option_map]. by rewrite Eo.
    + destruct (find _ subs); [done|]. by rewrite lookup_insert_ne.
  - rewrite I2. cbn [existsb]. by rewrite Hv, orb_assoc.
  - rewrite I3. cbn [existsb]. by rewrite Hv, orb_assoc.
  - rewrite I4. destruct (vd_remove v) eqn:Er.
    + rewrite filter_cons_True by (by rewrite Hv, Er). cbn. by rewrite <- app_assoc.
    + rewrite filter_cons_False by (rewrite Hv, Er; auto). done.
Qed.
End dispatcher.

(** ** The life of one subscriber *)

Inductive port_event : Set := Offered (f : AVFrame) | Received.

Section life.
Context {C : Type} `{!BoundedChannel AVFrame C}.
Implicit Types (p : port C).

(** Offers and receives in any order, until the subscriber is removed: the
    verdict of each offer, the frames received, and the port at the end. *)
Fixpoint life (sub : DispatchSubscriber) p (evs : list port_event) :
    list (AVFrame * verdict) * list AVFrame * port C :=
  match evs with
  | [] => ([], [], p)
  | Offered f :: evs =>
      let '(p, v) := offer sub f p in
      if vd_remove v then ([(f, v)], [], p)
      else let '(os, rs, p) := life sub p evs in ((f, v) :: os, rs, p)
  | Received :: evs =>
      let '(c, res) := ch_recv (p_chan p) in
      let '(os, rs, p) := life sub (mk_port c (p_wait p)) evs in
      (os, match res with Some f => f :: rs | None => rs end, p)
  end.

Definition accepted_frames (os : list (AVFrame * verdict)) : list AVFrame :=
  fst <$> filter (fun o => vd_accepted (snd o)) os.

Lemma accepted_frames_cons f v os :
  accepted_frames ((f, v) :: os) = (if vd_accepted v then [f] else []) ++ accepted_frames os.
Proof using Type.
  unfold accepted_frames. destruct (vd_accepted v) eqn:Ea.
  - by rewrite filter_cons_True by (cbn; by rewrite Ea).
  - by rewrite filter_cons_False by (cbn; rewrite Ea; auto).
Qed.

Definition queue p : list AVFrame := ch_queue (p_chan p).
Definition within_capacity p : Prop := (length (queue p) <= ch_capacity (p_chan p))%nat.

Lemma send_queue sub f p :
  let '(p', v) := send sub f p in
  queue p' = queue p ++ (if vd_accepted v then [f] else []) /\
  ch_capacity (p_chan p') = ch_capacity (p_chan p) /\
  (within_capacity p -> within_capacity p').
Proof using Type.
  unfold send, within_capacity, queue. pose proof (ch_send_law (p_chan p) f) as L.
  destruct (ch_try_send (p_chan p) f) as [c res]. destruct L as (L1 & L2 & L3).
  destruct (ch_closed (p_chan p)).
  - destruct L3 as [-> L3]. cbn. rewrite L3, L1, app_nil_r. auto.
  - destruct (Nat.ltb_spec (length (ch_queue (p_chan p))) (ch_capacity (p_chan p))) as [L|L].
    + destruct L3 as [-> L3]. cbn. rewrite L3, L1, length_app. cbn. split_and!; try done; lia.
    + destruct L3 as [-> L3]. destruct (sub_policy sub); [destruct (_ || _)| |]; cbn;
        rewrite L3, L1, app_nil_r; auto.
Qed.

Lemma offer_queue sub f p :
  let '(p', v) := offer sub f p in
  queue p' = queue p ++ (if vd_accepted v then [f] else []) /\
  ch_capacity (p_chan p') = ch_capacity (p_chan p) /\
  (within_capacity p -> within_capacity p').
Proof using Type.
  unfold offer. destruct (filtered_out _ _); [by rewrite app_nil_r|].
  destruct (_ && _); [|apply send_queue]. destruct (is_key f); [|by rewrite app_nil_r].
  apply (send_queue sub f (mk_port (p_chan p) false)).
Qed.

Lemma life_fifo sub evs : forall p,
  let '(os, rs, p') := life sub p evs in
  queue p ++ accepted_frames os = rs ++ queue p' /\
  ch_capacity (p_chan p') = ch_capacity (p_chan p) /\
  (within_capacity p -> within_capacity p').
Proof using Type.
  induction evs as [|[f|] evs IH]; intros p; cbn [life].
  - by rewrite app_nil_r.
  - pose proof (offer_queue sub f p) as O. destruct (offer sub f p) as [p1 v].
    destruct O as (O1 & O2 & O3). destruct (vd_remove v).
    + split_and!; try done. by rewrite accepted_frames_cons, O1, app_nil_r.
    + specialize (IH p1). destruct (life sub p1 evs) as [[os rs] p']. destruct IH as (I1 & I2 & I3).
      rewrite <- I1, O1, accepted_frames_cons, <- app_assoc. split_and!; [done|congruence|auto].
  - pose proof (ch_recv_law (p_chan p)) as L. destruct (ch_recv (p_chan p)) as [c res].
    destruct L as (L1 & L2 & L3 & L4). specialize (IH (mk_port c (p_wait p))).
    destruct (life sub _ evs) as [[os rs] p']. destruct IH as (I1 & I2 & I3).
    unfold queue in *. cbn [p_chan] in *. rewrite L4 in I1. split_and!; [|congruence|].
    + rewrite L3. destruct (ch_queue (p_chan p)) as [|f q]; cbn in *; [done|]. by rewrite I1.
    + intros Hw. apply I3. unfold within_capacity, queue in *. cbn [p_chan]. rewrite L4, L1.
      destruct (ch_queue (p_chan p)); cbn in *; lia.
Qed.

(** After a frame was dropped, the next one accepted is a keyframe. *)
Fixpoint resumes_at_key (waiting : bool) (os : list (AVFrame * verdict)) : Prop :=
  match os with
  | [] => True
  | (f, v) :: os =>
      if vd_accepted v then (waiting = true -> is_key f = true) /\ resumes_at_key false os
      else resumes_at_key (waiting || vd_dropped v) os
  end.

(** Under [DropUntilNextKeyframe]: while a drop is pending the flag is up, and
    only a keyframe gets through. *)
Lemma offer_resumes sub f p waiting :
  sub_policy sub = DropUntilNextKeyframe -> (waiting = true -> p_wait p = true) ->
  let '(p1, v) := offer sub f p in
  (vd_accepted v = true -> waiting = true -> is_key f = true) /\
  (vd_accepted v = false -> waiting || vd_dropped v = true ->
     p_wait p1 = true \/ vd_remove v = true).
Proof using Type.
  intros Hpol Hw. unfold offer. destruct (filtered_out _ _).
  { split; [done|]. intros _ H. rewrite orb_false_r in H. auto. }
  rewrite Hpol, bool_decide_true by done. cbn [andb]. unfold send. rewrite Hpol.
  destruct (p_wait p) eqn:Ep; [destruct (is_key f) eqn:Ek|].
  - cbn [p_chan]. destruct (ch_try_send (p_chan p) f) as [c []]; split; cbn; intros; auto.
  - split; cbn; intros; auto; done.
  - destruct waiting; [by specialize (Hw eq_refl)|].
    destruct (ch_try_send (p_chan p) f) as [c []]; split; cbn; intros; auto; done.
Qed.

Lemma life_resumes sub evs : forall p waiting,
  sub_policy sub = DropUntilNextKeyframe -> (waiting = true -> p_wait p = true) ->
  resumes_at_key waiting (fst (fst (life sub p evs))).
Proof using Type.
  induction evs as [|[f|] evs IH]; intros p waiting Hpol Hw; cbn [life]; [done| |].
  - pose proof (offer_resumes sub f p waiting Hpol Hw) as O. destruct (offer sub f p) as [p1 v].
    destruct O as [O1 O2]. destruct (vd_remove v) eqn:Er.
    + cbn. destruct (vd_accepted v); [split; [auto|done]|done].
    + assert (Hk : resumes_at_key (if vd_accepted v then false else waiting || vd_dropped v)
                     (fst (fst (life sub p1 evs)))).
      { apply IH; [done|]. destruct (vd_accepted v); [done|]. intros H. by destruct (O2 eq_refl H). }
      destruct (life sub p1 evs) as [[os rs] p']. cbn [fst] in *. cbn.
      destruct (vd_accepted v); auto.
  - destruct (ch_recv (p_chan p)) as [c res]. specialize (IH (mk_port c (p_wait p)) waiting Hpol Hw).
    by destruct (life sub _ evs) as [[os rs] p'].
Qed.

(** Under [DisconnectOnOverflow] a drop is the end. *)
Lemma life_no_gap sub evs : forall p,
  sub_policy sub = DisconnectOnOverflow ->
  forall a f v b, fst (fst (life sub p evs)) = a ++ (f, v) :: b -> vd_dropped v = true -> b = [].
Proof using Type.
  induction evs as [|[g|] evs IH]; intros p Hpol a f v b; cbn [life].
  - by destruct a.
  - assert (O : vd_dropped (snd (offer sub g p)) = true -> vd_remove (snd (offer sub g p)) = true).
    { unfold offer. destruct (filtered_out _ _); [done|]. rewrite Hpol, bool_decide_false by done.
      cbn [andb]. unfold send. rewrite Hpol. by destruct (ch_try_send (p_chan p) g) as [c []]. }
    destruct (offer sub g p) as [p1 w]. cbn [snd] in O. destruct (vd_remove w) eqn:Er; cbn [fst].
    + destruct a as [|x a]; cbn; [by intros [= -> -> <-]|]. by destruct a.
    + specialize (IH p1 Hpol). destruct (life sub p1 evs) as [[os rs] p']. cbn [fst] in *.
      destruct a as [|x a]; cbn; [|intros [= _ E]; by apply (IH a f v b)].
      intros [= -> -> ->] Hd. by specialize (O Hd).
  - destruct (ch_recv (p_chan p)) as [c res]. specialize (IH (mk_port c (p_wait p)) Hpol a f v b).
    by destruct (life sub _ evs) as [[os rs] p'].
Qed.

(** Under [DropDroppableFirst] a keyframe that is not droppable is never lost
    silently. *)
Lemma life_keeps_keys sub evs : forall p,
  sub_policy sub = DropDroppableFirst ->
  Forall (fun o => vd_dropped (snd o) = true ->
            is_key (fst o) = false \/ is_droppable (fst o) = true) (fst (fst (life sub p evs))).
Proof using Type.
  induction evs as [|[g|] evs IH]; intros p Hpol; cbn [life]; [constructor| |].
  - assert (O : vd_dropped (snd (offer sub g p)) = true -> is_key g = false \/ is_droppable g = true).
    { unfold offer. destruct (filtered_out _ _); [done|]. rewrite Hpol, bool_decide_false by done.
      cbn [andb]. unfold send. rewrite Hpol. destruct (ch_try_send (p_chan p) g) as [c []]; try done.
      destruct (is_key g), (is_droppable g); cbn; auto. }
    destruct (offer sub g p) as [p1 w]. cbn [snd] in O. destruct (vd_remove w); cbn [fst].
    + by constructor.
    + specialize (IH p1 Hpol). destruct (life sub p1 evs) as [[os rs] p']. by constructor.
  - destruct (ch_recv (p_chan p)) as [c res]. specialize (IH (mk_port c (p_wait p)) Hpol).
    by destruct (life sub _ evs) as [[os rs] p'].
Qed.
End life.

(** ** The dispatcher *)

Section dispatch.
Context {C : Type} `{!BoundedChannel AVFrame C}.
Implicit Types (d : DispatcherInner C).

Lemma find_sub subs sub :
  NoDup (sub_id <$> subs) -> sub ∈ subs -> find (fun x => sub_id x =? sub_id sub) subs = Some sub.
Proof using Type.
  induction subs as [|x subs IH]; intros Hnd Hin; [by apply not_elem_of_nil in Hin|].
  cbn in Hnd. apply NoDup_cons in Hnd as [Hni Hnd]. cbn [find].
  apply elem_of_cons in Hin as [->|Hin]; [by rewrite Z.eqb_refl|].
  destruct (Z.eqb_spec (sub_id x) (sub_id sub)) as [E|E]; [|by apply IH].
  exfalso. apply Hni. rewrite E. by apply list_elem_of_fmap_2.
Qed.

Lemma remove_subscribers_spec ids d :
  subscribers (remove_subscribers ids d) = filter (fun sub => sub_id sub ∉ ids) (subscribers d) /\
  ports (remove_subscribers ids d) = ports d /\
  next_subscriber_id (remove_subscribers ids d) = next_subscriber_id d.
Proof using Type.
  destruct ids as [|i ids]; [|done]. split; [|done]. symmetry. apply filter_all.
  intros x _. apply not_elem_of_nil.
Qed.

Lemma NoDup_fmap_filter (P : DispatchSubscriber -> Prop) `{!forall x, Decision (P x)} subs :
  NoDup (sub_id <$> subs) -> NoDup (sub_id <$> filter P subs).
Proof using Type.
  induction subs as [|x subs IH]; intros Hnd; [constructor|].
  cbn in Hnd. apply NoDup_cons in Hnd as [Hni Hnd]. destruct (decide (P x)).
  - rewrite filter_cons_True by done. cbn. apply NoDup_cons. split; [|by apply IH].
    intros (y & E & Hy)%list_elem_of_fmap. apply Hni. rewrite E.
    apply list_elem_of_filter in Hy as [_ Hy]. by apply list_elem_of_fmap_2.
  - rewrite filter_cons_False by done. by apply IH.
Qed.

Lemma wf_remove ids d : dispatcher_wf d -> dispatcher_wf (remove_subscribers ids d).
Proof using Type.
  intros [W1 W2 W3 W4]. destruct (remove_subscribers_spec ids d) as (E1 & E2 & E3).
  split; rewrite ?E1, ?E2, ?E3; try done; [by apply NoDup_fmap_filter|].
  intros sub [_ Hin]%list_elem_of_filter. auto.
Qed.

Lemma wf_add options d :
  dispatcher_wf d -> next_subscriber_id d + 1 < 2 ^ 63 ->
  dispatcher_wf (fst (add_subscriber options d)).
Proof using Type.
  intros [W1 W2 W3 W4] Hb. unfold add_subscriber. cbn [fst].
  rewrite wrap_u_small by (unfold in_u; change (2 ^ 63) with 9223372036854775808 in *;
    change (2 ^ 64) with 18446744073709551616; lia).
  assert (Hfresh : ports d !! (next_subscriber_id d + 1) = None).
  { destruct (ports d !! _) as [p|] eqn:E; [|done]. apply W3 in E. lia. }
  split; cbn [subscribers ports next_subscriber_id]; [| | |lia].
  - rewrite fmap_app. apply NoDup_app. split; [done|]. split; [|apply NoDup_singleton].
    intros x (sub & -> & Hin)%list_elem_of_fmap Hx%list_elem_of_singleton. cbn in Hx.
    destruct (W2 sub Hin) as [p Hp]. rewrite Hx in Hp. congruence.
  - intros sub [Hin|Hin]%elem_of_app.
    + destruct (W2 sub Hin) as [p Hp]. rewrite lookup_insert_ne; [eauto|]. intros E.
      rewrite <- E in Hp. congruence.
    + apply list_elem_of_singleton in Hin as ->. cbn. rewrite lookup_insert_eq. eauto.
  - intros id p Hp. destruct (decide (id = next_subscriber_id d + 1)) as [->|]; [lia|].
    rewrite lookup_insert_ne in Hp by done. specialize (W3 _ _ Hp). lia.
Qed.

(** The ports after the sweep, and what that keeps. *)
Lemma swept_ports d frame :
  dispatcher_wf d ->
  let s := foldl (dispatch_one frame) (mk_sweep (ports d) false false []) (subscribers d) in
  (forall sub p, sub ∈ subscribers d -> ports d !! sub_id sub = Some p ->
     sw_ports s !! sub_id sub = Some (fst (offer sub frame p))) /\
  dispatcher_wf (mk_dispatcher (subscribers d) (next_subscriber_id d) (sw_ports s)).
Proof using Type.
  intros [W1 W2 W3 W4].
  destruct (sweep_spec frame (ports d) (subscribers d) (mk_sweep (ports d) false false []) W1
    ltac:(done) W2) as (S1 & _). set (s := foldl _ _ _) in *.
  assert (Hport : forall sub p, sub ∈ subscribers d -> ports d !! sub_id sub = Some p ->
     sw_ports s !! sub_id sub = Some (fst (offer sub frame p))).
  { intros sub p Hin Hp. rewrite S1, find_sub by done. by rewrite Hp. }
  split; [done|]. split; cbn [subscribers ports next_subscriber_id]; try done.
  - intros sub Hin. destruct (W2 sub Hin) as [p Hp]. rewrite (Hport sub p Hin Hp). eauto.
  - intros id p Hp. rewrite S1 in Hp. destruct (find _ (subscribers d)) as [sub|] eqn:Ef.
    + destruct (ports d !! id) as [p0|] eqn:E0; [|done]. by apply (W3 id p0).
    + by apply (W3 id p).
Qed.

Lemma dispatch_frame_wf d frame :
  dispatcher_wf d ->
  dispatcher_wf (fst (dispatch_frame frame d)) /\
  next_subscriber_id (fst (dispatch_frame frame d)) = next_subscriber_id d.
Proof using Type.
  intros W. unfold dispatch_frame. destruct (subscribers d) as [|sub0 subs0] eqn:Es; [done|].
  rewrite <- Es. destruct (swept_ports d frame W) as [_ W']. cbv zeta. cbn [fst].
  split; [by apply wf_remove|]. by rewrite (proj2 (proj2 (remove_subscribers_spec _ _))).
Qed.

Lemma wf_new : dispatcher_wf (dispatcher_new : DispatcherInner C).
Proof using Type.
  split; cbn; [apply NoDup_nil_2|by intros ? ?%elem_of_nil|by intros ? ? ?%lookup_empty_Some|lia].
Qed.

Lemma wf_clear d : dispatcher_wf d -> dispatcher_wf (clear_subscribers d).
Proof using Type.
  intros [W1 W2 W3 W4]. split; cbn; try done; [apply NoDup_nil_2|by intros ? ?%elem_of_nil].
Qed.

(** The subscriber's side. *)
Lemma wf_ports d (f : gmap Z (port C)) :
  dispatcher_wf d -> (forall id, is_Some (f !! id) <-> is_Some (ports d !! id)) ->
  dispatcher_wf (mk_dispatcher (subscribers d) (next_subscriber_id d) f).
Proof using Type.
  intros [W1 W2 W3 W4] Hf. split; cbn [subscribers ports next_subscriber_id]; try done.
  - intros sub Hin. apply Hf. by apply W2.
  - intros id p Hp. destruct (proj1 (Hf id)) as [q Hq]; [eauto|]. by apply (W3 id q).
Qed.
End dispatch.

(** Every subscriber is offered the frame by itself. *)
Lemma dispatch_treats {C} `{!BoundedChannel AVFrame C} (d : DispatcherInner C) frame :
  dispatcher_wf d ->
  let '(d', res) := dispatch_frame frame d in
  let v sub := verdict_of frame (ports d) sub in
  dispatcher_wf d' /\
  (forall sub p, sub ∈ subscribers d -> ports d !! sub_id sub = Some p ->
     ports d' !! sub_id sub = Some (fst (offer sub frame p))) /\
  subscribers d' = filter (fun sub => vd_remove (v sub) = false) (subscribers d) /\
  res = if existsb (fun sub => vd_accepted (v sub)) (subscribers d) then Accepted
        else if existsb (fun sub => vd_dropped (v sub)) (subscribers d) then DroppedByPolicy
        else RejectedClosed.
Proof.
  intros W. pose proof W as [W1 W2 W3 W4]. unfold dispatch_frame.
  destruct (subscribers d) as [|sub0 subs0] eqn:Es.
  { split; [done|]. split; [by intros sub p Hin%elem_of_nil|]. by rewrite Es. }
  rewrite <- Es in *. set (subs := subscribers d) in *.
  destruct (sweep_spec frame (ports d) subs (mk_sweep (ports d) false false []) W1
    ltac:(done) W2) as (_ & S2 & S3 & S4).
  destruct (swept_ports d frame W) as [Hport Wd1]. fold subs in Hport, Wd1.
  set (s := foldl _ _ _) in *. cbn [sw_accepted sw_dropped sw_remove sw_ports] in *. cbv zeta.
  set (d1 := mk_dispatcher subs (next_subscriber_id d) (sw_ports s)) in *.
  destruct (remove_subscribers_spec (sw_remove s) d1) as (E1 & E2 & E3).
  split; [by apply wf_remove|]. split; [by rewrite E2|]. split; [|by rewrite S2, S3].
  rewrite E1, S4. cbn [subscribers d1 app]. apply filter_ext_in. intros sub Hin. split.
  - intros Hn. destruct (vd_remove (verdict_of frame (ports d) sub)) eqn:Ev; [|done].
    exfalso. apply Hn, list_elem_of_fmap_2, list_elem_of_filter. split; [by rewrite Ev|done].
  - intros Ev (sub' & E & Hin')%list_elem_of_fmap. apply list_elem_of_filter in Hin' as [Hv Hin'].
    assert (sub' = sub) as ->.
    { pose proof (find_sub _ _ W1 Hin) as F1. pose proof (find_sub _ _ W1 Hin') as F2.
      rewrite E in F1. congruence. }
    rewrite Ev in Hv. done.
Qed.

(** ** The best outcome of a frame *)

Lemma best_accepted (accepted dropped : DispatchSubscriber -> bool) subs :
  (if existsb accepted subs then Accepted else if existsb dropped subs then DroppedByPolicy
   else RejectedClosed) = Accepted <-> exists sub, sub ∈ subs /\ accepted sub = true.
Proof.
  destruct (existsb accepted subs) eqn:E.
  - apply existsb_exists in E as (x & Hx%list_elem_of_In & Ha). split; [eauto|done].
  - split; [by destruct (existsb dropped subs)|]. intros (x & Hx%list_elem_of_In & Ha).
    assert (existsb accepted subs = true) by (apply existsb_exists; eauto). congruence.
Qed.

Lemma best_dropped (accepted dropped : DispatchSubscriber -> bool) subs :
  (if existsb accepted subs then Accepted else if existsb dropped subs then DroppedByPolicy
   else RejectedClosed) = DroppedByPolicy <->
  (forall sub, sub ∈ subs -> accepted sub = false) /\ exists sub, sub ∈ subs /\ dropped sub = true.
Proof.
  destruct (existsb accepted subs) eqn:E.
  - split; [done|]. intros [H _]. apply existsb_exists in E as (x & Hx%list_elem_of_In & Ha).
    rewrite H in Ha by done. done.
  - assert (N : forall sub, sub ∈ subs -> accepted sub = false).
    { intros sub Hin%list_elem_of_In. destruct (accepted sub) eqn:Ea; [|done].
      assert (existsb accepted subs = true) by (apply existsb_exists; eauto). congruence. }
    destruct (existsb dropped subs) eqn:Ed.
    + apply existsb_exists in Ed as (x & Hx%list_elem_of_In & Ha). split; [eauto|done].
    + split; [done|]. intros [_ (x & Hx%list_elem_of_In & Ha)].
      assert (existsb dropped subs = true) by (apply existsb_exists; eauto). congruence.
Qed.

(** ** Claims *)

(** What a frame may do to one subscriber, read off its filter, its policy and
    what can be seen of its channel: how many frames wait, the capacity, whether
    the receiver is gone, and whether it is waiting for a keyframe. *)
Inductive fate : Set := Skipped | Queued | Lost | Cut | LostAndCut.

Definition cuts (x : fate) : bool := match x with Cut | LostAndCut => true | _ => false end.
Definition loses (x : fate) : bool := match x with Lost | LostAndCut => true | _ => false end.

Record sight : Set := mk_sight {
  st_queue : list AVFrame; st_capacity : nat; st_gone : bool; st_waiting : bool
}.

Definition sight_of {C} `{!BoundedChannel AVFrame C} (p : port C) : sight :=
  mk_sight (ch_queue (p_chan p)) (ch_capacity (p_chan p)) (ch_closed (p_chan p)) (p_wait p).

(** The kind of the frame is one the subscriber switched off. *)
Definition unwanted (filter : MediaFilter) (f : AVFrame) : Prop :=
  (media_kind f = Video /\ enable_video filter = false) \/
  (media_kind f = Audio /\ enable_audio filter = false).

#[export] Instance unwanted_dec filter f : Decision (unwanted filter f).
Proof. apply _. Defined.

(** It waits for a keyframe and this is none. *)
Definition held_back (policy : BackpressurePolicy) (waiting : bool) (f : AVFrame) : Prop :=
  policy = DropUntilNextKeyframe /\ waiting = true /\ is_key f = false.

(** Offering a frame ends the wait of a [DropUntilNextKeyframe] subscriber. *)
Definition still_waiting (policy : BackpressurePolicy) (waiting : bool) : bool :=
  waiting && bool_decide (policy <> DropUntilNextKeyframe).

(** The rules: [treated filter policy f before x after]. *)
Inductive treated (filter : MediaFilter) (policy : BackpressurePolicy) (f : AVFrame) :
    sight -> fate -> sight -> Prop :=
| treated_unwanted s : unwanted filter f -> treated filter policy f s Skipped s
| treated_held q cap gone w :
    ~ unwanted filter f -> held_back policy w f ->
    treated filter policy f (mk_sight q cap gone w) Lost (mk_sight q cap gone w)
| treated_gone q cap w :
    ~ unwanted filter f -> ~ held_back policy w f ->
    treated filter policy f (mk_sight q cap true w) Cut (mk_sight q cap true (still_waiting policy w))
| treated_room q cap w :
    ~ unwanted filter f -> ~ held_back policy w f -> (length q < cap)%nat ->
    treated filter policy f (mk_sight q cap false w) Queued
      (mk_sight (q ++ [f]) cap false (still_waiting policy w))
| treated_full_droppable q cap w :
    ~ unwanted filter f -> (cap <= length q)%nat -> policy = DropDroppableFirst ->
    is_key f = false \/ is_droppable f = true ->
    treated filter policy f (mk_sight q cap false w) Lost (mk_sight q cap false w)
| treated_full_key q cap w :
    ~ unwanted filter f -> (cap <= length q)%nat -> policy = DropDroppableFirst ->
    is_key f = true -> is_droppable f = false ->
    treated filter policy f (mk_sight q cap false w) Cut (mk_sight q cap false w)
| treated_full_wait q cap w :
    ~ unwanted filter f -> ~ held_back policy w f -> (cap <= length q)%nat ->
    policy = DropUntilNextKeyframe ->
    treated filter policy f (mk_sight q cap false w) Lost (mk_sight q cap false true)
| treated_full_disconnect q cap w :
    ~ unwanted filter f -> (cap <= length q)%nat -> policy = DisconnectOnOverflow ->
    treated filter policy f (mk_sight q cap false w) LostAndCut (mk_sight q cap false w).

Definition fate_of (v : verdict) : fate :=
  match v with
  | mk_verdict true _ _ => Queued
  | mk_verdict _ true true => LostAndCut
  | mk_verdict _ true _ => Lost
  | mk_verdict _ _ true => Cut
  | _ => Skipped
  end.

Lemma filtered_unwanted filter f : filtered_out filter f = true <-> unwanted filter f.
Proof.
  unfold filtered_out, unwanted. rewrite orb_true_iff, !andb_true_iff, !negb_true_iff, !bool_decide_eq_true. tauto.
Qed.

(** The body of the loop follows the rules. *)
Lemma send_treated {C} `{!BoundedChannel AVFrame C} sub f (p : port C) w :
  ~ unwanted (sub_filter sub) f -> ~ held_back (sub_policy sub) w f ->
  p_wait p = still_waiting (sub_policy sub) w ->
  let '(p', v) := send sub f p in
  treated (sub_filter sub) (sub_policy sub) f
    (mk_sight (ch_queue (p_chan p)) (ch_capacity (p_chan p)) (ch_closed (p_chan p)) w)
    (fate_of v) (sight_of p') /\
  cuts (fate_of v) = vd_remove v /\ loses (fate_of v) = vd_dropped v /\
  (fate_of v = Queued <-> vd_accepted v = true).
Proof.
  intros Hu Hh Hw. unfold send, sight_of. pose proof (ch_send_law (p_chan p) f) as L.
  destruct (ch_try_send (p_chan p) f) as [c res]. destruct L as (L1 & L2 & L3).
  destruct (ch_closed (p_chan p)).
  { destruct L3 as [-> L3]. cbn. rewrite L1, L2, L3, Hw. split; [by constructor|done]. }
  destruct (Nat.ltb_spec (length (ch_queue (p_chan p))) (ch_capacity (p_chan p))) as [L|L].
  { destruct L3 as [-> L3]. cbn. rewrite L1, L2, L3, Hw. split; [by constructor|done]. }
  destruct L3 as [-> L3]. destruct (sub_policy sub) eqn:Ep.
  - assert (E : still_waiting DropDroppableFirst w = w) by (by destruct w).
    destruct (is_key f) eqn:Ek, (is_droppable f) eqn:Ed; cbn; rewrite L1, L2, L3, Hw, E;
      (split; [by constructor; auto|done]).
  - cbn. rewrite L1, L2, L3. split; [by constructor|done].
  - assert (E : still_waiting DisconnectOnOverflow w = w) by (by destruct w).
    cbn. rewrite L1, L2, L3, Hw, E. split; [by constructor|done].
Qed.

Lemma offer_treated {C} `{!BoundedChannel AVFrame C} sub f (p : port C) :
  let '(p', v) := offer sub f p in
  treated (sub_filter sub) (sub_policy sub) f (sight_of p) (fate_of v) (sight_of p') /\
  cuts (fate_of v) = vd_remove v /\ loses (fate_of v) = vd_dropped v /\
  (fate_of v = Queued <-> vd_accepted v = true).
Proof.
  unfold offer. destruct (filtered_out _ _) eqn:Ef.
  { split; [constructor; by apply filtered_unwanted|done]. }
  assert (Hu : ~ unwanted (sub_filter sub) f) by (rewrite <- filtered_unwanted, Ef; done).
  destruct (bool_decide (sub_policy sub = DropUntilNextKeyframe) && p_wait p) eqn:Eh.
  - apply andb_true_iff in Eh as [Ep%bool_decide_eq_true Ew].
    destruct (is_key f) eqn:Ek.
    + apply (send_treated sub f (mk_port (p_chan p) false) (p_wait p) Hu).
      * intros (_ & _ & H). congruence.
      * cbn [p_wait]. by rewrite Ep, Ew.
    + split; [|done]. by constructor.
  - assert (Hh : ~ held_back (sub_policy sub) (p_wait p) f).
    { intros (H1 & H2 & _). rewrite H1, H2 in Eh. by rewrite bool_decide_true in Eh. }
    apply (send_treated sub f p (p_wait p) Hu Hh).
    unfold still_waiting. destruct (p_wait p); [|done].
    destruct (sub_policy sub); [done|by rewrite bool_decide_true in Eh|done].
Qed.

(** [C14] One frame reaches every subscriber by its own filter and policy. On a
    well-formed dispatcher [dispatch_frame] gives each subscriber one of the fates
    of the decision table [treated], whoever else subscribes and in whatever
    order: a kind that is switched off passes it by; a [DropUntilNextKeyframe]
    subscriber that waits loses everything but a keyframe; a closed channel cuts it
    off; where there is room the frame goes to the end of the queue; and a full
    queue loses the frame ([DropDroppableFirst], unless it is a keyframe not marked
    droppable, which cuts the subscriber off), loses it and makes the subscriber
    wait ([DropUntilNextKeyframe]) or loses it and cuts it off
    ([DisconnectOnOverflow]). Exactly those not cut off stay, in their order; the
    result is [Accepted] when some queue took the frame, else [DroppedByPolicy] when
    it was lost somewhere, else [RejectedClosed]; and the dispatcher stays
    well-formed. *)
Theorem dispatch_frame_spec {C} `{!BoundedChannel AVFrame C} (d : DispatcherInner C) frame :
  dispatcher_wf d ->
  let '(d', res) := dispatch_frame frame d in
  dispatcher_wf d' /\
  exists x : DispatchSubscriber -> fate,
    (forall sub p, sub ∈ subscribers d -> ports d !! sub_id sub = Some p ->
       exists p', ports d' !! sub_id sub = Some p' /\
         treated (sub_filter sub) (sub_policy sub) frame (sight_of p) (x sub) (sight_of p')) /\
    subscribers d' = filter (fun sub => cuts (x sub) = false) (subscribers d) /\
    (res = Accepted <-> exists sub, sub ∈ subscribers d /\ x sub = Queued) /\
    (res = DroppedByPolicy <-> (forall sub, sub ∈ subscribers d -> x sub <> Queued) /\
       exists sub, sub ∈ subscribers d /\ loses (x sub) = true).
Proof.
  intros W. pose proof (dispatch_treats d frame W) as T.
  destruct (dispatch_frame frame d) as [d' res]. destruct T as (T1 & T2 & T3 & T4). split; [done|].
  exists (fun sub => fate_of (verdict_of frame (ports d) sub)).
  assert (V : forall sub, sub ∈ subscribers d -> let v := verdict_of frame (ports d) sub in
    cuts (fate_of v) = vd_remove v /\ loses (fate_of v) = vd_dropped v /\
    (fate_of v = Queued <-> vd_accepted v = true)).
  { intros sub Hin. destruct (dw_ports _ W sub Hin) as [p Hp]. unfold verdict_of. rewrite Hp.
    pose proof (offer_treated sub frame p) as O. destruct (offer sub frame p) as [p' v]. apply O. }
  split; [|split; [|split]].
  - intros sub p Hin Hp. exists (fst (offer sub frame p)). split; [by apply T2|].
    unfold verdict_of. rewrite Hp. pose proof (offer_treated sub frame p) as O.
    destruct (offer sub frame p) as [p' v]. apply O.
  - rewrite T3. apply filter_ext_in. intros sub Hin. by destruct (V sub Hin) as [-> _].
  - rewrite T4, best_accepted. split; intros (sub & Hin & E); exists sub; (split; [done|]); by apply V.
  - rewrite T4, best_dropped. split; intros (N & sub & Hin & E); (split;
      [intros sub' Hin'; specialize (N sub' Hin')|exists sub; split; [done|]; destruct (V sub Hin) as (_ & E2 & _); congruence]).
    + destruct (V sub' Hin') as (_ & _ & ->). by rewrite N.
    + destruct (V sub' Hin') as (_ & _ & E3). rewrite E3 in N. by destruct (vd_accepted _).
Qed.

(** A subscriber's queue is a bounded FIFO of what it accepted: whatever is
    offered and received in any order, the frames received so far followed by the
    frames in the queue are the frames it started with followed by the accepted
    ones, in order, none twice, and the queue never exceeds its capacity. *)
Theorem subscriber_fifo {C} `{!BoundedChannel AVFrame C} sub (p : port C) evs :
  within_capacity p ->
  let '(os, rs, p') := life sub p evs in
  queue p ++ accepted_frames os = rs ++ queue p' /\
  (length (queue p') <= ch_capacity (p_chan p))%nat.
Proof.
  intros Hw. pose proof (life_fifo sub evs p) as L. destruct (life sub p evs) as [[os rs] p'].
  destruct L as (L1 & L2 & L3). split; [done|]. rewrite <- L2. by apply L3.
Qed.

(** What each backpressure policy guarantees to a subscriber with a fresh
    queue, whatever is offered and received. [DropUntilNextKeyframe]: after a
    dropped frame nothing is accepted before the next keyframe, so what arrives
    can be decoded. [DisconnectOnOverflow]: a drop is the end, nothing is accepted
    after it, so what arrives has no gap. [DropDroppableFirst]: a keyframe not
    marked droppable is never dropped silently. *)
Theorem backpressure_policies {C} `{!BoundedChannel AVFrame C} sub capacity evs :
  let os := fst (fst (life sub (mk_port (ch_new capacity) false : port C) evs)) in
  match sub_policy sub with
  | DropUntilNextKeyframe => resumes_at_key false os
  | DisconnectOnOverflow => forall a f v b, os = a ++ (f, v) :: b -> vd_dropped v = true -> b = []
  | DropDroppableFirst =>
      Forall (fun o => vd_dropped (snd o) = true ->
                is_key (fst o) = false \/ is_droppable (fst o) = true) os
  end.
Proof.
  intros os. destruct (sub_policy sub) eqn:E.
  - by apply life_keeps_keys.
  - by apply life_resumes.
  - intros a f v b. by apply life_no_gap.
Qed.

(** A dispatcher with two subscribers, the second without video. *)
Definition demo_dispatcher : DispatcherInner (list_channel AVFrame) :=
  let policy := mk_policy BootNone None 0 false in
  fst (add_subscriber (mk_sub_options 2 DropUntilNextKeyframe policy (mk_filter false true))
    (fst (add_subscriber (mk_sub_options 1 DisconnectOnOverflow policy (mk_filter true true))
      dispatcher_new))).

Lemma dispatch_frame_spec_witness :
  let frame := mk_frame 1 Video 0 0 (Timeline.mk_timebase 1 1000) FLAG_KEY [] in
  let d' := fst (dispatch_frame frame demo_dispatcher) in
  dispatcher_wf d' /\ snd (dispatch_frame frame demo_dispatcher) = Accepted /\
  (exists x p', ports d' !! 1 = Some p' /\
     treated (mk_filter true true) DisconnectOnOverflow frame (mk_sight [] 1 false false) x (sight_of p')) /\
  exists x p', ports d' !! 2 = Some p' /\
     treated (mk_filter false true) DropUntilNextKeyframe frame (mk_sight [] 2 false false) x (sight_of p').
Proof.
  intros frame d'. pose proof (dispatch_frame_spec demo_dispatcher frame) as H.
  assert (E : snd (dispatch_frame frame demo_dispatcher) = Accepted) by (vm_compute; reflexivity).
  unfold d'. destruct (dispatch_frame frame demo_dispatcher) as [d1 res]. cbn [fst snd] in *.
  destruct H as (H1 & x & H2 & _).
  - apply wf_add; [apply wf_add; [apply wf_new|]|]; vm_compute; reflexivity.
  - split; [exact H1|]. split; [exact E|]. split.
    + destruct (H2 (mk_subscriber 1 DisconnectOnOverflow (mk_filter true true)) (mk_port (mk_channel [] 1 false) false))
        as (p' & P1 & P2); [left|reflexivity|]. eexists _, p'. split; [exact P1|exact P2].
    + destruct (H2 (mk_subscriber 2 DropUntilNextKeyframe (mk_filter false true)) (mk_port (mk_channel [] 2 false) false))
        as (p' & P1 & P2); [right; left|reflexivity|]. eexists _, p'. split; [exact P1|exact P2].
Defined.

Lemma subscriber_fifo_witness :
  let sub := mk_subscriber 1 DropDroppableFirst (mk_filter true true) in
  let f t := mk_frame 1 Video t t (Timeline.mk_timebase 1 1000) 0 [] in
  let '(os, rs, p') := life sub (mk_port (ch_new 2) false : port (list_channel AVFrame))
    [Offered (f 0); Offered (f 1); Offered (f 2); Received; Offered (f 3)] in
  accepted_frames os = rs ++ queue p'.
Proof.
  intros sub f.
  pose proof (subscriber_fifo sub (mk_port (ch_new 2) false : port (list_channel AVFrame))
    [Offered (f 0); Offered (f 1); Offered (f 2); Received; Offered (f 3)] (le_S _ _ (le_S _ _ (le_n 0)))) as H.
  destruct (life _ _ _) as [[os rs] p']. exact (proj1 H).
Defined.
