(* ===== verification/EnginePool.v ===== *)
(** * Shared dispatch pool

    Models [DispatchJob] and [SharedDispatchPool] of
    [crates/system/cheetah-engine/src/stream.rs]: a fixed set of worker lanes, each
    a bounded queue of jobs drained by one task. A job names the dispatcher (one
    per stream, so by its stream id) and the frame. *)
From S2P Require Import Prelude EngineTypes EngineDispatch.

Definition DispatchJob : Set := (Z * AVFrame)%type.

Definition LANE_CAPACITY : nat := 2048.

Section pool.
Context {J : Type} `{!BoundedChannel DispatchJob J}.

Record SharedDispatchPool : Type := mk_pool { workers : list J }.

Definition pool_new (worker_count : nat) : SharedDispatchPool :=
  mk_pool (replicate (Nat.max worker_count 1) (ch_new LANE_CAPACITY)).

(** [(stream_id.0 as usize) % self.workers.len()]. *)
Definition lane_of_stream (stream_id : Z) (p : SharedDispatchPool) : nat :=
  Z.to_nat (stream_id mod Z.of_nat (length (workers p))).

Definition enqueue (lane : nat) (dispatcher : Z) (frame : AVFrame) (p : SharedDispatchPool) :
    SharedDispatchPool * DispatchResult :=
  let idx := (lane mod length (workers p))%nat in
  match workers p !! idx with
  | None => (p, RejectedClosed)
  | Some w =>
      let '(w, res) := ch_try_send w (dispatcher, frame) in
      (mk_pool (<[idx := w]> (workers p)),
       match res with
       | SendOk => Accepted
       | SendFull => DroppedByPolicy
       | SendClosed => RejectedClosed
       end)
  end.

(** One turn of the worker task of a lane: the job it dispatches. *)
Definition worker_turn (lane : nat) (p : SharedDispatchPool) : SharedDispatchPool * option DispatchJob :=
  match workers p !! lane with
  | None => (p, None)
  | Some w => let '(w, job) := ch_recv w in (mk_pool (<[lane := w]> (workers p)), job)
  end.

(** ** Ordering *)

Inductive pool_event : Set :=
| Publish (stream_id : Z) (frame : AVFrame)
| Turn (lane : nat).

(** Publishers and workers in any order. A stream publishes on its own lane.
    The result: the jobs the pool accepted and those dispatched, in order. *)
Fixpoint pool_run (evs : list pool_event) (p : SharedDispatchPool) :
    list DispatchJob * list DispatchJob * SharedDispatchPool :=
  match evs with
  | [] => ([], [], p)
  | Publish id f :: evs =>
      let '(p, res) := enqueue (lane_of_stream id p) id f p in
      let '(acc, done, p) := pool_run evs p in
      (if decide (res = Accepted) then (id, f) :: acc else acc, done, p)
  | Turn lane :: evs =>
      let '(p, job) := worker_turn lane p in
      let '(acc, done, p) := pool_run evs p in
      (acc, match job with Some j => j :: done | None => done end, p)
  end.

(** The jobs of one stream. *)
Definition of_stream (id : Z) (jobs : list DispatchJob) : list AVFrame :=
  snd <$> filter (fun j => fst j = id) jobs.

Definition lane_queue (lane : nat) (p : SharedDispatchPool) : list DispatchJob :=
  match workers p !! lane with Some w => ch_queue w | None => [] end.

(** Every queued job is on the lane of its stream. *)
Definition lanes_ok (p : SharedDispatchPool) : Prop :=
  (0 < length (workers p))%nat /\
  forall lane j, j ∈ lane_queue lane p -> lane_of_stream (fst j) p = lane.

Lemma of_stream_app id a b : of_stream id (a ++ b) = of_stream id a ++ of_stream id b.
Proof using Type. unfold of_stream. by rewrite filter_app, fmap_app. Qed.

Lemma of_stream_cons id j a :
  of_stream id (j :: a) = (if decide (fst j = id) then [snd j] else []) ++ of_stream id a.
Proof using Type.
  unfold of_stream. destruct (decide (fst j = id)).
  - by rewrite filter_cons_True.
  - by rewrite filter_cons_False.
Qed.

Lemma lane_bound id p : (0 < length (workers p))%nat -> (lane_of_stream id p < length (workers p))%nat.
Proof using Type.
  intros H. unfold lane_of_stream.
  pose proof (Z.mod_pos_bound id (Z.of_nat (length (workers p))) ltac:(lia)). lia.
Qed.

Lemma lane_queue_insert lane w p i :
  (lane < length (workers p))%nat ->
  lane_queue i (mk_pool (<[lane := w]> (workers p)))
  = if decide (i = lane) then ch_queue w else lane_queue i p.
Proof using Type.
  intros H. unfold lane_queue. cbn [workers]. destruct (decide (i = lane)) as [->|Hne].
  - by rewrite list_lookup_insert_eq.
  - by rewrite list_lookup_insert_ne.
Qed.

Lemma lane_of_insert id lane w p :
  lane_of_stream id (mk_pool (<[lane := w]> (workers p))) = lane_of_stream id p.
Proof using Type. unfold lane_of_stream. cbn [workers]. by rewrite length_insert. Qed.

Lemma enqueue_spec id f p :
  lanes_ok p ->
  let '(p', res) := enqueue (lane_of_stream id p) id f p in
  lanes_ok p' /\ (forall i, lane_of_stream i p' = lane_of_stream i p) /\
  forall i, lane_queue i p' = lane_queue i p ++
    (if decide (res = Accepted) then if decide (i = lane_of_stream id p) then [(id, f)] else []
     else []).
Proof using Type.
  intros [Hlen Hok]. unfold enqueue. pose proof (lane_bound id p Hlen) as Hb.
  rewrite Nat.mod_small by done.
  destruct (lookup_lt_is_Some_2 (workers p) _ Hb) as [w Hw]. rewrite Hw.
  pose proof (ch_send_law w (id, f)) as L. destruct (ch_try_send w (id, f)) as [w' res].
  destruct L as (_ & _ & L). set (lane := lane_of_stream id p) in *.
  assert (Hq : lane_queue lane p = ch_queue w) by (unfold lane_queue; by rewrite Hw).
  assert (E : ch_queue w' = ch_queue w ++ (match res with SendOk => [(id, f)] | _ => [] end)).
  { destruct (ch_closed w); [destruct L as [-> L]; by rewrite app_nil_r|].
    destruct (_ <? _)%nat; destruct L as [-> L]; [done|by rewrite app_nil_r]. }
  assert (Q : forall i, lane_queue i (mk_pool (<[lane := w']> (workers p))) = lane_queue i p ++
    (if decide (match res with SendOk => Accepted | SendFull => DroppedByPolicy
                | SendClosed => RejectedClosed end = Accepted)
     then if decide (i = lane) then [(id, f)] else [] else [])).
  { intros i. rewrite lane_queue_insert by done. destruct (decide (i = lane)) as [->|].
    - etrans; [exact E|]. rewrite Hq. by destruct res.
    - destruct res; cbn; by rewrite app_nil_r. }
  split; [|split; [intros; apply lane_of_insert|exact Q]].
  split; [cbn; by rewrite length_insert|]. intros i j Hj. rewrite lane_of_insert.
  rewrite Q in Hj. apply elem_of_app in Hj as [Hj|Hj]; [by apply Hok|].
  destruct (decide (_ = Accepted)); [|by apply not_elem_of_nil in Hj].
  destruct (decide (i = lane)) as [->|]; [|by apply not_elem_of_nil in Hj].
  by apply list_elem_of_singleton in Hj as ->.
Qed.

Lemma turn_spec lane p :
  lanes_ok p ->
  let '(p', job) := worker_turn lane p in
  lanes_ok p' /\ (forall i, lane_of_stream i p' = lane_of_stream i p) /\
  lane_queue lane p = (match job with Some j => [j] | None => [] end) ++ lane_queue lane p' /\
  forall i, i <> lane -> lane_queue i p' = lane_queue i p.
Proof using Type.
  intros [Hlen Hok]. unfold worker_turn. destruct (workers p !! lane) as [w|] eqn:Hw; [|done].
  pose proof (lookup_lt_Some _ _ _ Hw) as Hl.
  pose proof (ch_recv_law w) as L. destruct (ch_recv w) as [w' job].
  destruct L as (_ & _ & L1 & L2).
  assert (Hq : lane_queue lane p = ch_queue w) by (unfold lane_queue; by rewrite Hw).
  assert (Q : lane_queue lane p =
    (match job with Some j => [j] | None => [] end) ++ lane_queue lane (mk_pool (<[lane := w']> (workers p)))).
  { rewrite lane_queue_insert, decide_True, Hq, L1, L2 by done. by destruct (ch_queue w). }
  assert (Q' : forall i, i <> lane ->
    lane_queue i (mk_pool (<[lane := w']> (workers p))) = lane_queue i p).
  { intros i Hi. by rewrite lane_queue_insert, decide_False. }
  split; [|split; [intros; apply lane_of_insert|split; done]].
  split; [cbn; by rewrite length_insert|]. intros i j Hj. rewrite lane_of_insert. apply Hok.
  destruct (decide (i = lane)) as [->|Hi]; [|by rewrite <- Q'].
  rewrite Q. apply elem_of_app. by right.
Qed.

Lemma pool_order evs id : forall p,
  lanes_ok p ->
  let '(acc, done, p') := pool_run evs p in
  of_stream id (lane_queue (lane_of_stream id p) p) ++ of_stream id acc
  = of_stream id done ++ of_stream id (lane_queue (lane_of_stream id p) p') /\
  lane_of_stream id p' = lane_of_stream id p.
Proof using Type.
  induction evs as [|[i f|lane] evs IH]; intros p Hok; cbn [pool_run].
  - by rewrite app_nil_r.
  - pose proof (enqueue_spec i f p Hok) as S. destruct (enqueue _ i f p) as [p1 res].
    destruct S as (Hok1 & Hl & Hq). specialize (IH p1 Hok1). rewrite Hl in IH.
    destruct (pool_run evs p1) as [[acc dn] p']. destruct IH as [I1 I2]. split; [|done].
    rewrite <- I1, Hq. destruct (decide (res = Accepted)); [|by rewrite app_nil_r].
    rewrite of_stream_cons. cbn [fst snd]. rewrite of_stream_app, <- app_assoc. f_equal.
    destruct (decide (lane_of_stream id p = lane_of_stream i p)) as [E|E].
    + rewrite of_stream_cons. cbn [fst snd of_stream]. by rewrite app_nil_r.
    + rewrite decide_False; [done|]. intros ->. done.
  - pose proof (turn_spec lane p Hok) as S. destruct (worker_turn lane p) as [p1 job].
    destruct S as (Hok1 & Hl & Hq & Hq'). specialize (IH p1 Hok1). rewrite Hl in IH.
    destruct (pool_run evs p1) as [[acc dn] p']. destruct IH as [I1 I2]. split; [|done].
    destruct (decide (lane_of_stream id p = lane)) as [<-|Hne].
    + rewrite Hq, of_stream_app, <- app_assoc, I1. destruct job as [j|]; [|done].
      by rewrite !of_stream_cons, app_nil_r, <- app_assoc.
    + rewrite <- (Hq' (lane_of_stream id p)) by done. rewrite I1.
      destruct job as [j|]; [|done]. rewrite of_stream_cons, decide_False; [done|].
      intros E. apply Hne. rewrite <- E. destruct Hok as [_ Hok]. apply Hok.
      rewrite Hq. apply elem_of_app. left. by left.
Qed.
End pool.
Arguments mk_pool {J}.
Arguments workers {J}.
Arguments SharedDispatchPool : clear implicits.

(** ** Claims *)

(** [C23] The shared pool keeps each stream's frames in order. Start a pool with
    any number of workers; let any number of streams publish and the workers run,
    interleaved in any way. For every stream, the frames dispatched so far
    followed by those waiting on its lane are exactly the frames of that stream
    that the pool accepted, in publication order. *)
Theorem pool_preserves_stream_order {J} `{!BoundedChannel DispatchJob J} worker_count evs id :
  let p := pool_new worker_count : SharedDispatchPool J in
  let '(acc, done, p') := pool_run evs p in
  of_stream id acc = of_stream id done ++ of_stream id (lane_queue (lane_of_stream id p') p').
Proof.
  intros p. assert (Hq : forall lane, lane_queue lane p = []).
  { intros lane. unfold lane_queue, p, pool_new. cbn [workers].
    destruct (replicate _ _ !! lane) as [w|] eqn:E; [|done].
    apply lookup_replicate in E as [-> _]. apply ch_new_law. }
  assert (Hok : lanes_ok p).
  { split; [unfold p, pool_new; cbn; rewrite length_replicate; lia|].
    intros lane j Hj. rewrite Hq in Hj. by apply not_elem_of_nil in Hj. }
  pose proof (pool_order evs id p Hok) as O. destruct (pool_run evs p) as [[acc dn] p'].
  destruct O as [O1 O2]. rewrite Hq in O1. by rewrite O2.
Qed.
