(* ===== verification/EngineStreams.v ===== *)
(** * Stream manager

    Models [StreamEntry], [StreamManagerInner], [StreamManager], [PublisherHandle]
    and [SubscriberHandle] of [crates/system/cheetah-engine/src/stream.rs]: one
    operation at a time (EngineLeases interleaves them). An [Arc<StreamEntry>] is
    the entry's stream id, which the heap [entries] maps to the entry; the map
    [streams] holds the registered ones. The event buses are a log. Track
    information is a parameter: the manager only stores it. *)
From S2P Require Import Prelude Timeline MediaKeys EngineTypes EngineRing EngineDispatch EnginePool.

(** ** Events *)

Inductive OnlineState : Set := Online | Offline.

(** [StreamPublished], [StreamUnpublished] and [StreamOnlineChanged]; the close
    reason is always [Normal] here. *)
Inductive MediaEvent : Set :=
| StreamPublished (k : MediaKey) (proto : string) (remote : option string) (session : Z)
| StreamUnpublished (k : MediaKey) (session : Z)
| StreamOnlineChanged (k : MediaKey) (online : OnlineState) (sch : option MediaSchema).

Inductive manager_event : Set := OnStreamBus (e : StreamEvent) | OnMediaBus (e : MediaEvent).

(** ** State *)

(** What [PublishLease] and [PublisherHandle] carry. *)
Record PublisherHandle : Set := mk_publisher {
  pub_key : StreamKey; pub_entry : Z; pub_lease : Z; pub_closed : bool
}.

Record SubscriberHandle : Set := mk_subscription {
  sh_key : StreamKey; sh_entry : Z; sh_id : Z; sh_closed : bool
}.

Section manager.
Context {C J T : Type} `{!BoundedChannel AVFrame C} `{!BoundedChannel DispatchJob J}.

Record StreamEntry : Type := mk_entry {
  stream_id : Z;
  ring : RingBuffer;
  dispatcher : DispatcherInner C;
  tracks : list T;
  dispatch_mode : option nat;
  active_lease : Z;
  keyframe_requests : Z;
  last_no_subscriber_micros : Z;
  e_protocol : string;
  e_remote : option string;
  e_published : bool;
  e_online : bool
}.

(** [StreamDispatchMode]: [Some lane] is [Shared], [None] is [PerStream]. *)
Definition StreamEntry_new (id : Z) (ring_capacity : nat) (dm : option nat) : StreamEntry :=
  mk_entry id (ring_new ring_capacity) dispatcher_new [] dm 0 0 0 "" None false false.

Definition set_ring r (e : StreamEntry) : StreamEntry :=
  mk_entry (stream_id e) r (dispatcher e) (tracks e) (dispatch_mode e) (active_lease e)
    (keyframe_requests e) (last_no_subscriber_micros e) (e_protocol e) (e_remote e)
    (e_published e) (e_online e).
Definition set_dispatcher d (e : StreamEntry) : StreamEntry :=
  mk_entry (stream_id e) (ring e) d (tracks e) (dispatch_mode e) (active_lease e)
    (keyframe_requests e) (last_no_subscriber_micros e) (e_protocol e) (e_remote e)
    (e_published e) (e_online e).
Definition set_tracks t (e : StreamEntry) : StreamEntry :=
  mk_entry (stream_id e) (ring e) (dispatcher e) t (dispatch_mode e) (active_lease e)
    (keyframe_requests e) (last_no_subscriber_micros e) (e_protocol e) (e_remote e)
    (e_published e) (e_online e).
Definition set_lease l (e : StreamEntry) : StreamEntry :=
  mk_entry (stream_id e) (ring e) (dispatcher e) (tracks e) (dispatch_mode e) l
    (keyframe_requests e) (last_no_subscriber_micros e) (e_protocol e) (e_remote e)
    (e_published e) (e_online e).
Definition set_keyframe_requests n (e : StreamEntry) : StreamEntry :=
  mk_entry (stream_id e) (ring e) (dispatcher e) (tracks e) (dispatch_mode e) (active_lease e)
    n (last_no_subscriber_micros e) (e_protocol e) (e_remote e) (e_published e) (e_online e).
Definition set_last_empty n (e : StreamEntry) : StreamEntry :=
  mk_entry (stream_id e) (ring e) (dispatcher e) (tracks e) (dispatch_mode e) (active_lease e)
    (keyframe_requests e) n (e_protocol e) (e_remote e) (e_published e) (e_online e).
Definition set_publisher_info p r (e : StreamEntry) : StreamEntry :=
  mk_entry (stream_id e) (ring e) (dispatcher e) (tracks e) (dispatch_mode e) (active_lease e)
    (keyframe_requests e) (last_no_subscriber_micros e) p r (e_published e) (e_online e).
Definition set_flags p o (e : StreamEntry) : StreamEntry :=
  mk_entry (stream_id e) (ring e) (dispatcher e) (tracks e) (dispatch_mode e) (active_lease e)
    (keyframe_requests e) (last_no_subscriber_micros e) (e_protocol e) (e_remote e) p o.

Record StreamManagerInner : Type := mk_manager {
  ring_capacity : nat;
  shared_pool : option (SharedDispatchPool J);
  next_stream_id : Z;
  next_lease_id : Z;
  entries : gmap Z StreamEntry;
  streams : gmap StreamKey Z;
  event_bus : bool;
  media_event_bus : bool;
  log : list manager_event
}.

Implicit Types (m : StreamManagerInner) (e : StreamEntry) (k : StreamKey).

Definition set_pool p m : StreamManagerInner :=
  mk_manager (ring_capacity m) p (next_stream_id m) (next_lease_id m) (entries m) (streams m)
    (event_bus m) (media_event_bus m) (log m).
Definition set_next_stream n m : StreamManagerInner :=
  mk_manager (ring_capacity m) (shared_pool m) n (next_lease_id m) (entries m) (streams m)
    (event_bus m) (media_event_bus m) (log m).
Definition set_next_lease n m : StreamManagerInner :=
  mk_manager (ring_capacity m) (shared_pool m) (next_stream_id m) n (entries m) (streams m)
    (event_bus m) (media_event_bus m) (log m).
Definition set_entries es m : StreamManagerInner :=
  mk_manager (ring_capacity m) (shared_pool m) (next_stream_id m) (next_lease_id m) es (streams m)
    (event_bus m) (media_event_bus m) (log m).
Definition set_streams ss m : StreamManagerInner :=
  mk_manager (ring_capacity m) (shared_pool m) (next_stream_id m) (next_lease_id m) (entries m) ss
    (event_bus m) (media_event_bus m) (log m).
Definition set_log l m : StreamManagerInner :=
  mk_manager (ring_capacity m) (shared_pool m) (next_stream_id m) (next_lease_id m) (entries m)
    (streams m) (event_bus m) (media_event_bus m) l.
Definition put_entry (id : Z) e m : StreamManagerInner := set_entries (<[id := e]> (entries m)) m.

(** [DispatcherMode::SharedPool] with its workers, or [PerStream]. *)
Definition manager_new (dm : option nat) (capacity : nat) : StreamManagerInner :=
  mk_manager (Nat.max capacity 128) (pool_new <$> ((fun n => Nat.max n 1) <$> dm)) 0 0 ∅ ∅
    false false [].

Definition set_event_bus m : StreamManagerInner :=
  mk_manager (ring_capacity m) (shared_pool m) (next_stream_id m) (next_lease_id m) (entries m)
    (streams m) true (media_event_bus m) (log m).
Definition set_media_event_bus m : StreamManagerInner :=
  mk_manager (ring_capacity m) (shared_pool m) (next_stream_id m) (next_lease_id m) (entries m)
    (streams m) (event_bus m) true (log m).

(** ** Events *)

Definition publish_stream_event k (kind : StreamEventKind) (sid sub : option Z)
    (res : option DispatchResult) m : StreamManagerInner :=
  if event_bus m then set_log (log m ++ [OnStreamBus (mk_event k kind sid sub res)]) m else m.

Definition publish_media_event (ev : MediaEvent) m : StreamManagerInner :=
  if media_event_bus m then set_log (log m ++ [OnMediaBus ev]) m else m.

Definition media_key_for k : MediaKey :=
  match from_namespace_path (fst k) (snd k) with
  | Ok mk => mk
  | Err _ => mk_media_key DEFAULT_VHOST (fst k) (snd k) None
  end.

Definition schema_for e (mk : MediaKey) : option MediaSchema :=
  match schema mk with
  | Some s => Some s
  | None => result_ok (schema_parse (e_protocol e))
  end.

Definition publish_stream_published k e m : StreamManagerInner :=
  if e_published e then put_entry (stream_id e) (set_flags true (e_online e) e) m
  else
    let mk := media_key_for k in
    let m := publish_media_event (StreamPublished mk (e_protocol e) (e_remote e) (stream_id e)) m in
    let m := put_entry (stream_id e) (set_flags true true e) m in
    if e_online e then m
    else publish_media_event (StreamOnlineChanged mk Online (schema_for e mk)) m.

Definition publish_stream_unpublished k e m : StreamManagerInner :=
  let mk := media_key_for k in
  let m := if e_published e then publish_media_event (StreamUnpublished mk (stream_id e)) m else m in
  let m := put_entry (stream_id e) (set_flags false false e) m in
  if e_online e then publish_media_event (StreamOnlineChanged mk Offline (schema_for e mk)) m else m.

(** ** The map of streams *)

Definition resolve_dispatch_mode (id : Z) m : option nat := lane_of_stream id <$> shared_pool m.

(** The registered entry of a key. *)
Definition entry_of k m : option StreamEntry := id ← streams m !! k; entries m !! id.

Definition get_or_create_stream k m : StreamManagerInner * Z :=
  match streams m !! k with
  | Some id => (m, id)
  | None =>
      let id := wrap_u 64 (next_stream_id m + 1) in
      let m := set_next_stream id m in
      let m := put_entry id (StreamEntry_new id (ring_capacity m) (resolve_dispatch_mode id m)) m in
      (set_streams (<[k := id]> (streams m)) m, id)
  end.

Definition cleanup_if_idle (now : Z) k m : StreamManagerInner :=
  match entry_of k m with
  | None => m
  | Some e =>
      let no_publisher := active_lease e =? 0 in
      let no_subscribers := (subscriber_count (dispatcher e) =? 0)%nat in
      let m := if no_subscribers && negb no_publisher
               then put_entry (stream_id e) (set_last_empty now e) m else m in
      if no_publisher && no_subscribers then set_streams (delete k (streams m)) m else m
  end.

Definition release_lease k (lease_id : Z) m : StreamManagerInner * result SdkError unit :=
  match entry_of k m with
  | None => (m, Err NotFound)
  | Some e =>
      if negb (active_lease e =? lease_id) then (m, Err Conflict)
      else
        let e := set_dispatcher (clear_subscribers (dispatcher e)) (set_lease 0 e) in
        let m := put_entry (stream_id e) e m in
        let m := publish_stream_unpublished k e m in
        let m := set_streams (delete k (streams m)) m in
        (publish_stream_event k StreamClosed (Some (stream_id e)) None None m, Ok tt)
  end.

(** ** Publishers *)

Definition acquire_publisher k (options : PublisherOptions) m :
    StreamManagerInner * result SdkError PublisherHandle :=
  let '(m, id) := get_or_create_stream k m in
  let lease_id := wrap_u 64 (next_lease_id m + 1) in
  let m := set_next_lease lease_id m in
  match entries m !! id with
  | None => (m, Err Internal)
  | Some e =>
      if negb (active_lease e =? 0) then (m, Err Conflict)
      else
        let e := set_publisher_info (protocol options) (remote_endpoint options) (set_lease lease_id e) in
        let m := put_entry id e m in
        let m := publish_stream_event k PublisherOpened (Some (stream_id e)) None None m in
        (m, Ok (mk_publisher k id lease_id false))
  end.

Definition release_publisher (h : PublisherHandle) m := release_lease (pub_key h) (pub_lease h) m.

Definition ensure_active (h : PublisherHandle) m : bool :=
  negb (pub_closed h) &&
  match entries m !! pub_entry h with
  | Some e => active_lease e =? pub_lease h
  | None => false
  end.

Definition update_tracks (h : PublisherHandle) (ts : list T) m :
    StreamManagerInner * result SdkError unit :=
  if negb (ensure_active h m) then (m, Err Unavailable)
  else match entries m !! pub_entry h with
       | None => (m, Err Internal)
       | Some e =>
           let e := set_tracks ts e in
           let m := put_entry (pub_entry h) e m in
           (match ts with [] => m | _ => publish_stream_published (pub_key h) e m end, Ok tt)
       end.

(** [Dispatcher::dispatch]. *)
Definition dispatch (id : Z) (frame : AVFrame) m : StreamManagerInner * DispatchResult :=
  match entries m !! id with
  | None => (m, RejectedClosed)
  | Some e =>
      match dispatch_mode e, shared_pool m with
      | Some lane, Some p =>
          let '(p, res) := enqueue lane id frame p in (set_pool (Some p) m, res)
      | _, _ =>
          let '(d, res) := dispatch_frame frame (dispatcher e) in
          (put_entry id (set_dispatcher d e) m, res)
      end
  end.

Definition push_frame (h : PublisherHandle) (frame : AVFrame) m : StreamManagerInner * DispatchResult :=
  if negb (ensure_active h m) then (m, RejectedClosed)
  else match entries m !! pub_entry h with
       | None => (m, RejectedClosed)
       | Some e =>
           let m := put_entry (pub_entry h) (set_ring (fst (push (ring e) frame)) e) m in
           let '(m, res) := dispatch (pub_entry h) frame m in
           (if bool_decide (res = DroppedByPolicy)
            then publish_stream_event (pub_key h) FrameDropped (Some (stream_id e)) None (Some res) m
            else m, res)
       end.

(** [close], and dropping the handle. *)
Definition close_publisher (h : PublisherHandle) m : PublisherHandle * StreamManagerInner :=
  if pub_closed h then (h, m)
  else (mk_publisher (pub_key h) (pub_entry h) (pub_lease h) true,
        fst (release_lease (pub_key h) (pub_lease h) m)).

Definition take_keyframe_requests (h : PublisherHandle) m : StreamManagerInner * Z :=
  match entries m !! pub_entry h with
  | None => (m, 0)
  | Some e => (put_entry (pub_entry h) (set_keyframe_requests 0 e) m, keyframe_requests e)
  end.

Definition request_keyframe k m : StreamManagerInner * result SdkError unit :=
  match entry_of k m with
  | None => (m, Err NotFound)
  | Some e =>
      (put_entry (stream_id e) (set_keyframe_requests (wrap_u 64 (keyframe_requests e + 1)) e) m, Ok tt)
  end.

(** ** Subscribers *)

(** [tx.try_send] of the bootstrap frames, up to the first that fails. *)
Fixpoint send_all (fs : list AVFrame) (c : C) : C :=
  match fs with
  | [] => c
  | f :: fs => let '(c, res) := ch_try_send c f in
               match res with SendOk => send_all fs c | _ => c end
  end.

Definition subscribe k (options : SubscriberOptions) m :
    StreamManagerInner * result SdkError SubscriberHandle :=
  if (queue_capacity options =? 0)%nat then (m, Err EngineTypes.InvalidArgument)
  else if (queue_capacity options <? max_bootstrap_frames (bootstrap_policy options))%nat
  then (m, Err EngineTypes.InvalidArgument)
  else match entry_of k m with
       | None => (m, Err NotFound)
       | Some e =>
           let '(d, id) := add_subscriber options (dispatcher e) in
           let m := publish_stream_event k SubscriberOpened (Some (stream_id e)) (Some id) None m in
           let '(r, frames) := bootstrap_frames (ring e) (bootstrap_policy options) in
           let d := mk_dispatcher (subscribers d) (next_subscriber_id d)
                      (alter (fun p => mk_port (send_all frames (p_chan p)) (p_wait p)) id (ports d)) in
           (put_entry (stream_id e) (set_dispatcher d (set_ring r e)) m,
            Ok (mk_subscription k (stream_id e) id false))
       end.

(** [recv], when a frame is waiting or none will come. *)
Definition recv (h : SubscriberHandle) m : StreamManagerInner * option AVFrame :=
  if sh_closed h then (m, None)
  else match entries m !! sh_entry h with
       | None => (m, None)
       | Some e => let '(d, f) := recv_from (sh_id h) (dispatcher e) in
                   (put_entry (sh_entry h) (set_dispatcher d e) m, f)
       end.

(** [close_inner], on [close] and on dropping the handle. *)
Definition close_subscriber (now : Z) (h : SubscriberHandle) m : SubscriberHandle * StreamManagerInner :=
  if sh_closed h then (h, m)
  else
    let m := match entries m !! sh_entry h with
             | Some e => put_entry (sh_entry h)
                           (set_dispatcher (remove_subscriber (sh_id h) (dispatcher e)) e) m
             | None => m
             end in
    let m := publish_stream_event (sh_key h) SubscriberClosed (Some (sh_entry h)) (Some (sh_id h)) None m in
    (mk_subscription (sh_key h) (sh_entry h) (sh_id h) true, cleanup_if_idle now (sh_key h) m).

(** ** Queries *)

Record StreamSnapshot : Type := mk_snapshot {
  snap_id : Z; snap_key : StreamKey; publisher_active : bool; snap_subscribers : nat;
  snap_tracks : list T
}.

Definition snapshot_for k e : StreamSnapshot :=
  mk_snapshot (stream_id e) k (negb (active_lease e =? 0)) (subscriber_count (dispatcher e)) (tracks e).

Definition get_stream k m : option StreamSnapshot := snapshot_for k <$> entry_of k m.

Definition list_streams m : list StreamSnapshot :=
  omap (fun kv => snapshot_for (fst kv) <$> entries m !! snd kv) (map_to_list (streams m)).

(** One turn of a pool worker: [job.dispatcher.dispatch_frame(job.frame)]. *)
Definition pool_turn (lane : nat) m : StreamManagerInner :=
  match shared_pool m with
  | None => m
  | Some p =>
      let '(p, job) := worker_turn lane p in
      let m := set_pool (Some p) m in
      match job with
      | None => m
      | Some (id, frame) =>
          match entries m !! id with
          | None => m
          | Some e => put_entry id (set_dispatcher (fst (dispatch_frame frame (dispatcher e))) e) m
          end
      end
  end.
End manager.

Arguments StreamEntry : clear implicits.
Arguments mk_entry {C T}.
Arguments StreamManagerInner : clear implicits.
Arguments mk_manager {C J T}.
Arguments mk_snapshot {T}.
Arguments StreamSnapshot : clear implicits.
