(* ===== verification/EngineStreamsSpec.v ===== *)
(** * Stream manager: what every sequence of operations guarantees

    Publishers and subscribers of any number of streams call the operations of
    EngineStreams in any order. *)
From S2P Require Import Prelude Codecs Timeline MediaKeys EngineTypes EngineRing EngineDispatch.
From S2P Require Import EnginePool EngineStreams.

Section world.
Context {C J T : Type} `{!BoundedChannel AVFrame C} `{!BoundedChannel DispatchJob J}.
Notation manager := (StreamManagerInner C J T).
Notation entry := (StreamEntry C T).

(** ** Worlds *)

(** The manager and the handles given out, in the order they were. *)
Record world : Type := mk_world {
  w_manager : manager;
  w_pubs : list PublisherHandle;
  w_subs : list SubscriberHandle
}.

Inductive op : Type :=
| Acquire (k : StreamKey) (options : PublisherOptions)
| Release (i : nat)
| UpdateTracks (i : nat) (ts : list T)
| PushFrame (i : nat) (f : AVFrame)
| ClosePublisher (i : nat)
| TakeKeyframeRequests (i : nat)
| RequestKeyframe (k : StreamKey)
| Subscribe (k : StreamKey) (options : SubscriberOptions)
| Receive (j : nat)
| CloseSubscriber (j : nat) (now : Z)
| PoolTurn (lane : nat).

Definition with_pub (i : nat) (w : world) (f : PublisherHandle -> manager -> manager) : world :=
  match w_pubs w !! i with
  | Some h => mk_world (f h (w_manager w)) (w_pubs w) (w_subs w)
  | None => w
  end.

Definition step (o : op) (w : world) : world :=
  let m := w_manager w in
  match o with
  | Acquire k options =>
      let '(m, r) := acquire_publisher k options m in
      mk_world m (w_pubs w ++ match r with Ok h => [h] | Err _ => [] end) (w_subs w)
  | Release i => with_pub i w (fun h m => fst (release_publisher h m))
  | UpdateTracks i ts => with_pub i w (fun h m => fst (update_tracks h ts m))
  | PushFrame i f => with_pub i w (fun h m => fst (push_frame h f m))
  | ClosePublisher i =>
      match w_pubs w !! i with
      | Some h => let '(h, m) := close_publisher h m in mk_world m (<[i := h]> (w_pubs w)) (w_subs w)
      | None => w
      end
  | TakeKeyframeRequests i => with_pub i w (fun h m => fst (take_keyframe_requests h m))
  | RequestKeyframe k => mk_world (fst (request_keyframe k m)) (w_pubs w) (w_subs w)
  | Subscribe k options =>
      let '(m, r) := subscribe k options m in
      mk_world m (w_pubs w) (w_subs w ++ match r with Ok h => [h] | Err _ => [] end)
  | Receive j =>
      match w_subs w !! j with
      | Some h => mk_world (fst (recv h m)) (w_pubs w) (w_subs w)
      | None => w
      end
  | CloseSubscriber j now =>
      match w_subs w !! j with
      | Some h => let '(h, m) := close_subscriber now h m in mk_world m (w_pubs w) (<[j := h]> (w_subs w))
      | None => w
      end
  | PoolTurn lane => mk_world (pool_turn lane m) (w_pubs w) (w_subs w)
  end.

Definition run (ops : list op) (w : world) : world := foldl (fun w o => step o w) w ops.

(** A new manager with its event buses attached. *)
Definition initial (dm : option nat) (capacity : nat) : world :=
  mk_world (set_media_event_bus (set_event_bus (manager_new dm capacity))) [] [].

(** ** The invariant *)

(** The fields of an entry that the leases depend on. *)
Definition core (e : entry) : Z * Z * bool * bool :=
  (stream_id e, active_lease e, e_published e, e_online e).

Record entry_ok (n ns nl id : Z) (e : entry) : Prop := {
  eo_id : stream_id e = id;
  eo_range : 0 < id <= ns;
  eo_lease : 0 <= active_lease e <= nl;
  eo_flags : e_online e = e_published e;
  eo_published : active_lease e = 0 -> e_published e = false;
  eo_disp : dispatcher_wf (dispatcher e);
  eo_next : next_subscriber_id (dispatcher e) <= n
}.

(** [n] bounds the identifiers given out. *)
Record inv (n ns nl : Z) (es : gmap Z entry) (ss : gmap StreamKey Z) (ps : list PublisherHandle) : Prop := {
  iv_next : 0 <= ns <= n /\ 0 <= nl <= n;
  iv_entry : forall id e, es !! id = Some e -> entry_ok n ns nl id e;
  iv_streams : forall k id, ss !! k = Some id -> is_Some (es !! id);
  iv_inj : forall k k' id, ss !! k = Some id -> ss !! k' = Some id -> k = k';
  iv_leased : forall id e, es !! id = Some e -> active_lease e <> 0 ->
    exists i h, ps !! i = Some h /\ pub_entry h = id /\ pub_lease h = active_lease e /\
      pub_closed h = false /\ ss !! pub_key h = Some id;
  iv_pubs : forall i h, ps !! i = Some h -> 0 < pub_lease h <= nl /\ is_Some (es !! pub_entry h);
  iv_uniq : forall i j h h', ps !! i = Some h -> ps !! j = Some h' -> pub_lease h = pub_lease h' -> i = j
}.

Definition minv (n : Z) (m : manager) (ps : list PublisherHandle) : Prop :=
  inv n (next_stream_id m) (next_lease_id m) (entries m) (streams m) ps.

Lemma inv_mono n n' ns nl es ss ps : n <= n' -> inv n ns nl es ss ps -> inv n' ns nl es ss ps.
Proof using Type.
  intros Hn [I1 I2 I3 I4 I5 I6 I7]. split; try done; [lia|].
  intros id e He. destruct (I2 id e He). split; try done. lia.
Qed.

(** An update that touches nothing the leases depend on. *)
Lemma inv_soft n ns nl es ss ps id e e' :
  inv n ns nl es ss ps -> es !! id = Some e -> core e' = core e ->
  dispatcher_wf (dispatcher e') -> next_subscriber_id (dispatcher e') <= n ->
  inv n ns nl (<[id := e']> es) ss ps.
Proof using Type.
  intros [I1 I2 I3 I4 I5 I6 I7] He Hc Hd Hn. unfold core in Hc. injection Hc as C1 C2 C3 C4.
  split; try done.
  - intros id' e1 H1. destruct (decide (id' = id)) as [->|].
    + rewrite lookup_insert_eq in H1. injection H1 as <-. destruct (I2 id e He).
      split; rewrite ?C1, ?C2, ?C3, ?C4; done || lia.
    + rewrite lookup_insert_ne in H1 by done. by apply I2.
  - intros k id' Hk. apply lookup_insert_is_Some'. right. eauto.
  - intros id' e1 H1 Hl. destruct (decide (id' = id)) as [->|].
    + rewrite lookup_insert_eq in H1. injection H1 as <-. rewrite C2 in *. by apply (I5 id e).
    + rewrite lookup_insert_ne in H1 by done. by apply (I5 id' e1).
  - intros i h Hh. destruct (I6 i h Hh) as [A B]. split; [done|]. apply lookup_insert_is_Some'. by right.
Qed.

(** Two handles of one entry in which a lease is active: the map knows it under
    one key. *)
Lemma inv_owner n ns nl es ss ps i h e :
  inv n ns nl es ss ps -> ps !! i = Some h -> es !! pub_entry h = Some e ->
  active_lease e = pub_lease h -> pub_closed h = false /\ ss !! pub_key h = Some (pub_entry h).
Proof using Type.
  intros [I1 I2 I3 I4 I5 I6 I7] Hh He Hl. destruct (I6 i h Hh) as [A _].
  destruct (I5 _ _ He ltac:(lia)) as (j & h' & Hj & E1 & E2 & E3 & E4).
  assert (i = j) as <- by (apply (I7 i j h h'); congruence).
  assert (h' = h) as -> by congruence. done.
Qed.

Lemma inv_create n ns nl es ss ps k e :
  inv n ns nl es ss ps -> ss !! k = None -> ns + 1 <= n ->
  entry_ok n (ns + 1) nl (ns + 1) e -> active_lease e = 0 ->
  inv n (ns + 1) nl (<[ns + 1 := e]> es) (<[k := ns + 1]> ss) ps.
Proof using Type.
  intros [I1 I2 I3 I4 I5 I6 I7] Hk Hn He Hl.
  assert (Hf : es !! (ns + 1) = None).
  { destruct (es !! (ns + 1)) as [e0|] eqn:E; [|done]. destruct (I2 _ _ E). lia. }
  split; try done; [lia| | | | |].
  - intros id' e1 H1. destruct (decide (id' = ns + 1)) as [->|].
    + rewrite lookup_insert_eq in H1. by injection H1 as <-.
    + rewrite lookup_insert_ne in H1 by done. destruct (I2 _ _ H1). split; try done; lia.
  - intros k' id' H1. apply lookup_insert_is_Some'. destruct (decide (k' = k)) as [->|].
    + rewrite lookup_insert_eq in H1. injection H1 as <-. by left.
    + rewrite lookup_insert_ne in H1 by done. right. eauto.
  - intros k1 k2 id' H1 H2.
    assert (Hfresh : forall k', ss !! k' <> Some (ns + 1)) by (intros k' E; destruct (I3 _ _ E); congruence).
    destruct (decide (k1 = k)) as [->|]; [destruct (decide (k2 = k)) as [->|]; [done|]|].
    + rewrite lookup_insert_eq in H1. injection H1 as <-. rewrite lookup_insert_ne in H2 by done.
      by apply Hfresh in H2.
    + rewrite lookup_insert_ne in H1 by done. destruct (decide (k2 = k)) as [->|].
      * rewrite lookup_insert_eq in H2. injection H2 as <-. by apply Hfresh in H1.
      * rewrite lookup_insert_ne in H2 by done. eauto.
  - intros id' e1 H1 Hl1. destruct (decide (id' = ns + 1)) as [->|].
    + rewrite lookup_insert_eq in H1. by injection H1 as <-.
    + rewrite lookup_insert_ne in H1 by done.
      destruct (I5 _ _ H1 Hl1) as (i & h & A1 & A2 & A3 & A4 & A5). exists i, h.
      split_and!; try done. rewrite lookup_insert_ne; [done|]. intros ->. congruence.
  - intros i h Hh. destruct (I6 i h Hh) as [A B]. split; [done|]. apply lookup_insert_is_Some'. by right.
Qed.

(** A failed acquisition uses up a lease number. *)
Lemma inv_bump n ns nl es ss ps : inv n ns nl es ss ps -> nl + 1 <= n -> inv n ns (nl + 1) es ss ps.
Proof using Type.
  intros [I1 I2 I3 I4 I5 I6 I7] Hn. split; try done; [lia| |].
  - intros id e He. destruct (I2 id e He). split; try done. lia.
  - intros i h Hh. destruct (I6 i h Hh). split; [lia|done].
Qed.

Lemma inv_acquire n ns nl es ss ps k id e e' :
  inv n ns nl es ss ps -> nl + 1 <= n -> ss !! k = Some id -> es !! id = Some e -> active_lease e = 0 ->
  core e' = (stream_id e, nl + 1, e_published e, e_online e) -> dispatcher e' = dispatcher e ->
  inv n ns (nl + 1) (<[id := e']> es) ss (ps ++ [mk_publisher k id (nl + 1) false]).
Proof using Type.
  intros [I1 I2 I3 I4 I5 I6 I7] Hn Hk He Hl Hc Hd. unfold core in Hc. injection Hc as C1 C2 C3 C4.
  assert (Hlast : (ps ++ [mk_publisher k id (nl + 1) false]) !! length ps
    = Some (mk_publisher k id (nl + 1) false)) by by apply list_lookup_middle.
  assert (Hsplit : forall i h, (ps ++ [mk_publisher k id (nl + 1) false]) !! i = Some h ->
    ps !! i = Some h \/ i = length ps /\ h = mk_publisher k id (nl + 1) false).
  { intros i h [Hh|[Hi Hh]]%lookup_app_Some; [by left|right].
    destruct (i - length ps)%nat eqn:Ei; cbn in Hh; [|done]. split; [lia|congruence]. }
  split; try done; [lia| | | | |].
  - intros id' e1 H1. destruct (decide (id' = id)) as [->|].
    + rewrite lookup_insert_eq in H1. injection H1 as <-. destruct (I2 id e He).
      split; rewrite ?Hd, ?C1, ?C2, ?C3, ?C4; done || lia.
    + rewrite lookup_insert_ne in H1 by done. destruct (I2 _ _ H1). split; try done. lia.
  - intros k' id' H1. apply lookup_insert_is_Some'. right. eauto.
  - intros id' e1 H1 Hl1. destruct (decide (id' = id)) as [->|].
    + rewrite lookup_insert_eq in H1. injection H1 as <-. eexists _, _. split; [exact Hlast|].
      cbn. split_and!; congruence.
    + rewrite lookup_insert_ne in H1 by done.
      destruct (I5 _ _ H1 Hl1) as (i & h & A1 & A). exists i, h. split; [|done].
      by apply lookup_app_l_Some.
  - intros i h Hh. destruct (Hsplit i h Hh) as [Hp|[-> ->]].
    + destruct (I6 i h Hp) as [A B]. split; [lia|]. apply lookup_insert_is_Some'. by right.
    + cbn. split; [lia|]. apply lookup_insert_is_Some'. by left.
  - intros i j h h' Hi Hj E. destruct (Hsplit i h Hi) as [Hp|[-> ->]], (Hsplit j h' Hj) as [Hq|[-> ->]].
    + by apply (I7 i j h h').
    + destruct (I6 i h Hp). cbn in E. lia.
    + destruct (I6 j h' Hq). cbn in E. lia.
    + done.
Qed.

Lemma inv_publish n ns nl es ss ps id e e' :
  inv n ns nl es ss ps -> es !! id = Some e -> active_lease e <> 0 ->
  core e' = (stream_id e, active_lease e, true, true) -> dispatcher e' = dispatcher e ->
  inv n ns nl (<[id := e']> es) ss ps.
Proof using Type.
  intros [I1 I2 I3 I4 I5 I6 I7] He Hl Hc Hd. unfold core in Hc. injection Hc as C1 C2 C3 C4.
  split; try done.
  - intros id' e1 H1. destruct (decide (id' = id)) as [->|].
    + rewrite lookup_insert_eq in H1. injection H1 as <-. destruct (I2 id e He).
      split; rewrite ?Hd, ?C1, ?C2, ?C3, ?C4; done || lia.
    + rewrite lookup_insert_ne in H1 by done. by apply I2.
  - intros k id' Hk. apply lookup_insert_is_Some'. right. eauto.
  - intros id' e1 H1 Hl1. destruct (decide (id' = id)) as [->|].
    + rewrite lookup_insert_eq in H1. injection H1 as <-. rewrite C2. by apply (I5 id e).
    + rewrite lookup_insert_ne in H1 by done. by apply (I5 id' e1).
  - intros i h Hh. destruct (I6 i h Hh) as [A B]. split; [done|]. apply lookup_insert_is_Some'. by right.
Qed.

(** Ending a lease, or forgetting an entry that has none. *)
Lemma inv_release n ns nl es ss ps k id e e' :
  inv n ns nl es ss ps -> ss !! k = Some id -> es !! id = Some e ->
  core e' = (stream_id e, 0, false, false) ->
  dispatcher_wf (dispatcher e') -> next_subscriber_id (dispatcher e') <= n ->
  inv n ns nl (<[id := e']> es) (delete k ss) ps.
Proof using Type.
  intros [I1 I2 I3 I4 I5 I6 I7] Hk He Hc Hd Hn. unfold core in Hc. injection Hc as C1 C2 C3 C4.
  split; try done.
  - intros id' e1 H1. destruct (decide (id' = id)) as [->|].
    + rewrite lookup_insert_eq in H1. injection H1 as <-. destruct (I2 id e He).
      split; rewrite ?C1, ?C2, ?C3, ?C4; done || lia.
    + rewrite lookup_insert_ne in H1 by done. by apply I2.
  - intros k' id' (_ & H1)%lookup_delete_Some. apply lookup_insert_is_Some'. right. eauto.
  - intros k1 k2 id' (_ & H1)%lookup_delete_Some (_ & H2)%lookup_delete_Some. eauto.
  - intros id' e1 H1 Hl1. destruct (decide (id' = id)) as [->|].
    + rewrite lookup_insert_eq in H1. injection H1 as <-. lia.
    + rewrite lookup_insert_ne in H1 by done.
      destruct (I5 _ _ H1 Hl1) as (i & h & A1 & A2 & A3 & A4 & A5). exists i, h.
      split_and!; try done. apply lookup_delete_Some. split; [|done]. intros ->. congruence.
  - intros i h Hh. destruct (I6 i h Hh) as [A B]. split; [done|]. apply lookup_insert_is_Some'. by right.
Qed.

Lemma inv_forget n ns nl es ss ps k id e :
  inv n ns nl es ss ps -> ss !! k = Some id -> es !! id = Some e -> active_lease e = 0 ->
  inv n ns nl es (delete k ss) ps.
Proof using Type.
  intros I Hk He Hl. destruct (iv_entry _ _ _ _ _ _ I id e He).
  rewrite <- (insert_id es id e He). apply (inv_release n ns nl es ss ps k id e e); try done.
  unfold core. rewrite eo_flags0, (eo_published0 Hl). congruence.
Qed.

Lemma inv_close n ns nl es ss ps i h :
  inv n ns nl es ss ps -> ps !! i = Some h ->
  (forall e, es !! pub_entry h = Some e -> active_lease e <> pub_lease h) ->
  inv n ns nl es ss (<[i := mk_publisher (pub_key h) (pub_entry h) (pub_lease h) true]> ps).
Proof using Type.
  intros [I1 I2 I3 I4 I5 I6 I7] Hh Hn. pose proof (lookup_lt_Some _ _ _ Hh) as Hlt.
  assert (Hsame : forall j g, <[i := mk_publisher (pub_key h) (pub_entry h) (pub_lease h) true]> ps !! j
    = Some g -> exists g', ps !! j = Some g' /\ pub_lease g' = pub_lease g /\ pub_entry g' = pub_entry g).
  { intros j g Hg. destruct (decide (j = i)) as [->|].
    - rewrite list_lookup_insert_eq in Hg by done. injection Hg as <-. eauto.
    - rewrite list_lookup_insert_ne in Hg by done. eauto. }
  split; try done.
  - intros id e He Hl. destruct (I5 id e He Hl) as (j & g & A1 & A2 & A3 & A4 & A5). exists j, g.
    split_and!; try done. rewrite list_lookup_insert_ne; [done|]. intros ->.
    assert (g = h) as -> by congruence. apply (Hn e); congruence.
  - intros j g Hg. destruct (Hsame j g Hg) as (g' & A1 & <- & <-). by apply (I6 j g').
  - intros j1 j2 g1 g2 H1 H2 E. destruct (Hsame _ _ H1) as (g1' & A1 & A2 & _), (Hsame _ _ H2) as (g2' & B1 & B2 & _).
    apply (I7 _ _ g1' g2'); congruence.
Qed.

(** ** The lifecycle of the media events *)

Definition media_log (l : list manager_event) : list MediaEvent :=
  omap (fun ev => match ev with OnMediaBus ev => Some ev | OnStreamBus _ => None end) l.

(** A session (the stream id) is published once and unpublished at most once
    after that; each event is followed by the online state of the same key. The
    map tells whether a session seen so far is published. *)
Inductive lifecycle : list MediaEvent -> gmap Z bool -> Prop :=
| lc_nil : lifecycle [] ∅
| lc_publish l st k p r s sch :
    lifecycle l st -> st !! s = None ->
    lifecycle (l ++ [StreamPublished k p r s; StreamOnlineChanged k Online sch]) (<[s := true]> st)
| lc_unpublish l st k s sch :
    lifecycle l st -> st !! s = Some true ->
    lifecycle (l ++ [StreamUnpublished k s; StreamOnlineChanged k Offline sch]) (<[s := false]> st).

Record linv (es : gmap Z entry) (ss : gmap StreamKey Z) (l : list MediaEvent) (st : gmap Z bool) : Prop := {
  lv_log : lifecycle l st;
  lv_dom : forall id, is_Some (st !! id) -> is_Some (es !! id);
  lv_published : forall id e, es !! id = Some e -> e_published e = true <-> st !! id = Some true;
  lv_fresh : forall k id e, ss !! k = Some id -> es !! id = Some e -> e_published e = false ->
    st !! id = None
}.

Definition good (n : Z) (m : manager) (ps : list PublisherHandle) : Prop :=
  minv n m ps /\ media_event_bus m = true /\ exists st, linv (entries m) (streams m) (media_log (log m)) st.

Lemma linv_soft es ss l st id e e' :
  linv es ss l st -> es !! id = Some e -> e_published e' = e_published e -> linv (<[id := e']> es) ss l st.
Proof using Type.
  intros [L1 L2 L3 L4] He Hp. split; [done| | |].
  - intros id' H. apply lookup_insert_is_Some'. right. auto.
  - intros id' e1 H1. destruct (decide (id' = id)) as [->|].
    + rewrite lookup_insert_eq in H1. injection H1 as <-. rewrite Hp. by apply L3.
    + rewrite lookup_insert_ne in H1 by done. by apply L3.
  - intros k id' e1 Hk H1 Hf. destruct (decide (id' = id)) as [->|].
    + rewrite lookup_insert_eq in H1. injection H1 as <-. apply (L4 k id e); congruence.
    + rewrite lookup_insert_ne in H1 by done. by apply (L4 k id' e1).
Qed.

Lemma linv_delete es ss l st k : linv es ss l st -> linv es (delete k ss) l st.
Proof using Type.
  intros [L1 L2 L3 L4]. split; try done. intros k' id e (_ & Hk)%lookup_delete_Some. by apply (L4 k').
Qed.

Lemma linv_create es ss l st k id e :
  linv es ss l st -> es !! id = None -> e_published e = false ->
  (forall k' id', ss !! k' = Some id' -> is_Some (es !! id')) ->
  linv (<[id := e]> es) (<[k := id]> ss) l st.
Proof using Type.
  intros [L1 L2 L3 L4] He Hp Hs.
  assert (Hn : st !! id = None).
  { destruct (st !! id) eqn:E; [|done]. destruct (L2 id) as [? H]; [eauto|congruence]. }
  split; [done| | |].
  - intros id' H. apply lookup_insert_is_Some'. right. auto.
  - intros id' e1 H1. destruct (decide (id' = id)) as [->|].
    + rewrite lookup_insert_eq in H1. injection H1 as <-. rewrite Hp, Hn. done.
    + rewrite lookup_insert_ne in H1 by done. by apply L3.
  - intros k' id' e1 Hk H1 Hf. destruct (decide (id' = id)) as [->|]; [done|].
    rewrite lookup_insert_ne in H1 by done. destruct (decide (k' = k)) as [->|].
    + rewrite lookup_insert_eq in Hk. congruence.
    + rewrite lookup_insert_ne in Hk by done. by apply (L4 k' id' e1).
Qed.

Lemma linv_publish es ss l st k id e e' mk p r sch :
  linv es ss l st -> es !! id = Some e -> ss !! k = Some id -> e_published e = false ->
  e_published e' = true ->
  linv (<[id := e']> es) ss (l ++ [StreamPublished mk p r id; StreamOnlineChanged mk Online sch])
    (<[id := true]> st).
Proof using Type.
  intros [L1 L2 L3 L4] He Hk Hp Hp'. split.
  - constructor; [done|]. by apply (L4 k id e).
  - intros id' H. apply lookup_insert_is_Some'. apply lookup_insert_is_Some' in H as [->|H]; [by left|right]. auto.
  - intros id' e1 H1. destruct (decide (id' = id)) as [->|].
    + rewrite lookup_insert_eq in H1. rewrite lookup_insert_eq. injection H1 as <-. done.
    + rewrite lookup_insert_ne in H1 by done. rewrite lookup_insert_ne by done. by apply L3.
  - intros k' id' e1 Hk' H1 Hf. destruct (decide (id' = id)) as [->|].
    + rewrite lookup_insert_eq in H1. congruence.
    + rewrite lookup_insert_ne in H1 by done. rewrite lookup_insert_ne by done. by apply (L4 k' id' e1).
Qed.

Lemma linv_unpublish es ss l st k id e e' mk sch :
  linv es ss l st -> es !! id = Some e -> e_published e = true -> e_published e' = false ->
  (forall k', ss !! k' = Some id -> k' = k) ->
  linv (<[id := e']> es) (delete k ss)
    (l ++ [StreamUnpublished mk id; StreamOnlineChanged mk Offline sch]) (<[id := false]> st).
Proof using Type.
  intros [L1 L2 L3 L4] He Hp Hp' Hk. split.
  - constructor; [done|]. by apply (L3 id e).
  - intros id' H. apply lookup_insert_is_Some'. apply lookup_insert_is_Some' in H as [->|H]; [by left|right]. auto.
  - intros id' e1 H1. destruct (decide (id' = id)) as [->|].
    + rewrite lookup_insert_eq in H1. rewrite lookup_insert_eq. injection H1 as <-. rewrite Hp'. split; congruence.
    + rewrite lookup_insert_ne in H1 by done. rewrite lookup_insert_ne by done. by apply L3.
  - intros k' id' e1 (Hne & Hk')%lookup_delete_Some H1 Hf. destruct (decide (id' = id)) as [->|].
    + by apply Hk in Hk'; congruence.
    + rewrite lookup_insert_ne in H1 by done. rewrite lookup_insert_ne by done. by apply (L4 k' id' e1).
Qed.

(** ** Each operation *)

Lemma media_log_app l l' : media_log (l ++ l') = media_log l ++ media_log l'.
Proof using Type. apply omap_app. Qed.

Lemma good_mono n n' m ps : n <= n' -> good n m ps -> good n' m ps.
Proof using Type. intros Hn (G1 & G2). split; [by apply (inv_mono n)|done]. Qed.

Lemma publish_attached ev (m : manager) :
  media_event_bus m = true -> publish_media_event ev m = set_log (log m ++ [OnMediaBus ev]) m.
Proof using Type. intros H. unfold publish_media_event. by rewrite H. Qed.

Lemma good_pool n m ps p : good n m ps -> good n (set_pool p m) ps.
Proof using Type. done. Qed.

Lemma good_event n m ps k kind a b c : good n m ps -> good n (publish_stream_event k kind a b c m) ps.
Proof using Type.
  intros (G1 & G2 & st & G3). unfold publish_stream_event. destruct (event_bus m); [|split; eauto].
  split; [done|]. split; [done|]. exists st. cbn [log set_log]. rewrite media_log_app. cbn. by rewrite app_nil_r.
Qed.

Lemma good_soft n m ps id e e' :
  good n m ps -> entries m !! id = Some e -> core e' = core e ->
  dispatcher_wf (dispatcher e') -> next_subscriber_id (dispatcher e') <= n ->
  good n (put_entry id e' m) ps.
Proof using Type.
  intros (G1 & G2 & st & G3) He Hc Hd Hn. split; [by apply (inv_soft _ _ _ _ _ _ _ e)|].
  split; [done|]. exists st. apply (linv_soft _ _ _ _ _ e); try done. unfold core in Hc. congruence.
Qed.

Lemma good_soft_same n m ps id e e' :
  good n m ps -> entries m !! id = Some e -> core e' = core e -> dispatcher e' = dispatcher e ->
  good n (put_entry id e' m) ps.
Proof using Type.
  intros G He Hc Hd. destruct (iv_entry _ _ _ _ _ _ (proj1 G) id e He).
  apply (good_soft _ _ _ _ e); try done; by rewrite Hd.
Qed.

Lemma entry_of_some k (m : manager) e :
  entry_of k m = Some e -> exists id, streams m !! k = Some id /\ entries m !! id = Some e.
Proof using Type. unfold entry_of. intros H. apply bind_Some in H as (id & H1 & H2). eauto. Qed.

Lemma entry_of_good n k m ps e :
  good n m ps -> entry_of k m = Some e ->
  streams m !! k = Some (stream_id e) /\ entries m !! stream_id e = Some e.
Proof using Type.
  intros (G1 & _) (id & H1 & H2)%entry_of_some. destruct (iv_entry _ _ _ _ _ _ G1 id e H2). by subst id.
Qed.

Lemma create_good n m ps k :
  good n m ps -> next_stream_id m + 1 <= n -> n < 2 ^ 62 ->
  let '(m', id) := get_or_create_stream k m in
  good n m' ps /\ streams m' !! k = Some id /\ next_lease_id m' = next_lease_id m /\
  (exists e, entries m' !! id = Some e /\ (streams m !! k = None -> active_lease e = 0)) /\
  (forall i e, entries m !! i = Some e -> entries m' !! i = Some e) /\
  (forall k', streams m !! k' <> None -> streams m' !! k' = streams m !! k') /\ log m' = log m.
Proof using Type.
  intros G Hn Hb. pose proof G as (G1 & G2 & st & G3). unfold get_or_create_stream.
  destruct (streams m !! k) as [id|] eqn:Hk.
  - destruct (iv_streams _ _ _ _ _ _ G1 k id Hk) as [e He]. split_and!; eauto. exists e. split; [done|].
    intros E. congruence.
  - pose proof (iv_next _ _ _ _ _ _ G1) as Hr.
    rewrite wrap_u_small by (unfold in_u; change (2 ^ 62) with 4611686018427387904 in *;
      change (2 ^ 64) with 18446744073709551616; lia).
    set (id := next_stream_id m + 1). cbv zeta. cbn [set_streams set_next_stream put_entry set_entries
      ring_capacity streams entries next_lease_id log].
    set (e := StreamEntry_new id _ _).
    assert (Hf : entries m !! id = None).
    { destruct (entries m !! id) as [e0|] eqn:E; [|done].
      destruct (iv_entry _ _ _ _ _ _ G1 _ _ E). unfold id in *. lia. }
    split; [|split_and!].
    + split; [|split; [done|]].
      * apply inv_create; try done. split; cbn; try done; [lia|lia|apply wf_new|lia].
      * exists st. apply linv_create; try done. apply G1.
    + by rewrite lookup_insert_eq.
    + done.
    + exists e. by rewrite lookup_insert_eq.
    + intros i e0 He0. rewrite lookup_insert_ne; [done|]. intros <-. congruence.
    + intros k' Hk'. rewrite lookup_insert_ne; [done|]. by intros <-.
    + done.
Qed.

Lemma acquire_good n m ps k options :
  good n m ps -> next_stream_id m + 1 <= n -> next_lease_id m + 1 <= n -> n < 2 ^ 62 ->
  let '(m', r) := acquire_publisher k options m in
  good n m' (ps ++ match r with Ok h => [h] | Err _ => [] end).
Proof using Type.
  intros G Hn Hn' Hb. unfold acquire_publisher. pose proof (create_good n m ps k G Hn Hb) as Hc.
  destruct (get_or_create_stream k m) as [m1 id]. destruct Hc as (G' & Hk & El & (e & He & _) & _).
  pose proof G' as (G1 & G2 & st & G3). pose proof (iv_next _ _ _ _ _ _ G1) as Hr.
  rewrite El, wrap_u_small by (unfold in_u; change (2 ^ 62) with 4611686018427387904 in *;
    change (2 ^ 64) with 18446744073709551616; lia).
  rewrite <- El in *. cbn [set_next_lease entries]. rewrite He.
  destruct (Z.eqb_spec (active_lease e) 0) as [Hz|Hz]; cbn [negb].
  - apply good_event. split; [|split; [done|exists st]].
    + apply (inv_acquire _ _ _ _ _ _ _ _ e); done.
    + cbn. by apply (linv_soft _ _ _ _ _ e).
  - rewrite app_nil_r. split; [by apply inv_bump|]. split; [done|]. by exists st.
Qed.

Lemma release_good n m ps k l :
  good n m ps -> 0 < l -> good n (fst (release_lease k l m)) ps.
Proof using Type.
  intros G Hl. unfold release_lease. destruct (entry_of k m) as [e|] eqn:Ee; [|done].
  destruct (entry_of_good _ _ _ _ _ G Ee) as [Hk He].
  destruct (Z.eqb_spec (active_lease e) l) as [El|]; [|done]. cbn [negb]. cbv zeta. cbn [fst].
  apply good_event. pose proof G as (G1 & G2 & st & G3). pose proof (iv_entry _ _ _ _ _ _ G1 _ _ He) as Ho.
  unfold publish_stream_unpublished. cbn [e_published e_online set_dispatcher set_lease stream_id].
  rewrite (eo_flags _ _ _ _ _ Ho).
  assert (Hwf : dispatcher_wf (clear_subscribers (dispatcher e))).
  { apply wf_clear, Ho. }
  destruct (e_published e) eqn:Ep.
  - rewrite !publish_attached by (try rewrite publish_attached; done).
    split; [|split; [done|]].
    + unfold minv. cbn. rewrite insert_insert_eq. by apply (inv_release _ _ _ _ _ _ _ _ e); try apply Ho.
    + exists (<[stream_id e := false]> st).
      cbn. rewrite insert_insert_eq, !media_log_app, <- app_assoc. cbn.
      apply (linv_unpublish _ _ _ st _ _ e); try done.
      intros k' Hk'. by apply (iv_inj _ _ _ _ _ _ G1 k' k (stream_id e)).
  - split; [|split; [done|]].
    + unfold minv. cbn. rewrite insert_insert_eq. by apply (inv_release _ _ _ _ _ _ _ _ e); try apply Ho.
    + exists st. cbn. rewrite insert_insert_eq. apply linv_delete, (linv_soft _ _ _ _ _ e); done.
Qed.

Lemma tracks_good n m ps i h ts :
  good n m ps -> ps !! i = Some h -> good n (fst (update_tracks h ts m)) ps.
Proof using Type.
  intros G Hh. unfold update_tracks, ensure_active.
  destruct (entries m !! pub_entry h) as [e|] eqn:He; [|by destruct (pub_closed h)].
  destruct (pub_closed h); [done|]. destruct (Z.eqb_spec (active_lease e) (pub_lease h)) as [El|]; [|done].
  cbn [negb andb]. set (e' := set_tracks ts e).
  assert (G' : good n (put_entry (pub_entry h) e' m) ps) by (apply (good_soft_same _ _ _ _ e); done).
  destruct ts as [|t ts]; [done|]. cbn [fst]. pose proof G' as (G1 & G2 & st & G3).
  assert (He' : entries (put_entry (pub_entry h) e' m) !! pub_entry h = Some e') by (cbn; by rewrite lookup_insert_eq).
  destruct (inv_owner _ _ _ _ _ _ _ _ e' G1 Hh He' El) as [_ Hk].
  pose proof (iv_entry _ _ _ _ _ _ G1 _ _ He') as Ho. set (m1 := put_entry (pub_entry h) e' m) in *.
  destruct (iv_pubs _ _ _ _ _ _ G1 _ _ Hh) as [Hpos _].
  unfold publish_stream_published. rewrite (eo_id _ _ _ _ _ Ho), (eo_flags _ _ _ _ _ Ho).
  destruct (e_published e') eqn:Ep.
  - apply (good_soft_same _ _ _ _ e'); try done. unfold core, set_flags.
    cbn [stream_id active_lease e_published e_online]. by rewrite (eo_flags _ _ _ _ _ Ho), Ep.
  - cbv zeta. rewrite !publish_attached by (try rewrite publish_attached; done).
    split; [|split; [done|]].
    + unfold minv. cbn -[m1]. apply (inv_publish _ _ _ _ _ _ _ e'); try done. change (active_lease e') with (active_lease e). lia.
    + exists (<[pub_entry h := true]> st). cbn -[m1]. rewrite !media_log_app, <- app_assoc. cbn -[m1].
      by apply (linv_publish _ _ _ st (pub_key h) _ e').
Qed.

Lemma dispatch_good n m ps id f : good n m ps -> good n (fst (dispatch id f m)) ps.
Proof using Type.
  intros G. unfold dispatch. destruct (entries m !! id) as [e|] eqn:He; [|done].
  assert (G' : good n (fst (let '(d, res) := dispatch_frame f (dispatcher e) in
    (put_entry id (set_dispatcher d e) m, res))) ps).
  { pose proof (iv_entry _ _ _ _ _ _ (proj1 G) id e He) as Ho.
    destruct (dispatch_frame_wf (dispatcher e) f (eo_disp _ _ _ _ _ Ho)) as [W E].
    destruct (dispatch_frame f (dispatcher e)) as [d res]. cbn [fst] in *.
    apply (good_soft _ _ _ _ e); try done. change (next_subscriber_id d <= n). rewrite E. apply Ho. }
  destruct (dispatch_mode e), (shared_pool m); try exact G'. by destruct (enqueue _ _ _ _).
Qed.

Lemma push_good n m ps h f : good n m ps -> good n (fst (push_frame h f m)) ps.
Proof using Type.
  intros G. unfold push_frame. destruct (negb _); [done|].
  destruct (entries m !! pub_entry h) as [e|] eqn:He; [|done].
  set (m1 := put_entry _ _ m). assert (G1 : good n m1 ps) by by apply (good_soft_same _ _ _ _ e).
  pose proof (dispatch_good n m1 ps (pub_entry h) f G1) as G2.
  destruct (dispatch (pub_entry h) f m1) as [m2 res]. cbn [fst] in *.
  case_bool_decide; [by apply good_event|done].
Qed.

Lemma release_clears n m ps i h e :
  good n m ps -> ps !! i = Some h ->
  entries (fst (release_lease (pub_key h) (pub_lease h) m)) !! pub_entry h = Some e ->
  active_lease e <> pub_lease h.
Proof using Type.
  intros G Hh He Hl. pose proof G as (G1 & _). destruct (iv_pubs _ _ _ _ _ _ G1 i h Hh) as [Hpos _].
  unfold release_lease in He. destruct (entry_of (pub_key h) m) as [e0|] eqn:Ee.
  - destruct (entry_of_good _ _ _ _ _ G Ee) as [Hk He0].
    destruct (Z.eqb_spec (active_lease e0) (pub_lease h)) as [El|Hne]; cbn [negb fst] in He.
    + destruct (iv_leased _ _ _ _ _ _ G1 _ _ He0 ltac:(lia)) as (j & h' & A1 & A2 & A3 & A4 & A5).
      assert (i = j) as <- by (apply (iv_uniq _ _ _ _ _ _ G1 i j h h'); congruence).
      assert (h' = h) as -> by congruence. rewrite A2 in He. clear -He Hl Hpos.
      unfold publish_stream_event, publish_stream_unpublished, publish_media_event in He.
      repeat (case_match; cbn in He); rewrite ?lookup_insert_eq in He; injection He as <-; cbn in Hl; lia.
    + destruct (inv_owner _ _ _ _ _ _ _ _ e G1 Hh He Hl) as [_ Hk']. congruence.
  - destruct (inv_owner _ _ _ _ _ _ _ _ e G1 Hh He Hl) as [_ Hk']. unfold entry_of in Ee.
    rewrite Hk' in Ee. cbn in He, Ee. congruence.
Qed.

Lemma close_good n m ps i h :
  good n m ps -> ps !! i = Some h ->
  let '(h', m') := close_publisher h m in good n m' (<[i := h']> ps).
Proof using Type.
  intros G Hh. unfold close_publisher. destruct (pub_closed h); [by rewrite list_insert_id|].
  destruct (iv_pubs _ _ _ _ _ _ (proj1 G) i h Hh) as [Hpos _].
  destruct (release_good n m ps (pub_key h) (pub_lease h) G ltac:(lia)) as [G1 G2].
  split; [|done]. apply inv_close; try done. intros e. by apply (release_clears n m ps i).
Qed.

Lemma keyframes_good n m ps id e (z : Z) :
  good n m ps -> entries m !! id = Some e -> good n (put_entry id (set_keyframe_requests z e) m) ps.
Proof using Type. intros G He. by apply (good_soft_same _ _ _ _ e). Qed.

Lemma subscribe_good n m ps k options :
  good n m ps -> n + 1 < 2 ^ 62 -> good (n + 1) (fst (subscribe k options m)) ps.
Proof using Type.
  intros G Hb. apply (good_mono n (n + 1)) in G as G'; [|lia]. unfold subscribe.
  destruct (_ =? 0)%nat; [done|]. destruct (_ <? _)%nat; [done|].
  destruct (entry_of k m) as [e|] eqn:Ee; [|done].
  destruct (entry_of_good _ _ _ _ _ G Ee) as [Hk He].
  pose proof (iv_entry _ _ _ _ _ _ (proj1 G) _ _ He) as Ho.
  pose proof (eo_next _ _ _ _ _ Ho) as Hnext. pose proof (dw_next _ (eo_disp _ _ _ _ _ Ho)) as Hpos.
  change (2 ^ 62) with 4611686018427387904 in *. change (2 ^ 63) with 9223372036854775808 in *.
  pose proof (wf_add options (dispatcher e) (eo_disp _ _ _ _ _ Ho)
    ltac:(change (2 ^ 63) with 9223372036854775808; lia)) as W.
  assert (En : next_subscriber_id (fst (add_subscriber options (dispatcher e)))
    = next_subscriber_id (dispatcher e) + 1).
  { cbn. apply wrap_u_small. unfold in_u. change (2 ^ 64) with 18446744073709551616. lia. }
  destruct (add_subscriber options (dispatcher e)) as [d id]. cbn [fst] in W, En.
  destruct (bootstrap_frames (ring e) (bootstrap_policy options)) as [r frames]. cbn [fst].
  apply (good_soft _ _ _ _ e).
  - by apply good_event.
  - unfold publish_stream_event. by destruct (event_bus m).
  - done.
  - apply wf_ports; [done|]. intros i. apply lookup_alter_is_Some.
  - cbn. lia.
Qed.

Lemma recv_good n m ps h : good n m ps -> good n (fst (recv h m)) ps.
Proof using Type.
  intros G. unfold recv. destruct (sh_closed h); [done|].
  destruct (entries m !! sh_entry h) as [e|] eqn:He; [|done].
  pose proof (iv_entry _ _ _ _ _ _ (proj1 G) _ _ He) as Ho. unfold recv_from.
  destruct (ports (dispatcher e) !! sh_id h) as [p|] eqn:Hp.
  - destruct (ch_recv (p_chan p)) as [c f]. cbn [fst]. apply (good_soft _ _ _ _ e); try done; [|apply Ho].
    apply wf_ports; [apply Ho|]. intros i. rewrite lookup_insert_is_Some'.
    split; [intros [<-|H]; eauto|by right].
  - cbn [fst]. by apply (good_soft_same _ _ _ _ e).
Qed.

Lemma cleanup_good n m ps now k : good n m ps -> good n (cleanup_if_idle now k m) ps.
Proof using Type.
  intros G. unfold cleanup_if_idle. destruct (entry_of k m) as [e|] eqn:Ee; [|done].
  destruct (entry_of_good _ _ _ _ _ G Ee) as [Hk He].
  destruct (Z.eqb_spec (active_lease e) 0) as [Hz|Hz]; cbn [negb].
  - rewrite andb_false_r. destruct (_ =? 0)%nat; [|done]. cbn [andb].
    destruct G as (G1 & G2 & st & G3). split; [by apply (inv_forget _ _ _ _ _ _ _ (stream_id e) e)|].
    split; [done|]. exists st. by apply linv_delete.
  - cbn [andb]. destruct (_ =? 0)%nat; cbn [andb]; [|done]. by apply (good_soft_same _ _ _ _ e).
Qed.

Lemma close_subscriber_good n m ps now h :
  good n m ps -> good n (snd (close_subscriber now h m)) ps.
Proof using Type.
  intros G. unfold close_subscriber. destruct (sh_closed h); [done|]. cbn [snd].
  apply cleanup_good, good_event. destruct (entries m !! sh_entry h) as [e|] eqn:He; [|done].
  pose proof (iv_entry _ _ _ _ _ _ (proj1 G) _ _ He) as Ho. apply (good_soft _ _ _ _ e); try done.
  - apply wf_remove, Ho.
  - apply Ho.
Qed.

Lemma pool_turn_good n m ps lane : good n m ps -> good n (pool_turn lane m) ps.
Proof using Type.
  intros G. unfold pool_turn. destruct (shared_pool m) as [p|]; [|done].
  destruct (worker_turn lane p) as [p' job]. apply (good_pool _ _ _ (Some p')) in G.
  destruct job as [[id f]|]; [|done]. destruct (entries _ !! id) as [e|] eqn:He; [|done].
  pose proof (iv_entry _ _ _ _ _ _ (proj1 G) id e He) as Ho.
  destruct (dispatch_frame_wf (dispatcher e) f (eo_disp _ _ _ _ _ Ho)) as [W E].
  apply (good_soft _ _ _ _ e); try done. cbn [dispatcher set_dispatcher]. rewrite E. apply Ho.
Qed.

Definition wgood (n : Z) (w : world) : Prop := good n (w_manager w) (w_pubs w).

Lemma with_pub_good n i w f :
  wgood n w -> (forall h, w_pubs w !! i = Some h -> good n (f h (w_manager w)) (w_pubs w)) ->
  wgood n (with_pub i w f).
Proof using Type. intros G Hf. unfold with_pub. destruct (w_pubs w !! i); [by apply Hf|done]. Qed.

Lemma step_good n o w : wgood n w -> n + 1 < 2 ^ 62 -> wgood (n + 1) (step o w).
Proof using Type.
  intros G0 Hb. assert (G : wgood (n + 1) w) by (apply (good_mono n); [lia|done]).
  pose proof (iv_next _ _ _ _ _ _ (proj1 G0)) as Hr.
  destruct o as [k options|i|i ts|i f|i|i|k|k options|j|j now|lane]; cbn [step].
  - pose proof (acquire_good (n + 1) (w_manager w) (w_pubs w) k options G ltac:(lia) ltac:(lia) Hb) as A.
    by destruct (acquire_publisher k options (w_manager w)).
  - apply with_pub_good; [done|]. intros h Hh. apply release_good; [done|].
    destruct (iv_pubs _ _ _ _ _ _ (proj1 G) i h Hh). lia.
  - apply with_pub_good; [done|]. intros h Hh. by apply (tracks_good _ _ _ i).
  - apply with_pub_good; [done|]. intros h Hh. by apply push_good.
  - destruct (w_pubs w !! i) as [h|] eqn:Hh; [|done].
    pose proof (close_good (n + 1) (w_manager w) (w_pubs w) i h G Hh) as A. by destruct (close_publisher h _).
  - apply with_pub_good; [done|]. intros h Hh. unfold take_keyframe_requests.
    destruct (entries _ !! _) eqn:He; [by apply keyframes_good|done].
  - unfold request_keyframe. destruct (entry_of k _) eqn:Ee; [|done].
    destruct (entry_of_good _ _ _ _ _ G Ee) as [_ He]. by apply keyframes_good.
  - pose proof (subscribe_good n (w_manager w) (w_pubs w) k options G0 Hb) as A.
    by destruct (subscribe k options (w_manager w)).
  - destruct (w_subs w !! j) as [h|]; [|done]. by apply recv_good.
  - destruct (w_subs w !! j) as [h|]; [|done].
    pose proof (close_subscriber_good (n + 1) (w_manager w) (w_pubs w) now h G) as A.
    by destruct (close_subscriber now h _).
  - by apply pool_turn_good.
Qed.

Lemma initial_good dm capacity : wgood 0 (initial dm capacity).
Proof using Type.
  split; [|split; [done|exists ∅]]; split; cbn; try done; try constructor.
  intros id [x Hx]. by apply lookup_empty_Some in Hx.
Qed.

(** Every world reached in fewer than [2^62] operations satisfies the invariant. *)
Lemma run_good ops n w :
  wgood n w -> n + Z.of_nat (length ops) < 2 ^ 62 -> wgood (n + Z.of_nat (length ops)) (run ops w).
Proof using Type.
  revert n w. induction ops as [|o ops IH]; intros n w G Hb; cbn [run foldl length].
  - by rewrite Z.add_0_r.
  - cbn [length] in Hb. rewrite Nat2Z.inj_succ in *. replace (n + Z.succ (Z.of_nat (length ops)))
      with (n + 1 + Z.of_nat (length ops)) in * by lia.
    apply IH; [|done]. apply step_good; [done|].
    pose proof (Nat2Z.is_nonneg (length ops)). lia.
Qed.

Lemma reachable_good dm capacity ops :
  Z.of_nat (length ops) < 2 ^ 62 ->
  wgood (Z.of_nat (length ops)) (run ops (initial dm capacity)).
Proof using Type. intros H. apply (run_good ops 0); [apply initial_good|done]. Qed.
End world.
Arguments world : clear implicits.
Arguments op : clear implicits.
Arguments Acquire {T}. Arguments Release {T}. Arguments UpdateTracks {T}. Arguments PushFrame {T}.
Arguments ClosePublisher {T}. Arguments TakeKeyframeRequests {T}. Arguments RequestKeyframe {T}.
Arguments Subscribe {T}. Arguments Receive {T}. Arguments CloseSubscriber {T}. Arguments PoolTurn {T}.

(** ** Claims *)

Section claims.
Context {C J T : Type} `{!BoundedChannel AVFrame C} `{!BoundedChannel DispatchJob J}.

(** [C2] One publisher per stream. However publishers and subscribers call the
  manager, one call after another, two handles that can still publish under the
  same key are the same handle, and the entry of such a handle is the one
  registered under its key, so that subscribers of the key hear it. *)
Theorem single_publisher dm capacity (ops : list (op T)) :
  Z.of_nat (length ops) < 2 ^ 62 ->
  let w := run ops (initial dm capacity) : world C J T in
  forall i j h h', w_pubs w !! i = Some h -> w_pubs w !! j = Some h' ->
    ensure_active h (w_manager w) = true -> ensure_active h' (w_manager w) = true ->
    streams (w_manager w) !! pub_key h = Some (pub_entry h) /\
    (pub_key h = pub_key h' -> i = j).
Proof using Type.
  intros Hb w i j h h' Hi Hj A A'. destruct (reachable_good dm capacity ops Hb) as [G _].
  fold w in G. assert (Own : forall i h, w_pubs w !! i = Some h -> ensure_active h (w_manager w) = true ->
    exists e, entries (w_manager w) !! pub_entry h = Some e /\ active_lease e = pub_lease h /\
      streams (w_manager w) !! pub_key h = Some (pub_entry h)).
  { clear -G. intros i h Hi A. unfold ensure_active in A. apply andb_true_iff in A as [_ A].
    destruct (entries _ !! _) as [e|] eqn:He; [|done]. apply Z.eqb_eq in A. exists e.
    destruct (inv_owner _ _ _ _ _ _ _ _ e G Hi He A) as [_ Hk]. done. }
  destruct (Own i h Hi A) as (e & E1 & E2 & E3), (Own j h' Hj A') as (e' & E1' & E2' & E3').
  split; [done|]. intros Hk. apply (iv_uniq _ _ _ _ _ _ G i j h h'); congruence.
Qed.

(** [C12] A publisher is admitted exactly when the key has none. In every reachable
  world [acquire_publisher] succeeds if and only if no handle given out can
  still publish under the key; otherwise it answers [Conflict] and changes
  nothing but the lease counter. *)
Theorem acquire_exclusive dm capacity (ops : list (op T)) k options :
  Z.of_nat (length ops) + 1 < 2 ^ 62 ->
  let w := run ops (initial dm capacity) : world C J T in
  let m := w_manager w in
  let '(m', r) := acquire_publisher k options m in
  if bool_decide (Exists (fun h => pub_key h = k /\ ensure_active h m = true) (w_pubs w))
  then r = Err Conflict /\ m' = set_next_lease (wrap_u 64 (next_lease_id m + 1)) m
  else exists h, r = Ok h /\ pub_key h = k /\ ensure_active h m' = true.
Proof using Type.
  intros Hb w m. pose proof (reachable_good dm capacity ops ltac:(lia)) as G. fold w in G.
  apply (good_mono _ (Z.of_nat (length ops) + 1)) in G as G'; [|lia].
  pose proof (iv_next _ _ _ _ _ _ (proj1 G)) as Hr.
  pose proof (create_good _ m (w_pubs w) k G' ltac:(fold m in Hr; lia) Hb) as Hc.
  unfold acquire_publisher. case_bool_decide as Hex.
  - apply Exists_exists in Hex as (h & Hin & Hk & A). apply list_elem_of_lookup in Hin as [i Hi].
    unfold ensure_active in A. apply andb_true_iff in A as [_ A].
    destruct (entries m !! pub_entry h) as [e|] eqn:He; [|done]. apply Z.eqb_eq in A.
    destruct (inv_owner _ _ _ _ _ _ _ _ e (proj1 G) Hi He A) as [_ Hs]. rewrite Hk in Hs.
    fold m in Hs. unfold get_or_create_stream. rewrite Hs. cbn [set_next_lease entries]. rewrite He.
    destruct (iv_pubs _ _ _ _ _ _ (proj1 G) i h Hi) as [Hpos _].
    destruct (Z.eqb_spec (active_lease e) 0); [lia|]. done.
  - destruct (get_or_create_stream k m) as [m1 id] eqn:Ec.
    destruct Hc as (G1 & Hs & El & (e & He & Hz) & Hold & _).
    cbn [set_next_lease entries]. rewrite He. destruct (Z.eqb_spec (active_lease e) 0) as [|Hne]; cbn [negb].
    + eexists. split; [done|]. split; [done|]. unfold ensure_active. cbn [pub_closed pub_entry pub_lease negb andb].
      unfold publish_stream_event. destruct (event_bus _); cbn; rewrite lookup_insert_eq; cbn; apply Z.eqb_refl.
    + exfalso. destruct (iv_leased _ _ _ _ _ _ (proj1 G1) _ _ He Hne) as (i & h & A1 & A2 & A3 & A4 & A5).
      apply Hex, Exists_exists. exists h. split; [by apply list_elem_of_lookup_2 with i|].
      split; [apply (iv_inj _ _ _ _ _ _ (proj1 G1) (pub_key h) k id); done|].
      unfold ensure_active. rewrite A4. cbn [negb andb]. unfold get_or_create_stream in Ec.
      destruct (streams m !! k) as [id'|] eqn:Ek; [|by destruct (Hne (Hz eq_refl))].
      injection Ec as <- <-. rewrite A2, He. by apply Z.eqb_eq.
Qed.

(** A handle whose lease is over is harmless. In every reachable world,
  publishing, updating tracks, releasing or closing through a handle that can no
  longer publish leaves the manager as it was, also when someone else now
  publishes under the same key. *)
Theorem stale_lease_harmless dm capacity (ops : list (op T)) i h f ts :
  Z.of_nat (length ops) < 2 ^ 62 ->
  let w := run ops (initial dm capacity) : world C J T in
  let m := w_manager w in
  w_pubs w !! i = Some h -> ensure_active h m = false ->
  push_frame h f m = (m, RejectedClosed) /\ update_tracks h ts m = (m, Err Unavailable) /\
  fst (release_publisher h m) = m /\ snd (close_publisher h m) = m.
Proof using Type.
  intros Hb w m Hi A. destruct (reachable_good dm capacity ops Hb) as [G G2]. fold w m in G, G2.
  unfold push_frame, update_tracks. rewrite A. cbn [negb]. split_and!; try done.
  all: assert (R : fst (release_lease (pub_key h) (pub_lease h) m) = m).
  all: try (unfold close_publisher; destruct (pub_closed h); [done|exact R]).
  all: try exact R.
  all: unfold release_lease; destruct (entry_of (pub_key h) m) as [e|] eqn:Ee; [|done];
    destruct (Z.eqb_spec (active_lease e) (pub_lease h)) as [El|]; [|done]; exfalso.
  all: destruct (entry_of_good _ _ _ _ _ (conj G G2) Ee) as [Hk He];
    destruct (iv_pubs _ _ _ _ _ _ G i h Hi) as [Hpos _];
    destruct (iv_leased _ _ _ _ _ _ G _ _ He ltac:(lia)) as (j & h' & A1 & A2 & A3 & A4 & A5);
    assert (i = j) as <- by (apply (iv_uniq _ _ _ _ _ _ G i j h h'); congruence);
    assert (h' = h) as -> by congruence;
    unfold ensure_active in A; rewrite A4, A2, He, El, Z.eqb_refl in A; done.
Qed.

(** [C24] The media events of the manager describe a lifecycle. In every reachable
  world the log of media events is a sequence of pairs: a session (stream id) is
  published with its key going online, and later, at most once, unpublished with
  the same key going offline; never published twice, never unpublished before;
  and the sessions left published are exactly the entries flagged so. *)
Theorem media_events_lifecycle dm capacity (ops : list (op T)) :
  Z.of_nat (length ops) < 2 ^ 62 ->
  let m := w_manager (run ops (initial dm capacity) : world C J T) in
  exists st, lifecycle (media_log (log m)) st /\
    forall id, st !! id = Some true <-> exists e, entries m !! id = Some e /\ e_published e = true.
Proof using Type.
  intros Hb m. destruct (reachable_good dm capacity ops Hb) as (_ & _ & st & L). fold m in L.
  exists st. split; [apply L|]. intros id. split.
  - intros Hs. destruct (lv_dom _ _ _ _ L id ltac:(eauto)) as [e He]. exists e. split; [done|].
    by apply (lv_published _ _ _ _ L id e He).
  - intros (e & He & Hp). by apply (lv_published _ _ _ _ L id e He).
Qed.

(** [C40] The manager's tables stay consistent. In every reachable world each
  registered key leads to an entry, distinct keys to distinct entries, an entry
  with a publisher is registered, and every dispatcher is well-formed (distinct
  subscribers, each with its own queue). *)
Theorem manager_consistent dm capacity (ops : list (op T)) :
  Z.of_nat (length ops) < 2 ^ 62 ->
  let m := w_manager (run ops (initial dm capacity) : world C J T) in
  (forall k id, streams m !! k = Some id -> exists e, entries m !! id = Some e /\ stream_id e = id) /\
  (forall k k' id, streams m !! k = Some id -> streams m !! k' = Some id -> k = k') /\
  (forall id e, entries m !! id = Some e -> active_lease e <> 0 -> exists k, streams m !! k = Some id) /\
  (forall id e, entries m !! id = Some e -> dispatcher_wf (dispatcher e)).
Proof using Type.
  intros Hb m. destruct (reachable_good dm capacity ops Hb) as (G & _). fold m in G. split_and!.
  - intros k id Hk. destruct (iv_streams _ _ _ _ _ _ G k id Hk) as [e He]. exists e. split; [done|].
    apply (iv_entry _ _ _ _ _ _ G id e He).
  - apply (iv_inj _ _ _ _ _ _ G).
  - intros id e He Hl. destruct (iv_leased _ _ _ _ _ _ G id e He Hl) as (i & h & _ & _ & _ & _ & A5). eauto.
  - intros id e He. apply (iv_entry _ _ _ _ _ _ G id e He).
Qed.
End claims.

(** ** A concrete run *)

Definition demo_key : StreamKey := ("live", "cam").
Definition demo_publisher : PublisherOptions := mk_pub_options false "rtmp" None.

(** A publisher announces a track, publishes a frame and releases its lease while a
    second one is refused; a third takes over. *)
Definition demo_ops : list (op Z) :=
  [Acquire demo_key demo_publisher; UpdateTracks 0 [7]; Acquire demo_key demo_publisher;
   PushFrame 0 (mk_frame 1 Video 0 0 (mk_timebase 1 1000) FLAG_KEY []); Release 0;
   Acquire demo_key demo_publisher].

Notation demo_world :=
  (run (C := list_channel AVFrame) (J := list_channel DispatchJob) demo_ops (initial None 16)).

Lemma demo_bound : Z.of_nat (length demo_ops) + 1 < 2 ^ 62.
Proof. reflexivity. Qed.

Lemma demo_bound' : Z.of_nat (length demo_ops) < 2 ^ 62.
Proof. reflexivity. Qed.

Lemma demo_live : w_pubs demo_world !! 1%nat = Some (mk_publisher demo_key 2 3 false) /\
  ensure_active (mk_publisher demo_key 2 3 false) (w_manager demo_world) = true.
Proof. vm_compute. split; reflexivity. Qed.

Lemma demo_stale : w_pubs demo_world !! 0%nat = Some (mk_publisher demo_key 1 1 false) /\
  ensure_active (mk_publisher demo_key 1 1 false) (w_manager demo_world) = false.
Proof. vm_compute. split; reflexivity. Qed.

Lemma demo_registered : streams (w_manager demo_world) !! demo_key = Some 2.
Proof. vm_compute. reflexivity. Qed.

Lemma demo_occupied :
  bool_decide (Exists (fun h => pub_key h = demo_key /\ ensure_active h (w_manager demo_world) = true)
    (w_pubs demo_world)) = true.
Proof. vm_compute. reflexivity. Qed.

Lemma single_publisher_witness :
  streams (w_manager demo_world) !! demo_key = Some 2.
Proof.
  destruct demo_live as [H1 H2].
  pose proof (single_publisher (C := list_channel AVFrame) (J := list_channel DispatchJob) None 16 demo_ops
    demo_bound') as H.
  cbv zeta in H. exact (proj1 (H 1%nat 1%nat _ _ H1 H1 H2 H2)).
Defined.

Lemma acquire_exclusive_witness :
  snd (acquire_publisher demo_key demo_publisher (w_manager demo_world)) = Err Conflict.
Proof.
  pose proof (acquire_exclusive (C := list_channel AVFrame) (J := list_channel DispatchJob) None 16 demo_ops
    demo_key demo_publisher demo_bound) as H.
  cbv zeta in H. rewrite demo_occupied in H.
  destruct (acquire_publisher _ _ _) as [m' r]. exact (proj1 H).
Defined.

Lemma stale_lease_harmless_witness :
  fst (release_publisher (mk_publisher demo_key 1 1 false) (w_manager demo_world)) = w_manager demo_world.
Proof.
  destruct demo_stale as [H1 H2].
  pose proof (stale_lease_harmless (C := list_channel AVFrame) (J := list_channel DispatchJob)
    None 16 demo_ops 0%nat (mk_publisher demo_key 1 1 false)
    (mk_frame 1 Video 0 0 (mk_timebase 1 1000) FLAG_KEY []) [] demo_bound') as H.
  cbv zeta in H. exact (proj1 (proj2 (proj2 (H H1 H2)))).
Defined.

Lemma media_events_lifecycle_witness :
  exists st, lifecycle (media_log (log (w_manager demo_world))) st.
Proof.
  destruct (media_events_lifecycle (C := list_channel AVFrame) (J := list_channel DispatchJob) None 16 demo_ops
    demo_bound') as (st & H1 & _).
  exists st. exact H1.
Defined.

Lemma manager_consistent_witness :
  exists e, entries (w_manager demo_world) !! 2 = Some e /\ stream_id e = 2.
Proof.
  pose proof (manager_consistent (C := list_channel AVFrame) (J := list_channel DispatchJob) None 16 demo_ops
    demo_bound') as H.
  cbv zeta in H. exact (proj1 H demo_key 2 demo_registered).
Defined.
