(* ===== verification/EngineLeases.v ===== *)
(** * Publisher leases under concurrency

    [acquire_publisher], [release_lease] and [cleanup_if_idle] of
    [crates/system/cheetah-engine/src/stream.rs] as sequences of atomic steps that
    any number of tasks interleave: an access of the [DashMap], a [fetch_add], a
    load, a store or a compare-and-exchange is one step. The two counters wrap around
    at 64 bits. Memory is sequentially consistent. Of an entry only the lease matters here; that an idle entry has no
    subscribers is part of [cleanup_if_idle]'s test, and taken to be so. *)
From S2P Require Import Prelude Timeline MediaKeys EngineTypes EngineRing EngineDispatch.
From S2P Require Import EnginePool EngineStreams EngineStreamsSpec.

(** ** Shared memory and tasks *)

Record shared : Set := mk_shared {
  s_streams : gmap StreamKey Z;
  s_leases : gmap Z Z;
  s_next_stream : Z;
  s_next_lease : Z
}.

(** Where a task stands: the next step it takes. *)
Inductive task : Set :=
| AcqGet (k : StreamKey)
| AcqCreate (k : StreamKey)
| AcqInsert (k : StreamKey) (id : Z)
| AcqNumber (k : StreamKey) (id : Z)
| AcqSwap (k : StreamKey) (id l : Z)
| Holding (k : StreamKey) (id l : Z)
| AcqConflict
| RelGet (k : StreamKey) (l : Z)
| RelLoad (k : StreamKey) (id l : Z)
| RelStore (k : StreamKey) (id : Z)
| RelRemove (k : StreamKey)
| RelDone (r : result SdkError unit)
| IdleTest (k : StreamKey)
| IdleRemove (k : StreamKey)
| IdleDone.

Definition lease_step (t : task) (s : shared) : task * shared :=
  match t with
  | AcqGet k =>
      match s_streams s !! k with
      | Some id => (AcqNumber k id, s)
      | None => (AcqCreate k, s)
      end
  | AcqCreate k =>
      let id := wrap_u 64 (s_next_stream s + 1) in
      (AcqInsert k id, mk_shared (s_streams s) (<[id := 0]> (s_leases s)) id (s_next_lease s))
  | AcqInsert k id =>
      match s_streams s !! k with
      | Some id' => (AcqNumber k id', s)
      | None => (AcqNumber k id,
                 mk_shared (<[k := id]> (s_streams s)) (s_leases s) (s_next_stream s) (s_next_lease s))
      end
  | AcqNumber k id =>
      let l := wrap_u 64 (s_next_lease s + 1) in
      (AcqSwap k id l, mk_shared (s_streams s) (s_leases s) (s_next_stream s) l)
  | AcqSwap k id l =>
      if bool_decide (s_leases s !! id = Some 0)
      then (Holding k id l,
            mk_shared (s_streams s) (<[id := l]> (s_leases s)) (s_next_stream s) (s_next_lease s))
      else (AcqConflict, s)
  | RelGet k l =>
      match s_streams s !! k with
      | Some id => (RelLoad k id l, s)
      | None => (RelDone (Err NotFound), s)
      end
  | RelLoad k id l =>
      if bool_decide (s_leases s !! id = Some l) then (RelStore k id, s)
      else (RelDone (Err Conflict), s)
  | RelStore k id =>
      (RelRemove k, mk_shared (s_streams s) (<[id := 0]> (s_leases s)) (s_next_stream s) (s_next_lease s))
  | RelRemove k =>
      (RelDone (Ok tt),
       mk_shared (delete k (s_streams s)) (s_leases s) (s_next_stream s) (s_next_lease s))
  | IdleTest k =>
      match id ← s_streams s !! k; s_leases s !! id with
      | Some l => if l =? 0 then (IdleRemove k, s) else (IdleDone, s)
      | None => (IdleDone, s)
      end
  | IdleRemove k =>
      (IdleDone, mk_shared (delete k (s_streams s)) (s_leases s) (s_next_stream s) (s_next_lease s))
  | Holding _ _ _ | AcqConflict | RelDone _ | IdleDone => (t, s)
  end.

(** ** Interleavings *)

Inductive call : Set := CallAcquire (k : StreamKey) | CallRelease (k : StreamKey) (l : Z) | CallCleanup (k : StreamKey).

Definition start (c : call) : task :=
  match c with
  | CallAcquire k => AcqGet k
  | CallRelease k l => RelGet k l
  | CallCleanup k => IdleTest k
  end.

(** A new call starts, or a task takes its next step. *)
Inductive tick : Set := Begin (c : call) | Go (i : nat).

Record system : Set := mk_system { tasks : list task; mem : shared }.

Definition tick_step (s : system) (e : tick) : system :=
  match e with
  | Begin c => mk_system (tasks s ++ [start c]) (mem s)
  | Go i =>
      match tasks s !! i with
      | Some t => let '(t, m) := lease_step t (mem s) in mk_system (<[i := t]> (tasks s)) m
      | None => s
      end
  end.

Definition interleave (es : list tick) (s : system) : system := foldl tick_step s es.

Definition system_new : system := mk_system [] (mk_shared ∅ ∅ 0 0).

(** [ensure_active] of the handle a finished acquisition returned. *)
Definition publishing (t : task) (s : shared) : bool :=
  match t with
  | Holding _ id l => bool_decide (s_leases s !! id = Some l)
  | _ => false
  end.

(** ** Lease numbers *)

Definition lease_of (t : task) : option Z :=
  match t with
  | AcqSwap _ _ l | Holding _ _ l => Some l
  | _ => None
  end.

Record lease_inv (s : system) : Prop := {
  li_next : 0 <= s_next_lease (mem s);
  li_bound : forall i t l, tasks s !! i = Some t -> lease_of t = Some l -> 0 < l <= s_next_lease (mem s);
  li_uniq : forall i j t t' l, tasks s !! i = Some t -> tasks s !! j = Some t' ->
    lease_of t = Some l -> lease_of t' = Some l -> i = j
}.

Lemma lookup_update (ts : list task) i t j u :
  <[i := t]> ts !! j = Some u -> ts !! j = Some u \/ j = i /\ u = t /\ (i < length ts)%nat.
Proof.
  intros H. destruct (decide (j = i)) as [->|]; [right|left; by rewrite list_lookup_insert_ne in H].
  pose proof (lookup_lt_Some _ _ _ H) as Hl. rewrite length_insert in Hl.
  rewrite list_lookup_insert_eq in H by done. by injection H as <-.
Qed.

Lemma lookup_begin (ts : list task) t j u :
  (ts ++ [t]) !! j = Some u -> ts !! j = Some u \/ u = t.
Proof.
  intros [H|[_ H]]%lookup_app_Some; [by left|right].
  destruct (j - length ts)%nat; cbn in H; [congruence|done].
Qed.

(** The counters have not wrapped around: at most [n] numbers were drawn. *)
Definition drawn (n : Z) (s : shared) : Prop :=
  0 <= s_next_stream s <= n /\ 0 <= s_next_lease s <= n.

Lemma wrap_draw n z : 0 <= z <= n -> n < 2 ^ 64 - 1 -> wrap_u 64 (z + 1) = z + 1.
Proof. intros Hz Hn. apply wrap_u_small. unfold in_u. lia. Qed.

Lemma drawn_step n t s : drawn n s -> n < 2 ^ 64 - 1 -> drawn (n + 1) (snd (lease_step t s)).
Proof.
  intros [D1 D2] Hn. unfold drawn.
  destruct t; cbn [lease_step]; repeat case_match; cbn [snd s_next_stream s_next_lease];
    rewrite ?(wrap_draw n) by done; lia.
Qed.

Lemma drawn_tick n s e : drawn n (mem s) -> n < 2 ^ 64 - 1 -> drawn (n + 1) (mem (tick_step s e)).
Proof.
  intros D Hn. assert (D' : drawn (n + 1) (mem s)) by (destruct D; unfold drawn; lia).
  destruct e as [c|i]; cbn [tick_step mem]; [exact D'|].
  destruct (tasks s !! i) as [t|]; [|exact D']. pose proof (drawn_step n t (mem s) D Hn) as S.
  by destruct (lease_step t (mem s)).
Qed.

(** The lease number of a task changes only when it draws a new one. *)
Lemma lease_step_lease n t s :
  drawn n s -> n < 2 ^ 64 - 1 ->
  let '(t', s') := lease_step t s in
  s_next_lease s <= s_next_lease s' /\
  (forall l, lease_of t' = Some l ->
     lease_of t = Some l /\ s_next_lease s' = s_next_lease s \/
     l = s_next_lease s + 1 /\ s_next_lease s' = l).
Proof.
  intros [D1 D2] Hn. destruct (lease_step t s) as [t' s'] eqn:E.
  destruct t; cbn [lease_step] in E; rewrite ?(wrap_draw n) in E by done; repeat case_match; simplify_eq;
    cbn [s_next_lease lease_of]; (split; [lia|]); intros l0 Hl0; simplify_eq; auto.
Qed.

Lemma lease_inv_tick n s e :
  drawn n (mem s) -> n < 2 ^ 64 - 1 -> lease_inv s -> lease_inv (tick_step s e).
Proof.
  intros D Hn [I1 I2 I3]. destruct e as [c|i]; cbn [tick_step].
  - split; cbn [mem tasks]; [done| |].
    + intros i t l [Hi| ->]%lookup_begin Hl; [by apply (I2 i t)|]. by destruct c.
    + intros i j t t' l Hi Hj Hl Hl'. destruct (lookup_begin _ _ _ _ Hi) as [Hi'| ->]; [|by destruct c].
      destruct (lookup_begin _ _ _ _ Hj) as [Hj'| ->]; [|by destruct c]. by apply (I3 i j t t' l).
  - destruct (tasks s !! i) as [t|] eqn:Ht; [|done].
    pose proof (lease_step_lease n t (mem s) D Hn) as L. destruct (lease_step t (mem s)) as [t' m'].
    destruct L as [L1 L2]. split; cbn [mem tasks]; [lia| |].
    + intros j u l [Hj|(-> & -> & _)]%lookup_update Hl; [specialize (I2 j u l Hj Hl); lia|].
      destruct (L2 l Hl) as [[Hl' ->]| [-> ->]]; [by apply (I2 i t)|lia].
    + intros j1 j2 u1 u2 l H1 H2 Hl1 Hl2.
      destruct (lookup_update _ _ _ _ _ H1) as [H1'|(-> & -> & _)],
        (lookup_update _ _ _ _ _ H2) as [H2'|(-> & -> & _)]; [by apply (I3 j1 j2 u1 u2 l)| | |done].
      * destruct (L2 l Hl2) as [[Hl' _]| [-> _]]; [by apply (I3 j1 i u1 t l)|].
        specialize (I2 j1 u1 _ H1' Hl1). lia.
      * destruct (L2 l Hl1) as [[Hl' _]| [-> _]]; [by apply (I3 i j2 t u2 l)|].
        specialize (I2 j2 u2 _ H2' Hl2). lia.
Qed.

Lemma lease_inv_run es : forall n s,
  drawn n (mem s) -> n + Z.of_nat (length es) < 2 ^ 64 -> lease_inv s -> lease_inv (interleave es s).
Proof.
  induction es as [|e es IH]; intros n s D Hn H; [done|]. cbn [length] in Hn. rewrite Nat2Z.inj_succ in Hn.
  pose proof (Nat2Z.is_nonneg (length es)). apply (IH (n + 1)); [apply drawn_tick; [done|lia]|lia|].
  apply (lease_inv_tick n); [done|lia|done].
Qed.

(** ** Acquisitions only *)

(** What a task believes about the entry it works on, as long as nothing is
    released or cleaned up. *)
Definition acq_ok (s : shared) (t : task) : Prop :=
  match t with
  | AcqGet _ | AcqCreate _ | AcqConflict => True
  | AcqInsert k id => 0 < id <= s_next_stream s
  | AcqNumber k id | AcqSwap k id _ => s_streams s !! k = Some id
  | Holding k id l => s_streams s !! k = Some id /\ s_leases s !! id = Some l /\ l <> 0
  | _ => False
  end.

Record acq_inv (s : system) : Prop := {
  ai_tasks : forall i t, tasks s !! i = Some t -> acq_ok (mem s) t;
  ai_leases : forall id l, s_leases (mem s) !! id = Some l -> 0 < id <= s_next_stream (mem s);
  ai_next : 0 <= s_next_stream (mem s)
}.

Lemma acq_ok_mono s s' t :
  acq_ok s t -> s_next_stream s <= s_next_stream s' ->
  (forall k id, s_streams s !! k = Some id -> s_streams s' !! k = Some id) ->
  (forall id l, s_leases s !! id = Some l -> l <> 0 -> s_leases s' !! id = Some l) ->
  acq_ok s' t.
Proof.
  intros H Hn Hs Hl. destruct t; cbn in *; try done; try lia; auto. destruct H as (A & B & D). auto.
Qed.

Lemma acq_inv_tick n s e :
  drawn n (mem s) -> n < 2 ^ 64 - 1 ->
  acq_inv s -> lease_inv s -> (forall c, e = Begin c -> exists k, c = CallAcquire k) ->
  acq_inv (tick_step s e).
Proof.
  intros [D1 D2] Hn [I1 I2 I3] L He. destruct e as [c|i]; cbn [tick_step].
  { split; cbn [mem tasks]; try done. intros i t [Hi| ->]%lookup_begin; [by apply (I1 i)|].
    by destruct (He c eq_refl) as [k ->]. }
  destruct (tasks s !! i) as [t|] eqn:Ht; [|done]. pose proof (I1 i t Ht) as Hok.
  assert (Hpos : forall l, lease_of t = Some l -> l <> 0)
    by (intros l Hl; pose proof (li_bound _ L i t l Ht Hl); lia).
  set (r := lease_step t (mem s)).
  assert (Step : acq_ok (snd r) (fst r) /\ 0 <= s_next_stream (snd r) /\
    s_next_stream (mem s) <= s_next_stream (snd r) /\
    (forall k id, s_streams (mem s) !! k = Some id -> s_streams (snd r) !! k = Some id) /\
    (forall id l, s_leases (mem s) !! id = Some l -> l <> 0 -> s_leases (snd r) !! id = Some l) /\
    (forall id l, s_leases (snd r) !! id = Some l -> 0 < id <= s_next_stream (snd r))).
  { unfold r. destruct t as [k|k|k id|k id|k id l|k id l| | | | | | | | |]; cbn [lease_step]; try done;
      cbn [acq_ok] in Hok; rewrite ?(wrap_draw n) by done.
    - destruct (s_streams (mem s) !! k) eqn:Ek; cbn; split_and!; done || lia.
    - cbn. split_and!; try done; try lia.
      + intros id l Hid Hl. rewrite lookup_insert_ne; [done|]. specialize (I2 id l Hid). lia.
      + intros id l Hid. destruct (decide (id = s_next_stream (mem s) + 1)) as [->|]; [lia|].
        rewrite lookup_insert_ne in Hid by done. specialize (I2 id l Hid). lia.
    - destruct (s_streams (mem s) !! k) eqn:Ek; cbn; split_and!; try done; try lia.
      + by rewrite lookup_insert_eq.
      + intros k' id' Hk'. rewrite lookup_insert_ne; [done|]. intros ->. congruence.
    - case_bool_decide as Hz; cbn; split_and!; try done; try lia.
      + by rewrite lookup_insert_eq.
      + by apply Hpos.
      + intros id' l' Hid Hl'. rewrite lookup_insert_ne; [done|]. intros ->. congruence.
      + intros id' l' Hid. destruct (decide (id' = id)) as [->|]; [by apply (I2 id 0)|].
        rewrite lookup_insert_ne in Hid by done. by apply (I2 id' l'). }
  change (lease_step t (mem s)) with r. destruct r as [t' m']. cbn [fst snd] in Step.
  destruct Step as (S1 & S2 & S3 & S4 & S5 & S6). split; cbn [mem tasks]; try done.
  intros j u [Hj|(-> & -> & _)]%lookup_update; [|done]. by apply (acq_ok_mono (mem s)); [apply (I1 j)|..].
Qed.

Lemma acq_inv_run es : forall n s,
  drawn n (mem s) -> n + Z.of_nat (length es) < 2 ^ 64 ->
  acq_inv s -> lease_inv s -> Forall (fun e => forall c, e = Begin c -> exists k, c = CallAcquire k) es ->
  acq_inv (interleave es s).
Proof.
  induction es as [|e es IH]; intros n s D Hn A L F; [done|]. inversion F as [|? ? F1 F2]; subst.
  cbn [length] in Hn. rewrite Nat2Z.inj_succ in Hn. pose proof (Nat2Z.is_nonneg (length es)).
  apply (IH (n + 1)); [apply drawn_tick; [done|lia]|lia| | |done].
  - apply (acq_inv_tick n); [done|lia|done..].
  - apply (lease_inv_tick n); [done|lia|done].
Qed.

Lemma lease_inv_new : lease_inv system_new.
Proof. split; cbn; [done|intros i|intros i]; by destruct i. Qed.

Lemma acq_inv_new : acq_inv system_new.
Proof.
  split; cbn; [intros i t H; by destruct i|by intros ? ? ?%lookup_empty_Some|done].
Qed.

Lemma drawn_new : drawn 0 (mem system_new).
Proof. by split. Qed.

(** ** One task alone *)

(** The memory of a manager. *)
Definition shared_of {C J T} (m : StreamManagerInner C J T) : shared :=
  mk_shared (streams m) (active_lease <$> entries m) (next_stream_id m) (next_lease_id m).

(** Run one task until it has nothing left to do; no call has more than five steps. *)
Fixpoint finish (fuel : nat) (t : task) (s : shared) : task * shared :=
  match fuel with
  | O => (t, s)
  | S fuel => let '(t, s) := lease_step t s in finish fuel t s
  end.

Section alone.
Context {C J T : Type} `{!BoundedChannel AVFrame C} `{!BoundedChannel DispatchJob J}.
Implicit Types m : StreamManagerInner C J T.

Lemma shared_event k kind a b c m : shared_of (publish_stream_event k kind a b c m) = shared_of m.
Proof using Type. unfold publish_stream_event. by destruct (event_bus m). Qed.

Lemma shared_media ev m : shared_of (publish_media_event ev m) = shared_of m.
Proof using Type. unfold publish_media_event. by destruct (media_event_bus m). Qed.

Lemma shared_put id e m :
  shared_of (put_entry id e m)
  = mk_shared (streams m) (<[id := active_lease e]> (active_lease <$> entries m)) (next_stream_id m)
      (next_lease_id m).
Proof using Type. unfold shared_of. cbn. by rewrite fmap_insert. Qed.

Lemma shared_put_same id e e' m :
  entries m !! id = Some e -> active_lease e' = active_lease e ->
  shared_of (put_entry id e' m) = shared_of m.
Proof using Type.
  intros He Hl. rewrite shared_put, Hl. unfold shared_of. f_equal. apply insert_id.
  by rewrite lookup_fmap, He.
Qed.

Lemma shared_unpublished k e m :
  entries m !! stream_id e = Some e -> shared_of (publish_stream_unpublished k e m) = shared_of m.
Proof using Type.
  intros He. unfold publish_stream_unpublished.
  set (m1 := if e_published e then _ else m).
  assert (E1 : shared_of m1 = shared_of m /\ entries m1 !! stream_id e = Some e).
  { unfold m1. destruct (e_published e); [|done]. rewrite shared_media. split; [done|].
    unfold publish_media_event. by destruct (media_event_bus m). }
  destruct E1 as [E1 E2]. destruct (e_online e); rewrite ?shared_media, (shared_put_same _ e) by done; exact E1.
Qed.

Lemma shared_delete k m m' :
  shared_of m = shared_of m' ->
  shared_of (set_streams (delete k (streams m)) m)
  = mk_shared (delete k (s_streams (shared_of m'))) (s_leases (shared_of m'))
      (s_next_stream (shared_of m')) (s_next_lease (shared_of m')).
Proof using Type. intros <-. done. Qed.
End alone.

(** One more step of a task whose memory is known. *)
Ltac mem_step := cbn [finish lease_step shared_of s_streams s_leases s_next_stream s_next_lease].

(** ** Claims *)

(** Undisturbed, the steps are the calls. In every reachable world of
    EngineStreamsSpec, an acquisition or a release that runs alone ends in the
    memory and with the answer that [acquire_publisher] and [release_lease] give. *)
Theorem steps_refine_calls {C J T} `{!BoundedChannel AVFrame C} `{!BoundedChannel DispatchJob J}
    dm capacity (ops : list (op T)) k options l :
  Z.of_nat (length ops) + 1 < 2 ^ 62 ->
  let m := w_manager (run ops (initial dm capacity) : world C J T) in
  (let '(m', r) := acquire_publisher k options m in
   finish 5 (AcqGet k) (shared_of m)
   = (match r with Ok h => Holding k (pub_entry h) (pub_lease h) | Err _ => AcqConflict end, shared_of m')) /\
  (let '(m', r) := release_lease k l m in
   finish 5 (RelGet k l) (shared_of m) = (RelDone r, shared_of m')).
Proof.
  intros Hb m. assert (Hb' : Z.of_nat (length ops) < 2 ^ 62) by lia.
  pose proof (reachable_good (C := C) (J := J) dm capacity ops Hb' :
    good (Z.of_nat (length ops)) m (w_pubs (run ops (initial dm capacity)))) as G.
  pose proof (iv_next _ _ _ _ _ _ (proj1 G)) as Hr.
  change (2 ^ 62) with 4611686018427387904 in Hb.
  assert (W1 : wrap_u 64 (next_stream_id m + 1) = next_stream_id m + 1)
    by (apply wrap_u_small; unfold in_u; change (2 ^ 64) with 18446744073709551616; lia).
  assert (W2 : wrap_u 64 (next_lease_id m + 1) = next_lease_id m + 1)
    by (apply wrap_u_small; unfold in_u; change (2 ^ 64) with 18446744073709551616; lia).
  clearbody m. split; clear Hb Hb' Hr.
  - unfold acquire_publisher, get_or_create_stream. destruct (streams m !! k) as [id|] eqn:Hk.
    + destruct (iv_streams _ _ _ _ _ _ (proj1 G) k id Hk) as [e He].
      cbn [set_next_lease next_lease_id entries]. rewrite W2, He. mem_step. rewrite Hk. mem_step. rewrite W2.
      rewrite lookup_fmap, He. cbn [fmap option_fmap option_map].
      destruct (Z.eqb_spec (active_lease e) 0) as [Hz|Hz]; cbn [negb].
      * rewrite bool_decide_eq_true_2 by congruence. rewrite shared_event, shared_put. done.
      * rewrite bool_decide_eq_false_2 by congruence. done.
    + rewrite W1. cbn [set_next_lease set_streams put_entry set_entries set_next_stream next_lease_id entries].
      rewrite W2, lookup_insert_eq. cbn [active_lease StreamEntry_new Z.eqb negb].
      mem_step. rewrite Hk. mem_step. rewrite Hk. mem_step. rewrite W1, W2, lookup_insert_eq.
      rewrite bool_decide_eq_true_2 by done. rewrite shared_event, shared_put.
      cbn [entries streams next_stream_id next_lease_id pub_entry pub_lease set_next_lease set_streams
        put_entry set_entries set_next_stream]. by rewrite fmap_insert.
  - unfold release_lease. destruct (entry_of k m) as [e|] eqn:Ee.
    + destruct (entry_of_good _ _ _ _ _ G Ee) as [Hk He].
      mem_step. rewrite Hk. mem_step. rewrite lookup_fmap, He. cbn [fmap option_fmap option_map].
      destruct (Z.eqb_spec (active_lease e) l) as [Hz|Hz]; cbn [negb].
      * rewrite bool_decide_eq_true_2 by congruence. cbv zeta. rewrite shared_event.
        set (e' := set_dispatcher _ _).
        assert (E : shared_of (publish_stream_unpublished k e' (put_entry (stream_id e) e' m))
          = shared_of (put_entry (stream_id e) e' m)).
        { apply shared_unpublished. cbn. by rewrite lookup_insert_eq. }
        rewrite (shared_delete _ _ _ E), shared_put. done.
      * rewrite bool_decide_eq_false_2 by congruence. done.
    + mem_step. unfold entry_of in Ee.
      destruct (streams m !! k) as [id|] eqn:Hk; [|done].
      destruct (iv_streams _ _ _ _ _ _ (proj1 G) k id Hk) as [e He]. cbn in Ee. congruence.
Qed.

(** [C22] Racing publishers. Any number of tasks call [acquire_publisher] for any
    keys, their steps interleaved in any way, fewer than 2^64 of them, so that the 64-bit
    counters do not wrap around: at most one acquisition per key succeeds, and the
    winner's entry is the registered one. *)
Theorem acquire_race_safe es :
  Z.of_nat (length es) < 2 ^ 64 ->
  Forall (fun e => forall c, e = Begin c -> exists k, c = CallAcquire k) es ->
  let s := interleave es system_new in
  forall i j k id id' l l',
    tasks s !! i = Some (Holding k id l) -> tasks s !! j = Some (Holding k id' l') ->
    i = j /\ s_streams (mem s) !! k = Some id /\ publishing (Holding k id l) (mem s) = true.
Proof.
  intros Hn F s i j k id id' l l' Hi Hj.
  pose proof (acq_inv_run es 0 _ drawn_new Hn acq_inv_new lease_inv_new F) as A.
  pose proof (lease_inv_run es 0 _ drawn_new Hn lease_inv_new) as L. fold s in A, L.
  pose proof (ai_tasks _ A i _ Hi) as (B1 & B2 & B3). pose proof (ai_tasks _ A j _ Hj) as (D1 & D2 & D3).
  split; [|split; [done|by apply bool_decide_eq_true_2]].
  assert (id' = id) as -> by congruence. assert (l' = l) as -> by congruence.
  by apply (li_uniq _ L i j (Holding k id l) (Holding k id l) l).
Qed.

(** Mutual exclusion on an entry. Whatever tasks acquire, release and clean
    up, interleaved in any way, no two of them can publish on the same entry at
    the same time. *)
Theorem entry_exclusive es :
  Z.of_nat (length es) < 2 ^ 64 ->
  let s := interleave es system_new in
  forall i j k k' id l l',
    tasks s !! i = Some (Holding k id l) -> tasks s !! j = Some (Holding k' id l') ->
    publishing (Holding k id l) (mem s) = true -> publishing (Holding k' id l') (mem s) = true ->
    i = j.
Proof.
  intros Hn s i j k k' id l l' Hi Hj P P'.
  pose proof (lease_inv_run es 0 _ drawn_new Hn lease_inv_new) as L. fold s in L.
  apply bool_decide_eq_true_1 in P, P'. assert (l' = l) as -> by congruence.
  by apply (li_uniq _ L i j (Holding k id l) (Holding k' id l) l).
Qed.

(** But not on a key: [release_lease] gives the lease up before it removes the key,
    and a publisher admitted in between loses its registration; the next one gets
    a second live entry of the same key. *)
Example two_publishers_of_one_key :
  let k : StreamKey := ("live"%string, "cam"%string) in
  let s := interleave
    ([Begin (CallAcquire k); Go 0; Go 0; Go 0; Go 0; Go 0;          (* lease 1 on entry 1 *)
      Begin (CallRelease k 1); Go 1; Go 1; Go 1;                    (* gives lease 1 up *)
      Begin (CallAcquire k); Go 2; Go 2; Go 2;                      (* lease 2 on entry 1 *)
      Go 1;                                                         (* removes the key *)
      Begin (CallAcquire k); Go 3; Go 3; Go 3; Go 3; Go 3]) system_new in (* lease 3 on entry 2 *)
  tasks s !! 2%nat = Some (Holding k 1 2) /\ tasks s !! 3%nat = Some (Holding k 2 3) /\
  publishing (Holding k 1 2) (mem s) = true /\ publishing (Holding k 2 3) (mem s) = true.
Proof. vm_compute. repeat split. Qed.

(** The same happens to a publisher admitted between the test and the removal of
    [cleanup_if_idle]. *)
Example cleanup_orphans_publisher :
  let k : StreamKey := ("live"%string, "cam"%string) in
  let s := interleave
    ([Begin (CallAcquire k); Go 0; Go 0; Go 0;                      (* entry 1 registered *)
      Begin (CallCleanup k); Go 1;                                  (* it looks idle *)
      Go 0; Go 0;                                                   (* lease 1 on entry 1 *)
      Go 1]) system_new in                                          (* removes the key *)
  tasks s !! 0%nat = Some (Holding k 1 1) /\ publishing (Holding k 1 1) (mem s) = true /\
  s_streams (mem s) !! k = None.
Proof. vm_compute. repeat split. Qed.

Lemma steps_refine_calls_witness :
  finish 5 (AcqGet demo_key) (shared_of (w_manager demo_world))
  = (AcqConflict, shared_of (fst (acquire_publisher demo_key demo_publisher (w_manager demo_world)))).
Proof.
  pose proof (steps_refine_calls (C := list_channel AVFrame) (J := list_channel DispatchJob) None 16 demo_ops
    demo_key demo_publisher 3 demo_bound) as [H _].
  assert (E : snd (acquire_publisher demo_key demo_publisher (w_manager demo_world)) = Err Conflict)
    by (vm_compute; reflexivity).
  destruct (acquire_publisher _ _ _) as [m' r]. cbn [snd] in E. subst r. exact H.
Defined.

(** Two racing publishers. *)
Definition demo_race : list tick :=
  [Begin (CallAcquire demo_key); Begin (CallAcquire demo_key); Go 0; Go 1; Go 0; Go 1; Go 1; Go 0;
   Go 0; Go 1; Go 1; Go 0].

Lemma demo_race_winner : tasks (interleave demo_race system_new) !! 1%nat = Some (Holding demo_key 2 2).
Proof. vm_compute. reflexivity. Qed.

Lemma demo_race_calls : Forall (fun e => forall c, e = Begin c -> exists k, c = CallAcquire k) demo_race.
Proof. repeat constructor; intros c Hc; try discriminate; injection Hc as <-; eauto. Qed.

Lemma acquire_race_safe_witness :
  s_streams (mem (interleave demo_race system_new)) !! demo_key = Some 2.
Proof.
  pose proof (acquire_race_safe demo_race eq_refl demo_race_calls) as H. cbv zeta in H.
  exact (proj1 (proj2 (H 1%nat 1%nat _ _ _ _ _ demo_race_winner demo_race_winner))).
Defined.

Lemma entry_exclusive_witness :
  exists i, tasks (interleave demo_race system_new) !! i = Some (Holding demo_key 2 2) /\ i = 1%nat.
Proof.
  exists 1%nat. split; [exact demo_race_winner|].
  pose proof (entry_exclusive demo_race eq_refl) as H. cbv zeta in H.
  apply (H 1%nat 1%nat _ _ _ _ _ demo_race_winner demo_race_winner); vm_compute; reflexivity.
Defined.
