(* ===== verification/EngineSubscribe.v ===== *)
(** * What a subscriber receives

    [subscribe] of [crates/system/cheetah-engine/src/stream.rs] on every branch, and
    what then arrives when the publisher goes on. *)
From S2P Require Import Prelude Codecs Timeline MediaKeys EngineTypes EngineRing EngineDispatch.
From S2P Require Import EnginePool EngineStreams EngineStreamsSpec.

(** ** The bootstrap is no longer than the policy allows *)

Lemma find_down_ge s e (f : nat -> option nat) :
  (forall p q, f p = Some q -> (p <= q)%nat) -> forall y,
  find_map f (positions_down s e) = Some y -> (s <= y)%nat.
Proof. intros Hf y (p & Hp & Hy & _)%find_down_some. specialize (Hf p y Hy). lia. Qed.

Lemma age_ge r s e a : (s <= e)%nat -> (s <= clamp_start_by_max_age r s e a)%nat.
Proof.
  intros Hs. unfold clamp_start_by_max_age. repeat (case_match; try lia).
  eapply (find_down_ge s e); [|done]. cbn. intros x y Hxy. repeat case_match; simplify_eq. lia.
Qed.

Lemma disc_ge r s e : (s <= clamp_start_by_discontinuity r s e)%nat.
Proof.
  unfold clamp_start_by_discontinuity. case_match; [|lia].
  eapply (find_down_ge s e); [|done]. cbn. intros x y Hxy. repeat case_match; simplify_eq. lia.
Qed.

Lemma in_window_ge s e nodes p : find_map (in_window s e) nodes = Some p -> (s <= p)%nat.
Proof.
  intros (l1 & x & l2 & _ & Hx & _)%find_map_some. unfold in_window in Hx.
  destruct (Nat.leb_spec s (ring_pos x)); [|done]. cbn [andb] in Hx. destruct (_ <? _)%nat; [|done].
  by injection Hx as <-.
Qed.

Lemma access_ge r s e policy : (s <= snd (clamp_start_by_random_access r s e policy) \/
  e <= snd (clamp_start_by_random_access r s e policy))%nat.
Proof.
  unfold clamp_start_by_random_access. destruct (mode policy); cbn [snd]; [lia| |];
    (destruct (find_map _ _) eqn:E; [apply in_window_ge in E; lia|]);
    destruct (wait_for_next_random_access_point policy); lia.
Qed.

Lemma omap_length_le {A B} (f : A -> option B) l : (length (omap f l) <= length l)%nat.
Proof. induction l as [|x l IH]; cbn; [lia|]. destruct (f x); cbn; lia. Qed.

Lemma bootstrap_length r policy :
  (length (snd (bootstrap_frames r policy)) <= max_bootstrap_frames policy)%nat.
Proof.
  unfold bootstrap_frames. destruct (mode policy) eqn:Em; [cbn; lia| |];
    (destruct (_ =? 0)%nat; [cbn; lia|]).
  all: pose proof (access_ge r (bootstrap_window r policy) (write_pos r) policy) as A.
  all: assert (W : (write_pos r - max_bootstrap_frames policy <= bootstrap_window r policy)%nat) by
    (unfold bootstrap_window; etrans; [|apply disc_ge]; apply age_ge; lia).
  all: destruct (clamp_start_by_random_access r _ _ policy) as [r' start]; cbn [snd] in *.
  all: etrans; [apply omap_length_le|]; rewrite length_seq; lia.
Qed.

Section subscriber.
Context {C J T : Type} `{!BoundedChannel AVFrame C} `{!BoundedChannel DispatchJob J}.
Implicit Types (m : StreamManagerInner C J T) (e : StreamEntry C T).

(** ** Sending into a channel with room *)

Lemma send_all_fits fs : forall c : C,
  ch_closed c = false -> (length (ch_queue c) + length fs <= ch_capacity c)%nat ->
  ch_queue (send_all fs c) = ch_queue c ++ fs /\
  ch_capacity (send_all fs c) = ch_capacity c /\ ch_closed (send_all fs c) = false.
Proof using Type.
  induction fs as [|f fs IH]; intros c Hc Hl; cbn [send_all]; [by rewrite app_nil_r|].
  cbn in Hl. pose proof (ch_send_law c f) as L. destruct (ch_try_send c f) as [c' res].
  rewrite Hc in L. destruct L as (L1 & L2 & L3).
  destruct (Nat.ltb_spec (length (ch_queue c)) (ch_capacity c)) as [_|]; [|lia].
  destruct L3 as [-> L3]. destruct (IH c' L2) as (I1 & I2 & I3).
  { rewrite L1, L3, length_app. cbn. lia. }
  rewrite I1, I2, L1, L3, <- app_assoc. done.
Qed.

(** An offer that the queue has room for. *)
Definition passes (sub : DispatchSubscriber) (f : AVFrame) : bool := negb (filtered_out (sub_filter sub) f).

Lemma offer_room sub f p :
  ch_closed (p_chan p) = false -> p_wait p = false -> (length (queue p) < ch_capacity (p_chan p))%nat ->
  let '(p', v) := offer sub f p in
  queue p' = queue p ++ (if passes sub f then [f] else []) /\ p_wait p' = false /\
  ch_capacity (p_chan p') = ch_capacity (p_chan p) /\ ch_closed (p_chan p') = false /\
  vd_remove v = false.
Proof using Type.
  intros Hc Hw Hl. unfold offer, passes. destruct (filtered_out _ _); [by rewrite app_nil_r|].
  rewrite Hw, andb_false_r. unfold send. pose proof (ch_send_law (p_chan p) f) as L.
  destruct (ch_try_send (p_chan p) f) as [c res]. rewrite Hc in L. destruct L as (L1 & L2 & L3).
  destruct (Nat.ltb_spec (length (ch_queue (p_chan p))) (ch_capacity (p_chan p))) as [_|];
    [|unfold queue in Hl; lia].
  destruct L3 as [-> L3]. cbn. unfold queue. cbn. by rewrite L1, L2, L3.
Qed.

(** ** A subscription and its feed *)

(** The subscriber [sub] of stream [id] is attached, listening to a channel with
    the given content and capacity. *)
Definition hears m (id : Z) (sub : DispatchSubscriber) (q : list AVFrame) (cap : nat) : Prop :=
  exists e p, entries m !! id = Some e /\ dispatch_mode e = None /\ dispatcher_wf (dispatcher e) /\
    sub ∈ subscribers (dispatcher e) /\ ports (dispatcher e) !! sub_id sub = Some p /\
    ch_closed (p_chan p) = false /\ p_wait p = false /\ queue p = q /\ ch_capacity (p_chan p) = cap.

Lemma dispatch_stays d frame sub :
  dispatcher_wf d -> sub ∈ subscribers d -> vd_remove (verdict_of frame (ports d) sub) = false ->
  sub ∈ subscribers (fst (dispatch_frame frame d)) /\
  forall p, ports d !! sub_id sub = Some p ->
    ports (fst (dispatch_frame frame d)) !! sub_id sub = Some (fst (offer sub frame p)).
Proof using Type.
  intros W Hin Hv. unfold dispatch_frame.
  destruct (subscribers d) as [|s0 ss] eqn:Es; [by apply elem_of_nil in Hin|]. rewrite <- Es in *.
  destruct (swept_ports d frame W) as [Hp _].
  destruct (sweep_spec frame (ports d) (subscribers d) (mk_sweep (ports d) false false [])
    (dw_nodup _ W) ltac:(done) (dw_ports _ W)) as (_ & _ & _ & S4).
  cbv zeta. cbn [fst]. set (s := foldl _ _ _) in *.
  destruct (remove_subscribers_spec (sw_remove s)
    (mk_dispatcher (subscribers d) (next_subscriber_id d) (sw_ports s))) as (E1 & E2 & _).
  rewrite E1, E2. cbn [subscribers ports]. split; [|by intros p Hpp; apply Hp].
  apply list_elem_of_filter. split; [|done]. rewrite S4. cbn [sw_remove app].
  intros (sub' & Eid & Hin')%list_elem_of_fmap. apply list_elem_of_filter in Hin' as [Hr Hin'].
  assert (sub' = sub) as ->; [|by rewrite Hv in Hr].
  pose proof (find_sub _ _ (dw_nodup _ W) Hin) as F1. pose proof (find_sub _ _ (dw_nodup _ W) Hin') as F2.
  rewrite Eid in F1. congruence.
Qed.

Lemma push_hears m h f sub q cap :
  ensure_active h m = true -> hears m (pub_entry h) sub q cap -> (length q < cap)%nat ->
  ensure_active h (fst (push_frame h f m)) = true /\
  hears (fst (push_frame h f m)) (pub_entry h) sub (q ++ if passes sub f then [f] else []) cap.
Proof using Type.
  intros A (e & p & He & Hm & W & Hin & Hp & Hc & Hw & <- & <-) Hl.
  pose proof (offer_room sub f p Hc Hw Hl) as O. destruct (offer sub f p) as [p' v] eqn:Eo.
  destruct O as (O1 & O2 & O3 & O4 & O5). unfold push_frame. rewrite A, He. cbn [negb].
  unfold dispatch. cbn [put_entry set_entries entries]. rewrite lookup_insert_eq.
  cbn [dispatch_mode set_ring dispatcher]. rewrite Hm.
  assert (Hv : vd_remove (verdict_of f (ports (dispatcher e)) sub) = false)
    by (unfold verdict_of; by rewrite Hp, Eo).
  destruct (dispatch_stays (dispatcher e) f sub W Hin Hv) as [S1 S2]. specialize (S2 p Hp).
  destruct (dispatch_frame_wf (dispatcher e) f W) as [W' _].
  destruct (dispatch_frame f (dispatcher e)) as [d' res]. cbn [fst] in *. rewrite Eo in S2. cbn [fst] in S2.
  unfold ensure_active in A. apply andb_true_iff in A as [A1 A2]. rewrite He in A2.
  assert (Q : let m' := put_entry (pub_entry h) (set_dispatcher d' (set_ring (fst (push (ring e) f)) e))
      (put_entry (pub_entry h) (set_ring (fst (push (ring e) f)) e) m) in
    ensure_active h m' = true /\
    hears m' (pub_entry h) sub (queue p ++ if passes sub f then [f] else []) (ch_capacity (p_chan p))).
  { cbv zeta. unfold ensure_active. cbn [put_entry set_entries entries]. rewrite lookup_insert_eq.
    split; [by rewrite A1|]. eexists _, p'. cbn [put_entry set_entries entries].
    rewrite lookup_insert_eq. split_and!; done. }
  case_bool_decide; [|exact Q]. cbn [fst]. unfold publish_stream_event. destruct (event_bus _); exact Q.
Qed.

(** What others do leaves the queue alone. *)
Lemma other_entry_hears m id sub q cap id' e' (m' : StreamManagerInner C J T) :
  hears m id sub q cap -> id' <> id -> entries m' = <[id' := e']> (entries m) ->
  hears m' id sub q cap.
Proof using Type.
  intros (e & p & He & H) Hne E. exists e, p. split; [|done]. by rewrite E, lookup_insert_ne.
Qed.

Lemma active_entry h m (m' : StreamManagerInner C J T) e e' :
  ensure_active h m = true -> entries m !! pub_entry h = Some e ->
  entries m' !! pub_entry h = Some e' -> active_lease e' = active_lease e ->
  ensure_active h m' = true.
Proof using Type. unfold ensure_active. intros A E1 E2 E3. rewrite E1 in A. by rewrite E2, E3. Qed.

Lemma push_elsewhere m h h' f sub q cap :
  ensure_active h m = true -> hears m (pub_entry h) sub q cap -> pub_entry h' <> pub_entry h ->
  ensure_active h (fst (push_frame h' f m)) = true /\
  hears (fst (push_frame h' f m)) (pub_entry h) sub q cap.
Proof using Type.
  intros A H Hne. unfold push_frame. destruct (negb (ensure_active h' m)); [done|].
  destruct (entries m !! pub_entry h') as [e'|] eqn:He'; [|done].
  set (m1 := put_entry (pub_entry h') _ m).
  assert (Q : forall e2 (m' : StreamManagerInner C J T),
    entries m' = <[pub_entry h' := e2]> (entries m) ->
    ensure_active h m' = true /\ hears m' (pub_entry h) sub q cap).
  { intros e2 m' E. split; [|by eapply other_entry_hears].
    unfold ensure_active in *. by rewrite E, lookup_insert_ne. }
  assert (E : exists e2, entries (fst (dispatch (pub_entry h') f m1)) = <[pub_entry h' := e2]> (entries m)).
  { unfold dispatch, m1. cbn [put_entry set_entries entries]. rewrite lookup_insert_eq.
    assert (D : exists e2, entries (fst (let '(d, res) := dispatch_frame f (dispatcher (set_ring (fst (push (ring e') f)) e')) in
      (put_entry (pub_entry h') (set_dispatcher d (set_ring (fst (push (ring e') f)) e')) m1, res)))
      = <[pub_entry h' := e2]> (entries m)).
    { destruct (dispatch_frame f _) as [d res]. eexists. cbn [fst put_entry set_entries entries m1].
      by rewrite insert_insert_eq. }
    destruct (dispatch_mode _) as [lane|]; [|exact D]. cbn [shared_pool put_entry set_entries].
    destruct (shared_pool m) as [pool|]; [|exact D].
    destruct (enqueue _ _ _ _) as [pool' res]. by eexists. }
  destruct E as [e2 E]. destruct (dispatch (pub_entry h') f m1) as [m2 res]. cbn [fst] in E.
  case_bool_decide; cbn [fst]; [|by eapply Q].
  unfold publish_stream_event. destruct (event_bus m2); by eapply Q.
Qed.

(** The subscriber takes the first frame of its queue. *)
Lemma recv_hears m s sub q cap h :
  ensure_active h m = true -> hears m (sh_entry s) sub q cap -> sh_closed s = false -> sh_id s = sub_id sub ->
  snd (recv s m) = head q /\ hears (fst (recv s m)) (sh_entry s) sub (tail q) cap /\
  ensure_active h (fst (recv s m)) = true.
Proof using Type.
  intros A (e & p & He & Hm & W & Hin & Hp & Hc & Hw & <- & <-) Hs Hid. unfold recv.
  rewrite Hs, He. unfold recv_from. rewrite Hid, Hp.
  pose proof (ch_recv_law (p_chan p)) as L. destruct (ch_recv (p_chan p)) as [c res].
  destruct L as (L1 & L2 & L3 & L4). cbn [fst snd]. split; [done|]. split.
  - eexists _, (mk_port c (p_wait p)). cbn [put_entry set_entries entries]. rewrite lookup_insert_eq.
    split; [done|]. cbn [dispatch_mode set_dispatcher dispatcher subscribers ports]. rewrite lookup_insert_eq.
    unfold queue. cbn [p_chan p_wait]. rewrite L1, L2, L4. split_and!; try done.
    apply wf_ports; [done|]. intros i. rewrite lookup_insert_is_Some'.
    split; [intros [<-|H]; eauto|by right].
  - destruct (decide (pub_entry h = sh_entry s)) as [E|E].
    + eapply (active_entry h m); [done|by rewrite E| |]; cbn [put_entry set_entries entries];
        [by rewrite E, lookup_insert_eq|done].
    + unfold ensure_active in *. cbn [put_entry set_entries entries]. by rewrite lookup_insert_ne.
Qed.

(** Somebody else joins, this stream or another. *)
Lemma join_hears n m ps k options h sub q cap :
  good n m ps -> n + 1 < 2 ^ 62 ->
  ensure_active h m = true -> hears m (pub_entry h) sub q cap ->
  ensure_active h (fst (subscribe k options m)) = true /\
  hears (fst (subscribe k options m)) (pub_entry h) sub q cap.
Proof using Type.
  intros G Hb A H. unfold subscribe.
  destruct (_ =? 0)%nat; [done|]. destruct (_ <? _)%nat; [done|].
  destruct (entry_of k m) as [e|] eqn:Ee; [|done].
  destruct (entry_of_good _ _ _ _ _ G Ee) as [_ He].
  pose proof (iv_entry _ _ _ _ _ _ (proj1 G) _ _ He) as Ho.
  pose proof (eo_next _ _ _ _ _ Ho) as Hnext. pose proof (dw_next _ (eo_disp _ _ _ _ _ Ho)) as Hpos.
  change (2 ^ 62) with 4611686018427387904 in *. change (2 ^ 63) with 9223372036854775808 in *.
  assert (Hb' : next_subscriber_id (dispatcher e) + 1 < 2 ^ 63)
    by (change (2 ^ 63) with 9223372036854775808; lia).
  pose proof (wf_add options (dispatcher e) (eo_disp _ _ _ _ _ Ho) Hb') as W.
  unfold add_subscriber in *.
  rewrite wrap_u_small in * by (unfold in_u; change (2 ^ 64) with 18446744073709551616; lia).
  cbn [fst] in W. set (id := next_subscriber_id (dispatcher e) + 1) in *.
  destruct (bootstrap_frames (ring e) (bootstrap_policy options)) as [r frames]. cbn [fst].
  set (e2 := set_dispatcher _ _). set (m1 := publish_stream_event _ _ _ _ _ _).
  assert (Em : entries m1 = entries m) by (unfold m1, publish_stream_event; by destruct (event_bus m)).
  destruct (decide (stream_id e = pub_entry h)) as [E|E].
  - destruct H as (e0 & p & He0 & Hm & W0 & Hin & Hp & Hc & Hw & Hq & Hcap). rewrite <- E in He0.
    assert (e0 = e) as -> by congruence. split.
    + eapply (active_entry h m _ e e2 A); [by rewrite <- E| |done].
      cbn [put_entry set_entries entries]. rewrite Em, <- E. apply lookup_insert_eq.
    + exists e2, p. cbn [put_entry set_entries entries]. rewrite Em, <- E, lookup_insert_eq.
      assert (Hne : sub_id sub <> id).
      { intros Ei. pose proof (dw_ids _ W0 _ _ Hp). unfold id in Ei. lia. }
      unfold e2. cbn [dispatch_mode set_dispatcher set_ring dispatcher subscribers ports].
      rewrite lookup_alter_ne, lookup_insert_ne by congruence.
      split_and!; try done; [|by apply elem_of_app; left].
      apply (wf_ports _ _ W). intros i. cbn [ports]. apply lookup_alter_is_Some.
  - split.
    + unfold ensure_active in *. cbn [put_entry set_entries entries]. by rewrite Em, lookup_insert_ne.
    + eapply other_entry_hears; [exact H|exact E|]. cbn [put_entry set_entries entries]. by rewrite Em.
Qed.

Lemma ask_hears n m ps k h sub q cap :
  good n m ps -> ensure_active h m = true -> hears m (pub_entry h) sub q cap ->
  good n (fst (request_keyframe k m)) ps /\ ensure_active h (fst (request_keyframe k m)) = true /\
  hears (fst (request_keyframe k m)) (pub_entry h) sub q cap.
Proof using Type.
  intros G A H. unfold request_keyframe. destruct (entry_of k m) as [e|] eqn:Ee; [|done].
  destruct (entry_of_good _ _ _ _ _ G Ee) as [_ He]. cbn [fst].
  split; [by apply (keyframes_good n m ps _ e)|].
  destruct (decide (stream_id e = pub_entry h)) as [E|E].
  - destruct H as (e0 & p & He0 & H). rewrite <- E in He0. assert (e0 = e) as -> by congruence. split.
    + eapply (active_entry h m _ e _ A); [by rewrite <- E| |].
      * cbn [put_entry set_entries entries]. rewrite <- E. apply lookup_insert_eq.
      * done.
    + eexists _, p. cbn [put_entry set_entries entries]. rewrite <- E, lookup_insert_eq. split; [done|exact H].
  - split.
    + unfold ensure_active in *. cbn [put_entry set_entries entries]. by rewrite lookup_insert_ne.
    + eapply other_entry_hears; [exact H|exact E|done].
Qed.

(** ** Life on the stream *)

(** What may happen while the subscriber listens: its publisher pushes a frame,
    it takes a frame, somebody joins a stream, somebody asks a stream for a
    keyframe, and another publisher pushes a frame. *)
Inductive feed_step : Set :=
| Publish (f : AVFrame)
| Take
| Join (k : StreamKey) (options : SubscriberOptions)
| Ask (k : StreamKey)
| Elsewhere (h : PublisherHandle) (f : AVFrame).

(** Run the steps for the publisher [h] and the subscriber [s]: the manager at the
    end, and the frames that [s] took. *)
Fixpoint feed (h : PublisherHandle) (s : SubscriberHandle) (steps : list feed_step) m :
    StreamManagerInner C J T * list AVFrame :=
  match steps with
  | [] => (m, [])
  | Publish f :: steps => feed h s steps (fst (push_frame h f m))
  | Take :: steps =>
      let '(m, got) := recv s m in
      let '(m, rest) := feed h s steps m in
      (m, match got with Some f => f :: rest | None => rest end)
  | Join k options :: steps => feed h s steps (fst (subscribe k options m))
  | Ask k :: steps => feed h s steps (fst (request_keyframe k m))
  | Elsewhere h' f :: steps => feed h s steps (fst (push_frame h' f m))
  end.

Definition published (steps : list feed_step) : list AVFrame :=
  omap (fun x => match x with Publish f => Some f | _ => None end) steps.

(** The subscriber keeps up: no frame is published while its queue, at most [q]
    long at the start, could be full. *)
Fixpoint keeps_up (cap q : nat) (steps : list feed_step) : Prop :=
  match steps with
  | [] => True
  | Publish _ :: steps => (q < cap)%nat /\ keeps_up cap (S q) steps
  | Take :: steps => keeps_up cap (pred q) steps
  | _ :: steps => keeps_up cap q steps
  end.

(** [Elsewhere] is another stream's publisher. *)
Definition elsewhere (h : PublisherHandle) (x : feed_step) : Prop :=
  match x with Elsewhere h' _ => pub_entry h' <> pub_entry h | _ => True end.

Lemma feed_hears h s sub cap steps : forall n m ps q bound,
  good n m ps -> n + Z.of_nat (length steps) < 2 ^ 62 ->
  ensure_active h m = true -> hears m (pub_entry h) sub q cap ->
  sh_entry s = pub_entry h -> sh_closed s = false -> sh_id s = sub_id sub ->
  (length q <= bound)%nat -> keeps_up cap bound steps -> Forall (elsewhere h) steps ->
  let '(m', got) := feed h s steps m in
  exists q', hears m' (pub_entry h) sub q' cap /\
    got ++ q' = q ++ filter (fun f => passes sub f) (published steps).
Proof using Type.
  induction steps as [|x steps IH]; intros n m ps q bound G Hn A H Hs1 Hs2 Hs3 Hq K E; cbn [feed].
  { exists q. split; [done|]. cbn. by rewrite app_nil_r. }
  apply Forall_cons in E as [E1 E]. cbn [length] in Hn. rewrite Nat2Z.inj_succ in Hn.
  destruct x as [f| |k o|k|h' f]; cbn [keeps_up elsewhere] in *.
  - destruct K as [K1 K]. destruct (push_hears m h f sub q cap A H ltac:(lia)) as [A' H'].
    assert (Hl : (length (q ++ if passes sub f then [f] else []) <= S bound)%nat)
      by (rewrite length_app; destruct (passes sub f); cbn; lia).
    specialize (IH n _ ps _ (S bound) (push_good _ _ _ h f G) ltac:(lia) A' H' Hs1 Hs2 Hs3 Hl K E).
    destruct (feed _ _ _ _) as [m' got]. destruct IH as (q' & I1 & I2). exists q'. split; [done|].
    rewrite I2, <- app_assoc. unfold published. cbn [omap list_omap]. f_equal.
    destruct (passes sub f) eqn:Ep.
    + by rewrite filter_cons_True by (by rewrite Ep).
    + by rewrite filter_cons_False by (rewrite Ep; auto).
  - rewrite <- Hs1 in H. destruct (recv_hears m s sub q cap h A H Hs2 Hs3) as (R1 & R2 & R3).
    pose proof (recv_good n m ps s G) as G'. destruct (recv s m) as [m1 f]. cbn [fst snd] in *.
    rewrite Hs1 in R2. assert (Hl : (length (tail q) <= pred bound)%nat) by (destruct q; cbn in *; lia).
    specialize (IH n _ ps _ (pred bound) G' ltac:(lia) R3 R2 Hs1 Hs2 Hs3 Hl K E).
    destruct (feed _ _ _ _) as [m' got]. destruct IH as (q' & I1 & I2). exists q'. split; [done|].
    change (published (Take :: steps)) with (published steps). subst f.
    destruct q as [|g q]; cbn in I2 |- *; [done|by rewrite I2].
  - destruct (join_hears n m ps k o h sub q cap G ltac:(lia) A H) as [A' H'].
    apply (IH (n + 1) _ ps q bound); try done; [|lia]. apply subscribe_good; [done|lia].
  - destruct (ask_hears n m ps k h sub q cap G A H) as (G' & A' & H').
    apply (IH n _ ps q bound); try done. lia.
  - destruct (push_elsewhere m h h' f sub q cap A H E1) as [A' H'].
    apply (IH n _ ps q bound); try done; [by apply push_good|lia].
Qed.

(** The dispatcher a subscription leaves. *)
Lemma subscribe_hears m k options e :
  entry_of k m = Some e -> entries m !! stream_id e = Some e -> dispatch_mode e = None ->
  dispatcher_wf (dispatcher e) -> next_subscriber_id (dispatcher e) + 1 < 2 ^ 63 ->
  (0 < queue_capacity options)%nat ->
  (max_bootstrap_frames (bootstrap_policy options) <= queue_capacity options)%nat ->
  let '(m', r) := subscribe k options m in
  let id := next_subscriber_id (dispatcher e) + 1 in
  r = Ok (mk_subscription k (stream_id e) id false) /\
  hears m' (stream_id e) (mk_subscriber id (backpressure options) (media_filter options))
    (snd (bootstrap_frames (ring e) (bootstrap_policy options))) (queue_capacity options) /\
  forall h, ensure_active h m = true -> ensure_active h m' = true.
Proof using Type.
  intros Ee He Hm W Hb Hq Hmax. unfold subscribe.
  destruct (Nat.eqb_spec (queue_capacity options) 0); [lia|].
  destruct (Nat.ltb_spec (queue_capacity options) (max_bootstrap_frames (bootstrap_policy options))); [lia|].
  rewrite Ee. pose proof (wf_add options (dispatcher e) W Hb) as Wa. unfold add_subscriber in *.
  pose proof (dw_next _ W) as Hpos.
  rewrite wrap_u_small in * by (unfold in_u; change (2 ^ 63) with 9223372036854775808 in *;
    change (2 ^ 64) with 18446744073709551616; lia).
  cbn [fst] in Wa. set (id := next_subscriber_id (dispatcher e) + 1) in *.
  pose proof (bootstrap_length (ring e) (bootstrap_policy options)) as Hl.
  destruct (bootstrap_frames (ring e) (bootstrap_policy options)) as [r frames]. cbn [snd] in *.
  split; [done|]. replace (Nat.max (queue_capacity options) 1) with (queue_capacity options) in * by lia.
  destruct (ch_new_law (A := AVFrame) (C := C) (queue_capacity options)) as (N1 & N2 & N3).
  destruct (send_all_fits frames (ch_new (queue_capacity options)) N3) as (F1 & F2 & F3).
  { rewrite N1, N2. cbn. lia. }
  split.
  - eexists _, _. cbn [put_entry set_entries entries]. rewrite lookup_insert_eq.
    cbn [dispatch_mode set_dispatcher set_ring dispatcher subscribers ports next_subscriber_id sub_id].
    split; [done|]. split; [done|]. split; [|split; [|split]].
    + apply (wf_ports _ _ Wa). intros i. cbn [ports]. apply lookup_alter_is_Some.
    + apply elem_of_app. right. by apply list_elem_of_singleton.
    + cbn [ports dispatcher set_dispatcher]. rewrite lookup_alter_eq, lookup_insert_eq. done.
    + cbn [p_chan p_wait]. unfold queue. cbn [p_chan]. rewrite F1, F2, F3, N1, N2. done.
  - intros h A. unfold ensure_active in *. apply andb_true_iff in A as [A1 A2]. rewrite A1. cbn [andb].
    unfold publish_stream_event. cbn [put_entry set_entries entries].
    destruct (decide (pub_entry h = stream_id e)) as [Eh|Eh].
    + rewrite Eh, lookup_insert_eq. rewrite Eh, He in A2. done.
    + rewrite lookup_insert_ne by done. by destruct (event_bus m).
Qed.
End subscriber.

Lemma passes_wanted sub f : passes sub f <-> ~ unwanted (sub_filter sub) f.
Proof.
  unfold passes. rewrite <- filtered_unwanted. destruct (filtered_out _ _); cbn; [|done].
  split; [done|]. intros H. by destruct H.
Qed.

Lemma filter_filter_id {A} (P : A -> Prop) `{!forall x, Decision (P x)} (l : list A) :
  filter P (filter P l) = filter P l.
Proof. apply filter_all. intros x Hx. by apply list_elem_of_filter in Hx as [Hx _]. Qed.

(** ** Claims *)

(** [C3] A subscriber hears the stream without a gap. In every reachable world,
    let a stream that dispatches directly (not through the shared pool) have an
    active publisher, and subscribe to it with valid options; then let the
    publisher push frames and the subscriber take them, while others join streams,
    ask for keyframes and push frames to other streams, in any order, each call
    finishing before the next. As long as no frame is pushed while the
    subscriber's queue could be full, the frames of the kinds it wants that it
    took and that wait in its queue are exactly those of the bootstrap followed by
    those pushed since, in order, none missing and none twice; and it gets
    nothing else when the bootstrap holds only kinds that it wants. *)
Theorem subscriber_hears_stream {C J T} `{!BoundedChannel AVFrame C} `{!BoundedChannel DispatchJob J}
    dm capacity (ops : list (op T)) i h e options steps :
  Z.of_nat (length ops) + Z.of_nat (length steps) + 1 < 2 ^ 62 ->
  let w := run ops (initial dm capacity) : world C J T in
  w_pubs w !! i = Some h -> ensure_active h (w_manager w) = true ->
  entries (w_manager w) !! pub_entry h = Some e -> dispatch_mode e = None ->
  (0 < queue_capacity options)%nat ->
  (max_bootstrap_frames (bootstrap_policy options) <= queue_capacity options)%nat ->
  keeps_up (queue_capacity options) (max_bootstrap_frames (bootstrap_policy options)) steps ->
  Forall (elsewhere h) steps ->
  let boot := snd (bootstrap_frames (ring e) (bootstrap_policy options)) in
  let wanted := filter (fun f => ~ unwanted (media_filter options) f) in
  let '(m, r) := subscribe (pub_key h) options (w_manager w) in
  exists s, r = Ok s /\
    let '(m', got) := feed h s steps m in
    exists e' p, entries m' !! sh_entry s = Some e' /\ ports (dispatcher e') !! sh_id s = Some p /\
      wanted (got ++ queue p) = wanted (boot ++ published steps) /\
      (Forall (fun f => ~ unwanted (media_filter options) f) boot ->
       got ++ queue p = boot ++ wanted (published steps)).
Proof.
  intros Hb w Hi A He Hm Hq Hmax K E boot wanted.
  pose proof (reachable_good dm capacity ops ltac:(lia)) as G. fold w in G. unfold wgood in G.
  pose proof A as A'. unfold ensure_active in A'. apply andb_true_iff in A' as [_ A'].
  rewrite He in A'. apply Z.eqb_eq in A'.
  destruct (inv_owner _ _ _ _ _ _ _ _ e (proj1 G) Hi He A') as [_ Hk].
  pose proof (iv_entry _ _ _ _ _ _ (proj1 G) _ _ He) as Ho.
  pose proof (eo_next _ _ _ _ _ Ho) as Hnext. pose proof (eo_id _ _ _ _ _ Ho) as Hid.
  assert (Hb' : next_subscriber_id (dispatcher e) + 1 < 2 ^ 63)
    by (change (2 ^ 62) with 4611686018427387904 in Hb; change (2 ^ 63) with 9223372036854775808; lia).
  pose proof (subscribe_hears (w_manager w) (pub_key h) options e
    ltac:(unfold entry_of; by rewrite Hk) ltac:(by rewrite Hid) Hm (eo_disp _ _ _ _ _ Ho) Hb' Hq Hmax) as Hsub.
  pose proof (subscribe_good _ _ _ (pub_key h) options G ltac:(lia)) as G'.
  destruct (subscribe (pub_key h) options (w_manager w)) as [m r]. cbn [fst] in G'.
  destruct Hsub as (-> & H & Ha). eexists. split; [done|]. rewrite Hid in *. fold boot in H.
  set (sub := mk_subscriber _ _ _) in H. set (s := mk_subscription _ _ _ _).
  pose proof (feed_hears h s sub _ steps _ m _ boot _ G' ltac:(lia) (Ha h A) H eq_refl eq_refl eq_refl
    (bootstrap_length _ _) K E) as F.
  destruct (feed h s steps m) as [m' got]. destruct F as (q' & (e' & p & E1 & E2 & E3 & E4 & E5 & E6 & E7 & <- & E9) & F).
  exists e', p. split; [exact E1|]. split; [exact E5|].
  assert (P : filter (fun f => passes sub f) (published steps) = wanted (published steps)).
  { unfold wanted. apply filter_ext_in. intros f _. apply passes_wanted. }
  rewrite P in F. split; [|by intros _].
  unfold wanted in *. rewrite F, !filter_app, filter_filter_id. done.
Qed.

(** When a subscription is refused. [subscribe] answers [InvalidArgument]
    exactly for a queue that is empty or shorter than the bootstrap limit,
    [NotFound] exactly for valid options on an unregistered key; then nothing
    changes. Otherwise it succeeds. *)
Theorem subscribe_refusals {C J T} `{!BoundedChannel AVFrame C} `{!BoundedChannel DispatchJob J}
    (m : StreamManagerInner C J T) k options :
  let invalid := bool_decide (queue_capacity options = 0%nat) ||
    bool_decide (queue_capacity options < max_bootstrap_frames (bootstrap_policy options))%nat in
  let '(m', r) := subscribe k options m in
  match r with
  | Err EngineTypes.InvalidArgument => invalid = true /\ m' = m
  | Err NotFound => invalid = false /\ entry_of k m = None /\ m' = m
  | Err _ => False
  | Ok s => invalid = false /\ exists e, entry_of k m = Some e /\ sh_entry s = stream_id e /\ sh_key s = k
  end.
Proof.
  unfold subscribe. destruct (Nat.eqb_spec (queue_capacity options) 0) as [E|E].
  { rewrite bool_decide_eq_true_2 by done. done. }
  rewrite (bool_decide_eq_false_2 (_ = _)) by done.
  destruct (Nat.ltb_spec (queue_capacity options) (max_bootstrap_frames (bootstrap_policy options))).
  { rewrite bool_decide_eq_true_2 by done. done. }
  rewrite bool_decide_eq_false_2 by lia.
  destruct (entry_of k m) as [e|]; [|done]. destruct (add_subscriber _ _) as [d id].
  destruct (bootstrap_frames _ _) as [r frames]. split; [done|]. exists e. done.
Qed.

(** ** What the bootstrap does not respect *)

Definition demo_frame (kind : MediaKind) (fl : Z) (t : Z) : AVFrame :=
  mk_frame 1 kind t t (mk_timebase 1 1000) fl [].

Definition demo_options (filter : MediaFilter) : SubscriberOptions :=
  mk_sub_options 8 DropDroppableFirst (mk_policy FullGop None 8 true) filter.

(** A subscriber that disabled video is sent video by the bootstrap. *)
Example bootstrap_ignores_media_filter :
  let f := demo_frame Video FLAG_KEY 0 in
  let ring := push_all (ring_new 128) [f] in
  snd (bootstrap_frames ring (bootstrap_policy (demo_options (mk_filter false true)))) = [f] /\
  filtered_out (media_filter (demo_options (mk_filter false true))) f = true.
Proof. vm_compute. done. Qed.

(** [subscribe] attaches the subscriber first and reads the ring later. A frame
    published in between reaches it twice, and before its predecessors. *)
Example bootstrap_race :
  let f1 := demo_frame Video FLAG_KEY 0 in
  let f2 := demo_frame Video 0 40 in
  let options := demo_options (mk_filter true true) in
  let ring := push_all (ring_new 128) [f1] in
  let '(d, id) := add_subscriber options (dispatcher_new : DispatcherInner (list_channel AVFrame)) in
  (* the publisher's [push_frame f2] *)
  let ring := fst (push ring f2) in
  let d := fst (dispatch_frame f2 d) in
  (* the rest of [subscribe] *)
  let frames := snd (bootstrap_frames ring (bootstrap_policy options)) in
  (fun p => ch_queue (send_all frames (p_chan p))) <$> ports d !! id = Some [f2; f1; f2].
Proof. vm_compute. done. Qed.

(** A stream with one keyframe, joined by a subscriber of video only. Two more
    frames are published, the second of them audio, while the subscriber takes one
    and somebody else joins. *)
Definition demo_joined : list (op Z) := [Acquire demo_key demo_publisher; PushFrame 0 (demo_frame Video FLAG_KEY 0)].

Definition demo_entry : StreamEntry (list_channel AVFrame) Z :=
  set_publisher_info "rtmp" None (set_lease 1
    (set_ring (push_all (ring_new 128) [demo_frame Video FLAG_KEY 0]) (StreamEntry_new 1 128 None))).

Lemma subscriber_hears_stream_witness :
  let options := mk_sub_options 2 DisconnectOnOverflow (mk_policy FullGop None 1 true) (mk_filter true false) in
  let h := mk_publisher demo_key 1 1 false in
  let steps := [Publish (demo_frame Video 0 40); Take; Join demo_key options; Publish (demo_frame Audio 0 41)] in
  let w := run demo_joined (initial None 16) : world (list_channel AVFrame) (list_channel DispatchJob) Z in
  let '(m, r) := subscribe demo_key options (w_manager w) in
  exists s, r = Ok s /\
    let '(m', got) := feed h s steps m in
    exists e' p, entries m' !! sh_entry s = Some e' /\ ports (dispatcher e') !! sh_id s = Some p /\
      got ++ queue p = [demo_frame Video FLAG_KEY 0; demo_frame Video 0 40].
Proof.
  intros options h steps w.
  pose proof (subscriber_hears_stream (C := list_channel AVFrame) (J := list_channel DispatchJob)
    None 16 demo_joined 0%nat h demo_entry options steps) as H.
  cbv zeta in H. change (run demo_joined (initial None 16)) with w in H. cbn [pub_key h] in H.
  destruct (subscribe demo_key options (w_manager w)) as [m r].
  destruct H as (s & H1 & H2).
  - reflexivity.
  - vm_compute. reflexivity.
  - vm_compute. reflexivity.
  - vm_compute. reflexivity.
  - reflexivity.
  - cbn. lia.
  - cbn. lia.
  - cbn. lia.
  - repeat constructor.
  - exists s. split; [exact H1|]. destruct (feed h s steps m) as [m' got].
    destruct H2 as (e' & p & H2 & H3 & _ & H4). exists e', p. split; [exact H2|]. split; [exact H3|].
    rewrite H4; [vm_compute; reflexivity|].
    vm_compute. constructor; [|constructor]. intros [[_ H]|[H _]]; discriminate H.
Defined.
