(* ===== verification/Egress.v ===== *)
(** * Timestamps on the way out

    Models [crates/foundation/cheetah-codec/src/egress.rs]: media time in milliseconds and in
    RTP ticks, repair of timestamps that go back, alignment of audio and video, and decode
    times from presentation times. The RTP generator that carries fractions in an [f64] is
    left out. Products of [i128] cannot overflow here: the factors have 64 and 32 bits. *)
From S2P Require Import Prelude Timeline Codecs.
Local Open Scope Z_scope.

(** ** Milliseconds and ticks *)

(** Division of integers truncates. *)
Definition round_half_away_from_zero (value divisor : Z) : Z :=
  let half := Z.quot divisor 2 in
  if 0 <=? value then Z.quot (value + half) divisor else Z.quot (value - half) divisor.

Definition timebase_value_to_millis (tb : Timebase) (value : Z) : Z :=
  if value =? 0 then 0
  else
    let den := Z.max (tb_den tb) 1 in
    let num := Z.max (tb_num tb) 1 in
    wrap_i 64 (round_half_away_from_zero (value * num * 1000) den).

Definition millis_to_rtmp_timestamp_ms (millis : Z) : Z :=
  if millis <=? 0 then 0 else Z.min millis (2 ^ 32 - 1).

Definition dts_to_rtmp_timestamp_ms (dts : Z) (tb : Timebase) : Z :=
  millis_to_rtmp_timestamp_ms (timebase_value_to_millis tb dts).

(** [frame_composition_time_ms] of a frame with these times. *)
Definition composition_time_ms (pts dts : Z) (tb : Timebase) : Z :=
  let pts_ms := timebase_value_to_millis tb pts in
  let dts_ms := timebase_value_to_millis tb dts in
  Z.max (- 0x800000) (Z.min 0x7FFFFF (sat_i 64 (pts_ms - dts_ms))).

Definition select_egress_timestamps (kind : MediaKind) (pts dts : Z) : Z * Z := (dts, pts).

Definition sat_i128 (x : Z) : Z := sat_i 128 x.

Definition media_ts_to_rtp_ticks (primary secondary : Z) (tb : Timebase) (clock_rate : Z) : Z :=
  if clock_rate =? 0 then 0
  else
    let ticks (ts : Z) :=
      let den := Z.max (tb_den tb) 1 in
      let num := Z.max (tb_num tb) 1 in
      let value := Z.quot (sat_i128 (sat_i128 (ts * num) * clock_rate)) den in
      if value <=? 0 then 0 else wrap_u 32 value in
    if 0 <=? primary then ticks primary else if 0 <=? secondary then ticks secondary else 0.

(** ** Repair *)

Record TimestampRepairResult : Set := mk_repair { timestamp : Z; repaired : bool }.

Definition repair_monotonic_timestamp (raw_timestamp : Z) (last_timestamp : option Z) (backward_repair_threshold : Z) :
    TimestampRepairResult :=
  match last_timestamp with
  | None => mk_repair raw_timestamp false
  | Some last =>
      if raw_timestamp =? last then mk_repair (wrap_u 32 (last + 1)) true
      else if (raw_timestamp <? last) && (wrap_u 32 (last - raw_timestamp) <=? backward_repair_threshold)
      then mk_repair (wrap_u 32 (last + 1)) true
      else mk_repair raw_timestamp false
  end.

Definition is_power_of_two (n : Z) : bool := (0 <? n) && (Z.land n (n - 1) =? 0).
Definition is_multiple_of (n d : Z) : bool := if d =? 0 then n =? 0 else n mod d =? 0.

Definition should_sample_timestamp_repair (repair_count : Z) : bool :=
  (repair_count <=? 3) || is_power_of_two repair_count || is_multiple_of repair_count 1024.

Definition should_emit_alert_threshold (count threshold : Z) : bool :=
  (0 <? threshold) && (threshold <=? count) && ((count =? threshold) || is_multiple_of count threshold).

(** ** Audio and video on one time line *)

Record AvSyncAligner : Set := mk_aligner {
  video_epoch_us : option Z;
  audio_epoch_us : option Z;
  sync_offset_us : Z;
  synced : bool
}.
Definition aligner_new : AvSyncAligner := mk_aligner None None 0 false.

Definition first_epoch (epoch : option Z) (dts_us : Z) : option Z := Some (default dts_us epoch).

Definition on_frame (kind : MediaKind) (dts_us : Z) (a : AvSyncAligner) : AvSyncAligner :=
  if synced a then a
  else
    let v := match kind with Video => first_epoch (video_epoch_us a) dts_us | _ => video_epoch_us a end in
    let u := match kind with Audio => first_epoch (audio_epoch_us a) dts_us | _ => audio_epoch_us a end in
    match v, u with
    | Some v0, Some u0 => mk_aligner v u (sat_i 64 (u0 - v0)) true
    | _, _ => mk_aligner v u (sync_offset_us a) false
    end.

Definition adjust (kind : MediaKind) (dts_us : Z) (a : AvSyncAligner) : Z :=
  if negb (synced a) then dts_us
  else match kind with Audio => sat_i 64 (dts_us - sync_offset_us a) | _ => dts_us end.

(** ** Decode times of presentation times *)

Record SortingWindowDtsGenerator : Set := mk_window {
  window : list Z;
  window_size : nat;
  last_output_dts : Z;
  initialized : bool
}.
Definition window_new (size : nat) : SortingWindowDtsGenerator := mk_window [] (Nat.max size 1) 0 false.

Definition list_min (x : Z) (l : list Z) : Z := foldr Z.min x l.

(** [last_output_dts + 1] is an [i64]. *)
Definition next_dts (min_pts : Z) (g : SortingWindowDtsGenerator) : Z :=
  if initialized g then Z.max min_pts (wrap_i 64 (last_output_dts g + 1)) else min_pts.

Definition window_push (pts : Z) (g : SortingWindowDtsGenerator) : SortingWindowDtsGenerator * option Z :=
  let w := window g ++ [pts] in
  if (length w <? window_size g)%nat then (mk_window w (window_size g) (last_output_dts g) (initialized g), None)
  else
    match w with
    | [] => (mk_window w (window_size g) (last_output_dts g) (initialized g), None)
    | oldest :: rest =>
        let dts := next_dts (list_min oldest rest) g in
        (mk_window rest (window_size g) dts true, Some dts)
    end.

(** [position] of a value, and its removal. *)
Fixpoint remove_first (v : Z) (l : list Z) : list Z :=
  match l with [] => [] | x :: l => if x =? v then l else x :: remove_first v l end.

Fixpoint flush_loop (fuel : nat) (g : SortingWindowDtsGenerator) : SortingWindowDtsGenerator * list Z :=
  match fuel, window g with
  | S fuel, x :: rest =>
      let min_pts := list_min x rest in
      let dts := next_dts min_pts g in
      let '(g, out) := flush_loop fuel (mk_window (remove_first min_pts (x :: rest)) (window_size g) dts true) in
      (g, dts :: out)
  | _, _ => (g, [])
  end.

(** A turn removes an element. *)
Definition window_flush (g : SortingWindowDtsGenerator) : SortingWindowDtsGenerator * list Z :=
  flush_loop (length (window g)) g.

Definition window_reset (g : SortingWindowDtsGenerator) : SortingWindowDtsGenerator :=
  mk_window [] (window_size g) 0 false.

(** ** Theorems *)

(** Milliseconds are off by half of one at most. *)
Lemma millis_rounds tb value :
  in_u 32 (tb_num tb) -> in_u 32 (tb_den tb) -> 1 <= tb_num tb -> 1 <= tb_den tb ->
  in_i 64 (timebase_value_to_millis tb value) ->
  in_i 64 (round_half_away_from_zero (value * tb_num tb * 1000) (tb_den tb)) ->
  2 * Z.abs (timebase_value_to_millis tb value * tb_den tb - value * tb_num tb * 1000) <= tb_den tb.
Proof.
  intros _ _ N D _ R. unfold timebase_value_to_millis. destruct (Z.eqb_spec value 0) as [->|_]; [lia|].
  rewrite !Z.max_l by lia. rewrite wrap_i_small by (done || lia). clear R. unfold round_half_away_from_zero.
  set (x := value * tb_num tb * 1000). set (d := tb_den tb) in *. clearbody x d.
  destruct (Z.leb_spec 0 x) as [X|X].
  - rewrite !Z.quot_div_nonneg by (try (apply Z.quot_pos; lia); try (pose proof (Z.quot_pos d 2); lia); lia). zdm.
  - replace (x - Z.quot d 2) with (- (- x + d / 2)) by (rewrite Z.quot_div_nonneg by lia; lia).
    rewrite Z.quot_opp_l, Z.quot_div_nonneg by (try lia; zdm). zdm.
Qed.

(** In a timebase of milliseconds nothing is rounded. *)
Lemma millis_exact value : in_i 64 value -> timebase_value_to_millis (mk_timebase 1 1000) value = value.
Proof.
  intros R. unfold timebase_value_to_millis. destruct (Z.eqb_spec value 0) as [->|_]; [done|].
  cbn [tb_num tb_den]. change (Z.max 1000 1) with 1000. change (Z.max 1 1) with 1. rewrite Z.mul_1_r.
  assert (E : round_half_away_from_zero (value * 1000) 1000 = value).
  { unfold round_half_away_from_zero. change (Z.quot 1000 2) with 500. destruct (Z.leb_spec 0 (value * 1000)).
    - rewrite Z.quot_div_nonneg by lia. zdm.
    - replace (value * 1000 - 500) with (- (- value * 1000 + 500)) by lia. rewrite Z.quot_opp_l, Z.quot_div_nonneg by lia. zdm. }
  rewrite E. by apply wrap_i_small.
Qed.

(** What a repaired timestamp is to the one before. *)
Lemma repair_advances raw last threshold :
  in_u 32 raw -> in_u 32 last -> last < 2 ^ 32 - 1 ->
  let r := repair_monotonic_timestamp raw (Some last) threshold in
  last < timestamp r \/ (timestamp r = raw /\ repaired r = false /\ raw + threshold < last).
Proof.
  unfold in_u. intros R L N. cbn [repair_monotonic_timestamp]. destruct (Z.eqb_spec raw last) as [->|E].
  - left. cbn. rewrite wrap_u_small by (unfold in_u; cbn in *; lia). lia.
  - destruct (Z.ltb_spec raw last) as [B|B]; cbn [andb]; [|left; cbn; lia].
    rewrite wrap_u_small by (unfold in_u; cbn in *; lia).
    destruct (Z.leb_spec (last - raw) threshold); [left|right]; cbn [timestamp repaired].
    + rewrite wrap_u_small by (unfold in_u; cbn in *; lia). lia.
    + repeat split; lia.
Qed.

(** The aligner after some frames: the first of each kind decide, what comes later does not. *)
Definition aligned (frames : list (MediaKind * Z)) (a : AvSyncAligner) : AvSyncAligner :=
  foldl (fun a f => on_frame (fst f) (snd f) a) a frames.

Definition first_of (kind : MediaKind) (frames : list (MediaKind * Z)) : option Z :=
  snd <$> find (fun f => bool_decide (fst f = kind)) frames.

Definition state_of (v u : option Z) : AvSyncAligner :=
  match v, u with
  | Some v0, Some u0 => mk_aligner v u (sat_i 64 (u0 - v0)) true
  | _, _ => mk_aligner v u 0 false
  end.

Lemma first_of_app kind fs k t :
  first_of kind (fs ++ [(k, t)]) =
    match first_of kind fs with Some x => Some x | None => if bool_decide (k = kind) then Some t else None end.
Proof.
  unfold first_of. induction fs as [|[k0 t0] fs IH]; cbn; [by destruct (bool_decide (k = kind))|].
  by destruct (bool_decide (k0 = kind)).
Qed.

Lemma aligned_state frames : aligned frames aligner_new = state_of (first_of Video frames) (first_of Audio frames).
Proof.
  induction frames as [|[k t] fs IH] using rev_ind; [done|]. unfold aligned in *. rewrite foldl_app, IH, !first_of_app.
  by destruct (first_of Video fs), (first_of Audio fs), k.
Qed.

(** Once both kinds are seen the first audio frame lies on the first video frame. *)
Theorem audio_meets_video frames v u :
  first_of Video frames = Some v -> first_of Audio frames = Some u -> in_i 64 v -> in_i 64 (u - v) ->
  adjust Audio u (aligned frames aligner_new) = v /\ forall t, adjust Video t (aligned frames aligner_new) = t.
Proof.
  intros V U Rv Rd. rewrite aligned_state, V, U. unfold adjust, state_of. cbn [synced negb sync_offset_us].
  rewrite (sat_i_small 64 (u - v)) by done. replace (u - (u - v)) with v by lia. by rewrite sat_i_small.
Qed.

(** ** The sorting window *)

Fixpoint window_run (pts : list Z) (g : SortingWindowDtsGenerator) : SortingWindowDtsGenerator * list Z :=
  match pts with
  | [] => (g, [])
  | p :: pts =>
      let '(g, o) := window_push p g in
      let '(g, out) := window_run pts g in
      (g, (match o with Some d => [d] | None => [] end) ++ out)
  end.

(** Outputs after [last], each larger than the one before. *)
Fixpoint rising (last : option Z) (out : list Z) : Prop :=
  match out with
  | [] => True
  | d :: out => (match last with Some l => l < d | None => True end) /\ rising (Some d) out
  end.

Definition last_of (g : SortingWindowDtsGenerator) : option Z :=
  if initialized g then Some (last_output_dts g) else None.

(** With room for [room] more outputs below the end of [i64]. *)
Definition window_bounded (room : nat) (g : SortingWindowDtsGenerator) : Prop :=
  Forall (fun p => - 2 ^ 63 <= p /\ p + Z.of_nat room < 2 ^ 63) (window g) /\
  (initialized g = true -> - 2 ^ 63 <= last_output_dts g /\ last_output_dts g + Z.of_nat room < 2 ^ 63).

Lemma list_min_in x l : list_min x l ∈ x :: l.
Proof.
  unfold list_min. induction l as [|y l IH]; [by left|]. cbn [foldr].
  destruct (Z.min_spec y (foldr Z.min x l)) as [[_ ->]|[_ ->]]; [right; left|].
  apply elem_of_cons in IH as [->|IH]; [by left|by right; right].
Qed.

Lemma next_dts_step room x l g w size :
  window_bounded (S room) g -> Forall (fun p => - 2 ^ 63 <= p /\ p + Z.of_nat (S room) < 2 ^ 63) (x :: l) ->
  Forall (fun p => - 2 ^ 63 <= p /\ p + Z.of_nat (S room) < 2 ^ 63) w ->
  let d := next_dts (list_min x l) g in
  (match last_of g with Some l => l < d | None => True end) /\ window_bounded room (mk_window w size d true).
Proof.
  intros [_ B] F W. pose proof (proj1 (Forall_forall _ _) F _ (list_min_in x l)) as M. cbn beta in M.
  unfold next_dts, last_of, window_bounded. cbn [window initialized last_output_dts].
  assert (W' : Forall (fun p => - 2 ^ 63 <= p /\ p + Z.of_nat room < 2 ^ 63) w).
  { eapply Forall_impl; [done|]. cbv beta. lia. }
  destruct (initialized g); [|split; [done|split; [done|lia]]].
  specialize (B eq_refl). rewrite wrap_i_small by (unfold in_i; cbn in *; lia). split; [lia|]. split; [done|lia].
Qed.

Lemma push_rising room p g :
  window_bounded (S room) g -> - 2 ^ 63 <= p /\ p + Z.of_nat (S room) < 2 ^ 63 ->
  let '(g', o) := window_push p g in
  window_bounded (match o with Some _ => room | None => S room end) g' /\
  (length (window g') + match o with Some _ => 1 | None => 0 end = S (length (window g)))%nat /\
  match o with
  | Some d => (match last_of g with Some l => l < d | None => True end) /\ last_of g' = Some d
  | None => last_of g' = last_of g
  end.
Proof.
  intros B P. unfold window_push. set (w := window g ++ [p]).
  assert (F : Forall (fun p => - 2 ^ 63 <= p /\ p + Z.of_nat (S room) < 2 ^ 63) w) by (apply Forall_app; split; [apply B|by constructor]).
  assert (Lw : length w = S (length (window g))) by (unfold w; rewrite length_app; cbn; lia).
  destruct (length w <? window_size g)%nat.
  - cbn [window]. split; [|split; [lia|done]]. destruct B as [_ B]. by split.
  - destruct w as [|x l]; [done|]. cbn [window length] in *. destruct (next_dts_step room x l g l (window_size g) B F) as [N B']; [by inversion F|].
    split; [done|]. split; [lia|]. by split.
Qed.

Lemma rising_app l0 out more :
  rising l0 (out ++ more) <-> rising l0 out /\ rising (match last out with Some d => Some d | None => l0 end) more.
Proof.
  revert l0. induction out as [|d out IH]; intros l0; [cbn; tauto|].
  cbn [app rising]. rewrite IH. destruct out as [|e out]; [cbn; tauto|].
  change (last (d :: e :: out)) with (last (e :: out)). destruct (last (e :: out)) eqn:E; [cbn; tauto|].
  by apply last_None in E.
Qed.

Lemma length_remove_first v w : v ∈ w -> S (length (remove_first v w)) = length w.
Proof.
  induction w as [|y w IH]; intros E; [by apply not_elem_of_nil in E|]. cbn. destruct (Z.eqb_spec y v); [done|].
  apply elem_of_cons in E as [->|E]; [done|]. cbn. by rewrite IH.
Qed.

Lemma remove_first_in v w y : y ∈ remove_first v w -> y ∈ w.
Proof.
  induction w as [|x w IH]; cbn; [done|]. destruct (x =? v); [by right|]. intros [->|E]%elem_of_cons; [by left|right; by apply IH].
Qed.

Lemma flush_rising fuel g :
  length (window g) = fuel -> window_bounded fuel g ->
  length (snd (flush_loop fuel g)) = fuel /\ rising (last_of g) (snd (flush_loop fuel g)).
Proof.
  revert g. induction fuel as [|fuel IH]; intros g L B; [done|].
  cbn [flush_loop]. destruct (window g) as [|x l] eqn:W; [done|].
  pose proof (list_min_in x l) as In. pose proof (length_remove_first _ _ In) as Lr. cbn [length] in L, Lr.
  set (w := remove_first (list_min x l) (x :: l)) in *.
  assert (F := proj1 B). rewrite W in F.
  assert (Fw : Forall (fun p => - 2 ^ 63 <= p /\ p + Z.of_nat (S fuel) < 2 ^ 63) w).
  { apply Forall_forall. intros y Y. exact (proj1 (Forall_forall _ _) F y (remove_first_in _ _ _ Y)). }
  destruct (next_dts_step fuel x l g w (window_size g) B F Fw) as [N B'].
  destruct (IH (mk_window w (window_size g) (next_dts (list_min x l) g) true)) as [L' R']; [change (length w = fuel); lia|done|].
  destruct (flush_loop fuel _) as [g' out]. cbn [snd length rising] in *. split; [lia|]. by split.
Qed.

(** Every frame gets a decode time, and decode times rise. *)
Theorem window_dts_rise size pts :
  Forall (fun p => - 2 ^ 63 <= p /\ p + Z.of_nat (length pts) < 2 ^ 63) pts ->
  let '(g, out) := window_run pts (window_new size) in
  let all := out ++ snd (window_flush g) in
  length all = length pts /\ rising None all.
Proof.
  intros F.
  assert (G : forall pts g, Forall (fun p => - 2 ^ 63 <= p /\ p + Z.of_nat (length pts + length (window g)) < 2 ^ 63) pts ->
    window_bounded (length pts + length (window g)) g ->
    let '(g', out) := window_run pts g in
    window_bounded (length (window g')) g' /\ (length out + length (window g') = length pts + length (window g))%nat /\
    rising (last_of g) out /\ last_of g' = match last out with Some d => Some d | None => last_of g end).
  { clear. induction pts as [|p pts IH]; intros g F B; [done|]. apply Forall_cons in F as [P F]. cbn [window_run length] in *.
    pose proof (push_rising (length pts + length (window g)) p g B P) as S. destruct (window_push p g) as [g1 o].
    destruct S as (B1 & L1 & O).
    destruct o as [d|].
    - specialize (IH g1). destruct (window_run pts g1) as [g2 out]. destruct IH as (B2 & L2 & R2 & E2).
      + eapply Forall_impl; [done|]. cbv beta. lia.
      + eapply (eq_ind _ (fun n => window_bounded n g1)); [exact B1|lia].
      + destruct O as [O1 O2]. rewrite O2 in *. cbn [app length rising]. split; [done|]. split; [lia|]. split; [done|].
        rewrite E2. destruct out; [done|]. change (last (d :: z :: out)) with (last (z :: out)).
        destruct (last (z :: out)) eqn:E; [done|by apply last_None in E].
    - specialize (IH g1). destruct (window_run pts g1) as [g2 out]. destruct IH as (B2 & L2 & R2 & E2).
      + eapply Forall_impl; [done|]. cbv beta. lia.
      + eapply (eq_ind _ (fun n => window_bounded n g1)); [exact B1|lia].
      + rewrite O in *. cbn [app]. split; [done|]. split; [lia|]. by split. }
  specialize (G pts (window_new size)). destruct (window_run pts (window_new size)) as [g out]. destruct G as (B & L & R & E).
  - cbn. by rewrite Nat.add_0_r.
  - cbn. split; [done|]. done.
  - cbn zeta. unfold window_flush. destruct (flush_rising _ g eq_refl B) as [Lf Rf].
    rewrite length_app, rising_app, Lf. cbn in L, R, E. split; [lia|]. split; [done|]. rewrite <- E. done.
Qed.

(** A frame that is shown before its neighbours gets a decode time after its presentation: of
    frames at 30, 10 and 20 the second, shown at 10, is decoded at 11. *)
Example decoded_after_shown :
  snd (window_run [30; 10; 20] (window_new 2)) = [10; 11] /\ snd (window_flush (fst (window_run [30; 10; 20] (window_new 2)))) = [20].
Proof. by vm_compute. Qed.

Lemma window_dts_rise_witness :
  let '(g, out) := window_run [0; 120; 40; 80; 240; 160; 200] (window_new 3) in
  let all := out ++ snd (window_flush g) in
  length all = 7%nat /\ rising None all.
Proof. exact (window_dts_rise 3 [0; 120; 40; 80; 240; 160; 200] ltac:(repeat constructor; done)). Defined.

Lemma audio_meets_video_witness :
  adjust Audio 1500 (aligned [(Audio, 1500); (Video, 1000); (Audio, 1600)] aligner_new) = 1000 /\
  forall t, adjust Video t (aligned [(Audio, 1500); (Video, 1000); (Audio, 1600)] aligner_new) = t.
Proof. apply audio_meets_video; [done|done|by vm_compute|by vm_compute]. Defined.
