(* ===== verification/FrameView.v ===== *)
(** * Views of a frame's payload

    Models [crates/foundation/cheetah-codec/src/frame_view.rs]: H.26x payloads as Annex B and
    with lengths in front, the tests by which the code tells the two apart, and the cache of
    views of a frame. Lengths are compared before they are taken as [usize]. *)
From Stdlib Require Import Strings.Byte.
From S2P Require Import Prelude RtmpBytes Codecs Rtp RtpH26x RtpH26xSpec Aac Tracks.

Definition looks_like_annexb (data : list byte) : bool :=
  if (length data <? 3)%nat then false
  else bool_decide (take 3 data = [x00; x00; x01]) || bool_decide (take 4 data = START_CODE).

(** A unit takes its length field at least. *)
Fixpoint scan_units (fuel : nat) (cursor : list byte) (unit_count : nat) : bool :=
  match fuel with
  | O => false
  | S fuel =>
      if (4 <=? length cursor)%nat then
        let size := be_val (take 4 cursor) in
        let cursor := drop 4 cursor in
        if (size =? 0) || (Z.of_nat (length cursor) <? size) then false
        else scan_units fuel (drop (Z.to_nat size) cursor) (S unit_count)
      else (0 <? unit_count)%nat && is_empty cursor
  end.
Definition looks_like_h26x_length_prefixed (data : list byte) : bool := scan_units (S (length data)) data 0.

Fixpoint annexb_loop (fuel : nat) (cursor : list byte) : list byte :=
  match fuel with
  | O => []
  | S fuel =>
      if (4 <=? length cursor)%nat then
        let size := be_val (take 4 cursor) in
        let cursor := drop 4 cursor in
        if (size =? 0) || (Z.of_nat (length cursor) <? size) then []
        else START_CODE ++ take (Z.to_nat size) cursor ++ annexb_loop fuel (drop (Z.to_nat size) cursor)
      else []
  end.

Definition convert_to_annexb (payload : list byte) : list byte :=
  if looks_like_annexb payload then payload
  else
    let out := annexb_loop (length payload) payload in
    if is_empty out then payload else out.

Definition fits_u32 (bytes : list byte) : bool := Z.of_nat (length bytes) <? 2 ^ 32.

Definition with_length (bytes : list byte) : list byte := be_bytes 4 (Z.of_nat (length bytes)) ++ bytes.

Definition convert_to_h26x_length_prefixed (payload : list byte) : list byte :=
  if is_empty payload then payload
  else if looks_like_h26x_length_prefixed payload then payload
  else
    let out := if looks_like_annexb payload
               then concat (map (fun u => if fits_u32 u then with_length u else []) (codec_split_annexb_units payload))
               else [] in
    if negb (is_empty out) then out
    else if fits_u32 payload then with_length payload else payload.

Definition h26x_length_prefixed_from_payload : list byte -> list byte := convert_to_h26x_length_prefixed.
Definition annexb_from_payload : list byte -> list byte := convert_to_annexb.

(** ** The cache

    Of a frame the views read the codec and the payload. A view is computed when it is asked
    for first. *)

Record FrameViewCache : Set := mk_views {
  v_annexb : option (list byte);
  v_length_prefixed : option (list byte);
  v_adts : option (list byte)
}.
Definition views_default : FrameViewCache := mk_views None None None.

Definition is_h26x (codec : CodecId) : bool := bool_decide (codec = H264 \/ codec = H265 \/ codec = H266).

Definition view_annexb (codec : CodecId) (payload : list byte) (c : FrameViewCache) : FrameViewCache * list byte :=
  if negb (is_h26x codec) then (c, payload)
  else
    let v := default (convert_to_annexb payload) (v_annexb c) in
    (mk_views (Some v) (v_length_prefixed c) (v_adts c), v).

Definition view_length_prefixed (codec : CodecId) (payload : list byte) (c : FrameViewCache) :
    FrameViewCache * list byte :=
  if negb (is_h26x codec) then (c, payload)
  else
    let v := default (convert_to_h26x_length_prefixed payload) (v_length_prefixed c) in
    (mk_views (v_annexb c) (Some v) (v_adts c), v).

Definition view_adts (codec : CodecId) (payload : list byte) (asc : option AacAudioSpecificConfig) (c : FrameViewCache) :
    FrameViewCache * list byte :=
  if negb (bool_decide (codec = AAC)) then (c, payload)
  else
    match asc with
    | None => (c, payload)
    | Some asc =>
        let v := default (adts_wrap payload asc) (v_adts c) in
        (mk_views (v_annexb c) (v_length_prefixed c) (Some v), v)
    end.

(** ** There and back *)

Definition length_prefixed (units : list (list byte)) : list byte := concat (map with_length units).

(** A unit that is not empty, with a length of 32 bits. *)
Definition unit_fits (u : list byte) : Prop := u <> [] /\ Z.of_nat (length u) < 2 ^ 32.

Lemma read_length u rest :
  unit_fits u ->
  let cursor := with_length u ++ rest in
  (4 <=? length cursor)%nat = true /\ be_val (take 4 cursor) = Z.of_nat (length u) /\ drop 4 cursor = u ++ rest /\
  ((Z.of_nat (length u) =? 0) || (Z.of_nat (length (u ++ rest)) <? Z.of_nat (length u))) = false.
Proof.
  intros [Ne L]. cbv zeta. unfold with_length. rewrite <- app_assoc.
  assert (length u <> 0%nat) by by destruct u.
  split; [|split; [|split]].
  - by rewrite length_app, length_be_bytes.
  - pose proof (length_be_bytes 4 (Z.of_nat (length u))) as E. rewrite <- E at 1. rewrite take_app_length.
    rewrite be_val_bytes. apply wrap_u_small. unfold in_u. cbn. lia.
  - done.
  - rewrite length_app, (proj2 (Z.eqb_neq _ _)), (proj2 (Z.ltb_ge _ _)) by lia. done.
Qed.

Lemma scan_length_prefixed units fuel n :
  Forall unit_fits units -> (length units < fuel)%nat -> (0 < n + length units)%nat ->
  scan_units fuel (length_prefixed units) n = true.
Proof.
  revert fuel n. induction units as [|u units IH]; intros [|fuel] n F L N; cbn [length] in *; try lia.
  - cbn. by destruct n; [lia|].
  - apply Forall_cons in F as [Fu F]. cbn [scan_units]. change (length_prefixed (u :: units)) with (with_length u ++ length_prefixed units).
    destruct (read_length u (length_prefixed units) Fu) as (-> & -> & -> & ->).
    rewrite Nat2Z.id, drop_app_length. apply IH; [done|lia..].
Qed.

Lemma annexb_loop_units units fuel :
  Forall unit_fits units -> (length units <= fuel)%nat ->
  annexb_loop fuel (length_prefixed units) = concat (map (fun u => START_CODE ++ u) units).
Proof.
  revert fuel. induction units as [|u units IH]; intros fuel F L; [by destruct fuel|].
  destruct fuel as [|fuel]; cbn [length] in L; [lia|]. apply Forall_cons in F as [Fu F]. cbn [annexb_loop].
  change (length_prefixed (u :: units)) with (with_length u ++ length_prefixed units).
  destruct (read_length u (length_prefixed units) Fu) as (-> & -> & -> & ->).
  rewrite Nat2Z.id, take_app_length, drop_app_length, IH by (done || lia). cbn [map concat]. by rewrite <- app_assoc.
Qed.

Lemma units_short units : Forall unit_fits units -> (length units <= length (length_prefixed units))%nat.
Proof.
  induction 1 as [|u units _ F IH]; [done|]. change (length_prefixed (u :: units)) with (with_length u ++ length_prefixed units).
  rewrite length_app. unfold with_length. rewrite length_app, length_be_bytes. cbn [length]. lia.
Qed.

(** A first length that reads like a start code. *)
Definition start_code_length (u : list byte) : bool :=
  let n := length u in (n =? 1)%nat || ((256 <=? n) && (n <? 512))%nat.

Lemma with_length_head (u rest : list byte) :
  Z.of_nat (length u) < 2 ^ 32 ->
  exists b0 b1 b2 b3, with_length u ++ rest = b0 :: b1 :: b2 :: b3 :: u ++ rest /\
    byte_val b0 = Z.of_nat (length u) / 2 ^ 24 /\ byte_val b1 = Z.of_nat (length u) / 2 ^ 16 mod 256 /\
    byte_val b2 = Z.of_nat (length u) / 2 ^ 8 mod 256 /\ byte_val b3 = Z.of_nat (length u) mod 256.
Proof.
  intros L. unfold with_length. cbn [be_bytes app]. eexists _, _, _, _. split; [done|]. rewrite !byte_val_of, !Z.shiftr_div_pow2 by lia.
  change (Z.of_nat 3) with 3. change (Z.of_nat 2) with 2. change (Z.of_nat 1) with 1. change (Z.of_nat 0) with 0.
  change (2 ^ (8 * 3)) with 16777216. change (2 ^ (8 * 2)) with 65536. change (2 ^ (8 * 1)) with 256. change (2 ^ (8 * 0)) with 1.
  change (2 ^ 24) with 16777216. change (2 ^ 16) with 65536. change (2 ^ 8) with 256. change (2 ^ 32) with 4294967296 in L.
  pose proof (Nat2Z.is_nonneg (length u)). repeat split; zdm.
Qed.

(** Whether a payload with lengths is taken for Annex B is a matter of its first length. *)
Lemma starts_like_annexb u rest :
  unit_fits u -> looks_like_annexb (with_length u ++ rest) = start_code_length u.
Proof.
  intros [Ne L]. assert (length u <> 0%nat) by by destruct u.
  destruct (with_length_head u rest L) as (b0 & b1 & b2 & b3 & -> & V0 & V1 & V2 & V3).
  unfold looks_like_annexb, start_code_length. replace (length _ <? 3)%nat with false by done.
  cbn [take]. change (take 0 (u ++ rest)) with (@nil byte).
  assert (Bv : forall a b : byte, byte_val a = byte_val b -> a = b).
  { intros a b E. by rewrite <- (byte_of_val a), <- (byte_of_val b), E. }
  change (2 ^ 24) with 16777216 in *. change (2 ^ 16) with 65536 in *. change (2 ^ 8) with 256 in *. change (2 ^ 32) with 4294967296 in *.
  destruct (Nat.eqb_spec (length u) 1) as [E1|E1].
  - rewrite E1 in *. rewrite (Bv b0 x00 V0), (Bv b1 x00 V1), (Bv b2 x00 V2), (Bv b3 x01 V3). done.
  - destruct (Nat.leb_spec 256 (length u)) as [E2|E2]; [destruct (Nat.ltb_spec (length u) 512) as [E3|E3]|].
    + rewrite (Bv b0 x00), (Bv b1 x00), (Bv b2 x01); [done|rewrite V2; cbn; zdm|rewrite V1; cbn; zdm|rewrite V0; cbn; zdm].
    + rewrite !bool_decide_false; [done|intros [= -> -> -> ->]|intros [= -> -> ->]]; cbn in *; zdm.
    + rewrite !bool_decide_false; [done|intros [= -> -> -> ->]|intros [= -> -> ->]]; cbn in *; zdm.
Qed.

(** Lengths to start codes, unless the first length reads like one. *)
Lemma annexb_of_length_prefixed u us :
  Forall unit_fits (u :: us) ->
  convert_to_annexb (length_prefixed (u :: us)) =
    if start_code_length u then length_prefixed (u :: us) else annexb (u :: us).
Proof.
  intros F. pose proof (Forall_inv F) as Fu. unfold convert_to_annexb.
  change (length_prefixed (u :: us)) with (with_length u ++ length_prefixed us) at 1. rewrite starts_like_annexb by done.
  destruct (start_code_length u); [done|]. rewrite annexb_loop_units by (done || by apply units_short). done.
Qed.

Lemma lengths_kept units :
  Forall unit_fits units -> units <> [] -> convert_to_h26x_length_prefixed (length_prefixed units) = length_prefixed units.
Proof.
  intros F N. unfold convert_to_h26x_length_prefixed. destruct (is_empty (length_prefixed units)); [done|].
  unfold looks_like_h26x_length_prefixed. rewrite scan_length_prefixed; [done|done| |].
  - pose proof (units_short units F). lia.
  - destruct units; [done|cbn; lia].
Qed.

(** The second byte of a unit is not zero; it is the first length byte that the scan finds in
    Annex B after the start code. *)
Definition second_byte (u : list byte) : Prop := match u with _ :: b :: _ => b <> x00 | _ => False end.

#[export] Instance second_byte_dec u : Decision (second_byte u).
Proof. destruct u as [|? [|]]; apply _. Defined.

Lemma scan_step fuel c0 c1 c2 c3 rest n :
  scan_units (S fuel) (c0 :: c1 :: c2 :: c3 :: rest) n =
    let size := be_val [c0; c1; c2; c3] in
    if (size =? 0) || (Z.of_nat (length rest) <? size) then false
    else scan_units fuel (drop (Z.to_nat size) rest) (S n).
Proof. done. Qed.

Lemma not_taken_for_lengths u us :
  second_byte u -> Z.of_nat (length (annexb (u :: us))) < 2 ^ 24 -> looks_like_h26x_length_prefixed (annexb (u :: us)) = false.
Proof.
  destruct u as [|b0 [|b1 u]]; [done..|]. intros N L. set (rest := u ++ annexb us).
  change (annexb ((b0 :: b1 :: u) :: us)) with (x00 :: x00 :: x00 :: x01 :: b0 :: b1 :: rest) in *.
  unfold looks_like_h26x_length_prefixed. change (length (x00 :: x00 :: x00 :: x01 :: b0 :: b1 :: rest)) with (S (S (S (S (S (S (length rest))))))) in *.
  rewrite scan_step. cbv zeta. change (be_val [x00; x00; x00; x01]) with 1. rewrite (proj2 (Z.ltb_ge _ 1)) by (cbn [length]; lia).
  change (drop (Z.to_nat 1) (b0 :: b1 :: rest)) with (b1 :: rest). cbn [Z.eqb orb].
  destruct rest as [|c1 [|c2 [|c3 rest']]]; [done..|]. rewrite scan_step. cbv zeta. cbn [length] in L.
  assert (B : 2 ^ 24 <= be_val [b1; c1; c2; c3]).
  { assert (byte_val b1 <> 0) by (intros E; apply N; by rewrite <- (byte_of_val b1), E).
    rewrite be_val_cons. pose proof (byte_val_range b1). pose proof (be_val_range [c1; c2; c3]) as R. cbn [length] in *.
    change (2 ^ (8 * Z.of_nat 3)) with 16777216 in *. change (2 ^ 24) with 16777216. lia. }
  rewrite (proj2 (Z.eqb_neq _ _)), (proj2 (Z.ltb_lt _ _)) by lia. done.
Qed.

Lemma clean_fits units : Forall clean units -> Z.of_nat (length (annexb units)) < 2 ^ 24 -> Forall unit_fits units.
Proof.
  induction 1 as [|u us [Ne _] _ IH]; intros L; [done|].
  change (annexb (u :: us)) with (START_CODE ++ u ++ annexb us) in L. rewrite !length_app in L.
  constructor; [split; [done|cbn in *; lia]|apply IH; lia].
Qed.

(** Start codes to lengths. *)
Lemma length_prefixed_of_annexb u us :
  Forall clean (u :: us) -> second_byte u -> Z.of_nat (length (annexb (u :: us))) < 2 ^ 24 ->
  convert_to_h26x_length_prefixed (annexb (u :: us)) = length_prefixed (u :: us).
Proof.
  intros C S L. pose proof (clean_fits _ C L) as F. unfold convert_to_h26x_length_prefixed.
  rewrite (not_taken_for_lengths u us S L). change (is_empty (annexb (u :: us))) with false.
  change (looks_like_annexb (annexb (u :: us))) with true. cbv iota. unfold codec_split_annexb_units. rewrite split_annexb by done.
  assert (E : forall units, Forall unit_fits units ->
    concat (map (fun u => if fits_u32 u then with_length u else []) units) = length_prefixed units).
  { induction 1 as [|v vs [_ Lv] _ IH]; [done|]. cbn [map concat]. unfold fits_u32 at 1. rewrite (proj2 (Z.ltb_lt _ _) Lv).
    by rewrite IH. }
  by rewrite E by done.
Qed.
