(* ===== verification/Flv.v ===== *)
(** * FLV files

    Models [crates/foundation/cheetah-codec/src/flv.rs]: the file header, tags, the streaming
    demuxer, the sequence headers of tracks, and the H.264 decoder configuration record with
    the bits of an SPS that its extension takes. [usize] has 64 bits. *)
From Stdlib Require Import Strings.Byte.
From S2P Require Import Prelude RtmpBytes Codecs Rtp Aac Tracks.
Local Open Scope string_scope.
Local Open Scope list_scope.
Local Open Scope Z_scope.

Definition FLV_TAG_DATA_LEN_MAX : Z := 0xFFFFFF.
Definition FLV_DEMUX_DEFAULT_MAX_BUFFER_BYTES : Z := 4 * 1024 * 1024.

Inductive FlvTagType : Set := TagAudio | TagVideo | TagScript.

#[export] Instance FlvTagType_eq_dec : EqDecision FlvTagType.
Proof. solve_decision. Defined.

Definition tag_type_to_u8 (t : FlvTagType) : Z :=
  match t with TagAudio => 8 | TagVideo => 9 | TagScript => 18 end.

Definition tag_type_from_u8 (v : Z) : option FlvTagType :=
  if v =? 8 then Some TagAudio else if v =? 9 then Some TagVideo else if v =? 18 then Some TagScript else None.

Inductive FlvStreamError : Set :=
| InvalidHeaderSignature
| UnsupportedHeaderVersion (version : Z)
| InvalidHeaderDataOffset (data_offset : Z)
| Truncated (context : string) (expected_at_least actual : Z)
| InvalidTagType (raw : Z)
| TagPayloadTooLarge (declared max_allowed : Z)
| DemuxBufferTooLarge (buffered max_allowed : Z).

(** ** The file header *)

Record FlvHeader : Set := mk_flv_header { has_audio : bool; has_video : bool }.

Definition flv_header_encode (h : FlvHeader) : list byte :=
  let flags := Z.lor (if has_audio h then 0x04 else 0) (if has_video h then 0x01 else 0) in
  [x46; x4c; x56; x01; byte_of flags] ++ be_bytes 4 9 ++ be_bytes 4 0.

Definition flv_len (raw : list byte) : Z := Z.of_nat (length raw).

Definition flv_parse_prefix (raw : list byte) : result FlvStreamError (FlvHeader * Z) :=
  if flv_len raw <? 9 then Err (Truncated "flv file header" 9 (flv_len raw))
  else if negb (bool_decide (take 3 raw = [x46; x4c; x56])) then Err InvalidHeaderSignature
  else if negb (at_ raw 3 =? 1) then Err (UnsupportedHeaderVersion (at_ raw 3))
  else
    let flags := at_ raw 4 in
    let data_offset := be_val (sub_ 5 4 raw) in
    if data_offset <? 9 then Err (InvalidHeaderDataOffset data_offset)
    else
      let needed := data_offset + 4 in
      if flv_len raw <? needed then Err (Truncated "flv full header" needed (flv_len raw))
      else Ok (mk_flv_header (negb (Z.land flags 0x04 =? 0)) (negb (Z.land flags 0x01 =? 0)), needed).

Definition flv_header_parse (raw : list byte) : result FlvStreamError FlvHeader :=
  parsed <-? flv_parse_prefix raw ;; Ok (fst parsed).

(** ** Tags *)

Record FlvTag : Set := mk_tag { tag_type : FlvTagType; timestamp_ms : Z; payload : list byte }.

Definition flv_tag_encode (t : FlvTag) : list byte :=
  let data_len := Z.min (flv_len (payload t)) FLV_TAG_DATA_LEN_MAX in
  [byte_of (tag_type_to_u8 (tag_type t));
   byte_of (Z.land (Z.shiftr data_len 16) 0xff); byte_of (Z.land (Z.shiftr data_len 8) 0xff);
   byte_of (Z.land data_len 0xff);
   byte_of (Z.land (Z.shiftr (timestamp_ms t) 16) 0xff); byte_of (Z.land (Z.shiftr (timestamp_ms t) 8) 0xff);
   byte_of (Z.land (timestamp_ms t) 0xff); byte_of (Z.land (Z.shiftr (timestamp_ms t) 24) 0xff);
   x00; x00; x00] ++ take (Z.to_nat data_len) (payload t).

Definition encode_with_previous_tag_size (t : FlvTag) : list byte :=
  flv_tag_encode t ++ be_bytes 4 (flv_len (flv_tag_encode t)).

(** The length and the time of a tag header. *)
Definition tag_data_len (raw : list byte) : Z :=
  Z.lor (Z.lor (Z.shiftl (at_ raw 1) 16) (Z.shiftl (at_ raw 2) 8)) (at_ raw 3).
Definition tag_timestamp (raw : list byte) : Z :=
  Z.lor (Z.lor (Z.lor (Z.shiftl (at_ raw 7) 24) (Z.shiftl (at_ raw 4) 16)) (Z.shiftl (at_ raw 5) 8)) (at_ raw 6).

Definition flv_tag_parse (raw : list byte) : option FlvTag :=
  if flv_len raw <? 11 then None
  else
    ty ← tag_type_from_u8 (at_ raw 0);
    if flv_len raw <? 11 + tag_data_len raw then None
    else Some (mk_tag ty (tag_timestamp raw) (sub_ 11 (Z.to_nat (tag_data_len raw)) raw)).

(** ** The demuxer *)

Inductive FlvDemuxEvent : Set :=
| FlvHeaderSeen (h : FlvHeader)
| FlvTagSeen (t : FlvTag)
| PreviousTagSizeMismatch (expected actual : Z).

Record FlvDemuxer : Set := mk_flv_demuxer {
  flv_buffer : list byte;
  header_parsed : bool;
  max_buffer_bytes : Z
}.

Definition flv_demuxer_new (max_buffer_bytes : Z) : FlvDemuxer := mk_flv_demuxer [] false (Z.max max_buffer_bytes 13).

Definition flv_reset (d : FlvDemuxer) : FlvDemuxer := mk_flv_demuxer [] false (max_buffer_bytes d).

(** One turn of the loop of [parse_buffer] on the rest of the buffer. *)
Inductive TagTurn : Set :=
| NeedMore
| Bad (e : FlvStreamError)
| Took (events : list FlvDemuxEvent) (rest : list byte).

Definition tag_turn (max : Z) (raw : list byte) : TagTurn :=
  if flv_len raw <? 15 then NeedMore
  else
    match tag_type_from_u8 (at_ raw 0) with
    | None => Bad (InvalidTagType (at_ raw 0))
    | Some ty =>
        let payload_len := tag_data_len raw in
        if max <? payload_len then Bad (TagPayloadTooLarge payload_len max)
        else
          let tag_total := 11 + payload_len + 4 in
          if flv_len raw <? tag_total then NeedMore
          else
            let n := Z.to_nat payload_len in
            let prev := be_val (sub_ (11 + n) 4 raw) in
            let expected := 11 + payload_len in
            Took (FlvTagSeen (mk_tag ty (tag_timestamp raw) (sub_ 11 n raw))
                    :: (if prev =? expected then [] else [PreviousTagSizeMismatch expected prev]))
              (drop (Z.to_nat tag_total) raw)
    end.

(** Every turn that goes on takes a tag off the buffer. *)
Fixpoint tags_loop (fuel : nat) (max : Z) (raw : list byte) : result FlvStreamError (list FlvDemuxEvent * list byte) :=
  match fuel with
  | O => Ok ([], raw)
  | S fuel =>
      match tag_turn max raw with
      | NeedMore => Ok ([], raw)
      | Bad e => Err e
      | Took evs rest =>
          match tags_loop fuel max rest with
          | Ok (more, rest) => Ok (evs ++ more, rest)
          | Err e => Err e
          end
      end
  end.

Definition parse_tags (max : Z) (raw : list byte) : result FlvStreamError (list FlvDemuxEvent * list byte) :=
  tags_loop (S (length raw)) max raw.

(** A header that is refused leaves the buffer as it is; an error among the tags resets the
    demuxer. *)
Definition parse_buffer (d : FlvDemuxer) : FlvDemuxer * result FlvStreamError (list FlvDemuxEvent) :=
  let after_header (events : list FlvDemuxEvent) (raw : list byte) :=
    match parse_tags (max_buffer_bytes d) raw with
    | Ok (more, rest) => (mk_flv_demuxer rest true (max_buffer_bytes d), Ok (events ++ more))
    | Err e => (flv_reset d, Err e)
    end in
  if header_parsed d then after_header [] (flv_buffer d)
  else if flv_len (flv_buffer d) <? 13 then (d, Ok [])
  else
    match flv_parse_prefix (flv_buffer d) with
    | Err e => (d, Err e)
    | Ok (header, consumed) => after_header [FlvHeaderSeen header] (drop (Z.to_nat consumed) (flv_buffer d))
    end.

Definition flv_push (chunk : list byte) (d : FlvDemuxer) : FlvDemuxer * result FlvStreamError (list FlvDemuxEvent) :=
  let next_len := flv_len (flv_buffer d) + flv_len chunk in
  if max_buffer_bytes d <? next_len then (flv_reset d, Err (DemuxBufferTooLarge next_len (max_buffer_bytes d)))
  else parse_buffer (mk_flv_demuxer (flv_buffer d ++ chunk) (header_parsed d) (max_buffer_bytes d)).

(** ** The H.264 decoder configuration record *)

Fixpoint remove_emulation (zero_run : nat) (payload : list byte) : list byte :=
  match payload with
  | [] => []
  | b :: payload =>
      if (2 <=? zero_run)%nat && bool_decide (b = x03) then remove_emulation 0 payload
      else b :: remove_emulation (if bool_decide (b = x00) then S zero_run else 0%nat) payload
  end.
Definition remove_h264_emulation_prevention (payload : list byte) : list byte := remove_emulation 0 payload.

Record H264BitReader : Set := mk_h264_bits { h264_data : list byte; h264_offset : nat }.

Definition h264_read_bit (r : H264BitReader) : option (Z * H264BitReader) :=
  b ← h264_data r !! (h264_offset r / 8)%nat;
  Some (Z.land (Z.shiftr (byte_val b) (7 - Z.of_nat (h264_offset r mod 8))) 1,
        mk_h264_bits (h264_data r) (S (h264_offset r))).

Fixpoint h264_bits_loop (n : nat) (out : Z) (r : H264BitReader) : option (Z * H264BitReader) :=
  match n with
  | O => Some (out, r)
  | S n => '(b, r) ← h264_read_bit r; h264_bits_loop n (Z.lor (wrap_u 32 (Z.shiftl out 1)) b) r
  end.
Definition h264_read_bits (n : nat) (r : H264BitReader) : option (Z * H264BitReader) :=
  if (32 <? n)%nat then None else h264_bits_loop n 0 r.

(** At most 32 zeroes are read. *)
Fixpoint leading_zeros (fuel zeros : nat) (r : H264BitReader) : option (nat * H264BitReader) :=
  match fuel with
  | O => None
  | S fuel =>
      '(b, r) ← h264_read_bit r;
      if b =? 0 then if (31 <? S zeros)%nat then None else leading_zeros fuel (S zeros) r
      else Some (zeros, r)
  end.
Definition h264_read_ue (r : H264BitReader) : option (Z * H264BitReader) :=
  '(zeros, r) ← leading_zeros 33 0 r;
  if (zeros =? 0)%nat then Some (0, r)
  else '(suffix, r) ← h264_read_bits zeros r; Some (2 ^ Z.of_nat zeros - 1 + suffix, r).

Definition extended_profiles : list Z := [100; 110; 122; 144; 244; 44; 83; 86; 118; 128; 138; 139; 134; 135].

Definition build_h264_avcc_extension_fields (sps : list byte) : option (list byte) :=
  b ← sps !! 1%nat;
  if negb (bool_decide (byte_val b ∈ extended_profiles)) then None
  else
    let rbsp := remove_h264_emulation_prevention (drop 1 sps) in
    '(_, r) ← h264_read_bits 8 (mk_h264_bits rbsp 0);
    '(_, r) ← h264_read_bits 8 r;
    '(_, r) ← h264_read_bits 8 r;
    '(_, r) ← h264_read_ue r;
    '(chroma, r) ← h264_read_ue r;
    let chroma_format_idc := wrap_u 8 chroma in
    '(_, r) ← (if chroma_format_idc =? 3 then h264_read_bits 1 r else Some (0, r));
    '(luma, r) ← h264_read_ue r;
    '(depth, r) ← h264_read_ue r;
    Some [byte_of (Z.lor 0xFC (Z.land chroma_format_idc 0x03)); byte_of (Z.lor 0xF8 (Z.land (wrap_u 8 luma) 0x07));
          byte_of (Z.lor 0xF8 (Z.land (wrap_u 8 depth) 0x07)); x00].

(** A parameter set after its length as [u16]. *)
Definition counted_set (s : list byte) : list byte := be_bytes 2 (Z.of_nat (length s)) ++ s.

Definition build_h264_avcc_from_parameter_sets (sps pps : list (list byte)) : option (list byte) :=
  first_sps ← head sps;
  if is_empty first_sps || is_empty pps || existsb is_empty pps then None
  else if existsb is_empty sps then None
  else
    Some ([x01; nth 1 first_sps x00; nth 2 first_sps x00; nth 3 first_sps x00; xff;
           byte_of (Z.lor 0xE0 (Z.of_nat (Nat.min (length sps) 0x1F)))]
          ++ concat (map counted_set (take 0x1F sps))
          ++ [byte_of (Z.of_nat (Nat.min (length pps) 255))]
          ++ concat (map counted_set (take 255 pps))
          ++ default [] (build_h264_avcc_extension_fields first_sps)).

Fixpoint read_sets (n : nat) (cursor : list byte) : option (list (list byte) * list byte) :=
  match n with
  | O => Some ([], cursor)
  | S n =>
      if (length cursor <? 2)%nat then None
      else
        let len := Z.to_nat (be_val (take 2 cursor)) in
        let cursor := drop 2 cursor in
        if (length cursor <? len)%nat then None
        else '(sets, rest) ← read_sets n (drop len cursor); Some (take len cursor :: sets, rest)
  end.

Definition parse_avcc_parameter_sets (avcc : list byte) : list (list byte) * list (list byte) :=
  if (length avcc <? 7)%nat then ([], [])
  else
    match read_sets (Z.to_nat (Z.land (at_ avcc 5) 0x1f)) (drop 6 avcc) with
    | None => ([], [])
    | Some (sps, []) => (sps, [])
    | Some (sps, pps_count :: rest) =>
        match read_sets (Z.to_nat (byte_val pps_count)) rest with
        | None => ([], [])
        | Some (pps, _) => (sps, pps)
        end
    end.

(** ** Sequence headers *)

Definition build_video_sequence_header (t : TrackInfo) : option FlvTag :=
  match codec t, extradata t with
  | H264, ExH264 sps pps avcc =>
      record ← match avcc with Some _ => avcc | None => build_h264_avcc_from_parameter_sets sps pps end;
      Some (mk_tag TagVideo 0 ([x17; x00; x00; x00; x00] ++ record))
  | H265, ExH265 _ _ _ (Some hvcc) => Some (mk_tag TagVideo 0 ([x1c; x00; x00; x00; x00] ++ hvcc))
  | _, _ => None
  end.

Definition build_audio_sequence_header (t : TrackInfo) : option FlvTag :=
  match codec t, extradata t with
  | AAC, ExAAC asc => Some (mk_tag TagAudio 0 ([xaf; x00] ++ asc))
  | _, _ => None
  end.
