(* ===== verification/FlvEgress.v ===== *)
(** * Frames to FLV payloads

    Models [crates/foundation/cheetah-codec/src/flv_egress.rs]: the payloads that start
    playback, the payload of a frame, and the script data of [onMetaData]; and from
    [protocols/http-flv/module/src/module.rs] how payloads become tags. RTMP and HTTP-FLV
    share these payloads. Text is its bytes, an [f64] its bits. Of a frame the model keeps
    what the mappers read and write. *)
From Stdlib Require Import Strings.Byte.
From S2P Require Import Prelude Timeline EngineTypes RtmpBytes Amf Amf3 Amf3Roundtrip Amf0 AmfValue RtmpCommand Codecs Rtp Egress RtpH26x Aac Tracks FrameView Flv.
Local Open Scope string_scope.
Local Open Scope list_scope.
Local Open Scope Z_scope.

(** [SourceTimestamp::Rtmp]: raw and unwrapped. *)
Record FlvFrame : Set := mk_flv_frame {
  f_track_id : Z;
  f_media_kind : MediaKind;
  f_codec : CodecId;
  f_pts : Z;
  f_dts : Z;
  f_timebase : Timebase;
  f_flags : Z;
  f_payload : list byte;
  f_source_timestamp : option (Z * Z)
}.

Definition f_is_key (f : FlvFrame) : bool := contains (f_flags f) FLAG_KEY.

Definition frame_dts_to_rtmp_timestamp_ms (f : FlvFrame) : Z := dts_to_rtmp_timestamp_ms (f_dts f) (f_timebase f).
Definition frame_composition_time_ms (f : FlvFrame) : Z := composition_time_ms (f_pts f) (f_dts f) (f_timebase f).

Inductive RtmpFlvPlayMode : Set := Normal | Enhanced.
Inductive RtmpFlvPayloadKind : Set := KindAudio | KindVideo | KindData.

#[export] Instance RtmpFlvPlayMode_eq_dec : EqDecision RtmpFlvPlayMode.
Proof. solve_decision. Defined.

Record RtmpFlvPayload : Set := mk_payload { pl_kind : RtmpFlvPayloadKind; pl_timestamp_ms : Z; pl_bytes : list byte }.

(** ** Small parts *)

Definition track_list_has_audio (tracks : list TrackInfo) : bool :=
  existsb (fun t => bool_decide (media_kind t = Audio)) tracks.

Definition rtmp_playback_codec_supported (kind : MediaKind) (codec : CodecId) : bool :=
  match kind, codec with
  | Video, (H264 | H265 | H266 | AV1 | VP8 | VP9) => true
  | Audio, (AAC | MP3 | G711A | G711U | ADPCM | Opus) => true
  | _, _ => false
  end.

Definition mute_aac_config_payload : list byte := [xaf; x00; x12; x10].
Definition mute_aac_frame_payload : list byte := [xaf; x01; x00].

Definition use_enhanced_video_mode (mode : RtmpFlvPlayMode) (codec : CodecId) : bool :=
  bool_decide (mode = Enhanced) || bool_decide (codec = H265 \/ codec = AV1 \/ codec = VP8 \/ codec = VP9).

Definition build_video_config_payload (codec : CodecId) (config : list byte) (mode : RtmpFlvPlayMode) : option (list byte) :=
  if use_enhanced_video_mode mode codec then
    fourcc ← rtmp_fourcc_from_codec codec; Some ([x90] ++ be_bytes 4 fourcc ++ config)
  else
    codec_id ← rtmp_codec_id_from_codec codec;
    Some ([byte_of (Z.lor 0x10 codec_id); x00; x00; x00; x00] ++ config).

(** ** Decoder configurations *)

Definition counted_units (header : Z) (units : list (list byte)) : list byte :=
  if is_empty units then []
  else [byte_of header] ++ be_bytes 2 (Z.of_nat (length units)) ++ concat (map counted_set units).

Definition append_h265_hvcc_array (nalu_type : Z) (units : list (list byte)) : list byte :=
  counted_units (Z.lor (Z.shiftl 1 7) (Z.land nalu_type 0x3f)) units.
Definition append_h266_vvcc_array (nalu_type : Z) (units : list (list byte)) : list byte :=
  counted_units (Z.lor (Z.shiftl 1 7) (Z.land nalu_type 0x1f)) units.

Definition array_count (vps sps pps : list (list byte)) : Z :=
  (if is_empty vps then 0 else 1) + (if is_empty sps then 0 else 1) + (if is_empty pps then 0 else 1).

Definition build_h266_config (vps sps pps : list (list byte)) : list byte :=
  if array_count vps sps pps =? 0 then []
  else [byte_of (Z.lor (Z.shiftl 0x1f 3) (Z.shiftl 0x03 1)); byte_of (array_count vps sps pps)]
         ++ append_h266_vvcc_array 14 vps ++ append_h266_vvcc_array 15 sps ++ append_h266_vvcc_array 16 pps.

Definition build_h265_config (vps sps pps : list (list byte)) : list byte :=
  if array_count vps sps pps =? 0 then []
  else [x01; x01; x00; x00; x00; x00; x00; x00; x00; x00; x00; x00; x00; xf0; x00; xfc; xfc; xf8; xf8; x00; x00; x0f;
        byte_of (array_count vps sps pps)]
         ++ append_h265_hvcc_array 32 vps ++ append_h265_hvcc_array 33 sps ++ append_h265_hvcc_array 34 pps.

Definition build_enhanced_opus_audio_payload (packet_header : Z) (body : list byte) : list byte :=
  [byte_of packet_header] ++ lit "Opus" ++ body.

Definition le_bytes (n : nat) (z : Z) : list byte := rev (be_bytes n z).

Definition build_opus_head (t : TrackInfo) : list byte :=
  let chans := Z.max 1 (Z.min (default 2 (channels t)) 255) in
  let rate := Z.max (default (clock_rate t) (sample_rate t)) 1 in
  lit "OpusHead" ++ [x01; byte_of chans] ++ le_bytes 2 312 ++ le_bytes 4 rate ++ le_bytes 2 0 ++ [x00].

Definition build_opus_sequence_header (t : TrackInfo) : list byte :=
  build_enhanced_opus_audio_payload 0x90 (build_opus_head t).

(** ** Payloads of H.26x *)

Definition avcc_nal_length_size (avcc : list byte) : option nat :=
  if (length avcc <? 5)%nat then None else Some (Z.to_nat (Z.land (at_ avcc 4) 0x03 + 1)).
Definition hvcc_nal_length_size (hvcc : list byte) : option nat :=
  if (length hvcc <? 22)%nat then None else Some (Z.to_nat (Z.land (at_ hvcc 21) 0x03 + 1)).

Definition h26x_nal_length_size_from_track (t : TrackInfo) : option nat :=
  match codec t, extradata t with
  | H264, ExH264 _ _ (Some avcc) => avcc_nal_length_size avcc
  | H265, ExH265 _ _ _ (Some hvcc) => hvcc_nal_length_size hvcc
  | _, _ => None
  end.

Definition normalize_nal_length_size (n : nat) : nat := match n with 1 | 2 | 4 => n | _ => 4 end%nat.

(** [read_nal_length] at the head of the cursor, and the loop. A turn takes the length field at
    least. *)
Fixpoint split_units_loop (fuel n : nat) (cursor : list byte) : option (list (list byte)) :=
  match fuel with
  | O => None
  | S fuel =>
      if (n <=? length cursor)%nat then
        let nal_len := be_val (take n cursor) in
        let cursor := drop n cursor in
        if (nal_len =? 0) || (Z.of_nat (length cursor) <? nal_len) then None
        else units ← split_units_loop fuel n (drop (Z.to_nat nal_len) cursor); Some (take (Z.to_nat nal_len) cursor :: units)
      else if is_empty cursor then Some [] else None
  end.
Definition split_length_prefixed_units (payload : list byte) (nal_length_size : nat) : option (list (list byte)) :=
  match split_units_loop (S (length payload)) (normalize_nal_length_size nal_length_size) payload with
  | Some [] | None => None
  | Some units => Some units
  end.

Fixpoint encode_length_prefixed_units (units : list (list byte)) (nal_length_size : nat) : option (list byte) :=
  match units with
  | [] => Some []
  | u :: units =>
      let n := normalize_nal_length_size nal_length_size in
      let len := Z.of_nat (length u) in
      if 2 ^ (8 * Z.of_nat n) <=? len then None
      else rest ← encode_length_prefixed_units units nal_length_size; Some (be_bytes n len ++ u ++ rest)
  end.

(** [for source_len_size in [4, 2, 1]]. *)
Fixpoint reencode (sources : list nat) (canonical : list byte) (target : nat) : list byte :=
  match sources with
  | [] => canonical
  | s :: sources =>
      match (units ← split_length_prefixed_units canonical s; encode_length_prefixed_units units target) with
      | Some encoded => encoded
      | None => reencode sources canonical target
      end
  end.

Definition h26x_payload_with_nal_length_size (payload : list byte) (target_len_size : nat) : list byte :=
  let target := normalize_nal_length_size target_len_size in
  let canonical := h26x_length_prefixed_from_payload payload in
  if (target =? 4)%nat || is_empty canonical then canonical else reencode [4; 2; 1]%nat canonical target.

Definition h26x_payload_for_track (payload : list byte) (track : option TrackInfo) : list byte :=
  let target := default 4%nat (normalize_nal_length_size <$> (t ← track; h26x_nal_length_size_from_track t)) in
  h26x_payload_with_nal_length_size payload target.

Definition find_track_for_frame (f : FlvFrame) (tracks : list TrackInfo) : option TrackInfo :=
  match find (fun t => bool_decide (track_id t = f_track_id f /\ media_kind t = f_media_kind f)) tracks with
  | Some t => Some t
  | None => find (fun t => bool_decide (media_kind t = f_media_kind f /\ codec t = f_codec f)) tracks
  end.

(** ** The payload of a frame *)

Definition normalize_video_timestamp_for_legacy_playback (timestamp_ms composition_time_ms : Z) (mode : RtmpFlvPlayMode) :
    Z * Z :=
  if bool_decide (mode = Enhanced) || (0 <=? composition_time_ms) then (timestamp_ms, composition_time_ms)
  else
    let shift_ms := Z.abs composition_time_ms in
    (sat_u 32 (timestamp_ms - shift_ms), sat_i 32 (composition_time_ms + shift_ms)).

Definition composition_bytes (t : Z) : list byte :=
  [byte_of (Z.land (Z.shiftr t 16) 0xff); byte_of (Z.land (Z.shiftr t 8) 0xff); byte_of (Z.land t 0xff)].

Definition build_non_aac_audio_payload (codec : CodecId) (raw : list byte) (track : option TrackInfo) : option (list byte) :=
  '(rate0, bits, chans0) ← match codec with
                           | ADPCM | G711A | G711U => Some (8000, 16, 1)
                           | MP3 => Some (44100, 16, 2)
                           | Opus => Some (48000, 16, 2)
                           | _ => None
                           end;
  let rate := if bool_decide (codec = MP3) then default rate0 (t ← track; sample_rate t) else rate0 in
  let chans := if bool_decide (codec = MP3) then default chans0 (t ← track; channels t) else chans0 in
  flag ← match rtmp_audio_flag codec rate bits chans with
         | Some flag => Some flag
         | None => rtmp_audio_flag codec rate0 bits chans0
         end;
  Some ([byte_of flag] ++ raw).

Definition map_non_h264_video_with_track (f : FlvFrame) (mode : RtmpFlvPlayMode) (track : option TrackInfo) :
    option RtmpFlvPayload :=
  let '(dts_ms, composition_time) :=
    normalize_video_timestamp_for_legacy_playback (frame_dts_to_rtmp_timestamp_ms f) (frame_composition_time_ms f) mode in
  let key := if f_is_key f then 1 else 2 in
  if use_enhanced_video_mode mode (f_codec f) then
    fourcc ← rtmp_fourcc_from_codec (f_codec f);
    let head (packet_type : Z) :=
      [byte_of (Z.lor (Z.lor (Z.shiftl 1 7) (Z.shiftl key 4)) packet_type)] ++ be_bytes 4 fourcc in
    match f_codec f with
    | H265 | H266 =>
        let bytes := h26x_payload_for_track (f_payload f) track in
        Some (mk_payload KindVideo dts_ms
                (if is_empty bytes then head 3 else head 1 ++ composition_bytes composition_time ++ bytes))
    | AV1 | VP8 | VP9 => Some (mk_payload KindVideo dts_ms (head 1 ++ f_payload f))
    | _ => None
    end
  else
    codec_id ← rtmp_codec_id_from_codec (f_codec f);
    let first := if f_is_key f then Z.lor 0x10 codec_id else Z.lor 0x20 codec_id in
    bytes ← match f_codec f with
            | H265 | H266 => Some (h26x_payload_for_track (f_payload f) track)
            | AV1 | VP9 => Some (f_payload f)
            | _ => None
            end;
    Some (mk_payload KindVideo dts_ms ([byte_of first; x01] ++ composition_bytes composition_time ++ bytes)).

Definition map_frame_to_rtmp_flv_payload (f : FlvFrame) (mode : RtmpFlvPlayMode) (tracks : list TrackInfo) :
    option RtmpFlvPayload :=
  if negb (rtmp_playback_codec_supported (f_media_kind f) (f_codec f)) then None
  else
    let track := find_track_for_frame f tracks in
    let dts_ms := frame_dts_to_rtmp_timestamp_ms f in
    match f_media_kind f, f_codec f with
    | Video, H264 =>
        let bytes := h26x_payload_for_track (f_payload f) track in
        let '(timestamp_ms, composition_time) :=
          normalize_video_timestamp_for_legacy_playback dts_ms (frame_composition_time_ms f) mode in
        Some (mk_payload KindVideo timestamp_ms
                ([(if f_is_key f then x17 else x27); x01] ++ composition_bytes composition_time ++ bytes))
    | Video, (H265 | H266 | AV1 | VP8 | VP9) => map_non_h264_video_with_track f mode track
    | Audio, AAC => Some (mk_payload KindAudio dts_ms ([xaf; x01] ++ f_payload f))
    | Audio, Opus => Some (mk_payload KindAudio dts_ms (build_enhanced_opus_audio_payload 0x91 (f_payload f)))
    | Audio, (G711A | ADPCM | G711U | MP3) =>
        bytes ← build_non_aac_audio_payload (f_codec f) (f_payload f) track; Some (mk_payload KindAudio dts_ms bytes)
    | _, _ => None
    end.

(** ** Script data *)

Inductive Amf0Meta : Set := MetaNumber (bits : Z) | MetaBoolean (b : bool).

(** [num as f64 / den as f64] of two integers of 32 bits, not zero: to nearest, ties to even. *)
Definition f64_quot (num den : Z) : Z :=
  let l0 := Z.log2 num - Z.log2 den in
  let l := if 2 ^ 53 <=? num * 2 ^ (53 - l0) / den then l0 else l0 - 1 in
  let q := num * 2 ^ (52 - l) / den in
  let r := (num * 2 ^ (52 - l)) mod den in
  (l + 1022) * 2 ^ 52 + (if (den <? 2 * r) || ((2 * r =? den) && Z.odd q) then q + 1 else q).

(** What a track says of its pictures. *)
Record VideoShape : Set := mk_shape { width : option Z; height : option Z; fps : option (Z * Z) }.

Definition rtmp_metadata_video_codec_id (codec : CodecId) : option Z :=
  match codec with
  | H265 | H266 | AV1 | VP8 | VP9 => rtmp_fourcc_from_codec codec
  | _ => rtmp_codec_id_from_codec codec
  end.

Definition entry (key : string) (v : option Amf0Meta) : list (list byte * Amf0Meta) :=
  match v with Some v => [(lit key, v)] | None => [] end.

Definition meta_number (n : Z) : Amf0Meta := MetaNumber (i64_to_f64 n).

Definition metadata_entries (t : TrackInfo * VideoShape) : list (list byte * Amf0Meta) :=
  match media_kind (fst t) with
  | Video =>
      entry "videodatarate" (Some (meta_number 5000))
        ++ entry "width" (meta_number <$> width (snd t)) ++ entry "height" (meta_number <$> height (snd t))
        ++ entry "framerate" ('(num, den) ← fps (snd t);
                              if (0 <? num) && (0 <? den) then Some (MetaNumber (f64_quot num den)) else None)
        ++ entry "videocodecid" (meta_number <$> rtmp_metadata_video_codec_id (codec (fst t)))
  | Audio =>
      entry "audiodatarate" (Some (meta_number 160))
        ++ entry "audiosamplerate" (meta_number <$> sample_rate (fst t))
        ++ entry "stereo" ((fun c => MetaBoolean (1 <? c)) <$> channels (fst t))
        ++ entry "audiocodecid" ((fun id => meta_number (if id =? RTMP_AUDIO_CODEC_ID_AAC then 10 else id))
                                   <$> rtmp_codec_id_from_codec (codec (fst t)))
  | _ => []
  end.

Definition amf0_write_string (value : list byte) : list byte := [x02] ++ be_bytes 2 (Z.of_nat (length value)) ++ value.
Definition amf0_write_key (key : list byte) : list byte := be_bytes 2 (Z.of_nat (length key)) ++ key.

Definition amf0_write_value (v : Amf0Meta) : list byte :=
  match v with
  | MetaNumber bits => [x00] ++ be_bytes 8 bits
  | MetaBoolean b => [x01; if b then x01 else x00]
  end.

Definition encode_on_metadata (entries : list (list byte * Amf0Meta)) : list byte :=
  amf0_write_string (lit "onMetaData") ++ [x08] ++ be_bytes 4 (Z.of_nat (length entries))
    ++ concat (map (fun e => amf0_write_key (fst e) ++ amf0_write_value (snd e)) entries)
    ++ be_bytes 2 0 ++ [x09].

Definition build_metadata (tracks : list (TrackInfo * VideoShape)) : list byte :=
  encode_on_metadata ([(lit "duration", meta_number 0); (lit "fileSize", meta_number 0)] ++ concat (map metadata_entries tracks)).

(** ** The start of playback *)

Definition bootstrap_of_track (t : TrackInfo) (mode : RtmpFlvPlayMode) : list RtmpFlvPayload :=
  let video (o : option (list byte)) := match o with Some p => [mk_payload KindVideo 0 p] | None => [] end in
  match codec t, extradata t with
  | H264, ExH264 _ _ _ => video (payload <$> build_video_sequence_header t)
  | H265, ExH265 vps sps pps hvcc =>
      match hvcc with
      | Some hvcc => video (build_video_config_payload H265 hvcc mode)
      | None =>
          let fallback := build_h265_config vps sps pps in
          if is_empty fallback then [] else video (build_video_config_payload H265 fallback mode)
      end
  | H266, ExH266 vps sps pps => video (build_video_config_payload H266 (build_h266_config vps sps pps) mode)
  | AV1, ExAV1 _ (Some config) => video (build_video_config_payload AV1 config mode)
  | VP9, ExVP9 (Some config) => video (build_video_config_payload VP9 config mode)
  | VP8, ExVP8 (Some config) => video (build_video_config_payload VP8 config mode)
  | AAC, ExAAC _ =>
      match build_audio_sequence_header t with Some tag => [mk_payload KindAudio 0 (payload tag)] | None => [] end
  | Opus, _ => [mk_payload KindAudio 0 (build_opus_sequence_header t)]
  | _, _ => []
  end.

Definition build_track_bootstrap_payloads (tracks : list (TrackInfo * VideoShape)) (mode : RtmpFlvPlayMode)
    (enable_add_mute emit_play_metadata : bool) : list RtmpFlvPayload :=
  (if emit_play_metadata then [mk_payload KindData 0 (build_metadata tracks)] else [])
    ++ concat (map (fun t => bootstrap_of_track (fst t) mode) tracks)
    ++ (if enable_add_mute && negb (track_list_has_audio (map fst tracks))
        then [mk_payload KindAudio 0 mute_aac_config_payload] else []).

(** ** Tags of HTTP-FLV *)

Definition tag_of_payload (p : RtmpFlvPayload) : FlvTag :=
  mk_tag (match pl_kind p with KindAudio => TagAudio | KindVideo => TagVideo | KindData => TagScript end)
    (pl_timestamp_ms p) (pl_bytes p).

(** [send_play_header_and_bootstrap] and [send_bootstrap_payloads]: what is sent, in order. *)
Definition send_bootstrap_payloads (tracks : list (TrackInfo * VideoShape)) (mode : RtmpFlvPlayMode)
    (enable_add_mute emit_play_metadata : bool) : list (list byte) :=
  map (fun p => encode_with_previous_tag_size (tag_of_payload p))
    (build_track_bootstrap_payloads tracks mode enable_add_mute emit_play_metadata).

Definition play_header (tracks : list TrackInfo) : FlvHeader :=
  mk_flv_header (track_list_has_audio tracks) (existsb (fun t => bool_decide (media_kind t = Video)) tracks).

Definition send_play_header_and_bootstrap (tracks : list (TrackInfo * VideoShape)) (mode : RtmpFlvPlayMode)
    (enable_add_mute emit_play_metadata : bool) : list (list byte) :=
  flv_header_encode (play_header (map fst tracks)) :: send_bootstrap_payloads tracks mode enable_add_mute emit_play_metadata.

(** What the play loop sends for a frame, with the tracks of its snapshot. *)
Definition send_frame (mode : RtmpFlvPlayMode) (tracks : list TrackInfo) (f : FlvFrame) : list (list byte) :=
  match map_frame_to_rtmp_flv_payload f mode tracks with
  | Some p => [encode_with_previous_tag_size (tag_of_payload p)]
  | None => []
  end.

(** ** The script data is AMF0 *)

Definition amf0_value (v : Amf0Meta) : AmfValue.Amf0V :=
  match v with MetaNumber bits => Amf0.Number bits | MetaBoolean b => Amf0.Boolean b end.

Lemma encode_pairs_entries ptr i (entries : list (list byte * Amf0Meta)) e :
  encode_indexed (fun a pair e => let '(key, v) := pair in Amf0.encode_value a v (put (encode_name key) e)) ptr i
      ((fun e => (fst e, amf0_value (snd e))) <$> entries) e
  = Some (put (fun buf => buf ++ concat (map (fun e => amf0_write_key (fst e) ++ amf0_write_value (snd e)) entries)) e).
Proof.
  revert i e. induction entries as [|[key v] entries IH]; intros i e.
  - cbn. unfold put. rewrite app_nil_r. by destruct e.
  - cbn [fmap list_fmap encode_indexed fst snd].
    assert (Amf0.encode_value (i :: ptr) (amf0_value v) (put (encode_name key) e)
            = Some (put (fun buf => buf ++ amf0_write_key key ++ amf0_write_value v) e)) as ->.
    { destruct v as [n|[]]; cbn; unfold put, encode_name, write_f64, write_u8, write_bytes, write_u16, amf0_write_key, amf0_write_value; cbn [e_buf e_complexes]; by rewrite <- !app_assoc. }
    cbn [mbind option_bind]. rewrite IH. unfold put. cbn [e_buf e_complexes map concat fst snd]. by rewrite <- !app_assoc.
Qed.

(** The small encoder writes what the encoder of RTMP writes for the same values. *)
Theorem metadata_is_amf0 entries :
  encode_all [Amf0.String (lit "onMetaData") : Amf0V; Amf0.EcmaArray ((fun e => (fst e, amf0_value (snd e))) <$> entries)]
  = Some (encode_on_metadata entries).
Proof.
  unfold encode_all. cbn [encode_indexed Amf0.encode_value mbind option_bind]. unfold encode_complex.
  cbn [put e_complexes position]. cbn [length]. change (u16_max <? Z.of_nat 0) with false. cbv iota.
  unfold encode_pairs. rewrite encode_pairs_entries. cbn [mbind option_bind fmap option_fmap option_map put e_buf e_complexes].
  unfold write_u8, write_u16, write_u32. f_equal. unfold encode_on_metadata. rewrite length_fmap.
  cbn [app]. rewrite <- !app_assoc. done.
Qed.

Lemma f64_quot_range num den : 0 < num < 2 ^ 32 -> 0 < den < 2 ^ 32 -> in_u 64 (f64_quot num den).
Proof.
  intros N D. unfold f64_quot. set (l0 := Z.log2 num - Z.log2 den). set (l := if _ : bool then l0 else l0 - 1).
  pose proof (Z.log2_spec num ltac:(lia)) as [_ N2]. pose proof (Z.log2_spec den ltac:(lia)) as [D1 _].
  pose proof (Z.log2_nonneg num). pose proof (Z.log2_nonneg den).
  assert (Z.log2 num < 32) by (apply Z.log2_lt_pow2; lia). assert (Z.log2 den < 32) by (apply Z.log2_lt_pow2; lia).
  assert (L : l = l0 \/ l = l0 - 1) by (unfold l; destruct (_ <=? _); auto).
  assert (Q : 0 <= num * 2 ^ (52 - l) / den < 2 ^ 54).
  { split; [apply Z.div_pos; [|lia]; apply Z.mul_nonneg_nonneg; [lia|apply Z.pow_nonneg; lia]|].
    apply Z.div_lt_upper_bound; [lia|].
    apply Z.lt_le_trans with (2 ^ Z.succ (Z.log2 num) * 2 ^ (52 - l)).
    - apply Z.mul_lt_mono_pos_r; [apply Z.pow_pos_nonneg; lia|lia].
    - rewrite <- Z.pow_add_r by lia. apply Z.le_trans with (2 ^ Z.log2 den * 2 ^ 54).
      + rewrite <- Z.pow_add_r by lia. apply Z.pow_le_mono_r; lia.
      + apply Z.mul_le_mono_nonneg_r; lia. }
  set (q := num * 2 ^ (52 - l) / den) in *. unfold in_u. change (2 ^ 54) with (4 * 2 ^ 52) in Q. change (2 ^ 64) with (4096 * 2 ^ 52).
  destruct (_ || _); nia.
Qed.

Lemma meta_number_range n : in_u 32 n -> in_u 64 (i64_to_f64 n).
Proof.
  intros R. destruct (decide (n = 0)) as [->|N]; [by vm_compute|]. unfold in_u in R.
  destruct (i64_to_f64_parts n N) as (_ & I & _); [cbn in *; lia|done].
Qed.

Definition meta_ok (v : Amf0Meta) : Prop := match v with MetaNumber bits => in_u 64 bits | MetaBoolean _ => True end.

(** The numbers of a track are [u32]. *)
Definition opt_u32 (o : option Z) : Prop := match o with Some n => in_u 32 n | None => True end.
Definition described (t : TrackInfo * VideoShape) : Prop :=
  opt_u32 (width (snd t)) /\ opt_u32 (height (snd t)) /\ opt_u32 (sample_rate (fst t)) /\
  match fps (snd t) with Some (num, den) => in_u 32 num /\ in_u 32 den | None => True end.

Definition entry_good (e : list byte * Amf0Meta) : Prop := Amf0.name (fst e) = true /\ meta_ok (snd e).

Lemma entry_ok key (o : option Amf0Meta) :
  Amf0.name (lit key) = true -> match o with Some v => meta_ok v | None => True end -> Forall entry_good (entry key o).
Proof. intros K M. destruct o as [v|]; [|done]. by constructor. Qed.

Lemma opt_number_ok o : opt_u32 o -> match meta_number <$> o with Some v => meta_ok v | None => True end.
Proof. destruct o; [|done]. apply meta_number_range. Qed.

Lemma codec_number_ok c :
  opt_u32 (rtmp_codec_id_from_codec c) /\ opt_u32 (rtmp_fourcc_from_codec c).
Proof. destruct c; split; done || by vm_compute. Qed.

Lemma track_entries_ok t : described t -> Forall entry_good (metadata_entries t).
Proof.
  intros (W & H & S & F). unfold metadata_entries. destruct (codec_number_ok (codec (fst t))) as [C1 C2].
  destruct (media_kind (fst t)); [| |constructor..]; repeat (apply Forall_app; split); apply entry_ok; try reflexivity.
  - by apply meta_number_range.
  - by apply opt_number_ok.
  - by apply opt_number_ok.
  - destruct (fps (snd t)) as [[num den]|]; [|done]. cbn [mbind option_bind]. destruct F as [F1 F2]. unfold in_u in F1, F2.
    destruct (Z.ltb_spec 0 num), (Z.ltb_spec 0 den); cbn [andb]; try done. apply f64_quot_range; lia.
  - apply opt_number_ok. unfold rtmp_metadata_video_codec_id. by destruct (codec (fst t)).
  - by apply meta_number_range.
  - by apply opt_number_ok.
  - by destruct (channels (fst t)).
  - destruct (rtmp_codec_id_from_codec (codec (fst t))) as [id|]; [|done]. cbn. destruct (id =? _); [by apply meta_number_range|by apply meta_number_range].
Qed.

(** RTMP's decoder reads the script data of any tracks. *)
Theorem metadata_decodes tracks :
  Forall described tracks ->
  Amf0.decode_all (build_metadata tracks) =
    Ok [Amf0.String (lit "onMetaData") : Amf0V;
        Amf0.EcmaArray ((fun e => (fst e, amf0_value (snd e))) <$>
          ([(lit "duration", meta_number 0); (lit "fileSize", meta_number 0)] ++ concat (map metadata_entries tracks)))].
Proof.
  intros F. set (entries := [(lit "duration", _); _] ++ _).
  assert (G : Forall entry_good entries).
  { apply Forall_app. split; [repeat constructor; done || by vm_compute|]. induction F as [|t ts T _ IH]; [constructor|].
    cbn [map concat]. apply Forall_app. split; [by apply track_entries_ok|exact IH]. }
  pose proof (metadata_is_amf0 entries) as E. set (values := [Amf0.String _; _]) in *.
  destruct (payload_roundtrip values) as (bs & E' & D); [|change (build_metadata tracks) with (encode_on_metadata entries); congruence].
  unfold values. cbn [forallb Amf0.encodable]. rewrite !andb_true_iff. split; [done|]. split; [|done].
  clear E values. induction G as [|[k v] es [K M] _ IH]; [done|]. cbn [fmap list_fmap forallb fst snd].
  rewrite IH, andb_true_r. apply andb_true_iff. split; [exact K|]. destruct v; [|done]. cbn in *. unfold in_u in M. lia.
Qed.
