(* ===== verification/FlvIngress.v ===== *)
(** * FLV tags to frames

    Models [crates/foundation/cheetah-codec/src/flv_ingress.rs]: the tracks that sequence headers
    announce, and the frames of the tags that follow. The frame's format is left out: the codec
    decides it. *)
From Stdlib Require Import Strings.Byte.
From S2P Require Import Prelude Timeline EngineTypes RtmpBytes Codecs Rtp RtpH26x RtpH26xSpec Aac Tracks FrameView Flv FlvEgress.
Local Open Scope string_scope.
Local Open Scope list_scope.
Local Open Scope Z_scope.

Inductive FlvIngressOutput : Set :=
| IngressTracks (tracks : list TrackInfo)
| IngressFrame (f : FlvFrame).

Inductive FlvIngressError : Set :=
| PayloadTooShort (t : FlvTagType)
| UnsupportedCodec (t : FlvTagType) (codec_id : Z)
| InvalidPacketType (t : FlvTagType) (packet_type : Z)
| ParseFailed (detail : string)
| TrackMissing (t : FlvTagType).

Record FlvIngress : Set := mk_ingress {
  in_tracks : list TrackInfo;
  last_raw_timestamp : Z;
  epoch_offset : Z;
  next_track_id : Z;
  in_has_video : bool;
  in_has_audio : bool;
  in_video_track_id : option Z;
  in_audio_track_id : option Z
}.

Definition ingress_default : FlvIngress := mk_ingress [] 0 0 2 false false None None.
Definition ingress_reset (i : FlvIngress) : FlvIngress := ingress_default.

(** ** Small parts *)

Definition sign_extend_i24 (value : Z) : Z := Z.shiftr (wrap_i 32 (Z.shiftl value 8)) 8.

Definition FLAG_START_OF_AU : Z := Z.shiftl 1 2.
Definition FLAG_END_OF_AU : Z := Z.shiftl 1 3.
Definition FLAG_GENERATED : Z := Z.shiftl 1 7.

Definition build_video_frame_flags (frame_type : Z) : Z :=
  if frame_type =? 1 then Z.lor (Z.lor FLAG_KEY FLAG_START_OF_AU) FLAG_END_OF_AU
  else if (2 <=? frame_type) && (frame_type <=? 4) then Z.lor FLAG_START_OF_AU FLAG_END_OF_AU
  else if frame_type =? 5 then Z.lor FLAG_KEY FLAG_GENERATED
  else 0.

Definition aac_sample_rate_from_index (index : Z) : option Z := RATES !! Z.to_nat index.

Definition unwrapped_timestamp_ms (raw : Z) (i : FlvIngress) : FlvIngress * Z :=
  let epoch := if raw + 2 ^ 31 <? last_raw_timestamp i then wrap_u 64 (epoch_offset i + 2 ^ 32) else epoch_offset i in
  (mk_ingress (in_tracks i) raw epoch (next_track_id i) (in_has_video i) (in_has_audio i)
     (in_video_track_id i) (in_audio_track_id i), wrap_u 64 (epoch + raw)).

(** [video_track_id] and [audio_track_id]: a fixed id when the header announced the kind, one of
    its own otherwise. *)
Definition video_track_id (i : FlvIngress) : FlvIngress * Z :=
  if in_has_video i then (i, 0)
  else match in_video_track_id i with
       | Some id => (i, id)
       | None =>
           (mk_ingress (in_tracks i) (last_raw_timestamp i) (epoch_offset i) (wrap_u 32 (next_track_id i + 1)) (in_has_video i)
              (in_has_audio i) (Some (next_track_id i)) (in_audio_track_id i), next_track_id i)
       end.
Definition audio_track_id (i : FlvIngress) : FlvIngress * Z :=
  if in_has_audio i then (i, 1)
  else match in_audio_track_id i with
       | Some id => (i, id)
       | None =>
           (mk_ingress (in_tracks i) (last_raw_timestamp i) (epoch_offset i) (wrap_u 32 (next_track_id i + 1)) (in_has_video i)
              (in_has_audio i) (in_video_track_id i) (Some (next_track_id i)), next_track_id i)
       end.

Fixpoint replace_track (t : TrackInfo) (l : list TrackInfo) : list TrackInfo :=
  match l with
  | [] => [t]
  | x :: l => if bool_decide (track_id x = track_id t /\ media_kind x = media_kind t) then t :: l else x :: replace_track t l
  end.
Definition add_or_update_track (t : TrackInfo) (i : FlvIngress) : FlvIngress :=
  mk_ingress (replace_track t (in_tracks i)) (last_raw_timestamp i) (epoch_offset i) (next_track_id i) (in_has_video i)
    (in_has_audio i) (in_video_track_id i) (in_audio_track_id i).

Definition find_track (kind : MediaKind) (c : CodecId) (i : FlvIngress) : option TrackInfo :=
  find (fun t => bool_decide (media_kind t = kind /\ codec t = c)) (in_tracks i).

(** ** Tags *)

Definition ingress_result : Type := FlvIngress * result FlvIngressError (option FlvIngressOutput).

Definition announce (t : TrackInfo) (i : FlvIngress) : ingress_result :=
  let i := add_or_update_track t i in (i, Ok (Some (IngressTracks (in_tracks i)))).

(** Coded pictures of either codec. *)
Definition video_frame (c : CodecId) (tag : FlvTag) (frame_type cts : Z) (i : FlvIngress) : ingress_result :=
  match find_track Video c i with
  | None => (i, Err (TrackMissing TagVideo))
  | Some track =>
      let annexb := annexb_from_payload (drop 5 (payload tag)) in
      let '(i, unwrapped) := unwrapped_timestamp_ms (timestamp_ms tag) i in
      let dts := wrap_i 64 unwrapped in
      let pts := sat_i 64 (dts + cts) in
      (i, Ok (Some (IngressFrame
        (mk_flv_frame (track_id track) Video c pts dts (mk_timebase 1 1000) (build_video_frame_flags frame_type) annexb
           (Some (timestamp_ms tag, unwrapped))))))
  end.

Definition tag_cts (tag : FlvTag) : Z := sign_extend_i24 (be_val (sub_ 2 3 (payload tag))).

Definition process_h264_video_tag (tag : FlvTag) (frame_type : Z) (i : FlvIngress) : ingress_result :=
  if (length (payload tag) <? 5)%nat then (i, Err (PayloadTooShort TagVideo))
  else
    let packet_type := at_ (payload tag) 1 in
    if packet_type =? 0 then
      let avcc := drop 5 (payload tag) in
      if is_empty avcc then (i, Err (ParseFailed "empty AVC configuration record"))
      else
        let '(sps, pps) := parse_avcc_parameter_sets avcc in
        if is_empty sps || is_empty pps then (i, Err (ParseFailed "missing SPS or PPS in AVC configuration record"))
        else
          let '(i, id) := video_track_id i in
          announce (mk_track id Video H264 90000 None None (ExH264 sps pps (Some avcc)) Ready) i
    else if packet_type =? 1 then video_frame H264 tag frame_type (tag_cts tag) i
    else if packet_type =? 2 then (i, Ok None)
    else (i, Err (InvalidPacketType TagVideo packet_type)).

Definition process_h265_video_tag (tag : FlvTag) (frame_type : Z) (i : FlvIngress) : ingress_result :=
  if (length (payload tag) <? 5)%nat then (i, Err (PayloadTooShort TagVideo))
  else
    let packet_type := at_ (payload tag) 1 in
    if packet_type =? 0 then
      let '(i, id) := video_track_id i in
      announce (mk_track id Video H265 90000 None None (ExH265 [] [] [] (Some (drop 5 (payload tag)))) PendingConfig) i
    else if packet_type =? 1 then video_frame H265 tag frame_type (tag_cts tag) i
    else if packet_type =? 2 then (i, Ok None)
    else (i, Err (InvalidPacketType TagVideo packet_type)).

Definition process_video_tag (tag : FlvTag) (i : FlvIngress) : ingress_result :=
  if is_empty (payload tag) then (i, Err (PayloadTooShort TagVideo))
  else
    let byte0 := at_ (payload tag) 0 in
    let frame_type := Z.land (Z.shiftr byte0 4) 0x0f in
    let codec_id := Z.land byte0 0x0f in
    if codec_id =? 7 then process_h264_video_tag tag frame_type i
    else if codec_id =? 12 then process_h265_video_tag tag frame_type i
    else (i, Err (UnsupportedCodec TagVideo codec_id)).

Definition process_audio_tag (tag : FlvTag) (i : FlvIngress) : ingress_result :=
  if is_empty (payload tag) then (i, Err (PayloadTooShort TagAudio))
  else
    let sound_format := Z.land (Z.shiftr (at_ (payload tag) 0) 4) 0x0f in
    if negb (sound_format =? 10) then (i, Err (UnsupportedCodec TagAudio sound_format))
    else if (length (payload tag) <? 2)%nat then (i, Err (PayloadTooShort TagAudio))
    else
      let packet_type := at_ (payload tag) 1 in
      if packet_type =? 0 then
        match asc_from_bytes (drop 2 (payload tag)) with
        | None => (i, Err (ParseFailed "invalid AAC AudioSpecificConfig"))
        | Some asc =>
            match aac_sample_rate_from_index (asc_sampling_frequency_index asc) with
            | None => (i, Err (ParseFailed "unsupported AAC sampling frequency index"))
            | Some rate =>
                match aac_channel_count_from_config (asc_channel_configuration asc) with
                | None => (i, Err (ParseFailed "unsupported AAC channel configuration"))
                | Some chans =>
                    let '(i, id) := audio_track_id i in
                    announce (mk_track id Audio AAC rate (Some rate) (Some chans) (ExAAC (asc_to_bytes asc)) Ready) i
                end
            end
        end
      else if packet_type =? 1 then
        match find_track Audio AAC i with
        | None => (i, Err (TrackMissing TagAudio))
        | Some track =>
            let '(i, unwrapped) := unwrapped_timestamp_ms (timestamp_ms tag) i in
            let dts := wrap_i 64 unwrapped in
            (i, Ok (Some (IngressFrame
              (mk_flv_frame (track_id track) Audio AAC dts dts (mk_timebase 1 1000) (Z.lor FLAG_START_OF_AU FLAG_END_OF_AU)
                 (drop 2 (payload tag)) (Some (timestamp_ms tag, unwrapped))))))
        end
      else (i, Err (InvalidPacketType TagAudio packet_type)).

Definition process_tag (tag : FlvTag) (i : FlvIngress) : ingress_result :=
  match tag_type tag with
  | TagVideo => process_video_tag tag i
  | TagAudio => process_audio_tag tag i
  | TagScript => (i, Ok None)
  end.

Definition process_event (e : FlvDemuxEvent) (i : FlvIngress) : ingress_result :=
  match e with
  | FlvHeaderSeen h =>
      (mk_ingress (in_tracks i) (last_raw_timestamp i) (epoch_offset i) (next_track_id i) (has_video h) (has_audio h)
         (in_video_track_id i) (in_audio_track_id i), Ok None)
  | FlvTagSeen tag => process_tag tag i
  | PreviousTagSizeMismatch _ _ => (i, Ok None)
  end.

(** ** A pull: chunks of the body to frames

    From [protocols/http-flv/module/src/pull/streaming.rs]: [push_demux_events], and the loop
    over what is read ([stream_content_length]). The receiver of the frames is there. *)

Inductive PullError : Set := DemuxFailed (e : FlvStreamError) | IngressFailed (e : FlvIngressError).

Fixpoint process_events (evs : list FlvDemuxEvent) (i : FlvIngress) : FlvIngress * list FlvFrame * result FlvIngressError unit :=
  match evs with
  | [] => (i, [], Ok tt)
  | e :: evs =>
      match process_event e i with
      | (i, Err err) => (i, [], Err err)
      | (i, Ok out) =>
          let '(i, fs, r) := process_events evs i in
          (i, (match out with Some (IngressFrame f) => [f] | _ => [] end) ++ fs, r)
      end
  end.

Definition push_demux_events (bytes : list byte) (d : FlvDemuxer) (i : FlvIngress) :
    FlvDemuxer * FlvIngress * list FlvFrame * result PullError unit :=
  match flv_push bytes d with
  | (d, Err e) => (d, i, [], Err (DemuxFailed e))
  | (d, Ok evs) =>
      let '(i, fs, r) := process_events evs i in
      (d, i, fs, match r with Ok _ => Ok tt | Err e => Err (IngressFailed e) end)
  end.

Fixpoint stream_content (chunks : list (list byte)) (d : FlvDemuxer) (i : FlvIngress) :
    FlvDemuxer * FlvIngress * list FlvFrame * result PullError unit :=
  match chunks with
  | [] => (d, i, [], Ok tt)
  | c :: chunks =>
      match push_demux_events c d i with
      | (d, i, fs, Err e) => (d, i, fs, Err e)
      | (d, i, fs, Ok _) => let '(d, i, more, r) := stream_content chunks d i in (d, i, fs ++ more, r)
      end
  end.

Lemma process_events_app e1 e2 i :
  process_events (e1 ++ e2) i =
    let '(i1, f1, r1) := process_events e1 i in
    match r1 with
    | Err e => (i1, f1, Err e)
    | Ok _ => let '(i2, f2, r2) := process_events e2 i1 in (i2, f1 ++ f2, r2)
    end.
Proof.
  revert i. induction e1 as [|e e1 IH]; intros i; [cbn; by destruct (process_events e2 i) as [[? ?] []]|].
  cbn [app process_events]. destruct (process_event e i) as [i1 [out|err]]; [|done]. rewrite IH.
  destruct (process_events e1 i1) as [[i2 f1] [[]|err]]; [|done].
  destruct (process_events e2 i2) as [[i3 f2] r2]. by rewrite app_assoc.
Qed.
