(* ===== verification/FlvSpec.v ===== *)
(** * FLV: from frames to frames

    Both ends of HTTP-FLV together: what a player is sent for a list of tracks and frames is cut
    anywhere, and the pull of another server makes tracks and frames of it. *)
From Stdlib Require Import Strings.Byte.
From S2P Require Import Prelude Timeline EngineTypes RtmpBytes Codecs Rtp Egress RtpH26x RtpH26xSpec Aac Tracks FrameView Flv FlvEgress FlvIngress.
Local Open Scope Z_scope.

(** * FLV files: reading back what was written, in any pieces

    Theorems on Flv: the demuxer makes the same events of a stream however it is cut, and the
    tags that were written are the tags that are read; the decoder configuration record gives
    its parameter sets back. *)

(** ** Tags *)

Definition tag_fits (t : FlvTag) : Prop := in_u 32 (timestamp_ms t) /\ flv_len (payload t) <= FLV_TAG_DATA_LEN_MAX.

#[export] Instance tag_fits_dec (t : FlvTag) : Decision (tag_fits t).
Proof. unfold tag_fits, in_u. apply _. Defined.

Lemma lor_pair a b : 0 <= b < 256 -> Z.lor (Z.shiftl a 8) b = a * 256 + b.
Proof. intros R. rewrite Z.shiftl_mul_pow2 by done. change (2 ^ 8) with 256. rewrite (lor_add _ _ 8); cbn; [done|done|zdm|done]. Qed.

Lemma shiftl_pairs a b c : Z.lor (Z.lor (Z.shiftl a 16) (Z.shiftl b 8)) c = Z.lor (Z.shiftl (Z.lor (Z.shiftl a 8) b) 8) c.
Proof. by rewrite Z.shiftl_lor, Z.shiftl_shiftl by done. Qed.

Lemma tag_data_len_val b0 b1 b2 b3 rest : tag_data_len (b0 :: b1 :: b2 :: b3 :: rest) = be_val [b1; b2; b3].
Proof.
  unfold tag_data_len. change (at_ _ 1) with (byte_val b1). change (at_ _ 2) with (byte_val b2). change (at_ _ 3) with (byte_val b3).
  rewrite shiftl_pairs, !lor_pair by apply byte_val_range. rewrite !be_val_cons. cbn [length be_val]. change (be_val []) with 0. lia.
Qed.

Lemma tag_timestamp_val b0 b1 b2 b3 b4 b5 b6 b7 rest :
  tag_timestamp (b0 :: b1 :: b2 :: b3 :: b4 :: b5 :: b6 :: b7 :: rest) = be_val [b7; b4; b5; b6].
Proof.
  unfold tag_timestamp. change (at_ _ 7) with (byte_val b7). change (at_ _ 4) with (byte_val b4).
  change (at_ _ 5) with (byte_val b5). change (at_ _ 6) with (byte_val b6).
  replace (Z.lor (Z.shiftl (byte_val b7) 24) (Z.shiftl (byte_val b4) 16))
    with (Z.shiftl (Z.lor (Z.shiftl (byte_val b7) 8) (byte_val b4)) 16)
    by (by rewrite Z.shiftl_lor, Z.shiftl_shiftl by done).
  rewrite shiftl_pairs, !lor_pair by apply byte_val_range. rewrite !be_val_cons. change (be_val []) with 0. cbn [length]. lia.
Qed.

(** The eleven bytes of a header, and what is read from them. *)
Definition tag_header (t : FlvTag) : list byte := take 11 (flv_tag_encode t).

Lemma masked v k : 0 <= k -> byte_of (Z.land (Z.shiftr v k) 0xff) = byte_of (v / 2 ^ k).
Proof.
  intros K. rewrite Z.shiftr_div_pow2 by done. apply byte_of_val_eq. rewrite byte_val_of, land_255. by rewrite Z.mod_mod.
Qed.

Lemma encoded_tag t :
  tag_fits t -> flv_tag_encode t = tag_header t ++ payload t /\ length (tag_header t) = 11%nat.
Proof.
  intros [_ L]. unfold tag_header, flv_tag_encode, flv_len in *. rewrite Z.min_l, Nat2Z.id, firstn_all by lia. done.
Qed.

Lemma header_read t rest :
  tag_fits t ->
  let raw := tag_header t ++ rest in
  tag_type_from_u8 (at_ raw 0) = Some (tag_type t) /\ tag_data_len raw = flv_len (payload t) /\
  tag_timestamp raw = timestamp_ms t.
Proof.
  intros [T L]. unfold tag_header, flv_tag_encode. rewrite Z.min_l by done. cbv zeta. cbn [app take].
  rewrite !masked by done. split; [|split].
  - unfold at_. cbn [nth]. by destruct (tag_type t).
  - rewrite tag_data_len_val, !be_val_cons, !byte_val_of. change (be_val []) with 0. rewrite land_255. cbn [length].
    unfold FLV_TAG_DATA_LEN_MAX, flv_len in *. zdm.
  - rewrite tag_timestamp_val, !be_val_cons, !byte_val_of. change (be_val []) with 0. rewrite land_255. cbn [length].
    unfold in_u in T. zdm.
Qed.

Definition tag_total (t : FlvTag) : Z := flv_len (payload t) + 15.

Lemma length_with_previous t : tag_fits t -> flv_len (encode_with_previous_tag_size t) = tag_total t.
Proof.
  intros F. destruct (encoded_tag t F) as [E H]. unfold encode_with_previous_tag_size, flv_len, tag_total.
  rewrite length_app, length_be_bytes, E, length_app, H. unfold flv_len. lia.
Qed.

(** A turn of the demuxer takes back a tag that was written. *)
Lemma turn_of_tag max t rest :
  tag_fits t -> flv_len (payload t) <= max ->
  tag_turn max (encode_with_previous_tag_size t ++ rest) = Took [FlvTagSeen t] rest.
Proof.
  intros F M. pose proof (length_with_previous t F) as LT. destruct (encoded_tag t F) as [E H].
  unfold encode_with_previous_tag_size in *. set (tail := be_bytes 4 (flv_len (flv_tag_encode t))) in *.
  set (raw := (flv_tag_encode t ++ tail) ++ rest).
  assert (R : raw = tag_header t ++ payload t ++ tail ++ rest) by (unfold raw; by rewrite E, <- !app_assoc).
  destruct (header_read t (payload t ++ tail ++ rest) F) as (Ty & Len & Ts). rewrite <- R in Ty, Len, Ts.
  assert (LR : flv_len raw = tag_total t + flv_len rest) by (unfold raw, flv_len in *; rewrite length_app; lia).
  unfold tag_turn. rewrite Ty, Len, Ts, LR. unfold tag_total, flv_len in *.
  rewrite (proj2 (Z.ltb_ge _ 15)), (proj2 (Z.ltb_ge max _)), (proj2 (Z.ltb_ge _ (11 + _ + 4))) by lia.
  rewrite Nat2Z.id. f_equal.
  - assert (P : sub_ 11 (length (payload t)) raw = payload t).
    { rewrite R, <- H. unfold sub_. by rewrite drop_app_length, take_app_length. }
    assert (V : sub_ (11 + length (payload t)) 4 raw = tail).
    { rewrite R. unfold sub_. rewrite app_assoc, <- H, <- length_app, drop_app_length.
      replace 4%nat with (length tail) by (unfold tail; by rewrite length_be_bytes). by rewrite take_app_length. }
    rewrite P, V. unfold tail. rewrite be_val_bytes, E, length_app, H, wrap_u_small.
    + rewrite (proj2 (Z.eqb_eq _ _)) by lia. f_equal. f_equal. by destruct t.
    + destruct F as [_ F]. unfold flv_len, FLV_TAG_DATA_LEN_MAX in F. unfold in_u. cbn. lia.
  - unfold raw. replace (Z.to_nat _) with (length (flv_tag_encode t ++ tail)) by (apply Nat2Z.inj; rewrite Z2Nat.id by lia; lia).
    by rewrite drop_app_length.
Qed.

(** ** Turns and more bytes *)

Lemma at_more i raw more : (i < length raw)%nat -> at_ (raw ++ more) i = at_ raw i.
Proof. apply at_app_l. Qed.

Lemma sub_more i n (raw more : list byte) : (i + n <= length raw)%nat -> sub_ i n (raw ++ more) = sub_ i n raw.
Proof.
  intros L. unfold sub_. rewrite drop_app_le by lia. by rewrite take_app_le by (rewrite length_drop; lia).
Qed.

Lemma tag_fields_more raw more :
  (15 <= length raw)%nat ->
  tag_data_len (raw ++ more) = tag_data_len raw /\ tag_timestamp (raw ++ more) = tag_timestamp raw /\
  at_ (raw ++ more) 0 = at_ raw 0.
Proof. intros L. unfold tag_data_len, tag_timestamp. by rewrite !at_more by lia. Qed.

Lemma tag_data_len_nonneg raw : 0 <= tag_data_len raw.
Proof.
  unfold tag_data_len, at_. rewrite !Z.lor_nonneg, !Z.shiftl_nonneg.
  pose proof (byte_val_range (nth 1 raw x00)). pose proof (byte_val_range (nth 2 raw x00)).
  pose proof (byte_val_range (nth 3 raw x00)). lia.
Qed.

Lemma turn_more max raw more :
  match tag_turn max raw with
  | NeedMore => True
  | Bad e => tag_turn max (raw ++ more) = Bad e
  | Took evs rest => tag_turn max (raw ++ more) = Took evs (rest ++ more) /\ (length rest < length raw)%nat
  end.
Proof.
  unfold tag_turn. pose proof (tag_data_len_nonneg raw) as NN. unfold flv_len.
  destruct (Z.ltb_spec (Z.of_nat (length raw)) 15) as [S|S]; [done|].
  destruct (tag_fields_more raw more ltac:(lia)) as (-> & -> & ->).
  assert (Z.of_nat (length (raw ++ more)) = Z.of_nat (length raw) + Z.of_nat (length more)) as -> by (rewrite length_app; lia).
  rewrite (proj2 (Z.ltb_ge _ 15)) by lia.
  destruct (tag_type_from_u8 (at_ raw 0)) as [ty|]; [|done].
  destruct (Z.ltb_spec max (tag_data_len raw)); [done|].
  destruct (Z.ltb_spec (Z.of_nat (length raw)) (11 + tag_data_len raw + 4)) as [L|L]; [done|].
  rewrite (proj2 (Z.ltb_ge _ (11 + _ + 4))) by lia. rewrite !sub_more by lia. rewrite drop_app_le by lia.
  split; [done|]. rewrite length_drop. lia.
Qed.

Lemma turn_shorter max raw evs rest : tag_turn max raw = Took evs rest -> (length rest < length raw)%nat.
Proof. intros E. pose proof (turn_more max raw []) as H. rewrite E in H. apply H. Qed.

Lemma loop_fuel max f g raw :
  (length raw < f)%nat -> (length raw < g)%nat -> tags_loop f max raw = tags_loop g max raw.
Proof.
  revert g raw. induction f as [|f IH]; intros [|g] raw F G; try lia. cbn [tags_loop].
  destruct (tag_turn max raw) as [| |evs rest] eqn:E; [done..|]. apply turn_shorter in E.
  rewrite (IH g rest) by lia. done.
Qed.

(** Events in front of those of the rest. *)
Definition after_events (evs : list FlvDemuxEvent) (r : result FlvStreamError (list FlvDemuxEvent * list byte)) :=
  match r with Ok (more, rest) => Ok (evs ++ more, rest) | Err e => Err e end.

Lemma after_events_app e1 e2 r : after_events (e1 ++ e2) r = after_events e1 (after_events e2 r).
Proof. destruct r as [[]|]; cbn; by rewrite <- ?app_assoc. Qed.

Lemma parse_tags_turn max raw :
  parse_tags max raw =
    match tag_turn max raw with
    | NeedMore => Ok ([], raw)
    | Bad e => Err e
    | Took evs rest => after_events evs (parse_tags max rest)
    end.
Proof.
  unfold parse_tags at 1. cbn [tags_loop]. destruct (tag_turn max raw) as [| |evs rest] eqn:E; [done..|].
  apply turn_shorter in E. by rewrite (loop_fuel max _ (S (length rest)) rest) by lia.
Qed.

(** What has been read does not depend on what comes. *)
Lemma parse_tags_app max raw more :
  parse_tags max (raw ++ more) =
    match parse_tags max raw with
    | Ok (evs, rest) => after_events evs (parse_tags max (rest ++ more))
    | Err e => Err e
    end.
Proof.
  induction raw as [raw IH] using (induction_ltof1 _ (@length byte)). unfold ltof in IH.
  rewrite (parse_tags_turn max raw). pose proof (turn_more max raw more) as T.
  destruct (tag_turn max raw) as [| |evs rest].
  - by destruct (parse_tags max (raw ++ more)) as [[]|].
  - rewrite parse_tags_turn. by rewrite T.
  - destruct T as [T L]. rewrite parse_tags_turn, T, IH by done.
    destruct (parse_tags max rest) as [[evs' rest']|]; [|done]. cbn [after_events]. by rewrite after_events_app.
Qed.

(** What is left holds no whole tag. *)
Lemma parse_tags_left max raw evs rest : parse_tags max raw = Ok (evs, rest) -> parse_tags max rest = Ok ([], rest).
Proof.
  intros P. pose proof (parse_tags_app max raw []) as A. rewrite app_nil_r, P, app_nil_r in A.
  destruct (parse_tags max rest) as [[e2 r2]|]; [|done]. cbn in A. injection A as A ->.
  apply (f_equal length) in A. rewrite length_app in A. destruct e2; [done|cbn in A; lia].
Qed.

(** ** Any cut of a stream *)

(** Pushes up to the first that fails. *)
Fixpoint flv_push_all (segs : list (list byte)) (d : FlvDemuxer) : FlvDemuxer * result FlvStreamError (list FlvDemuxEvent) :=
  match segs with
  | [] => (d, Ok [])
  | s :: segs =>
      match flv_push s d with
      | (d, Ok evs) => let '(d, r) := flv_push_all segs d in
                       (d, match r with Ok more => Ok (evs ++ more) | Err e => Err e end)
      | (d, Err e) => (d, Err e)
      end
  end.

(** No push finds the buffer too full. *)
Fixpoint has_room (segs : list (list byte)) (d : FlvDemuxer) : bool :=
  match segs with
  | [] => true
  | s :: segs => (flv_len (flv_buffer d) + flv_len s <=? max_buffer_bytes d) && has_room segs (fst (flv_push s d))
  end.

Lemma app_split_at {A} (l1 l2 l3 l4 : list A) :
  l1 ++ l2 = l3 ++ l4 -> (length l3 <= length l1)%nat -> exists k, l1 = l3 ++ k /\ l4 = k ++ l2.
Proof.
  intros E L. destruct (app_eq_inv _ _ _ _ E) as [(k & E1 & E2)|(k & E1 & E2)]; [by eauto|].
  assert (length k = 0)%nat as K%length_zero_iff_nil.
  { apply (f_equal length) in E1. rewrite length_app in E1. lia. }
  subst k. exists []. cbn in E2. by rewrite app_nil_r in *.
Qed.

Lemma push_room s d :
  (flv_len (flv_buffer d) + flv_len s <=? max_buffer_bytes d) = true ->
  flv_push s d = parse_buffer (mk_flv_demuxer (flv_buffer d ++ s) (header_parsed d) (max_buffer_bytes d)).
Proof. intros R. unfold flv_push. apply Z.leb_le in R. by rewrite (proj2 (Z.ltb_ge _ _)) by lia. Qed.

Lemma parse_prefix_more raw more h :
  length raw = 13%nat -> flv_parse_prefix raw = Ok (h, 13) -> flv_parse_prefix (raw ++ more) = Ok (h, 13).
Proof.
  intros L. unfold flv_parse_prefix. rewrite !at_more, take_app_le, sub_more by lia. unfold flv_len. rewrite length_app, L.
  rewrite (proj2 (Z.ltb_ge (Z.of_nat (13 + length more)) 9)) by lia. change (Z.of_nat 13 <? 9) with false. cbv iota.
  destruct (negb _); [done|]. destruct (negb _); [done|].
  set (off := be_val (sub_ 5 4 raw)). destruct (off <? 9); [done|].
  destruct (Z.of_nat 13 <? off + 4) eqn:N; [done|]. intros E. injection E as E1 E2.
  rewrite E2. assert ((Z.of_nat (13 + length more) <? 13) = false) as -> by (apply Z.ltb_ge; lia). by rewrite E1.
Qed.

Section cuts.
Context (m : Z) (head : list byte) (h : FlvHeader).
Hypothesis head_ok : length head = 13%nat /\ flv_parse_prefix head = Ok (h, 13).

(** The demuxer and the events after some bytes, however they came. *)
Definition flv_after (p : list byte) : FlvDemuxer * list FlvDemuxEvent :=
  if (length p <? 13)%nat then (mk_flv_demuxer p false m, [])
  else
    match parse_tags m (drop 13 p) with
    | Ok (evs, rest) => (mk_flv_demuxer rest true m, FlvHeaderSeen h :: evs)
    | Err _ => (mk_flv_demuxer [] false m, [])
    end.

(** Bytes that begin with the header, or begin it, and hold no bad tag. *)
Definition good (p : list byte) : Prop :=
  (length p < 13)%nat \/ exists body evs rest, p = head ++ body /\ parse_tags m body = Ok (evs, rest).

Lemma flv_after_header body evs rest :
  parse_tags m body = Ok (evs, rest) -> flv_after (head ++ body) = (mk_flv_demuxer rest true m, FlvHeaderSeen h :: evs).
Proof.
  destruct head_ok as [L _]. intros P. unfold flv_after. rewrite length_app, L.
  rewrite (proj2 (Nat.ltb_ge _ _)) by lia. rewrite <- L, drop_app_length. by rewrite P.
Qed.

Lemma flv_after_short p : (length p < 13)%nat -> flv_after p = (mk_flv_demuxer p false m, []).
Proof. intros S. unfold flv_after. by rewrite (proj2 (Nat.ltb_lt _ _) S). Qed.

Lemma good_prefix p s : good (p ++ s) -> good p.
Proof.
  destruct head_ok as [L _]. destruct (Nat.lt_ge_cases (length p) 13) as [S|S]; [by left|].
  intros [B|(body & evs & rest & E & P)]; [rewrite length_app in B; lia|].
  destruct (app_split_at _ _ _ _ E ltac:(lia)) as (k & -> & ->). right.
  rewrite parse_tags_app in P. destruct (parse_tags m k) as [[e1 r1]|] eqn:Q; [|done]. by exists k, e1, r1.
Qed.

Lemma push_after p s :
  good (p ++ s) -> flv_len (flv_buffer (fst (flv_after p))) + flv_len s <= m ->
  exists e, flv_push s (fst (flv_after p)) = (fst (flv_after (p ++ s)), Ok e) /\
            snd (flv_after (p ++ s)) = snd (flv_after p) ++ e.
Proof.
  destruct head_ok as [L Ph]. intros G R. pose proof (good_prefix _ _ G) as Gp.
  assert (Mx : max_buffer_bytes (fst (flv_after p)) = m).
  { unfold flv_after. destruct (length p <? 13)%nat; [done|]. by destruct (parse_tags m (drop 13 p)) as [[]|]. }
  rewrite push_room by (rewrite Mx; by apply Z.leb_le). rewrite Mx. clear R Mx.
  destruct Gp as [S|(k & e1 & r1 & -> & P1)].
  - rewrite (flv_after_short p S). unfold parse_buffer. cbn [fst snd flv_buffer header_parsed max_buffer_bytes app].
    destruct G as [S'|(body & evs & rest & E & P)].
    + rewrite (flv_after_short _ S'). unfold flv_len. rewrite (proj2 (Z.ltb_lt _ _)) by lia. by exists [].
    + rewrite E, (flv_after_header _ _ _ P). unfold flv_len. rewrite (proj2 (Z.ltb_ge _ _)) by (rewrite length_app; lia).
      rewrite (parse_prefix_more head body h L Ph). change (Z.to_nat 13) with 13%nat. rewrite <- L, drop_app_length, P.
      by exists (FlvHeaderSeen h :: evs).
  - destruct G as [S|(body & evs & rest & E & P)]; [rewrite !length_app in S; lia|].
    rewrite <- app_assoc in *. apply app_inv_head in E. subst body. rewrite (flv_after_header _ _ _ P1), (flv_after_header _ _ _ P).
    unfold parse_buffer. cbn [fst snd flv_buffer header_parsed max_buffer_bytes].
    rewrite parse_tags_app, P1 in P. destruct (parse_tags m (r1 ++ s)) as [[e2 r2]|]; [|done]. cbn in P.
    injection P as <- <-. by exists e2.
Qed.

Lemma push_all_after segs p :
  good (p ++ concat segs) -> has_room segs (fst (flv_after p)) = true ->
  exists e, flv_push_all segs (fst (flv_after p)) = (fst (flv_after (p ++ concat segs)), Ok e) /\
            snd (flv_after (p ++ concat segs)) = snd (flv_after p) ++ e.
Proof.
  revert p. induction segs as [|s segs IH]; intros p G R.
  - exists []. cbn. by rewrite !app_nil_r.
  - cbn [concat has_room flv_push_all] in *. apply andb_prop in R as [R1 R2]. rewrite app_assoc in *.
    assert (M : max_buffer_bytes (fst (flv_after p)) = m).
    { unfold flv_after. destruct (length p <? 13)%nat; [done|]. by destruct (parse_tags m (drop 13 p)) as [[]|]. }
    rewrite M in R1. apply Z.leb_le in R1.
    destruct (push_after p s (good_prefix _ _ G) R1) as (e1 & P1 & V1). rewrite P1 in *. cbn [fst] in R2.
    destruct (IH (p ++ s) G R2) as (e2 & P2 & V2). rewrite P2. exists (e1 ++ e2). split; [done|].
    by rewrite V2, V1, app_assoc.
Qed.

End cuts.

(** The demuxer makes the same events of a stream with a header of 13 bytes, however it is cut. *)
Theorem flv_segmentation_free segs max head body h evs rest :
  length head = 13%nat -> flv_parse_prefix head = Ok (h, 13) -> concat segs = head ++ body ->
  parse_tags (Z.max max 13) body = Ok (evs, rest) -> has_room segs (flv_demuxer_new max) = true ->
  flv_push_all segs (flv_demuxer_new max) = (mk_flv_demuxer rest true (Z.max max 13), Ok (FlvHeaderSeen h :: evs)).
Proof.
  intros L Ph C P R. set (m := Z.max max 13) in *.
  destruct (push_all_after m head h (conj L Ph) segs []) as (e & E & V); cbn [app].
  - right. by exists body, evs, rest.
  - exact R.
  - cbn [app] in E, V. rewrite C, (flv_after_header m head h (conj L Ph) _ _ _ P) in E, V. cbn in V. rewrite V. exact E.
Qed.

(** ** What was written is read *)

Definition flv_tags (tags : list FlvTag) : list byte := concat (map encode_with_previous_tag_size tags).
Definition flv_stream (h : FlvHeader) (tags : list FlvTag) : list byte := flv_header_encode h ++ flv_tags tags.

Definition tag_ok (max : Z) (t : FlvTag) : Prop := tag_fits t /\ flv_len (payload t) <= max.

#[export] Instance tag_ok_dec max t : Decision (tag_ok max t).
Proof. unfold tag_ok. apply _. Defined.

Lemma parse_header_encode h : length (flv_header_encode h) = 13%nat /\ flv_parse_prefix (flv_header_encode h) = Ok (h, 13).
Proof. destruct h as [[] []]; by vm_compute. Qed.

Lemma parse_flv_tags max tags :
  Forall (tag_ok max) tags -> parse_tags max (flv_tags tags) = Ok (map FlvTagSeen tags, []).
Proof.
  induction 1 as [|t tags [F M] _ IH]; [done|]. rewrite parse_tags_turn. change (flv_tags (t :: tags)) with (encode_with_previous_tag_size t ++ flv_tags tags).
  by rewrite turn_of_tag, IH by done.
Qed.

(** What is left of a part of the stream is less than the largest tag. *)
Lemma rest_short max size tags p more evs rest :
  Forall (fun t => tag_ok max t /\ tag_total t <= size) tags -> 0 < size -> p ++ more = flv_tags tags ->
  parse_tags max p = Ok (evs, rest) -> flv_len rest < size.
Proof.
  intros F Sz. revert p evs. induction F as [|t tags [[Ft M] L] _ IH]; intros p evs E P.
  - apply app_nil in E as [-> _]. cbn in P. injection P as <- <-. done.
  - change (flv_tags (t :: tags)) with (encode_with_previous_tag_size t ++ flv_tags tags) in E.
    pose proof (length_with_previous t Ft) as LT. unfold flv_len in *.
    destruct (Nat.lt_ge_cases (length p) (length (encode_with_previous_tag_size t))) as [S|S].
    + rewrite parse_tags_turn in P. pose proof (turn_more max p more) as T. rewrite E, turn_of_tag in T by done.
      destruct (tag_turn max p) as [|e|evs' r]; [by injection P as <- <-; lia|done|].
      destruct T as [T _]. injection T as _ T. pose proof (f_equal length T) as T1. pose proof (f_equal length E) as E1. rewrite length_app in T1. rewrite length_app in E1. rewrite length_app in E1. lia.
    + destruct (app_split_at _ _ _ _ E S) as (k & -> & Ek). rewrite parse_tags_turn, turn_of_tag in P by done.
      destruct (parse_tags max k) as [[e2 r2]|] eqn:Pk; [|done]. cbn in P. injection P as <- <-.
      exact (IH k e2 (eq_sym Ek) Pk).
Qed.

Lemma stream_has_room h tags m size seg_size segs p :
  Forall (fun t => tag_ok m t /\ tag_total t <= size) tags -> 13 <= size -> size + seg_size <= m + 1 ->
  Forall (fun s => flv_len s <= seg_size) segs -> p ++ concat segs = flv_stream h tags ->
  has_room segs (fst (flv_after m h p)) = true.
Proof.
  intros F Sz Room. destruct (parse_header_encode h) as [L Ph].
  assert (Good : forall q more, q ++ more = flv_stream h tags -> good m (flv_header_encode h) q).
  { intros q more E. apply (good_prefix m _ h (conj L Ph) q more). right. rewrite E. eexists _, _, _. split; [done|].
    apply parse_flv_tags. eapply Forall_impl; [done|]. by intros ? []. }
  revert p. induction segs as [|s segs IH]; intros p Fs E; [done|]. apply Forall_cons in Fs as [Ls Fs].
  cbn [has_room concat] in *.
  assert (max_buffer_bytes (fst (flv_after m h p)) = m /\ flv_len (flv_buffer (fst (flv_after m h p))) < size) as [M B].
  { destruct (Good p _ E) as [S|(body & evs & rest & -> & P)].
    - rewrite flv_after_short by done. cbn. unfold flv_len. lia.
    - rewrite (flv_after_header m _ h (conj L Ph) _ _ _ P). cbn. split; [done|].
      unfold flv_stream in E. rewrite <- app_assoc in E. apply app_inv_head in E.
      eapply rest_short; [done|lia|done|done]. }
  rewrite M. apply andb_true_intro. split; [apply Z.leb_le; lia|].
  rewrite app_assoc in E. destruct (push_after m _ h (conj L Ph) p s (Good _ _ E)) as (e & -> & _); [lia|].
  by apply IH.
Qed.

(** Tags written after a header are the tags read, whatever the pieces, when the largest piece
    and the largest tag fit in the buffer together. *)
Lemma flv_tags_arrive max h tags size seg_size segs :
  Forall (fun t => tag_fits t /\ tag_total t <= size) tags -> 15 <= size -> 0 <= seg_size -> size + seg_size <= max + 1 ->
  Forall (fun s => flv_len s <= seg_size) segs -> concat segs = flv_stream h tags ->
  flv_push_all segs (flv_demuxer_new max) =
    (mk_flv_demuxer [] true max, Ok (FlvHeaderSeen h :: map FlvTagSeen tags)).
Proof.
  intros F Sz S0 Room Fs E. destruct (parse_header_encode h) as [L Ph].
  assert (Mx : Z.max max 13 = max) by lia. rewrite <- Mx at 2.
  assert (F' : Forall (fun t => tag_ok max t /\ tag_total t <= size) tags).
  { eapply Forall_impl; [done|]. intros t [T1 T2]. unfold tag_total in T2. split; [split; [done|lia]|done]. }
  eapply flv_segmentation_free; [exact L|exact Ph|exact E| |].
  - rewrite Mx. apply parse_flv_tags. eapply Forall_impl; [done|]. by intros ? [].
  - change (flv_demuxer_new max) with (mk_flv_demuxer [] false (Z.max max 13)). rewrite Mx.
    apply (stream_has_room h tags max size seg_size segs [] F'); [lia..|done|done].
Qed.

(** ** Decoder configuration records *)

Definition set_fits (s : list byte) : Prop := s <> [] /\ Z.of_nat (length s) < 2 ^ 16.

#[export] Instance set_fits_dec s : Decision (set_fits s).
Proof. unfold set_fits. apply _. Defined.

Lemma avcc_sets_written sets rest :
  Forall set_fits sets -> read_sets (length sets) (concat (map counted_set sets) ++ rest) = Some (sets, rest).
Proof.
  induction 1 as [|s sets [_ L] _ IH]; [done|]. cbn [map concat].
  pose proof (length_be_bytes 2 (Z.of_nat (length s))) as L2. set (body := s ++ concat (map counted_set sets) ++ rest).
  replace ((counted_set s ++ concat (map counted_set sets)) ++ rest) with (be_bytes 2 (Z.of_nat (length s)) ++ body)
    by (unfold body, counted_set; by rewrite <- !app_assoc).
  cbn [length read_sets]. rewrite (proj2 (Nat.ltb_ge _ 2)) by (rewrite length_app, L2; lia).
  assert (T : forall A (p q : list A), length p = 2%nat -> take 2 (p ++ q) = p /\ drop 2 (p ++ q) = q).
  { intros A p q <-. by rewrite take_app_length, drop_app_length. }
  destruct (T _ (be_bytes 2 (Z.of_nat (length s))) body L2) as [-> ->].
  rewrite be_val_bytes, wrap_u_small, Nat2Z.id by (unfold in_u; cbn in *; lia). unfold body.
  rewrite (proj2 (Nat.ltb_ge _ _)) by (rewrite length_app; lia). rewrite drop_app_length, take_app_length, IH. done.
Qed.

Lemma none_empty sets : Forall set_fits sets -> existsb is_empty sets = false.
Proof. induction 1 as [|s sets [N _] _ IH]; [done|]. cbn. by destruct s. Qed.

(** The parameter sets of a record are those it was built from. *)
Lemma avcc_gives_sets_back sps pps :
  Forall set_fits sps -> Forall set_fits pps -> (1 <= length sps <= 31)%nat -> (1 <= length pps <= 255)%nat ->
  exists avcc, build_h264_avcc_from_parameter_sets sps pps = Some avcc /\ parse_avcc_parameter_sets avcc = (sps, pps).
Proof.
  intros Fs Fp Ls Lp. destruct sps as [|s0 sps0]; [cbn in Ls; lia|]. set (sps := s0 :: sps0) in *.
  assert (E0 : is_empty s0 = false) by (apply Forall_cons in Fs as [[N _] _]; by destruct s0).
  unfold build_h264_avcc_from_parameter_sets. cbn [head sps mbind option_bind]. fold sps.
  rewrite E0, (none_empty pps Fp), (none_empty sps Fs).
  assert (is_empty pps = false) as -> by (destruct pps; [cbn in Lp; lia|done]). cbn [orb].
  eexists. split; [done|]. rewrite !firstn_all2 by lia. rewrite !Nat.min_l by lia.
  set (ext := default [] _). unfold parse_avcc_parameter_sets.
  set (body := concat (map counted_set sps) ++ [byte_of (Z.of_nat (length pps))] ++ concat (map counted_set pps) ++ ext).
  rewrite (proj2 (Nat.ltb_ge _ 7)) by (rewrite length_app; unfold body; rewrite !length_app; cbn [length]; lia).
  assert (C : Z.to_nat (Z.land (at_ ([x01; nth 1 s0 x00; nth 2 s0 x00; nth 3 s0 x00; xff; byte_of (Z.lor 0xE0 (Z.of_nat (length sps)))] ++ body) 5) 0x1f) = length sps).
  { unfold at_. cbn [app nth]. rewrite byte_val_of, land_31, Z.lor_comm. assert (B : (length sps < 32)%nat) by lia.
    clear -B. remember (length sps) as n. clear Heqn.
    do 32 (destruct n as [|n]; [done|]). lia. }
  rewrite C. replace (drop 6 _) with body by done. unfold body. rewrite avcc_sets_written by done. cbn [app].
  rewrite byte_val_of, Z.mod_small, Nat2Z.id by lia. by rewrite avcc_sets_written by done.
Qed.

(** * FLV: from frames to frames *)

(** Chunks whose events the ingress takes give the frames of the events. *)
Lemma stream_content_events chunks d d' evs i i' fs :
  flv_push_all chunks d = (d', Ok evs) -> process_events evs i = (i', fs, Ok tt) ->
  stream_content chunks d i = (d', i', fs, Ok tt).
Proof.
  revert d evs i fs. induction chunks as [|c chunks IH]; intros d evs i fs P E; cbn [flv_push_all stream_content] in *.
  - injection P as -> <-. cbn in E. by injection E as -> <-.
  - unfold push_demux_events. destruct (flv_push c d) as [d1 [e1|]]; [|done].
    destruct (flv_push_all chunks d1) as [d2 [e2|]] eqn:P2; [|done]. injection P as -> <-.
    rewrite process_events_app in E. destruct (process_events e1 i) as [[i1 f1] [[]|]]; [|done].
    destruct (process_events e2 i1) as [[i2 f2] r2] eqn:E2. injection E as -> <- ->.
    by rewrite (IH d1 e2 i1 f2 P2 E2).
Qed.

(** ** Parts *)

Lemma composition_back t : in_i 24 t -> sign_extend_i24 (be_val (composition_bytes t)) = t.
Proof.
  intros R. unfold composition_bytes, sign_extend_i24. rewrite !be_val_cons, !byte_val_of, !land_255. change (be_val []) with 0.
  cbn [length]. rewrite !Z.shiftr_div_pow2, Z.shiftl_mul_pow2 by done. unfold in_i, wrap_i in *.
  change (2 ^ (24 - 1)) with 8388608 in R. change (2 ^ 16) with 65536. change (2 ^ 8) with 256.
  change (2 ^ (8 * Z.of_nat 2)) with 65536. change (2 ^ (8 * Z.of_nat 1)) with 256. change (2 ^ (8 * Z.of_nat 0)) with 1.
  change (2 ^ (32 - 1)) with 2147483648. change (2 ^ 32) with 4294967296. zdm.
Qed.

Lemma asc_reads_back asc : (2 <=? length asc)%nat = true -> is_Some (asc_from_bytes asc).
Proof. intros L%Nat.leb_le. unfold asc_from_bytes. by rewrite (proj2 (Nat.ltb_ge _ _)) by lia. Qed.

(** The length field of the track's record has four bytes, or there is no record. *)
Definition four_byte_lengths (t : TrackInfo) : Prop :=
  default 4%nat (normalize_nal_length_size <$> h26x_nal_length_size_from_track t) = 4%nat.

#[export] Instance four_byte_lengths_dec t : Decision (four_byte_lengths t).
Proof. apply _. Defined.

Definition has_first (P : list byte -> Prop) (units : list (list byte)) : Prop :=
  match units with u :: _ => P u | [] => False end.

(** Annex B that goes through the length fields and comes back. *)
Definition carried_units (units : list (list byte)) : Prop :=
  Forall clean units /\ has_first (fun u => second_byte u /\ start_code_length u = false) units /\
  Z.of_nat (length (annexb units)) < 2 ^ 24.

Lemma payload_there_and_back t units :
  four_byte_lengths t -> carried_units units ->
  annexb_from_payload (h26x_payload_for_track (annexb units) (Some t)) = annexb units.
Proof.
  intros T (C & F & L). destruct units as [|u us]; [done|]. destruct F as [S N].
  unfold h26x_payload_for_track. cbn [mbind option_bind]. unfold four_byte_lengths in T. rewrite T.
  unfold h26x_payload_with_nal_length_size. cbn [normalize_nal_length_size Nat.eqb orb].
  unfold h26x_length_prefixed_from_payload, annexb_from_payload. rewrite length_prefixed_of_annexb by done.
  rewrite annexb_of_length_prefixed by (by apply clean_fits). by rewrite N.
Qed.

(** ** Tracks *)

(** The record that the sequence header of a track carries. *)
Definition sent_record (t : TrackInfo) : option (list byte) := drop 5 <$> (payload <$> build_video_sequence_header t).

Definition video_ok (t : TrackInfo) : Prop :=
  media_kind t = Video /\ codec t = H264 /\ four_byte_lengths t /\
  match extradata t with
  | ExH264 sps pps avcc =>
      match (match avcc with Some r => Some r | None => build_h264_avcc_from_parameter_sets sps pps end) with
      | Some r => is_empty r = false /\ is_empty (fst (parse_avcc_parameter_sets r)) = false /\
                  is_empty (snd (parse_avcc_parameter_sets r)) = false
      | None => False
      end
  | _ => False
  end.

Definition audio_ok (t : TrackInfo) : Prop :=
  media_kind t = Audio /\ codec t = AAC /\
  match extradata t with
  | ExAAC asc =>
      match asc_from_bytes asc with
      | Some c => is_Some (aac_sample_rate_from_index (asc_sampling_frequency_index c)) /\
                  is_Some (aac_channel_count_from_config (asc_channel_configuration c))
      | None => False
      end
  | _ => False
  end.

(** The tracks that the pull announces. *)
Definition pulled_video (t : TrackInfo) : TrackInfo :=
  let r := default [] (sent_record t) in
  let '(sps, pps) := parse_avcc_parameter_sets r in
  mk_track 0 Video H264 90000 None None (ExH264 sps pps (Some r)) Ready.

Definition pulled_audio (t : TrackInfo) : TrackInfo :=
  match extradata t with
  | ExAAC asc =>
      match asc_from_bytes asc with
      | Some c =>
          let rate := default 0 (aac_sample_rate_from_index (asc_sampling_frequency_index c)) in
          mk_track 1 Audio AAC rate (Some rate) (aac_channel_count_from_config (asc_channel_configuration c))
            (ExAAC (asc_to_bytes c)) Ready
      | None => t
      end
  | _ => t
  end.

(** ** Frames *)

Definition frame_shape (f : FlvFrame) : Prop :=
  match f_media_kind f, f_codec f with
  | Video, H264 => exists units, f_payload f = annexb units /\ carried_units units
  | Audio, AAC => True
  | _, _ => False
  end.

(** The decode time and the composition time that the tag of a frame gets. *)
Definition tag_times (mode : RtmpFlvPlayMode) (f : FlvFrame) : Z * Z :=
  match f_media_kind f with
  | Video => normalize_video_timestamp_for_legacy_playback (frame_dts_to_rtmp_timestamp_ms f) (frame_composition_time_ms f) mode
  | _ => (frame_dts_to_rtmp_timestamp_ms f, 0)
  end.

(** The frame that the pull makes of a frame. *)
Definition pulled_frame (mode : RtmpFlvPlayMode) (f : FlvFrame) : FlvFrame :=
  let '(ts, cts) := tag_times mode f in
  mk_flv_frame (match f_media_kind f with Video => 0 | _ => 1 end) (f_media_kind f) (f_codec f) (ts + cts) ts
    (mk_timebase 1 1000)
    (match f_media_kind f with
     | Video => build_video_frame_flags (if f_is_key f then 1 else 2)
     | _ => Z.lor FLAG_START_OF_AU FLAG_END_OF_AU
     end) (f_payload f) (Some (ts, ts)).

Lemma dts_range f : in_u 32 (frame_dts_to_rtmp_timestamp_ms f).
Proof.
  unfold frame_dts_to_rtmp_timestamp_ms, dts_to_rtmp_timestamp_ms, millis_to_rtmp_timestamp_ms, in_u.
  destruct (Z.leb_spec (timebase_value_to_millis (f_timebase f) (f_dts f)) 0); cbn; lia.
Qed.

Lemma cts_range f : in_i 24 (frame_composition_time_ms f).
Proof. unfold frame_composition_time_ms, composition_time_ms, in_i. cbn. lia. Qed.

Lemma tag_times_range mode f : in_u 32 (fst (tag_times mode f)) /\ in_i 24 (snd (tag_times mode f)).
Proof.
  pose proof (dts_range f) as D. pose proof (cts_range f) as C. unfold tag_times.
  destruct (f_media_kind f); try (split; [done|by vm_compute]).
  unfold normalize_video_timestamp_for_legacy_playback. destruct (_ || _) eqn:O; [done|]. cbn [fst snd].
  apply orb_false_elim in O as [_ O%Z.leb_gt].
  unfold in_u, in_i, sat_u, sat_i in *. cbn in *. lia.
Qed.

(** No tag is more than half the range of the clock before the one in front of it. *)
Fixpoint steady (last : Z) (times : list Z) : Prop :=
  match times with [] => True | t :: times => last <= t + 2 ^ 31 /\ steady t times end.

Lemma at_head b rest : at_ (b :: rest) 0 = byte_val b.
Proof. done. Qed.

Lemma first_byte_video (key : bool) :
  Z.land (byte_val (if key then x17 else x27)) 0x0f = 7 /\
  Z.land (Z.shiftr (byte_val (if key then x17 else x27)) 4) 0x0f = if key then 1 else 2.
Proof. by destruct key. Qed.

Lemma bootstrap_times tracks mode mute meta p :
  p ∈ build_track_bootstrap_payloads tracks mode mute meta -> pl_timestamp_ms p = 0.
Proof.
  unfold build_track_bootstrap_payloads. intros H. rewrite !elem_of_app in H. destruct H as [H|[H|H]].
  - destruct meta; [|by apply elem_of_nil in H]. by apply list_elem_of_singleton in H as ->.
  - apply list_elem_of_In, in_concat in H as (l & L & H%list_elem_of_In). apply in_map_iff in L as ([t sh] & <- & _).
    unfold bootstrap_of_track in H. cbn [fst] in H.
    destruct (codec t), (extradata t); repeat case_match; try (by apply elem_of_nil in H); by apply list_elem_of_singleton in H as ->.
  - destruct (mute && _); [|by apply elem_of_nil in H]. by apply list_elem_of_singleton in H as ->.
Qed.

Section pull.
Context (v a : TrackInfo) (mode : RtmpFlvPlayMode).
Hypothesis tracks_ok : video_ok v /\ audio_ok a.

(** The ingress once both tracks are known, and the last time it has seen. *)
Definition pulling (last : Z) : FlvIngress :=
  mk_ingress [pulled_video v; pulled_audio a] last 0 2 true true None None.

Lemma found_track f :
  frame_shape f -> find_track_for_frame f [v; a] = Some (match f_media_kind f with Video => v | _ => a end).
Proof.
  destruct tracks_ok as [(Kv & Cv & _) (Ka & Ca & _)]. unfold frame_shape, find_track_for_frame. cbn [find]. rewrite Kv, Ka, Cv, Ca.
  destruct (f_media_kind f), (f_codec f); try done; intros _.
  - rewrite (bool_decide_false (track_id a = _ /\ _)) by (intros []; done). rewrite (bool_decide_true (Video = Video /\ _)) by done.
    by destruct (bool_decide _).
  - rewrite (bool_decide_false (track_id v = _ /\ _)) by (intros []; done). rewrite (bool_decide_false (Video = Audio /\ _)) by (intros []; done).
    rewrite (bool_decide_true (Audio = Audio /\ _)) by done. by destruct (bool_decide _).
Qed.

Lemma pulling_finds c k :
  (k = Video /\ c = H264) \/ (k = Audio /\ c = AAC) ->
  forall last, find_track k c (pulling last) = Some (match k with Video => pulled_video v | _ => pulled_audio a end).
Proof.
  destruct tracks_ok as [_ (_ & _ & A)]. unfold find_track, pulling, pulled_video, pulled_audio. cbn [in_tracks find].
  destruct (parse_avcc_parameter_sets (default [] (sent_record v))) as [sps pps]. cbn [media_kind codec].
  destruct (extradata a); try done. destruct (asc_from_bytes asc); [|done].
  by intros [[-> ->]|[-> ->]] last.
Qed.

Lemma unwrapped_steady last t :
  in_u 32 t -> last <= t + 2 ^ 31 -> unwrapped_timestamp_ms t (pulling last) = (pulling t, t).
Proof.
  intros T L. unfold unwrapped_timestamp_ms. cbn [pulling last_raw_timestamp epoch_offset].
  rewrite (proj2 (Z.ltb_ge _ _)) by lia. cbn [Z.add]. rewrite wrap_u_small by (unfold in_u in *; cbn in *; lia). done.
Qed.

(** The tag of a frame gives the frame. *)
Lemma frame_goes_through f last :
  frame_shape f -> last <= fst (tag_times mode f) + 2 ^ 31 ->
  exists p, map_frame_to_rtmp_flv_payload f mode [v; a] = Some p /\ pl_timestamp_ms p = fst (tag_times mode f) /\
    process_event (FlvTagSeen (tag_of_payload p)) (pulling last) =
      (pulling (fst (tag_times mode f)), Ok (Some (IngressFrame (pulled_frame mode f)))).
Proof.
  intros S L. pose proof (found_track f S) as Tr. destruct (tag_times_range mode f) as [Rt Rc].
  assert (in_i 64 (fst (tag_times mode f) + snd (tag_times mode f)) /\ in_i 64 (fst (tag_times mode f))) as [R64 R64'].
  { unfold in_u, in_i in *. cbn in *. lia. }
  unfold map_frame_to_rtmp_flv_payload. rewrite Tr. unfold pulled_frame, tag_times, frame_shape in *.
  destruct (f_media_kind f) eqn:K, (f_codec f) eqn:C; try done; cbn [rtmp_playback_codec_supported negb].
  - destruct S as (units & -> & U). destruct tracks_ok as [(_ & _ & T4 & _) _].
    destruct (normalize_video_timestamp_for_legacy_playback _ _ _) as [ts cts]. cbn [fst snd] in *.
    eexists. split; [done|]. split; [done|]. unfold tag_of_payload. cbn [pl_kind pl_timestamp_ms pl_bytes process_event].
    unfold process_tag, process_video_tag. cbn [tag_type payload is_empty app].
    rewrite at_head. destruct (first_byte_video (f_is_key f)) as [-> ->].
    cbn [Z.eqb Pos.eqb]. unfold process_h264_video_tag. cbn [payload].
    set (body := h26x_payload_for_track (annexb units) (Some v)).
    change (length _ <? 5)%nat with false. cbv iota.
    replace (at_ _ 1) with 1 by done. cbn [Z.eqb]. unfold video_frame.
    rewrite (pulling_finds H264 Video) by auto. cbn [payload timestamp_ms]. rewrite unwrapped_steady by done.
    unfold tag_cts. cbn [payload]. change (sub_ 2 3 _) with (composition_bytes cts). rewrite composition_back by done.
    change (drop 5 _) with body. unfold body. rewrite payload_there_and_back by done.
    rewrite wrap_i_small, sat_i_small by (done || lia). unfold pulled_video.
    destruct (parse_avcc_parameter_sets _). done.
  - cbn [fst snd] in *. eexists. split; [done|]. split; [done|]. unfold tag_of_payload. cbn [pl_kind pl_timestamp_ms pl_bytes process_event].
    unfold process_tag, process_audio_tag. cbn [tag_type payload is_empty app].
    replace (at_ _ 0) with 175 by done. change (negb _) with false. cbv iota. change (length _ <? 2)%nat with false. cbv iota.
    replace (at_ _ 1) with 1 by done. cbn [Z.eqb]. rewrite (pulling_finds AAC Audio) by auto. rewrite unwrapped_steady by done.
    rewrite wrap_i_small by (done || lia). rewrite Z.add_0_r. cbn [drop]. unfold pulled_audio.
    destruct tracks_ok as [_ (_ & _ & A)]. destruct (extradata a); try done. destruct (asc_from_bytes asc); done.
Qed.

(** The tags of the frames, one after another. *)
Lemma frames_go_through frames last :
  Forall frame_shape frames -> steady last (map (fun f => fst (tag_times mode f)) frames) ->
  exists ps i,
    concat (map (send_frame mode [v; a]) frames) = map (fun p => encode_with_previous_tag_size (tag_of_payload p)) ps /\
    omap (fun f => map_frame_to_rtmp_flv_payload f mode [v; a]) frames = ps /\
    Forall (fun p => in_u 32 (pl_timestamp_ms p)) ps /\
    process_events (map FlvTagSeen (map tag_of_payload ps)) (pulling last) = (i, map (pulled_frame mode) frames, Ok tt) /\
    in_tracks i = [pulled_video v; pulled_audio a].
Proof.
  intros F. revert last. induction F as [|f frames S _ IH]; intros last St; [by exists [], (pulling last)|].
  cbn [map steady] in St. destruct St as [L St]. destruct (frame_goes_through f last S L) as (p & M & T & E).
  destruct (IH _ St) as (ps & i & E1 & E2 & E3 & E4 & E5). exists (p :: ps), i. cbn [map concat omap list_omap].
  unfold send_frame at 1. rewrite M, E1, E2. split; [done|]. split; [done|]. split.
  - constructor; [rewrite T; apply tag_times_range|done].
  - split; [|done]. cbn [process_events]. by rewrite E, E4.
Qed.

(** The header and the sequence headers make the tracks. *)
Lemma bootstrap_goes_through sv sa mute meta :
  process_events
    (FlvHeaderSeen (play_header [v; a])
       :: map FlvTagSeen (map tag_of_payload (build_track_bootstrap_payloads [(v, sv); (a, sa)] mode mute meta)))
    ingress_default
  = (pulling 0, [], Ok tt).
Proof.
  destruct tracks_ok as [(Kv & Cv & _ & Xv) (Ka & Ca & Xa)].
  assert (H : play_header [v; a] = mk_flv_header true true).
  { unfold play_header, track_list_has_audio. cbn [existsb]. by rewrite Kv, Ka. }
  assert (Sk : forall evs i, process_events (map FlvTagSeen (map tag_of_payload (if meta : bool then [mk_payload KindData 0 (build_metadata [(v, sv); (a, sa)])] else [])) ++ evs) i
                             = process_events evs i).
  { intros evs i. destruct meta; [|done]. cbn. by destruct (process_events evs i) as [[? ?] ?]. }
  cbn [process_events process_event]. rewrite H. cbn [has_video has_audio].
  unfold build_track_bootstrap_payloads. rewrite !map_app, Sk. cbn [map concat fst app].
  unfold track_list_has_audio. cbn [existsb]. rewrite Kv, Ka. cbn [negb orb andb]. rewrite andb_false_r. cbn [map].
  unfold bootstrap_of_track at 1. rewrite Cv. destruct (extradata v) as [|sps pps avcc| | | | | | | | |] eqn:Ev; try done.
  unfold build_video_sequence_header. rewrite Cv, Ev.
  destruct (match avcc with Some r => Some r | None => _ end) as [r|] eqn:R; [|done].
  assert (Rc : match avcc with Some _ => avcc | None => build_h264_avcc_from_parameter_sets sps pps end = Some r) by by destruct avcc.
  rewrite Rc. cbn [mbind option_bind fmap option_fmap option_map payload].
  destruct Xv as (X0 & X1 & X2). unfold bootstrap_of_track. rewrite Ca. destruct (extradata a) as [| | | |asc| | | | | |] eqn:Ea; try done.
  unfold build_audio_sequence_header. rewrite Ca, Ea. cbn [payload app map]. unfold tag_of_payload. cbn [pl_kind pl_timestamp_ms pl_bytes].
  assert (PV : pulled_video v = mk_track 0 Video H264 90000 None None
                 (ExH264 (fst (parse_avcc_parameter_sets r)) (snd (parse_avcc_parameter_sets r)) (Some r)) Ready).
  { unfold pulled_video, sent_record, build_video_sequence_header. rewrite Cv, Ev, Rc. cbn [mbind option_bind fmap option_fmap option_map payload app].
    change (default [] _) with r. by destruct (parse_avcc_parameter_sets r). }
  cbn [process_events process_event]. unfold process_tag at 1, process_video_tag. cbn [tag_type payload is_empty app].
  rewrite at_head. change (Z.land (byte_val x17) 15 =? 7) with true. cbv iota. unfold process_h264_video_tag. cbn [payload].
  change (length _ <? 5)%nat with false. cbv iota. replace (at_ _ 1) with 0 by done. cbn [Z.eqb]. change (drop 5 _) with r. rewrite X0.
  destruct (parse_avcc_parameter_sets r) as [sps' pps'] eqn:Pr. cbn [fst snd] in *. rewrite X1, X2. cbn [orb].
  unfold video_track_id. cbn [in_has_video]. unfold announce at 1. cbn [ingress_default in_tracks].
  unfold add_or_update_track at 1. cbn [in_tracks replace_track].
  unfold process_tag, process_audio_tag. cbn [tag_type payload is_empty app].
  rewrite at_head. change (negb _) with false. cbv iota. change (length _ <? 2)%nat with false. cbv iota.
  replace (at_ _ 1) with 0 by done. cbn [Z.eqb]. change (drop 2 _) with asc. unfold pulling, pulled_audio. rewrite Ea, PV.
  destruct (asc_from_bytes asc) as [c|]; [|done]. destruct Xa as [[rate ->] [chans ->]]. done.
Qed.

End pull.

(** [C5] What an HTTP-FLV player is sent is what another server pulls. For an H.264 and an AAC
    track and any frames of theirs, the header, the metadata, the sequence headers and the tags of
    the frames, cut into any segments, make the demuxer and the ingress of the pull announce both
    tracks and give exactly the frames in order: the payloads (Annex B again), the key marks, and
    the times of [tag_times], unwrapped. It asks that the payloads fit into a tag and into the
    buffer of the demuxer, that no decode time steps back by
    more than half the clock, and that the first unit of a
    frame is not of a length that reads like a start code ([lengths_like_start_codes]). *)
Theorem flv_playback_roundtrip v a sv sa mode mute meta frames segs size seg_size max :
  video_ok v -> audio_ok a -> Forall frame_shape frames ->
  steady 0 (map (fun f => fst (tag_times mode f)) frames) ->
  let payloads := build_track_bootstrap_payloads [(v, sv); (a, sa)] mode mute meta
                    ++ omap (fun f => map_frame_to_rtmp_flv_payload f mode [v; a]) frames in
  Forall (fun p => flv_len (pl_bytes p) <= FLV_TAG_DATA_LEN_MAX /\ flv_len (pl_bytes p) + 15 <= size) payloads ->
  15 <= size -> 0 <= seg_size -> size + seg_size <= max + 1 -> Forall (fun s => flv_len s <= seg_size) segs ->
  concat segs = concat (send_play_header_and_bootstrap [(v, sv); (a, sa)] mode mute meta
                          ++ concat (map (send_frame mode [v; a]) frames)) ->
  exists i,
    stream_content segs (flv_demuxer_new max) ingress_default =
      (mk_flv_demuxer [] true max, i, map (pulled_frame mode) frames, Ok tt) /\
    in_tracks i = [pulled_video v; pulled_audio a].
Proof.
  intros Tv Ta F St payloads Fit Sz S0 Room Fs E.
  destruct (frames_go_through v a mode (conj Tv Ta) frames 0 F St) as (ps & i & E1 & E2 & E3 & E4 & E5).
  pose proof (bootstrap_goes_through v a mode (conj Tv Ta) sv sa mute meta) as B.
  set (boot := build_track_bootstrap_payloads [(v, sv); (a, sa)] mode mute meta) in *.
  assert (P : flv_push_all segs (flv_demuxer_new max) =
    (mk_flv_demuxer [] true max, Ok (FlvHeaderSeen (play_header [v; a]) :: map FlvTagSeen (map tag_of_payload (boot ++ ps))))).
  { eapply (flv_tags_arrive max _ (map tag_of_payload (boot ++ ps)) size seg_size); [|done..|].
    - unfold payloads in Fit. rewrite E2 in Fit. apply Forall_map, Forall_forall. intros p Hp.
      pose proof (proj1 (Forall_forall _ _) Fit p Hp) as [F1 F2]. split; [split; [|done]|unfold tag_total; cbn; lia].
      apply elem_of_app in Hp as [Hp|Hp]; [|exact (proj1 (Forall_forall _ _) E3 p Hp)].
      unfold tag_of_payload. cbn [timestamp_ms]. rewrite (bootstrap_times _ _ _ _ p Hp). by vm_compute.
    - rewrite E, E1. unfold send_play_header_and_bootstrap, send_bootstrap_payloads, flv_stream, flv_tags.
      cbn [map fst app concat]. f_equal. fold boot. by rewrite !map_app, !map_map, concat_app. }
  exists i. split; [|done]. eapply stream_content_events; [exact P|].
  rewrite !map_app. change (FlvHeaderSeen ?h :: ?x ++ ?y) with ((FlvHeaderSeen h :: x) ++ y).
  rewrite process_events_app, B, E4. done.
Qed.

(** ** A stream *)

Definition sample_video : TrackInfo :=
  mk_track 7 Video H264 90000 None None (ExH264 [[x67; x64; x00; x1f; xac; xd9; x40; x50]] [[x68; xee; x3c; x80]] None) Ready.
Definition sample_audio : TrackInfo := mk_track 8 Audio AAC 44100 (Some 44100) (Some 2) (ExAAC [x12; x10]) Ready.
Definition no_shape : VideoShape := mk_shape (Some 1280) (Some 720) (Some (30000, 1001)).

Definition sample_frame (id : Z) (kind : MediaKind) (c : CodecId) (pts dts flags : Z) (bytes : list byte) : FlvFrame :=
  mk_flv_frame id kind c pts dts (mk_timebase 1 90000) flags bytes None.

Definition sample_frames : list FlvFrame :=
  [sample_frame 7 Video H264 6000 3000 FLAG_KEY (annexb [[x09; xf0]; [x65; x88; x84; x00; x33]]);
   sample_frame 8 Audio AAC 3100 3100 0 [x21; x10; x04];
   sample_frame 7 Video H264 4500 6000 0 (annexb [[x41; x9a; x02]])].

Fixpoint cut (fuel n : nat) (bs : list byte) : list (list byte) :=
  match fuel, bs with
  | S fuel, _ :: _ => take n bs :: cut fuel n (drop n bs)
  | _, _ => []
  end.

Definition sample_sent : list byte :=
  concat (send_play_header_and_bootstrap [(sample_video, no_shape); (sample_audio, no_shape)] Normal true true
            ++ concat (map (send_frame Normal [sample_video; sample_audio]) sample_frames)).

Lemma flv_playback_roundtrip_witness :
  exists i,
    stream_content (cut 1000 7 sample_sent) (flv_demuxer_new 1024) ingress_default =
      (mk_flv_demuxer [] true 1024, i, map (pulled_frame Normal) sample_frames, Ok tt) /\
    in_tracks i = [pulled_video sample_video; pulled_audio sample_audio].
Proof.
  eapply (flv_playback_roundtrip sample_video sample_audio no_shape no_shape Normal true true sample_frames
            (cut 1000 7 sample_sent) 600 7 1024).
  - by vm_compute.
  - repeat split; by eexists.
  - repeat constructor.
    + exists [[x09; xf0]; [x65; x88; x84; x00; x33]]. repeat (split || constructor); done.
    + exists [[x41; x9a; x02]]. repeat (split || constructor); done.
  - by vm_compute.
  - apply (bool_decide_unpack _). by vm_compute.
  - done.
  - done.
  - done.
  - apply (bool_decide_unpack _). by vm_compute.
  - by vm_compute.
Defined.

(** The third frame is shown before it is decoded; a player of the plain mode is told that it is
    decoded when it is shown. *)
Example times_of_samples :
  map (fun f => (f_dts f, f_pts f)) (map (pulled_frame Normal) sample_frames) = [(33, 67); (34, 34); (50, 50)] /\
  map (fun f => (f_dts f, f_pts f)) (map (pulled_frame Enhanced) sample_frames) = [(33, 67); (34, 34); (67, 50)].
Proof. by vm_compute. Qed.

(** ** What does not come back *)

Definition started : FlvIngress :=
  fst (fst (process_events (FlvHeaderSeen (play_header [sample_video; sample_audio])
     :: map FlvTagSeen (map tag_of_payload
          (build_track_bootstrap_payloads [(sample_video, no_shape); (sample_audio, no_shape)] Normal false false)))
     ingress_default)).

Definition pulled_bytes (tracks : list TrackInfo) (f : FlvFrame) (i : FlvIngress) : option (list byte) :=
  match map_frame_to_rtmp_flv_payload f Normal tracks with
  | Some p =>
      match snd (process_event (FlvTagSeen (tag_of_payload p)) i) with
      | Ok (Some (IngressFrame f)) => Some (f_payload f)
      | _ => None
      end
  | None => None
  end.

(** A slice of 300 bytes stays as it is, with its length in front: 00 00 01 2c reads like a start
    code. *)
Definition slice_300 : list byte := x41 :: x9a :: repeat x77 298.
Theorem lengths_like_start_codes :
  start_code_length slice_300 = true /\
  pulled_bytes [sample_video; sample_audio] (sample_frame 7 Video H264 0 0 0 (annexb [slice_300])) started
    = Some (length_prefixed [slice_300]).
Proof. split; by vm_compute. Qed.

(** Lengths of two bytes, announced by the record, are not converted at the other end. *)
Definition two_byte_video : TrackInfo :=
  mk_track 7 Video H264 90000 None None
    (ExH264 [] [] (Some [x01; x64; x00; x1f; xfd; xe1; x00; x02; x67; x64; x01; x00; x01; x68])) Ready.
Theorem two_byte_lengths_stay :
  pulled_bytes [two_byte_video; sample_audio] (sample_frame 7 Video H264 0 0 0 (annexb [[x41; x9a; x02]])) started
    = Some [x00; x03; x41; x9a; x02].
Proof. by vm_compute. Qed.

(** H.265 always goes out with a FourCC, which the ingress does not know. *)
Theorem h265_is_not_pulled mode f tracks p i :
  f_media_kind f = Video -> f_codec f = H265 -> map_frame_to_rtmp_flv_payload f mode tracks = Some p ->
  exists codec_id, snd (process_event (FlvTagSeen (tag_of_payload p)) i) = Err (UnsupportedCodec TagVideo codec_id) /\
    (codec_id = 1 \/ codec_id = 3).
Proof.
  intros K C. unfold map_frame_to_rtmp_flv_payload. rewrite K, C. cbn [rtmp_playback_codec_supported negb].
  unfold map_non_h264_video_with_track. rewrite C.
  assert (use_enhanced_video_mode mode H265 = true) as -> by (unfold use_enhanced_video_mode; by rewrite orb_comm).
  destruct (normalize_video_timestamp_for_legacy_playback _ _ _) as [ts cts]. cbn [rtmp_fourcc_from_codec mbind option_bind].
  intros [= <-]. unfold tag_of_payload. cbn [pl_kind pl_timestamp_ms pl_bytes process_event].
  unfold process_tag, process_video_tag. cbn [tag_type payload].
  destruct (is_empty (h26x_payload_for_track _ _)), (f_is_key f); cbn [app is_empty]; rewrite at_head;
    (eexists; split; [reflexivity|by vm_compute; auto]).
Qed.

(** Audio and video that reach the end of the 32-bit clock a little apart: the epoch is added for
    each tag from behind the end that a tag from before it precedes. *)
Fixpoint unwrap_all (raws : list Z) (i : FlvIngress) : list Z :=
  match raws with
  | [] => []
  | r :: raws => let '(i, t) := unwrapped_timestamp_ms r i in t :: unwrap_all raws i
  end.
Example interleaved_wrap :
  unwrap_all [2 ^ 32 - 5; 3; 2 ^ 32 - 2; 20] ingress_default = [2 ^ 32 - 5; 2 ^ 32 + 3; 2 * 2 ^ 32 - 2; 2 * 2 ^ 32 + 20].
Proof. by vm_compute. Qed.

(** Times of the egress end at the end of the clock instead. *)
Lemma egress_time_stops dts :
  2 ^ 32 - 1 <= dts < 2 ^ 63 -> dts_to_rtmp_timestamp_ms dts (mk_timebase 1 1000) = 2 ^ 32 - 1.
Proof.
  intros D. unfold dts_to_rtmp_timestamp_ms, millis_to_rtmp_timestamp_ms. rewrite millis_exact by (unfold in_i; cbn in *; lia).
  rewrite (proj2 (Z.leb_gt _ _)) by lia. lia.
Qed.

(** A header that is refused stays in the buffer, and what follows is refused with it. *)
Example refused_header_stays :
  let '(d, r) := flv_push (repeat x00 13) (flv_demuxer_new 1024) in
  r = Err InvalidHeaderSignature /\ snd (flv_push sample_sent d) = Err InvalidHeaderSignature.
Proof. by vm_compute. Qed.

(** Tags in front of a bad one in the same chunk are lost with it. *)
Example tags_lost_with_bad_one :
  let tag := mk_tag TagAudio 0 [xaf; x01; x21] in
  let '(d, _) := flv_push (flv_header_encode (mk_flv_header true false)) (flv_demuxer_new 1024) in
  snd (flv_push (encode_with_previous_tag_size tag) d) = Ok [FlvTagSeen tag] /\
  snd (flv_push (encode_with_previous_tag_size tag ++ repeat x00 15) d) = Err (InvalidTagType 0).
Proof. by vm_compute. Qed.

(** A header with a longer data offset is an error when it comes in two pieces. *)
Example long_header_in_pieces :
  let head := [x46; x4c; x56; x01; x05; x00; x00; x00; x0a; x00; x00; x00; x00] in
  flv_push (head ++ [x00]) (flv_demuxer_new 1024) = (mk_flv_demuxer [] true 1024, Ok [FlvHeaderSeen (mk_flv_header true true)]) /\
  snd (flv_push head (flv_demuxer_new 1024)) = Err (Truncated "flv full header" 14 13).
Proof. by vm_compute. Qed.
