(* ===== verification/Rtcp.v ===== *)
(** * RTCP packets

    Models [crates/protocols/rtsp/core/src/core/rtcp.rs]: compound packets, parsed and built.
    A [String] is the list of its bytes. *)
From Stdlib Require Import Strings.Byte.
From S2P Require Import Prelude RtmpBytes Amf Rtp Tracks.
Local Open Scope string_scope.
Local Open Scope list_scope.
Local Open Scope Z_scope.

(** ** [String::from_utf8_lossy]

    The longest beginning of a character that is not one, or one byte, becomes U+FFFD. *)

Definition REPLACEMENT : list byte := [xef; xbf; xbd].

Fixpoint from_utf8_lossy (bs : list byte) : list byte :=
  match bs with
  | [] => []
  | b0 :: t0 =>
      if byte_val b0 <? 0x80 then b0 :: from_utf8_lossy t0
      else if byte_in 0xC2 0xDF b0 then
        match t0 with
        | b1 :: t1 => if continuation b1 then b0 :: b1 :: from_utf8_lossy t1 else REPLACEMENT ++ from_utf8_lossy t0
        | [] => REPLACEMENT
        end
      else if byte_in 0xE0 0xEF b0 then
        match t0 with
        | b1 :: t1 =>
            if second_byte b0 b1 then
              match t1 with
              | b2 :: t2 => if continuation b2 then b0 :: b1 :: b2 :: from_utf8_lossy t2 else REPLACEMENT ++ from_utf8_lossy t1
              | [] => REPLACEMENT
              end
            else REPLACEMENT ++ from_utf8_lossy t0
        | [] => REPLACEMENT
        end
      else if byte_in 0xF0 0xF4 b0 then
        match t0 with
        | b1 :: t1 =>
            if second_byte b0 b1 then
              match t1 with
              | b2 :: t2 =>
                  if continuation b2 then
                    match t2 with
                    | b3 :: t3 => if continuation b3 then b0 :: b1 :: b2 :: b3 :: from_utf8_lossy t3
                                  else REPLACEMENT ++ from_utf8_lossy t2
                    | [] => REPLACEMENT
                    end
                  else REPLACEMENT ++ from_utf8_lossy t1
              | [] => REPLACEMENT
              end
            else REPLACEMENT ++ from_utf8_lossy t0
        | [] => REPLACEMENT
        end
      else REPLACEMENT ++ from_utf8_lossy t0
  end.

(** ** Data *)

Definition RTCP_PT_SR : Z := 200.
Definition RTCP_PT_RR : Z := 201.
Definition RTCP_PT_SDES : Z := 202.
Definition RTCP_PT_BYE : Z := 203.
Definition RTCP_PT_APP : Z := 204.
Definition SDES_CNAME : Z := 1.
Definition SDES_NAME : Z := 2.
Definition SDES_EMAIL : Z := 3.
Definition SDES_PHONE : Z := 4.
Definition SDES_LOC : Z := 5.
Definition SDES_TOOL : Z := 6.
Definition SDES_NOTE : Z := 7.
Definition SDES_PRIV : Z := 8.
Definition RTCP_COMMON_HEADER_SIZE : nat := 4.
Definition RTCP_SR_BASE_PAYLOAD_SIZE : nat := 24.
Definition RTCP_RR_BASE_PAYLOAD_SIZE : nat := 4.
Definition RTCP_REPORT_BLOCK_SIZE : nat := 24.
Definition RTCP_MAX_REPORT_COUNT : nat := 31.
Definition RTCP_CUMULATIVE_LOST_MAX : Z := 0xFFFFFF.

Inductive RtcpError :=
  | RtcpUnsupportedVersion (actual : Z)
  | RtcpInsufficientData (context : string) (needed actual : nat)
  | RtcpInvalidPadding (padding_size : Z) (available : nat)
  | TooManyReportBlocks (count : nat)
  | TooManySdesChunks (count : nat)
  | TooManyByeSources (count : nat)
  | InvalidAppSubtype (subtype : Z)
  | CumulativeLostOutOfRange (value : Z)
  | SdesItemDataTooLong (item_type : Z) (len : nat)
  | InvalidSdesPrivItem (len prefix_len : nat)
  | ByeReasonTooLong (len : nat)
  | SdesChunkMissingTerminator (chunk_index : nat)
  | PacketTooLarge (words : nat)
  | PayloadNotWordAligned (bytes : nat).

Record RtcpReportBlock := mk_block {
  rb_ssrc : Z; fraction_lost : Z; cumulative_lost : Z; highest_seq : Z; jitter : Z; last_sr : Z; delay_since_sr : Z }.
Record RtcpSenderReport := mk_sr {
  sr_ssrc : Z; ntp_timestamp : Z; rtp_timestamp : Z; packet_count : Z; octet_count : Z; sr_reports : list RtcpReportBlock }.
Record RtcpReceiverReport := mk_rr { rr_ssrc : Z; rr_reports : list RtcpReportBlock }.

Inductive RtcpSdesItem :=
  | Cname (s : list byte) | Name (s : list byte) | Email (s : list byte) | Phone (s : list byte)
  | Loc (s : list byte) | Tool (s : list byte) | Note (s : list byte)
  | Priv (prefix value : list byte) | UnknownItem (item_type : Z) (data : list byte).

Record RtcpSdesChunk := mk_chunk { chunk_ssrc : Z; items : list RtcpSdesItem }.
Record RtcpSdes := mk_sdes { chunks : list RtcpSdesChunk }.
Record RtcpBye := mk_bye { ssrcs : list Z; reason : option (list byte) }.
Record RtcpApp := mk_app { subtype : Z; app_ssrc : Z; app_name : list byte; app_data : list byte }.

Inductive RtcpPacket :=
  | SenderReport (r : RtcpSenderReport)
  | ReceiverReport (r : RtcpReceiverReport)
  | SourceDescription (s : RtcpSdes)
  | Bye (b : RtcpBye)
  | App (a : RtcpApp)
  | UnknownPacket (payload_type count : Z) (payload : list byte).

Definition item_type (item : RtcpSdesItem) : Z :=
  match item with
  | Cname _ => SDES_CNAME | Name _ => SDES_NAME | Email _ => SDES_EMAIL | Phone _ => SDES_PHONE
  | Loc _ => SDES_LOC | Tool _ => SDES_TOOL | Note _ => SDES_NOTE | Priv _ _ => SDES_PRIV
  | UnknownItem t _ => t
  end.

(** ** Parsing *)

(** The integer of [n] bytes at [i]. *)
Definition be_at (raw : list byte) (i n : nat) : Z := be_val (sub_ i n raw).

Definition parse_report_block (data : list byte) : RtcpReportBlock :=
  let fraction_and_lost := be_at data 4 4 in
  mk_block (be_at data 0 4) (Z.shiftr fraction_and_lost 24) (Z.land fraction_and_lost RTCP_CUMULATIVE_LOST_MAX)
    (be_at data 8 4) (be_at data 12 4) (be_at data 16 4) (be_at data 20 4).

Fixpoint report_blocks (count offset : nat) (payload : list byte) : list RtcpReportBlock :=
  match count with
  | O => []
  | S count => parse_report_block (sub_ offset RTCP_REPORT_BLOCK_SIZE payload)
                 :: report_blocks count (offset + RTCP_REPORT_BLOCK_SIZE) payload
  end.

Definition parse_report_blocks (payload : list byte) (report_start_offset report_count : nat) :
    result RtcpError (list RtcpReportBlock) :=
  let expected := (report_start_offset + report_count * RTCP_REPORT_BLOCK_SIZE)%nat in
  if (length payload <? expected)%nat then Err (RtcpInsufficientData "rtcp report blocks" expected (length payload))
  else Ok (report_blocks report_count report_start_offset payload).

Definition parse_sender_report (payload : list byte) (report_count : Z) : result RtcpError RtcpSenderReport :=
  reports <-? parse_report_blocks payload RTCP_SR_BASE_PAYLOAD_SIZE (Z.to_nat report_count) ;;
  Ok (mk_sr (be_at payload 0 4) (be_at payload 4 8) (be_at payload 12 4) (be_at payload 16 4) (be_at payload 20 4) reports).

Definition parse_receiver_report (payload : list byte) (report_count : Z) : result RtcpError RtcpReceiverReport :=
  reports <-? parse_report_blocks payload RTCP_RR_BASE_PAYLOAD_SIZE (Z.to_nat report_count) ;;
  Ok (mk_rr (be_at payload 0 4) reports).

Definition parse_sdes_item (item_type : Z) (item_data : list byte) : result RtcpError RtcpSdesItem :=
  let text := from_utf8_lossy item_data in
  if item_type =? SDES_CNAME then Ok (Cname text)
  else if item_type =? SDES_NAME then Ok (Name text)
  else if item_type =? SDES_EMAIL then Ok (Email text)
  else if item_type =? SDES_PHONE then Ok (Phone text)
  else if item_type =? SDES_LOC then Ok (Loc text)
  else if item_type =? SDES_TOOL then Ok (Tool text)
  else if item_type =? SDES_NOTE then Ok (Note text)
  else if item_type =? SDES_PRIV then
    if is_empty item_data then Err (InvalidSdesPrivItem 0 0)
    else
      let prefix_len := Z.to_nat (at_ item_data 0) in
      if (length item_data <? 1 + prefix_len)%nat then Err (InvalidSdesPrivItem (length item_data) prefix_len)
      else Ok (Priv (from_utf8_lossy (sub_ 1 prefix_len item_data)) (drop (1 + prefix_len) item_data))
  else Ok (UnknownItem item_type item_data).

(** The items of a chunk and the offset behind its padding. *)
Fixpoint sdes_items (fuel : nat) (payload : list byte) (chunk_index chunk_start offset : nat) :
    result RtcpError (nat * list RtcpSdesItem) :=
  match fuel with
  | O => Err (SdesChunkMissingTerminator chunk_index)
  | S fuel =>
      if (length payload <=? offset)%nat then Err (SdesChunkMissingTerminator chunk_index)
      else
        let item_type := at_ payload offset in
        let offset := (offset + 1)%nat in
        if item_type =? 0 then
          let bytes_read := (offset - chunk_start)%nat in
          let padding := ((4 - bytes_read mod 4) mod 4)%nat in
          if (length payload - offset <? padding)%nat
          then Err (RtcpInsufficientData "rtcp sdes chunk padding" (offset + padding) (length payload))
          else Ok ((offset + padding)%nat, [])
        else if (length payload <=? offset)%nat
        then Err (RtcpInsufficientData "rtcp sdes item length" (offset + 1) (length payload))
        else
          let item_len := Z.to_nat (at_ payload offset) in
          let offset := (offset + 1)%nat in
          if (length payload - offset <? item_len)%nat
          then Err (RtcpInsufficientData "rtcp sdes item data" (offset + item_len) (length payload))
          else
            item <-? parse_sdes_item item_type (sub_ offset item_len payload) ;;
            rest <-? sdes_items fuel payload chunk_index chunk_start (offset + item_len) ;;
            Ok (fst rest, item :: snd rest)
  end.

Fixpoint sdes_chunks (count chunk_index : nat) (payload : list byte) (offset : nat) :
    result RtcpError (list RtcpSdesChunk) :=
  match count with
  | O => Ok []
  | S count =>
      if (length payload - offset <? 4)%nat
      then Err (RtcpInsufficientData "rtcp sdes chunk ssrc" (offset + 4) (length payload))
      else
        let ssrc := be_at payload offset 4 in
        read <-? sdes_items (length payload) payload chunk_index offset (offset + 4) ;;
        rest <-? sdes_chunks count (S chunk_index) payload (fst read) ;;
        Ok (mk_chunk ssrc (snd read) :: rest)
  end.

Definition parse_source_description (payload : list byte) (chunk_count : Z) : result RtcpError RtcpSdes :=
  chunks <-? sdes_chunks (Z.to_nat chunk_count) 0 payload 0 ;; Ok (mk_sdes chunks).

Fixpoint bye_ssrcs (count offset : nat) (payload : list byte) : list Z :=
  match count with
  | O => []
  | S count => be_at payload offset 4 :: bye_ssrcs count (offset + 4) payload
  end.

Definition parse_bye (payload : list byte) (source_count : Z) : result RtcpError RtcpBye :=
  let required_ssrc_bytes := (Z.to_nat source_count * 4)%nat in
  if (length payload <? required_ssrc_bytes)%nat
  then Err (RtcpInsufficientData "rtcp bye ssrc list" required_ssrc_bytes (length payload))
  else
    let ssrcs := bye_ssrcs (Z.to_nat source_count) 0 payload in
    let remaining := drop required_ssrc_bytes payload in
    if is_empty remaining then Ok (mk_bye ssrcs None)
    else
      let reason_len := Z.to_nat (at_ remaining 0) in
      if (length remaining <? reason_len + 1)%nat
      then Err (RtcpInsufficientData "rtcp bye reason" (required_ssrc_bytes + reason_len + 1) (length payload))
      else Ok (mk_bye ssrcs (Some (from_utf8_lossy (sub_ 1 reason_len remaining)))).

Definition parse_app (payload : list byte) (subtype : Z) : result RtcpError RtcpApp :=
  if (length payload <? 8)%nat then Err (RtcpInsufficientData "rtcp app packet" 8 (length payload))
  else Ok (mk_app subtype (be_at payload 0 4) (sub_ 4 4 payload) (drop 8 payload)).

(** The payload without its padding. *)
Definition strip_padding (payload : list byte) : result RtcpError (list byte) :=
  match last payload with
  | None => Err (RtcpInvalidPadding 0 0)
  | Some b =>
      let padding_size := byte_val b in
      if (padding_size =? 0) || (length payload <? Z.to_nat padding_size)%nat
      then Err (RtcpInvalidPadding padding_size (length payload))
      else Ok (take (length payload - Z.to_nat padding_size) payload)
  end.

Definition parse_payload (payload_type count : Z) (payload : list byte) : result RtcpError RtcpPacket :=
  if payload_type =? RTCP_PT_SR then result_map SenderReport (parse_sender_report payload count)
  else if payload_type =? RTCP_PT_RR then result_map ReceiverReport (parse_receiver_report payload count)
  else if payload_type =? RTCP_PT_SDES then result_map SourceDescription (parse_source_description payload count)
  else if payload_type =? RTCP_PT_BYE then result_map Bye (parse_bye payload count)
  else if payload_type =? RTCP_PT_APP then result_map App (parse_app payload count)
  else Ok (UnknownPacket payload_type count payload).

Definition parse_one (data : list byte) : result RtcpError (RtcpPacket * nat) :=
  let first := at_ data 0 in
  let version := Z.shiftr first 6 in
  if negb (version =? 2) then Err (RtcpUnsupportedVersion version)
  else
    let has_padding := negb (Z.land first 0x20 =? 0) in
    let count := Z.land first 0x1f in
    let payload_type := at_ data 1 in
    let length_words := Z.to_nat (be_at data 2 2) in
    let payload_size := (length_words * 4)%nat in
    let packet_size := (RTCP_COMMON_HEADER_SIZE + payload_size)%nat in
    if (length data <? packet_size)%nat then Err (RtcpInsufficientData "rtcp packet payload" packet_size (length data))
    else
      let payload := sub_ RTCP_COMMON_HEADER_SIZE payload_size data in
      payload <-? (if has_padding then strip_padding payload else Ok payload) ;;
      packet <-? parse_payload payload_type count payload ;;
      Ok (packet, packet_size).

Fixpoint parse_loop (fuel : nat) (data : list byte) (offset : nat) : result RtcpError (list RtcpPacket) :=
  match fuel with
  | O => Ok []
  | S fuel =>
      if (RTCP_COMMON_HEADER_SIZE <=? length data - offset)%nat then
        one <-? parse_one (drop offset data) ;;
        rest <-? parse_loop fuel data (offset + snd one) ;;
        Ok (fst one :: rest)
      else Ok []
  end.

(** A packet takes four bytes or more. *)
Definition rtcp_parse (data : list byte) : result RtcpError (list RtcpPacket) := parse_loop (length data) data 0.

(** ** Building

    What a function appends; on an error the caller drops what was written. *)

Definition write_packet_header (payload_type count : Z) (payload_bytes : nat) : result RtcpError (list byte) :=
  if negb (payload_bytes mod 4 =? 0)%nat then Err (PayloadNotWordAligned payload_bytes)
  else
    let length_words := (payload_bytes / 4)%nat in
    if 65535 <? Z.of_nat length_words then Err (PacketTooLarge length_words)
    else Ok (byte_of (Z.lor (Z.shiftl 2 6) (Z.land count 0x1f)) :: byte_of payload_type :: be_bytes 2 (Z.of_nat length_words)).

Definition write_report_block (report : RtcpReportBlock) : list byte :=
  be_bytes 4 (rb_ssrc report)
  ++ be_bytes 4 (Z.lor (wrap_u 32 (Z.shiftl (fraction_lost report) 24)) (Z.land (cumulative_lost report) 0xFFFFFF))
  ++ be_bytes 4 (highest_seq report) ++ be_bytes 4 (jitter report) ++ be_bytes 4 (last_sr report)
  ++ be_bytes 4 (delay_since_sr report).

Fixpoint write_report_blocks (reports : list RtcpReportBlock) : result RtcpError (list byte) :=
  match reports with
  | [] => Ok []
  | report :: reports =>
      if RTCP_CUMULATIVE_LOST_MAX <? cumulative_lost report
      then Err (CumulativeLostOutOfRange (cumulative_lost report))
      else rest <-? write_report_blocks reports ;; Ok (write_report_block report ++ rest)
  end.

Definition build_sender_report (sr : RtcpSenderReport) : result RtcpError (list byte) :=
  let report_count := length (sr_reports sr) in
  if (RTCP_MAX_REPORT_COUNT <? report_count)%nat then Err (TooManyReportBlocks report_count)
  else
    let length_words := (6 + report_count * 6)%nat in
    if 65535 <? Z.of_nat length_words then Err (PacketTooLarge length_words)
    else
      header <-? write_packet_header RTCP_PT_SR (Z.of_nat report_count) (length_words * 4) ;;
      blocks <-? write_report_blocks (sr_reports sr) ;;
      Ok (header ++ be_bytes 4 (sr_ssrc sr) ++ be_bytes 8 (ntp_timestamp sr) ++ be_bytes 4 (rtp_timestamp sr)
            ++ be_bytes 4 (packet_count sr) ++ be_bytes 4 (octet_count sr) ++ blocks).

Definition build_receiver_report (rr : RtcpReceiverReport) : result RtcpError (list byte) :=
  let report_count := length (rr_reports rr) in
  if (RTCP_MAX_REPORT_COUNT <? report_count)%nat then Err (TooManyReportBlocks report_count)
  else
    let length_words := (1 + report_count * 6)%nat in
    if 65535 <? Z.of_nat length_words then Err (PacketTooLarge length_words)
    else
      header <-? write_packet_header RTCP_PT_RR (Z.of_nat report_count) (length_words * 4) ;;
      blocks <-? write_report_blocks (rr_reports rr) ;;
      Ok (header ++ be_bytes 4 (rr_ssrc rr) ++ blocks).

Definition build_sdes_item_data (item : RtcpSdesItem) : result RtcpError (list byte) :=
  match item with
  | Cname s | Name s | Email s | Phone s | Loc s | Tool s | Note s => Ok s
  | Priv prefix value =>
      let len := (1 + length prefix + length value)%nat in
      if (255 <? len)%nat then Err (SdesItemDataTooLong SDES_PRIV len)
      else Ok (byte_of (Z.of_nat (length prefix)) :: prefix ++ value)
  | UnknownItem _ data => Ok data
  end.

(** [while payload.len() % 4 != 0 { payload.push(0) }]. *)
Definition zeros_to_word (payload : list byte) : list byte := repeat x00 ((4 - length payload mod 4) mod 4).
Definition pad_to_word (payload : list byte) : list byte := payload ++ zeros_to_word payload.

Fixpoint write_items (l : list RtcpSdesItem) : result RtcpError (list byte) :=
  match l with
  | [] => Ok []
  | item :: l =>
      item_data <-? build_sdes_item_data item ;;
      if (255 <? length item_data)%nat then Err (SdesItemDataTooLong (item_type item) (length item_data))
      else
        rest <-? write_items l ;;
        Ok (byte_of (item_type item) :: byte_of (Z.of_nat (length item_data)) :: item_data ++ rest)
  end.

(** The chunks behind the payload so far. *)
Fixpoint write_chunks (payload : list byte) (l : list RtcpSdesChunk) : result RtcpError (list byte) :=
  match l with
  | [] => Ok payload
  | chunk :: l =>
      written <-? write_items (items chunk) ;;
      write_chunks (pad_to_word (payload ++ be_bytes 4 (chunk_ssrc chunk) ++ written ++ [x00])) l
  end.

Definition build_source_description (sdes : RtcpSdes) : result RtcpError (list byte) :=
  let chunk_count := length (chunks sdes) in
  if (RTCP_MAX_REPORT_COUNT <? chunk_count)%nat then Err (TooManySdesChunks chunk_count)
  else
    payload <-? write_chunks [] (chunks sdes) ;;
    header <-? write_packet_header RTCP_PT_SDES (Z.of_nat chunk_count) (length payload) ;;
    Ok (header ++ payload).

Definition build_bye (bye : RtcpBye) : result RtcpError (list byte) :=
  let source_count := length (ssrcs bye) in
  if (RTCP_MAX_REPORT_COUNT <? source_count)%nat then Err (TooManyByeSources source_count)
  else
    let payload := concat (map (be_bytes 4) (ssrcs bye)) in
    payload <-? match reason bye with
                | Some reason =>
                    if (255 <? length reason)%nat then Err (ByeReasonTooLong (length reason))
                    else Ok (pad_to_word (payload ++ byte_of (Z.of_nat (length reason)) :: reason))
                | None => Ok payload
                end ;;
    header <-? write_packet_header RTCP_PT_BYE (Z.of_nat source_count) (length payload) ;;
    Ok (header ++ payload).

Definition build_app (app : RtcpApp) : result RtcpError (list byte) :=
  if 31 <? subtype app then Err (InvalidAppSubtype (subtype app))
  else
    let payload := pad_to_word (be_bytes 4 (app_ssrc app) ++ app_name app ++ app_data app) in
    header <-? write_packet_header RTCP_PT_APP (subtype app) (length payload) ;;
    Ok (header ++ payload).

Definition build_one (packet : RtcpPacket) : result RtcpError (list byte) :=
  match packet with
  | SenderReport sr => build_sender_report sr
  | ReceiverReport rr => build_receiver_report rr
  | SourceDescription sdes => build_source_description sdes
  | Bye bye => build_bye bye
  | App app => build_app app
  | UnknownPacket payload_type count payload =>
      header <-? write_packet_header payload_type count (length payload) ;; Ok (header ++ payload)
  end.

Fixpoint rtcp_build (packets : list RtcpPacket) : result RtcpError (list byte) :=
  match packets with
  | [] => Ok []
  | packet :: packets =>
      one <-? build_one packet ;; rest <-? rtcp_build packets ;; Ok (one ++ rest)
  end.

(** ** What was built is parsed *)

Lemma lossy_of_utf8 s : utf8_valid s = true -> from_utf8_lossy s = s.
Proof.
  remember (length s) as n eqn:L. revert s L. induction (lt_wf n) as [n _ IH]. intros [|b0 t0] -> V; [done|].
  cbn [utf8_valid from_utf8_lossy] in *. cbn [length] in IH.
  destruct (byte_val b0 <? 0x80); [f_equal; by apply (IH (length t0)); [lia|..]|].
  destruct t0 as [|b1 t1]; [done|]. destruct (byte_in 0xC2 0xDF b0) eqn:E2.
  { apply andb_prop in V as [-> V]. do 2 f_equal. cbn [length] in IH. by apply (IH (length t1)); [lia|..]. }
  destruct t1 as [|b2 t2]; [done|]. destruct (byte_in 0xE0 0xEF b0) eqn:E3.
  { apply andb_prop in V as [[-> ->]%andb_prop V]. do 3 f_equal. cbn [length] in IH. by apply (IH (length t2)); [lia|..]. }
  destruct t2 as [|b3 t3]; [done|]. apply andb_prop in V as [V0 V]. apply andb_prop in V0 as [V0 ->].
  apply andb_prop in V0 as [V0 ->]. apply andb_prop in V0 as [-> ->]. do 4 f_equal.
  cbn [length] in IH. by apply (IH (length t3)); [lia|..].
Qed.

Lemma be_at_skip p q i n : (length p <= i)%nat -> be_at (p ++ q) i n = be_at q (i - length p) n.
Proof. intros L. unfold be_at. by rewrite sub_app_r. Qed.

Lemma be_at_here n z q : in_u (8 * Z.of_nat n) z -> be_at (be_bytes n z ++ q) 0 n = z.
Proof. exact (sub_be_bytes [] q n z). Qed.

Lemma be_at_mid pre k z rest : in_u (8 * Z.of_nat k) z -> be_at (pre ++ be_bytes k z ++ rest) (length pre) k = z.
Proof. apply sub_be_bytes. Qed.

(** Reads the integer at a fixed offset behind integers. *)
Ltac field_back :=
  repeat (rewrite be_at_skip by (rewrite length_be_bytes; lia); rewrite length_be_bytes; cbn [Nat.sub]);
  apply be_at_here; assumption.

Lemma at_mid pre b rest : at_ (pre ++ b :: rest) (length pre) = byte_val b.
Proof. unfold at_. by rewrite nth_middle. Qed.

Lemma sub_mid pre p rest : sub_ (length pre) (length p) (pre ++ p ++ rest) = p.
Proof. rewrite sub_app_r, Nat.sub_diag by done. apply sub_app_l. Qed.

Lemma drop_mid (pre rest : list byte) : drop (length pre) (pre ++ rest) = rest.
Proof. by rewrite drop_app_length. Qed.

(** *** Report blocks *)

Definition block_ok (b : RtcpReportBlock) : Prop :=
  in_u 32 (rb_ssrc b) /\ in_u 8 (fraction_lost b) /\ in_u 32 (cumulative_lost b) /\ in_u 32 (highest_seq b) /\
  in_u 32 (jitter b) /\ in_u 32 (last_sr b) /\ in_u 32 (delay_since_sr b).

Lemma length_write_block b : length (write_report_block b) = 24%nat.
Proof. unfold write_report_block. by rewrite !length_app, !length_be_bytes. Qed.

Lemma lost_fields f c :
  in_u 8 f -> 0 <= c <= RTCP_CUMULATIVE_LOST_MAX ->
  let v := Z.lor (wrap_u 32 (Z.shiftl f 24)) (Z.land c 0xFFFFFF) in
  in_u 32 v /\ Z.shiftr v 24 = f /\ Z.land v RTCP_CUMULATIVE_LOST_MAX = c.
Proof.
  unfold in_u, RTCP_CUMULATIVE_LOST_MAX. intros F C. cbv zeta. change 0xFFFFFF with (Z.ones 24).
  change (2 ^ 8) with 256 in F. change (2 ^ 32) with 4294967296.
  rewrite (Z.land_ones c) by lia. change (2 ^ 24) with 16777216. rewrite (Z.mod_small c) by lia.
  rewrite Z.shiftl_mul_pow2 by lia. change (2 ^ 24) with 16777216. unfold wrap_u. change (2 ^ 32) with 4294967296.
  rewrite (Z.mod_small (f * 16777216)) by lia.
  rewrite (lor_add _ _ 24) by (try lia; change (2 ^ 24) with 16777216; try apply Z_mod_mult; lia).
  rewrite Z.land_ones, Z.shiftr_div_pow2 by lia. change (2 ^ 24) with 16777216. split; [lia|]. split; zdm.
Qed.

Lemma block_back b :
  block_ok b -> cumulative_lost b <= RTCP_CUMULATIVE_LOST_MAX -> parse_report_block (write_report_block b) = b.
Proof.
  intros (A1 & A2 & A3 & A4 & A5 & A6 & A7) M.
  destruct (lost_fields (fraction_lost b) (cumulative_lost b) A2) as (B1 & B2 & B3); [unfold in_u in A3; lia|].
  unfold parse_report_block, write_report_block. rewrite <- (app_nil_r (be_bytes 4 (delay_since_sr b))).
  set (v := Z.lor _ _) in *. destruct b as [s f c h j l d]. cbn [rb_ssrc fraction_lost cumulative_lost highest_seq jitter last_sr delay_since_sr] in *.
  match goal with |- context [be_at ?raw 4 4] => assert (be_at raw 4 4 = v) as -> by field_back end.
  rewrite B2, B3. f_equal; field_back.
Qed.

Lemma write_blocks_all rs w :
  write_report_blocks rs = Ok w ->
  w = concat (map write_report_block rs) /\ Forall (fun b => cumulative_lost b <= RTCP_CUMULATIVE_LOST_MAX) rs.
Proof.
  revert w. induction rs as [|r rs IH]; intros w; cbn [write_report_blocks]; [by intros [= <-]|].
  destruct (Z.ltb_spec RTCP_CUMULATIVE_LOST_MAX (cumulative_lost r)); [done|].
  destruct (write_report_blocks rs) as [w'|]; [|done]. intros [= <-]. destruct (IH w' eq_refl) as [-> F]. split; [done|].
  by constructor.
Qed.

Lemma blocks_back rs pre rest :
  Forall block_ok rs -> Forall (fun b => cumulative_lost b <= RTCP_CUMULATIVE_LOST_MAX) rs ->
  report_blocks (length rs) (length pre) (pre ++ concat (map write_report_block rs) ++ rest) = rs.
Proof.
  intros F M. revert pre. induction F as [|r rs Hr F IH]; intros pre; [done|]. apply Forall_cons in M as [Mr M].
  cbn [length report_blocks map concat]. rewrite <- app_assoc. f_equal.
  - unfold RTCP_REPORT_BLOCK_SIZE. rewrite <- (length_write_block r), sub_mid. by apply block_back.
  - specialize (IH M (pre ++ write_report_block r)). rewrite length_app, length_write_block, <- app_assoc in IH. exact IH.
Qed.

Lemma length_blocks rs : length (concat (map write_report_block rs)) = (length rs * 24)%nat.
Proof. induction rs; [done|]. cbn [map concat]. rewrite length_app, length_write_block, IHrs. cbn. lia. Qed.

Lemma parse_blocks_back rs pre w :
  Forall block_ok rs -> write_report_blocks rs = Ok w ->
  parse_report_blocks (pre ++ w) (length pre) (length rs) = Ok rs.
Proof.
  intros F [-> M]%write_blocks_all. unfold parse_report_blocks. rewrite length_app, length_blocks, Nat.ltb_irrefl.
  f_equal. rewrite <- (app_nil_r (concat _)). by apply blocks_back.
Qed.

(** *** Source descriptions *)

(** Text of an item is UTF-8; an item that is not known has a type of its own. *)
Definition item_ok (item : RtcpSdesItem) : Prop :=
  match item with
  | Cname s | Name s | Email s | Phone s | Loc s | Tool s | Note s => utf8_valid s = true
  | Priv prefix _ => utf8_valid prefix = true
  | UnknownItem t _ => 8 < t < 256
  end.

Lemma item_type_range item : item_ok item -> 0 < item_type item < 256.
Proof. destruct item; cbn; try (intros; by vm_compute). lia. Qed.

Lemma item_back item d :
  item_ok item -> build_sdes_item_data item = Ok d -> parse_sdes_item (item_type item) d = Ok item.
Proof.
  destruct item as [s|s|s|s|s|s|s|p v|t d']; cbn [item_ok build_sdes_item_data];
    try (intros V [= <-]; cbn; by rewrite lossy_of_utf8).
  - intros V. destruct (Nat.ltb_spec 255 (1 + length p + length v)) as [|L]; [done|]. intros [= <-].
    unfold parse_sdes_item. cbn [item_type Z.eqb Pos.eqb is_empty SDES_CNAME SDES_NAME SDES_EMAIL SDES_PHONE SDES_LOC SDES_TOOL SDES_NOTE SDES_PRIV].
    assert (Z.to_nat (at_ (byte_of (Z.of_nat (length p)) :: p ++ v) 0) = length p) as ->.
    { unfold at_. cbn [nth]. rewrite byte_val_of, Z.mod_small by lia. by rewrite Nat2Z.id. }
    cbn [length]. rewrite length_app, (proj2 (Nat.ltb_ge _ _)) by lia.
    change (sub_ 1 (length p) (_ :: p ++ v)) with (take (length p) (p ++ v)).
    change (drop (1 + length p) (_ :: p ++ v)) with (drop (length p) (p ++ v)).
    by rewrite take_app_length, drop_app_length, lossy_of_utf8.
  - intros T [= <-]. unfold parse_sdes_item, SDES_CNAME, SDES_NAME, SDES_EMAIL, SDES_PHONE, SDES_LOC, SDES_TOOL, SDES_NOTE, SDES_PRIV.
    cbn [item_type]. repeat (rewrite (proj2 (Z.eqb_neq _ _)) by lia). done.
Qed.

Lemma write_items_cons item l w :
  write_items (item :: l) = Ok w ->
  exists d w', build_sdes_item_data item = Ok d /\ (length d <= 255)%nat /\ write_items l = Ok w' /\
    w = byte_of (item_type item) :: byte_of (Z.of_nat (length d)) :: d ++ w'.
Proof.
  cbn [write_items]. destruct (build_sdes_item_data item) as [d|]; [cbn [result_bind]|done].
  destruct (Nat.ltb_spec 255 (length d)); [done|]. destruct (write_items l) as [w'|]; [|done].
  intros [= <-]. by exists d, w'.
Qed.

Lemma mod_from_start a s : (s <= a)%nat -> (s mod 4 = 0)%nat -> ((a - s) mod 4 = a mod 4)%nat.
Proof.
  intros L E%Nat.Div0.div_exact. rewrite <- (Nat.Div0.mod_add (a - s) (s / 4) 4). f_equal. lia.
Qed.

(** The end of the items of a chunk that starts at [start]. *)
Lemma items_back l w fuel pre idx start rest :
  Forall item_ok l -> write_items l = Ok w -> (start <= length pre)%nat -> (start mod 4 = 0)%nat ->
  (length l < fuel)%nat ->
  let body := pad_to_word (pre ++ w ++ [x00]) in
  sdes_items fuel (body ++ rest) idx start (length pre) = Ok (length body, l).
Proof.
  intros F. revert w fuel pre. induction F as [|item l Hi F IH]; intros w fuel pre W S0 S4 L body.
  - injection W as <-. destruct fuel as [|fuel]; [lia|].
    assert (B : body ++ rest = pre ++ x00 :: zeros_to_word (pre ++ [x00]) ++ rest).
    { unfold body, pad_to_word. cbn [app]. by rewrite <- !app_assoc. }
    assert (Lb : length body = (length pre + 1 + (4 - (length pre + 1) mod 4) mod 4)%nat).
    { unfold body, pad_to_word, zeros_to_word. cbn [app]. rewrite !length_app, repeat_length. cbn [length]. lia. }
    cbn [sdes_items]. rewrite length_app, B, at_mid, Lb.
    rewrite (proj2 (Nat.leb_gt _ _)) by lia. change (byte_val x00 =? 0) with true. cbv iota.
    assert ((length pre + 1 - start) mod 4 = (length pre + 1) mod 4)%nat as -> by (apply mod_from_start; lia).
    rewrite (proj2 (Nat.ltb_ge _ _)) by lia. done.
  - apply write_items_cons in W as (d & w' & D & Ld & W & ->). destruct fuel as [|fuel]; [cbn in L; lia|].
    pose proof (item_type_range _ Hi) as T.
    set (pre' := pre ++ byte_of (item_type item) :: byte_of (Z.of_nat (length d)) :: d).
    assert (B : body = pad_to_word (pre' ++ w' ++ [x00])).
    { unfold body, pre'. f_equal. cbn [app]. rewrite <- !app_assoc. cbn [app]. rewrite <- ?app_assoc. done. }
    assert (Lp : length pre' = (length pre + 2 + length d)%nat) by (unfold pre'; rewrite length_app; cbn; lia).
    specialize (IH w' fuel pre' W ltac:(lia) S4 ltac:(cbn in L; lia)). cbv zeta in IH. rewrite <- B in IH.
    set (tail := w' ++ [x00] ++ zeros_to_word (pre' ++ w' ++ [x00]) ++ rest).
    assert (E : body ++ rest = pre ++ byte_of (item_type item) :: byte_of (Z.of_nat (length d)) :: d ++ tail).
    { rewrite B. unfold tail, pad_to_word, pre'. rewrite <- !app_assoc. cbn [app]. rewrite <- ?app_assoc. done. }
    assert (Lt : length (body ++ rest) = (length pre + 2 + length d + length tail)%nat).
    { rewrite E, length_app. cbn [length]. rewrite length_app. lia. }
    assert (A0 : at_ (body ++ rest) (length pre) = item_type item).
    { rewrite E, at_mid, byte_val_of. apply Z.mod_small. lia. }
    assert (A1 : at_ (body ++ rest) (length pre + 1) = Z.of_nat (length d)).
    { pose proof (at_mid (pre ++ [byte_of (item_type item)]) (byte_of (Z.of_nat (length d))) (d ++ tail)) as M.
      rewrite length_app in M. cbn [length] in M. rewrite <- app_assoc in M. cbn [app] in M.
      rewrite E, M, byte_val_of. apply Z.mod_small. lia. }
    assert (A2 : sub_ (length pre + 1 + 1) (length d) (body ++ rest) = d).
    { pose proof (sub_mid (pre ++ [byte_of (item_type item); byte_of (Z.of_nat (length d))]) d tail) as M.
      rewrite length_app in M. cbn [length] in M. rewrite <- app_assoc in M. cbn [app] in M.
      rewrite E. by replace (length pre + 1 + 1)%nat with (length pre + 2)%nat by lia. }
    cbn [sdes_items]. rewrite A0, A1, Nat2Z.id, A2.
    rewrite (proj2 (Nat.leb_gt _ _)) by lia. rewrite (proj2 (Z.eqb_neq _ _)) by lia.
    rewrite (proj2 (Nat.leb_gt _ _)) by lia. rewrite (proj2 (Nat.ltb_ge _ _)) by lia.
    rewrite (item_back item d Hi D). cbn [result_bind].
    replace (length pre + 1 + 1 + length d)%nat with (length pre') by lia. by rewrite IH.
Qed.

Definition chunk_ok (c : RtcpSdesChunk) : Prop := in_u 32 (chunk_ssrc c) /\ Forall item_ok (items c).

Lemma length_items l w : write_items l = Ok w -> (2 * length l <= length w)%nat.
Proof.
  revert w. induction l as [|item l IH]; intros w; [cbn; lia|].
  intros (d & w' & _ & _ & W & ->)%write_items_cons. specialize (IH w' W). cbn [length]. rewrite length_app. lia.
Qed.

Lemma length_padded p : exists k, (length (pad_to_word p) = 4 * k /\ length p <= 4 * k)%nat.
Proof.
  unfold pad_to_word, zeros_to_word. rewrite length_app, repeat_length.
  pose proof (Nat.div_mod_eq (length p) 4) as E. pose proof (Nat.mod_upper_bound (length p) 4 ltac:(done)) as R.
  generalize dependent (length p / 4)%nat. generalize dependent (length p). intros n R q. revert R.
  destruct (n mod 4)%nat as [|[|[|[|r]]]]; intros R E; [exists q|exists (S q)..|lia]; cbn -[Nat.mul]; lia.
Qed.

Lemma chunks_back cs pre out idx rest :
  Forall chunk_ok cs -> (length pre mod 4 = 0)%nat -> write_chunks pre cs = Ok out ->
  (length out mod 4 = 0)%nat /\ exists w, out = pre ++ w /\ sdes_chunks (length cs) idx (out ++ rest) (length pre) = Ok cs.
Proof.
  intros F. revert pre idx. induction F as [|c cs [Hs Hc] F IH]; intros pre idx P; cbn [write_chunks].
  { intros [= <-]. split; [done|]. exists []. by rewrite app_nil_r. }
  destruct (write_items (items c)) as [w|] eqn:W; [|done]. cbn [result_bind]. intros E.
  set (pre' := pre ++ be_bytes 4 (chunk_ssrc c)) in *.
  set (body := pad_to_word (pre ++ be_bytes 4 (chunk_ssrc c) ++ w ++ [x00])) in *.
  assert (B : body = pad_to_word (pre' ++ w ++ [x00])) by (unfold body, pre'; by rewrite <- app_assoc).
  assert (B4 : (length body mod 4 = 0)%nat).
  { destruct (length_padded (pre' ++ w ++ [x00])) as (k & Lk & _). rewrite B, Lk, Nat.mul_comm. apply Nat.Div0.mod_mul. }
  destruct (IH body (S idx) B4 E) as (O4 & u & Eo & Es). split; [done|].
  assert (Eb : exists z, body = pre ++ be_bytes 4 (chunk_ssrc c) ++ z).
  { unfold body, pad_to_word. rewrite <- !app_assoc. by eexists. }
  destruct Eb as [z Eb]. exists (be_bytes 4 (chunk_ssrc c) ++ z ++ u). split; [rewrite Eo, Eb; by rewrite <- !app_assoc|].
  assert (Lp : length pre' = (length pre + 4)%nat) by (unfold pre'; by rewrite length_app, length_be_bytes).
  pose proof (length_items _ _ W) as Li.
  assert (Ll : (length (out ++ rest) = length body + length u + length rest)%nat) by (rewrite Eo, !length_app; lia).
  assert (Lb : (length pre' + length w + 1 <= length body)%nat).
  { rewrite B. unfold pad_to_word. rewrite !length_app. cbn. lia. }
  cbn [length sdes_chunks]. rewrite (proj2 (Nat.ltb_ge _ _)) by lia.
  assert (be_at (out ++ rest) (length pre) 4 = chunk_ssrc c) as ->.
  { rewrite Eo, Eb, <- !app_assoc. by apply be_at_mid. }
  assert (I : sdes_items (length (out ++ rest)) (out ++ rest) idx (length pre) (length pre + 4) = Ok (length body, items c)).
  { rewrite <- Lp. pose proof (items_back (items c) w (length (out ++ rest)) pre' idx (length pre) (u ++ rest) Hc W) as I.
    rewrite <- B in I. rewrite Eo, <- app_assoc in *. apply I; lia. }
  rewrite I. cbn [result_bind fst snd]. rewrite Es. by destruct c.
Qed.

(** *** Packets *)

Definition packet_ok (packet : RtcpPacket) : Prop :=
  match packet with
  | SenderReport sr =>
      in_u 32 (sr_ssrc sr) /\ in_u 64 (ntp_timestamp sr) /\ in_u 32 (rtp_timestamp sr) /\ in_u 32 (packet_count sr) /\
      in_u 32 (octet_count sr) /\ Forall block_ok (sr_reports sr)
  | ReceiverReport rr => in_u 32 (rr_ssrc rr) /\ Forall block_ok (rr_reports rr)
  | SourceDescription sdes => Forall chunk_ok (chunks sdes)
  | Bye bye => Forall (in_u 32) (ssrcs bye) /\ default true (utf8_valid <$> reason bye) = true
  | App app => in_u 8 (subtype app) /\ in_u 32 (app_ssrc app) /\ length (app_name app) = 4%nat
  | UnknownPacket payload_type count _ =>
      in_u 8 payload_type /\ ~ (200 <= payload_type <= 204) /\ 0 <= count < 32
  end.

(** The data of an application packet comes with its padding. *)
Definition received (packet : RtcpPacket) : RtcpPacket :=
  match packet with
  | App app =>
      App (mk_app (subtype app) (app_ssrc app) (app_name app) (app_data app ++ zeros_to_word (app_data app)))
  | _ => packet
  end.

Lemma ssrcs_back l pre rest :
  Forall (in_u 32) l -> bye_ssrcs (length l) (length pre) (pre ++ concat (map (be_bytes 4) l) ++ rest) = l.
Proof.
  intros F. revert pre. induction F as [|s l Hs F IH]; intros pre; [done|].
  cbn [length bye_ssrcs map concat]. rewrite <- app_assoc, be_at_mid by done. f_equal.
  specialize (IH (pre ++ be_bytes 4 s)). rewrite length_app, length_be_bytes, <- app_assoc in IH. exact IH.
Qed.

Lemma length_ssrcs l : length (concat (map (be_bytes 4) l)) = (length l * 4)%nat.
Proof. induction l as [|s l IH]; [done|]. cbn [map concat]. rewrite length_app, length_be_bytes, IH. cbn. lia. Qed.

Lemma bye_back l r p :
  Forall (in_u 32) l -> (length l <= 31)%nat -> default true (utf8_valid <$> r) = true ->
  match r with
  | Some reason => if (255 <? length reason)%nat then Err (ByeReasonTooLong (length reason))
                   else Ok (pad_to_word (concat (map (be_bytes 4) l) ++ byte_of (Z.of_nat (length reason)) :: reason))
  | None => Ok (concat (map (be_bytes 4) l))
  end = Ok p -> parse_bye p (Z.of_nat (length l)) = Ok (mk_bye l r).
Proof.
  intros F L V. set (w := concat _). assert (Lw : length w = (length l * 4)%nat) by apply length_ssrcs.
  unfold parse_bye. rewrite Nat2Z.id. destruct r as [reason|].
  - destruct (Nat.ltb_spec 255 (length reason)) as [|Lr]; [done|]. intros [= <-].
    unfold pad_to_word. set (zs := zeros_to_word _). rewrite <- app_assoc. cbn [app].
    rewrite length_app, (proj2 (Nat.ltb_ge _ _)) by lia. rewrite <- Lw, drop_mid. cbn [is_empty].
    assert (Z.to_nat (at_ (byte_of (Z.of_nat (length reason)) :: reason ++ zs) 0) = length reason) as ->.
    { unfold at_. cbn [nth]. rewrite byte_val_of, Z.mod_small by lia. by rewrite Nat2Z.id. }
    cbn [length]. rewrite (length_app reason), (proj2 (Nat.ltb_ge _ _)) by lia.
    change (sub_ 1 (length reason) (_ :: reason ++ zs)) with (take (length reason) (reason ++ zs)).
    rewrite take_app_length, lossy_of_utf8 by done. do 2 f_equal. exact (ssrcs_back l [] _ F).
  - intros [= <-]. rewrite (proj2 (Nat.ltb_ge _ _)) by lia. rewrite <- Lw, drop_all. cbn [is_empty]. do 2 f_equal.
    pose proof (ssrcs_back l [] [] F) as E. rewrite app_nil_r in E. exact E.
Qed.

Lemma zeros_behind_words p q : (length p mod 4 = 0)%nat -> zeros_to_word (p ++ q) = zeros_to_word q.
Proof.
  intros E. unfold zeros_to_word. rewrite length_app, Nat.Div0.add_mod, E. cbn [Nat.add].
  by rewrite Nat.Div0.mod_mod.
Qed.

Lemma app_back a :
  in_u 32 (app_ssrc a) -> length (app_name a) = 4%nat ->
  parse_app (pad_to_word (be_bytes 4 (app_ssrc a) ++ app_name a ++ app_data a)) (subtype a)
    = Ok (mk_app (subtype a) (app_ssrc a) (app_name a) (app_data a ++ zeros_to_word (app_data a))).
Proof.
  intros S N. unfold pad_to_word. rewrite app_assoc, zeros_behind_words by (by rewrite length_app, length_be_bytes, N).
  rewrite <- !app_assoc. set (t := app_data a ++ _). unfold parse_app.
  rewrite !length_app, length_be_bytes, N, (proj2 (Nat.ltb_ge _ _)) by lia. do 2 f_equal.
  - by apply be_at_here.
  - rewrite sub_app_r by by rewrite length_be_bytes. rewrite length_be_bytes. change (4 - 4)%nat with 0%nat. rewrite <- N. apply sub_app_l.
  - rewrite app_assoc. rewrite drop_app_ge by (by rewrite length_app, length_be_bytes, N).
    by rewrite length_app, length_be_bytes, N.
Qed.

Lemma first_byte count : 0 <= count < 32 ->
  let b := byte_val (byte_of (Z.lor (Z.shiftl 2 6) (Z.land count 0x1f))) in
  Z.shiftr b 6 = 2 /\ Z.land b 0x20 = 0 /\ Z.land b 0x1f = count.
Proof.
  intros C.
  assert (E : forallb (fun n => let count := Z.of_nat n in
            let b := byte_val (byte_of (Z.lor (Z.shiftl 2 6) (Z.land count 0x1f))) in
            (Z.shiftr b 6 =? 2) && (Z.land b 0x20 =? 0) && (Z.land b 0x1f =? count)) (seq 0 32) = true) by by vm_compute.
  rewrite forallb_forall in E. specialize (E (Z.to_nat count)). rewrite in_seq, Z2Nat.id in E by lia.
  specialize (E ltac:(lia)). cbv zeta in *. lia.
Qed.

Lemma header_parts pt count n h :
  write_packet_header pt count n = Ok h ->
  (n mod 4 = 0)%nat /\ Z.of_nat (n / 4) <= 65535 /\
  h = byte_of (Z.lor (Z.shiftl 2 6) (Z.land count 0x1f)) :: byte_of pt :: be_bytes 2 (Z.of_nat (n / 4)).
Proof.
  unfold write_packet_header. destruct (Nat.eqb_spec (n mod 4) 0) as [E|]; [|done]. cbn [negb].
  destruct (Z.ltb_spec 65535 (Z.of_nat (n / 4))); [done|]. intros [= <-]. split; [done|]. split; [lia|done].
Qed.

(** The header says how long the payload is. *)
Lemma parse_one_written pt count h p rest :
  write_packet_header pt count (length p) = Ok h -> in_u 8 pt -> 0 <= count < 32 ->
  parse_one (h ++ p ++ rest) = (packet <-? parse_payload pt count p ;; Ok (packet, (4 + length p)%nat)).
Proof.
  intros (M & W & ->)%header_parts T C. set (b := byte_of (Z.lor _ _)).
  destruct (first_byte count C) as (B1 & B2 & B3). fold b in B1, B2, B3.
  set (data := (b :: byte_of pt :: be_bytes 2 (Z.of_nat (length p / 4))) ++ p ++ rest).
  assert (A0 : at_ data 0 = byte_val b) by done.
  assert (A1 : at_ data 1 = pt) by (unfold data, at_; cbn [app nth]; rewrite byte_val_of; by apply Z.mod_small).
  assert (A2 : be_at data 2 2 = Z.of_nat (length p / 4)).
  { unfold data. apply (be_at_mid [b; byte_of pt] 2). unfold in_u. change (2 ^ _) with 65536. lia. }
  assert (P4 : (length p / 4 * 4 = length p)%nat).
  { apply Nat.Div0.div_exact in M. lia. }
  assert (L : length data = (4 + length p + length rest)%nat).
  { unfold data. cbn [app length]. rewrite !length_app, length_be_bytes. lia. }
  unfold parse_one. rewrite A0, A1, A2, B1, B2, B3, Nat2Z.id, P4, L. unfold RTCP_COMMON_HEADER_SIZE.
  change (negb (2 =? 2)) with false. change (negb (0 =? 0)) with false. cbv iota.
  rewrite (proj2 (Nat.ltb_ge _ _)) by lia. cbn [result_bind].
  assert (sub_ 4 (length p) data = p) as ->; [|done].
  exact (sub_mid (b :: byte_of pt :: be_bytes 2 (Z.of_nat (length p / 4))) p rest).
Qed.

(** A packet that was built has a header and a payload, which is parsed as the packet. *)
Definition travels (packet : RtcpPacket) (bytes : list byte) : Prop :=
  exists pt count h p, bytes = h ++ p /\ write_packet_header pt count (length p) = Ok h /\ in_u 8 pt /\ 0 <= count < 32 /\
    parse_payload pt count p = Ok (received packet).

Lemma sr_travels sr bytes : packet_ok (SenderReport sr) -> build_one (SenderReport sr) = Ok bytes -> travels (SenderReport sr) bytes.
Proof.
  cbn [packet_ok build_one].
  intros (S1 & S2 & S3 & S4 & S5 & F). unfold build_sender_report, RTCP_MAX_REPORT_COUNT.
  destruct (Nat.ltb_spec 31 (length (sr_reports sr))) as [|C]; [done|].
  destruct (_ <? _) eqn:W; [done|]. clear W.
  destruct (write_packet_header _ _ _) as [h|] eqn:H; [cbn [result_bind]|done].
  destruct (write_report_blocks _) as [w|] eqn:B; [|done]. intros [= <-].
  set (base := be_bytes 4 (sr_ssrc sr) ++ be_bytes 8 (ntp_timestamp sr) ++ be_bytes 4 (rtp_timestamp sr) ++
               be_bytes 4 (packet_count sr) ++ be_bytes 4 (octet_count sr)).
  assert (Lb : length base = 24%nat) by (unfold base; by rewrite !length_app, !length_be_bytes).
  exists RTCP_PT_SR, (Z.of_nat (length (sr_reports sr))), h, (base ++ w).
  split; [unfold base; by rewrite <- !app_assoc|]. split.
  { rewrite <- H. f_equal. destruct (write_blocks_all _ _ B) as [-> _]. rewrite length_app, Lb, length_blocks. lia. }
  split; [by vm_compute|]. split; [lia|].
  change (parse_payload RTCP_PT_SR ?c ?q) with (result_map SenderReport (parse_sender_report q c)). unfold parse_sender_report, RTCP_SR_BASE_PAYLOAD_SIZE.
  rewrite Nat2Z.id, <- Lb, (parse_blocks_back _ base w F B). unfold base. rewrite <- !app_assoc.
  cbn [result_map result_bind received]. do 2 f_equal. destruct sr. cbn [sr_ssrc ntp_timestamp rtp_timestamp packet_count octet_count sr_reports] in *.
  f_equal; field_back.
Qed.

Lemma rr_travels rr bytes : packet_ok (ReceiverReport rr) -> build_one (ReceiverReport rr) = Ok bytes -> travels (ReceiverReport rr) bytes.
Proof.
  cbn [packet_ok build_one].
  intros (S1 & F). unfold build_receiver_report, RTCP_MAX_REPORT_COUNT.
  destruct (Nat.ltb_spec 31 (length (rr_reports rr))) as [|C]; [done|].
  destruct (_ <? _) eqn:W; [done|]. clear W.
  destruct (write_packet_header _ _ _) as [h|] eqn:H; [cbn [result_bind]|done].
  destruct (write_report_blocks _) as [w|] eqn:B; [|done]. intros [= <-].
  exists RTCP_PT_RR, (Z.of_nat (length (rr_reports rr))), h, (be_bytes 4 (rr_ssrc rr) ++ w).
  split; [done|]. split.
  { rewrite <- H. f_equal. destruct (write_blocks_all _ _ B) as [-> _]. rewrite length_app, length_be_bytes, length_blocks. lia. }
  split; [by vm_compute|]. split; [lia|].
  change (parse_payload RTCP_PT_RR ?c ?q) with (result_map ReceiverReport (parse_receiver_report q c)). unfold parse_receiver_report, RTCP_RR_BASE_PAYLOAD_SIZE.
  pose proof (parse_blocks_back _ (be_bytes 4 (rr_ssrc rr)) w F B) as P. rewrite length_be_bytes in P. rewrite Nat2Z.id, P.
  cbn [result_map result_bind received]. do 2 f_equal. destruct rr. cbn [rr_ssrc rr_reports] in *. f_equal. by apply be_at_here.
Qed.

Lemma sdes_travels sdes bytes : packet_ok (SourceDescription sdes) -> build_one (SourceDescription sdes) = Ok bytes -> travels (SourceDescription sdes) bytes.
Proof.
  cbn [packet_ok build_one].
  intros F. unfold build_source_description, RTCP_MAX_REPORT_COUNT.
  destruct (Nat.ltb_spec 31 (length (chunks sdes))) as [|C]; [done|].
  destruct (write_chunks _ _) as [p|] eqn:W; [cbn [result_bind]|done].
  destruct (write_packet_header _ _ _) as [h|] eqn:H; [|done]. intros [= <-].
  exists RTCP_PT_SDES, (Z.of_nat (length (chunks sdes))), h, p. split; [done|]. split; [done|].
  split; [by vm_compute|]. split; [lia|].
  change (parse_payload RTCP_PT_SDES ?c ?q) with (result_map SourceDescription (parse_source_description q c)). unfold parse_source_description.
  destruct (chunks_back _ [] p 0 [] F eq_refl W) as (_ & w & _ & E). rewrite app_nil_r in E. cbn [length] in E.
  rewrite Nat2Z.id, E. by destruct sdes.
Qed.

Lemma bye_travels bye bytes : packet_ok (Bye bye) -> build_one (Bye bye) = Ok bytes -> travels (Bye bye) bytes.
Proof.
  cbn [packet_ok build_one].
  intros (F & V). unfold build_bye, RTCP_MAX_REPORT_COUNT.
  destruct (Nat.ltb_spec 31 (length (ssrcs bye))) as [|C]; [done|].
  destruct (match reason bye with Some _ => _ | None => _ end) as [p|] eqn:P; [cbn [result_bind]|done].
  destruct (write_packet_header _ _ _) as [h|] eqn:H; [|done]. intros [= <-].
  exists RTCP_PT_BYE, (Z.of_nat (length (ssrcs bye))), h, p. split; [done|]. split; [done|].
  split; [by vm_compute|]. split; [lia|].
  change (parse_payload RTCP_PT_BYE ?c ?q) with (result_map Bye (parse_bye q c)). 
  rewrite (bye_back _ _ p F C V P). by destruct bye.
Qed.

Lemma app_travels app bytes : packet_ok (App app) -> build_one (App app) = Ok bytes -> travels (App app) bytes.
Proof.
  cbn [packet_ok build_one].
  intros (T & S & N). unfold build_app. destruct (Z.ltb_spec 31 (subtype app)) as [|C]; [done|].
  destruct (write_packet_header _ _ _) as [h|] eqn:H; [|done]. intros [= <-].
  exists RTCP_PT_APP, (subtype app), h, (pad_to_word (be_bytes 4 (app_ssrc app) ++ app_name app ++ app_data app)).
  split; [done|]. split; [exact H|].
  split; [by vm_compute|]. split; [unfold in_u in T; lia|].
  change (parse_payload RTCP_PT_APP ?c ?q) with (result_map App (parse_app q c)). by rewrite app_back.
Qed.

Lemma parse_payload_unknown pt count p : ~ 200 <= pt <= 204 -> parse_payload pt count p = Ok (UnknownPacket pt count p).
Proof.
  intros N. unfold parse_payload, RTCP_PT_SR, RTCP_PT_RR, RTCP_PT_SDES, RTCP_PT_BYE, RTCP_PT_APP.
  repeat (rewrite (proj2 (Z.eqb_neq _ _)) by lia). done.
Qed.

Lemma packet_travels packet bytes : packet_ok packet -> build_one packet = Ok bytes -> travels packet bytes.
Proof.
  destruct packet as [sr|rr|sdes|bye|app|pt count p]; [apply sr_travels|apply rr_travels|apply sdes_travels|apply bye_travels|apply app_travels|].
  cbn [packet_ok build_one].
  intros (T & N & C). destruct (write_packet_header _ _ _) as [h|] eqn:H; [|done]. intros [= <-].
  exists pt, count, h, p. split; [done|]. split; [done|]. split; [done|]. split; [done|].
  by apply parse_payload_unknown.
Qed.

(** *** Compound packets *)

Lemma parse_one_advances data packet n : parse_one data = Ok (packet, n) -> (4 <= n)%nat.
Proof.
  unfold parse_one. destruct (negb _); [done|]. destruct (_ <? _)%nat; [done|].
  match goal with |- result_bind ?r _ = _ -> _ => destruct r as [p|]; [cbn [result_bind]|done] end.
  destruct (parse_payload _ _ p); [|done]. intros [= _ <-]. unfold RTCP_COMMON_HEADER_SIZE. lia.
Qed.

Lemma parse_loop_shift fuel pre data k : parse_loop fuel (pre ++ data) (length pre + k) = parse_loop fuel data k.
Proof.
  revert k. induction fuel as [|fuel IH]; intros k; [done|]. cbn [parse_loop].
  rewrite length_app. replace (length pre + length data - (length pre + k))%nat with (length data - k)%nat by lia.
  rewrite drop_app_ge by lia. replace (length pre + k - length pre)%nat with k by lia.
  destruct (_ <=? _)%nat; [|done]. destruct (parse_one (drop k data)) as [[packet n]|]; [|done]. cbn [result_bind fst snd].
  by rewrite <- Nat.add_assoc, IH.
Qed.

(** More fuel than there are bytes changes nothing. *)
Lemma parse_loop_fuel fuel fuel' data k :
  (length data - k <= fuel)%nat -> (length data - k <= fuel')%nat -> parse_loop fuel data k = parse_loop fuel' data k.
Proof.
  revert fuel' k. induction fuel as [|fuel IH]; intros [|fuel'] k L L'; [done|..]; cbn [parse_loop]; unfold RTCP_COMMON_HEADER_SIZE.
  - by rewrite (proj2 (Nat.leb_gt _ _)) by lia.
  - by rewrite (proj2 (Nat.leb_gt _ _)) by lia.
  - destruct (Nat.leb_spec 4 (length data - k)); [|done].
    destruct (parse_one (drop k data)) as [[packet n]|] eqn:E; [|done]. apply parse_one_advances in E.
    cbn [result_bind fst snd]. by rewrite (IH fuel') by lia.
Qed.

(** A packet in front of a compound packet. *)
Lemma parse_after pt count h p rest packet packets :
  write_packet_header pt count (length p) = Ok h -> in_u 8 pt -> 0 <= count < 32 ->
  parse_payload pt count p = Ok packet -> rtcp_parse rest = Ok packets ->
  rtcp_parse (h ++ p ++ rest) = Ok (packet :: packets).
Proof.
  intros H T C P R. destruct (header_parts _ _ _ _ H) as (_ & _ & Eh). assert (Lh : length h = 4%nat) by (by rewrite Eh).
  unfold rtcp_parse. rewrite !length_app, Lh. remember (3 + (length p + length rest))%nat as fuel eqn:Ef.
  change (4 + (length p + length rest))%nat with (S (3 + (length p + length rest))). rewrite <- Ef. cbn [parse_loop].
  unfold RTCP_COMMON_HEADER_SIZE. rewrite !length_app, Lh, (proj2 (Nat.leb_le _ _)) by lia. rewrite drop_0.
  rewrite (parse_one_written _ _ _ _ _ H T C), P. cbn [result_bind fst snd].
  change (0 + (4 + length p))%nat with (4 + length p)%nat.
  replace (4 + length p)%nat with (length (h ++ p) + 0)%nat by (rewrite length_app; lia).
  rewrite app_assoc, parse_loop_shift, (parse_loop_fuel _ (length rest)) by lia. fold (rtcp_parse rest). by rewrite R.
Qed.

(** [C29] A compound packet that was built is parsed as the packets it was built of: sender and
    receiver reports with their blocks, source descriptions with all kinds of items, byes with
    their reason, and packets of other types come back as they were; of application packets the
    data comes back with its padding to a word. Up to three bytes behind the last packet are
    ignored. *)
Theorem rtcp_compound packets bytes tail :
  Forall packet_ok packets -> rtcp_build packets = Ok bytes -> (length tail < 4)%nat ->
  rtcp_parse (bytes ++ tail) = Ok (map received packets).
Proof.
  intros F B T. revert bytes B. induction F as [|packet packets Hp F IH]; intros bytes B.
  - injection B as <-. unfold rtcp_parse. cbn [app map]. destruct (length tail) eqn:L; [done|]. cbn [parse_loop].
    unfold RTCP_COMMON_HEADER_SIZE. by rewrite (proj2 (Nat.leb_gt _ _)) by lia.
  - cbn [rtcp_build] in B. destruct (build_one packet) as [one|] eqn:E1; [cbn [result_bind] in B|done].
    destruct (rtcp_build packets) as [more|]; [|done]. injection B as <-.
    destruct (packet_travels _ _ Hp E1) as (pt & count & h & p & -> & H & T8 & C & P).
    rewrite <- !app_assoc. cbn [map]. eapply parse_after; [exact H|exact T8|exact C|exact P|by apply IH].
Qed.

Definition sample_block : RtcpReportBlock := mk_block 1 0xff 0xFFFFFF 70000 3 4 5.
Definition sample_compound : list RtcpPacket :=
  [SenderReport (mk_sr 0xDEADBEEF 0x1122334455667788 90000 7 1400 [sample_block; sample_block]);
   SourceDescription (mk_sdes [mk_chunk 9 [Cname [x61; x40; x62]; Priv [x78] [xff; x00]; UnknownItem 77 [x01]]; mk_chunk 10 []]);
   App (mk_app 3 12 [x6e; x61; x6d; x65] [x01; x02]); UnknownPacket 205 1 [x00; x00; x00; x01; x00; x00; x00; x02];
   ReceiverReport (mk_rr 1 []); Bye (mk_bye [1; 2] (Some [x62; x79; x65]))].

Lemma rtcp_compound_witness :
  exists bytes, rtcp_build sample_compound = Ok bytes /\
    rtcp_parse (bytes ++ [x80; xc8]) = Ok (map received sample_compound).
Proof.
  destruct (rtcp_build sample_compound) as [bytes|] eqn:E; [|by vm_compute in E]. exists bytes. split; [done|].
  apply (rtcp_compound sample_compound bytes); [|done|cbn; lia].
  repeat (apply Forall_cons; split); [..|apply Forall_nil; done];
    repeat (split || constructor); cbn; try done; by intros [].
Defined.
