(* ===== verification/RtcpFeedback.v ===== *)
(** * RTCP feedback and extended reports

    Models [crates/protocols/rtsp/core/src/core/rtcp_fb.rs] and [rtcp_xr.rs]: NACK, PLI and FIR,
    the extended report blocks, and the packing of lost sequence numbers into NACK items. *)
From Stdlib Require Import Strings.Byte Sorting.Sorted.
From stdpp Require Import sorting.
From S2P Require Import Prelude RtmpBytes Rtp Rtcp.
Local Open Scope list_scope.
Local Open Scope Z_scope.

Definition RTCP_PT_RTPFB : Z := 205.
Definition RTCP_PT_PSFB : Z := 206.
Definition RTPFB_FMT_NACK : Z := 1.
Definition PSFB_FMT_PLI : Z := 1.
Definition PSFB_FMT_FIR : Z := 4.

Record NackItem := mk_nack_item { pid : Z; blp : Z }.
Record RtcpNack := mk_nack { nack_sender : Z; nack_media : Z; nack_items : list NackItem }.
Record RtcpPli := mk_pli { pli_sender : Z; pli_media : Z }.
Record FirEntry := mk_fir_entry { fe_ssrc : Z; fe_seq_nr : Z }.
Record RtcpFir := mk_fir { fir_sender : Z; fir_media : Z; fci : list FirEntry }.
Inductive RtcpFeedback := Nack (n : RtcpNack) | Pli (p : RtcpPli) | Fir (f : RtcpFir).

#[export] Instance NackItem_eq_dec : EqDecision NackItem.
Proof. solve_decision. Defined.

(** [1 << bit] of a [u16]. *)
Definition bit16 (bit : Z) : Z := Z.shiftl 1 bit.

Definition lost_seqs (item : NackItem) : list Z :=
  pid item ::
  omap (fun bit => let bit := Z.of_nat bit in
                   if negb (Z.land (blp item) (bit16 bit) =? 0) then Some (wrap_u 16 (pid item + (bit + 1))) else None)
    (seq 0 16).

(** ** Parsing and building *)

Fixpoint nack_loop (fuel : nat) (fci : list byte) (offset : nat) : list NackItem :=
  match fuel with
  | O => []
  | S fuel =>
      if (offset + 4 <=? length fci)%nat
      then mk_nack_item (be_at fci offset 2) (be_at fci (offset + 2) 2) :: nack_loop fuel fci (offset + 4)
      else []
  end.

Fixpoint fir_loop (fuel : nat) (fci : list byte) (offset : nat) : list FirEntry :=
  match fuel with
  | O => []
  | S fuel =>
      if (offset + 8 <=? length fci)%nat
      then mk_fir_entry (be_at fci offset 4) (at_ fci (offset + 4)) :: fir_loop fuel fci (offset + 8)
      else []
  end.

Definition parse_rtcp_fb (pt fmt : Z) (payload : list byte) : option RtcpFeedback :=
  if (length payload <? 8)%nat then None
  else
    let sender_ssrc := be_at payload 0 4 in
    let media_ssrc := be_at payload 4 4 in
    let fci := drop 8 payload in
    if (pt =? RTCP_PT_RTPFB) && (fmt =? RTPFB_FMT_NACK)
    then Some (Nack (mk_nack sender_ssrc media_ssrc (nack_loop (length fci) fci 0)))
    else if (pt =? RTCP_PT_PSFB) && (fmt =? PSFB_FMT_PLI) then Some (Pli (mk_pli sender_ssrc media_ssrc))
    else if (pt =? RTCP_PT_PSFB) && (fmt =? PSFB_FMT_FIR)
    then Some (Fir (mk_fir sender_ssrc media_ssrc (fir_loop (length fci) fci 0)))
    else None.

Definition write_nack_item (item : NackItem) : list byte := be_bytes 2 (pid item) ++ be_bytes 2 (blp item).
Definition write_fir_entry (entry : FirEntry) : list byte :=
  be_bytes 4 (fe_ssrc entry) ++ byte_of (fe_seq_nr entry) :: [x00; x00; x00].

Definition build_rtcp_nack (nack : RtcpNack) : list byte :=
  let fci_len := (length (nack_items nack) * 4)%nat in
  let payload_len := (8 + fci_len)%nat in
  let length_words := (payload_len / 4)%nat in
  byte_of (Z.lor 0x80 RTPFB_FMT_NACK) :: byte_of RTCP_PT_RTPFB :: be_bytes 2 (Z.of_nat length_words)
  ++ be_bytes 4 (nack_sender nack) ++ be_bytes 4 (nack_media nack) ++ concat (map write_nack_item (nack_items nack)).

Definition build_rtcp_pli (pli : RtcpPli) : list byte :=
  byte_of (Z.lor 0x80 PSFB_FMT_PLI) :: byte_of RTCP_PT_PSFB :: be_bytes 2 2
  ++ be_bytes 4 (pli_sender pli) ++ be_bytes 4 (pli_media pli).

Definition build_rtcp_fir (fir : RtcpFir) : list byte :=
  let fci_len := (length (fci fir) * 8)%nat in
  let payload_len := (8 + fci_len)%nat in
  let length_words := (payload_len / 4)%nat in
  byte_of (Z.lor 0x80 PSFB_FMT_FIR) :: byte_of RTCP_PT_PSFB :: be_bytes 2 (Z.of_nat length_words)
  ++ be_bytes 4 (fir_sender fir) ++ be_bytes 4 (fir_media fir) ++ concat (map write_fir_entry (fci fir)).

(** ** Packing *)

(** [Vec::dedup]: repeated neighbours are removed. *)
Fixpoint dedup (l : list Z) : list Z :=
  match l with
  | x :: ((y :: _) as l') => if x =? y then dedup l' else x :: dedup l'
  | _ => l
  end.

(** The mask of the numbers behind [pid] and the first number that is too far away. *)
Fixpoint blp_loop (pid : Z) (sorted : list Z) (blp : Z) : Z * list Z :=
  match sorted with
  | [] => (blp, [])
  | x :: rest =>
      let diff := wrap_u 16 (x - pid) in
      if (1 <=? diff) && (diff <=? 16) then blp_loop pid rest (Z.lor blp (bit16 (diff - 1))) else (blp, sorted)
  end.

Fixpoint pack_loop (fuel : nat) (sorted : list Z) : list NackItem :=
  match fuel, sorted with
  | S fuel, pid :: rest => let '(blp, rest) := blp_loop pid rest 0 in mk_nack_item pid blp :: pack_loop fuel rest
  | _, _ => []
  end.

Definition nack_items_from_lost_seqs (lost : list Z) : list NackItem :=
  match lost with
  | [] => []
  | _ => let sorted := dedup (sort_by_key (fun x => x) lost) in pack_loop (length sorted) sorted
  end.

Example grouped :
  nack_items_from_lost_seqs [100; 101; 103; 200; 201] = [mk_nack_item 100 5; mk_nack_item 200 1] /\
  lost_seqs (mk_nack_item 10 5) = [10; 11; 13].
Proof. by vm_compute. Qed.

(** ** The numbers that are asked for *)

Lemma dedup_strict l :
  StronglySorted (key_le (fun x : Z => x)) l -> StronglySorted Z.lt (dedup l) /\ forall x, x ∈ dedup l <-> x ∈ l.
Proof.
  induction 1 as [|x l S IH Hx]; [by split; [constructor|]|]. cbn [dedup]. destruct l as [|y l]; [by split; [repeat constructor|]|].
  destruct IH as [IH1 IH2]. unfold key_le in Hx. rewrite Forall_forall in Hx.
  destruct (Z.eqb_spec x y) as [->|N].
  - split; [done|]. intros z. rewrite IH2, !elem_of_cons. tauto.
  - split.
    + constructor; [done|]. rewrite Forall_forall. intros z Hz%IH2.
      assert (x <= y) by (apply Hx; left).
      assert (y <= z).
      { apply elem_of_cons in Hz as [->|Hz]; [lia|]. apply StronglySorted_inv in S as [_ S]. rewrite Forall_forall in S. by apply S. }
      lia.
    + intros z. by rewrite !(elem_of_cons _ z x), IH2.
Qed.

Lemma bit16_set b n i : 0 <= n -> 0 <= i -> Z.testbit (Z.lor b (bit16 n)) i = Z.testbit b i || (n =? i).
Proof.
  intros N I. rewrite Z.lor_spec. unfold bit16. rewrite Z.shiftl_1_l, Z.pow2_bits_eqb by done. done.
Qed.

(** What the mask loop takes: a mask with a bit for each number taken. *)
Lemma blp_loop_takes pid l blp blp' rest :
  0 <= pid -> Forall (fun x => pid < x < 2 ^ 16) l -> blp_loop pid l blp = (blp', rest) ->
  exists taken, l = taken ++ rest /\ Forall (fun x => pid < x <= pid + 16) taken /\
    forall i, 0 <= i -> Z.testbit blp' i = Z.testbit blp i || bool_decide (pid + 1 + i ∈ taken).
Proof.
  intros P. revert blp. induction l as [|x l IH]; intros blp F; cbn [blp_loop].
  { intros [= <- <-]. exists []. split; [done|]. split; [constructor|]. intros i _. by rewrite orb_false_r. }
  apply Forall_cons in F as [Hx F]. rewrite wrap_u_small by (unfold in_u; lia).
  destruct (Z.leb_spec 1 (x - pid)); [|lia]. destruct (Z.leb_spec (x - pid) 16); cbn [andb].
  - intros E. destruct (IH _ F E) as (taken & -> & T & B). exists (x :: taken). split; [done|].
    split; [constructor; [lia|done]|]. intros i I. rewrite B, bit16_set by lia.
    rewrite <- orb_assoc. f_equal. rewrite (bool_decide_ext (pid + 1 + i ∈ x :: taken) (x = pid + 1 + i \/ pid + 1 + i ∈ taken)).
    + rewrite bool_decide_or. f_equal. destruct (Z.eqb_spec (x - pid - 1) i), (bool_decide_reflect (x = pid + 1 + i)); lia || done.
    + rewrite elem_of_cons. split; intros [->|]; auto.
  - intros [= <- <-]. exists []. split; [done|]. split; [constructor|]. intros i _. by rewrite orb_false_r.
Qed.

Lemma increasing_seq_omap (P : nat -> bool) f n k :
  (forall i j, (i < j)%nat -> f i < f j) ->
  StronglySorted Z.lt (omap (fun i => if P i then Some (f i) else None) (seq k n)).
Proof.
  intros M. revert k. induction n as [|n IH]; intros k; [constructor|]. cbn [seq omap list_omap].
  destruct (P k); [|apply IH]. constructor; [apply IH|]. rewrite Forall_forall. intros x Hx.
  apply list_elem_of_omap in Hx as (j & Hj & E). apply elem_of_seq in Hj. destruct (P j); [|done]. injection E as <-. apply M. lia.
Qed.

Lemma strictly_sorted_ext l1 l2 :
  StronglySorted Z.lt l1 -> StronglySorted Z.lt l2 -> (forall x, x ∈ l1 <-> x ∈ l2) -> l1 = l2.
Proof.
  intros S1 S2 E. apply (StronglySorted_unique_strong Z.lt); [intros; lia|done|done|].
  apply NoDup_Permutation; [| |done]; [clear S2|clear S1]; match goal with S : StronglySorted _ _ |- _ => clear E; induction S as [|x l S IH H] end;
    constructor; try done; rewrite Forall_forall in H; intros Hx; specialize (H _ Hx); lia.
Qed.

Lemma wrapped_small pid i : 0 <= pid -> pid + i < 2 ^ 16 -> 0 <= i -> wrap_u 16 (pid + i) = pid + i.
Proof. intros. apply wrap_u_small. unfold in_u. lia. Qed.

(** An item stands for the numbers that its mask was made of. *)
Lemma lost_of_item pid taken blp :
  0 <= pid -> StronglySorted Z.lt (pid :: taken) -> Forall (fun x => pid < x <= pid + 16 /\ x < 2 ^ 16) taken ->
  (forall i, 0 <= i -> Z.testbit blp i = bool_decide (pid + 1 + i ∈ taken)) ->
  lost_seqs (mk_nack_item pid blp) = pid :: taken.
Proof.
  intros P S F B. unfold lost_seqs. cbn [RtcpFeedback.pid RtcpFeedback.blp]. f_equal.
  apply StronglySorted_inv in S as [S _]. rewrite Forall_forall in F.
  assert (T : forall bit, negb (Z.land blp (bit16 (Z.of_nat bit)) =? 0) = bool_decide (pid + 1 + Z.of_nat bit ∈ taken)).
  { intros bit. unfold bit16. rewrite Z.shiftl_1_l, land_pow2, negb_involutive by lia. apply B. lia. }
  transitivity (omap (fun bit => if bool_decide (pid + 1 + Z.of_nat bit ∈ taken) then Some (pid + 1 + Z.of_nat bit) else None) (seq 0 16)).
  - apply list_omap_ext, Forall_Forall2_diag, Forall_true. intros bit. cbv zeta. rewrite T.
    case_bool_decide as E; [|done]. f_equal. pose proof (F _ E). rewrite wrapped_small by lia. lia.
  - apply strictly_sorted_ext; [apply increasing_seq_omap; intros; lia|done|].
    intros x. rewrite list_elem_of_omap. split.
    + intros (bit & _ & E). case_bool_decide; [|done]. by injection E as <-.
    + intros Hx. pose proof (F x Hx). exists (Z.to_nat (x - pid - 1)). split; [apply elem_of_seq; lia|].
      rewrite Z2Nat.id by lia. replace (pid + 1 + (x - pid - 1)) with x by lia. by rewrite bool_decide_true.
Qed.

Lemma pack_loop_lost fuel sorted :
  (length sorted <= fuel)%nat -> StronglySorted Z.lt sorted -> Forall (in_u 16) sorted ->
  concat (map lost_seqs (pack_loop fuel sorted)) = sorted.
Proof.
  revert sorted. induction fuel as [|fuel IH]; intros [|p rest] L S F; try done; [by apply Nat.nle_succ_0 in L|].
  cbn [length] in L. pose proof S as S'. apply StronglySorted_inv in S' as [S' Lt]. apply Forall_cons in F as [Hp F].
  assert (B : Forall (fun x => p < x < 2 ^ 16) rest).
  { rewrite Forall_forall in *. intros x Hx. specialize (Lt x Hx). specialize (F x Hx). unfold in_u in F. lia. }
  cbn [pack_loop]. destruct (blp_loop p rest 0) as [blp' rest'] eqn:E.
  destruct (blp_loop_takes _ _ _ _ _ (proj1 Hp) B E) as (taken & -> & T & M). cbn [map concat].
  apply Forall_app in F as [Ft Fr]. apply Forall_app in B as [Bt _].
  rewrite (lost_of_item p taken blp').
  - cbn [app]. do 2 f_equal. apply IH; [rewrite length_app in L; lia|by eapply StronglySorted_app_1_r|done].
  - by destruct Hp.
  - constructor; [by eapply StronglySorted_app_1_l|]. by apply Forall_app in Lt as [Lt _].
  - rewrite Forall_forall in *. intros x Hx. specialize (T x Hx). specialize (Bt x Hx). lia.
  - intros i I. by rewrite M, Z.bits_0.
Qed.

(** [C39] The NACK items made of any list of lost sequence numbers ask for exactly these numbers,
    each once and in increasing order. *)
Theorem nack_asks_for_losses lost :
  Forall (in_u 16) lost ->
  let asked := concat (map lost_seqs (nack_items_from_lost_seqs lost)) in
  StronglySorted Z.lt asked /\ forall x, x ∈ asked <-> x ∈ lost.
Proof.
  intros F asked. set (sorted := dedup (sort_by_key (fun x : Z => x) lost)).
  destruct (dedup_strict (sort_by_key (fun x : Z => x) lost)) as [S E]; [apply sort_by_key_sorted|]. fold sorted in S, E.
  assert (E' : forall x, x ∈ sorted <-> x ∈ lost) by (intros x; by rewrite E, sort_by_key_perm).
  assert (A : asked = sorted).
  { unfold asked, nack_items_from_lost_seqs. destruct lost; [done|]. fold sorted. apply pack_loop_lost; [done|done|].
    rewrite Forall_forall in *. intros x Hx. by apply F, E'. }
  by rewrite A.
Qed.

Lemma nack_asks_for_losses_witness :
  let asked := concat (map lost_seqs (nack_items_from_lost_seqs [65535; 7; 0; 23; 24; 7])) in
  StronglySorted Z.lt asked /\ forall x, x ∈ asked <-> x ∈ [65535; 7; 0; 23; 24; 7].
Proof. apply (nack_asks_for_losses [65535; 7; 0; 23; 24; 7]). apply (bool_decide_unpack _). by vm_compute. Defined.

(** Numbers on both sides of the wrap-around get an item each, although one would do. *)
Example wrapped_losses : nack_items_from_lost_seqs [65535; 0] = [mk_nack_item 0 0; mk_nack_item 65535 0].
Proof. by vm_compute. Qed.

(** ** On the wire *)

Definition build_feedback (fb : RtcpFeedback) : list byte :=
  match fb with Nack n => build_rtcp_nack n | Pli p => build_rtcp_pli p | Fir f => build_rtcp_fir f end.

Definition feedback_type (fb : RtcpFeedback) : Z * Z :=
  match fb with
  | Nack _ => (RTCP_PT_RTPFB, RTPFB_FMT_NACK) | Pli _ => (RTCP_PT_PSFB, PSFB_FMT_PLI) | Fir _ => (RTCP_PT_PSFB, PSFB_FMT_FIR)
  end.

(** Fields in the range of their types, and not more items than the length field can say. *)
Definition feedback_ok (fb : RtcpFeedback) : Prop :=
  match fb with
  | Nack n => in_u 32 (nack_sender n) /\ in_u 32 (nack_media n) /\ Z.of_nat (length (nack_items n)) <= 65533 /\
              Forall (fun i => in_u 16 (pid i) /\ in_u 16 (blp i)) (nack_items n)
  | Pli p => in_u 32 (pli_sender p) /\ in_u 32 (pli_media p)
  | Fir f => in_u 32 (fir_sender f) /\ in_u 32 (fir_media f) /\ Z.of_nat (length (fci f)) <= 32766 /\
             Forall (fun e => in_u 32 (fe_ssrc e) /\ in_u 8 (fe_seq_nr e)) (fci f)
  end.

Lemma length_items_written l : length (concat (map write_nack_item l)) = (4 * length l)%nat.
Proof. induction l as [|i l IH]; [done|]. cbn [map concat length]. rewrite length_app, IH. unfold write_nack_item. rewrite length_app, !length_be_bytes. lia. Qed.

Lemma length_entries_written l : length (concat (map write_fir_entry l)) = (8 * length l)%nat.
Proof.
  induction l as [|i l IH]; [done|]. cbn [map concat length]. rewrite length_app, IH. unfold write_fir_entry.
  rewrite length_app, length_be_bytes. cbn [length]. lia.
Qed.

Lemma nack_loop_back l pre fuel :
  (length l <= fuel)%nat -> Forall (fun i => in_u 16 (pid i) /\ in_u 16 (blp i)) l ->
  nack_loop fuel (pre ++ concat (map write_nack_item l)) (length pre) = l.
Proof.
  revert pre fuel. induction l as [|i l IH]; intros pre [|fuel] L F; cbn [length] in L; try lia; [done|..]; cbn [map concat nack_loop].
  - rewrite app_nil_r. by rewrite (proj2 (Nat.leb_gt _ _)) by lia.
  - apply Forall_cons in F as [[P B] F]. assert (Li : length (write_nack_item i) = 4%nat) by done.
    set (rest := concat (map write_nack_item l)) in *.
    assert (B1 : be_at (pre ++ write_nack_item i ++ rest) (length pre) 2 = pid i).
    { unfold write_nack_item. rewrite <- app_assoc. by apply be_at_mid. }
    assert (B2 : be_at (pre ++ write_nack_item i ++ rest) (length pre + 2) 2 = blp i).
    { pose proof (be_at_mid (pre ++ be_bytes 2 (pid i)) 2 (blp i) rest B) as E.
      rewrite length_app, length_be_bytes, <- app_assoc in E. unfold write_nack_item. by rewrite <- app_assoc. }
    rewrite B1, B2, !length_app, Li, (proj2 (Nat.leb_le _ _)) by lia. f_equal; [by destruct i|].
    specialize (IH (pre ++ write_nack_item i) fuel ltac:(lia) F). by rewrite length_app, Li, <- app_assoc in IH.
Qed.

Lemma fir_loop_back l pre fuel :
  (length l <= fuel)%nat -> Forall (fun e => in_u 32 (fe_ssrc e) /\ in_u 8 (fe_seq_nr e)) l ->
  fir_loop fuel (pre ++ concat (map write_fir_entry l)) (length pre) = l.
Proof.
  revert pre fuel. induction l as [|e l IH]; intros pre [|fuel] L F; cbn [length] in L; try lia; [done|..]; cbn [map concat fir_loop].
  - rewrite app_nil_r. by rewrite (proj2 (Nat.leb_gt _ _)) by lia.
  - apply Forall_cons in F as [[P B] F]. assert (Le : length (write_fir_entry e) = 8%nat) by done.
    set (rest := concat (map write_fir_entry l)) in *.
    assert (B1 : be_at (pre ++ write_fir_entry e ++ rest) (length pre) 4 = fe_ssrc e).
    { unfold write_fir_entry. rewrite <- app_assoc. by apply be_at_mid. }
    assert (B2 : at_ (pre ++ write_fir_entry e ++ rest) (length pre + 4) = fe_seq_nr e).
    { pose proof (at_mid (pre ++ be_bytes 4 (fe_ssrc e)) (byte_of (fe_seq_nr e)) ([x00; x00; x00] ++ rest)) as E.
      rewrite length_app, length_be_bytes, <- app_assoc in E. unfold write_fir_entry. rewrite <- app_assoc.
      etransitivity; [exact E|]. rewrite byte_val_of. apply Z.mod_small. exact B. }
    rewrite B1, B2, !length_app, Le, (proj2 (Nat.leb_le _ _)) by lia. f_equal; [by destruct e|].
    specialize (IH (pre ++ write_fir_entry e) fuel ltac:(lia) F). by rewrite length_app, Le, <- app_assoc in IH.
Qed.

Lemma fb_payload s m fci :
  in_u 32 s -> in_u 32 m ->
  let p := be_bytes 4 s ++ be_bytes 4 m ++ fci in
  (length p <? 8)%nat = false /\ be_at p 0 4 = s /\ be_at p 4 4 = m /\ drop 8 p = fci /\ length p = (8 + length fci)%nat.
Proof.
  intros S M p. assert (L : length p = (8 + length fci)%nat) by (unfold p; rewrite !length_app, !length_be_bytes; lia).
  split; [apply Nat.ltb_ge; lia|]. split; [by apply be_at_here|]. split; [unfold p; field_back|].
  split; [|done]. unfold p. rewrite app_assoc, drop_app_ge; rewrite length_app, !length_be_bytes; done.
Qed.

(** The payload of a feedback packet. *)
Definition feedback_payload (fb : RtcpFeedback) : list byte :=
  match fb with
  | Nack n => be_bytes 4 (nack_sender n) ++ be_bytes 4 (nack_media n) ++ concat (map write_nack_item (nack_items n))
  | Pli p => be_bytes 4 (pli_sender p) ++ be_bytes 4 (pli_media p) ++ []
  | Fir f => be_bytes 4 (fir_sender f) ++ be_bytes 4 (fir_media f) ++ concat (map write_fir_entry (fci f))
  end.

Lemma feedback_back fb :
  feedback_ok fb -> parse_rtcp_fb (fst (feedback_type fb)) (snd (feedback_type fb)) (feedback_payload fb) = Some fb.
Proof.
  destruct fb as [n|p|f]; cbn [feedback_ok feedback_type feedback_payload fst snd]; unfold parse_rtcp_fb.
  - intros (S & M & _ & F). destruct (fb_payload _ _ (concat (map write_nack_item (nack_items n))) S M) as (-> & -> & -> & -> & _).
    pose proof (nack_loop_back (nack_items n) [] (length (concat (map write_nack_item (nack_items n))))) as E.
    rewrite length_items_written in E at 1. cbn [app length] in E. destruct n. cbn -[nack_loop Nat.mul] in *. by rewrite E by (done || lia).
  - intros (S & M). destruct (fb_payload _ _ [] S M) as (-> & -> & -> & _). by destruct p.
  - intros (S & M & _ & F). destruct (fb_payload _ _ (concat (map write_fir_entry (fci f))) S M) as (-> & -> & -> & -> & _).
    pose proof (fir_loop_back (fci f) [] (length (concat (map write_fir_entry (fci f))))) as E.
    rewrite length_entries_written in E at 1. cbn [app length] in E. destruct f. cbn -[fir_loop Nat.mul] in *. by rewrite E by (done || lia).
Qed.

(** The packet is a header and its payload. *)
Lemma feedback_written fb :
  feedback_ok fb ->
  exists h, build_feedback fb = h ++ feedback_payload fb /\
    write_packet_header (fst (feedback_type fb)) (snd (feedback_type fb)) (length (feedback_payload fb)) = Ok h.
Proof.
  assert (H : forall pt fmt n, Z.of_nat n <= 65535 -> write_packet_header pt fmt (n * 4) =
    Ok (byte_of (Z.lor (Z.shiftl 2 6) (Z.land fmt 0x1f)) :: byte_of pt :: be_bytes 2 (Z.of_nat n))).
  { intros pt fmt n L. unfold write_packet_header. rewrite Nat.Div0.mod_mul, Nat.div_mul by done. cbn [Nat.eqb negb].
    by rewrite (proj2 (Z.ltb_ge _ _)) by lia. }
  destruct fb as [n|p|f]; cbn [feedback_ok feedback_type feedback_payload fst snd build_feedback].
  - intros (_ & _ & L & _). eexists. unfold build_rtcp_nack. rewrite !length_app, !length_be_bytes, length_items_written.
    replace (4 + (4 + 4 * length (nack_items n)))%nat with ((2 + length (nack_items n)) * 4)%nat by lia.
    rewrite H by lia. split; [|reflexivity].
    replace ((8 + length (nack_items n) * 4) / 4)%nat with (2 + length (nack_items n))%nat; [done|].
    apply Nat.div_unique_exact; lia.
  - intros _. exists (byte_of (Z.lor 0x80 PSFB_FMT_PLI) :: byte_of RTCP_PT_PSFB :: be_bytes 2 2). by rewrite !app_nil_r.
  - intros (_ & _ & L & _). eexists. unfold build_rtcp_fir. rewrite !length_app, !length_be_bytes, length_entries_written.
    replace (4 + (4 + 8 * length (fci f)))%nat with ((2 + 2 * length (fci f)) * 4)%nat by lia.
    rewrite H by lia. split; [|reflexivity].
    replace ((8 + length (fci f) * 8) / 4)%nat with (2 + 2 * length (fci f))%nat; [done|].
    apply Nat.div_unique_exact; lia.
Qed.

(** A feedback packet is read out of a compound packet, wherever it is in it. *)
Theorem feedback_arrives fb rest packets :
  feedback_ok fb -> rtcp_parse rest = Ok packets ->
  exists payload, rtcp_parse (build_feedback fb ++ rest)
    = Ok (UnknownPacket (fst (feedback_type fb)) (snd (feedback_type fb)) payload :: packets) /\
    parse_rtcp_fb (fst (feedback_type fb)) (snd (feedback_type fb)) payload = Some fb.
Proof.
  intros K P. exists (feedback_payload fb). split; [|by apply feedback_back].
  destruct (feedback_written fb K) as (h & -> & H). rewrite <- app_assoc.
  assert (T : in_u 8 (fst (feedback_type fb)) /\ 0 <= snd (feedback_type fb) < 32 /\ ~ 200 <= fst (feedback_type fb) <= 204).
  { unfold in_u. change (2 ^ 8) with 256.
    destruct fb; cbn [feedback_type fst snd]; unfold RTCP_PT_RTPFB, RTCP_PT_PSFB, RTPFB_FMT_NACK, PSFB_FMT_PLI, PSFB_FMT_FIR; lia. }
  destruct T as (T1 & T2 & T3). eapply parse_after; [exact H|exact T1|exact T2|by apply parse_payload_unknown|exact P].
Qed.

Definition sample_nack : RtcpFeedback := Nack (mk_nack 1 0xFFFFFFFF [mk_nack_item 65535 5; mk_nack_item 7 0xFFFF]).
Definition sample_fir : RtcpFeedback := Fir (mk_fir 1 2 [mk_fir_entry 3 255]).

Lemma feedback_arrives_witness :
  exists payload, rtcp_parse (build_feedback sample_nack ++ build_feedback sample_fir)
    = Ok (UnknownPacket 205 1 payload :: default [] (result_ok (rtcp_parse (build_feedback sample_fir)))) /\
    parse_rtcp_fb 205 1 payload = Some sample_nack.
Proof.
  apply (feedback_arrives sample_nack); [|by vm_compute]. repeat (split || constructor); by vm_compute.
Defined.

(** More items than the length field can say: the field wraps around and the packet cannot be read. *)
Example too_many_items :
  let n := mk_nack 1 2 (repeat (mk_nack_item 1 0) (Z.to_nat 65534)) in
  take 4 (build_rtcp_nack n) = [x81; xcd; x00; x00].
Proof. by vm_compute. Qed.

(** ** Extended reports *)

Definition RTCP_PT_XR : Z := 207.
Definition XR_BLOCK_RECEIVER_REFERENCE_TIME : Z := 4.
Definition XR_BLOCK_DLRR : Z := 5.
Definition XR_BLOCK_VOIP_METRICS : Z := 7.

Record DlrrSubBlock := mk_dlrr { dlrr_ssrc : Z; last_rr : Z; delay_since_last_rr : Z }.
Record VoipMetricsBlock := mk_voip {
  vm_ssrc : Z; loss_rate : Z; discard_rate : Z; burst_density : Z; gap_density : Z; burst_duration : Z; gap_duration : Z;
  round_trip_delay : Z; end_system_delay : Z; signal_level : Z; noise_level : Z; rerl : Z; gmin : Z; r_factor : Z;
  ext_r_factor : Z; mos_lq : Z; mos_cq : Z; jb_nominal : Z; jb_maximum : Z; jb_abs_max : Z }.
Inductive XrBlock :=
  | ReceiverReferenceTime (ntp : Z) | Dlrr (sub_blocks : list DlrrSubBlock) | VoipMetrics (v : VoipMetricsBlock)
  | UnknownBlock (block_type : Z) (data : list byte).
Record RtcpXr := mk_xr { xr_sender : Z; xr_blocks : list XrBlock }.

Fixpoint dlrr_loop (fuel : nat) (data : list byte) (i : nat) : list DlrrSubBlock :=
  match fuel with
  | O => []
  | S fuel =>
      if (i + 12 <=? length data)%nat
      then mk_dlrr (be_at data i 4) (be_at data (i + 4) 4) (be_at data (i + 8) 4) :: dlrr_loop fuel data (i + 12)
      else []
  end.

Definition voip_metrics (d : list byte) : VoipMetricsBlock :=
  mk_voip (be_at d 0 4) (at_ d 4) (at_ d 5) (at_ d 6) (at_ d 7) (be_at d 8 2) (be_at d 10 2) (be_at d 12 2) (be_at d 14 2)
    (at_ d 16) (at_ d 17) (at_ d 18) (at_ d 19) (at_ d 20) (at_ d 21) (at_ d 22) (at_ d 23) (be_at d 24 2) (be_at d 26 2)
    (if (30 <=? length d)%nat then be_at d 28 2 else 0).

Definition xr_block (block_type : Z) (block_data : list byte) : XrBlock :=
  if (block_type =? XR_BLOCK_RECEIVER_REFERENCE_TIME) && (8 <=? length block_data)%nat
  then ReceiverReferenceTime (be_at block_data 0 8)
  else if block_type =? XR_BLOCK_DLRR then Dlrr (dlrr_loop (length block_data) block_data 0)
  else if (block_type =? XR_BLOCK_VOIP_METRICS) && (28 <=? length block_data)%nat
  then VoipMetrics (voip_metrics block_data)
  else UnknownBlock block_type block_data.

Fixpoint xr_loop (fuel : nat) (payload : list byte) (offset : nat) : list XrBlock :=
  match fuel with
  | O => []
  | S fuel =>
      if (offset + 4 <=? length payload)%nat then
        let block_type := at_ payload offset in
        let block_data_len := (Z.to_nat (be_at payload (offset + 2) 2) * 4)%nat in
        let offset := (offset + 4)%nat in
        if (length payload <? offset + block_data_len)%nat then []
        else xr_block block_type (sub_ offset block_data_len payload) :: xr_loop fuel payload (offset + block_data_len)
      else []
  end.

Definition parse_rtcp_xr (payload : list byte) : option RtcpXr :=
  if (length payload <? 4)%nat then None
  else Some (mk_xr (be_at payload 0 4) (xr_loop (length payload) payload 4)).

Definition build_rtcp_xr_receiver_reference_time (sender_ssrc ntp : Z) : list byte :=
  byte_of 0x80 :: byte_of RTCP_PT_XR :: be_bytes 2 3 ++ be_bytes 4 sender_ssrc
  ++ byte_of XR_BLOCK_RECEIVER_REFERENCE_TIME :: x00 :: be_bytes 2 2 ++ be_bytes 8 ntp.

(** A block as RFC 3611 writes it. *)
Definition xr_written (block : Z * list byte) : list byte :=
  byte_of (fst block) :: x00 :: be_bytes 2 (Z.of_nat (length (snd block) / 4)) ++ snd block.

Lemma xr_loop_back blocks pre fuel :
  Forall (fun b => in_u 8 (fst b) /\ (length (snd b) mod 4 = 0)%nat /\ Z.of_nat (length (snd b)) < 4 * 2 ^ 16) blocks ->
  (length blocks <= fuel)%nat ->
  xr_loop fuel (pre ++ concat (map xr_written blocks)) (length pre) = map (fun b => xr_block (fst b) (snd b)) blocks.
Proof.
  intros F. revert pre fuel. induction F as [|[t d] blocks (T & M & L) F IH]; intros pre fuel Lf; cbn [map concat fst snd] in *.
  - rewrite app_nil_r. destruct fuel; [done|]. cbn [xr_loop]. by rewrite (proj2 (Nat.leb_gt _ _)) by lia.
  - destruct fuel as [|fuel]; [cbn in Lf; lia|]. cbn [length] in Lf. set (rest := concat (map xr_written blocks)) in *.
    apply Nat.Div0.div_exact in M. assert (L4 : (length d / 4 * 4 = length d)%nat) by lia.
    set (words := Z.of_nat (length d / 4)). set (payload := pre ++ xr_written (t, d) ++ rest).
    assert (Ep : payload = pre ++ byte_of t :: x00 :: be_bytes 2 words ++ d ++ rest).
    { unfold payload, xr_written. cbn [fst snd app]. by rewrite <- app_assoc. }
    assert (Lp : length payload = (length pre + 4 + length d + length rest)%nat).
    { rewrite Ep, length_app. cbn [length]. rewrite !length_app, length_be_bytes. lia. }
    assert (A0 : at_ payload (length pre) = t) by (rewrite Ep, at_mid, byte_val_of; by apply Z.mod_small).
    assert (A1 : be_at payload (length pre + 2) 2 = words).
    { pose proof (be_at_mid (pre ++ [byte_of t; x00]) 2 words (d ++ rest)) as E. rewrite length_app, <- app_assoc in E.
      rewrite Ep. apply E. unfold in_u, words. change (2 ^ _) with 65536. lia. }
    assert (A2 : sub_ (length pre + 4) (length d) payload = d).
    { pose proof (sub_mid (pre ++ byte_of t :: x00 :: be_bytes 2 words) d rest) as E.
      rewrite length_app, <- app_assoc in E. by rewrite Ep. }
    cbn [xr_loop]. rewrite A0, A1. unfold words. rewrite Nat2Z.id, L4, A2, Lp.
    rewrite (proj2 (Nat.leb_le _ _)), (proj2 (Nat.ltb_ge _ _)) by lia. f_equal.
    specialize (IH (pre ++ xr_written (t, d)) fuel ltac:(lia)). rewrite <- app_assoc in IH. fold payload in IH.
    rewrite <- IH. f_equal. rewrite length_app. unfold xr_written. cbn [fst snd length]. rewrite length_app, length_be_bytes. lia.
Qed.

(** Blocks of any kinds are found one behind the other, whatever their types. *)
Theorem xr_blocks_arrive sender blocks :
  in_u 32 sender ->
  Forall (fun b => in_u 8 (fst b) /\ (length (snd b) mod 4 = 0)%nat /\ Z.of_nat (length (snd b)) < 4 * 2 ^ 16) blocks ->
  parse_rtcp_xr (be_bytes 4 sender ++ concat (map xr_written blocks))
    = Some (mk_xr sender (map (fun b => xr_block (fst b) (snd b)) blocks)).
Proof.
  intros S F. unfold parse_rtcp_xr. rewrite length_app, length_be_bytes, (proj2 (Nat.ltb_ge _ _)) by lia.
  rewrite be_at_here by done. do 2 f_equal. apply (xr_loop_back _ (be_bytes 4 sender)); [done|].
  clear F. induction blocks as [|b blocks IH]; [cbn; lia|]. cbn [map concat length]. rewrite length_app. unfold xr_written at 1.
  cbn [length]. lia.
Qed.

(** The report that the library builds says that it has three words behind the header; it has
    four. Its payload alone would be read, but read as a packet it has no block, and the second
    half of the time is left over in front of the next packet. *)
Theorem reference_time_is_cut sender ntp :
  in_u 32 sender -> in_u 64 ntp ->
  let report := build_rtcp_xr_receiver_reference_time sender ntp in
  parse_rtcp_xr (drop 4 report) = Some (mk_xr sender [ReceiverReferenceTime ntp]) /\
  exists payload, parse_one report = Ok (UnknownPacket 207 0 payload, 16%nat) /\ length report = 20%nat /\
    parse_rtcp_xr payload = Some (mk_xr sender []).
Proof.
  intros S N report. split.
  - change (drop 4 report) with (be_bytes 4 sender ++ concat (map xr_written [(4, be_bytes 8 ntp)])).
    rewrite xr_blocks_arrive; [|done|by apply Forall_singleton]. cbn [map fst snd]. unfold xr_block.
    rewrite length_be_bytes. cbn [Nat.leb]. change (4 =? XR_BLOCK_RECEIVER_REFERENCE_TIME) with true. cbn [andb].
    pose proof (be_at_here 8 ntp [] N) as E. rewrite app_nil_r in E. by rewrite E.
  - exists (be_bytes 4 sender ++ [x04; x00; x00; x02] ++ take 4 (be_bytes 8 ntp)). split; [|split; [done|]].
    + pose proof (parse_one_written 207 0 [byte_of 0x80; byte_of 207; x00; x03]
        (be_bytes 4 sender ++ [x04; x00; x00; x02] ++ take 4 (be_bytes 8 ntp)) (drop 4 (be_bytes 8 ntp))) as E.
      rewrite parse_payload_unknown in E by lia. exact (E eq_refl ltac:(done) ltac:(lia)).
    + unfold parse_rtcp_xr. rewrite be_at_here by done. done.
Qed.

Example report_spoils_compound :
  rtcp_parse (build_rtcp_xr_receiver_reference_time 1 0x1122334455667788 ++ build_feedback sample_fir) = Err (RtcpUnsupportedVersion 1).
Proof. by vm_compute. Qed.
