(* ===== verification/Text.v ===== *)
(** * Text

    The operations of Rust's [str] that the text protocols use, on the bytes of the text:
    searching, splitting, trimming of Unicode white space, comparison without case, and decimal
    numbers. *)
From Stdlib Require Import Strings.Byte Strings.String.
From S2P Require Import Prelude RtmpBytes Amf Tracks.
Local Open Scope list_scope.
Local Open Scope Z_scope.

Abbreviation text := (list byte).

(** A literal. *)
Definition txt (s : string) : text := list_byte_of_string s.

(** ** Searching *)

Fixpoint starts_with (p s : text) : bool :=
  match p, s with
  | [], _ => true
  | a :: p, b :: s => bool_decide (a = b) && starts_with p s
  | _, [] => false
  end.

Definition ends_with (p s : text) : bool := starts_with (rev p) (rev s).

(** [str::find] of an ASCII character. *)
Fixpoint find_byte (b : byte) (s : text) : option nat :=
  match s with
  | [] => None
  | x :: s => if bool_decide (x = b) then Some 0%nat else S <$> find_byte b s
  end.

Definition contains_byte (b : byte) (s : text) : bool := bool_decide (b ∈ s).

(** [str::split_once] at an ASCII character. *)
Definition split_once (b : byte) (s : text) : option (text * text) :=
  i ← find_byte b s; Some (take i s, drop (S i) s).

(** [str::split]; every turn takes a byte. *)
Fixpoint split_loop (fuel : nat) (sep s : text) : list text :=
  match fuel, s with
  | O, _ => [s]
  | _, [] => [[]]
  | S fuel, b :: t =>
      if starts_with sep s then [] :: split_loop fuel sep (drop (length sep) s)
      else match split_loop fuel sep t with
           | w :: ws => (b :: w) :: ws
           | [] => [[b]]
           end
  end.
Definition split_str (sep s : text) : list text := split_loop (length s) sep s.

(** ** White space *)

(** The characters with the property White_Space. *)
Definition WHITE_SPACE : list text :=
  [[x09]; [x0a]; [x0b]; [x0c]; [x0d]; [x20]; [xc2; x85]; [xc2; xa0]; [xe1; x9a; x80];
   [xe2; x80; x80]; [xe2; x80; x81]; [xe2; x80; x82]; [xe2; x80; x83]; [xe2; x80; x84]; [xe2; x80; x85];
   [xe2; x80; x86]; [xe2; x80; x87]; [xe2; x80; x88]; [xe2; x80; x89]; [xe2; x80; x8a];
   [xe2; x80; xa8]; [xe2; x80; xa9]; [xe2; x80; xaf]; [xe2; x81; x9f]; [xe3; x80; x80]].

(** The length of the white space character that a text begins or ends with, or 0. *)
Definition ws_prefix (s : text) : nat :=
  match List.find (fun w => starts_with w s) WHITE_SPACE with Some w => length w | None => 0%nat end.
Definition ws_suffix (s : text) : nat :=
  match List.find (fun w => ends_with w s) WHITE_SPACE with Some w => length w | None => 0%nat end.

Fixpoint trim_start_loop (fuel : nat) (s : text) : text :=
  match fuel with
  | O => s
  | S fuel => match ws_prefix s with O => s | n => trim_start_loop fuel (drop n s) end
  end.
Definition trim_start (s : text) : text := trim_start_loop (length s) s.

Fixpoint trim_end_loop (fuel : nat) (s : text) : text :=
  match fuel with
  | O => s
  | S fuel => match ws_suffix s with O => s | n => trim_end_loop fuel (take (length s - n) s) end
  end.
Definition trim_end (s : text) : text := trim_end_loop (length s) s.

Definition trim (s : text) : text := trim_end (trim_start s).

Definition flush (word : text) : list text := if is_empty word then [] else [word].

Fixpoint words_loop (fuel : nat) (s word : text) : list text :=
  match fuel, s with
  | O, _ | _, [] => flush word
  | S fuel, b :: t =>
      match ws_prefix s with
      | O => words_loop fuel t (word ++ [b])
      | n => flush word ++ words_loop fuel (drop n s) []
      end
  end.
Definition split_whitespace (s : text) : list text := words_loop (length s) s [].

(** ** Case *)

Definition ascii_lower (b : byte) : byte :=
  if (0x41 <=? byte_val b) && (byte_val b <=? 0x5a) then byte_of (byte_val b + 32) else b.
Definition eq_ignore_ascii_case (a b : text) : bool := bool_decide (map ascii_lower a = map ascii_lower b).

(** ** Decimal numbers *)

Definition digit (b : byte) : option Z :=
  if (0x30 <=? byte_val b) && (byte_val b <=? 0x39) then Some (byte_val b - 0x30) else None.

Fixpoint digits_val (s : text) (acc : Z) : option Z :=
  match s with
  | [] => Some acc
  | b :: s => d ← digit b; digits_val s (acc * 10 + d)
  end.

(** [str::parse] to an unsigned integer of [w] bits: digits behind an optional plus sign. The code
    stops at the first overflow; since the value only grows, it overflows exactly when the
    whole does. *)
Definition parse_uint (w : Z) (s : text) : option Z :=
  let s' := match s with x2b :: s' => s' | _ => s end in
  if is_empty s' then None
  else v ← digits_val s' 0; if v <? 2 ^ w then Some v else None.

Fixpoint decimal_loop (fuel : nat) (z : Z) (acc : text) : text :=
  match fuel with
  | O => acc
  | S fuel =>
      let acc := byte_of (48 + z mod 10) :: acc in
      if z / 10 =? 0 then acc else decimal_loop fuel (z / 10) acc
  end.

(** [to_string] of an integer of at most 64 bits, which has at most twenty digits. *)
Definition decimal (z : Z) : text := decimal_loop 20 z [].

(** ** Lemmas *)

Lemma starts_with_app p s : starts_with p (p ++ s) = true.
Proof. induction p as [|a p IH]; [by destruct s|]. cbn. by rewrite bool_decide_true. Qed.

Lemma starts_with_spec p s : starts_with p s = true <-> exists t, s = p ++ t.
Proof.
  split; [|intros [t ->]; apply starts_with_app].
  revert s. induction p as [|a p IH]; intros s; [by exists s|]. destruct s as [|b s]; [done|]. cbn.
  intros [->%bool_decide_eq_true H]%andb_prop. destruct (IH s H) as [t ->]. by exists t.
Qed.

Lemma starts_with_cons_ne a p b s : a <> b -> starts_with (a :: p) (b :: s) = false.
Proof. intros N. cbn. by rewrite bool_decide_false. Qed.

Lemma find_byte_app b s t : b ∉ s -> find_byte b (s ++ b :: t) = Some (length s).
Proof.
  induction s as [|x s IH]; intros N; cbn; [by rewrite bool_decide_true|].
  apply not_elem_of_cons in N as [N1 N2]. rewrite bool_decide_false by done. by rewrite IH.
Qed.

Lemma find_byte_none b s : b ∉ s -> find_byte b s = None.
Proof.
  induction s as [|x s IH]; intros N; cbn; [done|].
  apply not_elem_of_cons in N as [N1 N2]. rewrite bool_decide_false by done. by rewrite IH.
Qed.

Lemma split_once_at b s t : b ∉ s -> split_once b (s ++ b :: t) = Some (s, t).
Proof.
  intros N. unfold split_once. rewrite find_byte_app by done. cbn. rewrite take_app_length. do 2 f_equal.
  change (b :: t) with ([b] ++ t). rewrite app_assoc. apply drop_app_length'. rewrite length_app. cbn. lia.
Qed.

(** A word without the first byte of the separator, in front of a separator. *)
Lemma split_loop_word fuel a sep s t :
  a ∉ s -> (length s + length (a :: sep) <= fuel)%nat ->
  split_loop fuel (a :: sep) (s ++ (a :: sep) ++ t) = s :: split_loop (fuel - S (length s)) (a :: sep) t.
Proof.
  revert fuel. induction s as [|x s IH]; intros fuel N L; cbn [length] in L.
  - destruct fuel as [|fuel]; [lia|]. cbn [app split_loop]. change (a :: sep ++ t) with ((a :: sep) ++ t).
    rewrite starts_with_app, drop_app_length. cbn [length]. by replace (S fuel - 1)%nat with fuel by lia.
  - destruct fuel as [|fuel]; [lia|]. apply not_elem_of_cons in N as [N1 N2]. cbn [app split_loop].
    rewrite starts_with_cons_ne by done. change (a :: sep ++ t) with ((a :: sep) ++ t). rewrite IH by (done || (cbn [length]; lia)).
    cbn [length]. by replace (S fuel - S (S (length s)))%nat with (fuel - S (length s))%nat by lia.
Qed.

Lemma split_loop_last fuel a sep s : a ∉ s -> (length s <= fuel)%nat -> split_loop fuel (a :: sep) s = [s].
Proof.
  revert fuel. induction s as [|x s IH]; intros fuel N L; cbn [length] in L; destruct fuel as [|fuel]; try done; try lia.
  apply not_elem_of_cons in N as [N1 N2]. cbn [split_loop]. rewrite starts_with_cons_ne by done. by rewrite IH by (done || lia).
Qed.

Fixpoint join (sep : text) (l : list text) : text :=
  match l with
  | [] => []
  | [w] => w
  | w :: l => w ++ sep ++ join sep l
  end.

Lemma join_cons sep w l : l <> [] -> join sep (w :: l) = w ++ sep ++ join sep l.
Proof. by destruct l. Qed.

Lemma split_join a sep l : l <> [] -> Forall (fun w => a ∉ w) l -> split_str (a :: sep) (join (a :: sep) l) = l.
Proof.
  intros N F. unfold split_str. enough (G : forall fuel, (length (join (a :: sep) l) <= fuel)%nat -> split_loop fuel (a :: sep) (join (a :: sep) l) = l)
    by by apply G.
  induction F as [|w l Hw F IH]; [done|]. intros fuel L. destruct l as [|w' l].
  - by apply split_loop_last.
  - rewrite join_cons in * by done. rewrite !length_app in L. rewrite split_loop_word by (done || (cbn [length] in *; lia)).
    rewrite IH; [done|done|cbn [length] in *; lia].
Qed.

(** *** UTF-8 *)

Lemma utf8_app s t : utf8_valid s = true -> utf8_valid (s ++ t) = utf8_valid t.
Proof.
  remember (length s) as n eqn:L. revert s L. induction (lt_wf n) as [n _ IH]. intros [|b0 t0] -> V; [done|].
  cbn [utf8_valid app] in *. cbn [length] in IH.
  destruct (byte_val b0 <? 0x80); [by apply (IH (length t0)); [lia|..]|].
  destruct t0 as [|b1 t1]; [done|]. cbn [app]. destruct (byte_in 0xC2 0xDF b0) eqn:E2.
  { apply andb_prop in V as [-> V]. cbn [length] in IH. by apply (IH (length t1)); [lia|..]. }
  destruct t1 as [|b2 t2]; [done|]. cbn [app]. destruct (byte_in 0xE0 0xEF b0) eqn:E3.
  { apply andb_prop in V as [[-> ->]%andb_prop V]. cbn [length] in IH. by apply (IH (length t2)); [lia|..]. }
  destruct t2 as [|b3 t3]; [done|]. cbn [app]. apply andb_prop in V as [V0 V]. apply andb_prop in V0 as [V0 ->].
  apply andb_prop in V0 as [V0 ->]. apply andb_prop in V0 as [-> ->].
  cbn [length] in IH. by apply (IH (length t3)); [lia|..].
Qed.

Lemma utf8_join sep l : utf8_valid sep = true -> Forall (fun w => utf8_valid w = true) l -> utf8_valid (join sep l) = true.
Proof.
  intros S F. induction F as [|w l Hw F IH]; [done|]. destruct l; [done|].
  rewrite join_cons by done. by rewrite !utf8_app.
Qed.

(** *** White space *)

(** A text that trimming leaves as it is. *)
Definition trimmed (s : text) : bool := (ws_prefix s =? 0)%nat && (ws_suffix s =? 0)%nat.

Lemma trim_trimmed s : trimmed s = true -> trim s = s.
Proof.
  intros [P%Nat.eqb_eq Q%Nat.eqb_eq]%andb_prop. unfold trim, trim_start, trim_end.
  assert (trim_start_loop (length s) s = s) as -> by (destruct s; cbn [length trim_start_loop]; [done|by rewrite P]).
  destruct s; cbn [length trim_end_loop]; [done|by rewrite Q].
Qed.

Lemma trim_behind_space s : trimmed s = true -> trim (x20 :: s) = s.
Proof.
  intros [P%Nat.eqb_eq Q%Nat.eqb_eq]%andb_prop. unfold trim, trim_start, trim_end. cbn [length trim_start_loop].
  change (ws_prefix (x20 :: s)) with 1%nat. cbv iota. change (drop 1 (x20 :: s)) with s.
  assert (trim_start_loop (length s) s = s) as -> by (destruct s; cbn [length trim_start_loop]; [done|by rewrite P]).
  destruct s; cbn [length trim_end_loop]; [done|by rewrite Q].
Qed.

(** White space at the front of a text is the same with an ASCII character behind the text. *)
Lemma starts_with_behind c w q t : q <> [] -> c ∉ tail w -> starts_with w (q ++ c :: t) = starts_with w q.
Proof.
  assert (G : forall w q, c ∉ w -> starts_with w (q ++ c :: t) = starts_with w q).
  { clear. intros w. induction w as [|a w IH]; intros q N; [by destruct q|]. apply not_elem_of_cons in N as [N1 N2].
    destruct q as [|b q]; cbn; [by rewrite bool_decide_false|]. by rewrite IH. }
  intros Q N. destruct w as [|a w]; [by destruct q|]. destruct q as [|b q]; [done|]. cbn. by rewrite G.
Qed.

Lemma starts_with_space w q t : q <> [] -> x20 ∉ tail w -> starts_with w (q ++ x20 :: t) = starts_with w q.
Proof. apply starts_with_behind. Qed.

Lemma ws_prefix_behind c q t : byte_val c < 128 -> q <> [] -> ws_prefix (q ++ c :: t) = ws_prefix q.
Proof.
  intros C Q. unfold ws_prefix. enough (E : List.find (fun w => starts_with w (q ++ c :: t)) WHITE_SPACE = List.find (fun w => starts_with w q) WHITE_SPACE)
    by by rewrite E.
  assert (F : Forall (fun w : text => Forall (fun b => 128 <= byte_val b) (tail w)) WHITE_SPACE) by (apply (bool_decide_unpack _); by vm_compute).
  induction F as [|w l Hw F IH]; [done|]. cbn [List.find]. rewrite starts_with_behind; [by rewrite IH|done|].
  intros H. rewrite Forall_forall in Hw. specialize (Hw _ H). lia.
Qed.

Lemma ws_prefix_space q t : q <> [] -> ws_prefix (q ++ x20 :: t) = ws_prefix q.
Proof. by apply ws_prefix_behind. Qed.

(** A word: no white space begins anywhere in it. *)
Definition spaceless (s : text) : bool := forallb (fun k => ws_prefix (drop k s) =? 0)%nat (seq 0 (length s)).

Lemma spaceless_cons b s : spaceless (b :: s) = true -> ws_prefix (b :: s) = 0%nat /\ spaceless s = true.
Proof.
  unfold spaceless. cbn [length seq forallb]. intros [E%Nat.eqb_eq F]%andb_prop. split; [done|].
  rewrite forallb_forall in *. intros k [_ K]%in_seq. apply (F (S k)), in_seq. lia.
Qed.

Lemma spaceless_without b s : (forall t, ws_prefix (b :: t) = 1%nat) -> spaceless s = true -> b ∉ s.
Proof.
  intros W S H. apply list_elem_of_split in H as (p & t & ->). unfold spaceless in S. rewrite forallb_forall in S.
  specialize (S (length p)). rewrite in_seq, length_app, drop_app_length in S. cbn [length] in S.
  specialize (S ltac:(lia)). apply Nat.eqb_eq in S. by rewrite W in S.
Qed.

Lemma words_loop_word fuel s t word :
  spaceless s = true -> (length s < fuel)%nat -> is_empty (word ++ s) = false ->
  words_loop fuel (s ++ x20 :: t) word = (word ++ s) :: words_loop (fuel - S (length s)) t [].
Proof.
  revert fuel word. induction s as [|b s IH]; intros fuel word N L E; (destruct fuel as [|fuel]; [cbn in L; lia|]); cbn [app words_loop length] in *.
  - change (ws_prefix (x20 :: t)) with 1%nat. cbv iota. rewrite app_nil_r in *. unfold flush. rewrite E. cbn [drop app].
    by replace (S fuel - 1)%nat with fuel by lia.
  - apply spaceless_cons in N as [N1 N2]. change (b :: s ++ x20 :: t) with ((b :: s) ++ x20 :: t).
    rewrite ws_prefix_space, N1 by done. rewrite IH by (done || lia || (rewrite <- app_assoc; done)). by rewrite <- app_assoc.
Qed.

Lemma words_loop_last fuel s word :
  spaceless s = true -> (length s <= fuel)%nat -> is_empty (word ++ s) = false -> words_loop fuel s word = [word ++ s].
Proof.
  revert fuel word. induction s as [|b s IH]; intros fuel word N L E.
  - rewrite app_nil_r in *. destruct fuel; cbn [words_loop]; unfold flush; by rewrite E.
  - destruct fuel as [|fuel]; [cbn in L; lia|]. cbn [length words_loop] in *. apply spaceless_cons in N as [N1 N2]. rewrite N1.
    rewrite IH by (done || lia || (rewrite <- app_assoc; done)). by rewrite <- app_assoc.
Qed.

Lemma split_three a b c :
  spaceless a = true -> spaceless b = true -> spaceless c = true -> a <> [] -> b <> [] -> c <> [] ->
  split_whitespace (a ++ x20 :: b ++ x20 :: c) = [a; b; c].
Proof.
  intros A B C Na Nb Nc. unfold split_whitespace. rewrite !length_app. cbn [length]. rewrite length_app. cbn [length].
  assert (forall s : text, s <> [] -> is_empty ([] ++ s) = false) as E by (by intros []).
  rewrite words_loop_word by (by auto || lia). f_equal. rewrite words_loop_word by (by auto || lia). f_equal.
  apply words_loop_last; [done|lia|by apply E].
Qed.

(** *** Numbers *)

Lemma digit_back d : 0 <= d < 10 -> digit (byte_of (48 + d)) = Some d.
Proof.
  intros D. unfold digit. rewrite byte_val_of, Z.mod_small by lia.
  rewrite !(proj2 (Z.leb_le _ _)) by lia. cbn. f_equal. lia.
Qed.

Lemma digit_range b : is_Some (digit b) -> 0x30 <= byte_val b <= 0x39.
Proof. intros [d Hd]. unfold digit in Hd. destruct (Z.leb_spec 0x30 (byte_val b)), (Z.leb_spec (byte_val b) 0x39); done. Qed.

(** Digits are ASCII, on one line. *)
Lemma digits_plain s : Forall (fun b => is_Some (digit b)) s -> utf8_valid s = true /\ (x0d ∉ s) /\ (x0a ∉ s).
Proof.
  intros D. split; [|by split; intros H; rewrite Forall_forall in D; apply D in H as [? ?]].
  induction D as [|b s Hb D IH]; [done|]. cbn [utf8_valid]. pose proof (digit_range b Hb). by rewrite (proj2 (Z.ltb_lt _ _)) by lia.
Qed.

Lemma digits_no_space b s : is_Some (digit b) -> ws_prefix (b :: s) = 0%nat.
Proof. intros [d Hd]. destruct b; (discriminate Hd || reflexivity). Qed.

Lemma digits_no_space_behind c s s' : rev s = c :: s' -> is_Some (digit c) -> ws_suffix s = 0%nat.
Proof. intros E [d Hd]. unfold ws_suffix, ends_with. rewrite E. destruct c; (discriminate Hd || reflexivity). Qed.

Lemma digits_trimmed s : Forall (fun b => is_Some (digit b)) s -> trimmed s = true.
Proof.
  intros D. pose proof (List.Forall_rev D) as R. unfold trimmed. destruct D as [|b s Hb D]; [done|].
  rewrite digits_no_space by done. destruct (rev (b :: s)) as [|c s'] eqn:E; [by apply app_eq_nil in E as [_ ?]|].
  apply Forall_cons in R as [Hc _]. by rewrite (digits_no_space_behind c _ _ E Hc).
Qed.

Lemma decimal_loop_val fuel z rest :
  0 <= z < 10 ^ Z.of_nat fuel -> exists k, 0 <= k /\ forall acc, digits_val (decimal_loop fuel z rest) acc = digits_val rest (acc * 10 ^ k + z).
Proof.
  revert z rest. induction fuel as [|fuel IH]; intros z rest R.
  { exists 0. split; [done|]. intros acc. cbn. f_equal. cbn in R. lia. }
  cbn [decimal_loop]. set (b := byte_of (48 + z mod 10)).
  assert (Db : digit b = Some (z mod 10)) by (apply digit_back; zdm).
  rewrite Nat2Z.inj_succ, Z.pow_succ_r in R by lia. destruct (Z.eqb_spec (z / 10) 0) as [E|E].
  - exists 1. split; [done|]. intros acc. cbn [digits_val]. rewrite Db. cbn [mbind option_bind]. f_equal. zdm.
  - destruct (IH (z / 10) (b :: rest)) as (k & K & H); [zdm|]. exists (k + 1). split; [lia|]. intros acc. rewrite H. cbn [digits_val].
    rewrite Db. cbn [mbind option_bind]. f_equal. rewrite Z.pow_add_r by lia. zdm.
Qed.

Lemma decimal_loop_digits fuel z rest :
  Forall (fun b => is_Some (digit b)) rest -> (fuel <> 0%nat \/ rest <> []) ->
  Forall (fun b => is_Some (digit b)) (decimal_loop fuel z rest) /\ decimal_loop fuel z rest <> [].
Proof.
  revert z rest. induction fuel as [|fuel IH]; intros z rest F N; [split; [done|by destruct N]|]. cbn [decimal_loop].
  assert (D : is_Some (digit (byte_of (48 + z mod 10)))) by (rewrite digit_back by zdm; by eexists).
  destruct (z / 10 =? 0); [split; [by constructor|done]|]. apply IH; [by constructor|by right].
Qed.

Lemma decimal_digits z : Forall (fun b => is_Some (digit b)) (decimal z) /\ decimal z <> [].
Proof. apply decimal_loop_digits; [constructor|by left]. Qed.

(** What [to_string] writes, [parse] reads. *)
Lemma parse_decimal w z : 0 <= w <= 64 -> in_u w z -> parse_uint w (decimal z) = Some z.
Proof.
  intros W R. destruct (decimal_digits z) as [D N]. unfold parse_uint.
  assert (E : match decimal z with x2b :: s' => s' | _ => decimal z end = decimal z).
  { destruct (decimal z) as [|b s]; [done|]. apply Forall_cons in D as [[d Hd] _]. by destruct b. }
  rewrite E. destruct (is_empty (decimal z)) eqn:Em; [by destruct (decimal z)|]. unfold in_u in R.
  assert (P : 2 ^ w <= 2 ^ 64) by (apply Z.pow_le_mono_r; lia).
  destruct (decimal_loop_val 20 z []) as (k & _ & H); [change (10 ^ Z.of_nat 20) with 100000000000000000000; change (2 ^ 64) with 18446744073709551616 in P; lia|].
  unfold decimal in *. rewrite H. cbn [digits_val]. rewrite Z.mul_0_l, Z.add_0_l. cbn [mbind option_bind].
  by rewrite (proj2 (Z.ltb_lt _ _)) by lia.
Qed.

Lemma eq_ignore_case_refl s : eq_ignore_ascii_case s s = true.
Proof. unfold eq_ignore_ascii_case. by rewrite bool_decide_true. Qed.
