(* ===== verification/Framing.v ===== *)
(** * Frames on a stream

    The loop that the stream protocols share: as long as a turn takes something off the front of
    the buffer, take the next turn. What comes out of it depends on the bytes alone and not on
    how they were cut, when a turn finds every frame at the front of a buffer and waits for the
    rest of one that is cut. *)
From Stdlib Require Import Strings.Byte.
From S2P Require Import Prelude.

Section framing.
Context {Out Fault : Type}.

(** A turn says what is left of the buffer and what it found; [None] leaves the loop. *)
Definition Turn : Type := list byte -> list byte * result Fault (option (list Out)).
Context (turn : Turn).

Fixpoint drain (fuel : nat) (buffer : list byte) : list byte * list Out * result Fault unit :=
  match fuel with
  | O => (buffer, [], Ok tt)
  | S fuel =>
      match turn buffer with
      | (buffer, Err e) => (buffer, [], Err e)
      | (buffer, Ok None) => (buffer, [], Ok tt)
      | (buffer, Ok (Some found)) =>
          let '(buffer, more, r) := drain fuel buffer in (buffer, found ++ more, r)
      end
  end.

(** The bytes [w] are a frame in which [found] is found. *)
Definition frame (f : list byte * list Out) : Prop :=
  let '(w, found) := f in
  w <> [] /\ (forall rest, turn (w ++ rest) = (rest, Ok (Some found))) /\
  forall p q, w = p ++ q -> q <> [] -> turn p = (p, Ok None).

Abbreviation wire fs := (concat (map fst fs)).
Abbreviation found_in fs := (concat (map snd fs)).

Lemma drain_frames fs fuel p :
  Forall frame fs -> turn p = (p, Ok None) -> (length (wire fs) < fuel)%nat ->
  drain fuel (wire fs ++ p) = (p, found_in fs, Ok tt).
Proof.
  intros F P. revert fuel. induction F as [|[w found] fs (N & W & _) F IH]; intros [|fuel] L; cbn [map concat fst snd] in *; try lia.
  - cbn [app drain]. by rewrite P.
  - cbn [drain]. rewrite <- app_assoc, W. rewrite IH; [done|]. rewrite length_app in L. destruct w; [done|]. cbn in L. lia.
Qed.

(** The beginning of a stream is whole frames and a part of the next. *)
Definition waits (fs : list (list byte * list Out)) (p : list byte) : Prop :=
  match fs with
  | [] => p = []
  | (w, _) :: _ => exists q, w = p ++ q /\ q <> []
  end.

Lemma stream_split fs x more :
  x ++ more = wire fs -> exists fs1 fs2 p, fs = fs1 ++ fs2 /\ x = wire fs1 ++ p /\ p ++ more = wire fs2 /\ waits fs2 p.
Proof.
  revert x. induction fs as [|[w found] fs IH]; intros x E; cbn [map concat fst] in E.
  - apply app_eq_nil in E as [-> ->]. by exists [], [], [].
  - destruct (decide (length w <= length x)%nat) as [L|L].
    + assert (exists x', x = w ++ x') as [x' ->].
      { exists (drop (length w) x). rewrite <- (take_drop (length w) x) at 1. f_equal.
        apply (f_equal (take (length w))) in E. by rewrite take_app_le, take_app_length in E. }
      rewrite <- app_assoc in E. apply app_inv_head in E. destruct (IH _ E) as (fs1 & fs2 & p & -> & -> & E2 & W).
      exists ((w, found) :: fs1), fs2, p. split; [done|]. split; [cbn [map concat fst]; by rewrite <- app_assoc|]. by split.
    + exists [], ((w, found) :: fs), x. split; [done|]. split; [done|]. split; [done|].
      exists (drop (length x) w). assert (T : take (length x) w = x).
      { apply (f_equal (take (length x))) in E. rewrite take_app_length, take_app_le in E by lia. done. }
      split; [by rewrite <- T at 1; rewrite take_drop|]. intros D. apply (f_equal length) in D. rewrite length_drop in D. cbn in D. lia.
Qed.

Lemma stream_front fs x more :
  x ++ more = wire fs ->
  exists fs1 fs2 p, fs = fs1 ++ fs2 /\ x = wire fs1 ++ p /\ p ++ more = wire fs2 /\ (Forall frame fs -> waits fs2 p).
Proof. intros E. destruct (stream_split fs x more E) as (fs1 & fs2 & p & ? & ? & ? & ?). by exists fs1, fs2, p. Qed.

Lemma waits_turn fs p : turn [] = ([], Ok None) -> Forall frame fs -> waits fs p -> turn p = (p, Ok None).
Proof.
  intros E F W. destruct F as [|[w found] fs (_ & _ & C) F]; cbn [waits] in W; [by subst|].
  destruct W as (q & -> & Q). by apply (C p q).
Qed.

Lemma waits_length fs p size :
  (1 <= size)%nat -> Forall (fun f => (length (fst f) <= size)%nat) fs -> waits fs p -> (length p < size)%nat.
Proof.
  intros S F W. destruct F as [|[w found] fs L F]; cbn [waits fst] in *; [subst; cbn; lia|].
  destruct W as (q & -> & Q). rewrite length_app in L. destruct q; [done|]. cbn in L. lia.
Qed.
End framing.

Arguments Turn : clear implicits.
