(* ===== verification/RtspMessage.v ===== *)
(** * RTSP messages

    Models [crates/protocols/rtsp/core/src/core/message.rs], [limits.rs] and [method.rs]: requests and
    responses, found in a buffer, parsed and written. [usize] has 64 bits. *)
From Stdlib Require Import Strings.Byte.
From S2P Require Import Prelude RtmpBytes Amf Tracks Text.
Local Open Scope string_scope.
Local Open Scope list_scope.
Local Open Scope Z_scope.

Inductive RtspCoreError :=
  | InvalidUtf8 | InvalidStartLine | InvalidContentLength | InvalidHeaderLine
  | InvalidMessageField (field : string)
  | UnexpectedRtspResponse | UnexpectedRtspRequest
  | InterleavedPayloadTooLarge (size : Z)
  | InterleavedFrameSizeLimitExceeded (max actual : Z)
  | BufferSizeLimitExceeded (max actual : Z)
  | HeaderCountLimitExceeded (max actual : Z)
  | HeaderLineSizeLimitExceeded (max actual : Z)
  | BodySizeLimitExceeded (max actual : Z).

Definition text_len {A} (s : list A) : Z := Z.of_nat (length s).

(** ** Limits *)

Record RtspMessageLimits := mk_limits {
  max_buffer_size : Z; max_headers_count : Z; max_header_line_size : Z; max_body_size : Z;
  max_interleaved_frame_size : Z; validate_version : bool }.

Definition limits_default : RtspMessageLimits := mk_limits (1024 * 1024) 64 (8 * 1024) (512 * 1024) (64 * 1024) true.

Definition validate_buffer_growth (l : RtspMessageLimits) (current_len incoming_len : Z) : result RtspCoreError unit :=
  let total_len := current_len + incoming_len in
  if 2 ^ 64 <=? total_len then Err (BufferSizeLimitExceeded (max_buffer_size l) (2 ^ 64 - 1))
  else if max_buffer_size l <? total_len then Err (BufferSizeLimitExceeded (max_buffer_size l) total_len)
  else Ok tt.

Definition CRLF : text := [x0d; x0a].
Definition CONTENT_LENGTH : text := txt "content-length".

Definition split_header_line (line : text) : option (text * text) :=
  '(name, value) ← split_once x3a line; Some (trim name, trim value).

Fixpoint content_length_loop (lines : list text) : result RtspCoreError Z :=
  match lines with
  | [] => Ok 0
  | line :: lines =>
      match split_header_line line with
      | Some (name, value) =>
          if eq_ignore_ascii_case name CONTENT_LENGTH then ok_or (parse_uint 64 value) InvalidContentLength
          else content_length_loop lines
      | None => content_length_loop lines
      end
  end.

Definition parse_content_length (headers : list byte) : result RtspCoreError Z :=
  if utf8_valid headers then content_length_loop (split_str CRLF headers) else Err InvalidUtf8.

(** The first window of four bytes that is an empty line. *)
Fixpoint find_header_end (raw : list byte) : option nat :=
  if starts_with (CRLF ++ CRLF) raw then Some 0%nat
  else match raw with [] => None | _ :: raw => S <$> find_header_end raw end.

(** ** Messages *)

Record RtspHeader := mk_header { h_name : text; h_value : text }.
Record RtspRequestMessage := mk_request {
  q_method : text; q_uri : text; q_version : text; q_headers : list RtspHeader; q_body : list byte }.
Record RtspResponseMessage := mk_response {
  r_version : text; r_status_code : Z; r_reason_phrase : text; r_headers : list RtspHeader; r_body : list byte }.

Definition header_value (headers : list RtspHeader) (name : text) : option text :=
  h_value <$> List.find (fun h => eq_ignore_ascii_case (h_name h) name) headers.

Inductive RtspMethod :=
  | Get | Post | Options | Describe | Announce | Setup | Play | Pause | Teardown
  | GetParameter | SetParameter | Redirect | Record | Extension (value : text).

Definition method_as_str (m : RtspMethod) : text :=
  match m with
  | Get => txt "GET" | Post => txt "POST" | Options => txt "OPTIONS" | Describe => txt "DESCRIBE"
  | Announce => txt "ANNOUNCE" | Setup => txt "SETUP" | Play => txt "PLAY" | Pause => txt "PAUSE"
  | Teardown => txt "TEARDOWN" | GetParameter => txt "GET_PARAMETER" | SetParameter => txt "SET_PARAMETER"
  | Redirect => txt "REDIRECT" | Record => txt "RECORD" | Extension value => value
  end.

Definition known_methods : list RtspMethod :=
  [Get; Post; Options; Describe; Announce; Setup; Play; Pause; Teardown; GetParameter; SetParameter; Redirect; Record].

Definition method_parse (value : text) : RtspMethod :=
  match List.find (fun m => bool_decide (value = method_as_str m)) known_methods with
  | Some m => m
  | None => Extension value
  end.

Record RtspRequest := mk_rtsp_request {
  rq_method : RtspMethod; rq_uri : text; rq_version : text; rq_headers : list RtspHeader; rq_body : list byte;
  rq_cseq : option Z; rq_session : option text }.

Definition into_rtsp_request (q : RtspRequestMessage) : RtspRequest :=
  mk_rtsp_request (method_parse (q_method q)) (q_uri q) (q_version q) (q_headers q) (q_body q)
    (header_value (q_headers q) (txt "cseq") ≫= parse_uint 32) (header_value (q_headers q) (txt "session")).

(** ** Parsing *)

Inductive ParsedMessage := Incomplete | ParsedRequest (q : RtspRequestMessage) | ParsedResponse (r : RtspResponseMessage).

(** [count] headers have been read. *)
Fixpoint parse_headers (l : RtspMessageLimits) (count : Z) (lines : list text) : result RtspCoreError (list RtspHeader) :=
  match lines with
  | [] => Ok []
  | line :: lines =>
      if is_empty line then parse_headers l count lines
      else if max_header_line_size l <? text_len line
      then Err (HeaderLineSizeLimitExceeded (max_header_line_size l) (text_len line))
      else if count =? max_headers_count l then Err (HeaderCountLimitExceeded (max_headers_count l) (count + 1))
      else match split_header_line line with
           | None => Err InvalidHeaderLine
           | Some (name, value) => rest <-? parse_headers l (count + 1) lines ;; Ok (mk_header name value :: rest)
           end
  end.

Definition parse_request_start_line (start_line : text) : result RtspCoreError (text * text * text) :=
  match split_whitespace start_line with
  | [method; uri; version] => Ok (method, uri, version)
  | _ => Err InvalidStartLine
  end.

Definition parse_response_start_line (start_line : text) : result RtspCoreError (text * Z * text) :=
  match split_once x20 start_line with
  | None => Err InvalidStartLine
  | Some (version, rest) =>
      match split_once x20 (trim_start rest) with
      | None => Err InvalidStartLine
      | Some (status_code_text, reason_phrase) =>
          if is_empty version || contains_byte x0d reason_phrase || contains_byte x0a reason_phrase then Err InvalidStartLine
          else status_code <-? ok_or (parse_uint 16 status_code_text) InvalidStartLine ;;
               Ok (version, status_code, reason_phrase)
      end
  end.

Definition parse_rtsp_message (l : RtspMessageLimits) (message : list byte) : result RtspCoreError ParsedMessage :=
  match find_header_end message with
  | None => Err InvalidStartLine
  | Some header_end =>
      let headers_bytes := take header_end message in
      let body := drop (header_end + 4) message in
      if utf8_valid headers_bytes then
        match split_str CRLF headers_bytes with
        | [] => Err InvalidStartLine
        | start_line :: lines =>
            parsed_headers <-? parse_headers l 0 lines ;;
            if starts_with (txt "RTSP/") start_line then
              line <-? parse_response_start_line start_line ;;
              Ok (ParsedResponse (mk_response (fst (fst line)) (snd (fst line)) (snd line) parsed_headers body))
            else
              line <-? parse_request_start_line start_line ;;
              Ok (ParsedRequest (mk_request (fst (fst line)) (snd (fst line)) (snd line) parsed_headers body))
        end
      else Err InvalidUtf8
  end.

(** On an error in the message itself its bytes are gone; on one in its length they stay. *)
Definition try_parse_message (l : RtspMessageLimits) : SE (list byte) RtspCoreError ParsedMessage := fun buffer =>
  match find_header_end buffer with
  | None => (buffer, Ok Incomplete)
  | Some header_end =>
      let header_len := (header_end + 4)%nat in
      match parse_content_length (take header_len buffer) with
      | Err e => (buffer, Err e)
      | Ok content_length =>
          if max_body_size l <? content_length then (buffer, Err (BodySizeLimitExceeded (max_body_size l) content_length))
          else
            let total_len := Z.of_nat header_len + content_length in
            if 2 ^ 64 <=? total_len then (buffer, Err (BufferSizeLimitExceeded (max_buffer_size l) (2 ^ 64 - 1)))
            else if text_len buffer <? total_len then (buffer, Ok Incomplete)
            else
              let n := Z.to_nat total_len in
              (drop n buffer, parse_rtsp_message l (take n buffer))
      end
  end.

(** ** Writing *)

Definition no_line_end (s : text) : bool := negb (contains_byte x0d s || contains_byte x0a s).

Definition validate_start_line_field (value : text) (field_name : string) : result RtspCoreError unit :=
  if is_empty value || negb (no_line_end value) then Err (InvalidMessageField field_name) else Ok tt.
Definition validate_header_name (name : text) : result RtspCoreError unit :=
  if is_empty name || negb (no_line_end name) || contains_byte x3a name then Err (InvalidMessageField "header_name") else Ok tt.
Definition validate_header_value (value : text) : result RtspCoreError unit :=
  if no_line_end value then Ok tt else Err (InvalidMessageField "header_value").
Definition validate_reason_phrase (value : text) : result RtspCoreError unit :=
  if no_line_end value then Ok tt else Err (InvalidMessageField "reason_phrase").

Definition header_line (h : RtspHeader) : text := h_name h ++ [x3a; x20] ++ h_value h.

(** The lines of the headers, and whether one of them is the length. *)
Fixpoint write_headers (headers : list RtspHeader) : result RtspCoreError (list byte * bool) :=
  match headers with
  | [] => Ok ([], false)
  | h :: headers =>
      _ <-? validate_header_name (h_name h) ;;
      _ <-? validate_header_value (h_value h) ;;
      rest <-? write_headers headers ;;
      Ok (header_line h ++ CRLF ++ fst rest, eq_ignore_ascii_case (h_name h) CONTENT_LENGTH || snd rest)
  end.

Definition length_header (body : list byte) : RtspHeader := mk_header (txt "Content-Length") (decimal (text_len body)).

Definition encode_rtsp_request (q : RtspRequestMessage) : result RtspCoreError (list byte) :=
  _ <-? validate_start_line_field (q_method q) "method" ;;
  _ <-? validate_start_line_field (q_uri q) "uri" ;;
  _ <-? validate_start_line_field (q_version q) "version" ;;
  headers <-? write_headers (q_headers q) ;;
  Ok (q_method q ++ [x20] ++ q_uri q ++ [x20] ++ q_version q ++ CRLF ++ fst headers
      ++ (if negb (is_empty (q_body q)) && negb (snd headers) then header_line (length_header (q_body q)) ++ CRLF else [])
      ++ CRLF ++ q_body q).

Definition encode_rtsp_response (r : RtspResponseMessage) : result RtspCoreError (list byte) :=
  _ <-? validate_start_line_field (r_version r) "version" ;;
  _ <-? validate_reason_phrase (r_reason_phrase r) ;;
  headers <-? write_headers (r_headers r) ;;
  Ok (r_version r ++ [x20] ++ decimal (r_status_code r) ++ [x20] ++ r_reason_phrase r ++ CRLF ++ fst headers
      ++ (if negb (snd headers) then header_line (length_header (r_body r)) ++ CRLF else [])
      ++ CRLF ++ r_body r).

(** The headers that the application gives, and the sequence number when it is not among them. *)
Definition response_headers (cseq : option Z) (headers : list (text * text)) : list RtspHeader :=
  let message_headers := map (fun h => mk_header (fst h) (snd h)) headers in
  if existsb (fun h => eq_ignore_ascii_case (fst h) (txt "cseq")) headers then message_headers
  else match cseq with
       | Some cseq => message_headers ++ [mk_header (txt "CSeq") (decimal cseq)]
       | None => message_headers
       end.

Definition encode_rtsp_response_parts (cseq : option Z) (status_code : Z) (reason : text) (headers : list (text * text))
    (body : list byte) : result RtspCoreError (list byte) :=
  encode_rtsp_response (mk_response (txt "RTSP/1.0") status_code reason (response_headers cseq headers) body).

(** ** Decoders of one kind of message *)

Record RtspDecoder := mk_decoder { d_buffer : list byte; d_limits : RtspMessageLimits }.

Definition decoder_feed (data : list byte) : SE RtspDecoder RtspCoreError unit := fun d =>
  match validate_buffer_growth (d_limits d) (text_len (d_buffer d)) (text_len data) with
  | Err e => (d, Err e)
  | Ok _ => (mk_decoder (d_buffer d ++ data) (d_limits d), Ok tt)
  end.

Definition decode_message (d : RtspDecoder) : RtspDecoder * result RtspCoreError ParsedMessage :=
  let '(buffer, r) := try_parse_message (d_limits d) (d_buffer d) in (mk_decoder buffer (d_limits d), r).

Definition decode_request : SE RtspDecoder RtspCoreError (option RtspRequestMessage) := fun d =>
  let '(d, r) := decode_message d in
  (d, match r with
      | Err e => Err e
      | Ok Incomplete => Ok None
      | Ok (ParsedRequest q) => Ok (Some q)
      | Ok (ParsedResponse _) => Err UnexpectedRtspResponse
      end).

Definition decode_response : SE RtspDecoder RtspCoreError (option RtspResponseMessage) := fun d =>
  let '(d, r) := decode_message d in
  (d, match r with
      | Err e => Err e
      | Ok Incomplete => Ok None
      | Ok (ParsedRequest _) => Err UnexpectedRtspRequest
      | Ok (ParsedResponse r) => Ok (Some r)
      end).

Example announce :
  try_parse_message limits_default
    (txt "ANNOUNCE rtsp://127.0.0.1/live/test RTSP/1.0" ++ CRLF ++ txt "CSeq: 3" ++ CRLF ++ txt "Content-Length: 4" ++ CRLF ++ CRLF ++ txt "test$")
  = (txt "$", Ok (ParsedRequest (mk_request (txt "ANNOUNCE") (txt "rtsp://127.0.0.1/live/test") (txt "RTSP/1.0")
       [mk_header (txt "CSeq") (txt "3"); mk_header (txt "Content-Length") (txt "4")] (txt "test")))).
Proof. by vm_compute. Qed.
