(* ===== verification/RtspCore.v ===== *)
(** * The RTSP core

    Models [crates/protocols/rtsp/core/src/core/mod.rs], [interleaved.rs] and [connection.rs]: the
    connection as a machine from bytes and commands to events and bytes, interleaved frames, and
    the session header. *)
From Stdlib Require Import Strings.Byte.
From S2P Require Import Prelude RtmpBytes Rtp Amf Tracks Text RtspMessage Framing.
Local Open Scope string_scope.
Local Open Scope list_scope.
Local Open Scope Z_scope.

(** ** Interleaved frames *)

Definition DOLLAR : byte := x24.

Record RtspInterleavedFrameHeader := mk_frame_header { fh_channel : byte; fh_payload_len : Z; fh_total_len : Z }.

Definition parse_interleaved_frame (data : list byte) : option RtspInterleavedFrameHeader :=
  match data with
  | d :: channel :: hi :: lo :: _ =>
      if bool_decide (d = DOLLAR) then
        let payload_len := be_val [hi; lo] in Some (mk_frame_header channel payload_len (4 + payload_len))
      else None
  | _ => None
  end.

Definition encode_interleaved_frame (channel : byte) (payload : list byte) : result (Z * Z) (list byte) :=
  if 65535 <? text_len payload then Err (65535, text_len payload)
  else Ok (DOLLAR :: channel :: be_bytes 2 (text_len payload) ++ payload).

Definition encode_frame (channel : byte) (payload : list byte) : result RtspCoreError (list byte) :=
  match encode_interleaved_frame channel payload with
  | Err (_, actual) => Err (InterleavedPayloadTooLarge actual)
  | Ok encoded => Ok encoded
  end.

Definition try_parse_frame (max_frame_size : Z) : SE (list byte) RtspCoreError (option (byte * list byte)) := fun buffer =>
  match parse_interleaved_frame buffer with
  | None => (buffer, Ok None)
  | Some h =>
      if max_frame_size <? fh_payload_len h
      then (buffer, Err (InterleavedFrameSizeLimitExceeded max_frame_size (fh_payload_len h)))
      else
        let packet_len := Z.to_nat (fh_total_len h) in
        if (length buffer <? packet_len)%nat then (buffer, Ok None)
        else let packet := take packet_len buffer in
             (drop packet_len buffer, Ok (Some (nth 1 packet x00, drop 4 packet)))
  end.

(** ** The machine *)

Inductive RtspEvent := EvRequest (q : RtspRequest) | EvInterleavedFrame (channel : byte) (payload : list byte) | EvPeerClosed.
Inductive CoreOutput := Write (bytes : list byte) | Event (e : RtspEvent) | Close.
Inductive RtspCommand :=
  | SendResponse (cseq : option Z) (status_code : Z) (reason : text) (headers : list (text * text)) (body : list byte)
  | SendInterleaved (channel : byte) (payload : list byte)
  | CommandClose.
Inductive CoreInput := InBytes (bytes : list byte) | InCommand (c : RtspCommand) | InPeerClosed.

Record RtspCore := mk_core { c_buffer : list byte; c_closed : bool; c_limits : RtspMessageLimits }.

Definition core_with_limits (l : RtspMessageLimits) : RtspCore := mk_core [] false l.

(** A turn of the loop of [drain_messages]; responses are read and dropped. *)
Definition drain_turn (l : RtspMessageLimits) : Turn CoreOutput RtspCoreError := fun buffer =>
  match buffer with
  | [] => (buffer, Ok None)
  | b :: _ =>
      if bool_decide (b = DOLLAR) then
        let '(buffer, r) := try_parse_frame (max_interleaved_frame_size l) buffer in
        (buffer, frame <-? r ;; Ok ((fun f => [Event (EvInterleavedFrame (fst f) (snd f))]) <$> frame))
      else
        let '(buffer, r) := try_parse_message l buffer in
        (buffer, match r with
                 | Err e => Err e
                 | Ok Incomplete => Ok None
                 | Ok (ParsedRequest q) => Ok (Some [Event (EvRequest (into_rtsp_request q))])
                 | Ok (ParsedResponse _) => Ok (Some [])
                 end)
  end.

(** Every turn that goes on takes at least four bytes. *)
Definition drain_messages (l : RtspMessageLimits) (buffer : list byte) : list byte * list CoreOutput * result RtspCoreError unit :=
  drain (drain_turn l) (S (length buffer)) buffer.

Definition apply_command (command : RtspCommand) : SE RtspCore RtspCoreError (list CoreOutput) := fun c =>
  match command with
  | SendResponse cseq status_code reason headers body =>
      (c, result_map (fun w => [Write w]) (encode_rtsp_response_parts cseq status_code reason headers body))
  | SendInterleaved channel payload => (c, result_map (fun w => [Write w]) (encode_frame channel payload))
  | CommandClose => (mk_core (c_buffer c) true (c_limits c), Ok [Close])
  end.

(** On an error the outputs of the call are dropped. *)
Definition handle_input (input : CoreInput) : SE RtspCore RtspCoreError (list CoreOutput) := fun c =>
  if c_closed c then (c, Ok [])
  else
    match input with
    | InBytes bytes =>
        match validate_buffer_growth (c_limits c) (text_len (c_buffer c)) (text_len bytes) with
        | Err e => (c, Err e)
        | Ok _ =>
            let '(buffer, out, r) := drain_messages (c_limits c) (c_buffer c ++ bytes) in
            (mk_core buffer false (c_limits c), result_map (fun _ => out) r)
        end
    | InCommand command => apply_command command c
    | InPeerClosed => (mk_core (c_buffer c) true (c_limits c), Ok [Event EvPeerClosed])
    end.

(** What a connection reads, piece by piece; the first error ends it. *)
Fixpoint feed_core (segs : list (list byte)) : SE RtspCore RtspCoreError (list CoreOutput) := fun c =>
  match segs with
  | [] => (c, Ok [])
  | seg :: segs =>
      match handle_input (InBytes seg) c with
      | (c, Err e) => (c, Err e)
      | (c, Ok out) =>
          let '(c, r) := feed_core segs c in (c, result_map (app out) r)
      end
  end.

(** ** The session header *)

Inductive RtspSessionError :=
  | EmptyHeader | MissingSessionId | InvalidSessionId (id : text) | InvalidTimeout (value : text) | InvalidHeaderValue.

Record RtspSession := mk_session { session_id : option text; session_timeout : option Z }.

Definition normalize_session_id (value : text) : result RtspSessionError text :=
  let id := trim value in
  if is_empty id then Err MissingSessionId
  else if contains_byte x3b id || contains_byte x0d id || contains_byte x0a id then Err (InvalidSessionId id)
  else Ok id.

Definition TIMEOUT : text := txt "timeout".

Fixpoint session_parts (parts : list text) (timeout : option Z) : result RtspSessionError (option Z) :=
  match parts with
  | [] => Ok timeout
  | part :: parts =>
      if is_empty part then session_parts parts timeout
      else if eq_ignore_ascii_case part TIMEOUT then Err (InvalidTimeout [])
      else match split_once x3d part with
           | None => session_parts parts timeout
           | Some (key, value) =>
               if negb (eq_ignore_ascii_case (trim key) TIMEOUT) then session_parts parts timeout
               else
                 let value := trim value in
                 if is_empty value then Err (InvalidTimeout [])
                 else t <-? ok_or (parse_uint 32 value) (InvalidTimeout value) ;; session_parts parts (Some t)
           end
  end.

Definition session_parse (header_value : text) : result RtspSessionError RtspSession :=
  let header_value := trim header_value in
  if is_empty header_value then Err EmptyHeader
  else if contains_byte x0d header_value || contains_byte x0a header_value then Err InvalidHeaderValue
  else match map trim (split_str [x3b] header_value) with
       | [] => Err EmptyHeader
       | id :: parts =>
           normalized_id <-? normalize_session_id id ;;
           timeout <-? session_parts parts None ;;
           Ok (mk_session (Some normalized_id) timeout)
       end.

Definition session_to_header (s : RtspSession) : result RtspSessionError (option text) :=
  match session_id s with
  | None => Ok None
  | Some id =>
      id <-? normalize_session_id id ;;
      Ok (Some (match session_timeout s with
                | Some timeout => id ++ txt ";timeout=" ++ decimal timeout
                | None => id
                end))
  end.
