(* ===== verification/RtspCoreSpec.v ===== *)
(** * The RTSP core: what a peer sends is what the core hears

    Requests, responses and interleaved frames on one connection, cut anywhere; the bound on the
    buffer; and the session header. *)
From Stdlib Require Import Strings.Byte.
From S2P Require Import Prelude RtmpBytes Rtp Amf Tracks Text RtspMessage Framing RtspCore.
Local Open Scope string_scope.
Local Open Scope list_scope.
Local Open Scope Z_scope.

(** * RTSP messages: what is written is read

    A message is its lines, an empty line and a body. The theorems find it at the front of a
    buffer, whatever follows, and wait for the rest of it when it is cut. *)

(** ** The end of the header *)

Lemma header_end_step b t :
  starts_with (CRLF ++ CRLF) (b :: t) = false -> find_header_end (b :: t) = S <$> find_header_end t.
Proof. intros E. cbn [find_header_end]. by rewrite E. Qed.

Lemma header_end_skip s t : x0d ∉ s -> find_header_end (s ++ t) = (fun i => length s + i)%nat <$> find_header_end t.
Proof.
  induction s as [|b s IH]; intros N; [change ([] ++ t) with t; by destruct (find_header_end t)|].
 
  apply not_elem_of_cons in N as [N1 N2]. cbn [app length]. rewrite header_end_step by (by apply starts_with_cons_ne).
  rewrite IH by done. by destruct (find_header_end t).
Qed.

Lemma header_end_line_end c t : c <> x0d ->
  find_header_end (CRLF ++ c :: t) = (fun i => 2 + i)%nat <$> find_header_end (c :: t).
Proof.
  intros N. unfold CRLF. cbn [app]. rewrite header_end_step; [|cbn; by rewrite (bool_decide_false (x0d = c))].
  rewrite header_end_step by done. by destruct (find_header_end (c :: t)).
Qed.

Definition line_ok (line : text) : Prop := line <> [] /\ (x0d ∉ line) /\ utf8_valid line = true.

Lemma header_end_lines lines body :
  lines <> [] -> Forall line_ok lines ->
  find_header_end (join CRLF lines ++ CRLF ++ CRLF ++ body) = Some (length (join CRLF lines)).
Proof.
  intros N F. induction F as [|line lines (E & R & _) F IH]; [done|]. destruct lines as [|next lines].
  - cbn [join]. rewrite header_end_skip by done. change (find_header_end (CRLF ++ CRLF ++ body)) with (Some 0%nat).
    cbn [fmap option_fmap option_map]. by rewrite Nat.add_0_r.
  - rewrite join_cons, <- !app_assoc, header_end_skip by done. specialize (IH ltac:(done)).
    apply Forall_cons in F as [(E2 & R2 & _) F].
    assert (exists c t, join CRLF (next :: lines) = c :: t /\ c <> x0d) as (c & t & Ej & Nc).
    { destruct next as [|c next]; [done|]. apply not_elem_of_cons in R2 as [R2 _].
      destruct lines; [by exists c, next|]. rewrite join_cons by done. eexists c, _. cbn [app]. by split. }
    rewrite Ej in *. cbn [app] in *. rewrite header_end_line_end, IH by done. cbn [fmap option_fmap option_map]. f_equal.
    rewrite length_app. cbn. lia.
Qed.

Lemma starts_with_prefix w p q : (length w <= length p)%nat -> starts_with w (p ++ q) = starts_with w p.
Proof.
  revert p. induction w as [|a w IH]; intros [|b p] L; cbn [length app starts_with] in *; try done; try lia.
  by rewrite IH by lia.
Qed.

Lemma starts_with_short w p : (length p < length w)%nat -> starts_with w p = false.
Proof.
  revert p. induction w as [|a w IH]; intros [|b p] L; cbn in *; try done; [lia..|].
  rewrite IH by lia. by rewrite andb_false_r.
Qed.

(** A part of a buffer ends where the whole does, or has no end yet. *)
Lemma header_end_cut p q i :
  find_header_end (p ++ q) = Some i ->
  find_header_end p = if (i + 4 <=? length p)%nat then Some i else None.
Proof.
  revert i. induction p as [|b p IH]; intros i E.
  { destruct (Nat.leb_spec (i + 4) (length (@nil byte))) as [L|L]; [cbn in L; lia|]. done. }
  cbn [app] in E. destruct (starts_with (CRLF ++ CRLF) (b :: p ++ q)) eqn:W.
  - assert (i = 0)%nat as -> by (cbn [find_header_end] in E; rewrite W in E; by injection E).
    destruct (Nat.leb_spec (0 + 4) (length (b :: p))) as [L|L].
    + cbn [find_header_end]. change (b :: p ++ q) with ((b :: p) ++ q) in W. rewrite starts_with_prefix in W by (cbn in *; lia).
      by rewrite W.
    + clear W E IH. destruct p as [|? [|? [|? ?]]]; cbn in L; try lia; cbn [find_header_end];
        rewrite ?starts_with_short by (cbn; lia); done.
  - rewrite header_end_step in E by done. destruct (find_header_end (p ++ q)) as [j|] eqn:Ej; [|done]. injection E as <-.
    specialize (IH j eq_refl). assert (Wp : starts_with (CRLF ++ CRLF) (b :: p) = false).
    { destruct (Nat.leb_spec 4 (length (b :: p))); [|by apply starts_with_short].
      change (b :: p ++ q) with ((b :: p) ++ q) in W. by rewrite starts_with_prefix in W by (cbn in *; lia). }
    rewrite header_end_step, IH by done. cbn [length]. change (S j + 4 <=? S (length p))%nat with (j + 4 <=? length p)%nat.
    by destruct (_ <=? _)%nat.
Qed.

(** ** A message in a buffer *)

(** A header whose line is read as it was written. *)
Definition header_ok (h : RtspHeader) : Prop :=
  h_name h <> [] /\ trimmed (h_name h) = true /\ trimmed (h_value h) = true /\
  no_line_end (h_name h) = true /\ no_line_end (h_value h) = true /\ (x3a ∉ h_name h) /\
  utf8_valid (h_name h) = true /\ utf8_valid (h_value h) = true.

Lemma no_line_end_spec s : no_line_end s = true -> (x0d ∉ s) /\ (x0a ∉ s).
Proof.
  unfold no_line_end, contains_byte. intros [A B]%negb_true_iff%orb_false_iff.
  by apply bool_decide_eq_false in A, B.
Qed.

Lemma header_line_ok h : header_ok h -> line_ok (header_line h).
Proof.
  intros (N & _ & _ & A%no_line_end_spec & B%no_line_end_spec & _ & U & V). unfold header_line, line_ok.
  split; [by destruct (h_name h)|]. split.
  - rewrite !elem_of_app. intros [H|[H|H]]; [by apply (proj1 A)| |by apply (proj1 B)].
    apply elem_of_cons in H as [H|H%list_elem_of_singleton]; discriminate.
  - rewrite utf8_app; [exact V|exact U].
Qed.

Lemma header_line_back h : header_ok h -> split_header_line (header_line h) = Some (h_name h, h_value h).
Proof.
  intros (N & T & V & _ & _ & C & _). unfold split_header_line, header_line. cbn [app].
  rewrite split_once_at by done. cbn [mbind option_bind]. by rewrite (trim_trimmed _ T), (trim_behind_space _ V).
Qed.

Definition fits_limits (l : RtspMessageLimits) (headers : list RtspHeader) : Prop :=
  Forall (fun h => text_len (header_line h) <= max_header_line_size l) headers /\
  text_len headers <= max_headers_count l.

Lemma parse_headers_back l headers count :
  Forall header_ok headers -> Forall (fun h => text_len (header_line h) <= max_header_line_size l) headers ->
  count + text_len headers <= max_headers_count l ->
  parse_headers l count (map header_line headers) = Ok headers.
Proof.
  intros F. revert count. induction F as [|h headers H F IH]; intros count S C; [done|]. apply Forall_cons in S as [Sh S].
  cbn [map parse_headers]. destruct (header_line_ok h H) as (N & _). destruct (is_empty (header_line h)) eqn:E; [by destruct (header_line h)|].
  unfold text_len in *. cbn [length] in C. rewrite (proj2 (Z.ltb_ge _ _)), (proj2 (Z.eqb_neq _ _)) by lia.
  rewrite header_line_back, IH by (done || lia). by destruct h.
Qed.

(** The lines of a message, and its bytes. *)
Definition message_lines (start : text) (headers : list RtspHeader) : list text := start :: map header_line headers.
Definition message_bytes (start : text) (headers : list RtspHeader) (body : list byte) : list byte :=
  join CRLF (message_lines start headers) ++ CRLF ++ CRLF ++ body.

(** What is read of the length of a message. *)
Definition announces (start : text) (headers : list RtspHeader) (body : list byte) : Prop :=
  content_length_loop (message_lines start headers) = Ok (text_len body).

Lemma content_length_rest lines :
  content_length_loop (lines ++ [[]; []]) = content_length_loop lines.
Proof.
  induction lines as [|line lines IH]; [done|]. cbn [app content_length_loop].
  destruct (split_header_line line) as [[name value]|]; [|done]. by destruct (eq_ignore_ascii_case name CONTENT_LENGTH).
Qed.

Lemma join_snoc2 lines : lines <> [] -> join CRLF (lines ++ [[]; []]) = join CRLF lines ++ CRLF ++ CRLF.
Proof.
  induction lines as [|w lines IH]; [done|]. intros _. destruct lines as [|w' lines]; [done|].
  change ((w :: w' :: lines) ++ [[]; []]) with (w :: ((w' :: lines) ++ [[]; []])).
  rewrite (join_cons _ w ((w' :: lines) ++ _)), (join_cons _ w (w' :: lines)), IH by done. by rewrite <- !app_assoc.
Qed.

Section message.
Context (l : RtspMessageLimits) (start : text) (headers : list RtspHeader) (body : list byte).
Context (Start : line_ok start) (Headers : Forall header_ok headers) (Limits : fits_limits l headers).
Context (Length : announces start headers body) (Body : text_len body <= max_body_size l).

Definition bytes : list byte := message_bytes start headers body.
Context (Size : text_len bytes < 2 ^ 64).

Lemma lines_ok : Forall line_ok (message_lines start headers).
Proof. constructor; [done|]. apply Forall_map. eapply Forall_impl; [exact Headers|]. apply header_line_ok. Qed.

Let head : text := join CRLF (message_lines start headers).

Lemma bytes_parts : bytes = head ++ CRLF ++ CRLF ++ body.
Proof. done. Qed.

Lemma head_end rest : find_header_end (bytes ++ rest) = Some (length head).
Proof. unfold bytes, message_bytes. rewrite <- !app_assoc. by apply header_end_lines; [|apply lines_ok]. Qed.

Lemma split_lines lines : lines <> [] -> Forall (fun w => x0d ∉ w) lines -> split_str CRLF (join CRLF lines) = lines.
Proof. apply split_join. Qed.

Lemma head_length : parse_content_length (head ++ CRLF ++ CRLF) = Ok (text_len body).
Proof.
  unfold parse_content_length. rewrite utf8_app.
  - change (utf8_valid (CRLF ++ CRLF)) with true. cbv iota. unfold head. rewrite <- join_snoc2 by done.
    rewrite split_lines by (done || (apply Forall_app; split; [|repeat constructor; by apply not_elem_of_nil];
      eapply Forall_impl; [exact lines_ok|]; by intros ? (_ & ? & _))).
    by rewrite content_length_rest.
  - apply utf8_join; [done|]. eapply Forall_impl; [exact lines_ok|]. by intros ? (_ & _ & ?).
Qed.

Lemma take_head n p : (length head + 4 <= n)%nat -> (n <= length p)%nat -> p `prefix_of` bytes ->
  take (length head + 4) p = head ++ CRLF ++ CRLF.
Proof.
  intros L1 L2 [q E]. assert (T : take (length head + 4) (p ++ q) = head ++ CRLF ++ CRLF).
  { rewrite <- E, bytes_parts. replace (head ++ CRLF ++ CRLF ++ body) with ((head ++ CRLF ++ CRLF) ++ body) by (by rewrite <- !app_assoc).
    apply take_app_length'. rewrite !length_app. cbn. lia. }
  by rewrite take_app_le in T by lia.
Qed.

Lemma bytes_length : length bytes = (length head + 4 + length body)%nat.
Proof. rewrite bytes_parts, !length_app. cbn. lia. Qed.

(** A part of the message is not parsed yet. *)
Lemma message_cut p q : bytes = p ++ q -> q <> [] -> try_parse_message l p = (p, Ok Incomplete).
Proof.
  intros E Q. unfold try_parse_message. pose proof (head_end []) as H. rewrite app_nil_r, E in H.
  apply header_end_cut in H. rewrite H. destruct (Nat.leb_spec (length head + 4) (length p)) as [L|L]; [|done].
  rewrite (take_head (length p) p) by (done || by exists q). rewrite head_length. unfold text_len in *.
  rewrite (proj2 (Z.ltb_ge _ _)) by lia. pose proof bytes_length as Lb.
  rewrite (proj2 (Z.leb_gt _ _)) by lia. rewrite (proj2 (Z.ltb_lt _ _)); [done|].
  assert (length q <> 0%nat) by (by destruct q). rewrite E, length_app in Lb. lia.
Qed.

(** The message at the front of a buffer is taken out of it. *)
Lemma message_whole rest :
  try_parse_message l (bytes ++ rest) = (rest, parse_rtsp_message l bytes).
Proof.
  unfold try_parse_message. rewrite head_end. pose proof bytes_length as Lb.
  rewrite take_app_le by lia. rewrite (take_head (length bytes) bytes) by (lia || done). rewrite head_length.
  unfold text_len in *. rewrite (proj2 (Z.ltb_ge _ _)), (proj2 (Z.leb_gt _ _)) by lia.
  rewrite (proj2 (Z.ltb_ge _ _)) by (rewrite length_app; lia).
  replace (Z.to_nat _) with (length bytes) by lia. by rewrite drop_app_length, take_app_length.
Qed.

(** Its header and body. *)
Lemma message_parts :
  parse_rtsp_message l bytes =
    (if starts_with (txt "RTSP/") start then
       line <-? parse_response_start_line start ;;
       Ok (ParsedResponse (mk_response (fst (fst line)) (snd (fst line)) (snd line) headers body))
     else
       line <-? parse_request_start_line start ;;
       Ok (ParsedRequest (mk_request (fst (fst line)) (snd (fst line)) (snd line) headers body))).
Proof.
  unfold parse_rtsp_message. pose proof (head_end []) as H. rewrite app_nil_r in H. rewrite H.
  rewrite bytes_parts, take_app_length.
  assert (drop (length head + 4) (head ++ CRLF ++ CRLF ++ body) = body) as ->.
  { replace (head ++ CRLF ++ CRLF ++ body) with ((head ++ CRLF ++ CRLF) ++ body) by (by rewrite <- !app_assoc).
    apply drop_app_length'. rewrite !length_app. cbn. lia. }
  assert (utf8_valid head = true) as ->.
  { apply utf8_join; [done|]. eapply Forall_impl; [exact lines_ok|]. by intros ? (_ & _ & ?). }
  unfold head. rewrite split_lines by (done || (eapply Forall_impl; [exact lines_ok|]; by intros ? (_ & ? & _))).
  unfold message_lines. cbv iota. destruct Limits as [Sz Ct]. by rewrite parse_headers_back.
Qed.
End message.

(** ** Writing *)

Lemma lines_bytes lines : lines <> [] -> concat (map (fun line => line ++ CRLF) lines) = join CRLF lines ++ CRLF.
Proof.
  induction lines as [|w lines IH]; [done|]. intros _. destruct lines as [|w' lines]; [cbn; by rewrite app_nil_r|].
  rewrite join_cons by done. cbn [map concat] in *. rewrite IH by done. by rewrite <- !app_assoc.
Qed.

Lemma write_headers_ok hs :
  Forall header_ok hs ->
  write_headers hs = Ok (concat (map (fun line => line ++ CRLF) (map header_line hs)),
                         existsb (fun h => eq_ignore_ascii_case (h_name h) CONTENT_LENGTH) hs).
Proof.
  induction 1 as [|h hs (N & _ & _ & A & B & C & _) F IH]; [done|]. cbn [write_headers map concat existsb].
  unfold validate_header_name, validate_header_value. rewrite A, B. destruct (is_empty (h_name h)) eqn:E; [by destruct (h_name h)|].
  unfold contains_byte. rewrite bool_decide_false by done. cbn [negb orb result_bind]. rewrite IH. cbn [result_bind fst snd].
  by rewrite <- app_assoc.
Qed.

(** A word of a start line. *)
Definition word (s : text) : Prop := s <> [] /\ spaceless s = true /\ utf8_valid s = true.

Lemma word_no_line_end s : word s -> is_empty s = false /\ no_line_end s = true /\ (x0d ∉ s) /\ (x20 ∉ s).
Proof.
  intros (N & S & _). assert (x0d ∉ s) by by apply spaceless_without. assert (x0a ∉ s) by by apply spaceless_without.
  assert (x20 ∉ s) by by apply spaceless_without.
  split; [by destruct s|]. split; [|done]. unfold no_line_end, contains_byte. by rewrite !bool_decide_false.
Qed.

(** The start line is not taken for the header with the length. *)
Definition not_a_length (start : text) : Prop :=
  match split_header_line start with
  | Some (name, _) => eq_ignore_ascii_case name CONTENT_LENGTH = false
  | None => True
  end.

Lemma length_of_headers start headers :
  not_a_length start -> Forall header_ok headers ->
  content_length_loop (message_lines start headers) =
    match header_value headers CONTENT_LENGTH with
    | Some value => ok_or (parse_uint 64 value) InvalidContentLength
    | None => Ok 0
    end.
Proof.
  intros S F. unfold message_lines. cbn [content_length_loop]. unfold not_a_length in S.
  assert (E : content_length_loop (map header_line headers) =
    match header_value headers CONTENT_LENGTH with
    | Some value => ok_or (parse_uint 64 value) InvalidContentLength | None => Ok 0 end).
  { clear S. induction F as [|h headers H F IH]; [done|]. cbn [map content_length_loop]. rewrite header_line_back by done.
    unfold header_value in *. cbn [List.find]. by destruct (eq_ignore_ascii_case (h_name h) CONTENT_LENGTH). }
  destruct (split_header_line start) as [[name value]|]; [by rewrite S|done].
Qed.

Lemma length_header_ok body : header_ok (length_header body).
Proof.
  destruct (decimal_digits (text_len body)) as [D N]. destruct (digits_plain _ D) as (U & R & A).
  unfold header_ok, length_header. cbn [h_name h_value].
  split; [done|]. split; [by vm_compute|]. split; [by apply digits_trimmed|]. split; [by vm_compute|].
  split; [unfold no_line_end, contains_byte; by rewrite !bool_decide_false|].
  split; [apply (bool_decide_unpack _); by vm_compute|]. split; [by vm_compute|done].
Qed.

(** ** Requests and responses *)

(** The length that a message has when no header says it. *)
Definition length_agrees (headers : list RtspHeader) (body : list byte) : Prop :=
  match header_value headers CONTENT_LENGTH with
  | Some value => parse_uint 64 value = Some (text_len body)
  | None => True
  end.

Definition request_line (q : RtspRequestMessage) : text := q_method q ++ [x20] ++ q_uri q ++ [x20] ++ q_version q.

(** The headers as they are sent: the length comes with a body. *)
Definition request_extra (q : RtspRequestMessage) : list RtspHeader :=
  match header_value (q_headers q) CONTENT_LENGTH with
  | None => if is_empty (q_body q) then [] else [length_header (q_body q)]
  | Some _ => []
  end.
Definition request_sent (q : RtspRequestMessage) : RtspRequestMessage :=
  mk_request (q_method q) (q_uri q) (q_version q) (q_headers q ++ request_extra q) (q_body q).

(** A request of words, with headers that are trimmed and a true length, within the limits. *)
Definition request_ok (l : RtspMessageLimits) (q : RtspRequestMessage) : Prop :=
  word (q_method q) /\ word (q_uri q) /\ word (q_version q) /\ starts_with (txt "RTSP/") (q_method q) = false /\
  not_a_length (request_line q) /\ Forall header_ok (q_headers q) /\ length_agrees (q_headers q) (q_body q) /\
  fits_limits l (q_headers (request_sent q)) /\ text_len (q_body q) <= max_body_size l.

Definition status_line (r : RtspResponseMessage) : text :=
  r_version r ++ [x20] ++ decimal (r_status_code r) ++ [x20] ++ r_reason_phrase r.

Definition response_extra (r : RtspResponseMessage) : list RtspHeader :=
  match header_value (r_headers r) CONTENT_LENGTH with
  | None => [length_header (r_body r)]
  | Some _ => []
  end.
Definition response_sent (r : RtspResponseMessage) : RtspResponseMessage :=
  mk_response (r_version r) (r_status_code r) (r_reason_phrase r) (r_headers r ++ response_extra r) (r_body r).

Definition response_ok (l : RtspMessageLimits) (r : RtspResponseMessage) : Prop :=
  word (r_version r) /\ starts_with (txt "RTSP/") (r_version r) = true /\ in_u 16 (r_status_code r) /\
  no_line_end (r_reason_phrase r) = true /\ utf8_valid (r_reason_phrase r) = true /\
  not_a_length (status_line r) /\ Forall header_ok (r_headers r) /\ length_agrees (r_headers r) (r_body r) /\
  fits_limits l (r_headers (response_sent r)) /\ text_len (r_body r) <= max_body_size l.

Lemma has_length hs :
  existsb (fun h => eq_ignore_ascii_case (h_name h) CONTENT_LENGTH) hs =
  match header_value hs CONTENT_LENGTH with Some _ => true | None => false end.
Proof.
  unfold header_value. induction hs as [|h hs IH]; [done|]. cbn [existsb List.find].
  by destruct (eq_ignore_ascii_case (h_name h) CONTENT_LENGTH).
Qed.

Lemma header_value_app hs h :
  header_value hs CONTENT_LENGTH = None -> eq_ignore_ascii_case (h_name h) CONTENT_LENGTH = true ->
  header_value (hs ++ [h]) CONTENT_LENGTH = Some (h_value h).
Proof.
  unfold header_value. intros N E. induction hs as [|h' hs IH]; cbn [app List.find] in *; [by rewrite E|].
  destruct (eq_ignore_ascii_case (h_name h') CONTENT_LENGTH); [done|by apply IH].
Qed.

(** The headers that are sent say the length of the body. *)
Lemma sent_announces start hs extra body :
  not_a_length start -> Forall header_ok hs -> length_agrees hs body -> text_len body < 2 ^ 64 ->
  (header_value hs CONTENT_LENGTH = None -> extra = [length_header body] \/ extra = [] /\ body = []) ->
  (header_value hs CONTENT_LENGTH <> None -> extra = []) ->
  announces start (hs ++ extra) body /\ Forall header_ok (hs ++ extra).
Proof.
  intros S F A L E1 E2. assert (Fx : Forall header_ok (hs ++ extra)).
  { apply Forall_app. split; [done|]. destruct (header_value hs CONTENT_LENGTH) eqn:V; [by rewrite E2|].
    destruct (E1 eq_refl) as [->|[-> _]]; [|done]. repeat constructor; apply length_header_ok. }
  split; [|done]. unfold announces. rewrite length_of_headers by done. unfold length_agrees in A.
  destruct (header_value hs CONTENT_LENGTH) as [v|] eqn:V.
  - rewrite E2, app_nil_r, V, A by done. done.
  - destruct (E1 eq_refl) as [->|[-> ->]].
    + rewrite header_value_app by done. cbn [h_value length_header]. rewrite parse_decimal; [done|lia|]. unfold in_u, text_len in *. lia.
    + by rewrite app_nil_r, V.
Qed.

(** A message is written as its lines. *)
Lemma written start hs extra body :
  start ++ CRLF ++ concat (map (fun line => line ++ CRLF) (map header_line hs))
    ++ concat (map (fun line => line ++ CRLF) (map header_line extra)) ++ CRLF ++ body
  = message_bytes start (hs ++ extra) body.
Proof.
  unfold message_bytes. rewrite (app_assoc (join CRLF _)), <- lines_bytes by done.
  unfold message_lines. rewrite map_app. cbn [map concat]. rewrite map_app, concat_app. by rewrite <- !app_assoc.
Qed.

(** The bytes of a message that stands in front of any others and is waited for when it is cut. *)
Definition framed (l : RtspMessageLimits) (w : list byte) (m : ParsedMessage) : Prop :=
  w <> [] /\ (forall rest, try_parse_message l (w ++ rest) = (rest, Ok m)) /\
  forall p q, w = p ++ q -> q <> [] -> try_parse_message l p = (p, Ok Incomplete).

Lemma message_framed l start headers body m :
  line_ok start -> Forall header_ok headers -> fits_limits l headers -> announces start headers body ->
  text_len body <= max_body_size l -> text_len (message_bytes start headers body) < 2 ^ 64 ->
  parse_rtsp_message l (message_bytes start headers body) = Ok m ->
  framed l (message_bytes start headers body) m.
Proof.
  intros S F L A B Sz P. split; [|split].
  - unfold message_bytes. intros E. apply app_eq_nil in E as [_ E]. discriminate.
  - intros rest. pose proof (message_whole l start headers body S F A B Sz rest) as E. unfold bytes in E. by rewrite E, P.
  - intros p q. exact (message_cut l start headers body S F A B Sz p q).
Qed.

Lemma no_cr_three a b c : x0d ∉ a -> x0d ∉ b -> x0d ∉ c -> x0d ∉ a ++ x20 :: b ++ x20 :: c.
Proof.
  intros A B C. rewrite elem_of_app, elem_of_cons, elem_of_app, elem_of_cons.
  intros [H|[H|[H|[H|H]]]]; try discriminate; [by apply A|by apply B|by apply C].
Qed.

Lemma request_line_back q :
  word (q_method q) -> word (q_uri q) -> word (q_version q) ->
  parse_request_start_line (request_line q) = Ok (q_method q, q_uri q, q_version q) /\ line_ok (request_line q) /\
  starts_with (txt "RTSP/") (request_line q) = starts_with (txt "RTSP/") (q_method q).
Proof.
  intros M U V. pose proof M as (NM & SM & UM). pose proof U as (NU & SU & UU). pose proof V as (NV & SV & UV). unfold request_line. cbn [app].
  split; [unfold parse_request_start_line; by rewrite (split_three _ _ _ SM SU SV NM NU NV)|]. split.
  - split; [by destruct (q_method q)|]. split.
    + apply no_cr_three; by apply word_no_line_end.
    + rewrite (utf8_app _ _ UM). change (utf8_valid (q_uri q ++ x20 :: q_version q) = true). by rewrite (utf8_app _ _ UU).
  - apply starts_with_space; [exact NM|]. apply (bool_decide_unpack _). by vm_compute.
Qed.

(** A request that is written is found by the parser, with the length that its body needs. *)
Lemma request_written l q :
  request_ok l q -> text_len (message_bytes (request_line q) (q_headers (request_sent q)) (q_body q)) < 2 ^ 64 ->
  exists w, encode_rtsp_request q = Ok w /\ framed l w (ParsedRequest (request_sent q)).
Proof.
  intros (M & U & V & R & NL & F & A & L & B) Sz.
  destruct (request_line_back q M U V) as (P & Lo & Rs). pose proof (word_no_line_end _ M) as (M1 & M2 & _).
  pose proof (word_no_line_end _ U) as (U1 & U2 & _). pose proof (word_no_line_end _ V) as (V1 & V2 & _).
  unfold request_sent in L, Sz |- *. cbn [q_headers] in L, Sz.
  destruct (sent_announces (request_line q) (q_headers q) (request_extra q) (q_body q)) as [An Fx]; [done|done|done| | | |].
  { unfold text_len, message_bytes in *. rewrite !length_app in Sz. lia. }
  { intros E. unfold request_extra. rewrite E. destruct (q_body q) eqn:Eb; [by right|by left]. }
  { intros E. unfold request_extra. by destruct (header_value _ _). }
  eexists. split.
  - unfold encode_rtsp_request, validate_start_line_field. rewrite M1, M2, U1, U2, V1, V2, write_headers_ok by done.
    cbn [orb negb result_bind fst snd]. reflexivity.
  - replace (q_method q ++ _) with (message_bytes (request_line q) (q_headers q ++ request_extra q) (q_body q)).
    + apply message_framed; try done. pose proof (message_parts l (request_line q) _ (q_body q) Lo Fx L) as E. unfold bytes in E. by rewrite E, Rs, R, P.
    + rewrite <- written. unfold request_line. rewrite <- !app_assoc. do 7 f_equal. rewrite has_length. unfold request_extra.
      destruct (header_value (q_headers q) CONTENT_LENGTH), (q_body q); cbn [is_empty negb andb app map concat]; by rewrite ?app_nil_r, <- ?app_assoc.
Qed.

Lemma status_line_back r :
  word (r_version r) -> in_u 16 (r_status_code r) -> no_line_end (r_reason_phrase r) = true -> utf8_valid (r_reason_phrase r) = true ->
  starts_with (txt "RTSP/") (r_version r) = true ->
  parse_response_start_line (status_line r) = Ok (r_version r, r_status_code r, r_reason_phrase r) /\ line_ok (status_line r) /\
  starts_with (txt "RTSP/") (status_line r) = true.
Proof.
  intros V S N U R. pose proof V as (NV & SV & UV). apply word_no_line_end in V as (E & _ & V & V20).
  destruct (decimal_digits (r_status_code r)) as [D Nd]. destruct (digits_plain _ D) as (Ud & D0 & _).
  assert (D20 : x20 ∉ decimal (r_status_code r)) by (intros H; rewrite Forall_forall in D; apply D in H as [? ?]; done).
  unfold status_line. cbn [app]. split; [|split].
  - unfold parse_response_start_line. rewrite split_once_at by done.
    assert (trim_start (decimal (r_status_code r) ++ x20 :: r_reason_phrase r) = decimal (r_status_code r) ++ x20 :: r_reason_phrase r) as ->.
    { destruct (decimal (r_status_code r)) as [|b s]; [done|]. apply Forall_cons in D as [Db _]. unfold trim_start.
      cbn [app length trim_start_loop]. by rewrite digits_no_space. }
    rewrite split_once_at, E by done. unfold no_line_end in N. apply negb_true_iff in N. cbn [orb]. rewrite N.
    by rewrite (parse_decimal 16 _ ltac:(lia) S).
  - apply no_line_end_spec in N as [N _]. split; [by destruct (r_version r)|]. split.
    + by apply no_cr_three.
    + rewrite (utf8_app _ _ UV). change (utf8_valid (decimal (r_status_code r) ++ x20 :: r_reason_phrase r) = true). by rewrite (utf8_app _ _ Ud).
  - rewrite starts_with_space; [exact R|exact NV|]. apply (bool_decide_unpack _). by vm_compute.
Qed.

Lemma response_written l r :
  response_ok l r -> text_len (message_bytes (status_line r) (r_headers (response_sent r)) (r_body r)) < 2 ^ 64 ->
  exists w, encode_rtsp_response r = Ok w /\ framed l w (ParsedResponse (response_sent r)).
Proof.
  intros (V & R & S & N & U & NL & F & A & L & B) Sz.
  destruct (status_line_back r V S N U R) as (P & Lo & Rs). pose proof (word_no_line_end _ V) as (V1 & V2 & _).
  unfold response_sent in L, Sz |- *. cbn [r_headers] in L, Sz.
  destruct (sent_announces (status_line r) (r_headers r) (response_extra r) (r_body r)) as [An Fx]; [done|done|done| | | |].
  { unfold text_len, message_bytes in *. rewrite !length_app in Sz. lia. }
  { intros E. unfold response_extra. rewrite E. by left. }
  { intros E. unfold response_extra. by destruct (header_value _ _). }
  eexists. split.
  - unfold encode_rtsp_response, validate_start_line_field, validate_reason_phrase. rewrite V1, V2, N, write_headers_ok by done.
    cbn [orb negb result_bind fst snd]. reflexivity.
  - replace (r_version r ++ _) with (message_bytes (status_line r) (r_headers r ++ response_extra r) (r_body r)).
    + apply message_framed; try done. pose proof (message_parts l (status_line r) _ (r_body r) Lo Fx L) as E. unfold bytes in E. by rewrite E, Rs, P.
    + rewrite <- written. unfold status_line. rewrite <- !app_assoc. do 7 f_equal. rewrite has_length. unfold response_extra.
      destruct (header_value (r_headers r) CONTENT_LENGTH); cbn [negb app map concat]; by rewrite ?app_nil_r, <- ?app_assoc.
Qed.

(** * The RTSP core: what a peer sends is what the core hears *)

Inductive RtspItem :=
  | ItemRequest (q : RtspRequestMessage) | ItemResponse (r : RtspResponseMessage)
  | ItemFrame (channel : byte) (payload : list byte).

Definition item_sent (item : RtspItem) : result RtspCoreError (list byte) :=
  match item with
  | ItemRequest q => encode_rtsp_request q
  | ItemResponse r => encode_rtsp_response r
  | ItemFrame channel payload => encode_frame channel payload
  end.

(** What the core makes of it; responses are dropped. *)
Definition item_found (item : RtspItem) : list CoreOutput :=
  match item with
  | ItemRequest q => [Event (EvRequest (into_rtsp_request (request_sent q)))]
  | ItemResponse _ => []
  | ItemFrame channel payload => [Event (EvInterleavedFrame channel payload)]
  end.

Definition item_ok (l : RtspMessageLimits) (item : RtspItem) : Prop :=
  match item with
  | ItemRequest q =>
      request_ok l q /\ text_len (message_bytes (request_line q) (q_headers (request_sent q)) (q_body q)) < 2 ^ 64 /\
      head (q_method q) <> Some DOLLAR
  | ItemResponse r =>
      response_ok l r /\ text_len (message_bytes (status_line r) (r_headers (response_sent r)) (r_body r)) < 2 ^ 64
  | ItemFrame _ payload => text_len payload <= 65535 /\ text_len payload <= max_interleaved_frame_size l
  end.

Lemma interleaved_frame l channel payload :
  text_len payload <= 65535 -> text_len payload <= max_interleaved_frame_size l ->
  exists w, encode_frame channel payload = Ok w /\ frame (drain_turn l) (w, [Event (EvInterleavedFrame channel payload)]).
Proof.
  intros L M. unfold encode_frame, encode_interleaved_frame. rewrite (proj2 (Z.ltb_ge _ _)) by lia.
  eexists. split; [reflexivity|]. set (len := be_bytes 2 (text_len payload)).
  assert (V : be_val len = text_len payload) by (apply be_val_bytes_small; unfold in_u, text_len in *; change (2 ^ _) with 65536; lia).
  assert (E : exists hi lo, len = [hi; lo]) by (by eexists _, _). destruct E as (hi & lo & El). clearbody len. subst len.
  split; [done|]. split.
  - intros rest. cbn [app drain_turn]. unfold try_parse_frame, parse_interleaved_frame.
    rewrite (bool_decide_true (DOLLAR = DOLLAR)) by done. cbn [fh_payload_len fh_total_len]. rewrite V, (proj2 (Z.ltb_ge _ _)) by lia.
    replace (Z.to_nat (4 + text_len payload)) with (4 + length payload)%nat by (unfold text_len; lia).
    cbn [length]. rewrite length_app, (proj2 (Nat.ltb_ge _ _)) by lia.
    change (drop (4 + length payload) (?a :: ?b :: ?c :: ?d :: ?t)) with (drop (length payload) t).
    change (take (4 + length payload) (?a :: ?b :: ?c :: ?d :: ?t)) with (a :: b :: c :: d :: take (length payload) t).
    by rewrite drop_app_length, take_app_length.
  - intros p q E Q. cbn [app] in E. destruct p as [|b p]; [done|]. injection E as <- E. cbn [drain_turn].
    rewrite bool_decide_true by done. unfold try_parse_frame, parse_interleaved_frame.
    destruct p as [|c p]; [done|]. injection E as <- E. destruct p as [|h p]; [done|]. injection E as <- E.
    destruct p as [|o p]; [done|]. injection E as <- E. rewrite bool_decide_true by done. cbn [fh_payload_len fh_total_len].
    rewrite V, (proj2 (Z.ltb_ge _ _)) by lia. assert (length q <> 0%nat) by (by destruct q). unfold text_len.
    rewrite (proj2 (Nat.ltb_lt _ _)); [done|]. rewrite E, length_app. cbn [length]. lia.
Qed.

(** A message is a frame of the loop when it does not begin like an interleaved one. *)
Lemma message_turn l w m found :
  framed l w m -> head w <> Some DOLLAR ->
  (forall buffer rest, try_parse_message l buffer = (rest, Ok m) -> buffer <> [] -> head buffer <> Some DOLLAR ->
     drain_turn l buffer = (rest, Ok (Some found))) ->
  frame (drain_turn l) (w, found).
Proof.
  intros (N & W & C) H T. destruct w as [|b w]; [done|]. cbn [head] in H. split; [done|]. split.
  - intros rest. by apply T; [apply W|..].
  - intros p q E Q. destruct p as [|b' p]; [done|]. pose proof (C _ _ E Q) as Cp. injection E as <- E. cbn [drain_turn].
    rewrite bool_decide_false by (intros ->; by apply H). by rewrite Cp.
Qed.

Lemma head_app (a b : list byte) : a <> [] -> head (a ++ b) = head a.
Proof. by destruct a. Qed.

Lemma item_frame l item :
  item_ok l item -> exists w, item_sent item = Ok w /\ frame (drain_turn l) (w, item_found item).
Proof.
  destruct item as [q|r|channel payload]; cbn [item_ok item_sent item_found].
  - intros (K & S & D). destruct (request_written l q K S) as (w & E & F). exists w. split; [done|].
    eapply message_turn; [exact F| |].
    + unfold encode_rtsp_request in E. destruct K as ((N & _) & _).
      repeat match type of E with result_bind ?r _ = Ok _ => destruct r as [?|]; [cbn [result_bind] in E|done] end.
      injection E as <-. by rewrite head_app.
    + intros buffer rest P Nb Hb. destruct buffer as [|b buffer]; [done|]. cbn [drain_turn head] in *.
      rewrite bool_decide_false by (intros ->; by apply Hb). by rewrite P.
  - intros (K & S). destruct (response_written l r K S) as (w & E & F). exists w. split; [done|].
    eapply message_turn; [exact F| |].
    + unfold encode_rtsp_response in E. destruct K as ((N & _) & R & _).
      repeat match type of E with result_bind ?r _ = Ok _ => destruct r as [?|]; [cbn [result_bind] in E|done] end.
      injection E as <-. rewrite head_app by done. intros H. destruct (r_version r) as [|b v]; [done|]. injection H as ->. discriminate.
    + intros buffer rest P Nb Hb. destruct buffer as [|b buffer]; [done|]. cbn [drain_turn head] in *.
      rewrite bool_decide_false by (intros ->; by apply Hb). by rewrite P.
  - intros [A B]. by apply interleaved_frame.
Qed.

(** One piece of a stream. *)
Lemma core_reads l fs1 fs2 p buffer seg :
  Forall (frame (drain_turn l)) (fs1 ++ fs2) -> waits fs2 p -> buffer ++ seg = concat (map fst fs1) ++ p ->
  text_len buffer + text_len seg <= max_buffer_size l -> max_buffer_size l < 2 ^ 64 ->
  handle_input (InBytes seg) (mk_core buffer false l) = (mk_core p false l, Ok (concat (map snd fs1))).
Proof.
  intros F W E L M. apply Forall_app in F as [F1 F2]. unfold handle_input, validate_buffer_growth. cbn [c_closed c_limits c_buffer].
  rewrite (proj2 (Z.leb_gt _ _)), (proj2 (Z.ltb_ge _ _)) by lia. unfold drain_messages. rewrite E.
  rewrite (drain_frames (drain_turn l)); [done|done|by eapply waits_turn; [..|exact W]|rewrite length_app; lia].
Qed.

(** [C19] Requests, responses and interleaved frames that a peer writes one after the other, cut
    into any pieces, make the core report exactly the requests and the frames, in order, with
    their fields, bodies and payloads, the session and the sequence number; no error occurs and
    nothing is left in the buffer. It asks that a message consists of words and trimmed lines,
    tells the length of its body truly or not at all, keeps the limits, and fits with a piece
    into the buffer. *)
Theorem rtsp_stream_arrives l items wires segs size seg_size :
  Forall (item_ok l) items -> Forall2 (fun item w => item_sent item = Ok w) items wires ->
  Forall (fun w => text_len w <= size) wires -> 1 <= size -> Forall (fun s => text_len s <= seg_size) segs ->
  size + seg_size <= max_buffer_size l + 1 -> max_buffer_size l < 2 ^ 64 -> concat segs = concat wires ->
  feed_core segs (core_with_limits l) = (core_with_limits l, Ok (concat (map item_found items))).
Proof.
  intros K S Sz S1 Sg Room M E. set (fs := zip wires (map item_found items)).
  assert (Lw : length wires = length items) by (by apply Forall2_length in S).
  assert (Ew : map fst fs = wires) by (unfold fs; apply fst_zip; rewrite length_map; lia).
  assert (Ef : map snd fs = map item_found items) by (unfold fs; apply snd_zip; rewrite length_map; lia).
  assert (F : Forall (frame (drain_turn l)) fs).
  { unfold fs. clear -K S. induction S as [|item w items wires E S IH]; [done|]. apply Forall_cons in K as [Ki K]. cbn [map zip zip_with].
    constructor; [|by apply IH]. destruct (item_frame l item Ki) as (w' & E' & F). rewrite E in E'. by injection E' as <-. }
  rewrite <- Ef. rewrite <- Ew in E, Sz. apply (proj1 (Forall_map fst (fun w => text_len w <= size) fs)) in Sz. clearbody fs. clear -F Sz S1 Sg Room M E.
  assert (G : forall segs fs p, Forall (frame (drain_turn l)) fs -> Forall (fun f => text_len (fst f) <= size) fs ->
    Forall (fun s => text_len s <= seg_size) segs -> waits fs p -> p ++ concat segs = concat (map fst fs) ->
    feed_core segs (mk_core p false l) = (mk_core [] false l, Ok (concat (map snd fs)))).
  { clear -S1 Room M. intros segs. induction segs as [|seg segs IH]; intros fs p F Sz Sg W E; cbn [concat] in E.
    - rewrite app_nil_r in E. assert (fs = [] /\ p = []) as [-> ->]; [|done]. destruct fs as [|[w found] fs]; [by split|].
      destruct W as (q & -> & Q). cbn [map concat fst] in E. apply (f_equal length) in E. rewrite !length_app in E.
      destruct q; [done|]. cbn in E. lia.
    - apply Forall_cons in Sg as [Hs Sg]. rewrite app_assoc in E.
      destruct (stream_front (drain_turn l) _ _ _ E) as (fs1 & fs2 & p' & -> & E1 & E2 & W').
      pose proof F as [_ F2]%Forall_app. pose proof Sz as [_ Sz2]%Forall_app.
      assert (Lp : text_len p < size).
      { unfold text_len. pose proof (waits_length (fs1 ++ fs2) p (Z.to_nat size)) as Lp. enough (length p < Z.to_nat size)%nat by lia. apply Lp; [lia| |done].
        eapply Forall_impl; [exact Sz|]. unfold text_len. intros; lia. }
      cbn [feed_core]. rewrite (core_reads l fs1 fs2 p' p seg F (W' F) E1) by (try done; lia).
      rewrite (IH fs2 p' F2 Sz2 Sg); [|by apply W'|done]. cbn [result_map]. by rewrite map_app, concat_app. }
  apply (G segs fs []); [done|done|done| |done]. destruct F as [|[w found] fs (N & _) F]; [done|]. by exists w.
Qed.

Definition sample_request : RtspRequestMessage :=
  mk_request (txt "ANNOUNCE") (txt "rtsp://h/live/a") (txt "RTSP/1.0")
    [mk_header (txt "CSeq") (txt "3"); mk_header (txt "Session") (txt "s1;timeout=60")] (txt "v=0").
Definition sample_response : RtspResponseMessage :=
  mk_response (txt "RTSP/1.0") 200 (txt "OK") [mk_header (txt "CSeq") (txt "4")] [].
Definition sample_items : list RtspItem :=
  [ItemFrame x00 (txt "ABCD"); ItemRequest sample_request; ItemResponse sample_response; ItemFrame x01 []].
Definition sample_wires : list (list byte) := map (fun item => default [] (result_ok (item_sent item))) sample_items.

#[export] Instance header_ok_dec h : Decision (header_ok h).
Proof. unfold header_ok. apply _. Defined.
#[export] Instance word_dec s : Decision (word s).
Proof. unfold word. apply _. Defined.
#[export] Instance not_a_length_dec s : Decision (not_a_length s).
Proof. unfold not_a_length. destruct (split_header_line s) as [[? ?]|]; apply _. Defined.
#[export] Instance length_agrees_dec hs body : Decision (length_agrees hs body).
Proof. unfold length_agrees. destruct (header_value hs CONTENT_LENGTH); apply _. Defined.
#[export] Instance fits_limits_dec l hs : Decision (fits_limits l hs).
Proof. unfold fits_limits. apply _. Defined.
#[export] Instance request_ok_dec l q : Decision (request_ok l q).
Proof. unfold request_ok. apply _. Defined.
#[export] Instance response_ok_dec l r : Decision (response_ok l r).
Proof. unfold response_ok, in_u. apply _. Defined.
#[export] Instance item_ok_dec l item : Decision (item_ok l item).
Proof. destruct item; cbn [item_ok]; apply _. Defined.

Fixpoint pieces (fuel n : nat) (s : list byte) : list (list byte) :=
  match fuel, s with S fuel, _ :: _ => take n s :: pieces fuel n (drop n s) | _, _ => [] end.

Lemma rtsp_stream_arrives_witness :
  feed_core (pieces 300 7 (concat sample_wires)) (core_with_limits limits_default)
    = (core_with_limits limits_default, Ok (concat (map item_found sample_items))).
Proof.
  apply (rtsp_stream_arrives limits_default sample_items sample_wires (pieces 300 7 (concat sample_wires)) 200 7).
  - apply (bool_decide_unpack _). by vm_compute.
  - repeat constructor.
  - apply (bool_decide_unpack _). by vm_compute.
  - done.
  - apply (bool_decide_unpack _). by vm_compute.
  - done.
  - done.
  - by vm_compute.
Defined.

Example sample_heard :
  concat (map item_found sample_items) =
    [Event (EvInterleavedFrame x00 (txt "ABCD"));
     Event (EvRequest (mk_rtsp_request Announce (txt "rtsp://h/live/a") (txt "RTSP/1.0")
       [mk_header (txt "CSeq") (txt "3"); mk_header (txt "Session") (txt "s1;timeout=60"); mk_header (txt "Content-Length") (txt "3")]
       (txt "v=0") (Some 3) (Some (txt "s1;timeout=60"))));
     Event (EvInterleavedFrame x01 [])].
Proof. by vm_compute. Qed.

(** ** Answers *)

(** What the application answers is written by the core and read by a client, with the sequence
    number and the length of the body, in front of anything else. *)
Theorem answer_arrives c d cseq status_code reason headers body rest :
  c_closed c = false ->
  let r := mk_response (txt "RTSP/1.0") status_code reason (response_headers cseq headers) body in
  response_ok (d_limits d) r -> text_len (message_bytes (status_line r) (r_headers (response_sent r)) body) < 2 ^ 64 ->
  exists w, handle_input (InCommand (SendResponse cseq status_code reason headers body)) c = (c, Ok [Write w]) /\
    decode_response (mk_decoder (w ++ rest) (d_limits d)) = (mk_decoder rest (d_limits d), Ok (Some (response_sent r))) /\
    forall p q, w = p ++ q -> q <> [] -> decode_response (mk_decoder p (d_limits d)) = (mk_decoder p (d_limits d), Ok None).
Proof.
  intros C r K S. destruct (response_written (d_limits d) r K S) as (w & E & _ & W & P). exists w. split; [|split].
  - unfold handle_input. rewrite C. cbn [apply_command]. unfold encode_rtsp_response_parts. fold r. by rewrite E.
  - unfold decode_response, decode_message. cbn [d_buffer d_limits]. by rewrite W.
  - intros p q Ew Q. unfold decode_response, decode_message. cbn [d_buffer d_limits]. by rewrite (P p q Ew Q).
Qed.

Lemma answer_arrives_witness :
  exists w, handle_input (InCommand (SendResponse (Some 5) 200 (txt "OK") [(txt "Session", txt "s1")] (txt "hello")))
      (core_with_limits limits_default) = (core_with_limits limits_default, Ok [Write w]) /\
    snd (decode_response (mk_decoder (w ++ txt "$") limits_default)) = Ok (Some (mk_response (txt "RTSP/1.0") 200 (txt "OK")
      [mk_header (txt "Session") (txt "s1"); mk_header (txt "CSeq") (txt "5"); mk_header (txt "Content-Length") (txt "5")] (txt "hello"))).
Proof.
  destruct (answer_arrives (core_with_limits limits_default) (mk_decoder [] limits_default) (Some 5) 200 (txt "OK")
    [(txt "Session", txt "s1")] (txt "hello") (txt "$") eq_refl) as (w & E & D & _).
  - apply (bool_decide_unpack _). by vm_compute.
  - by vm_compute.
  - exists w. split; [exact E|]. cbn [d_limits] in D. rewrite D. by vm_compute.
Defined.

(** ** The buffer *)

Lemma try_parse_message_shrinks l buffer : (length (fst (try_parse_message l buffer)) <= length buffer)%nat.
Proof.
  unfold try_parse_message. destruct (find_header_end buffer); [|done]. destruct (parse_content_length _); [|done].
  destruct (_ <? _); [done|]. destruct (_ <=? _); [done|]. destruct (_ <? _); [done|]. cbn [fst]. rewrite length_drop. lia.
Qed.

Lemma drain_turn_shrinks l buffer : (length (fst (drain_turn l buffer)) <= length buffer)%nat.
Proof.
  unfold drain_turn. destruct buffer as [|b buffer]; [done|]. case_bool_decide.
  - unfold try_parse_frame. destruct (parse_interleaved_frame _) as [h|]; [|done]. destruct (_ <? _); [done|].
    destruct (_ <? _)%nat; [done|]. cbn [fst]. rewrite length_drop. lia.
  - pose proof (try_parse_message_shrinks l (b :: buffer)) as H0. by destruct (try_parse_message l (b :: buffer)).
Qed.

Lemma drain_shrinks l fuel buffer : (length (fst (fst (drain (drain_turn l) fuel buffer))) <= length buffer)%nat.
Proof.
  revert buffer. induction fuel as [|fuel IH]; intros buffer; [done|]. cbn [drain].
  pose proof (drain_turn_shrinks l buffer) as H. destruct (drain_turn l buffer) as [b' [[found|]|]]; cbn [fst] in *; try done.
  specialize (IH b'). destruct (drain (drain_turn l) fuel b') as [[b'' more] r]. cbn [fst] in *. lia.
Qed.

(** The buffer of a connection never grows over its limit, on any input, failing ones included,
    and a closed connection stays closed and silent. *)
Theorem buffer_bounded input c :
  text_len (c_buffer c) <= max_buffer_size (c_limits c) ->
  let c' := fst (handle_input input c) in
  text_len (c_buffer c') <= max_buffer_size (c_limits c') /\ c_limits c' = c_limits c /\
  (c_closed c = true -> handle_input input c = (c, Ok [])).
Proof.
  intros B c'. unfold c', handle_input. destruct (c_closed c) eqn:C; [done|]. destruct input as [bytes|command|]; [|by destruct command|done].
  unfold validate_buffer_growth. destruct (_ <=? _); [done|]. destruct (Z.ltb_spec (max_buffer_size (c_limits c)) (text_len (c_buffer c) + text_len bytes)); [done|].
  unfold drain_messages. pose proof (drain_shrinks (c_limits c) (S (length (c_buffer c ++ bytes))) (c_buffer c ++ bytes)) as D.
  destruct (drain _ _ _) as [[b out] r]. cbn [fst c_buffer c_limits] in *. rewrite length_app in D. unfold text_len in *.
  split; [lia|done].
Qed.

(** What was found in front of a message that is not one is dropped with the error; whether it was
    reported depends on how the bytes were cut. *)
Example events_lost_with_bad_message :
  let good := default [] (result_ok (encode_frame x00 (txt "AB"))) in
  let bad := txt "HELLO" ++ CRLF ++ CRLF in
  snd (feed_core [good ++ bad] (core_with_limits limits_default)) = Err InvalidStartLine /\
  snd (handle_input (InBytes good) (core_with_limits limits_default)) = Ok [Event (EvInterleavedFrame x00 (txt "AB"))].
Proof. by vm_compute. Qed.

(** A message with a length that is no number stays in the buffer, and so does what follows. *)
Example bad_length_stays :
  let bad := txt "OPTIONS * RTSP/1.0" ++ CRLF ++ txt "Content-Length: x" ++ CRLF ++ CRLF in
  let '(c, r) := handle_input (InBytes bad) (core_with_limits limits_default) in
  r = Err InvalidContentLength /\ c_closed c = false /\
  snd (handle_input (InBytes (default [] (result_ok (encode_rtsp_request sample_request)))) c) = Err InvalidContentLength.
Proof. by vm_compute. Qed.

(** The writer lets a space in a field of the start line pass, which the reader refuses. *)
Example written_but_not_read :
  let q := mk_request (txt "DESCRIBE") (txt "rtsp://h/a b") (txt "RTSP/1.0") [] [] in
  let w := default [] (result_ok (encode_rtsp_request q)) in
  is_empty w = false /\ snd (try_parse_message limits_default w) = Err InvalidStartLine.
Proof. by vm_compute. Qed.

(** ** The session header *)

Definition session_ok (s : RtspSession) : Prop :=
  match session_id s with
  | Some id => id <> [] /\ trimmed id = true /\ (x3b ∉ id) /\ no_line_end id = true /\
               match session_timeout s with Some t => in_u 32 t | None => True end
  | None => False
  end.

Lemma digits_end s d : Forall (fun b => is_Some (digit b)) d -> d <> [] -> ws_suffix (s ++ d) = 0%nat.
Proof.
  intros D N. destruct (rev d) as [|c s'] eqn:E.
  { apply (f_equal (@rev byte)) in E. rewrite rev_involutive in E. by subst. }
  eapply (digits_no_space_behind c (s ++ d)); [by rewrite rev_app_distr, E|].
  pose proof (List.Forall_rev D) as R. rewrite E in R. by inversion R.
Qed.

Definition timeout_part (t : Z) : text := txt "timeout=" ++ decimal t.

Lemma timeout_part_back t :
  in_u 32 t -> trim (timeout_part t) = timeout_part t /\ session_parts [timeout_part t] None = Ok (Some t) /\
  Forall (fun b => b <> x3b /\ b <> x0d /\ b <> x0a) (timeout_part t).
Proof.
  intros R. destruct (decimal_digits t) as [D N].
  assert (T : trim (timeout_part t) = timeout_part t).
  { apply trim_trimmed. unfold trimmed, timeout_part. rewrite (digits_end _ _ D N). reflexivity. }
  split; [done|]. split.
  - unfold session_parts, timeout_part. change (is_empty (txt "timeout=" ++ decimal t)) with false. cbv iota.
    assert (eq_ignore_ascii_case (txt "timeout=" ++ decimal t) TIMEOUT = false) as ->.
    { unfold eq_ignore_ascii_case. apply bool_decide_eq_false. intros E. apply (f_equal length) in E.
      rewrite !length_map, length_app in E. cbn in E. lia. }
    change (txt "timeout=" ++ decimal t) with (TIMEOUT ++ x3d :: decimal t).
    rewrite (split_once_at x3d TIMEOUT) by (apply (bool_decide_unpack _); by vm_compute).
    change (trim TIMEOUT) with TIMEOUT. rewrite eq_ignore_case_refl. cbn [negb].
    rewrite (trim_trimmed _ (digits_trimmed _ D)). destruct (is_empty (decimal t)) eqn:E; [by destruct (decimal t)|].
    by rewrite (parse_decimal 32 t ltac:(lia) R).
  - unfold timeout_part. apply Forall_app. split; [apply (bool_decide_unpack _); by vm_compute|].
    eapply Forall_impl; [exact D|]. intros b [d Hd]. repeat split; intros ->; discriminate.
Qed.

(** The session header that is written for a session is parsed as that session: its id and,
    if there is one, its timeout. *)
Theorem session_header_roundtrip s :
  session_ok s -> exists h, session_to_header s = Ok (Some h) /\ session_parse h = Ok s.
Proof.
  destruct s as [[id|] timeout]; [|done]. intros (N & T & C & L & R). cbn [session_id session_timeout] in *.
  apply no_line_end_spec in L as [L1 L2].
  assert (Nm : normalize_session_id id = Ok id).
  { unfold normalize_session_id, contains_byte. rewrite (trim_trimmed _ T), !bool_decide_false by done. by destruct id. }
  unfold session_to_header. cbn [session_id session_timeout]. rewrite Nm. cbn [result_bind]. eexists. split; [reflexivity|].
  destruct timeout as [t|].
  - destruct (timeout_part_back t R) as (Tp & P & Cl). change (txt ";timeout=" ++ decimal t) with (x3b :: timeout_part t).
    assert (Th : trimmed (id ++ x3b :: timeout_part t) = true).
    { destruct (decimal_digits t) as [D Nd]. unfold trimmed. rewrite ws_prefix_behind by done.
      replace (id ++ x3b :: timeout_part t) with ((id ++ txt ";timeout=") ++ decimal t) by (by rewrite <- app_assoc).
      rewrite (digits_end _ _ D Nd). by apply andb_prop in T as [-> _]. }
    unfold session_parse. rewrite (trim_trimmed _ Th). rewrite Forall_forall in Cl.
    destruct (is_empty (id ++ _)) eqn:E; [by destruct id|]. unfold contains_byte.
    rewrite !bool_decide_false by (rewrite elem_of_app, elem_of_cons; intros [H|[H|H]]; [done|discriminate|by destruct (Cl _ H) as (? & ? & ?)]).
    cbn [orb]. change (id ++ x3b :: timeout_part t) with (join [x3b] [id; timeout_part t]).
    rewrite split_join by (done || (repeat constructor; [done|intros H; by destruct (Cl _ H)])).
    cbn [map]. by rewrite (trim_trimmed _ T), Nm, Tp, P.
  - unfold session_parse. rewrite (trim_trimmed _ T). unfold contains_byte. rewrite !bool_decide_false by done.
    destruct (is_empty id) eqn:E; [by destruct id|]. cbn [orb]. change id with (join [x3b] [id]) at 1.
    rewrite split_join by (done || by repeat constructor). cbn [map]. by rewrite (trim_trimmed _ T), Nm.
Qed.

Lemma session_header_roundtrip_witness :
  exists h, session_to_header (mk_session (Some (txt "4f 7")) (Some 60)) = Ok (Some h) /\
    session_parse h = Ok (mk_session (Some (txt "4f 7")) (Some 60)).
Proof.
  apply (session_header_roundtrip (mk_session (Some (txt "4f 7")) (Some 60))).
  repeat split; try done; apply (bool_decide_unpack _); by vm_compute.
Defined.
