(* ===== verification/Fmp4Box.v ===== *)
(** * Boxes of ISO media files

    What the muxer and the demuxer of fragmented MP4 share in
    [crates/foundation/cheetah-codec/src/]: of [fmp4_mux.rs] how a box is written, of
    [fmp4_demux.rs] how a header is read and the boxes inside a box are visited, and the two
    conversions of time. A box whose size is written as zero and patched when its contents are
    known has that size from the start here. A slice out of range is [Panicked]. *)
From Stdlib Require Import Strings.Byte.
From S2P Require Import Prelude RtmpBytes Rtp Rtcp Tracks Text.
Local Open Scope string_scope.
Local Open Scope list_scope.
Local Open Scope Z_scope.
Local Open Scope rust_scope.

Inductive Panicked : Set := SliceOutOfRange | DivideByZero.

(** [&data[a..b]] where [b] is in range. *)
Definition slice_to (a b : nat) (data : list byte) : result Panicked (list byte) :=
  if (b <? a)%nat then Err SliceOutOfRange else Ok (sub_ a (b - a) data).

(** ** Writing *)

Definition write_box (box_type content : list byte) : list byte :=
  be_bytes 4 (8 + Z.of_nat (length content)) ++ box_type ++ content.

Definition write_full_box_header (box_type : list byte) (size version flags : Z) : list byte :=
  be_bytes 4 size ++ box_type
    ++ [byte_of version; byte_of (Z.shiftr flags 16); byte_of (Z.shiftr flags 8); byte_of flags].

(** ** Reading *)

(** The size of a box and of its header. *)
Definition read_box_header (buf : list byte) : Z * nat :=
  if (length buf <? 8)%nat then (0, 0%nat)
  else
    let size32 := be_at buf 0 4 in
    if size32 =? 1 then if (length buf <? 16)%nat then (0, 0%nat) else (be_at buf 8 8, 16%nat)
    else if size32 =? 0 then (0, 8%nat)
    else (size32, 8%nat).

(** [offset + box_size] is a [usize]. *)
Fixpoint for_each_loop {St} (fuel : nat) (data : list byte) (f : list byte -> list byte -> St -> result Panicked St)
    (offset : nat) (s : St) : result Panicked St :=
  match fuel with
  | O => Ok s
  | S fuel =>
      if (length data <? offset + 8)%nat then Ok s
      else
        let '(box_size, header_size) := read_box_header (drop offset data) in
        if (box_size <? 8) || (box_size =? 0) then Ok s
        else
          let stop := wrap_u 64 (Z.of_nat offset + box_size) in
          if Z.of_nat (length data) <? stop then Ok s
          else
            content <-? slice_to (offset + header_size) (Z.to_nat stop) data ;;
            s <-? f (sub_ (offset + 4) 4 data) content s ;;
            for_each_loop fuel data f (Z.to_nat stop) s
  end.

(** The closure keeps what it finds in variables of the caller: its state. *)
Definition for_each_child_box {St} (data : list byte) (f : list byte -> list byte -> St -> result Panicked St) (s : St) :
    result Panicked St :=
  for_each_loop (S (length data)) data f 0 s.

Fixpoint find_child_loop (fuel : nat) (data target : list byte) (offset : nat) : option (list byte) :=
  match fuel with
  | O => None
  | S fuel =>
      if (length data <? offset + 8)%nat then None
      else
        let size := be_at data offset 4 in
        if (size <? 8) || (Z.of_nat (length data) <? Z.of_nat offset + size) then None
        else if bool_decide (sub_ (offset + 4) 4 data = target) then Some (sub_ (offset + 8) (Z.to_nat size - 8) data)
        else find_child_loop fuel data target (offset + Z.to_nat size)
  end.
Definition find_child_box (data target : list byte) : option (list byte) :=
  find_child_loop (S (length data)) data target 0.

Definition is_type (box_type : list byte) (name : string) : bool := bool_decide (box_type = txt name).

(** ** Time *)

Definition us_to_timescale (us timescale : Z) : Z :=
  wrap_i 64 (wrap_i 64 (Z.quot us 1000000 * timescale) + Z.quot (wrap_i 64 (Z.rem us 1000000 * timescale)) 1000000).

Definition timescale_to_us (ticks timescale : Z) : Z :=
  if timescale =? 0 then 0
  else
    let t := wrap_i 64 ticks in
    wrap_i 64 (wrap_i 64 (Z.quot t timescale * 1000000) + Z.quot (wrap_i 64 (Z.rem t timescale * 1000000)) timescale).

(** ** Lemmas *)

Lemma length_txt s : length (txt s) = String.length s.
Proof. unfold txt, String.list_byte_of_string. rewrite length_map. induction s as [|a s IH]; cbn; [done|]. by rewrite IH. Qed.

Lemma length_write_box ty c : length (write_box ty c) = (4 + length ty + length c)%nat.
Proof. unfold write_box. rewrite !length_app, length_be_bytes. lia. Qed.

Lemma length_full_box_header ty size version flags : length (write_full_box_header ty size version flags) = (8 + length ty)%nat.
Proof. unfold write_full_box_header. rewrite !length_app, length_be_bytes. cbn [length]. lia. Qed.

(** A full box says the size it has. *)
Lemma full_box_write ty size version flags body :
  size = 12 + Z.of_nat (length body) ->
  write_full_box_header ty size version flags ++ body
  = write_box ty ([byte_of version; byte_of (Z.shiftr flags 16); byte_of (Z.shiftr flags 8); byte_of flags] ++ body).
Proof.
  intros ->. unfold write_full_box_header, write_box. rewrite <- !app_assoc, length_app. cbn [length].
  by replace (8 + Z.of_nat (4 + length body)) with (12 + Z.of_nat (length body)) by lia.
Qed.

(** A box that its size describes. *)
Definition box_ok (b : list byte * list byte) : Prop :=
  length (fst b) = 4%nat /\ 8 + Z.of_nat (length (snd b)) < 2 ^ 32.

Definition write_boxes (boxes : list (list byte * list byte)) : list byte :=
  concat (map (fun b => write_box (fst b) (snd b)) boxes).

(** What visiting boxes comes to. *)
Fixpoint visit {St} (f : list byte -> list byte -> St -> result Panicked St) (boxes : list (list byte * list byte)) (s : St) :
    result Panicked St :=
  match boxes with
  | [] => Ok s
  | (ty, content) :: boxes => s <-? f ty content s ;; visit f boxes s
  end.

Section one_box.
Context (ty content : list byte) (T : length ty = 4%nat) (C : 8 + Z.of_nat (length content) < 2 ^ 32).

Lemma write_box_size rest i : be_at (write_box ty content ++ rest) i 4 = be_at (be_bytes 4 (8 + Z.of_nat (length content)) ++ ty ++ content ++ rest) i 4.
Proof. unfold write_box. by rewrite <- !app_assoc. Qed.

Lemma box_size_read rest : be_at (write_box ty content ++ rest) 0 4 = 8 + Z.of_nat (length content).
Proof using C T. rewrite write_box_size. apply be_at_here. unfold in_u. cbn. lia. Qed.

Lemma read_header_box rest : read_box_header (write_box ty content ++ rest) = (8 + Z.of_nat (length content), 8%nat).
Proof using C T.
  unfold read_box_header. rewrite box_size_read. rewrite length_app, length_write_box.
  rewrite (proj2 (Nat.ltb_ge _ _)) by lia. rewrite (proj2 (Z.eqb_neq _ _)) by lia. by rewrite (proj2 (Z.eqb_neq _ _)) by lia.
Qed.

Lemma box_type_read pre rest : sub_ (length pre + 4) 4 (pre ++ write_box ty content ++ rest) = ty.
Proof using C T.
  rewrite sub_app_r by lia. unfold write_box. rewrite <- !app_assoc, sub_app_r by (rewrite length_be_bytes; lia).
  rewrite length_be_bytes. replace (length pre + 4 - length pre - 4)%nat with 0%nat by lia. rewrite <- T. apply sub_app_l.
Qed.

Lemma box_content_read pre rest : sub_ (length pre + 8) (length content) (pre ++ write_box ty content ++ rest) = content.
Proof using C T.
  rewrite sub_app_r by lia. unfold write_box. rewrite <- !app_assoc, sub_app_r by (rewrite length_be_bytes; lia).
  rewrite length_be_bytes, sub_app_r by lia. replace (length pre + 8 - length pre - 4 - length ty)%nat with 0%nat by lia. apply sub_app_l.
Qed.

Lemma for_each_step {St} fuel pre rest (f : list byte -> list byte -> St -> result Panicked St) s :
  Z.of_nat (length (pre ++ write_box ty content ++ rest)) < 2 ^ 63 ->
  for_each_loop (S fuel) (pre ++ write_box ty content ++ rest) f (length pre) s
  = (s <-? f ty content s ;; for_each_loop fuel (pre ++ write_box ty content ++ rest) f (length (pre ++ write_box ty content)) s).
Proof using C T.
  intros L. cbn [for_each_loop]. rewrite drop_app_length, read_header_box, box_type_read.
  rewrite !length_app, !length_write_box in *.
  rewrite (proj2 (Nat.ltb_ge _ _)) by lia. rewrite (proj2 (Z.ltb_ge _ _)) by lia. rewrite (proj2 (Z.eqb_neq _ _)) by lia. cbn [orb].
  rewrite wrap_u_small by (unfold in_u; lia). rewrite (proj2 (Z.ltb_ge _ _)) by lia.
  replace (Z.to_nat (Z.of_nat (length pre) + (8 + Z.of_nat (length content)))) with (length pre + 8 + length content)%nat by lia.
  unfold slice_to. rewrite (proj2 (Nat.ltb_ge _ _)) by lia.
  replace (length pre + 8 + length content - (length pre + 8))%nat with (length content) by lia.
  rewrite box_content_read. cbn [result_bind]. by replace (length pre + (4 + length ty + length content))%nat with (length pre + 8 + length content)%nat by lia.
Qed.

Lemma find_child_step fuel pre rest target :
  find_child_loop (S fuel) (pre ++ write_box ty content ++ rest) target (length pre)
  = if bool_decide (ty = target) then Some content
    else find_child_loop fuel (pre ++ write_box ty content ++ rest) target (length (pre ++ write_box ty content)).
Proof using C T.
  cbn [find_child_loop]. rewrite be_at_skip, Nat.sub_diag, box_size_read, box_type_read by lia.
  replace (Z.to_nat (8 + Z.of_nat (length content)) - 8)%nat with (length content) by lia. rewrite box_content_read.
  rewrite !length_app, !length_write_box.
  rewrite (proj2 (Nat.ltb_ge _ _)) by lia. rewrite (proj2 (Z.ltb_ge _ _)) by lia. rewrite (proj2 (Z.ltb_ge _ _)) by lia. cbn [orb].
  by replace (length pre + (4 + length ty + length content))%nat with (length pre + Z.to_nat (8 + Z.of_nat (length content)))%nat by lia.
Qed.
End one_box.

Lemma for_each_from {St} fuel pre boxes (f : list byte -> list byte -> St -> result Panicked St) s :
  Forall box_ok boxes -> Z.of_nat (length (pre ++ write_boxes boxes)) < 2 ^ 63 -> (length boxes < fuel)%nat ->
  for_each_loop fuel (pre ++ write_boxes boxes) f (length pre) s = visit f boxes s.
Proof.
  intros F. revert fuel pre s. induction F as [|[ty content] boxes [T C] F IH]; intros [|fuel] pre s L N; cbn [length] in N; try lia.
  - cbn [for_each_loop write_boxes map concat visit]. rewrite app_nil_r. by rewrite (proj2 (Nat.ltb_lt _ _)) by lia.
  - unfold write_boxes in *. cbn [map concat fst snd visit] in *. rewrite for_each_step by done.
    destruct (f ty content s) as [s'|]; [|done]. cbn [result_bind]. rewrite app_assoc in *. apply IH; [done|lia].
Qed.

Lemma boxes_length boxes : Forall box_ok boxes -> (length boxes <= length (write_boxes boxes))%nat.
Proof.
  induction 1 as [|[ty content] boxes [T C] F IH]; [done|]. unfold write_boxes in *. cbn [map concat length fst snd].
  cbn [fst] in T. rewrite length_app, length_write_box. lia.
Qed.

(** Every box is visited, in order. *)
Lemma for_each_boxes {St} boxes (f : list byte -> list byte -> St -> result Panicked St) s :
  Forall box_ok boxes -> Z.of_nat (length (write_boxes boxes)) < 2 ^ 63 ->
  for_each_child_box (write_boxes boxes) f s = visit f boxes s.
Proof.
  intros F L. apply (for_each_from _ []); [done..|]. cbn [app]. pose proof (boxes_length _ F). lia.
Qed.

Lemma find_child_first ty content rest :
  box_ok (ty, content) -> find_child_box (write_box ty content ++ rest) ty = Some content.
Proof.
  intros [T C]. unfold find_child_box. pose proof (find_child_step ty content T C (length (write_box ty content ++ rest)) [] rest ty) as E.
  cbn [app length] in E. rewrite E. by rewrite bool_decide_true.
Qed.

(** ** Loops end *)

Lemma header_at_least_8 buf : (snd (read_box_header buf) = 0%nat /\ fst (read_box_header buf) = 0) \/ (8 <= snd (read_box_header buf))%nat.
Proof.
  unfold read_box_header. destruct (length buf <? 8)%nat; [by left|]. destruct (be_at buf 0 4 =? 1).
  - destruct (length buf <? 16)%nat; [by left|right; cbn; lia].
  - destruct (be_at buf 0 4 =? 0); right; cbn; lia.
Qed.

(** The fuel is enough: every turn but the last moves on by eight bytes. *)
Lemma for_each_fuel {St} fuel fuel' data (f : list byte -> list byte -> St -> result Panicked St) offset s :
  (length data < offset + fuel)%nat -> (length data < offset + fuel')%nat ->
  for_each_loop fuel data f offset s = for_each_loop fuel' data f offset s.
Proof.
  revert fuel' offset s. induction fuel as [|fuel IH]; intros [|fuel'] offset s L L'; cbn [for_each_loop]; [done| | |].
  1,2: by rewrite (proj2 (Nat.ltb_lt _ _)) by lia.
  destruct (length data <? offset + 8)%nat; [done|].
  pose proof (header_at_least_8 (drop offset data)) as H. destruct (read_box_header (drop offset data)) as [size header]. cbn [fst snd] in H.
  destruct (Z.ltb_spec size 8); [done|]. destruct (size =? 0); [done|]. cbn [orb].
  destruct (Z.of_nat (length data) <? wrap_u 64 (Z.of_nat offset + size)); [done|].
  unfold slice_to. destruct (Nat.ltb_spec (Z.to_nat (wrap_u 64 (Z.of_nat offset + size))) (offset + header)); [done|].
  cbn [result_bind]. destruct (f (sub_ (offset + 4) 4 data) _ s) as [s'|]; [|done]. cbn [result_bind]. apply IH; lia.
Qed.

(** A box inside a box that has a size of 64 bits too small for its header takes the task down. *)
Lemma small_extended_box_panics {St} (f : list byte -> list byte -> St -> result Panicked St) s :
  for_each_child_box (be_bytes 4 1 ++ txt "free" ++ be_bytes 8 8) f s = Err SliceOutOfRange.
Proof. reflexivity. Qed.
