(* ===== verification/Fmp4Mux.v ===== *)
(** * The muxer of fragmented MP4

    Models [crates/foundation/cheetah-codec/src/fmp4_mux.rs]: the initialization segment and
    the media segments of a set of tracks. [BytesMut] is a list of bytes; the offsets that are
    patched into a [trun] are computed from the length of the [moof] written with zeros in their
    place, and the two fields of a [sidx] from what follows it. *)
From Stdlib Require Import Strings.Byte.
From S2P Require Import Prelude RtmpBytes Codecs Rtp Rtcp Tracks FlvEgress Text Fmp4Box.
Local Open Scope string_scope.
Local Open Scope list_scope.
Local Open Scope Z_scope.

Record Fmp4MuxerConfig : Set := mk_mux_config { include_styp : bool; include_sidx : bool; max_samples_per_fragment : Z }.

Definition mux_config_default : Fmp4MuxerConfig := mk_mux_config true false 8192.

Record MuxTrack : Set := mk_mux_track {
  mt_track_id : Z;
  mt_codec : CodecId;
  mt_media_kind : MediaKind;
  mt_timescale : Z;
  mt_extradata : list byte;
  mt_width : Z;
  mt_height : Z;
  mt_sample_rate : Z;
  mt_channels : Z
}.

Record Fmp4MuxSample : Set := mk_sample {
  s_track_id : Z;
  s_dts_us : Z;
  s_pts_us : Z;
  s_is_keyframe : bool;
  s_data : list byte
}.

(** The events that are produced. *)
Inductive Fmp4MuxEvent : Set :=
| InitSegment (data : list byte)
| MediaSegment (data : list byte) (keyframe : bool).

Record Fmp4Muxer : Set := mk_muxer {
  m_config : Fmp4MuxerConfig;
  m_tracks : list MuxTrack;
  m_sequence_number : Z;
  m_init_segment : option (list byte)
}.

(** ** Extradata *)

Definition u16_max_len : nat := Z.to_nat 65535.

Definition avcc_unit (u : list byte) : list byte :=
  let u := take u16_max_len u in be_bytes 2 (Z.of_nat (length u)) ++ u.

Definition build_h264_avcc (sps pps : list (list byte)) : list byte :=
  match sps with
  | [] => []
  | first_sps :: _ =>
      if (length first_sps <? 4)%nat || is_empty pps then []
      else
        let sps_count := (length sps `min` 31)%nat in
        let pps_count := (length pps `min` 255)%nat in
        [x01] ++ sub_ 1 3 first_sps ++ [xff; byte_of (Z.lor 0xe0 (Z.of_nat sps_count))]
          ++ concat (map avcc_unit (take sps_count sps))
          ++ [byte_of (Z.of_nat pps_count)] ++ concat (map avcc_unit (take pps_count pps))
  end.

Definition append_hvcc_array (nal_unit_type : Z) (units : list (list byte)) : list byte :=
  [byte_of (Z.lor 0x80 (Z.land nal_unit_type 0x3f))] ++ be_bytes 2 (Z.min (Z.of_nat (length units)) 65535)
    ++ concat (map avcc_unit (take u16_max_len units)).

Definition build_h265_hvcc (vps sps pps : list (list byte)) : list byte :=
  match vps, sps, pps with
  | _ :: _, first_sps :: _, _ :: _ =>
      let '(profile_byte, compat_flags, constraint_flags, level_idc) :=
        if (15 <=? length first_sps)%nat then
          let ptl := drop 3 first_sps in
          (sub_ 0 1 ptl, sub_ 1 4 ptl, sub_ 5 6 ptl, sub_ 11 1 ptl)
        else ([x01], be_bytes 4 0x60000000, [x90; x00; x00; x00; x00; x00], [byte_of 120]) in
      [x01] ++ profile_byte ++ compat_flags ++ constraint_flags ++ level_idc
        ++ be_bytes 2 0xf000 ++ [xfc; xfc; xf8; xf8] ++ be_bytes 2 0 ++ [x0f; x03]
        ++ append_hvcc_array 32 vps ++ append_hvcc_array 33 sps ++ append_hvcc_array 34 pps
  | _, _, _ => []
  end.

Definition extract_extradata (t : TrackInfo) : list byte :=
  match codec t, extradata t with
  | H264, ExH264 sps pps avcc => match avcc with Some avcc => avcc | None => build_h264_avcc sps pps end
  | H265, ExH265 vps sps pps hvcc => match hvcc with Some hvcc => hvcc | None => build_h265_hvcc vps sps pps end
  | AAC, ExAAC asc => asc
  | Opus, ExOpus _ channel_mapping => default [] channel_mapping
  | AV1, ExAV1 _ codec_config => default [] codec_config
  | VP8, ExVP8 config => default [] config
  | VP9, ExVP9 config => default [] config
  | _, _ => []
  end.

Definition from_track_info (t : TrackInfo * VideoShape) : MuxTrack :=
  let '(t, shape) := t in
  mk_mux_track (track_id t) (codec t) (media_kind t) (clock_rate t) (extract_extradata t)
    (wrap_u 16 (default 0 (width shape))) (wrap_u 16 (default 0 (height shape)))
    (default (clock_rate t) (sample_rate t))
    (default (if bool_decide (media_kind t = Audio) then 1 else 0) (channels t)).

(** ** File type *)

Definition zeros (n : nat) : list byte := replicate n x00.
Definition be_words (ws : list Z) : list byte := concat (map (be_bytes 4) ws).

Definition write_ftyp : list byte :=
  write_box (txt "ftyp") (txt "iso6" ++ be_bytes 4 0 ++ txt "iso6" ++ txt "mp42" ++ txt "avc1" ++ txt "dash" ++ txt "hlsf").
Definition write_styp : list byte :=
  write_box (txt "styp") (txt "msdh" ++ be_bytes 4 0 ++ txt "msdh" ++ txt "msix").

(** ** Sample entries *)

Definition write_esds_audio (object_type : Z) (dsi : list byte) : list byte :=
  let dsi := if (127 <? length dsi)%nat then take 127 dsi else dsi in
  let dsi_len := Z.of_nat (length dsi) in
  let dsi_desc_len := 2 + dsi_len in
  let dec_cfg_len := 2 + 13 + dsi_desc_len in
  let es_desc_len := 2 + 3 + dec_cfg_len + 3 in
  write_full_box_header (txt "esds") (12 + es_desc_len) 0 0
    ++ [x03; byte_of (3 + dec_cfg_len + 3)] ++ be_bytes 2 1 ++ [x00]
    ++ [x04; byte_of (13 + dsi_desc_len); byte_of object_type; x15] ++ zeros 3 ++ be_words [0; 0]
    ++ [x05; byte_of dsi_len] ++ dsi ++ [x06; x01; x02].

Definition write_esds_video (object_type : Z) : list byte :=
  let dec_cfg_len := 2 + 13 in
  let es_desc_len := 2 + 3 + dec_cfg_len + 3 in
  write_full_box_header (txt "esds") (12 + es_desc_len) 0 0
    ++ [x03; byte_of (3 + dec_cfg_len + 3)] ++ be_bytes 2 1 ++ [x00]
    ++ [x04; byte_of 13; byte_of object_type; x21] ++ zeros 3 ++ be_words [0; 0] ++ [x06; x01; x02].

Definition video_codec_box (codec : CodecId) : list byte :=
  match codec with
  | H264 => txt "avc1" | H265 => txt "hvc1" | H266 => txt "vvc1" | VP8 => txt "vp08" | VP9 => txt "vp09"
  | AV1 => txt "av01" | _ => txt "mp4v"
  end.

Definition video_config_box (t : MuxTrack) : list byte :=
  match mt_codec t with
  | H264 => write_box (txt "avcC") (mt_extradata t)
  | H265 => write_box (txt "hvcC") (mt_extradata t)
  | H266 => write_box (txt "vvcC") (mt_extradata t)
  | VP8 | VP9 => write_box (txt "vpcC") (mt_extradata t)
  | AV1 => write_box (txt "av1C") (mt_extradata t)
  | MJPEG => write_esds_video 0x6C
  | _ => []
  end.

Definition write_video_sample_entry (t : MuxTrack) : list byte :=
  write_box (video_codec_box (mt_codec t))
    ((zeros 6 ++ be_bytes 2 1 ++ zeros 16 ++ be_bytes 2 (mt_width t) ++ be_bytes 2 (mt_height t)
        ++ be_words [0x00480000; 0x00480000; 0] ++ be_bytes 2 1 ++ zeros 32 ++ be_bytes 2 0x0018 ++ be_bytes 2 (-1))
       ++ video_config_box t).

Definition audio_codec_box (codec : CodecId) : list byte :=
  match codec with Opus => txt "Opus" | G711A => txt "alaw" | G711U => txt "ulaw" | _ => txt "mp4a" end.

Definition audio_config_box (t : MuxTrack) : list byte :=
  match mt_codec t with
  | AAC => write_esds_audio 0x40 (mt_extradata t)
  | MP3 => write_esds_audio 0x69 (mt_extradata t)
  | MP2 => write_esds_audio 0x6B (mt_extradata t)
  | Opus => write_box (txt "dOps") (mt_extradata t)
  | _ => []
  end.

Definition write_audio_sample_entry (t : MuxTrack) : list byte :=
  write_box (audio_codec_box (mt_codec t))
    ((zeros 6 ++ be_bytes 2 1 ++ zeros 8 ++ be_bytes 2 (mt_channels t) ++ be_bytes 2 16 ++ be_bytes 2 0 ++ be_bytes 2 0
        ++ be_bytes 4 (Z.shiftl (Z.min (mt_sample_rate t) 65535) 16))
       ++ audio_config_box t).

(** ** Movie *)

Definition unity_matrix : list Z := [0x00010000; 0; 0; 0; 0x00010000; 0; 0; 0; 0x40000000].

Definition write_mvhd (next_track_id : Z) : list byte :=
  write_full_box_header (txt "mvhd") 108 0 0
    ++ be_words [0; 0; 1000; 0; 0x00010000] ++ be_bytes 2 0x0100 ++ zeros 10 ++ be_words unity_matrix ++ zeros 24
    ++ be_bytes 4 (next_track_id + 1).

Definition write_trex (track_id : Z) : list byte :=
  write_full_box_header (txt "trex") 32 0 0 ++ be_words [track_id; 1; 0; 0; 0].

Definition write_mvex (tracks : list MuxTrack) : list byte :=
  write_box (txt "mvex") (concat (map (fun t => write_trex (mt_track_id t)) tracks)).

Definition write_tkhd (t : MuxTrack) : list byte :=
  write_full_box_header (txt "tkhd") 92 0 0x000003
    ++ be_words [0; 0; mt_track_id t; 0; 0] ++ zeros 8 ++ be_bytes 2 0 ++ be_bytes 2 0
    ++ be_bytes 2 (if bool_decide (mt_media_kind t = Audio) then 0x0100 else 0) ++ be_bytes 2 0 ++ be_words unity_matrix
    ++ be_words [Z.shiftl (mt_width t) 16; Z.shiftl (mt_height t) 16].

Definition write_mdhd (timescale : Z) : list byte :=
  write_full_box_header (txt "mdhd") 32 0 0 ++ be_words [0; 0; timescale; 0] ++ be_bytes 2 0x55C4 ++ be_bytes 2 0.

Definition hdlr_handler (kind : MediaKind) : list byte :=
  match kind with Video => txt "vide" | Audio => txt "soun" | _ => txt "meta" end.

Definition write_hdlr (kind : MediaKind) : list byte :=
  let name := txt "Cheetah" ++ [x00] in
  write_full_box_header (txt "hdlr") (12 + 20 + Z.of_nat (length name)) 0 0
    ++ be_bytes 4 0 ++ hdlr_handler kind ++ zeros 12 ++ name.

Definition write_dinf : list byte :=
  write_box (txt "dinf")
    (write_full_box_header (txt "dref") 28 0 0 ++ be_bytes 4 1 ++ write_full_box_header (txt "url ") 12 0 1).

Definition write_stsd (t : MuxTrack) : list byte :=
  write_box (txt "stsd")
    ([x00] ++ zeros 3 ++ be_bytes 4 1
       ++ match mt_media_kind t with
          | Video => write_video_sample_entry t
          | Audio => write_audio_sample_entry t
          | _ => []
          end).

Definition write_stbl (t : MuxTrack) : list byte :=
  write_box (txt "stbl")
    (write_stsd t
       ++ (write_full_box_header (txt "stts") 16 0 0 ++ be_bytes 4 0)
       ++ (write_full_box_header (txt "stsc") 16 0 0 ++ be_bytes 4 0)
       ++ (write_full_box_header (txt "stsz") 20 0 0 ++ be_words [0; 0])
       ++ (write_full_box_header (txt "stco") 16 0 0 ++ be_bytes 4 0)).

Definition media_header (kind : MediaKind) : list byte :=
  match kind with
  | Video => write_full_box_header (txt "vmhd") 20 0 1 ++ be_bytes 2 0 ++ zeros 6
  | Audio => write_full_box_header (txt "smhd") 16 0 0 ++ be_bytes 2 0 ++ be_bytes 2 0
  | _ => []
  end.

Definition write_minf (t : MuxTrack) : list byte :=
  write_box (txt "minf") (media_header (mt_media_kind t) ++ write_dinf ++ write_stbl t).

Definition write_mdia (t : MuxTrack) : list byte :=
  write_box (txt "mdia") (write_mdhd (mt_timescale t) ++ write_hdlr (mt_media_kind t) ++ write_minf t).

Definition write_trak (t : MuxTrack) : list byte := write_box (txt "trak") (write_tkhd t ++ write_mdia t).

Definition write_moov (tracks : list MuxTrack) : list byte :=
  write_box (txt "moov")
    (write_mvhd (wrap_u 32 (Z.of_nat (length tracks))) ++ concat (map write_trak tracks) ++ write_mvex tracks).

(** ** Fragments *)

(** [track_samples]: every sample with the first track of its id. *)
Definition position_of (tracks : list MuxTrack) (id : Z) : option nat :=
  fst <$> list_find (fun t => mt_track_id t = id) tracks.

Definition group_samples (tracks : list MuxTrack) (samples : list Fmp4MuxSample) : list (list Fmp4MuxSample) :=
  fold_left (fun groups s =>
               match position_of tracks (s_track_id s) with
               | Some idx => alter (fun ts => ts ++ [s]) idx groups
               | None => groups
               end) samples (replicate (length tracks) []).

(** [next_dts - s.dts_us], for the sample before which [prev] was. *)
Definition sample_duration_us (last : Z) (prev : option Fmp4MuxSample) (s : Fmp4MuxSample) (next : option Fmp4MuxSample) : Z :=
  let next_dts :=
    match next, prev with
    | Some n, _ => s_dts_us n
    | None, Some p => wrap_i 64 (s_dts_us s + wrap_i 64 (s_dts_us s - s_dts_us p))
    | None, None => wrap_i 64 (s_dts_us s + last)
    end in
  wrap_i 64 (next_dts - s_dts_us s).

Definition sample_duration (timescale last : Z) (prev : option Fmp4MuxSample) (s : Fmp4MuxSample)
    (next : option Fmp4MuxSample) : Z :=
  wrap_u 32 (us_to_timescale (sample_duration_us last prev s next) timescale).

Definition sample_flags (s : Fmp4MuxSample) : Z := if s_is_keyframe s then 0x02000000 else 0x01010000.

Definition sample_cts (timescale : Z) (s : Fmp4MuxSample) : Z :=
  wrap_i 32 (us_to_timescale (wrap_i 64 (s_pts_us s - s_dts_us s)) timescale).

Definition data_len (s : Fmp4MuxSample) : Z := wrap_u 32 (Z.of_nat (length (s_data s))).

Fixpoint video_trun (timescale : Z) (prev : option Fmp4MuxSample) (ts : list Fmp4MuxSample) : list byte :=
  match ts with
  | [] => []
  | s :: ts =>
      be_words [sample_duration timescale 33333 prev s (head ts); data_len s; sample_flags s; sample_cts timescale s]
        ++ video_trun timescale (Some s) ts
  end.

Fixpoint audio_trun (timescale : Z) (prev : option Fmp4MuxSample) (ts : list Fmp4MuxSample) : list byte :=
  match ts with
  | [] => []
  | s :: ts =>
      be_words [sample_duration timescale 23220 prev s (head ts); data_len s] ++ audio_trun timescale (Some s) ts
  end.

Definition write_trun (t : MuxTrack) (ts : list Fmp4MuxSample) (data_offset : Z) : list byte :=
  let sample_count := wrap_u 32 (Z.of_nat (length ts)) in
  if bool_decide (mt_media_kind t = Video) then
    write_full_box_header (txt "trun") (wrap_u 32 (12 + 4 + 4 + wrap_u 32 (sample_count * 16))) 1 0x000f01
      ++ be_words [sample_count; data_offset] ++ video_trun (mt_timescale t) None ts
  else
    write_full_box_header (txt "trun") (wrap_u 32 (12 + 4 + 4 + wrap_u 32 (sample_count * 8))) 0 0x000301
      ++ be_words [sample_count; data_offset] ++ audio_trun (mt_timescale t) None ts.

Definition base_dts (t : MuxTrack) (ts : list Fmp4MuxSample) : Z :=
  match ts with s :: _ => Z.max (us_to_timescale (s_dts_us s) (mt_timescale t)) 0 | [] => 0 end.

Definition write_traf (t : MuxTrack) (ts : list Fmp4MuxSample) (data_offset : Z) : list byte :=
  write_box (txt "traf")
    ((write_full_box_header (txt "tfhd") 16 0 0x020000 ++ be_bytes 4 (mt_track_id t))
       ++ (write_full_box_header (txt "tfdt") 20 1 0 ++ be_bytes 8 (base_dts t ts))
       ++ write_trun t ts data_offset).

Definition samples_len (ts : list Fmp4MuxSample) : Z := fold_right (fun s n => wrap_u 32 (data_len s + n)) 0 ts.

(** One [traf] for each track with samples. [data_offset] says what is written for the track
    whose data begins that far inside the [mdat]. *)
Fixpoint write_trafs (data_offset : Z -> Z) (mdat_track_offset : Z) (tracks : list MuxTrack)
    (groups : list (list Fmp4MuxSample)) : list byte :=
  match tracks, groups with
  | t :: tracks, ts :: groups =>
      if is_empty ts then write_trafs data_offset mdat_track_offset tracks groups
      else
        write_traf t ts (data_offset mdat_track_offset)
          ++ write_trafs data_offset (wrap_u 32 (mdat_track_offset + samples_len ts)) tracks groups
  | _, _ => []
  end.

Definition write_moof (seq : Z) (trafs : list byte) : list byte :=
  write_box (txt "moof") ((write_full_box_header (txt "mfhd") 16 0 0 ++ be_bytes 4 seq) ++ trafs).

(** The length of the [moof], whatever the offsets. *)
Definition moof_size (tracks : list MuxTrack) (groups : list (list Fmp4MuxSample)) (seq : Z) : Z :=
  wrap_u 32 (Z.of_nat (length (write_moof seq (write_trafs (fun _ => 0) 0 tracks groups)))).

Definition write_mdat (groups : list (list Fmp4MuxSample)) : list byte :=
  write_box (txt "mdat") (concat (map s_data (concat groups))).

Definition write_moof_mdat (tracks : list MuxTrack) (samples : list Fmp4MuxSample) (seq : Z) : list byte :=
  let groups := group_samples tracks samples in
  let size := moof_size tracks groups seq in
  write_moof seq (write_trafs (fun offset => wrap_i 32 (wrap_u 32 (size + 8 + offset))) 0 tracks groups) ++ write_mdat groups.

(** ** Segment index *)

Definition first_timescale (tracks : list MuxTrack) : Z := match tracks with t :: _ => mt_timescale t | [] => 90000 end.

Definition min_pts (samples : list Fmp4MuxSample) : Z :=
  match samples with [] => 0 | s :: samples => fold_left (fun m s => Z.min m (s_pts_us s)) samples (s_pts_us s) end.

Definition write_sidx (tracks : list MuxTrack) (samples : list Fmp4MuxSample) (moof_mdat_size duration : Z) : list byte :=
  write_full_box_header (txt "sidx") 48 1 0
    ++ be_words [match tracks with t :: _ => mt_track_id t | [] => 1 end; first_timescale tracks]
    ++ be_bytes 8 (us_to_timescale (min_pts samples) (first_timescale tracks))
    ++ be_bytes 4 0 ++ be_bytes 2 0 ++ be_bytes 2 1
    ++ be_words [moof_mdat_size; duration; if existsb s_is_keyframe samples then 0x90000000 else 0].

Definition compute_fragment_duration (samples : list Fmp4MuxSample) (tracks : list MuxTrack) : Z :=
  match samples, rev samples with
  | first :: _, last :: before =>
      let last_dur := match before with b :: _ => wrap_i 64 (s_dts_us last - s_dts_us b) | [] => 33333 end in
      wrap_u 32 (us_to_timescale (wrap_i 64 (wrap_i 64 (s_dts_us last - s_dts_us first) + last_dur)) (first_timescale tracks))
  | _, _ => 0
  end.

(** ** The muxer *)

Definition muxer_new (config : Fmp4MuxerConfig) (tracks : list (TrackInfo * VideoShape)) : Fmp4Muxer :=
  mk_muxer config (map from_track_info tracks) 0 None.

Definition init_segment (m : Fmp4Muxer) : Fmp4Muxer * list Fmp4MuxEvent :=
  match m_init_segment m with
  | Some cached => (m, [InitSegment cached])
  | None =>
      let result := write_ftyp ++ write_moov (m_tracks m) in
      (mk_muxer (m_config m) (m_tracks m) (m_sequence_number m) (Some result), [InitSegment result])
  end.

Definition next_sequence (m : Fmp4Muxer) : Fmp4Muxer :=
  mk_muxer (m_config m) (m_tracks m) (wrap_u 32 (m_sequence_number m + 1)) (m_init_segment m).

Definition write_segment (samples : list Fmp4MuxSample) (m : Fmp4Muxer) : Fmp4Muxer * list Fmp4MuxEvent :=
  if is_empty samples then (m, [])
  else
    let m := next_sequence m in
    let fragment := write_moof_mdat (m_tracks m) samples (m_sequence_number m) in
    let index :=
      if include_sidx (m_config m) then
        write_sidx (m_tracks m) samples (wrap_u 32 (Z.of_nat (length fragment))) (compute_fragment_duration samples (m_tracks m))
      else [] in
    (m, [MediaSegment ((if include_styp (m_config m) then write_styp else []) ++ index ++ fragment) (existsb s_is_keyframe samples)]).

Definition write_part (samples : list Fmp4MuxSample) (m : Fmp4Muxer) : Fmp4Muxer * list Fmp4MuxEvent :=
  if is_empty samples then (m, [])
  else
    let m := next_sequence m in
    (m, [MediaSegment (write_moof_mdat (m_tracks m) samples (m_sequence_number m)) (existsb s_is_keyframe samples)]).
