(* ===== verification/Fmp4Demux.v ===== *)
(** * The demuxer of fragmented MP4

    Models [crates/foundation/cheetah-codec/src/fmp4_demux.rs]: bytes arrive in pieces of any
    size, top level boxes are put together, [moov] gives the tracks, and a [moof] with the
    [mdat] behind it gives frames. Of [RepeatedInit] and the other diagnostics all is kept. *)
From Stdlib Require Import Strings.Byte.
From S2P Require Import Prelude RtmpBytes Codecs Rtp Rtcp Tracks Text Framing Fmp4Box.
Local Open Scope string_scope.
Local Open Scope list_scope.
Local Open Scope Z_scope.
Local Open Scope rust_scope.

Record Fmp4DemuxTrack : Set := mk_demux_track {
  dt_track_id : Z;
  dt_codec : CodecId;
  dt_media_kind : MediaKind;
  dt_timescale : Z;
  dt_extradata : list byte
}.

Inductive Fmp4DemuxDiagnostic : Set :=
| MalformedBox (box_type : list byte) (size : Z) (header_size : nat)
| BoxTooLarge (box_type : list byte) (size : Z)
| UnknownBox (box_type : list byte)
| MdatOverflow (track_id : Z)
| TrackIdNotFound (track_id : Z)
| RepeatedInit.

Record Fmp4Frame : Set := mk_frame {
  fr_track_id : Z;
  fr_media_kind : MediaKind;
  fr_codec : CodecId;
  fr_pts_us : Z;
  fr_dts_us : Z;
  fr_keyframe : bool;
  fr_data : list byte
}.

Inductive Fmp4DemuxEvent : Set :=
| TrackInfoEvent (tracks : list Fmp4DemuxTrack)
| FrameEvent (frame : Fmp4Frame)
| Diagnostic (d : Fmp4DemuxDiagnostic).

Record Fmp4Demuxer : Set := mk_demuxer {
  max_box_bytes : Z;
  d_buffer : list byte;
  d_tracks : list Fmp4DemuxTrack;
  d_init_parsed : bool;
  d_pending_moof : option (list byte);
  d_skip_remaining : Z
}.

Definition DEFAULT_MAX_BOX_BYTES : Z := 4 * 1024 * 1024.
Definition demuxer_new (max_box_bytes : Z) : Fmp4Demuxer := mk_demuxer max_box_bytes [] [] false None 0.

(** ** Descriptors *)

Fixpoint descriptor_size_loop (n : nat) (data : list byte) (i : nat) (size : Z) : option (Z * nat) :=
  match n, data with
  | S n, b :: data =>
      let size := Z.lor (wrap_u 32 (Z.shiftl size 7)) (Z.land (byte_val b) 0x7F) in
      if Z.land (byte_val b) 0x80 =? 0 then Some (size, S i) else descriptor_size_loop n data (S i) size
  | _, _ => None
  end.
(** At most four bytes. *)
Definition read_descriptor_size (data : list byte) : option (Z * nat) := descriptor_size_loop 4 data 0 0.

Fixpoint find_descriptor_loop (fuel : nat) (data : list byte) (target_tag : Z) (pos : nat) : option (list byte) :=
  match fuel with
  | O => None
  | S fuel =>
      if (length data <? pos + 2)%nat then None
      else
        '(size, size_len) ← read_descriptor_size (drop (pos + 1) data);
        let payload_start := (pos + 1 + size_len)%nat in
        if Z.of_nat (length data) <? Z.of_nat payload_start + size then None
        else if at_ data pos =? target_tag then Some (sub_ payload_start (Z.to_nat size) data)
        else find_descriptor_loop fuel data target_tag (payload_start + Z.to_nat size)
  end.
Definition find_descriptor_payload (data : list byte) (target_tag : Z) : option (list byte) :=
  find_descriptor_loop (S (length data)) data target_tag 0.

Definition extract_esds_info (esds : list byte) : option (Z * option (list byte)) :=
  if (length esds <? 4)%nat then None
  else
    let desc := drop 4 esds in
    if is_empty desc || negb (at_ desc 0 =? 0x03) then None
    else
      '(_, after_es_size) ← read_descriptor_size (drop 1 desc);
      let es_content := drop (1 + after_es_size) desc in
      if (length es_content <? 3)%nat then None
      else
        let dec_cfg := drop 3 es_content in
        if is_empty dec_cfg || negb (at_ dec_cfg 0 =? 0x04) then None
        else
          '(_, after_dc_size) ← read_descriptor_size (drop 1 dec_cfg);
          let dc_content := drop (1 + after_dc_size) dec_cfg in
          if (length dc_content <? 13)%nat then None
          else Some (at_ dc_content 0, find_descriptor_payload (drop 13 dc_content) 0x05).

(** ** Tracks *)

(** The variables that the parsers below [mdia] fill. *)
Record MediaVars : Set := mk_vars { v_timescale : Z; v_handler : list byte; v_codec : CodecId; v_extradata : list byte }.

Definition set_codec (codec : CodecId) (v : MediaVars) : MediaVars := mk_vars (v_timescale v) (v_handler v) codec (v_extradata v).
Definition set_extradata (ex : list byte) (v : MediaVars) : MediaVars := mk_vars (v_timescale v) (v_handler v) (v_codec v) ex.

Definition one_of (box_type : list byte) (names : list string) : bool := existsb (is_type box_type) names.

Definition entry_codec (box_type : list byte) : CodecId :=
  if one_of box_type ["avc1"; "avc2"; "avc3"; "avc4"] then H264
  else if one_of box_type ["hvc1"; "hev1"; "dvh1"; "dvhe"] then H265
  else if is_type box_type "vvc1" then H266
  else if is_type box_type "vp08" then VP8
  else if is_type box_type "vp09" then VP9
  else if is_type box_type "av01" then AV1
  else if one_of box_type ["mp4v"; "jpeg"; "mjpa"; "mjpb"] then MJPEG
  else if is_type box_type "mp4a" then AAC
  else if is_type box_type "Opus" then Opus
  else if is_type box_type "alaw" then G711A
  else if is_type box_type "ulaw" then G711U
  else UnknownCodec.

Definition config_offset (box_type : list byte) : option nat :=
  if one_of box_type ["avc1"; "avc2"; "avc3"; "avc4"; "hvc1"; "hev1"; "dvh1"; "dvhe"; "vvc1"; "vp08"; "vp09"; "av01";
                      "mp4v"; "jpeg"; "mjpa"; "mjpb"] then Some 78%nat
  else if one_of box_type ["mp4a"; "Opus"; "alaw"; "ulaw"] then Some 28%nat
  else None.

Definition config_box_name (box_type : list byte) : option (list byte) :=
  if one_of box_type ["avc1"; "avc2"; "avc3"; "avc4"] then Some (txt "avcC")
  else if one_of box_type ["hvc1"; "hev1"; "dvh1"; "dvhe"] then Some (txt "hvcC")
  else if is_type box_type "vvc1" then Some (txt "vvcC")
  else if one_of box_type ["vp08"; "vp09"] then Some (txt "vpcC")
  else if is_type box_type "av01" then Some (txt "av1C")
  else if is_type box_type "mp4a" then Some (txt "esds")
  else if is_type box_type "Opus" then Some (txt "dOps")
  else if one_of box_type ["mp4v"; "jpeg"; "mjpa"; "mjpb"] then Some (txt "esds")
  else None.

(** The codec as the object type of an [esds] refines it. *)
Definition refined_codec (box_type : list byte) (obj_type : Z) (codec : CodecId) : CodecId :=
  if obj_type =? 0x40 then AAC
  else if (obj_type =? 0x69) || (obj_type =? 0x6B) then
    if is_type box_type "mp4a" then if obj_type =? 0x6B then MP2 else MP3 else codec
  else if obj_type =? 0x6C then MJPEG
  else codec.

Definition apply_config (box_type name cfg : list byte) (v : MediaVars) : MediaVars :=
  match (if bool_decide (name = txt "esds") then extract_esds_info cfg else None) with
  | Some (obj_type, decoder_specific) =>
      let v := set_codec (refined_codec box_type obj_type (v_codec v)) v in
      if bool_decide (v_codec v = AAC) then set_extradata (default [] decoder_specific) v else set_extradata cfg v
  | None => set_extradata cfg v
  end.

Definition parse_stsd_entry (data : list byte) (v : MediaVars) : MediaVars :=
  if (length data <? 8)%nat then v
  else
    let entry_size := be_at data 0 4 in
    let box_type := sub_ 4 4 data in
    let v := set_codec (entry_codec box_type) v in
    if (entry_size <=? 8) || (Z.of_nat (length data) <? entry_size) then v
    else
      let entry_data := sub_ 8 (Z.to_nat entry_size - 8) data in
      match config_offset box_type with
      | None => v
      | Some offset =>
          if (length entry_data <=? offset)%nat then v
          else
            match config_box_name box_type with
            | None => v
            | Some name =>
                match find_child_box (drop offset entry_data) name with
                | Some cfg => apply_config box_type name cfg v
                | None => v
                end
            end
      end.

Definition parse_stbl (data : list byte) (v : MediaVars) : result Panicked MediaVars :=
  for_each_child_box data (fun box_type content v =>
    if is_type box_type "stsd" && (8 <=? length content)%nat then Ok (parse_stsd_entry (drop 8 content) v) else Ok v) v.

Definition parse_minf (data : list byte) (v : MediaVars) : result Panicked MediaVars :=
  for_each_child_box data (fun box_type content v => if is_type box_type "stbl" then parse_stbl content v else Ok v) v.

Definition parse_mdia (data : list byte) (v : MediaVars) : result Panicked MediaVars :=
  for_each_child_box data (fun box_type content v =>
    if is_type box_type "mdhd" && (16 <=? length content)%nat then
      Ok (mk_vars (be_at content 12 4) (v_handler v) (v_codec v) (v_extradata v))
    else if is_type box_type "hdlr" && (12 <=? length content)%nat then
      Ok (mk_vars (v_timescale v) (sub_ 8 4 content) (v_codec v) (v_extradata v))
    else if is_type box_type "minf" then parse_minf content v
    else Ok v) v.

Definition vars_new : MediaVars := mk_vars 90000 [x00; x00; x00; x00] UnknownCodec [].

Definition trak_track (id : Z) (v : MediaVars) : option Fmp4DemuxTrack :=
  if is_type (v_handler v) "vide" then Some (mk_demux_track id (v_codec v) Video (v_timescale v) (v_extradata v))
  else if is_type (v_handler v) "soun" then Some (mk_demux_track id (v_codec v) Audio (v_timescale v) (v_extradata v))
  else None.

Definition parse_trak (data : list byte) : result Panicked (option Fmp4DemuxTrack) :=
  result_map (fun '(id, v) => trak_track id v)
    (for_each_child_box data (fun box_type content '(id, v) =>
       if is_type box_type "tkhd" && (16 <=? length content)%nat then Ok (be_at content 12 4, v)
       else if is_type box_type "mdia" then result_map (pair id) (parse_mdia content v)
       else Ok (id, v)) (0, vars_new)).

Definition parse_moov (data : list byte) (tracks : list Fmp4DemuxTrack) : result Panicked (list Fmp4DemuxTrack) :=
  for_each_child_box data (fun box_type content tracks =>
    if is_type box_type "trak" then
      result_map (fun track => tracks ++ option_list track) (parse_trak content)
    else Ok tracks) tracks.

(** ** Track runs *)

Record TrunSample : Set := mk_trun { ts_duration : Z; ts_size : Z; ts_flags : Z; ts_cts_offset : Z }.

(** A field of four bytes that may be left out: its value and where the next one is. *)
Definition trun_field (present : bool) (absent : Z) (data : list byte) (pos : nat) : option (Z * nat) :=
  if present then if (length data <? pos + 4)%nat then None else Some (be_at data pos 4, (pos + 4)%nat)
  else Some (absent, pos).

Definition has_flag (flags bit : Z) : bool := negb (Z.land flags bit =? 0).

Definition trun_entry (flags : Z) (absent_flags : Z) (data : list byte) (pos : nat) : option (TrunSample * nat) :=
  '(duration, pos) ← trun_field (has_flag flags 0x000100) 0 data pos;
  '(size, pos) ← trun_field (has_flag flags 0x000200) 0 data pos;
  '(sample_flags, pos) ← trun_field (has_flag flags 0x000400) absent_flags data pos;
  '(cts_offset, pos) ← trun_field (has_flag flags 0x000800) 0 data pos;
  Some (mk_trun duration size sample_flags (wrap_i 32 cts_offset), pos).

Fixpoint trun_entries (count : nat) (flags : Z) (absent_flags : Z) (data : list byte) (pos : nat) : list TrunSample :=
  match count with
  | O => []
  | S count =>
      match trun_entry flags absent_flags data pos with
      | Some (s, pos) => s :: trun_entries count flags 0 data pos
      | None => []
      end
  end.

Definition parse_trun (data : list byte) : Z * list TrunSample :=
  if (length data <? 8)%nat then (0, [])
  else
    let flags := be_at data 1 3 in
    let sample_count := Z.to_nat (be_at data 4 4) in
    match trun_field (has_flag flags 0x000001) 0 data 8 with
    | None => (0, [])
    | Some (data_offset, pos) =>
        match trun_field (has_flag flags 0x000004) 0 data pos with
        | None => (wrap_i 32 data_offset, [])
        | Some (first_sample_flags, pos) =>
            (wrap_i 32 data_offset, trun_entries sample_count flags first_sample_flags data pos)
        end
    end.

Definition is_keyframe_flags (flags : Z) : bool :=
  let depends_on := Z.land (Z.shiftr flags 24) 0x03 in
  let is_non_sync := Z.land (Z.shiftr flags 16) 0x01 in
  (depends_on =? 2) || ((depends_on =? 0) && (is_non_sync =? 0)).

(** ** Fragments *)

Record TrafVars : Set := mk_traf { tv_track_id : Z; tv_base_decode_time : Z; tv_data_offset : Z; tv_samples : list TrunSample }.

Definition traf_box (box_type inner : list byte) (v : TrafVars) : TrafVars :=
  if is_type box_type "tfhd" && (8 <=? length inner)%nat then
    mk_traf (be_at inner 4 4) (tv_base_decode_time v) (tv_data_offset v) (tv_samples v)
  else if is_type box_type "tfdt" && (8 <=? length inner)%nat then
    mk_traf (tv_track_id v) (if (at_ inner 0 =? 1) && (12 <=? length inner)%nat then be_at inner 4 8 else be_at inner 4 4)
      (tv_data_offset v) (tv_samples v)
  else if is_type box_type "trun" && (8 <=? length inner)%nat then
    let '(data_offset, samples) := parse_trun inner in
    mk_traf (tv_track_id v) (tv_base_decode_time v) data_offset samples
  else v.

Definition traf_vars (data : list byte) : result Panicked TrafVars :=
  for_each_child_box data (fun box_type inner v => Ok (traf_box box_type inner v)) (mk_traf 0 0 0 []).

(** Where the data of a track begins inside the [mdat]. *)
Definition mdat_base (data_offset : Z) (moof_box_size : nat) : nat :=
  if 0 <? data_offset then (Z.to_nat data_offset - (moof_box_size + 8))%nat else 0%nat.

Fixpoint traf_frames (track : Fmp4DemuxTrack) (track_id : Z) (mdat : list byte) (samples : list TrunSample)
    (mdat_offset : nat) (current_dts : Z) : list Fmp4DemuxEvent :=
  match samples with
  | [] => []
  | s :: samples =>
      if Z.of_nat (length mdat) <? Z.of_nat mdat_offset + ts_size s then [Diagnostic (MdatOverflow track_id)]
      else
        let size := Z.to_nat (ts_size s) in
        let pts_ticks := wrap_i 64 (wrap_i 64 current_dts + ts_cts_offset s) in
        FrameEvent (mk_frame track_id (dt_media_kind track) (dt_codec track)
                      (timescale_to_us (wrap_u 64 pts_ticks) (dt_timescale track))
                      (timescale_to_us current_dts (dt_timescale track))
                      (is_keyframe_flags (ts_flags s)) (sub_ mdat_offset size mdat))
          :: traf_frames track track_id mdat samples (mdat_offset + size) (wrap_u 64 (current_dts + ts_duration s))
  end.

Definition find_track (tracks : list Fmp4DemuxTrack) (id : Z) : option Fmp4DemuxTrack :=
  find (fun t => dt_track_id t =? id) tracks.

Definition parse_traf (tracks : list Fmp4DemuxTrack) (data mdat : list byte) (moof_box_size : nat) :
    result Panicked (list Fmp4DemuxEvent) :=
  v <-? traf_vars data ;;
  Ok (match find_track tracks (tv_track_id v) with
      | None => [Diagnostic (TrackIdNotFound (tv_track_id v))]
      | Some track =>
          traf_frames track (tv_track_id v) mdat (tv_samples v) (mdat_base (tv_data_offset v) moof_box_size) (tv_base_decode_time v)
      end).

Definition extract_frames (tracks : list Fmp4DemuxTrack) (moof mdat : list byte) (events : list Fmp4DemuxEvent) :
    result Panicked (list Fmp4DemuxEvent) :=
  let moof_box_size := (length moof + 8)%nat in
  for_each_child_box moof (fun box_type content events =>
    if is_type box_type "traf" then result_map (app events) (parse_traf tracks content mdat moof_box_size) else Ok events) events.

(** ** Top level boxes *)

Definition process_top_level_box (box_type content : list byte) (d : Fmp4Demuxer) (events : list Fmp4DemuxEvent) :
    result Panicked (Fmp4Demuxer * list Fmp4DemuxEvent) :=
  if one_of box_type ["ftyp"; "styp"; "sidx"; "free"; "skip"] then Ok (d, events)
  else if is_type box_type "moov" then
    let again := d_init_parsed d in
    tracks <-? parse_moov content (if again then [] else d_tracks d) ;;
    Ok (mk_demuxer (max_box_bytes d) (d_buffer d) tracks true (d_pending_moof d) (d_skip_remaining d),
        events ++ (if again then [Diagnostic RepeatedInit] else []) ++ [TrackInfoEvent tracks])
  else if is_type box_type "moof" then
    Ok (mk_demuxer (max_box_bytes d) (d_buffer d) (d_tracks d) (d_init_parsed d) (Some content) (d_skip_remaining d), events)
  else if is_type box_type "mdat" then
    match d_pending_moof d with
    | Some moof =>
        events <-? extract_frames (d_tracks d) moof content events ;;
        Ok (mk_demuxer (max_box_bytes d) (d_buffer d) (d_tracks d) (d_init_parsed d) None (d_skip_remaining d), events)
    | None => Ok (d, events)
    end
  else Ok (d, events ++ [Diagnostic (UnknownBox box_type)]).

Definition with_buffer (buffer : list byte) (skip : Z) (d : Fmp4Demuxer) : Fmp4Demuxer :=
  mk_demuxer (max_box_bytes d) buffer (d_tracks d) (d_init_parsed d) (d_pending_moof d) skip.

Fixpoint push_loop (fuel : nat) (d : Fmp4Demuxer) (events : list Fmp4DemuxEvent) :
    result Panicked (Fmp4Demuxer * list Fmp4DemuxEvent) :=
  match fuel with
  | O => Ok (d, events)
  | S fuel =>
      let buf := d_buffer d in
      if (length buf <? 8)%nat then Ok (d, events)
      else
        let '(box_size, header_size) := read_box_header buf in
        if box_size =? 0 then Ok (d, events)
        else if (length buf <? header_size)%nat then Ok (d, events)
        else
          let box_type := sub_ 4 4 buf in
          if box_size <? Z.of_nat header_size then
            push_loop fuel (with_buffer (drop header_size buf) (d_skip_remaining d) d)
              (events ++ [Diagnostic (MalformedBox box_type box_size header_size)])
          else if max_box_bytes d <? box_size then
            let available := Z.of_nat (length buf) in
            push_loop fuel
              (if box_size <=? available then with_buffer (drop (Z.to_nat box_size) buf) (d_skip_remaining d) d
               else with_buffer [] (box_size - available) d)
              (events ++ [Diagnostic (BoxTooLarge box_type box_size)])
          else if Z.of_nat (length buf) <? box_size then Ok (d, events)
          else
            let content := drop header_size (take (Z.to_nat box_size) buf) in
            r <-? process_top_level_box box_type content (with_buffer (drop (Z.to_nat box_size) buf) (d_skip_remaining d) d) events ;;
            push_loop fuel (fst r) (snd r)
  end.

Definition push (data : list byte) (d : Fmp4Demuxer) : result Panicked (Fmp4Demuxer * list Fmp4DemuxEvent) :=
  let buffer := d_buffer d ++ data in
  let skip := Z.to_nat (Z.min (d_skip_remaining d) (Z.of_nat (length buffer))) in
  let rest := d_skip_remaining d - Z.of_nat skip in
  let d := with_buffer (drop skip buffer) rest d in
  if 0 <? rest then Ok (d, []) else push_loop (S (length (d_buffer d))) d [].

Definition flush (d : Fmp4Demuxer) : Fmp4Demuxer * list Fmp4DemuxEvent := (with_buffer [] (d_skip_remaining d) d, []).
