(* ===== verification/Fmp4Spec.v ===== *)
(** * Fragmented MP4: what is muxed comes out

    The theorem about whole streams, and what becomes of the times: exact where times are whole
    ticks of the track, and otherwise late by no more than a tick for each sample before. *)
From Stdlib Require Import Strings.Byte.
From S2P Require Import Prelude RtmpBytes Codecs Rtp Rtcp Tracks Text Fmp4Box Fmp4Mux Fmp4Demux FlvEgress Framing.
Local Open Scope string_scope.
Local Open Scope list_scope.
Local Open Scope Z_scope.
Local Open Scope rust_scope.

(** * What the demuxer reads of the initialization segment

    For tracks of video and audio: their ids, kinds, clocks, codecs and extradata, through the
    eight levels of boxes that the muxer writes. *)

(** ** Boxes of known types *)

Ltac known_types :=
  repeat match goal with
  | |- context [is_type (txt ?a) ?b] => let v := eval vm_compute in (is_type (txt a) b) in change (is_type (txt a) b) with v
  | |- context [one_of (txt ?a) ?b] => let v := eval vm_compute in (one_of (txt a) b) in change (one_of (txt a) b) with v
  end; cbn [andb]; cbv iota.

Definition four (b : list byte * list byte) : Prop := length (fst b) = 4%nat.

(** Inside a box that has a size, every box has one. *)
Lemma boxes_fit boxes :
  Forall four boxes -> Z.of_nat (length (write_boxes boxes)) < 2 ^ 32 -> Forall box_ok boxes.
Proof.
  induction 1 as [|[ty content] boxes T F IH]; intros L; [by constructor|]. unfold write_boxes in *. cbn [map concat fst snd] in L.
  rewrite length_app, length_write_box in L. unfold four in T. cbn [fst] in T. constructor; [split; cbn [fst snd]; [done|lia]|apply IH; lia].
Qed.

Lemma visit_boxes {St} boxes (f : list byte -> list byte -> St -> result Panicked St) s :
  Forall four boxes -> Z.of_nat (length (write_boxes boxes)) < 2 ^ 32 ->
  for_each_child_box (write_boxes boxes) f s = visit f boxes s.
Proof. intros F L. apply for_each_boxes; [by apply boxes_fit|lia]. Qed.

Lemma visit_app {St} (f : list byte -> list byte -> St -> result Panicked St) xs ys s :
  visit f (xs ++ ys) s = (s <-? visit f xs s ;; visit f ys s).
Proof. revert s. induction xs as [|[ty c] xs IH]; intros s; [done|]. cbn [app visit]. destruct (f ty c s); [apply IH|done]. Qed.

Lemma box_in_boxes ty content boxes :
  (ty, content) ∈ boxes -> (length (write_box ty content) <= length (write_boxes boxes))%nat.
Proof.
  intros I. apply list_elem_of_split in I as (xs & ys & ->). unfold write_boxes. rewrite map_app, concat_app. cbn [map concat fst snd].
  rewrite !length_app. lia.
Qed.

(** ** What is read of a track *)

Definition esds_content (t : MuxTrack) (object_type : Z) : list byte := drop 8 (write_esds_audio object_type (mt_extradata t)).

Definition read_codec (t : MuxTrack) : CodecId :=
  match mt_media_kind t, mt_codec t with
  | Video, (H264 | H265 | H266 | VP8 | VP9 | AV1) => mt_codec t
  | Video, _ => MJPEG
  | _, (AAC | MP3 | MP2 | Opus | G711A | G711U) => mt_codec t
  | _, _ => AAC
  end.

Definition read_extradata (t : MuxTrack) : list byte :=
  match mt_media_kind t, mt_codec t with
  | Video, (H264 | H265 | H266 | VP8 | VP9 | AV1) => mt_extradata t
  | Video, MJPEG => drop 8 (write_esds_video 0x6C)
  | Audio, (AAC | Opus) => mt_extradata t
  | Audio, MP3 => esds_content t 0x69
  | Audio, MP2 => esds_content t 0x6B
  | _, _ => []
  end.

Definition read_track (t : MuxTrack) : Fmp4DemuxTrack :=
  mk_demux_track (mt_track_id t) (read_codec t) (mt_media_kind t) (mt_timescale t) (read_extradata t).

(** A track that can be told: its numbers have their widths, and the extradata of an [esds]
    leaves the sizes of its descriptors below 128. *)
Record track_ok (t : MuxTrack) : Prop := {
  ok_kind : mt_media_kind t = Video \/ mt_media_kind t = Audio;
  ok_id : in_u 32 (mt_track_id t);
  ok_timescale : in_u 32 (mt_timescale t);
  ok_esds : mt_media_kind t = Audio -> mt_codec t = AAC \/ mt_codec t = MP3 \/ mt_codec t = MP2 -> (length (mt_extradata t) <= 104)%nat
}.

(** ** Elementary stream descriptors *)

Lemma descriptor_small z data : 0 <= z < 128 -> read_descriptor_size (byte_of z :: data) = Some (z, 1%nat).
Proof.
  intros R. unfold read_descriptor_size. cbn [descriptor_size_loop]. rewrite byte_val_of, Z.mod_small by lia.
  pose proof (land_pow2 z 7 ltac:(lia)) as E. change (2 ^ 7) with 128 in E. rewrite E.
  pose proof (testbit_top 8 z ltac:(lia)) as T. change (8 - 1) with 7 in T. rewrite T by (unfold in_u; lia).
  rewrite (proj2 (Z.leb_gt _ _)) by lia. cbn [negb]. change (wrap_u 32 (Z.shiftl 0 7)) with 0. rewrite Z.lor_0_l.
  pose proof (Z.land_ones z 7 ltac:(lia)) as O. change (Z.ones 7) with 127 in O. rewrite O. by rewrite Z.mod_small by lia.
Qed.

Lemma find_descriptor_here tag size payload rest :
  0 <= tag < 256 -> size = Z.of_nat (length payload) -> size < 128 ->
  find_descriptor_payload (byte_of tag :: byte_of size :: payload ++ rest) tag = Some payload.
Proof.
  intros G -> S. unfold find_descriptor_payload. cbn [length find_descriptor_loop].
  rewrite (proj2 (Nat.ltb_ge _ _)) by lia. cbn [Nat.add drop]. rewrite descriptor_small by lia. cbn [mbind option_bind].
  rewrite length_app. rewrite (proj2 (Z.ltb_ge _ _)) by lia. unfold at_. cbn [nth]. rewrite byte_val_of, Z.mod_small, Z.eqb_refl by lia.
  do 2 f_equal. rewrite Nat2Z.id. exact (sub_app_l payload rest).
Qed.

Lemma es_descriptor_read h a e b object_type d rest :
  length h = 4%nat -> length e = 3%nat -> length d = 12%nat -> 0 <= a < 128 -> 0 <= b < 128 -> 0 <= object_type < 256 ->
  extract_esds_info (h ++ byte_of 3 :: byte_of a :: e ++ byte_of 4 :: byte_of b :: (byte_of object_type :: d) ++ rest)
  = Some (object_type, find_descriptor_payload rest 0x05).
Proof.
  intros H E D A B O. unfold extract_esds_info. rewrite (drop_app_length' h) by done.
  rewrite length_app. rewrite (proj2 (Nat.ltb_ge _ _)) by lia. cbn [is_empty orb]. unfold at_ at 1. cbn [nth].
  change (byte_val (byte_of 3) =? 3) with true. cbn [negb drop]. rewrite descriptor_small by lia.
  cbn [mbind option_bind Nat.add drop]. rewrite !drop_0.
  rewrite length_app. rewrite (proj2 (Nat.ltb_ge _ _)) by lia.
  rewrite (drop_app_length' e) by done. cbn [is_empty orb]. unfold at_ at 1. cbn [nth].
  change (byte_val (byte_of 4) =? 4) with true. cbn [negb drop]. rewrite descriptor_small by lia. cbn [mbind option_bind Nat.add drop]. rewrite !drop_0.
  rewrite length_app. cbn [length]. rewrite (proj2 (Nat.ltb_ge _ _)) by lia. do 2 f_equal.
  - unfold at_. cbn [app nth]. rewrite byte_val_of. apply Z.mod_small. lia.
  - f_equal. by rewrite (drop_app_length' (byte_of object_type :: d)) by (cbn; lia).
Qed.

Lemma esds_read object_type dsi :
  (length dsi <= 104)%nat -> 0 <= object_type < 256 ->
  extract_esds_info (drop 8 (write_esds_audio object_type dsi)) = Some (object_type, Some dsi).
Proof.
  intros L O. unfold write_esds_audio. rewrite (proj2 (Nat.ltb_ge _ _)) by lia.
  pose proof (find_descriptor_here 5 _ dsi [x06; x01; x02] ltac:(lia) eq_refl ltac:(lia)) as F.
  set (n := Z.of_nat (length dsi)) in *. assert (N : 0 <= n <= 104) by lia. clearbody n. rewrite <- F.
  apply (es_descriptor_read (zeros 4) (3 + (2 + 13 + (2 + n)) + 3) (be_bytes 2 1 ++ [x00]) (13 + (2 + n)) object_type ([x15] ++ zeros 3 ++ be_words [0; 0])); done || lia.
Qed.

(** With 105 bytes the sizes of the descriptors need a second byte, which is not written. *)
Example esds_too_long : extract_esds_info (drop 8 (write_esds_audio 0x40 (zeros 105))) = None.
Proof. reflexivity. Qed.

Lemma esds_video_read : extract_esds_info (drop 8 (write_esds_video 0x6C)) = Some (0x6C, None).
Proof. reflexivity. Qed.

(** ** Sample entries *)

Lemma drop_box ty content : length ty = 4%nat -> drop 8 (write_box ty content) = content.
Proof. intros T. unfold write_box. rewrite app_assoc. apply drop_app_length'. rewrite length_app, length_be_bytes. lia. Qed.

Lemma full_box_is_box ty size version flags body :
  length ty = 4%nat -> size = 12 + Z.of_nat (length body) ->
  write_full_box_header ty size version flags ++ body = write_box ty (drop 8 (write_full_box_header ty size version flags ++ body)).
Proof. intros T S. by rewrite (full_box_write _ _ _ _ _ S), drop_box by done. Qed.

Lemma esds_audio_box object_type dsi :
  write_esds_audio object_type dsi = write_box (txt "esds") (drop 8 (write_esds_audio object_type dsi)).
Proof.
  unfold write_esds_audio. apply full_box_is_box; [done|]. set (d := if _ : bool then take 127 dsi else dsi).
  rewrite !length_app. cbn [length]. rewrite length_be_bytes. change (length (be_words [0; 0])) with 8%nat. change (length (zeros 3)) with 3%nat. lia.
Qed.

Lemma entry_read ty hdr cfg v offset :
  length ty = 4%nat -> 8 + Z.of_nat (length (hdr ++ cfg)) < 2 ^ 32 -> config_offset ty = Some offset -> length hdr = offset -> hdr <> [] ->
  parse_stsd_entry (write_box ty (hdr ++ cfg)) v
  = let v := set_codec (entry_codec ty) v in
    if is_empty cfg then v
    else match config_box_name ty with
         | None => v
         | Some name => match find_child_box cfg name with Some c => apply_config ty name c v | None => v end
         end.
Proof.
  intros T C O H N. unfold parse_stsd_entry.
  pose proof (box_size_read ty _ T C []) as E1. pose proof (box_type_read ty (hdr ++ cfg) T C [] []) as E2.
  pose proof (box_content_read ty (hdr ++ cfg) T C [] []) as E3. rewrite app_nil_r in *. cbn [app length Nat.add] in E2, E3.
  rewrite E1, E2. rewrite length_write_box. rewrite (proj2 (Nat.ltb_ge _ _)) by lia.
  assert (0 < length hdr)%nat by (destruct hdr; [done|cbn; lia]). rewrite length_app in *.
  rewrite (proj2 (Z.leb_gt _ _)) by lia. rewrite (proj2 (Z.ltb_ge _ _)) by lia. cbn [orb].
  replace (Z.to_nat (8 + Z.of_nat (length hdr + length cfg)) - 8)%nat with (length hdr + length cfg)%nat by lia.
  rewrite E3, O, length_app, H. rewrite (drop_app_length' hdr) by done. destruct cfg as [|c cfg].
  - cbn [length is_empty]. by rewrite (proj2 (Nat.leb_le _ _)) by lia.
  - cbn [length is_empty]. by rewrite (proj2 (Nat.leb_gt _ _)) by lia.
Qed.

Lemma entry_config ty hdr name c v offset :
  length ty = 4%nat -> 8 + Z.of_nat (length (hdr ++ write_box name c)) < 2 ^ 32 -> config_offset ty = Some offset -> length hdr = offset ->
  hdr <> [] -> config_box_name ty = Some name -> length name = 4%nat ->
  parse_stsd_entry (write_box ty (hdr ++ write_box name c)) v = apply_config ty name c (set_codec (entry_codec ty) v).
Proof.
  intros T C O H N E L. rewrite (entry_read _ _ _ _ offset) by done. cbv zeta. rewrite E.
  assert (box_ok (name, c)) as B. { split; cbn [fst snd]; [done|]. rewrite length_app, length_write_box in C. lia. }
  pose proof (find_child_first name c [] B) as F. rewrite app_nil_r in F. rewrite F.
  destruct (write_box name c) eqn:W; [|done]. apply (f_equal length) in W. rewrite length_write_box in W. cbn in W. lia.
Qed.

Definition told (t : MuxTrack) (v : MediaVars) : MediaVars :=
  mk_vars (v_timescale v) (v_handler v) (read_codec t) (read_extradata t).

(** The entry of the sample description. *)
Definition sample_entry (t : MuxTrack) : list byte :=
  match mt_media_kind t with Video => write_video_sample_entry t | Audio => write_audio_sample_entry t | _ => [] end.

Ltac entry_with :=
  match goal with |- parse_stsd_entry (write_box ?ty (?hdr ++ write_box ?name ?c)) ?v = _ =>
    rewrite (entry_config ty hdr name c v (length hdr)) by (reflexivity || assumption || (match goal with H : length hdr = _ |- _ => rewrite H end; reflexivity)) end.
Ltac entry_without :=
  match goal with |- parse_stsd_entry (write_box ?ty (?hdr ++ [])) ?v = _ =>
    rewrite (entry_read ty hdr [] v (length hdr)) by (reflexivity || assumption || (match goal with H : length hdr = _ |- _ => rewrite H end; reflexivity)) end.

Lemma video_entry_read t v :
  mt_media_kind t = Video -> v_extradata v = [] -> Z.of_nat (length (write_video_sample_entry t)) < 2 ^ 32 ->
  parse_stsd_entry (write_video_sample_entry t) v = told t v.
Proof.
  intros K V L. unfold told, read_codec, read_extradata, write_video_sample_entry, video_config_box in *. rewrite K.
  rewrite length_write_box in L. match type of L with context [length (?b ++ ?c)] => set (hdr := b) in * end.
  assert (H : length hdr = 78%nat) by reflexivity. assert (N : hdr <> []) by done. clearbody hdr.
  assert (T : length (video_codec_box (mt_codec t)) = 4%nat) by (by destruct (mt_codec t)).
  rewrite T in L. match type of L with Z.of_nat (_ + length ?b) < _ => assert (B : 8 + Z.of_nat (length b) < 2 ^ 32) by lia end. clear L T.
  destruct (mt_codec t) eqn:Ec; cbn [video_codec_box] in *; try (entry_with; reflexivity).
  2-10: entry_without; cbn [is_empty]; by rewrite <- V.
  change (write_esds_video 0x6C) with (write_box (txt "esds") (drop 8 (write_esds_video 0x6C))) in *. entry_with. reflexivity.
Qed.

Lemma audio_entry_read t v :
  track_ok t -> mt_media_kind t = Audio -> v_extradata v = [] -> Z.of_nat (length (write_audio_sample_entry t)) < 2 ^ 32 ->
  parse_stsd_entry (write_audio_sample_entry t) v = told t v.
Proof.
  intros [_ _ _ A] K V L. specialize (A K). unfold told, read_codec, read_extradata, write_audio_sample_entry, audio_config_box, esds_content in *. rewrite K.
  rewrite length_write_box in L. match type of L with context [length (?b ++ ?c)] => set (hdr := b) in * end.
  assert (H : length hdr = 28%nat) by reflexivity. assert (N : hdr <> []) by done. clearbody hdr.
  assert (T : length (audio_codec_box (mt_codec t)) = 4%nat) by (by destruct (mt_codec t)).
  rewrite T in L. match type of L with Z.of_nat (_ + length ?b) < _ => assert (B : 8 + Z.of_nat (length b) < 2 ^ 32) by lia end. clear L T.
  assert (D : forall o, 0 <= o < 256 -> (length (mt_extradata t) <= 104)%nat -> extract_esds_info (drop 8 (write_esds_audio o (mt_extradata t))) = Some (o, Some (mt_extradata t))).
  { intros o O E. by apply esds_read. }
  destruct (mt_codec t) eqn:Ec; cbn [audio_codec_box] in *; try (entry_with; reflexivity); try (entry_without; cbn [is_empty]; by rewrite <- V).
  all: rewrite esds_audio_box in B |- *; entry_with; unfold apply_config; rewrite (bool_decide_true _ eq_refl), D by (lia || (apply A; auto)); reflexivity.
Qed.

(** ** The boxes of each level *)

Definition stsd_content (t : MuxTrack) : list byte := [x00] ++ zeros 3 ++ be_bytes 4 1 ++ sample_entry t.

Definition stbl_boxes (t : MuxTrack) : list (list byte * list byte) :=
  [(txt "stsd", stsd_content t); (txt "stts", zeros 8); (txt "stsc", zeros 8); (txt "stsz", zeros 12); (txt "stco", zeros 8)].

Lemma stbl_is_boxes t : write_stbl t = write_box (txt "stbl") (write_boxes (stbl_boxes t)).
Proof. reflexivity. Qed.

Definition media_header_boxes (kind : MediaKind) : list (list byte * list byte) :=
  match kind with
  | Video => [(txt "vmhd", [x00; x00; x00; x01] ++ zeros 8)]
  | Audio => [(txt "smhd", zeros 8)]
  | _ => []
  end.

Definition minf_boxes (t : MuxTrack) : list (list byte * list byte) :=
  media_header_boxes (mt_media_kind t) ++ [(txt "dinf", drop 8 write_dinf); (txt "stbl", write_boxes (stbl_boxes t))].

Lemma minf_is_boxes t : write_minf t = write_box (txt "minf") (write_boxes (minf_boxes t)).
Proof.
  unfold write_minf. rewrite stbl_is_boxes. f_equal. unfold minf_boxes, write_boxes. rewrite map_app, concat_app. f_equal.
  - by destruct (mt_media_kind t).
  - cbn [map concat fst snd]. rewrite app_nil_r. reflexivity.
Qed.

Definition mdhd_content (t : MuxTrack) : list byte := zeros 12 ++ be_bytes 4 (mt_timescale t) ++ zeros 4 ++ be_bytes 2 0x55C4 ++ zeros 2.
Definition hdlr_content (t : MuxTrack) : list byte :=
  zeros 8 ++ hdlr_handler (mt_media_kind t) ++ zeros 12 ++ txt "Cheetah" ++ [x00].

Definition mdia_boxes (t : MuxTrack) : list (list byte * list byte) :=
  [(txt "mdhd", mdhd_content t); (txt "hdlr", hdlr_content t); (txt "minf", write_boxes (minf_boxes t))].

Lemma mdia_is_boxes t : write_mdia t = write_box (txt "mdia") (write_boxes (mdia_boxes t)).
Proof.
  unfold write_mdia. rewrite minf_is_boxes. f_equal. unfold mdia_boxes, write_boxes. cbn [map concat fst snd]. rewrite app_nil_r.
  unfold write_hdlr, hdlr_content. by destruct (mt_media_kind t).
Qed.

Definition tkhd_content (t : MuxTrack) : list byte := drop 8 (write_tkhd t).

Definition trak_boxes (t : MuxTrack) : list (list byte * list byte) :=
  [(txt "tkhd", tkhd_content t); (txt "mdia", write_boxes (mdia_boxes t))].

Lemma trak_is_boxes t : write_trak t = write_box (txt "trak") (write_boxes (trak_boxes t)).
Proof.
  unfold write_trak. rewrite mdia_is_boxes. f_equal. unfold trak_boxes, write_boxes. cbn [map concat fst snd]. by rewrite app_nil_r.
Qed.

Definition moov_boxes (tracks : list MuxTrack) : list (list byte * list byte) :=
  (txt "mvhd", drop 8 (write_mvhd (wrap_u 32 (Z.of_nat (length tracks)))))
    :: map (fun t => (txt "trak", write_boxes (trak_boxes t))) tracks
    ++ [(txt "mvex", concat (map (fun t => write_trex (mt_track_id t)) tracks))].

Lemma moov_is_boxes tracks : write_moov tracks = write_box (txt "moov") (write_boxes (moov_boxes tracks)).
Proof.
  unfold write_moov. f_equal. unfold moov_boxes, write_boxes. cbn [map concat fst snd]. f_equal.
  rewrite map_app, concat_app. f_equal.
  - rewrite map_map. f_equal. apply map_ext. intros t. apply trak_is_boxes.
  - cbn [map concat fst snd]. by rewrite app_nil_r.
Qed.

(** ** Reading them *)

Lemma stbl_read t v :
  track_ok t -> v_extradata v = [] -> Z.of_nat (length (write_boxes (stbl_boxes t))) < 2 ^ 32 ->
  parse_stbl (write_boxes (stbl_boxes t)) v = Ok (told t v).
Proof.
  intros O V L. unfold parse_stbl. rewrite visit_boxes; [|repeat constructor|done].
  assert (E : Z.of_nat (length (sample_entry t)) < 2 ^ 32).
  { pose proof (box_in_boxes (txt "stsd") (stsd_content t) (stbl_boxes t) ltac:(by left)) as B. rewrite length_write_box in B.
    unfold stsd_content in B. rewrite !length_app in B. lia. }
  unfold stbl_boxes. cbn [visit]. known_types. change (8 <=? length (stsd_content t))%nat with true. cbn [andb result_bind].
  change (drop 8 (stsd_content t)) with (sample_entry t). f_equal.
  unfold sample_entry in *. destruct (ok_kind _ O) as [K|K]; rewrite K in *; [by apply video_entry_read|by apply audio_entry_read].
Qed.

Lemma minf_read t v :
  track_ok t -> v_extradata v = [] -> Z.of_nat (length (write_boxes (minf_boxes t))) < 2 ^ 32 ->
  parse_minf (write_boxes (minf_boxes t)) v = Ok (told t v).
Proof.
  intros O V L. unfold parse_minf. rewrite visit_boxes; [|unfold minf_boxes; by destruct (mt_media_kind t); repeat constructor|done].
  assert (E : Z.of_nat (length (write_boxes (stbl_boxes t))) < 2 ^ 32).
  { pose proof (box_in_boxes (txt "stbl") (write_boxes (stbl_boxes t)) (minf_boxes t) ltac:(apply elem_of_app; right; right; by left)) as B.
    rewrite length_write_box in B. lia. }
  unfold minf_boxes. rewrite visit_app.
  assert (visit (fun box_type content v => if is_type box_type "stbl" then parse_stbl content v else Ok v) (media_header_boxes (mt_media_kind t)) v = Ok v) as ->.
  { unfold media_header_boxes. destruct (mt_media_kind t); reflexivity. }
  cbn [result_bind visit]. known_types. cbn [result_bind]. by rewrite stbl_read by done.
Qed.

Lemma mdia_read t :
  track_ok t -> Z.of_nat (length (write_boxes (mdia_boxes t))) < 2 ^ 32 ->
  parse_mdia (write_boxes (mdia_boxes t)) vars_new
  = Ok (mk_vars (mt_timescale t) (hdlr_handler (mt_media_kind t)) (read_codec t) (read_extradata t)).
Proof.
  intros O L. unfold parse_mdia. rewrite visit_boxes; [|repeat constructor|done].
  assert (E : Z.of_nat (length (write_boxes (minf_boxes t))) < 2 ^ 32).
  { pose proof (box_in_boxes (txt "minf") (write_boxes (minf_boxes t)) (mdia_boxes t) ltac:(right; right; by left)) as B.
    rewrite length_write_box in B. lia. }
  unfold mdia_boxes. cbn [visit]. known_types. change (16 <=? length (mdhd_content t))%nat with true. cbn [andb result_bind].
  assert ((12 <=? length (hdlr_content t))%nat = true) as -> by (unfold hdlr_content; by destruct (mt_media_kind t)). cbn [andb result_bind].
  rewrite minf_read by done. cbn [result_bind]. unfold told. cbn [v_timescale v_handler]. f_equal. f_equal.
  - unfold mdhd_content. apply (be_at_mid (zeros 12)). apply (ok_timescale _ O).
  - unfold hdlr_content. by destruct (mt_media_kind t).
Qed.

Lemma trak_read t :
  track_ok t -> Z.of_nat (length (write_boxes (trak_boxes t))) < 2 ^ 32 ->
  parse_trak (write_boxes (trak_boxes t)) = Ok (Some (read_track t)).
Proof.
  intros O L. unfold parse_trak. rewrite visit_boxes; [|repeat constructor|done].
  assert (E : Z.of_nat (length (write_boxes (mdia_boxes t))) < 2 ^ 32).
  { pose proof (box_in_boxes (txt "mdia") (write_boxes (mdia_boxes t)) (trak_boxes t) ltac:(right; by left)) as B.
    rewrite length_write_box in B. lia. }
  unfold trak_boxes. cbn [visit]. known_types. change (16 <=? length (tkhd_content t))%nat with true. cbn [andb result_bind].
  rewrite mdia_read by done. cbn [result_bind result_map]. f_equal.
  assert (be_at (tkhd_content t) 12 4 = mt_track_id t) as ->.
  { unfold be_at. change (sub_ 12 4 (tkhd_content t)) with (be_bytes 4 (mt_track_id t)). apply be_val_bytes_small. apply (ok_id _ O). }
  unfold trak_track, read_track. cbn [v_handler v_codec v_timescale v_extradata].
  by destruct (ok_kind _ O) as [K|K]; rewrite K.
Qed.

(** Every track of the [moov], in order. *)
Lemma moov_read tracks before :
  Forall track_ok tracks -> Z.of_nat (length (write_boxes (moov_boxes tracks))) < 2 ^ 32 ->
  parse_moov (write_boxes (moov_boxes tracks)) before = Ok (before ++ map read_track tracks).
Proof.
  intros F L. unfold parse_moov.
  rewrite visit_boxes; [|unfold moov_boxes; constructor; [done|]; apply Forall_app; split; [apply Forall_map; by apply Forall_true|by repeat constructor]|done].
  assert (E : Forall (fun t => Z.of_nat (length (write_boxes (trak_boxes t))) < 2 ^ 32) tracks).
  { apply Forall_forall. intros t T.
    pose proof (box_in_boxes (txt "trak") (write_boxes (trak_boxes t)) (moov_boxes tracks)) as B. rewrite length_write_box in B.
    assert ((txt "trak", write_boxes (trak_boxes t)) ∈ moov_boxes tracks) as I; [|specialize (B I); lia].
    right. apply elem_of_app. left. apply list_elem_of_In, in_map_iff. exists t. split; [done|by apply list_elem_of_In]. }
  clear L. unfold moov_boxes. cbn [visit]. known_types. cbn [result_bind]. rewrite visit_app.
  assert (V : forall before, visit (fun box_type content tracks =>
       if is_type box_type "trak" then result_map (fun track => tracks ++ option_list track) (parse_trak content) else Ok tracks)
       (map (fun t => (txt "trak", write_boxes (trak_boxes t))) tracks) before = Ok (before ++ map read_track tracks)).
  { induction F as [|t tracks O F IH]; intros b; cbn [map visit]; [by rewrite app_nil_r|]. known_types. inversion E; subst.
    rewrite trak_read by done. cbn [result_map result_bind option_list]. rewrite IH by done. by rewrite <- app_assoc. }
  rewrite V. cbn [result_bind visit]. known_types. reflexivity.
Qed.

(** * What the demuxer reads of a fragment

    Every sample of a fragment comes back in order, with its bytes, the key frame flag of a
    video track, and times that add up the durations written before it. *)

(** ** Samples of a track *)

Definition samples_of (samples : list Fmp4MuxSample) (t : MuxTrack) : list Fmp4MuxSample :=
  filter (fun s => s_track_id s = mt_track_id t) samples.

Definition distinct (tracks : list MuxTrack) : Prop := NoDup (map mt_track_id tracks).

Lemma position_cons t tracks id :
  position_of (t :: tracks) id = if decide (mt_track_id t = id) then Some 0%nat else S <$> position_of tracks id.
Proof.
  unfold position_of. cbn [list_find]. destruct (decide (mt_track_id t = id)); [done|].
  destruct (list_find _ tracks) as [[i x]|]; done.
Qed.

Lemma position_absent tracks id : id ∉ map mt_track_id tracks -> position_of tracks id = None.
Proof.
  induction tracks as [|t tracks IH]; intros N; [done|]. rewrite position_cons. cbn [map] in N. rewrite elem_of_cons in N.
  rewrite decide_False by naive_solver. by rewrite IH by naive_solver.
Qed.

(** Putting one sample into its group. *)
Lemma add_sample tracks s groups before :
  distinct tracks -> groups = map (samples_of before) tracks ->
  match position_of tracks (s_track_id s) with
  | Some idx => alter (fun ts => ts ++ [s]) idx groups
  | None => groups
  end = map (samples_of (before ++ [s])) tracks.
Proof.
  intros D ->. induction tracks as [|t tracks IH]; [done|]. cbn [map]. inversion D as [|? ? N D']; subst. rewrite position_cons.
  assert (S : samples_of (before ++ [s]) t = samples_of before t ++ (if decide (s_track_id s = mt_track_id t) then [s] else [])).
  { unfold samples_of. rewrite filter_app, filter_cons, filter_nil. by destruct (decide (s_track_id s = mt_track_id t)). }
  rewrite S. destruct (decide (mt_track_id t = s_track_id s)) as [E|E].
  - rewrite decide_True by done. cbn [alter list_alter]. f_equal. rewrite <- (IH D'). rewrite position_absent; [done|by rewrite <- E].
  - rewrite decide_False by congruence. rewrite app_nil_r. rewrite <- (IH D'). by destruct (position_of tracks (s_track_id s)).
Qed.

(** The groups are the samples of each track; samples of other tracks are in none. *)
Lemma groups_are tracks samples : distinct tracks -> group_samples tracks samples = map (samples_of samples) tracks.
Proof.
  intros D. unfold group_samples.
  assert (G : forall before rest, fold_left (fun groups s => match position_of tracks (s_track_id s) with
      | Some idx => alter (fun ts => ts ++ [s]) idx groups | None => groups end) rest (map (samples_of before) tracks)
      = map (samples_of (before ++ rest)) tracks).
  { intros before rest. revert before. induction rest as [|s rest IH]; intros before; cbn [fold_left]; [by rewrite app_nil_r|].
    rewrite (add_sample _ _ _ before) by done. rewrite IH. by rewrite <- app_assoc. }
  specialize (G [] samples). cbn [app] in G. rewrite <- G. f_equal.
  clear. induction tracks; cbn; [done|]. by f_equal.
Qed.

(** ** Track runs *)

Definition is_video (t : MuxTrack) : bool := bool_decide (mt_media_kind t = Video).
Definition default_duration (t : MuxTrack) : Z := if is_video t then 33333 else 23220.

Definition run_sample (t : MuxTrack) (prev : option Fmp4MuxSample) (s : Fmp4MuxSample) (next : option Fmp4MuxSample) : TrunSample :=
  mk_trun (sample_duration (mt_timescale t) (default_duration t) prev s next) (data_len s)
    (if is_video t then sample_flags s else 0) (if is_video t then sample_cts (mt_timescale t) s else 0).

Fixpoint run_samples (t : MuxTrack) (prev : option Fmp4MuxSample) (ts : list Fmp4MuxSample) : list TrunSample :=
  match ts with [] => [] | s :: ts => run_sample t prev s (head ts) :: run_samples t (Some s) ts end.

Lemma be_words_cons w ws : be_words (w :: ws) = be_bytes 4 w ++ be_words ws.
Proof. done. Qed.

Lemma length_be_words ws : length (be_words ws) = (4 * length ws)%nat.
Proof. induction ws as [|w ws IH]; [done|]. rewrite be_words_cons, length_app, length_be_bytes, IH. cbn. lia. Qed.

(** A field that is there. *)
Lemma field_here pre w rest absent :
  trun_field true absent (pre ++ be_bytes 4 w ++ rest) (length pre) = Some (wrap_u 32 w, length (pre ++ be_bytes 4 w)).
Proof.
  unfold trun_field. rewrite !length_app, length_be_bytes. rewrite (proj2 (Nat.ltb_ge _ _)) by lia.
  unfold be_at. rewrite sub_app_r, Nat.sub_diag by lia. pose proof (sub_app_l (be_bytes 4 w) rest) as E. rewrite length_be_bytes in E.
  by rewrite E, be_val_bytes.
Qed.

Lemma wrap_i_of_u w z : 0 < w -> wrap_i w (wrap_u w z) = wrap_i w z.
Proof. intros W. unfold wrap_i, wrap_u. by rewrite Zplus_mod_idemp_l. Qed.

Lemma video_entry pre d l f c rest absent :
  in_u 32 d -> in_u 32 l -> in_u 32 f -> in_i 32 c ->
  trun_entry 0x000f01 absent (pre ++ be_words [d; l; f; c] ++ rest) (length pre)
  = Some (mk_trun d l f c, length (pre ++ be_words [d; l; f; c])).
Proof.
  intros D L F C. unfold trun_entry.
  change (has_flag 0x000f01 0x000100) with true. change (has_flag 0x000f01 0x000200) with true.
  change (has_flag 0x000f01 0x000400) with true. change (has_flag 0x000f01 0x000800) with true.
  rewrite !be_words_cons. change (be_words []) with (@nil byte). rewrite <- !app_assoc.
  rewrite field_here. cbn [mbind option_bind]. rewrite app_assoc, field_here. cbn [mbind option_bind].
  rewrite app_assoc, field_here. cbn [mbind option_bind]. rewrite app_assoc, field_here. cbn [mbind option_bind].
  rewrite wrap_i_of_u by lia. rewrite !wrap_u_small, wrap_i_small by done. by rewrite <- !app_assoc.
Qed.

Lemma audio_entry pre d l rest :
  in_u 32 d -> in_u 32 l ->
  trun_entry 0x000301 0 (pre ++ be_words [d; l] ++ rest) (length pre) = Some (mk_trun d l 0 0, length (pre ++ be_words [d; l])).
Proof.
  intros D L. unfold trun_entry.
  change (has_flag 0x000301 0x000100) with true. change (has_flag 0x000301 0x000200) with true.
  change (has_flag 0x000301 0x000400) with false. change (has_flag 0x000301 0x000800) with false.
  rewrite !be_words_cons. change (be_words []) with (@nil byte). rewrite <- !app_assoc.
  rewrite field_here. cbn [mbind option_bind]. rewrite app_assoc, field_here. cbn [mbind option_bind trun_field].
  rewrite !wrap_u_small by done. by rewrite <- !app_assoc.
Qed.

Definition trun_words (t : MuxTrack) (ts : list Fmp4MuxSample) (prev : option Fmp4MuxSample) : list byte :=
  if is_video t then video_trun (mt_timescale t) prev ts else audio_trun (mt_timescale t) prev ts.
Definition trun_flags (t : MuxTrack) : Z := if is_video t then 0x000f01 else 0x000301.

Lemma sample_flags_range s : in_u 32 (sample_flags s).
Proof. unfold sample_flags. by destruct (s_is_keyframe s). Qed.

Lemma entries_read t ts prev pre :
  trun_entries (length ts) (trun_flags t) 0 (pre ++ trun_words t ts prev) (length pre) = run_samples t prev ts.
Proof.
  revert prev pre. induction ts as [|s ts IH]; intros prev pre; [done|]. cbn [length trun_entries run_samples].
  unfold run_sample, trun_words, trun_flags, default_duration in *. destruct (is_video t); cbn [video_trun audio_trun].
  - rewrite video_entry; [|by apply wrap_u_range|by apply wrap_u_range|apply sample_flags_range|by apply wrap_i_range].
    rewrite app_assoc. f_equal. apply IH.
  - rewrite audio_entry; [|by apply wrap_u_range..]. rewrite app_assoc. f_equal. apply IH.
Qed.

Lemma length_trun_words t ts prev : length (trun_words t ts prev) = ((if is_video t then 16 else 8) * length ts)%nat.
Proof.
  revert prev. induction ts as [|s ts IH]; intros prev; unfold trun_words in *; [by destruct (is_video t)|].
  destruct (is_video t); cbn [video_trun audio_trun length]; rewrite length_app, length_be_words, IH; cbn [length]; lia.
Qed.

Definition trun_content (t : MuxTrack) (ts : list Fmp4MuxSample) (data_offset : Z) : list byte :=
  [(if is_video t then x01 else x00); x00; (if is_video t then x0f else x03); x01]
    ++ be_words [Z.of_nat (length ts); data_offset] ++ trun_words t ts None.

Lemma trun_is_box t ts data_offset :
  8 + Z.of_nat (length (trun_content t ts data_offset)) < 2 ^ 32 ->
  write_trun t ts data_offset = write_box (txt "trun") (trun_content t ts data_offset).
Proof.
  intros L. assert (B : Z.of_nat (length (trun_content t ts data_offset)) = 12 + (if is_video t then 16 else 8) * Z.of_nat (length ts)).
  { unfold trun_content. rewrite !length_app, length_be_words, length_trun_words. cbn [length]. destruct (is_video t); lia. }
  rewrite B in L. unfold write_trun, trun_content, trun_words, is_video in *.
  destruct (bool_decide (mt_media_kind t = Video)).
  all: rewrite (wrap_u_small 32 (Z.of_nat (length ts))) by (unfold in_u; lia).
  all: rewrite !wrap_u_small by (rewrite ?wrap_u_small by (unfold in_u; lia); unfold in_u; lia).
  all: rewrite full_box_write; [done|rewrite length_app, length_be_words in *; cbn [length] in *; rewrite !length_app, length_be_words in B; cbn [length] in B; lia].
Qed.

Lemma trun_content_flags t ts data_offset : be_at (trun_content t ts data_offset) 1 3 = trun_flags t.
Proof. unfold trun_content, be_at, sub_. cbn [app drop take]. unfold trun_flags. by destruct (is_video t). Qed.

Lemma trun_read t ts data_offset :
  in_u 32 (Z.of_nat (length ts)) -> in_i 32 data_offset ->
  parse_trun (trun_content t ts data_offset) = (data_offset, run_samples t None ts).
Proof.
  intros N O. pose proof (trun_content_flags t ts data_offset) as F. unfold trun_content in *. rewrite !be_words_cons in *. change (be_words []) with (@nil byte) in *. rewrite app_nil_r, <- app_assoc in *.
  set (h := [_; _; _; _]) in *. unfold parse_trun.
  rewrite F. pose proof (be_at_mid h 4 (Z.of_nat (length ts)) (be_bytes 4 data_offset ++ trun_words t ts None) N) as C.
  change (length h) with 4%nat in C. rewrite C, Nat2Z.id.
  pose proof (field_here (h ++ be_bytes 4 (Z.of_nat (length ts))) data_offset (trun_words t ts None) 0) as D.
  rewrite <- app_assoc in D. rewrite length_app, length_be_bytes in D. change (length h + 4)%nat with 8%nat in D.
  rewrite !length_app, !length_be_bytes. rewrite (proj2 (Nat.ltb_ge _ _)) by lia.
  assert (has_flag (trun_flags t) 0x000001 = true /\ has_flag (trun_flags t) 0x000004 = false) as [-> ->].
  { unfold trun_flags. by destruct (is_video t). }
  rewrite D. cbn [trun_field]. rewrite wrap_i_of_u, wrap_i_small by (done || lia). f_equal.
  rewrite !app_assoc. apply entries_read.
Qed.

(** ** Track fragments *)

Definition traf_boxes (t : MuxTrack) (ts : list Fmp4MuxSample) (data_offset : Z) : list (list byte * list byte) :=
  [(txt "tfhd", [x00; x02; x00; x00] ++ be_bytes 4 (mt_track_id t));
   (txt "tfdt", [x01; x00; x00; x00] ++ be_bytes 8 (base_dts t ts));
   (txt "trun", trun_content t ts data_offset)].

Lemma length_traf_boxes t ts data_offset :
  length (write_boxes (traf_boxes t ts data_offset)) = (44 + length (trun_content t ts data_offset))%nat.
Proof. unfold write_boxes, traf_boxes. cbn [map concat fst snd]. rewrite !length_app, !length_write_box, !length_app, !length_be_bytes. cbn. lia. Qed.

Lemma traf_is_boxes t ts data_offset :
  Z.of_nat (length (write_boxes (traf_boxes t ts data_offset))) < 2 ^ 32 ->
  write_traf t ts data_offset = write_box (txt "traf") (write_boxes (traf_boxes t ts data_offset)).
Proof.
  intros L. rewrite length_traf_boxes in L. unfold write_traf. rewrite trun_is_box by lia. f_equal.
  unfold write_boxes, traf_boxes. cbn [map concat fst snd]. by rewrite app_nil_r.
Qed.

Lemma base_dts_range t ts : in_u 64 (base_dts t ts).
Proof.
  unfold base_dts. destruct ts as [|s ts]; [done|]. pose proof (wrap_i_range 64) as R. unfold us_to_timescale, in_i, in_u in *.
  set (z := wrap_i 64 _ + _). specialize (R z ltac:(lia)). lia.
Qed.

Lemma traf_read t ts data_offset :
  in_u 32 (mt_track_id t) -> in_u 32 (Z.of_nat (length ts)) -> in_i 32 data_offset ->
  Z.of_nat (length (write_boxes (traf_boxes t ts data_offset))) < 2 ^ 32 ->
  traf_vars (write_boxes (traf_boxes t ts data_offset)) = Ok (mk_traf (mt_track_id t) (base_dts t ts) data_offset (run_samples t None ts)).
Proof.
  intros I N O L. unfold traf_vars. rewrite visit_boxes; [|repeat constructor|done]. unfold traf_boxes. cbn [visit result_bind].
  unfold traf_box. known_types. cbn [result_bind].
  repeat match goal with |- context [(?n <=? length (?a ++ be_bytes ?k ?z))%nat] => change (n <=? length (a ++ be_bytes k z))%nat with true end.
  assert ((8 <=? length (trun_content t ts data_offset))%nat = true) as ->.
  { unfold trun_content. rewrite !length_app, length_be_words. apply Nat.leb_le. cbn. lia. }
  cbn [andb]. cbv iota. rewrite trun_read by done. cbn [tv_track_id tv_base_decode_time].
  change (at_ ([x01; x00; x00; x00] ++ be_bytes 8 (base_dts t ts)) 0 =? 1) with true. cbn [andb]. cbv iota.
  do 2 f_equal.
  - pose proof (be_at_mid [x00; x02; x00; x00] 4 (mt_track_id t) [] I) as E. rewrite app_nil_r in E. exact E.
  - pose proof (be_at_mid [x01; x00; x00; x00] 8 (base_dts t ts) [] (base_dts_range t ts)) as E. rewrite app_nil_r in E. exact E.
Qed.

(** ** Frames *)

Definition played_pts (t : MuxTrack) (s : Fmp4MuxSample) (dts : Z) : Z :=
  timescale_to_us (wrap_u 64 (wrap_i 64 (wrap_i 64 dts + (if is_video t then sample_cts (mt_timescale t) s else 0)))) (mt_timescale t).

(** The samples of a track with their decode times in ticks, from that of the first. *)
Fixpoint timed (t : MuxTrack) (prev : option Fmp4MuxSample) (ts : list Fmp4MuxSample) (dts : Z) : list (Fmp4MuxSample * Z) :=
  match ts with
  | [] => []
  | s :: ts =>
      (s, dts) :: timed t (Some s) ts (wrap_u 64 (dts + sample_duration (mt_timescale t) (default_duration t) prev s (head ts)))
  end.

Definition told_key (t : MuxTrack) (s : Fmp4MuxSample) : bool := if is_video t then s_is_keyframe s else true.

Definition frame_at (t : MuxTrack) (x : Fmp4MuxSample * Z) : Fmp4Frame :=
  let '(s, dts) := x in
  mk_frame (mt_track_id t) (mt_media_kind t) (read_codec t) (played_pts t s dts) (timescale_to_us dts (mt_timescale t))
    (told_key t s) (s_data s).

(** The samples of a track as frames. *)
Definition played (t : MuxTrack) (prev : option Fmp4MuxSample) (ts : list Fmp4MuxSample) (dts : Z) : list Fmp4Frame :=
  map (frame_at t) (timed t prev ts dts).

Lemma flags_read t s : is_keyframe_flags (if is_video t then sample_flags s else 0) = told_key t s.
Proof. unfold sample_flags, told_key. by destruct (is_video t), (s_is_keyframe s). Qed.

Lemma frames_read t ts prev dts pre rest :
  Z.of_nat (length (pre ++ concat (map s_data ts) ++ rest)) < 2 ^ 32 ->
  traf_frames (read_track t) (mt_track_id t) (pre ++ concat (map s_data ts) ++ rest) (run_samples t prev ts) (length pre) dts
  = map FrameEvent (played t prev ts dts).
Proof.
  unfold played. revert prev dts pre. induction ts as [|s ts IH]; intros prev dts pre L; [done|].
  cbn [map concat run_samples traf_frames timed frame_at] in *. rewrite <- app_assoc in *.
  assert (D : data_len s = Z.of_nat (length (s_data s))).
  { unfold data_len. apply wrap_u_small. rewrite !length_app in L. unfold in_u. lia. }
  unfold run_sample. cbn [ts_size ts_flags ts_cts_offset ts_duration]. rewrite D, Nat2Z.id.
  rewrite (proj2 (Z.ltb_ge _ _)) by (rewrite !length_app; lia). rewrite flags_read. f_equal.
  - f_equal. unfold read_track, played_pts. cbn [dt_media_kind dt_codec dt_timescale]. f_equal.
    rewrite sub_app_r, Nat.sub_diag by lia. apply sub_app_l.
  - specialize (IH (Some s) (wrap_u 64 (dts + sample_duration (mt_timescale t) (default_duration t) prev s (head ts))) (pre ++ s_data s)).
    rewrite <- !app_assoc in IH. specialize (IH L). by rewrite (length_app pre (s_data s)) in IH.
Qed.

(** ** The [moof] *)

Fixpoint moof_trafs (data_offset : Z -> Z) (offset : Z) (tracks : list MuxTrack) (groups : list (list Fmp4MuxSample)) :
    list (list byte * list byte) :=
  match tracks, groups with
  | t :: tracks, ts :: groups =>
      if is_empty ts then moof_trafs data_offset offset tracks groups
      else (txt "traf", write_boxes (traf_boxes t ts (data_offset offset)))
             :: moof_trafs data_offset (wrap_u 32 (offset + samples_len ts)) tracks groups
  | _, _ => []
  end.

Lemma length_moof_trafs f g o o' tracks groups :
  length (write_boxes (moof_trafs f o tracks groups)) = length (write_boxes (moof_trafs g o' tracks groups)).
Proof.
  revert o o' groups. induction tracks as [|t tracks IH]; intros o o' [|ts groups]; [done..|]. cbn [moof_trafs].
  destruct (is_empty ts); [apply IH|]. unfold write_boxes in *. cbn [map concat fst snd]. rewrite !length_app, !length_write_box.
  rewrite (IH _ (wrap_u 32 (o' + samples_len ts))). f_equal.
Qed.

Lemma trafs_are_boxes f o tracks groups :
  Z.of_nat (length (write_boxes (moof_trafs f o tracks groups))) < 2 ^ 32 ->
  write_trafs f o tracks groups = write_boxes (moof_trafs f o tracks groups).
Proof.
  revert o groups. induction tracks as [|t tracks IH]; intros o [|ts groups] L; [done..|]. cbn [moof_trafs write_trafs] in *.
  destruct (is_empty ts); [by apply IH|]. unfold write_boxes in *. cbn [map concat fst snd] in *. rewrite length_app, length_write_box in L.
  rewrite IH by lia. f_equal. apply traf_is_boxes. unfold write_boxes. lia.
Qed.

Definition moof_boxes (f : Z -> Z) (tracks : list MuxTrack) (groups : list (list Fmp4MuxSample)) (seq : Z) : list (list byte * list byte) :=
  (txt "mfhd", zeros 4 ++ be_bytes 4 seq) :: moof_trafs f 0 tracks groups.

Lemma moof_is_boxes f tracks groups seq :
  Z.of_nat (length (write_boxes (moof_boxes f tracks groups seq))) < 2 ^ 32 ->
  write_moof seq (write_trafs f 0 tracks groups) = write_box (txt "moof") (write_boxes (moof_boxes f tracks groups seq)).
Proof.
  intros L. unfold moof_boxes, write_boxes in *. cbn [map concat fst snd] in *. rewrite length_app in L. unfold write_moof.
  rewrite trafs_are_boxes by (unfold write_boxes; lia). reflexivity.
Qed.

(** The frames of a fragment: track after track. *)
Definition fragment_frames (tracks : list MuxTrack) (samples : list Fmp4MuxSample) : list Fmp4Frame :=
  concat (map (fun t => played t None (samples_of samples t) (base_dts t (samples_of samples t))) tracks).

Lemma samples_len_small ts : Z.of_nat (length (concat (map s_data ts))) < 2 ^ 32 -> samples_len ts = Z.of_nat (length (concat (map s_data ts))).
Proof.
  induction ts as [|s ts IH]; intros L; [done|]. cbn [map concat samples_len fold_right] in *. rewrite length_app in *.
  unfold samples_len in IH. rewrite IH by lia. unfold data_len. rewrite (wrap_u_small 32 (Z.of_nat (length (s_data s)))) by (unfold in_u; lia).
  rewrite wrap_u_small by (unfold in_u; lia). lia.
Qed.

Section one_fragment.
Context (all : list MuxTrack) (size : nat) (mdat : list byte).
Context (D : distinct all) (A : Forall track_ok all) (Fit : Z.of_nat (size + 8 + 8 + length mdat) < 2 ^ 31).

Definition patched (offset : Z) : Z := wrap_i 32 (wrap_u 32 (Z.of_nat (size + 8) + 8 + offset)).

Lemma patched_small offset : 0 <= offset <= Z.of_nat (length mdat) -> patched offset = Z.of_nat (size + 8) + 8 + offset.
Proof using Fit. intros O. unfold patched. rewrite wrap_u_small by (unfold in_u; lia). apply wrap_i_small; [lia|]. unfold in_i. lia. Qed.

Lemma track_found_again t : t ∈ all -> find_track (map read_track all) (mt_track_id t) = Some (read_track t).
Proof using D.
  unfold find_track. revert D. generalize all as tracks. induction tracks as [|u tracks IH]; intros N I; [by apply elem_of_nil in I|].
  inversion N as [|? ? M N']; subst. cbn [map find]. apply elem_of_cons in I as [->|I].
  - unfold read_track at 1. cbn [dt_track_id]. by rewrite Z.eqb_refl.
  - unfold read_track at 1. cbn [dt_track_id]. rewrite (proj2 (Z.eqb_neq _ _)); [by apply IH|]. intros E. destruct M. rewrite E.
    apply list_elem_of_In, in_map, list_elem_of_In, I.
Qed.

Definition traf_step (events : list Fmp4DemuxEvent) (box_type content : list byte) : result Panicked (list Fmp4DemuxEvent) :=
  if is_type box_type "traf" then result_map (app events) (parse_traf (map read_track all) content mdat (size + 8)) else Ok events.

Lemma trafs_read tracks groups pre rest events :
  tracks ⊆ all -> length groups = length tracks -> mdat = pre ++ concat (map s_data (concat groups)) ++ rest ->
  Z.of_nat (length (write_boxes (moof_trafs patched (Z.of_nat (length pre)) tracks groups))) < 2 ^ 32 ->
  visit (fun box_type content events => traf_step events box_type content)
    (moof_trafs patched (Z.of_nat (length pre)) tracks groups) events
  = Ok (events ++ concat (zip_with (fun t ts => map FrameEvent (played t None ts (base_dts t ts))) tracks groups)).
Proof using D A Fit.
  revert groups pre events. induction tracks as [|t tracks IH]; intros [|ts groups] pre events I G M L; [by cbn; rewrite app_nil_r|done..|].
  cbn [moof_trafs zip_with concat] in *. rewrite map_app, concat_app, <- app_assoc in M.
  assert (IT : t ∈ all) by (apply I; left). assert (I' : tracks ⊆ all) by (intros x X; apply I; by right).
  destruct (is_empty ts) eqn:Et.
  - destruct ts; [|done]. cbn [played timed map app]. apply IH; [done|by injection G|done|done].
  - unfold write_boxes in L. cbn [map concat fst snd visit] in *. rewrite length_app, length_write_box in L. fold (write_boxes (traf_boxes t ts (patched (Z.of_nat (length pre))))) in L.
    assert (B : (length pre + length (concat (map s_data ts)) <= length mdat)%nat) by (rewrite M, !length_app; lia).
    assert (N : in_u 32 (Z.of_nat (length ts))).
    { rewrite length_traf_boxes in L. unfold trun_content in L. rewrite !length_app, length_trun_words in L. unfold in_u. destruct (is_video t); lia. }
    unfold traf_step at 1. known_types. unfold parse_traf.
    rewrite traf_read; [|apply (ok_id t); by eapply Forall_forall in A|done|rewrite patched_small by lia; unfold in_i; lia|lia].
    cbn [result_bind tv_track_id tv_samples tv_data_offset tv_base_decode_time result_map]. rewrite track_found_again by done.
    rewrite patched_small by lia. unfold mdat_base. rewrite (proj2 (Z.ltb_lt _ _)) by lia.
    replace (Z.to_nat (Z.of_nat (size + 8) + 8 + Z.of_nat (length pre)) - (size + 8 + 8))%nat with (length pre) by lia.
    rewrite M at 1. rewrite frames_read by (rewrite <- M; lia). rewrite app_assoc.
    rewrite samples_len_small by lia. rewrite wrap_u_small by (unfold in_u; lia).
    replace (Z.of_nat (length pre) + Z.of_nat (length (concat (map s_data ts)))) with (Z.of_nat (length (pre ++ concat (map s_data ts)))) by (rewrite length_app; lia).
    apply IH; [done|by injection G|by rewrite <- app_assoc|].
    rewrite (length_moof_trafs _ patched _ (wrap_u 32 (Z.of_nat (length pre) + samples_len ts))). unfold write_boxes. lia.
Qed.
End one_fragment.

(** * Fragmented MP4 over a stream

    The boxes of a stream are processed one after another however the bytes are cut
    ([stream_processed]), and what the muxer wrote comes out of the demuxer. *)

(** ** Boxes one after another *)

Definition demux_state : Type := Fmp4Demuxer * list Fmp4DemuxEvent.

Fixpoint process_all (boxes : list (list byte * list byte)) (d : Fmp4Demuxer) (events : list Fmp4DemuxEvent) :
    result Panicked demux_state :=
  match boxes with
  | [] => Ok (d, events)
  | (ty, content) :: boxes => r <-? process_top_level_box ty content d events ;; process_all boxes (fst r) (snd r)
  end.

(** The pieces of a stream, pushed in order. *)
Fixpoint push_all (pieces : list (list byte)) (d : Fmp4Demuxer) (events : list Fmp4DemuxEvent) : result Panicked demux_state :=
  match pieces with
  | [] => Ok (d, events)
  | x :: pieces => r <-? push x d ;; push_all pieces (fst r) (events ++ snd r)
  end.

(** The buffer plays no part in what a box means. *)
Lemma process_buffer ty content buffer skip d events :
  process_top_level_box ty content (with_buffer buffer skip d) events
  = result_map (fun r => (with_buffer buffer skip (fst r), snd r)) (process_top_level_box ty content d events).
Proof.
  unfold process_top_level_box. cbn [d_init_parsed d_tracks d_pending_moof with_buffer].
  destruct (one_of ty _); [done|]. destruct (is_type ty "moov").
  { by destruct (parse_moov content _). }
  destruct (is_type ty "moof"); [done|]. destruct (is_type ty "mdat"); [|done].
  destruct (d_pending_moof d) as [moof|]; [|done]. by destruct (extract_frames _ _ _ _).
Qed.

Lemma for_each_appends {A} fuel data (f : list byte -> list byte -> list A -> result Panicked (list A)) offset s :
  (forall ty c s, f ty c s = result_map (app s) (f ty c [])) ->
  for_each_loop fuel data f offset s = result_map (app s) (for_each_loop fuel data f offset []).
Proof.
  intros F. revert offset s. assert (N : forall l : list A, l = l ++ []) by (intros; by rewrite app_nil_r).
  induction fuel as [|fuel IH]; intros offset s; cbn [for_each_loop]; [cbn; by rewrite <- N|].
  destruct (length data <? offset + 8)%nat; [cbn; by rewrite <- N|]. destruct (read_box_header (drop offset data)) as [size header].
  destruct ((size <? 8) || (size =? 0)); [cbn; by rewrite <- N|].
  destruct (Z.of_nat (length data) <? wrap_u 64 (Z.of_nat offset + size)); [cbn; by rewrite <- N|].
  destruct (slice_to _ _ data) as [content|]; [|done]. cbn [result_bind]. rewrite F.
  destruct (f (sub_ (offset + 4) 4 data) content []) as [l|]; [|done]. cbn [result_map result_bind].
  rewrite IH, (IH _ l). destruct (for_each_loop fuel data f _ []); [|done]. cbn [result_map]. by rewrite app_assoc.
Qed.

(** Events are only added. *)
Lemma process_appends ty content d events :
  process_top_level_box ty content d events
  = result_map (fun r => (fst r, events ++ snd r)) (process_top_level_box ty content d []).
Proof.
  unfold process_top_level_box. destruct (one_of ty _); [cbn; by rewrite app_nil_r|]. destruct (is_type ty "moov").
  { by destruct (parse_moov content _). }
  destruct (is_type ty "moof"); [cbn; by rewrite app_nil_r|]. destruct (is_type ty "mdat"); [|done].
  destruct (d_pending_moof d) as [moof|]; [|cbn; by rewrite app_nil_r]. unfold extract_frames, for_each_child_box.
  rewrite for_each_appends; [by destruct (for_each_loop _ _ _ _ [])|]. intros t c s. destruct (is_type t "traf"); [|cbn; by rewrite app_nil_r].
  destruct (parse_traf _ _ _ _); [|done]. done.
Qed.

Lemma process_all_appends boxes d events :
  process_all boxes d events = result_map (fun r => (fst r, events ++ snd r)) (process_all boxes d []).
Proof.
  revert d events. induction boxes as [|[ty c] boxes IH]; intros d events; cbn [process_all]; [cbn; by rewrite app_nil_r|].
  rewrite process_appends. destruct (process_top_level_box ty c d []) as [[d' ev]|]; [|done]. cbn [result_map result_bind fst snd].
  rewrite (IH d' (events ++ ev)), (IH d' ev). destruct (process_all boxes d' []) as [[? ?]|]; [|done]. cbn [result_map fst snd]. by rewrite app_assoc.
Qed.

Lemma process_all_app xs ys d events :
  process_all (xs ++ ys) d events = (r <-? process_all xs d events ;; process_all ys (fst r) (snd r)).
Proof.
  revert d events. induction xs as [|[ty c] xs IH]; intros d events; [done|]. cbn [app process_all].
  destruct (process_top_level_box ty c d events) as [[? ?]|]; [apply IH|done].
Qed.

Lemma process_all_buffer boxes buffer skip d events :
  process_all boxes (with_buffer buffer skip d) events
  = result_map (fun r => (with_buffer buffer skip (fst r), snd r)) (process_all boxes d events).
Proof.
  revert d events. induction boxes as [|[ty c] boxes IH]; intros d events; [done|]. cbn [process_all]. rewrite process_buffer.
  destruct (process_top_level_box ty c d events) as [[? ?]|]; [|done]. cbn [result_map result_bind fst snd]. apply IH.
Qed.

Lemma process_max ty content d events r :
  process_top_level_box ty content d events = Ok r -> max_box_bytes (fst r) = max_box_bytes d.
Proof.
  unfold process_top_level_box. intros E. destruct (one_of ty _); [by injection E as <-|]. destruct (is_type ty "moov").
  { destruct (parse_moov content _); [by injection E as <-|done]. }
  destruct (is_type ty "moof"); [by injection E as <-|]. destruct (is_type ty "mdat"); [|by injection E as <-].
  destruct (d_pending_moof d); [|by injection E as <-]. destruct (extract_frames _ _ _ _); [by injection E as <-|done].
Qed.

Lemma process_all_max boxes d events r : process_all boxes d events = Ok r -> max_box_bytes (fst r) = max_box_bytes d.
Proof.
  revert d events. induction boxes as [|[ty c] boxes IH]; intros d events E; cbn [process_all] in E; [by injection E as <-|].
  destruct (process_top_level_box ty c d events) as [[d' ev]|] eqn:P; [|done]. cbn [result_bind fst snd] in E.
  rewrite (IH _ _ E). exact (process_max _ _ _ _ _ P).
Qed.

(** ** The loop over the buffer *)

Definition fits (max : Z) (b : list byte * list byte) : Prop :=
  length (fst b) = 4%nat /\ 8 + Z.of_nat (length (snd b)) <= max.

Lemma fits_ok max b : max < 2 ^ 32 -> fits max b -> box_ok b.
Proof. intros M [T L]. split; [done|lia]. Qed.

(** A part of a box is left where it is. *)
Lemma part_waits max ty content p q fuel d events :
  fits max (ty, content) -> max < 2 ^ 32 -> max_box_bytes d = max -> write_box ty content = p ++ q -> q <> [] -> d_buffer d = p ->
  push_loop fuel d events = Ok (d, events).
Proof.
  intros F M D W Q B. destruct fuel as [|fuel]; [done|]. cbn [push_loop]. rewrite B. destruct (Nat.ltb_spec (length p) 8) as [|L8]; [done|].
  destruct (fits_ok _ _ M F) as [T C]. destruct F as [_ F]. cbn [fst snd] in *.
  assert (L : (length p < 8 + length content)%nat).
  { apply (f_equal length) in W. rewrite length_write_box, length_app in W. destruct q; [done|]. cbn in W. lia. }
  assert (E : be_at p 0 4 = 8 + Z.of_nat (length content)).
  { pose proof (box_size_read ty content T C []) as R. rewrite app_nil_r, W in R. rewrite <- R. unfold be_at, sub_.
    rewrite !drop_0. by rewrite take_app_le by lia. }
  unfold read_box_header. rewrite (proj2 (Nat.ltb_ge _ _)), E by lia. rewrite (proj2 (Z.eqb_neq _ _)) by lia. rewrite (proj2 (Z.eqb_neq _ _)) by lia.
  rewrite (proj2 (Z.eqb_neq _ _)) by lia. rewrite (proj2 (Nat.ltb_ge _ _)) by lia. rewrite (proj2 (Z.ltb_ge _ _)) by lia.
  rewrite D. rewrite (proj2 (Z.ltb_ge _ _)) by lia. by rewrite (proj2 (Z.ltb_lt _ _)) by lia.
Qed.

(** A whole box is processed. *)
Lemma box_processed max ty content rest fuel d events :
  fits max (ty, content) -> max < 2 ^ 32 -> max_box_bytes d = max -> d_buffer d = write_box ty content ++ rest ->
  push_loop (S fuel) d events
  = (r <-? process_top_level_box ty content (with_buffer rest (d_skip_remaining d) d) events ;; push_loop fuel (fst r) (snd r)).
Proof.
  intros F M D B. cbn [push_loop]. rewrite B. destruct (fits_ok _ _ M F) as [T C]. destruct F as [_ F]. cbn [fst snd] in *.
  rewrite read_header_box by done. rewrite length_app, length_write_box. rewrite (proj2 (Nat.ltb_ge _ _)) by lia.
  rewrite (proj2 (Z.eqb_neq _ _)) by lia. rewrite (proj2 (Z.ltb_ge _ _)) by lia.
  rewrite D. rewrite (proj2 (Z.ltb_ge _ _)) by lia. rewrite (proj2 (Z.ltb_ge _ _)) by lia.
  pose proof (box_type_read ty content T C [] rest) as E. cbn [app length Nat.add] in E. rewrite E.
  replace (Z.to_nat (8 + Z.of_nat (length content))) with (length (write_box ty content)) by (rewrite length_write_box; lia).
  rewrite take_app_length, drop_app_length, drop_box by done. reflexivity.
Qed.

Lemma with_buffer_twice b k b' k' d : with_buffer b k (with_buffer b' k' d) = with_buffer b k d.
Proof. done. Qed.

Lemma with_buffer_id d : with_buffer (d_buffer d) (d_skip_remaining d) d = d.
Proof. by destruct d. Qed.

(** Whole boxes are processed, a part of one waits. *)
Lemma loop_processes max boxes later p q fuel d events :
  max < 2 ^ 32 -> Forall (fits max) (boxes ++ later) -> max_box_bytes d = max -> d_buffer d = write_boxes boxes ++ p ->
  match later with [] => p = [] | b :: _ => write_box (fst b) (snd b) = p ++ q /\ q <> [] end -> (length boxes < fuel)%nat ->
  push_loop fuel d events = result_map (fun r => (with_buffer p (d_skip_remaining d) (fst r), snd r)) (process_all boxes d events).
Proof.
  intros M. revert fuel d events. induction boxes as [|[ty c] boxes IH]; intros fuel d events F D B W N.
  - cbn [app write_boxes map concat process_all result_map fst snd] in *. rewrite <- B, with_buffer_id. destruct later as [|[ty c] later].
    + destruct fuel as [|fuel]; [done|]. cbn [push_loop]. by rewrite B, W.
    + destruct W as [W Q]. inversion F; subst. by eapply part_waits.
  - destruct fuel as [|fuel]; [cbn in N; lia|]. cbn [app] in F. inversion F as [|? ? F1 F2]; subst.
    unfold write_boxes in B. cbn [map concat fst snd] in B. rewrite <- app_assoc in B.
    rewrite (box_processed (max_box_bytes d) ty c (write_boxes boxes ++ p)) by done. rewrite process_buffer. cbn [process_all].
    destruct (process_top_level_box ty c d events) as [[d' ev]|] eqn:P; [|done]. cbn [result_map result_bind fst snd].
    apply process_max in P. cbn [fst] in P. rewrite IH; [|done|done|done|done|cbn in N; lia].
    rewrite process_all_buffer. destruct (process_all boxes d' ev) as [[? ?]|]; done.
Qed.

(** However a stream of boxes is cut, the boxes are processed in order. *)
Theorem stream_processed max boxes pieces d :
  max < 2 ^ 32 -> Forall (fits max) boxes -> max_box_bytes d = max -> d_skip_remaining d = 0 -> d_buffer d = [] ->
  concat pieces = write_boxes boxes ->
  push_all pieces d [] = result_map (fun r => (with_buffer [] 0 (fst r), snd r)) (process_all boxes d []).
Proof.
  intros M F D K B C.
  assert (G : forall pieces boxes p d events, Forall (fits max) boxes -> max_box_bytes d = max -> d_skip_remaining d = 0 -> d_buffer d = p ->
     p ++ concat pieces = write_boxes boxes -> (exists q, match boxes with [] => p = [] | b :: _ => write_box (fst b) (snd b) = p ++ q /\ q <> [] end) ->
     push_all pieces d events = result_map (fun r => (with_buffer [] 0 (fst r), events ++ snd r)) (process_all boxes d [])); last first.
  { rewrite (G pieces boxes []) by (done || (destruct boxes as [|[ty c] ?]; [by exists []|exists (write_box ty c); split; [done|]; intros E;
      apply (f_equal length) in E; rewrite length_write_box in E; cbn in E; lia])).
    by destruct (process_all boxes d []) as [[? ?]|]. }
  clear boxes pieces d F D K B C. intros pieces. induction pieces as [|x pieces IH]; intros boxes p d events F D K B C W.
  - cbn [concat push_all] in *. rewrite app_nil_r in C. destruct W as [q W]. destruct boxes as [|[ty c] boxes].
    + subst p. cbn [process_all result_map fst snd]. rewrite app_nil_r, <- W, <- K. by rewrite with_buffer_id.
    + destruct W as [W Q]. apply (f_equal length) in C. unfold write_boxes in C. cbn [map concat fst snd] in *. rewrite W, !length_app in C.
      destruct q; [done|cbn in C; lia].
  - cbn [concat push_all] in *. rewrite app_assoc in C.
    destruct (stream_split (map (fun b => (write_box (fst b) (snd b), [b])) boxes) (p ++ x) (concat pieces)) as (fs1 & fs2 & p' & E1 & E2 & E3 & W').
    { rewrite map_map. cbn [fst]. exact C. }
    apply map_eq_app in E1 as (b1 & b2 & -> & <- & <-). rewrite !map_map in *. cbn [fst] in *. fold (write_boxes b1) in E2. fold (write_boxes b2) in E3.
    assert (WX : exists q, match b2 with [] => p' = [] | b :: _ => write_box (fst b) (snd b) = p' ++ q /\ q <> [] end).
    { destruct b2 as [|[ty c] b2]; cbn [map waits fst snd] in W'; [by exists []|]. destruct W' as (q & ? & ?). by exists q. }
    destruct WX as [q WX]. unfold push. rewrite K, B, E2. rewrite Z.min_l by lia.
    change (0 - Z.of_nat (Z.to_nat 0)) with 0. change (0 <? 0) with false. change (Z.to_nat 0) with 0%nat. rewrite drop_0. cbv iota.
    set (d0 := with_buffer (write_boxes b1 ++ p') 0 d). assert (B0 : d_buffer d0 = write_boxes b1 ++ p') by done.
    rewrite (loop_processes max b1 b2 p' q) by (done || (rewrite B0, length_app;
      pose proof (boxes_length b1 ltac:(apply Forall_app in F as [F _]; eapply Forall_impl; [exact F|]; intros ?; by apply fits_ok)); lia)).
    unfold d0. rewrite process_all_buffer, process_all_app.
    destruct (process_all b1 d []) as [[d' ev]|] eqn:P; [|done]. cbn [result_map result_bind fst snd]. rewrite !with_buffer_twice. cbn [d_skip_remaining with_buffer].
    rewrite (IH b2 p'); [|by apply Forall_app in F as [_ F]|by rewrite <- D; apply (process_all_max b1 d [] (d', ev))|done|done|done|by exists q].
    rewrite process_all_buffer, (process_all_appends b2 d' ev). destruct (process_all b2 d' []) as [[? ?]|]; [|done]. cbn [result_map fst snd]. by rewrite with_buffer_twice, app_assoc.
Qed.

(** ** The loop ends *)

(** Every turn takes eight bytes at least, so the fuel of [push] is enough. *)
Lemma push_fuel fuel fuel' d events :
  (length (d_buffer d) < fuel)%nat -> (length (d_buffer d) < fuel')%nat -> push_loop fuel d events = push_loop fuel' d events.
Proof.
  revert fuel' d events. induction fuel as [|fuel IH]; intros [|fuel'] d events L L'; [lia..|]. cbn [push_loop].
  destruct (Nat.ltb_spec (length (d_buffer d)) 8) as [|B]; [done|].
  pose proof (header_at_least_8 (d_buffer d)) as H. destruct (read_box_header (d_buffer d)) as [size header]. cbn [fst snd] in H.
  destruct (Z.eqb_spec size 0); [done|]. destruct (length (d_buffer d) <? header)%nat; [done|]. assert (8 <= header)%nat by lia.
  destruct (Z.ltb_spec size (Z.of_nat header)).
  { apply IH; cbn [d_buffer with_buffer]; rewrite length_drop; lia. }
  destruct (max_box_bytes d <? size).
  { destruct (Z.leb_spec size (Z.of_nat (length (d_buffer d)))); apply IH; cbn [d_buffer with_buffer length]; rewrite ?length_drop; lia. }
  destruct (Z.of_nat (length (d_buffer d)) <? size); [done|]. rewrite process_buffer.
  destruct (process_top_level_box _ _ d events) as [[d' ev]|]; [|done]. cbn [result_map result_bind fst snd].
  apply IH; cbn [d_buffer with_buffer]; rewrite length_drop; lia.
Qed.

(** A box with a size of 64 bits that is smaller than its header is reported at the top level;
    inside [moov] it takes the task down. *)
Example small_box_reported :
  result_map snd (push (be_bytes 4 1 ++ txt "free" ++ be_bytes 8 8) (demuxer_new DEFAULT_MAX_BOX_BYTES))
  = Ok [Diagnostic (MalformedBox (txt "free") 8 16)].
Proof. vm_compute. reflexivity. Qed.

Example small_box_inside_panics :
  push (write_box (txt "moov") (be_bytes 4 1 ++ txt "trak" ++ be_bytes 8 8)) (demuxer_new DEFAULT_MAX_BOX_BYTES) = Err SliceOutOfRange.
Proof. vm_compute. reflexivity. Qed.

(** A track header of version 1 has times of 64 bits: half of one is taken for the id. *)
Example version_1_header_misread :
  parse_trak (write_boxes [(txt "tkhd", [x01; x00; x00; x07] ++ be_bytes 8 0 ++ be_bytes 8 99 ++ be_bytes 4 1 ++ zeros 68);
                           (txt "mdia", write_boxes [(txt "hdlr", zeros 8 ++ txt "vide" ++ zeros 13)])])
  = Ok (Some (mk_demux_track 0 UnknownCodec Video 90000 [])).
Proof. vm_compute. reflexivity. Qed.

(** A box that says it goes on to the end stops everything behind it. *)
Example endless_box_blocks :
  result_map snd (push_all [be_bytes 4 0 ++ txt "free"; write_ftyp; write_box (txt "moov") []] (demuxer_new DEFAULT_MAX_BOX_BYTES) []) = Ok [].
Proof. vm_compute. reflexivity. Qed.

(** * Fragmented MP4: what is muxed comes out *)

(** ** Fragments as boxes *)

Definition mdat_content (groups : list (list Fmp4MuxSample)) : list byte := concat (map s_data (concat groups)).

(** Both boxes of a fragment stay below the limit of the demuxer. *)
Definition fragment_fits (max : Z) (tracks : list MuxTrack) (samples : list Fmp4MuxSample) : Prop :=
  let groups := group_samples tracks samples in
  Z.of_nat (length (write_moof 0 (write_trafs (fun _ => 0) 0 tracks groups))) <= max
  /\ Z.of_nat (length (write_mdat groups)) <= max.

Lemma length_write_trafs f o tracks groups : length (write_trafs f o tracks groups) = length (write_boxes (moof_trafs f o tracks groups)).
Proof.
  revert o groups. induction tracks as [|t tracks IH]; intros o [|ts groups]; [done..|]. cbn [write_trafs moof_trafs].
  destruct (is_empty ts); [apply IH|]. unfold write_boxes in *. cbn [map concat fst snd]. rewrite !length_app, IH, length_write_box. f_equal.
  pose proof (length_traf_boxes t ts (f o)) as E. unfold write_boxes in E. rewrite E.
  unfold write_traf. rewrite length_write_box, !length_app. unfold write_trun, trun_content, trun_words, is_video.
  destruct (bool_decide (mt_media_kind t = Video)); rewrite !length_app, !length_be_words, !length_be_bytes, !length_full_box_header, !length_txt; cbn [length String.length]; lia.
Qed.

Section fragment.
Context (all : list MuxTrack) (samples : list Fmp4MuxSample) (seq max : Z).
Context (D : distinct all) (A : Forall track_ok all) (M : max < 2 ^ 30) (F : fragment_fits max all samples).

Abbreviation groups := (group_samples all samples).

Definition moof_length : nat := length (write_boxes (moof_boxes (fun _ => 0) all groups 0)).

Lemma length_moof_boxes f s : length (write_boxes (moof_boxes f all groups s)) = moof_length.
Proof using Type.
  unfold moof_length, moof_boxes, write_boxes. cbn [map concat fst snd]. rewrite !length_app, !length_write_box, !length_app, !length_be_bytes.
  f_equal. apply length_moof_trafs.
Qed.

Lemma moof_content_length f s : length (write_moof s (write_trafs f 0 all groups)) = (8 + moof_length)%nat.
Proof using Type.
  unfold write_moof. rewrite length_write_box, length_app, length_write_trafs. rewrite <- (length_moof_boxes f s).
  unfold moof_boxes, write_boxes. cbn [map concat fst snd]. rewrite !length_app, length_write_box, !length_app, !length_be_bytes, length_full_box_header, !length_txt.
  cbn [String.length length zeros replicate]. lia.
Qed.

Lemma moof_boxes_four f s : Forall four (moof_boxes f all groups s).
Proof using Type.
  unfold moof_boxes. constructor; [done|]. generalize 0 as o, groups as gs. clear.
  induction all as [|t tracks IH]; intros o [|g gs]; [constructor..|]. cbn [moof_trafs]. destruct (is_empty g); [apply IH|]. constructor; [done|apply IH].
Qed.

Lemma length_trafs f : (length (write_boxes (moof_trafs f 0 all groups)) <= moof_length)%nat.
Proof using Type.
  rewrite <- (length_moof_boxes f 0). unfold moof_boxes, write_boxes. cbn [map concat fst snd]. rewrite length_app. lia.
Qed.

Lemma moof_fits : 8 + Z.of_nat moof_length <= max.
Proof using F. destruct F as [F1 _]. rewrite moof_content_length in F1. lia. Qed.

Lemma mdat_fits : 8 + Z.of_nat (length (mdat_content groups)) <= max.
Proof using F. destruct F as [_ F2]. unfold write_mdat in F2. rewrite length_write_box in F2. unfold mdat_content. change (length (txt "mdat")) with 4%nat in F2. lia. Qed.

Definition part_boxes : list (list byte * list byte) :=
  [(txt "moof", write_boxes (moof_boxes (patched moof_length) all groups seq)); (txt "mdat", mdat_content groups)].

Lemma moof_mdat_is_boxes : write_moof_mdat all samples seq = write_boxes part_boxes.
Proof using F M.
  pose proof moof_fits. unfold write_moof_mdat, moof_size. rewrite moof_content_length.
  rewrite (wrap_u_small 32 (Z.of_nat (8 + moof_length))) by (unfold in_u; lia).
  replace (Z.of_nat (8 + moof_length)) with (Z.of_nat (moof_length + 8)) by lia. fold (patched moof_length).
  change (fun offset : Z => wrap_i 32 (wrap_u 32 (Z.of_nat (moof_length + 8) + 8 + offset))) with (patched moof_length).
  rewrite moof_is_boxes by (rewrite length_moof_boxes; lia).
  unfold part_boxes, write_boxes. cbn [map concat fst snd]. by rewrite app_nil_r.
Qed.

Lemma part_boxes_fit : Forall (fits max) part_boxes.
Proof using F. constructor; [|constructor; [|done]]; split; cbn [fst snd]; [done|rewrite length_moof_boxes; apply moof_fits|done|apply mdat_fits]. Qed.

Lemma extract_read events :
  extract_frames (map read_track all) (write_boxes (moof_boxes (patched moof_length) all groups seq)) (mdat_content groups) events
  = Ok (events ++ map FrameEvent (fragment_frames all samples)).
Proof using D A M F.
  pose proof moof_fits as L1. pose proof mdat_fits as L2. unfold extract_frames. rewrite length_moof_boxes.
  rewrite visit_boxes; [|apply moof_boxes_four|rewrite length_moof_boxes; lia].
  unfold moof_boxes. cbn [visit]. known_types. cbn [result_bind].
  pose proof (trafs_read all moof_length (mdat_content groups) D A ltac:(lia) all groups [] [] events) as R.
  change (Z.of_nat (length [])) with 0 in R. unfold traf_step in R. rewrite R; [|done|rewrite groups_are by done; apply length_map|by rewrite app_nil_r|].
  - do 2 f_equal. unfold fragment_frames. rewrite groups_are by done. clear. induction all as [|t tracks IH]; [done|].
    cbn [map zip_with concat]. by rewrite map_app, IH.
  - pose proof (length_trafs (patched moof_length)). lia.
Qed.

(** A fragment gives its frames and leaves the demuxer as it was. *)
Lemma part_processed d :
  d_tracks d = map read_track all -> d_pending_moof d = None ->
  process_all part_boxes d [] = Ok (d, map FrameEvent (fragment_frames all samples)).
Proof using D A M F.
  intros T P. unfold part_boxes. cbn [process_all]. unfold process_top_level_box. known_types. cbn [result_bind fst snd d_pending_moof d_tracks].
  rewrite T, extract_read. cbn [result_bind app fst snd]. do 2 f_equal. destruct d. cbn in *. by subst.
Qed.
End fragment.

(** ** Whole streams *)

(** What is asked of the muxer after the initialization segment. *)
Inductive Fmp4Op : Set := Segment (samples : list Fmp4MuxSample) | Part (samples : list Fmp4MuxSample).

Definition op_samples (op : Fmp4Op) : list Fmp4MuxSample := match op with Segment s | Part s => s end.
Definition mux_op (op : Fmp4Op) (m : Fmp4Muxer) : Fmp4Muxer * list Fmp4MuxEvent :=
  match op with Segment s => write_segment s m | Part s => write_part s m end.

Fixpoint mux_ops (ops : list Fmp4Op) (m : Fmp4Muxer) : list Fmp4MuxEvent :=
  match ops with [] => [] | op :: ops => let '(m, events) := mux_op op m in events ++ mux_ops ops m end.

Definition event_data (e : Fmp4MuxEvent) : list byte := match e with InitSegment data | MediaSegment data _ => data end.

Definition mux_stream (config : Fmp4MuxerConfig) (tracks : list (TrackInfo * VideoShape)) (ops : list Fmp4Op) : list byte :=
  let '(m, events) := init_segment (muxer_new config tracks) in
  concat (map event_data (events ++ mux_ops ops m)).

Definition index_boxes (op : Fmp4Op) (m : Fmp4Muxer) : list (list byte * list byte) :=
  match op with
  | Segment samples =>
      (if include_styp (m_config m) then [(txt "styp", drop 8 write_styp)] else [])
        ++ (if include_sidx (m_config m) then
              let fragment := write_moof_mdat (m_tracks m) samples (m_sequence_number m) in
              [(txt "sidx", drop 8 (write_sidx (m_tracks m) samples (wrap_u 32 (Z.of_nat (length fragment)))
                                     (compute_fragment_duration samples (m_tracks m))))]
            else [])
  | Part _ => []
  end.

Fixpoint ops_boxes (ops : list Fmp4Op) (m : Fmp4Muxer) : list (list byte * list byte) :=
  match ops with
  | [] => []
  | op :: ops =>
      if is_empty (op_samples op) then ops_boxes ops m
      else
        let m := next_sequence m in
        index_boxes op m ++ part_boxes (m_tracks m) (op_samples op) (m_sequence_number m) ++ ops_boxes ops m
  end.

Lemma write_boxes_app xs ys : write_boxes (xs ++ ys) = write_boxes xs ++ write_boxes ys.
Proof. unfold write_boxes. by rewrite map_app, concat_app. Qed.

Lemma sidx_is_box tracks samples size duration :
  write_sidx tracks samples size duration = write_box (txt "sidx") (drop 8 (write_sidx tracks samples size duration)).
Proof. unfold write_sidx. by apply full_box_is_box. Qed.

Lemma index_data s m :
  write_boxes (index_boxes (Segment s) m)
  = (if include_styp (m_config m) then write_styp else [])
      ++ (if include_sidx (m_config m) then
            write_sidx (m_tracks m) s (wrap_u 32 (Z.of_nat (length (write_moof_mdat (m_tracks m) s (m_sequence_number m)))))
              (compute_fragment_duration s (m_tracks m))
          else []).
Proof.
  cbn [index_boxes]. rewrite write_boxes_app. f_equal; [by destruct (include_styp _)|]. destruct (include_sidx _); [|done].
  unfold write_boxes. cbn [map concat fst snd]. rewrite <- sidx_is_box. apply app_nil_r.
Qed.

Lemma ops_data max ops m :
  max < 2 ^ 30 -> Forall (fun op => fragment_fits max (m_tracks m) (op_samples op)) ops ->
  concat (map event_data (mux_ops ops m)) = write_boxes (ops_boxes ops m).
Proof.
  intros M F. revert m F. induction ops as [|op ops IH]; intros m F; [done|]. inversion F as [|? ? F1 F2]; subst.
  cbn [mux_ops ops_boxes]. destruct op as [s|s]; cbn [mux_op op_samples] in *; unfold write_segment, write_part; (destruct (is_empty s); [by apply IH|]).
  all: rewrite map_app, concat_app, IH by done; cbn [map concat event_data]; rewrite !write_boxes_app, <- (moof_mdat_is_boxes _ _ _ max) by done.
  - by rewrite index_data, app_nil_r, <- !app_assoc.
  - by rewrite app_nil_r.
Qed.

(** The frames of a stream: those of every operation. *)
Definition stream_frames (tracks : list MuxTrack) (ops : list Fmp4Op) : list Fmp4Frame :=
  concat (map (fun op => fragment_frames tracks (op_samples op)) ops).

Lemma no_frames tracks : fragment_frames tracks [] = [].
Proof. unfold fragment_frames. induction tracks as [|t tracks IH]; [done|]. cbn [map concat]. by rewrite IH. Qed.

Lemma index_skipped op m d : process_all (index_boxes op m) d [] = Ok (d, []).
Proof. destruct op as [s|s]; [|done]. cbn [index_boxes]. destruct (include_styp _), (include_sidx _); cbn [app process_all]; reflexivity. Qed.

Lemma index_fits max op m : 64 <= max -> Forall (fits max) (index_boxes op m).
Proof.
  intros M. destruct op as [s|s]; [|constructor]. cbn [index_boxes]. apply Forall_app. split.
  - destruct (include_styp _); [|constructor]. constructor; [|done]. split; [done|]. cbn [fst snd]. change (length (drop 8 write_styp)) with 16%nat. lia.
  - destruct (include_sidx _); [|constructor]. constructor; [|done]. split; [done|]. cbn [snd fst]. rewrite length_drop.
    unfold write_sidx. rewrite !length_app, !length_be_bytes, length_full_box_header, length_txt, !length_be_words. cbn [length String.length]. lia.
Qed.

Lemma ops_fit max ops m :
  64 <= max -> Forall (fun op => fragment_fits max (m_tracks m) (op_samples op)) ops -> Forall (fits max) (ops_boxes ops m).
Proof.
  intros M F. revert m F. induction ops as [|op ops IH]; intros m F; [constructor|]. inversion F as [|? ? F1 F2]; subst. cbn [ops_boxes].
  destruct (is_empty (op_samples op)); [by apply IH|]. apply Forall_app. split; [by apply index_fits|].
  apply Forall_app. split; [by apply part_boxes_fit|by apply IH].
Qed.

Lemma ops_processed max ops m d :
  max < 2 ^ 30 -> distinct (m_tracks m) -> Forall track_ok (m_tracks m) ->
  Forall (fun op => fragment_fits max (m_tracks m) (op_samples op)) ops ->
  d_tracks d = map read_track (m_tracks m) -> d_pending_moof d = None ->
  process_all (ops_boxes ops m) d [] = Ok (d, map FrameEvent (stream_frames (m_tracks m) ops)).
Proof.
  intros M D A F T P. revert m D A F T. induction ops as [|op ops IH]; intros m D A F T; [done|]. inversion F as [|? ? F1 F2]; subst.
  cbn [ops_boxes]. unfold stream_frames in *. cbn [map concat]. destruct (is_empty (op_samples op)) eqn:E.
  - destruct (op_samples op); [|done]. rewrite no_frames. by apply IH.
  - rewrite process_all_app, index_skipped. cbn [result_bind fst snd].
    rewrite process_all_app, (part_processed _ _ _ max) by done. cbn [result_bind fst snd].
    rewrite process_all_appends. rewrite IH by done. cbn [result_map fst snd m_tracks next_sequence]. by rewrite map_app.
Qed.

(** Whatever the muxer of a set of tracks is asked to write, the demuxer gives the tracks and
    every sample in order, however the bytes are cut. *)
Lemma stream_demuxed config tracks ops max pieces :
  let all := map from_track_info tracks in
  distinct all -> Forall track_ok all -> max < 2 ^ 30 ->
  Z.of_nat (length (write_moov all)) <= max -> Forall (fun op => fragment_fits max all (op_samples op)) ops ->
  concat pieces = mux_stream config tracks ops ->
  exists d, push_all pieces (demuxer_new max) []
            = Ok (d, TrackInfoEvent (map read_track all) :: map FrameEvent (stream_frames all ops))
            /\ d_tracks d = map read_track all /\ d_skip_remaining d = 0 /\ d_buffer d = [].
Proof.
  cbv zeta. set (all := map from_track_info tracks). intros D A M V F C. unfold mux_stream, init_segment, muxer_new in C. cbn [m_init_segment m_tracks] in C.
  fold all in C. cbn [app map concat event_data] in C. set (m1 := mk_muxer _ _ _ _) in C. rewrite (ops_data max) in C by done.
  assert (L : 8 + Z.of_nat (length (write_boxes (moov_boxes all))) <= max).
  { rewrite moov_is_boxes, length_write_box in V. change (length (txt "moov")) with 4%nat in V. lia. }
  assert (S64 : 64 <= max). { unfold moov_boxes, write_boxes in L. cbn [map concat fst snd] in L. rewrite length_app, length_write_box in L.
    change (length (drop 8 (write_mvhd (wrap_u 32 (Z.of_nat (length all)))))) with 100%nat in L. lia. }
  set (boxes := [(txt "ftyp", drop 8 write_ftyp); (txt "moov", write_boxes (moov_boxes all))] ++ ops_boxes ops m1).
  assert (B : concat pieces = write_boxes boxes).
  { rewrite C. unfold boxes. rewrite write_boxes_app. f_equal. rewrite moov_is_boxes. unfold write_boxes at 2. cbn [map concat fst snd]. by rewrite app_nil_r. }
  rewrite (stream_processed max boxes); [|lia| |done..|done].
  - unfold boxes. cbn [app process_all]. unfold process_top_level_box at 1. known_types. cbn [result_bind fst snd].
    unfold process_top_level_box at 1. known_types. cbn [d_init_parsed d_tracks demuxer_new]. rewrite moov_read by (done || lia).
    cbn [result_bind fst snd app]. rewrite process_all_appends. rewrite (ops_processed max ops m1) by done. cbn [result_map fst snd app].
    eexists. split; [reflexivity|]. done.
  - unfold boxes. apply Forall_app. split; [|by apply ops_fit]. constructor; [split; [done|change (8 + Z.of_nat 28 <= max); lia]|]. constructor; [by split|done].
Qed.

(** ** Times *)

(** Ticks are the microseconds at the rate of the track, rounded down. *)
Lemma ticks_of_us us timescale :
  0 <= us < 2 ^ 50 -> 0 < timescale < 2 ^ 32 -> us_to_timescale us timescale = us * timescale / 1000000 /\ us * timescale / 1000000 < 2 ^ 63.
Proof.
  intros U T. unfold us_to_timescale. rewrite Z.quot_div_nonneg, Z.rem_mod_nonneg by lia.
  pose proof (Z.div_mod us 1000000 ltac:(lia)) as E. pose proof (Z.mod_pos_bound us 1000000 ltac:(lia)) as R.
  pose proof (Z.div_pos us 1000000 ltac:(lia) ltac:(lia)) as Q.
  set (q := us / 1000000) in *. set (r := us mod 1000000) in *.
  assert (q < 2 ^ 31) by (subst q; apply Z.div_lt_upper_bound; lia).
  rewrite (wrap_i_small 64 (q * timescale)) by (unfold in_i; nia). rewrite (wrap_i_small 64 (r * timescale)) by (unfold in_i; nia).
  rewrite Z.quot_div_nonneg by nia.
  assert (D : us * timescale / 1000000 = q * timescale + r * timescale / 1000000).
  { rewrite E. replace ((1000000 * q + r) * timescale) with (r * timescale + q * timescale * 1000000) by ring. rewrite Z.div_add by lia. lia. }
  assert (0 <= r * timescale / 1000000 < 2 ^ 32) by (split; [apply Z.div_pos; nia|apply Z.div_lt_upper_bound; nia]).
  rewrite D. split; [apply wrap_i_small; [lia|unfold in_i; nia]|nia].
Qed.

Lemma us_of_ticks t timescale :
  0 <= t < 2 ^ 63 -> 0 < timescale < 2 ^ 32 -> t * 1000000 < 2 ^ 51 * timescale -> timescale_to_us t timescale = t * 1000000 / timescale.
Proof.
  intros T S B. unfold timescale_to_us. rewrite (proj2 (Z.eqb_neq _ _)) by lia. rewrite (wrap_i_small 64 t) by (unfold in_i; lia).
  rewrite (Z.quot_div_nonneg t), (Z.rem_mod_nonneg t) by lia.
  pose proof (Z.div_mod t timescale ltac:(lia)) as E. pose proof (Z.mod_pos_bound t timescale ltac:(lia)) as R.
  pose proof (Z.div_pos t timescale ltac:(lia) ltac:(lia)) as Q.
  set (q := t / timescale) in *. set (r := t mod timescale) in *.
  assert (q * 1000000 < 2 ^ 51) by (apply (Z.mul_lt_mono_pos_r timescale); nia).
  rewrite (wrap_i_small 64 (q * 1000000)) by (unfold in_i; lia). rewrite (wrap_i_small 64 (r * 1000000)) by (unfold in_i; lia).
  rewrite Z.quot_div_nonneg by lia.
  assert (D : t * 1000000 / timescale = q * 1000000 + r * 1000000 / timescale).
  { rewrite E. replace ((timescale * q + r) * 1000000) with (r * 1000000 + q * 1000000 * timescale) by ring. rewrite Z.div_add by lia. lia. }
  assert (0 <= r * 1000000 / timescale < 2 ^ 20) by (split; [apply Z.div_pos; lia|apply Z.div_lt_upper_bound; lia]).
  rewrite D. apply wrap_i_small; [lia|]. unfold in_i. lia.
Qed.

(** A whole number of ticks comes back, on both sides of zero. *)
Lemma whole_ticks us timescale w :
  - 2 ^ 50 < us < 2 ^ 50 -> 0 < timescale < 2 ^ 32 -> us * timescale = w * 1000000 -> us_to_timescale us timescale = w.
Proof.
  intros U T W. unfold us_to_timescale. pose proof (Z.quot_rem us 1000000 ltac:(lia)) as E.
  pose proof (Z.rem_bound_abs us 1000000 ltac:(lia)) as R. set (q := Z.quot us 1000000) in *. set (r := Z.rem us 1000000) in *.
  assert (Q : - 2 ^ 31 < q < 2 ^ 31) by lia.
  rewrite (wrap_i_small 64 (q * timescale)) by (unfold in_i; nia). rewrite (wrap_i_small 64 (r * timescale)) by (unfold in_i; nia).
  replace (r * timescale) with ((w - q * timescale) * 1000000) by nia. rewrite Z.quot_mul by lia.
  replace (q * timescale + (w - q * timescale)) with w by lia. apply wrap_i_small; [lia|]. unfold in_i. nia.
Qed.

Lemma whole_us us timescale w :
  0 <= us < 2 ^ 50 -> 0 < timescale < 2 ^ 32 -> us * timescale = w * 1000000 -> timescale_to_us w timescale = us.
Proof.
  intros U T W. rewrite us_of_ticks by nia. rewrite <- W. apply Z.div_mul. lia.
Qed.

(** Samples in decoding order, not further apart than a duration can say. *)
Fixpoint paced (timescale : Z) (ts : list Fmp4MuxSample) : Prop :=
  match ts with
  | [] => True
  | s :: ts =>
      0 <= s_dts_us s < 2 ^ 50
      /\ match ts with n :: _ => s_dts_us s <= s_dts_us n /\ (s_dts_us n - s_dts_us s) * timescale < 2 ^ 32 * 1000000 | [] => True end
      /\ paced timescale ts
  end.

(** The duration written for a sample that is not the last. *)
Lemma duration_ticks timescale last prev s n :
  0 <= s_dts_us s -> s_dts_us n < 2 ^ 50 -> s_dts_us s <= s_dts_us n -> (s_dts_us n - s_dts_us s) * timescale < 2 ^ 32 * 1000000 ->
  0 < timescale < 2 ^ 32 ->
  sample_duration timescale last prev s (Some n) = (s_dts_us n - s_dts_us s) * timescale / 1000000
  /\ 0 <= (s_dts_us n - s_dts_us s) * timescale / 1000000 < 2 ^ 32.
Proof.
  intros A B C D T. unfold sample_duration, sample_duration_us.
  rewrite (wrap_i_small 64 (s_dts_us n - s_dts_us s)) by (unfold in_i; lia).
  destruct (ticks_of_us (s_dts_us n - s_dts_us s) timescale ltac:(lia) T) as [-> L].
  assert (0 <= (s_dts_us n - s_dts_us s) * timescale / 1000000 < 2 ^ 32).
  { split; [apply Z.div_pos; nia|apply Z.div_lt_upper_bound; lia]. }
  split; [|done]. by apply wrap_u_small.
Qed.

(** The clock of the demuxer is behind by less than a tick for each sample. *)
Lemma timed_late t prev ts cur j k s c :
  0 < mt_timescale t < 2 ^ 32 -> paced (mt_timescale t) ts -> 0 <= cur -> 0 <= j ->
  match ts with s :: _ => cur * 1000000 <= s_dts_us s * mt_timescale t < (cur + j + 1) * 1000000 | [] => True end ->
  timed t prev ts cur !! k = Some (s, c) ->
  ts !! k = Some s /\ 0 <= s_dts_us s < 2 ^ 50 /\ 0 <= c
  /\ c * 1000000 <= s_dts_us s * mt_timescale t < (c + j + Z.of_nat k + 1) * 1000000.
Proof.
  intros T. revert prev cur j k. induction ts as [|x ts IH]; intros prev cur j k P C J I Ef; [done|]. cbn [paced timed] in *.
  destruct P as (R & N & P). destruct k as [|k]; cbn [lookup list_lookup] in *; [injection Ef as <- <-; repeat split; lia|].
  destruct ts as [|n ts]; [done|]. destruct N as [N1 N2]. destruct P as (Rn & P').
  destruct (duration_ticks (mt_timescale t) (default_duration t) prev x n) as [E B]; [lia..|done|].
  cbn [head] in Ef. rewrite E in Ef. pose proof (Z.div_mod ((s_dts_us n - s_dts_us x) * mt_timescale t) 1000000 ltac:(lia)) as Dm.
  pose proof (Z.mod_pos_bound ((s_dts_us n - s_dts_us x) * mt_timescale t) 1000000 ltac:(lia)) as Db.
  set (dur := (s_dts_us n - s_dts_us x) * mt_timescale t / 1000000) in *.
  assert (Lc : cur < 2 ^ 63) by nia. rewrite wrap_u_small in Ef by (unfold in_u; lia).
  destruct (IH (Some x) (cur + dur) (j + 1) k) as (L1 & L2 & L3 & L4); [by split|lia|lia|nia|done|]. repeat split; [done|lia..].
Qed.

(** A frame is never early, and late by no more than a tick for every sample up to it and a
    microsecond. *)
Theorem times_late t ts k f s :
  0 < mt_timescale t < 2 ^ 32 -> paced (mt_timescale t) ts ->
  played t None ts (base_dts t ts) !! k = Some f -> ts !! k = Some s ->
  fr_dts_us f <= s_dts_us s /\ (s_dts_us s - fr_dts_us f) * mt_timescale t < (Z.of_nat k + 1) * 1000000 + mt_timescale t.
Proof.
  intros T P Ef Es. unfold played in Ef. rewrite list_lookup_fmap in Ef. apply fmap_Some in Ef as ([s' c] & Ec & ->).
  destruct (timed_late t None ts (base_dts t ts) 0 k s' c T P) as (E & R & C & B); [apply base_dts_range|lia| |done|].
  { destruct ts as [|x ts]; [done|]. cbn [paced base_dts] in *. destruct P as (R & _ & _).
    destruct (ticks_of_us (s_dts_us x) (mt_timescale t) R T) as [-> L].
    pose proof (Z.div_mod (s_dts_us x * mt_timescale t) 1000000 ltac:(lia)). pose proof (Z.mod_pos_bound (s_dts_us x * mt_timescale t) 1000000 ltac:(lia)).
    pose proof (Z.div_pos (s_dts_us x * mt_timescale t) 1000000 ltac:(nia) ltac:(lia)). lia. }
  rewrite Es in E. injection E as <-. cbn [frame_at fr_dts_us]. rewrite us_of_ticks by nia.
  pose proof (Z.div_mod (c * 1000000) (mt_timescale t) ltac:(lia)) as E. pose proof (Z.mod_pos_bound (c * 1000000) (mt_timescale t) ltac:(lia)) as Bm.
  set (q := c * 1000000 / mt_timescale t) in *. split; nia.
Qed.

(** Times that are whole ticks, and composition offsets that fit. *)
Definition on_ticks (timescale : Z) (s : Fmp4MuxSample) : Prop :=
  (1000000 | s_dts_us s * timescale) /\ (1000000 | (s_pts_us s - s_dts_us s) * timescale)
  /\ 0 <= s_pts_us s < 2 ^ 50 /\ - (2 ^ 31 * 1000000) <= (s_pts_us s - s_dts_us s) * timescale < 2 ^ 31 * 1000000.

(** The clock of the demuxer is right. *)
Definition exact_at (t : MuxTrack) (x : Fmp4MuxSample * Z) : Prop :=
  let '(s, c) := x in on_ticks (mt_timescale t) s /\ 0 <= s_dts_us s < 2 ^ 50 /\ c * 1000000 = s_dts_us s * mt_timescale t.

Lemma timed_exact t prev ts cur :
  0 < mt_timescale t < 2 ^ 32 -> paced (mt_timescale t) ts -> Forall (on_ticks (mt_timescale t)) ts ->
  match ts with s :: _ => cur * 1000000 = s_dts_us s * mt_timescale t | [] => True end ->
  map fst (timed t prev ts cur) = ts /\ Forall (exact_at t) (timed t prev ts cur).
Proof.
  intros T P F. revert prev cur P. induction F as [|x ts X F IH]; intros prev cur P I; [by split|].
  cbn [paced timed map fst] in *. destruct P as (R & N & P). destruct ts as [|n ts]; [split; [done|]; constructor; [by split|constructor]|].
  destruct N as [N1 N2]. destruct P as (Rn & P').
  destruct (duration_ticks (mt_timescale t) (default_duration t) prev x n) as [E B]; [lia..|done|]. cbn [head].
  inversion F as [|? ? (Nd & _) _]; subst. destruct Nd as [wn Nd]. pose proof X as ([wx Xd] & _).
  assert (Dv : (s_dts_us n - s_dts_us x) * mt_timescale t / 1000000 = wn - wx).
  { replace ((s_dts_us n - s_dts_us x) * mt_timescale t) with ((wn - wx) * 1000000) by lia. apply Z.div_mul. lia. }
  rewrite E, Dv. rewrite Dv in B. rewrite wrap_u_small by (unfold in_u; nia).
  destruct (IH (Some x) (cur + (wn - wx))) as [I1 I2]; [by split|lia|]. cbn [timed] in *. split; [by f_equal|constructor; [by split|done]].
Qed.

Lemma base_exact t ts :
  0 < mt_timescale t < 2 ^ 32 -> paced (mt_timescale t) ts -> Forall (on_ticks (mt_timescale t)) ts ->
  map fst (timed t None ts (base_dts t ts)) = ts /\ Forall (exact_at t) (timed t None ts (base_dts t ts)).
Proof.
  intros T P F. apply timed_exact; [done..|]. destruct ts as [|x ts]; [done|]. cbn [paced base_dts] in *.
  inversion F as [|? ? (Xd & _) _]; subst. destruct Xd as [w Xd]. rewrite (whole_ticks _ _ w) by (lia || done). nia.
Qed.

(** The presentation time in ticks. *)
Lemma exact_pts t s c :
  0 < mt_timescale t < 2 ^ 32 -> exact_at t (s, c) ->
  exists p, wrap_u 64 (wrap_i 64 (wrap_i 64 c + (if is_video t then sample_cts (mt_timescale t) s else 0))) = p /\ 0 <= p < 2 ^ 63
            /\ p * 1000000 = (if is_video t then s_pts_us s else s_dts_us s) * mt_timescale t.
Proof.
  intros T ((_ & Xp & Rp & Bc) & R & C). rewrite (wrap_i_small 64 c) by (unfold in_i; nia). destruct (is_video t).
  - destruct Xp as [w Xc]. exists (c + w). unfold sample_cts. rewrite (wrap_i_small 64 (s_pts_us s - s_dts_us s)) by (unfold in_i; lia).
    rewrite (whole_ticks _ _ w) by (lia || done). rewrite (wrap_i_small 32 w) by (unfold in_i; lia).
    rewrite wrap_i_small by (unfold in_i; nia). rewrite wrap_u_small by (unfold in_u; nia). repeat split; nia.
  - exists c. rewrite Z.add_0_r, wrap_i_small by (unfold in_i; nia). rewrite wrap_u_small by (unfold in_u; nia). repeat split; nia.
Qed.

(** What a sample is for the receiver. *)
Definition told_frame (t : MuxTrack) (s : Fmp4MuxSample) : Fmp4Frame :=
  mk_frame (mt_track_id t) (mt_media_kind t) (read_codec t) (if is_video t then s_pts_us s else s_dts_us s) (s_dts_us s)
    (told_key t s) (s_data s).

(** Whole ticks come back to the microsecond: decode times, and presentation times of video. *)
Lemma played_exact t ts :
  0 < mt_timescale t < 2 ^ 32 -> paced (mt_timescale t) ts -> Forall (on_ticks (mt_timescale t)) ts ->
  played t None ts (base_dts t ts) = map (told_frame t) ts.
Proof.
  intros T P F. destruct (base_exact t ts T P F) as [E X]. transitivity (map (told_frame t) (map fst (timed t None ts (base_dts t ts)))); [|by rewrite E].
  unfold played. rewrite !map_map. apply map_ext_Forall. eapply Forall_impl; [exact X|]. intros [s c] Xs. cbn [frame_at fst].
  destruct (exact_pts t s c T Xs) as (p & Ep & Rp & Pp). destruct Xs as ((_ & _ & Rs & _) & R & C). unfold told_frame, played_pts. rewrite Ep.
  f_equal; [|by apply whole_us]. apply whole_us; [by destruct (is_video t)|done|done].
Qed.

(** The samples of a fragment that a track has are in order, and whole ticks of it. *)
Definition track_times (samples : list Fmp4MuxSample) (t : MuxTrack) : Prop :=
  0 < mt_timescale t < 2 ^ 32 /\ paced (mt_timescale t) (samples_of samples t) /\ Forall (on_ticks (mt_timescale t)) (samples_of samples t).

Definition told_stream (all : list MuxTrack) (ops : list Fmp4Op) : list Fmp4Frame :=
  concat (map (fun op => concat (map (fun t => map (told_frame t) (samples_of (op_samples op) t)) all)) ops).

(** [C6] Whatever the muxer of a set of video and audio tracks is asked to write, segments or
    parts, with or without indexes, and however the bytes are cut on the way, the demuxer gives
    the tracks and then every sample, fragment by fragment and track by track: its bytes, and of
    video the key frame flag; when times are whole ticks of the track they come back too. *)
Theorem fmp4_stream_arrives config tracks ops max pieces :
  let all := map from_track_info tracks in
  distinct all -> Forall track_ok all -> max < 2 ^ 30 ->
  Z.of_nat (length (write_moov all)) <= max -> Forall (fun op => fragment_fits max all (op_samples op)) ops ->
  Forall (fun op => Forall (track_times (op_samples op)) all) ops ->
  concat pieces = mux_stream config tracks ops ->
  exists d, push_all pieces (demuxer_new max) []
            = Ok (d, TrackInfoEvent (map read_track all) :: map FrameEvent (told_stream all ops)).
Proof.
  cbv zeta. intros D A M V F T C. destruct (stream_demuxed config tracks ops max pieces D A M V F C) as (d & E & _). exists d. rewrite E.
  do 4 f_equal. unfold stream_frames, told_stream. f_equal. apply map_ext_Forall. eapply Forall_impl; [exact T|]. intros op To.
  unfold fragment_frames. f_equal. apply map_ext_Forall. eapply Forall_impl; [exact To|]. intros t (T1 & T2 & T3). by apply played_exact.
Qed.

Definition example_video : TrackInfo * VideoShape :=
  (mk_track 1 Video H264 90000 None None (ExH264 [] [] (Some [x01; x42; x00; x1e])) Ready, mk_shape (Some 1920) (Some 1080) None).
Definition example_audio : TrackInfo * VideoShape :=
  (mk_track 2 Audio AAC 48000 (Some 48000) (Some 2) (ExAAC [x12; x10]) Ready, mk_shape None None None).
Definition example_ops : list Fmp4Op :=
  [Segment [mk_sample 1 0 40000 true [x65; x01; x02]; mk_sample 2 0 0 true [x21]; mk_sample 1 40000 40000 false [x41; x03]];
   Part [mk_sample 2 20000 20000 true [x22; x23]]].

Ltac all_of_list := repeat apply Forall_cons_2; try apply Forall_nil_2.

(** Times of a concrete track. *)
Ltac example_times :=
  split; [cbn; lia|split; [vm_compute; repeat split; discriminate|]];
  match goal with |- Forall _ ?l => let l' := eval vm_compute in l in change l with l' end;
  all_of_list; (split; [apply Z.mod_divide; [lia|reflexivity]|split; [apply Z.mod_divide; [lia|reflexivity]|cbn; lia]]).

Theorem fmp4_stream_arrives_witness :
  let w := mux_stream (mk_mux_config true true 8192) [example_video; example_audio] example_ops in
  exists d, push_all [take 700 w; drop 700 w] (demuxer_new DEFAULT_MAX_BOX_BYTES) []
            = Ok (d, TrackInfoEvent [mk_demux_track 1 H264 Video 90000 [x01; x42; x00; x1e]; mk_demux_track 2 AAC Audio 48000 [x12; x10]]
                       :: map FrameEvent
                            [mk_frame 1 Video H264 40000 0 true [x65; x01; x02]; mk_frame 1 Video H264 40000 40000 false [x41; x03];
                             mk_frame 2 Audio AAC 0 0 true [x21]; mk_frame 2 Audio AAC 20000 20000 true [x22; x23]]).
Proof.
  cbv zeta. apply (fmp4_stream_arrives (mk_mux_config true true 8192) [example_video; example_audio] example_ops DEFAULT_MAX_BOX_BYTES).
  - unfold distinct. apply (bool_decide_unpack _). vm_compute. exact I.
  - repeat constructor; try (left; reflexivity); try (right; reflexivity); cbn; lia.
  - done.
  - vm_compute. discriminate.
  - repeat constructor; vm_compute; discriminate.
  - unfold example_ops. cbn [map op_samples]. all_of_list; example_times.
  - cbn [concat]. rewrite app_nil_r. apply take_drop.
Defined.
