(* ===== verification/HlsFmp4.v ===== *)
(** * Fragmented MP4 for HLS

    Models [crates/protocols/hls/core/src/]: [fmp4_mux.rs], which gives the muxer of the codec
    library track descriptions and times in milliseconds, and [fmp4_demux.rs], which reads the
    tracks with the demuxer of the codec library and the segments with a reader of its own.
    The theorem says that segments come back. *)
From Stdlib Require Import Strings.Byte.
From S2P Require Import Prelude RtmpBytes Codecs Rtp Rtcp Tracks FlvEgress Text Framing Fmp4Box Fmp4Mux Fmp4Demux Fmp4Spec.
Local Open Scope string_scope.
Local Open Scope list_scope.
Local Open Scope Z_scope.
Local Open Scope rust_scope.

(** ** The muxer *)

Record Fmp4TrackDesc : Set := mk_desc {
  desc_track_id : Z;
  desc_codec : CodecId;
  desc_media_kind : MediaKind;
  desc_timescale : Z;
  desc_extradata : list byte;
  desc_width : Z;
  desc_height : Z;
  desc_sample_rate : Z;
  desc_channels : Z
}.

Record Fmp4Sample : Set := mk_hls_sample {
  hs_track_id : Z;
  hs_pts_ms : Z;
  hs_dts_ms : Z;
  hs_is_keyframe : bool;
  hs_data : list byte
}.

Definition positive (n : Z) : option Z := if 0 <? n then Some n else None.

Definition desc_extra (d : Fmp4TrackDesc) : CodecExtradata :=
  match desc_codec d with
  | H264 => ExH264 [] [] (Some (desc_extradata d))
  | H265 => ExH265 [] [] [] (Some (desc_extradata d))
  | AAC => ExAAC (desc_extradata d)
  | Opus => ExOpus None (Some (desc_extradata d))
  | AV1 => ExAV1 None (Some (desc_extradata d))
  | VP8 => ExVP8 (Some (desc_extradata d))
  | VP9 => ExVP9 (Some (desc_extradata d))
  | MP3 => ExMP3 None
  | _ => ExNone
  end.

Definition desc_to_track_info (d : Fmp4TrackDesc) : TrackInfo * VideoShape :=
  let t := track_new (desc_track_id d) (desc_media_kind d) (desc_codec d) (desc_timescale d) in
  (mk_track (track_id t) (media_kind t) (codec t) (clock_rate t) (positive (desc_sample_rate d)) (positive (desc_channels d))
     (desc_extra d) (readiness t),
   mk_shape (positive (desc_width d)) (positive (desc_height d)) None).

Definition hls_muxer_new (tracks : list Fmp4TrackDesc) : Fmp4Muxer :=
  muxer_new (mk_mux_config true false (max_samples_per_fragment mux_config_default)) (map desc_to_track_info tracks).

(** [s.dts_ms as i64 * 1000]. *)
Definition convert_samples (samples : list Fmp4Sample) : list Fmp4MuxSample :=
  map (fun s => mk_sample (hs_track_id s) (wrap_i 64 (wrap_i 64 (hs_dts_ms s) * 1000)) (wrap_i 64 (wrap_i 64 (hs_pts_ms s) * 1000))
                  (hs_is_keyframe s) (hs_data s)) samples.

Definition hls_init_segment (m : Fmp4Muxer) : Fmp4Muxer * list byte :=
  let '(m, events) := init_segment m in
  (m, match events with InitSegment data :: _ => data | _ => [] end).

Definition first_segment (r : Fmp4Muxer * list Fmp4MuxEvent) : Fmp4Muxer * list byte :=
  (fst r, match snd r with MediaSegment data _ :: _ => data | _ => [] end).
Definition hls_write_segment (samples : list Fmp4Sample) (m : Fmp4Muxer) : Fmp4Muxer * list byte :=
  first_segment (write_segment (convert_samples samples) m).
Definition hls_write_part (samples : list Fmp4Sample) (m : Fmp4Muxer) : Fmp4Muxer * list byte :=
  first_segment (write_part (convert_samples samples) m).

(** ** The demuxer *)

Record HlsFrame : Set := mk_hls_frame {
  hf_track_id : Z;
  hf_media_kind : MediaKind;
  hf_pts_ms : Z;
  hf_dts_ms : Z;
  hf_keyframe : bool;
  hf_data : list byte
}.

Inductive HlsDemuxEvent : Set := HlsTrackInfo (tracks : list Fmp4DemuxTrack) | HlsFrameEvent (f : HlsFrame).

(** [InvalidBox] and [NoMdat] are never returned. *)
Inductive Fmp4DemuxError : Set := NoMoov | InitNotParsed | Crashed (p : Panicked).

Record HlsDemuxer : Set := mk_hls_demuxer { inner : Fmp4Demuxer; init_parsed : bool }.
Definition hls_demuxer_new : HlsDemuxer := mk_hls_demuxer (demuxer_new DEFAULT_MAX_BOX_BYTES) false.

Definition track_events (events : list Fmp4DemuxEvent) : list HlsDemuxEvent :=
  omap (fun e => match e with TrackInfoEvent tracks => Some (HlsTrackInfo tracks) | _ => None end) events.

Definition parse_init (data : list byte) (d : HlsDemuxer) : HlsDemuxer * result Fmp4DemuxError (list HlsDemuxEvent) :=
  match push data (inner d) with
  | Err p => (d, Err (Crashed p))
  | Ok (inner', events) =>
      let found := track_events events in
      if is_empty found then (mk_hls_demuxer inner' (init_parsed d), Err NoMoov)
      else (mk_hls_demuxer inner' true, Ok found)
  end.

(** The loop over boxes that the reader of segments has three times. *)
Fixpoint walk_loop (fuel : nat) (data : list byte) (offset : nat) : list (list byte * list byte) :=
  match fuel with
  | O => []
  | S fuel =>
      if (length data <? offset + 8)%nat then []
      else
        let size := be_at data offset 4 in
        if (size <? 8) || (Z.of_nat (length data) <? Z.of_nat offset + size) then []
        else (sub_ (offset + 4) 4 data, sub_ (offset + 8) (Z.to_nat size - 8) data) :: walk_loop fuel data (offset + Z.to_nat size)
  end.
Definition walk_boxes (data : list byte) : list (list byte * list byte) := walk_loop (S (length data)) data 0.

Definition parse_trun_compat (data : list byte) : Z * list TrunSample :=
  if (length data <? 8)%nat then (0, [])
  else
    let flags := be_at data 1 3 in
    let sample_count := Z.to_nat (be_at data 4 4) in
    match trun_field (has_flag flags 0x000001) 0 data 8 with
    | None => (0, [])
    | Some (data_offset, pos) => (wrap_i 32 data_offset, trun_entries sample_count flags 0 data pos)
    end.

Definition hls_traf_box (v : TrafVars) (b : list byte * list byte) : TrafVars :=
  let '(box_type, inner) := b in
  if is_type box_type "tfhd" && (8 <=? length inner)%nat then
    mk_traf (be_at inner 4 4) (tv_base_decode_time v) (tv_data_offset v) (tv_samples v)
  else if is_type box_type "tfdt" && (8 <=? length inner)%nat then
    mk_traf (tv_track_id v) (if (at_ inner 0 =? 1) && (12 <=? length inner)%nat then be_at inner 4 8 else be_at inner 4 4)
      (tv_data_offset v) (tv_samples v)
  else if is_type box_type "trun" && (8 <=? length inner)%nat then
    let '(data_offset, samples) := parse_trun_compat inner in
    mk_traf (tv_track_id v) (tv_base_decode_time v) data_offset samples
  else v.

Definition ticks_to_ms (ticks timescale : Z) : Z := wrap_u 64 (ticks * 1000) / timescale.

Fixpoint hls_frames (track : Fmp4DemuxTrack) (track_id : Z) (mdat : list byte) (samples : list TrunSample)
    (mdat_offset : nat) (current_dts : Z) : result Panicked (list HlsFrame) :=
  match samples with
  | [] => Ok []
  | s :: samples =>
      if Z.of_nat (length mdat) <? Z.of_nat mdat_offset + ts_size s then Ok []
      else if dt_timescale track =? 0 then Err DivideByZero
      else
        let size := Z.to_nat (ts_size s) in
        let pts_ticks := wrap_i 64 (wrap_i 64 current_dts + ts_cts_offset s) in
        let frame :=
          mk_hls_frame track_id (dt_media_kind track) (ticks_to_ms (wrap_u 64 pts_ticks) (dt_timescale track))
            (ticks_to_ms current_dts (dt_timescale track)) (is_keyframe_flags (ts_flags s)) (sub_ mdat_offset size mdat) in
        result_map (cons frame)
          (hls_frames track track_id mdat samples (mdat_offset + size) (wrap_u 64 (current_dts + ts_duration s)))
  end.

Definition parse_single_traf (tracks : list Fmp4DemuxTrack) (data mdat : list byte) (moof_box_size : nat) :
    result Panicked (list HlsFrame) :=
  let v := fold_left hls_traf_box (walk_boxes data) (mk_traf 0 0 0 []) in
  match find_track tracks (tv_track_id v) with
  | None => Ok []
  | Some track =>
      hls_frames track (tv_track_id v) mdat (tv_samples v) (mdat_base (tv_data_offset v) moof_box_size) (tv_base_decode_time v)
  end.

Fixpoint parse_traf_boxes (boxes : list (list byte * list byte)) (mdat : list byte) (moof_box_size : nat)
    (tracks : list Fmp4DemuxTrack) : result Panicked (list HlsFrame) :=
  match boxes with
  | [] => Ok []
  | (box_type, content) :: boxes =>
      frames <-? (if is_type box_type "traf" then parse_single_traf tracks content mdat moof_box_size else Ok []) ;;
      result_map (app frames) (parse_traf_boxes boxes mdat moof_box_size tracks)
  end.

(** The last box of a type. *)
Definition last_box (name : string) (boxes : list (list byte * list byte)) : option (list byte) :=
  fold_left (fun found b => if is_type (fst b) name then Some (snd b) else found) boxes None.

Definition parse_segment_with_tracks (data : list byte) (tracks : list Fmp4DemuxTrack) : result Panicked (list HlsFrame) :=
  let boxes := walk_boxes data in
  match last_box "moof" boxes, last_box "mdat" boxes with
  | Some moof, Some mdat => parse_traf_boxes (walk_boxes moof) mdat (length moof + 8) tracks
  | _, _ => Ok []
  end.

Definition parse_segment (data : list byte) (d : HlsDemuxer) : result Fmp4DemuxError (list HlsDemuxEvent) :=
  if negb (init_parsed d) then Err InitNotParsed
  else
    match parse_segment_with_tracks data (d_tracks (inner d)) with
    | Ok frames => Ok (map HlsFrameEvent frames)
    | Err p => Err (Crashed p)
    end.

(** ** Its reader finds what the demuxer of the library finds *)

Lemma walk_from fuel pre boxes :
  Forall box_ok boxes -> (length boxes < fuel)%nat -> walk_loop fuel (pre ++ write_boxes boxes) (length pre) = boxes.
Proof.
  intros F. revert fuel pre. induction F as [|[ty content] boxes B F IH]; intros [|fuel] pre N; cbn [length] in N; try lia.
  - cbn [write_boxes map concat walk_loop]. rewrite app_nil_r. by rewrite (proj2 (Nat.ltb_lt _ _)) by lia.
  - destruct B as [T C]. cbn [fst snd] in *. unfold write_boxes in *. cbn [map concat fst snd walk_loop].
    rewrite be_at_skip, Nat.sub_diag, box_size_read, box_type_read by (done || lia).
    replace (Z.to_nat (8 + Z.of_nat (length content)) - 8)%nat with (length content) by lia. rewrite box_content_read by done.
    rewrite !length_app, length_write_box. rewrite (proj2 (Nat.ltb_ge _ _)) by lia. rewrite (proj2 (Z.ltb_ge _ _)) by lia.
    rewrite (proj2 (Z.ltb_ge _ _)) by lia. cbn [orb]. f_equal. rewrite app_assoc.
    replace (length pre + Z.to_nat (8 + Z.of_nat (length content)))%nat with (length (pre ++ write_box ty content)) by (rewrite length_app, length_write_box; lia).
    apply IH. lia.
Qed.

Lemma walk_written boxes : Forall box_ok boxes -> walk_boxes (write_boxes boxes) = boxes.
Proof. intros F. apply (walk_from _ [] boxes F). cbn [app]. pose proof (boxes_length boxes F). lia. Qed.

(** The only difference of the two readers of a run: the flags of the first sample. *)
Lemma compat_same data : has_flag (be_at data 1 3) 0x000004 = false -> parse_trun_compat data = parse_trun data.
Proof.
  intros H. unfold parse_trun_compat, parse_trun. rewrite H. destruct (length data <? 8)%nat; [done|].
  by destruct (trun_field _ 0 data 8) as [[? ?]|].
Qed.

Lemma hls_traf_read t ts data_offset :
  in_u 32 (mt_track_id t) -> in_u 32 (Z.of_nat (length ts)) -> in_i 32 data_offset ->
  Z.of_nat (length (write_boxes (traf_boxes t ts data_offset))) < 2 ^ 32 ->
  fold_left hls_traf_box (walk_boxes (write_boxes (traf_boxes t ts data_offset))) (mk_traf 0 0 0 [])
  = mk_traf (mt_track_id t) (base_dts t ts) data_offset (run_samples t None ts).
Proof.
  intros I N O L. assert (K : Forall four (traf_boxes t ts data_offset)) by repeat constructor.
  rewrite walk_written by (by apply boxes_fit). pose proof (traf_read t ts data_offset I N O L) as R. unfold traf_vars in R.
  rewrite visit_boxes in R by done. unfold traf_boxes in *. cbn [visit result_bind] in R. injection R as R. rewrite <- R. cbn [fold_left].
  unfold hls_traf_box at 1, traf_box at 1. known_types. rewrite compat_same; [done|]. rewrite trun_content_flags. unfold trun_flags. by destruct (is_video t).
Qed.

Definition hls_frame_at (t : MuxTrack) (x : Fmp4MuxSample * Z) : HlsFrame :=
  let '(s, dts) := x in
  mk_hls_frame (mt_track_id t) (mt_media_kind t)
    (ticks_to_ms (wrap_u 64 (wrap_i 64 (wrap_i 64 dts + (if is_video t then sample_cts (mt_timescale t) s else 0)))) (mt_timescale t))
    (ticks_to_ms dts (mt_timescale t)) (told_key t s) (s_data s).

Lemma hls_frames_read t ts prev dts pre rest :
  mt_timescale t <> 0 -> Z.of_nat (length (pre ++ concat (map s_data ts) ++ rest)) < 2 ^ 32 ->
  hls_frames (read_track t) (mt_track_id t) (pre ++ concat (map s_data ts) ++ rest) (run_samples t prev ts) (length pre) dts
  = Ok (map (hls_frame_at t) (timed t prev ts dts)).
Proof.
  intros Z0. revert prev dts pre. induction ts as [|s ts IH]; intros prev dts pre L; [done|].
  cbn [map concat run_samples hls_frames timed hls_frame_at] in *. rewrite <- app_assoc in *.
  assert (D : data_len s = Z.of_nat (length (s_data s))).
  { unfold data_len. apply wrap_u_small. rewrite !length_app in L. unfold in_u. lia. }
  unfold run_sample. cbn [ts_size ts_flags ts_cts_offset ts_duration]. rewrite D, Nat2Z.id.
  rewrite (proj2 (Z.ltb_ge _ _)) by (rewrite !length_app; lia). unfold read_track at 1 2 3 4. cbn [dt_timescale dt_media_kind].
  rewrite (proj2 (Z.eqb_neq _ _)) by done. rewrite flags_read.
  specialize (IH (Some s) (wrap_u 64 (dts + sample_duration (mt_timescale t) (default_duration t) prev s (head ts))) (pre ++ s_data s)).
  rewrite <- !app_assoc in IH. specialize (IH L). rewrite (length_app pre (s_data s)) in IH. rewrite IH. cbn [result_map]. do 3 f_equal.
  rewrite sub_app_r, Nat.sub_diag by lia. apply sub_app_l.
Qed.

(** The frames of a segment: track after track. *)
Definition hls_fragment (all : list MuxTrack) (samples : list Fmp4MuxSample) : list HlsFrame :=
  concat (map (fun t => map (hls_frame_at t) (timed t None (samples_of samples t) (base_dts t (samples_of samples t)))) all).

Lemma hls_trafs_read all size mdat tracks groups pre rest :
  distinct all -> Forall track_ok all -> Forall (fun t => mt_timescale t <> 0) all -> Z.of_nat (size + 8 + 8 + length mdat) < 2 ^ 31 ->
  tracks ⊆ all -> length groups = length tracks -> mdat = pre ++ concat (map s_data (concat groups)) ++ rest ->
  Z.of_nat (length (write_boxes (moof_trafs (patched size) (Z.of_nat (length pre)) tracks groups))) < 2 ^ 32 ->
  parse_traf_boxes (moof_trafs (patched size) (Z.of_nat (length pre)) tracks groups) mdat (size + 8) (map read_track all)
  = Ok (concat (zip_with (fun t ts => map (hls_frame_at t) (timed t None ts (base_dts t ts))) tracks groups)).
Proof.
  intros D A Tn Fit. revert groups pre. induction tracks as [|t tracks IH]; intros [|ts groups] pre I G M L; [done..|].
  cbn [moof_trafs zip_with concat] in *. rewrite map_app, concat_app, <- app_assoc in M.
  assert (IT : t ∈ all) by (apply I; left). assert (I' : tracks ⊆ all) by (intros x X; apply I; by right).
  destruct (is_empty ts) eqn:Et.
  - destruct ts; [|done]. cbn [timed map app]. apply IH; [done|by injection G|done|done].
  - unfold write_boxes in L. cbn [map concat fst snd parse_traf_boxes] in *. rewrite length_app, length_write_box in L.
    fold (write_boxes (traf_boxes t ts (patched size (Z.of_nat (length pre))))) in L.
    assert (B : (length pre + length (concat (map s_data ts)) <= length mdat)%nat) by (rewrite M, !length_app; lia).
    assert (N : in_u 32 (Z.of_nat (length ts))).
    { rewrite length_traf_boxes in L. unfold trun_content in L. rewrite !length_app, length_trun_words in L. unfold in_u. destruct (is_video t); lia. }
    pose proof (patched_small size mdat Fit (Z.of_nat (length pre)) ltac:(lia)) as Ps. known_types. unfold parse_single_traf.
    rewrite hls_traf_read; [|apply (ok_id t); by eapply Forall_forall in A|done|rewrite Ps; unfold in_i; lia|lia].
    cbn [tv_track_id tv_samples tv_data_offset tv_base_decode_time]. rewrite (track_found_again all D) by done.
    rewrite Ps. unfold mdat_base. rewrite (proj2 (Z.ltb_lt _ _)) by lia.
    replace (Z.to_nat (Z.of_nat (size + 8) + 8 + Z.of_nat (length pre)) - (size + 8 + 8))%nat with (length pre) by lia.
    rewrite M at 1. rewrite hls_frames_read; [|by eapply Forall_forall in Tn|rewrite <- M; lia]. cbn [result_bind].
    rewrite samples_len_small by lia. rewrite wrap_u_small by (unfold in_u; lia).
    replace (Z.of_nat (length pre) + Z.of_nat (length (concat (map s_data ts)))) with (Z.of_nat (length (pre ++ concat (map s_data ts)))) by (rewrite length_app; lia).
    rewrite IH; [done|done|by injection G|by rewrite <- app_assoc|].
    rewrite (length_moof_trafs _ (patched size) _ (wrap_u 32 (Z.of_nat (length pre) + samples_len ts))). unfold write_boxes. lia.
Qed.

Lemma boxes_fits max boxes : max < 2 ^ 32 -> Forall (fits max) boxes -> Forall box_ok boxes.
Proof. intros M F. eapply Forall_impl; [exact F|]. intros b. by apply fits_ok. Qed.

(** A segment of the muxer: index boxes in front of a fragment. *)
Lemma segment_read all samples seq max index :
  distinct all -> Forall track_ok all -> Forall (fun t => mt_timescale t <> 0) all -> max < 2 ^ 30 -> fragment_fits max all samples ->
  Forall (fits max) index -> last_box "moof" index = None -> last_box "mdat" index = None ->
  parse_segment_with_tracks (write_boxes (index ++ part_boxes all samples seq)) (map read_track all) = Ok (hls_fragment all samples).
Proof.
  intros D A Tn M F X X1 X2. pose proof (moof_fits all samples max F) as L1. pose proof (mdat_fits all samples max F) as L2.
  pose proof (part_boxes_fit all samples seq max F) as P. unfold parse_segment_with_tracks.
  rewrite walk_written by (apply (boxes_fits max); [lia|by apply Forall_app]). unfold last_box in *. rewrite !fold_left_app, X1, X2.
  unfold part_boxes. cbn [fold_left fst snd]. known_types.
  assert (Fb : Forall box_ok (moof_boxes (patched (moof_length all samples)) all (group_samples all samples) seq)).
  { apply boxes_fit; [apply moof_boxes_four|rewrite length_moof_boxes; lia]. }
  rewrite walk_written, length_moof_boxes by done. unfold moof_boxes. cbn [parse_traf_boxes]. known_types. cbn [result_bind].
  pose proof (hls_trafs_read all (moof_length all samples) (mdat_content (group_samples all samples)) all (group_samples all samples) [] []
                D A Tn ltac:(lia)) as R.
  change (Z.of_nat (length [])) with 0 in R. rewrite R; [|done|rewrite groups_are by done; apply length_map|by rewrite app_nil_r|].
  - cbn [result_map app]. f_equal. unfold hls_fragment. rewrite groups_are by done. clear. induction all as [|t tracks IH]; [done|].
    cbn [map zip_with concat]. by rewrite IH.
  - pose proof (length_trafs all samples (patched (moof_length all samples))). lia.
Qed.

(** ** Segments come back *)

Definition hls_tracks (descs : list Fmp4TrackDesc) : list MuxTrack := map (fun d => from_track_info (desc_to_track_info d)) descs.

Definition of_track (t : MuxTrack) (samples : list Fmp4Sample) : list Fmp4Sample :=
  filter (fun s => hs_track_id s = mt_track_id t) samples.

(** Times in range, whole ticks of the track, in order. *)
Definition times_ok (samples : list Fmp4Sample) (t : MuxTrack) : Prop :=
  0 < mt_timescale t < 2 ^ 24 /\ paced (mt_timescale t) (convert_samples (of_track t samples))
  /\ Forall (on_ticks (mt_timescale t)) (convert_samples (of_track t samples)).

Definition ms_ok (s : Fmp4Sample) : Prop := 0 <= hs_dts_ms s < 2 ^ 40 /\ 0 <= hs_pts_ms s < 2 ^ 40.

(** What a sample is for the receiver. *)
Definition told_sample (t : MuxTrack) (s : Fmp4Sample) : HlsFrame :=
  mk_hls_frame (mt_track_id t) (mt_media_kind t) (if is_video t then hs_pts_ms s else hs_dts_ms s) (hs_dts_ms s)
    (if is_video t then hs_is_keyframe s else true) (hs_data s).

Definition told_segment (all : list MuxTrack) (samples : list Fmp4Sample) : list HlsFrame :=
  concat (map (fun t => map (told_sample t) (of_track t samples)) all).

Lemma samples_converted samples t : samples_of (convert_samples samples) t = convert_samples (of_track t samples).
Proof.
  unfold samples_of, of_track, convert_samples. induction samples as [|s samples IH]; [done|]. cbn [map]. rewrite !filter_cons. cbn [s_track_id].
  destruct (decide (hs_track_id s = mt_track_id t)); cbn [map]; by rewrite IH.
Qed.

Lemma ms_of_ticks p ms timescale :
  0 < timescale < 2 ^ 24 -> 0 <= ms < 2 ^ 40 -> p * 1000000 = ms * 1000 * timescale -> ticks_to_ms p timescale = ms.
Proof.
  intros T R E. unfold ticks_to_ms. replace (p * 1000) with (ms * timescale) by lia. rewrite wrap_u_small by (unfold in_u; nia).
  apply Z.div_mul. lia.
Qed.

Lemma converted s : ms_ok s ->
  wrap_i 64 (wrap_i 64 (hs_dts_ms s) * 1000) = hs_dts_ms s * 1000 /\ wrap_i 64 (wrap_i 64 (hs_pts_ms s) * 1000) = hs_pts_ms s * 1000.
Proof.
  intros [D P]. by rewrite (wrap_i_small 64 (hs_dts_ms s)), (wrap_i_small 64 (hs_pts_ms s)), !wrap_i_small by (lia || (unfold in_i; lia)).
Qed.

Lemma track_told t samples :
  Forall ms_ok samples -> times_ok samples t ->
  let ts := samples_of (convert_samples samples) t in
  map (hls_frame_at t) (timed t None ts (base_dts t ts)) = map (told_sample t) (of_track t samples).
Proof.
  intros F (T & P & K). cbv zeta. rewrite samples_converted. destruct (base_exact t _ ltac:(lia) P K) as [E X].
  set (xs := timed t None _ _) in *. assert (O : Forall ms_ok (of_track t samples)) by (apply Forall_forall; intros x [_ I]%list_elem_of_filter; by eapply Forall_forall in F).
  clearbody xs. revert xs E X. clear P K F. induction O as [|s l O1 O IH]; intros [|[c d] xs] E X; [done..|].
  cbn [convert_samples map fst] in *. injection E as -> E. inversion X as [|? ? X1 X2]; subst. f_equal; [|by apply IH].
  destruct (exact_pts t _ d ltac:(lia) X1) as (p & Ep & Rp & Pp). destruct (converted s O1) as [Cd Cp]. destruct X1 as (_ & _ & Dd).
  cbn [s_dts_us s_pts_us] in *. rewrite Cd in Dd. rewrite Cd, Cp in Pp. destruct O1 as [Rd Rp'].
  cbn [hls_frame_at]. rewrite Ep. unfold told_sample, told_key. cbn [s_is_keyframe s_data]. f_equal.
  - apply ms_of_ticks; [done|by destruct (is_video t)|destruct (is_video t); lia].
  - apply ms_of_ticks; [done..|lia].
Qed.

Definition hls_config : Fmp4MuxerConfig := mk_mux_config true false 8192.

Lemma hls_init_bytes descs :
  hls_init_segment (hls_muxer_new descs)
  = (mk_muxer hls_config (hls_tracks descs) 0 (Some (write_ftyp ++ write_moov (hls_tracks descs))), write_ftyp ++ write_moov (hls_tracks descs)).
Proof. unfold hls_init_segment, init_segment, hls_muxer_new, muxer_new. cbn [m_init_segment m_tracks m_config m_sequence_number]. by rewrite map_map. Qed.

Definition styp_boxes : list (list byte * list byte) := [(txt "styp", drop 8 write_styp)].

Lemma hls_segment_bytes all init samples max :
  max < 2 ^ 30 -> fragment_fits max all (convert_samples samples) -> samples <> [] ->
  snd (hls_write_segment samples (mk_muxer hls_config all 0 init)) = write_boxes (styp_boxes ++ part_boxes all (convert_samples samples) 1).
Proof.
  intros M F N. unfold hls_write_segment, first_segment, write_segment. destruct samples as [|s samples]; [done|].
  assert (is_empty (convert_samples (s :: samples)) = false) as -> by done. cbn [fst snd include_styp include_sidx m_config m_tracks m_sequence_number next_sequence hls_config app].
  rewrite (moof_mdat_is_boxes _ _ _ max) by done. by rewrite write_boxes_app.
Qed.

(** What the segment reader makes of a segment. *)
Lemma hls_segment_read all init samples d :
  distinct all -> Forall track_ok all -> fragment_fits DEFAULT_MAX_BOX_BYTES all (convert_samples samples) ->
  Forall ms_ok samples -> Forall (times_ok samples) all -> init_parsed d = true -> d_tracks (inner d) = map read_track all ->
  parse_segment (snd (hls_write_segment samples (mk_muxer hls_config all 0 init))) d = Ok (map HlsFrameEvent (told_segment all samples)).
Proof.
  intros D A F O Tm I Td. unfold parse_segment. rewrite I, Td. cbn [negb]. destruct (decide (samples = [])) as [->|N].
  - cbn [snd hls_write_segment first_segment write_segment convert_samples map is_empty fst].
    assert (told_segment all [] = []) as ->; [|reflexivity]. unfold told_segment. clear. induction all as [|t all IH]; [done|]. cbn [map concat]. by rewrite IH.
  - rewrite (hls_segment_bytes _ _ _ DEFAULT_MAX_BOX_BYTES) by done.
    assert (Z0 : Forall (fun t => mt_timescale t <> 0) all) by (eapply Forall_impl; [exact Tm|]; intros t (? & _); lia).
    rewrite (segment_read all (convert_samples samples) 1 DEFAULT_MAX_BOX_BYTES styp_boxes D A Z0); [|done|done|repeat constructor; vm_compute; discriminate|done|done].
    do 2 f_equal. unfold hls_fragment, told_segment. f_equal. apply map_ext_Forall. eapply Forall_impl; [exact Tm|]. intros t T. by apply track_told.
Qed.

(** [C20] For HLS: a receiver that reads the initialization segment knows the tracks, and a
    segment then gives it every sample, track by track, with its bytes, of video its key frame
    flag, and its times to the millisecond when they are whole ticks of the track. *)
Theorem hls_segment_comes_back descs samples :
  let all := hls_tracks descs in
  let '(m, init) := hls_init_segment (hls_muxer_new descs) in
  distinct all -> Forall track_ok all -> Z.of_nat (length (write_moov all)) <= DEFAULT_MAX_BOX_BYTES ->
  fragment_fits DEFAULT_MAX_BOX_BYTES all (convert_samples samples) -> Forall ms_ok samples -> Forall (times_ok samples) all ->
  exists d, parse_init init hls_demuxer_new = (d, Ok [HlsTrackInfo (map read_track all)])
            /\ parse_segment (snd (hls_write_segment samples m)) d = Ok (map HlsFrameEvent (told_segment all samples)).
Proof.
  cbv zeta. rewrite hls_init_bytes. intros D A V F O Tm.
  pose proof (stream_demuxed hls_config (map desc_to_track_info descs) [] DEFAULT_MAX_BOX_BYTES [write_ftyp ++ write_moov (hls_tracks descs)]) as P.
  cbv zeta in P. rewrite map_map in P. fold (hls_tracks descs) in P.
  destruct P as (d & P & Td & _); [done..|constructor| |].
  { unfold mux_stream, init_segment, muxer_new. cbn [m_init_segment m_tracks]. rewrite map_map. fold (hls_tracks descs).
    cbn [mux_ops app map concat event_data]. done. }
  cbn [push_all] in P. exists (mk_hls_demuxer d true). unfold parse_init. cbn [inner hls_demuxer_new].
  destruct (push _ (demuxer_new DEFAULT_MAX_BOX_BYTES)) as [[d1 ev]|]; [|done]. cbn [result_bind fst snd app] in P. injection P as -> ->.
  split; [done|]. by apply hls_segment_read.
Qed.

Definition example_descs : list Fmp4TrackDesc :=
  [mk_desc 1 H264 Video 90000 [x01; x42; x00; x1e] 1920 1080 0 0; mk_desc 2 AAC Audio 48000 [x12; x10] 0 0 48000 2].
Definition example_samples : list Fmp4Sample :=
  [mk_hls_sample 1 80 40 true [x65; x01]; mk_hls_sample 2 20 20 true [x21]; mk_hls_sample 1 60 60 false [x41]].

Theorem hls_segment_comes_back_witness :
  let '(m, init) := hls_init_segment (hls_muxer_new example_descs) in
  exists d, parse_init init hls_demuxer_new
            = (d, Ok [HlsTrackInfo [mk_demux_track 1 H264 Video 90000 [x01; x42; x00; x1e]; mk_demux_track 2 AAC Audio 48000 [x12; x10]]])
            /\ parse_segment (snd (hls_write_segment example_samples m)) d
               = Ok (map HlsFrameEvent [mk_hls_frame 1 Video 80 40 true [x65; x01]; mk_hls_frame 1 Video 60 60 false [x41];
                                        mk_hls_frame 2 Audio 20 20 true [x21]]).
Proof.
  apply (hls_segment_comes_back example_descs example_samples).
  - unfold distinct. apply (bool_decide_unpack _). vm_compute. exact I.
  - all_of_list; (split; [cbn; auto|by vm_compute|by vm_compute|cbn; lia]).
  - vm_compute. discriminate.
  - vm_compute. split; discriminate.
  - all_of_list; split; cbn; lia.
  - unfold example_descs, hls_tracks. cbn [map]. all_of_list; example_times.
Defined.

(** A track without a clock: the segment reader divides by zero. *)
Example zero_timescale_panics :
  let '(m, init) := hls_init_segment (hls_muxer_new [mk_desc 1 H264 Video 0 [] 0 0 0 0]) in
  let '(d, _) := parse_init init hls_demuxer_new in
  parse_segment (snd (hls_write_segment [mk_hls_sample 1 0 0 true [x65]] m)) d = Err (Crashed DivideByZero).
Proof. vm_compute. reflexivity. Qed.

(** A frame shown before time zero: its time becomes huge. *)
Example early_frame_far_away :
  hls_frames (mk_demux_track 1 H264 Video 1000 []) 1 [x65] [mk_trun 40 1 0x02000000 (-5)] 0 0
  = Ok [mk_hls_frame 1 Video ((2 ^ 64 - 5000) / 1000) 0 true [x65]].
Proof. vm_compute. reflexivity. Qed.
