(* ===== verification/Hls.v ===== *)
(** * HLS: segments, playlists, requests and pulling

    Models [crates/protocols/hls/core/src/]: [segment.rs] (the ring of segments), [ll_hls.rs]
    (parts of low latency HLS), [marker.rs], [vtt_mux.rs], [playlist.rs] (the text of a
    playlist), [parser.rs] (its reader), [request.rs] (the routes), [session.rs] (requests to
    events, commands to responses), [player.rs] and [pacer.rs]; and of
    [crates/protocols/hls/module/src/]: the tokens that [muxer.rs] adds to a playlist, and the
    rounds of [pull.rs]. A text is the list of its bytes, an [f64] its bit pattern. *)
From Stdlib Require Import Strings.Byte Strings.String.
From S2P Require Import Prelude RtmpBytes Amf Codecs Tracks Text.
Local Open Scope string_scope.
Local Open Scope list_scope.
Local Open Scope Z_scope.
Local Open Scope rust_scope.

(** ** Text *)

(** A literal in which a tilde stands for the quotation mark. *)
Definition quoted (s : string) : text := map (fun b => if bool_decide (b = x7e) then x22 else b) (txt s).

Definition line (s : text) : text := s ++ [x0a].

Definition equals (s : text) (literal : string) : bool := bool_decide (s = txt literal).

Definition strip_prefix (p s : text) : option text := if starts_with p s then Some (drop (length p) s) else None.
Definition strip_suffix (p s : text) : option text := if ends_with p s then Some (take (length s - length p) s) else None.

(** [str::split] at a character, and the pieces that are not empty. *)
Definition split_at (b : byte) (s : text) : list text := split_str [b] s.
Definition components (s : text) : list text := List.filter (fun w => negb (is_empty w)) (split_at x2f s).

(** [str::lines]. *)
Definition strip_cr (s : text) : text := default s (strip_suffix [x0d] s).
Fixpoint lines_loop (s word : text) : list text :=
  match s with
  | [] => if is_empty word then [] else [word]
  | b :: s => if bool_decide (b = x0a) then strip_cr word :: lines_loop s [] else lines_loop s (word ++ [b])
  end.
Definition lines (s : text) : list text := lines_loop s [].

(** [str::replace] of a character. *)
Definition replace (b : byte) (by_ s : text) : text := flat_map (fun x => if bool_decide (x = b) then by_ else [x]) s.

(** [str::rfind] of a character: what stands in front of the last one. *)
Definition before_last (b : byte) (s : text) : option text :=
  i ← find_byte b (rev s); Some (take (length s - S i) s).

(** [{:0w}] *)
Definition digits (z : Z) : text := decimal_loop 330 z [].
Definition zeros (w : nat) (s : text) : text := repeat x30 (w - length s) ++ s.
Definition padded (w : nat) (z : Z) : text := if z <? 0 then x2d :: zeros (w - 1) (digits (- z)) else zeros w (digits z).

(** ** [f64] *)

Definition f64_is_nan (bits : Z) : bool := (f64_exponent bits =? 2047) && negb (f64_fraction bits =? 0).
Definition f64_is_inf (bits : Z) : bool := (f64_exponent bits =? 2047) && (f64_fraction bits =? 0).
Definition F64_NAN : Z := 0x7FF8000000000000.
Definition F64_INFINITY : Z := 0x7FF0000000000000.
Definition with_sign (neg : bool) (bits : Z) : Z := if neg then 2 ^ 63 + bits else bits.

(** The integer nearest to a quotient, ties to even. *)
Definition round_even (num den : Z) : Z :=
  let q := num / den in
  let r := num mod den in
  if (den <? 2 * r) || ((2 * r =? den) && Z.odd q) then q + 1 else q.

(** The double nearest to a quotient that is not negative. *)
Definition f64_round (num den : Z) : Z :=
  if num =? 0 then 0
  else
    let l0 := Z.log2 num - Z.log2 den in
    let l := if den * 2 ^ Z.max 0 l0 <=? num * 2 ^ Z.max 0 (- l0) then l0 else l0 - 1 in
    let u := Z.max (l - 52) (-1074) in
    Z.min ((u + 1074) * 2 ^ 52 + round_even (num * 2 ^ Z.max 0 (- u)) (den * 2 ^ Z.max 0 u)) F64_INFINITY.

(** The magnitude of a finite double as a quotient. *)
Definition f64_ratio (bits : Z) : Z * Z :=
  let e := f64_exponent bits in
  if e =? 0 then (f64_fraction bits, 2 ^ 1074)
  else ((2 ^ 52 + f64_fraction bits) * 2 ^ Z.max 0 (e - 1075), 2 ^ Z.max 0 (1075 - e)).

Definition u64_to_f64 (n : Z) : Z := f64_round n 1.

Definition f64_mul (a b : Z) : Z :=
  let neg := xorb (f64_negative a) (f64_negative b) in
  if f64_is_nan a || f64_is_nan b then F64_NAN
  else if f64_is_inf a || f64_is_inf b then if f64_is_zero a || f64_is_zero b then F64_NAN else with_sign neg F64_INFINITY
  else with_sign neg (f64_round (fst (f64_ratio a) * fst (f64_ratio b)) (snd (f64_ratio a) * snd (f64_ratio b))).

(** Division of a finite double that is not negative by 1000. *)
Definition f64_div_1000 (a : Z) : Z := f64_round (fst (f64_ratio a)) (snd (f64_ratio a) * 1000).

(** [x as u64]. *)
Definition f64_to_u64 (bits : Z) : Z :=
  if f64_is_nan bits || f64_negative bits then 0
  else if f64_is_inf bits then 2 ^ 64 - 1
  else sat_u 64 (fst (f64_ratio bits) / snd (f64_ratio bits)).

(** [x.ceil() as u64]. *)
Definition ceil_as_u64 (bits : Z) : Z :=
  if f64_is_nan bits || f64_negative bits then 0
  else if f64_is_inf bits then 2 ^ 64 - 1
  else sat_u 64 ((fst (f64_ratio bits) + snd (f64_ratio bits) - 1) / snd (f64_ratio bits)).

(** The order of the doubles other than [NaN], and [f64::max]. *)
Definition f64_key (bits : Z) : Z := if f64_negative bits then - (bits mod 2 ^ 63) else bits.
Definition f64_max (a b : Z) : Z :=
  if f64_is_nan a then b else if f64_is_nan b then a else if f64_key a <? f64_key b then b else a.

(** [{:.p}]: the exact value to [p] places, ties to even. *)
Definition f64_fixed (p : nat) (bits : Z) : text :=
  if f64_is_nan bits then txt "NaN"
  else
    (if f64_negative bits then [x2d] else []) ++
    if f64_is_inf bits then txt "inf"
    else
      let v := round_even (fst (f64_ratio bits) * 10 ^ Z.of_nat p) (snd (f64_ratio bits)) in
      digits (v / 10 ^ Z.of_nat p) ++ x2e :: zeros p (digits (v mod 10 ^ Z.of_nat p)).

(** [str::parse] to [f64]: digits in front of the rest, as a number. *)
Fixpoint take_digits (s : text) (v : Z) (n : nat) : Z * nat * text :=
  match s with
  | b :: s' => match digit b with Some d => take_digits s' (v * 10 + d) (S n) | None => (v, n, s) end
  | [] => (v, n, [])
  end.

Definition parse_sign (s : text) : bool * text :=
  match s with x2d :: s => (true, s) | x2b :: s => (false, s) | _ => (false, s) end.

Definition parse_exponent (s : text) : option Z :=
  let '(neg, s) := parse_sign s in
  match take_digits s 0 0 with
  | (_, O, _) => None
  | (e, _, []) => Some (if neg then - e else e)
  | _ => None
  end.

(** Digits with an optional point and an optional exponent, as a quotient. *)
Definition parse_number (s : text) : option (Z * Z) :=
  let '(v, n, s) := take_digits s 0 0 in
  let '(v, places, s) := match s with x2e :: s => take_digits s v 0 | _ => (v, 0%nat, s) end in
  if (n + places =? 0)%nat then None
  else
    e ← match s with
        | [] => Some 0
        | x65 :: s | x45 :: s => parse_exponent s
        | _ => None
        end;
    let k := e - Z.of_nat places in
    Some (v * 10 ^ Z.max 0 k, 10 ^ Z.max 0 (- k)).

Definition parse_f64 (s : text) : option Z :=
  let '(neg, s) := parse_sign s in
  if is_empty s then None
  else match parse_number s with
       | Some (num, den) => Some (with_sign neg (f64_round num den))
       | None =>
           if eq_ignore_ascii_case s (txt "nan") then Some (with_sign neg F64_NAN)
           else if eq_ignore_ascii_case s (txt "inf") || eq_ignore_ascii_case s (txt "infinity")
           then Some (with_sign neg F64_INFINITY)
           else None
       end.

Example f64_half_even : map (f64_fixed 3) [0x3FB0000000000000; 0x3FC8000000000000; 0x4004000000000000; 0xC004000000000000]
  = [txt "0.062"; txt "0.188"; txt "2.500"; txt "-2.500"].
Proof. vm_compute. reflexivity. Qed.

Example f64_parses : map (fun s => parse_f64 (txt s)) ["2.5"; "+.5e1"; "25."; "1e-1"; "inf"; "-"; "."; "1e"; "2x"]
  = [Some 0x4004000000000000; Some 0x4014000000000000; Some 0x4039000000000000; Some 0x3FB999999999999A; Some F64_INFINITY;
     None; None; None; None].
Proof. vm_compute. reflexivity. Qed.

Example f64_tiny : parse_f64 (txt "4.9e-324") = Some 1 /\ parse_f64 (txt "1.8e308") = Some F64_INFINITY
  /\ parse_f64 (txt "9007199254740993") = Some (i64_to_f64 (2 ^ 53 + 1)).
Proof. vm_compute. done. Qed.

(** ** The ring of segments ([segment.rs]) *)

Inductive HlsCoreError : Set :=
  | InvalidPath (path : text)
  | StreamNotFound (stream_key : text)
  | SegmentNotFound (missing : text)
  | NotReady
  | InvalidTimestamp.

Record Segment : Set := mk_segment {
  seg_name : text;
  seg_duration : Z;
  seg_data : list byte;
  starts_with_keyframe : bool;
  seg_sequence : Z;
  program_date_time_ms : option Z;
  cue_tags : option text
}.

Record SegmentRing : Set := mk_ring {
  segments : list Segment;
  max_segments : nat;
  retain_extra : nat;
  next_sequence : Z
}.

Definition with_retain (max_segments retain_extra : nat) : SegmentRing := mk_ring [] (max_segments `max` 1) retain_extra 0.
Definition ring_new (max_segments : nat) : SegmentRing := with_retain max_segments 0.

Definition push_with_pdt (name : text) (duration_secs : Z) (data : list byte) (keyframe : bool) (pdt : option Z) (r : SegmentRing)
    : SegmentRing * option Segment :=
  let seq := next_sequence r in
  let segs := segments r ++ [mk_segment name duration_secs data keyframe seq pdt None] in
  let rest segs := mk_ring segs (max_segments r) (retain_extra r) (wrap_u 64 (seq + 1)) in
  if (max_segments r + retain_extra r <? length segs)%nat then (rest (tail segs), head segs) else (rest segs, None).
Definition ring_push (name : text) (duration_secs : Z) (data : list byte) (keyframe : bool) (r : SegmentRing) : SegmentRing * option Segment :=
  push_with_pdt name duration_secs data keyframe None r.

Definition ring_get (name : text) (r : SegmentRing) : option Segment :=
  List.find (fun s => bool_decide (seg_name s = name)) (segments r).
Definition first_sequence (r : SegmentRing) : Z := default 0 (seg_sequence <$> head (segments r)).

Definition window_skip (r : SegmentRing) : nat := (length (segments r) - max_segments r)%nat.
Definition live_window (r : SegmentRing) : list Segment := drop (window_skip r) (segments r).
Definition live_window_first_sequence (r : SegmentRing) : Z := default 0 (seg_sequence <$> segments r !! window_skip r).

Definition max_duration (r : SegmentRing) : Z := fold_left f64_max (map seg_duration (segments r)) 0.
Definition latest (r : SegmentRing) : option Segment := last (segments r).
(** A change of the segment that [latest_mut] gives. *)
Definition change_latest (f : Segment -> Segment) (r : SegmentRing) : SegmentRing :=
  match last (segments r) with
  | Some s => mk_ring (take (length (segments r) - 1) (segments r) ++ [f s]) (max_segments r) (retain_extra r) (next_sequence r)
  | None => r
  end.

(** ** Markers ([marker.rs]) *)

Inductive CueMarker : Set := CueOut (duration_secs : Z) | CueIn.

Definition format_cue_tags (markers : list CueMarker) : text :=
  concat (map (fun m => match m with
                        | CueOut d => line (txt "#EXT-X-CUE-OUT:" ++ f64_fixed 1 d)
                        | CueIn => line (txt "#EXT-X-CUE-IN")
                        end) markers).

(** ** Low latency ([ll_hls.rs]) *)

Inductive TrackLane : Set := LaneVideo | LaneAudio.
#[export] Instance track_lane_eq : EqDecision TrackLane.
Proof. solve_decision. Defined.
Definition lane_prefix (l : TrackLane) : text := match l with LaneVideo => txt "video" | LaneAudio => txt "audio" end.

Inductive LlHlsPackagingMode : Set := DemuxedAv | VideoOnly | Muxed.
Definition parse_packaging_mode (s : text) : LlHlsPackagingMode :=
  if equals s "video-only" then VideoOnly else if equals s "muxed" then Muxed else DemuxedAv.

Record HlsPart : Set := mk_part {
  part_uri : text;
  part_duration : Z;
  independent : bool;
  part_data : list byte;
  part_sequence : Z;
  part_segment : Z
}.

Record SegmentParts : Set := mk_parts { parts_segment : Z; parts : list HlsPart }.

Record RenditionReport : Set := mk_report { report_uri : text; last_msn : Z; last_part : Z }.

Record LowLatencyState : Set := mk_ll {
  current_parts : list HlsPart;
  completed_segments_parts : list SegmentParts;
  max_completed_segments : nat;
  part_target_secs : Z;
  part_seq : Z;
  parent_segment_seq : Z;
  current_part_start_dts_ms : option Z;
  current_part_has_keyframe : bool;
  rendition_reports : list RenditionReport
}.

Definition ms_as_secs (ms : Z) : Z := f64_div_1000 (u64_to_f64 ms).

Definition ll_new (part_target_ms : Z) (max_completed : nat) : LowLatencyState :=
  mk_ll [] [] max_completed (ms_as_secs part_target_ms) 0 0 None false [].

Definition set_part_target_ms (ms : Z) (s : LowLatencyState) : LowLatencyState :=
  mk_ll (current_parts s) (completed_segments_parts s) (max_completed_segments s) (ms_as_secs ms) (part_seq s)
    (parent_segment_seq s) (current_part_start_dts_ms s) (current_part_has_keyframe s) (rendition_reports s).

Definition should_cut_part (sample_dts_ms : Z) (s : LowLatencyState) : bool :=
  match current_part_start_dts_ms s with
  | None => false
  | Some start => f64_to_u64 (f64_mul (part_target_secs s) (u64_to_f64 1000)) <=? Z.max 0 (sample_dts_ms - start)
  end.

(** The state with another part under accumulation. *)
Definition accumulating (start : option Z) (keyframe : bool) (s : LowLatencyState) : LowLatencyState :=
  mk_ll (current_parts s) (completed_segments_parts s) (max_completed_segments s) (part_target_secs s) (part_seq s)
    (parent_segment_seq s) start keyframe (rendition_reports s).

Definition note_sample (dts_ms : Z) (is_keyframe : bool) (s : LowLatencyState) : LowLatencyState :=
  match current_part_start_dts_ms s with
  | None => accumulating (Some dts_ms) (is_keyframe || current_part_has_keyframe s) s
  | Some _ => s
  end.

Definition part_name_of (seq : Z) : text := txt "part_" ++ decimal seq ++ txt ".m4s".

Definition finalize_part (data : list byte) (duration_secs : Z) (s : LowLatencyState) : LowLatencyState * HlsPart :=
  let seq := part_seq s in
  let part := mk_part (part_name_of seq) duration_secs (current_part_has_keyframe s) data seq (parent_segment_seq s) in
  (mk_ll (current_parts s ++ [part]) (completed_segments_parts s) (max_completed_segments s) (part_target_secs s) (wrap_u 64 (seq + 1))
     (parent_segment_seq s) None false (rendition_reports s), part).

Definition on_segment_boundary (new_segment_seq : Z) (s : LowLatencyState) : LowLatencyState :=
  let completed :=
    if is_empty (current_parts s) then completed_segments_parts s
    else
      let archived := completed_segments_parts s ++ [mk_parts (parent_segment_seq s) (current_parts s)] in
      if (max_completed_segments s <? length archived)%nat then tail archived else archived in
  mk_ll [] completed (max_completed_segments s) (part_target_secs s) (part_seq s) new_segment_seq None false (rendition_reports s).

Definition find_part (seq : Z) : list HlsPart -> option HlsPart := List.find (fun p => part_sequence p =? seq).
Definition get_part (seq : Z) (s : LowLatencyState) : option HlsPart :=
  match find_part seq (current_parts s) with
  | Some p => Some p
  | None => find_part seq (concat (map parts (completed_segments_parts s)))
  end.

Definition playlist_header_tags (s : LowLatencyState) : text :=
  line (txt "#EXT-X-SERVER-CONTROL:CAN-BLOCK-RELOAD=YES,PART-HOLD-BACK=" ++ f64_fixed 1 (f64_mul (part_target_secs s) (u64_to_f64 3))) ++
  line (txt "#EXT-X-PART-INF:PART-TARGET=" ++ f64_fixed 3 (part_target_secs s)).

Definition format_part_tags (ps : list HlsPart) (prefix : text) : text :=
  concat (map (fun p => line (txt "#EXT-X-PART:DURATION=" ++ f64_fixed 3 (part_duration p) ++ quoted ",URI=~" ++ prefix ++ part_uri p ++ [x22] ++
                              (if independent p then txt ",INDEPENDENT=YES" else []))) ps).
Definition part_tags (prefix : text) (s : LowLatencyState) : text := format_part_tags (current_parts s) prefix.

Definition preload_hint_tag (prefix : text) (s : LowLatencyState) : text :=
  line (quoted "#EXT-X-PRELOAD-HINT:TYPE=PART,URI=~" ++ prefix ++ part_name_of (part_seq s) ++ [x22]).

Definition set_rendition_reports (reports : list RenditionReport) (s : LowLatencyState) : LowLatencyState :=
  mk_ll (current_parts s) (completed_segments_parts s) (max_completed_segments s) (part_target_secs s) (part_seq s)
    (parent_segment_seq s) (current_part_start_dts_ms s) (current_part_has_keyframe s) reports.

Definition rendition_report_tags (s : LowLatencyState) : text :=
  concat (map (fun r => line (quoted "#EXT-X-RENDITION-REPORT:URI=~" ++ report_uri r ++ quoted "~,LAST-MSN=" ++ decimal (last_msn r) ++
                              txt ",LAST-PART=" ++ decimal (last_part r))) (rendition_reports s)).

(** ** Subtitles ([vtt_mux.rs]) *)

Record WebVttCue : Set := mk_cue {
  cue_id : option text;
  cue_start_ms : Z;
  cue_end_ms : Z;
  cue_payload : text;
  cue_settings : option text
}.

Record VttSegment : Set := mk_vtt {
  vtt_name : text;
  vtt_sequence : Z;
  vtt_start_ms : Z;
  vtt_end_ms : Z;
  vtt_duration : Z;
  vtt_payload : text
}.

Record VttMux : Set := mk_vtt_mux {
  segment_duration_ms : Z;
  vtt_max_segments : nat;
  vtt_segments : list VttSegment;
  pending_cues : list WebVttCue;
  vtt_next_sequence : Z;
  next_segment_start : option Z
}.

Definition MAX_PENDING_CUES : nat := 256.

Definition vtt_new (segment_duration_ms : Z) (max_segments : nat) : VttMux := mk_vtt_mux segment_duration_ms max_segments [] [] 0 (Some 0).

(** [sort_by_key] is stable. *)
Fixpoint insert_cue (c : WebVttCue) (cues : list WebVttCue) : list WebVttCue :=
  match cues with
  | [] => [c]
  | d :: cues' => if cue_start_ms d <=? cue_start_ms c then d :: insert_cue c cues' else c :: cues
  end.
Definition sort_cues (cues : list WebVttCue) : list WebVttCue := fold_left (fun sorted c => insert_cue c sorted) cues [].

Definition push_cue (cue : WebVttCue) (m : VttMux) : result HlsCoreError VttMux :=
  if cue_end_ms cue <=? cue_start_ms cue then Err InvalidTimestamp
  else
    let pending := if (MAX_PENDING_CUES <=? length (pending_cues m))%nat then tail (pending_cues m) else pending_cues m in
    Ok (mk_vtt_mux (segment_duration_ms m) (vtt_max_segments m) (vtt_segments m) (sort_cues (pending ++ [cue])) (vtt_next_sequence m)
          (next_segment_start m)).

Definition format_vtt_timestamp (ms : Z) : text :=
  padded 2 (ms / 3600000) ++ x3a :: padded 2 (ms mod 3600000 / 60000) ++ x3a :: padded 2 (ms mod 3600000 mod 60000 / 1000) ++
  x2e :: padded 3 (ms mod 3600000 mod 60000 mod 1000).

Definition render_cue (start_ms end_ms : Z) (c : WebVttCue) : text :=
  format_vtt_timestamp (Z.max (cue_start_ms c) start_ms) ++ txt " --> " ++ format_vtt_timestamp (Z.min (cue_end_ms c) end_ms) ++
  match cue_settings c with Some s => x20 :: s | None => [] end ++ x0a :: cue_payload c ++ [x0a; x0a].

(** The payload and the cues kept, cue by cue. *)
Definition close_cue (start_ms end_ms : Z) (acc : text * list WebVttCue) (c : WebVttCue) : text * list WebVttCue :=
  let '(payload, retained) := acc in
  if (cue_end_ms c <=? start_ms) || (end_ms <=? cue_start_ms c) then
    (payload, if (end_ms <? cue_end_ms c) || (end_ms <=? cue_start_ms c) then retained ++ [c] else retained)
  else
    (if Z.max (cue_start_ms c) start_ms <? Z.min (cue_end_ms c) end_ms then payload ++ render_cue start_ms end_ms c else payload,
     if end_ms <? cue_end_ms c then retained ++ [c] else retained).

Definition close_segment (end_ms : Z) (m : VttMux) : result HlsCoreError VttMux :=
  let start_ms := match next_segment_start m with Some s => s | None => Z.max 0 (end_ms - segment_duration_ms m) end in
  if end_ms <=? start_ms then Err InvalidTimestamp
  else
    let '(payload, retained) := fold_left (close_cue start_ms end_ms) (pending_cues m) (line (line (txt "WEBVTT")), []) in
    let seq := vtt_next_sequence m in
    let segment := mk_vtt (txt "sub" ++ decimal seq) seq start_ms end_ms (ms_as_secs (end_ms - start_ms)) payload in
    let kept := if (vtt_max_segments m <=? length (vtt_segments m))%nat then tail (vtt_segments m) else vtt_segments m in
    Ok (mk_vtt_mux (segment_duration_ms m) (vtt_max_segments m) (kept ++ [segment]) (sort_cues retained) (wrap_u 64 (seq + 1)) (Some end_ms)).

Definition vtt_flush (end_ms : option Z) (m : VttMux) : result HlsCoreError VttMux :=
  let start_ms := default 0 (next_segment_start m) in
  let fallback_end :=
    match map cue_end_ms (pending_cues m) with
    | [] => start_ms + segment_duration_ms m
    | e :: es => Z.max (fold_left Z.max es e) (start_ms + segment_duration_ms m)
    end in
  close_segment (default fallback_end end_ms) m.

(** ** Playlists ([playlist.rs]) *)

Inductive HlsContainer : Set := ContainerTs | ContainerFmp4.

Record SegmentFileEntry : Set := mk_file { filename : text; file_duration : Z }.

Record MediaRenditionInfo : Set := mk_media {
  codecs : text;
  bandwidth : Z;
  width : option Z;
  height : option Z;
  frame_rate : option Z;
  channels : option Z
}.

Record SubtitleRenditionInfo : Set := mk_subtitle { sub_name : text; language : text; is_default : bool; autoselect : bool }.
Record VariantRenditionInfo : Set := mk_variant { info : MediaRenditionInfo; variant_uri : text }.

Definition yes_no (b : bool) : text := if b then txt "YES" else txt "NO".

(** The attributes of a rendition of subtitles in front of its URI. *)
Definition subtitle_media (sub : SubtitleRenditionInfo) (uri : text) : text :=
  line (quoted "#EXT-X-MEDIA:TYPE=SUBTITLES,GROUP-ID=~subs~,NAME=~" ++ sub_name sub ++ quoted "~,LANGUAGE=~" ++ language sub ++
        quoted "~,DEFAULT=" ++ yes_no (is_default sub) ++ txt ",AUTOSELECT=" ++ yes_no (autoselect sub) ++ quoted ",URI=~" ++ uri ++ [x22]).

Definition uid_query (session_id : option Z) : text :=
  match session_id with Some uid => txt "?uid=" ++ decimal uid | None => [] end.

Definition build_master_with_subtitles (stream_name : text) (session_id : Z) (subtitle : option SubtitleRenditionInfo)
    (subtitle_token : option text) : text :=
  line (txt "#EXTM3U") ++
  match subtitle with
  | Some sub =>
      subtitle_media sub (stream_name ++ txt "/subtitle.m3u8" ++ uid_query (Some session_id) ++
        match subtitle_token with Some t => if is_empty t then [] else txt "&k=" ++ t | None => [] end)
  | None => []
  end ++
  txt "#EXT-X-STREAM-INF:BANDWIDTH=2000000" ++
  (match subtitle with Some _ => quoted ",SUBTITLES=~subs~" | None => [] end) ++
  x0a :: line (stream_name ++ txt "/index.m3u8" ++ uid_query (Some session_id)).

Definition build_master (stream_name : text) (session_id : Z) : text := build_master_with_subtitles stream_name session_id None None.

Definition resolution (i : MediaRenditionInfo) : text :=
  match width i, height i with Some w, Some h => txt ",RESOLUTION=" ++ decimal w ++ x78 :: decimal h | _, _ => [] end.
Definition frame_rate_attr (i : MediaRenditionInfo) : text :=
  match frame_rate i with Some fps => txt ",FRAME-RATE=" ++ f64_fixed 3 fps | None => [] end.
Definition codecs_attr (c : text) : text := if is_empty c then [] else quoted ",CODECS=~" ++ c ++ [x22].
Definition group_attr {A} (attr : string) (group : option A) : text := match group with Some _ => quoted attr | None => [] end.

Definition build_master_with_variants (variants : list VariantRenditionInfo) (subtitle : option SubtitleRenditionInfo)
    (subtitle_uri : option text) : text :=
  line (txt "#EXTM3U") ++
  match subtitle with Some sub => subtitle_media sub (default [] subtitle_uri) | None => [] end ++
  concat (map (fun v => let i := info v in
    line (txt "#EXT-X-STREAM-INF:" ++ txt "BANDWIDTH=" ++ decimal (bandwidth i) ++ resolution i ++ frame_rate_attr i ++
          codecs_attr (codecs i) ++ group_attr ",SUBTITLES=~subs~" subtitle) ++
    line (variant_uri v)) variants) ++
  (if is_empty variants then line (txt "#EXT-X-STREAM-INF:BANDWIDTH=2000000") ++ line (txt "index.m3u8") else []).

Definition format_iso8601 (unix_ms : Z) : text :=
  let secs := Z.quot unix_ms 1000 in
  let millis := Z.abs (Z.rem unix_ms 1000) in
  let days_since_epoch := Z.quot secs 86400 in
  let time_of_day := Z.rem (Z.rem secs 86400 + 86400) 86400 in
  let hours := Z.quot time_of_day 3600 in
  let minutes := Z.quot (Z.rem time_of_day 3600) 60 in
  let seconds := Z.rem time_of_day 60 in
  let z := days_since_epoch + 719468 in
  let era := Z.quot (if 0 <=? z then z else z - 146096) 146097 in
  let doe := z - era * 146097 in
  let yoe := Z.quot (doe - Z.quot doe 1460 + Z.quot doe 36524 - Z.quot doe 146096) 365 in
  let y := yoe + era * 400 in
  let doy := doe - (365 * yoe + Z.quot yoe 4 - Z.quot yoe 100) in
  let mp := Z.quot (5 * doy + 2) 153 in
  let d := doy - Z.quot (153 * mp + 2) 5 + 1 in
  let m := if mp <? 10 then mp + 3 else mp - 9 in
  let y := if m <=? 2 then y + 1 else y in
  padded 4 y ++ x2d :: padded 2 m ++ x2d :: padded 2 d ++ x54 :: padded 2 hours ++ x3a :: padded 2 minutes ++
  x3a :: padded 2 seconds ++ x2e :: padded 3 millis ++ [x5a].

Definition version (c : HlsContainer) : Z := match c with ContainerTs => 3 | ContainerFmp4 => 7 end.
Definition extension (c : HlsContainer) : text := match c with ContainerTs => txt ".ts" | ContainerFmp4 => txt ".m4s" end.

Definition build_empty_media (c : HlsContainer) : text :=
  line (txt "#EXTM3U") ++ line (txt "#EXT-X-VERSION:" ++ decimal (version c)) ++ line (txt "#EXT-X-TARGETDURATION:4") ++
  line (txt "#EXT-X-MEDIA-SEQUENCE:0").

Definition map_tag (prefix : text) (session_id : option Z) : text :=
  line (quoted "#EXT-X-MAP:URI=~" ++ prefix ++ txt "init.mp4" ++ uid_query session_id ++ [x22]).

Definition date_tag (s : Segment) : text :=
  match program_date_time_ms s with
  | Some pdt_ms => line (txt "#EXT-X-PROGRAM-DATE-TIME:" ++ format_iso8601 pdt_ms)
  | None => []
  end.

Definition extinf (duration_secs : Z) : text := line (txt "#EXTINF:" ++ f64_fixed 3 duration_secs ++ [x2c]).

Definition duration_tag (n : Z) : text := line (txt "#EXT-X-TARGETDURATION:" ++ decimal n).
Definition sequence_tag (n : Z) : text := line (txt "#EXT-X-MEDIA-SEQUENCE:" ++ decimal n).

Definition build_media_with_container (r : SegmentRing) (session_id : option Z) (c : HlsContainer) : text :=
  if is_empty (segments r) then build_empty_media c
  else
    line (txt "#EXTM3U") ++
    line (txt "#EXT-X-VERSION:" ++ decimal (version c)) ++
    line (txt "#EXT-X-ALLOW-CACHE:NO") ++
    duration_tag (ceil_as_u64 (max_duration r)) ++
    sequence_tag (first_sequence r) ++
    (match c with ContainerFmp4 => map_tag [] session_id | ContainerTs => [] end) ++
    concat (map (fun s => date_tag s ++ extinf (seg_duration s) ++ line (seg_name s ++ extension c ++ uid_query session_id)) (segments r)).

Definition build_media (r : SegmentRing) (session_id : option Z) : text := build_media_with_container r session_id ContainerTs.
Definition build_media_delayed (r : SegmentRing) (session_id : option Z) : text := build_media_with_container r session_id ContainerTs.

Definition max_of (l : list Z) (fallback : Z) : Z := match l with [] => fallback | n :: l => fold_left Z.max l n end.

Definition build_live_file (files : list SegmentFileEntry) (media_sequence : Z) (c : HlsContainer) : text :=
  if is_empty files then build_empty_media c
  else
    line (txt "#EXTM3U") ++
    line (txt "#EXT-X-VERSION:" ++ decimal (version c)) ++
    line (txt "#EXT-X-ALLOW-CACHE:NO") ++
    duration_tag (max_of (map (fun f => ceil_as_u64 (file_duration f)) files) 4) ++
    sequence_tag media_sequence ++
    (match c with ContainerFmp4 => line (quoted "#EXT-X-MAP:URI=~init.mp4~") | ContainerTs => [] end) ++
    concat (map (fun f => extinf (file_duration f) ++ line (filename f ++ extension c)) files).

Definition build_vod (files : list SegmentFileEntry) (c : HlsContainer) : text :=
  build_live_file files 0 c ++ line (txt "#EXT-X-ENDLIST").

Definition build_vtt_media (m : VttMux) (session_id : option Z) : text :=
  match vtt_segments m with
  | [] => build_empty_media ContainerTs
  | s :: _ =>
    line (txt "#EXTM3U") ++
    line (txt "#EXT-X-VERSION:3") ++
    line (txt "#EXT-X-ALLOW-CACHE:NO") ++
    duration_tag (Z.max (max_of (map (fun s => ceil_as_u64 (vtt_duration s)) (vtt_segments m)) 4) 1) ++
    sequence_tag (vtt_sequence s) ++
    concat (map (fun s => extinf (vtt_duration s) ++ line (vtt_name s ++ txt ".vtt" ++ uid_query session_id)) (vtt_segments m))
  end.

Definition ll_segment (ll : LowLatencyState) (session_id : option Z) (prefix : text) (legacy : bool) (s : Segment) : text :=
  default [] (cue_tags s) ++ date_tag s ++
  (if legacy then []
   else match List.find (fun sp => parts_segment sp =? seg_sequence s) (completed_segments_parts ll) with
        | Some sp => format_part_tags (parts sp) prefix
        | None => []
        end) ++
  extinf (seg_duration s) ++ line (prefix ++ seg_name s ++ txt ".m4s" ++ uid_query session_id).

Definition build_media_ll (r : SegmentRing) (ll : LowLatencyState) (session_id : option Z) (prefix : text) (legacy concluded : bool) : text :=
  if is_empty (segments r) && is_empty (current_parts ll) then build_empty_media ContainerFmp4
  else
    line (txt "#EXTM3U") ++
    (if legacy then line (txt "#EXT-X-VERSION:6") else line (txt "#EXT-X-VERSION:9")) ++
    duration_tag (Z.max (ceil_as_u64 (max_duration r)) 1) ++
    sequence_tag (first_sequence r) ++
    (if legacy then [] else playlist_header_tags ll) ++
    map_tag prefix session_id ++
    concat (map (ll_segment ll session_id prefix legacy) (segments r)) ++
    (if negb legacy && negb (is_empty (current_parts ll)) then part_tags prefix ll else []) ++
    (if negb legacy && negb concluded then preload_hint_tag prefix ll else []) ++
    (if negb legacy && negb concluded then rendition_report_tags ll else []) ++
    (if concluded then line (txt "#EXT-X-ENDLIST") else []).

(** [DemuxedMasterPlaylist]. *)
Definition build_with_subtitles (video audio : option MediaRenditionInfo) (subtitle : option SubtitleRenditionInfo) (stream_name : text)
    (session_id : option Z) (include_stream_key : bool) (stream_key : text) : text :=
  let uid_suffix := uid_query session_id in
  let key_suffix :=
    if include_stream_key && negb (is_empty stream_key)
    then (if is_empty uid_suffix then x3f else x26) :: txt "k=" ++ stream_key else [] in
  let uri (playlist : string) := stream_name ++ txt playlist ++ uid_suffix ++ key_suffix in
  line (txt "#EXTM3U") ++ line (txt "#EXT-X-VERSION:9") ++ line (txt "#EXT-X-INDEPENDENT-SEGMENTS") ++
  match audio with
  | Some a =>
      line (quoted "#EXT-X-MEDIA:TYPE=AUDIO,GROUP-ID=~audio~,NAME=~default~,DEFAULT=YES,AUTOSELECT=YES,CHANNELS=~" ++
            decimal (default 2 (channels a)) ++ quoted "~,URI=~" ++ uri "/chunklist_audio.m3u8" ++ [x22])
  | None => []
  end ++
  match subtitle with Some sub => subtitle_media sub (uri "/chunklist_subtitles.m3u8") | None => [] end ++
  match video, audio with
  | Some v, _ =>
      let joined :=
        match audio with
        | Some a => if is_empty (codecs v) && is_empty (codecs a) then [] else codecs v ++ x2c :: codecs a
        | None => codecs v
        end in
      line (txt "#EXT-X-STREAM-INF:" ++ txt "BANDWIDTH=" ++ decimal (bandwidth v) ++ resolution v ++ frame_rate_attr v ++ codecs_attr joined ++
            group_attr ",AUDIO=~audio~" audio ++ group_attr ",SUBTITLES=~subs~" subtitle) ++
      line (uri "/chunklist_video.m3u8")
  | None, Some a =>
      line (txt "#EXT-X-STREAM-INF:" ++ txt "BANDWIDTH=" ++ decimal (bandwidth a) ++ codecs_attr (codecs a) ++
            group_attr ",SUBTITLES=~subs~" subtitle) ++
      line (uri "/chunklist_audio.m3u8")
  | None, None => []
  end.
Definition demuxed_build (video audio : option MediaRenditionInfo) (stream_name : text) (session_id : option Z) (include_stream_key : bool)
    (stream_key : text) : text := build_with_subtitles video audio None stream_name session_id include_stream_key stream_key.

(** ** Tokens in a playlist ([muxer.rs]) *)

(** [str::find] of a text. *)
Fixpoint find_str (p s : text) : option nat :=
  if starts_with p s then Some 0%nat
  else match s with [] => None | _ :: s => S <$> find_str p s end.

Definition append_query_to_uri (uri key value : text) : text :=
  uri ++ (if contains_byte x3f uri then x26 else x3f) :: key ++ x3d :: value.

Definition append_query_to_quoted_uri (l key value : text) : text :=
  match find_str (quoted "URI=~") l with
  | None => l
  | Some uri_pos =>
      let value_start := (uri_pos + 5)%nat in
      match find_byte x22 (drop value_start l) with
      | None => l
      | Some offset =>
          take value_start l ++ append_query_to_uri (take offset (drop value_start l)) key value ++ drop (value_start + offset) l
      end
  end.

Definition append_key_to_line (stream_key l : text) : text :=
  if starts_with (txt "#EXT-X-MAP:") l || starts_with (txt "#EXT-X-PART:") l || starts_with (txt "#EXT-X-PRELOAD-HINT:") l
  then append_query_to_quoted_uri l (txt "k") stream_key
  else if negb (is_empty l) && negb (starts_with [x23] l) then append_query_to_uri l (txt "k") stream_key
  else l.

Definition append_stream_key_to_playlist_uris (playlist stream_key : text) : text :=
  concat (map (fun l => line (append_key_to_line stream_key l)) (lines playlist)).

(** ** Reading playlists ([parser.rs]) *)

Record ParsedSegment : Set := mk_parsed_segment { parsed_duration : Z; parsed_uri : text }.
Record ParsedMediaPlaylist : Set := mk_parsed {
  target_duration : Z;
  media_sequence : Z;
  parsed_segments : list ParsedSegment;
  end_list : bool
}.
Record ParsedVariant : Set := mk_parsed_variant { parsed_bandwidth : Z; parsed_variant_uri : text }.

Definition not_m3u8 : HlsCoreError := InvalidPath (txt "not a valid M3U8 playlist").

(** A line, with the duration of the segment whose URI is to follow. *)
Definition media_line (acc : ParsedMediaPlaylist * option Z) (l : text) : ParsedMediaPlaylist * option Z :=
  let '(p, pending) := acc in
  let l := trim l in
  if is_empty l then acc
  else match strip_prefix (txt "#EXT-X-TARGETDURATION:") l with
  | Some val => (mk_parsed (default 0 (parse_uint 32 (trim val))) (media_sequence p) (parsed_segments p) (end_list p), pending)
  | None =>
  match strip_prefix (txt "#EXT-X-MEDIA-SEQUENCE:") l with
  | Some val => (mk_parsed (target_duration p) (default 0 (parse_uint 64 (trim val))) (parsed_segments p) (end_list p), pending)
  | None =>
  if equals l "#EXT-X-ENDLIST" then (mk_parsed (target_duration p) (media_sequence p) (parsed_segments p) true, pending)
  else match strip_prefix (txt "#EXTINF:") l with
  | Some val => (p, Some (default 0 (parse_f64 (trim (hd (txt "0") (split_at x2c val))))))
  | None =>
  if starts_with [x23] l then acc
  else match pending with
  | Some dur => (mk_parsed (target_duration p) (media_sequence p) (parsed_segments p ++ [mk_parsed_segment dur l]) (end_list p), None)
  | None => acc
  end end end end.

Definition parse_media_playlist (input : text) : result HlsCoreError ParsedMediaPlaylist :=
  if starts_with (txt "#EXTM3U") (trim_start input)
  then Ok (fst (fold_left media_line (lines input) (mk_parsed 0 0 [] false, None)))
  else Err not_m3u8.

Definition bandwidth_attr (pending : option Z) (attr : text) : option Z :=
  match strip_prefix (txt "BANDWIDTH=") (trim attr) with Some val => parse_uint 64 val | None => pending end.

Definition master_line (acc : list ParsedVariant * option Z) (l : text) : list ParsedVariant * option Z :=
  let '(variants, pending) := acc in
  let l := trim l in
  match strip_prefix (txt "#EXT-X-STREAM-INF:") l with
  | Some attrs => (variants, fold_left bandwidth_attr (split_at x2c attrs) pending)
  | None =>
      if negb (starts_with [x23] l) && negb (is_empty l)
      then match pending with Some bw => (variants ++ [mk_parsed_variant bw l], None) | None => acc end
      else acc
  end.

Definition parse_master_playlist (input : text) : result HlsCoreError (list ParsedVariant) :=
  if starts_with (txt "#EXTM3U") (trim_start input)
  then Ok (fst (fold_left master_line (lines input) ([], None)))
  else Err not_m3u8.

(** ** Requests ([request.rs]) *)

Record StreamKeyParts : Set := mk_key { namespace : text; stream_path : text }.
Record BlockingParams : Set := mk_blocking { msn : Z; part : option Z }.
Inductive SkipMode : Set := SkipYes | SkipV2.

Inductive HlsRequestKind : Set :=
  | MasterPlaylist (stream_key : StreamKeyParts)
  | MediaPlaylist (stream_key : StreamKeyParts) (session_id : option Z) (blocking : option BlockingParams) (skip : option SkipMode)
      (legacy rewind : bool)
  | RSegment (stream_key : StreamKeyParts) (segment_name : text) (session_id : option Z) (key_token : option text)
  | RInitSegment (stream_key : StreamKeyParts) (session_id : option Z) (key_token : option text)
  | RPart (stream_key : StreamKeyParts) (part_name : text) (session_id : option Z) (key_token : option text)
  | TrackMediaPlaylist (stream_key : StreamKeyParts) (lane : TrackLane) (session_id : option Z) (blocking : option BlockingParams)
      (skip : option SkipMode) (key_token : option text)
  | TrackInitSegment (stream_key : StreamKeyParts) (lane : TrackLane) (session_id : option Z) (key_token : option text)
  | TrackPart (stream_key : StreamKeyParts) (lane : TrackLane) (part_name : text) (session_id : option Z) (key_token : option text)
  | TrackSegment (stream_key : StreamKeyParts) (lane : TrackLane) (segment_name : text) (session_id : option Z) (key_token : option text)
  | SubtitleMediaPlaylist (stream_key : StreamKeyParts) (session_id : option Z) (key_token : option text)
  | SubtitleSegment (stream_key : StreamKeyParts) (segment_name : text) (session_id : option Z) (key_token : option text)
  | PlayerPage (stream_key : StreamKeyParts).

Record QueryParams : Set := mk_params {
  uid : option Z;
  q_msn : option Z;
  q_part : option Z;
  q_skip : option SkipMode;
  q_legacy : bool;
  q_rewind : bool;
  q_key_token : option text
}.

Definition query_pair (p : QueryParams) (pair : text) : QueryParams :=
  if is_empty pair then p
  else match split_once x3d pair with
  | None => p
  | Some (key, val) =>
      if equals key "uid" || equals key "session"
      then mk_params (parse_uint 64 val) (q_msn p) (q_part p) (q_skip p) (q_legacy p) (q_rewind p) (q_key_token p)
      else if equals key "_HLS_msn"
      then mk_params (uid p) (parse_uint 64 val) (q_part p) (q_skip p) (q_legacy p) (q_rewind p) (q_key_token p)
      else if equals key "_HLS_part"
      then mk_params (uid p) (q_msn p) (parse_uint 64 val) (q_skip p) (q_legacy p) (q_rewind p) (q_key_token p)
      else if equals key "_HLS_skip"
      then mk_params (uid p) (q_msn p) (q_part p) (Some (if equals val "v2" then SkipV2 else SkipYes)) (q_legacy p) (q_rewind p) (q_key_token p)
      else if equals key "_HLS_legacy"
      then mk_params (uid p) (q_msn p) (q_part p) (q_skip p) (eq_ignore_ascii_case val (txt "YES")) (q_rewind p) (q_key_token p)
      else if equals key "_HLS_rewind"
      then mk_params (uid p) (q_msn p) (q_part p) (q_skip p) (q_legacy p) (eq_ignore_ascii_case val (txt "YES")) (q_key_token p)
      else if equals key "k"
      then mk_params (uid p) (q_msn p) (q_part p) (q_skip p) (q_legacy p) (q_rewind p) (Some val)
      else p
  end.

Definition query_parse (query : text) : QueryParams :=
  fold_left query_pair (split_at x26 query) (mk_params None None None None false false None).

Definition q_blocking (p : QueryParams) : option BlockingParams := (fun m => mk_blocking m (q_part p)) <$> q_msn p.

Definition parse_chunklist_lane (base : text) : option TrackLane :=
  if equals base "chunklist_video" then Some LaneVideo
  else if equals base "chunklist_audio" then Some LaneAudio
  else None.

(** The route of a file of a stream; [None] when there is none. *)
Definition route_m4s (key : StreamKeyParts) (seg_name : text) (p : QueryParams) : HlsRequestKind :=
  match strip_prefix (txt "video_part_") seg_name with
  | Some rest => TrackPart key LaneVideo (txt "video_part_" ++ rest) (uid p) (q_key_token p)
  | None =>
  match strip_prefix (txt "audio_part_") seg_name with
  | Some rest => TrackPart key LaneAudio (txt "audio_part_" ++ rest) (uid p) (q_key_token p)
  | None =>
  match strip_prefix (txt "video_seg_") seg_name with
  | Some rest => TrackSegment key LaneVideo (txt "video_seg_" ++ rest) (uid p) (q_key_token p)
  | None =>
  match strip_prefix (txt "audio_seg_") seg_name with
  | Some rest => TrackSegment key LaneAudio (txt "audio_seg_" ++ rest) (uid p) (q_key_token p)
  | None =>
      if starts_with (txt "part_") seg_name then RPart key seg_name (uid p) (q_key_token p)
      else RSegment key seg_name (uid p) (q_key_token p)
  end end end end.

Definition route_file (key : StreamKeyParts) (file : text) (p : QueryParams) : option HlsRequestKind :=
  match strip_suffix (txt ".m3u8") file with
  | Some base =>
      Some (if equals base "subtitle" || equals base "chunklist_subtitles"
            then SubtitleMediaPlaylist key (uid p) (q_key_token p)
            else match parse_chunklist_lane base with
                 | Some lane => TrackMediaPlaylist key lane (uid p) (q_blocking p) (q_skip p) (q_key_token p)
                 | None => MediaPlaylist key (uid p) (q_blocking p) (q_skip p) (q_legacy p) (q_rewind p)
                 end)
  | None =>
  if equals file "init.mp4" || equals file "init.mp" then Some (RInitSegment key (uid p) (q_key_token p))
  else if equals file "init_video.mp4" then Some (TrackInitSegment key LaneVideo (uid p) (q_key_token p))
  else if equals file "init_audio.mp4" then Some (TrackInitSegment key LaneAudio (uid p) (q_key_token p))
  else match strip_suffix (txt ".m4s") file with
  | Some seg_name => Some (route_m4s key seg_name p)
  | None =>
  match strip_suffix (txt ".ts") file with
  | Some seg_name => Some (RSegment key seg_name (uid p) (q_key_token p))
  | None =>
  match strip_suffix (txt ".vtt") file with
  | Some seg_name => Some (SubtitleSegment key (seg_name ++ txt ".vtt") (uid p) (q_key_token p))
  | None => None
  end end end end.

(** The path, for which a trailing slash asks for the page of the player. *)
Definition route_path (path : text) (p : QueryParams) : option HlsRequestKind :=
  match components path with
  | [ns; file] =>
      if ends_with [x2f] path then Some (PlayerPage (mk_key ns file))
      else (fun stream => MasterPlaylist (mk_key ns stream)) <$> strip_suffix (txt ".m3u8") file
  | [ns; stream; file] => route_file (mk_key ns stream) file p
  | _ => None
  end.

Definition parse_hls_request (target : text) : result HlsCoreError HlsRequestKind :=
  let '(path, query) := default (target, []) (split_once x3f target) in
  let params := query_parse query in
  let path := default path (strip_prefix [x2f] path) in
  match route_path path params with
  | Some kind => Ok kind
  | None => Err (InvalidPath target)
  end.

(** ** The core ([session.rs]) *)

Record HlsRequestHeaders : Set := mk_headers {
  authorization : option text;
  user_agent : option text;
  if_none_match : option text;
  accept_gzip : bool
}.

Inductive HttpMethod : Set := HttpGet | HttpOptions | HttpHead | HttpOther.

Inductive HlsCoreCommand : Set :=
  | SendPlaylist (connection_id : Z) (content : text)
  | SendSegment (connection_id : Z) (data : list byte)
  | SendError (connection_id : Z) (error : HlsCoreError).

Inductive HlsCoreInput : Set :=
  | HttpRequest (method : HttpMethod) (target : text) (connection_id : Z) (headers : HlsRequestHeaders)
  | Command (cmd : HlsCoreCommand).

Inductive HlsCoreEvent : Set :=
  | MasterPlaylistRequested (connection_id : Z) (stream_key : StreamKeyParts) (headers : HlsRequestHeaders)
  | MediaPlaylistRequested (connection_id : Z) (stream_key : StreamKeyParts) (session_id : option Z) (legacy rewind : bool)
      (headers : HlsRequestHeaders)
  | BlockingPlaylistRequested (connection_id : Z) (stream_key : StreamKeyParts) (session_id : option Z) (blocking : BlockingParams)
      (skip : option SkipMode) (legacy rewind : bool) (headers : HlsRequestHeaders)
  | SegmentRequested (connection_id : Z) (stream_key : StreamKeyParts) (segment_name : text) (session_id : option Z) (key_token : option text)
  | InitSegmentRequested (connection_id : Z) (stream_key : StreamKeyParts) (session_id : option Z) (key_token : option text)
  | PartRequested (connection_id : Z) (stream_key : StreamKeyParts) (part_name : text) (session_id : option Z) (key_token : option text)
  | TrackMediaPlaylistRequested (connection_id : Z) (stream_key : StreamKeyParts) (lane : TrackLane) (session_id : option Z)
      (blocking : option BlockingParams) (skip : option SkipMode) (key_token : option text) (headers : HlsRequestHeaders)
  | TrackInitSegmentRequested (connection_id : Z) (stream_key : StreamKeyParts) (lane : TrackLane) (session_id : option Z)
      (key_token : option text)
  | TrackPartRequested (connection_id : Z) (stream_key : StreamKeyParts) (lane : TrackLane) (part_name : text) (session_id : option Z)
      (key_token : option text)
  | TrackSegmentRequested (connection_id : Z) (stream_key : StreamKeyParts) (lane : TrackLane) (segment_name : text) (session_id : option Z)
      (key_token : option text)
  | SubtitleMediaPlaylistRequested (connection_id : Z) (stream_key : StreamKeyParts) (session_id : option Z) (key_token : option text)
      (headers : HlsRequestHeaders)
  | SubtitleSegmentRequested (connection_id : Z) (stream_key : StreamKeyParts) (segment_name : text) (session_id : option Z)
      (key_token : option text).

Inductive HlsCoreOutput : Set :=
  | SendResponse (connection_id : Z) (status : Z) (content_type : text) (body : list byte) (headers : list (text * text))
  | Event (e : HlsCoreEvent).

Definition cors_headers : list (text * text) :=
  [(txt "Access-Control-Allow-Origin", txt "*");
   (txt "Access-Control-Allow-Methods", txt "GET, HEAD, OPTIONS");
   (txt "Access-Control-Allow-Headers", txt "Origin, Range, Accept-Encoding, Referer, If-None-Match, Cookie");
   (txt "Access-Control-Expose-Headers", txt "Content-Length, Content-Range, ETag, Set-Cookie");
   (txt "Access-Control-Max-Age", txt "86400")].
Definition cors_headers_with_cache_control (directive : text) : list (text * text) := cors_headers ++ [(txt "Cache-Control", directive)].

Definition generate_player_html (stream_name playlist_url : text) : text :=
  let safe_name := replace x22 (txt "&quot;") (replace x3e (txt "&gt;") (replace x3c (txt "&lt;") (replace x26 (txt "&amp;") stream_name))) in
  let safe_url := replace x27 (txt "\x27") (replace x22 (txt "&quot;") (replace x26 (txt "&amp;") playlist_url)) in
  quoted "<!DOCTYPE html>
<html><head><meta charset=~utf-8~><meta name=~viewport~ content=~width=device-width,initial-scale=1~>
<title>HLS Player - " ++ safe_name ++ quoted "</title>
<style>body{margin:0;background:#000;display:flex;align-items:center;justify-content:center;height:100vh}
video{max-width:100%;max-height:100%}#info{position:fixed;top:10px;left:10px;color:#0f0;font:12px monospace;white-space:pre}</style>
</head><body><video id=~v~ controls muted playsinline></video><div id=~info~></div>
<script src=~https://cdn.jsdelivr.net/npm/hls.js@latest/dist/hls.min.js~></script>
<script>
var v=document.getElementById('v'),info=document.getElementById('info'),audioTracks=0,sbTypes=[];
if(Hls.isSupported()){
var h=new Hls({lowLatencyMode:true,liveSyncDurationCount:3,liveMaxLatencyDurationCount:6,backBufferLength:30,debug:false});
h.loadSource('" ++ safe_url ++ quoted "');h.attachMedia(v);
h.on(Hls.Events.MANIFEST_PARSED,function(e,d){audioTracks=d.audioTracks?d.audioTracks.length:0;v.play().catch(function(e){console.warn('play rejected:',e.message)});});
h.on(Hls.Events.BUFFER_CREATED,function(e,d){if(d.tracks)sbTypes=Object.keys(d.tracks);});
var fatalCount=0;
h.on(Hls.Events.ERROR,function(e,d){
  console.error('hls.js error:',d.type,d.details,d.fatal,d);
  if(d.fatal){fatalCount++;if(fatalCount<2&&d.type===Hls.ErrorTypes.MEDIA_ERROR)h.recoverMediaError();else{info.textContent='FATAL: '+d.details;h.destroy();}}
});
setInterval(function(){
  var buf='none';
  if(v.buffered.length>0)buf=v.buffered.start(0).toFixed(1)+'-'+v.buffered.end(0).toFixed(1);
  var lat=h.latency!==undefined?h.latency.toFixed(2)+'s':'?';
  info.textContent='state:'+v.readyState+' buf:'+buf+' lat:'+lat+' t:'+v.currentTime.toFixed(1)+'\naudio:'+audioTracks+' sb:['+sbTypes.join(',')+']';
},300);
}else if(v.canPlayType('application/vnd.apple.mpegurl')){v.src='" ++ safe_url ++ quoted "';v.play().catch(function(){});}
</script></body></html>".

Definition respond (connection_id status : Z) (content_type body : text) : list HlsCoreOutput :=
  [SendResponse connection_id status content_type body cors_headers].

Definition dispatch_request (connection_id : Z) (headers : HlsRequestHeaders) (kind : HlsRequestKind) : list HlsCoreOutput :=
  match kind with
  | MasterPlaylist key => [Event (MasterPlaylistRequested connection_id key headers)]
  | MediaPlaylist key session_id (Some blocking) skip legacy rewind =>
      [Event (BlockingPlaylistRequested connection_id key session_id blocking skip legacy rewind headers)]
  | MediaPlaylist key session_id None skip legacy rewind => [Event (MediaPlaylistRequested connection_id key session_id legacy rewind headers)]
  | RSegment key segment_name session_id token => [Event (SegmentRequested connection_id key segment_name session_id token)]
  | RInitSegment key session_id token => [Event (InitSegmentRequested connection_id key session_id token)]
  | RPart key part_name session_id token => [Event (PartRequested connection_id key part_name session_id token)]
  | PlayerPage key =>
      respond connection_id 200 (txt "text/html; charset=utf-8")
        (generate_player_html (stream_path key) (txt "../" ++ stream_path key ++ txt ".m3u8"))
  | TrackMediaPlaylist key lane session_id blocking skip token =>
      [Event (TrackMediaPlaylistRequested connection_id key lane session_id blocking skip token headers)]
  | TrackInitSegment key lane session_id token => [Event (TrackInitSegmentRequested connection_id key lane session_id token)]
  | TrackPart key lane part_name session_id token => [Event (TrackPartRequested connection_id key lane part_name session_id token)]
  | TrackSegment key lane segment_name session_id token => [Event (TrackSegmentRequested connection_id key lane segment_name session_id token)]
  | SubtitleMediaPlaylist key session_id token => [Event (SubtitleMediaPlaylistRequested connection_id key session_id token headers)]
  | SubtitleSegment key segment_name session_id token => [Event (SubtitleSegmentRequested connection_id key segment_name session_id token)]
  end.

Definition handle_http_request (method : HttpMethod) (target : text) (connection_id : Z) (headers : HlsRequestHeaders) : list HlsCoreOutput :=
  match method with
  | HttpOptions => respond connection_id 204 [] []
  | HttpOther => respond connection_id 405 (txt "text/plain") (txt "Method Not Allowed")
  | HttpGet | HttpHead =>
      match parse_hls_request target with
      | Ok kind => dispatch_request connection_id headers kind
      | Err _ => respond connection_id 404 (txt "text/plain") (txt "Not Found")
      end
  end.

Definition error_response (e : HlsCoreError) : Z * text :=
  match e with
  | StreamNotFound _ => (404, txt "Stream Not Found")
  | SegmentNotFound _ => (404, txt "Segment Not Found")
  | NotReady => (503, txt "Not Ready")
  | InvalidPath _ | InvalidTimestamp => (400, txt "Bad Request")
  end.

Definition handle_command (cmd : HlsCoreCommand) : list HlsCoreOutput :=
  match cmd with
  | SendPlaylist connection_id content =>
      [SendResponse connection_id 200 (txt "application/vnd.apple.mpegurl") content (cors_headers_with_cache_control (txt "no-cache"))]
  | SendSegment connection_id data => respond connection_id 200 (txt "video/mp2t") data
  | SendError connection_id error => let '(status, msg) := error_response error in respond connection_id status (txt "text/plain") msg
  end.

(** The core keeps no state. *)
Definition handle_input (input : HlsCoreInput) : list HlsCoreOutput :=
  match input with
  | HttpRequest method target connection_id headers => handle_http_request method target connection_id headers
  | Command cmd => handle_command cmd
  end.

(** ** The player ([player.rs]) *)

Inductive BandwidthStrategy : Set := Highest | Lowest | Auto (safety_factor : Z).

(** [seen_uris] is a set, without repetitions. *)
Record HlsPlayerState : Set := mk_player {
  selected_variant_uri : option text;
  last_sequence : Z;
  seen_uris : list text;
  estimated_bandwidth : Z;
  target_duration_ms : Z;
  unchanged_count : Z;
  is_live : bool
}.

Definition player_new : HlsPlayerState := mk_player None (-1) [] 0 4000 0 true.

(** [max_by_key] takes the last of the greatest, [min_by_key] the first of the least. *)
Definition max_by_bandwidth (l : list ParsedVariant) : option ParsedVariant :=
  fold_left (fun best v => match best with
                           | Some b => if parsed_bandwidth b <=? parsed_bandwidth v then Some v else best
                           | None => Some v
                           end) l None.
Definition min_by_bandwidth (l : list ParsedVariant) : option ParsedVariant :=
  fold_left (fun best v => match best with
                           | Some b => if parsed_bandwidth v <? parsed_bandwidth b then Some v else best
                           | None => Some v
                           end) l None.

Definition select_variant (variants : list ParsedVariant) (strategy : BandwidthStrategy) (s : HlsPlayerState)
    : HlsPlayerState * option ParsedVariant :=
  let variant :=
    match strategy with
    | Highest => max_by_bandwidth variants
    | Lowest => min_by_bandwidth variants
    | Auto safety_factor =>
        let threshold := f64_to_u64 (f64_mul (u64_to_f64 (estimated_bandwidth s)) safety_factor) in
        match max_by_bandwidth (List.filter (fun v => parsed_bandwidth v <=? threshold) variants) with
        | Some v => Some v
        | None => min_by_bandwidth variants
        end
    end in
  match variant with
  | Some v =>
      (mk_player (Some (parsed_variant_uri v)) (last_sequence s) (seen_uris s) (estimated_bandwidth s) (target_duration_ms s)
         (unchanged_count s) (is_live s), Some v)
  | None => (s, None)
  end.

Definition MAX_SEEN_URIS : nat := Z.to_nat 1024.

(** The URI without its query, and [HashSet::insert]. *)
Definition uri_key (uri : text) : text := hd uri (split_at x3f uri).
Definition set_insert (k : text) (set : list text) : list text := if bool_decide (k ∈ set) then set else set ++ [k].

Definition note_segment (acc : list text * list text) (s : ParsedSegment) : list text * list text :=
  let '(seen, new) := acc in
  let key := uri_key (parsed_uri s) in
  if bool_decide (key ∈ seen) then acc else (set_insert key seen, new ++ [parsed_uri s]).

Definition on_playlist (p : ParsedMediaPlaylist) (s : HlsPlayerState) : HlsPlayerState * list text :=
  let new_sequence := wrap_i 64 (media_sequence p) in
  let '(last, unchanged) :=
    if last_sequence s <? new_sequence then (new_sequence, 0) else (last_sequence s, sat_u 8 (unchanged_count s + 1)) in
  let '(seen, new_segments) := fold_left note_segment (parsed_segments p) (seen_uris s, []) in
  let seen :=
    if (MAX_SEEN_URIS <? length seen)%nat
    then fold_left (fun seen s => set_insert (uri_key (parsed_uri s)) seen) (parsed_segments p) [] else seen in
  (mk_player (selected_variant_uri s) last seen (estimated_bandwidth s) (target_duration p * 1000) unchanged (negb (end_list p)),
   new_segments).

Definition refresh_delay_ms (s : HlsPlayerState) : Z :=
  if negb (is_live s) then 0
  else if unchanged_count s =? 0 then target_duration_ms s / 2
  else wrap_u 64 (target_duration_ms s * Z.min (unchanged_count s + 1) 5) / 2.

Definition update_bandwidth (bytes duration_ms : Z) (s : HlsPlayerState) : HlsPlayerState :=
  if duration_ms =? 0 then s
  else
    let bps := wrap_u 64 (bytes * 1000) / duration_ms in
    let estimate := if estimated_bandwidth s =? 0 then bps else wrap_u 64 (wrap_u 64 (estimated_bandwidth s * 7) + bps) / 8 in
    mk_player (selected_variant_uri s) (last_sequence s) (seen_uris s) estimate (target_duration_ms s) (unchanged_count s) (is_live s).

(** ** Pacing ([pacer.rs]) *)

Record PacedFrame : Set := mk_paced {
  paced_dts_ms : Z;
  paced_data : list byte;
  paced_kind : MediaKind;
  paced_codec : CodecId;
  paced_pts_ms : Z;
  paced_keyframe : bool
}.

Record HlsPlaybackPacer : Set := mk_pacer {
  buffer : list PacedFrame;
  play_start_us : option Z;
  first_dts_ms : option Z;
  max_buffer_ms : Z
}.

Definition pacer_new (max_buffer_ms : Z) : HlsPlaybackPacer := mk_pacer [] None None max_buffer_ms.

Definition pacer_push (f : PacedFrame) (p : HlsPlaybackPacer) : HlsPlaybackPacer :=
  let first := match first_dts_ms p with None => Some (paced_dts_ms f) | Some d => Some d end in
  mk_pacer (buffer p ++ [f]) (play_start_us p) first (max_buffer_ms p).

(** How far the last frame of the buffer is from the first frame of the playback. *)
Definition buffer_span_ms (first_dts : Z) (frames : list PacedFrame) : Z :=
  match last frames with Some b => Z.max 0 (paced_dts_ms b - first_dts) | None => 0 end.

(** What is played and what stays in the buffer. *)
Fixpoint drain_frames (first_dts elapsed_ms max_buffer : Z) (force_drain : bool) (frames : list PacedFrame)
    : list PacedFrame * list PacedFrame :=
  match frames with
  | [] => ([], [])
  | front :: rest =>
      if (Z.max 0 (paced_dts_ms front - first_dts) <=? elapsed_ms) || force_drain then
        if force_drain && (buffer_span_ms first_dts rest <=? max_buffer / 2) then ([front], rest)
        else let '(out, kept) := drain_frames first_dts elapsed_ms max_buffer force_drain rest in (front :: out, kept)
      else ([], frames)
  end.

Definition drain_ready (now_us : Z) (p : HlsPlaybackPacer) : HlsPlaybackPacer * list PacedFrame :=
  match play_start_us p, is_empty (buffer p) with
  | None, true => (p, [])
  | start, _ =>
      let play_start := default now_us start in
      match first_dts_ms p with
      | None => (mk_pacer (buffer p) (Some play_start) None (max_buffer_ms p), [])
      | Some first_dts =>
          let elapsed_ms := Z.max 0 (now_us - play_start) / 1000 in
          let force_drain := max_buffer_ms p <? buffer_span_ms first_dts (buffer p) in
          let '(out, kept) := drain_frames first_dts elapsed_ms (max_buffer_ms p) force_drain (buffer p) in
          (mk_pacer kept (Some play_start) (Some first_dts) (max_buffer_ms p), out)
      end
  end.

Definition pacer_reset (p : HlsPlaybackPacer) : HlsPlaybackPacer := mk_pacer [] None None (max_buffer_ms p).

Record StampSmoother : Set := mk_smoother {
  last_input : Z;
  last_output : Z;
  offset : Z;
  max_forward_jump_ms : Z;
  max_backward_jump_ms : Z;
  started : bool
}.

Definition smoother_new (max_forward_jump_ms max_backward_jump_ms : Z) : StampSmoother :=
  mk_smoother 0 0 0 max_forward_jump_ms max_backward_jump_ms false.

Definition smooth (input_ms : Z) (s : StampSmoother) : StampSmoother * Z :=
  if negb (started s)
  then (mk_smoother input_ms 0 (wrap_i 64 (- input_ms)) (max_forward_jump_ms s) (max_backward_jump_ms s) true, 0)
  else
    let delta := wrap_i 64 (input_ms - last_input s) in
    let offset :=
      if (max_forward_jump_ms s <? delta) || (delta <? wrap_i 64 (- max_backward_jump_ms s))
      then wrap_i 64 (last_output s + 33 - input_ms) else offset s in
    let output := Z.max (wrap_i 64 (input_ms + offset)) 0 in
    (mk_smoother input_ms output offset (max_forward_jump_ms s) (max_backward_jump_ms s) true, output).

Definition smoother_reset (s : StampSmoother) : StampSmoother :=
  mk_smoother 0 0 0 (max_forward_jump_ms s) (max_backward_jump_ms s) false.

(** ** Pulling ([pull.rs]) *)

Inductive PullError : Set :=
  | OnlyHttp
  | BadPort (port : text)
  | NoHeaderEnd
  | HeaderNotUtf8
  | EmptyResponse
  | HttpError (status_line : text)
  | PlaylistNotUtf8
  | PlaylistParse (e : HlsCoreError).

Definition parse_http_url (url : text) : result PullError (text * Z * text) :=
  match strip_prefix (txt "http://") url with
  | None => Err OnlyHttp
  | Some url =>
      let '(host_port, path) := match find_byte x2f url with Some i => (take i url, drop i url) | None => (url, txt "/") end in
      match find_byte x3a host_port with
      | Some i =>
          match parse_uint 16 (drop (i + 1) host_port) with
          | Some port => Ok (take i host_port, port, path)
          | None => Err (BadPort (drop (i + 1) host_port))
          end
      | None => Ok (host_port, 80, path)
      end
  end.

Definition resolve_url (base_url relative : text) : text :=
  if starts_with (txt "http://") relative || starts_with (txt "https://") relative then relative
  else match before_last x2f base_url with Some base => base ++ x2f :: relative | None => relative end.

Definition pull_request (host path : text) : text :=
  txt "GET " ++ path ++ txt " HTTP/1.1" ++ [x0d; x0a] ++ txt "Host: " ++ host ++ [x0d; x0a] ++ txt "Connection: close" ++ [x0d; x0a] ++
  txt "User-Agent: cheetah-hls/1.0" ++ [x0d; x0a; x0d; x0a].

(** The body of a response that was read to its end. *)
Definition response_body (buf : list byte) : result PullError (list byte) :=
  match find_str [x0d; x0a; x0d; x0a] buf with
  | None => Err NoHeaderEnd
  | Some header_end =>
      let header := take header_end buf in
      if negb (utf8_valid header) then Err HeaderNotUtf8
      else match lines header with
      | [] => Err EmptyResponse
      | status_line :: _ =>
          match find_str (txt "200") status_line with
          | None => Err (HttpError status_line)
          | Some _ => Ok (drop (header_end + 4) buf)
          end
      end
  end.

(** What a session fetches goes over the network. *)
Section fetch.
Context (fetch : text -> result PullError (list byte)).

(** The segments of a playlist: those not yet downloaded, up to the first that cannot be. *)
Fixpoint pull_segments (source_url : text) (downloaded : list text) (segs : list ParsedSegment) : list text * list (list byte) :=
  match segs with
  | [] => (downloaded, [])
  | s :: segs =>
      if bool_decide (parsed_uri s ∈ downloaded) then pull_segments source_url downloaded segs
      else match fetch (resolve_url source_url (parsed_uri s)) with
      | Ok data =>
          let '(downloaded, fed) := pull_segments source_url (set_insert (parsed_uri s) downloaded) segs in (downloaded, data :: fed)
      | Err _ => (downloaded, [])
      end
  end.

Definition trim_downloaded (segs : list ParsedSegment) (downloaded : list text) : list text :=
  if (100 <? length downloaded)%nat then fold_left (fun set s => set_insert (parsed_uri s) set) segs [] else downloaded.

(** One round of [run_pull_session]: the set after it, and the segments given to the demuxer. *)
Definition pull_round (source_url : text) (downloaded : list text) : result PullError (list text * list (list byte)) :=
  playlist_body <-? fetch source_url ;;
  if negb (utf8_valid playlist_body) then Err PlaylistNotUtf8
  else match parse_media_playlist playlist_body with
  | Err e => Err (PlaylistParse e)
  | Ok parsed =>
      let '(downloaded, fed) := pull_segments source_url downloaded (parsed_segments parsed) in
      Ok (trim_downloaded (parsed_segments parsed) downloaded, fed)
  end.
End fetch.

(** ** Examples from the tests *)

Definition ex_ring : SegmentRing :=
  let f (n : Z) r := fst (ring_push (txt "seg_" ++ decimal n) (f64_round (4123 + n) 1000) [byte_of n] true r) in
  f 3 (f 2 (f 1 (f 0 (ring_new 3)))).

Example ring_evicts_oldest :
  (length (segments ex_ring), first_sequence ex_ring, seg_name <$> ring_get (txt "seg_0") ex_ring, seg_name <$> ring_get (txt "seg_3") ex_ring)
  = (3%nat, 1, None, Some (txt "seg_3")).
Proof. vm_compute. reflexivity. Qed.

Example media_playlist_format :
  build_media ex_ring (Some 99) =
  line (txt "#EXTM3U") ++ line (txt "#EXT-X-VERSION:3") ++ line (txt "#EXT-X-ALLOW-CACHE:NO") ++ line (txt "#EXT-X-TARGETDURATION:5") ++
  line (txt "#EXT-X-MEDIA-SEQUENCE:1") ++
  line (txt "#EXTINF:4.124,") ++ line (txt "seg_1.ts?uid=99") ++ line (txt "#EXTINF:4.125,") ++ line (txt "seg_2.ts?uid=99") ++
  line (txt "#EXTINF:4.126,") ++ line (txt "seg_3.ts?uid=99").
Proof. vm_compute. reflexivity. Qed.

Example format_iso8601_examples : map format_iso8601 [0; 1778893323456; 1000]
  = [txt "1970-01-01T00:00:00.000Z"; txt "2026-05-16T01:02:03.456Z"; txt "1970-01-01T00:00:01.000Z"].
Proof. vm_compute. reflexivity. Qed.

(** A second before the epoch is given as the last second of the day that begins with it. *)
Example iso8601_before_epoch : format_iso8601 (-1000) = txt "1970-01-01T23:59:59.000Z".
Proof. vm_compute. reflexivity. Qed.

Example parse_media_playlist_with_uid :
  parse_hls_request (txt "/live/stream/index.m3u8?uid=42")
  = Ok (MediaPlaylist (mk_key (txt "live") (txt "stream")) (Some 42) None None false false).
Proof. vm_compute. reflexivity. Qed.

Example parse_player_page : parse_hls_request (txt "/live/stream/") = Ok (PlayerPage (mk_key (txt "live") (txt "stream"))).
Proof. vm_compute. reflexivity. Qed.

(** A target of 1001 ms is reached after 1000 ms: the product with 1000 of the quotient by 1000
    lies below it and is truncated. *)
Example part_cut_early : should_cut_part 1000 (note_sample 0 true (ll_new 1001 5)) = true.
Proof. vm_compute. reflexivity. Qed.

Example ll_part_tags :
  let s := fst (finalize_part [] (f64_round 2 10) (note_sample 0 true (ll_new 200 5))) in
  part_tags [] (fst (finalize_part [] (f64_round 2 10) (note_sample 200 false s))) ++ preload_hint_tag [] s
  = line (quoted "#EXT-X-PART:DURATION=0.200,URI=~part_0.m4s~,INDEPENDENT=YES") ++ line (quoted "#EXT-X-PART:DURATION=0.200,URI=~part_1.m4s~") ++
    line (quoted "#EXT-X-PRELOAD-HINT:TYPE=PART,URI=~part_1.m4s~").
Proof. vm_compute. reflexivity. Qed.

Example smoother_restart : let s := fst (smooth 1000 (smoother_new 500 500)) in snd (smooth 90000 (fst (smooth 1040 s))) = 73.
Proof. vm_compute. reflexivity. Qed.
