(* ===== verification/HlsSpec.v ===== *)
(** * HLS: the stream gets through

    About [Hls]. The text of a playlist is read back: every segment of the ring with its address
    and its duration in milliseconds. A puller that polls the playlist and asks the core for what
    it lists is given every segment once, in order, while it keeps up with the ring. *)
From Stdlib Require Import Strings.Byte Strings.String Sorting.Sorted.
From S2P Require Import Prelude RtmpBytes Amf Codecs Tracks Text Hls.
Local Open Scope string_scope.
Local Open Scope list_scope.
Local Open Scope Z_scope.

(** ** Plain text: printable ASCII without spaces *)

Definition plain_char (b : byte) : bool := (0x21 <=? byte_val b) && (byte_val b <=? 0x7e).
Definition plain (s : text) : bool := forallb plain_char s.

Lemma plain_app s t : plain (s ++ t) = plain s && plain t.
Proof. apply forallb_app. Qed.

Lemma plain_without b s : plain_char b = false -> plain s = true -> b ∉ s.
Proof. intros B P H. apply (proj1 (forallb_forall _ _)) with (x := b) in P; [by rewrite B in P|]. by apply list_elem_of_In. Qed.

Lemma plain_digits s : Forall (fun b => is_Some (digit b)) s -> plain s = true.
Proof.
  intros D. apply forallb_forall. intros b H%list_elem_of_In. rewrite Forall_forall in D. pose proof (digit_range b (D b H)) as R.
  unfold plain_char. by rewrite !(proj2 (Z.leb_le _ _)) by lia.
Qed.

Lemma digits_are z : Forall (fun b => is_Some (digit b)) (digits z) /\ digits z <> [].
Proof. apply decimal_loop_digits; [constructor|by left]. Qed.

Lemma plain_decimal z : plain (decimal z) = true.
Proof. apply plain_digits, decimal_digits. Qed.

Lemma zeros_are w s : Forall (fun b => is_Some (digit b)) s -> Forall (fun b => is_Some (digit b)) (zeros w s).
Proof.
  intros D. apply Forall_app. split; [|done]. apply Forall_forall. intros b H%list_elem_of_In%repeat_spec. subst. by eexists.
Qed.

Lemma plain_zeros w z : plain (zeros w (digits z)) = true.
Proof. apply plain_digits, zeros_are, digits_are. Qed.

Lemma plain_padded w z : plain (padded w z) = true.
Proof. unfold padded. destruct (z <? 0); [change (plain (x2d :: ?s)) with (plain s)|]; apply plain_zeros. Qed.

Lemma plain_fixed p bits : plain (f64_fixed p bits) = true.
Proof.
  unfold f64_fixed. destruct (f64_is_nan bits); [done|]. rewrite plain_app. apply andb_true_intro. split; [by destruct (f64_negative bits)|].
  destruct (f64_is_inf bits); [done|]. cbv zeta. rewrite plain_app. apply andb_true_intro. split; [apply plain_digits, digits_are|].
  apply plain_zeros.
Qed.

Lemma plain_iso8601 t : plain (format_iso8601 t) = true.
Proof.
  unfold format_iso8601. cbv zeta. rewrite ?plain_app, plain_padded. cbn [andb].
  repeat (change (plain (?c :: ?s ++ ?t)) with (plain_char c && plain (s ++ t)); rewrite plain_app, plain_padded; cbn [andb]). done.
Qed.

Lemma plain_no_space b s : plain_char b = true -> ws_prefix (b :: s) = 0%nat.
Proof. intros P. destruct b; (discriminate P || reflexivity). Qed.

Lemma plain_no_space_behind c s s' : rev s = c :: s' -> plain_char c = true -> ws_suffix s = 0%nat.
Proof. intros E P. unfold ws_suffix, ends_with. rewrite E. destruct c; (discriminate P || reflexivity). Qed.

Lemma trim_plain s : plain s = true -> trim s = s.
Proof.
  intros P. apply trim_trimmed. unfold trimmed. destruct s as [|b s]; [done|].
  rewrite plain_no_space by (by apply andb_prop in P as [? _]). destruct (rev (b :: s)) as [|c s'] eqn:E; [by apply app_eq_nil in E as [_ ?]|].
  rewrite (plain_no_space_behind c _ _ E); [done|]. apply (proj1 (forallb_forall _ _) P). rewrite in_rev, E. by left.
Qed.

Lemma utf8_ascii s : Forall (fun b => byte_val b < 128) s -> utf8_valid s = true.
Proof. intros F. induction F as [|b s B F IH]; [done|]. cbn [utf8_valid]. by rewrite (proj2 (Z.ltb_lt _ _)) by lia. Qed.

(** *** Lines *)

Lemma strip_cr_plain s : plain s = true -> strip_cr s = s.
Proof.
  intros P. unfold strip_cr, strip_suffix, ends_with. cbn [rev app].
  destruct (starts_with [x0d] (rev s)) eqn:E; [|done]. apply starts_with_spec in E as [t E].
  destruct (plain_without x0d s eq_refl P). apply list_elem_of_In, in_rev. rewrite E. by left.
Qed.

Lemma lines_loop_line s t word : x0a ∉ s -> lines_loop (line s ++ t) word = strip_cr (word ++ s) :: lines_loop t [].
Proof.
  revert word. induction s as [|b s IH]; intros word N; [cbn; by rewrite app_nil_r|].
  apply not_elem_of_cons in N as [N1 N2]. change (line (b :: s) ++ t) with (b :: (line s ++ t)). cbn [lines_loop].
  rewrite bool_decide_false by done. rewrite IH by done. by rewrite <- app_assoc.
Qed.

Lemma lines_text ls : Forall (fun l => plain l = true) ls -> lines (concat (map line ls)) = ls.
Proof.
  intros F. unfold lines. induction F as [|l ls P F IH]; [done|]. cbn [map concat].
  rewrite lines_loop_line by (by apply plain_without). cbn [app]. rewrite strip_cr_plain by done. by rewrite IH.
Qed.

Lemma lines_utf8 ls : Forall (fun l => plain l = true) ls -> utf8_valid (concat (map line ls)) = true.
Proof.
  intros F. apply utf8_ascii. induction F as [|l ls P F IH]; [constructor|]. cbn [map concat]. unfold line. rewrite <- app_assoc.
  apply Forall_app. split; [|by constructor]. apply Forall_forall. intros b H%list_elem_of_In.
  apply (proj1 (forallb_forall _ _) P) in H. apply andb_prop in H as [_ H%Z.leb_le]. lia.
Qed.

(** ** A playlist is read back *)

Definition with_token (token : option text) (playlist : text) : text :=
  match token with Some k => append_stream_key_to_playlist_uris playlist k | None => playlist end.
Definition keyed (token : option text) (l : text) : text :=
  match token with Some k => append_key_to_line k l | None => l end.

Definition segment_uri (c : HlsContainer) (sid : option Z) (token : option text) (name : text) : text :=
  keyed token (name ++ extension c ++ uid_query sid).

(** The lines of a playlist. *)
Definition segment_lines (c : HlsContainer) (sid : option Z) (s : Segment) : list text :=
  match program_date_time_ms s with Some t => [txt "#EXT-X-PROGRAM-DATE-TIME:" ++ format_iso8601 t] | None => [] end ++
  [txt "#EXTINF:" ++ f64_fixed 3 (seg_duration s) ++ [x2c]; seg_name s ++ extension c ++ uid_query sid].

Definition map_lines (c : HlsContainer) (sid : option Z) : list text :=
  match c with ContainerFmp4 => [quoted "#EXT-X-MAP:URI=~" ++ txt "init.mp4" ++ uid_query sid ++ [x22]] | ContainerTs => [] end.

Definition playlist_lines (r : SegmentRing) (sid : option Z) (c : HlsContainer) : list text :=
  if is_empty (segments r)
  then [txt "#EXTM3U"; txt "#EXT-X-VERSION:" ++ decimal (version c); txt "#EXT-X-TARGETDURATION:4"; txt "#EXT-X-MEDIA-SEQUENCE:0"]
  else [txt "#EXTM3U"; txt "#EXT-X-VERSION:" ++ decimal (version c); txt "#EXT-X-ALLOW-CACHE:NO";
        txt "#EXT-X-TARGETDURATION:" ++ decimal (ceil_as_u64 (max_duration r));
        txt "#EXT-X-MEDIA-SEQUENCE:" ++ decimal (first_sequence r)] ++ map_lines c sid ++
       concat (map (segment_lines c sid) (segments r)).

Lemma concat_lines_app ls ms : concat (map line (ls ++ ms)) = concat (map line ls) ++ concat (map line ms).
Proof. by rewrite map_app, concat_app. Qed.

Lemma concat_lines_concat {A} (f : A -> list text) l : concat (map line (concat (map f l))) = concat (map (fun x => concat (map line (f x))) l).
Proof. induction l as [|x l IH]; [done|]. cbn [map concat]. by rewrite concat_lines_app, IH. Qed.

Lemma playlist_is_lines r sid c : build_media_with_container r sid c = concat (map line (playlist_lines r sid c)).
Proof.
  unfold build_media_with_container, playlist_lines. destruct (is_empty (segments r)).
  { unfold build_empty_media. cbn [map concat]. by rewrite app_nil_r. }
  rewrite !concat_lines_app, concat_lines_concat. cbn [map concat]. rewrite app_nil_r, <- !app_assoc.
  assert (E : match c with ContainerFmp4 => map_tag [] sid | ContainerTs => [] end = concat (map line (map_lines c sid))).
  { destruct c; [done|]. cbn [map_lines map concat]. by rewrite app_nil_r. }
  rewrite E. repeat (apply (f_equal (app _))). clear E.
  f_equal. apply map_ext. intros s. unfold date_tag, segment_lines, extinf.
  destruct (program_date_time_ms s); cbn [app map concat]; by rewrite app_nil_r.
Qed.

Lemma plain_take n s : plain s = true -> plain (take n s) = true.
Proof. intros P. rewrite <- (take_drop n s), plain_app in P. by apply andb_prop in P as [? _]. Qed.
Lemma plain_drop n s : plain s = true -> plain (drop n s) = true.
Proof. intros P. rewrite <- (take_drop n s), plain_app in P. by apply andb_prop in P as [_ ?]. Qed.

Lemma plain_query uri k : plain uri = true -> plain k = true -> plain (append_query_to_uri uri (txt "k") k) = true.
Proof. intros U K. unfold append_query_to_uri. rewrite plain_app, U. by destruct (contains_byte x3f uri). Qed.

Lemma plain_keyed token l : (forall k, token = Some k -> plain k = true) -> plain l = true -> plain (keyed token l) = true.
Proof.
  intros K P. destruct token as [k|]; [|done]. specialize (K k eq_refl). cbn [keyed]. unfold append_key_to_line.
  destruct (starts_with (txt "#EXT-X-MAP:") l || starts_with (txt "#EXT-X-PART:") l || starts_with (txt "#EXT-X-PRELOAD-HINT:") l).
  - unfold append_query_to_quoted_uri. destruct (find_str (quoted "URI=~") l) as [i|]; [|done].
    destruct (find_byte x22 (drop (i + 5) l)) as [j|]; [|done]. rewrite !plain_app. rewrite plain_take by done.
    rewrite plain_query by (done || by apply plain_take, plain_drop). by apply plain_drop.
  - destruct (negb (is_empty l) && negb (starts_with [x23] l)); [by apply plain_query|done].
Qed.

Lemma with_token_lines token ls :
  Forall (fun l => plain l = true) ls -> with_token token (concat (map line ls)) = concat (map line (map (keyed token) ls)).
Proof.
  intros F. destruct token as [k|]; cbn [with_token]; [|by rewrite map_id]. unfold append_stream_key_to_playlist_uris.
  by rewrite lines_text, map_map.
Qed.

Lemma plain_uid sid : plain (uid_query sid) = true.
Proof. destruct sid; [|done]. cbn [uid_query]. by rewrite plain_app, plain_decimal. Qed.

Lemma plain_extension c : plain (extension c) = true.
Proof. by destruct c. Qed.

#[local] Hint Rewrite plain_app plain_uid plain_extension plain_decimal plain_fixed plain_iso8601 : plain.

Lemma playlist_plain r sid c :
  Forall (fun s => plain (seg_name s) = true) (segments r) -> Forall (fun l => plain l = true) (playlist_lines r sid c).
Proof.
  intros F. unfold playlist_lines. destruct (is_empty (segments r)).
  { repeat constructor. by autorewrite with plain. }
  apply Forall_app. split; [repeat constructor; by autorewrite with plain|]. apply Forall_app. split.
  - destruct c; repeat constructor. by autorewrite with plain.
  - induction F as [|s l P F IH]; [done|]. cbn [map concat]. apply Forall_app. split; [|done]. apply Forall_app. split.
    + destruct (program_date_time_ms s); repeat constructor. by autorewrite with plain.
    + repeat constructor; autorewrite with plain; [done|]. by rewrite P.
Qed.

(** *** Line by line *)

(** Membership in a list that is written out. *)
Ltac listed := first [apply elem_of_cons; left; reflexivity | apply elem_of_cons; right; listed].

Lemma comment_line p l acc :
  p ∈ [txt "#EXTM3U"; txt "#EXT-X-VERSION:"; txt "#EXT-X-ALLOW-CACHE:"; txt "#EXT-X-MAP:"; txt "#EXT-X-PROGRAM-DATE-TIME:"] ->
  plain (p ++ l) = true -> media_line acc (p ++ l) = acc.
Proof.
  intros H P. unfold media_line. rewrite trim_plain by done. destruct acc as [q pending].
  repeat (apply elem_of_cons in H as [->|H]; [reflexivity|]). by apply elem_of_nil in H.
Qed.

Lemma comment_literal (l : string) acc : media_line (fst acc, None) (txt l) = (fst acc, None) -> starts_with [x23] (txt l) = true -> plain (txt l) = true -> media_line acc (txt l) = acc.
Proof.
  unfold media_line. intros E H P. destruct acc as [p pending]. cbn [fst] in E. rewrite trim_plain in * by done. rewrite H in *.
  destruct (is_empty (txt l)); [done|]. destruct (strip_prefix (txt "#EXT-X-TARGETDURATION:") (txt l)); [by injection E as ->|].
  destruct (strip_prefix (txt "#EXT-X-MEDIA-SEQUENCE:") (txt l)); [by injection E as ->|]. destruct (equals _ _); [by injection E as ->|].
  by destruct (strip_prefix (txt "#EXTINF:") (txt l)).
Qed.

Lemma duration_line n p pending :
  media_line (p, pending) (txt "#EXT-X-TARGETDURATION:" ++ decimal n)
  = (mk_parsed (default 0 (parse_uint 32 (decimal n))) (media_sequence p) (parsed_segments p) (end_list p), pending).
Proof.
  unfold media_line. rewrite (trim_plain (_ ++ _)) by (rewrite plain_app; apply plain_decimal).
  transitivity (mk_parsed (default 0 (parse_uint 32 (trim (decimal n)))) (media_sequence p) (parsed_segments p) (end_list p), pending); [reflexivity|].
  by rewrite trim_plain by apply plain_decimal.
Qed.

Lemma sequence_line n p pending :
  media_line (p, pending) (txt "#EXT-X-MEDIA-SEQUENCE:" ++ decimal n)
  = (mk_parsed (target_duration p) (default 0 (parse_uint 64 (decimal n))) (parsed_segments p) (end_list p), pending).
Proof.
  unfold media_line. rewrite (trim_plain (_ ++ _)) by (rewrite plain_app; apply plain_decimal).
  transitivity (mk_parsed (target_duration p) (default 0 (parse_uint 64 (trim (decimal n)))) (parsed_segments p) (end_list p), pending); [reflexivity|].
  by rewrite trim_plain by apply plain_decimal.
Qed.

Lemma split_comma s : x2c ∉ s -> split_at x2c (s ++ [x2c]) = [s; []].
Proof.
  intros N. unfold split_at, split_str. rewrite length_app. cbn [length].
  change (split_loop (length s + 1) [x2c] (s ++ [x2c] ++ []) = [s; []]). rewrite split_loop_word by (done || (cbn [length]; lia)).
  by destruct (length s + 1 - S (length s))%nat.
Qed.

Definition printed_duration (bits : Z) : Z := default 0 (parse_f64 (f64_fixed 3 bits)).

Definition no_comma (b : byte) : bool := negb (bool_decide (b = x2c)).
Lemma digits_no_comma s : Forall (fun b => is_Some (digit b)) s -> x2c ∉ s.
Proof. intros D H. rewrite Forall_forall in D. by destruct (D _ H). Qed.

Lemma fixed_no_comma p bits : x2c ∉ f64_fixed p bits.
Proof.
  unfold f64_fixed. destruct (f64_is_nan bits); [exact (bool_decide_eq_false_1 (x2c ∈ txt "NaN") eq_refl)|].
  rewrite elem_of_app. intros [H|H].
  { destruct (f64_negative bits); [|by apply elem_of_nil in H]. by apply list_elem_of_singleton in H. }
  destruct (f64_is_inf bits).
  { revert H. exact (bool_decide_eq_false_1 (x2c ∈ txt "inf") eq_refl). }
  cbv zeta in H. apply elem_of_app in H as [H|[H|H]%elem_of_cons]; [|done|].
  - by apply digits_no_comma in H; [|apply digits_are].
  - by apply digits_no_comma in H; [|apply zeros_are, digits_are].
Qed.

Lemma extinf_line d p pending :
  media_line (p, pending) (txt "#EXTINF:" ++ f64_fixed 3 d ++ [x2c]) = (p, Some (printed_duration d)).
Proof.
  unfold media_line. rewrite (trim_plain (_ ++ _)) by (rewrite !plain_app, plain_fixed; done).
  transitivity (p, Some (default 0 (parse_f64 (trim (hd (txt "0") (split_at x2c (f64_fixed 3 d ++ [x2c]))))))); [reflexivity|].
  rewrite split_comma by apply fixed_no_comma. cbn [hd]. by rewrite trim_plain by apply plain_fixed.
Qed.

Definition is_uri (l : text) : bool := plain l && match l with b :: _ => negb (bool_decide (b = x23)) | [] => false end.

Lemma is_uri_app l t : is_uri l = true -> plain t = true -> is_uri (l ++ t) = true.
Proof.
  unfold is_uri. intros [P H]%andb_prop T. rewrite plain_app, P, T. by destruct l.
Qed.

Lemma uri_not_tag b p l : is_uri l = true -> b = x23 -> starts_with (b :: p) l = false.
Proof.
  intros [_ H]%andb_prop ->. destruct l as [|c l]; [done|]. apply starts_with_cons_ne. intros <-. by rewrite bool_decide_true in H.
Qed.

Lemma uri_line l d p : is_uri l = true ->
  media_line (p, Some d) l
  = (mk_parsed (target_duration p) (media_sequence p) (parsed_segments p ++ [mk_parsed_segment d l]) (end_list p), None).
Proof.
  intros U. pose proof (uri_not_tag x23) as T. unfold media_line. apply andb_prop in U as U'. destruct U' as [P H]. rewrite trim_plain by done.
  unfold strip_prefix. change (txt "#EXT-X-TARGETDURATION:") with (x23 :: txt "EXT-X-TARGETDURATION:").
  change (txt "#EXT-X-MEDIA-SEQUENCE:") with (x23 :: txt "EXT-X-MEDIA-SEQUENCE:"). change (txt "#EXTINF:") with (x23 :: txt "EXTINF:").
  rewrite !T by done. unfold equals. rewrite bool_decide_false; [by destruct l|]. intros ->. vm_compute in H. done.
Qed.

Lemma keyed_uri token l : (forall k, token = Some k -> plain k = true) -> is_uri l = true -> is_uri (keyed token l) = true.
Proof.
  intros K U. destruct token as [k|]; [|done]. specialize (K k eq_refl). cbn [keyed]. unfold append_key_to_line.
  change (txt "#EXT-X-MAP:") with (x23 :: txt "EXT-X-MAP:"). change (txt "#EXT-X-PART:") with (x23 :: txt "EXT-X-PART:").
  change (txt "#EXT-X-PRELOAD-HINT:") with (x23 :: txt "EXT-X-PRELOAD-HINT:"). rewrite !(uri_not_tag x23) by done. cbn [orb].
  destruct (is_empty l) eqn:E; [by destruct l|]. cbn [negb andb]. unfold append_query_to_uri. apply is_uri_app; [done|].
  by destruct (contains_byte x3f l).
Qed.

(** The token does not touch other tags, and leaves the tag of the initialization segment one. *)
Lemma keyed_other token p l :
  p ∈ [txt "#EXTM3U"; txt "#EXT-X-VERSION:"; txt "#EXT-X-ALLOW-CACHE:"; txt "#EXT-X-TARGETDURATION:"; txt "#EXT-X-MEDIA-SEQUENCE:";
       txt "#EXT-X-PROGRAM-DATE-TIME:"; txt "#EXTINF:"] ->
  keyed token (p ++ l) = p ++ l.
Proof.
  intros H. destruct token as [k|]; [|done]. repeat (apply elem_of_cons in H as [->|H]; [reflexivity|]). by apply elem_of_nil in H.
Qed.

Lemma keyed_literal (l : string) token : keyed (Some []) (txt l) = txt l -> keyed token (txt l) = txt l.
Proof.
  destruct token as [k|]; [|done]. cbn [keyed]. unfold append_key_to_line.
  destruct (starts_with (txt "#EXT-X-MAP:") (txt l) || starts_with (txt "#EXT-X-PART:") (txt l) || starts_with (txt "#EXT-X-PRELOAD-HINT:") (txt l)).
  - unfold append_query_to_quoted_uri. destruct (find_str _ _) as [i|]; [|done]. destruct (find_byte _ _) as [j|]; [|done].
    intros E%(f_equal length). exfalso. rewrite !length_app in E. unfold append_query_to_uri in E. rewrite length_app in E. cbn [length] in E.
    pose proof (take_drop i (txt l)) as T. apply (f_equal length) in T. rewrite !length_take, !length_drop in E. cbn in E. lia.
  - destruct (negb (is_empty (txt l)) && negb (starts_with [x23] (txt l))); [|done].
    intros E%(f_equal length). exfalso. unfold append_query_to_uri in E. rewrite length_app in E. cbn in E. lia.
Qed.

Lemma keyed_map token l : exists l', keyed token (txt "#EXT-X-MAP:" ++ l) = txt "#EXT-X-MAP:" ++ l'.
Proof.
  destruct token as [k|]; [|by eexists]. cbn [keyed]. unfold append_key_to_line. rewrite starts_with_app. cbn [orb].
  unfold append_query_to_quoted_uri. destruct (find_str (quoted "URI=~") (txt "#EXT-X-MAP:" ++ l)) as [i|] eqn:E; [|by eexists].
  assert (N : (11 <= i)%nat).
  { do 11 (destruct i as [|i]; [exfalso; revert E; cbn; repeat destruct (find_str _ _); discriminate|]). lia. }
  destruct (find_byte x22 _) as [j|]; [|by eexists].
  rewrite take_app. rewrite take_ge by (change (length (txt "#EXT-X-MAP:")) with 11%nat; lia). rewrite <- app_assoc. by eexists.
Qed.

Definition parsed_segment (c : HlsContainer) (sid : option Z) (token : option text) (s : Segment) : ParsedSegment :=
  mk_parsed_segment (printed_duration (seg_duration s)) (segment_uri c sid token (seg_name s)).

Lemma segment_lines_read c sid token s p :
  (forall k, token = Some k -> plain k = true) -> is_uri (seg_name s) = true ->
  fold_left media_line (map (keyed token) (segment_lines c sid s)) (p, None)
  = (mk_parsed (target_duration p) (media_sequence p) (parsed_segments p ++ [parsed_segment c sid token s]) (end_list p), None).
Proof.
  intros K U. unfold segment_lines. rewrite map_app, fold_left_app.
  assert (E : fold_left media_line (map (keyed token) match program_date_time_ms s with Some t => [txt "#EXT-X-PROGRAM-DATE-TIME:" ++ format_iso8601 t] | None => [] end) (p, None) = (p, None)).
  { destruct (program_date_time_ms s); [|done]. cbn [map fold_left]. rewrite keyed_other by listed.
    apply comment_line; [listed|]. by rewrite plain_app, plain_iso8601. }
  rewrite E. cbn [map fold_left]. rewrite keyed_other by listed. rewrite extinf_line. apply uri_line, keyed_uri; [done|].
  apply is_uri_app; [done|]. by rewrite plain_app, plain_extension, plain_uid.
Qed.

Lemma segments_read c sid token segs p :
  (forall k, token = Some k -> plain k = true) -> Forall (fun s => is_uri (seg_name s) = true) segs ->
  fold_left media_line (map (keyed token) (concat (map (segment_lines c sid) segs))) (p, None)
  = (mk_parsed (target_duration p) (media_sequence p) (parsed_segments p ++ map (parsed_segment c sid token) segs) (end_list p), None).
Proof.
  intros K F. revert p. induction F as [|s segs U F IH]; intros p; cbn [map concat]; [rewrite app_nil_r; by destruct p|].
  rewrite map_app, fold_left_app, segment_lines_read by done. rewrite IH. cbn. by rewrite <- app_assoc.
Qed.

Lemma map_line_read c sid token p : (forall k, token = Some k -> plain k = true) ->
  fold_left media_line (map (keyed token) (map_lines c sid)) (p, None) = (p, None).
Proof.
  intros K. destruct c; [done|]. cbn [map_lines map fold_left].
  assert (P : plain (quoted "#EXT-X-MAP:URI=~" ++ txt "init.mp4" ++ uid_query sid ++ [x22]) = true) by (rewrite !plain_app, plain_uid; done).
  apply (plain_keyed token) in P; [|done]. change (quoted "#EXT-X-MAP:URI=~") with (txt "#EXT-X-MAP:" ++ quoted "URI=~") in *.
  rewrite <- app_assoc in *. destruct (keyed_map token (quoted "URI=~" ++ txt "init.mp4" ++ uid_query sid ++ [x22])) as [l' E].
  rewrite E in *. apply comment_line; [listed|done].
Qed.

Definition playlist_text (r : SegmentRing) (sid : option Z) (c : HlsContainer) (token : option text) : text :=
  with_token token (build_media_with_container r sid c).

Lemma playlist_read r sid c token :
  (forall k, token = Some k -> plain k = true) -> Forall (fun s => is_uri (seg_name s) = true) (segments r) -> in_u 64 (first_sequence r) ->
  utf8_valid (playlist_text r sid c token) = true /\
  parse_media_playlist (playlist_text r sid c token)
  = Ok (mk_parsed (if is_empty (segments r) then 4 else default 0 (parse_uint 32 (decimal (ceil_as_u64 (max_duration r)))))
          (first_sequence r) (map (parsed_segment c sid token) (segments r)) false).
Proof.
  intros K F Q. unfold playlist_text. rewrite playlist_is_lines.
  assert (P : Forall (fun l => plain l = true) (playlist_lines r sid c)).
  { apply playlist_plain. apply (Forall_impl _ _ _ F). by intros s [? _]%andb_prop. }
  rewrite with_token_lines by done.
  assert (P' : Forall (fun l => plain l = true) (map (keyed token) (playlist_lines r sid c))).
  { apply Forall_map. apply (Forall_impl _ _ _ P). intros l ?. by apply plain_keyed. }
  split; [by apply lines_utf8|]. unfold parse_media_playlist. rewrite lines_text by done.
  assert (S0 : starts_with (txt "#EXTM3U") (trim_start (concat (map line (map (keyed token) (playlist_lines r sid c))))) = true).
  { assert (exists ls, playlist_lines r sid c = txt "#EXTM3U" :: ls) as [ls ->] by (unfold playlist_lines; destruct (is_empty (segments r)); by eexists).
    cbn [map]. rewrite (keyed_literal "#EXTM3U") by done. cbn [concat]. unfold trim_start, line. rewrite <- !app_assoc.
    destruct (length _); reflexivity. }
  rewrite S0. do 2 f_equal. unfold playlist_lines. destruct (is_empty (segments r)) eqn:E.
  - assert (N : segments r = []) by (by destruct (segments r)). cbn [map fold_left]. rewrite !keyed_literal, (keyed_other token (txt "#EXT-X-VERSION:")) by (done || listed).
    rewrite (comment_literal "#EXTM3U"), (comment_line (txt "#EXT-X-VERSION:")) by (done || listed || (rewrite plain_app; apply plain_decimal)).
    unfold first_sequence. rewrite N. reflexivity.
  - rewrite !map_app, !fold_left_app. cbn [map fold_left]. rewrite !keyed_literal, !keyed_other by (done || listed).
    rewrite (comment_literal "#EXTM3U"), (comment_line (txt "#EXT-X-VERSION:")) by (done || listed || (rewrite plain_app; apply plain_decimal)).
    rewrite (comment_literal "#EXT-X-ALLOW-CACHE:NO") by done.
    rewrite duration_line, sequence_line, map_line_read by done. rewrite segments_read by done. cbn [target_duration media_sequence parsed_segments end_list fst app].
    by rewrite (parse_decimal 64).
Qed.

(** *** Durations *)

Lemma take_digits_val s rest v n v' :
  digits_val s v = Some v' -> (forall b t, rest = b :: t -> digit b = None) -> take_digits (s ++ rest) v n = (v', (n + length s)%nat, rest).
Proof.
  revert v n. induction s as [|b s IH]; intros v n E R; cbn [digits_val app length] in *.
  - injection E as ->. rewrite Nat.add_0_r. destruct rest as [|b t]; [done|]. cbn [take_digits]. by rewrite (R b t eq_refl).
  - cbn [take_digits]. destruct (digit b) as [d|] eqn:D; [|done]. cbn in E. rewrite IH by done. do 2 f_equal. lia.
Qed.

Lemma digits_val_of z : 0 <= z < 10 ^ 330 -> digits_val (digits z) 0 = Some z.
Proof.
  intros R. destruct (decimal_loop_val 330 z [] R) as (k & _ & H). unfold digits. rewrite H. cbn [digits_val]. by rewrite Z.mul_0_l, Z.add_0_l.
Qed.

Lemma digits_val_shift s v w : digits_val s 0 = Some w -> digits_val s v = Some (v * 10 ^ Z.of_nat (length s) + w).
Proof.
  enough (G : forall s u v w, digits_val s u = Some w -> digits_val s (u + v) = Some (v * 10 ^ Z.of_nat (length s) + w))
    by (intros H; by apply (G s 0 v w)).
  clear. intros s. induction s as [|b s IH]; intros u v w E; cbn [digits_val length] in *; [injection E as ->; f_equal; lia|].
  destruct (digit b) as [d|]; [|done]. cbn in *. replace ((u + v) * 10 + d) with (u * 10 + d + v * 10) by lia.
  rewrite (IH _ _ _ E). f_equal. rewrite Nat2Z.inj_succ, Z.pow_succ_r by lia. lia.
Qed.

Lemma three_places r : 0 <= r < 1000 -> digits_val (zeros 3 (digits r)) 0 = Some r /\ length (zeros 3 (digits r)) = 3%nat.
Proof.
  intros R. set (ok r := bool_decide (digits_val (zeros 3 (digits r)) 0 = Some r) && (length (zeros 3 (digits r)) =? 3)%nat).
  assert (A : forallb ok (map Z.of_nat (seq 0 1000)) = true) by (vm_compute; reflexivity).
  apply (proj1 (forallb_forall _ _)) with (x := r) in A.
  - apply andb_prop in A as [A%bool_decide_eq_true B%Nat.eqb_eq]. done.
  - apply in_map_iff. exists (Z.to_nat r). split; [lia|]. apply in_seq. lia.
Qed.

(** A double that is not negative, infinite or [NaN]. *)
Definition finite_duration (bits : Z) : bool := (0 <=? bits) && (bits <? F64_INFINITY).

Lemma finite_parts bits : finite_duration bits = true ->
  f64_is_nan bits = false /\ f64_is_inf bits = false /\ f64_negative bits = false /\
  0 <= fst (f64_ratio bits) < 2 ^ 1024 * snd (f64_ratio bits) /\ 0 < snd (f64_ratio bits).
Proof.
  intros [L%Z.leb_le H%Z.ltb_lt]%andb_prop. unfold F64_INFINITY in H.
  assert (E : 0 <= f64_exponent bits < 2047) by (unfold f64_exponent; zdm).
  pose proof (Z.mod_pos_bound bits (2 ^ 52) ltac:(lia)) as F. fold (f64_fraction bits) in F.
  unfold f64_is_nan, f64_is_inf, f64_negative. rewrite (proj2 (Z.eqb_neq (f64_exponent bits) 2047)) by lia.
  do 3 (split; [done || by apply Z.leb_gt; lia|]). unfold f64_ratio. destruct (Z.eqb_spec (f64_exponent bits) 0); cbn [fst snd].
  { split; [split; [lia|]|lia]. change (2 ^ 1024 * 2 ^ 1074) with (2 ^ 52 * 2 ^ 2046). lia. }
  split; [|lia]. split; [lia|]. destruct (Z.le_gt_cases 1075 (f64_exponent bits)).
  - rewrite (Z.max_r 0 (_ - 1075)), (Z.max_l 0) by lia. rewrite Z.mul_1_r.
    apply Z.lt_le_trans with (2 ^ 53 * 2 ^ (f64_exponent bits - 1075)); [apply Z.mul_lt_mono_pos_r; lia|].
    rewrite <- Z.pow_add_r by lia. apply Z.pow_le_mono_r; lia.
  - rewrite (Z.max_l 0 (_ - 1075)) by lia. pose proof (Z.pow_pos_nonneg 2 (Z.max 0 (1075 - f64_exponent bits))). nia.
Qed.

(** The milliseconds nearest to a duration. *)
Definition millis (bits : Z) : Z := round_even (fst (f64_ratio bits) * 1000) (snd (f64_ratio bits)).

Lemma round_even_bounds num den : 0 < den -> 0 <= num -> 0 <= round_even num den /\ 2 * Z.abs (round_even num den * den - num) <= den.
Proof.
  intros D N. unfold round_even. pose proof (Z.div_mod num den ltac:(lia)) as E. pose proof (Z.mod_pos_bound num den D) as M.
  pose proof (Z.div_pos num den N D). split; [destruct (_ || _); lia|].
  destruct (Z.ltb_spec den (2 * (num mod den))); cbn [orb]; [nia|]. destruct (Z.eqb_spec (2 * (num mod den)) den); cbn [andb]; [|nia].
  destruct (Z.odd (num / den)); nia.
Qed.

Lemma parse_places v : 0 <= v < 10 ^ 330 -> parse_number (digits (v / 1000) ++ x2e :: zeros 3 (digits (v mod 1000))) = Some (v, 1000).
Proof.
  intros V. assert (Q : 0 <= v / 1000 < 10 ^ 330) by zdm. destruct (three_places (v mod 1000)) as [Z0 Z3]; [zdm|].
  apply digits_val_shift with (v := v / 1000) in Z0. rewrite Z3 in Z0. apply digits_val_of in Q.
  unfold parse_number. rewrite (take_digits_val (digits (v / 1000)) (x2e :: zeros 3 (digits (v mod 1000))) 0 0 (v / 1000) Q) by (by intros b t [= <- <-]).
  rewrite <- (app_nil_r (zeros 3 _)). rewrite (take_digits_val _ [] _ _ _ Z0) by done. rewrite Z3.
  destruct (Nat.eqb_spec (0 + length (digits (v / 1000)) + (0 + 3)) 0); [lia|].
  cbn [mbind option_bind]. change (Z.max 0 (0 - Z.of_nat (0 + 3))) with 0. change (Z.max 0 (- (0 - Z.of_nat (0 + 3)))) with 3.
  change (Z.of_nat 3) with 3. change (10 ^ 0) with 1. change (10 ^ 3) with 1000. do 2 f_equal. zdm.
Qed.

Lemma parse_f64_number s num den : Forall (fun b => is_Some (digit b)) (take 1 s) -> s <> [] -> parse_number s = Some (num, den) ->
  parse_f64 s = Some (f64_round num den).
Proof.
  intros F N P. unfold parse_f64. destruct s as [|b s]; [done|]. apply Forall_cons in F as [[d Hd] _].
  assert (PS : parse_sign (b :: s) = (false, b :: s)) by (by destruct b). rewrite PS. cbn [is_empty]. by rewrite P.
Qed.

Lemma millis_range bits : finite_duration bits = true -> 0 <= millis bits < 10 ^ 330.
Proof.
  intros (N & I & S0 & R & D)%finite_parts. unfold millis.
  destruct (round_even_bounds (fst (f64_ratio bits) * 1000) (snd (f64_ratio bits)) D ltac:(lia)) as [V0 V1].
  split; [done|]. apply Z.le_lt_trans with (2 ^ 1024 * 1000 + 1); [|by vm_compute].
  generalize dependent (round_even (fst (f64_ratio bits) * 1000) (snd (f64_ratio bits))). generalize dependent (2 ^ 1024). intros. nia.
Qed.

Lemma printed_is_millis bits : finite_duration bits = true -> printed_duration bits = f64_round (millis bits) 1000.
Proof.
  intros F. pose proof (millis_range bits F) as V. destruct (finite_parts bits F) as (N & I & S0 & _).
  unfold printed_duration, f64_fixed. rewrite N, I, S0. cbv zeta. change (10 ^ Z.of_nat 3) with 1000. fold (millis bits).
  rewrite app_nil_l. destruct (digits_are (millis bits / 1000)) as [Fd NE].
  rewrite (parse_f64_number _ (millis bits) 1000); [done| | |by apply parse_places].
  - destruct (digits (millis bits / 1000)) as [|b s]; [done|]. apply Forall_cons in Fd as [Hb _]. by constructor.
  - by destruct (digits (millis bits / 1000)).
Qed.

(** ** What the ring holds *)

(** A segment as it is pushed: its duration, bytes, key mark and date. The muxer numbers them. *)
Record Made : Set := mk_made { m_duration : Z; m_data : list byte; m_key : bool; m_date : option Z }.

Definition seg_name_of (i : nat) : text := txt "seg_" ++ decimal (Z.of_nat i).
Definition published (i : nat) (m : Made) : Segment :=
  mk_segment (seg_name_of i) (m_duration m) (m_data m) (m_key m) (Z.of_nat i) (m_date m) None.

Definition push_made (r : SegmentRing) (m : Made) : SegmentRing :=
  fst (push_with_pdt (txt "seg_" ++ decimal (next_sequence r)) (m_duration m) (m_data m) (m_key m) (m_date m) r).

Definition capacity (r : SegmentRing) : nat := (max_segments r + retain_extra r)%nat.

Lemma tail_of_drop {A} k (l : list A) : tail (drop k l) = drop (S k) l.
Proof. revert k. induction l as [|x l IH]; intros [|k]; try done. cbn [drop]. by rewrite IH. Qed.

Section history.
Context (window extra : nat).
Let cap := (window `max` 1 + extra)%nat.

Definition ring_of (made : list Made) : SegmentRing := fold_left push_made made (with_retain window extra).

Lemma ring_holds made : Z.of_nat (length made) < 2 ^ 64 ->
  ring_of made = mk_ring (drop (length made - cap) (imap published made)) (window `max` 1) extra (Z.of_nat (length made)).
Proof.
  unfold ring_of. induction made as [|m made IH] using rev_ind; intros L; [done|]. rewrite length_app in *. cbn [length] in *.
  rewrite fold_left_app, IH by lia. clear IH. cbn [fold_left]. unfold push_made, push_with_pdt. cbn [segments max_segments retain_extra next_sequence].
  fold cap. rewrite length_app, length_drop, length_imap. cbn [length].
  assert (W : wrap_u 64 (Z.of_nat (length made) + 1) = Z.of_nat (length made + 1)) by (rewrite wrap_u_small; unfold in_u; lia). rewrite W.
  rewrite imap_app. cbn [imap]. assert (C : (1 <= cap)%nat) by (unfold cap; lia).
  destruct (Nat.ltb_spec cap (length made - (length made - cap) + 1)%nat); cbn [fst]; f_equal.
  - replace (length made + 1 - cap)%nat with (S (length made - cap)) by lia. rewrite <- drop_app_le by (rewrite length_imap; lia).
    rewrite tail_of_drop. unfold published. cbn. by rewrite Nat.add_0_r.
  - replace (length made + 1 - cap)%nat with 0%nat by lia. replace (length made - cap)%nat with 0%nat by lia. rewrite !drop_0.
    unfold published. cbn. by rewrite Nat.add_0_r.
Qed.
End history.

Lemma seg_name_uri i : is_uri (seg_name_of i) = true.
Proof. unfold is_uri, seg_name_of. rewrite plain_app, plain_decimal. reflexivity. Qed.

Lemma decimal_inj i j : in_u 64 i -> in_u 64 j -> decimal i = decimal j -> i = j.
Proof. intros I J E. apply (f_equal (parse_uint 64)) in E. rewrite !parse_decimal in E by done. by injection E. Qed.

Lemma seg_name_inj i j : in_u 64 (Z.of_nat i) -> in_u 64 (Z.of_nat j) -> seg_name_of i = seg_name_of j -> i = j.
Proof. intros I J E. unfold seg_name_of in E. apply app_inv_head, decimal_inj in E; [lia|done|done]. Qed.

(** ** What is asked for is routed to the segment *)

Lemma strip_suffix_app p s : strip_suffix p (s ++ p) = Some s.
Proof.
  unfold strip_suffix, ends_with. rewrite rev_app_distr, starts_with_app, length_app. f_equal. by rewrite Nat.add_sub, take_app_length.
Qed.

Lemma strip_suffix_other p q s : ends_with p (s ++ q) = false -> strip_suffix p (s ++ q) = None.
Proof. unfold strip_suffix. by intros ->. Qed.

Definition a_component (s : text) : Prop := s <> [] /\ x2f ∉ s /\ x3f ∉ s.

(** The query that a URI of a playlist carries. *)
Definition full_query (sid : option Z) (token : option text) : text :=
  match token with Some k => append_query_to_uri (uid_query sid) (txt "k") k | None => uid_query sid end.

Lemma decimal_without b z : digit b = None -> b ∉ decimal z.
Proof. intros D H. destruct (decimal_digits z) as [F _]. rewrite Forall_forall in F. destruct (F _ H) as [? E]. congruence. Qed.

Lemma seg_name_without b i : b ∉ txt "seg_" -> digit b = None -> b ∉ seg_name_of i.
Proof. intros N D. unfold seg_name_of. rewrite elem_of_app. intros [?|H]; [done|by apply decimal_without in H]. Qed.

(** A byte is not in a literal. *)
Ltac absent := match goal with |- ¬ (?b ∈ ?s) => exact (bool_decide_eq_false_1 (b ∈ s) eq_refl) | |- ?b ∈ ?s -> False => exact (bool_decide_eq_false_1 (b ∈ s) eq_refl) end.

Lemma segment_uri_is c sid token i :
  segment_uri c sid token (seg_name_of i) = seg_name_of i ++ extension c ++ full_query sid token.
Proof.
  unfold segment_uri, full_query. destruct token as [k|]; [|done]. cbn [keyed]. unfold append_key_to_line.
  assert (U : is_uri (seg_name_of i ++ extension c ++ uid_query sid) = true).
  { apply is_uri_app; [apply seg_name_uri|]. by rewrite plain_app, plain_extension, plain_uid. }
  change (txt "#EXT-X-MAP:") with (x23 :: txt "EXT-X-MAP:"). change (txt "#EXT-X-PART:") with (x23 :: txt "EXT-X-PART:").
  change (txt "#EXT-X-PRELOAD-HINT:") with (x23 :: txt "EXT-X-PRELOAD-HINT:"). rewrite !(uri_not_tag x23) by done. cbn [orb].
  destruct (is_empty _) eqn:E; [by destruct (seg_name_of i ++ extension c ++ uid_query sid)|]. cbn [negb andb]. unfold append_query_to_uri.
  rewrite <- !app_assoc. do 3 f_equal. unfold contains_byte.
  assert (M : x3f ∈ seg_name_of i ++ extension c ++ uid_query sid <-> x3f ∈ uid_query sid).
  { rewrite !elem_of_app. split; [|by auto]. intros [H|[H|H]]; [| |done]; exfalso; revert H.
    - apply seg_name_without; [absent|done].
    - destruct c; absent. }
  by rewrite (bool_decide_ext _ _ M).
Qed.

Lemma split_pieces b l : l <> [] -> Forall (fun w => b ∉ w) l -> split_at b (join [b] l) = l.
Proof. apply split_join. Qed.

(** A token that can stand in a query. *)
Definition token_ok (token : option text) : Prop := forall k, token = Some k -> plain k = true /\ x26 ∉ k.
Definition sid_ok (sid : option Z) : Prop := forall z, sid = Some z -> in_u 64 z.

Definition read_query (sid : option Z) (token : option text) : QueryParams := mk_params sid None None None false false token.

Lemma uid_pair_read p z : in_u 64 z ->
  query_pair p (txt "uid=" ++ decimal z) = mk_params (Some z) (q_msn p) (q_part p) (q_skip p) (q_legacy p) (q_rewind p) (q_key_token p).
Proof.
  intros R. unfold query_pair. change (is_empty (txt "uid=" ++ decimal z)) with false.
  change (txt "uid=" ++ decimal z) with (txt "uid" ++ x3d :: decimal z). rewrite split_once_at by absent. cbv iota.
  change (equals (txt "uid") "uid" || equals (txt "uid") "session") with true. cbv iota. by rewrite (parse_decimal 64).
Qed.

Lemma token_pair_read p k : 
  query_pair p (txt "k" ++ x3d :: k) = mk_params (uid p) (q_msn p) (q_part p) (q_skip p) (q_legacy p) (q_rewind p) (Some k).
Proof.
  unfold query_pair. change (is_empty (txt "k" ++ x3d :: k)) with false. rewrite split_once_at by absent. reflexivity.
Qed.

(** The query of an address, read behind the question mark. *)
Lemma full_query_read sid token path : sid_ok sid -> token_ok token -> x3f ∉ path ->
  exists query, default (path ++ full_query sid token, []) (split_once x3f (path ++ full_query sid token)) = (path, query) /\
    query_parse query = read_query sid token.
Proof.
  intros S K N. unfold full_query, append_query_to_uri. destruct sid as [z|], token as [k|]; cbn [uid_query].
  - change (contains_byte x3f (txt "?uid=" ++ decimal z)) with true. cbv iota. exists (join [x26] [txt "uid=" ++ decimal z; txt "k" ++ x3d :: k]).
    split.
    + change (txt "?uid=" ++ decimal z) with (x3f :: txt "uid=" ++ decimal z). cbn [app]. rewrite split_once_at by done. reflexivity.
    + unfold query_parse. rewrite split_pieces; [|done|].
      * cbn [fold_left]. rewrite uid_pair_read, token_pair_read by by apply S. reflexivity.
      * repeat constructor; rewrite elem_of_app; intros [H|H].
        { revert H. absent. } { by apply decimal_without in H. } { revert H. absent. }
        apply elem_of_cons in H as [H|H]; [done|]. by apply (proj2 (K k eq_refl)).
  - exists (join [x26] [txt "uid=" ++ decimal z]). change (txt "?uid=" ++ decimal z) with (x3f :: txt "uid=" ++ decimal z). rewrite split_once_at by done.
    split; [reflexivity|]. unfold query_parse. rewrite split_pieces; [|done|].
    + cbn [fold_left]. rewrite uid_pair_read by by apply S. reflexivity.
    + repeat constructor. rewrite elem_of_app. intros [H|H]; [revert H; absent|by apply decimal_without in H].
  - change (contains_byte x3f []) with false. cbv iota. exists (join [x26] [txt "k" ++ x3d :: k]). rewrite app_nil_l, split_once_at by done.
    split; [reflexivity|]. unfold query_parse. rewrite split_pieces; [|done|].
    + cbn [fold_left]. rewrite token_pair_read. reflexivity.
    + repeat constructor. rewrite elem_of_app. intros [H|H]; [revert H; absent|].
      apply elem_of_cons in H as [H|H]; [done|]. by apply (proj2 (K k eq_refl)).
  - exists []. rewrite app_nil_r. unfold split_once. rewrite find_byte_none by done. done.
Qed.

Lemma components_of l : l <> [] -> Forall a_component l -> components (join [x2f] l) = l.
Proof.
  intros N F. unfold components, split_at. rewrite split_join; [|done|].
  - induction F as [|w l [W _] F IH]; [done|]. cbn [List.filter]. destruct w as [|b w]; [done|]. cbn. destruct l; [done|]. by rewrite IH.
  - apply (Forall_impl _ _ _ F). by intros w (_ & ? & _).
Qed.

Lemma join_without b sep l : b ∉ sep -> Forall (fun w => b ∉ w) l -> b ∉ join sep l.
Proof.
  intros S F. induction F as [|w l W F IH]; [apply not_elem_of_nil|]. destruct l as [|v l]; [done|]. rewrite join_cons by done.
  rewrite !elem_of_app. by intros [?|[?|?]].
Qed.

Lemma request_parts path sid token : sid_ok sid -> token_ok token -> Forall a_component path -> path <> [] ->
  parse_hls_request (x2f :: join [x2f] path ++ full_query sid token)
  = match route_path (join [x2f] path) (read_query sid token) with
    | Some kind => Ok kind
    | None => Err (InvalidPath (x2f :: join [x2f] path ++ full_query sid token))
    end.
Proof.
  intros S K F N. unfold parse_hls_request.
  destruct (full_query_read sid token (x2f :: join [x2f] path) S K) as (query & E & Q).
  { apply not_elem_of_cons. split; [done|]. apply join_without; [absent|]. apply (Forall_impl _ _ _ F). by intros w (_ & _ & ?). }
  cbn [app] in E. rewrite E, Q. cbn [default]. unfold strip_prefix. cbn [starts_with]. rewrite bool_decide_true by done. cbn [andb length drop default]. done.
Qed.

Lemma segment_file c i : a_component (seg_name_of i ++ extension c).
Proof.
  split; [by unfold seg_name_of|]. split; rewrite elem_of_app; (intros [H|H]; revert H; [apply seg_name_without; [absent|done]|destruct c; absent]).
Qed.

Lemma segment_route ns stream c i p : a_component ns -> a_component stream ->
  route_path (join [x2f] [ns; stream; seg_name_of i ++ extension c]) p
  = Some (RSegment (mk_key ns stream) (seg_name_of i) (uid p) (q_key_token p)).
Proof.
  intros Hn Hs. unfold route_path. rewrite components_of; [|done|repeat constructor; (apply Hn || apply Hs || apply segment_file)].
  unfold route_file. rewrite strip_suffix_other by (unfold ends_with; rewrite rev_app_distr; by destruct c).
  unfold equals. rewrite !bool_decide_false by (unfold seg_name_of; done). cbn [orb]. destruct c.
  - rewrite strip_suffix_other by (unfold ends_with; by rewrite rev_app_distr). cbn [extension]. by rewrite strip_suffix_app.
  - cbn [extension]. rewrite strip_suffix_app. reflexivity.
Qed.

Lemma playlist_route ns stream p : a_component ns -> a_component stream ->
  route_path (join [x2f] [ns; stream; txt "index.m3u8"]) p
  = Some (MediaPlaylist (mk_key ns stream) (uid p) (q_blocking p) (q_skip p) (q_legacy p) (q_rewind p)).
Proof.
  intros Hn Hs. unfold route_path.
  rewrite components_of; [reflexivity|done|repeat constructor; (apply Hn || apply Hs || done || absent)].
Qed.

(** ** An origin and a puller *)

Lemma before_last_at b s t : b ∉ t -> before_last b (s ++ b :: t) = Some s.
Proof.
  intros N. unfold before_last. rewrite rev_app_distr. cbn [rev]. rewrite <- app_assoc. cbn [app].
  rewrite find_byte_app by (rewrite list_elem_of_In, <- in_rev, <- list_elem_of_In; done). cbn [mbind option_bind]. f_equal.
  rewrite length_rev, length_app. cbn [length]. replace (length s + S (length t) - S (length t))%nat with (length s) by lia. apply take_app_length.
Qed.

Definition body_of (outputs : list HlsCoreOutput) : result PullError (list byte) :=
  match outputs with
  | [SendResponse _ 200 _ body _] => Ok body
  | _ => Err (HttpError [])
  end.

(** What the origin answers to a request: the playlist, with tokens when it validates them, and the
    segments of the ring to those who have the token. *)
Definition answer (r : SegmentRing) (c : HlsContainer) (token : option text) (reach : text -> bool) (target : text)
    : result PullError (list byte) :=
  match handle_input (HttpRequest HttpGet target 0 (mk_headers None None None false)) with
  | [Event (MediaPlaylistRequested conn _ sid _ _ _)] => body_of (handle_input (Command (SendPlaylist conn (playlist_text r sid c token))))
  | [Event (SegmentRequested conn _ name _ key_token)] =>
      if reach target && (match token with Some _ => bool_decide (key_token = token) | None => true end) then
        body_of (handle_input (Command match ring_get name r with Some s => SendSegment conn (seg_data s) | None => SendError conn (SegmentNotFound name) end))
      else Err (HttpError [])
  | _ => Err (HttpError [])
  end.

Definition fetch_from (r : SegmentRing) (c : HlsContainer) (token : option text) (reach : text -> bool) (url : text)
    : result PullError (list byte) :=
  match parse_http_url url with
  | Ok (_, _, path) => answer r c token reach path
  | Err e => Err e
  end.

Lemma parse_url host rest : x2f ∉ host -> x3a ∉ host -> parse_http_url (txt "http://" ++ host ++ x2f :: rest) = Ok (host, 80, x2f :: rest).
Proof.
  intros N M. unfold parse_http_url, strip_prefix. rewrite starts_with_app, drop_app_length, find_byte_app by done.
  rewrite take_app_length, drop_app_length. by rewrite find_byte_none.
Qed.

Lemma find_only {A} (f : A -> bool) l x : x ∈ l -> f x = true -> (forall y, y ∈ l -> f y = true -> y = x) -> List.find f l = Some x.
Proof.
  intros H F U. induction l as [|y l IH]; [by apply elem_of_nil in H|]. cbn. destruct (f y) eqn:E; [f_equal; apply U; [by left|done]|].
  apply elem_of_cons in H as [->|H]; [congruence|]. apply IH; [done|]. intros z Z. apply U. by right.
Qed.

Lemma drop_imap {A B} (f : nat -> A -> B) n l : drop n (imap f l) = imap (fun k => f (n + k)%nat) (drop n l).
Proof. revert f l. induction n as [|n IH]; intros f [|x l]; try done. cbn [drop imap]. by rewrite IH. Qed.

Lemma fold_set_insert segs set u : u ∈ fold_left (fun set s => set_insert (parsed_uri s) set) segs set <-> u ∈ set \/ u ∈ map parsed_uri segs.
Proof.
  revert set. induction segs as [|s segs IH]; intros set; cbn [fold_left map].
  { split; [by left|]. intros [?|H]; [done|by apply elem_of_nil in H]. }
  rewrite IH, elem_of_cons. unfold set_insert. case_bool_decide as E; [|rewrite elem_of_app, list_elem_of_singleton]; [|tauto].
  split; [tauto|]. intros [?|[->|?]]; tauto.
Qed.

Section pulling.
Context (host ns stream : text) (sid : option Z) (token : option text) (c : HlsContainer).
Context (Hhost : x2f ∉ host /\ x3a ∉ host) (Hns : a_component ns) (Hstream : a_component stream) (Hsid : sid_ok sid) (Htoken : token_ok token).

Let stream_url : text := txt "http://" ++ host ++ x2f :: ns ++ x2f :: stream.
Definition source_url : text := stream_url ++ x2f :: txt "index.m3u8" ++ uid_query sid.
Definition uri (i : nat) : text := segment_uri c sid token (seg_name_of i).
Definition target_of (i : nat) : text := x2f :: join [x2f] [ns; stream; seg_name_of i ++ extension c] ++ full_query sid token.

#[local] Lemma tokens_plain k : token = Some k -> plain k = true.
Proof. apply Htoken. Qed.

Lemma uri_inj i j : in_u 64 (Z.of_nat i) -> in_u 64 (Z.of_nat j) -> uri i = uri j -> i = j.
Proof. intros I J E. unfold uri in E. rewrite !segment_uri_is in E. by apply app_inv_tail, seg_name_inj in E. Qed.

Lemma resolve_uri i : resolve_url source_url (uri i) = txt "http://" ++ host ++ target_of i.
Proof.
  unfold uri. rewrite segment_uri_is. unfold resolve_url. change (_ || _) with false. cbv iota. unfold source_url.
  rewrite before_last_at by (rewrite elem_of_app; intros [H|H]; revert H; [absent|destruct sid; [|absent]; cbn [uid_query]; rewrite elem_of_app; intros [H|H]; revert H; [absent|by apply decimal_without]]).
  unfold stream_url, target_of. cbn [join]. by rewrite <- !app_assoc, !app_comm_cons, <- !app_assoc.
Qed.

Lemma playlist_fetched r reach : fetch_from r c token reach source_url = Ok (playlist_text r sid c token).
Proof.
  assert (E : source_url = txt "http://" ++ host ++ x2f :: join [x2f] [ns; stream; txt "index.m3u8"] ++ full_query sid None).
  { unfold source_url, stream_url. cbn [join full_query]. repeat (rewrite <- !app_assoc; cbn [app]). done. }
  rewrite E. unfold fetch_from. rewrite parse_url by apply Hhost. unfold answer. cbn [handle_input handle_http_request].
  rewrite request_parts; [|done|done|repeat constructor; (apply Hns || apply Hstream || done || absent)|done].
  by rewrite playlist_route.
Qed.

Lemma segment_fetched r reach i :
  fetch_from r c token reach (resolve_url source_url (uri i))
  = if reach (target_of i) then match ring_get (seg_name_of i) r with Some s => Ok (seg_data s) | None => Err (HttpError []) end
    else Err (HttpError []).
Proof.
  rewrite resolve_uri. unfold fetch_from, target_of. rewrite parse_url by apply Hhost. unfold answer. cbn [handle_input handle_http_request].
  rewrite request_parts; [|done|done|repeat constructor; (apply Hns || apply Hstream || apply segment_file)|done].
  rewrite segment_route by done. cbn [dispatch_request uid q_key_token read_query]. fold (target_of i).
  replace (match token with Some _ => bool_decide (token = token) | None => true end) with true by (destruct token; by rewrite ?bool_decide_true).
  rewrite andb_true_r. destruct (reach (target_of i)); [|done]. by destruct (ring_get (seg_name_of i) r).
Qed.

(** *** One round *)

(** The entries of a playlist that lists what was made from the [j]th on. *)
Definition listing (j : nat) (made : list Made) : list ParsedSegment :=
  imap (fun k m => parsed_segment c sid token (published (j + k) m)) made.

Lemma listing_cons j m made : listing j (m :: made) = parsed_segment c sid token (published j m) :: listing (S j) made.
Proof.
  unfold listing. cbn [imap]. rewrite Nat.add_0_r. f_equal. apply imap_ext. intros k x _. cbn. by rewrite Nat.add_succ_r.
Qed.

Lemma listing_uris j made : map parsed_uri (listing j made) = map uri (seq j (length made)).
Proof. revert j. induction made as [|m made IH]; intros j; [done|]. rewrite listing_cons. cbn [map length seq]. by rewrite IH. Qed.

(** What a round takes of a listing when [D] segments were taken before: the [n] from the
    [j]th or the [D]th on, all of them when the origin is reached. *)
Lemma pull_listing fetch (reach : text -> bool) made j D dl :
  Z.of_nat (j + length made) < 2 ^ 64 ->
  (forall k m, made !! k = Some m ->
     fetch (resolve_url source_url (uri (j + k))) = if reach (target_of (j + k)) then Ok (m_data m) else Err (HttpError [])) ->
  (forall i, (j <= i < D)%nat -> uri i ∈ dl) -> (forall i, (j `max` D <= i < j + length made)%nat -> uri i ∉ dl) ->
  let s := (j `max` D)%nat in
  exists n, pull_segments fetch source_url dl (listing j made)
            = (dl ++ map uri (seq s n), map m_data (take n (drop (s - j) made))) /\ (s + n <= s `max` (j + length made))%nat /\ ((forall t, reach t = true) -> (s + n = s `max` (j + length made))%nat).
Proof.
  revert j D dl. induction made as [|m made IH]; intros j D dl L Hf Hold Hnew; cbv zeta.
  { exists 0%nat. cbn. rewrite drop_nil, app_nil_r. split; [done|]. lia. }
  rewrite listing_cons. cbn [pull_segments length] in *. fold (uri j). change (parsed_uri (parsed_segment c sid token (published j m))) with (uri j).
  assert (Hf' : forall k m', made !! k = Some m' ->
     fetch (resolve_url source_url (uri (S j + k))) = if reach (target_of (S j + k)) then Ok (m_data m') else Err (HttpError [])).
  { intros k m' Hk. replace (S j + k)%nat with (j + S k)%nat by lia. by apply (Hf (S k)). }
  destruct (Nat.lt_ge_cases j D) as [J|J].
  - rewrite bool_decide_true by (apply Hold; lia).
    destruct (IH (S j) D dl) as (n & E & B & A); [lia|done|intros; apply Hold; lia|intros; apply Hnew; lia|].
    replace (S j `max` D)%nat with D in * by lia. replace (j `max` D)%nat with D by lia. exists n. rewrite E.
    replace (D - j)%nat with (S (D - S j)) by lia. cbn [drop]. split; [done|]. split; [lia|]. intros R. specialize (A R). lia.
  - replace (j `max` D)%nat with j in * by lia. rewrite bool_decide_false by (apply Hnew; lia).
    pose proof (Hf 0%nat m eq_refl) as F. rewrite Nat.add_0_r in F. rewrite F. destruct (reach (target_of j)) eqn:R.
    + destruct (IH (S j) (S j) (dl ++ [uri j])) as (n & E & B & A); [lia|done|lia| |].
      { intros i I. rewrite elem_of_app, list_elem_of_singleton. intros [H|H]; [apply (Hnew i); [lia|done]|].
        apply uri_inj in H; unfold in_u; lia. }
      rewrite Nat.max_id in *. unfold set_insert. rewrite bool_decide_false by (apply Hnew; lia). rewrite E.
      exists (S n). rewrite Nat.sub_diag. rewrite Nat.sub_diag in *. cbn [drop take map seq]. rewrite <- app_assoc. split; [done|].
      split; [lia|]. intros T. specialize (A T). lia.
    + exists 0%nat. rewrite app_nil_r. split; [done|]. split; [lia|]. intros T. by rewrite T in R.
Qed.

(** The state of a puller that has taken the first [D] of what was made, or has missed them. *)
Definition holds (cap : nat) (made : list Made) (D : nat) (dl : list text) : Prop :=
  (D <= length made)%nat /\ (forall u, u ∈ dl -> exists i, (i < D)%nat /\ u = uri i) /\
  (forall i, (length made - cap <= i < D)%nat -> uri i ∈ dl).

Lemma round_takes window extra made reach D dl :
  let cap := (window `max` 1 + extra)%nat in
  let b := (length made - cap)%nat in
  let s := (b `max` D)%nat in
  Z.of_nat (length made) < 2 ^ 64 -> holds cap made D dl ->
  exists dl' D' n, pull_round (fetch_from (ring_of window extra made) c token reach) source_url dl = Ok (dl', map m_data (take n (drop s made))) /\
    holds cap made D' dl' /\ (s + n <= D')%nat /\ ((forall t, reach t = true) -> (s + n = length made)%nat).
Proof.
  intros cap b s L (HD & Hin & Hold). set (r := ring_of window extra made).
  assert (R : r = mk_ring (imap (fun k => published (b + k)) (drop b made)) (window `max` 1) extra (Z.of_nat (length made))).
  { unfold r. rewrite ring_holds by done. f_equal. apply drop_imap. }
  assert (LD : length (drop b made) = (length made - b)%nat) by apply length_drop.
  unfold pull_round. rewrite playlist_fetched. cbn [result_bind].
  assert (F : Forall (fun s => is_uri (seg_name s) = true) (segments r)).
  { rewrite R. cbn [segments]. apply Forall_forall. intros x (k & m & -> & _)%elem_of_lookup_imap. apply seg_name_uri. }
  assert (Q : in_u 64 (first_sequence r)).
  { unfold first_sequence. rewrite R. cbn [segments]. destruct (drop b made) as [|m l] eqn:E; cbn; [done|]. cbn in LD. unfold in_u. lia. }
  destruct (playlist_read r sid c token tokens_plain F Q) as [U P]. rewrite U, P. cbn [negb parsed_segments].
  assert (E : map (parsed_segment c sid token) (segments r) = listing b (drop b made)).
  { rewrite R. cbn [segments]. unfold listing. generalize (drop b made). intros l.
    change map with (@fmap list _). apply fmap_imap. }
  rewrite E. destruct (pull_listing (fetch_from r c token reach) reach (drop b made) b D dl) as (n & G & B & A).
  - lia.
  - intros k m Hk. rewrite segment_fetched. destruct (reach (target_of (b + k))); [|done].
    rewrite R. unfold ring_get. cbn [segments].
    rewrite (find_only _ _ (published (b + k) m)); [done| | |].
    + apply elem_of_lookup_imap. by exists k, m.
    + by apply bool_decide_eq_true.
    + intros y (k' & m' & -> & Hk')%elem_of_lookup_imap N%bool_decide_eq_true. apply seg_name_inj in N.
      * assert (k' = k) as -> by lia. congruence.
      * apply lookup_lt_Some in Hk'. unfold in_u. lia.
      * apply lookup_lt_Some in Hk. unfold in_u. lia.
  - intros i I. apply Hold. unfold b, cap in I. lia.
  - intros i I H. apply Hin in H as (i' & I' & H). apply uri_inj in H; unfold in_u; lia.
  - fold s in G, B, A. rewrite G. rewrite drop_drop in *. replace (b + (s - b))%nat with s by lia.
    assert (SN : (s + n <= length made)%nat) by lia.
    set (dl2 := dl ++ map uri (seq s n)).
    assert (H2 : holds cap made (s + n) dl2).
    { split; [done|]. split.
      - intros u [H|(i & -> & I%elem_of_seq)%list_elem_of_fmap]%elem_of_app; [apply Hin in H as (i & I & ->); exists i; split; [lia|done]|]. exists i. split; [lia|done].
      - intros i I. apply elem_of_app. destruct (Nat.lt_ge_cases i D); [left; apply Hold; lia|]. right. apply list_elem_of_fmap. exists i.
        split; [done|]. apply elem_of_seq. unfold b, cap in *. lia. }
    unfold trim_downloaded. destruct (100 <? length dl2)%nat; [|exists dl2, (s + n)%nat, n; split; [done|]; split; [exact H2|]; split; [lia|]; intros T; specialize (A T); lia].
    exists (fold_left (fun set s => set_insert (parsed_uri s) set) (listing b (drop b made)) []), (length made), n.
    split; [done|]. split; [|split; [done|]; intros T; specialize (A T); lia].
    split; [done|]. split.
    + intros u [H|H]%fold_set_insert; [by apply elem_of_nil in H|]. rewrite listing_uris in H. apply list_elem_of_fmap in H as (i & -> & I%elem_of_seq).
      exists i. split; [lia|done].
    + intros i I. apply fold_set_insert. right. rewrite listing_uris. apply list_elem_of_fmap. exists i. split; [done|]. apply elem_of_seq. lia.
Qed.
End pulling.

(** *** A session *)

(** Segments are made, and the playlist is polled; what [reach] refuses cannot be downloaded in
    that round. *)
Inductive hls_step : Set := Make (m : Made) | Poll (reach : text -> bool).

Record Session : Set := mk_session { origin : SegmentRing; downloaded : list text; fed : list (list byte) }.

(** What is made, and how much of it before the last poll. *)
Definition made_in (steps : list hls_step) : list Made := omap (fun s => match s with Make m => Some m | Poll _ => None end) steps.
Fixpoint polled (last n : nat) (steps : list hls_step) : nat :=
  match steps with
  | [] => last
  | Make _ :: steps => polled last (S n) steps
  | Poll _ :: steps => polled n n steps
  end.

(** Every poll comes before the ring drops what is new, and downloads what it lists. *)
Fixpoint keeps_up (cap unseen : nat) (steps : list hls_step) : Prop :=
  match steps with
  | [] => True
  | Make _ :: steps => keeps_up cap (S unseen) steps
  | Poll reach :: steps => (unseen <= cap)%nat /\ (forall t, reach t = true) /\ keeps_up cap 0 steps
  end.

Section session.
Context (host ns stream : text) (sid : option Z) (token : option text) (c : HlsContainer) (window extra : nat).

Definition session_step (s : Session) (step : hls_step) : Session :=
  match step with
  | Make m => mk_session (push_made (origin s) m) (downloaded s) (fed s)
  | Poll reach =>
      match pull_round (fetch_from (origin s) c token reach) (source_url host ns stream sid) (downloaded s) with
      | Ok (downloaded, found) => mk_session (origin s) downloaded (fed s ++ found)
      | Err _ => s
      end
  end.

Definition session_run (steps : list hls_step) : Session := fold_left session_step steps (mk_session (with_retain window extra) [] []).

Context (Hhost : x2f ∉ host /\ x3a ∉ host) (Hns : a_component ns) (Hstream : a_component stream) (Hsid : sid_ok sid) (Htoken : token_ok token).
Let cap := (window `max` 1 + extra)%nat.

Lemma holds_more made m D dl : holds sid token c cap made D dl -> holds sid token c cap (made ++ [m]) D dl.
Proof. intros (A & B & H). unfold holds. rewrite length_app. cbn [length]. repeat split; [lia|done|]. intros i I. apply H. lia. Qed.

Lemma ring_of_more made m : ring_of window extra (made ++ [m]) = push_made (ring_of window extra made) m.
Proof. unfold ring_of. by rewrite fold_left_app. Qed.

Lemma take_sublist {A} (l : list A) i j : (i <= j)%nat -> take i l `sublist_of` take j l.
Proof. intros L. replace (take i l) with (take i (take j l)) by (rewrite take_take; f_equal; lia). apply sublist_take. Qed.

Lemma taken_more (made : list Made) D s n D' : (D <= s)%nat -> (s + n <= D')%nat ->
  map m_data (take D made) ++ map m_data (take n (drop s made)) `sublist_of` map m_data (take D' made).
Proof.
  intros L M. rewrite <- map_app. apply (fmap_sublist m_data). transitivity (take s made ++ take n (drop s made)).
  - apply sublist_app; [by apply take_sublist|done].
  - rewrite take_take_drop. by apply take_sublist.
Qed.

Lemma made_one made m steps : made ++ made_in (Make m :: steps) = (made ++ [m]) ++ made_in steps.
Proof. by rewrite <- app_assoc. Qed.

Lemma run_in_order steps made D dl fd :
  Z.of_nat (length (made ++ made_in steps)) < 2 ^ 64 -> holds sid token c cap made D dl -> fd `sublist_of` map m_data (take D made) ->
  exists D', fed (fold_left session_step steps (mk_session (ring_of window extra made) dl fd)) `sublist_of` map m_data (take D' (made ++ made_in steps)).
Proof.
  revert made D dl fd. induction steps as [|[m|reach] steps IH]; intros made D dl fd L H F; cbn [fold_left session_step].
  - exists D. cbn. by rewrite app_nil_r.
  - cbn [origin downloaded fed]. rewrite <- ring_of_more. rewrite made_one in *. apply (IH _ D); [done|by apply holds_more|].
    etrans; [done|]. apply fmap_sublist. rewrite take_app_le by apply H. done.
  - cbn [origin downloaded fed].
    destruct (round_takes host ns stream sid token c Hhost Hns Hstream Hsid Htoken window extra made reach D dl) as (dl' & D' & n & -> & H' & B & _); [rewrite length_app in L; lia|done|].
    apply (IH _ D'); [done|done|]. etrans; [by apply sublist_app; [exact F|reflexivity]|]. apply taken_more; [lia|done].
Qed.

Lemma run_complete steps made D dl :
  Z.of_nat (length (made ++ made_in steps)) < 2 ^ 64 -> holds sid token c cap made D dl -> keeps_up cap (length made - D) steps ->
  fed (fold_left session_step steps (mk_session (ring_of window extra made) dl (map m_data (take D made))))
  = map m_data (take (polled D (length made) steps) (made ++ made_in steps)).
Proof.
  revert made D dl. induction steps as [|[m|reach] steps IH]; intros made D dl L H K; cbn [fold_left session_step polled keeps_up] in *.
  - cbn. by rewrite app_nil_r.
  - cbn [origin downloaded fed]. rewrite <- ring_of_more. rewrite made_one in *.
    pose proof (proj1 H) as HD. rewrite <- (take_app_le made [m] D HD). rewrite (IH _ D).
    + rewrite length_app. cbn [length]. by rewrite Nat.add_1_r.
    + exact L.
    + by apply holds_more.
    + rewrite length_app. cbn [length]. by replace (length made + 1 - D)%nat with (S (length made - D)) by lia.
  - cbn [origin downloaded fed]. destruct K as (K1 & K2 & K3). pose proof (proj1 H) as HD.
    destruct (round_takes host ns stream sid token c Hhost Hns Hstream Hsid Htoken window extra made reach D dl) as (dl' & D' & n & -> & H' & B & A); [rewrite length_app in L; lia|done|].
    specialize (A K2). assert (S0 : ((length made - (window `max` 1 + extra)) `max` D = D)%nat) by (unfold cap in K1; lia). rewrite S0 in A, B |- *.
    assert (D' = length made) as -> by (pose proof (proj1 H'); lia).
    rewrite <- map_app. replace n with (length made - D)%nat by lia. rewrite (take_ge (drop D made)) by (rewrite length_drop; lia). rewrite take_drop.
    rewrite <- (take_ge made (length made)) at 2 by lia. rewrite (IH _ (length made)); [done|done|done|]. by rewrite Nat.sub_diag.
Qed.

(** A remote server that pulls an HLS stream feeds its demuxer segments of the stream in the
    order in which they were made, none twice, whatever downloads fail and however polls and new
    segments interleave. If no download fails and no more segments than the ring holds are made
    between two polls, it is fed everything made before the last poll. Playlists are text that the
    origin writes and the puller parses; addresses are requests that the origin routes, with or
    without session and token. *)
Theorem hls_pull_gets_stream steps :
  Z.of_nat (length (made_in steps)) < 2 ^ 64 ->
  fed (session_run steps) `sublist_of` map m_data (made_in steps) /\
  (keeps_up cap 0 steps -> fed (session_run steps) = map m_data (take (polled 0 0 steps) (made_in steps))).
Proof.
  intros L. assert (H0 : holds sid token c cap [] 0 []).
  { split; [done|]. split; [intros u U; by apply elem_of_nil in U|]. intros i I. lia. }
  split.
  - destruct (run_in_order steps [] 0 [] []) as [D' F]; [done|done|done|]. etrans; [exact F|]. apply (fmap_sublist m_data), sublist_take.
  - intros K. exact (run_complete steps [] 0 [] L H0 K).
Qed.
End session.

(** The playlist that the origin writes for a ring is read back by the parser of a puller:
    every segment in order, with its address and with its duration to the nearest millisecond, the
    number of the first one and the greatest duration in whole seconds, and no end. *)
Theorem hls_playlist_comes_back r sid c token :
  (forall k, token = Some k -> plain k = true) -> Forall (fun s => is_uri (seg_name s) = true) (segments r) ->
  Forall (fun s => finite_duration (seg_duration s) = true) (segments r) -> segments r <> [] ->
  in_u 64 (first_sequence r) -> in_u 32 (ceil_as_u64 (max_duration r)) ->
  parse_media_playlist (playlist_text r sid c token)
  = Ok (mk_parsed (ceil_as_u64 (max_duration r)) (first_sequence r)
          (map (fun s => mk_parsed_segment (f64_round (millis (seg_duration s)) 1000) (segment_uri c sid token (seg_name s))) (segments r)) false) /\
  Forall (fun s => let '(num, den) := f64_ratio (seg_duration s) in 2 * Z.abs (millis (seg_duration s) * den - 1000 * num) <= den) (segments r).
Proof.
  intros K N F E Q T. destruct (playlist_read r sid c token K N Q) as [_ ->]. split.
  - do 2 f_equal; [destruct (segments r); [done|]; cbn [is_empty]; by rewrite (parse_decimal 32)|].
    apply map_ext_in. intros s H%list_elem_of_In. rewrite Forall_forall in F. unfold parsed_segment. by rewrite printed_is_millis by by apply F.
  - apply (Forall_impl _ _ _ F). intros s (_ & _ & _ & R & D)%finite_parts. unfold millis. destruct (f64_ratio (seg_duration s)) as [num den]. cbn [fst snd] in *.
    destruct (round_even_bounds (num * 1000) den D ltac:(lia)) as [_ B]. by rewrite (Z.mul_comm 1000).
Qed.

Definition ex_made (n : Z) : Made := mk_made (f64_round (4000 + n) 1000) [byte_of n] true (Some (1778893323456 + n)).

Lemma hls_playlist_comes_back_witness :
  parse_media_playlist (playlist_text (fold_left push_made (map ex_made [0; 1; 2]) (ring_new 2)) (Some 7) ContainerFmp4 (Some (txt "ab")))
  = Ok (mk_parsed 5 1 [mk_parsed_segment (f64_round 4001 1000) (txt "seg_1.m4s?uid=7&k=ab"); mk_parsed_segment (f64_round 4002 1000) (txt "seg_2.m4s?uid=7&k=ab")] false).
Proof.
  destruct (hls_playlist_comes_back (fold_left push_made (map ex_made [0; 1; 2]) (ring_new 2)) (Some 7) ContainerFmp4 (Some (txt "ab"))) as [H _].
  - by intros k [= <-].
  - repeat constructor.
  - repeat constructor; vm_compute; reflexivity.
  - vm_compute. discriminate.
  - vm_compute. split; [discriminate|reflexivity].
  - vm_compute. split; [discriminate|reflexivity].
  - vm_compute in H |- *. exact H.
Defined.

Definition ex_steps : list hls_step :=
  let all := fun _ => true in
  [Make (ex_made 0); Make (ex_made 1); Poll all; Poll all; Make (ex_made 2); Poll all; Make (ex_made 3); Make (ex_made 4); Poll all; Make (ex_made 5)].

Lemma component_txt s : bool_decide (txt s <> [] /\ x2f ∉ txt s /\ x3f ∉ txt s) = true -> a_component (txt s).
Proof. by intros H%bool_decide_eq_true. Qed.

Lemma hls_pull_gets_stream_witness :
  fed (session_run (txt "origin.example") (txt "live") (txt "cam") (Some 7) (Some (txt "ab")) ContainerTs 2 0 ex_steps)
  = [[x00]; [x01]; [x02]; [x03]; [x04]].
Proof.
  apply (hls_pull_gets_stream (txt "origin.example") (txt "live") (txt "cam") (Some 7) (Some (txt "ab")) ContainerTs 2 0).
  - split; absent.
  - by apply component_txt.
  - by apply component_txt.
  - by intros z [= <-].
  - intros k [= <-]. split; [done|absent].
  - vm_compute. reflexivity.
  - repeat split; cbn; lia.
Defined.

(** ** What the puller and the pacer lose *)

(** When the puller forgets old addresses, it notes everything that the playlist lists, also a
    segment whose download has just failed; it never asks for that one again. *)
Definition lost_steps : list hls_step :=
  map (fun n => Make (ex_made (Z.of_nat n))) (seq 0 102) ++
  [Poll (fun t => negb (bool_decide (t = target_of (txt "live") (txt "cam") None None ContainerTs 101)));
   Poll (fun _ => true); Poll (fun _ => true)].
Example failed_download_is_lost :
  length (fed (session_run (txt "h") (txt "live") (txt "cam") None None ContainerTs 102 0 lost_steps)) = 101%nat.
Proof. vm_compute. reflexivity. Qed.

Lemma buffer_span_cons first f l : l <> [] -> buffer_span_ms first (f :: l) = buffer_span_ms first l.
Proof. destruct l; [done|]. unfold buffer_span_ms. by rewrite last_cons_cons. Qed.

(** The pacer measures its buffer from the first frame of the playback. Once a frame is further
    from it than the limit, every call plays the whole buffer at once. *)
Theorem pacer_gives_up first elapsed max_buffer frames :
  0 <= max_buffer < buffer_span_ms first frames -> drain_frames first elapsed max_buffer true frames = (frames, []).
Proof.
  intros [P S0]. induction frames as [|f l IH]; [done|]. cbn [drain_frames]. rewrite orb_true_r. cbn [andb].
  destruct l as [|g l]; [cbn; by destruct (_ <=? _)|]. rewrite buffer_span_cons in S0 by done.
  rewrite (proj2 (Z.leb_gt _ _)) by zdm. by rewrite IH.
Qed.

(** ** Parts that are listed are there *)

Definition retained (s : LowLatencyState) : list HlsPart := concat (map parts (completed_segments_parts s)) ++ current_parts s.

Inductive ll_reach : LowLatencyState -> Prop :=
  | ll_start ms n : ll_reach (ll_new ms n)
  | ll_target ms s : ll_reach s -> ll_reach (set_part_target_ms ms s)
  | ll_sample t k s : ll_reach s -> ll_reach (note_sample t k s)
  | ll_part d t s : ll_reach s -> part_seq s + 1 < 2 ^ 64 -> ll_reach (fst (finalize_part d t s))
  | ll_boundary n s : ll_reach s -> ll_reach (on_segment_boundary n s)
  | ll_reports r s : ll_reach s -> ll_reach (set_rendition_reports r s).

(** The parts kept are the latest ones, numbered without a gap. *)
Definition numbered (s : LowLatencyState) : Prop :=
  Z.of_nat (length (retained s)) <= part_seq s < 2 ^ 64 /\
  map part_sequence (retained s) = seqZ (part_seq s - Z.of_nat (length (retained s))) (Z.of_nat (length (retained s))) /\
  Forall (fun p => part_uri p = part_name_of (part_sequence p)) (retained s).

Lemma numbered_drop s s' k : numbered s -> part_seq s' = part_seq s -> retained s' = drop k (retained s) -> numbered s'.
Proof.
  intros (A & B & F) P R. unfold numbered. rewrite P, R, length_drop. split; [lia|]. split; [|by apply Forall_drop].
  change map with (@fmap list _) in *. rewrite fmap_drop, B. apply list_eq. intros i. rewrite lookup_drop.
  destruct (decide (i < length (retained s) - k)%nat).
  - rewrite !lookup_seqZ_lt by lia. f_equal. lia.
  - rewrite !lookup_seqZ_ge by lia. done.
Qed.

Lemma ll_numbered s : ll_reach s -> numbered s.
Proof.
  induction 1 as [| | t k s R IH|d t s R IH L|n s R IH|].
  - by repeat split.
  - done.
  - unfold note_sample. by destruct (current_part_start_dts_ms s).
  - destruct IH as (A & B & F). unfold numbered, finalize_part, retained in *. cbn [fst current_parts completed_segments_parts part_seq].
    rewrite wrap_u_small by (unfold in_u; lia). rewrite app_assoc, map_app, B. rewrite (length_app _ [_]). cbn [map length part_sequence].
    split; [lia|]. split; [|apply Forall_app; split; [done|]; by repeat constructor].
    replace (part_seq s + 1 - Z.of_nat (_ + 1)) with (part_seq s - Z.of_nat (length (concat (map parts (completed_segments_parts s)) ++ current_parts s))) by lia.
    rewrite Nat2Z.inj_add. rewrite seqZ_app by lia. f_equal. change (Z.of_nat 1) with 1. rewrite seqZ_cons by lia. f_equal. lia.
  - destruct (current_parts s) as [|p l] eqn:E.
    { apply (numbered_drop s _ 0 IH); [done|]. unfold retained, on_segment_boundary. rewrite E. by cbn. }
    unfold on_segment_boundary. rewrite E. cbn [is_empty].
    assert (G : concat (map parts (completed_segments_parts s ++ [mk_parts (parent_segment_seq s) (p :: l)])) = retained s).
    { unfold retained. rewrite map_app, concat_app, E. cbn. by rewrite app_nil_r. }
    destruct (_ <? _)%nat.
    + eapply (numbered_drop s _ (length (parts (hd (mk_parts 0 []) (completed_segments_parts s ++ [mk_parts (parent_segment_seq s) (p :: l)])))) IH); [done|].
      rewrite <- G. unfold retained. cbn [completed_segments_parts current_parts]. rewrite app_nil_r.
      destruct (completed_segments_parts s ++ _) as [|sp rest]; [done|]. cbn. by rewrite drop_app_length.
    + apply (numbered_drop s _ 0 IH); [done|]. rewrite <- G. unfold retained. cbn. by rewrite app_nil_r.
  - done.
Qed.

(** Every part that is kept, and with it every part that the playlist lists, is found under the
    number in its address; a number that is not kept gives nothing. *)
Theorem parts_are_found s : ll_reach s ->
  (forall p, p ∈ retained s -> get_part (part_sequence p) s = Some p /\ part_uri p = part_name_of (part_sequence p)) /\
  (forall n p, get_part n s = Some p -> p ∈ retained s /\ part_sequence p = n).
Proof.
  intros (A & B & F)%ll_numbered.
  assert (U : forall p q, p ∈ retained s -> q ∈ retained s -> part_sequence p = part_sequence q -> p = q).
  { intros p q (i & Hi)%list_elem_of_lookup (j & Hj)%list_elem_of_lookup E. change map with (@fmap list _) in B.
    pose proof (f_equal (fun l => l !! i) B) as Bi. pose proof (f_equal (fun l => l !! j) B) as Bj. cbn in Bi, Bj.
    rewrite list_lookup_fmap, Hi in Bi. rewrite list_lookup_fmap, Hj in Bj. apply lookup_lt_Some in Hi as Li. apply lookup_lt_Some in Hj as Lj.
    rewrite lookup_seqZ_lt in Bi, Bj by lia. injection Bi as Bi. injection Bj as Bj. assert (i = j) as -> by lia. congruence. }
  split.
  - intros p H. split; [|rewrite Forall_forall in F; by apply F]. unfold get_part, find_part.
    destruct (List.find (fun q => part_sequence q =? part_sequence p) (current_parts s)) as [q|] eqn:E.
    { apply List.find_some in E as [Q E]. f_equal. apply U; [|done|by apply Z.eqb_eq]. apply elem_of_app. right. by apply list_elem_of_In. }
    apply elem_of_app in H as [H|H].
    + apply find_only; [done|apply Z.eqb_refl|]. intros y Y E'. apply U; [apply elem_of_app; by left..|by apply Z.eqb_eq].
    + apply List.find_none with (x := p) in E; [by rewrite Z.eqb_refl in E|by apply list_elem_of_In].
  - intros n p. unfold get_part, find_part. destruct (List.find _ (current_parts s)) as [q|] eqn:E.
    + intros [= <-]. apply List.find_some in E as [Q E]. split; [apply elem_of_app; right; by apply list_elem_of_In|by apply Z.eqb_eq].
    + intros G. apply List.find_some in G as [Q G]. split; [apply elem_of_app; left; by apply list_elem_of_In|by apply Z.eqb_eq].
Qed.
